(* ===== verification/_CoqProject ===== *)
-Q . S2P
Prelude.v
Interleave.v
Queue.v
Retry.v
Storage.v
UploadStore.v
Upload.v
UploadFinalize.v
UploadFlow.v
GoStrings.v
Encoding.v
Secretbox.v
AuthStore.v
Devices.v
LoginLock.v
Sessions.v
Mfa.v
AccountStore.v
Account.v
AccountSafety.v
Quota.v
RateLimit.v
JobLoop.v
ShortId.v
Playlist.v
MediaKeys.v
MediaStore.v
Transcode.v
MediaGC.v
VideoStore.v
Video.v
VideoSafety.v
VideoOutcome.v
VideoSource.v
VideoPasswords.v
UrlSafety.v
MigrationStore.v
Migration.v
MigrationSafety.v
MigrationFlow.v
Playback.v
LiveStore.v
Live.v
LiveSafety.v
LiveReplay.v
LiveViewers.v
MessageStore.v
Messaging.v
E2ee.v
MessagingSafety.v
MessagingPages.v
LeaderLock.v
HttpSig.v
CommentStore.v
Comments.v
CommentSafety.v
