(* ===== verification/Prelude.v ===== *)
(** * vidra-core: the services of a video platform, verified

    vidra-core is the Go backend of a video platform: an HTTP API, background
    workers, a PostgreSQL store and a blob store for media. This library models
    the services that carry the promises users notice (an uploaded file is
    published byte for byte; a password, a code or a token opens exactly what it
    should, once; nothing that is referenced is deleted) together with the SQL
    statements, readers and schedules they are built from, and proves those
    promises.

    ** The parts and how they interact

    - A client uploads a file in chunks ([upload]). Each chunk is one object of
      the blob store ([storage]) and one row of a ledger. Completing the upload
      inserts a durable job and marks the session queued ([uploadfinalize]).
      Workers claim jobs under a lease ([lease]), assemble the chunks into one
      stream, hand it to the media pipeline, and record success, a retry
      ([retry]) or a dead letter. A sweeper removes stale sessions; another
      returns the jobs of dead workers to the queue. The workers are driven by
      [jobloop].
    - The pipeline scans, probes and publishes the file ([video]), which may be
      quarantined, scheduled or held until its renditions exist. The
      [transcode] queue encodes each generation and promotes it; its hooks
      release the hold. [mediagc] deletes the objects no row refers to, and
      [storagemigration] moves the whole object store elsewhere while all of
      this goes on.
    - A client signs in ([auth]): the attempt is counted and may be refused
      before the password is looked at ([loginlock.go]), the account may have a
      second factor ([mfa.go]), a session row is created and an access token is
      bound to it ([service.go], [jwt.go]). Every request checks the token
      against its session ([sessionauth.go]); refreshing rotates the session;
      sensitive changes ask for a step-up assertion ([stepup.go]); a sign-in
      from a new device is announced by mail ([devices.go]). The secrets of
      second factors are sealed at rest ([secretbox]). Accounts come from
      registration or an owner claim and change through mailed links
      ([reset.go], [emailchange.go], [ownerclaim.go] and the like).
    - Media requests carry signed tokens ([playback]). A creator goes live by
      publishing under a secret key; hooks of the media server flip the stream,
      a moderator or a watchdog ends it, its recording becomes a video
      ([live]).
    - Two accounts write to each other ([messaging]), in plain text with
      attachments or encrypted between their devices ([e2ee]), unless one of
      them has blocked the other ([block]).
    - Viewers comment on videos ([comment]); a video or a watched word can have
      comments held until a reviewer approves them. What is published is sent
      to the servers that follow the channel, and their Notes come in as
      comments ([federation]), on requests signed and checked by [httpsig].
    - One process at a time runs the singleton jobs ([leaderlock]).
    - Around them: storage and daily quotas ([quota]), request rate limits
      ([ratelimit]), ordered playlists ([playlist]), the short form of a video
      id ([shortid]), and the client every outbound fetch goes through
      ([urlsafety]).

    ** The files

    - [Prelude] (this file): Go integers with their wrap-around, results and
      store errors, programs, their sequential and concurrent execution, store
      faults, the single-winner argument, shared lemmas and automation.
    - [Interleave]: the proof rules for interleaved programs: invariants kept
      at each operation, tokens that count marked operations, a rely/guarantee
      logic, traces, what a thread has read, and the recorded history of an
      execution.
    - [Queue]: the job queue the finalize and transcode tables share, with its
      laws.
    - [Retry]: internal/retry.
    - [Storage]: internal/storage, the [Backend] interface and its laws (type
      classes), readers that deliver a body in pieces and may fail, [io.Copy],
      and the local backend, which is shown to satisfy the laws.
    - [UploadStore]: the rows and statements of upload_sessions.sql and
      upload_finalize_jobs.sql, and the signature [storeE] of what the two
      upload services call.
    - [Upload]: internal/upload/service.go. [UploadFinalize]:
      internal/uploadfinalize/service.go with internal/safeerr, internal/lease
      and workerpool.Clamp. [UploadFlow]: the two composed.
    - [GoStrings], [Encoding]: the parts of Go's strings, base64 and hex
      packages the code uses.
    - [Secretbox]: internal/secretbox.
    - [AuthStore]: the rows and statements behind sign-in, and the signature
      [authE] of what [auth.Service] calls. [Devices], [LoginLock], [Sessions],
      [Mfa]: internal/auth, by source file.
    - [AccountStore], [Account]: the tables, statements and flows of recovery,
      registration and ownership. [AccountSafety]: their theorems.
    - [Quota], [RateLimit], [JobLoop], [ShortId], [Playlist]: the packages of
      those names, each with the statements it runs.
    - [MediaKeys]: the grammar of object keys in internal/media. [MediaStore]:
      the tables of the media pipeline and the signature [mediaE].
      [Transcode]: internal/transcode. [MediaGC]: internal/mediagc with the
      ownership marker of internal/storage.
    - [VideoStore], [Video]: the tables and the service of internal/video.
      [VideoSafety], [VideoOutcome], [VideoSource], [VideoPasswords]: their
      theorems, by subject.
    - [UrlSafety]: internal/urlsafety.
    - [MigrationStore], [Migration]: the tables, stores and service of
      internal/storagemigration. [MigrationSafety], [MigrationFlow]: their
      theorems.
    - [Playback]: internal/playback, the signed tokens media requests carry.
    - [LiveStore], [Live]: the table, recording directory and service of
      internal/live, with the stop hook of internal/httpapi/live.go.
      [LiveSafety], [LiveReplay]: their theorems. [LiveViewers]: the viewer
      counter of internal/live/viewers.go over Redis sorted sets.
    - [MessageStore], [Messaging], [E2ee]: the tables and services of
      internal/block, internal/messaging and internal/e2ee, with the routing
      of sends and uploads in internal/httpapi. [MessagingSafety],
      [MessagingPages]: their theorems.
    - [LeaderLock]: internal/leaderlock. [HttpSig]: internal/httpsig.
    - [CommentStore], [Comments]: the tables and the service of
      internal/comment, with the comment parts of internal/federation and of
      internal/httpapi. [CommentSafety]: their theorems.

    A definition has the name of the Go function it models; a definition
    [q_X] is the SQL statement [X] of internal/store/queries. Definitions with
    another name are loops or closures of a function, named after it.

    ** How the code is modelled

    A handler is a program ([prog]): a tree whose nodes are the atomic
    operations of its collaborators (one SQL statement, one blob operation, one
    clock reading, one draw of random bytes, one mail), in the order the Go code
    performs them, with its guards and early returns between them. [run]
    executes a program alone; [pool_step] interleaves any number of programs at
    that granularity with a clock that moves, which is how concurrent requests,
    workers of several processes and lease keepers are modelled; [schedule] is
    its executable form, used for the concrete races. An operation of a
    repository can also fail ([exec]): before it took effect, or after it did
    but before the answer arrived. Theorems that speak of "any interleaving and
    any failures" quantify over both; theorems on what a handler answers state
    which calls must have answered.

    Properties of one state are proved by invariants ([ensures], [ops]);
    properties of one thread among others by rely/guarantee: [proves] says what
    a program establishes given what every other thread may do ([stable]), and
    [led_pool_steps] and [peers_steps] carry it to pools in which one thread
    leads or all play the same role. Properties
    of a whole execution (what was ever stored, fetched or announced) use a
    store that remembers its operations ([with_history]), or the list of the
    moments of a run ([trace]) with what each thread had read at them
    ([informed]).

    - Integers keep their width: [int64] and [int32] wrap, durations and times
      are int64 nanoseconds, bounds are hypotheses or consequences.
    - Loops without a structural measure take fuel, and each use gives enough:
      [copy_loop] more than the reads left in the body ([copy_loop_Read]),
      [asm_loop] more than the chunks and empty reads ahead,
      [double_loop] the number of doublings, [div_loop] the bit length of the
      number, [repeat_run] more than the work a pass has left, with
      [repeat_run_ends] proving that it then returns; [follow] the redirects the
      client allows, [enumerate_chunks] the number of listed keys,
      [IsBlockedIP_at] the one level at which an address can carry another. That
      the fuel is enough is part of what is proved: the closed forms and
      concatenations below would fail on a loop cut short.
    - A row carries the columns the modelled code reads or writes. Database time
      and process time are one clock. In the tables of comments two statements
      do not have the same time, which is what makes a time a version
      ([to_clock]); generated ids do not repeat ([to_gen]).
    - Strings are strings of bytes; case folding and trimming are those of
      ASCII.

    What is not in the repository is a parameter: the encoder behind the
    transcode queue, the virus scanner and the prober, AES-256-GCM ([AEAD], with
    [AEADLaws]), bcrypt, SHA-256, the JWT library and the TOTP library
    ([Crypto]), the random generator (the bytes it returns are in the state),
    HMAC-SHA256 and the UUID parser ([HmacLaws], [UuidParseLaws]), the Redis
    pipeline of the shared counter and Redis sorted sets ([SortedSetsLaws]), the
    answers of the media server, the table of file extensions and the image
    header decoder, the resolver, servers and URL parser of outbound fetches, and the object store ([ObjectStoreLaws], with a
    reference bucket), RSA signatures and HTTP dates, the sessions and advisory
    locks of PostgreSQL, HTML entities. Theorems say which documented facts of them they use and
    come with a witness that instantiates them.

    ** What is proved

    - Uploads: the chunk sizes partition the file without overflow
      ([chunks_partition]); every outcome of a chunk upload
      ([PutChunk_every_outcome], [PutChunk_stores]); the assembler is the
      concatenation of the chunks for every read pattern
      ([assembler_is_concatenation], [Assemble_whole_file]); uploading in any
      order with repeats gives back the file ([upload_roundtrip]); the sweep
      removes exactly what is stale ([Sweep_exact]).
    - Finalizing: from the first chunk to the published bytes
      ([upload_flow_publishes], [runFinalize_stores_file]); one live job
      per session and no session revived to active, for every interleaving and
      every store failure ([one_live_job_per_session],
      [session_never_reactivated]); the retry ladder ([recordFailure_ladder]).
    - Sessions: what a password login proves ([password_login_sound]), when a
      token is accepted ([access_token_check]), that revocation is final
      ([revocation_is_final]), rotation and replay ([refresh_rotates],
      [refresh_replay_revokes_all]), single use of step-up assertions
      ([step_up_single_use]).
    - Second factors: what a completed challenge proves
      ([challenge_proves_second_factor]), single use of codes among concurrent
      challenges ([totp_step_accepted_once], [recovery_code_redeemed_once]),
      enrollment ([enrollment_confirmed]).
    - Throttling: the verdict of the gate on every branch ([gateLogin_verdict]),
      a bound on parallel guessing ([parallel_burst_bounded]), the schedules
      ([backoff_schedules], [wrong_password_locks]), and that strangers cannot
      lock a known network out ([known_prefix_not_locked_out]).
    - Accounts: the uniqueness and reference constraints hold under every
      interleaving and failure ([accounts_well_formed]); one claim of the
      ownership and one confirmation of a change of address win
      ([owner_claimed_once], [email_change_confirmed_once]); a reset link works
      once and sets the password ([reset_link_roundtrip]).
    - Videos: an infected file is never published ([infected_never_published]),
      only a moderator undoes moderation ([quarantine_holds]), a
      publish-after-transcode hold is released and announced once
      ([hold_released_once]), the decision table of a finished upload
      ([process_outcome]), the served source survives a replacement that fails
      ([replace_keeps_source]), nobody but the owner or a manager changes a
      video ([only_owner_changes]), password protection
      ([protected_videos_keep_a_password], [replaced_passwords_unlock]).
    - Media: one live transcode per video and target and its promotion,
      failures and admission ([one_live_transcode_per_video],
      [transcode_run_promotes], [transcode_failures_and_admission]); the
      garbage collector keeps what is live, respects its rails and removes
      exactly the rest ([sweep_keeps_live], [sweep_rails], [sweep_exact]); the
      ownership marker ([adoption_reaches_every_process]).
    - Migration: whatever the leader, workers, operators and failures do, every
      object stays readable ([migration_loses_nothing]); undisturbed, the
      campaign ends with the library in the destination
      ([migration_completes]).
    - Outbound fetches: the address classifier is the union of the prefixes it
      names ([address_classification]) and no execution against an adversarial
      resolver and servers connects to a blocked address
      ([fetch_reaches_permitted_only]).
    - Quotas, limits, loops, ids, secrets, playlists: [quota_gates_exact],
      [daily_window_respected], [limiter_fixed_window],
      [tick_isolates_failures], [shortid_bijection], [secretbox_roundtrip],
      [playlist_edits_refine_list].
    - Playback tokens: a minted token opens its gate, and no other, until it
      expires ([playback_token_roundtrip]); nothing that was not minted opens
      one ([playback_accepts_only_minted]).
    - Live: the rows keep the schema's rules under every interleaving and
      failure ([live_rows_well_formed]); every outcome of a termination
      ([terminate_every_outcome]) and that it lasts ([terminated_stays_off_air]);
      the duration watchdog is exact ([watchdog_closes_exactly_overdue]); a
      replay never loses the recording ([replay_never_loses_recording]), a
      recording belongs to one stream ([recording_of_one_stream]), retention
      removes exactly the oldest stale recordings ([prune_exact]); a reported
      viewer count is a true one ([viewer_count_exact]).
    - Direct messages: nothing leaves the two participants of a conversation
      ([conversations_stay_between_two]) and nothing goes back
      ([messages_move_forward]), under every interleaving and failure; a
      one-time key is handed to one request ([one_time_key_handed_once]); an
      envelope arrives as sent until it expires ([envelopes_arrive_as_sent]);
      paging reads the whole conversation ([pages_are_the_conversation]); a
      block cuts both ways on a store that answers ([block_cuts_both_ways]),
      and [block_gate_fails_open], [tombstone_keeps_attachment] and
      [upload_row_without_bytes] are executions that show where the code falls
      short when one does not.
    - Comments: threads and pins stay well formed under every interleaving and
      failure ([threads_well_formed]); the text of a held comment does not leave
      the instance ([no_held_text_leaves]); a held comment is released only by
      a reviewer's approval of the version it had ([held_until_reviewed]).
    - Leader election: an instance that believes it leads holds the lock while
      its session lives ([one_live_leader]).
    - HTTP signatures: what is accepted was signed ([accepted_request_was_signed])
      and what was signed is accepted ([signed_request_verifies]).
    - Behaviour that differs from what the comments promise is stated as a
      theorem on a concrete execution: [PutChunk_refused_retry_loses_chunk],
      [crash_loop_never_dead_letters], [leftover_job_revives_cancelled_session],
      [enqueue_race_refuses_published_upload],
      [concurrent_refresh_both_succeed], [mfa_lookup_fails_open],
      [pause_undone_by_pass], [abort_undone_by_pass], [replaced_object_lost],
      [synced_without_failed_object], [uncleared_ledger_syncs_empty],
      [stale_worker_loses_object], [reconnect_undoes_termination],
      [watchdog_ends_new_session], [unplayable_replay_deletes_recording],
      [count_in_flight_survives_reset], [two_believers],
      [edit_reholds_without_retraction], [delete_without_retraction],
      [removal_retracts_held] and others beside the components they are
      about.

    ** What is not modelled

    The HTTP layer, process start-up, the operator tools, the S3 backend and
    the ffmpeg-based media code are input/output around these services. Of
    [auth], OAuth and ATProto sign-in, and [ipScope], whose result is an
    argument; of [video], feeds, searches, captions and chapters. Context
    values are arguments. Of comments, mentions, the JSON of activities and audit
    records; notifications, watched words and mirrored threads answer as they
    like. Logging, metrics and job labels are best effort and left out. Services
    that could follow, in order: the import and caption queues, moderation,
    and the rest of federation. *)
From stdpp Require Export base tactics numbers list gmap strings fin_maps relations sorting pretty.
From Stdlib Require Export ZArith Lia.

Declare Scope go_scope.
Delimit Scope go_scope with go.

Local Open Scope Z_scope.

(** ** Go integers *)

(** Two's-complement wrap-around at width [w]: what Go's [+], [-], [*] do on
    a signed [w]-bit integer. *)
Definition wrap (w x : Z) : Z := (x + 2 ^ (w - 1)) mod 2 ^ w - 2 ^ (w - 1).

(** Go's [int64] (also [int] on the 64-bit targets the project builds for). *)
Definition int64 (x : Z) : Z := wrap 64 x.

(** Go's [int32]. *)
Definition int32 (x : Z) : Z := wrap 32 x.

Definition min_int64 : Z := - 2 ^ 63.
Definition max_int64 : Z := 2 ^ 63 - 1.

(** [x] is a value of type [int64]. *)
Definition in_int64 (x : Z) : Prop := min_int64 <= x <= max_int64.
Definition in_int32 (x : Z) : Prop := - 2 ^ 31 <= x <= 2 ^ 31 - 1.

Notation "x +% y" := (int64 (x + y)) (at level 50, left associativity) : go_scope.
Notation "x -% y" := (int64 (x - y)) (at level 50, left associativity) : go_scope.
Notation "x *% y" := (int64 (x * y)) (at level 40, left associativity) : go_scope.

(** ** [time.Duration] and [time.Time]: nanoseconds *)

Abbreviation time := Z (only parsing).
Abbreviation duration := Z (only parsing).

Definition Millisecond : duration := 1000000.
Definition Second : duration := 1000 * Millisecond.
Definition Minute : duration := 60 * Second.
Definition Hour : duration := 60 * Minute.

(** ** Values shared by the components *)

(** A [uuid.UUID], identified by its canonical text (what [String] returns). *)
Abbreviation uuid := string (only parsing).

(** [uuid.Nil] *)
Definition uuid_Nil : uuid := "00000000-0000-0000-0000-000000000000".

Abbreviation bytes := (list Byte.byte) (only parsing).

(** A Go [(A, error)] pair whose first component is read only when the error
    is nil. *)
Inductive result (E A : Type) : Type :=
| Ok (a : A)
| Err (e : E).
Arguments Ok {E A} a.
Arguments Err {E A} e.

#[global] Instance result_eq_dec `{EqDecision E, EqDecision A} : EqDecision (result E A).
Proof. solve_decision. Defined.

(** What a repository call can answer with: [pgx.ErrNoRows], a unique-index
    violation (of the shared handle namespace, [ErrReserved], or of another
    index), a reference to a row that does not exist, or any other failure. *)
Inductive dberr := ErrNoRows | ErrUnique | ErrReserved | ErrForeignKey | ErrStore.

#[global] Instance dberr_eq_dec : EqDecision dberr.
Proof. solve_decision. Defined.

(** ORDER BY: rows sorted by an integer column. *)
Definition by_key {A} (f : A -> Z) (x y : A) : Prop := f x <= f y.

#[global] Instance by_key_dec {A} (f : A -> Z) : RelDecision (by_key f).
Proof. intros x y. unfold by_key. apply _. Defined.

#[global] Instance by_key_total {A} (f : A -> Z) : Total (by_key f).
Proof. intros x y. unfold by_key. lia. Qed.

#[global] Instance by_key_trans {A} (f : A -> Z) : Transitive (by_key f).
Proof. intros x y z. unfold by_key. lia. Qed.

(** ** Programs: handlers as trees of atomic store operations

    A handler is a tree whose nodes are single atomic operations of its
    collaborators (one SQL statement, one object-store call, one clock read)
    and whose branches are indexed by the answer. [E] is the signature of the
    collaborator (a Go interface). *)
Inductive prog (E : Type -> Type) (A : Type) : Type :=
| Ret (a : A)
| Vis (X : Type) (e : E X) (k : X -> prog E A).
Arguments Ret {E A} a.
Arguments Vis {E A X} e k.

Fixpoint prog_bind {E A B} (f : A -> prog E B) (p : prog E A) : prog E B :=
  match p with
  | Ret a => f a
  | Vis e k => Vis e (fun x => prog_bind f (k x))
  end.

#[global] Instance prog_mret E : MRet (prog E) := fun A a => Ret a.
#[global] Instance prog_mbind E : MBind (prog E) := fun A B f p => prog_bind f p.

(** Perform one operation. *)
Definition call {E X} (e : E X) : prog E X := Vis e (fun x => Ret x).

(** Relabel the operations of a program: a component's handlers used inside a
    larger signature. *)
Fixpoint lift {E F : Type -> Type} (f : forall X, E X -> F X) {A} (p : prog E A) : prog F A :=
  match p with
  | Ret a => Ret a
  | Vis e k => Vis (f _ e) (fun x => lift f (k x))
  end.

(** The meaning of a signature: each operation answers and updates the state. *)
Abbreviation handler E S := (forall X, E X -> S -> X * S).

(** Sequential execution: nothing else runs between two operations. *)
Fixpoint run {E S A} (h : handler E S) (p : prog E A) (s : S) : A * S :=
  match p with
  | Ret a => (a, s)
  | Vis e k => run h (k (h _ e s).1) (h _ e s).2
  end.

(** Every operation the program can perform satisfies [P]. *)
Fixpoint ops {E : Type -> Type} {A} (P : forall X, E X -> Prop) (p : prog E A) : Prop :=
  match p with
  | Ret _ => True
  | Vis e k => P _ e /\ forall x, ops P (k x)
  end.

(** Concurrent execution: at every step some thread performs its next
    operation, or the environment moves (the clock advances). *)
Inductive pool_step {E S A} (h : handler E S) (env : S -> S -> Prop) :
    list (prog E A) * S -> list (prog E A) * S -> Prop :=
| thread_step i X (e : E X) k ps s :
    ps !! i = Some (Vis e k) ->
    pool_step h env (ps, s) (<[i := k (h X e s).1]> ps, (h X e s).2)
| env_step ps s s' :
    env s s' ->
    pool_step h env (ps, s) (ps, s').

(** An executable scheduler: the list names the thread that moves next (a
    finished or unknown thread does nothing). *)
Fixpoint schedule {E S A} (h : handler E S) (turns : list nat)
    (ps : list (prog E A)) (s : S) : list (prog E A) * S :=
  match turns with
  | [] => (ps, s)
  | i :: turns' =>
      match ps !! i with
      | Some (Vis e k) =>
          schedule h turns' (<[i := k (h _ e s).1]> ps) (h _ e s).2
      | _ => schedule h turns' ps s
      end
  end.

(** ** Fallible stores

    A store call may fail without an effect, or fail after its effect (a
    connection lost after the commit). The schedule of faults is part of the
    state, so that a statement about every run quantifies over every pattern
    of failures. *)
Inductive fault := Fine | FailBefore | FailAfter.

#[global] Instance fault_eq_dec : EqDecision fault.
Proof. solve_decision. Defined.

Record faulty (S : Type) := Faulty { store : S; faults : list fault }.
Arguments Faulty {S} store faults.
Arguments store {S} f.
Arguments faults {S} f.

Definition exec {S A} (op : S -> result dberr A * S) (w : faulty S) : result dberr A * faulty S :=
  match faults w with
  | [] | Fine :: _ =>
      ((op (store w)).1, Faulty (op (store w)).2 (tail (faults w)))
  | FailBefore :: fs => (Err ErrStore, Faulty (store w) fs)
  | FailAfter :: fs => (Err ErrStore, Faulty (op (store w)).2 fs)
  end.

(** ** Orders and pages *)

(** ORDER BY created_at DESC, id DESC *)
Definition newest (x y : time * uuid) : Prop := y.1 < x.1 \/ x.1 = y.1 /\ String.leb y.2 x.2 = true.

(** (created_at, id) < (cursor) *)
Definition older (x cursor : time * uuid) : Prop := x.1 < cursor.1 \/ x.1 = cursor.1 /\ String.ltb x.2 cursor.2 = true.

#[global] Instance newest_dec : RelDecision newest.
Proof. intros x y. unfold newest. apply _. Defined.
#[global] Instance older_dec : RelDecision older.
Proof. intros x y. unfold older. apply _. Defined.

Definition on_key {A} (f : A -> time * uuid) (R : time * uuid -> time * uuid -> Prop) (x y : A) : Prop := R (f x) (f y).

#[global] Instance on_key_dec {A} (f : A -> time * uuid) R `{!RelDecision R} : RelDecision (on_key f R).
Proof. intros x y. unfold on_key. apply _. Defined.

(** ORDER BY created_at, id *)
Definition oldest (x y : time * uuid) : Prop := newest y x.

#[global] Instance oldest_dec : RelDecision oldest.
Proof. intros x y. unfold oldest. apply _. Defined.

Definition rows_of {A} (m : gmap uuid A) : list (uuid * A) := map_to_list m.

Definition paged {A} (limit offset : Z) (l : list A) : list A := take (Z.to_nat limit) (drop (Z.to_nat offset) l).

(** ** Lemmas: programs *)

Section ProgLemmas.
Context {E : Type -> Type} {S : Type}.

Lemma run_bind {A B} (h : handler E S) (f : A -> prog E B) (p : prog E A) s :
  run h (prog_bind f p) s = run h (f (run h p s).1) (run h p s).2.
Proof. revert s. induction p as [a|X e k IH]; intros s; cbn; [done|]. by rewrite IH. Qed.

Lemma run_mbind {A B} (h : handler E S) (f : A -> prog E B) (p : prog E A) s :
  run h (p ≫= f) s = run h (f (run h p s).1) (run h p s).2.
Proof. apply run_bind. Qed.

Lemma run_call {X} (h : handler E S) (e : E X) s : run h (call e) s = h X e s.
Proof. cbn. by destruct (h X e s). Qed.

Lemma run_mret {A} (h : handler E S) (a : A) s : run h (mret a) s = (a, s).
Proof. done. Qed.

(** A run from its answer: what is left is its final state. *)
Lemma run_answer {A} (h : handler E S) (p : prog E A) s a :
  (run h p s).1 = a -> run h p s = (a, (run h p s).2).
Proof. intros <-. apply surjective_pairing. Qed.

Lemma ops_bind {A B} (P : forall X, E X -> Prop) (f : A -> prog E B) (p : prog E A) :
  ops P p -> (forall a, ops P (f a)) -> ops P (p ≫= f).
Proof.
  intros Hp Hf. induction p as [a|X e k IH]; [apply Hf|].
  destruct Hp as [He Hk]. split; [done|]. intros x. apply IH, Hk.
Qed.

Lemma ops_call {X} (P : forall X, E X -> Prop) (e : E X) : P X e -> ops P (call e).
Proof. intros. split; [done|]. intros. exact I. Qed.

Lemma ops_all {A} (P : forall X, E X -> Prop) (p : prog E A) : (forall X e, P X e) -> ops P p.
Proof. intros HP. induction p; split; auto. Qed.

(** A preorder that every operation of a program respects is respected by its
    sequential runs. *)
Lemma run_rel {A} (h : handler E S) (P : forall X, E X -> Prop) (R : S -> S -> Prop) `{!PreOrder R} :
  (forall X (e : E X) s, P X e -> R s (h X e s).2) ->
  forall (p : prog E A) s, ops P p -> R s (run h p s).2.
Proof.
  intros Hh p. induction p as [a|X e k IH]; intros s Hp; cbn; [reflexivity|].
  destruct Hp. etransitivity; [by apply Hh|by apply IH].
Qed.

(** An invariant every operation of a program keeps holds after its runs. *)
Lemma run_invariant {A} (h : handler E S) (P : forall X, E X -> Prop) (I : S -> Prop) :
  (forall X (e : E X) s, P X e -> I s -> I (h X e s).2) ->
  forall (p : prog E A) s, ops P p -> I s -> I (run h p s).2.
Proof. intros Hh p. induction p as [a|X e k IH]; intros s Hp Hs; cbn; [done|]. destruct Hp; auto. Qed.

(** The same under every interleaving of such programs. *)
Lemma pool_rel {A} (h : handler E S) (P : forall X, E X -> Prop) (env R : S -> S -> Prop) `{!PreOrder R} :
  (forall X (e : E X) s, P X e -> R s (h X e s).2) ->
  (forall s s', env s s' -> R s s') ->
  forall c c' : list (prog E A) * S,
    rtc (pool_step h env) c c' -> Forall (ops P) c.1 -> R c.2 c'.2.
Proof.
  intros Hh Henv c c'. induction 1 as [|x y z Hxy _ IH]; intros Hp; [reflexivity|].
  assert (Hstep : R x.2 y.2 /\ Forall (ops P) y.1).
  { destruct Hxy as [i X e k ps s Hi|]; cbn in *; [|by auto].
    pose proof (Forall_lookup_1 _ _ _ _ Hp Hi) as [HP Hk]. split; [by apply Hh|].
    by apply Forall_insert. }
  destruct Hstep. etransitivity; eauto.
Qed.

Lemma pool_invariant {A} (h : handler E S) (P : forall X, E X -> Prop) (env : S -> S -> Prop) (I : S -> Prop) :
  (forall X (e : E X) s, P X e -> I s -> I (h X e s).2) ->
  (forall s s', env s s' -> I s -> I s') ->
  forall c c' : list (prog E A) * S,
    rtc (pool_step h env) c c' -> Forall (ops P) c.1 -> I c.2 -> I c'.2.
Proof.
  intros Hh Henv c c'. induction 1 as [|x y z Hxy _ IH]; intros Hp Hx; [done|].
  assert (Hstep : I y.2 /\ Forall (ops P) y.1).
  { destruct Hxy as [i X e k ps s Hi|]; cbn in *; [|by eauto].
    pose proof (Forall_lookup_1 _ _ _ _ Hp Hi) as [HP Hk]. split; [by apply Hh|].
    by apply Forall_insert. }
  destruct Hstep. auto.
Qed.

(** Every schedule is an interleaving. *)
Lemma schedule_pool {A} (h : handler E S) (env : S -> S -> Prop) turns :
  forall (ps : list (prog E A)) s, rtc (pool_step h env) (ps, s) (schedule h turns ps s).
Proof.
  induction turns as [|i turns IH]; intros ps s; cbn; [constructor|].
  destruct (ps !! i) as [[a|X e k]|] eqn:Hi; [apply IH| |apply IH].
  eapply rtc_l; [by apply thread_step|apply IH].
Qed.

(** A preorder respected by an operation is respected by its faulty version. *)
Lemma exec_rel {A} (op : S -> result dberr A * S) (R : S -> S -> Prop) `{!PreOrder R} :
  (forall s, R s (op s).2) -> forall w, R (store w) (store (exec op w).2).
Proof.
  intros Hop [s fs]. unfold exec. destruct fs as [|[] fs]; cbn; first [apply Hop|reflexivity].
Qed.

Lemma exec_invariant {A} (op : S -> result dberr A * S) (I : S -> Prop) :
  (forall s, I s -> I (op s).2) -> forall w, I (store w) -> I (store (exec op w).2).
Proof. intros Hop [s fs] Hs. unfold exec. destruct fs as [|[] fs]; cbn in *; auto. Qed.

(** A part of the state the operation leaves alone. *)
Lemma exec_field {A B} (f : S -> B) (op : S -> result dberr A * S) w :
  (forall s, f (op s).2 = f s) -> f (store (exec op w).2) = f (store w).
Proof.
  intros Hop. apply (exec_invariant op (fun s => f s = f (store w))); [|done]. intros s <-. apply Hop.
Qed.

(** An answer that is not an error is the operation's own, with its effect. *)
Lemma exec_ok {A} (op : S -> result dberr A * S) w a :
  (exec op w).1 = Ok a -> (op (store w)).1 = Ok a /\ store (exec op w).2 = (op (store w)).2.
Proof. destruct w as [s fs]. unfold exec. destruct fs as [|[] fs]; cbn; done. Qed.

(** No row is an answer the store gave: nothing failed. *)
Lemma exec_norows {A} (op : S -> result dberr A * S) w :
  (exec op w).1 = Err ErrNoRows -> (op (store w)).1 = Err ErrNoRows.
Proof. destruct w as [s fs]. unfold exec. destruct fs as [|[] fs]; cbn; done. Qed.

Lemma exec_fine {A} (op : S -> result dberr A * S) s :
  exec op (Faulty s []) = ((op s).1, Faulty (op s).2 []).
Proof. done. Qed.
End ProgLemmas.

(** ** One winner

    A pool of programs whose success depends on winning a contest in the
    store: an operation whose winning answer closes the contest for good, under
    an invariant [I] of the store. *)
Section Winner.
Context {E : Type -> Type} {S A : Type} (h : handler E S).
Context (P : forall X, E X -> Prop) (won : forall X, E X -> X -> bool) (contest : S -> bool) (success : A -> bool).

(** Every success of the program comes after a winning answer. *)
Fixpoint needs_win (p : prog E A) : Prop :=
  match p with
  | Ret a => success a = false
  | Vis e k => forall x, won _ e x = false -> needs_win (k x)
  end.

Lemma needs_win_bind {B} (p : prog E B) (f : B -> prog E A) :
  (forall b, needs_win (f b)) -> needs_win (p ≫= f).
Proof. intros Hf. induction p as [b|X e k IH]; [apply Hf|]. cbn. intros x _. apply IH. Qed.

Context (I : S -> Prop) (Hinv : forall X (e : E X) s, P X e -> I s -> I (h X e s).2).
Context (Hwin : forall X (e : E X) s, P X e -> I s -> won X e (h X e s).1 = true -> contest s = true /\ contest (h X e s).2 = false).
Context (Hclosed : forall X (e : E X) s, P X e -> I s -> contest s = false -> contest (h X e s).2 = false).

Definition succeeded (p : prog E A) : bool := match p with Ret a => success a | Vis _ _ => false end.

(** Flags for the threads that have won; with the open contest they are at
    most one. *)
Definition one_winner (c : list (prog E A) * S) : Prop :=
  Forall (ops P) c.1 /\ I c.2 /\
  exists bs : list bool, Forall2 (fun p b => b = false -> needs_win p) c.1 bs /\
    (length (filter (fun b : bool => b = true) bs) + (if contest c.2 then 1 else 0) <= 1)%nat.

Lemma count_insert (bs : list bool) i (b : bool) :
  bs !! i = Some false ->
  length (filter (fun b : bool => b = true) (<[i := b]> bs)) =
    (length (filter (fun b : bool => b = true) bs) + if b then 1 else 0)%nat.
Proof.
  intros Hi. apply lookup_lt_Some in Hi as Hlt.
  rewrite <- (take_drop_middle bs i false Hi) at 2.
  rewrite insert_take_drop by done. rewrite !filter_app, !length_app.
  rewrite (filter_cons_False _ false) by done. destruct b.
  - rewrite filter_cons_True by done. cbn. lia.
  - rewrite filter_cons_False by done. lia.
Qed.

Lemma one_winner_step (env : S -> S -> Prop) c c' :
  (forall s s', env s s' -> I s -> I s' /\ (contest s = false -> contest s' = false)) ->
  pool_step h env c c' -> one_winner c -> one_winner c'.
Proof.
  intros Henv Hstep (Hops & HI & bs & Hbs & Hle). destruct Hstep as [i X e k ps s Hi|ps s s' Hs]; cbn in *.
  - pose proof (Forall_lookup_1 _ _ _ _ Hops Hi) as [HP Hk].
    destruct (Forall2_lookup_l _ _ _ _ _ Hbs Hi) as (b & Hb & Hp).
    split; [by apply Forall_insert|]. split; [by apply Hinv|].
    destruct (won X e (h X e s).1) eqn:Hw.
    + destruct (Hwin X e s HP HI Hw) as [Ho Hc]. rewrite Ho in Hle. cbn. rewrite Hc.
      exists (<[i := true]> bs). split; [by apply Forall2_insert|].
      destruct b; [|rewrite count_insert by done; lia].
      exfalso. assert (true ∈ filter (fun b : bool => b = true) bs) as Hin.
      { apply list_elem_of_filter. split; [done|by eapply list_elem_of_lookup_2]. }
      destruct (filter _ bs); [by apply not_elem_of_nil in Hin|cbn in Hle; lia].
    + exists bs. split.
      * rewrite <- (list_insert_id bs i b) by done. apply Forall2_insert; [done|]. intros ->. by apply Hp.
      * destruct (contest s) eqn:Ho; [cbn; destruct (contest (h X e s).2); lia|].
        cbn. by rewrite Hclosed.
  - destruct (Henv s s' Hs HI) as [HI' Hc]. split; [done|]. split; [done|]. exists bs. split; [done|].
    cbn. destruct (contest s) eqn:Ho; [destruct (contest s'); lia|]. by rewrite Hc.
Qed.

(** At most one of the programs succeeds. *)
Lemma single_winner (env : S -> S -> Prop) ps s ps' s' :
  (forall s s', env s s' -> I s -> I s' /\ (contest s = false -> contest s' = false)) ->
  Forall (fun p => ops P p /\ needs_win p) ps -> I s ->
  rtc (pool_step h env) (ps, s) (ps', s') ->
  (length (filter (fun p => succeeded p = true) ps') <= 1)%nat.
Proof.
  intros Henv Hps HI Hrun.
  assert (H0 : one_winner (ps, s)).
  { split; [by eapply Forall_impl; [done|intros ? []]|]. split; [done|]. exists (replicate (length ps) false). split.
    - apply Forall2_same_length_lookup_2; [by rewrite length_replicate|].
      intros i p b Hp _ _. rewrite Forall_lookup in Hps. by apply Hps in Hp as [_ ?].
    - assert (Hz : forall n, filter (fun b : bool => b = true) (replicate n false) = []).
      { induction n as [|n IH]; [done|]. cbn [replicate]. by rewrite filter_cons_False. }
      rewrite Hz. cbn. destruct (contest s); lia. }
  assert (H1 : one_winner (ps', s')).
  { remember (ps, s) as c. remember (ps', s') as c'. clear Heqc Heqc' Hps HI.
    induction Hrun as [|x y z Hxy _ IH]; [done|]. apply IH. by eapply one_winner_step. }
  destruct H1 as (_ & _ & bs & Hbs & Hle). cbn in Hbs.
  enough (length (filter (fun p => succeeded p = true) ps') <= length (filter (fun b : bool => b = true) bs))%nat by lia.
  clear -Hbs. induction Hbs as [|p b ps bs Hp _ IH]; [done|].
  destruct b.
  - rewrite (filter_cons_True _ true) by done. rewrite filter_cons. case_decide; cbn [length]; lia.
  - rewrite (filter_cons_False _ false) by done. rewrite filter_cons_False; [done|].
    specialize (Hp eq_refl). destruct p; cbn in *; congruence.
Qed.

End Winner.

(** ** Lemmas: integers *)

Lemma wrap_id w x : 0 < w -> - 2 ^ (w - 1) <= x <= 2 ^ (w - 1) - 1 -> wrap w x = x.
Proof.
  intros Hw Hx. unfold wrap.
  assert (Hp : 2 ^ w = 2 * 2 ^ (w - 1)).
  { rewrite <- Z.pow_succ_r by lia. f_equal; lia. }
  rewrite Z.mod_small by lia. lia.
Qed.

Lemma int64_id x : in_int64 x -> int64 x = x.
Proof. unfold in_int64, int64, min_int64, max_int64. intros. apply wrap_id; lia. Qed.

Lemma int32_id x : in_int32 x -> int32 x = x.
Proof. unfold in_int32, int32. intros. apply wrap_id; lia. Qed.

Lemma wrap_range w x : 0 < w -> - 2 ^ (w - 1) <= wrap w x <= 2 ^ (w - 1) - 1.
Proof.
  intros Hw. unfold wrap.
  assert (Hp : 2 ^ w = 2 * 2 ^ (w - 1)).
  { rewrite <- Z.pow_succ_r by lia. f_equal; lia. }
  pose proof (Z.mod_pos_bound (x + 2 ^ (w - 1)) (2 ^ w)). lia.
Qed.

Lemma int64_range x : in_int64 (int64 x).
Proof. apply (wrap_range 64); lia. Qed.

(** ** Lemmas: lists *)

Lemma filter_all {A} (P : A -> Prop) `{!forall x, Decision (P x)} (l : list A) :
  Forall P l -> filter P l = l.
Proof. induction 1 as [|x l Hx _ IH]; [done|]. rewrite filter_cons_True by done. by rewrite IH. Qed.

Lemma filter_none {A} (P : A -> Prop) `{!forall x, Decision (P x)} (l : list A) :
  Forall (fun x => ~ P x) l -> filter P l = [].
Proof. induction 1 as [|x l Hx _ IH]; [done|]. by rewrite filter_cons_False. Qed.

Lemma sorted_filter {A} (R : A -> A -> Prop) (P : A -> Prop) `{!forall x, Decision (P x)} l :
  StronglySorted R l -> StronglySorted R (filter P l).
Proof.
  induction 1 as [|x l Hs IH Hf]; [constructor|]. rewrite filter_cons. case_decide; [|done]. constructor; [done|].
  apply Forall_forall. intros y [_ Hy]%list_elem_of_filter. rewrite Forall_forall in Hf. auto.
Qed.

Lemma seqZ_snoc m n : 0 <= n -> seqZ m (n + 1) = seqZ m n ++ [m + n].
Proof. intros. rewrite seqZ_app by lia. by rewrite (seqZ_cons _ 1). Qed.

(** Sums over lists. *)
Definition sumZ {A} (f : A -> Z) (l : list A) : Z := foldr (fun x acc => f x + acc) 0 l.

Lemma sumZ_app {A} (f : A -> Z) l1 l2 : sumZ f (l1 ++ l2) = sumZ f l1 + sumZ f l2.
Proof. induction l1 as [|x l IH]; cbn; [done|]. unfold sumZ in *. rewrite IH. lia. Qed.

Lemma forallb_elem {A} (f : A -> bool) (l : list A) x : forallb f l = true -> x ∈ l -> f x = true.
Proof. rewrite forallb_forall. intros H ?%list_elem_of_In. auto. Qed.

(** ** Automation *)

(** Discharge the wrap-arounds whose operands are in range. *)
Ltac unwrap :=
  repeat match goal with
  | |- context [int64 ?x] => rewrite (int64_id x) by (unfold in_int64, min_int64, max_int64 in *; lia)
  | H : context [int64 ?x] |- _ =>
      rewrite (int64_id x) in H by (unfold in_int64, min_int64, max_int64 in *; lia)
  end.

(** Case on every [match] and [if] of the goal. *)
Ltac split_matches := repeat (case_match; simplify_eq/=).

(** Turn boolean comparisons into propositions. *)
Ltac bools :=
  repeat match goal with
  | H : (_ <? _) = true |- _ => apply Z.ltb_lt in H
  | H : (_ <? _) = false |- _ => apply Z.ltb_ge in H
  | H : (_ <=? _) = true |- _ => apply Z.leb_le in H
  | H : (_ <=? _) = false |- _ => apply Z.leb_gt in H
  | H : (_ =? _) = true |- _ => apply Z.eqb_eq in H
  | H : (_ =? _) = false |- _ => apply Z.eqb_neq in H
  | H : (_ >? _) = true |- _ => rewrite Z.gtb_ltb in H
  | H : (_ >? _) = false |- _ => rewrite Z.gtb_ltb in H
  | H : (_ >=? _) = true |- _ => rewrite Z.geb_leb in H
  | H : (_ >=? _) = false |- _ => rewrite Z.geb_leb in H
  | H : andb _ _ = true |- _ => apply andb_true_iff in H as [? ?]
  | H : orb _ _ = false |- _ => apply orb_false_iff in H as [? ?]
  | H : negb _ = true |- _ => apply negb_true_iff in H
  | H : negb _ = false |- _ => apply negb_false_iff in H
  | H : bool_decide _ = true |- _ => apply bool_decide_eq_true in H
  | H : bool_decide _ = false |- _ => apply bool_decide_eq_false in H
  end.

(** Walk a handler's tree: its operations, branch by branch. *)
Ltac walk_ops :=
  repeat first
    [ apply ops_bind; [|intro]
    | apply ops_call
    | progress intros
    | exact I
    | case_match
    | progress cbn [ops] ].

Create HintDb vidra.
#[export] Hint Resolve int64_range : vidra.
Create Rewrite HintDb prog.
#[export] Hint Rewrite @run_bind @run_mbind @run_call : prog.
