(* ===== verification/Interleave.v ===== *)
(** * Reasoning about interleaved programs

    The schemes the components share. [ensures]: a program that keeps an
    invariant of the store at each of its operations, given that every other
    program keeps it too, and what its answer then satisfies. [spender]: a
    program that performs a marked operation only with a token it won in the
    store, so that the marked operations are counted over a whole pool.
    [proves]: a rely/guarantee logic for one thread among others, carried to
    pools led by one thread by [led_pool_steps]. [with_history]: a store that
    remembers the operations performed on it. [interp] runs a program whose
    operations are programs of a larger signature. *)
From S2P Require Import Prelude.

(** ** Interpretation *)

(** Each operation of [p] stands for a program. *)
Fixpoint interp {E F : Type -> Type} (f : forall X, E X -> prog F X) {A} (p : prog E A) : prog F A :=
  match p with
  | Ret a => Ret a
  | Vis e k => f _ e ≫= fun x => interp f (k x)
  end.

Lemma ops_interp {E F : Type -> Type} (P : forall X, F X -> Prop) (f : forall X, E X -> prog F X) {A} (p : prog E A) :
  (forall X (e : E X), ops P (f X e)) -> ops P (interp f p).
Proof. intros Hf. induction p as [a|X e k IH]; [exact I|]. cbn. by apply ops_bind. Qed.

Lemma interp_bind {E F : Type -> Type} (f : forall X, E X -> prog F X) {A B} (p : prog E A) (g : A -> prog E B) S (h : handler F S) s :
  run h (interp f (p ≫= g)) s = run h (interp f p ≫= fun a => interp f (g a)) s.
Proof.
  rewrite run_mbind. revert s. induction p as [a|X e k IH]; intros s; [done|].
  change (interp f (Vis e k ≫= g)) with (f X e ≫= fun x => interp f (k x ≫= g)). cbn [interp]. rewrite !run_mbind. apply IH.
Qed.

(** ** Programs under an invariant *)

Section Ensures.
Context {E : Type -> Type} {S : Type} (h : handler E S) (Inv : S -> Prop).

(** Every operation keeps the invariant, whatever other programs did to the
    store in between as long as it held; the answer satisfies [Q]. *)
Fixpoint ensures {A} (Q : A -> Prop) (p : prog E A) : Prop :=
  match p with
  | Ret a => Q a
  | Vis e k => forall s, Inv s -> Inv (h _ e s).2 /\ ensures Q (k (h _ e s).1)
  end.

Lemma ensures_weaken {A} (Q R : A -> Prop) (p : prog E A) :
  (forall a, Q a -> R a) -> ensures Q p -> ensures R p.
Proof.
  intros HQR. induction p as [a|X e k IH]; cbn; [apply HQR|]. intros Hp s Hs. destruct (Hp s Hs). auto.
Qed.

Lemma ensures_bind {A B} (Q : A -> Prop) (R : B -> Prop) (p : prog E A) (f : A -> prog E B) :
  ensures Q p -> (forall a, Q a -> ensures R (f a)) -> ensures R (p ≫= f).
Proof.
  intros Hp Hf. induction p as [a|X e k IH]; [by apply Hf|]. cbn. intros s Hs. destruct (Hp s Hs) as [Hi Hk].
  split; [done|]. by apply IH.
Qed.

Lemma ensures_call {X} (Q : X -> Prop) (e : E X) :
  (forall s, Inv s -> Inv (h X e s).2 /\ Q (h X e s).1) -> ensures Q (call e).
Proof. intros He s Hs. cbn. by apply He. Qed.

Lemma ensures_ret {A} (Q : A -> Prop) a : Q a -> ensures Q (mret a).
Proof. done. Qed.

(** Operations that keep the invariant by themselves. *)
Lemma ensures_ops {A} (P : forall X, E X -> Prop) (p : prog E A) :
  (forall X (e : E X) s, P X e -> Inv s -> Inv (h X e s).2) -> ops P p -> ensures (fun _ => True) p.
Proof.
  intros HP. induction p as [a|X e k IH]; [done|]. intros [He Hk] s Hs. split; [by apply HP|by apply IH].
Qed.

(** A pool of such programs keeps the invariant, and those that finished
    answer as they ensure. *)
Lemma pool_ensures {A} (Q : A -> Prop) (env : S -> S -> Prop) (ps ps' : list (prog E A)) s s' :
  (forall s s', env s s' -> Inv s -> Inv s') ->
  Forall (ensures Q) ps -> Inv s -> rtc (pool_step h env) (ps, s) (ps', s') -> Forall (ensures Q) ps' /\ Inv s'.
Proof.
  intros Henv Hps Hs Hrun. remember (ps, s) as c. remember (ps', s') as c'. revert ps s Heqc Hps Hs.
  induction Hrun as [|x y z Hxy _ IH]; intros ps0 s0 -> Hps Hs; [by simplify_eq|].
  inversion Hxy as [i X e k ps1 s1 Hi|ps1 s1 s2 He]; simplify_eq.
  - destruct (Forall_lookup_1 _ _ _ _ Hps Hi s0 Hs) as [HI Hk]. eapply IH; [done|done| |exact HI]. by apply Forall_insert.
  - eapply IH; [done|done|done|by eapply Henv].
Qed.

(** The same alone. *)
Lemma run_ensures {A} (Q : A -> Prop) (p : prog E A) s :
  ensures Q p -> Inv s -> Q (run h p s).1 /\ Inv (run h p s).2.
Proof. revert s. induction p as [a|X e k IH]; intros s Hp Hs; [done|]. cbn. destruct (Hp s Hs). auto. Qed.
End Ensures.

(** ** Tokens *)

Section Tokens.
Context {E : Type -> Type} {S A : Type} (h : handler E S).
Context (P : forall X, E X -> Prop) (won : forall X, E X -> X -> bool) (spends : forall X, E X -> bool).
Context (open : S -> bool) (spent : S -> nat).

(** A program spends only a token it has won. *)
Fixpoint spender (held : bool) (p : prog E A) : Prop :=
  match p with
  | Ret _ => True
  | Vis e k => (spends _ e = true -> held = true) /\ forall x, spender ((held && negb (spends _ e)) || won _ e x) (k x)
  end.

Lemma spender_mono (p : prog E A) b : spender false p -> spender b p.
Proof.
  destruct b; [|done]. intros Hp. revert Hp. generalize false. induction p as [a|X e k IH]; intros b Hp; [done|].
  destruct Hp as [Hs Hk]. split; [done|]. intros x. specialize (Hk x). cbn [andb].
  destruct (negb (spends X e) || won X e x) eqn:Hc; [by apply (IH x _ Hk)|].
  destruct (spends X e), (won X e x), b; cbn in *; try done; by apply (IH x _ Hk).
Qed.

Context (Inv : S -> Prop) (Hinv : forall X (e : E X) s, P X e -> Inv s -> Inv (h X e s).2).
Context (Hwin : forall X (e : E X) s, P X e -> Inv s -> won X e (h X e s).1 = true ->
  open s = true /\ open (h X e s).2 = false /\ spends X e = false).
Context (Hclosed : forall X (e : E X) s, P X e -> Inv s -> open s = false -> open (h X e s).2 = false).
Context (Hspent : forall X (e : E X) s, P X e -> (spent (h X e s).2 <= spent s + if spends X e then 1 else 0)%nat).

Definition tokens (bs : list bool) : nat := length (filter (fun b : bool => b = true) bs).

Lemma tokens_insert (bs : list bool) i (b b' : bool) :
  bs !! i = Some b -> (tokens (<[i := b']> bs) + (if b then 1 else 0) = tokens bs + (if b' then 1 else 0))%nat.
Proof.
  intros Hi. unfold tokens. rewrite insert_take_drop by (by eapply lookup_lt_Some).
  rewrite <- (take_drop_middle bs i b Hi) at 3. rewrite !filter_app, !length_app, !filter_cons.
  destruct b, b'; repeat case_decide; cbn; first [done|lia].
Qed.

(** What was spent, the tokens held and the open token are at most [n]. *)
Definition in_budget (n : nat) (c : list (prog E A) * S) : Prop :=
  Forall (ops P) c.1 /\ Inv c.2 /\ exists bs, Forall2 spender bs c.1 /\
    (spent c.2 + tokens bs + (if open c.2 then 1 else 0) <= n)%nat.

Lemma in_budget_step (env : S -> S -> Prop) n c c' :
  (forall s s', env s s' -> Inv s -> Inv s' /\ (open s = false -> open s' = false) /\ (spent s' <= spent s)%nat) ->
  pool_step h env c c' -> in_budget n c -> in_budget n c'.
Proof.
  intros Henv Hstep (Hops & HI & bs & Hbs & Hle). destruct Hstep as [i X e k ps s Hi|ps s s' Hs]; cbn in *.
  - pose proof (Forall_lookup_1 _ _ _ _ Hops Hi) as [HP Hk].
    destruct (Forall2_lookup_r _ _ _ _ _ Hbs Hi) as (b & Hb & [Hsp Hk']).
    split; [by apply Forall_insert|]. split; [by apply Hinv|].
    set (b' := (b && negb (spends X e)) || won X e (h X e s).1). exists (<[i := b']> bs).
    split; [apply Forall2_insert; [done|apply Hk']|]. cbn.
    pose proof (tokens_insert bs i b b' Hb) as Ht. pose proof (Hspent X e s HP) as Hs. specialize (Hclosed X e s HP HI).
    destruct (won X e (h X e s).1) eqn:Hw.
    + destruct (Hwin X e s HP HI Hw) as (Ho & Hc & Hn). rewrite Hn in *. rewrite Ho in Hle. rewrite Hc.
      unfold b' in *. rewrite orb_true_r in *. destruct b; lia.
    + unfold b' in *. rewrite orb_false_r in *. destruct (spends X e) eqn:He.
      * rewrite (Hsp eq_refl) in *. cbn in *. destruct (open s) eqn:Ho; [destruct (open (h X e s).2); lia|rewrite Hclosed by done; lia].
      * rewrite andb_true_r in *. destruct (open s) eqn:Ho; [destruct (open (h X e s).2); lia|rewrite Hclosed by done; lia].
  - destruct (Henv s s' Hs HI) as (HI' & Ho & Hn). split; [done|]. split; [done|]. exists bs. split; [done|]. cbn.
    destruct (open s) eqn:Hos; [destruct (open s'); lia|rewrite Ho by done; lia].
Qed.

(** Over a pool that starts without tokens, at most the open one is spent. *)
Lemma pool_budget (env : S -> S -> Prop) (ps ps' : list (prog E A)) s s' :
  (forall s s', env s s' -> Inv s -> Inv s' /\ (open s = false -> open s' = false) /\ (spent s' <= spent s)%nat) ->
  Forall (fun p => ops P p /\ spender false p) ps -> Inv s -> rtc (pool_step h env) (ps, s) (ps', s') ->
  (spent s' <= spent s + if open s then 1 else 0)%nat.
Proof.
  intros Henv Hps HI Hrun.
  assert (H0 : in_budget (spent s + if open s then 1 else 0) (ps, s)).
  { split; [by eapply Forall_impl; [done|intros ? []]|]. split; [done|]. exists (replicate (length ps) false). split.
    - apply Forall2_same_length_lookup_2; [by rewrite length_replicate|]. intros i b p Hb Hp.
      apply lookup_replicate in Hb as [-> _]. rewrite Forall_lookup in Hps. by apply Hps in Hp as [_ ?].
    - assert (Hz : forall n, tokens (replicate n false) = 0%nat) by (induction n as [|n IH]; [done|]; unfold tokens in *; cbn [replicate]; by rewrite filter_cons_False).
      rewrite Hz. cbn. lia. }
  assert (H1 : in_budget (spent s + if open s then 1 else 0) (ps', s')).
  { remember (ps, s) as c. remember (ps', s') as c'. generalize dependent (spent s + if open s then 1 else 0)%nat. clear Heqc Heqc' Hps HI.
    induction Hrun as [|x y z Hxy _ IH]; intros n H0; [done|]. apply IH. by eapply in_budget_step. }
  destruct H1 as (_ & _ & bs & _ & Hle). cbn in Hle. lia.
Qed.
End Tokens.

Lemma spender_bind {E : Type -> Type} {A B} (won : forall X, E X -> X -> bool) (spends : forall X, E X -> bool)
    (b : bool) (p : prog E A) (f : A -> prog E B) :
  spender won spends b p -> (forall a, spender won spends false (f a)) -> spender won spends b (p ≫= f).
Proof.
  intros Hp Hf. revert b Hp. induction p as [a|X e k IH]; intros b Hp; [exact (spender_mono won spends (f a) b (Hf a))|].
  destruct Hp as [Hs Hk]. split; [done|]. intros x. apply IH, Hk.
Qed.

(** A program without marked operations spends nothing. *)
Lemma spender_ops {E : Type -> Type} {A} (won : forall X, E X -> X -> bool) (spends : forall X, E X -> bool) (b : bool) (p : prog E A) :
  ops (fun X e => spends X e = false) p -> spender won spends b p.
Proof.
  revert b. induction p as [a|X e k IH]; intros b; [done|]. intros [He Hk]. split; [by rewrite He|]. intros x. apply IH, Hk.
Qed.

(** ** Rely and guarantee

    A pool in which one program plays a role of its own (a leader) beside any
    number of others. Between two operations of a program the others may change
    the store; what it knows ([K]) must be stable under that, and every step it
    takes must keep the invariant and stay within what it guarantees. *)
Section Rely.
Context {E : Type -> Type} {S : Type} (h : handler E S) (Inv : S -> Prop).
Implicit Types (R G : S -> S -> Prop) (K : S -> Prop).

Definition stable R K : Prop := forall s s', Inv s -> Inv s' -> R s s' -> K s -> K s'.

Fixpoint proves {A} R G K (p : prog E A) (Q : A -> S -> Prop) : Prop :=
  match p with
  | Ret a => forall s, Inv s -> K s -> Q a s
  | Vis e k => forall s, Inv s -> K s -> Inv (h _ e s).2 /\ G s (h _ e s).2 /\
      exists K', stable R K' /\ K' (h _ e s).2 /\ proves R G K' (k (h _ e s).1) Q
  end.

Lemma proves_pre {A} R G K K' (p : prog E A) Q :
  (forall s, Inv s -> K s -> K' s) -> proves R G K' p Q -> proves R G K p Q.
Proof. intros HK. destruct p as [a|X e k]; cbn; eauto. Qed.

Lemma proves_post {A} R G K (p : prog E A) (Q Q' : A -> S -> Prop) :
  (forall a s, Inv s -> Q a s -> Q' a s) -> proves R G K p Q -> proves R G K p Q'.
Proof.
  intros HQ. revert K. induction p as [a|X e k IH]; intros K; cbn; [eauto|]. intros Hp s Hs HK.
  destruct (Hp s Hs HK) as (Hi & Hg & K' & Hst & HK' & Hk). split_and!; [done..|]. exists K'. split_and!; [done..|]. by apply IH.
Qed.

Lemma proves_bind {A B} R G K (p : prog E A) (Q : A -> S -> Prop) (f : A -> prog E B) (Q' : B -> S -> Prop) :
  proves R G K p Q -> (forall a, proves R G (Q a) (f a) Q') -> proves R G K (p ≫= f) Q'.
Proof.
  intros Hp Hf. revert K Hp. induction p as [a|X e k IH]; intros K Hp; [by eapply proves_pre; [|apply Hf]|].
  cbn in *. intros s Hs HK. destruct (Hp s Hs HK) as (Hi & Hg & K' & Hst & HK' & Hk). split_and!; [done..|].
  exists K'. split_and!; [done..|]. by apply IH.
Qed.

Lemma proves_call {X} R G K (e : E X) (Q : X -> S -> Prop) :
  (forall x, stable R (Q x)) ->
  (forall s, Inv s -> K s -> Inv (h X e s).2 /\ G s (h X e s).2 /\ Q (h X e s).1 (h X e s).2) ->
  proves R G K (call e) Q.
Proof.
  intros Hst He s Hs HK. destruct (He s Hs HK) as (Hi & Hg & Hq). split_and!; [done..|].
  exists (Q (h X e s).1). split; [apply Hst|]. split; [done|]. by intros s' _ ?.
Qed.

Lemma proves_ret {A} R G K (a : A) (Q : A -> S -> Prop) : (forall s, Inv s -> K s -> Q a s) -> proves R G K (mret a) Q.
Proof. done. Qed.

(** A fact the knowledge carries that does not depend on the store. *)
Lemma proves_pure {A} (P : Prop) R G K (p : prog E A) Q :
  (forall s, Inv s -> K s -> P) -> (P -> proves R G K p Q) -> proves R G K p Q.
Proof. intros HP Hp. destruct p as [a|X e k]; intros s Hs HK; exact (Hp (HP s Hs HK) s Hs HK). Qed.

(** Programs all of whose operations keep the invariant and what is known. *)
Lemma proves_ops {A} R G K (P : forall X, E X -> Prop) (p : prog E A) :
  stable R K -> (forall X (e : E X) s, P X e -> Inv s -> K s -> Inv (h X e s).2 /\ G s (h X e s).2 /\ K (h X e s).2) ->
  ops P p -> proves R G K p (fun _ => K).
Proof.
  intros Hst HP. induction p as [a|X e k IH]; [by intros _ s _ ?|]. intros [He Hk] s Hs HK. destruct (HP X e s He Hs HK) as (Hi & Hg & HK').
  split_and!; [done..|]. exists K. split_and!; [done..|]. by apply IH.
Qed.

Context {A : Type} (R0 G0 R1 G1 env : S -> S -> Prop).
Context (H10 : forall s s', G1 s s' -> R0 s s') (H01 : forall s s', G0 s s' -> R1 s s') (H11 : forall s s', G1 s s' -> R1 s s').
Context (Henv : forall s s', env s s' -> Inv s -> Inv s' /\ R0 s s' /\ R1 s s').

(** A program whose proof has come this far in the store [s]. *)
Definition underway R G (s : S) (p : prog E A) : Prop := exists K, stable R K /\ K s /\ proves R G K p (fun _ _ => True).

Definition led_pool (c : list (prog E A) * S) : Prop :=
  Inv c.2 /\ match c.1 with [] => False | p0 :: ps => underway R0 G0 c.2 p0 /\ Forall (underway R1 G1 c.2) ps end.

Lemma underway_moves R G s s' p : Inv s -> Inv s' -> R s s' -> underway R G s p -> underway R G s' p.
Proof. intros Hs Hs' HR (K & Hst & HK & Hp). exists K. split_and!; [done|exact (Hst s s' Hs Hs' HR HK)|done]. Qed.

Lemma underway_step R G s X (e : E X) k :
  Inv s -> underway R G s (Vis e k) -> Inv (h X e s).2 /\ G s (h X e s).2 /\ underway R G (h X e s).2 (k (h X e s).1).
Proof. intros Hs (K & _ & HK & Hp). destruct (Hp s Hs HK) as (Hi & Hg & K' & ? & ? & ?). split_and!; [done..|]. by exists K'. Qed.

Lemma led_pool_step c c' : pool_step h env c c' -> led_pool c -> led_pool c' /\ (G0 c.2 c'.2 \/ G1 c.2 c'.2 \/ env c.2 c'.2).
Proof.
  intros Hstep [Hs Hc]. destruct Hstep as [i X e k ps s Hi|ps s s' He]; cbn in *.
  - destruct ps as [|p0 ps]; [done|]. destruct Hc as [Hp0 Hps]. destruct i as [|i]; cbn in Hi.
    + injection Hi as ->. destruct (underway_step _ _ _ _ _ _ Hs Hp0) as (Hi & Hg & Hk). split; [|by left]. split; [done|].
      cbn. split; [done|]. eapply Forall_impl; [exact Hps|]. intros p. apply underway_moves; auto.
    + destruct (underway_step _ _ _ _ _ _ Hs (Forall_lookup_1 _ _ _ _ Hps Hi)) as (HI & Hg & Hk). split; [|by right; left].
      split; [done|]. cbn. split; [by apply (underway_moves _ _ s); auto|]. apply Forall_insert; [|done].
      eapply Forall_impl; [exact Hps|]. intros p. apply underway_moves; auto.
  - destruct (Henv s s' He Hs) as (Hs' & HR0 & HR1). split; [|by right; right]. split; [done|]. destruct ps as [|p0 ps]; [done|].
    destruct Hc as [Hp0 Hps]. cbn. split; [by apply (underway_moves _ _ s)|]. eapply Forall_impl; [exact Hps|]. intros p. by apply underway_moves.
Qed.

(** Such a pool stays one, and changes the store only as guaranteed. *)
Lemma led_pool_steps (P : S -> S -> Prop) `{!PreOrder P} c c' :
  (forall s s', Inv s -> Inv s' -> G0 s s' \/ G1 s s' \/ env s s' -> P s s') ->
  rtc (pool_step h env) c c' -> led_pool c -> led_pool c' /\ P c.2 c'.2.
Proof.
  intros HP. induction 1 as [|x y z Hxy _ IH]; intros Hx; [by split|].
  destruct (led_pool_step x y Hxy Hx) as [Hy Hg]. destruct (IH Hy) as [Hz Hp]. split; [done|].
  etransitivity; [|exact Hp]. apply HP; [apply Hx|apply Hy|done].
Qed.
End Rely.

(** Programs that all play the same role: what each guarantees is what each
    relies on, an order in which the store only moves up. *)
Section Peers.
Context {E : Type -> Type} {S A : Type} (h : handler E S) (Inv : S -> Prop) (env P : S -> S -> Prop) `{!PreOrder P}.
Context (Henv : forall s s', env s s' -> Inv s -> Inv s' /\ P s s').

Definition peers (c : list (prog E A) * S) : Prop := Inv c.2 /\ Forall (underway h Inv P P c.2) c.1.

Lemma peers_step c c' : pool_step h env c c' -> peers c -> peers c' /\ P c.2 c'.2.
Proof.
  intros Hstep [Hs Hps]. destruct Hstep as [i X e k ps s Hi|ps s s' He]; cbn in *.
  - destruct (underway_step _ _ _ _ _ _ _ _ Hs (Forall_lookup_1 _ _ _ _ Hps Hi)) as (HI & HP & Hk). split; [|done]. split; [done|].
    apply Forall_insert; [|done]. eapply Forall_impl; [exact Hps|]. intros p. by apply underway_moves.
  - destruct (Henv s s' He Hs) as [HI HP]. split; [|done]. split; [done|]. eapply Forall_impl; [exact Hps|]. intros p. by apply underway_moves.
Qed.

Lemma peers_steps c c' : rtc (pool_step h env) c c' -> peers c -> peers c' /\ P c.2 c'.2.
Proof.
  induction 1 as [|x y z Hxy _ IH]; intros Hx; [by split|]. destruct (peers_step x y Hxy Hx) as [Hy Hp].
  destruct (IH Hy) as [Hz Hq]. split; [done|]. by etransitivity.
Qed.

(** A program starting from nothing known. *)
Lemma proves_underway (p : prog E A) s : proves h Inv P P (fun _ => True) p (fun _ _ => True) -> underway h Inv P P s p.
Proof. intros Hp. exists (fun _ => True). by split. Qed.
End Peers.

(** Programs with a role each, the place in the pool: what one guarantees is
    what every other relies on. *)
Section Roles.
Context {E : Type -> Type} {S A : Type} (h : handler E S) (Inv : S -> Prop) (env : S -> S -> Prop) (R G : nat -> S -> S -> Prop).
Context (HGR : forall i j s s', i <> j -> G i s s' -> R j s s').
Context (Henv : forall s s', env s s' -> Inv s -> Inv s' /\ forall j, R j s s').

Definition ensemble (c : list (prog E A) * S) : Prop :=
  Inv c.2 /\ forall i p, c.1 !! i = Some p -> underway h Inv (R i) (G i) c.2 p.

Lemma ensemble_step c c' : pool_step h env c c' -> ensemble c -> ensemble c'.
Proof.
  intros Hstep [Hs Hps]. destruct Hstep as [i X e k ps s Hi|ps s s' He]; cbn in *.
  - destruct (underway_step _ _ _ _ _ _ _ _ Hs (Hps i _ Hi)) as (HI & HG & Hk). split; [done|]. intros j p. cbn.
    intros [(-> & <- & _)|[Hne Hp]]%list_lookup_insert_Some; [done|]. eapply underway_moves; [exact Hs|exact HI|by eapply HGR|by apply Hps].
  - destruct (Henv s s' He Hs) as [HI HR]. split; [done|]. intros j p Hp. eapply underway_moves; [exact Hs|exact HI|apply HR|by apply Hps].
Qed.

Lemma ensemble_steps c c' : rtc (pool_step h env) c c' -> ensemble c -> ensemble c'.
Proof. induction 1 as [|x y z Hxy _ IH]; [done|]. intros Hx. by eapply IH, ensemble_step. Qed.
End Roles.

(** ** Traces *)

(** A run from [c0] to [c] with the moments before [c], in order. *)
Section Trace.
Context {C : Type} (R : C -> C -> Prop).

Inductive trace (c0 : C) : list C -> C -> Prop :=
| trace_start : trace c0 [] c0
| trace_next l c c' : trace c0 l c -> R c c' -> trace c0 (l ++ [c]) c'.

Lemma trace_rtc c0 l c : trace c0 l c -> rtc R c0 c.
Proof. induction 1; [done|]. by eapply rtc_r. Qed.

Lemma rtc_trace c0 c : rtc R c0 c -> exists l, trace c0 l c.
Proof.
  revert c. apply rtc_ind_r; [exists []; constructor|]. intros c c' _ Hs [l Hl]. exists (l ++ [c]). by econstructor.
Qed.

(** A run with a step before it. *)
Lemma trace_cons c0 c1 l c : R c0 c1 -> trace c1 l c -> trace c0 (c0 :: l) c.
Proof. intros Hs. induction 1 as [|l c c' _ IH Hs']; [apply (trace_next c0 []); [constructor|done]|]. by apply (trace_next c0 (c0 :: l) c c'). Qed.

(** Each moment leads to every later one. *)
Lemma trace_order c0 l c i j a b : trace c0 l c -> l !! i = Some a -> (l ++ [c]) !! j = Some b -> (i <= j)%nat -> rtc R a b.
Proof.
  intros Ht. revert i j a b. induction Ht as [|l c c' Ht IH Hs]; intros i j a b Ha Hb Hij; [done|].
  assert (Hc : rtc R a c).
  { apply lookup_app_Some in Ha as [Ha|[Hlen Ha]].
    - apply (IH i (length l) a c Ha); [by rewrite lookup_app_r, Nat.sub_diag by lia|]. apply lookup_lt_Some in Ha. lia.
    - destruct (i - length l)%nat; [|done]. by injection Ha as <-. }
  apply lookup_app_Some in Hb as [Hb|[Hlen Hb]].
  - apply lookup_app_Some in Ha as [Ha|[Hlen Ha]]; [by eapply IH|]. destruct (i - length l)%nat eqn:Hi; [|done]. injection Ha as <-.
    apply lookup_lt_Some in Hb as Hlt. rewrite length_app in Hlt. cbn in Hlt. assert (j = length l) as -> by lia. rewrite lookup_app_r, Nat.sub_diag in Hb by lia. by injection Hb as <-.
  - destruct (j - length (l ++ [c]))%nat; [|done]. injection Hb as <-. by eapply rtc_r.
Qed.

Lemma trace_start_order c0 l c j b : trace c0 l c -> (l ++ [c]) !! j = Some b -> rtc R c0 b.
Proof.
  intros Ht. revert j b. induction Ht as [|l c c' Ht IH Hs]; intros j b Hb; [destruct j; [by injection Hb as <-|done]|].
  apply lookup_app_Some in Hb as [Hb|[_ Hb]]; [by eapply IH|]. destruct (j - _)%nat; [|done]. injection Hb as <-. eapply rtc_r; [by eapply trace_rtc|done].
Qed.
End Trace.

(** The moments of a schedule, and the run it is. *)
Fixpoint replay {E S A} (h : handler E S) (turns : list nat) (ps : list (prog E A)) (s : S) : list (list (prog E A) * S) :=
  match turns with
  | [] => []
  | i :: turns =>
      match ps !! i with
      | Some (Vis e k) => (ps, s) :: replay h turns (<[i := k (h _ e s).1]> ps) (h _ e s).2
      | _ => replay h turns ps s
      end
  end.

Lemma replay_trace {E S A} (h : handler E S) env turns (ps : list (prog E A)) s : trace (pool_step h env) (ps, s) (replay h turns ps s) (schedule h turns ps s).
Proof.
  revert ps s. induction turns as [|i turns IH]; intros ps s; cbn; [constructor|]. destruct (ps !! i) as [[a|X e k]|] eqn:Hi; [apply IH| |apply IH].
  eapply trace_cons; [by apply thread_step|apply IH].
Qed.

(** ** What a program has read

    A program that performs an operation only when what it read before allows
    it: [learn] says what an answer tells, [needs] what an operation of the
    thread [t] asks for, [holds] what a fact says of the store it was read from.
    In a pool, every fact a thread relies on held at an earlier moment. *)
Section Informed.
Context {E : Type -> Type} {S A F T : Type} (h : handler E S) (env : S -> S -> Prop).
Context (learn : forall X, E X -> X -> list F) (needs : T -> forall X, E X -> list F -> Prop) (holds : S -> F -> Prop).
Context (Hlearn : forall X (e : E X) s f, f ∈ learn X e (h X e s).1 -> holds s f).

(** [Q]: what is known with the answer. *)
Fixpoint informed {B} (t : T) (known : list F) (p : prog E B) (Q : B -> list F -> Prop) : Prop :=
  match p with
  | Ret b => Q b known
  | Vis e k => needs t _ e known /\ forall x, informed t (learn _ e x ++ known) (k x) Q
  end.

Lemma informed_post {B} t known (p : prog E B) (Q Q' : B -> list F -> Prop) :
  (forall b l, known ⊆ l -> Q b l -> Q' b l) -> informed t known p Q -> informed t known p Q'.
Proof.
  revert known. induction p as [b|X e k IH]; intros known HQ; [by apply HQ|]. intros [He Hk]. split; [done|]. intros x. apply IH; [|apply Hk].
  intros b l Hl. apply HQ. intros f Hf. apply Hl, elem_of_app. by right.
Qed.

Lemma informed_bind {B C} t known (p : prog E B) (f : B -> prog E C) (Q : B -> list F -> Prop) Q' :
  informed t known p Q -> (forall b l, known ⊆ l -> Q b l -> informed t l (f b) Q') -> informed t known (p ≫= f) Q'.
Proof.
  revert known. induction p as [b|X e k IH]; intros known Hp Hf; [by apply Hf|]. destruct Hp as [He Hk]. split; [done|]. intros x. eapply IH; [apply Hk|].
  intros b l Hl. apply Hf. intros g Hg. apply Hl, elem_of_app. by right.
Qed.

(** A program none of whose operations asks for anything. *)
Lemma informed_ops {B} t known (p : prog E B) (Q : B -> list F -> Prop) :
  ops (fun X e => forall l, needs t X e l) p -> (forall b l, known ⊆ l -> Q b l) -> informed t known p Q.
Proof.
  revert known. induction p as [b|X e k IH]; intros known; [intros _ HQ; by apply HQ|]. intros [He Hk] HQ. split; [apply He|]. intros x. apply IH; [apply Hk|].
  intros b l Hl. apply HQ. intros f Hf. apply Hl, elem_of_app. by right.
Qed.

Lemma informed_call {X} t known (e : E X) (Q : X -> list F -> Prop) :
  needs t X e known -> (forall x, Q x (learn X e x ++ known)) -> informed t known (call e) Q.
Proof. intros He HQ. split; [done|]. intros x. apply HQ. Qed.

Lemma informed_ret {B} t known (b : B) (Q : B -> list F -> Prop) : Q b known -> informed t known (mret b) Q.
Proof. done. Qed.

(** Each thread of the run knows only what held at a moment of it. *)
Lemma informed_trace (ts : list T) (c0 c : list (prog E A) * S) moments :
  (forall i t p, ts !! i = Some t -> c0.1 !! i = Some p -> informed t [] p (fun _ _ => True)) -> trace (pool_step h env) c0 moments c ->
  forall i t p, ts !! i = Some t -> c.1 !! i = Some p ->
    exists known, informed t known p (fun _ _ => True) /\ forall f, f ∈ known -> exists m, m ∈ moments /\ holds m.2 f.
Proof.
  intros H0 Ht. induction Ht as [|l c c' Ht IH Hs]; intros i t p Hi Hp.
  - exists []. split; [by eapply H0|]. by intros f ?%not_elem_of_nil.
  - assert (Hkeep : forall known : list F, (forall f, f ∈ known -> exists m, m ∈ l /\ holds m.2 f) -> forall f, f ∈ known -> exists m, m ∈ l ++ [c] /\ holds m.2 f).
    { intros known Hk f Hf. destruct (Hk f Hf) as (m & Hm & Hh). exists m. split; [apply elem_of_app; by left|done]. }
    destruct Hs as [j X e k ps s Hj|ps s s' He]; cbn in *.
    + destruct (decide (i = j)) as [->|Hne].
      * rewrite list_lookup_insert_eq in Hp by (by eapply lookup_lt_Some). injection Hp as <-.
        destruct (IH j t _ Hi Hj) as (known & [_ Hk] & Hl). exists (learn X e (h X e s).1 ++ known). split; [apply Hk|].
        intros f [Hf|Hf]%elem_of_app; [|by eapply Hkeep]. exists (ps, s). split; [apply elem_of_app; right; left|by eapply Hlearn].
      * rewrite list_lookup_insert_ne in Hp by done. destruct (IH i t p Hi Hp) as (known & Hk & Hl). exists known. split; [done|by apply Hkeep].
    + destruct (IH i t p Hi Hp) as (known & Hk & Hl). exists known. split; [done|by apply Hkeep].
Qed.
End Informed.

(** ** History

    A handler that also records in [T] what was done: every run has its
    recorded version. *)
Section History.
Context {E : Type -> Type} {S T : Type} (h : handler E S) (rec : forall X, E X -> T -> T).

Definition with_history : handler E (S * T) := fun X e st => ((h X e st.1).1, ((h X e st.1).2, rec X e st.2)).

Definition env_history (env : S -> S -> Prop) (st st' : S * T) : Prop := env st.1 st'.1 /\ st'.2 = st.2.

Lemma history_steps {A} (env : S -> S -> Prop) (c c' : list (prog E A) * S) :
  rtc (pool_step h env) c c' ->
  forall t, exists t', rtc (pool_step with_history (env_history env)) (c.1, (c.2, t)) (c'.1, (c'.2, t')).
Proof.
  induction 1 as [c|x y z Hxy _ IH]; intros t; [by exists t|].
  assert (Hs : exists t1, pool_step with_history (env_history env) (x.1, (x.2, t)) (y.1, (y.2, t1))).
  { destruct Hxy as [i X e k ps s Hi|ps s s' He]; cbn.
    - exists (rec X e t). exact (thread_step with_history (env_history env) i X e k ps (s, t) Hi).
    - exists t. by apply env_step. }
  destruct Hs as [t1 Hs]. destruct (IH t1) as [t2 Ht2]. exists t2. by eapply rtc_l.
Qed.
End History.
