(* ===== verification/Queue.v ===== *)
(** * Durable job queues

    What the queue tables of the program have in common: rows under their own
    id, at most one live row per subject (a partial unique index), bulk updates
    of the due rows. [QueueRow] is the interface a table's row type offers;
    every lemma is proved against it and used by each queue. *)
From S2P Require Import Prelude.
Local Open Scope Z_scope.

Class QueueRow (J : Type) := {
  row_id : J -> uuid;
  row_subject : J -> uuid;
  row_live : J -> bool;
}.

Section Queue.
Context {J : Type} `{QueueRow J}.
Implicit Types (m : gmap uuid J) (j : J).

(** Every row is stored under its own id, and no subject has two live rows. *)
Definition rows_keyed m : Prop := forall k j, m !! k = Some j -> row_id j = k.

Definition one_live_row m : Prop :=
  forall k1 k2 j1 j2, m !! k1 = Some j1 -> m !! k2 = Some j2 ->
    row_live j1 = true -> row_live j2 = true -> row_subject j1 = row_subject j2 -> k1 = k2.

Definition queue_wf m : Prop := rows_keyed m /\ one_live_row m.

(** A table whose rows come from an old one, with the same id and subject, and
    are live only where the old row was. *)
Definition narrows m m' : Prop :=
  forall k j', m' !! k = Some j' -> exists j, m !! k = Some j /\
    row_id j' = row_id j /\ row_subject j' = row_subject j /\ (row_live j' = true -> row_live j = true).

#[global] Instance narrows_preorder : PreOrder narrows.
Proof.
  split; [intros m k j Hj; by exists j|]. intros m1 m2 m3 H12 H23 k j3 Hj3.
  destruct (H23 _ _ Hj3) as (j2 & Hj2 & E1 & E2 & E3).
  destruct (H12 _ _ Hj2) as (j1 & Hj1 & F1 & F2 & F3). exists j1. split_and!; [done|congruence..|auto].
Qed.

Lemma narrows_wf m m' : narrows m m' -> queue_wf m -> queue_wf m'.
Proof.
  intros Hn [Hk Hl]. split.
  - intros k j' Hj'. destruct (Hn _ _ Hj') as (j & Hj & -> & _). by apply Hk.
  - intros k1 k2 j1 j2 H1 H2 L1 L2 He.
    destruct (Hn _ _ H1) as (i1 & I1 & _ & E1 & M1). destruct (Hn _ _ H2) as (i2 & I2 & _ & E2 & M2).
    apply (Hl k1 k2 i1 i2); auto. congruence.
Qed.

Lemma narrows_sub m m' : m' ⊆ m -> narrows m m'.
Proof. intros Hs k j Hj. exists j. split_and!; try done. by eapply lookup_weaken. Qed.

Lemma narrows_alter f k m :
  (forall j, row_id (f j) = row_id j /\ row_subject (f j) = row_subject j /\
     (m !! k = Some j -> row_live (f j) = true -> row_live j = true)) ->
  narrows m (alter f k m).
Proof.
  intros Hf i j' Hi. destruct (decide (k = i)) as [->|Hne].
  - rewrite lookup_alter_eq in Hi. destruct (m !! i) as [j|] eqn:Hj; [|done]. injection Hi as <-.
    exists j. destruct (Hf j) as (? & ? & ?). split_and!; auto.
  - rewrite lookup_alter_ne in Hi by done. by exists j'.
Qed.

(** Update the listed rows. *)
Definition update_rows (f : J -> J) (js : list J) m : gmap uuid J := foldr (fun j => alter f (row_id j)) m js.

Lemma update_rows_lookup f js m k j' :
  (forall j, row_id (f j) = row_id j /\ row_subject (f j) = row_subject j) ->
  update_rows f js m !! k = Some j' ->
  exists j, m !! k = Some j /\ row_id j' = row_id j /\ row_subject j' = row_subject j /\
    (j' = j \/ k ∈ map row_id js).
Proof.
  intros Hf. revert j'. induction js as [|i js IH]; intros j'; cbn [update_rows foldr].
  { intros Hj. exists j'. auto. }
  destruct (decide (row_id i = k)) as [He|Hne].
  - rewrite He, lookup_alter_eq. fold (update_rows f js m).
    destruct (update_rows f js m !! k) as [j1|] eqn:Hj1; [|done]. intros [= <-].
    destruct (IH _ eq_refl) as (j & Hj & E1 & E2 & _). destruct (Hf j1) as [F1 F2].
    exists j. split_and!; [done|congruence..|]. right. cbn. rewrite He. by left.
  - rewrite lookup_alter_ne by done. intros Hj. destruct (IH _ Hj) as (j & ? & ? & ? & Hor).
    exists j. split_and!; try done. destruct Hor; [by left|right]. cbn. by right.
Qed.

(** The first [limit] rows that satisfy [P], by [key]. *)
Definition first_rows (key : J -> Z) (limit : nat) (P : J -> Prop) `{!forall j, Decision (P j)} m : list J :=
  take limit (merge_sort (by_key key) (filter P (map_to_list m).*2)).

Lemma first_rows_elem key limit P `{!forall j, Decision (P j)} m j :
  j ∈ first_rows key limit P m -> (exists k, m !! k = Some j) /\ P j.
Proof.
  unfold first_rows. intros Hin. apply elem_of_take in Hin as (i & Hi & _). apply list_elem_of_lookup_2 in Hi.
  rewrite merge_sort_Permutation in Hi. apply list_elem_of_filter in Hi as [HP Hi].
  apply list_elem_of_fmap in Hi as ([k j'] & -> & Hi). apply elem_of_map_to_list in Hi. eauto.
Qed.

(** Updating chosen rows that are all live narrows the table. *)
Lemma narrows_chosen f key limit P `{!forall j, Decision (P j)} m :
  rows_keyed m -> (forall j, P j -> row_live j = true) ->
  (forall j, row_id (f j) = row_id j /\ row_subject (f j) = row_subject j) ->
  narrows m (update_rows f (first_rows key limit P m) m).
Proof.
  intros Hk HP Hf k j' Hj'. destruct (update_rows_lookup _ _ _ _ _ Hf Hj') as (j & Hj & E1 & E2 & Hor).
  exists j. split_and!; try done. destruct Hor as [->|Hin]; [done|]. intros _.
  apply list_elem_of_fmap in Hin as (i & -> & Hin). apply first_rows_elem in Hin as ((k' & Hk') & HPi).
  pose proof (Hk _ _ Hk'). assert (i = j) as -> by congruence. auto.
Qed.

(** Some live row of the subject. *)
Definition has_live_row (id : uuid) m : bool :=
  existsb (fun j => bool_decide (row_subject j = id) && row_live j) (map_to_list m).*2.

Lemma has_live_row_true id m k j :
  m !! k = Some j -> row_subject j = id -> row_live j = true -> has_live_row id m = true.
Proof.
  intros Hj He Hl. unfold has_live_row. apply existsb_exists. exists j. split.
  - apply list_elem_of_In, list_elem_of_fmap. exists (k, j). by rewrite elem_of_map_to_list.
  - by rewrite bool_decide_eq_true_2.
Qed.

Lemma has_live_row_false id m k j :
  has_live_row id m = false -> m !! k = Some j -> row_subject j = id -> row_live j = false.
Proof.
  intros Hn Hj He. destruct (row_live j) eqn:Hl; [|done].
  by rewrite (has_live_row_true id m k j) in Hn.
Qed.

(** A row under a fresh id, of a subject without a live row. *)
Lemma queue_wf_insert m j :
  m !! row_id j = None -> has_live_row (row_subject j) m = false -> queue_wf m -> queue_wf (<[row_id j := j]> m).
Proof.
  intros Hfresh Hlive [Hk Hl]. split.
  - intros k i. destruct (decide (row_id j = k)) as [<-|Hne].
    + rewrite lookup_insert_eq. by intros [= <-].
    + rewrite lookup_insert_ne by done. apply Hk.
  - intros k1 k2 j1 j2. rewrite !lookup_insert_Some.
    intros [[<- <-]|[Hn1 H1]] [[<- <-]|[Hn2 H2]] L1 L2 He; [done| | |by eapply Hl].
    + by rewrite (has_live_row_false _ _ _ _ Hlive H2) in L2.
    + by rewrite (has_live_row_false _ _ _ _ Hlive H1) in L1.
Qed.

(** Making a row live again, where the index allows it. *)
Lemma queue_wf_requeue f id j m :
  m !! id = Some j -> negb (row_live j) && has_live_row (row_subject j) m = false ->
  (forall j, row_id (f j) = row_id j /\ row_subject (f j) = row_subject j) ->
  queue_wf m -> queue_wf (alter f id m).
Proof.
  intros Hj Hok Hf [Hk Hl]. destruct (row_live j) eqn:Hlj; cbn [negb andb] in Hok.
  { apply (narrows_wf m); [|by split]. apply narrows_alter. intros i. destruct (Hf i). split_and!; try done.
    intros Hi _. congruence. }
  assert (Hnone : forall k i, m !! k = Some i -> row_subject i = row_subject j -> row_live i = false).
  { intros. by eapply has_live_row_false. }
  split.
  - intros k i. destruct (decide (id = k)) as [<-|Hne].
    + rewrite lookup_alter_eq, Hj. cbn. intros [= <-]. rewrite (proj1 (Hf j)). by apply Hk.
    + rewrite lookup_alter_ne by done. apply Hk.
  - intros k1 k2 j1 j2. rewrite !lookup_alter_Some.
    intros [(<- & i1 & Hi1 & ->)|[Hn1 H1]] [(<- & i2 & Hi2 & ->)|[Hn2 H2]] L1 L2 He; [done| | |by eapply Hl]; exfalso.
    + assert (i1 = j) as -> by congruence. rewrite (proj2 (Hf j)) in He. by rewrite (Hnone _ _ H2) in L2.
    + assert (i2 = j) as -> by congruence. rewrite (proj2 (Hf j)) in He. by rewrite (Hnone _ _ H1) in L1.
Qed.
End Queue.
