(* ===== verification/Retry.v ===== *)
(** * The workers' retry schedule (src/internal/retry/retry.go)

    [Backoff] is the delay before retry attempt [n] that every queue-backed
    worker uses: base doubled once per attempt already spent, capped at max,
    in [int64] nanoseconds. *)
From S2P Require Import Prelude.
Local Open Scope Z_scope.
Local Open Scope go_scope.

(** The body of the loop, run [n] more times. *)
Fixpoint Backoff_loop (n : nat) (d max : duration) : duration :=
  match n with
  | O => d
  | S n' => let d' := d *% 2 in if max <=? d' then max else Backoff_loop n' d' max
  end.

(** [retry.Backoff]: the loop runs for i = 1, ..., attempt - 1. *)
Definition Backoff (attempt : Z) (base max : duration) : duration :=
  Backoff_loop (Z.to_nat (attempt - 1)) base max.

(** ** Lemmas *)

(** The doublings stay inside [int64] as long as the cap does not exceed
    2^62: below the cap a value can be doubled once more. *)
Lemma Backoff_loop_min n d max :
  0 < d < 2 ^ 62 -> max <= 2 ^ 62 ->
  Backoff_loop (S n) d max = Z.min (d * 2 ^ Z.of_nat (S n)) max.
Proof.
  revert d. induction n as [|n IH]; intros d Hd Hmax.
  - cbn [Backoff_loop]. unwrap. change (2 ^ Z.of_nat 1) with 2.
    destruct (Z.leb_spec max (d * 2)); lia.
  - cbn [Backoff_loop]. unwrap.
    destruct (Z.leb_spec max (d * 2)).
    + assert (1 <= 2 ^ Z.of_nat (S n)) by (apply (Z.pow_le_mono_r 2 0); lia).
      rewrite (Nat2Z.inj_succ (S n)), Z.pow_succ_r by lia. nia.
    + change (Backoff_loop (S n) (d * 2) max = Z.min (d * 2 ^ Z.of_nat (S (S n))) max).
      rewrite IH by lia. f_equal.
      rewrite (Nat2Z.inj_succ (S n)), Z.pow_succ_r by lia. ring.
Qed.

Lemma Backoff_first attempt base max : attempt <= 1 -> Backoff attempt base max = base.
Proof. intros H. unfold Backoff. replace (Z.to_nat (attempt - 1)) with O by lia. done. Qed.

Lemma Backoff_later attempt base max :
  2 <= attempt -> 0 < base < 2 ^ 62 -> max <= 2 ^ 62 ->
  Backoff attempt base max = Z.min (base * 2 ^ (attempt - 1)) max.
Proof.
  intros Ha Hb Hm. unfold Backoff.
  replace (Z.to_nat (attempt - 1)) with (S (Z.to_nat (attempt - 2))) by lia.
  rewrite Backoff_loop_min by lia. do 2 f_equal. f_equal. lia.
Qed.

Lemma Backoff_bounds attempt base max :
  0 < base <= max -> max < 2 ^ 62 -> base <= Backoff attempt base max <= max.
Proof.
  intros Hb Hm. destruct (Z.le_gt_cases attempt 1).
  - rewrite Backoff_first by done. lia.
  - rewrite Backoff_later by lia.
    assert (1 <= 2 ^ (attempt - 1)) by (apply (Z.pow_le_mono_r 2 0); lia). nia.
Qed.

#[export] Hint Resolve Backoff_bounds : vidra.

(** Past the 2^62 bound the doubling does wrap: the delay becomes negative. *)
Example Backoff_wraps : Backoff 3 (2 ^ 61) max_int64 = - 2 ^ 63.
Proof. vm_compute. reflexivity. Qed.

(** ** Properties *)

(** For every schedule the workers configure (a positive base not above
    the cap, the cap below 2^62 ns), the delay before retry [attempt] is
    exactly min(base * 2^(attempt-1), max) for every attempt (a non-positive
    attempt waits base), it lies between base and the cap, and it never
    decreases from one attempt to the next: no doubling overflows. *)
Theorem Backoff_exponential (attempt base max : Z) :
  0 < base <= max -> max < 2 ^ 62 ->
  Backoff attempt base max = Z.min (base * 2 ^ Z.max 0 (attempt - 1)) max /\
  base <= Backoff attempt base max <= max /\
  (forall next, attempt <= next -> Backoff attempt base max <= Backoff next base max).
Proof.
  intros Hb Hm.
  assert (Hform : forall a, Backoff a base max = Z.min (base * 2 ^ Z.max 0 (a - 1)) max).
  { intros a. destruct (Z.le_gt_cases a 1).
    - rewrite Backoff_first by done. replace (Z.max 0 (a - 1)) with 0 by lia. lia.
    - rewrite Backoff_later by lia. do 2 f_equal. f_equal. lia. }
  split_and!; [apply Hform|by apply Backoff_bounds| by apply Backoff_bounds |].
  intros next Hn. rewrite !Hform.
  assert (2 ^ Z.max 0 (attempt - 1) <= 2 ^ Z.max 0 (next - 1)) by (apply Z.pow_le_mono_r; lia).
  nia.
Qed.

Lemma Backoff_exponential_witness :
  Backoff 4 Minute Hour = 8 * Minute /\
  Minute <= Backoff 4 Minute Hour <= Hour.
Proof.
  destruct (Backoff_exponential 4 Minute Hour) as (E & B & _);
    [vm_compute; split; congruence || done | vm_compute; done |].
  split; [rewrite E; vm_compute; reflexivity | exact B].
Defined.
