(* ===== verification/Storage.v ===== *)
(** * Blob storage (src/internal/storage)

    Readers and [io.Copy], the key rules every backend shares
    ([validateKey]), and the local-filesystem backend ([Local]: files and
    directories under a root). [Backend] is the interface the other
    components are proved against; [Local] is shown to implement it. *)
From S2P Require Import Prelude.
Local Open Scope Z_scope.

(** ** Errors that travel through readers and backends *)
Inductive ioerr :=
| ErrInvalidKey
| ErrNotFound
| ErrChunkTooLarge  (* upload.ErrChunkTooLarge, raised by a capped reader *)
| ErrBody           (* the client's body broke off *)
| ErrIO.            (* the operating system refused *)

#[global] Instance ioerr_eq_dec : EqDecision ioerr.
Proof. solve_decision. Defined.

(** ** Readers *)

(** What a [Read] reports besides its bytes. *)
Inductive rstat := Cont | Eof | Fail (e : ioerr).

#[global] Instance rstat_eq_dec : EqDecision rstat.
Proof. solve_decision. Defined.

(** A source of bytes: the pieces it will deliver, how it ends (end of file,
    or an error), and whether it reports the end together with the last
    piece or only on the next call. *)
Record reader := Reader { pieces : list bytes; rend : option ioerr; eager : bool }.

(** The status a reader ends with: [io.EOF], or its error. *)
Definition end_stat (r : reader) : rstat :=
  match rend r with None => Eof | Some e => Fail e end.

(** One [Read] into a buffer of [len] bytes. *)
Definition Read (len : Z) (r : reader) : bytes * rstat * reader :=
  match pieces r with
  | [] => ([], end_stat r, r)
  | s :: ss =>
      let fits := Z.of_nat (length s) <=? len in
      let ss' := if fits then ss else drop (Z.to_nat len) s :: ss in
      (if fits then s else take (Z.to_nat len) s,
       match ss' with [] => if eager r then end_stat r else Cont | _ => Cont end,
       Reader ss' (rend r) (eager r))
  end.

(** All the bytes a reader holds. *)
Definition data (r : reader) : bytes := concat (pieces r).

(** [io.Copy]'s buffer. *)
Definition copy_buf : Z := 32768.

(** [io.Copy]'s loop over any stateful [Read]: what was written, and the
    error that stopped it ([None] at end of file). *)
Fixpoint copy_loop {R} (rd : Z -> R -> bytes * rstat * R) (fuel : nat) (r : R)
    : option (bytes * option ioerr) :=
  match fuel with
  | O => None
  | S fuel' =>
      match rd copy_buf r with
      | (d, Eof, _) => Some (d, None)
      | (d, Fail e, _) => Some (d, Some e)
      | (d, Cont, r') =>
          match copy_loop rd fuel' r' with
          | Some (d', e) => Some (d ++ d', e)
          | None => None
          end
      end
  end.

(** Every [Read] delivers a byte or finishes a piece. *)
Definition reads_left (ps : list bytes) : nat := S (length ps + length (concat ps)).

Definition io_Copy (r : reader) : option (bytes * option ioerr) :=
  copy_loop Read (S (reads_left (pieces r))) r.

(** [io.LimitReader] over a reader: what may still be read, and the reader. *)
Definition limit_Read (len : Z) (st : Z * reader) : bytes * rstat * (Z * reader) :=
  if st.1 <=? 0 then ([], Eof, st)
  else match Read (Z.min len st.1) st.2 with
       | (d, s, r') => (d, s, (st.1 - Z.of_nat (length d), r'))
       end.

(** [io.ReadAll(io.LimitReader(r, n))] *)
Definition read_limited (n : Z) (r : reader) : option (bytes * option ioerr) :=
  copy_loop limit_Read (S (S (reads_left (pieces r)))) (n, r).

(** ** Keys *)

Definition slash : Ascii.ascii := Ascii.ascii_of_nat 47.
Definition nul : Ascii.ascii := Ascii.ascii_of_nat 0.

(** [strings.Split(s, "/")] *)
Fixpoint split_slash (s : string) : list string :=
  match s with
  | EmptyString => [EmptyString]
  | String c s' =>
      if bool_decide (c = slash) then EmptyString :: split_slash s'
      else match split_slash s' with
           | w :: ws => String c w :: ws
           | [] => [String c EmptyString]
           end
  end.

(** The inverse: segments joined with "/". *)
Fixpoint join_slash (ws : list string) : string :=
  match ws with
  | [] => EmptyString
  | [w] => w
  | w :: ws' => String.append w (String slash (join_slash ws'))
  end.

Fixpoint contains (c : Ascii.ascii) (s : string) : bool :=
  match s with
  | EmptyString => false
  | String c' s' => bool_decide (c = c') || contains c s'
  end.

(** [strings.HasPrefix(s, "/")] *)
Definition absolute (s : string) : bool :=
  match s with String c _ => bool_decide (c = slash) | EmptyString => false end.

(** [storage.validateKey]: non-empty, no NUL, relative, no ".." segment. *)
Definition validateKey (key : string) : bool :=
  negb (bool_decide (key = EmptyString) || contains nul key || absolute key) &&
  forallb (fun seg => negb (bool_decide (seg = ".."%string))) (split_slash key).

(** A cleaned path below the root, as its segments. *)
Abbreviation path := (list string) (only parsing).

(** [Local.resolve]: [filepath.Join] cleans the key (empty and "." segments
    vanish); the final [Rel] test refuses a path that leaves the root. *)
Definition resolve (key : string) : option path :=
  if validateKey key then
    let p := filter (fun seg => seg <> EmptyString /\ seg <> "."%string) (split_slash key) in
    match p with
    | seg :: _ => if bool_decide (seg = ".."%string) then None else Some p
    | [] => Some p
    end
  else None.

(** A key [Join] leaves as it is: distinct ones name distinct files. *)
Definition canonical (key : string) : bool :=
  validateKey key &&
  forallb (fun seg => negb (bool_decide (seg = EmptyString)) && negb (bool_decide (seg = "."%string)))
    (split_slash key).

(** ** The local backend *)

(** The directory tree under the root. *)
Record Local := mkLocal { files : gmap path bytes; dirs : gset path }.

(** The proper ancestors of a path, the root included. *)
Fixpoint ancestors (p : path) : list path :=
  match p with
  | [] => []
  | seg :: p' => [] :: map (cons seg) (ancestors p')
  end.

Definition is_file (l : Local) (p : path) : bool :=
  match files l !! p with Some _ => true | None => false end.

(** Some ancestor is a file: the path cannot be created or opened. *)
Definition blocked (l : Local) (p : path) : bool := existsb (is_file l) (ancestors p).

(** Where the operating system fails a [Put], if it does. *)
Inductive put_fault := MkdirFails | OpenFails | WriteFails | CloseFails.

#[global] Instance put_fault_eq_dec : EqDecision put_fault.
Proof. solve_decision. Defined.

(** [Local.Put] *)
Definition Local_Put (flt : option put_fault) (key : string) (r : reader) (l : Local)
    : result ioerr Z * Local :=
  match resolve key with
  | None => (Err ErrInvalidKey, l)
  | Some p =>
      if blocked l p || bool_decide (flt = Some MkdirFails) then (Err ErrIO, l)
      else
        let l1 := mkLocal (files l) (dirs l ∪ list_to_set (ancestors p)) in
        if bool_decide (p ∈ dirs l1) || bool_decide (flt = Some OpenFails) then (Err ErrIO, l1)
        else
          (* O_CREATE|O_TRUNC, then io.Copy; a failed copy removes the file *)
          let gone := mkLocal (delete p (files l1)) (dirs l1) in
          match (if bool_decide (flt = Some WriteFails) then None else io_Copy r) with
          | None => (Err ErrIO, gone)
          | Some (_, Some e) => (Err e, gone)
          | Some (d, None) =>
              let l2 := mkLocal (<[p := d]> (files l1)) (dirs l1) in
              if bool_decide (flt = Some CloseFails) then (Err ErrIO, l2)
              else (Ok (Z.of_nat (length d)), l2)
          end
  end.

(** [Local.Open]; [os.Open] of a directory succeeds and its first read fails. *)
Definition Local_Open (key : string) (l : Local) : result ioerr reader :=
  match resolve key with
  | None => Err ErrInvalidKey
  | Some p =>
      match files l !! p with
      | Some d => Ok (Reader [d] None false)
      | None =>
          if bool_decide (p ∈ dirs l) then Ok (Reader [] (Some ErrIO) false)
          else if blocked l p then Err ErrIO else Err ErrNotFound
      end
  end.

Definition below (p q : path) : bool := bool_decide (p `prefix_of` q).

(** [Local.Delete]; [os.Remove] also removes an empty directory. *)
Definition Local_Delete (key : string) (l : Local) : result ioerr unit * Local :=
  match resolve key with
  | None => (Err ErrInvalidKey, l)
  | Some p =>
      if is_file l p then (Ok tt, mkLocal (delete p (files l)) (dirs l))
      else if bool_decide (p ∈ dirs l) then
        if existsb (fun q => below p q && negb (bool_decide (p = q)))
             (elements (dirs l) ++ (map_to_list (files l)).*1)
        then (Err ErrIO, l)
        else (Ok tt, mkLocal (files l) (dirs l ∖ {[p]}))
      else if blocked l p then (Err ErrIO, l)
      else (Ok tt, l)
  end.

(** [Local.DeletePrefix]: [os.RemoveAll] *)
Definition Local_DeletePrefix (prefix : string) (l : Local) : result ioerr unit * Local :=
  match resolve prefix with
  | None => (Err ErrInvalidKey, l)
  | Some p =>
      if blocked l p then (Err ErrIO, l)
      else (Ok tt, mkLocal (filter (fun kv => below p kv.1 = false) (files l))
                           (filter (fun q => below p q = false) (dirs l)))
  end.

(** [Local.Exists] *)
Definition Local_Exists (key : string) (l : Local) : result ioerr bool :=
  match resolve key with
  | None => Err ErrInvalidKey
  | Some p =>
      if is_file l p || bool_decide (p ∈ dirs l) then Ok true
      else if blocked l p then Err ErrIO else Ok false
  end.

(** What a name in a directory can be. *)
Definition clean_seg (seg : string) : bool :=
  negb (bool_decide (seg = EmptyString) || bool_decide (seg = "."%string) || bool_decide (seg = ".."%string) ||
        contains slash seg || contains nul seg).

(** [Local.ListKeys]: the files at or below the prefix, each as its key, in an
    order its callers do not rely on. *)
Definition Local_ListKeys (prefix : string) (l : Local) : result ioerr (list string) :=
  match resolve prefix with
  | None => Err ErrInvalidKey
  | Some p =>
      if blocked l p then Err ErrIO
      else Ok (map join_slash (filter (fun q => below p q && forallb clean_seg q && negb (bool_decide (q = [])) = true)
                                 (map_to_list (files l)).*1))
  end.

(** The backend a process holds: the tree, and what the operating system will
    do to the next writes. *)
Record LocalFS := mkLocalFS { tree : Local; os_faults : list (option put_fault) }.

(** ** The interface *)

(** [storage.Backend] with [storage.PrefixDeleter], and what is stored at a
    key. *)
Class Backend (B : Type) := {
  be_put : string -> reader -> B -> result ioerr Z * B;
  be_open : string -> B -> result ioerr reader;
  be_delete : string -> B -> result ioerr unit * B;
  be_deletePrefix : string -> B -> result ioerr unit * B;
  contents : B -> string -> option bytes;
}.

(** [k] is the key [p] itself or lies in the "directory" [p]. *)
Definition under (p k : string) : bool := below (split_slash p) (split_slash k).

(** What the documentation of the interface promises its callers. *)
Class BackendLaws (B : Type) `{Backend B} := {
  put_ok k r (b : B) n :
    canonical k = true -> (be_put k r b).1 = Ok n ->
    rend r = None /\ n = Z.of_nat (length (data r)) /\
    contents (be_put k r b).2 k = Some (data r);
  put_frame k k' r (b : B) :
    canonical k = true -> canonical k' = true -> k <> k' ->
    contents (be_put k r b).2 k' = contents b k';
  open_stored k (b : B) d :
    canonical k = true -> contents b k = Some d ->
    exists r, be_open k b = Ok r /\ data r = d /\ rend r = None;
  open_missing k (b : B) r :
    canonical k = true -> contents b k = None -> be_open k b = Ok r -> rend r <> None;
  delete_ok k (b : B) :
    canonical k = true -> (be_delete k b).1 = Ok tt -> contents (be_delete k b).2 k = None;
  delete_frame k k' (b : B) :
    canonical k = true -> canonical k' = true -> k <> k' ->
    contents (be_delete k b).2 k' = contents b k';
  deletePrefix_ok p k (b : B) :
    canonical p = true -> canonical k = true -> under p k = true ->
    (be_deletePrefix p b).1 = Ok tt -> contents (be_deletePrefix p b).2 k = None;
  deletePrefix_frame p k (b : B) :
    canonical p = true -> canonical k = true -> under p k = false ->
    contents (be_deletePrefix p b).2 k = contents b k;
}.

(** [*storage.Local] as a [storage.Backend]. *)
#[global] Instance local_backend : Backend LocalFS := {
  be_put k r b :=
    let flt := match os_faults b with f :: _ => f | [] => None end in
    ((Local_Put flt k r (tree b)).1,
     mkLocalFS (Local_Put flt k r (tree b)).2 (tail (os_faults b)));
  be_open k b := Local_Open k (tree b);
  be_delete k b := ((Local_Delete k (tree b)).1, mkLocalFS (Local_Delete k (tree b)).2 (os_faults b));
  be_deletePrefix p b :=
    ((Local_DeletePrefix p (tree b)).1, mkLocalFS (Local_DeletePrefix p (tree b)).2 (os_faults b));
  contents b k := match resolve k with Some p => files (tree b) !! p | None => None end;
}.

(** [storage.ObjectLister] *)
Class Lister (B : Type) := { be_list : string -> B -> result ioerr (list string) }.

(** A listing names stored objects under the prefix, and all of them. *)
Class ListerLaws (B : Type) `{Backend B, Lister B} := {
  list_sound p (b : B) ks k :
    canonical p = true -> be_list p b = Ok ks -> k ∈ ks ->
    canonical k = true /\ under p k = true /\ is_Some (contents b k);
  list_complete p (b : B) ks k :
    canonical p = true -> be_list p b = Ok ks -> canonical k = true -> under p k = true -> is_Some (contents b k) -> k ∈ ks;
}.

#[global] Instance local_lister : Lister LocalFS := { be_list p b := Local_ListKeys p (tree b) }.

(** ** Lemmas: readers *)

Lemma copy_buf_pos : 0 < copy_buf.
Proof. unfold copy_buf. lia. Qed.

(** One read delivers a prefix of what is left, reports the end only when
    nothing is left, and makes progress. *)
Lemma Read_spec len r d st r' :
  0 < len -> Read len r = (d, st, r') ->
  data r = d ++ data r' /\ rend r' = rend r /\ Z.of_nat (length d) <= len /\
  (st <> Cont -> pieces r' = [] /\ st = end_stat r) /\
  (st = Cont \/ d <> [] -> (reads_left (pieces r') < reads_left (pieces r))%nat).
Proof.
  intros Hlen. destruct r as [ps e eg]; unfold Read, data, reads_left; cbn.
  destruct ps as [|s ss]; intros [= <- <- <-]; cbn.
  - split_and!; try done; [lia|]. intros [H|H]; [|done]. destruct e; done.
  - destruct (Z.leb_spec (Z.of_nat (length s)) len); cbn.
    + split_and!; try done.
      * destruct ss; [|done]. destruct eg; done.
      * intros _. rewrite length_app. lia.
    + split_and!; try done.
      * by rewrite app_assoc, take_drop.
      * rewrite length_take. lia.
      * intros _. rewrite !length_app, length_drop. lia.
Qed.

(** [io.Copy] from a reader returns, with every byte and the reader's error. *)
Lemma copy_loop_Read fuel r :
  (reads_left (pieces r) < fuel)%nat -> copy_loop Read fuel r = Some (data r, rend r).
Proof.
  revert r. induction fuel as [|fuel IH]; intros r Hf; [lia|].
  cbn. destruct (Read copy_buf r) as [[d st] r'] eqn:HR.
  apply Read_spec in HR as (Hd & He & _ & Hend & Hprog); [|apply copy_buf_pos].
  destruct st as [| |e].
  - rewrite IH by (specialize (Hprog (or_introl eq_refl)); lia). by rewrite Hd, He.
  - destruct Hend as [Hp Hs]; [done|].
    unfold data in Hd |- *. rewrite Hp in Hd. cbn in Hd. rewrite app_nil_r in Hd.
    unfold end_stat in Hs. rewrite Hd. by destruct (rend r).
  - destruct Hend as [Hp Hs]; [done|].
    unfold data in Hd |- *. rewrite Hp in Hd. cbn in Hd. rewrite app_nil_r in Hd.
    unfold end_stat in Hs. rewrite Hd. destruct (rend r); by simplify_eq.
Qed.

Lemma io_Copy_all r : io_Copy r = Some (data r, rend r).
Proof. apply copy_loop_Read. lia. Qed.

(** ** Lemmas: keys *)

Lemma split_slash_nonempty s : split_slash s <> [].
Proof. destruct s as [|c s]; cbn; [done|]. case_bool_decide; [done|]. by destruct (split_slash s). Qed.

Lemma join_split s : join_slash (split_slash s) = s.
Proof.
  induction s as [|c s IH]; [done|]. cbn [split_slash].
  case_bool_decide as Hc.
  - destruct (split_slash s) as [|w ws] eqn:Hs; [by destruct (split_slash_nonempty s)|].
    subst c. change (String slash (join_slash (w :: ws)) = String slash s). by rewrite IH.
  - destruct (split_slash s) as [|w ws] eqn:Hs; [by destruct (split_slash_nonempty s)|].
    rewrite <- IH. by destruct ws.
Qed.

#[global] Instance split_slash_inj : Inj (=) (=) split_slash.
Proof. intros s t H. by rewrite <- (join_split s), H, join_split. Qed.

(** A canonical key resolves to its own segments. *)
Lemma canonical_resolve k : canonical k = true -> resolve k = Some (split_slash k).
Proof.
  unfold canonical, resolve. intros H. apply andb_true_iff in H as [Hv Hs]. rewrite Hv.
  assert (Hf : filter (fun seg => seg <> EmptyString /\ seg <> "."%string) (split_slash k) = split_slash k).
  { apply filter_all. apply Forall_forall. intros seg Hin.
    apply (forallb_elem _ _ _ Hs) in Hin. bools. done. }
  rewrite Hf. destruct (split_slash k) as [|seg ps] eqn:Hk; [done|].
  unfold validateKey in Hv. rewrite Hk in Hv. cbn in Hv. bools.
  by rewrite bool_decide_eq_false_2.
Qed.

(** Nothing resolves outside the root: no segment of a resolved path is
    "..", empty or ".". *)
Lemma resolve_inside k p :
  resolve k = Some p -> Forall (fun seg => seg <> ".."%string /\ seg <> EmptyString /\ seg <> "."%string) p.
Proof.
  unfold resolve, validateKey. intros H.
  destruct (negb _ && forallb _ _) eqn:Hv; [|done]. bools.
  assert (Hp : p = filter (fun seg => seg <> EmptyString /\ seg <> "."%string) (split_slash k)).
  { destruct (filter _ _) as [|seg ps] eqn:Hf; [congruence|].
    destruct (bool_decide (seg = ".."%string)); congruence. }
  subst p. apply Forall_forall. intros seg Hin. apply list_elem_of_filter in Hin as [Hs Hin].
  eapply forallb_elem in Hin; [|eassumption]. destruct Hs. cbn in Hin. bools. done.
Qed.

(** ** Lemmas: the local backend *)

Lemma below_refl p : below p p = true.
Proof. unfold below. by apply bool_decide_eq_true. Qed.

Lemma not_file l p : is_file l p = false -> files l !! p = None.
Proof. unfold is_file. by destruct (files l !! p). Qed.

(** The tree a [Put] leaves behind differs from the old one at its own path
    only. *)
Lemma Local_Put_frame flt k r l p q :
  resolve k = Some p -> p <> q -> files (Local_Put flt k r l).2 !! q = files l !! q.
Proof.
  intros Hp Hne. unfold Local_Put. rewrite Hp. cbn.
  repeat case_match; cbn; simplify_map_eq; done.
Qed.

Lemma Local_Put_ok flt k r l p n :
  resolve k = Some p -> (Local_Put flt k r l).1 = Ok n ->
  rend r = None /\ n = Z.of_nat (length (data r)) /\
  files (Local_Put flt k r l).2 !! p = Some (data r).
Proof.
  intros Hp. unfold Local_Put. rewrite Hp, io_Copy_all. cbn.
  repeat case_match; intros; simplify_eq/=; simplify_map_eq; done.
Qed.

(** A path that is free is written: the reader's error, or its length. *)
Lemma Local_Put_accepts k r l p :
  resolve k = Some p -> blocked l p = false -> p ∉ dirs l ∪ list_to_set (ancestors p) ->
  (Local_Put None k r l).1 =
    match rend r with None => Ok (Z.of_nat (length (data r))) | Some e => Err e end.
Proof.
  intros Hp Hb Hd. unfold Local_Put. rewrite Hp, Hb. cbn [orb dirs files].
  rewrite !bool_decide_eq_false_2 by done. cbn [orb]. rewrite io_Copy_all. by destruct (rend r).
Qed.

Lemma Local_Delete_frame k l p q :
  resolve k = Some p -> p <> q -> files (Local_Delete k l).2 !! q = files l !! q.
Proof.
  intros Hp Hne. unfold Local_Delete. rewrite Hp.
  repeat case_match; cbn; simplify_map_eq; done.
Qed.

Lemma Local_Delete_ok k l p :
  resolve k = Some p -> (Local_Delete k l).1 = Ok tt -> files (Local_Delete k l).2 !! p = None.
Proof.
  intros Hp. unfold Local_Delete. rewrite Hp.
  destruct (is_file l p) eqn:Hf; cbn; [by rewrite lookup_delete_eq|].
  apply not_file in Hf. repeat case_match; cbn; done.
Qed.

(** The local backend keeps the interface's promises. *)
#[global] Instance local_laws : BackendLaws LocalFS.
Proof.
  split; cbn; intros *.
  - intros Hk%canonical_resolve. rewrite Hk. by apply Local_Put_ok.
  - intros Hk%canonical_resolve Hk'%canonical_resolve Hne. rewrite Hk'.
    apply (Local_Put_frame _ _ _ _ (split_slash k)); [done|]. by intros ?%(inj split_slash).
  - intros Hk%canonical_resolve. rewrite Hk. unfold Local_Open. rewrite Hk. intros ->.
    eexists. split; [done|]. split; [apply app_nil_r|done].
  - intros Hk%canonical_resolve. rewrite Hk. unfold Local_Open. rewrite Hk. intros ->.
    repeat case_match; intros [= <-]; done.
  - intros Hk%canonical_resolve. rewrite Hk. by apply Local_Delete_ok.
  - intros Hk%canonical_resolve Hk'%canonical_resolve Hne. rewrite Hk'.
    apply (Local_Delete_frame _ _ (split_slash k)); [done|]. by intros ?%(inj split_slash).
  - intros Hp%canonical_resolve Hk%canonical_resolve Hu. rewrite Hk.
    unfold Local_DeletePrefix. rewrite Hp. case_match; [done|]. intros _. cbn.
    apply map_lookup_filter_None. right. intros x _. cbn. unfold under in Hu. congruence.
  - intros Hp%canonical_resolve Hk%canonical_resolve Hu. rewrite Hk.
    unfold Local_DeletePrefix. rewrite Hp. case_match; [done|]. cbn.
    rewrite map_lookup_filter. destruct (files (tree b) !! split_slash k); [|done]. cbn.
    unfold under in Hu. by rewrite option_guard_True.
Qed.

(** ** Lemmas: keys built from plain words *)

(** The characters of a UUID's text and of a decimal number. *)
Definition plain_char (c : Ascii.ascii) : bool :=
  let n := Ascii.nat_of_ascii c in
  ((48 <=? n) && (n <=? 57) || (97 <=? n) && (n <=? 122) || (n =? 45))%nat.

(** A non-empty word of such characters: one path segment. *)
Fixpoint plain_chars (s : string) : bool :=
  match s with EmptyString => true | String c s' => plain_char c && plain_chars s' end.

Definition plain (s : string) : bool := negb (bool_decide (s = EmptyString)) && plain_chars s.

Lemma plain_char_safe c : plain_char c = true -> c <> slash /\ c <> nul /\ c <> Ascii.ascii_of_nat 46.
Proof. intros H. split_and!; intros ->; vm_compute in H; discriminate H. Qed.

Lemma split_slash_plain s t :
  plain_chars s = true -> split_slash (String.append s (String slash t)) = s :: split_slash t.
Proof.
  induction s as [|c s IH]; cbn [plain_chars String.append split_slash]; intros Hs.
  - done.
  - bools. destruct (plain_char_safe c) as [Hc _]; [done|].
    change (split_slash (String c (String.append s (String slash t))) = String c s :: split_slash t).
    cbn [split_slash]. rewrite bool_decide_eq_false_2 by done. by rewrite IH.
Qed.

Lemma split_slash_word s : plain_chars s = true -> split_slash s = [s].
Proof.
  induction s as [|c s IH]; cbn [plain_chars split_slash]; intros Hs; [done|].
  bools. destruct (plain_char_safe c) as [Hc _]; [done|].
  rewrite bool_decide_eq_false_2 by done. by rewrite IH.
Qed.

Lemma plain_chars_nonul s : plain_chars s = true -> contains nul s = false.
Proof.
  induction s as [|c s IH]; cbn; [done|]. intros H. bools.
  destruct (plain_char_safe c) as (_ & Hc & _); [done|].
  rewrite bool_decide_eq_false_2 by done. by rewrite IH.
Qed.

Lemma plain_not_dots s : plain s = true -> s <> EmptyString /\ s <> "."%string /\ s <> ".."%string.
Proof. intros H. split_and!; intros ->; vm_compute in H; discriminate H. Qed.

Lemma contains_app c s t : contains c (String.append s t) = contains c s || contains c t.
Proof.
  induction s as [|c' s IH]; [done|].
  change (contains c (String c' (String.append s t)) = contains c (String c' s) || contains c t).
  cbn [contains]. by rewrite IH, orb_assoc.
Qed.

Lemma join_slash_cons w u us :
  join_slash (w :: u :: us) = String.append w (String slash (join_slash (u :: us))).
Proof. done. Qed.

(** Plain words joined with "/" split back into the words. *)
Lemma split_join_plain ws :
  Forall (fun w => plain w = true) ws -> ws <> [] -> split_slash (join_slash ws) = ws.
Proof.
  induction 1 as [|w ws Hw Hws IH]; [done|]. intros _. unfold plain in Hw. bools.
  destruct ws as [|u us]; [by apply split_slash_word|].
  rewrite join_slash_cons, split_slash_plain by done. by rewrite IH.
Qed.

Lemma join_plain_nonul ws :
  Forall (fun w => plain w = true) ws -> contains nul (join_slash ws) = false.
Proof.
  induction 1 as [|w ws Hw Hws IH]; [done|]. unfold plain in Hw. bools.
  destruct ws as [|u us]; [by apply plain_chars_nonul|].
  rewrite join_slash_cons, contains_app, plain_chars_nonul by done. cbn [contains].
  by rewrite IH.
Qed.

Lemma join_plain_head ws :
  Forall (fun w => plain w = true) ws -> ws <> [] ->
  join_slash ws <> EmptyString /\ absolute (join_slash ws) = false.
Proof.
  intros Hws Hne. inversion Hws as [|w ws' Hw Hws' E]; subst; [done|]. clear Hws Hne.
  unfold plain in Hw. bools. destruct w as [|c w]; [done|]. cbn in *. bools.
  destruct (plain_char_safe c) as (Hc & _); [done|].
  destruct ws'; cbn; split; try done; by apply bool_decide_eq_false_2.
Qed.

(** Such a key is canonical. *)
Lemma canonical_join ws :
  Forall (fun w => plain w = true) ws -> ws <> [] -> canonical (join_slash ws) = true.
Proof.
  intros Hws Hne. destruct (join_plain_head ws Hws Hne) as [H1 H2].
  unfold canonical, validateKey. rewrite (join_plain_nonul ws), H2, split_join_plain by done.
  rewrite bool_decide_eq_false_2 by done. cbn [orb negb andb].
  apply andb_true_iff; split; apply forallb_forall; intros seg Hin%list_elem_of_In;
    pose proof (proj1 (Forall_forall _ _) Hws seg Hin) as (Ha & Hb & Hc)%plain_not_dots.
  - by rewrite bool_decide_eq_false_2.
  - by rewrite !bool_decide_eq_false_2.
Qed.

(** Decimal numbers are plain. *)
Lemma pretty_N_go_plain x s : plain_chars s = true -> plain_chars (pretty_N_go x s) = true.
Proof.
  revert s. induction (N.lt_wf_0 x) as [x _ IH]. intros s Hs.
  destruct (decide (x = 0%N)) as [->|]; [by rewrite pretty_N_go_0|].
  rewrite pretty_N_go_step by lia. apply IH; [apply N.div_lt; lia|].
  cbn. rewrite Hs, andb_true_r. unfold pretty_N_char. by repeat case_match.
Qed.

Lemma pretty_N_plain (x : N) : plain (pretty x) = true.
Proof.
  unfold plain. apply andb_true_iff; split.
  - apply negb_true_iff, bool_decide_eq_false_2. unfold pretty, pretty_N.
    case_decide; [done|]. rewrite pretty_N_go_step by lia.
    assert (Hlen : forall y s, (String.length s <= String.length (pretty_N_go y s))%nat).
    { intros y. induction (N.lt_wf_0 y) as [y _ IH]; intros s.
      destruct (decide (y = 0%N)) as [->|]; [by rewrite pretty_N_go_0|].
      rewrite pretty_N_go_step by lia. etrans; [|apply IH, N.div_lt; lia]. cbn. lia. }
    intros He. specialize (Hlen (x `div` 10)%N (String (pretty_N_char (x `mod` 10)) "")).
    rewrite He in Hlen. cbn in Hlen. lia.
  - unfold pretty, pretty_N. case_decide; [done|]. by apply pretty_N_go_plain.
Qed.

Lemma pretty_Z_plain (n : Z) : 0 <= n -> plain (pretty n) = true.
Proof. destruct n as [|p|p]; intros; [done|apply (pretty_N_plain (N.pos p))|lia]. Qed.

(** ** Lemmas: listings *)

Lemma clean_seg_spec seg :
  clean_seg seg = true ->
  seg <> EmptyString /\ seg <> "."%string /\ seg <> ".."%string /\ contains slash seg = false /\ contains nul seg = false.
Proof. unfold clean_seg. intros H. bools. done. Qed.

Lemma split_slash_no_slash s t :
  contains slash s = false -> split_slash (String.append s (String slash t)) = s :: split_slash t.
Proof.
  induction s as [|c s IH]; intros H; [done|].
  change (split_slash (String c (String.append s (String slash t))) = String c s :: split_slash t).
  cbn in *. bools. rewrite bool_decide_eq_false_2 by congruence. by rewrite IH by done.
Qed.

Lemma split_slash_single s : contains slash s = false -> split_slash s = [s].
Proof.
  induction s as [|c s IH]; intros H; [done|]. cbn in *. bools. rewrite bool_decide_eq_false_2 by congruence.
  by rewrite IH by done.
Qed.

(** Names joined with "/" split back into the names. *)
Lemma split_join_clean ws :
  Forall (fun w => clean_seg w = true) ws -> ws <> [] -> split_slash (join_slash ws) = ws.
Proof.
  induction 1 as [|w ws Hw Hws IH]; [done|]. intros _. apply clean_seg_spec in Hw as (_ & _ & _ & Hs & _).
  destruct ws as [|u us]; [by apply split_slash_single|].
  rewrite join_slash_cons, split_slash_no_slash by done. by rewrite IH.
Qed.

Lemma join_clean_nonul ws : Forall (fun w => clean_seg w = true) ws -> contains nul (join_slash ws) = false.
Proof.
  induction 1 as [|w ws Hw Hws IH]; [done|]. apply clean_seg_spec in Hw as (_ & _ & _ & _ & Hn).
  destruct ws as [|u us]; [done|]. rewrite join_slash_cons, contains_app, Hn. cbn [contains]. by rewrite IH.
Qed.

Lemma canonical_clean ws :
  Forall (fun w => clean_seg w = true) ws -> ws <> [] -> canonical (join_slash ws) = true.
Proof.
  intros Hws Hne. unfold canonical, validateKey. rewrite (join_clean_nonul ws), split_join_clean by done.
  assert (Hhead : join_slash ws <> EmptyString /\ absolute (join_slash ws) = false).
  { inversion Hws as [|w ws' Hw Hws' E]; subst; [done|]. apply clean_seg_spec in Hw as (H1 & _ & _ & Hs & _).
    destruct w as [|c w]; [done|]. cbn in Hs. bools.
    destruct ws'; cbn; split; try done; apply bool_decide_eq_false_2; congruence. }
  destruct Hhead as [H1 H2]. rewrite H2, bool_decide_eq_false_2 by done. cbn [orb negb andb].
  apply andb_true_iff; split; apply forallb_forall; intros seg Hin%list_elem_of_In;
    pose proof (proj1 (Forall_forall _ _) Hws seg Hin) as (Ha & Hb & Hc & _)%clean_seg_spec.
  - by rewrite bool_decide_eq_false_2.
  - by rewrite !bool_decide_eq_false_2.
Qed.

Lemma contains_split c s : contains c s = false -> Forall (fun w => contains c w = false) (split_slash s).
Proof.
  induction s as [|c' s IH]; intros H; [by repeat constructor|]. cbn in *. bools.
  case_bool_decide; [constructor; [done|by apply IH]|].
  specialize (IH ltac:(done)). destruct (split_slash s) as [|w ws]; [by repeat constructor; cbn; rewrite bool_decide_eq_false_2|].
  apply Forall_cons in IH as [Hw Hws]. constructor; [|done]. cbn. by rewrite bool_decide_eq_false_2 by done.
Qed.

Lemma split_has_no_slash s : Forall (fun w => contains slash w = false) (split_slash s).
Proof.
  induction s as [|c s IH]; [by repeat constructor|]. cbn. case_bool_decide as Hc; [by constructor|].
  destruct (split_slash s) as [|w ws]; [by repeat constructor; cbn; rewrite bool_decide_eq_false_2 by congruence|].
  apply Forall_cons in IH as [Hw Hws]. constructor; [|done]. cbn. by rewrite bool_decide_eq_false_2 by congruence.
Qed.

(** The segments of a canonical key are names. *)
Lemma canonical_segments k : canonical k = true -> Forall (fun w => clean_seg w = true) (split_slash k).
Proof.
  unfold canonical, validateKey. intros H. bools.
  repeat match goal with H : forallb _ _ = true |- _ => rewrite forallb_forall in H end.
  apply Forall_forall. intros seg Hin. pose proof (proj1 (Forall_forall _ _) (split_has_no_slash k) seg Hin) as Hs.
  assert (Hn : contains nul seg = false).
  { refine (proj1 (Forall_forall _ _) (contains_split nul k _) seg Hin). done. }
  apply list_elem_of_In in Hin.
  repeat match goal with H : forall x, List.In x _ -> _ |- _ => specialize (H seg Hin) end. bools.
  unfold clean_seg. rewrite Hs, Hn, !bool_decide_eq_false_2 by done. done.
Qed.

#[global] Instance local_lister_laws : ListerLaws LocalFS.
Proof.
  split.
  - intros p b ks k Hp. cbn. unfold Local_ListKeys. rewrite canonical_resolve by done. destruct (blocked _ _); [done|].
    intros [= <-] Hk. apply list_elem_of_fmap in Hk as (q & -> & Hq). apply list_elem_of_filter in Hq as [Hf Hq]. bools.
    apply list_elem_of_fmap in Hq as ([q' d] & -> & Hd%elem_of_map_to_list). cbn [fst] in *.
    assert (Hc : Forall (fun w => clean_seg w = true) q')
      by (apply Forall_forall; intros w Hw; by apply (proj1 (forallb_forall _ _) ltac:(eassumption)), list_elem_of_In).
    assert (Hcan : canonical (join_slash q') = true) by (by apply canonical_clean).
    unfold under. rewrite canonical_resolve, split_join_clean by done. split_and!; [done|done|by eexists].
  - intros p b ks k Hp. cbn. unfold Local_ListKeys. rewrite canonical_resolve by done. destruct (blocked _ _); [done|].
    intros [= <-] Hk Hu [d Hd]. rewrite canonical_resolve in Hd by done. apply list_elem_of_fmap.
    exists (split_slash k). split; [by rewrite join_split|]. apply list_elem_of_filter. split.
    + unfold under in Hu. rewrite Hu. pose proof (canonical_segments k Hk) as Hs.
      rewrite (proj2 (forallb_forall _ _)) by (intros w Hw%list_elem_of_In; by apply (proj1 (Forall_forall _ _) Hs)).
      rewrite bool_decide_eq_false_2 by apply split_slash_nonempty. done.
    + apply list_elem_of_fmap. exists (split_slash k, d). by rewrite elem_of_map_to_list.
Qed.
