(* ===== verification/UploadStore.v ===== *)
(** * The tables behind resumable uploads (src/internal/store/queries)

    [upload_sessions], [upload_chunks] and [upload_finalize_jobs] as finite
    maps, one definition per SQL statement of [upload_sessions.sql] and
    [upload_finalize_jobs.sql], and the signature [storeE] of everything the
    two services call (their [Repository] interfaces, the blob backend, the
    clock, the video pipeline) with its handler. A statement is atomic; the
    services interleave between statements. *)
From S2P Require Import Prelude Storage.
Local Open Scope Z_scope.

(** ** Rows *)

(** [upload_sessions.state] (the CHECK constraint of migration 0120). *)
Inductive sstate :=
| StateActive | StateQueued | StateProcessing | StateCompleted | StateFailed | StateCancelled.

#[global] Instance sstate_eq_dec : EqDecision sstate.
Proof. solve_decision. Defined.

(** [upload_sessions.purpose] *)
Inductive purpose := PurposeUpload | PurposeReplace.

#[global] Instance purpose_eq_dec : EqDecision purpose.
Proof. solve_decision. Defined.

(** [upload_finalize_jobs.state] *)
Inductive jstate := StatePending | StateRunning | StateDone | StateDead.

#[global] Instance jstate_eq_dec : EqDecision jstate.
Proof. solve_decision. Defined.

Record UploadSession := mkSession {
  ID : uuid; VideoID : uuid; UserID : uuid; Filename : string;
  TotalSize : Z; ChunkSize : Z; State : sstate; ExpiresAt : time;
  FileFingerprint : string; Purpose : purpose; FailureReason : string; CreatedAt : time;
}.

#[global] Instance session_eq_dec : EqDecision UploadSession.
Proof. solve_decision. Defined.

Record UploadFinalizeJob := mkJob {
  jID : uuid; jUploadID : uuid; jVideoID : uuid; jPurpose : purpose; jCanManage : bool;
  jState : jstate; jError : string; jAttempts : Z; jNextAttemptAt : time; jCreatedAt : time;
}.

#[global] Instance job_eq_dec : EqDecision UploadFinalizeJob.
Proof. solve_decision. Defined.

(** A job the partial unique index counts. *)
Definition live (j : UploadFinalizeJob) : bool :=
  match jState j with StatePending | StateRunning => true | StateDone | StateDead => false end.

(** The database: [videos] maps a video to its channel, [gen] is
    [uuid_generate_v4] (the [drawn]-th value it produces). *)
Record DB := mkDB {
  videos : gmap uuid uuid;
  sessions : gmap uuid UploadSession;
  chunks : gmap (uuid * Z) Z;
  jobs : gmap uuid UploadFinalizeJob;
  now : time;
  gen : nat -> uuid;
  drawn : nat;
}.

Definition with_sessions (f : gmap uuid UploadSession -> gmap uuid UploadSession) (d : DB) : DB :=
  mkDB (videos d) (f (sessions d)) (chunks d) (jobs d) (now d) (gen d) (drawn d).
Definition with_chunks (f : gmap (uuid * Z) Z -> gmap (uuid * Z) Z) (d : DB) : DB :=
  mkDB (videos d) (sessions d) (f (chunks d)) (jobs d) (now d) (gen d) (drawn d).
Definition with_jobs (f : gmap uuid UploadFinalizeJob -> gmap uuid UploadFinalizeJob) (d : DB) : DB :=
  mkDB (videos d) (sessions d) (chunks d) (f (jobs d)) (now d) (gen d) (drawn d).
Definition draw (d : DB) : DB :=
  mkDB (videos d) (sessions d) (chunks d) (jobs d) (now d) (gen d) (S (drawn d)).

(** Time passes. *)
Definition advance (t : time) (d : DB) : DB :=
  mkDB (videos d) (sessions d) (chunks d) (jobs d) t (gen d) (drawn d).

Definition set_state (st : sstate) (reason : string) (s : UploadSession) : UploadSession :=
  mkSession (ID s) (VideoID s) (UserID s) (Filename s) (TotalSize s) (ChunkSize s) st
    (ExpiresAt s) (FileFingerprint s) (Purpose s) reason (CreatedAt s).

Definition set_job (st : jstate) (err : string) (attempts : Z) (next : time) (j : UploadFinalizeJob)
    : UploadFinalizeJob :=
  mkJob (jID j) (jUploadID j) (jVideoID j) (jPurpose j) (jCanManage j) st err attempts next (jCreatedAt j).

(** ** Statements on upload_sessions and upload_chunks *)

Record CreateUploadSessionParams := {
  p_VideoID : uuid; p_ChannelID : uuid; p_UserID : uuid; p_Filename : string;
  p_TotalSize : Z; p_ChunkSize : Z; p_ExpiresAt : time; p_FileFingerprint : string; p_Purpose : purpose;
}.

Definition q_CreateUploadSession (p : CreateUploadSessionParams) (d : DB) : result dberr UploadSession * DB :=
  if bool_decide (videos d !! p_VideoID p = Some (p_ChannelID p)) then
    let id := gen d (drawn d) in
    let s := mkSession id (p_VideoID p) (p_UserID p) (p_Filename p) (p_TotalSize p) (p_ChunkSize p)
               StateActive (p_ExpiresAt p) (p_FileFingerprint p) (p_Purpose p) EmptyString (now d) in
    if (p_TotalSize p <=? 0) || (p_ChunkSize p <=? 0) then (Err ErrStore, draw d)
    else if bool_decide (sessions d !! id = None) then (Ok s, with_sessions <[id := s]> (draw d))
    else (Err ErrUnique, draw d)
  else (Err ErrNoRows, d).

Definition q_GetUploadSession (id : uuid) (d : DB) : result dberr UploadSession * DB :=
  (match sessions d !! id with Some s => Ok s | None => Err ErrNoRows end, d).

(** An active, unexpired session of the user. *)
Definition active_for (u : uuid) (d : DB) (s : UploadSession) : bool :=
  bool_decide (UserID s = u) && bool_decide (State s = StateActive) && (now d <? ExpiresAt s).

Definition q_CountActiveUploadSessionsForUser (u : uuid) (d : DB) : result dberr Z * DB :=
  (Ok (Z.of_nat (length (filter (fun s => active_for u d s = true) (map_to_list (sessions d)).*2))), d).

Definition q_HasActiveReplaceSessionForVideo (v : uuid) (d : DB) : result dberr bool * DB :=
  (Ok (existsb (fun s =>
         bool_decide (VideoID s = v) && bool_decide (Purpose s = PurposeReplace) &&
         match State s with StateActive | StateQueued | StateProcessing => true | _ => false end &&
         (now d <? ExpiresAt s)) (map_to_list (sessions d)).*2), d).

(** The recorded (index, size) rows of a session, in index order. *)
Definition chunk_rows (id : uuid) (d : DB) : list (Z * Z) :=
  merge_sort (by_key fst)
    (omap (fun '((u, n), size) => if bool_decide (u = id) then Some (n, size) else None)
       (map_to_list (chunks d))).

Definition q_ListActiveUploadSessionsForUser (u : uuid) (fingerprint : option string) (d : DB)
    : result dberr (list (UploadSession * Z)) * DB :=
  let keep s := active_for u d s &&
    match fingerprint with None => true | Some fp => bool_decide (FileFingerprint s = fp) end in
  (Ok (map (fun s => (s, Z.of_nat (length (chunk_rows (ID s) d))))
         (merge_sort (by_key (fun s => - CreatedAt s))
            (filter (fun s => keep s = true) (map_to_list (sessions d)).*2))), d).

Definition q_UpsertUploadChunk (id : uuid) (n size : Z) (d : DB) : result dberr unit * DB :=
  match sessions d !! id with
  | Some _ => if (n <? 0) || (size <? 0) then (Err ErrStore, d)
              else (Ok tt, with_chunks <[(id, n) := size]> d)
  | None => (Err ErrStore, d)
  end.

Definition q_ListUploadChunks (id : uuid) (d : DB) : result dberr (list (Z * Z)) * DB :=
  (Ok (chunk_rows id d), d).

Definition q_SetUploadSessionState (id : uuid) (st : sstate) (d : DB) : result dberr unit * DB :=
  (Ok tt, with_sessions (alter (set_state st EmptyString) id) d).

(** active -> queued, as a compare-and-set; the number of rows changed. *)
Definition q_MarkUploadSessionQueued (id : uuid) (d : DB) : result dberr Z * DB :=
  match sessions d !! id with
  | Some s =>
      if bool_decide (State s = StateActive)
      then (Ok 1, with_sessions (alter (set_state StateQueued EmptyString) id) d)
      else (Ok 0, d)
  | None => (Ok 0, d)
  end.

Definition q_FailUploadSession (id : uuid) (reason : string) (d : DB) : result dberr unit * DB :=
  (Ok tt, with_sessions (alter (set_state StateFailed reason) id) d).

Definition has_live_job (id : uuid) (d : DB) : bool :=
  existsb (fun j => bool_decide (jUploadID j = id) && live j) (map_to_list (jobs d)).*2.

Definition sweepable (d : DB) (s : UploadSession) : bool :=
  (bool_decide (State s = StateCancelled) || (ExpiresAt s <=? now d)) && negb (has_live_job (ID s) d).

Definition q_ListSweepableUploadSessions (limit : Z) (d : DB) : result dberr (list uuid) * DB :=
  (Ok (map ID (take (Z.to_nat limit)
         (merge_sort (by_key ExpiresAt)
            (filter (fun s => sweepable d s = true) (map_to_list (sessions d)).*2)))), d).

(** The row, its chunk ledger and its finalize jobs (ON DELETE CASCADE). *)
Definition q_DeleteUploadSession (id : uuid) (d : DB) : result dberr unit * DB :=
  (Ok tt,
   with_jobs (filter (fun kv => jUploadID kv.2 <> id))
     (with_chunks (filter (fun kv => kv.1.1 <> id))
        (with_sessions (delete id) d))).

(** ** Statements on upload_finalize_jobs *)

(** The lease every claim and renewal writes: 30 minutes. *)
Definition lease_Duration : duration := 30 * Minute.

Definition q_EnqueueUploadFinalizeJob (id vid : uuid) (p : purpose) (canManage : bool) (d : DB)
    : result dberr UploadFinalizeJob * DB :=
  match sessions d !! id, videos d !! vid with
  | Some _, Some _ =>
      if has_live_job id d then (Err ErrNoRows, draw d)
      else
        let jid := gen d (drawn d) in
        let j := mkJob jid id vid p canManage StatePending EmptyString 0 (now d) (now d) in
        if bool_decide (jobs d !! jid = None) then (Ok j, with_jobs <[jid := j]> (draw d))
        else (Err ErrUnique, draw d)
  | _, _ => (Err ErrStore, draw d)
  end.

(** Latest first: by creation time, then by id. *)
Definition later_job (x y : UploadFinalizeJob) : Prop :=
  jCreatedAt y < jCreatedAt x \/ (jCreatedAt y = jCreatedAt x /\ String.leb (jID y) (jID x) = true).

#[global] Instance later_job_dec : RelDecision later_job.
Proof. intros x y. unfold later_job. apply _. Defined.

Definition q_GetLatestUploadFinalizeJob (id : uuid) (d : DB) : result dberr UploadFinalizeJob * DB :=
  (match merge_sort later_job (filter (fun j => jUploadID j = id) (map_to_list (jobs d)).*2) with
   | j :: _ => Ok j
   | [] => Err ErrNoRows
   end, d).

Definition q_HasLiveUploadFinalizeJob (id : uuid) (d : DB) : result dberr bool * DB :=
  (Ok (has_live_job id d), d).

Definition q_DeleteUploadFinalizeJob (jid : uuid) (d : DB) : result dberr unit * DB :=
  (Ok tt, with_jobs (delete jid) d).

(** The due rows a claim or a sweep takes, oldest first. *)
Definition due (st : jstate) (limit : nat) (d : DB) : list UploadFinalizeJob :=
  take limit (merge_sort (by_key jNextAttemptAt)
    (filter (fun j => jState j = st /\ jNextAttemptAt j <= now d) (map_to_list (jobs d)).*2)).

Definition update_all (f : UploadFinalizeJob -> UploadFinalizeJob) (js : list UploadFinalizeJob)
    (m : gmap uuid UploadFinalizeJob) : gmap uuid UploadFinalizeJob :=
  foldr (fun j => alter f (jID j)) m js.

Definition q_ClaimDueUploadFinalizeJobs (limit : Z) (d : DB) : result dberr (list UploadFinalizeJob) * DB :=
  let js := due StatePending (Z.to_nat limit) d in
  let claim j := set_job StateRunning (jError j) (jAttempts j) (now d + lease_Duration) j in
  (Ok (map claim js), with_jobs (update_all claim js) d).

Definition q_CompleteUploadFinalizeJob (jid : uuid) (d : DB) : result dberr unit * DB :=
  (Ok tt, with_jobs (alter (fun j => set_job StateDone EmptyString (jAttempts j) (jNextAttemptAt j) j) jid) d).

(** Back to pending; the partial unique index refuses it when the row is not
    live and another job of the session is. *)
Definition q_RescheduleUploadFinalizeJob (jid : uuid) (next : time) (err : string) (d : DB)
    : result dberr unit * DB :=
  match jobs d !! jid with
  | Some j =>
      if negb (live j) && has_live_job (jUploadID j) d then (Err ErrUnique, d)
      else (Ok tt, with_jobs (alter (fun j => set_job StatePending err (jAttempts j + 1) next j) jid) d)
  | None => (Ok tt, d)
  end.

Definition q_FailUploadFinalizeJob (jid : uuid) (err : string) (d : DB) : result dberr unit * DB :=
  (Ok tt, with_jobs (alter (fun j => set_job StateDead err (jAttempts j + 1) (jNextAttemptAt j) j) jid) d).

Definition q_RenewUploadFinalizeJobLease (jid : uuid) (d : DB) : result dberr unit * DB :=
  (Ok tt, with_jobs (alter (fun j =>
     if bool_decide (jState j = StateRunning)
     then set_job StateRunning (jError j) (jAttempts j) (now d + lease_Duration) j else j) jid) d).

(** Running rows whose lease lapsed go back to the queue; rows changed. *)
Definition q_SweepExpiredUploadFinalizeJobs (d : DB) : result dberr Z * DB :=
  let js := due StateRunning 1000 d in
  (Ok (Z.of_nat (length js)),
   with_jobs (update_all (fun j => set_job StatePending (jError j) (jAttempts j + 1) (jNextAttemptAt j) j) js) d).

(** ** The collaborators' signature *)

(** The errors of the video pipeline the worker tells apart. *)
Inductive verr :=
| VErrUnsupportedMedia | VErrNotFound | VErrForbidden | VErrReplaceConflict
| VReplaceRejected (reason : string) | VMalwareRejected | VErrOther.

(** The video service behind [uploadfinalize.Pipeline]: its answer to the
    n-th call (the owner of a video, the stored key, ...). *)
Record Pipeline := {
  pl_GetByID : nat -> uuid -> result verr uuid;
  pl_AttachOriginal : nat -> uuid -> uuid -> string -> result verr string;
  pl_Process : nat -> uuid -> string -> result verr unit;
  pl_ReplaceSource : nat -> uuid -> uuid -> string -> bool -> result verr string;
}.

(** What a handler runs against: the database with its fault schedule, the
    blob backend, the pipeline, and the source bytes it has stored per video. *)
Record world (B : Type) := mkWorld {
  wdb : faulty DB;
  blobs : B;
  pipe : Pipeline;
  calls : nat;
  originals : gmap uuid bytes;
}.
Arguments mkWorld {B}.
Arguments wdb {B}.
Arguments blobs {B}.
Arguments pipe {B}.
Arguments calls {B}.
Arguments originals {B}.

(** [upload.Repository], [uploadfinalize.Repository], [storage.Backend], the
    injected clock, [uploadfinalize.Pipeline] and the replace hook. A reader handed to the
    pipeline is read when the pipeline runs: it is a function of the blobs. *)
Inductive storeE (B : Type) : Type -> Type :=
| CreateUploadSession (p : CreateUploadSessionParams) : storeE B (result dberr UploadSession)
| CountActiveUploadSessionsForUser (u : uuid) : storeE B (result dberr Z)
| HasActiveReplaceSessionForVideo (v : uuid) : storeE B (result dberr bool)
| GetUploadSession (id : uuid) : storeE B (result dberr UploadSession)
| UpsertUploadChunk (id : uuid) (n size : Z) : storeE B (result dberr unit)
| ListUploadChunks (id : uuid) : storeE B (result dberr (list (Z * Z)))
| ListActiveUploadSessionsForUser (u : uuid) (fp : option string)
    : storeE B (result dberr (list (UploadSession * Z)))
| SetUploadSessionState (id : uuid) (st : sstate) : storeE B (result dberr unit)
| MarkUploadSessionQueued (id : uuid) : storeE B (result dberr Z)
| FailUploadSession (id : uuid) (reason : string) : storeE B (result dberr unit)
| ListSweepableUploadSessions (limit : Z) : storeE B (result dberr (list uuid))
| DeleteUploadSession (id : uuid) : storeE B (result dberr unit)
| EnqueueUploadFinalizeJob (id vid : uuid) (p : purpose) (canManage : bool)
    : storeE B (result dberr UploadFinalizeJob)
| GetLatestUploadFinalizeJob (id : uuid) : storeE B (result dberr UploadFinalizeJob)
| HasLiveUploadFinalizeJob (id : uuid) : storeE B (result dberr bool)
| DeleteUploadFinalizeJob (jid : uuid) : storeE B (result dberr unit)
| ClaimDueUploadFinalizeJobs (limit : Z) : storeE B (result dberr (list UploadFinalizeJob))
| RenewUploadFinalizeJobLease (jid : uuid) : storeE B (result dberr unit)
| CompleteUploadFinalizeJob (jid : uuid) : storeE B (result dberr unit)
| RescheduleUploadFinalizeJob (jid : uuid) (next : time) (err : string) : storeE B (result dberr unit)
| FailUploadFinalizeJob (jid : uuid) (err : string) : storeE B (result dberr unit)
| SweepExpiredUploadFinalizeJobs : storeE B (result dberr Z)
| BlobPut (key : string) (r : reader) : storeE B (result ioerr Z)
| BlobDelete (key : string) : storeE B (result ioerr unit)
| BlobDeletePrefix (prefix : string) : storeE B (result ioerr unit)
| Now : storeE B time
| GetByID (vid : uuid) : storeE B (result verr uuid)
| AttachOriginal (owner vid : uuid) (filename : string) (rd : B -> option (bytes * option ioerr))
    : storeE B (result verr string)
| Process (vid : uuid) (key : string) : storeE B (result verr unit)
| ReplaceSource (actor vid : uuid) (filename : string) (canManage : bool)
    (rd : B -> option (bytes * option ioerr)) : storeE B (result verr string)
| OnReplaced (vid : uuid) (key : string) : storeE B unit.
Arguments CreateUploadSession {B}.
Arguments CountActiveUploadSessionsForUser {B}.
Arguments HasActiveReplaceSessionForVideo {B}.
Arguments GetUploadSession {B}.
Arguments UpsertUploadChunk {B}.
Arguments ListUploadChunks {B}.
Arguments ListActiveUploadSessionsForUser {B}.
Arguments SetUploadSessionState {B}.
Arguments MarkUploadSessionQueued {B}.
Arguments FailUploadSession {B}.
Arguments ListSweepableUploadSessions {B}.
Arguments DeleteUploadSession {B}.
Arguments EnqueueUploadFinalizeJob {B}.
Arguments GetLatestUploadFinalizeJob {B}.
Arguments HasLiveUploadFinalizeJob {B}.
Arguments DeleteUploadFinalizeJob {B}.
Arguments ClaimDueUploadFinalizeJobs {B}.
Arguments RenewUploadFinalizeJobLease {B}.
Arguments CompleteUploadFinalizeJob {B}.
Arguments RescheduleUploadFinalizeJob {B}.
Arguments FailUploadFinalizeJob {B}.
Arguments SweepExpiredUploadFinalizeJobs {B}.
Arguments BlobPut {B}.
Arguments BlobDelete {B}.
Arguments BlobDeletePrefix {B}.
Arguments Now {B}.
Arguments GetByID {B}.
Arguments AttachOriginal {B}.
Arguments Process {B}.
Arguments ReplaceSource {B}.
Arguments OnReplaced {B}.

Section Handler.
Context {B : Type} `{Backend B}.

Definition on_db {A} (q : DB -> result dberr A * DB) (w : world B) : result dberr A * world B :=
  let r := exec q (wdb w) in
  (r.1, mkWorld r.2 (blobs w) (pipe w) (calls w) (originals w)).

Definition on_blobs {A} (op : B -> A * B) (w : world B) : A * world B :=
  let r := op (blobs w) in
  (r.1, mkWorld (wdb w) r.2 (pipe w) (calls w) (originals w)).

Definition called (w : world B) : world B :=
  mkWorld (wdb w) (blobs w) (pipe w) (S (calls w)) (originals w).

(** A pipeline step that stores the stream: a reader that breaks makes it
    fail ([storage.PutSizedHashed] returns the reader's error). *)
Definition storing (answer : result verr string) (vid : uuid)
    (rd : B -> option (bytes * option ioerr)) (w : world B) : result verr string * world B :=
  match answer, rd (blobs w) with
  | Ok key, Some (d, None) =>
      (Ok key, mkWorld (wdb w) (blobs w) (pipe w) (S (calls w)) (<[vid := d]> (originals w)))
  | Ok _, _ => (Err VErrOther, called w)
  | Err e, _ => (Err e, called w)
  end.

Definition store_handler : handler (storeE B) (world B) := fun X e w =>
  match e in storeE _ X return X * world B with
  | CreateUploadSession p => on_db (q_CreateUploadSession p) w
  | CountActiveUploadSessionsForUser u => on_db (q_CountActiveUploadSessionsForUser u) w
  | HasActiveReplaceSessionForVideo v => on_db (q_HasActiveReplaceSessionForVideo v) w
  | GetUploadSession id => on_db (q_GetUploadSession id) w
  | UpsertUploadChunk id n size => on_db (q_UpsertUploadChunk id n size) w
  | ListUploadChunks id => on_db (q_ListUploadChunks id) w
  | ListActiveUploadSessionsForUser u fp => on_db (q_ListActiveUploadSessionsForUser u fp) w
  | SetUploadSessionState id st => on_db (q_SetUploadSessionState id st) w
  | MarkUploadSessionQueued id => on_db (q_MarkUploadSessionQueued id) w
  | FailUploadSession id reason => on_db (q_FailUploadSession id reason) w
  | ListSweepableUploadSessions limit => on_db (q_ListSweepableUploadSessions limit) w
  | DeleteUploadSession id => on_db (q_DeleteUploadSession id) w
  | EnqueueUploadFinalizeJob id vid p cm => on_db (q_EnqueueUploadFinalizeJob id vid p cm) w
  | GetLatestUploadFinalizeJob id => on_db (q_GetLatestUploadFinalizeJob id) w
  | HasLiveUploadFinalizeJob id => on_db (q_HasLiveUploadFinalizeJob id) w
  | DeleteUploadFinalizeJob jid => on_db (q_DeleteUploadFinalizeJob jid) w
  | ClaimDueUploadFinalizeJobs limit => on_db (q_ClaimDueUploadFinalizeJobs limit) w
  | RenewUploadFinalizeJobLease jid => on_db (q_RenewUploadFinalizeJobLease jid) w
  | CompleteUploadFinalizeJob jid => on_db (q_CompleteUploadFinalizeJob jid) w
  | RescheduleUploadFinalizeJob jid next err => on_db (q_RescheduleUploadFinalizeJob jid next err) w
  | FailUploadFinalizeJob jid err => on_db (q_FailUploadFinalizeJob jid err) w
  | SweepExpiredUploadFinalizeJobs => on_db q_SweepExpiredUploadFinalizeJobs w
  | BlobPut key r => on_blobs (be_put key r) w
  | BlobDelete key => on_blobs (be_delete key) w
  | BlobDeletePrefix p => on_blobs (be_deletePrefix p) w
  | Now => (now (store (wdb w)), w)
  | GetByID vid => (pl_GetByID (pipe w) (calls w) vid, called w)
  | AttachOriginal owner vid f rd => storing (pl_AttachOriginal (pipe w) (calls w) owner vid f) vid rd w
  | Process vid key => (pl_Process (pipe w) (calls w) vid key, called w)
  | ReplaceSource actor vid f cm rd =>
      storing (pl_ReplaceSource (pipe w) (calls w) actor vid f cm) vid rd w
  | OnReplaced vid key => (tt, called w)
  end.

End Handler.

(** ** The database as a transition system *)

(** The effect of one statement; the clock may also move forward. *)
Inductive db_step : DB -> DB -> Prop :=
| step_create p d : db_step d (q_CreateUploadSession p d).2
| step_chunk id n size d : db_step d (q_UpsertUploadChunk id n size d).2
| step_set_state id st d : st <> StateActive -> db_step d (q_SetUploadSessionState id st d).2
| step_queued id d : db_step d (q_MarkUploadSessionQueued id d).2
| step_fail id reason d : db_step d (q_FailUploadSession id reason d).2
| step_delete id d : db_step d (q_DeleteUploadSession id d).2
| step_enqueue id vid p cm d : db_step d (q_EnqueueUploadFinalizeJob id vid p cm d).2
| step_delete_job jid d : db_step d (q_DeleteUploadFinalizeJob jid d).2
| step_claim limit d : db_step d (q_ClaimDueUploadFinalizeJobs limit d).2
| step_renew jid d : db_step d (q_RenewUploadFinalizeJobLease jid d).2
| step_complete jid d : db_step d (q_CompleteUploadFinalizeJob jid d).2
| step_reschedule jid next err d : db_step d (q_RescheduleUploadFinalizeJob jid next err d).2
| step_fail_job jid err d : db_step d (q_FailUploadFinalizeJob jid err d).2
| step_sweep d : db_step d (q_SweepExpiredUploadFinalizeJobs d).2
| step_clock t d : now d <= t -> db_step d (advance t d).

(** ** Lemmas: the handler *)

Section HandlerLemmas.
Context {B : Type} `{Backend B}.

(** Only the fault schedule moved. *)
Definition unchanged (w w' : world B) : Prop :=
  store (wdb w') = store (wdb w) /\ blobs w' = blobs w /\ pipe w' = pipe w /\
  calls w' = calls w /\ originals w' = originals w.

#[global] Instance unchanged_preorder : PreOrder unchanged.
Proof. split; [done|]. intros x y z (?&?&?&?&?) (?&?&?&?&?). split_and!; congruence. Qed.

(** A statement that only reads changes nothing. *)
Lemma on_db_reads {A} (q : DB -> result dberr A * DB) w :
  (forall d, (q d).2 = d) -> unchanged w (on_db q w).2.
Proof. intros Hq. split; [|done]. cbn. symmetry. by apply (exec_rel q eq). Qed.

(** An answer of the database is the statement's, and its effect happened. *)
Lemma on_db_ok {A} (q : DB -> result dberr A * DB) (w : world B) a :
  (on_db q w).1 = Ok a ->
  (q (store (wdb w))).1 = Ok a /\ store (wdb (on_db q w).2) = (q (store (wdb w))).2.
Proof. apply exec_ok. Qed.

(** Without faults left, every call is the statement itself. *)
Lemma on_db_fine {A} (q : DB -> result dberr A * DB) (w : world B) :
  faults (wdb w) = [] ->
  on_db q w = ((q (store (wdb w))).1,
               mkWorld (Faulty (q (store (wdb w))).2 []) (blobs w) (pipe w) (calls w) (originals w)).
Proof. destruct w as [[d fs] b p c o]. cbn. by intros ->. Qed.

(** An invariant of the database the statement keeps is kept under faults. *)
Lemma on_db_invariant {A} (q : DB -> result dberr A * DB) (I : DB -> Prop) (w : world B) :
  (forall d, I d -> I (q d).2) -> I (store (wdb w)) -> I (store (wdb (on_db q w).2)).
Proof. intros Hq Hw. cbn. by apply exec_invariant. Qed.

Lemma on_db_rel {A} (q : DB -> result dberr A * DB) (R : DB -> DB -> Prop) `{!PreOrder R} (w : world B) :
  (forall d, R d (q d).2) -> R (store (wdb w)) (store (wdb (on_db q w).2)).
Proof. intros Hq. cbn. by apply exec_rel. Qed.

End HandlerLemmas.
