(* ===== verification/Upload.v ===== *)
(** * Resumable uploads (src/internal/upload/service.go)

    The session service: chunk arithmetic, the capped body reader, the chunk
    assembler, and every handler of [upload.Service] as a program over
    [storeE]. *)
From S2P Require Import Prelude Storage UploadStore.
Local Open Scope Z_scope.
Local Open Scope go_scope.

(** ** Constants and configuration *)

Definition ChunkSize_default : Z := 8 * 1024 * 1024.
Definition SessionTTL : duration := 24 * Hour.

(** [upload.Service]'s configuration: whether a blob backend is wired, whether
    it implements [storage.PrefixDeleter], the chunk size new sessions get, and
    the active-session cap with its live override. *)
Record Service := mkService {
  s_blobs : bool;
  s_prefixDeleter : bool;
  s_chunkSize : Z;
  s_maxActiveSessions : Z;
  s_maxActiveSessionsFn : option Z;
}.

(** The sentinel errors, and the collaborators' errors passed through. *)
Inductive uerr :=
| UErrNotFound | UErrNotActive | UErrChunkRange | UErrChunkSize | UErrChunkTooLarge
| UErrIncomplete | UErrStorageUnavailable | UErrTooManyActiveSessions | UErrVideoChanged
| UErrDB (e : dberr) | UErrIO (e : ioerr).

#[global] Instance uerr_eq_dec : EqDecision uerr.
Proof. solve_decision. Defined.

Definition Finalizing (st : sstate) : bool :=
  match st with StateQueued | StateProcessing => true | _ => false end.

(** ** Chunk arithmetic *)

(** [chunkPrefix] and [chunkKey] *)
Definition chunkPrefix (uploadID : uuid) : string := String.append "uploads/" uploadID.

Definition chunkKey (uploadID : uuid) (n : Z) : string :=
  String.append (chunkPrefix uploadID) (String.append "/" (pretty n)).

(** ceil(totalSize / chunkSize), in [int64]. *)
Definition totalChunks (totalSize chunkSize : Z) : Z :=
  Z.quot (totalSize +% chunkSize -% 1) chunkSize.

(** The exact length required of chunk [n]; [None] is the code's [false]. *)
Definition chunkExpectedSize (totalSize chunkSize n : Z) : option Z :=
  if n <? 0 then None
  else
    let total := totalChunks totalSize chunkSize in
    if total <=? n then None
    else if n =? total -% 1 then Some (totalSize -% (n *% chunkSize))
    else Some chunkSize.

(** ** The capped body reader *)

Record cappedReader := mkCapped { c_r : reader; c_remaining : Z }.

Definition capped_Read (len : Z) (c : cappedReader) : bytes * rstat * cappedReader :=
  if c_remaining c <? 0 then ([], Fail ErrChunkTooLarge, c)
  else
    let len' := if c_remaining c + 1 <? len then c_remaining c + 1 else len in
    match Read len' (c_r c) with
    | (d, st, r') =>
        let rem := c_remaining c - Z.of_nat (length d) in
        (d, if rem <? 0 then Fail ErrChunkTooLarge else st, mkCapped r' rem)
    end.

(** What draining the capped body yields. *)
Definition capped_drain (expected : Z) (r : reader) : option (bytes * option ioerr) :=
  copy_loop capped_Read (S (reads_left (pieces r))) (mkCapped r expected).

(** The capped body as the backend's reader sees it. *)
Definition capped (expected : Z) (r : reader) : reader :=
  match capped_drain expected r with
  | Some (d, e) => Reader [d] e false
  | None => Reader [] (Some ErrIO) false
  end.

(** ** The chunk assembler *)

Record chunkAssembler := mkAsm { a_total : Z; a_idx : Z; a_cur : option reader }.

(** Loop iterations an assembler can still make, given what the blobs hold. *)
Fixpoint open_left (opn : Z -> result ioerr reader) (i : Z) (n : nat) : nat :=
  match n with
  | O => O
  | S n' => match opn i with
            | Ok r => (reads_left (pieces r) + 2 + open_left opn (i + 1) n')%nat
            | Err _ => 1%nat
            end
  end.

Definition asm_left (opn : Z -> result ioerr reader) (a : chunkAssembler) : nat :=
  (match a_cur a with
   | Some r => reads_left (pieces r) + 1 + open_left opn (a_idx a + 1) (Z.to_nat (a_total a - a_idx a - 1))
   | None => open_left opn (a_idx a) (Z.to_nat (a_total a - a_idx a))
   end)%nat.

(** [chunkAssembler.Read]: open the next blob when none is open, skip empty
    reads, close and move on at the end of a blob. *)
Fixpoint asm_loop (opn : Z -> result ioerr reader) (fuel : nat) (len : Z) (a : chunkAssembler)
    : option (bytes * rstat * chunkAssembler) :=
  match fuel with
  | O => None
  | S fuel' =>
      match a_cur a with
      | None =>
          if a_total a <=? a_idx a then Some ([], Eof, a)
          else match opn (a_idx a) with
               | Err e => Some ([], Fail e, a)
               | Ok rc => asm_loop opn fuel' len (mkAsm (a_total a) (a_idx a) (Some rc))
               end
      | Some rc =>
          match Read len rc with
          | ([], Eof, _) => asm_loop opn fuel' len (mkAsm (a_total a) (a_idx a + 1) None)
          | ([], Fail e, rc') => Some ([], Fail e, mkAsm (a_total a) (a_idx a) (Some rc'))
          | ([], Cont, rc') => asm_loop opn fuel' len (mkAsm (a_total a) (a_idx a) (Some rc'))
          | (d, _, rc') => Some (d, Cont, mkAsm (a_total a) (a_idx a) (Some rc'))
          end
      end
  end.

Definition asm_Read (opn : Z -> result ioerr reader) (len : Z) (a : chunkAssembler)
    : bytes * rstat * chunkAssembler :=
  match asm_loop opn (S (asm_left opn a)) len a with
  | Some x => x
  | None => ([], Fail ErrIO, a)
  end.

(** The whole assembled stream, as [io.Copy] reads it. *)
Definition assembled (opn : Z -> result ioerr reader) (total : Z) : option (bytes * option ioerr) :=
  let a := mkAsm total 0 None in
  copy_loop (asm_Read opn) (S (S (asm_left opn a))) a.

(** The reader the pipeline is given: the session's blobs, in index order. *)
Definition assembler `{Backend B} (uploadID : uuid) (total : Z) (b : B) : option (bytes * option ioerr) :=
  assembled (fun n => be_open (chunkKey uploadID n) b) total.

(** ** Handlers *)

Section Handlers.
Context {B : Type} `{Backend B}.
Implicit Types (svc : Service) (uploadID userID videoID channelID : uuid).
Abbreviation M A := (prog (storeE B) A) (only parsing).

(** [Service.CreateSession] *)
Definition CreateSession svc videoID channelID userID (filename : string) (size : Z)
    (fileFingerprint purp : string) : M (result uerr UploadSession) :=
  let p := if bool_decide (purp = "replace"%string) then PurposeReplace else PurposeUpload in
  let maxActive := match s_maxActiveSessionsFn svc with Some m => m | None => s_maxActiveSessions svc end in
  let create : M (result uerr UploadSession) :=
    t ← call Now;
    r ← call (CreateUploadSession {|
           p_VideoID := videoID; p_ChannelID := channelID; p_UserID := userID;
           p_Filename := filename; p_TotalSize := size; p_ChunkSize := s_chunkSize svc;
           p_ExpiresAt := t + SessionTTL; p_FileFingerprint := fileFingerprint; p_Purpose := p |});
    mret (match r with
          | Ok sess => Ok sess
          | Err ErrNoRows => Err UErrVideoChanged
          | Err e => Err (UErrDB e)
          end) in
  if 0 <? maxActive then
    r ← call (CountActiveUploadSessionsForUser userID);
    match r with
    | Err e => mret (Err (UErrDB e))
    | Ok active => if maxActive <=? active then mret (Err UErrTooManyActiveSessions) else create
    end
  else create.

(** [Service.HasActiveReplaceSession] *)
Definition HasActiveReplaceSession videoID : M bool :=
  r ← call (HasActiveReplaceSessionForVideo videoID);
  mret (match r with Ok busy => busy | Err _ => true end).

Record ActiveUpload := mkActiveUpload {
  au_ID : uuid; au_VideoID : uuid; au_Filename : string; au_TotalSize : Z; au_ChunkSize : Z;
  au_FileFingerprint : string; au_ExpiresAt : time; au_ReceivedChunks : Z; au_TotalChunks : Z;
}.

(** [Service.ActiveSessionsForUser] *)
Definition ActiveSessionsForUser userID (fingerprint : string) : M (result uerr (list ActiveUpload)) :=
  let fp := if bool_decide (fingerprint = EmptyString) then None else Some fingerprint in
  r ← call (ListActiveUploadSessionsForUser userID fp);
  mret (match r with
        | Err e => Err (UErrDB e)
        | Ok rows => Ok (map (fun '(s, received) =>
            mkActiveUpload (ID s) (VideoID s) (Filename s) (TotalSize s) (ChunkSize s)
              (FileFingerprint s) (ExpiresAt s) received (totalChunks (TotalSize s) (ChunkSize s))) rows)
        end).

(** [Service.session]: a miss, a store error and another user's session all
    look the same. *)
Definition session uploadID userID : M (result uerr UploadSession) :=
  r ← call (GetUploadSession uploadID);
  mret (match r with
        | Ok sess => if bool_decide (UserID sess = userID) then Ok sess else Err UErrNotFound
        | Err _ => Err UErrNotFound
        end).

Record Status := mkStatus {
  st_Session : UploadSession; st_TotalChunks : Z; st_ReceivedChunks : list Z; st_BytesReceived : Z;
}.

(** [Service.buildStatus] *)
Definition buildStatus (sess : UploadSession) : M (result uerr Status) :=
  r ← call (ListUploadChunks (ID sess));
  mret (match r with
        | Err e => Err (UErrDB e)
        | Ok rows => Ok (mkStatus sess (totalChunks (TotalSize sess) (ChunkSize sess))
                           rows.*1 (foldl (fun acc row => acc +% row.2) 0 rows))
        end).

(** [Service.StatusFor] *)
Definition StatusFor uploadID userID : M (result uerr Status) :=
  r ← session uploadID userID;
  match r with
  | Err e => mret (Err e)
  | Ok sess => buildStatus sess
  end.

(** [Service.PutChunk] *)
Definition PutChunk svc uploadID userID (n : Z) (r : reader) : M (result uerr Status) :=
  if negb (s_blobs svc) then mret (Err UErrStorageUnavailable) else
  s ← session uploadID userID;
  match s with
  | Err e => mret (Err e)
  | Ok sess =>
      if negb (bool_decide (State sess = StateActive)) then mret (Err UErrNotActive) else
      match chunkExpectedSize (TotalSize sess) (ChunkSize sess) n with
      | None => mret (Err UErrChunkRange)
      | Some expected =>
          let key := chunkKey uploadID n in
          put ← call (BlobPut key (capped expected r));
          match put with
          | Err ErrChunkTooLarge => mret (Err UErrChunkTooLarge)
          | Err e => mret (Err (UErrIO e))
          | Ok written =>
              if negb (written =? expected) then
                _ ← call (BlobDelete key);
                mret (Err UErrChunkSize)
              else
                up ← call (UpsertUploadChunk uploadID (int32 n) written);
                match up with
                | Err e => mret (Err (UErrDB e))
                | Ok _ => buildStatus sess
                end
          end
      end
  end.

(** [Service.checkChunksComplete] over the ledger rows. *)
Definition chunks_complete (sess : UploadSession) (rows : list (Z * Z)) : bool :=
  let sizes : gmap Z Z := list_to_map (reverse rows) in
  forallb (fun n =>
    match chunkExpectedSize (TotalSize sess) (ChunkSize sess) n, sizes !! n with
    | Some expected, Some got => got =? expected
    | None, Some got => got =? 0
    | _, None => false
    end) (seqZ 0 (totalChunks (TotalSize sess) (ChunkSize sess))).

Definition checkChunksComplete (sess : UploadSession) : M (option uerr) :=
  r ← call (ListUploadChunks (ID sess));
  mret (match r with
        | Err e => Some (UErrDB e)
        | Ok rows => if chunks_complete sess rows then None else Some UErrIncomplete
        end).

(** [Service.ValidateComplete] *)
Definition ValidateComplete svc uploadID userID : M (result uerr UploadSession) :=
  if negb (s_blobs svc) then mret (Err UErrStorageUnavailable) else
  s ← session uploadID userID;
  match s with
  | Err e => mret (Err e)
  | Ok sess =>
      if negb (bool_decide (State sess = StateActive)) then mret (Err UErrNotActive) else
      c ← checkChunksComplete sess;
      mret (match c with Some e => Err e | None => Ok sess end)
  end.

(** [Service.Assemble]: the session and the number of chunks its assembler
    will read. *)
Definition Assemble svc uploadID : M (result uerr (UploadSession * Z)) :=
  if negb (s_blobs svc) then mret (Err UErrStorageUnavailable) else
  r ← call (GetUploadSession uploadID);
  match r with
  | Err _ => mret (Err UErrNotFound)
  | Ok sess =>
      if negb (Finalizing (State sess)) then mret (Err UErrNotActive) else
      c ← checkChunksComplete sess;
      mret (match c with
            | Some e => Err e
            | None => Ok (sess, totalChunks (TotalSize sess) (ChunkSize sess))
            end)
  end.

(** [Service.deleteChunks] *)
Definition deleteChunks svc uploadID : M unit :=
  if s_blobs svc && s_prefixDeleter svc then
    _ ← call (BlobDeletePrefix (chunkPrefix uploadID)); mret tt
  else mret tt.

(** [Service.MarkQueued] *)
Definition MarkQueued uploadID : M (result uerr bool) :=
  r ← call (MarkUploadSessionQueued uploadID);
  mret (match r with Err e => Err (UErrDB e) | Ok n => Ok (0 <? n) end).

(** [Service.MarkProcessing] *)
Definition MarkProcessing uploadID : M (result uerr unit) :=
  r ← call (SetUploadSessionState uploadID StateProcessing);
  mret (match r with Err e => Err (UErrDB e) | Ok _ => Ok tt end).

(** [Service.MarkCompleted] *)
Definition MarkCompleted svc uploadID : M (result uerr unit) :=
  r ← call (SetUploadSessionState uploadID StateCompleted);
  match r with
  | Err e => mret (Err (UErrDB e))
  | Ok _ => _ ← deleteChunks svc uploadID; mret (Ok tt)
  end.

(** [Service.MarkFailed] *)
Definition MarkFailed svc uploadID (reason : string) : M (result uerr unit) :=
  r ← call (FailUploadSession uploadID reason);
  match r with
  | Err e => mret (Err (UErrDB e))
  | Ok _ => _ ← deleteChunks svc uploadID; mret (Ok tt)
  end.

(** [Service.Cancel] *)
Definition Cancel svc uploadID userID : M (result uerr unit) :=
  s ← session uploadID userID;
  match s with
  | Err e => mret (Err e)
  | Ok sess =>
      if Finalizing (State sess) then mret (Err UErrNotActive)
      else if negb (bool_decide (State sess = StateActive)) then mret (Ok tt)
      else
        r ← call (SetUploadSessionState uploadID StateCancelled);
        match r with
        | Err e => mret (Err (UErrDB e))
        | Ok _ => _ ← deleteChunks svc uploadID; mret (Ok tt)
        end
  end.

(** [Service.Sweep]: how many sessions were removed, and the error that
    stopped it. *)
Fixpoint sweep_loop svc (ids : list uuid) (removed : Z) : M (Z * option uerr) :=
  match ids with
  | [] => mret (removed, None)
  | id :: ids' =>
      _ ← deleteChunks svc id;
      r ← call (DeleteUploadSession id);
      match r with
      | Err e => mret (removed, Some (UErrDB e))
      | Ok _ => sweep_loop svc ids' (removed + 1)
      end
  end.

Definition Sweep svc (limit : Z) : M (Z * option uerr) :=
  r ← call (ListSweepableUploadSessions (int32 limit));
  match r with
  | Err e => mret (0, Some (UErrDB e))
  | Ok ids => sweep_loop svc ids 0
  end.

End Handlers.

(** ** Lemmas: chunk arithmetic *)

(** The sizes a session can have: positive, and small enough that rounding up
    does not overflow. *)
Definition sizes_ok (totalSize chunkSize : Z) : Prop :=
  0 < totalSize /\ 0 < chunkSize /\ totalSize + chunkSize <= max_int64.

Lemma totalChunks_eq ts cs : sizes_ok ts cs -> totalChunks ts cs = (ts + cs - 1) / cs.
Proof.
  intros (Ht & Hc & Hm). unfold totalChunks. unwrap.
  rewrite Z.quot_div_nonneg by lia. done.
Qed.

Lemma totalChunks_bounds ts cs :
  sizes_ok ts cs ->
  0 < totalChunks ts cs /\
  (totalChunks ts cs - 1) * cs < ts <= totalChunks ts cs * cs.
Proof.
  intros Hok. pose proof Hok as (Ht & Hc & Hm). rewrite totalChunks_eq by done.
  pose proof (Z.div_mod (ts + cs - 1) cs). pose proof (Z.mod_pos_bound (ts + cs - 1) cs).
  nia.
Qed.

(** The required size of an index, without the wrap-arounds. *)
Lemma chunkExpectedSize_eq ts cs n :
  sizes_ok ts cs ->
  chunkExpectedSize ts cs n =
    if (0 <=? n) && (n <? totalChunks ts cs)
    then Some (if n =? totalChunks ts cs - 1 then ts - n * cs else cs)
    else None.
Proof.
  intros Hok. pose proof Hok as (Ht & Hc & Hm).
  pose proof (totalChunks_bounds ts cs Hok) as (H0 & H1 & H2).
  unfold chunkExpectedSize.
  destruct (Z.ltb_spec n 0); destruct (Z.leb_spec 0 n); try lia; [done|]. cbn.
  destruct (Z.leb_spec (totalChunks ts cs) n); destruct (Z.ltb_spec n (totalChunks ts cs)); try lia; [done|].
  assert (totalChunks ts cs <= ts) by nia.
  unwrap. destruct (Z.eqb_spec n (totalChunks ts cs - 1)); [|done].
  assert (0 <= n * cs < ts) by nia. unwrap. done.
Qed.

Lemma chunkExpectedSize_some ts cs n :
  sizes_ok ts cs -> 0 <= n < totalChunks ts cs ->
  exists e, chunkExpectedSize ts cs n = Some e /\ 0 < e <= cs.
Proof.
  intros Hok Hn. rewrite chunkExpectedSize_eq by done.
  pose proof (totalChunks_bounds ts cs Hok) as (H0 & H1 & H2). destruct Hok as (Ht & Hc & Hm).
  destruct (Z.leb_spec 0 n); [|lia]. destruct (Z.ltb_spec n (totalChunks ts cs)); [|lia]. cbn.
  eexists; split; [done|]. destruct (Z.eqb_spec n (totalChunks ts cs - 1)); [subst; nia|lia].
Qed.

Lemma chunkExpectedSize_range ts cs n e :
  chunkExpectedSize ts cs n = Some e -> 0 <= n < totalChunks ts cs.
Proof.
  unfold chunkExpectedSize. destruct (Z.ltb_spec n 0); [done|].
  destruct (Z.leb_spec (totalChunks ts cs) n); [done|lia].
Qed.

Lemma chunkExpectedSize_inv ts cs n e :
  sizes_ok ts cs -> chunkExpectedSize ts cs n = Some e -> 0 <= n < totalChunks ts cs /\ 0 < e <= cs.
Proof.
  intros Hok He. pose proof (chunkExpectedSize_range _ _ _ _ He) as Hn. split; [done|].
  destruct (chunkExpectedSize_some _ _ _ Hok Hn) as (e' & He' & ?). congruence.
Qed.

(** The sum of the required sizes of the first [k] chunks. *)
Definition expected_sum (ts cs : Z) (k : nat) : Z :=
  sumZ (fun n => default 0 (chunkExpectedSize ts cs n)) (seqZ 0 (Z.of_nat k)).

Lemma expected_sum_succ ts cs k :
  expected_sum ts cs (S k) = expected_sum ts cs k + default 0 (chunkExpectedSize ts cs (Z.of_nat k)).
Proof.
  unfold expected_sum. rewrite Nat2Z.inj_succ, <- Z.add_1_r, seqZ_snoc, sumZ_app by lia.
  unfold sumZ at 2. cbn [foldr]. rewrite Z.add_0_l. lia.
Qed.

Lemma expected_sum_prefix ts cs k :
  sizes_ok ts cs -> Z.of_nat k < totalChunks ts cs -> expected_sum ts cs k = Z.of_nat k * cs.
Proof.
  intros Hok. induction k as [|k IH]; intros Hk; [done|].
  rewrite expected_sum_succ, IH, chunkExpectedSize_eq by (done || lia).
  destruct (Z.leb_spec 0 (Z.of_nat k)); [|lia].
  destruct (Z.ltb_spec (Z.of_nat k) (totalChunks ts cs)); [|lia]. cbn.
  destruct (Z.eqb_spec (Z.of_nat k) (totalChunks ts cs - 1)); lia.
Qed.

Lemma expected_sum_total ts cs :
  sizes_ok ts cs -> expected_sum ts cs (Z.to_nat (totalChunks ts cs)) = ts.
Proof.
  intros Hok. pose proof (totalChunks_bounds ts cs Hok) as (H0 & H1 & H2).
  replace (Z.to_nat (totalChunks ts cs)) with (S (Z.to_nat (totalChunks ts cs - 1))) by lia.
  rewrite expected_sum_succ, expected_sum_prefix, chunkExpectedSize_eq by (done || lia).
  rewrite Z2Nat.id by lia.
  destruct (Z.leb_spec 0 (totalChunks ts cs - 1)); [|lia].
  destruct (Z.ltb_spec (totalChunks ts cs - 1) (totalChunks ts cs)); [|lia]. cbn.
  rewrite Z.eqb_refl. lia.
Qed.

(** ** Lemmas: the capped reader *)

Lemma capped_loop fuel r rem :
  0 <= rem -> (reads_left (pieces r) < fuel)%nat ->
  copy_loop capped_Read fuel (mkCapped r rem) =
    Some (if Z.of_nat (length (data r)) <=? rem then (data r, rend r)
          else (take (Z.to_nat (rem + 1)) (data r), Some ErrChunkTooLarge)).
Proof.
  revert r rem. induction fuel as [|fuel IH]; intros r rem Hrem Hf; [lia|].
  cbn [copy_loop]. unfold capped_Read at 1. cbn [c_remaining c_r].
  destruct (Z.ltb_spec rem 0); [lia|].
  set (len := if rem + 1 <? copy_buf then rem + 1 else copy_buf).
  assert (Hlen : 0 < len <= rem + 1).
  { unfold len. pose proof copy_buf_pos. destruct (Z.ltb_spec (rem + 1) copy_buf); lia. }
  destruct (Read len r) as [[d st] r'] eqn:HR.
  apply Read_spec in HR as (Hd & He & Hdl & Hend & Hprog); [|lia].
  rewrite Hd, length_app. clear Hd.
  destruct (Z.ltb_spec (rem - Z.of_nat (length d)) 0) as [Hover|Hunder].
  - rewrite take_app_length' by lia.
    destruct (Z.leb_spec (Z.of_nat (length d + length (data r'))) rem); [lia|done].
  - destruct st as [| |e]; cbn [c_remaining].
    + rewrite IH by (specialize (Hprog (or_introl eq_refl)); lia). rewrite He.
      destruct (Z.leb_spec (Z.of_nat (length (data r'))) (rem - Z.of_nat (length d)));
        destruct (Z.leb_spec (Z.of_nat (length d + length (data r'))) rem); try lia; [done|].
      rewrite take_app_ge by lia. do 4 f_equal. lia.
    + destruct Hend as [Hp Hs]; [done|]. unfold data. rewrite Hp. cbn. rewrite app_nil_r.
      destruct (Z.leb_spec (Z.of_nat (length d + 0)) rem); [|lia].
      unfold end_stat in Hs. by destruct (rend r).
    + destruct Hend as [Hp Hs]; [done|]. unfold data. rewrite Hp. cbn. rewrite app_nil_r.
      destruct (Z.leb_spec (Z.of_nat (length d + 0)) rem); [|lia].
      unfold end_stat in Hs. destruct (rend r); by simplify_eq.
Qed.

Lemma capped_drain_eq expected r :
  0 <= expected ->
  capped_drain expected r =
    Some (if Z.of_nat (length (data r)) <=? expected then (data r, rend r)
          else (take (Z.to_nat (expected + 1)) (data r), Some ErrChunkTooLarge)).
Proof. intros. apply capped_loop; [done|lia]. Qed.

(** A body the cap lets through unchanged is the body itself. *)
Lemma capped_clean expected r :
  rend (capped expected r) = None ->
  data (capped expected r) = data r /\ rend r = None /\ Z.of_nat (length (data r)) <= expected.
Proof.
  unfold capped. destruct (Z.le_gt_cases 0 expected).
  - rewrite capped_drain_eq by done.
    destruct (Z.leb_spec (Z.of_nat (length (data r))) expected); cbn; [|done].
    intros ->. unfold data at 1. cbn. by rewrite app_nil_r.
  - unfold capped_drain. cbn. unfold capped_Read. cbn.
    destruct (Z.ltb_spec expected 0); [done|lia].
Qed.

(** ** Lemmas: the assembler *)

(** The reference: the blobs' bytes in index order, up to the first one that
    cannot be opened or read. *)
Fixpoint stream (opn : Z -> result ioerr reader) (i : Z) (n : nat) : bytes * option ioerr :=
  match n with
  | O => ([], None)
  | S n' =>
      match opn i with
      | Err e => ([], Some e)
      | Ok r =>
          match rend r with
          | Some e => (data r, Some e)
          | None => ((data r ++ (stream opn (i + 1) n').1), (stream opn (i + 1) n').2)
          end
      end
  end.

(** What is left to read from an assembler. *)
Definition asm_stream (opn : Z -> result ioerr reader) (a : chunkAssembler) : bytes * option ioerr :=
  match a_cur a with
  | None => stream opn (a_idx a) (Z.to_nat (a_total a - a_idx a))
  | Some r =>
      let rest := stream opn (a_idx a + 1) (Z.to_nat (a_total a - a_idx a - 1)) in
      match rend r with
      | Some e => (data r, Some e)
      | None => (data r ++ rest.1, rest.2)
      end
  end.

Section Assembler.
Context (opn : Z -> result ioerr reader) (len : Z) (Hlen : 0 < len) (total idx : Z).

(** One read of the open blob: what it takes off the stream. *)
Lemma asm_take rc d st rc' :
  Read len rc = (d, st, rc') -> st = Cont \/ d <> [] ->
  asm_stream opn (mkAsm total idx (Some rc)) =
    (d ++ (asm_stream opn (mkAsm total idx (Some rc'))).1, (asm_stream opn (mkAsm total idx (Some rc'))).2) /\
  (asm_left opn (mkAsm total idx (Some rc')) < asm_left opn (mkAsm total idx (Some rc)))%nat.
Proof.
  intros HR Hst. apply Read_spec in HR as (Hd & He & _ & _ & Hprog); [|done].
  specialize (Hprog Hst). unfold asm_stream, asm_left. cbn [a_cur a_idx a_total].
  rewrite He, Hd. split; [|lia]. destruct (rend rc); cbn [fst snd]; [done|]. by rewrite app_assoc.
Qed.

(** The open blob is exhausted. *)
Lemma asm_next rc rc' :
  Read len rc = ([], Eof, rc') ->
  asm_stream opn (mkAsm total idx (Some rc)) = asm_stream opn (mkAsm total (idx + 1) None) /\
  (asm_left opn (mkAsm total (idx + 1) None) < asm_left opn (mkAsm total idx (Some rc)))%nat.
Proof.
  intros HR. apply Read_spec in HR as (Hd & _ & _ & Hend & _); [|done].
  destruct Hend as [Hp Hst]; [done|]. unfold end_stat in Hst.
  unfold asm_stream, asm_left. cbn [a_cur a_idx a_total].
  replace (total - (idx + 1)) with (total - idx - 1) by lia. split; [|lia].
  destruct (rend rc); [done|]. rewrite Hd. unfold data. rewrite Hp. cbn. by destruct (stream _ _ _).
Qed.

Lemma asm_fail rc rc' e :
  Read len rc = ([], Fail e, rc') -> asm_stream opn (mkAsm total idx (Some rc)) = ([], Some e).
Proof.
  intros HR. apply Read_spec in HR as (Hd & _ & _ & Hend & _); [|done].
  destruct Hend as [Hp Hst]; [done|]. unfold end_stat in Hst.
  unfold asm_stream. cbn [a_cur a_idx a_total]. rewrite Hd. unfold data. rewrite Hp. cbn.
  destruct (rend rc); by simplify_eq.
Qed.

(** The next blob is opened. *)
Lemma asm_open rc :
  idx < total -> opn idx = Ok rc ->
  asm_stream opn (mkAsm total idx None) = asm_stream opn (mkAsm total idx (Some rc)) /\
  (asm_left opn (mkAsm total idx (Some rc)) < asm_left opn (mkAsm total idx None))%nat.
Proof.
  intros Hi Ho. unfold asm_stream, asm_left. cbn [a_cur a_idx a_total].
  replace (Z.to_nat (total - idx)) with (S (Z.to_nat (total - idx - 1))) by lia.
  cbn [stream open_left]. rewrite Ho. split; [done|lia].
Qed.

End Assembler.

(** A [Read] of the assembler returns, and what it returns is the front of the
    stream. *)
Lemma asm_loop_spec opn len fuel a :
  0 < len -> (asm_left opn a < fuel)%nat ->
  exists d st a', asm_loop opn fuel len a = Some (d, st, a') /\
    match st with
    | Cont => asm_stream opn a = (d ++ (asm_stream opn a').1, (asm_stream opn a').2) /\
    (asm_left opn a' < asm_left opn a)%nat
    | Eof => d = [] /\ asm_stream opn a = ([], None)
    | Fail e => d = [] /\ asm_stream opn a = ([], Some e)
    end.
Proof.
  intros Hlen. revert a. induction fuel as [|fuel IH]; intros [total idx cur] Hf; [lia|].
  assert (Hgo : forall a1, asm_stream opn (mkAsm total idx cur) = asm_stream opn a1 ->
    (asm_left opn a1 < asm_left opn (mkAsm total idx cur))%nat ->
    exists d st a', asm_loop opn fuel len a1 = Some (d, st, a') /\
    match st with
      | Cont => asm_stream opn (mkAsm total idx cur) = (d ++ (asm_stream opn a').1, (asm_stream opn a').2) /\
    (asm_left opn a' < asm_left opn (mkAsm total idx cur))%nat
      | Eof => d = [] /\ asm_stream opn (mkAsm total idx cur) = ([], None)
      | Fail e => d = [] /\ asm_stream opn (mkAsm total idx cur) = ([], Some e)
      end).
  { intros a1 Hs Hl. destruct (IH a1) as (d & st & a' & Hr & Hst); [lia|].
    exists d, st, a'. split; [done|]. rewrite Hs. destruct st; [|done|done].
    destruct Hst. split; [done|lia]. }
  cbn [asm_loop a_cur a_total a_idx]. destruct cur as [rc|].
  - destruct (Read len rc) as [[[|b d] st] rc'] eqn:HR.
    + destruct st as [| |e].
      * destruct (asm_take opn len Hlen total idx _ _ _ _ HR) as [Hs Hl]; [by left|].
        apply Hgo; [|done]. rewrite Hs. symmetry. apply surjective_pairing.
      * destruct (asm_next opn len Hlen total idx _ _ HR). by apply Hgo.
      * eexists _, _, _. split; [done|]. split; [done|]. by eapply asm_fail.
    + eexists _, _, _. split; [by destruct st|]. cbv beta iota.
      by apply (asm_take opn len Hlen total idx _ _ _ _ HR); right.
  - destruct (Z.leb_spec total idx).
    + eexists _, _, _. split; [done|]. split; [done|].
      unfold asm_stream. cbn. replace (Z.to_nat (total - idx)) with O by lia. done.
    + destruct (opn idx) as [rc|e] eqn:Ho.
      * destruct (asm_open opn total idx rc) as [Hs Hl]; [done|done|]. by apply Hgo.
      * eexists _, _, _. split; [done|]. split; [done|].
        unfold asm_stream. cbn [a_cur a_idx a_total].
        replace (Z.to_nat (total - idx)) with (S (Z.to_nat (total - idx - 1))) by lia.
        cbn [stream]. by rewrite Ho.
Qed.

Lemma copy_asm opn fuel a :
  (S (asm_left opn a) < fuel)%nat -> copy_loop (asm_Read opn) fuel a = Some (asm_stream opn a).
Proof.
  revert a. induction fuel as [|fuel IH]; intros a Hf; [lia|].
  cbn [copy_loop]. unfold asm_Read at 1.
  destruct (asm_loop_spec opn copy_buf (S (asm_left opn a)) a) as (d & st & a' & -> & Hst);
    [apply copy_buf_pos|lia|].
  destruct st as [| |e].
  - destruct Hst as [Hs Hl]. rewrite IH by lia. rewrite Hs. by destruct (asm_stream opn a').
  - destruct Hst as [-> ->]. done.
  - destruct Hst as [-> ->]. done.
Qed.

(** Reading the assembler to its end returns the reference stream. *)
Lemma assembled_stream opn total : assembled opn total = Some (stream opn 0 (Z.to_nat total)).
Proof.
  unfold assembled. rewrite copy_asm by lia. unfold asm_stream. cbn.
  by replace (total - 0) with total by lia.
Qed.

(** A stream all of whose blobs can be read is their concatenation. *)
Lemma stream_all opn i n (f : Z -> bytes) :
  (forall k, i <= k < i + Z.of_nat n -> exists r, opn k = Ok r /\ rend r = None /\ data r = f k) ->
  stream opn i n = (concat (map f (seqZ i (Z.of_nat n))), None).
Proof.
  revert i. induction n as [|n IH]; intros i Hall; [done|].
  rewrite seqZ_cons by lia. cbn [stream].
  destruct (Hall i) as (r & -> & -> & Hd); [lia|].
  rewrite IH by (intros k Hk; apply Hall; lia). cbn. rewrite Hd.
  do 5 f_equal; lia.
Qed.

(** ** Lemmas: keys *)

Lemma chunkKey_eq id n : chunkKey id n = join_slash ["uploads"%string; id; pretty n].
Proof. done. Qed.

Lemma chunkKey_words id n :
  plain id = true -> 0 <= n -> Forall (fun w => plain w = true) ["uploads"%string; id; pretty n].
Proof. intros. repeat constructor; [done|by apply pretty_Z_plain]. Qed.

Lemma chunkKey_canonical id n : plain id = true -> 0 <= n -> canonical (chunkKey id n) = true.
Proof. intros. rewrite chunkKey_eq. apply canonical_join; [by apply chunkKey_words|done]. Qed.

Lemma chunkKey_split id n :
  plain id = true -> 0 <= n -> split_slash (chunkKey id n) = ["uploads"%string; id; pretty n].
Proof. intros. rewrite chunkKey_eq. apply split_join_plain; [by apply chunkKey_words|done]. Qed.

(** Distinct chunks of valid sessions have distinct keys. *)
Lemma chunkKey_inj id n id' n' :
  plain id = true -> plain id' = true -> 0 <= n -> 0 <= n' ->
  chunkKey id n = chunkKey id' n' -> id = id' /\ n = n'.
Proof.
  intros Hi Hi' Hn Hn' He. apply (f_equal split_slash) in He.
  rewrite !chunkKey_split in He by done. injection He as -> He. by apply (inj pretty) in He.
Qed.

#[export] Hint Resolve chunkKey_canonical : vidra.

Lemma chunkPrefix_canonical id : plain id = true -> canonical (chunkPrefix id) = true.
Proof.
  intros. change (chunkPrefix id) with (join_slash ["uploads"%string; id]).
  apply canonical_join; [by repeat constructor|done].
Qed.

(** A session's prefix covers its own chunks and no other session's. *)
Lemma chunkPrefix_under id id' n :
  plain id = true -> plain id' = true -> 0 <= n ->
  under (chunkPrefix id) (chunkKey id' n) = bool_decide (id = id').
Proof.
  intros Hi Hi' Hn. unfold under, below. rewrite chunkKey_split by done.
  change (chunkPrefix id) with (join_slash ["uploads"%string; id]).
  rewrite split_join_plain by (done || by repeat constructor).
  apply bool_decide_ext. split.
  - intros [k Hk]. by simplify_eq/=.
  - intros <-. by exists [pretty n].
Qed.

(** ** Lemmas: handlers *)

Section HandlerLemmas.
Context {B : Type} `{BackendLaws B}.
Implicit Types (svc : Service) (w : world B) (uploadID userID : uuid).
Abbreviation db w := (store (wdb w)).

Lemma run_session uploadID userID w :
  unchanged w (run store_handler (session uploadID userID) w).2 /\
  match (run store_handler (session uploadID userID) w).1 with
  | Ok sess => sessions (db w) !! uploadID = Some sess /\ UserID sess = userID
  | Err e => e = UErrNotFound
  end.
Proof.
  unfold session. rewrite run_mbind, run_call. split; [by apply on_db_reads|].
  cbn [run fst]. destruct (store_handler _ (GetUploadSession uploadID) w).1 as [s|e] eqn:Hg; [|done].
  apply on_db_ok in Hg as [Hg _]. cbn in Hg. destruct (sessions _ !! _); simplify_eq.
  by case_bool_decide.
Qed.

Lemma run_buildStatus sess w :
  unchanged w (run store_handler (buildStatus sess) w).2 /\
  match (run store_handler (buildStatus sess) w).1 with
  | Ok st => st_Session st = sess /\ st_ReceivedChunks st = (chunk_rows (ID sess) (db w)).*1
  | Err e => exists e', e = UErrDB e'
  end.
Proof.
  unfold buildStatus. rewrite run_mbind, run_call. split; [by apply on_db_reads|].
  cbn [run fst]. destruct (store_handler _ (ListUploadChunks _) w).1 as [s|e] eqn:Hg; [|by eexists].
  apply on_db_ok in Hg as [Hg _]. cbn in Hg. by simplify_eq.
Qed.

Lemma run_checkChunksComplete sess w :
  unchanged w (run store_handler (checkChunksComplete sess) w).2 /\
  ((run store_handler (checkChunksComplete sess) w).1 = None ->
   chunks_complete sess (chunk_rows (ID sess) (db w)) = true).
Proof.
  unfold checkChunksComplete. rewrite run_mbind, run_call. split; [by apply on_db_reads|].
  cbn [run fst]. destruct (store_handler _ (ListUploadChunks _) w).1 as [s|e] eqn:Hg; [|done].
  apply on_db_ok in Hg as [Hg _]. cbn in Hg. simplify_eq. by case_match.
Qed.

(** What is known once the body is stored and recorded. *)
Definition chunk_stored (w w' : world B) uploadID (n : Z) (d : bytes) : Prop :=
  chunks (db w') = <[(uploadID, int32 n) := Z.of_nat (length d)]> (chunks (db w)) /\
  sessions (db w') = sessions (db w) /\ jobs (db w') = jobs (db w) /\
  contents (blobs w') (chunkKey uploadID n) = Some d /\
  forall id' n', plain id' = true -> 0 <= n' -> (id', n') <> (uploadID, n) ->
    contents (blobs w') (chunkKey id' n') = contents (blobs w) (chunkKey id' n').

Lemma run_PutChunk svc uploadID userID n r w st w' :
  plain uploadID = true ->
  run store_handler (PutChunk svc uploadID userID n r) w = (Ok st, w') ->
  exists sess,
    sessions (db w) !! uploadID = Some sess /\ UserID sess = userID /\ State sess = StateActive /\
    rend r = None /\
    chunkExpectedSize (TotalSize sess) (ChunkSize sess) n = Some (Z.of_nat (length (data r))) /\
    chunk_stored w w' uploadID n (data r).
Proof.
  intros Hid. unfold PutChunk. destruct (s_blobs svc); [|done]. cbn [negb].
  rewrite run_mbind. destruct (run_session uploadID userID w) as [(Hu1 & Hu2 & _) Hs].
  destruct (run store_handler (session uploadID userID) w) as [[sess|e] w1]; cbn [fst snd] in *; [|done].
  destruct Hs as [Hs Hown]. destruct (bool_decide (State sess = StateActive)) eqn:Ha; [|done]. bools.
  cbn [negb]. destruct (chunkExpectedSize _ _ n) as [expected|] eqn:He; [|done].
  pose proof (chunkExpectedSize_range _ _ _ _ He) as [Hn _].
  pose proof (chunkKey_canonical _ _ Hid Hn) as Hkey.
  cbv zeta. rewrite run_mbind, run_call. cbn [store_handler].
  destruct (on_blobs (be_put _ _) w1) as [[written|e] w2] eqn:Hput; cbn [fst snd]; [|by destruct e].
  unfold on_blobs in Hput. injection Hput as Hput <-.
  pose proof (put_ok _ _ _ _ Hkey Hput) as (Hclean & Hlen & Hc).
  destruct (capped_clean expected r Hclean) as (Hd & Hr & Hle). rewrite Hd in Hlen, Hc.
  destruct (Z.eqb_spec written expected) as [->|]; cbn [negb]; [|by rewrite run_mbind].
  rewrite run_mbind, run_call. cbn [store_handler].
  destruct (on_db (q_UpsertUploadChunk _ _ _) _) as [[u|e] w3] eqn:Hup; cbn [fst snd]; [|done].
  pose proof (f_equal fst Hup) as Hup1. apply on_db_ok in Hup1 as [Hok Hdb]. rewrite Hup in Hdb.
  destruct (run_buildStatus sess w3) as [(Hu3 & Hu4 & _) _]. intros Hrun. rewrite Hrun in Hu3, Hu4.
  cbn [fst snd] in *. 
  assert (Hb3 : blobs w3 = (be_put (chunkKey uploadID n) (capped expected r) (blobs w1)).2).
  { pose proof (f_equal (blobs ∘ snd) Hup) as Hb. cbn in Hb. done. }
  unfold q_UpsertUploadChunk in Hdb, Hok. cbn [wdb] in Hdb, Hok. rewrite Hu1, Hs in Hdb, Hok.
  destruct (_ || _); [done|]. cbn in Hdb.
  exists sess. split_and!; try done; [by rewrite He, Hlen|].
  unfold chunk_stored. rewrite Hu3, Hu4, Hdb, Hb3, <- Hu1, <- Hu2. cbn.
  split_and!; [by rewrite Hlen|done..|].
  intros id' n' Hid' Hn' Hne. apply put_frame; [done|by apply chunkKey_canonical|].
  intros He'. apply chunkKey_inj in He' as [-> ->]; done.
Qed.

(** The rows of the ledger are the entries of the table. *)
Lemma chunk_rows_elem id n size (d : DB) :
  (n, size) ∈ chunk_rows id d <-> chunks d !! (id, n) = Some size.
Proof.
  unfold chunk_rows. rewrite merge_sort_Permutation, list_elem_of_omap. split.
  - intros ([[u m] sz] & Hin & Hc). apply elem_of_map_to_list in Hin. by case_bool_decide; simplify_eq.
  - intros Hc. exists ((id, n), size). rewrite elem_of_map_to_list. by rewrite bool_decide_eq_true_2.
Qed.

(** Every row of the session's ledger is backed by a blob of its size. *)
Definition ledger_backed (id : uuid) (w : world B) : Prop :=
  forall n size, chunks (db w) !! (id, n) = Some size ->
    exists d, contents (blobs w) (chunkKey id n) = Some d /\ Z.of_nat (length d) = size.

(** A complete ledger has every row, of the required size. *)
Lemma chunks_complete_row sess (d : DB) n expected :
  chunks_complete sess (chunk_rows (ID sess) d) = true ->
  chunkExpectedSize (TotalSize sess) (ChunkSize sess) n = Some expected ->
  chunks d !! (ID sess, n) = Some expected.
Proof.
  intros Hc He. unfold chunks_complete in Hc.
  assert (Hn : 0 <= n < totalChunks (TotalSize sess) (ChunkSize sess)).
  { by eapply chunkExpectedSize_range. }
  eapply (forallb_elem _ _ n) in Hc; [|by apply elem_of_seqZ]. cbv beta in Hc. rewrite He in Hc.
  destruct (list_to_map _ !! n) as [got|] eqn:Hgot; [|done]. bools. subst got.
  apply elem_of_list_to_map_2 in Hgot. rewrite elem_of_reverse in Hgot. by apply chunk_rows_elem.
Qed.

(** What the backend holds for chunk [n]. *)
Definition chunk_bytes (b : B) (id : uuid) (n : Z) : bytes := default [] (contents b (chunkKey id n)).

(** With every blob in place the assembler is their concatenation. *)
Lemma assembler_concat id total (b : B) :
  plain id = true -> 0 <= total ->
  (forall n, 0 <= n < total -> is_Some (contents b (chunkKey id n))) ->
  assembler id total b = Some (concat (map (chunk_bytes b id) (seqZ 0 total)), None).
Proof.
  intros Hid Ht Hall. unfold assembler. rewrite assembled_stream.
  rewrite (stream_all _ _ _ (chunk_bytes b id)).
  - by rewrite Z2Nat.id by done.
  - intros k Hk. destruct (Hall k) as [d Hd]; [lia|].
    destruct (open_stored _ _ _ (chunkKey_canonical id k Hid ltac:(lia)) Hd) as (r & Ho & Hr & He).
    exists r. split_and!; try done. unfold chunk_bytes. by rewrite Hd.
Qed.

Lemma length_concat_sumZ {A} (f : A -> bytes) (l : list A) :
  Z.of_nat (length (concat (map f l))) = sumZ (fun x => Z.of_nat (length (f x))) l.
Proof. induction l as [|x l IH]; cbn; [done|]. rewrite length_app, Nat2Z.inj_add, IH. done. Qed.

Lemma sumZ_ext {A} (f g : A -> Z) (l : list A) : (forall x, x ∈ l -> f x = g x) -> sumZ f l = sumZ g l.
Proof.
  induction l as [|x l IH]; intros He; cbn; [done|]. rewrite He by left. unfold sumZ in *.
  rewrite IH; [done|]. intros y Hy. apply He. by right.
Qed.

(** A complete, backed ledger assembles to a file of the declared size. *)
Lemma complete_assembles sess (w : world B) :
  plain (ID sess) = true -> sizes_ok (TotalSize sess) (ChunkSize sess) ->
  ledger_backed (ID sess) w -> chunks_complete sess (chunk_rows (ID sess) (db w)) = true ->
  exists d, assembler (ID sess) (totalChunks (TotalSize sess) (ChunkSize sess)) (blobs w) = Some (d, None) /\
    d = concat (map (chunk_bytes (blobs w) (ID sess)) (seqZ 0 (totalChunks (TotalSize sess) (ChunkSize sess)))) /\
    Z.of_nat (length d) = TotalSize sess.
Proof.
  intros Hid Hok Hback Hc. set (total := totalChunks _ _).
  pose proof (totalChunks_bounds _ _ Hok) as (Hpos & _).
  assert (Hblob : forall n, 0 <= n < total -> exists d, contents (blobs w) (chunkKey (ID sess) n) = Some d /\
    chunkExpectedSize (TotalSize sess) (ChunkSize sess) n = Some (Z.of_nat (length d))).
  { intros n Hn. destruct (chunkExpectedSize_some _ _ n Hok Hn) as (e & He & _).
    destruct (Hback n e) as (d & Hd & Hl); [by eapply chunks_complete_row|]. exists d. by rewrite He, Hl. }
  eexists. split; [apply assembler_concat; [done|lia|]|split; [done|]].
  - intros n Hn. destruct (Hblob n Hn) as (d & -> & _). done.
  - rewrite length_concat_sumZ, <- (expected_sum_total _ _ Hok). unfold expected_sum.
    rewrite Z2Nat.id by lia. apply sumZ_ext. intros n Hn%elem_of_seqZ.
    destruct (Hblob n) as (d & Hd & ->); [lia|]. unfold chunk_bytes. by rewrite Hd.
Qed.

(** A stored chunk keeps the ledger backed. *)
Lemma chunk_stored_backed w w' id n d :
  plain id = true -> 0 <= n -> in_int32 n -> chunk_stored w w' id n d ->
  ledger_backed id w -> (forall m, 0 <= m \/ chunks (db w) !! (id, m) = None) -> ledger_backed id w'.
Proof.
  intros Hid Hn Hn32 (Hch & _ & _ & Hc & Hframe) Hback Hpos m size. rewrite Hch, int32_id by done.
  destruct (decide (m = n)) as [->|Hne].
  - rewrite lookup_insert_eq. intros [= <-]. by exists d.
  - rewrite lookup_insert_ne by congruence. intros Hm. destruct (Hpos m) as [Hm0|Hm0]; [|congruence].
    rewrite Hframe by (done || congruence). by apply Hback.
Qed.

Lemma run_Assemble svc uploadID w sess total w' :
  run store_handler (Assemble svc uploadID) w = (Ok (sess, total), w') ->
  Finalizing (State sess) = true /\ sessions (db w) !! uploadID = Some sess /\ unchanged w w' /\
  total = totalChunks (TotalSize sess) (ChunkSize sess) /\
  chunks_complete sess (chunk_rows (ID sess) (db w)) = true.
Proof.
  unfold Assemble. destruct (s_blobs svc); [|done]. cbn [negb]. rewrite run_mbind, run_call.
  cbn [store_handler]. pose proof (on_db_reads (q_GetUploadSession uploadID) w ltac:(done)) as Hu.
  destruct (on_db (q_GetUploadSession uploadID) w) as [[s|e] w1] eqn:Hg; cbn [fst snd] in *; [|done].
  pose proof (f_equal fst Hg) as [Hs _]%on_db_ok. cbn in Hs.
  destruct (sessions (db w) !! uploadID) as [s'|]; simplify_eq.
  destruct (Finalizing (State s)) eqn:Hf; [|done]. cbn [negb]. rewrite run_mbind.
  destruct (run_checkChunksComplete s w1) as [Hu' Hc].
  destruct (run store_handler (checkChunksComplete s) w1) as [[e|] w2]; cbn [fst snd] in *; [done|].
  intros [= <- <- <-]. split_and!; [done|done|by etrans|done|].
  destruct Hu as (<- & _). by apply Hc.
Qed.

(** Uploading chunks one after the other, in the given order. *)
Fixpoint put_all svc uploadID userID (ps : list (Z * reader)) : prog (storeE B) bool :=
  match ps with
  | [] => mret true
  | (n, r) :: ps' =>
      s ← PutChunk svc uploadID userID n r;
      match s with
      | Ok _ => put_all svc uploadID userID ps'
      | Err _ => mret false
      end
  end.

(** The bytes of a file that chunk [n] carries. *)
Definition slice (f : bytes) (cs n : Z) : bytes := take (Z.to_nat cs) (drop (Z.to_nat (n * cs)) f).

Lemma slices_concat f cs k :
  0 < cs -> concat (map (slice f cs) (seqZ 0 (Z.of_nat k))) = take (k * Z.to_nat cs) f.
Proof.
  intros Hcs. induction k as [|k IH]; [done|].
  rewrite Nat2Z.inj_succ, <- Z.add_1_r, seqZ_snoc by lia.
  rewrite map_app, concat_app, IH. cbn. rewrite app_nil_r. unfold slice. rewrite Z.add_0_l.
  replace (Z.to_nat (Z.of_nat k * cs)) with (k * Z.to_nat cs)%nat by nia.
  rewrite Nat.add_comm. apply take_take_drop.
Qed.

(** After a run of successful uploads every chunk named in it is stored, with
    the bytes it was last sent with. *)
Lemma run_put_all svc uploadID userID (g : Z -> bytes) ps w w' :
  plain uploadID = true -> Forall (fun p => data p.2 = g p.1) ps ->
  run store_handler (put_all svc uploadID userID ps) w = (true, w') ->
  sessions (db w') = sessions (db w) /\
  (forall n, 0 <= n -> contents (blobs w) (chunkKey uploadID n) = Some (g n) ->
     contents (blobs w') (chunkKey uploadID n) = Some (g n)) /\
  (forall n, 0 <= n -> n ∈ ps.*1 -> contents (blobs w') (chunkKey uploadID n) = Some (g n)).
Proof.
  intros Hid. revert w. induction ps as [|[n r] ps IH]; intros w Hg; cbn [put_all].
  { intros [= <-]. split_and!; [done|done|]. intros n _ Hn. by apply not_elem_of_nil in Hn. }
  inversion Hg as [|p ps' Hr Hg' E]; subst. cbn in Hr. rewrite run_mbind.
  destruct (run store_handler (PutChunk svc uploadID userID n r) w) as [[st|e] w1] eqn:Hput;
    cbn [fst snd]; [|done]. intros Hrun.
  apply run_PutChunk in Hput as (sess & Hs & _ & _ & _ & He & _ & Hsess & _ & Hc & Hframe); [|done].
  rewrite Hr in Hc. destruct (IH _ Hg' Hrun) as (Hs' & Hkeep & Hnew).
  assert (Hstep : forall m, 0 <= m -> m = n \/ contents (blobs w) (chunkKey uploadID m) = Some (g m) ->
    contents (blobs w1) (chunkKey uploadID m) = Some (g m)).
  { intros m Hm. destruct (decide (m = n)) as [->|Hne]; [done|]. intros [?|?]; [done|].
    by rewrite Hframe by (done || congruence). }
  split_and!; [by rewrite Hs', Hsess| |].
  - intros m Hm Hcm. apply Hkeep; [done|]. apply Hstep; [done|by right].
  - intros m Hm. cbn. rewrite elem_of_cons. intros [->|Hin]; [|by apply Hnew].
    apply Hkeep; [done|]. apply Hstep; [done|by left].
Qed.

(** Chunks of a file uploaded in any order, each index at least once,
    assemble to the file. *)
Lemma uploads_assemble svc uploadID userID (f : bytes) cs total ps w w' :
  plain uploadID = true -> 0 < cs -> Z.of_nat (length f) <= total * cs ->
  Forall (fun p => data p.2 = slice f cs p.1) ps ->
  (forall n, 0 <= n < total -> n ∈ ps.*1) ->
  run store_handler (put_all svc uploadID userID ps) w = (true, w') ->
  assembler uploadID total (blobs w') = Some (f, None).
Proof.
  intros Hid Hcs Hlen Hps Hall Hrun.
  destruct (run_put_all _ _ _ _ _ _ _ Hid Hps Hrun) as (_ & _ & Hnew).
  assert (Ht : 0 <= total) by nia.
  rewrite assembler_concat; [|done|done|].
  - do 2 f_equal. rewrite <- (take_ge f (Z.to_nat total * Z.to_nat cs)) at 1 by nia.
    rewrite <- slices_concat, Z2Nat.id by done. f_equal. apply map_ext_in.
    intros n Hn%list_elem_of_In%elem_of_seqZ. unfold chunk_bytes.
    rewrite Hnew; [done|lia|apply Hall; lia].
  - intros n Hn. rewrite Hnew; [done|lia|by apply Hall].
Qed.

End HandlerLemmas.

(** ** The outcome of an upload, case by case *)

Section Outcome.
Context {B : Type} `{BackendLaws B}.
Implicit Types (svc : Service) (w : world B) (uploadID userID : uuid).

(** The backend accepts a write at [k]: it reports the reader's own error, or
    the number of bytes. *)
Definition accepts (k : string) (b : B) : Prop :=
  forall r, (be_put k r b).1 =
    match rend r with None => Ok (Z.of_nat (length (data r))) | Some e => Err e end.

(** The specification: the checks in order, then the body against the
    required size. *)
Definition put_outcome svc (rows : gmap uuid UploadSession) uploadID userID (n : Z) (r : reader)
    : option uerr :=
  if negb (s_blobs svc) then Some UErrStorageUnavailable else
  match rows !! uploadID with
  | None => Some UErrNotFound
  | Some sess =>
      if negb (bool_decide (UserID sess = userID)) then Some UErrNotFound
      else if negb (bool_decide (State sess = StateActive)) then Some UErrNotActive
      else match chunkExpectedSize (TotalSize sess) (ChunkSize sess) n with
           | None => Some UErrChunkRange
           | Some expected =>
               let got := Z.of_nat (length (data r)) in
               if expected <? got then Some UErrChunkTooLarge
               else match rend r with
                    | Some ErrChunkTooLarge => Some UErrChunkTooLarge
                    | Some e => Some (UErrIO e)
                    | None => if got =? expected then None else Some UErrChunkSize
                    end
           end
  end.

Lemma capped_accepted k expected r (b : B) :
  0 <= expected -> accepts k b ->
  (be_put k (capped expected r) b).1 =
    if expected <? Z.of_nat (length (data r)) then Err ErrChunkTooLarge
    else match rend r with None => Ok (Z.of_nat (length (data r))) | Some e => Err e end.
Proof.
  intros He Ha. rewrite Ha. unfold capped. rewrite capped_drain_eq by done.
  destruct (Z.leb_spec (Z.of_nat (length (data r))) expected);
    destruct (Z.ltb_spec expected (Z.of_nat (length (data r)))); try lia; cbn; [|done].
  unfold data at 1. cbn. by rewrite app_nil_r.
Qed.

Lemma put_outcome_correct svc uploadID userID n r w :
  faults (wdb w) = [] -> accepts (chunkKey uploadID n) (blobs w) -> in_int32 n ->
  (forall sess, sessions (store (wdb w)) !! uploadID = Some sess ->
     sizes_ok (TotalSize sess) (ChunkSize sess)) ->
  match (run store_handler (PutChunk svc uploadID userID n r) w).1 with Ok _ => None | Err e => Some e end =
  put_outcome svc (sessions (store (wdb w))) uploadID userID n r.
Proof.
  intros Hf Ha Hn Hok. unfold PutChunk, put_outcome. destruct (s_blobs svc); [|done]. cbn [negb].
  unfold session. rewrite !run_mbind, run_call. cbn [store_handler]. rewrite on_db_fine by done.
  cbn [fst snd run mret prog_mret q_GetUploadSession].
  destruct (sessions _ !! uploadID) as [sess|] eqn:Hs; [|done]. specialize (Hok _ eq_refl).
  destruct (bool_decide (UserID sess = userID)); [|done]. cbn [negb].
  destruct (bool_decide (State sess = StateActive)); [|done]. cbn [negb].
  destruct (chunkExpectedSize _ _ n) as [expected|] eqn:He; [|done].
  destruct (chunkExpectedSize_inv _ _ _ _ Hok He) as [Hn0 Hpos].
  cbv zeta. rewrite run_mbind, run_call. cbn [store_handler on_blobs fst blobs].
  rewrite capped_accepted by (done || lia).
  destruct (Z.ltb_spec expected (Z.of_nat (length (data r)))); [done|].
  destruct (rend r) as [[]|]; try done.
  destruct (Z.eqb_spec (Z.of_nat (length (data r))) expected) as [Heq|]; cbn [negb]; [|by rewrite run_mbind].
  rewrite run_mbind, run_call. cbn [store_handler snd]. rewrite on_db_fine by done.
  unfold q_UpsertUploadChunk. cbn [wdb store q_GetUploadSession snd on_blobs]. rewrite Hs, int32_id by done.
  destruct (Z.ltb_spec n 0); [lia|]. destruct (Z.ltb_spec (Z.of_nat (length (data r))) 0); [lia|].
  cbn [orb fst snd]. unfold buildStatus. rewrite run_mbind, run_call. done.
Qed.

End Outcome.

(** ** Lemmas: the sweep *)

Section SweepLemmas.
Context {B : Type} `{BackendLaws B}.
Implicit Types (svc : Service) (w : world B) (id : uuid).
Abbreviation db w := (store (wdb w)).

(** A session's row, its ledger, its finalize jobs and its blobs are as they
    were. *)
Definition kept id w w' : Prop :=
  sessions (db w') !! id = sessions (db w) !! id /\
  (forall n, chunks (db w') !! (id, n) = chunks (db w) !! (id, n)) /\
  (forall jid j, jUploadID j = id -> jobs (db w') !! jid = Some j <-> jobs (db w) !! jid = Some j) /\
  (forall n, 0 <= n -> contents (blobs w') (chunkKey id n) = contents (blobs w) (chunkKey id n)).

#[global] Instance kept_preorder id : PreOrder (kept id).
Proof.
  split; [done|]. intros x y z (?&Hc&Hj&Hb) (?&Hc'&Hj'&Hb'). split_and!.
  - congruence.
  - intros n. by rewrite Hc', Hc.
  - intros jid j He. by rewrite Hj', Hj.
  - intros n Hn. by rewrite Hb', Hb.
Qed.

Lemma unchanged_kept id w w' : unchanged w w' -> kept id w w'.
Proof. intros (Hd & Hb & _). unfold kept. by rewrite Hd, Hb. Qed.

Lemma run_deleteChunks svc id id' w :
  plain id = true -> plain id' = true -> id <> id' ->
  wdb (run store_handler (deleteChunks svc id) w).2 = wdb w /\
  kept id' w (run store_handler (deleteChunks svc id) w).2.
Proof.
  intros Hp Hp' Hne. unfold deleteChunks. destruct (s_blobs svc && s_prefixDeleter svc); [|done].
  cbn. split; [done|]. split_and!; [done..|]. intros n Hn. cbn.
  apply deletePrefix_frame; [by apply chunkPrefix_canonical|by apply chunkKey_canonical|].
  rewrite chunkPrefix_under by done. by apply bool_decide_eq_false_2.
Qed.

(** Deleting one session leaves every other one alone. *)
Lemma delete_kept id id' (w : world B) :
  id <> id' -> kept id' w (on_db (q_DeleteUploadSession id) w).2.
Proof.
  intros Hne. destruct w as [[d fs] b p c o].
  assert (Hd : kept id' (mkWorld (Faulty d fs) b p c o)
                 (mkWorld (Faulty (q_DeleteUploadSession id d).2 fs) b p c o)).
  { split_and!; cbn; [by rewrite lookup_delete_ne| | |done].
    - intros n. rewrite map_lookup_filter. destruct (chunks d !! (id', n)); [|done]. cbn.
      by rewrite option_guard_True.
    - intros jid j Hj. rewrite map_lookup_filter_Some. cbn. split; [by intros []|]. intros ?. split; [done|congruence]. }
  unfold on_db, exec. destruct fs as [|[] fs]; done.
Qed.

Lemma sweep_loop_kept svc ids id removed w :
  Forall (fun i => plain i = true) ids -> plain id = true -> id ∉ ids ->
  kept id w (run store_handler (sweep_loop svc ids removed) w).2.
Proof.
  intros Hids Hid. revert removed w. induction Hids as [|i ids Hi Hids IH]; intros removed w Hn; [done|].
  apply not_elem_of_cons in Hn as [Hne Hn]. cbn [sweep_loop]. rewrite run_mbind.
  destruct (run_deleteChunks svc i id w) as [_ Hk]; [done..|]. etrans; [exact Hk|].
  rewrite run_mbind, run_call. cbn [store_handler].
  etrans; [by apply (delete_kept i id)|].
  destruct (on_db _ _).1; [by apply IH|done].
Qed.

(** What the sweep lists. *)
Definition sweep_list (limit : Z) (d : DB) : list uuid :=
  match (q_ListSweepableUploadSessions limit d).1 with Ok ids => ids | Err _ => [] end.

(** Every row is stored under its own id, and ids are UUID texts. *)
Definition keyed (d : DB) : Prop :=
  forall id s, sessions d !! id = Some s -> ID s = id /\ plain id = true.

Lemma sweep_list_spec limit d id :
  keyed d -> id ∈ sweep_list limit d ->
  exists s, sessions d !! id = Some s /\ sweepable d s = true.
Proof.
  intros Hk Hin. unfold sweep_list in Hin. cbn in Hin.
  apply list_elem_of_fmap in Hin as (s & -> & Hin).
  apply elem_of_take in Hin as (i & Hi & _). apply list_elem_of_lookup_2 in Hi.
  rewrite merge_sort_Permutation in Hi. apply list_elem_of_filter in Hi as [Hs Hi].
  apply list_elem_of_fmap in Hi as ([k s'] & -> & Hi). apply elem_of_map_to_list in Hi. cbn in *.
  destruct (Hk _ _ Hi) as [<- _]. by exists s'.
Qed.

Lemma run_Sweep_list svc limit w :
  unchanged w (on_db (q_ListSweepableUploadSessions (int32 limit)) w).2 /\
  ((on_db (q_ListSweepableUploadSessions (int32 limit)) w).1 = Err ErrStore \/
   (on_db (q_ListSweepableUploadSessions (int32 limit)) w).1 = Ok (sweep_list (int32 limit) (db w))).
Proof.
  split; [by apply on_db_reads|]. destruct w as [[d fs] b p c o].
  unfold on_db, exec. cbn. destruct fs as [|[] fs]; auto.
Qed.

(** A session the sweep may not remove is untouched by it. *)
Lemma run_Sweep_kept svc limit id s w :
  keyed (db w) -> sessions (db w) !! id = Some s -> sweepable (db w) s = false ->
  kept id w (run store_handler (Sweep svc limit) w).2.
Proof.
  intros Hk Hs Hsw. unfold Sweep. rewrite run_mbind, run_call. cbn [store_handler].
  destruct (run_Sweep_list svc limit w) as [Hu [->| ->]];
    (etrans; [by apply unchanged_kept|]); [done|].
  apply sweep_loop_kept; [|by eapply Hk|].
  - apply Forall_forall. intros i Hi. apply sweep_list_spec in Hi as (t & Ht & _); [|done].
    by eapply Hk.
  - intros Hi. apply sweep_list_spec in Hi as (t & Ht & Hst); [|done]. congruence.
Qed.

(** A removed session does not come back. *)
Lemma sweep_loop_gone svc ids id removed w :
  sessions (db w) !! id = None ->
  sessions (db (run store_handler (sweep_loop svc ids removed) w).2) !! id = None.
Proof.
  revert removed w. induction ids as [|i ids IH]; intros removed w Hn; [done|].
  cbn [sweep_loop]. rewrite run_mbind, run_mbind, run_call. cbn [store_handler].
  assert (Hd : wdb (run store_handler (deleteChunks svc i) w).2 = wdb w).
  { unfold deleteChunks. by case_match. }
  set (w1 := (run store_handler (deleteChunks svc i) w).2) in *.
  assert (Hn' : sessions (db (on_db (q_DeleteUploadSession i) w1).2) !! id = None).
  { apply (on_db_invariant _ (fun d => sessions d !! id = None)); [|by rewrite Hd].
    intros d Hd'. cbn. destruct (decide (i = id)) as [->|]; [by rewrite lookup_delete_eq|].
    by rewrite lookup_delete_ne. }
  destruct (on_db _ w1).1; [by apply IH|done].
Qed.

(** A sweep that reports no error removed all it listed. *)
Lemma sweep_loop_all svc ids removed w n :
  (run store_handler (sweep_loop svc ids removed) w).1 = (n, None) ->
  n = removed + Z.of_nat (length ids) /\
  forall id, id ∈ ids -> sessions (db (run store_handler (sweep_loop svc ids removed) w).2) !! id = None.
Proof.
  revert removed w. induction ids as [|i ids IH]; intros removed w.
  { cbn. intros [= <-]. split; [lia|]. intros id Hid. by apply not_elem_of_nil in Hid. }
  cbn [sweep_loop]. rewrite run_mbind, run_mbind, run_call. cbn [store_handler].
  set (w1 := (run store_handler (deleteChunks svc i) w).2).
  destruct (on_db (q_DeleteUploadSession i) w1) as [[u|e] w2] eqn:Hq; cbn [fst snd]; [|done].
  intros Hrun. destruct (IH _ _ Hrun) as [-> Hall]. split; [cbn; lia|].
  intros id. rewrite elem_of_cons. intros [->|Hin]; [|by apply Hall].
  apply sweep_loop_gone. pose proof (f_equal fst Hq) as [_ Hdb]%on_db_ok. rewrite Hq in Hdb.
  cbn in Hdb. rewrite Hdb. cbn. apply lookup_delete_eq.
Qed.

Lemma run_Sweep_removes svc limit w n id s :
  (run store_handler (Sweep svc limit) w).1 = (n, None) -> 0 <= int32 limit -> n < int32 limit ->
  sessions (db w) !! id = Some s -> ID s = id -> sweepable (db w) s = true ->
  sessions (db (run store_handler (Sweep svc limit) w).2) !! id = None.
Proof.
  unfold Sweep. rewrite run_mbind, run_call. cbn [store_handler].
  destruct (run_Sweep_list svc limit w) as [Hu [->| ->]]; [done|].
  intros Hrun Hl Hn Hs Hid Hsw. destruct (sweep_loop_all _ _ _ _ _ Hrun) as [-> Hall]. apply Hall.
  unfold sweep_list in *. cbn in *. rewrite length_map, length_take in Hn.
  rewrite take_ge by lia. rewrite <- Hid. apply list_elem_of_fmap_2.
  rewrite merge_sort_Permutation. apply list_elem_of_filter. split; [done|].
  apply list_elem_of_fmap. exists (id, s). split; [done|]. by apply elem_of_map_to_list.
Qed.

End SweepLemmas.

(** ** A concrete session *)

Definition demo_id : uuid := "a".
Definition demo_user : uuid := "b".
Definition demo_video : uuid := "c".
Definition demo_channel : uuid := "d".

(** Ids are opaque texts; short ones keep the examples readable.
    Ten bytes in chunks of four. *)
Definition demo_session (st : sstate) : UploadSession :=
  mkSession demo_id demo_video demo_user "clip.mp4" 10 4 st (24 * Hour) "" PurposeUpload "" 0.

Definition demo_file : bytes :=
  [Byte.x00; Byte.x01; Byte.x02; Byte.x03; Byte.x04; Byte.x05; Byte.x06; Byte.x07; Byte.x08; Byte.x09].

Definition demo_svc : Service := mkService true true ChunkSize_default 0 None.

(** A pipeline that accepts everything. *)
Definition demo_pipe : Pipeline := {|
  pl_GetByID _ _ := Ok demo_user;
  pl_AttachOriginal _ _ vid _ := Ok vid;
  pl_Process _ _ _ := Ok tt;
  pl_ReplaceSource _ _ vid _ _ := Ok vid |}.

(** A generator of distinct ids: "j", "jj", "jjj", ... *)
Definition demo_gen (n : nat) : uuid := Nat.iter n (String.append "j") "j"%string.

Definition demo_db (st : sstate) : DB :=
  mkDB {[demo_video := demo_channel]} {[demo_id := demo_session st]} ∅ ∅ 1 demo_gen 0.

Definition demo_world (st : sstate) : world LocalFS :=
  mkWorld (Faulty (demo_db st) []) (mkLocalFS (mkLocal ∅ ∅) []) demo_pipe 0 ∅.

(** Chunk [n] of the demo file, in one piece. *)
Definition demo_body (n : Z) : reader := Reader [slice demo_file 4 n] None false.

(** The chunks, out of order and with one sent twice. *)
Definition demo_puts : list (Z * reader) :=
  [(2, demo_body 2); (0, demo_body 0); (1, demo_body 1); (0, demo_body 0)].

Definition demo_uploaded : world LocalFS :=
  (run store_handler (put_all demo_svc demo_id demo_user demo_puts) (demo_world StateActive)).2.

Lemma demo_sizes : sizes_ok 10 4.
Proof. unfold sizes_ok, max_int64. lia. Qed.

(** A fresh local tree accepts a write at a chunk key. *)
Lemma demo_accepts : accepts (chunkKey demo_id 0) (blobs (demo_world StateActive)).
Proof.
  intros r.
  apply (Local_Put_accepts _ _ (mkLocal ∅ ∅) ["uploads"%string; demo_id; "0"%string]);
    [vm_compute; reflexivity..|].
  cbn. set_solver.
Qed.

(** ** Properties *)

(** C38. Chunk sizes partition the file. For every session whose sizes do not
    overflow, an index has a required size exactly when it lies in
    [0, totalChunks), every required size is positive and at most the chunk
    size, every chunk but the last is a full one, and the required sizes add up
    to the declared total: the [int64] arithmetic never wraps. *)
Theorem chunks_partition (ts cs : Z) :
  sizes_ok ts cs ->
  (forall n, (exists e, chunkExpectedSize ts cs n = Some e) <-> 0 <= n < totalChunks ts cs) /\
  (forall n e, chunkExpectedSize ts cs n = Some e ->
     0 < e <= cs /\ (n < totalChunks ts cs - 1 -> e = cs)) /\
  sumZ (fun n => default 0 (chunkExpectedSize ts cs n)) (seqZ 0 (totalChunks ts cs)) = ts.
Proof.
  intros Hok. pose proof (totalChunks_bounds _ _ Hok) as [Hpos _]. split_and!.
  - intros n. split; [intros [e He]; by eapply chunkExpectedSize_range|].
    intros Hn. destruct (chunkExpectedSize_some _ _ _ Hok Hn) as (e & ? & _). by exists e.
  - intros n e He. split; [by eapply chunkExpectedSize_inv|]. intros Hn.
    rewrite chunkExpectedSize_eq in He by done. destruct (_ && _); [|done].
    destruct (Z.eqb_spec n (totalChunks ts cs - 1)); [lia|congruence].
  - pose proof (expected_sum_total _ _ Hok) as Hsum. unfold expected_sum in Hsum.
    by rewrite Z2Nat.id in Hsum by lia.
Qed.

Lemma chunks_partition_witness :
  sizes_ok 10 4 /\
  sumZ (fun n => default 0 (chunkExpectedSize 10 4 n)) (seqZ 0 (totalChunks 10 4)) = 10.
Proof. split; [exact demo_sizes|]. apply (chunks_partition 10 4 demo_sizes). Defined.

(** The capped reader bounds what one request can store. Draining the
    capped body always ends; a body within the cap comes through byte for byte
    with its own end (a broken body stays broken), and a longer one is cut to
    the cap plus one byte and ends in [ErrChunkTooLarge], never in a clean end
    of file. *)
Theorem capped_reader_bounds (expected : Z) (r : reader) :
  0 <= expected ->
  exists d e, capped_drain expected r = Some (d, e) /\
    Z.of_nat (length d) <= expected + 1 /\
    (Z.of_nat (length (data r)) <= expected -> d = data r /\ e = rend r) /\
    (expected < Z.of_nat (length (data r)) ->
       d = take (Z.to_nat (expected + 1)) (data r) /\ e = Some ErrChunkTooLarge).
Proof.
  intros He. rewrite capped_drain_eq by done.
  destruct (Z.leb_spec (Z.of_nat (length (data r))) expected); eexists _, _; (split; [done|]).
  - split_and!; [lia|done|lia].
  - rewrite length_take. split_and!; [lia|lia|done].
Qed.

Lemma capped_reader_bounds_witness :
  exists d e, capped_drain 2 (demo_body 0) = Some (d, e) /\ e = Some ErrChunkTooLarge.
Proof.
  destruct (capped_reader_bounds 2 (demo_body 0)) as (d & e & Hd & _ & _ & Hover); [lia|].
  exists d, e. split; [exact Hd|]. apply Hover. vm_compute. reflexivity.
Defined.

(** The chunk assembler is the concatenation it stands for. For every
    behaviour of the blobs (missing ones, empty ones, ones that break off,
    any piece sizes) reading the assembler to its end terminates and yields
    exactly the blobs' bytes in index order up to the first blob that cannot
    be opened or read, with that blob's error, and a clean end only when all
    of them were read. *)
Theorem assembler_is_concatenation (opn : Z -> result ioerr reader) (total : Z) :
  assembled opn total = Some (stream opn 0 (Z.to_nat total)).
Proof. apply assembled_stream. Qed.

(** A chunk that is accepted is stored. When [PutChunk] answers with a
    status, the session was the caller's and active, the body arrived whole
    with exactly the required size, the backend holds it under the chunk's key,
    the ledger gained that one row, and no other chunk of any session changed,
    whatever store faults occurred on the way. *)
Theorem PutChunk_stores `{BackendLaws B} (svc : Service) (uploadID userID : uuid) (n : Z) (r : reader)
    (w w' : world B) (st : Status) :
  plain uploadID = true ->
  run store_handler (PutChunk svc uploadID userID n r) w = (Ok st, w') ->
  exists sess,
    sessions (store (wdb w)) !! uploadID = Some sess /\
    UserID sess = userID /\ State sess = StateActive /\ rend r = None /\
    chunkExpectedSize (TotalSize sess) (ChunkSize sess) n = Some (Z.of_nat (length (data r))) /\
    chunk_stored w w' uploadID n (data r).
Proof. apply run_PutChunk. Qed.

Lemma PutChunk_stores_witness :
  exists st w', run store_handler (PutChunk demo_svc demo_id demo_user 0 (demo_body 0)) (demo_world StateActive)
                = (Ok st, w') /\ contents (blobs w') (chunkKey demo_id 0) = Some (slice demo_file 4 0).
Proof.
  destruct (run store_handler (PutChunk demo_svc demo_id demo_user 0 (demo_body 0)) (demo_world StateActive))
    as [[st|e] w'] eqn:Hrun; [|vm_compute in Hrun; discriminate Hrun].
  exists st, w'. split; [reflexivity|].
  destruct (PutChunk_stores demo_svc demo_id demo_user 0 (demo_body 0) _ _ _ eq_refl Hrun) as (s & _ & _ & _ & _ & _ & _ & _ & _ & Hc & _).
  rewrite Hc. reflexivity.
Defined.



(** Upload round trip. The chunks of a file, uploaded in any order, with
    repetitions, in any pieces, by requests that all succeed and cover every
    index, make the assembler read back exactly the file. *)
Theorem upload_roundtrip `{BackendLaws B} (svc : Service) (uploadID userID : uuid) (f : bytes) (cs : Z)
    (ps : list (Z * reader)) (w w' : world B) :
  plain uploadID = true -> sizes_ok (Z.of_nat (length f)) cs ->
  Forall (fun p => data p.2 = slice f cs p.1) ps ->
  (forall n, 0 <= n < totalChunks (Z.of_nat (length f)) cs -> n ∈ ps.*1) ->
  run store_handler (put_all svc uploadID userID ps) w = (true, w') ->
  assembler uploadID (totalChunks (Z.of_nat (length f)) cs) (blobs w') = Some (f, None).
Proof.
  intros Hid Hok. pose proof (totalChunks_bounds _ _ Hok) as (_ & _ & Hle). destruct Hok as (_ & Hcs & _).
  by apply uploads_assemble.
Qed.

Lemma upload_roundtrip_witness :
  assembler demo_id (totalChunks 10 4) (blobs demo_uploaded) = Some (demo_file, None).
Proof.
  apply (upload_roundtrip demo_svc demo_id demo_user demo_file 4 demo_puts (demo_world StateActive) demo_uploaded).
  - reflexivity.
  - exact demo_sizes.
  - repeat constructor.
  - intros n Hn. change (totalChunks (Z.of_nat (length demo_file)) 4) with 3 in Hn. cbn.
    assert (n = 0 \/ n = 1 \/ n = 2) as [-> |[-> | ->]] by lia; set_solver.
  - vm_compute. reflexivity.
Defined.

(** What [Assemble] vouches for. When it hands out a reader over a session
    whose ledger rows are backed by their blobs, the session is being
    finalized and the reader yields, cleanly, the concatenation of the stored
    chunks, whose length is the declared total size. *)
Theorem Assemble_whole_file `{BackendLaws B} (svc : Service) (uploadID : uuid) (w w' : world B)
    (sess : UploadSession) (total : Z) :
  keyed (store (wdb w)) ->
  run store_handler (Assemble svc uploadID) w = (Ok (sess, total), w') ->
  sizes_ok (TotalSize sess) (ChunkSize sess) -> ledger_backed uploadID w ->
  Finalizing (State sess) = true /\ sessions (store (wdb w)) !! uploadID = Some sess /\
  exists d, assembler uploadID total (blobs w') = Some (d, None) /\
    d = concat (map (chunk_bytes (blobs w) uploadID) (seqZ 0 total)) /\
    Z.of_nat (length d) = TotalSize sess.
Proof.
  intros Hk Hrun Hok Hback.
  apply run_Assemble in Hrun as (Hf & Hs & Hu & -> & Hc). destruct (Hk _ _ Hs) as [Hid Hp].
  split; [done|]. split; [done|]. destruct Hu as (_ & -> & _). subst uploadID.
  by apply complete_assembles.
Qed.

Lemma demo_keyed st : keyed (demo_db st).
Proof. intros id s Hs. cbn [sessions demo_db] in Hs. by apply lookup_singleton_Some in Hs as [<- <-]. Qed.

(** The demo session uploaded and picked up by a worker. *)
Definition demo_processing : world LocalFS :=
  (run store_handler (MarkProcessing demo_id) demo_uploaded).2.

Lemma demo_processing_backed : ledger_backed demo_id demo_processing.
Proof.
  intros n size Hn. apply elem_of_map_to_list in Hn.
  vm_compute in Hn. repeat (apply elem_of_cons in Hn as [Hn|Hn]; [injection Hn as -> ->;
    eexists; split; vm_compute; reflexivity|]).
  by apply not_elem_of_nil in Hn.
Qed.

Lemma demo_processing_keyed : keyed (store (wdb demo_processing)).
Proof.
  intros id s Hs. apply elem_of_map_to_list in Hs. vm_compute in Hs.
  apply elem_of_cons in Hs as [Hs|Hs]; [injection Hs as -> ->; split; reflexivity|].
  by apply not_elem_of_nil in Hs.
Qed.

Lemma Assemble_whole_file_witness :
  exists d, assembler demo_id 3 (blobs demo_processing) = Some (d, None) /\ Z.of_nat (length d) = 10.
Proof.
  pose (w' := (run store_handler (Assemble demo_svc demo_id) demo_processing).2).
  assert (Hrun : run store_handler (Assemble demo_svc demo_id) demo_processing =
            (Ok (demo_session StateProcessing, 3), w')).
  { apply run_answer. vm_compute. reflexivity. }
  assert (Hb : blobs w' = blobs demo_processing) by (vm_compute; reflexivity).
  destruct (Assemble_whole_file demo_svc demo_id demo_processing w' _ _ demo_processing_keyed Hrun
              demo_sizes demo_processing_backed) as (_ & _ & d & Hd & _ & Hl).
  exists d. rewrite <- Hb. exact (conj Hd Hl).
Defined.

(** The sweep removes what is stale and nothing else. A session that is
    neither cancelled nor expired, or that a live finalize job still needs,
    keeps its row, ledger, jobs and chunks through a sweep, faults included; a
    sweep that ends without error below its limit removed every session that
    was stale when it started. *)
Theorem Sweep_exact `{BackendLaws B} (svc : Service) (limit : Z) (w : world B) (id : uuid) (s : UploadSession) :
  keyed (store (wdb w)) -> sessions (store (wdb w)) !! id = Some s ->
  (sweepable (store (wdb w)) s = false -> kept id w (run store_handler (Sweep svc limit) w).2) /\
  (forall n, (run store_handler (Sweep svc limit) w).1 = (n, None) -> 0 <= int32 limit -> n < int32 limit ->
     sweepable (store (wdb w)) s = true ->
     sessions (store (wdb (run store_handler (Sweep svc limit) w).2)) !! id = None).
Proof.
  intros Hk Hs. split; [by apply run_Sweep_kept|]. intros n Hrun Hl Hn Hsw.
  eapply run_Sweep_removes; try done. by eapply Hk.
Qed.

(** The demo session after it was cancelled. *)
Definition demo_cancelled : world LocalFS :=
  (run store_handler (Cancel demo_svc demo_id demo_user) demo_uploaded).2.

Lemma Sweep_exact_witness :
  kept demo_id demo_processing (run store_handler (Sweep demo_svc 100) demo_processing).2 /\
  sessions (store (wdb (run store_handler (Sweep demo_svc 100) demo_cancelled).2)) !! demo_id = None.
Proof.
  split.
  - apply (Sweep_exact demo_svc 100 demo_processing demo_id (demo_session StateProcessing));
      [exact demo_processing_keyed|vm_compute; reflexivity..].
  - refine (proj2 (Sweep_exact demo_svc 100 demo_cancelled demo_id (demo_session StateCancelled) _ _) 1 _ _ _ _).
    + intros id s Hs. apply elem_of_map_to_list in Hs. vm_compute in Hs.
      apply elem_of_cons in Hs as [Hs|Hs]; [injection Hs as -> ->; split; reflexivity|].
      apply not_elem_of_nil in Hs. destruct Hs.
    + vm_compute; reflexivity.
    + vm_compute; reflexivity.
    + vm_compute; discriminate.
    + vm_compute; reflexivity.
    + vm_compute; reflexivity.
Defined.

(** A refused retry of a chunk loses the copy that was accepted. Sending an
    already stored chunk again with one byte too many is answered
    [ErrChunkTooLarge]; the local backend has truncated and removed the good
    blob by then, the ledger still lists the chunk, so the session still
    validates as complete and is accepted for finalizing, and its assembled
    stream fails with a missing blob. *)
Theorem PutChunk_refused_retry_loses_chunk :
  let retry := PutChunk demo_svc demo_id demo_user 1 (Reader [demo_file] None false) in
  let w := (run store_handler retry demo_uploaded).2 in
  (run store_handler retry demo_uploaded).1 = Err UErrChunkTooLarge /\
  assembler demo_id 3 (blobs demo_uploaded) = Some (demo_file, None) /\
  (run store_handler (ValidateComplete demo_svc demo_id demo_user) w).1 = Ok (demo_session StateActive) /\
  chunks (store (wdb w)) = chunks (store (wdb demo_uploaded)) /\
  assembler demo_id 3 (blobs w) = Some (slice demo_file 4 0, Some ErrNotFound).
Proof.
  cbv zeta. split; [vm_compute; reflexivity|]. split; [vm_compute; reflexivity|].
  split; [vm_compute; reflexivity|]. split; vm_compute; reflexivity.
Qed.
