(* ===== verification/UploadFinalize.v ===== *)
(** * Asynchronous upload completion (src/internal/uploadfinalize/service.go)

    The durable queue that finishes an upload: [Enqueue] (insert the job, then
    compare-and-set the session), the worker's [DrainJobs] with [runFinalize]
    and [runReplace], and [recordFailure] (backoff or dead-letter). The helpers
    it calls are modelled with it: [safeerr], [workerpool.Clamp],
    [lease.Keep]. Programs run sequentially ([run]), interleaved
    ([pool_step]) and under store faults. *)
From S2P Require Import Prelude Storage UploadStore Upload Retry Queue.
Local Open Scope Z_scope.

(** ** Constants, configuration, errors *)

Definition maxAttempts : Z := 5.
Definition baseBackoff : duration := Minute.
Definition maxBackoff : duration := Hour.
Definition maxErrorLen : nat := 300.

(** [workerpool.Clamp] with [MaxConcurrency]. *)
Definition MaxConcurrency : Z := 16.
Definition Clamp (n : Z) : Z :=
  if n <? 1 then 1 else if MaxConcurrency <? n then MaxConcurrency else n.

(** The service's own configuration: the uploads service it calls, whether a
    replace hook is wired, the configured concurrency. *)
Record FinalizeService := mkFinalize {
  f_uploads : Service;
  f_onReplaced : bool;
  f_concurrencyFn : option Z;
}.

Definition Concurrency (fs : FinalizeService) : Z :=
  match f_concurrencyFn fs with None => 1 | Some n => Clamp n end.

(** A [safeerr] failure: its client-visible message, and whether it is
    terminal. *)
Record failure := mkFailure { f_msg : string; f_terminal : bool }.

Definition safeerr_New (msg : string) : failure := mkFailure msg false.
Definition safeerr_NewTerminal (msg : string) : failure := mkFailure msg true.
Definition IsTerminal (e : failure) : bool := f_terminal e.

(** [internalf] *)
Definition internalf : failure := safeerr_New "the upload could not be processed".

(** [video.SafetyScanRejectedMessage] *)
Definition SafetyScanRejectedMessage : string :=
  "This file was rejected by the instance's safety scan and was not stored.".

(** [backoff] *)
Definition backoff (attempts : Z) : duration := Backoff attempts baseBackoff maxBackoff.

(** What [Enqueue] can fail with. *)
Inductive ferr := FErrNotActive | FErrDB (e : dberr) | FErrUpload (e : uerr) | FErrNotFound.

#[global] Instance ferr_eq_dec : EqDecision ferr.
Proof. solve_decision. Defined.

(** ** Handlers *)

Section Handlers.
Context {B : Type} `{Backend B}.
Implicit Types (fs : FinalizeService) (row : UploadFinalizeJob).
Abbreviation M A := (prog (storeE B) A) (only parsing).

(** [Service.Enqueue] *)
Definition Enqueue (uploadID videoID : uuid) (purp : string) (canManage : bool)
    : M (result ferr UploadFinalizeJob) :=
  let p := if bool_decide (purp = "replace"%string) then PurposeReplace else PurposeUpload in
  r ← call (EnqueueUploadFinalizeJob uploadID videoID p canManage);
  match r with
  | Err ErrNoRows =>
      g ← call (GetLatestUploadFinalizeJob uploadID);
      mret (match g with Ok j => Ok j | Err e => Err (FErrDB e) end)
  | Err e => mret (Err (FErrDB e))
  | Ok job =>
      q ← MarkQueued uploadID;
      match q with
      | Err e => mret (Err (FErrUpload e))
      | Ok queued =>
          if negb queued then
            _ ← call (DeleteUploadFinalizeJob (jID job));
            mret (Err FErrNotActive)
          else mret (Ok job)
      end
  end.

(** [Service.HasLiveJob] *)
Definition HasLiveJob (uploadID : uuid) : M bool :=
  r ← call (HasLiveUploadFinalizeJob uploadID);
  mret (match r with Ok live => live | Err _ => false end).

(** [Service.LatestForSession] *)
Definition LatestForSession (uploadID : uuid) : M (result ferr UploadFinalizeJob) :=
  r ← call (GetLatestUploadFinalizeJob uploadID);
  mret (match r with Ok j => Ok j | Err _ => Err FErrNotFound end).

(** [Service.runReplace]: [None] is success. *)
Definition runReplace fs row (sess : UploadSession) (rd : B -> option (bytes * option ioerr))
    : M (option failure) :=
  r ← call (ReplaceSource (UserID sess) (jVideoID row) (Filename sess) (jCanManage row) rd);
  match r with
  | Err e =>
      mret (Some (match e with
        | VReplaceRejected reason => safeerr_New reason
        | VErrUnsupportedMedia => safeerr_New "that file type is not an accepted video container"
        | VErrReplaceConflict => safeerr_New "the video can no longer have its file replaced"
        | VErrNotFound | VErrForbidden => safeerr_New "the video no longer exists"
        | _ => internalf
        end))
  | Ok key =>
      if f_onReplaced fs then
        _ ← call (OnReplaced (jVideoID row) key); mret None
      else mret None
  end.

(** [Service.runFinalize] *)
Definition runFinalize fs row : M (option failure) :=
  _ ← MarkProcessing (jUploadID row);
  a ← Assemble (f_uploads fs) (jUploadID row);
  match a with
  | Err e =>
      mret (Some (match e with
        | UErrIncomplete => safeerr_New "some of the uploaded parts are missing; upload the file again"
        | UErrNotFound | UErrNotActive => safeerr_New "the upload session is no longer available"
        | _ => internalf
        end))
  | Ok (sess, total) =>
      let rd := assembler (jUploadID row) total in
      v ← call (GetByID (jVideoID row));
      match v with
      | Err _ => mret (Some (safeerr_New "the video no longer exists"))
      | Ok owner =>
          if bool_decide (jPurpose row = PurposeReplace) then runReplace fs row sess rd
          else
            r ← call (AttachOriginal owner (jVideoID row) (Filename sess) rd);
            match r with
            | Err e =>
                mret (Some (match e with
                  | VErrUnsupportedMedia => safeerr_New "that file type is not an accepted video container"
                  | VErrNotFound | VErrForbidden => safeerr_New "the video no longer exists"
                  | _ => internalf
                  end))
            | Ok key =>
                p ← call (Process (jVideoID row) key);
                mret (match p with
                      | Ok _ => None
                      | Err VMalwareRejected => Some (safeerr_NewTerminal SafetyScanRejectedMessage)
                      | Err _ => Some internalf
                      end)
            end
      end
  end.

(** [Service.recordFailure] *)
Definition recordFailure fs row (cause : failure) : M unit :=
  let attempts := jAttempts row + 1 in
  let msg := if (maxErrorLen <? String.length (f_msg cause))%nat
             then String.substring 0 maxErrorLen (f_msg cause) else f_msg cause in
  if (maxAttempts <=? attempts) || IsTerminal cause then
    _ ← call (FailUploadFinalizeJob (jID row) msg);
    _ ← MarkFailed (f_uploads fs) (jUploadID row) msg;
    mret tt
  else
    t ← call Now;
    _ ← call (RescheduleUploadFinalizeJob (jID row) (t + backoff attempts) msg);
    mret tt.

(** The body a worker runs for one claimed row: how many it completed. *)
Definition drain_one fs row : M Z :=
  r ← runFinalize fs row;
  match r with
  | Some cause => _ ← recordFailure fs row cause; mret 0
  | None =>
      _ ← call (CompleteUploadFinalizeJob (jID row));
      _ ← MarkCompleted (f_uploads fs) (jUploadID row);
      mret 1
  end.

(** [workerpool.Run] with one worker. *)
Fixpoint drain_rows fs (rows : list UploadFinalizeJob) (done : Z) : M Z :=
  match rows with
  | [] => mret done
  | row :: rows' => n ← drain_one fs row; drain_rows fs rows' (done + n)
  end.

(** [Service.DrainJobs] at concurrency one; at a higher concurrency the bodies
    of the claimed rows interleave, which the pool semantics covers. *)
Definition DrainJobs fs (limit : Z) : M (result dberr Z) :=
  r ← call (ClaimDueUploadFinalizeJobs (int32 limit));
  match r with
  | Err e => mret (Err e)
  | Ok rows => n ← drain_rows fs rows 0; mret (Ok n)
  end.

(** [lease.Keep]'s goroutine over [ticks] ticks of its ticker: a failed
    renewal is only logged. *)
Fixpoint Keep (ticks : nat) (jid : uuid) : M unit :=
  match ticks with
  | O => mret tt
  | S ticks' => _ ← call (RenewUploadFinalizeJobLease jid); Keep ticks' jid
  end.

End Handlers.

(** ** The queue's invariant *)

(** The finalize jobs as rows of a queue: their subject is the session. *)
#[global] Instance finalize_queue : QueueRow UploadFinalizeJob :=
  { row_id := jID; row_subject := jUploadID; row_live := live }.

(** Every job is stored under its own id, and no session has two live jobs. *)
Definition queue_ok (d : DB) : Prop := queue_wf (jobs d).

Lemma narrows_due f st limit d :
  queue_ok d -> st = StatePending \/ st = StateRunning ->
  (forall j, jID (f j) = jID j /\ jUploadID (f j) = jUploadID j) ->
  narrows (jobs d) (update_all f (due st limit d) (jobs d)).
Proof.
  intros [Hk _] Hst Hf. apply (narrows_chosen f jNextAttemptAt limit _ (jobs d) Hk); [|done].
  intros j [Hs _]. cbn. unfold live. rewrite Hs. by destruct Hst as [-> | ->].
Qed.

Lemma has_live_job_false id d k j :
  has_live_job id d = false -> jobs d !! k = Some j -> jUploadID j = id -> live j = false.
Proof. exact (has_live_row_false id (jobs d) k j). Qed.

Lemma queue_ok_enqueue id vid p cm d : queue_ok d -> queue_ok (q_EnqueueUploadFinalizeJob id vid p cm d).2.
Proof.
  intros Hw. unfold q_EnqueueUploadFinalizeJob.
  destruct (sessions d !! id), (videos d !! vid); try done.
  destruct (has_live_job id d) eqn:Hlive; [done|]. case_bool_decide as Hfresh; [|done].
  exact (queue_wf_insert (jobs d)
    (mkJob (gen d (drawn d)) id vid p cm StatePending EmptyString 0 (now d) (now d)) Hfresh Hlive Hw).
Qed.

Lemma queue_ok_reschedule jid next err d : queue_ok d -> queue_ok (q_RescheduleUploadFinalizeJob jid next err d).2.
Proof.
  intros Hw. unfold q_RescheduleUploadFinalizeJob. destruct (jobs d !! jid) as [j|] eqn:Hj; [|done].
  destruct (negb _ && _) eqn:Hok; [done|]. 
  exact (queue_wf_requeue (fun j => set_job StatePending err (jAttempts j + 1) next j) jid j (jobs d) Hj Hok (fun _ => conj eq_refl eq_refl) Hw).
Qed.

Section QueueInvariant.
Context {B : Type} `{Backend B}.

(** Every operation of the two services keeps the queue's invariant, whatever
    the store's faults. *)
Lemma queue_ok_step X (e : storeE B X) (w : world B) :
  queue_ok (store (wdb w)) -> queue_ok (store (wdb (store_handler X e w).2)).
Proof.
  intros Hw. destruct e; cbn [store_handler];
    try (apply (on_db_invariant _ queue_ok); [|done]; intros d Hd); try done;
    try (by apply queue_ok_enqueue); try (by apply queue_ok_reschedule);
    try (unfold storing; by repeat case_match).
  - unfold q_CreateUploadSession. by repeat case_match.
  - unfold q_UpsertUploadChunk. by repeat case_match.
  - unfold q_MarkUploadSessionQueued. by repeat case_match.
  - apply (narrows_wf (jobs d)); [|done]. apply narrows_sub. apply map_filter_subseteq.
  - apply (narrows_wf (jobs d)); [|done]. apply narrows_sub. apply delete_subseteq.
  - apply (narrows_wf (jobs d)); [|done]. by apply narrows_due; [|left|].
  - apply (narrows_wf (jobs d)); [|done]. apply narrows_alter. intros j.
    by case_bool_decide as Hs; split_and!; try done; intros _; cbn; unfold live; rewrite ?Hs.
  - apply (narrows_wf (jobs d)); [|done]. by apply narrows_alter.
  - apply (narrows_wf (jobs d)); [|done]. by apply narrows_alter.
  - apply (narrows_wf (jobs d)); [|done]. by apply narrows_due; [|right|].
Qed.

End QueueInvariant.

(** ** The life of a session *)

(** Same session: everything but the state and the failure reason. *)
Definition same_session (s s' : UploadSession) : Prop :=
  ID s' = ID s /\ VideoID s' = VideoID s /\ UserID s' = UserID s /\ Filename s' = Filename s /\
  TotalSize s' = TotalSize s /\ ChunkSize s' = ChunkSize s /\ ExpiresAt s' = ExpiresAt s /\
  FileFingerprint s' = FileFingerprint s /\ Purpose s' = Purpose s /\ CreatedAt s' = CreatedAt s.

(** Nothing about the sessions drawn so far goes back: a session that is
    still there is the same one, and one that left 'active' has not returned. *)
Definition sessions_advance (d d' : DB) : Prop :=
  gen d' = gen d /\ (drawn d <= drawn d')%nat /\
  (Inj (=) (=) (gen d) -> forall k s', (k < drawn d)%nat -> sessions d' !! gen d k = Some s' ->
     exists s, sessions d !! gen d k = Some s /\ same_session s s' /\
       (State s <> StateActive -> State s' <> StateActive)).

#[global] Instance sessions_advance_preorder : PreOrder sessions_advance.
Proof.
  split.
  - intros d. split; [done|]. split; [done|]. intros _ k s _ Hs. exists s. by repeat split.
  - intros d1 d2 d3 (G12 & D12 & H12) (G23 & D23 & H23). split; [congruence|]. split; [lia|].
    intros Hinj k s3 Hk Hs3. rewrite G12 in H23.
    destruct (H23 Hinj k s3) as (s2 & Hs2 & E2 & A2); [lia|done|].
    destruct (H12 Hinj k s2) as (s1 & Hs1 & E1 & A1); [done..|].
    exists s1. split; [done|]. split; [|auto].
    unfold same_session in *. intuition congruence.
Qed.

Lemma advance_same d d' :
  gen d' = gen d -> (drawn d <= drawn d')%nat -> sessions d' = sessions d -> sessions_advance d d'.
Proof.
  intros G D Hs. split; [done|]. split; [done|]. intros _ k s' _. rewrite Hs. intros Hk.
  exists s'. by repeat split.
Qed.

Lemma advance_alter id st reason d :
  st <> StateActive -> sessions_advance d (with_sessions (alter (set_state st reason) id) d).
Proof.
  intros Hst. split; [done|]. split; [done|]. intros _ k s' _. cbn. rewrite lookup_alter_Some.
  intros [(-> & s & Hs & ->)|[_ Hs]]; [exists s|exists s']; by repeat split.
Qed.

Lemma advance_create p d : sessions_advance d (q_CreateUploadSession p d).2.
Proof.
  unfold q_CreateUploadSession. case_bool_decide; [|reflexivity]. cbv zeta.
  destruct (_ || _); [apply advance_same; cbn; (done || lia)|].
  case_bool_decide; [|apply advance_same; cbn; (done || lia)].
  split; [done|]. split; [cbn; lia|]. intros Hinj k s' Hk. cbn.
  rewrite lookup_insert_ne; [|intros He%Hinj; lia]. intros Hs. exists s'. by repeat split.
Qed.

Section SessionLife.
Context {B : Type} `{Backend B}.

(** No operation sets a session back to active. *)
Definition forward X (e : storeE B X) : Prop :=
  match e with SetUploadSessionState _ st => st <> StateActive | _ => True end.

Lemma advance_step X (e : storeE B X) (w : world B) :
  forward X e -> sessions_advance (store (wdb w)) (store (wdb (store_handler X e w).2)).
Proof.
  intros Hf. destruct e; cbn [store_handler];
    try (apply (on_db_rel _ sessions_advance); intros d); try reflexivity;
    try (by apply advance_create); try (by apply advance_alter);
    try (unfold storing; repeat case_match; reflexivity);
    try (by apply advance_same).
  - unfold q_UpsertUploadChunk. repeat case_match; try reflexivity. by apply advance_same.
  - unfold q_MarkUploadSessionQueued. repeat case_match; try reflexivity. by apply advance_alter.
  - split; [done|]. split; [done|]. intros _ k s' _. cbn. rewrite lookup_delete_Some. intros [_ Hs].
    exists s'. by repeat split.
  - unfold q_EnqueueUploadFinalizeJob. repeat case_match; apply advance_same; cbn; (done || lia).
  - unfold q_RescheduleUploadFinalizeJob. repeat case_match; try reflexivity. by apply advance_same.
Qed.

(** The requests and workers of the two services. *)
Inductive service_prog : prog (storeE B) unit -> Prop :=
| sp_create svc v c u f size fp pu :
    service_prog (_ ← CreateSession svc v c u f size fp pu; mret tt)
| sp_busy v : service_prog (_ ← HasActiveReplaceSession v; mret tt)
| sp_list u fp : service_prog (_ ← ActiveSessionsForUser u fp; mret tt)
| sp_status id u : service_prog (_ ← StatusFor id u; mret tt)
| sp_put svc id u n r : service_prog (_ ← PutChunk svc id u n r; mret tt)
| sp_validate svc id u : service_prog (_ ← ValidateComplete svc id u; mret tt)
| sp_cancel svc id u : service_prog (_ ← Cancel svc id u; mret tt)
| sp_sweep svc limit : service_prog (_ ← Sweep svc limit; mret tt)
| sp_enqueue id v p cm : service_prog (_ ← Enqueue id v p cm; mret tt)
| sp_live id : service_prog (_ ← HasLiveJob id; mret tt)
| sp_latest id : service_prog (_ ← LatestForSession id; mret tt)
| sp_drain fs limit : service_prog (_ ← DrainJobs fs limit; mret tt)
| sp_one fs row : service_prog (_ ← drain_one fs row; mret tt)
| sp_lease ticks jid : service_prog (Keep ticks jid)
| sp_recover : service_prog (_ ← call SweepExpiredUploadFinalizeJobs; mret tt).

Lemma sweep_loop_forward svc ids n : ops forward (sweep_loop svc ids n).
Proof. revert n. induction ids; intros n; cbn [sweep_loop]; [done|]. unfold deleteChunks. walk_ops; done. Qed.

Lemma drain_one_forward fs row : ops forward (drain_one fs row).
Proof.
  unfold drain_one, runFinalize, runReplace, recordFailure, Assemble, checkChunksComplete,
    MarkProcessing, MarkCompleted, MarkFailed, deleteChunks. walk_ops; done.
Qed.

Lemma drain_rows_forward fs rows n : ops forward (drain_rows fs rows n).
Proof.
  revert n. induction rows as [|row rows IH]; intros n; cbn [drain_rows]; [done|].
  apply ops_bind; [apply drain_one_forward|]. intros. apply IH.
Qed.

Lemma Keep_forward ticks jid : ops forward (Keep ticks jid).
Proof. induction ticks; cbn [Keep]; [done|]. walk_ops; done. Qed.

Lemma service_prog_forward p : service_prog p -> ops forward p.
Proof.
  intros []; try apply Keep_forward; (apply ops_bind; [|done]); try apply drain_one_forward.
  - unfold CreateSession. walk_ops; done.
  - unfold HasActiveReplaceSession. walk_ops; done.
  - unfold ActiveSessionsForUser. walk_ops; done.
  - unfold StatusFor, session, buildStatus. walk_ops; done.
  - unfold PutChunk, session, buildStatus. walk_ops; done.
  - unfold ValidateComplete, session, checkChunksComplete. walk_ops; done.
  - unfold Cancel, session, deleteChunks. walk_ops; done.
  - unfold Sweep. apply ops_bind; [by apply ops_call|]. intros [ids|e]; [apply sweep_loop_forward|done].
  - unfold Enqueue, MarkQueued. walk_ops; done.
  - unfold HasLiveJob. walk_ops; done.
  - unfold LatestForSession. walk_ops; done.
  - unfold DrainJobs. apply ops_bind; [by apply ops_call|]. intros [rows|e]; [|done].
    apply ops_bind; [apply drain_rows_forward|done].
  - by apply ops_call.
Qed.

(** The clock moves forward between operations. *)
Definition clock (w w' : world B) : Prop :=
  exists t, now (store (wdb w)) <= t /\
    w' = mkWorld (Faulty (advance t (store (wdb w))) (faults (wdb w))) (blobs w) (pipe w) (calls w) (originals w).

Lemma pool_advance ps w ps' w' :
  Forall service_prog ps -> rtc (pool_step store_handler clock) (ps, w) (ps', w') ->
  sessions_advance (store (wdb w)) (store (wdb w')).
Proof.
  intros Hps Hrun.
  assert (Hpre : PreOrder (fun w w' : world B => sessions_advance (store (wdb w)) (store (wdb w')))).
  { split; [intros x; reflexivity|]. intros x y z. apply transitivity. }
  apply (pool_rel store_handler forward clock
           (fun w w' => sessions_advance (store (wdb w)) (store (wdb w')))) with (c := (ps, w)) (c' := (ps', w')).
  - intros X e s. apply advance_step.
  - intros s s' (t & _ & ->). by apply advance_same.
  - done.
  - eapply Forall_impl; [done|]. apply service_prog_forward.
Qed.

Lemma pool_queue_ok (ps : list (prog (storeE B) unit)) w ps' w' :
  rtc (pool_step store_handler clock) (ps, w) (ps', w') ->
  queue_ok (store (wdb w)) -> queue_ok (store (wdb w')).
Proof.
  intros Hrun.
  apply (pool_invariant store_handler (fun _ _ => True) clock (fun w => queue_ok (store (wdb w))))
    with (c := (ps, w)) (c' := (ps', w')).
  - intros X e s _. apply queue_ok_step.
  - by intros s s' (t & _ & ->).
  - done.
  - apply Forall_forall. intros p _. by apply ops_all.
Qed.

End SessionLife.

(** ** Lemmas: a finalize run *)

Section RunLemmas.
Context {B : Type} `{BackendLaws B}.
Implicit Types (fs : FinalizeService) (row : UploadFinalizeJob) (w : world B).
Abbreviation db w := (store (wdb w)).

(** Only states of sessions and the queue moved: blobs, ledger and stored
    originals are as they were. *)
Definition rows_only (w w' : world B) : Prop :=
  blobs w' = blobs w /\ originals w' = originals w /\ chunks (db w') = chunks (db w) /\
  forall id s', sessions (db w') !! id = Some s' ->
    exists s, sessions (db w) !! id = Some s /\ same_session s s'.

#[global] Instance rows_only_preorder : PreOrder rows_only.
Proof.
  split.
  - intros w. split_and!; try done. intros id s Hs. exists s. by repeat split.
  - intros w1 w2 w3 (?&?&?&H12) (?&?&?&H23). split_and!; [congruence..|].
    intros id s3 Hs3. destruct (H23 _ _ Hs3) as (s2 & Hs2 & ?). destruct (H12 _ _ Hs2) as (s1 & Hs1 & ?).
    exists s1. split; [done|]. unfold same_session in *. intuition congruence.
Qed.

Lemma unchanged_rows w w' : unchanged w w' -> rows_only w w'.
Proof. intros (E & ? & ? & ? & ?). split_and!; try done; rewrite E; [done|]. intros id s Hs. exists s. by repeat split. Qed.

(** A statement with such an effect, faults included. *)
Lemma on_db_rows {A} (q : DB -> result dberr A * DB) w :
  (forall d, chunks (q d).2 = chunks d /\ forall id s', sessions (q d).2 !! id = Some s' ->
     exists s, sessions d !! id = Some s /\ same_session s s') ->
  rows_only w (on_db q w).2.
Proof.
  intros Hq. destruct w as [[d fl] b p c o]. destruct (Hq d) as [Hc Hs].
  unfold on_db, exec. cbn.
  destruct fl as [|[] fl]; cbn; split_and!; try done; intros id s Hid; exists s; by repeat split.
Qed.

Lemma alter_rows st reason id0 d :
  chunks (with_sessions (alter (set_state st reason) id0) d) = chunks d /\
  forall id s', sessions (with_sessions (alter (set_state st reason) id0) d) !! id = Some s' ->
     exists s, sessions d !! id = Some s /\ same_session s s'.
Proof.
  split; [done|]. intros id s'. cbn. rewrite lookup_alter_Some.
  intros [(-> & s & Hs & ->)|[_ Hs]]; [exists s|exists s']; by repeat split.
Qed.

Lemma same_rows (d d' : DB) :
  chunks d' = chunks d /\ sessions d' = sessions d ->
  chunks d' = chunks d /\ forall id s', sessions d' !! id = Some s' ->
    exists s, sessions d !! id = Some s /\ same_session s s'.
Proof. intros [-> ->]. split; [done|]. intros i t Ht. exists t. by repeat split. Qed.

Lemma run_MarkProcessing id w : rows_only w (run store_handler (MarkProcessing id) w).2.
Proof.
  unfold MarkProcessing. rewrite run_mbind, run_call. cbn [store_handler run].
  apply on_db_rows. intros d. apply alter_rows.
Qed.

Lemma run_Enqueue id vid p cm w : rows_only w (run store_handler (Enqueue id vid p cm) w).2.
Proof.
  apply (run_rel store_handler (fun X (e : storeE B X) =>
    match e with EnqueueUploadFinalizeJob _ _ _ _ | GetLatestUploadFinalizeJob _
               | MarkUploadSessionQueued _ | DeleteUploadFinalizeJob _ => True | _ => False end) rows_only).
  - intros X e s. destruct e; try done; intros _; cbn [store_handler]; apply on_db_rows; intros d.
    + unfold q_MarkUploadSessionQueued. destruct (sessions d !! id0); [case_bool_decide|];
        [apply alter_rows|apply same_rows; done..].
    + assert (E : chunks (q_EnqueueUploadFinalizeJob id0 vid0 p0 canManage d).2 = chunks d /\
                  sessions (q_EnqueueUploadFinalizeJob id0 vid0 p0 canManage d).2 = sessions d)
        by (unfold q_EnqueueUploadFinalizeJob; by repeat case_match).
      by apply same_rows.
    + by apply same_rows.
    + by apply same_rows.
  - unfold Enqueue, MarkQueued. walk_ops; done.
Qed.

Lemma storing_ok answer vid rd w key w' :
  storing answer vid rd w = (Ok key, w') ->
  exists d, rd (blobs w) = Some (d, None) /\ originals w' = <[vid := d]> (originals w).
Proof.
  unfold storing. destruct answer as [k|e]; [|done].
  destruct (rd (blobs w)) as [[d [e|]]|]; try done. intros [= <- <-]. by exists d.
Qed.

(** A finalize that reports success read the session's chunks to a clean end
    and stored exactly that as the video's source. *)
Lemma run_runFinalize fs row w w' :
  run store_handler (runFinalize fs row) w = (None, w') ->
  exists w1 sess d,
    rows_only w w1 /\ sessions (db w1) !! jUploadID row = Some sess /\
    chunks_complete sess (chunk_rows (ID sess) (db w1)) = true /\
    assembler (jUploadID row) (totalChunks (TotalSize sess) (ChunkSize sess)) (blobs w) = Some (d, None) /\
    originals w' !! jVideoID row = Some d.
Proof.
  unfold runFinalize. rewrite run_mbind. pose proof (run_MarkProcessing (jUploadID row) w) as H1.
  set (w1 := (run store_handler (MarkProcessing (jUploadID row)) w).2) in *. rewrite run_mbind.
  destruct (run store_handler (Assemble _ _) w1) as [[[sess total]|e] w2] eqn:Ha; cbn [fst snd]; [|done].
  apply run_Assemble in Ha as (_ & Hs & Hu & -> & Hc).
  assert (Hb : blobs w2 = blobs w) by (destruct Hu as (_ & -> & _); apply H1).
  cbv zeta. rewrite run_mbind, run_call. cbn [store_handler].
  destruct (pl_GetByID _ _ _) as [owner|e]; cbn [fst snd]; [|done]. intros Hrun.
  enough (exists d, assembler (jUploadID row) (totalChunks (TotalSize sess) (ChunkSize sess)) (blobs w) = Some (d, None) /\
            originals w' !! jVideoID row = Some d) as (d & ? & ?) by (by exists w1, sess, d).
  case_bool_decide.
  - unfold runReplace in Hrun. rewrite run_mbind, run_call in Hrun. cbn [store_handler] in Hrun.
    destruct (storing _ _ _ _) as [[key|e] w3] eqn:Hst; cbn [fst snd] in Hrun; [|done].
    apply storing_ok in Hst as (d & Hd & Ho). cbn in Hd. rewrite Hb in Hd. exists d. split; [done|].
    destruct (f_onReplaced fs); [rewrite run_mbind, run_call in Hrun|]; injection Hrun as <-; cbn;
      rewrite Ho; apply lookup_insert_eq.
  - rewrite run_mbind, run_call in Hrun. cbn [store_handler] in Hrun.
    destruct (storing _ _ _ _) as [[key|e] w3] eqn:Hst; cbn [fst snd] in Hrun; [|done].
    apply storing_ok in Hst as (d & Hd & Ho). cbn in Hd. rewrite Hb in Hd. exists d. split; [done|].
    rewrite run_mbind, run_call in Hrun. cbn in Hrun. injection Hrun as _ <-. cbn.
    rewrite Ho. apply lookup_insert_eq.
Qed.


(** The message a failure leaves behind. *)
Definition failure_text (cause : failure) : string :=
  if (maxErrorLen <? String.length (f_msg cause))%nat
  then String.substring 0 maxErrorLen (f_msg cause) else f_msg cause.

Lemma substring_length n s : (String.length (String.substring 0 n s) <= n)%nat.
Proof. revert s. induction n as [|n IH]; intros [|c s]; cbn; try lia. specialize (IH s). lia. Qed.

Lemma failure_text_length cause : (String.length (failure_text cause) <= maxErrorLen)%nat.
Proof.
  unfold failure_text. destruct (maxErrorLen <? String.length (f_msg cause))%nat eqn:Hl.
  - apply substring_length.
  - by apply Nat.ltb_ge in Hl.
Qed.

(** No further try: the attempts are used up, or the failure is terminal. *)
Definition gives_up row (cause : failure) : bool := (maxAttempts <=? jAttempts row + 1) || IsTerminal cause.

Lemma run_recordFailure_dead fs row cause w :
  gives_up row cause = true -> faults (wdb w) = [] -> jobs (db w) !! jID row = Some row ->
  let w' := (run store_handler (recordFailure fs row cause) w).2 in
  jobs (db w') !! jID row =
    Some (set_job StateDead (failure_text cause) (jAttempts row + 1) (jNextAttemptAt row) row) /\
  sessions (db w') = alter (set_state StateFailed (failure_text cause)) (jUploadID row) (sessions (db w)) /\
  faults (wdb w') = [].
Proof.
  intros Hg Hf Hj. unfold recordFailure. unfold gives_up in Hg. rewrite Hg. fold (failure_text cause).
  unfold MarkFailed. rewrite !run_mbind, !run_call. cbn [store_handler].
  rewrite (on_db_fine (q_FailUploadFinalizeJob _ _)) by done. cbn [snd]. rewrite on_db_fine by done.
  cbn [q_FailUploadSession fst snd]. rewrite run_mbind. unfold deleteChunks.
  destruct (s_blobs (f_uploads fs) && s_prefixDeleter (f_uploads fs)); cbn;
    by rewrite lookup_alter_eq, Hj.
Qed.

Lemma run_recordFailure_retry fs row cause w :
  gives_up row cause = false -> faults (wdb w) = [] -> jobs (db w) !! jID row = Some row -> live row = true ->
  let w' := (run store_handler (recordFailure fs row cause) w).2 in
  jobs (db w') !! jID row =
    Some (set_job StatePending (failure_text cause) (jAttempts row + 1)
            (now (db w) + backoff (jAttempts row + 1)) row) /\
  sessions (db w') = sessions (db w) /\ blobs w' = blobs w /\ faults (wdb w') = [].
Proof.
  intros Hg Hf Hj Hl. unfold recordFailure. unfold gives_up in Hg. rewrite Hg. fold (failure_text cause).
  rewrite !run_mbind, !run_call. cbn [store_handler fst snd].
  rewrite on_db_fine by done. unfold q_RescheduleUploadFinalizeJob. rewrite Hj, Hl. cbn.
  by rewrite lookup_alter_eq, Hj.
Qed.

End RunLemmas.

(** ** Lemmas: a worker that dies *)

(** A worker claims the due job and dies; its lease lapses and the recovery
    sweep returns the row. *)
Definition crash_cycle (d : DB) : DB :=
  let d1 := (q_ClaimDueUploadFinalizeJobs 1 d).2 in
  (q_SweepExpiredUploadFinalizeJobs (advance (now d1 + lease_Duration) d1)).2.

Lemma due_singleton st limit d k j :
  jobs d = {[k := j]} -> jState j = st -> jNextAttemptAt j <= now d -> (0 < limit)%nat ->
  due st limit d = [j].
Proof.
  intros Hj Hs Hn Hl. unfold due. rewrite Hj, map_to_list_singleton. cbn [fmap list_fmap snd].
  rewrite filter_cons_True by done. rewrite filter_nil. by apply take_ge.
Qed.

Lemma crash_cycle_once d k j :
  jobs d = {[k := j]} -> jID j = k -> jState j = StatePending -> jNextAttemptAt j <= now d ->
  jobs (crash_cycle d) =
    {[k := set_job StatePending (jError j) (jAttempts j + 1) (now d + lease_Duration) j]} /\
  now (crash_cycle d) = now d + lease_Duration.
Proof.
  intros Hj Hid Hs Hn. unfold crash_cycle.
  set (j1 := set_job StateRunning (jError j) (jAttempts j) (now d + lease_Duration) j).
  assert (H1 : jobs (q_ClaimDueUploadFinalizeJobs 1 d).2 = {[k := j1]}).
  { cbn. rewrite (due_singleton _ _ _ k j) by (done || lia). cbn. rewrite Hid, Hj.
    by rewrite alter_singleton_eq. }
  unfold q_SweepExpiredUploadFinalizeJobs. cbv zeta. cbn [snd].
  rewrite (due_singleton _ _ _ k j1); [|exact H1|done|cbn; lia|lia].
  split; [|done]. cbn. rewrite Hid. cbn in H1. rewrite H1. by rewrite alter_singleton_eq.
Qed.

(** ** Concrete runs *)

Definition demo_fs : FinalizeService := mkFinalize demo_svc false None.

(** The uploaded demo session, its completion accepted. *)
Definition demo_queued : world LocalFS :=
  (run store_handler (Enqueue demo_id demo_video "upload" false) demo_uploaded).2.

(** The job the demo completion queued. *)
Definition demo_job : UploadFinalizeJob :=
  mkJob "j" demo_id demo_video PurposeUpload false StatePending "" 0 1 1.

(** A cancelled session whose completion was accepted at the same time and
    whose job could not be removed. *)
Definition demo_leftover : world LocalFS :=
  let w := demo_cancelled in
  mkWorld (Faulty (with_jobs (fun _ => {["j"%string := demo_job]}) (store (wdb w))) [])
    (blobs w) (pipe w) (calls w) (originals w).

Lemma demo_queue_ok st : queue_ok (demo_db st).
Proof. split; [intros k j Hj|intros k1 k2 j1 j2 Hj]; cbn in Hj; by apply lookup_empty_Some in Hj. Qed.

(** ** Properties *)


(** Two completions and a worker on one session. *)
Definition demo_race : list (prog (storeE LocalFS) unit) :=
  [ (_ ← Enqueue demo_id demo_video "upload" false; mret tt);
    (_ ← Enqueue demo_id demo_video "upload" false; mret tt);
    (_ ← DrainJobs demo_fs 10; mret tt) ].

Lemma demo_race_services : Forall service_prog demo_race.
Proof. repeat constructor. Qed.

Definition demo_raced : list (prog (storeE LocalFS) unit) * world LocalFS :=
  schedule store_handler [0; 1; 2; 1; 0; 2; 2; 2]%nat demo_race demo_uploaded.

Lemma demo_raced_run :
  rtc (pool_step store_handler clock) (demo_race, demo_uploaded) (demo_raced.1, demo_raced.2).
Proof. rewrite <- surjective_pairing. apply schedule_pool. Qed.

Lemma demo_uploaded_jobs : jobs (store (wdb demo_uploaded)) = ∅.
Proof. vm_compute. reflexivity. Qed.


(** A session never returns to 'active' and never becomes another one.
    Under every interleaving of requests, workers, renewals and sweeps, with
    faults, a session id that exists at the end existed at the start with the
    same owner, video, file name, sizes, purpose and expiry; and a session that
    was queued, processing, completed, failed or cancelled is not active. *)
Theorem session_never_reactivated `{Backend B} (ps ps' : list (prog (storeE B) unit)) (w w' : world B)
    (k : nat) (s' : UploadSession) :
  Forall service_prog ps ->
  rtc (pool_step store_handler clock) (ps, w) (ps', w') ->
  Inj (=) (=) (gen (store (wdb w))) -> (k < drawn (store (wdb w)))%nat ->
  sessions (store (wdb w')) !! gen (store (wdb w)) k = Some s' ->
  exists s, sessions (store (wdb w)) !! gen (store (wdb w)) k = Some s /\ same_session s s' /\
    (State s <> StateActive -> State s' <> StateActive).
Proof. intros Hps Hrun Hinj Hk Hs'. by apply (pool_advance ps w ps' w' Hps Hrun). Qed.

Lemma demo_gen_inj : Inj (=) (=) demo_gen.
Proof.
  assert (Hlen : forall n, String.length (demo_gen n) = S n).
  { unfold demo_gen. induction n as [|n IH]; [done|].
    change (S (String.length (Nat.iter n (String.append "j") "j"%string)) = S (S n)). by rewrite IH. }
  intros m n He. apply (f_equal String.length) in He. rewrite !Hlen in He. lia.
Qed.

(** A world whose one session is the generator's first id. *)
Definition demo_drawn : world LocalFS :=
  mkWorld (Faulty (mkDB {[demo_video := demo_channel]} {["j"%string := demo_session StateCancelled]} ∅ ∅ 1 demo_gen 1) [])
    (mkLocalFS (mkLocal ∅ ∅) []) demo_pipe 0 ∅.

Definition demo_drawn_end : list (prog (storeE LocalFS) unit) * world LocalFS :=
  schedule store_handler [0; 0; 0; 0]%nat [(_ ← Enqueue "j" demo_video "upload" false; mret tt)] demo_drawn.

Lemma session_never_reactivated_witness :
  exists s', sessions (store (wdb demo_drawn_end.2)) !! "j"%string = Some s' /\ State s' <> StateActive.
Proof.
  assert (Hs' : exists s', sessions (store (wdb demo_drawn_end.2)) !! "j"%string = Some s') by (vm_compute; eauto).
  destruct Hs' as [s' Hs']. exists s'. split; [exact Hs'|].
  destruct (session_never_reactivated [(_ ← Enqueue "j" demo_video "upload" false; mret tt)]
    demo_drawn_end.1 demo_drawn demo_drawn_end.2 0 s') as (s & Hs & _ & Hst).
  - repeat constructor.
  - rewrite <- surjective_pairing. apply schedule_pool.
  - exact demo_gen_inj.
  - cbn. lia.
  - exact Hs'.
  - apply Hst. vm_compute in Hs. injection Hs as <-. discriminate.
Defined.

(** A finalize that reports success published the whole file. When
    [runFinalize] returns no failure for a session whose ledger rows are backed
    by blobs, what it stored as the video's source is the concatenation of the
    session's chunks in index order, of exactly the declared total size. *)
Theorem runFinalize_stores_file `{BackendLaws B} (fs : FinalizeService) (row : UploadFinalizeJob)
    (w w' : world B) :
  keyed (store (wdb w)) -> ledger_backed (jUploadID row) w ->
  (forall sess, sessions (store (wdb w)) !! jUploadID row = Some sess ->
     sizes_ok (TotalSize sess) (ChunkSize sess)) ->
  run store_handler (runFinalize fs row) w = (None, w') ->
  exists sess d, sessions (store (wdb w)) !! jUploadID row = Some sess /\
    originals w' !! jVideoID row = Some d /\
    d = concat (map (chunk_bytes (blobs w) (jUploadID row))
                  (seqZ 0 (totalChunks (TotalSize sess) (ChunkSize sess)))) /\
    Z.of_nat (length d) = TotalSize sess.
Proof.
  intros Hk Hback Hok Hrun. destruct (run_runFinalize _ _ _ _ Hrun) as (w1 & s1 & d & Hro & Hs1 & Hc & Ha & Ho).
  destruct Hro as (Eb & _ & Ec & Hrows). destruct (Hrows _ _ Hs1) as (s & Hs & Hsame).
  destruct (Hk _ _ Hs) as [Hid Hp]. destruct Hsame as (Eid & _ & _ & _ & Ets & Ecs & _).
  specialize (Hok _ Hs). rewrite <- Ets, <- Ecs in Hok.
  destruct (complete_assembles s1 w1) as (d' & Ha' & Hd' & Hl').
  - by rewrite Eid, Hid.
  - done.
  - rewrite Eid, Hid. unfold ledger_backed. rewrite Ec, Eb. exact Hback.
  - done.
  - rewrite Eid, Hid, Eb in Ha', Hd'. rewrite Ha in Ha'. injection Ha' as <-.
    exists s, d. by rewrite <- Ets, <- Ecs.
Qed.

Lemma demo_queued_keyed : keyed (store (wdb demo_queued)).
Proof.
  intros id s Hs. apply elem_of_map_to_list in Hs. vm_compute in Hs.
  apply elem_of_cons in Hs as [Hs|Hs]; [injection Hs as -> ->; split; reflexivity|].
  by apply not_elem_of_nil in Hs.
Qed.

Lemma demo_queued_backed : ledger_backed demo_id demo_queued.
Proof.
  intros n size Hn. apply elem_of_map_to_list in Hn. vm_compute in Hn.
  repeat (apply elem_of_cons in Hn as [Hn|Hn]; [injection Hn as -> ->;
    eexists; split; vm_compute; reflexivity|]).
  by apply not_elem_of_nil in Hn.
Qed.

Lemma demo_queued_session : sessions (store (wdb demo_queued)) !! demo_id = Some (demo_session StateQueued).
Proof. vm_compute. reflexivity. Qed.

Definition demo_finalized : world LocalFS := (run store_handler (runFinalize demo_fs demo_job) demo_queued).2.

Lemma demo_finalize_run : run store_handler (runFinalize demo_fs demo_job) demo_queued = (None, demo_finalized).
Proof. unfold demo_finalized. apply run_answer. vm_compute. reflexivity. Qed.

Lemma runFinalize_stores_file_witness :
  exists d, originals demo_finalized !! demo_video = Some d /\ Z.of_nat (length d) = 10.
Proof.
  destruct (runFinalize_stores_file demo_fs demo_job demo_queued demo_finalized) as (sess & d & Hs & Ho & _ & Hl).
  - exact demo_queued_keyed.
  - exact demo_queued_backed.
  - intros sess Hs. change (jUploadID demo_job) with demo_id in Hs. rewrite demo_queued_session in Hs.
    injection Hs as <-. exact demo_sizes.
  - exact demo_finalize_run.
  - change (jUploadID demo_job) with demo_id in Hs. rewrite demo_queued_session in Hs. injection Hs as <-.
    exists d. exact (conj Ho Hl).
Defined.

(** From chunks to published file. A file whose chunks are uploaded in
    any order and pieces by successful requests, whose completion is then
    enqueued and whose finalize reports success, is stored byte for byte as the
    video's source. *)
Theorem upload_finalize_end_to_end `{BackendLaws B} (svc : Service) (fs : FinalizeService)
    (uploadID userID vid : uuid) (purp : string) (cm : bool) (f : bytes) (ps : list (Z * reader))
    (sess : UploadSession) (row : UploadFinalizeJob) (w w1 w2 w3 : world B) :
  plain uploadID = true -> sessions (store (wdb w)) !! uploadID = Some sess ->
  TotalSize sess = Z.of_nat (length f) -> sizes_ok (TotalSize sess) (ChunkSize sess) ->
  Forall (fun p => data p.2 = slice f (ChunkSize sess) p.1) ps ->
  (forall n, 0 <= n < totalChunks (TotalSize sess) (ChunkSize sess) -> n ∈ ps.*1) ->
  run store_handler (put_all svc uploadID userID ps) w = (true, w1) ->
  (run store_handler (Enqueue uploadID vid purp cm) w1).2 = w2 ->
  jUploadID row = uploadID -> jVideoID row = vid ->
  run store_handler (runFinalize fs row) w2 = (None, w3) ->
  originals w3 !! vid = Some f.
Proof.
  intros Hp Hs Hts Hok Hps Hall Hput <- Hid Hvid Hrun.
  destruct (run_put_all _ _ _ _ _ _ _ Hp Hps Hput) as (Hsess & _).
  pose proof (run_Enqueue uploadID vid purp cm w1) as (Eb & _ & _ & Hrows).
  destruct (run_runFinalize _ _ _ _ Hrun) as (w' & s' & d & (_ & _ & _ & Hrows') & Hs' & _ & Ha & Ho).
  destruct (Hrows' _ _ Hs') as (s2 & Hs2 & S2). rewrite Hid in *. destruct (Hrows _ _ Hs2) as (s1 & Hs1 & S1).
  rewrite Hsess, Hs in Hs1. injection Hs1 as <-.
  destruct S2 as (_ & _ & _ & _ & E1 & E2 & _), S1 as (_ & _ & _ & _ & F1 & F2 & _).
  rewrite E1, E2, F1, F2, Eb in Ha. rewrite <- Hvid. rewrite Ho. f_equal.
  pose proof (totalChunks_bounds _ _ Hok) as (_ & _ & Hle). destruct Hok as (_ & Hcs & _).
  assert (Hasm := uploads_assemble svc uploadID userID f (ChunkSize sess)
    (totalChunks (TotalSize sess) (ChunkSize sess)) ps w w1 Hp Hcs ltac:(rewrite <- Hts; exact Hle) Hps Hall Hput).
  congruence.
Qed.

Lemma upload_finalize_end_to_end_witness : originals demo_finalized !! demo_video = Some demo_file.
Proof.
  apply (upload_finalize_end_to_end demo_svc demo_fs demo_id demo_user demo_video "upload" false demo_file
           demo_puts (demo_session StateActive) demo_job (demo_world StateActive) demo_uploaded demo_queued
           demo_finalized).
  - reflexivity.
  - vm_compute. reflexivity.
  - reflexivity.
  - exact demo_sizes.
  - repeat constructor.
  - intros n Hn. change (totalChunks (TotalSize (demo_session StateActive)) (ChunkSize (demo_session StateActive))) with 3 in Hn.
    cbn. assert (n = 0 \/ n = 1 \/ n = 2) as [-> |[-> | ->]] by lia; repeat constructor.
  - unfold demo_uploaded. apply run_answer. vm_compute. reflexivity.
  - reflexivity.
  - reflexivity.
  - reflexivity.
  - exact demo_finalize_run.
Defined.

(** The retry ladder. When a running job fails and the store answers, its
    attempt counter goes up by one and its stored reason fits the column's 300
    bytes. Below the fifth attempt it is pending again, due exactly one
    exponential backoff later (between a minute and an hour), with the session
    and its chunks untouched; at the fifth attempt, or on a terminal refusal,
    it is dead and the session is marked failed with the same reason. *)
Theorem recordFailure_ladder `{BackendLaws B} (fs : FinalizeService) (row : UploadFinalizeJob)
    (cause : failure) (w : world B) :
  faults (wdb w) = [] -> jobs (store (wdb w)) !! jID row = Some row -> jState row = StateRunning ->
  let w' := (run store_handler (recordFailure fs row cause) w).2 in
  exists j', jobs (store (wdb w')) !! jID row = Some j' /\
    jAttempts j' = jAttempts row + 1 /\ (String.length (jError j') <= 300)%nat /\
    if (5 <=? jAttempts row + 1) || IsTerminal cause
    then jState j' = StateDead /\
         sessions (store (wdb w')) =
           alter (set_state StateFailed (jError j')) (jUploadID row) (sessions (store (wdb w)))
    else jState j' = StatePending /\
         jNextAttemptAt j' = now (store (wdb w)) + backoff (jAttempts row + 1) /\
         Minute <= jNextAttemptAt j' - now (store (wdb w)) <= Hour /\
         sessions (store (wdb w')) = sessions (store (wdb w)) /\ blobs w' = blobs w.
Proof.
  intros Hf Hj Hr w'. pose proof (failure_text_length cause) as Hlen.
  change ((5 <=? jAttempts row + 1) || IsTerminal cause) with (gives_up row cause).
  destruct (gives_up row cause) eqn:Hg.
  - destruct (run_recordFailure_dead fs row cause w Hg Hf Hj) as (Hj' & Hs & _).
    eexists. split; [exact Hj'|]. by split_and!.
  - destruct (run_recordFailure_retry fs row cause w Hg Hf Hj) as (Hj' & Hs & Hb & _);
      [unfold live; by rewrite Hr|].
    assert (Hbk : Minute <= backoff (jAttempts row + 1) <= Hour).
    { apply Backoff_bounds; unfold baseBackoff, maxBackoff, Hour, Minute, Second, Millisecond; lia. }
    eexists. split; [exact Hj'|]. cbn. split_and!; try done; lia.
Qed.

(** The demo session with its job claimed. *)
Definition demo_claimed : world LocalFS :=
  (run store_handler (call (ClaimDueUploadFinalizeJobs 10)) demo_queued).2.

Lemma recordFailure_ladder_witness :
  exists row j', jobs (store (wdb demo_claimed)) !! "j"%string = Some row /\
    jobs (store (wdb (run store_handler (recordFailure demo_fs row internalf) demo_claimed).2)) !! "j"%string = Some j' /\
    jState j' = StatePending /\ jAttempts j' = 1.
Proof.
  pose (row := set_job StateRunning "" 0 (1 + lease_Duration) demo_job).
  assert (Hrow : jobs (store (wdb demo_claimed)) !! "j"%string = Some row) by (vm_compute; reflexivity).
  destruct (recordFailure_ladder demo_fs row internalf demo_claimed) as (j' & Hj' & Ha & _ & Hst);
    [vm_compute; reflexivity|exact Hrow|reflexivity|].
  exists row, j'. split; [exact Hrow|]. split; [exact Hj'|]. split; [apply Hst|exact Ha].
Defined.

(** A job whose worker dies every time is never dead-lettered. However
    many times the claimed worker disappears and the recovery sweep returns the
    row, the job is pending again with its attempt counter one higher: nothing
    on the claim or the sweep reads the counter, so it passes the limit of five
    and goes on (the statement's own comment says it dead-letters). *)
Theorem crash_loop_never_dead_letters (n : nat) (d : DB) (k : uuid) (j : UploadFinalizeJob) :
  jobs d = {[k := j]} -> jID j = k -> jState j = StatePending -> jNextAttemptAt j <= now d ->
  exists j', jobs (Nat.iter n crash_cycle d) = {[k := j']} /\
    jState j' = StatePending /\ jNextAttemptAt j' <= now (Nat.iter n crash_cycle d) /\
    jAttempts j' = jAttempts j + Z.of_nat n.
Proof.
  intros Hj Hid Hs Hn.
  enough (exists j', jobs (Nat.iter n crash_cycle d) = {[k := j']} /\ jID j' = k /\
    jState j' = StatePending /\ jNextAttemptAt j' <= now (Nat.iter n crash_cycle d) /\
    jAttempts j' = jAttempts j + Z.of_nat n) as (j' & ? & _ & ?) by eauto.
  induction n as [|n (j1 & Hj1 & Hid1 & Hs1 & Hn1 & Ha1)].
  { exists j. split_and!; (done || lia). }
  change (Nat.iter (S n) crash_cycle d) with (crash_cycle (Nat.iter n crash_cycle d)).
  destruct (crash_cycle_once _ k j1 Hj1 Hid1 Hs1 Hn1) as [-> ->].
  eexists. split; [done|]. cbn [jID jState jNextAttemptAt jAttempts set_job].
  split_and!; (done || lia).
Qed.

Lemma crash_loop_never_dead_letters_witness :
  exists j', jobs (Nat.iter 9 crash_cycle (store (wdb demo_leftover))) = {["j"%string := j']} /\
    jState j' = StatePending /\ jAttempts j' = 9.
Proof.
  destruct (crash_loop_never_dead_letters 9 (store (wdb demo_leftover)) "j" demo_job) as (j' & Hj & Hs & _ & Ha);
    [reflexivity|reflexivity|reflexivity|vm_compute; discriminate|].
  exists j'. exact (conj Hj (conj Hs Ha)).
Defined.

(** A leftover job revives a cancelled session. The worker marks the
    session processing before it assembles, without looking at its state, so
    [Assemble] (which refuses a session that is not being finalized) accepts
    the one the user cancelled: the run fails on the deleted chunks with the
    generic, retried failure, and the session is 'processing' again. *)
Theorem leftover_job_revives_cancelled_session :
  sessions (store (wdb demo_leftover)) !! demo_id = Some (demo_session StateCancelled) /\
  (run store_handler (Assemble demo_svc demo_id) demo_leftover).1 = Err UErrNotActive /\
  (run store_handler (runFinalize demo_fs demo_job) demo_leftover).1 = Some internalf /\
  sessions (store (wdb (run store_handler (runFinalize demo_fs demo_job) demo_leftover).2)) !! demo_id =
    Some (demo_session StateProcessing).
Proof.
  split; [vm_compute; reflexivity|]. split; [vm_compute; reflexivity|].
  split; vm_compute; reflexivity.
Qed.

(** A fast worker turns an accepted completion into a refusal. When a
    worker claims and finishes the job between the insert and the session's
    compare-and-set, the set finds the session no longer active, the finished
    job is deleted and the caller is told the session is not active, although
    the file is published and the session completed. *)
Theorem enqueue_race_refuses_published_upload :
  let c := schedule store_handler (0 :: repeat 1 20 ++ [0; 0; 0])%nat
    [ (r ← Enqueue demo_id demo_video "upload" false;
       mret (match r with Err FErrNotActive => true | _ => false end));
      (n ← DrainJobs demo_fs 10; mret (bool_decide (n = Ok 1))) ] demo_uploaded in
  c.1 = [Ret true; Ret true] /\
  originals c.2 !! demo_video = Some demo_file /\
  sessions (store (wdb c.2)) !! demo_id = Some (demo_session StateCompleted) /\
  jobs (store (wdb c.2)) = ∅.
Proof.
  cbv zeta. split; [vm_compute; reflexivity|]. split; [vm_compute; reflexivity|].
  split; vm_compute; reflexivity.
Qed.
