(* ===== verification/UploadFlow.v ===== *)
(** * From the first chunk to the published video

    The upload service, the finalize queue and its worker composed: a client
    that sends the chunks of a file, completes the upload and waits for one
    drain of the queue gets the file published. Where the other files say what
    holds when a call succeeds, this one shows that the calls do succeed, on a
    store that answers, a backend that takes the writes and a pipeline that
    accepts the file. *)
From S2P Require Import Prelude.
From S2P Require Import Retry.
From S2P Require Import Storage.
From S2P Require Import UploadStore.
From S2P Require Import Upload.
From S2P Require Import UploadFinalize.

Local Open Scope Z_scope.

(** ** A backend that keeps taking the chunks of a session *)

Section Writable.
Context {B : Type} `{Backend B}.

(** What writes and deletions at the session's chunk keys make of a backend. *)
Inductive chunk_writes (id : uuid) : B -> B -> Prop :=
| no_write b : chunk_writes id b b
| then_put b b' n r : 0 <= n -> chunk_writes id b b' -> chunk_writes id b (be_put (chunkKey id n) r b').2
| then_delete b b' n : 0 <= n -> chunk_writes id b b' -> chunk_writes id b (be_delete (chunkKey id n) b').2.

#[global] Instance chunk_writes_preorder id : PreOrder (chunk_writes id).
Proof.
  split; [intros b; constructor|]. intros b1 b2 b3 H12 H23. induction H23; [done|apply then_put; auto|apply then_delete; auto].
Qed.

Definition writable (id : uuid) (b : B) : Prop :=
  forall b' n, chunk_writes id b b' -> 0 <= n -> accepts (chunkKey id n) b'.

Lemma writable_after id b b' : writable id b -> chunk_writes id b b' -> writable id b'.
Proof. intros Hw Hb b2 n Hb2. apply Hw. by etrans. Qed.

End Writable.

(** A local tree takes them when no ancestor of the chunks is a file and no
    chunk's place is taken by a directory. *)
Definition chunk_room (id : uuid) (b : LocalFS) : Prop :=
  os_faults b = [] /\ blocked (tree b) ["uploads"%string; id; EmptyString] = false /\
  forall n, 0 <= n -> ["uploads"%string; id; pretty n] ∉ dirs (tree b).

Lemma blocked_ext l l' p :
  (forall q, q ∈ ancestors p -> files l' !! q = files l !! q) -> blocked l' p = blocked l p.
Proof.
  intros He. unfold blocked. induction (ancestors p) as [|q qs IH]; [done|]. cbn.
  rewrite IH by (intros; apply He; by right). unfold is_file. by rewrite He by left.
Qed.

Lemma chunk_not_above id (n : Z) q :
  q ∈ ancestors ["uploads"%string; id; EmptyString] -> ["uploads"%string; id; pretty n] <> q.
Proof. cbn. rewrite !elem_of_cons. intros [->|[->|[->|[]%elem_of_nil]]]; discriminate. Qed.

Lemma chunk_room_put id b n r :
  plain id = true -> 0 <= n -> chunk_room id b -> chunk_room id (be_put (chunkKey id n) r b).2.
Proof.
  intros Hid Hn (Hf & Hb & Hd). unfold chunk_room, be_put, local_backend. cbn [os_faults tree snd].
  rewrite Hf. split; [done|]. unfold Local_Put.
  rewrite (canonical_resolve _ (chunkKey_canonical id n Hid Hn)), chunkKey_split by done.
  assert (Hne : forall m, 0 <= m -> ["uploads"%string; id; pretty m] ∉ dirs (tree b) ∪
                  list_to_set (ancestors ["uploads"%string; id; pretty n])).
  { intros m Hm. specialize (Hd m Hm). cbn. rewrite !elem_of_union, !elem_of_singleton. intuition discriminate. }
  assert (Hroom : forall f', (forall q, q ∈ ancestors ["uploads"%string; id; EmptyString] -> f' !! q = files (tree b) !! q) ->
    blocked (mkLocal f' (dirs (tree b) ∪ list_to_set (ancestors ["uploads"%string; id; pretty n])))
      ["uploads"%string; id; EmptyString] = false).
  { intros f' Hf'. etrans; [|exact Hb]. by apply blocked_ext. }
  repeat case_match; cbn [snd dirs files]; (split; [|exact Hd || exact Hne]); try exact Hb;
    apply Hroom; intros q Hin; rewrite ?lookup_delete_ne, ?lookup_insert_ne by (by apply (chunk_not_above id n)); done.
Qed.

Lemma chunk_room_delete id b n :
  plain id = true -> 0 <= n -> chunk_room id b -> chunk_room id (be_delete (chunkKey id n) b).2.
Proof.
  intros Hid Hn (Hf & Hb & Hd). unfold chunk_room, be_delete, local_backend. cbn [os_faults tree snd].
  split; [done|]. unfold Local_Delete.
  rewrite (canonical_resolve _ (chunkKey_canonical id n Hid Hn)), chunkKey_split by done.
  repeat case_match; cbn [snd dirs files]; (split; [|set_solver]); try exact Hb.
  etrans; [|exact Hb]. apply blocked_ext. intros q Hin. apply lookup_delete_ne. by apply (chunk_not_above id n).
Qed.

Lemma local_writable id b : plain id = true -> chunk_room id b -> writable id b.
Proof.
  intros Hid Hr b' n Hb' Hn.
  assert (Hr' : chunk_room id b') by (induction Hb'; [done|by apply chunk_room_put; auto|by apply chunk_room_delete; auto]).
  destruct Hr' as (Hf & Hb & Hd). intros r. unfold be_put, local_backend. cbn [fst]. rewrite Hf.
  apply (Local_Put_accepts _ _ _ ["uploads"%string; id; pretty n]).
  - by rewrite (canonical_resolve _ (chunkKey_canonical id n Hid Hn)), chunkKey_split.
  - exact Hb.
  - specialize (Hd n Hn). cbn. rewrite !elem_of_union, !elem_of_singleton. intuition discriminate.
Qed.

(** ** A store that answers *)

Section Flow.
Context {B : Type} `{BackendLaws B}.
Implicit Types (svc : Service) (w : world B) (uploadID userID : uuid).
Abbreviation db w := (store (wdb w)).

(** Without faults to come, none come. *)
Lemma fine_step X (e : storeE B X) w : faults (wdb w) = [] -> faults (wdb (store_handler X e w).2) = [].
Proof.
  intros Hf. destruct e; cbn [store_handler]; try (rewrite on_db_fine by done); try done;
    unfold storing; repeat case_match; done.
Qed.

Lemma fine_run {A} (p : prog (storeE B) A) w :
  faults (wdb w) = [] -> faults (wdb (run store_handler p w).2) = [].
Proof.
  apply (run_invariant store_handler (fun _ _ => True) (fun w => faults (wdb w) = [])).
  - intros X e w' _. apply fine_step.
  - by apply ops_all.
Qed.

(** Only blobs and the chunk ledger moved. *)
Definition around_chunks (w w' : world B) : Prop :=
  sessions (db w') = sessions (db w) /\ jobs (db w') = jobs (db w) /\ videos (db w') = videos (db w) /\
  now (db w') = now (db w) /\ gen (db w') = gen (db w) /\ drawn (db w') = drawn (db w) /\ pipe w' = pipe w.

#[local] Instance around_chunks_preorder : PreOrder around_chunks.
Proof. split; [done|]. intros x y z. unfold around_chunks. intuition congruence. Qed.

Lemma PutChunk_around svc uploadID userID n r w :
  around_chunks w (run store_handler (PutChunk svc uploadID userID n r) w).2.
Proof.
  apply (run_rel store_handler (fun X (e : storeE B X) =>
    match e with GetUploadSession _ | BlobPut _ _ | BlobDelete _ | UpsertUploadChunk _ _ _ | ListUploadChunks _ => True
               | _ => False end) around_chunks).
  - intros X e w'. destruct w' as [[d fl] b p c o]. destruct e; try done; intros _;
      cbn [store_handler]; unfold on_db, exec, around_chunks; destruct fl as [|[] fl]; cbn;
      unfold q_UpsertUploadChunk; repeat case_match; done.
  - unfold PutChunk, session, buildStatus. walk_ops; done.
Qed.

Definition same_key_writes (id : uuid) (w w' : world B) : Prop := chunk_writes id (blobs w) (blobs w').

#[local] Instance same_key_writes_preorder id : PreOrder (same_key_writes id).
Proof. unfold same_key_writes. split; [intros ?; reflexivity|intros ???; apply transitivity]. Qed.

Lemma PutChunk_writes svc uploadID userID n r w :
  chunk_writes uploadID (blobs w) (blobs (run store_handler (PutChunk svc uploadID userID n r) w).2).
Proof.
  apply (run_rel store_handler (fun X (e : storeE B X) =>
    match e with
    | GetUploadSession _ | UpsertUploadChunk _ _ _ | ListUploadChunks _ => True
    | BlobPut k _ | BlobDelete k => exists m, 0 <= m /\ k = chunkKey uploadID m
    | _ => False
    end) (same_key_writes uploadID)).
  - intros X e w'. destruct e; try done; cbn [store_handler]; try (intros _; exact (no_write _ _));
      intros (m & Hm & ->); cbn; [apply then_put|apply then_delete]; done || constructor.
  - unfold PutChunk, session, buildStatus. destruct (negb _); [done|]. 
    apply ops_bind; [walk_ops; done|]. intros [sess|e]; [|done]. destruct (negb _); [done|].
    destruct (chunkExpectedSize _ _ n) as [e|] eqn:He; [|done].
    apply chunkExpectedSize_range in He as [Hn _]. cbv zeta. walk_ops; try done; eauto.
Qed.

(** A body that the session waits for is accepted. *)
Lemma PutChunk_accepted svc uploadID userID n r w sess :
  s_blobs svc = true -> plain uploadID = true -> faults (wdb w) = [] -> writable uploadID (blobs w) ->
  sessions (db w) !! uploadID = Some sess -> UserID sess = userID -> State sess = StateActive ->
  sizes_ok (TotalSize sess) (ChunkSize sess) -> in_int32 n -> rend r = None ->
  chunkExpectedSize (TotalSize sess) (ChunkSize sess) n = Some (Z.of_nat (length (data r))) ->
  exists st w', run store_handler (PutChunk svc uploadID userID n r) w = (Ok st, w') /\
    faults (wdb w') = [] /\ writable uploadID (blobs w') /\ around_chunks w w' /\
    chunk_stored w w' uploadID n (data r).
Proof.
  intros Hb Hid Hf Hw Hs Hu Ha Hok Hn Hr He.
  pose proof (chunkExpectedSize_inv _ _ _ _ Hok He) as [Hn0 _].
  pose proof (put_outcome_correct svc uploadID userID n r w Hf) as Ho.
  unfold put_outcome in Ho. rewrite Hb, Hs, He, Hr in Ho. cbn [negb] in Ho.
  rewrite !bool_decide_eq_true_2, Z.ltb_irrefl, Z.eqb_refl in Ho by done. cbn [negb] in Ho.
  specialize (Ho (Hw (blobs w) n (no_write _ _) ltac:(lia)) Hn ltac:(by intros ? [= <-])).
  pose proof (fine_run (PutChunk svc uploadID userID n r) w Hf) as Hf'.
  pose proof (PutChunk_around svc uploadID userID n r w) as Har.
  pose proof (PutChunk_writes svc uploadID userID n r w) as Hbl.
  destruct (run store_handler (PutChunk svc uploadID userID n r) w) as [[st|e] w'] eqn:Hrun; [|done].
  exists st, w'. split_and!; try done.
  - by eapply writable_after.
  - by destruct (run_PutChunk _ _ _ _ _ _ _ _ Hid Hrun) as (_ & _ & _ & _ & _ & _ & Hst).
Qed.

(** The readers of a list deliver the slices of a file that their indices
    stand for. *)
Definition slices_of (f : bytes) (cs : Z) (ps : list (Z * reader)) : Prop :=
  Forall (fun p => rend p.2 = None /\ data p.2 = slice f cs p.1 /\
                   0 <= p.1 < totalChunks (Z.of_nat (length f)) cs /\ in_int32 p.1) ps.

Lemma slice_expected f cs n :
  sizes_ok (Z.of_nat (length f)) cs -> 0 <= n < totalChunks (Z.of_nat (length f)) cs ->
  chunkExpectedSize (Z.of_nat (length f)) cs n = Some (Z.of_nat (length (slice f cs n))).
Proof.
  intros Hok Hn. rewrite chunkExpectedSize_eq by done.
  pose proof (totalChunks_bounds _ _ Hok) as (H1 & H2 & H3). destruct Hok as (Ht & Hc & Hm).
  destruct (Z.leb_spec 0 n); [|lia]. destruct (Z.ltb_spec n (totalChunks (Z.of_nat (length f)) cs)); [|lia].
  cbn [andb]. f_equal. unfold slice. rewrite length_take, length_drop.
  destruct (Z.eqb_spec n (totalChunks (Z.of_nat (length f)) cs - 1)); nia.
Qed.

(** The whole list is accepted, and the ledger has its rows. *)
Lemma put_all_accepted svc uploadID userID f sess ps w :
  s_blobs svc = true -> plain uploadID = true -> faults (wdb w) = [] -> writable uploadID (blobs w) ->
  sessions (db w) !! uploadID = Some sess -> UserID sess = userID -> State sess = StateActive ->
  TotalSize sess = Z.of_nat (length f) -> sizes_ok (TotalSize sess) (ChunkSize sess) ->
  slices_of f (ChunkSize sess) ps ->
  exists w', run store_handler (put_all svc uploadID userID ps) w = (true, w') /\
    faults (wdb w') = [] /\ around_chunks w w' /\
    (forall n e, n ∈ ps.*1 \/ chunks (db w) !! (uploadID, n) = Some e ->
       chunkExpectedSize (TotalSize sess) (ChunkSize sess) n = Some e ->
       chunks (db w') !! (uploadID, n) = Some e).
Proof.
  intros Hb Hid Hf Hw Hs Hu Ha Hts Hok Hps. revert w Hf Hw Hs.
  induction Hps as [|[n r] ps (Hr & Hd & Hn & Hn32) Hps IH]; intros w Hf Hw Hs; cbn [put_all].
  { exists w. split_and!; try done. intros n e [[]%elem_of_nil|Hc] _. done. }
  cbn [fst snd] in *. rewrite <- Hts in Hn.
  destruct (PutChunk_accepted svc uploadID userID n r w sess) as (st & w1 & Hrun & Hf1 & Hw1 & Har & Hch & _); try done.
  { rewrite Hd, Hts. apply slice_expected; [by rewrite <- Hts|by rewrite <- Hts]. }
  rewrite run_mbind, Hrun. cbn [fst snd].
  destruct (IH w1 Hf1 Hw1) as (w' & -> & Hf' & Har' & Hrows); [by destruct Har as (-> & _)|].
  exists w'. split_and!; try done; [by etrans|].
  intros m e Hm He. apply Hrows; [|done]. rewrite Hch, (int32_id n) by done.
  destruct (decide (m = n)) as [->|Hne].
  - right. rewrite lookup_insert_eq. rewrite Hd, <- He, Hts. symmetry. apply slice_expected; by rewrite <- Hts.
  - rewrite lookup_insert_ne by congruence. destruct Hm as [Hm|Hm]; [left|by right]. cbn in Hm. set_solver.
Qed.

(** A ledger with every row is complete. *)
Lemma chunks_complete_intro sess (d : DB) :
  sizes_ok (TotalSize sess) (ChunkSize sess) ->
  (forall n e, chunkExpectedSize (TotalSize sess) (ChunkSize sess) n = Some e -> chunks d !! (ID sess, n) = Some e) ->
  chunks_complete sess (chunk_rows (ID sess) d) = true.
Proof.
  intros Hok Hall. unfold chunks_complete. apply forallb_forall. intros n Hn%list_elem_of_In%elem_of_seqZ.
  destruct (chunkExpectedSize_some _ _ n Hok ltac:(lia)) as (e & He & _). rewrite He.
  rewrite (elem_of_list_to_map_1' _ n e); [apply Z.eqb_refl| |].
  - intros e' Hin. rewrite elem_of_reverse in Hin. apply chunk_rows_elem in Hin. rewrite (Hall _ _ He) in Hin. congruence.
  - rewrite elem_of_reverse. by apply chunk_rows_elem, Hall.
Qed.

Abbreviation idle d b p c o := (mkWorld (Faulty d []) b p c o).

Ltac answer := rewrite ?run_mbind, ?run_call; cbn [store_handler]; rewrite ?on_db_fine by done; cbn [fst snd wdb store blobs pipe calls originals].

Lemma ValidateComplete_ok svc uploadID userID sess d b p c o :
  s_blobs svc = true -> sessions d !! uploadID = Some sess -> UserID sess = userID -> State sess = StateActive ->
  chunks_complete sess (chunk_rows (ID sess) d) = true ->
  run store_handler (ValidateComplete svc uploadID userID) (idle d b p c o) = (Ok sess, idle d b p c o).
Proof.
  intros Hb Hs Hu Ha Hc. unfold ValidateComplete, session, checkChunksComplete. rewrite Hb. cbn [negb].
  answer. unfold q_GetUploadSession. rewrite Hs. cbn [run mret prog_mret fst snd].
  rewrite bool_decide_eq_true_2 by done. cbn [run mret prog_mret fst snd].
  rewrite bool_decide_eq_true_2 by done. cbn [negb]. answer. cbn [q_ListUploadChunks fst snd]. by rewrite Hc.
Qed.

(** The job [Enqueue] leaves. *)
Definition new_job uploadID vid cm (d : DB) : UploadFinalizeJob :=
  mkJob (gen d (drawn d)) uploadID vid PurposeUpload cm StatePending EmptyString 0 (now d) (now d).

Definition enqueued uploadID (job : UploadFinalizeJob) (d : DB) : DB :=
  with_sessions (alter (set_state StateQueued EmptyString) uploadID) (with_jobs <[jID job := job]> (draw d)).

Lemma Enqueue_ok uploadID vid cm sess ch d b p c o :
  sessions d !! uploadID = Some sess -> State sess = StateActive -> videos d !! vid = Some ch -> jobs d = ∅ ->
  run store_handler (Enqueue uploadID vid "upload" cm) (idle d b p c o) =
    (Ok (new_job uploadID vid cm d), idle (enqueued uploadID (new_job uploadID vid cm d) d) b p c o).
Proof.
  intros Hs Ha Hv Hj. unfold Enqueue, MarkQueued. cbv zeta. answer.
  unfold q_EnqueueUploadFinalizeJob. rewrite Hs, Hv. unfold has_live_job. rewrite Hj. cbn [map_to_list fmap existsb].
  rewrite map_to_list_empty. cbn [fmap list_fmap existsb]. rewrite lookup_empty. cbn. answer.
  unfold q_MarkUploadSessionQueued. cbn [sessions with_jobs draw]. rewrite Hs, bool_decide_eq_true_2 by done. done.
Qed.

(** A pipeline that takes fresh uploads. *)
Definition takes_uploads (p : Pipeline) : Prop :=
  (forall c v, exists owner, pl_GetByID p c v = Ok owner) /\
  (forall c owner v name, exists key, pl_AttachOriginal p c owner v name = Ok key) /\
  (forall c v key, pl_Process p c v key = Ok tt).

Lemma runFinalize_ok fs row sess f d b p c o :
  s_blobs (f_uploads fs) = true -> takes_uploads p -> jPurpose row = PurposeUpload ->
  sessions d !! jUploadID row = Some sess ->
  chunks_complete sess (chunk_rows (ID sess) d) = true ->
  assembler (jUploadID row) (totalChunks (TotalSize sess) (ChunkSize sess)) b = Some (f, None) ->
  exists c', run store_handler (runFinalize fs row) (idle d b p c o) =
    (None, idle (with_sessions (alter (set_state StateProcessing EmptyString) (jUploadID row)) d) b p c'
             (<[jVideoID row := f]> o)).
Proof.
  intros Hb (Hget & Hatt & Hproc) Hp Hs Hc Hasm. unfold runFinalize, MarkProcessing, Assemble, checkChunksComplete.
  answer. rewrite Hb. cbn [negb run mret prog_mret fst snd]. answer.
  unfold q_GetUploadSession, q_SetUploadSessionState. cbn [snd store]. cbn [sessions with_sessions].
  rewrite lookup_alter_eq, Hs. cbn [fmap option_fmap option_map fst snd].
  change (Finalizing (State (set_state StateProcessing EmptyString sess))) with true. cbn [negb]. answer.
  cbn [q_ListUploadChunks fst snd].
  change (chunks_complete (set_state StateProcessing EmptyString sess) ?r) with (chunks_complete sess r).
  change (chunk_rows (ID (set_state StateProcessing EmptyString sess)) ?x) with (chunk_rows (ID sess) d).
  rewrite Hc. cbn [run mret prog_mret fst snd]. answer.
  destruct (Hget c (jVideoID row)) as [owner Ho]. rewrite Ho.
  rewrite bool_decide_eq_false_2 by (rewrite Hp; discriminate). answer. unfold storing. cbn [called pipe calls blobs].
  destruct (Hatt (S c) owner (jVideoID row) (Filename (set_state StateProcessing EmptyString sess))) as [key Hk].
  rewrite Hk. cbn [TotalSize ChunkSize set_state]. rewrite Hasm. answer. answer. cbn [pipe calls]. rewrite Hproc.
  by eexists.
Qed.

(** What the client and one pass of the worker do, one after the other. *)
Definition upload_flow svc fs uploadID userID (ps : list (Z * reader)) (cm : bool)
    : prog (storeE B) (option (UploadFinalizeJob * result dberr Z)) :=
  ok ← put_all svc uploadID userID ps;
  if negb ok then mret None else
  v ← ValidateComplete svc uploadID userID;
  match v with
  | Err _ => mret None
  | Ok sess =>
      j ← Enqueue uploadID (VideoID sess) (match Purpose sess with PurposeUpload => "upload" | PurposeReplace => "replace" end) cm;
      match j with
      | Err _ => mret None
      | Ok job => n ← DrainJobs fs 1; mret (Some (job, n))
      end
  end.

(** The worker's pass over a queue whose one job is due. *)
Lemma DrainJobs_ok fs sess f job d b p c o :
  s_blobs (f_uploads fs) = true -> takes_uploads p -> jobs d = {[jID job := job]} ->
  jState job = StatePending -> jNextAttemptAt job <= now d -> jPurpose job = PurposeUpload ->
  sessions d !! jUploadID job = Some sess ->
  chunks_complete sess (chunk_rows (ID sess) d) = true ->
  assembler (jUploadID job) (totalChunks (TotalSize sess) (ChunkSize sess)) b = Some (f, None) ->
  exists w', run store_handler (DrainJobs fs 1) (idle d b p c o) = (Ok 1, w') /\
    originals w' = <[jVideoID job := f]> o /\
    sessions (db w') !! jUploadID job = Some (set_state StateCompleted EmptyString sess) /\
    jState <$> (jobs (db w') !! jID job) = Some StateDone.
Proof.
  intros Hb Hp Hj Hpend Hdue Hpu Hs Hc Ha. unfold DrainJobs. answer.
  change (int32 1) with 1. unfold q_ClaimDueUploadFinalizeJobs. cbv zeta. cbn [fst snd].
  rewrite (due_singleton _ _ _ (jID job) job) by (done || lia). cbn [map drain_rows]. answer.
  set (job' := set_job StateRunning _ _ _ job).
  set (d1 := with_jobs _ d).
  destruct (runFinalize_ok fs job' sess f d1 b p c o) as [c' Hrun]; try done.
  unfold drain_one. rewrite !run_mbind, Hrun. cbn [fst snd]. unfold MarkCompleted, deleteChunks. answer.
  cbn [q_SetUploadSessionState fst snd q_CompleteUploadFinalizeJob].
  set (d2 := with_jobs _ (with_sessions _ d1)).
  assert (Hfin : forall b' p' c'' o', exists w', (Ok 1 : result dberr Z, idle (with_sessions (alter (set_state StateCompleted EmptyString) (jUploadID job)) d2) b' p' c'' o') = (Ok 1, w') /\
    originals w' = o' /\
    sessions (db w') !! jUploadID job = Some (set_state StateCompleted EmptyString sess) /\
    jState <$> (jobs (db w') !! jID job) = Some StateDone).
  { intros. eexists. split_and!; [done|done| |].
    - cbn. rewrite !lookup_alter_eq, Hs. done.
    - cbn. rewrite !lookup_alter_eq, Hj, lookup_singleton_eq. done. }
  destruct (s_blobs (f_uploads fs) && s_prefixDeleter (f_uploads fs)); answer; cbn [run mret prog_mret fst snd]; apply Hfin.
Qed.

End Flow.

(** ** The theorem *)


