(* ===== verification/GoStrings.v ===== *)
(** * The string functions of Go's standard library the services use

    [strings.TrimSpace], [ToLower], [Contains], [HasSuffix], [LastIndex],
    [ReplaceAll] of a single byte, on ASCII text: bytes outside ASCII are left
    alone, where Go would decode them as UTF-8. *)
From S2P Require Import Prelude.
Local Open Scope Z_scope.

Abbreviation ascii := Ascii.ascii (only parsing).

Definition code (c : ascii) : Z := Z.of_nat (Ascii.nat_of_ascii c).

(** The ASCII characters [unicode.IsSpace] accepts. *)
Definition is_space (c : ascii) : bool := (9 <=? code c) && (code c <=? 13) || (code c =? 32).

Fixpoint trim_left (s : string) : string :=
  match s with
  | String c s' => if is_space c then trim_left s' else s
  | EmptyString => EmptyString
  end.

Fixpoint trim_right (s : string) : string :=
  match s with
  | EmptyString => EmptyString
  | String c s' =>
      match trim_right s' with
      | EmptyString => if is_space c then EmptyString else String c EmptyString
      | t => String c t
      end
  end.

(** [strings.TrimSpace] *)
Definition TrimSpace (s : string) : string := trim_right (trim_left s).

Definition lower_char (c : ascii) : ascii :=
  if (65 <=? code c) && (code c <=? 90) then Ascii.ascii_of_nat (Ascii.nat_of_ascii c + 32) else c.

(** [strings.ToLower] (and SQL's [lower]) *)
Fixpoint ToLower (s : string) : string :=
  match s with EmptyString => EmptyString | String c s' => String (lower_char c) (ToLower s') end.

(** [strings.Contains] *)
Fixpoint Contains (s sub : string) : bool :=
  String.prefix sub s || match s with EmptyString => false | String _ s' => Contains s' sub end.

Fixpoint drop_string (n : nat) (s : string) : string :=
  match n, s with
  | O, _ => s
  | S n', String _ s' => drop_string n' s'
  | S _, EmptyString => EmptyString
  end.

(** [strings.HasSuffix] *)
Definition HasSuffix (s suffix : string) : bool :=
  (String.length suffix <=? String.length s)%nat &&
  bool_decide (drop_string (String.length s - String.length suffix) s = suffix).

Fixpoint take_string (n : nat) (s : string) : string :=
  match n, s with
  | S n', String c s' => String c (take_string n' s')
  | _, _ => EmptyString
  end.

(** [strings.TrimSuffix] *)
Definition TrimSuffix (s suffix : string) : string :=
  if HasSuffix s suffix then take_string (String.length s - String.length suffix) s else s.

(** [strings.LastIndex(s, c)] for a single byte: what follows its last
    occurrence, if there is one. *)
Fixpoint after_last (c : ascii) (s : string) : option string :=
  match s with
  | EmptyString => None
  | String c' s' =>
      match after_last c s' with
      | Some t => Some t
      | None => if bool_decide (c' = c) then Some s' else None
      end
  end.

(** [strings.ReplaceAll(s, c, "")] for a single byte. *)
Fixpoint remove_char (c : ascii) (s : string) : string :=
  match s with
  | EmptyString => EmptyString
  | String c' s' => if bool_decide (c' = c) then remove_char c s' else String c' (remove_char c s')
  end.

(** [filepath.Ext]: from the last dot of the last path element. *)
Definition Ext (name : string) : string :=
  let base := match after_last (Ascii.ascii_of_nat 47) name with Some b => b | None => name end in
  match after_last (Ascii.ascii_of_nat 46) base with Some e => "." +:+ e | None => EmptyString end.

(** [strings.TrimPrefix] of one dot. *)
Definition trim_dot (s : string) : string :=
  match s with String c r => if bool_decide (c = Ascii.ascii_of_nat 46) then r else s | EmptyString => s end.

(** ** Lemmas *)

Lemma lower_char_lower c : lower_char (lower_char c) = lower_char c.
Proof. by destruct c as [[] [] [] [] [] [] [] []]. Qed.

Lemma ToLower_idemp s : ToLower (ToLower s) = ToLower s.
Proof. induction s as [|c s IH]; cbn; [done|]. by rewrite lower_char_lower, IH. Qed.

Lemma trim_right_idemp s : trim_right (trim_right s) = trim_right s.
Proof.
  induction s as [|c s IH]; [done|]. cbn. destruct (trim_right s) as [|c' t] eqn:Ht.
  - destruct (is_space c) eqn:Hc; [done|]. cbn. by rewrite Hc.
  - change (trim_right (String c (String c' t))) with
      (match trim_right (String c' t) with EmptyString => if is_space c then EmptyString else String c EmptyString
       | t => String c t end). by rewrite IH.
Qed.

Lemma trim_left_head s c t : trim_left s = String c t -> is_space c = false.
Proof. induction s as [|c' s IH]; cbn; [done|]. destruct (is_space c') eqn:Hc; [done|]. by intros [= <- <-]. Qed.

Lemma trim_right_head s c t :
  trim_right s = String c t -> exists u, s = String c u.
Proof.
  destruct s as [|c' s]; cbn; [done|]. destruct (trim_right s); [destruct (is_space c'); [done|]|];
    intros [= -> _]; eauto.
Qed.

Lemma TrimSpace_idemp s : TrimSpace (TrimSpace s) = TrimSpace s.
Proof.
  unfold TrimSpace. destruct (trim_right (trim_left s)) as [|c t] eqn:Ht; [done|].
  destruct (trim_right_head _ _ _ Ht) as [u Hu]. pose proof (trim_left_head _ _ _ Hu) as Hc.
  change (trim_left (String c t)) with (if is_space c then trim_left t else String c t). rewrite Hc.
  rewrite <- Ht. apply trim_right_idemp.
Qed.

(** The order of strings, byte by byte. *)
Lemma ascii_compare_trans a b c : Ascii.compare a b = Lt -> Ascii.compare b c = Lt -> Ascii.compare a c = Lt.
Proof. unfold Ascii.compare. rewrite !N.compare_lt_iff. lia. Qed.

Lemma string_compare_trans a b c : String.compare a b = Lt -> String.compare b c = Lt -> String.compare a c = Lt.
Proof.
  revert b c. induction a as [|x a IH]; intros [|y b] [|z c]; cbn; try done.
  destruct (Ascii.compare x y) eqn:Hxy; try done; destruct (Ascii.compare y z) eqn:Hyz; try done.
  - apply Ascii.compare_eq_iff in Hxy as ->. rewrite Hyz. apply IH.
  - apply Ascii.compare_eq_iff in Hxy as ->. by rewrite Hyz.
  - apply Ascii.compare_eq_iff in Hyz as ->. by rewrite Hxy.
  - by rewrite (ascii_compare_trans _ _ _ Hxy Hyz).
Qed.

Lemma string_compare_refl a : String.compare a a = Eq.
Proof. pose proof (String.compare_antisym a a) as H. by destruct (String.compare a a). Qed.

Lemma string_leb_spec a b : String.leb a b = true <-> a = b \/ String.compare a b = Lt.
Proof.
  unfold String.leb. destruct (String.compare a b) eqn:Hc; split; try done.
  - intros _. left. by apply String.compare_eq_iff.
  - by right.
  - intros [->|?]; [|done]. by rewrite string_compare_refl in Hc.
Qed.

Lemma string_leb_trans a b c : String.leb a b = true -> String.leb b c = true -> String.leb a c = true.
Proof.
  rewrite !string_leb_spec. intros [->|H1] [->|H2]; auto. right. by eapply string_compare_trans.
Qed.

Lemma string_ltb_spec a b : String.ltb a b = true <-> String.leb a b = true /\ a <> b.
Proof.
  rewrite string_leb_spec. unfold String.ltb. destruct (String.compare a b) eqn:Hc; split; try done.
  - apply String.compare_eq_iff in Hc. by intros [_ ?].
  - intros _. split; [by right|]. intros ->. by rewrite string_compare_refl in Hc.
  - by intros [[->|?] ?].
Qed.
