(* ===== verification/Encoding.v ===== *)
(** * base64 and hexadecimal (encoding/base64, encoding/hex)

    The two encodings the sources use for secrets and tokens:
    [base64.StdEncoding], [base64.RawURLEncoding] and [hex.EncodeToString]. A
    Go string is a string of bytes. *)
From S2P Require Import Prelude GoStrings.
Local Open Scope Z_scope.

(** ** Bytes *)

Definition byte_val (c : Ascii.ascii) : Z := Z.of_nat (Ascii.nat_of_ascii c).
Definition to_byte (n : Z) : Ascii.ascii := Ascii.ascii_of_nat (Z.to_nat n).

Definition bytes (s : string) : list Z := map byte_val (String.list_ascii_of_string s).
Definition of_bytes (l : list Z) : string := String.string_of_list_ascii (map to_byte l).

Definition is_byte (n : Z) : Prop := 0 <= n < 256.

Lemma byte_val_range c : is_byte (byte_val c).
Proof. unfold is_byte, byte_val. pose proof (Ascii.nat_ascii_bounded c). lia. Qed.

Lemma to_byte_val c : to_byte (byte_val c) = c.
Proof. unfold to_byte, byte_val. rewrite Nat2Z.id. apply Ascii.ascii_nat_embedding. Qed.

Lemma byte_val_to n : is_byte n -> byte_val (to_byte n) = n.
Proof. unfold is_byte, byte_val, to_byte. intros. rewrite Ascii.nat_ascii_embedding by lia. lia. Qed.

Lemma of_bytes_bytes s : of_bytes (bytes s) = s.
Proof.
  unfold of_bytes, bytes. rewrite map_map. erewrite map_ext; [|intros c; apply to_byte_val].
  rewrite map_id. apply String.string_of_list_ascii_of_string.
Qed.

Lemma bytes_of_bytes l : Forall is_byte l -> bytes (of_bytes l) = l.
Proof.
  intros Hl. unfold bytes, of_bytes. rewrite String.list_ascii_of_string_of_list_ascii, map_map.
  induction Hl as [|x l Hx _ IH]; [done|]. cbn. by rewrite byte_val_to, IH.
Qed.

Lemma bytes_range s : Forall is_byte (bytes s).
Proof. apply Forall_forall. intros n (c & -> & _)%list_elem_of_fmap. apply byte_val_range. Qed.

Lemma bytes_app s t : bytes (s +:+ t) = bytes s ++ bytes t.
Proof. induction s as [|c s IH]; [done|]. unfold bytes in *. change (String c s +:+ t) with (String c (s +:+ t)). cbn. f_equal. exact IH. Qed.

(** ** base64 *)

(** The alphabets: position 62 and 63 differ. *)
Definition alphabet (c62 c63 : Z) : list Z := seqZ 65 26 ++ seqZ 97 26 ++ seqZ 48 10 ++ [c62; c63].
Definition std : list Z := alphabet 43 47.
Definition url : list Z := alphabet 45 95.

Definition digit (alpha : list Z) (d : Z) : Z := nth (Z.to_nat d) alpha 0.

Fixpoint index_of (alpha : list Z) (c : Z) : option Z :=
  match alpha with
  | [] => None
  | a :: rest => if a =? c then Some 0 else option_map Z.succ (index_of rest c)
  end.

Definition pad : Z := 61.

(** Three bytes to four digits; the last group is padded when [padded]. *)
Fixpoint encode (alpha : list Z) (padded : bool) (l : list Z) : list Z :=
  let dg := digit alpha in
  let p n := if padded then repeat pad n else [] in
  match l with
  | [] => []
  | [a] => dg (a / 4) :: dg (a mod 4 * 16) :: p 2%nat
  | [a; b] => dg (a / 4) :: dg (a mod 4 * 16 + b / 16) :: dg (b mod 16 * 4) :: p 1%nat
  | a :: b :: c :: rest =>
      dg (a / 4) :: dg (a mod 4 * 16 + b / 16) :: dg (b mod 16 * 4 + c / 64) :: dg (c mod 64)
        :: encode alpha padded rest
  end.

(** [StdEncoding.DecodeString] after dropping line breaks: groups of four
    digits, the last one possibly padded; the unused low bits of a padded group
    are ignored. *)
Fixpoint decode_std (l : list Z) : option (list Z) :=
  match l with
  | [] => Some []
  | a :: b :: c :: d :: rest =>
      match index_of std a, index_of std b with
      | Some x, Some y =>
          if c =? pad then
            match rest with [] => if d =? pad then Some [x * 4 + y / 16] else None | _ => None end
          else match index_of std c with
               | None => None
               | Some z =>
                   if d =? pad then
                     match rest with [] => Some [x * 4 + y / 16; y mod 16 * 16 + z / 4] | _ => None end
                   else match index_of std d, decode_std rest with
                        | Some w, Some tl => Some (x * 4 + y / 16 :: y mod 16 * 16 + z / 4 :: z mod 4 * 64 + w :: tl)
                        | _, _ => None
                        end
               end
      | _, _ => None
      end
  | _ => None
  end.

(** [RawURLEncoding.DecodeString] after dropping line breaks: no padding; a last
    group of two or three digits, whose unused low bits are ignored. *)
Fixpoint decode_url (l : list Z) : option (list Z) :=
  let ix := index_of url in
  match l with
  | [] => Some []
  | [_] => None
  | [a; b] => match ix a, ix b with Some x, Some y => Some [x * 4 + y / 16] | _, _ => None end
  | [a; b; c] =>
      match ix a, ix b, ix c with
      | Some x, Some y, Some z => Some [x * 4 + y / 16; y mod 16 * 16 + z / 4]
      | _, _, _ => None
      end
  | a :: b :: c :: d :: rest =>
      match ix a, ix b, ix c, ix d, decode_url rest with
      | Some x, Some y, Some z, Some w, Some tl => Some (x * 4 + y / 16 :: y mod 16 * 16 + z / 4 :: z mod 4 * 64 + w :: tl)
      | _, _, _, _, _ => None
      end
  end.

Definition base64_std (s : string) : string := of_bytes (encode std true (bytes s)).
Definition base64_rawurl (s : string) : string := of_bytes (encode url false (bytes s)).
Definition base64_std_decode (s : string) : option string :=
  option_map of_bytes (decode_std (filter (fun c => c <> 10 /\ c <> 13) (bytes s))).
Definition base64_rawurl_decode (s : string) : option string :=
  option_map of_bytes (decode_url (filter (fun c => c <> 10 /\ c <> 13) (bytes s))).

(** ** hex *)

Definition hex_digit (n : Z) : Z := if n <? 10 then 48 + n else 87 + n.
Definition hex (s : string) : string :=
  of_bytes (concat (map (fun b => [hex_digit (b / 16); hex_digit (b mod 16)]) (bytes s))).

(** ** Lemmas *)

(** Induction three bytes at a time. *)
Lemma triples_ind (P : list Z -> Prop) :
  P [] -> (forall a, P [a]) -> (forall a b, P [a; b]) ->
  (forall a b c l, P l -> P (a :: b :: c :: l)) -> forall l, P l.
Proof.
  intros H0 H1 H2 H3. fix IH 1. intros [|a [|b [|c l]]]; [exact H0|apply H1|apply H2|apply H3, IH].
Qed.

(** The digits are sixty-four different characters, none of them padding or a
    line break. *)
Definition digit_ok (d : Z) : bool :=
  bool_decide (index_of std (digit std d) = Some d) && negb (digit std d =? pad) &&
  negb (digit std d =? 10) && negb (digit std d =? 13) && (0 <=? digit std d) && (digit std d <? 256).

Lemma digits_ok d : 0 <= d < 64 ->
  index_of std (digit std d) = Some d /\ (digit std d =? pad) = false /\
  digit std d <> 10 /\ digit std d <> 13 /\ is_byte (digit std d).
Proof.
  intros Hd. assert (Hall : forallb digit_ok (seqZ 0 64) = true) by (vm_compute; reflexivity).
  apply (forallb_elem _ _ d) in Hall; [|apply elem_of_seqZ; lia].
  unfold digit_ok in Hall. bools. unfold is_byte. split_and!; try done.
  unfold pad in *. by apply Z.eqb_neq.
Qed.

(** Linear arithmetic with quotients and remainders. *)
Ltac divlia := Z.to_euclidean_division_equations; lia.

(** The characters of an encoding are digits or padding. *)
Lemma encode_chars l : Forall is_byte l ->
  Forall (fun c => c <> 10 /\ c <> 13 /\ is_byte c) (encode std true l).
Proof.
  induction l as [|a|a b|a b c l IH] using triples_ind; intros Hl; cbn [encode repeat];
    repeat match goal with H : Forall _ (_ :: _) |- _ => apply Forall_cons in H as [? ?] end;
    unfold is_byte in *; repeat (apply Forall_cons; split);
    try (unfold pad; lia);
    try match goal with |- context [digit std ?d] => pose proof (digits_ok d ltac:(divlia)) as (_ & _ & ? & ? & ?); unfold is_byte in *; done end; auto using List.Forall_nil.
Qed.

Lemma decode_encode l : Forall is_byte l -> decode_std (encode std true l) = Some l.
Proof.
  induction l as [|a|a b|a b c l IH] using triples_ind; intros Hl; [done|..]; cbn [encode repeat decode_std];
    repeat match goal with H : Forall _ (_ :: _) |- _ => apply Forall_cons in H as [? ?] end; unfold is_byte in *.
  all: repeat match goal with
         | |- context [index_of std (digit std ?d)] => rewrite (proj1 (digits_ok d ltac:(divlia)))
         | |- context [digit std ?d =? pad] => rewrite (proj1 (proj2 (digits_ok d ltac:(divlia))))
         end.
  all: rewrite ?Z.eqb_refl, ?IH by done; repeat f_equal; divlia.
Qed.

Lemma base64_roundtrip s : base64_std_decode (base64_std s) = Some s.
Proof.
  unfold base64_std_decode, base64_std. pose proof (encode_chars _ (bytes_range s)) as Hc.
  rewrite bytes_of_bytes by (eapply Forall_impl; [exact Hc|]; by intros c (_ & _ & ?)).
  rewrite filter_all by (eapply Forall_impl; [exact Hc|]; by intros c (? & ? & _)).
  rewrite decode_encode by apply bytes_range. cbn. by rewrite of_bytes_bytes.
Qed.

(** ** The URL alphabet *)

Definition digit_url_ok (d : Z) : bool :=
  bool_decide (index_of url (digit url d) = Some d) && negb (digit url d =? 46) &&
  negb (digit url d =? 10) && negb (digit url d =? 13) && (0 <=? digit url d) && (digit url d <? 256).

Lemma digits_url_ok d : 0 <= d < 64 ->
  index_of url (digit url d) = Some d /\ digit url d <> 46 /\ digit url d <> 10 /\ digit url d <> 13 /\ is_byte (digit url d).
Proof.
  intros Hd. assert (Hall : forallb digit_url_ok (seqZ 0 64) = true) by (vm_compute; reflexivity).
  apply (forallb_elem _ _ d) in Hall; [|apply elem_of_seqZ; lia].
  unfold digit_url_ok in Hall. bools. unfold is_byte. split_and!; done.
Qed.

Lemma encode_url_chars l : Forall is_byte l ->
  Forall (fun c => c <> 46 /\ c <> 10 /\ c <> 13 /\ is_byte c) (encode url false l).
Proof.
  induction l as [|a|a b|a b c l IH] using triples_ind; intros Hl; cbn [encode];
    repeat match goal with H : Forall _ (_ :: _) |- _ => apply Forall_cons in H as [? ?] end;
    unfold is_byte in *; repeat (apply Forall_cons; split);
    try match goal with |- context [digit url ?d] => pose proof (digits_url_ok d ltac:(divlia)) as (_ & ? & ? & ? & ?); unfold is_byte in *; done end; auto using List.Forall_nil.
Qed.

Lemma decode_encode_url l : Forall is_byte l -> decode_url (encode url false l) = Some l.
Proof.
  induction l as [|a|a b|a b c l IH] using triples_ind; intros Hl; [done|..]; cbn [encode decode_url];
    repeat match goal with H : Forall _ (_ :: _) |- _ => apply Forall_cons in H as [? ?] end; unfold is_byte in *.
  all: repeat match goal with
         | |- context [index_of url (digit url ?d)] => rewrite (proj1 (digits_url_ok d ltac:(divlia)))
         end.
  all: rewrite ?IH by done; repeat f_equal; divlia.
Qed.

Lemma base64_rawurl_roundtrip s : base64_rawurl_decode (base64_rawurl s) = Some s.
Proof.
  unfold base64_rawurl_decode, base64_rawurl. pose proof (encode_url_chars _ (bytes_range s)) as Hc.
  rewrite bytes_of_bytes by (eapply Forall_impl; [exact Hc|]; by intros c (_ & _ & _ & ?)).
  rewrite filter_all by (eapply Forall_impl; [exact Hc|]; by intros c (_ & ? & ? & _)).
  rewrite decode_encode_url by apply bytes_range. cbn. by rewrite of_bytes_bytes.
Qed.

(** An encoding is a word without full stops, empty only for the empty string. *)
Lemma base64_rawurl_codes s : Forall (fun c => c <> 46) (bytes (base64_rawurl s)).
Proof.
  unfold base64_rawurl. pose proof (encode_url_chars _ (bytes_range s)) as Hc.
  rewrite bytes_of_bytes by (eapply Forall_impl; [exact Hc|]; by intros c (_ & _ & _ & ?)).
  eapply Forall_impl; [exact Hc|]. by intros c (? & _).
Qed.

Lemma base64_rawurl_empty s : base64_rawurl s = EmptyString -> s = EmptyString.
Proof. intros He. pose proof (base64_rawurl_roundtrip s) as Hr. rewrite He in Hr. by injection Hr as <-. Qed.
