(* ===== verification/Secretbox.v ===== *)
(** * Secrets at rest (src/internal/secretbox/secretbox.go)

    Envelope encryption under a key-encryption key: "enc:" followed by the
    base64 of nonce and ciphertext. AES-256-GCM is a parameter; what is relied
    on is the class [AEADLaws]. *)
From S2P Require Import Prelude GoStrings Encoding.
Local Open Scope Z_scope.

(** An authenticated cipher under one key. *)
Record AEAD := { aead_seal : string -> string -> string; aead_open : string -> string -> option string }.

(** What AES-GCM promises of one key: opening what was sealed with the same
    nonce gives the plaintext back. *)
Class AEADLaws (a : AEAD) : Prop := aead_open_seal : forall nonce p, aead_open a nonce (aead_seal a nonce p) = Some p.

Inductive sberr := SErrKEKLength | SErrKEKBase64 | SErrNotSealed | SErrBase64 | SErrTooShort | SErrAuth | SErrRandom.

#[global] Instance sberr_eq_dec : EqDecision sberr.
Proof. solve_decision. Defined.

Definition EncPrefix : string := "enc:".
Definition NonceSize : nat := 12.

(** [strings.HasPrefix] and [strings.TrimPrefix] *)
Definition HasPrefix (s p : string) : bool := bool_decide (String.substring 0 (String.length p) s = p).
Definition TrimPrefix (s p : string) : string :=
  if HasPrefix s p then String.substring (String.length p) (String.length s - String.length p) s else s.

Section Secretbox.
Context (aes_gcm : string -> AEAD).

(** [NewCipher]: the cipher of a 32-byte key. *)
Definition NewCipher (kek : string) : result sberr AEAD :=
  if negb (String.length kek =? 32)%nat then Err SErrKEKLength else Ok (aes_gcm kek).

(** [NewCipherFromBase64] *)
Definition NewCipherFromBase64 (b64 : string) : result sberr AEAD :=
  match base64_std_decode (TrimSpace b64) with
  | None => Err SErrKEKBase64
  | Some kek => NewCipher kek
  end.

End Secretbox.

(** [Cipher.Seal], given what the random generator put into the nonce. *)
Definition Seal (c : AEAD) (nonce : option string) (plaintext : string) : result sberr string :=
  match nonce with
  | None => Err SErrRandom
  | Some n => Ok (EncPrefix +:+ base64_std (n +:+ aead_seal c n plaintext))
  end.

(** [Cipher.Open] *)
Definition Open (c : AEAD) (stored : string) : result sberr string :=
  if negb (HasPrefix stored EncPrefix) then Err SErrNotSealed else
  match base64_std_decode (TrimPrefix stored EncPrefix) with
  | None => Err SErrBase64
  | Some raw =>
      if (String.length raw <? NonceSize)%nat then Err SErrTooShort
      else match aead_open c (String.substring 0 NonceSize raw)
                   (String.substring NonceSize (String.length raw - NonceSize) raw) with
           | Some p => Ok p
           | None => Err SErrAuth
           end
  end.

(** [IsSealed] *)
Definition IsSealed (stored : string) : bool := HasPrefix stored EncPrefix.

(** ** Lemmas *)

Lemma app_cons c s t : String c s +:+ t = String c (s +:+ t).
Proof. done. Qed.

Lemma length_append s t : String.length (s +:+ t) = (String.length s + String.length t)%nat.
Proof. induction s as [|c s IH]; [done|]. rewrite app_cons. cbn. by rewrite IH. Qed.

Lemma substring_all t : String.substring 0 (String.length t) t = t.
Proof. induction t as [|c t IH]; [done|]. cbn. by rewrite IH. Qed.

Lemma substring_prefix s t : String.substring 0 (String.length s) (s +:+ t) = s.
Proof. induction s as [|c s IH]; [by destruct t|]. rewrite app_cons. cbn. by rewrite IH. Qed.

Lemma substring_suffix s t : String.substring (String.length s) (String.length t) (s +:+ t) = t.
Proof. induction s as [|c s IH]; [apply substring_all|]. rewrite app_cons. exact IH. Qed.

Lemma HasPrefix_app p t : HasPrefix (p +:+ t) p = true.
Proof. unfold HasPrefix. apply bool_decide_eq_true_2. apply substring_prefix. Qed.

Lemma TrimPrefix_app p t : TrimPrefix (p +:+ t) p = t.
Proof.
  unfold TrimPrefix. rewrite HasPrefix_app, length_append.
  replace (String.length p + String.length t - String.length p)%nat with (String.length t) by lia.
  apply substring_suffix.
Qed.

Lemma String_app_assoc (x y z : string) : x +:+ (y +:+ z) = (x +:+ y) +:+ z.
Proof. induction x as [|c x IH]; [done|]. rewrite !app_cons. by rewrite IH. Qed.

(** Opening a well-formed envelope. *)
Lemma Open_of c nonce ct :
  String.length nonce = NonceSize ->
  Open c (EncPrefix +:+ base64_std (nonce +:+ ct)) =
    match aead_open c nonce ct with Some p => Ok p | None => Err SErrAuth end.
Proof.
  intros Hn. unfold Open. rewrite HasPrefix_app. cbn [negb].
  rewrite TrimPrefix_app, base64_roundtrip, length_append, Hn.
  destruct (Nat.ltb_spec (NonceSize + String.length ct) NonceSize); [lia|].
  replace (NonceSize + String.length ct - NonceSize)%nat with (String.length ct) by lia.
  by rewrite <- Hn, substring_prefix, substring_suffix.
Qed.

Lemma Open_Seal c `{!AEADLaws c} nonce p stored :
  String.length nonce = NonceSize -> Seal c (Some nonce) p = Ok stored -> Open c stored = Ok p /\ IsSealed stored = true.
Proof.
  intros Hn [= <-]. rewrite Open_of, aead_open_seal by done. split; [done|]. apply HasPrefix_app.
Qed.

(** ** Properties *)

(** Sealing round trip. Under a key-encryption key taken from its base64
    configuration (accepted exactly when it decodes to 32 bytes), what [Seal]
    writes is recognised as sealed and opens to the plaintext; a value without
    the prefix is refused rather than taken for a secret, and under any other
    cipher the stored value opens only if that cipher authenticates it. *)
Theorem secretbox_roundtrip (aes_gcm : string -> AEAD) (b64 kek nonce p stored : string) (c : AEAD) :
  AEADLaws (aes_gcm kek) -> base64_std_decode (TrimSpace b64) = Some kek ->
  NewCipherFromBase64 aes_gcm b64 = Ok c -> String.length nonce = NonceSize -> Seal c (Some nonce) p = Ok stored ->
  String.length kek = 32%nat /\ IsSealed stored = true /\ Open c stored = Ok p /\
  (forall raw, IsSealed raw = false -> Open c raw = Err SErrNotSealed) /\
  (forall c' q, Open c' stored = Ok q -> aead_open c' nonce (aead_seal c nonce p) = Some q).
Proof.
  unfold NewCipherFromBase64, NewCipher. intros Hlaw -> Hc Hn Hs.
  destruct (Nat.eqb_spec (String.length kek) 32); [|done]. injection Hc as <-.
  destruct (Open_Seal (aes_gcm kek) nonce p stored Hn Hs) as [Ho Hi]. split_and!; try done.
  - intros raw Hr. unfold Open. by rewrite (Hr : HasPrefix raw EncPrefix = false).
  - injection Hs as <-. intros c' q Hq. rewrite Open_of in Hq by done. by case_match; simplify_eq.
Qed.

(** A cipher that prepends its key and the nonce. *)
Definition demo_aead (key : string) : AEAD := {|
  aead_seal nonce p := key +:+ nonce +:+ p;
  aead_open nonce ct := if HasPrefix ct (key +:+ nonce) then Some (TrimPrefix ct (key +:+ nonce)) else None |}.

Lemma demo_aead_laws key : AEADLaws (demo_aead key).
Proof.
  intros nonce p. cbn. rewrite String_app_assoc, HasPrefix_app, TrimPrefix_app. done.
Qed.

Lemma secretbox_roundtrip_witness :
  Open (demo_aead "0123456789abcdef0123456789abcdef") (EncPrefix +:+ base64_std
    ("nnnnnnnnnnnn" +:+ aead_seal (demo_aead "0123456789abcdef0123456789abcdef") "nnnnnnnnnnnn" "secret")) = Ok "secret"%string.
Proof.
  refine (proj1 (proj2 (proj2 (secretbox_roundtrip demo_aead
    " MDEyMzQ1Njc4OWFiY2RlZjAxMjM0NTY3ODlhYmNkZWY= " "0123456789abcdef0123456789abcdef" "nnnnnnnnnnnn" "secret" _
    (demo_aead "0123456789abcdef0123456789abcdef") (demo_aead_laws _) _ _ _ _)))).
  - vm_compute. reflexivity.
  - vm_compute. reflexivity.
  - reflexivity.
  - reflexivity.
Defined.
