(* ===== verification/AuthStore.v ===== *)
(** * The tables behind sign-in (src/internal/store/queries)

    [users], [sessions], [login_throttles], [user_mfa],
    [mfa_recovery_codes], [step_up_tokens], [user_known_devices] and
    [user_security_prefs] as finite maps, one definition per SQL statement, and
    the signature [authE] of what [auth.Service] calls: its repositories, the
    clock, the random generator and the mailer. Hashing, signing and ciphers
    are third-party code: the record [Crypto] holds them as parameters. *)
From S2P Require Import Prelude GoStrings Encoding Secretbox.
Local Open Scope Z_scope.

(** ** Third-party primitives *)

(** What [TokenIssuer] puts into a token ([Claims] in jwt.go). *)
Record Claims := mkClaims {
  cl_Role : string; cl_SessionID : string; cl_Subject : string; cl_Audience : string;
  cl_IssuedAt : time; cl_ExpiresAt : time;
}.

(** bcrypt, SHA-256, HS256 signing and verification, RFC 6238 codes, AES-GCM
    under the configured key and UUID parsing, as functions; nothing is assumed of them
    here. *)
Record Crypto := {
  bcrypt_compare : string -> string -> bool;          (* hash, plain *)
  bcrypt_hash : string -> option string;
  sha256_hex : string -> string;
  totp_code : string -> Z -> option string;           (* secret, time step *)
  totp_generate : string -> string -> string -> option (string * string);
                                                      (* random bytes, issuer, account: secret, URI *)
  mfa_cipher : option AEAD;                           (* the cipher of MFA_KEY_KEK *)
  jwt_sign : Claims -> option string;
  jwt_parse : string -> time -> string -> option Claims;  (* audience, now, token *)
  uuid_parse : string -> option uuid;
}.

(** ** Rows *)

Record User := mkUser {
  uID : uuid; uUsername : string; uEmail : string; uPasswordHash : string; uRole : string;
  uIsActive : bool; uDeleted : bool; uEmailVerified : bool; uPendingEmailVerification : bool;
}.

(** [sessions.revoked_reason] *)
Inductive reason := Rotated | SignedOut | Unclassified.

#[global] Instance reason_eq_dec : EqDecision reason.
Proof. solve_decision. Defined.

Record Session := mkSess {
  sID : uuid; sUserID : uuid; sRefreshHash : string; sUserAgent : string;
  sRevoked : option (time * reason); sExpiresAt : time;
}.

(** [login_throttles] *)
Record Throttle := mkThrottle { fail_count : Z; window_start : time; locked_until : option time }.

(** [user_mfa] *)
Record UserMFA := mkMFA { mSecret : string; mEnabled : bool; mCreated : time; mLastStep : option Z }.

(** [mfa_recovery_codes] *)
Record RecoveryCode := mkCode { rcUser : uuid; rcHash : string; rcUsed : bool }.

(** [step_up_tokens] *)
Record StepUp := mkStepUp {
  tUserID : uuid; tSessionID : uuid; tProvider : string; tHash : string; tExpiresAt : time; tUsed : bool;
}.

(** [user_known_devices] *)
Record Device := mkDevice { dID : uuid; dLabel : string; dFirstSeen : time; dLastSeen : time }.

(** [user_security_prefs] *)
Record Prefs := mkPrefs { pNewDeviceEmail : bool; pLastMail : option time }.

(** What the mailer was asked to send. *)
Inductive mail :=
| MailNewDevice (email : string) (when : time)
| MailTwoFactorRemoved (email : string) (byAdmin : bool)
| MailPasswordChanged (email : string).

(** The database, the clock and the generators ([agen]: row ids, [rand]: the
    bytes the n-th read of the random generator fills its buffer with). *)
Record AuthDB := mkAuth {
  users : gmap uuid User;
  asessions : gmap uuid Session;
  throttles : gmap (uuid * string) Throttle;
  mfa : gmap uuid UserMFA;
  codes : list RecoveryCode;
  stepups : gmap uuid StepUp;
  devices : gmap (uuid * string) Device;
  prefs : gmap uuid Prefs;
  identities : list (uuid * string);
  anow : time;
  agen : nat -> uuid;
  adrawn : nat;
  rand : nat -> option string;
  rdrawn : nat;
  sent : list mail;
}.

Definition set_users f (d : AuthDB) := mkAuth (f (users d)) (asessions d) (throttles d) (mfa d) (codes d) (stepups d) (devices d) (prefs d) (identities d) (anow d) (agen d) (adrawn d) (rand d) (rdrawn d) (sent d).
Definition set_sessions f (d : AuthDB) := mkAuth (users d) (f (asessions d)) (throttles d) (mfa d) (codes d) (stepups d) (devices d) (prefs d) (identities d) (anow d) (agen d) (adrawn d) (rand d) (rdrawn d) (sent d).
Definition set_throttles f (d : AuthDB) := mkAuth (users d) (asessions d) (f (throttles d)) (mfa d) (codes d) (stepups d) (devices d) (prefs d) (identities d) (anow d) (agen d) (adrawn d) (rand d) (rdrawn d) (sent d).
Definition set_mfa f (d : AuthDB) := mkAuth (users d) (asessions d) (throttles d) (f (mfa d)) (codes d) (stepups d) (devices d) (prefs d) (identities d) (anow d) (agen d) (adrawn d) (rand d) (rdrawn d) (sent d).
Definition set_codes f (d : AuthDB) := mkAuth (users d) (asessions d) (throttles d) (mfa d) (f (codes d)) (stepups d) (devices d) (prefs d) (identities d) (anow d) (agen d) (adrawn d) (rand d) (rdrawn d) (sent d).
Definition set_stepups f (d : AuthDB) := mkAuth (users d) (asessions d) (throttles d) (mfa d) (codes d) (f (stepups d)) (devices d) (prefs d) (identities d) (anow d) (agen d) (adrawn d) (rand d) (rdrawn d) (sent d).
Definition set_devices f (d : AuthDB) := mkAuth (users d) (asessions d) (throttles d) (mfa d) (codes d) (stepups d) (f (devices d)) (prefs d) (identities d) (anow d) (agen d) (adrawn d) (rand d) (rdrawn d) (sent d).
Definition set_prefs f (d : AuthDB) := mkAuth (users d) (asessions d) (throttles d) (mfa d) (codes d) (stepups d) (devices d) (f (prefs d)) (identities d) (anow d) (agen d) (adrawn d) (rand d) (rdrawn d) (sent d).
Definition set_anow t (d : AuthDB) := mkAuth (users d) (asessions d) (throttles d) (mfa d) (codes d) (stepups d) (devices d) (prefs d) (identities d) t (agen d) (adrawn d) (rand d) (rdrawn d) (sent d).
Definition draw_id (d : AuthDB) := mkAuth (users d) (asessions d) (throttles d) (mfa d) (codes d) (stepups d) (devices d) (prefs d) (identities d) (anow d) (agen d) (S (adrawn d)) (rand d) (rdrawn d) (sent d).
Definition draw_rand (d : AuthDB) := mkAuth (users d) (asessions d) (throttles d) (mfa d) (codes d) (stepups d) (devices d) (prefs d) (identities d) (anow d) (agen d) (adrawn d) (rand d) (S (rdrawn d)) (sent d).
Definition send (m : mail) (d : AuthDB) := mkAuth (users d) (asessions d) (throttles d) (mfa d) (codes d) (stepups d) (devices d) (prefs d) (identities d) (anow d) (agen d) (adrawn d) (rand d) (rdrawn d) (m :: sent d).

(** One statement: its answer and the next database. *)
Abbreviation stmt A := (AuthDB -> result dberr A * AuthDB) (only parsing).

(** ** users *)

Definition q_GetUserByID (id : uuid) : stmt User := fun d =>
  (match users d !! id with Some u => Ok u | None => Err ErrNoRows end, d).

(** Email first, then username, case-insensitively. *)
Definition q_GetUserByLoginIdentifier (ident : string) : stmt User := fun d =>
  let us := (map_to_list (users d)).*2 in
  let by_email := filter (fun u => ToLower (uEmail u) = ToLower ident) us in
  let by_name := filter (fun u => ToLower (uUsername u) = ToLower ident) us in
  (match by_email ++ by_name with u :: _ => Ok u | [] => Err ErrNoRows end, d).

Definition q_UpdateUserPassword (id : uuid) (hash : string) : stmt unit := fun d =>
  (Ok tt, set_users (alter (fun u => mkUser (uID u) (uUsername u) (uEmail u) hash (uRole u) (uIsActive u)
             (uDeleted u) (uEmailVerified u) (uPendingEmailVerification u)) id) d).

Definition q_DeactivateUser (id : uuid) : stmt unit := fun d =>
  (Ok tt, set_users (alter (fun u => mkUser (uID u) (uUsername u) (uEmail u) (uPasswordHash u) (uRole u) false
             (uDeleted u) (uEmailVerified u) (uPendingEmailVerification u)) id) d).

(** ** sessions *)

Definition q_CreateSession (u : uuid) (hash ua : string) (expires : time) : stmt Session := fun d =>
  let id := agen d (adrawn d) in
  let s := mkSess id u hash ua None expires in
  if bool_decide (users d !! u = None) then (Err ErrStore, draw_id d)
  else if bool_decide (asessions d !! id = None) &&
          forallb (fun s' => negb (bool_decide (sRefreshHash s' = hash))) (map_to_list (asessions d)).*2
  then (Ok s, set_sessions <[id := s]> (draw_id d))
  else (Err ErrUnique, draw_id d).

Definition q_GetSessionByRefreshHash (hash : string) : stmt Session := fun d =>
  (match filter (fun s => sRefreshHash s = hash) (map_to_list (asessions d)).*2 with
   | s :: _ => Ok s
   | [] => Err ErrNoRows
   end, d).

(** The row is revoked now unless it already was. *)
Definition revoke (t : time) (why : reason) (s : Session) : Session :=
  match sRevoked s with
  | Some _ => s
  | None => mkSess (sID s) (sUserID s) (sRefreshHash s) (sUserAgent s) (Some (t, why)) (sExpiresAt s)
  end.

Definition q_RevokeSession (id : uuid) : stmt unit := fun d =>
  (Ok tt, set_sessions (alter (revoke (anow d) SignedOut) id) d).

Definition q_RotateSession (id : uuid) : stmt unit := fun d =>
  (Ok tt, set_sessions (alter (revoke (anow d) Rotated) id) d).

Definition q_RevokeAllUserSessions (u : uuid) : stmt unit := fun d =>
  (Ok tt, set_sessions (fmap (fun s => if bool_decide (sUserID s = u) then revoke (anow d) SignedOut s else s)) d).

Definition q_RevokeOtherUserSessions (u keep : uuid) : stmt unit := fun d =>
  (Ok tt, set_sessions (map_imap (fun id s => Some (
     if bool_decide (sUserID s = u) && negb (bool_decide (id = keep)) then revoke (anow d) SignedOut s else s))) d).

Definition q_GetActiveSessionForAccessToken (id : uuid) : stmt (uuid * string) := fun d =>
  (match asessions d !! id with
   | Some s =>
       match users d !! sUserID s with
       | Some u => if bool_decide (sRevoked s = None) && (anow d <? sExpiresAt s) && uIsActive u && negb (uDeleted u)
                   then Ok (sUserID s, uRole u) else Err ErrNoRows
       | None => Err ErrNoRows
       end
   | None => Err ErrNoRows
   end, d).

(** ** login_throttles *)

Definition q_EnsureLoginThrottle (u : uuid) (scope : string) (t : time) : stmt unit := fun d =>
  if bool_decide (users d !! u = None) then (Err ErrStore, d)
  else match throttles d !! (u, scope) with
       | Some _ => (Ok tt, d)
       | None => (Ok tt, set_throttles <[(u, scope) := mkThrottle 0 t None]> d)
       end.

(** Count one attempt; the answer is the new count and whether this attempt
    found an expired lock (which it clears). *)
Definition q_RecordLoginAttempt (u : uuid) (scope : string) (t : time) (window : duration) : stmt (Z * bool) := fun d =>
  match throttles d !! (u, scope) with
  | None => (Err ErrNoRows, d)
  | Some r =>
      let lapsed := window_start r <=? t - window in
      let n := if lapsed then 1 else fail_count r + 1 in
      let expired := match locked_until r with Some l => l <=? t | None => false end in
      (Ok (n, expired),
       set_throttles <[(u, scope) := mkThrottle n (if lapsed then t else window_start r)
                                       (if expired then None else locked_until r)]> d)
  end.

Definition greatest (l : option time) (t : time) : time := match l with Some l => Z.max l t | None => t end.

Definition q_SetLoginLock (u : uuid) (scope : string) (resetCount : bool) (until : time) : stmt unit := fun d =>
  (Ok tt, set_throttles (alter (fun r =>
     mkThrottle (if resetCount then 0 else fail_count r) (window_start r)
       (Some (greatest (locked_until r) until))) (u, scope)) d).

(** A lock that is still running. *)
Definition locked (t : time) (r : Throttle) : bool :=
  match locked_until r with Some l => t <? l | None => false end.

Definition q_CountActiveLoginLocks (u : uuid) (scopes : list string) (t : time) : stmt Z := fun d =>
  (Ok (Z.of_nat (length (filter (fun kv => kv.1.1 = u /\ kv.1.2 ∈ scopes /\ locked t kv.2 = true)
                           (map_to_list (throttles d))))), d).

Definition q_RecordLoginSuccess (u : uuid) (scope : string) (t : time) : stmt unit := fun d =>
  if bool_decide (users d !! u = None) then (Err ErrStore, d)
  else (Ok tt, set_throttles (fun m =>
          match m !! (u, scope) with
          | Some r => <[(u, scope) := mkThrottle (fail_count r) t (locked_until r)]> m
          | None => <[(u, scope) := mkThrottle 0 t None]> m
          end) d).

Definition q_HasRecentLoginSuccess (u : uuid) (scope : string) (since : time) : stmt bool := fun d =>
  (Ok (match throttles d !! (u, scope) with Some r => since <? window_start r | None => false end), d).

Definition q_ReleaseLoginAttempt (u : uuid) (scope : string) : stmt unit := fun d =>
  (Ok tt, set_throttles (alter (fun r =>
     mkThrottle (Z.max (fail_count r - 1) 0) (window_start r) (locked_until r)) (u, scope)) d).

Definition q_ClearLoginThrottleScope (u : uuid) (scope : string) : stmt unit := fun d =>
  (Ok tt, set_throttles (delete (u, scope)) d).

Definition q_ClearLoginThrottles (u : uuid) : stmt Z := fun d =>
  (Ok (Z.of_nat (length (filter (fun kv => kv.1.1 = u) (map_to_list (throttles d))))),
   set_throttles (filter (fun kv => kv.1.1 <> u)) d).

(** ** user_mfa and mfa_recovery_codes *)

Definition q_GetUserMFA (u : uuid) : stmt UserMFA := fun d =>
  (match mfa d !! u with Some r => Ok r | None => Err ErrNoRows end, d).

Definition q_UpsertUserMFA (u : uuid) (sealed : string) : stmt unit := fun d =>
  if bool_decide (users d !! u = None) then (Err ErrStore, d)
  else match mfa d !! u with
       | Some r => if mEnabled r then (Err ErrNoRows, d)
                   else (Ok tt, set_mfa <[u := mkMFA sealed false (anow d) None]> d)
       | None => (Ok tt, set_mfa <[u := mkMFA sealed false (anow d) None]> d)
       end.

Definition q_EnableUserMFA (u : uuid) : stmt Z := fun d =>
  match mfa d !! u with
  | Some r => if mEnabled r then (Ok 0, d)
              else (Ok 1, set_mfa <[u := mkMFA (mSecret r) true (mCreated r) (mLastStep r)]> d)
  | None => (Ok 0, d)
  end.

Definition q_DeleteUserMFA (u : uuid) : stmt Z := fun d =>
  match mfa d !! u with
  | Some _ => (Ok 1, set_mfa (delete u) d)
  | None => (Ok 0, d)
  end.

(** The step is strictly newer than the last accepted one. *)
Definition newer (last : option Z) (step : Z) : bool :=
  match last with None => true | Some l => l <? step end.

Definition q_BurnTOTPStep (u : uuid) (step : Z) : stmt Z := fun d =>
  match mfa d !! u with
  | Some r => if mEnabled r && newer (mLastStep r) step
              then (Ok 1, set_mfa <[u := mkMFA (mSecret r) (mEnabled r) (mCreated r) (Some step)]> d)
              else (Ok 0, d)
  | None => (Ok 0, d)
  end.

Definition q_BurnPendingTOTPStep (u : uuid) (step : Z) : stmt Z := fun d =>
  match mfa d !! u with
  | Some r => if newer (mLastStep r) step
              then (Ok 1, set_mfa <[u := mkMFA (mSecret r) (mEnabled r) (mCreated r) (Some step)]> d)
              else (Ok 0, d)
  | None => (Ok 0, d)
  end.

Definition q_CreateRecoveryCode (u : uuid) (hash : string) : stmt unit := fun d =>
  if bool_decide (users d !! u = None) then (Err ErrStore, d)
  else (Ok tt, set_codes (fun l => l ++ [mkCode u hash false]) d).

Definition q_DeleteRecoveryCodes (u : uuid) : stmt unit := fun d =>
  (Ok tt, set_codes (filter (fun c => rcUser c <> u)) d).

Definition unused (u : uuid) (hash : string) (c : RecoveryCode) : bool :=
  bool_decide (rcUser c = u) && bool_decide (rcHash c = hash) && negb (rcUsed c).

Definition q_UseRecoveryCode (u : uuid) (hash : string) : stmt Z := fun d =>
  (Ok (Z.of_nat (length (filter (fun c => unused u hash c = true) (codes d)))),
   set_codes (map (fun c => if unused u hash c then mkCode (rcUser c) (rcHash c) true else c)) d).

Definition q_CountUnusedRecoveryCodes (u : uuid) : stmt Z := fun d =>
  (Ok (Z.of_nat (length (filter (fun c => rcUser c = u /\ rcUsed c = false) (codes d)))), d).

Definition q_ListRecentUserMFASecrets (limit : Z) : stmt (list (uuid * string)) := fun d =>
  (Ok (map (fun kv => (kv.1, mSecret kv.2))
         (take (Z.to_nat limit) (merge_sort (by_key (fun kv => - mCreated kv.2)) (map_to_list (mfa d))))), d).

(** ** step_up_tokens *)

Definition q_CreateStepUpToken (u sess : uuid) (provider hash : string) (expires : time) : stmt unit := fun d =>
  let id := agen d (adrawn d) in
  if bool_decide (users d !! u = None) || bool_decide (asessions d !! sess = None) then (Err ErrStore, draw_id d)
  else if bool_decide (stepups d !! id = None) &&
          forallb (fun t => negb (bool_decide (tHash t = hash))) (map_to_list (stepups d)).*2
  then (Ok tt, set_stepups <[id := mkStepUp u sess provider hash expires false]> (draw_id d))
  else (Err ErrUnique, draw_id d).

(** A token that can be spent by this account on this session now. *)
Definition spendable (hash : string) (u sess : uuid) (t : time) (k : StepUp) : bool :=
  bool_decide (tHash k = hash) && bool_decide (tUserID k = u) && bool_decide (tSessionID k = sess) &&
  negb (tUsed k) && (t <? tExpiresAt k).

Definition q_ConsumeStepUpToken (hash : string) (u sess : uuid) : stmt string := fun d =>
  match filter (fun kv => spendable hash u sess (anow d) kv.2 = true) (map_to_list (stepups d)) with
  | (id, k) :: _ =>
      (Ok (tProvider k),
       set_stepups <[id := mkStepUp (tUserID k) (tSessionID k) (tProvider k) (tHash k) (tExpiresAt k) true]> d)
  | [] => (Err ErrNoRows, d)
  end.

Definition q_DeleteUnusedStepUpTokensForSession (sess : uuid) : stmt unit := fun d =>
  (Ok tt, set_stepups (filter (fun kv => ~ (tSessionID kv.2 = sess /\ tUsed kv.2 = false))) d).

Definition q_DeleteExpiredStepUpTokens : stmt unit := fun d =>
  (Ok tt, set_stepups (filter (fun kv => anow d <= tExpiresAt kv.2)) d).

Definition q_MoveStepUpTokensToSession (from to : uuid) : stmt unit := fun d =>
  if bool_decide (asessions d !! to = None) then (Err ErrStore, d)
  else (Ok tt, set_stepups (fmap (fun k =>
          if bool_decide (tSessionID k = from) && negb (tUsed k) && (anow d <? tExpiresAt k)
          then mkStepUp (tUserID k) to (tProvider k) (tHash k) (tExpiresAt k) (tUsed k) else k)) d).

Definition q_ListOAuthIdentitiesByUser (u : uuid) : stmt (list string) := fun d =>
  (Ok (filter (fun i => i.1 = u) (identities d)).*2, d).

(** ** user_known_devices and user_security_prefs *)

Definition devices_of (u : uuid) (d : AuthDB) : list (uuid * string * Device) :=
  filter (fun kv => kv.1.1 = u) (map_to_list (devices d)).

Definition q_CountUserKnownDevices (u : uuid) : stmt Z := fun d =>
  (Ok (Z.of_nat (length (devices_of u d))), d).

(** The answer says whether the device is new. *)
Definition q_TouchKnownDevice (u : uuid) (hash label : string) : stmt bool := fun d =>
  if bool_decide (users d !! u = None) then (Err ErrStore, draw_id d)
  else match devices d !! (u, hash) with
       | Some k => (Ok false, set_devices <[(u, hash) := mkDevice (dID k) label (dFirstSeen k) (anow d)]> (draw_id d))
       | None => (Ok true, set_devices <[(u, hash) := mkDevice (agen d (adrawn d)) label (anow d) (anow d)]> (draw_id d))
       end.

Definition q_HasKnownDevice (u : uuid) (hash : string) : stmt bool := fun d =>
  (Ok (bool_decide (is_Some (devices d !! (u, hash)))), d).

(** Newest first: by last sight, then by first sight. *)
Definition fresher (x y : uuid * string * Device) : Prop :=
  dLastSeen y.2 < dLastSeen x.2 \/ (dLastSeen y.2 = dLastSeen x.2 /\ dFirstSeen y.2 <= dFirstSeen x.2).

#[global] Instance fresher_dec : RelDecision fresher.
Proof. intros x y. unfold fresher. apply _. Defined.

Definition q_PruneKnownDevices (u : uuid) (cutoff : time) (keep : nat) : stmt unit := fun d =>
  let surplus := drop keep (merge_sort fresher (devices_of u d)) in
  (Ok tt, set_devices (filter (fun kv =>
     ~ (kv.1.1 = u /\ (dLastSeen kv.2 < cutoff \/ kv.1 ∈ surplus.*1)))) d).

Definition q_ListKnownDevices (u : uuid) : stmt (list (string * Device)) := fun d =>
  (Ok (take 100 (map (fun kv => (kv.1.2, kv.2))
         (merge_sort (by_key (fun kv => - dLastSeen kv.2)) (devices_of u d)))), d).

Definition q_DeleteKnownDevice (u id : uuid) : stmt Z := fun d =>
  (Ok (Z.of_nat (length (filter (fun kv => dID kv.2 = id) (devices_of u d)))),
   set_devices (filter (fun kv => ~ (kv.1.1 = u /\ dID kv.2 = id))) d).

Definition q_GetSecurityPrefs (u : uuid) : stmt bool := fun d =>
  (match prefs d !! u with Some p => Ok (pNewDeviceEmail p) | None => Err ErrNoRows end, d).

Definition q_SetNewDeviceEmailPref (u : uuid) (on : bool) : stmt unit := fun d =>
  if bool_decide (users d !! u = None) then (Err ErrStore, d)
  else (Ok tt, set_prefs (partial_alter (fun o => Some (mkPrefs on (o ≫= pLastMail))) u) d).

(** At most one mail per cooldown: the answer says whether this caller won. *)
Definition q_ClaimNewDeviceEmailSlot (u : uuid) (t : time) (cooldown : duration) : stmt bool := fun d =>
  if bool_decide (users d !! u = None) then (Err ErrStore, d)
  else match prefs d !! u with
       | None => (Ok true, set_prefs <[u := mkPrefs true (Some t)]> d)
       | Some p =>
           if match pLastMail p with None => true | Some l => l <=? t - cooldown end
           then (Ok true, set_prefs <[u := mkPrefs (pNewDeviceEmail p) (Some t)]> d)
           else (Ok false, d)
       end.

(** ** The service's collaborators *)

(** Every repository of [auth.Service], the injected clock and the delay, the
    random generator and the mailer. *)
Inductive authE : Type -> Type :=
| GetUserByID (id : uuid) : authE (result dberr User)
| GetUserByLoginIdentifier (ident : string) : authE (result dberr User)
| UpdateUserPassword (id : uuid) (hash : string) : authE (result dberr unit)
| DeactivateUser (id : uuid) : authE (result dberr unit)
| CreateSession (u : uuid) (hash ua : string) (expires : time) : authE (result dberr Session)
| GetSessionByRefreshHash (hash : string) : authE (result dberr Session)
| RevokeSession (id : uuid) : authE (result dberr unit)
| RotateSession (id : uuid) : authE (result dberr unit)
| RevokeAllUserSessions (u : uuid) : authE (result dberr unit)
| RevokeOtherUserSessions (u keep : uuid) : authE (result dberr unit)
| GetActiveSessionForAccessToken (id : uuid) : authE (result dberr (uuid * string))
| EnsureLoginThrottle (u : uuid) (scope : string) (t : time) : authE (result dberr unit)
| RecordLoginAttempt (u : uuid) (scope : string) (t : time) (window : duration) : authE (result dberr (Z * bool))
| SetLoginLock (u : uuid) (scope : string) (resetCount : bool) (until : time) : authE (result dberr unit)
| CountActiveLoginLocks (u : uuid) (scopes : list string) (t : time) : authE (result dberr Z)
| RecordLoginSuccess (u : uuid) (scope : string) (t : time) : authE (result dberr unit)
| HasRecentLoginSuccess (u : uuid) (scope : string) (since : time) : authE (result dberr bool)
| ReleaseLoginAttempt (u : uuid) (scope : string) : authE (result dberr unit)
| ClearLoginThrottleScope (u : uuid) (scope : string) : authE (result dberr unit)
| ClearLoginThrottles (u : uuid) : authE (result dberr Z)
| GetUserMFA (u : uuid) : authE (result dberr UserMFA)
| UpsertUserMFA (u : uuid) (sealed : string) : authE (result dberr unit)
| EnableUserMFA (u : uuid) : authE (result dberr Z)
| DeleteUserMFA (u : uuid) : authE (result dberr Z)
| BurnTOTPStep (u : uuid) (step : Z) : authE (result dberr Z)
| BurnPendingTOTPStep (u : uuid) (step : Z) : authE (result dberr Z)
| CreateRecoveryCode (u : uuid) (hash : string) : authE (result dberr unit)
| DeleteRecoveryCodes (u : uuid) : authE (result dberr unit)
| UseRecoveryCode (u : uuid) (hash : string) : authE (result dberr Z)
| CountUnusedRecoveryCodes (u : uuid) : authE (result dberr Z)
| ListRecentUserMFASecrets (limit : Z) : authE (result dberr (list (uuid * string)))
| CreateStepUpToken (u sess : uuid) (provider hash : string) (expires : time) : authE (result dberr unit)
| ConsumeStepUpToken (hash : string) (u sess : uuid) : authE (result dberr string)
| DeleteUnusedStepUpTokensForSession (sess : uuid) : authE (result dberr unit)
| DeleteExpiredStepUpTokens : authE (result dberr unit)
| MoveStepUpTokensToSession (from to : uuid) : authE (result dberr unit)
| ListOAuthIdentitiesByUser (u : uuid) : authE (result dberr (list string))
| CountUserKnownDevices (u : uuid) : authE (result dberr Z)
| TouchKnownDevice (u : uuid) (hash label : string) : authE (result dberr bool)
| HasKnownDevice (u : uuid) (hash : string) : authE (result dberr bool)
| PruneKnownDevices (u : uuid) (cutoff : time) (keep : nat) : authE (result dberr unit)
| ListKnownDevices (u : uuid) : authE (result dberr (list (string * Device)))
| DeleteKnownDevice (u id : uuid) : authE (result dberr Z)
| GetSecurityPrefs (u : uuid) : authE (result dberr bool)
| SetNewDeviceEmailPref (u : uuid) (on : bool) : authE (result dberr unit)
| ClaimNewDeviceEmailSlot (u : uuid) (t : time) (cooldown : duration) : authE (result dberr bool)
| ANow : authE time
| Sleep (d : duration) : authE unit
| Random : authE (option string)
| Mail (m : mail) : authE unit.

(** The state: the database with its fault schedule. The clock, the random
    generator and the mailer do not fail here: their failures are answers
    ([Random]) or ignored by the callers ([Mail]). *)
Abbreviation authW := (faulty AuthDB) (only parsing).

(** An operation that is not a statement. *)
Definition pure_op {A} (op : AuthDB -> A * AuthDB) (w : faulty AuthDB) : A * faulty AuthDB :=
  ((op (store w)).1, Faulty (op (store w)).2 (faults w)).

Definition auth_handler : handler authE (faulty AuthDB) := fun X e w =>
  match e in authE X return X * faulty AuthDB with
  | GetUserByID id => exec (q_GetUserByID id) w
  | GetUserByLoginIdentifier ident => exec (q_GetUserByLoginIdentifier ident) w
  | UpdateUserPassword id hash => exec (q_UpdateUserPassword id hash) w
  | DeactivateUser id => exec (q_DeactivateUser id) w
  | CreateSession u hash ua expires => exec (q_CreateSession u hash ua expires) w
  | GetSessionByRefreshHash hash => exec (q_GetSessionByRefreshHash hash) w
  | RevokeSession id => exec (q_RevokeSession id) w
  | RotateSession id => exec (q_RotateSession id) w
  | RevokeAllUserSessions u => exec (q_RevokeAllUserSessions u) w
  | RevokeOtherUserSessions u keep => exec (q_RevokeOtherUserSessions u keep) w
  | GetActiveSessionForAccessToken id => exec (q_GetActiveSessionForAccessToken id) w
  | EnsureLoginThrottle u scope t => exec (q_EnsureLoginThrottle u scope t) w
  | RecordLoginAttempt u scope t window => exec (q_RecordLoginAttempt u scope t window) w
  | SetLoginLock u scope resetCount until => exec (q_SetLoginLock u scope resetCount until) w
  | CountActiveLoginLocks u scopes t => exec (q_CountActiveLoginLocks u scopes t) w
  | RecordLoginSuccess u scope t => exec (q_RecordLoginSuccess u scope t) w
  | HasRecentLoginSuccess u scope since => exec (q_HasRecentLoginSuccess u scope since) w
  | ReleaseLoginAttempt u scope => exec (q_ReleaseLoginAttempt u scope) w
  | ClearLoginThrottleScope u scope => exec (q_ClearLoginThrottleScope u scope) w
  | ClearLoginThrottles u => exec (q_ClearLoginThrottles u) w
  | GetUserMFA u => exec (q_GetUserMFA u) w
  | UpsertUserMFA u sealed => exec (q_UpsertUserMFA u sealed) w
  | EnableUserMFA u => exec (q_EnableUserMFA u) w
  | DeleteUserMFA u => exec (q_DeleteUserMFA u) w
  | BurnTOTPStep u step => exec (q_BurnTOTPStep u step) w
  | BurnPendingTOTPStep u step => exec (q_BurnPendingTOTPStep u step) w
  | CreateRecoveryCode u hash => exec (q_CreateRecoveryCode u hash) w
  | DeleteRecoveryCodes u => exec (q_DeleteRecoveryCodes u) w
  | UseRecoveryCode u hash => exec (q_UseRecoveryCode u hash) w
  | CountUnusedRecoveryCodes u => exec (q_CountUnusedRecoveryCodes u) w
  | ListRecentUserMFASecrets limit => exec (q_ListRecentUserMFASecrets limit) w
  | CreateStepUpToken u sess provider hash expires => exec (q_CreateStepUpToken u sess provider hash expires) w
  | ConsumeStepUpToken hash u sess => exec (q_ConsumeStepUpToken hash u sess) w
  | DeleteUnusedStepUpTokensForSession sess => exec (q_DeleteUnusedStepUpTokensForSession sess) w
  | DeleteExpiredStepUpTokens => exec (q_DeleteExpiredStepUpTokens) w
  | MoveStepUpTokensToSession from to => exec (q_MoveStepUpTokensToSession from to) w
  | ListOAuthIdentitiesByUser u => exec (q_ListOAuthIdentitiesByUser u) w
  | CountUserKnownDevices u => exec (q_CountUserKnownDevices u) w
  | TouchKnownDevice u hash label => exec (q_TouchKnownDevice u hash label) w
  | HasKnownDevice u hash => exec (q_HasKnownDevice u hash) w
  | PruneKnownDevices u cutoff keep => exec (q_PruneKnownDevices u cutoff keep) w
  | ListKnownDevices u => exec (q_ListKnownDevices u) w
  | DeleteKnownDevice u id => exec (q_DeleteKnownDevice u id) w
  | GetSecurityPrefs u => exec (q_GetSecurityPrefs u) w
  | SetNewDeviceEmailPref u on => exec (q_SetNewDeviceEmailPref u on) w
  | ClaimNewDeviceEmailSlot u t cooldown => exec (q_ClaimNewDeviceEmailSlot u t cooldown) w
  | ANow => (anow (store w), w)
  | Sleep dur => pure_op (fun d => (tt, set_anow (anow d + Z.max 0 dur) d)) w
  | Random => pure_op (fun d => (rand d (rdrawn d), draw_rand d)) w
  | Mail m => pure_op (fun d => (tt, send m d)) w
  end.


(** [auth.Service]'s configuration: the primitives, and which optional
    collaborators are wired. *)
Record AuthService := mkAuthService {
  a_crypto : Crypto;
  a_lockStore : bool;
  a_delayOnlyPrefix : bool;
  a_deviceStore : bool;
  a_newDeviceMailer : bool;
  a_mfaRepo : bool;
  a_verificationGate : bool;
  a_refreshTTL : duration;
  a_audience : string;
  a_accessTTL : duration;
  a_mfaIssuerName : string;
}.

(** ** Lemmas: the handler *)

Section HandlerLemmas.
Context (R : AuthDB -> AuthDB -> Prop) `{!PreOrder R}.

Lemma pure_rel {A} (op : AuthDB -> A * AuthDB) w :
  (forall d, R d (op d).2) -> R (store w) (store (pure_op op w).2).
Proof. intros Hop. apply Hop. Qed.

End HandlerLemmas.

(** A statement that leaves alone what the lemma is about: every branch is the
    same table. *)
Ltac untouched lem :=
  cbv beta zeta delta [q_CreateSession q_EnsureLoginThrottle q_RecordLoginAttempt q_RecordLoginSuccess
    q_UpsertUserMFA q_EnableUserMFA q_DeleteUserMFA q_BurnTOTPStep q_BurnPendingTOTPStep q_CreateRecoveryCode
    q_CreateStepUpToken q_ConsumeStepUpToken q_MoveStepUpTokensToSession q_TouchKnownDevice
    q_SetNewDeviceEmailPref q_ClaimNewDeviceEmailSlot];
  repeat case_match; solve [apply lem; done].

(** Time passes between operations. *)
Definition aclock (w w' : faulty AuthDB) : Prop :=
  exists t, anow (store w) <= t /\ w' = Faulty (set_anow t (store w)) (faults w).
