(* ===== verification/Devices.v ===== *)
(** * New-device notices (src/internal/auth/devices.go)

    Recognising the device a sign-in came from and mailing the account when it
    is new, at most once per cooldown; the device list the owner sees. *)
From S2P Require Import Prelude GoStrings AuthStore.
Local Open Scope Z_scope.

Definition newDeviceMailCooldown : duration := Hour.
Definition maxKnownDevices : nat := 50.
Definition knownDeviceMaxAge : duration := 180 * 24 * Hour.

(** [uaLabel]: browser and operating system, coarsely. *)
Definition uaLabel (ua : string) : string * string :=
  let l := ToLower ua in
  let has := Contains l in
  (if has "edg/" || has "edge/" then "Edge"
   else if has "opr/" || has "opera" then "Opera"
   else if has "firefox/" || has "fxios" then "Firefox"
   else if has "chrome/" || has "crios" then "Chrome"
   else if has "safari/" then "Safari"
   else "Unknown browser",
   if has "iphone" || has "ipad" then "iOS"
   else if has "android" then "Android"
   else if has "windows" then "Windows"
   else if has "mac os x" || has "macintosh" then "macOS"
   else if has "cros" then "ChromeOS"
   else if has "linux" || has "x11" then "Linux"
   else "Unknown OS")%string.

Definition nul_string : string := String (Ascii.ascii_of_nat 0) EmptyString.

(** [deviceHash] *)
Definition deviceHash (c : Crypto) (token browser os : string) : string :=
  sha256_hex c (token +:+ nul_string +:+ browser +:+ nul_string +:+ os).

Section Devices.
Context (s : AuthService).
Abbreviation M A := (prog authE A) (only parsing).

(** [Service.knownDeviceFromContext]; [token] is the request's device cookie. *)
Definition knownDeviceFromContext (token : string) (userID : uuid) (userAgent : string) : M bool :=
  if negb (a_deviceStore s) || bool_decide (token = EmptyString) then mret false
  else
    let '(b, o) := uaLabel userAgent in
    r ← call (HasKnownDevice userID (deviceHash (a_crypto s) token b o));
    mret (match r with Ok ok => ok | Err _ => false end).

(** [Service.noteSignIn] *)
Definition noteSignIn (token : string) (user : User) (userAgent : string) : M unit :=
  if negb (a_deviceStore s) || bool_decide (token = EmptyString) then mret tt else
  let '(browser, os) := uaLabel userAgent in
  k ← call (CountUserKnownDevices (uID user));
  match k with
  | Err _ => mret tt
  | Ok known =>
      t ← call (TouchKnownDevice (uID user) (deviceHash (a_crypto s) token browser os)
                  (browser +:+ " on " +:+ os));
      match t with
      | Err _ => mret tt
      | Ok isNew =>
          _ ← (if isNew then
                 now ← call ANow;
                 _ ← call (PruneKnownDevices (uID user) (now - knownDeviceMaxAge) maxKnownDevices);
                 mret tt
               else mret tt);
          if negb isNew || (known =? 0) then mret tt else
          p ← call (GetSecurityPrefs (uID user));
          match p with
          | Ok false => mret tt
          | _ =>
              if negb (a_newDeviceMailer s) || bool_decide (uEmail user = EmptyString) then mret tt else
              now ← call ANow;
              c ← call (ClaimNewDeviceEmailSlot (uID user) now newDeviceMailCooldown);
              match c with
              | Ok true =>
                  when ← call ANow;
                  _ ← call (Mail (MailNewDevice (uEmail user) when));
                  mret tt
              | _ => mret tt
              end
          end
      end
  end.

Record DeviceView := mkDeviceView {
  dv_ID : uuid; dv_Label : string; dv_FirstSeen : time; dv_LastSeen : time; dv_Current : bool;
}.

(** [Service.KnownDevices] *)
Definition KnownDevices (userID : uuid) (token userAgent : string) : M (result dberr (list DeviceView)) :=
  if negb (a_deviceStore s) then mret (Ok []) else
  r ← call (ListKnownDevices userID);
  mret (match r with
        | Err e => Err e
        | Ok rows =>
            let '(browser, os) := uaLabel userAgent in
            let cur := if bool_decide (token = EmptyString) then EmptyString
                       else deviceHash (a_crypto s) token browser os in
            Ok (map (fun '(hash, k) => mkDeviceView (dID k) (dLabel k) (dFirstSeen k) (dLastSeen k)
                       (negb (bool_decide (cur = EmptyString)) && bool_decide (hash = cur))) rows)
        end).

(** [Service.ForgetDevice]: [false] is ErrDeviceNotFound. *)
Definition ForgetDevice (userID deviceID : uuid) : M (result dberr bool) :=
  if negb (a_deviceStore s) then mret (Ok false) else
  r ← call (DeleteKnownDevice userID deviceID);
  mret (match r with Err e => Err e | Ok n => Ok (negb (n =? 0)) end).

(** [Service.NewDeviceEmailEnabled] *)
Definition NewDeviceEmailEnabled (userID : uuid) : M bool :=
  if negb (a_deviceStore s) then mret false else
  r ← call (GetSecurityPrefs userID);
  mret (match r with Ok on => on | Err _ => true end).

(** [Service.SetNewDeviceEmailEnabled] *)
Definition SetNewDeviceEmailEnabled (userID : uuid) (on : bool) : M (result dberr unit) :=
  if negb (a_deviceStore s) then mret (Ok tt) else call (SetNewDeviceEmailPref userID on).

End Devices.
