(* ===== verification/LoginLock.v ===== *)
(** * Failed-login backoff (src/internal/auth/loginlock.go)

    The per-account brake on password guessing: [gateLogin] counts an attempt
    before the password is compared, [lockPrefix] and [lockAll] set the locks,
    [loginFailed] and [loginSucceeded] settle the attempt. [ipScope], which
    reduces an address to its /24 or /48, is outside the model: the scope it
    returns is an argument. *)
From S2P Require Import Prelude GoStrings AuthStore Devices.
Local Open Scope Z_scope.
Local Open Scope go_scope.

Definition lockWindow : duration := 15 * Minute.
Definition prefixThreshold : Z := 5.
Definition prefixLockBase : duration := 30 * Second.
Definition prefixLockMax : duration := 15 * Minute.
Definition globalThreshold : Z := 30.
Definition globalLockFor : duration := 2 * Minute.
Definition maxDelayOnly : duration := 2 * Second.
Definition knownPrefixFor : duration := 30 * 24 * Hour.
Definition scopeAll : string := "all".

(** The loops [for i := from; i < n && d < max; i++ { d *= 2 }]. *)
Fixpoint double_loop (fuel : nat) (i n : Z) (d max : duration) : duration :=
  match fuel with
  | O => d
  | S fuel' => if (i <? n) && (d <? max) then double_loop fuel' (i + 1) n (d *% 2) max else d
  end.

Definition doubled (from n : Z) (d max : duration) : duration :=
  let d' := double_loop (Z.to_nat (n - from)) from n d max in
  if max <? d' then max else d'.

(** [delayFor] *)
Definition delayFor (n : Z) : duration :=
  if n <=? prefixThreshold then 0 else doubled (prefixThreshold + 1) n (100 * Millisecond) maxDelayOnly.

(** How long [lockPrefix] locks. *)
Definition lockFor (n : Z) : duration := doubled prefixThreshold n prefixLockBase prefixLockMax.

Definition okScope (ipScope : string) : string := "ok:" +:+ ipScope.

(** [loginGate] *)
Record loginGate := mkGate { g_refuse : bool; g_scope : string; g_ipN : Z; g_allN : Z; g_exempt : bool }.

Section LoginLock.
Context (s : AuthService).
Abbreviation M A := (prog authE A) (only parsing).

(** [Service.lockPrefix] *)
Definition lockPrefix (userID : uuid) (scope : string) (n : Z) : M unit :=
  t ← call ANow;
  _ ← call (SetLoginLock userID scope false (t + lockFor n));
  mret tt.

(** [Service.lockAll] *)
Definition lockAll (userID : uuid) : M unit :=
  t ← call ANow;
  _ ← call (SetLoginLock userID scopeAll true (t + globalLockFor));
  mret tt.

(** [Service.globalCapExempt]; [token] is the request's device cookie. *)
Definition globalCapExempt (token : string) (user : User) (scope userAgent : string) : M bool :=
  t ← call ANow;
  r ← call (HasRecentLoginSuccess (uID user) (okScope scope) (t - knownPrefixFor));
  match r with
  | Ok true => mret true
  | _ => knownDeviceFromContext s token (uID user) userAgent
  end.

(** [Service.wait] *)
Definition wait (d : duration) : M unit := if d <=? 0 then mret tt else call (Sleep d).

(** The rest of [gateLogin] once the exemption is known. *)
Definition gateCount (user : User) (scope : string) (now : time) (exempt : bool) : M loginGate :=
  let scopes := if exempt then [scope] else [scope; scopeAll] in
  n ← call (CountActiveLoginLocks (uID user) scopes now);
  if match n with Ok n => 0 <? n | Err _ => false end then mret (mkGate true scope 0 0 exempt) else
  _ ← call (EnsureLoginThrottle (uID user) scope now);
  _ ← call (EnsureLoginThrottle (uID user) scopeAll now);
  r ← call (RecordLoginAttempt (uID user) scope now lockWindow);
  g ← match r with
      | Err _ => mret (mkGate false scope 0 0 exempt)
      | Ok (count, probe) =>
          if a_delayOnlyPrefix s then
            _ ← wait (delayFor count); mret (mkGate false scope count 0 exempt)
          else if (prefixThreshold <? count) && negb probe then
            _ ← lockPrefix (uID user) scope count; mret (mkGate true scope count 0 exempt)
          else mret (mkGate false scope count 0 exempt)
      end;
  r2 ← call (RecordLoginAttempt (uID user) scopeAll now lockWindow);
  match r2 with
  | Err _ => mret g
  | Ok (count, probe) =>
      if (globalThreshold <? count) && negb probe && negb exempt then
        _ ← lockAll (uID user); mret (mkGate true scope (g_ipN g) count exempt)
      else mret (mkGate (g_refuse g) scope (g_ipN g) count exempt)
  end.

(** [Service.gateLogin] *)
Definition gateLogin (token : string) (user : User) (scope userAgent : string) : M loginGate :=
  if negb (a_lockStore s) then mret (mkGate false scope 0 0 false) else
  now ← call ANow;
  exempt ← globalCapExempt token user scope userAgent;
  gateCount user scope now exempt.

(** [Service.loginFailed] *)
Definition loginFailed (user : User) (g : loginGate) : M unit :=
  if negb (a_lockStore s) then mret tt else
  _ ← (if (prefixThreshold <=? g_ipN g) && negb (a_delayOnlyPrefix s)
       then lockPrefix (uID user) (g_scope g) (g_ipN g) else mret tt);
  if (globalThreshold <=? g_allN g) && negb (g_exempt g) then lockAll (uID user) else mret tt.

(** [Service.loginSucceeded] *)
Definition loginSucceeded (user : User) (g : loginGate) : M unit :=
  if negb (a_lockStore s) then mret tt else
  _ ← call (ClearLoginThrottleScope (uID user) (g_scope g));
  _ ← call (ReleaseLoginAttempt (uID user) scopeAll);
  t ← call ANow;
  _ ← call (RecordLoginSuccess (uID user) (okScope (g_scope g)) t);
  mret tt.

(** [Service.ClearLoginLockout]: [None] is ErrAccountNotFound. *)
Definition ClearLoginLockout (userID : uuid) : M (option (result dberr bool)) :=
  u ← call (GetUserByID userID);
  match u with
  | Err _ => mret None
  | Ok _ =>
      if negb (a_lockStore s) then mret (Some (Ok false)) else
      r ← call (ClearLoginThrottles userID);
      mret (Some (match r with Ok n => Ok (0 <? n) | Err e => Err e end))
  end.

End LoginLock.

(** ** Lemmas: the schedules *)

Lemma double_loop_min fuel i n d max :
  (Z.to_nat (n - i) <= fuel)%nat -> 0 < d < 2 ^ 62 -> max < 2 ^ 61 -> i <= n ->
  (let d' := double_loop fuel i n d max in if max <? d' then max else d') = Z.min (d * 2 ^ (n - i)) max.
Proof.
  revert i d. induction fuel as [|fuel IH]; intros i d Hf Hd Hm Hi; cbn [double_loop].
  { replace (n - i) with 0 by lia. rewrite Z.mul_1_r. destruct (Z.ltb_spec max d); lia. }
  destruct (Z.ltb_spec i n); cbn [andb].
  - assert (Hpow : 2 ^ (n - i) = 2 * 2 ^ (n - (i + 1))).
    { rewrite <- Z.pow_succ_r by lia. f_equal. lia. }
    assert (1 <= 2 ^ (n - (i + 1))) by (apply (Z.pow_le_mono_r 2 0); lia).
    destruct (Z.ltb_spec d max).
    + unwrap. rewrite IH by lia. rewrite Hpow. f_equal. ring.
    + cbv zeta. rewrite Hpow. destruct (Z.ltb_spec max d); nia.
  - replace (n - i) with 0 by lia. rewrite Z.mul_1_r. cbv zeta. destruct (Z.ltb_spec max d); lia.
Qed.

Lemma doubled_min from n d max :
  0 < d < 2 ^ 62 -> max < 2 ^ 61 -> from <= n -> doubled from n d max = Z.min (d * 2 ^ (n - from)) max.
Proof. intros. unfold doubled. by apply double_loop_min. Qed.

(** ** Lemmas: the gate *)

Section GateLemmas.
Context (s : AuthService).
Implicit Types (d : AuthDB) (user : User) (scope : string).

(** Whether the request is exempt from the account-wide cap. *)
Definition is_exempt (token : string) user scope (userAgent : string) d : bool :=
  match throttles d !! (uID user, okScope scope) with
  | Some r => anow d - knownPrefixFor <? window_start r
  | None => false
  end ||
  (a_deviceStore s && negb (bool_decide (token = EmptyString)) &&
   bool_decide (is_Some (devices d !! (uID user, deviceHash (a_crypto s) token (uaLabel userAgent).1 (uaLabel userAgent).2)))).

Lemma run_globalCapExempt token user scope ua d :
  run auth_handler (globalCapExempt s token user scope ua) (Faulty d []) =
    (is_exempt token user scope ua d, Faulty d []).
Proof.
  unfold globalCapExempt, is_exempt. rewrite run_mbind, run_call. cbn [auth_handler fst snd].
  rewrite run_mbind, run_call. cbn [auth_handler store]. rewrite exec_fine. cbn [fst snd q_HasRecentLoginSuccess].
  destruct (match throttles d !! (uID user, okScope scope) with
            | Some r => anow d - knownPrefixFor <? window_start r | None => false end); [done|].
  unfold knownDeviceFromContext. destruct (a_deviceStore s); cbn [negb orb andb]; [|done].
  destruct (bool_decide (token = EmptyString)); cbn [negb]; [done|].
  destruct (uaLabel ua) as [b o]. rewrite run_mbind, run_call. done.
Qed.

(** The lock the account has on a scope is running. *)
Definition lock_running user scope d : bool :=
  match throttles d !! (uID user, scope) with Some r => locked (anow d) r | None => false end.

Lemma count_locks user scopes d :
  (match (q_CountActiveLoginLocks (uID user) scopes (anow d) d).1 with Ok n => 0 <? n | Err _ => false end) =
  existsb (fun sc => lock_running user sc d) scopes.
Proof.
  cbn. destruct (existsb _ _) eqn:He.
  - apply existsb_exists in He as (sc & Hin%list_elem_of_In & Hl). unfold lock_running in Hl.
    destruct (throttles d !! (uID user, sc)) as [r|] eqn:Hr; [|done]. apply Z.ltb_lt.
    apply elem_of_map_to_list in Hr.
    assert (Hf : ((uID user, sc), r) ∈ filter (fun kv => kv.1.1 = uID user /\ kv.1.2 ∈ scopes /\ locked (anow d) kv.2 = true)
              (map_to_list (throttles d))) by (by apply list_elem_of_filter).
    destruct (filter _ _); [by apply not_elem_of_nil in Hf|cbn; lia].
  - apply Z.ltb_ge. destruct (filter _ _) as [|[[u sc] r] l] eqn:Hf; [done|].
    assert (Hin : ((u, sc), r) ∈ ((u, sc), r) :: l) by left. rewrite <- Hf in Hin.
    apply list_elem_of_filter in Hin as ((Hu & Hsc & Hl) & Hin). cbn in Hu, Hsc, Hl. subst u.
    apply elem_of_map_to_list in Hin.
    assert (existsb (fun sc => lock_running user sc d) scopes = true); [|congruence].
    apply existsb_exists. exists sc. split; [by apply list_elem_of_In|]. unfold lock_running. by rewrite Hin.
Qed.

(** The scopes whose locks refuse a request. *)
Definition gate_scopes (exempt : bool) scope : list string := if exempt then [scope] else [scope; scopeAll].

(** A running lock refuses, and the attempt leaves no trace. *)
Lemma run_gate_locked token user scope ua d :
  a_lockStore s = true ->
  existsb (fun sc => lock_running user sc d) (gate_scopes (is_exempt token user scope ua d) scope) = true ->
  run auth_handler (gateLogin s token user scope ua) (Faulty d []) =
    (mkGate true scope 0 0 (is_exempt token user scope ua d), Faulty d []).
Proof.
  intros Hs Hl. unfold gateLogin. rewrite Hs. cbn [negb]. rewrite run_mbind, run_call. cbn [auth_handler fst snd].
  rewrite run_mbind, run_globalCapExempt. cbn [fst snd store]. unfold gateCount. cbv zeta.
  rewrite run_mbind, run_call. cbn [auth_handler]. rewrite exec_fine. cbn [fst snd].
  fold (gate_scopes (is_exempt token user scope ua d) scope). rewrite count_locks, Hl. done.
Qed.

(** The row a scope has once it is ensured. *)
Definition ensured (t : time) user scope d : Throttle :=
  default (mkThrottle 0 t None) (throttles d !! (uID user, scope)).

(** One counted attempt on a row. *)
Definition counted (t : time) (r : Throttle) : Z := if window_start r <=? t - lockWindow then 1 else fail_count r + 1.
Definition expired (t : time) (r : Throttle) : bool := match locked_until r with Some l => l <=? t | None => false end.
Definition after_attempt (t : time) (r : Throttle) : Throttle :=
  mkThrottle (counted t r) (if window_start r <=? t - lockWindow then t else window_start r)
    (if expired t r then None else locked_until r).

Lemma run_ensure user sc t d :
  users d !! uID user <> None ->
  (auth_handler _ (EnsureLoginThrottle (uID user) sc t) (Faulty d [])).2 =
    Faulty (set_throttles <[(uID user, sc) := ensured t user sc d]> d) [].
Proof.
  intros Hu. cbn [auth_handler]. rewrite exec_fine. cbn [snd]. unfold q_EnsureLoginThrottle, ensured.
  rewrite bool_decide_eq_false_2 by done. f_equal.
  destruct (throttles d !! (uID user, sc)) eqn:Ht; cbn; [|done].
  unfold set_throttles. rewrite insert_id by done. by destruct d.
Qed.

(** Setting a lock. *)
Definition lock_row (reset : bool) (until : time) (r : Throttle) : Throttle :=
  mkThrottle (if reset then 0 else fail_count r) (window_start r) (Some (greatest (locked_until r) until)).

Definition refuses_prefix (t : time) (r : Throttle) : bool :=
  (prefixThreshold <? counted t r) && negb (expired t r) && negb (a_delayOnlyPrefix s).
Definition refuses_all (t : time) (exempt : bool) (r : Throttle) : bool :=
  (globalThreshold <? counted t r) && negb (expired t r) && negb exempt.

Lemma exec_record user sc t d r :
  throttles d !! (uID user, sc) = Some r ->
  auth_handler _ (RecordLoginAttempt (uID user) sc t lockWindow) (Faulty d []) =
    (Ok (counted t r, expired t r), Faulty (set_throttles <[(uID user, sc) := after_attempt t r]> d) []).
Proof. intros Hr. cbn [auth_handler]. rewrite exec_fine. unfold q_RecordLoginAttempt. by rewrite Hr. Qed.

(** The verdict on the prefix's own count, with its lock. *)
Lemma run_prefix_step user scope t ex r d :
  a_delayOnlyPrefix s = false -> anow d = t -> throttles d !! (uID user, scope) = Some (after_attempt t r) ->
  exists d', run auth_handler
    (if (prefixThreshold <? counted t r) && negb (expired t r)
     then _ ← lockPrefix (uID user) scope (counted t r); mret (mkGate true scope (counted t r) 0 ex)
     else mret (mkGate false scope (counted t r) 0 ex)) (Faulty d []) =
      (mkGate (refuses_prefix t r) scope (counted t r) 0 ex, Faulty d' []) /\
    anow d' = t /\ users d' = users d /\
    throttles d' !! (uID user, scope) =
      Some (let r1 := after_attempt t r in if refuses_prefix t r then lock_row false (t + lockFor (counted t r)) r1 else r1) /\
    (forall k, k <> (uID user, scope) -> throttles d' !! k = throttles d !! k).
Proof.
  intros Hdel Ht Hr. unfold refuses_prefix. rewrite Hdel, andb_true_r.
  destruct ((prefixThreshold <? counted t r) && negb (expired t r)).
  - unfold lockPrefix. rewrite run_mbind. eexists. split; [reflexivity|]. cbn. rewrite Ht.
    split_and!; [done|done| |].
    + by rewrite lookup_alter_eq, Hr.
    + intros k Hk. by rewrite lookup_alter_ne by congruence.
  - exists d. by split_and!.
Qed.

(** Without a running lock the attempt is counted on both scopes and refused
    exactly when a count passed its threshold. *)
Lemma run_gate_open token user scope ua d :
  a_lockStore s = true -> a_delayOnlyPrefix s = false -> scope <> scopeAll -> users d !! uID user <> None ->
  let t := anow d in
  let ex := is_exempt token user scope ua d in
  let r := ensured t user scope d in
  let ra := ensured t user scopeAll d in
  existsb (fun sc => lock_running user sc d) (gate_scopes ex scope) = false ->
  (run auth_handler (gateLogin s token user scope ua) (Faulty d [])).1 =
    mkGate (refuses_prefix t r || refuses_all t ex ra) scope (counted t r) (counted t ra) ex /\
  exists d', (run auth_handler (gateLogin s token user scope ua) (Faulty d [])).2 = Faulty d' [] /\
    anow d' = anow d /\ users d' = users d /\
    throttles d' !! (uID user, scope) =
      Some (let r1 := after_attempt t r in if refuses_prefix t r then lock_row false (t + lockFor (counted t r)) r1 else r1) /\
    throttles d' !! (uID user, scopeAll) =
      Some (let r1 := after_attempt t ra in if refuses_all t ex ra then lock_row true (t + globalLockFor) r1 else r1).
Proof.
  intros Hs Hdel Hsc Hu t ex r ra Hl. unfold gateLogin. rewrite Hs. cbn [negb].
  rewrite run_mbind, run_call. cbn [auth_handler fst snd].
  rewrite run_mbind, run_globalCapExempt. cbn [fst snd store]. unfold gateCount. cbv zeta.
  rewrite run_mbind, run_call. cbn [auth_handler]. rewrite exec_fine. cbn [fst snd].
  fold (gate_scopes (is_exempt token user scope ua d) scope). rewrite count_locks.
  fold ex. rewrite Hl. cbn [q_CountActiveLoginLocks snd].
  rewrite run_mbind, run_call, run_ensure by done. rewrite run_mbind, run_call.
  fold t. set (d1 := set_throttles <[(uID user, scope) := ensured t user scope d]> d).
  rewrite run_ensure by done. set (d2 := set_throttles _ d1).
  assert (Ha : ensured t user scopeAll d1 = ra).
  { unfold ensured, ra, ensured, d1. cbn. by rewrite lookup_insert_ne by congruence. }
  assert (H2 : throttles d2 !! (uID user, scope) = Some r).
  { unfold d2. cbn. rewrite lookup_insert_ne by congruence. unfold d1. cbn. apply lookup_insert_eq. }
  assert (H2a : throttles d2 !! (uID user, scopeAll) = Some ra).
  { unfold d2. cbn. rewrite Ha. apply lookup_insert_eq. }
  assert (Ht2 : anow d2 = t /\ users d2 = users d) by done. clearbody d2. clear Ha d1.
  rewrite run_mbind, run_call, (exec_record _ _ _ _ _ H2). cbn [fst snd].
  set (d3 := set_throttles _ d2). rewrite Hdel. rewrite run_mbind.
  destruct (run_prefix_step user scope t ex r d3) as (d4 & -> & Ht4 & Hu4 & H4 & Hother);
    [done|apply Ht2|apply lookup_insert_eq|]. rewrite (proj2 Ht2 : users d3 = users d) in Hu4.
  assert (H4a : throttles d4 !! (uID user, scopeAll) = Some ra).
  { rewrite Hother by congruence. unfold d3. cbn. by rewrite lookup_insert_ne by congruence. }
  cbn [fst snd g_refuse g_ipN].
  rewrite run_mbind, run_call, (exec_record _ _ _ _ _ H4a). cbn [fst snd].
  fold (refuses_all t ex ra). destruct (refuses_all t ex ra) eqn:Hra.
  - rewrite orb_true_r. unfold lockAll. rewrite run_mbind. split; [done|]. eexists. split; [reflexivity|].
    cbn. rewrite Ht4. split_and!; [done|done| |].
    + rewrite lookup_alter_ne by congruence. by rewrite lookup_insert_ne by congruence.
    + by rewrite lookup_alter_eq, lookup_insert_eq.
  - rewrite orb_false_r. split; [done|]. eexists. split; [reflexivity|]. cbn. split_and!; [done|done| |].
    + by rewrite lookup_insert_ne by congruence.
    + by rewrite lookup_insert_eq.
Qed.

End GateLemmas.

(** ** Lemmas: a burst of parallel attempts *)

Section Burst.
Context (s : AuthService) (token : string) (user : User) (scope ua : string) (t0 : time).
Abbreviation own := (uID user, scope).

(** An operation that, at time [t0], leaves the count of the scope alone and
    can only lengthen its lock into the future; [K] is what its answers must
    satisfy. *)
Definition calm {X} (e : authE X) : (X -> Prop) -> Prop :=
  match e in authE X return (X -> Prop) -> Prop with
  | ANow => fun K => K t0
  | HasRecentLoginSuccess _ _ _ => fun K => forall x, K x
  | HasKnownDevice _ _ => fun K => forall x, K x
  | CountActiveLoginLocks _ _ _ => fun K => forall x, K x
  | EnsureLoginThrottle _ _ _ => fun K => forall x, K x
  | RecordLoginAttempt u sc _ _ => fun K => (u, sc) <> own /\ forall x, K x
  | SetLoginLock u sc reset until => fun K => ((u, sc) = own -> reset = false /\ t0 < until) /\ forall x, K x
  | _ => fun _ => False
  end.

(** What is left of a gate after its attempt got number [c]. *)
Fixpoint numbered (c : Z) (p : prog authE loginGate) : Prop :=
  match p with
  | Ret g => g_refuse g = false -> c <= prefixThreshold
  | Vis e k => calm e (fun x => numbered c (k x))
  end.

(** What is left of a gate before its attempt is counted. *)
Fixpoint uncounted (p : prog authE loginGate) : Prop :=
  match p with
  | Ret g => g_refuse g = true
  | Vis e k =>
      match e in authE X return (X -> prog authE loginGate) -> (X -> Prop) -> Prop with
      | RecordLoginAttempt u sc t w => fun k K =>
          if bool_decide ((u, sc) = own)
          then t = t0 /\ w = lockWindow /\ forall c, numbered c (k (Ok (c, false)))
          else forall x, K x
      | e => fun _ K => calm e K
      end k (fun x => uncounted (k x))
  end.

(** The scope's row inside its window, with no lock that has run out. *)
Definition open_row (d : AuthDB) (n : Z) : Prop :=
  anow d = t0 /\ exists r, throttles d !! own = Some r /\ fail_count r = n /\
    t0 - lockWindow < window_start r /\
    match locked_until r with Some l => t0 < l | None => True end.

Lemma calm_step X (e : authE X) (K : X -> Prop) d n :
  calm e K -> open_row d n ->
  K (auth_handler X e (Faulty d [])).1 /\
  exists d', (auth_handler X e (Faulty d [])).2 = Faulty d' [] /\ open_row d' n.
Proof.
  intros He (Ht & r & Hr & Hn & Hw & Hl). destruct e; cbn [calm] in He; try done;
    cbn [auth_handler]; rewrite ?exec_fine; cbn [fst snd].
  - split; [apply He|]. eexists. split; [done|]. unfold q_EnsureLoginThrottle.
    case_bool_decide; [by repeat (split || exists r)|].
    destruct (throttles d !! (u, scope0)) eqn:Ht0; [by repeat (split || exists r)|].
    split; [done|]. exists r. split; [|done]. cbn. rewrite lookup_insert_ne; [done|congruence].
  - destruct He as [Hne HK]. split; [apply HK|]. eexists. split; [done|]. unfold q_RecordLoginAttempt.
    destruct (throttles d !! (u, scope0)); [|by repeat (split || exists r)].
    split; [done|]. exists r. split; [|done]. cbn. by rewrite lookup_insert_ne.
  - destruct He as [Hset HK]. split; [apply HK|]. eexists. split; [done|]. split; [done|]. cbn.
    destruct (decide ((u, scope0) = own)) as [E|Hne].
    + destruct (Hset E) as [-> Hu]. rewrite E, lookup_alter_eq, Hr. cbn. eexists. split; [done|].
      split_and!; cbn; try done. unfold greatest. destruct (locked_until r); lia.
    + rewrite lookup_alter_ne by done. by exists r.
  - split; [apply He|]. eexists. split; [done|]. by repeat (split || exists r).
  - split; [apply He|]. eexists. split; [done|]. by repeat (split || exists r).
  - split; [apply He|]. eexists. split; [done|]. by repeat (split || exists r).
  - cbn [store]. split; [by rewrite Ht|]. eexists. split; [done|]. by repeat (split || exists r).
Qed.

Lemma record_step d n w :
  open_row d n -> w = lockWindow ->
  exists d', auth_handler _ (RecordLoginAttempt (uID user) scope t0 w) (Faulty d []) = (Ok (n + 1, false), Faulty d' []) /\
    open_row d' (n + 1).
Proof.
  intros (Ht & r & Hr & Hn & Hw & Hl) ->. rewrite (exec_record _ _ _ _ _ Hr).
  assert (Hc : counted t0 r = n + 1).
  { unfold counted. destruct (Z.leb_spec (window_start r) (t0 - lockWindow)); lia. }
  assert (He : expired t0 r = false).
  { unfold expired. destruct (locked_until r); [|done]. by apply Z.leb_gt. }
  rewrite Hc, He. eexists. split; [done|]. split; [done|]. cbn. rewrite lookup_insert_eq.
  eexists. split; [done|]. unfold after_attempt. rewrite Hc, He. cbn. split_and!; [done| |done].
  destruct (Z.leb_spec (window_start r) (t0 - lockWindow)); lia.
Qed.

(** Lock durations are positive. *)
Lemma lockFor_pos n : prefixThreshold < n -> 0 < lockFor n.
Proof.
  intros Hn. unfold lockFor. rewrite doubled_min by (unfold prefixLockBase, prefixLockMax, Minute, Second, Millisecond, prefixThreshold in *; lia).
  assert (1 <= 2 ^ (n - prefixThreshold)) by (apply (Z.pow_le_mono_r 2 0); unfold prefixThreshold in *; lia).
  unfold prefixLockBase, prefixLockMax, Minute, Second, Millisecond. lia.
Qed.

(** The gate's program has this shape. *)
Lemma gateLogin_uncounted :
  a_lockStore s = true -> a_delayOnlyPrefix s = false -> scope <> scopeAll ->
  uncounted (gateLogin s token user scope ua).
Proof.
  intros Hs Hd Hsc. unfold gateLogin. rewrite Hs. cbn [negb].
  assert (Hne : (uID user, scopeAll) <> (uID user, scope)) by congruence.
  assert (Htail : forall exempt, uncounted (gateCount s user scope t0 exempt)).
  { intros exempt. cbn. intros n. destruct (match n with Ok n => 0 <? n | Err _ => false end); [done|].
    cbn. intros _ _. rewrite bool_decide_eq_true_2 by done. split; [done|]. split; [done|]. intros c.
    rewrite Hd. destruct (Z.ltb_spec prefixThreshold c) as [Hc|Hc]; cbn.
    - split; [|intros _].
      + intros _. split; [done|]. pose proof (lockFor_pos c Hc). lia.
      + split; [done|]. intros [[count probe]|e]; [|done].
        destruct (_ && _); [|done]. cbn. split; [done|]. done.
    - split; [done|]. intros [[count probe]|e]; [|by intros _].
      destruct (_ && _); [|by intros _]. cbn. split; [done|]. done. }
  cbn. intros r. destruct r as [[|]|e]; [apply Htail| |];
    unfold knownDeviceFromContext; (destruct (negb (a_deviceStore s) || bool_decide (token = EmptyString)); [apply Htail|]);
    destruct (uaLabel ua) as [b o]; cbn; intros x; (destruct x as [x|e']; apply Htail).
Qed.

(** A thread with the number its attempt got, if it got one. *)
Definition phase (p : prog authE loginGate) (c : option Z) : Prop :=
  match c with None => uncounted p | Some c => numbered c p end.

(** No two threads got the same number. *)
Definition distinct (cs : list (option Z)) : Prop :=
  forall i j m, cs !! i = Some (Some m) -> cs !! j = Some (Some m) -> i = j.

(** The pool: the row's count is [n], and the numbers handed out since it was
    [n0] are distinct and between the two. *)
Definition burst_ok (n0 : Z) (c : list (prog authE loginGate) * faulty AuthDB) : Prop :=
  exists d n cs, c.2 = Faulty d [] /\ open_row d n /\ n0 <= n /\ Forall2 phase c.1 cs /\
    distinct cs /\ forall i m, cs !! i = Some (Some m) -> n0 < m <= n.

Lemma distinct_insert cs i m :
  distinct cs -> (forall j, cs !! j <> Some (Some m)) -> distinct (<[i := Some m]> cs).
Proof.
  intros Hd Hm j1 j2 k H1 H2. rewrite list_lookup_insert_Some in H1, H2.
  destruct H1 as [(-> & E1 & _)|(Hn1 & H1)], H2 as [(-> & E2 & _)|(Hn2 & H2)]; [done| | |by eapply Hd];
    exfalso; eapply Hm; simplify_eq; done.
Qed.

Lemma distinct_NoDup cs : distinct cs -> NoDup (omap id cs).
Proof.
  induction cs as [|c cs IH]; intros Hd; [constructor|].
  assert (Hd' : distinct cs) by (intros i j m Hi Hj; by apply (Hd (S i) (S j) m) in Hi; [injection Hi|]).
  cbn. destruct c as [c|]; cbn; [|by apply IH]. constructor; [|by apply IH].
  rewrite list_elem_of_omap. intros (x & Hx & Heq). cbn in Heq. subst x.
  apply list_elem_of_lookup in Hx as [j Hj]. by pose proof (Hd 0%nat (S j) c eq_refl Hj).
Qed.

(** An uncounted thread either counts its attempt or does something calm. *)
Lemma uncounted_step X (e : authE X) k d n :
  uncounted (Vis e k) -> open_row d n ->
  exists d', (auth_handler X e (Faulty d [])).2 = Faulty d' [] /\
    ((uncounted (k (auth_handler X e (Faulty d [])).1) /\ open_row d' n) \/
     (numbered (n + 1) (k (auth_handler X e (Faulty d [])).1) /\ open_row d' (n + 1))).
Proof.
  intros Hp Ho.
  assert (Hcalm : calm e (fun x => uncounted (k x)) -> exists d', (auth_handler X e (Faulty d [])).2 = Faulty d' [] /\
    ((uncounted (k (auth_handler X e (Faulty d [])).1) /\ open_row d' n) \/
     (numbered (n + 1) (k (auth_handler X e (Faulty d [])).1) /\ open_row d' (n + 1)))).
  { intros Hc. destruct (calm_step _ _ _ _ _ Hc Ho) as (HK & d' & Hd & Ho'). exists d'. auto. }
  destruct e; try (by apply Hcalm). cbn in Hp. case_bool_decide as Hown.
  - destruct Hp as (-> & -> & Hk). injection Hown as -> ->.
    destruct (record_step d n lockWindow Ho eq_refl) as (d' & Hr & Ho'). rewrite Hr. exists d'. auto.
  - apply Hcalm. by split.
Qed.

Lemma burst_step n0 c c' :
  pool_step auth_handler (fun _ _ => False) c c' -> burst_ok n0 c -> burst_ok n0 c'.
Proof.
  intros [i X e k ps w Hi|ps w w' []] (d & n & cs & Hw & Ho & Hn0 & Hph & Hnd & Hm). cbn in Hw, Hph. subst w.
  destruct (Forall2_lookup_l _ _ _ _ _ Hph Hi) as (ci & Hci & Hphi). destruct ci as [m0|].
  - destruct (calm_step _ _ _ _ _ Hphi Ho) as (HK & d' & Hd & Ho').
    exists d', n, cs. cbn. split_and!; try done.
    rewrite <- (list_insert_id cs i (Some m0)) by done. by apply Forall2_insert.
  - destruct (uncounted_step _ _ _ _ _ Hphi Ho) as (d' & Hd & [[Hk Ho']|[Hk Ho']]).
    + exists d', n, cs. cbn. split_and!; try done.
      rewrite <- (list_insert_id cs i None) by done. by apply Forall2_insert.
    + exists d', (n + 1), (<[i := Some (n + 1)]> cs). cbn. split_and!; try done; [lia|..].
      * by apply Forall2_insert.
      * apply distinct_insert; [done|]. intros j Hj%Hm. lia.
      * intros j m. rewrite list_lookup_insert_Some. intros [(_ & [= <-] & _)|(_ & Hj%Hm)]; lia.
Qed.

(** A finished gate that let its attempt through. *)
Definition admitted (p : prog authE loginGate) : bool :=
  match p with Ret g => negb (g_refuse g) | Vis _ _ => false end.

Lemma admitted_numbers ps cs :
  Forall2 phase ps cs ->
  (length (filter (fun p => admitted p = true) ps) <=
   length (filter (fun m => (m <= prefixThreshold)%Z) (omap id cs)))%nat.
Proof.
  induction 1 as [|p c ps cs Hp _ IH]; [done|].
  destruct (decide (admitted p = true)) as [Ha|Ha].
  - rewrite filter_cons_True by done. destruct p as [g|]; [|done]. cbn in Ha. bools.
    destruct c as [c|]; cbn in Hp; [|congruence].
    change (omap id (Some c :: cs)) with (c :: omap id cs).
    rewrite filter_cons_True by auto. cbn [length]. lia.
  - rewrite filter_cons_False by done. etrans; [exact IH|]. destruct c as [c|]; [|done].
    change (omap id (Some c :: cs)) with (c :: omap id cs).
    destruct (decide (c <= prefixThreshold)); [rewrite filter_cons_True by done; cbn [length]; lia|].
    by rewrite filter_cons_False.
Qed.

Lemma distinct_range (l : list Z) lo hi :
  NoDup l -> Forall (fun m => lo < m <= hi) l -> (length l <= Z.to_nat (hi - lo))%nat.
Proof.
  intros Hnd Hl. rewrite <- (length_seqZ (lo + 1) (hi - lo)). apply submseteq_length, NoDup_submseteq; [done|].
  intros m Hm. rewrite Forall_forall in Hl. apply Hl in Hm. apply elem_of_seqZ. lia.
Qed.

Lemma burst_bound n0 c :
  burst_ok n0 c -> (length (filter (fun p => admitted p = true) c.1) <= Z.to_nat (prefixThreshold - n0))%nat.
Proof.
  intros (d & n & cs & _ & _ & _ & Hph & Hd & Hm). etrans; [by apply admitted_numbers|].
  apply distinct_range.
  - apply NoDup_filter, distinct_NoDup, Hd.
  - apply Forall_forall. intros m [Hle Hin]%list_elem_of_filter.
    apply list_elem_of_omap in Hin as (x & Hx & Heq). cbn in Heq. subst x.
    apply list_elem_of_lookup in Hx as [j Hj]. apply Hm in Hj. lia.
Qed.

End Burst.

(** ** Lemmas: a wrong password *)

(** A sign-in with a wrong password: whether the password was looked at. *)
Definition wrong_password (s : AuthService) (token : string) (user : User) (scope ua : string) : prog authE bool :=
  g ← gateLogin s token user scope ua;
  if g_refuse g then mret false else _ ← loginFailed s user g; mret true.

Lemma run_lockPrefix user scope n d :
  run auth_handler (lockPrefix (uID user) scope n) (Faulty d []) =
    (tt, Faulty (set_throttles (alter (lock_row false (anow d + lockFor n)) (uID user, scope)) d) []).
Proof. done. Qed.

Lemma run_loginFailed_locks s user g d r :
  a_lockStore s = true -> a_delayOnlyPrefix s = false -> g_scope g <> scopeAll ->
  prefixThreshold <= g_ipN g -> throttles d !! (uID user, g_scope g) = Some r ->
  exists d', (run auth_handler (loginFailed s user g) (Faulty d [])).2 = Faulty d' [] /\
    throttles d' !! (uID user, g_scope g) = Some (lock_row false (anow d + lockFor (g_ipN g)) r).
Proof.
  intros Hs Hd Hsc Hn Hr. unfold loginFailed. rewrite Hs, Hd. cbn [negb]. rewrite run_mbind.
  replace (prefixThreshold <=? g_ipN g) with true by (symmetry; by apply Z.leb_le). cbn [andb].
  rewrite run_lockPrefix. cbn [snd].
  set (d1 := set_throttles _ d).
  assert (H1 : throttles d1 !! (uID user, g_scope g) = Some (lock_row false (anow d + lockFor (g_ipN g)) r)).
  { unfold d1. cbn. by rewrite lookup_alter_eq, Hr. }
  destruct ((globalThreshold <=? g_allN g) && negb (g_exempt g)); [|by exists d1].
  eexists. split; [reflexivity|]. cbn. rewrite lookup_alter_ne by congruence. done.
Qed.

(** ** A concrete account *)

Definition demo_crypto : Crypto := {|
  bcrypt_compare h p := bool_decide (h = p);
  bcrypt_hash p := Some p;
  sha256_hex x := x;
  totp_code secret step := Some secret;
  totp_generate b issuer account := Some (b, issuer +:+ ":" +:+ account);
  mfa_cipher := None;
  jwt_sign c := Some (cl_Subject c +:+ ":" +:+ cl_SessionID c);
  jwt_parse _ _ _ := None;
  uuid_parse x := if bool_decide (x = EmptyString) then None else Some x |}.

Definition demo_auth : AuthService := mkAuthService demo_crypto true false true true true false (30 * 24 * Hour)
  "api" (15 * Minute) "vidra".

Definition demo_account : User := mkUser "a" "ann" "ann@x" "pw" "user" true false true false.

Definition demo_auth_db (rows : gmap (uuid * string) Throttle) : AuthDB :=
  mkAuth {["a"%string := demo_account]} ∅ rows ∅ [] ∅ ∅ ∅ [] (100 * Hour)
    (fun n => Nat.iter n (String.append "i") "i"%string) 0 (fun n => Some (Nat.iter n (String.append "r") "r"%string)) 0 [].

Definition demo_scope : string := "ip:".

(** ** Properties *)

(** The brake's schedules. The lock after the n-th attempt in a window
    lasts exactly min(30 s * 2^(n-5), 15 min) from the fifth attempt on, and the
    delay-only variant waits nothing up to the fifth and then
    min(100 ms * 2^(n-6), 2 s): the loops neither overflow nor exceed their
    caps, for every count. *)
Theorem backoff_schedules (n : Z) :
  (prefixThreshold <= n -> lockFor n = Z.min (30 * Second * 2 ^ (n - 5)) (15 * Minute)) /\
  (n <= prefixThreshold -> delayFor n = 0) /\
  (prefixThreshold < n -> delayFor n = Z.min (100 * Millisecond * 2 ^ (n - 6)) (2 * Second)).
Proof.
  unfold lockFor, delayFor. split_and!; intros Hn.
  - apply doubled_min; unfold prefixLockBase, prefixLockMax, Minute, Second, Millisecond, prefixThreshold in *; lia.
  - by destruct (Z.leb_spec n prefixThreshold); [|lia].
  - destruct (Z.leb_spec n prefixThreshold); [lia|].
    apply doubled_min; unfold maxDelayOnly, Second, Millisecond, prefixThreshold in *; lia.
Qed.

Lemma backoff_schedules_witness : lockFor 7 = 2 * Minute /\ delayFor 3 = 0.
Proof.
  destruct (backoff_schedules 7) as (Hl & _ & _). destruct (backoff_schedules 3) as (_ & Hd & _).
  split; [rewrite Hl; [vm_compute; reflexivity|vm_compute; discriminate]|apply Hd; vm_compute; discriminate].
Defined.

(** A parallel burst cannot slip under the threshold. However many
    sign-ins for one account from one network prefix run at once, with their
    statements interleaved in any order, at most five of them (less the
    attempts already counted in the window) are let through to the password
    comparison, once the prefix has its row and its lock, if any, is running. *)
Theorem parallel_burst_bounded (s : AuthService) (user : User) (scope : string) (d : AuthDB) (r : Throttle)
    (ps ps' : list (prog authE loginGate)) (w' : faulty AuthDB) :
  a_lockStore s = true -> a_delayOnlyPrefix s = false -> scope <> scopeAll ->
  throttles d !! (uID user, scope) = Some r -> anow d - lockWindow < window_start r ->
  match locked_until r with Some l => anow d < l | None => True end ->
  Forall (fun p => exists token ua, p = gateLogin s token user scope ua) ps ->
  rtc (pool_step auth_handler (fun _ _ => False)) (ps, Faulty d []) (ps', w') ->
  (length (filter (fun p => admitted p = true) ps') <= Z.to_nat (prefixThreshold - fail_count r))%nat.
Proof.
  intros Hs Hd Hsc Hr Hw Hl Hps Hrun. apply (burst_bound user scope (anow d) (fail_count r) (ps', w')).
  assert (H0 : burst_ok user scope (anow d) (fail_count r) (ps, Faulty d [])).
  { exists d, (fail_count r), (replicate (length ps) None). split_and!; try done.
    - split; [done|]. by exists r.
    - apply Forall2_same_length_lookup_2; [by rewrite length_replicate|].
      intros i p c Hp Hc. apply lookup_replicate in Hc as [-> _].
      rewrite Forall_lookup in Hps. destruct (Hps _ _ Hp) as (token & ua & ->).
      by apply gateLogin_uncounted.
    - intros i j m Hi. by apply lookup_replicate in Hi as [? _].
    - intros i m Hi. by apply lookup_replicate in Hi as [? _]. }
  remember (ps, Faulty d []) as c. remember (ps', w') as c'. clear Heqc Heqc'.
  induction Hrun as [|x y z Hxy _ IH]; [done|]. apply IH. by eapply burst_step.
Qed.

(** Seven simultaneous sign-ins, each one statement at a time, in turn. *)
Definition demo_rows : gmap (uuid * string) Throttle :=
  {[("a", demo_scope)%string := mkThrottle 0 (100 * Hour) None]}.

Definition demo_burst : list (prog authE loginGate) :=
  replicate 7 (gateLogin demo_auth "" demo_account demo_scope "").

Definition demo_burst_end : list (prog authE loginGate) * faulty AuthDB :=
  schedule auth_handler (concat (repeat (seq 0 7) 12)) demo_burst (Faulty (demo_auth_db demo_rows) []).

Lemma parallel_burst_bounded_witness :
  (length (filter (fun p => admitted p = true) demo_burst_end.1) <= 5)%nat /\
  length (filter (fun p => admitted p = true) demo_burst_end.1) = 5%nat.
Proof.
  split; [|vm_compute; reflexivity].
  apply (parallel_burst_bounded demo_auth demo_account demo_scope (demo_auth_db demo_rows)
    (mkThrottle 0 (100 * Hour) None) demo_burst demo_burst_end.1 demo_burst_end.2);
    try reflexivity.
  - discriminate.
  - apply Forall_forall. intros p Hp%elem_of_replicate_inv. exists ""%string, ""%string. exact Hp.
  - rewrite <- surjective_pairing. apply schedule_pool.
Defined.

(** The gate's verdict, branch by branch. With the store answering: while
    a lock of the prefix is running (or the account-wide one, unless the
    request is exempt) the sign-in is refused and nothing is counted; otherwise
    the attempt is counted once on each scope and refused exactly when the
    prefix count passed five or, for a request that is not exempt, the account
    count passed thirty (in both cases unless it is the first attempt after a
    lock ran out). *)
Theorem gateLogin_verdict (s : AuthService) (token : string) (user : User) (scope ua : string) (d : AuthDB) :
  a_lockStore s = true -> a_delayOnlyPrefix s = false -> scope <> scopeAll -> users d !! uID user <> None ->
  let ex := is_exempt s token user scope ua d in
  let r := ensured (anow d) user scope d in
  let ra := ensured (anow d) user scopeAll d in
  let res := run auth_handler (gateLogin s token user scope ua) (Faulty d []) in
  if existsb (fun sc => lock_running user sc d) (gate_scopes ex scope)
  then res = (mkGate true scope 0 0 ex, Faulty d [])
  else g_ipN res.1 = counted (anow d) r /\ g_allN res.1 = counted (anow d) ra /\
       g_refuse res.1 =
         ((prefixThreshold <? counted (anow d) r) && negb (expired (anow d) r)) ||
         ((globalThreshold <? counted (anow d) ra) && negb (expired (anow d) ra) && negb ex).
Proof.
  intros Hs Hd Hsc Hu ex r ra res. subst res. destruct (existsb _ _) eqn:Hl.
  - by apply run_gate_locked.
  - destruct (run_gate_open s token user scope ua d Hs Hd Hsc Hu Hl) as [-> _]. cbn. split_and!; try done.
    unfold refuses_prefix. rewrite Hd. cbn [negb]. by rewrite andb_true_r.
Qed.

(** A running lock on the prefix, and only on it. *)
Definition demo_locked : AuthDB :=
  demo_auth_db {[("a", demo_scope)%string := mkThrottle 6 (100 * Hour) (Some (101 * Hour))]}.

Lemma gateLogin_verdict_witness :
  g_refuse (run auth_handler (gateLogin demo_auth "" demo_account demo_scope "") (Faulty demo_locked [])).1 = true /\
  g_refuse (run auth_handler (gateLogin demo_auth "" demo_account "ip:other" "") (Faulty demo_locked [])).1 = false.
Proof.
  pose proof (gateLogin_verdict demo_auth "" demo_account demo_scope "" demo_locked eq_refl eq_refl) as H1.
  pose proof (gateLogin_verdict demo_auth "" demo_account "ip:other" "" demo_locked eq_refl eq_refl) as H2.
  assert (Hu : users demo_locked !! uID demo_account <> None) by (vm_compute; discriminate).
  specialize (H1 ltac:(discriminate) Hu). specialize (H2 ltac:(discriminate) Hu).
  cbv zeta in H1, H2.
  match type of H1 with if ?b then _ else _ => replace b with true in H1 by (vm_compute; reflexivity) end.
  match type of H2 with if ?b then _ else _ => replace b with false in H2 by (vm_compute; reflexivity) end.
  destruct H2 as (_ & _ & H2). rewrite H1, H2. split; vm_compute; reflexivity.
Defined.

(** A known network is not locked out from outside. A request from a
    prefix the account recently signed in from (or from a recognised device) is
    let through whatever the account-wide counter and lock say, as long as its
    own prefix is not locked and has not used up its five attempts. *)
Theorem known_prefix_not_locked_out (s : AuthService) (token : string) (user : User) (scope ua : string) (d : AuthDB) :
  a_lockStore s = true -> a_delayOnlyPrefix s = false -> scope <> scopeAll -> users d !! uID user <> None ->
  is_exempt s token user scope ua d = true ->
  lock_running user scope d = false -> counted (anow d) (ensured (anow d) user scope d) <= prefixThreshold ->
  g_refuse (run auth_handler (gateLogin s token user scope ua) (Faulty d [])).1 = false.
Proof.
  intros Hs Hd Hsc Hu Hex Hl Hn.
  destruct (run_gate_open s token user scope ua d Hs Hd Hsc Hu) as [-> _]; [rewrite Hex; cbn; by rewrite Hl|].
  cbn. rewrite Hex. unfold refuses_prefix, refuses_all. cbn [negb]. rewrite andb_false_r, orb_false_r.
  by destruct (Z.ltb_spec prefixThreshold (counted (anow d) (ensured (anow d) user scope d))); [lia|].
Qed.

(** The account-wide lock is running; the prefix signed in an hour ago. *)
Definition demo_known : AuthDB :=
  demo_auth_db {[("a", scopeAll)%string := mkThrottle 40 (100 * Hour) (Some (101 * Hour));
                 ("a", okScope demo_scope)%string := mkThrottle 0 (99 * Hour) None]}.

Lemma known_prefix_not_locked_out_witness :
  g_refuse (run auth_handler (gateLogin demo_auth "" demo_account demo_scope "") (Faulty demo_known [])).1 = false /\
  g_refuse (run auth_handler (gateLogin demo_auth "" demo_account "ip:other" "") (Faulty demo_known [])).1 = true.
Proof.
  split; [|vm_compute; reflexivity].
  apply known_prefix_not_locked_out; try reflexivity; try (vm_compute; discriminate); vm_compute; reflexivity.
Defined.

(** A wrong password costs what the schedule says. When a wrong password
    that was let through is the fifth or a later one in its window, the account
    is locked for that prefix at least until now plus the schedule's duration
    for its number, so the next attempt before then is refused unseen. *)
Theorem wrong_password_locks (s : AuthService) (token : string) (user : User) (scope ua : string) (d : AuthDB) :
  a_lockStore s = true -> a_delayOnlyPrefix s = false -> scope <> scopeAll -> users d !! uID user <> None ->
  let res := run auth_handler (wrong_password s token user scope ua) (Faulty d []) in
  let n := counted (anow d) (ensured (anow d) user scope d) in
  res.1 = true -> prefixThreshold <= n ->
  exists d' l, res.2 = Faulty d' [] /\
    (throttles d' !! (uID user, scope)) ≫= locked_until = Some l /\ anow d + lockFor n <= l.
Proof.
  intros Hs Hd Hsc Hu. unfold wrong_password. cbv zeta. rewrite run_mbind. intros Hadm Hn.
  destruct (existsb (fun sc => lock_running user sc d) (gate_scopes (is_exempt s token user scope ua d) scope)) eqn:Hl.
  { rewrite run_gate_locked in Hadm by done. done. }
  destruct (run_gate_open s token user scope ua d Hs Hd Hsc Hu Hl) as (Hg & d1 & Hw & Ht & _ & Hrow & _).
  rewrite Hw in *. rewrite Hg in *. cbn [g_refuse] in *.
  destruct (_ || _); [done|]. rewrite run_mbind in Hadm |- *.
  match goal with |- context [loginFailed s user ?g] =>
    destruct (run_loginFailed_locks s user g d1 _ Hs Hd Hsc Hn Hrow) as (d' & Hd' & Hr') end.
  rewrite Hd'. cbn [run snd]. eexists d', _. split; [done|]. cbn [g_scope g_ipN] in Hr'. rewrite Hr'. cbn.
  split; [done|]. rewrite Ht. unfold greatest. destruct (locked_until _); lia.
Qed.

(** Four failures already counted: the next one is the fifth. *)
Definition demo_four : AuthDB :=
  demo_auth_db {[("a", demo_scope)%string := mkThrottle 4 (100 * Hour) None]}.

Lemma wrong_password_locks_witness :
  exists d' l, (run auth_handler (wrong_password demo_auth "" demo_account demo_scope "") (Faulty demo_four [])).2 = Faulty d' [] /\
    (throttles d' !! ("a", demo_scope)%string) ≫= locked_until = Some l /\ 100 * Hour + 30 * Second <= l.
Proof.
  apply (wrong_password_locks demo_auth "" demo_account demo_scope "" demo_four);
    try reflexivity; try (vm_compute; discriminate); vm_compute; reflexivity.
Defined.
