(* ===== verification/Sessions.v ===== *)
(** * Sessions and tokens (src/internal/auth/service.go, sessionauth.go,
    passwordchange.go, stepup.go, jwt.go, refresh.go)

    Signing in, refreshing with rotation and reuse detection, signing out, the
    per-request check of an access token, password changes, and step-up
    assertions. *)
From S2P Require Import Prelude GoStrings Encoding AuthStore Devices LoginLock.
Local Open Scope Z_scope.

(** ** Errors *)

Inductive aerr :=
| AErrInvalidCredentials | AErrAccountDisabled | AErrEmailVerificationRequired | AErrInvalidRefresh
| AErrAccountNotFound | AErrSessionRevoked | AErrSessionLookupUnavailable | AErrPasswordNotSet
| AErrInvalidPassword | AErrStepUpRequired | AErrPasswordAlreadySet
| AErrMFAUnavailable | AErrMFAAlreadyEnabled | AErrMFANotEnrolled | AErrMFANotEnabled
| AErrInvalidMFACode | AErrInvalidMFAToken | AErrMFASecretUndecryptable
| AErrDB (e : dberr) | AErrCrypto.

#[global] Instance aerr_eq_dec : EqDecision aerr.
Proof. solve_decision. Defined.

(** ** Tokens *)

Record Tokens := mkTokens { AccessToken : string; RefreshToken : string }.

(** [LoginInput] *)
Record LoginInput := mkLoginInput {
  in_Email : string; in_Identifier : string; in_Password : string; in_ClientScope : string;
}.

(** [LoginInput.loginIdentifier] *)
Definition loginIdentifier (i : LoginInput) : string :=
  let t := TrimSpace (in_Identifier i) in
  if bool_decide (t = EmptyString) then TrimSpace (in_Email i) else t.

(** [LoginResult]: a session, or a pending second factor. *)
Inductive LoginResult :=
| LoggedIn (user : User) (tokens : Tokens)
| MFARequired (user : User) (mfaToken : string).

Record Principal := mkPrincipal { pr_UserID : uuid; pr_Role : string }.

(** Constants. *)
Definition stepUpTTL : duration := 10 * Minute.
Definition mfaTokenTTL : duration := 5 * Minute.
Definition mfaAudience (s : AuthService) : string := a_audience s +:+ ":mfa".

Section Sessions.
Context (s : AuthService).
Abbreviation M A := (prog authE A) (only parsing).
Abbreviation C := (a_crypto s) (only parsing).

(** [CheckPassword] *)
Definition CheckPassword (hash plain : string) : bool := bcrypt_compare (a_crypto s) hash plain.

(** [hashRefreshToken] and [hashStepUpToken] *)
Definition hashRefreshToken (raw : string) : string := sha256_hex (a_crypto s) raw.
Definition hashStepUpToken (raw : string) : string := sha256_hex (a_crypto s) raw.

(** [generateRefreshToken] and [generateStepUpToken]: the raw token. *)
Definition generateToken : M (option string) :=
  b ← call Random; mret (option_map base64_rawurl b).

(** [TokenIssuer.IssueForSession] *)
Definition IssueForSession (audience : string) (ttl : duration) (userID : uuid) (role sessionID : string)
    : M (option string) :=
  now ← call ANow;
  mret (jwt_sign (a_crypto s) (mkClaims role sessionID userID audience now (now + ttl))).

(** [TokenIssuer.Issue] on the MFA audience. *)
Definition IssueMFA (userID : uuid) (role : string) : M (option string) :=
  IssueForSession (mfaAudience s) mfaTokenTTL userID role EmptyString.

(** [Service.UserByID] *)
Definition UserByID (id : uuid) : M (result aerr User) :=
  r ← call (GetUserByID id);
  mret (match r with
        | Err _ => Err AErrAccountNotFound
        | Ok u => if uIsActive u then Ok u else Err AErrAccountNotFound
        end).

(** [Service.issueTokensForSession] *)
Definition issueTokensForSession (user : User) (userAgent : string) : M (result aerr (Tokens * uuid)) :=
  g ← generateToken;
  match g with
  | None => mret (Err AErrCrypto)
  | Some raw =>
      now ← call ANow;
      c ← call (CreateSession (uID user) (hashRefreshToken raw) userAgent (now + a_refreshTTL s));
      match c with
      | Err e => mret (Err (AErrDB e))
      | Ok sess =>
          a ← IssueForSession (a_audience s) (a_accessTTL s) (uID user) (uRole user) (sID sess);
          mret (match a with
                | None => Err AErrCrypto
                | Some access => Ok (mkTokens access raw, sID sess)
                end)
      end
  end.

(** [Service.issueTokens] *)
Definition issueTokens (user : User) (userAgent : string) : M (result aerr Tokens) :=
  r ← issueTokensForSession user userAgent;
  mret (match r with Ok (t, _) => Ok t | Err e => Err e end).

(** [Service.mfaEnabled] *)
Definition mfaEnabled (userID : uuid) : M bool :=
  if negb (a_mfaRepo s) then mret false else
  r ← call (GetUserMFA userID);
  mret (match r with Ok row => mEnabled row | Err _ => false end).

(** [Service.Login] *)
Definition Login (deviceToken : string) (i : LoginInput) (userAgent : string) : M (result aerr LoginResult) :=
  r ← call (GetUserByLoginIdentifier (loginIdentifier i));
  match r with
  | Err _ => mret (Err AErrInvalidCredentials)
  | Ok user =>
      gate ← gateLogin s deviceToken user (in_ClientScope i) userAgent;
      if g_refuse gate then mret (Err AErrInvalidCredentials)
      else if negb (CheckPassword (uPasswordHash user) (in_Password i)) then
        _ ← loginFailed s user gate; mret (Err AErrInvalidCredentials)
      else
        _ ← loginSucceeded s user gate;
        if negb (uIsActive user) then mret (Err AErrAccountDisabled)
        else if uPendingEmailVerification user && negb (uEmailVerified user) && a_verificationGate s
        then mret (Err AErrEmailVerificationRequired)
        else
          m ← mfaEnabled (uID user);
          if (m : bool) then
            t ← IssueMFA (uID user) (uRole user);
            mret (match t with None => Err AErrCrypto | Some tok => Ok (MFARequired user tok) end)
          else
            ts ← issueTokens user userAgent;
            match ts with
            | Err e => mret (Err e)
            | Ok tokens => _ ← noteSignIn s deviceToken user userAgent; mret (Ok (LoggedIn user tokens))
            end
  end.

(** [Service.SessionAccount] *)
Definition SessionAccount (rawRefresh : string) : M (option (User * uuid)) :=
  if bool_decide (rawRefresh = EmptyString) then mret None else
  r ← call (GetSessionByRefreshHash (hashRefreshToken rawRefresh));
  match r with
  | Err _ => mret None
  | Ok sess =>
      if negb (bool_decide (sRevoked sess = None)) then mret None else
      now ← call ANow;
      if sExpiresAt sess <=? now then mret None else
      u ← UserByID (sUserID sess);
      mret (match u with Ok user => Some (user, sID sess) | Err _ => None end)
  end.

(** [Service.Refresh] *)
Definition Refresh (rawRefresh userAgent : string) : M (result aerr (User * Tokens)) :=
  r ← call (GetSessionByRefreshHash (hashRefreshToken rawRefresh));
  match r with
  | Err _ => mret (Err AErrInvalidRefresh)
  | Ok sess =>
      match sRevoked sess with
      | Some (_, why) =>
          if bool_decide (why = Rotated) || bool_decide (why = Unclassified) then
            _ ← call (RevokeAllUserSessions (sUserID sess)); mret (Err AErrInvalidRefresh)
          else mret (Err AErrInvalidRefresh)
      | None =>
          now ← call ANow;
          if sExpiresAt sess <=? now then mret (Err AErrInvalidRefresh) else
          u ← UserByID (sUserID sess);
          match u with
          | Err _ => mret (Err AErrInvalidRefresh)
          | Ok user =>
              rot ← call (RotateSession (sID sess));
              match rot with
              | Err e => mret (Err (AErrDB e))
              | Ok _ =>
                  t ← issueTokensForSession user userAgent;
                  match t with
                  | Err e => mret (Err e)
                  | Ok (tokens, newSessionID) =>
                      _ ← call (MoveStepUpTokensToSession (sID sess) newSessionID);
                      mret (Ok (user, tokens))
                  end
              end
          end
      end
  end.

(** [Service.Logout] *)
Definition Logout (rawRefresh : string) : M (result dberr unit) :=
  r ← call (GetSessionByRefreshHash (hashRefreshToken rawRefresh));
  match r with
  | Err _ => mret (Ok tt)
  | Ok sess => call (RevokeSession (sID sess))
  end.

(** [Service.LogoutAll] *)
Definition LogoutAll (userID : uuid) : M (result dberr unit) := call (RevokeAllUserSessions userID).

(** [Service.AuthenticateAccessToken] *)
Definition AuthenticateAccessToken (claims : option Claims) : M (result aerr Principal) :=
  match claims with
  | None => mret (Err AErrSessionRevoked)
  | Some c =>
      match uuid_parse (a_crypto s) (cl_Subject c), uuid_parse (a_crypto s) (cl_SessionID c) with
      | Some userID, Some sessionID =>
          r ← call (GetActiveSessionForAccessToken sessionID);
          mret (match r with
                | Err ErrNoRows => Err AErrSessionRevoked
                | Err _ => Err AErrSessionLookupUnavailable
                | Ok (owner, role) =>
                    if bool_decide (owner = userID) then Ok (mkPrincipal userID role) else Err AErrSessionRevoked
                end)
      | _, _ => mret (Err AErrSessionRevoked)
      end
  end.

(** [Service.afterPasswordWritten] *)
Definition afterPasswordWritten (user : User) (currentSessionID : string) : M unit :=
  _ ← match uuid_parse (a_crypto s) currentSessionID with
      | Some sid => call (RevokeOtherUserSessions (uID user) sid)
      | None => call (RevokeAllUserSessions (uID user))
      end;
  _ ← call (Mail (MailPasswordChanged (uEmail user)));
  mret tt.

(** [Service.ChangePassword] *)
Definition ChangePassword (userID : uuid) (currentPassword newPassword currentSessionID : string)
    : M (result aerr unit) :=
  u ← UserByID userID;
  match u with
  | Err e => mret (Err e)
  | Ok user =>
      if bool_decide (uPasswordHash user = EmptyString) then mret (Err AErrPasswordNotSet)
      else if negb (CheckPassword (uPasswordHash user) currentPassword) then mret (Err AErrInvalidPassword)
      else match bcrypt_hash (a_crypto s) newPassword with
           | None => mret (Err AErrCrypto)
           | Some hash =>
               r ← call (UpdateUserPassword (uID user) hash);
               match r with
               | Err e => mret (Err (AErrDB e))
               | Ok _ => _ ← afterPasswordWritten user currentSessionID; mret (Ok tt)
               end
           end
  end.

(** ** Step-up assertions *)

Record StepUpGrant := mkGrant { gr_Token : string; gr_Provider : string; gr_ExpiresAt : time }.

(** [Service.IssueStepUp] *)
Definition IssueStepUp (userID sessionID : uuid) (provider : string) : M (result aerr StepUpGrant) :=
  g ← generateToken;
  match g with
  | None => mret (Err AErrCrypto)
  | Some raw =>
      d ← call (DeleteUnusedStepUpTokensForSession sessionID);
      match d with
      | Err e => mret (Err (AErrDB e))
      | Ok _ =>
          _ ← call DeleteExpiredStepUpTokens;
          now ← call ANow;
          c ← call (CreateStepUpToken userID sessionID provider (hashStepUpToken raw) (now + stepUpTTL));
          mret (match c with
                | Err e => Err (AErrDB e)
                | Ok _ => Ok (mkGrant raw provider (now + stepUpTTL))
                end)
      end
  end.

(** [Service.ConsumeStepUp] *)
Definition ConsumeStepUp (userID : uuid) (currentSessionID rawToken : string) : M (result aerr string) :=
  if bool_decide (TrimSpace rawToken = EmptyString) then mret (Err AErrStepUpRequired) else
  match uuid_parse (a_crypto s) currentSessionID with
  | None => mret (Err AErrStepUpRequired)
  | Some sid =>
      r ← call (ConsumeStepUpToken (hashStepUpToken rawToken) userID sid);
      mret (match r with Ok provider => Ok provider | Err _ => Err AErrStepUpRequired end)
  end.

(** [Service.ConfirmFreshCredential] *)
Definition ConfirmFreshCredential (userID : uuid) (currentPassword sessionID stepUpToken : string)
    : M (result aerr unit) :=
  u ← UserByID userID;
  match u with
  | Err e => mret (Err e)
  | Ok user =>
      if negb (bool_decide (TrimSpace stepUpToken = EmptyString)) then
        if negb (bool_decide (uPasswordHash user = EmptyString)) then mret (Err AErrPasswordAlreadySet)
        else r ← ConsumeStepUp (uID user) sessionID stepUpToken;
             mret (match r with Ok _ => Ok tt | Err e => Err e end)
      else if bool_decide (uPasswordHash user = EmptyString) then mret (Err AErrPasswordNotSet)
      else if negb (CheckPassword (uPasswordHash user) currentPassword) then mret (Err AErrInvalidPassword)
      else mret (Ok tt)
  end.

(** [Service.SetPassword] *)
Definition SetPassword (userID : uuid) (newPassword stepUpToken currentSessionID : string)
    : M (result aerr unit) :=
  u ← UserByID userID;
  match u with
  | Err e => mret (Err e)
  | Ok user =>
      if negb (bool_decide (uPasswordHash user = EmptyString)) then mret (Err AErrPasswordAlreadySet) else
      r ← ConsumeStepUp (uID user) currentSessionID stepUpToken;
      match r with
      | Err e => mret (Err e)
      | Ok _ =>
          match bcrypt_hash (a_crypto s) newPassword with
          | None => mret (Err AErrCrypto)
          | Some hash =>
              w ← call (UpdateUserPassword (uID user) hash);
              match w with
              | Err e => mret (Err (AErrDB e))
              | Ok _ => _ ← afterPasswordWritten user currentSessionID; mret (Ok tt)
              end
          end
      end
  end.

(** [Service.StepUpProvidersFor] *)
Definition StepUpProvidersFor (userID : uuid) : M (list string) :=
  r ← call (ListOAuthIdentitiesByUser userID);
  mret (match r with Ok ps => ps | Err _ => [] end).

(** [Service.HasLinkedProvider] *)
Definition HasLinkedProvider (userID : uuid) (provider : string) : M bool :=
  ps ← StepUpProvidersFor userID;
  mret (existsb (fun p => bool_decide (p = provider)) ps).

End Sessions.

(** [IsPlaceholderEmail] *)
Definition IsPlaceholderEmail (addr : string) : bool :=
  match after_last (Ascii.ascii_of_nat 64) addr with
  | None => false
  | Some dom => HasSuffix (ToLower (TrimSuffix (TrimSpace dom) ".")) ".invalid"
  end.

(** ** Lemmas: revocation *)

(** The row is the same session, and a revocation stays. *)
Definition still (x y : Session) : Prop :=
  sID y = sID x /\ sUserID y = sUserID x /\ sRefreshHash y = sRefreshHash x /\ sExpiresAt y = sExpiresAt x /\
  (forall r, sRevoked x = Some r -> sRevoked y = Some r).

#[global] Instance still_preorder : PreOrder still.
Proof.
  split; [done|]. intros x y z (?&?&?&?&Hxy) (?&?&?&?&Hyz). split_and!; try congruence. auto.
Qed.

Lemma revoke_still t why x : still x (revoke t why x).
Proof. unfold revoke. destruct (sRevoked x) eqn:Hr; [done|]. split_and!; try done. intros r. by rewrite Hr. Qed.

(** Every session is still there. *)
Definition sessions_kept (d d' : AuthDB) : Prop :=
  forall id x, asessions d !! id = Some x -> exists y, asessions d' !! id = Some y /\ still x y.

#[global] Instance sessions_kept_preorder : PreOrder sessions_kept.
Proof.
  split; [intros d id x Hx; by exists x|]. intros d1 d2 d3 H12 H23 id x Hx.
  destruct (H12 _ _ Hx) as (y & Hy & ?). destruct (H23 _ _ Hy) as (z & Hz & ?). exists z.
  split; [done|]. by etrans.
Qed.

Lemma kept_same d d' : asessions d' = asessions d -> sessions_kept d d'.
Proof. intros He id x Hx. exists x. by rewrite He. Qed.

Lemma kept_alter f id0 d : (forall x, still x (f x)) -> sessions_kept d (set_sessions (alter f id0) d).
Proof.
  intros Hf id x Hx. cbn. destruct (decide (id0 = id)) as [->|].
  - rewrite lookup_alter_eq, Hx. by exists (f x).
  - rewrite lookup_alter_ne by done. by exists x.
Qed.

(** No operation of the service un-revokes, deletes or reassigns a session. *)
Lemma sessions_kept_step X (e : authE X) w :
  sessions_kept (store w) (store (auth_handler X e w).2).
Proof.
  destruct e; cbn [auth_handler];
    try (apply (exec_rel _ sessions_kept); intros dd);
    try (by apply kept_alter; apply revoke_still); try (untouched kept_same).
  - unfold q_CreateSession. cbv zeta. case_bool_decide; [by apply kept_same|].
    destruct (_ && _) eqn:Hf; [|by apply kept_same]. bools.
    intros id x Hx. cbn. rewrite lookup_insert_ne by congruence. by exists x.
  - intros id x Hx. cbn. rewrite lookup_fmap, Hx. cbn. eexists. split; [done|].
    case_bool_decide; [apply revoke_still|done].
  - intros id x Hx. cbn. rewrite map_lookup_imap, Hx. cbn. eexists. split; [done|].
    case_match; [apply revoke_still|done].
Qed.

Lemma pool_sessions_kept {A} (ps ps' : list (prog authE A)) w w' :
  rtc (pool_step auth_handler aclock) (ps, w) (ps', w') -> sessions_kept (store w) (store w').
Proof.
  intros Hrun.
  assert (Hpre : PreOrder (fun w w' : faulty AuthDB => sessions_kept (store w) (store w'))).
  { split; [intros x; reflexivity|]. intros x y z. apply transitivity. }
  apply (pool_rel auth_handler (fun _ _ => True) aclock (fun w w' => sessions_kept (store w) (store w')))
    with (c := (ps, w)) (c' := (ps', w')).
  - intros X e x _. apply sessions_kept_step.
  - intros x x' (t & _ & ->). by apply kept_same.
  - done.
  - apply Forall_forall. intros p _. by apply ops_all.
Qed.

(** ** Lemmas: the access-token check *)

(** A session that authorizes requests now. *)
Definition live_session (d : AuthDB) (id owner : uuid) (role : string) : Prop :=
  exists x u, asessions d !! id = Some x /\ users d !! owner = Some u /\ sUserID x = owner /\
    sRevoked x = None /\ anow d < sExpiresAt x /\ uIsActive u = true /\ uDeleted u = false /\ uRole u = role.

Lemma active_session_row id d owner role :
  (q_GetActiveSessionForAccessToken id d).1 = Ok (owner, role) -> live_session d id owner role.
Proof.
  unfold q_GetActiveSessionForAccessToken. cbn. destruct (asessions d !! id) as [x|] eqn:Hx; [|done].
  destruct (users d !! sUserID x) as [u|] eqn:Hu; [|done].
  destruct (_ && negb (uDeleted u)) eqn:Hc; [|done]. intros [= <- <-]. bools. exists x, u. done.
Qed.

Lemma run_authenticate s claims w p :
  (run auth_handler (AuthenticateAccessToken s claims) w).1 = Ok p ->
  exists c sid, claims = Some c /\ uuid_parse (a_crypto s) (cl_Subject c) = Some (pr_UserID p) /\
    uuid_parse (a_crypto s) (cl_SessionID c) = Some sid /\
    live_session (store w) sid (pr_UserID p) (pr_Role p).
Proof.
  unfold AuthenticateAccessToken. destruct claims as [c|]; [|done].
  destruct (uuid_parse _ (cl_Subject c)) as [u|] eqn:Hu; [|done].
  destruct (uuid_parse _ (cl_SessionID c)) as [sid|] eqn:Hs; [|done].
  rewrite run_mbind, run_call. cbn [auth_handler run fst].
  destruct (exec _ w).1 as [[owner role]|[]] eqn:He; try done. cbn.
  apply exec_ok in He as [He _]. case_bool_decide; [|done]. subst. intros [= <-].
  exists c, sid. split_and!; try done. by apply active_session_row.
Qed.

(** ** Lemmas: refresh *)

Definition akeyed (d : AuthDB) : Prop := forall id x, asessions d !! id = Some x -> sID x = id.

Lemma found_session hash d x :
  akeyed d -> (q_GetSessionByRefreshHash hash d).1 = Ok x ->
  asessions d !! sID x = Some x /\ sRefreshHash x = hash.
Proof.
  intros Hk. cbn. destruct (filter _ _) as [|y l] eqn:Hf; [done|]. intros [= ->].
  assert (Hin : x ∈ x :: l) by left. rewrite <- Hf in Hin. apply list_elem_of_filter in Hin as [Hh Hin].
  apply list_elem_of_fmap in Hin as ([id x'] & -> & Hin). apply elem_of_map_to_list in Hin. cbn in *.
  by rewrite (Hk _ _ Hin).
Qed.

(** Reading never fails to be a read. *)
Lemma reads_store {A} (q : AuthDB -> result dberr A * AuthDB) w :
  (forall d, (q d).2 = d) -> store (exec q w).2 = store w.
Proof. intros Hq. symmetry. by apply (exec_rel q eq). Qed.

Lemma run_UserByID id w :
  store (run auth_handler (UserByID id) w).2 = store w /\
  (faults w = [] -> faults (run auth_handler (UserByID id) w).2 = []) /\
  match (run auth_handler (UserByID id) w).1 with
  | Ok u => users (store w) !! id = Some u /\ uIsActive u = true
  | Err e => e = AErrAccountNotFound
  end.
Proof.
  unfold UserByID. rewrite run_mbind, run_call. cbn [auth_handler run fst snd].
  split; [by apply reads_store|]. split; [by destruct w as [d fl]; cbn; intros ->|].
  destruct (exec _ w).1 as [u|e] eqn:He; [|done]. cbn.
  apply exec_ok in He as [He _]. cbn in He. destruct (users (store w) !! id); [|done].
  injection He as ->. destruct (uIsActive u) eqn:Ha; done.
Qed.

(** Issuing tokens creates exactly one session, for the user, not revoked. *)
Lemma run_issue s user ua w tokens sid w' :
  run auth_handler (issueTokensForSession s user ua) w = (Ok (tokens, sid), w') ->
  asessions (store w) !! sid = None /\ users (store w') = users (store w) /\ anow (store w') = anow (store w) /\
  asessions (store w') =
    <[sid := mkSess sid (uID user) (hashRefreshToken s (RefreshToken tokens)) ua None
               (anow (store w) + a_refreshTTL s)]> (asessions (store w)).
Proof.
  unfold issueTokensForSession, generateToken. rewrite !run_mbind, run_call.
  cbn [auth_handler pure_op fst snd run mret prog_mret].
  destruct (rand (store w) (rdrawn (store w))) as [raw|]; [|done]. cbn [option_map].
  rewrite run_mbind, run_call. cbn [auth_handler fst snd store].
  rewrite run_mbind, run_call. cbn [auth_handler].
  set (w1 := Faulty (draw_rand (store w)) (faults w)).
  destruct (exec _ w1) as [[x|e] w2] eqn:Hc; cbn [fst snd]; [|done].
  pose proof (f_equal fst Hc) as Hc1. apply exec_ok in Hc1 as [Hok Hst]. rewrite Hc in Hst. cbn [snd] in Hst.
  rewrite run_mbind. unfold IssueForSession. rewrite run_mbind, run_call. cbn [auth_handler fst snd run].
  destruct (jwt_sign _ _) as [a|]; [|done]. intros [= <- <- <-].
  unfold q_CreateSession in Hok, Hst. cbv zeta in *. case_bool_decide; [done|].
  destruct (_ && _) eqn:Hf; [|done]. bools. cbn in Hok, Hst. injection Hok as <-. cbn [sID RefreshToken].
  rewrite Hst. done.
Qed.

(** The unique index on refresh_hash. *)
Definition hashes_unique (d : AuthDB) : Prop :=
  forall id1 id2 x1 x2, asessions d !! id1 = Some x1 -> asessions d !! id2 = Some x2 ->
    sRefreshHash x1 = sRefreshHash x2 -> id1 = id2.

Lemma find_session d id x :
  hashes_unique d -> asessions d !! id = Some x -> (q_GetSessionByRefreshHash (sRefreshHash x) d).1 = Ok x.
Proof.
  intros Hu Hx. cbn. destruct (filter _ _) as [|y l] eqn:Hf.
  - assert (Hin : x ∈ filter (fun y => sRefreshHash y = sRefreshHash x) (map_to_list (asessions d)).*2).
    { apply list_elem_of_filter. split; [done|]. apply list_elem_of_fmap. exists (id, x).
      by rewrite elem_of_map_to_list. }
    rewrite Hf in Hin. by apply not_elem_of_nil in Hin.
  - assert (Hin : y ∈ y :: l) by left. rewrite <- Hf in Hin. apply list_elem_of_filter in Hin as [Hh Hin].
    apply list_elem_of_fmap in Hin as ([id' y'] & -> & Hin). apply elem_of_map_to_list in Hin. cbn in *.
    assert (id' = id) as -> by (by eapply Hu). congruence.
Qed.

(** What a successful refresh did. *)
Lemma run_Refresh s raw ua w user tokens w' :
  akeyed (store w) -> run auth_handler (Refresh s raw ua) w = (Ok (user, tokens), w') ->
  exists x sid, asessions (store w) !! sID x = Some x /\ sRefreshHash x = hashRefreshToken s raw /\
    sRevoked x = None /\ anow (store w) < sExpiresAt x /\
    users (store w) !! sUserID x = Some user /\ uIsActive user = true /\
    asessions (store w) !! sid = None /\
    asessions (store w') =
      <[sid := mkSess sid (uID user) (hashRefreshToken s (RefreshToken tokens)) ua None
                 (anow (store w) + a_refreshTTL s)]>
        (<[sID x := revoke (anow (store w)) Rotated x]> (asessions (store w))).
Proof.
  intros Hk. unfold Refresh. rewrite run_mbind, run_call. cbn [auth_handler].
  destruct (exec (q_GetSessionByRefreshHash _) w) as [[x|e] w1] eqn:Hg; cbn [fst snd]; [|done].
  pose proof (f_equal fst Hg) as Hg1. apply exec_ok in Hg1 as [Hg1 Hg2]. rewrite Hg in Hg2. cbn in Hg2.
  destruct (found_session _ _ _ Hk Hg1) as [Hx Hh].
  destruct (sRevoked x) as [[t why]|] eqn:Hr.
  { destruct (_ || _); [|done]. rewrite run_mbind. done. }
  rewrite run_mbind, run_call. cbn [auth_handler fst snd]. rewrite Hg2.
  destruct (Z.leb_spec (sExpiresAt x) (anow (store w))); [done|].
  rewrite run_mbind. destruct (run_UserByID (sUserID x) w1) as (Hs1 & _ & Hu). rewrite Hg2 in Hs1, Hu.
  destruct (run auth_handler (UserByID (sUserID x)) w1) as [[u|e] w2]; cbn [fst snd] in *; [|done].
  destruct Hu as [Hu Ha]. rewrite run_mbind, run_call. cbn [auth_handler].
  destruct (exec (q_RotateSession _) w2) as [[[]|e] w3] eqn:Hrot; cbn [fst snd]; [|done].
  pose proof (f_equal fst Hrot) as Hrot1. apply exec_ok in Hrot1 as [_ Hrot2]. rewrite Hrot, Hs1 in Hrot2. cbn in Hrot2.
  assert (H3 : asessions (store w3) = <[sID x := revoke (anow (store w)) Rotated x]> (asessions (store w))).
  { rewrite Hrot2. cbn. apply map_eq. intros i. destruct (decide (sID x = i)) as [<-|].
    - by rewrite lookup_alter_eq, Hx, lookup_insert_eq.
    - by rewrite lookup_alter_ne, lookup_insert_ne. }
  assert (Ht3 : anow (store w3) = anow (store w)) by (by rewrite Hrot2).
  rewrite run_mbind. destruct (run auth_handler (issueTokensForSession s u ua) w3) as [[[tk sid]|e] w4] eqn:Hi;
    cbn [fst snd]; [|done].
  apply run_issue in Hi as (Hnew & _ & _ & H4). rewrite run_mbind, run_call. cbn [auth_handler run]. intros [= -> -> <-].
  exists x, sid.
  assert (Hm : forall w0, asessions (store (exec (q_MoveStepUpTokensToSession (sID x) sid) w0).2) = asessions (store w0)).
  { intros w0. apply (exec_field asessions). intros dd. unfold q_MoveStepUpTokensToSession. by case_bool_decide. }
  rewrite H3 in Hnew. split_and!; try done.
  - rewrite lookup_insert_None in Hnew. by destruct Hnew.
  - rewrite Hm, H4, H3, Ht3. done.
Qed.

(** Presenting an exchanged token revokes every session of its owner. *)
Lemma run_Refresh_reuse s raw ua d id x t :
  hashes_unique d -> asessions d !! id = Some x -> sRefreshHash x = hashRefreshToken s raw ->
  sRevoked x = Some (t, Rotated) ->
  (run auth_handler (Refresh s raw ua) (Faulty d [])).1 = Err AErrInvalidRefresh /\
  forall id' y, asessions (store (run auth_handler (Refresh s raw ua) (Faulty d [])).2) !! id' = Some y ->
    sUserID y = sUserID x -> sRevoked y <> None.
Proof.
  intros Hu Hx Hh Hr. unfold Refresh. rewrite run_mbind, run_call. cbn [auth_handler]. rewrite exec_fine.
  rewrite <- Hh, (find_session d id x) by done. cbn [fst snd]. rewrite Hr.
  rewrite bool_decide_eq_true_2 by done. cbn [orb]. rewrite run_mbind, run_call. split; [done|].
  cbn. intros id' y. rewrite lookup_fmap. destruct (asessions d !! id') as [y0|]; [|done]. cbn. intros [= <-].
  case_bool_decide as Ho; [|done]. intros _. unfold revoke. destruct (sRevoked y0) eqn:Hy; [by rewrite Hy|done].
Qed.

(** ** Lemmas: sign-in *)

(** The operations of the brake: they touch throttles only. *)
Definition brake_op X (e : authE X) : Prop :=
  match e with
  | ANow | Sleep _ | HasRecentLoginSuccess _ _ _ | HasKnownDevice _ _ | CountActiveLoginLocks _ _ _
  | EnsureLoginThrottle _ _ _ | RecordLoginAttempt _ _ _ _ | SetLoginLock _ _ _ _
  | ClearLoginThrottleScope _ _ | ReleaseLoginAttempt _ _ | RecordLoginSuccess _ _ _ => True
  | _ => False
  end.

Definition brake_keeps (w w' : faulty AuthDB) : Prop :=
  mfa (store w') = mfa (store w) /\ users (store w') = users (store w) /\
  asessions (store w') = asessions (store w) /\ (faults w = [] -> faults w' = []).

#[global] Instance brake_keeps_preorder : PreOrder brake_keeps.
Proof.
  split; [done|]. intros x y z (?&?&?&Hxy) (?&?&?&Hyz). split_and!; try congruence. auto.
Qed.

Lemma brake_keeps_exec {A} (q : AuthDB -> result dberr A * AuthDB) w :
  (forall d, mfa (q d).2 = mfa d /\ users (q d).2 = users d /\ asessions (q d).2 = asessions d) ->
  brake_keeps w (exec q w).2.
Proof.
  intros Hq. split_and!.
  - apply (exec_field mfa). intros d. apply Hq.
  - apply (exec_field users). intros d. apply Hq.
  - apply (exec_field asessions). intros d. apply Hq.
  - destruct w as [d fl]. cbn. by intros ->.
Qed.

Lemma brake_step X (e : authE X) w : brake_op X e -> brake_keeps w (auth_handler X e w).2.
Proof.
  intros He. destruct e; try done; cbn [auth_handler]; try (apply brake_keeps_exec; intros d); try done.
  - unfold q_EnsureLoginThrottle. by repeat case_match.
  - unfold q_RecordLoginAttempt. by repeat case_match.
  - unfold q_RecordLoginSuccess. by repeat case_match.
Qed.

Lemma gateLogin_brake s token user scope ua : ops brake_op (gateLogin s token user scope ua).
Proof.
  unfold gateLogin, gateCount, globalCapExempt, knownDeviceFromContext, lockPrefix, lockAll, wait. walk_ops; done.
Qed.

Lemma loginSucceeded_brake s user g : ops brake_op (loginSucceeded s user g).
Proof. unfold loginSucceeded. walk_ops; done. Qed.

Lemma run_brake {A} (p : prog authE A) w : ops brake_op p -> brake_keeps w (run auth_handler p w).2.
Proof. intros Hp. apply (run_rel auth_handler brake_op brake_keeps); [|done]. intros X e x. apply brake_step. Qed.

(** A password login that made a session proved the password of one active,
    admitted account. *)
Lemma run_Login s dt i ua w user tokens w' :
  run auth_handler (Login s dt i ua) w = (Ok (LoggedIn user tokens), w') ->
  exists w1, brake_keeps w w1 /\
    (exec (q_GetUserByLoginIdentifier (loginIdentifier i)) w).1 = Ok user /\
    CheckPassword s (uPasswordHash user) (in_Password i) = true /\ uIsActive user = true /\
    uPendingEmailVerification user && negb (uEmailVerified user) && a_verificationGate s = false /\
    (run auth_handler (mfaEnabled s (uID user)) w1).1 = false /\
    exists sid y, asessions (store w) !! sid = None /\ asessions (store w') !! sid = Some y /\
      sUserID y = uID user /\ sRefreshHash y = hashRefreshToken s (RefreshToken tokens).
Proof.
  unfold Login. rewrite run_mbind, run_call. cbn [auth_handler].
  assert (H0 : brake_keeps w (exec (q_GetUserByLoginIdentifier (loginIdentifier i)) w).2) by (by apply brake_keeps_exec).
  destruct (exec (q_GetUserByLoginIdentifier _) w) as [[u|e] w0] eqn:Hl; cbn [fst snd] in *; [|done].
  rewrite run_mbind. pose proof (run_brake _ w0 (gateLogin_brake s dt u (in_ClientScope i) ua)) as H1.
  destruct (run auth_handler (gateLogin _ _ _ _ _) w0) as [g w1]; cbn [fst snd] in *.
  destruct (g_refuse g); [done|]. destruct (CheckPassword s _ _) eqn:Hpw; cbn [negb]; [|by rewrite run_mbind].
  rewrite run_mbind. pose proof (run_brake _ w1 (loginSucceeded_brake s u g)) as H2.
  set (w2 := (run auth_handler (loginSucceeded s u g) w1).2) in *.
  destruct (uIsActive u) eqn:Ha; cbn [negb]; [|done]. destruct (_ && a_verificationGate s) eqn:Hv; [done|].
  rewrite run_mbind. destruct (run auth_handler (mfaEnabled s (uID u)) w2) as [m w3] eqn:Hm. cbn [fst snd].
  assert (H3 : store w3 = store w2).
  { unfold mfaEnabled in Hm. destruct (a_mfaRepo s); cbn [negb] in Hm; [|by injection Hm as _ <-].
    rewrite run_mbind, run_call in Hm. cbn in Hm. injection Hm as _ <-. by apply reads_store. }
  destruct m; [rewrite run_mbind; cbn; by case_match|].
  unfold issueTokens. rewrite run_mbind, run_mbind.
  destruct (run auth_handler (issueTokensForSession s u ua) w3) as [[[tk sid]|e] w4] eqn:Hi; cbn [fst snd]; [|done].
  apply run_issue in Hi as (Hnew & _ & _ & H4). cbn [run mret prog_mret fst snd]. rewrite run_mbind. cbn [run mret prog_mret fst snd].
  intros [= -> -> <-]. exists w2. split; [by repeat (etrans; [eassumption|])|].
  split_and!; try done; [by rewrite Hm|].
  assert (Hkept : sessions_kept (store w4) (store (run auth_handler (noteSignIn s dt user ua) w4).2)).
  { apply (run_invariant auth_handler (fun _ _ => True) (fun w => sessions_kept (store w4) (store w)));
      [|by apply ops_all|done]. intros X e x _ Hx. etrans; [exact Hx|apply sessions_kept_step]. }
  destruct (Hkept sid _ ltac:(rewrite H4; apply lookup_insert_eq)) as (y & Hy & Hsame).
  exists sid, y. rewrite H3 in Hnew. destruct H0 as (_&_&E0&_), H1 as (_&_&E1&_), H2 as (_&_&E2&_).
  rewrite E2, E1, E0 in Hnew. destruct Hsame as (_ & E & Eh & _). split_and!; done.
Qed.

(** ** A concrete account with sessions *)

Definition demo_sess (id hash : string) (rev : option (time * reason)) : Session :=
  mkSess id "a" hash "ua" rev (200 * Hour).

Definition demo_sessions_db (ss : gmap uuid Session) (m : gmap uuid UserMFA) (st : gmap uuid StepUp) : AuthDB :=
  mkAuth {["a"%string := demo_account]} ss ∅ m [] st ∅ ∅ [] (100 * Hour)
    (fun n => Nat.iter n (String.append "i") "i"%string) 0 (fun n => Some (Nat.iter n (String.append "r") "r"%string)) 0 [].

(** One live session ("x") whose refresh token hashes to "hx". *)
Definition demo_one : AuthDB := demo_sessions_db {["x"%string := demo_sess "x" "hx" None]} ∅ ∅.

(** A rotated session and the one that replaced it. *)
Definition demo_two : AuthDB :=
  demo_sessions_db {["x"%string := demo_sess "x" "hx" (Some (1, Rotated)); "y"%string := demo_sess "y" "hy" None]} ∅ ∅.

Lemma demo_one_keyed : akeyed demo_one.
Proof. intros id x Hx. cbn in Hx. by apply lookup_singleton_Some in Hx as [<- <-]. Qed.

Lemma demo_two_unique : hashes_unique demo_two.
Proof.
  intros i1 i2 x1 x2 H1 H2 He. cbn in H1, H2.
  rewrite lookup_insert_Some, lookup_singleton_Some in H1, H2.
  destruct H1 as [[<- <-]|(_ & <- & <-)], H2 as [[<- <-]|(_ & <- & <-)]; done.
Qed.

Definition demo_claims (sid : string) : Claims := mkClaims "user" sid "a" "api" 0 0.

(** ** Properties *)

(** C4. Revocation is final. However requests of the whole service interleave
    and whatever store calls fail, once a session is revoked no access token
    bound to it is ever accepted again, and the reason recorded for it never
    changes. *)
Theorem revocation_is_final {A} (s : AuthService) (ps ps' : list (prog authE A)) (w w' : faulty AuthDB)
    (id : uuid) (x : Session) (r : time * reason) (c : Claims) :
  rtc (pool_step auth_handler aclock) (ps, w) (ps', w') ->
  asessions (store w) !! id = Some x -> sRevoked x = Some r ->
  uuid_parse (a_crypto s) (cl_SessionID c) = Some id ->
  (exists y, asessions (store w') !! id = Some y /\ sUserID y = sUserID x /\ sRevoked y = Some r) /\
  forall p, (run auth_handler (AuthenticateAccessToken s (Some c)) w').1 <> Ok p.
Proof.
  intros Hrun Hx Hr Hc. destruct (pool_sessions_kept _ _ _ _ Hrun id x Hx) as (y & Hy & _ & Eu & _ & _ & Hk).
  specialize (Hk _ Hr). split; [by exists y|]. intros p Hp.
  apply run_authenticate in Hp as (c' & sid & [= <-] & _ & Hsid & (z & u & Hz & _ & _ & Hrz & _)).
  rewrite Hc in Hsid. injection Hsid as <-. congruence.
Qed.

Lemma revocation_is_final_witness :
  exists y, asessions (store
     (schedule auth_handler [0; 0; 0; 0; 0; 0; 0; 0]%nat [Refresh demo_auth "hy" "ua"] (Faulty demo_two [])).2) !! "x"%string = Some y /\
   sUserID y = sUserID (demo_sess "x" "hx" (Some (1, Rotated))) /\ sRevoked y = Some (1, Rotated).
Proof.
  refine (proj1 (revocation_is_final demo_auth [Refresh demo_auth "hy" "ua"]
    (schedule auth_handler [0; 0; 0; 0; 0; 0; 0; 0]%nat [Refresh demo_auth "hy" "ua"] (Faulty demo_two [])).1
    (Faulty demo_two []) _ "x" (demo_sess "x" "hx" (Some (1, Rotated))) (1, Rotated) (demo_claims "x") _ _ _ _)).
  - rewrite <- surjective_pairing. apply schedule_pool.
  - reflexivity.
  - reflexivity.
  - reflexivity.
Defined.

(** The access-token check trusts the database, not the token. A request
    is authenticated exactly for a session that exists, is neither revoked nor
    expired and belongs to the account the token names, itself active and not
    deleted, with the role the account has now; a token is called revoked only
    when that is not so, and a store that cannot be asked is reported as
    unavailable, never as a revocation. *)
Theorem access_token_check (s : AuthService) (claims : option Claims) (w : faulty AuthDB) :
  (forall p, (run auth_handler (AuthenticateAccessToken s claims) w).1 = Ok p ->
     exists c sid, claims = Some c /\ uuid_parse (a_crypto s) (cl_Subject c) = Some (pr_UserID p) /\
       uuid_parse (a_crypto s) (cl_SessionID c) = Some sid /\
       live_session (store w) sid (pr_UserID p) (pr_Role p)) /\
  (forall c u sid, claims = Some c -> uuid_parse (a_crypto s) (cl_Subject c) = Some u ->
     uuid_parse (a_crypto s) (cl_SessionID c) = Some sid ->
     forall role, live_session (store w) sid u role ->
     (run auth_handler (AuthenticateAccessToken s claims) w).1 = Ok (mkPrincipal u role) \/
     (run auth_handler (AuthenticateAccessToken s claims) w).1 = Err AErrSessionLookupUnavailable).
Proof.
  split; [intros p; apply run_authenticate|].
  intros c u sid -> Hu Hs role (x & a & Hx & Ha & Eo & Hr & Ht & Hact & Hdel & Erole).
  unfold AuthenticateAccessToken. rewrite Hu, Hs, run_mbind, run_call. cbn [auth_handler run fst].
  assert (Hq : (q_GetActiveSessionForAccessToken sid (store w)).1 = Ok (u, role)).
  { cbn. rewrite Hx, Eo, Ha, Hact, Hdel, Erole, bool_decide_eq_true_2 by done.
    by destruct (Z.ltb_spec (anow (store w)) (sExpiresAt x)); [|lia]. }
  destruct w as [d fl]. unfold exec. cbn [store faults] in *.
  destruct fl as [|[] fl]; cbn [fst]; rewrite ?Hq; cbn; rewrite ?bool_decide_eq_true_2 by done; auto.
Qed.

Lemma access_token_check_witness :
  (run auth_handler (AuthenticateAccessToken demo_auth (Some (demo_claims "x"))) (Faulty demo_one [])).1 =
    Ok (mkPrincipal "a" "user").
Proof.
  destruct (proj2 (access_token_check demo_auth (Some (demo_claims "x")) (Faulty demo_one []))
    (demo_claims "x") "a"%string "x"%string eq_refl eq_refl eq_refl "user"%string) as [H|H].
  - exists (demo_sess "x" "hx" None), demo_account. repeat split.
  - exact H.
  - vm_compute in H. discriminate H.
Defined.

(** A refresh exchanges one live session for another. When it succeeds,
    the presented token belonged to a session that was neither revoked nor
    expired, of an active account; afterwards that session is revoked as
    rotated, one new session of the same account exists for the new token, and
    no other session changed. *)
Theorem refresh_rotates (s : AuthService) (raw ua : string) (w w' : faulty AuthDB) (user : User) (tokens : Tokens) :
  akeyed (store w) -> run auth_handler (Refresh s raw ua) w = (Ok (user, tokens), w') ->
  exists x sid, asessions (store w) !! sID x = Some x /\ sRefreshHash x = hashRefreshToken s raw /\
    sRevoked x = None /\ anow (store w) < sExpiresAt x /\
    users (store w) !! sUserID x = Some user /\ uIsActive user = true /\
    asessions (store w) !! sid = None /\
    asessions (store w') =
      <[sid := mkSess sid (uID user) (hashRefreshToken s (RefreshToken tokens)) ua None
                 (anow (store w) + a_refreshTTL s)]>
        (<[sID x := revoke (anow (store w)) Rotated x]> (asessions (store w))).
Proof. apply run_Refresh. Qed.

Lemma refresh_rotates_witness :
  exists w', run auth_handler (Refresh demo_auth "hx" "ua") (Faulty demo_one []) =
    (Ok (demo_account, mkTokens "a:i" "cg"), w') /\
    exists x, asessions (store w') !! "x"%string = Some x /\ sRevoked x = Some (100 * Hour, Rotated).
Proof.
  pose (w' := (run auth_handler (Refresh demo_auth "hx" "ua") (Faulty demo_one [])).2). exists w'.
  assert (Hrun : run auth_handler (Refresh demo_auth "hx" "ua") (Faulty demo_one []) =
    (Ok (demo_account, mkTokens "a:i" "cg"), w')) by (apply run_answer; vm_compute; reflexivity).
  split; [exact Hrun|].
  destruct (refresh_rotates demo_auth "hx" "ua" (Faulty demo_one []) _ _ _ demo_one_keyed Hrun)
    as (x & sid & Hx & Hh & Hr & _ & _ & _ & Hn & Hs).
  cbn in Hx. apply lookup_singleton_Some in Hx as [Ex <-]. exists (revoke (100 * Hour) Rotated (demo_sess "x" "hx" None)).
  split; [|reflexivity]. rewrite Hs. rewrite lookup_insert_ne; [vm_compute; reflexivity|].
  intros ->. vm_compute in Hn. discriminate Hn.
Defined.

(** Replaying an exchanged refresh token signs the account out
    everywhere. With the store answering, presenting a token whose session was
    rotated is refused and leaves no session of that account unrevoked. *)
Theorem refresh_replay_revokes_all (s : AuthService) (raw ua : string) (d : AuthDB) (id : uuid) (x : Session) (t : time) :
  hashes_unique d -> asessions d !! id = Some x -> sRefreshHash x = hashRefreshToken s raw ->
  sRevoked x = Some (t, Rotated) ->
  (run auth_handler (Refresh s raw ua) (Faulty d [])).1 = Err AErrInvalidRefresh /\
  forall id' y, asessions (store (run auth_handler (Refresh s raw ua) (Faulty d [])).2) !! id' = Some y ->
    sUserID y = sUserID x -> sRevoked y <> None.
Proof. apply run_Refresh_reuse. Qed.

Lemma refresh_replay_revokes_all_witness :
  exists y, asessions (store (run auth_handler (Refresh demo_auth "hx" "ua") (Faulty demo_two [])).2) !! "y"%string = Some y /\
    sRevoked y <> None.
Proof.
  pose (y := demo_sess "y" "hy" (Some (100 * Hour, SignedOut))). exists y.
  assert (Hy : asessions (store (run auth_handler (Refresh demo_auth "hx" "ua") (Faulty demo_two [])).2) !! "y"%string = Some y)
    by (vm_compute; reflexivity).
  split; [exact Hy|].
  refine (proj2 (refresh_replay_revokes_all demo_auth "hx" "ua" demo_two "x" (demo_sess "x" "hx" (Some (1, Rotated))) 1
    demo_two_unique _ _ _) "y"%string y Hy _); vm_compute; reflexivity.
Defined.

(** Two simultaneous refreshes of one token both succeed. Each reads the
    session before either revokes it, and the revocation does not report
    whether it was the one that changed the row: both callers get a session,
    no replay is detected, and both new sessions stay live. *)
Theorem concurrent_refresh_both_succeed :
  let c := schedule auth_handler (concat (repeat [0; 1] 12))%nat
    [ (r ← Refresh demo_auth "hx" "thief"; mret (match r with Ok _ => true | Err _ => false end));
      (r ← Refresh demo_auth "hx" "owner"; mret (match r with Ok _ => true | Err _ => false end)) ] (Faulty demo_one []) in
  c.1 = [Ret true; Ret true] /\
  (map (fun kv => (sUserAgent kv.2, sRevoked kv.2)) (map_to_list (asessions (store c.2)))) ≡ₚ
    [("ua", Some (100 * Hour, Rotated)); ("thief", None); ("owner", None)]%string.
Proof. cbv zeta. split; [vm_compute; reflexivity|]. vm_compute. solve_Permutation. Qed.

(** ** Lemmas: step-up tokens *)

(** The unique index on token_hash. *)
Definition tokens_unique (d : AuthDB) : Prop :=
  forall i1 i2 t1 t2, stepups d !! i1 = Some t1 -> stepups d !! i2 = Some t2 -> tHash t1 = tHash t2 -> i1 = i2.

(** Every row of the second state is a row of the first with the same hash,
    used if that one was. *)
Definition tokens_shrink (d d' : AuthDB) : Prop :=
  forall i t', stepups d' !! i = Some t' ->
    exists t, stepups d !! i = Some t /\ tHash t' = tHash t /\ (tUsed t = true -> tUsed t' = true).

#[global] Instance tokens_shrink_preorder : PreOrder tokens_shrink.
Proof.
  split; [intros d i t Ht; by exists t|]. intros d1 d2 d3 H12 H23 i t3 H3.
  destruct (H23 _ _ H3) as (t2 & H2 & E2 & U2). destruct (H12 _ _ H2) as (t1 & H1 & E1 & U1).
  exists t1. split_and!; [done|congruence|auto].
Qed.

(** Nothing mints the token with this hash. *)
Definition mints_other (hash : string) X (e : authE X) : Prop :=
  match e with CreateStepUpToken _ _ _ h _ => h <> hash | _ => True end.

(** A row with this hash is still unspent. *)
Definition unspent (hash : string) (d : AuthDB) : bool :=
  existsb (fun t => bool_decide (tHash t = hash) && negb (tUsed t)) (map_to_list (stepups d)).*2.

Lemma unspent_spec hash d :
  unspent hash d = true <-> exists i t, stepups d !! i = Some t /\ tHash t = hash /\ tUsed t = false.
Proof.
  unfold unspent. rewrite existsb_exists. split.
  - intros (t & Hin & Ht). bools. apply list_elem_of_In, list_elem_of_fmap in Hin as ([i t'] & -> & Hin).
    apply elem_of_map_to_list in Hin. by exists i, t'.
  - intros (i & t & Hi & Hh & Hu). exists t. rewrite bool_decide_eq_true_2, Hu by done. split; [|done].
    apply list_elem_of_In, list_elem_of_fmap. exists (i, t). by rewrite elem_of_map_to_list.
Qed.

Lemma shrink_unique d d' : tokens_shrink d d' -> tokens_unique d -> tokens_unique d'.
Proof.
  intros Hs Hu i1 i2 t1 t2 H1 H2 He. destruct (Hs _ _ H1) as (u1 & G1 & E1 & _), (Hs _ _ H2) as (u2 & G2 & E2 & _).
  apply (Hu i1 i2 u1 u2 G1 G2). congruence.
Qed.

Lemma shrink_spent hash d d' : tokens_shrink d d' -> unspent hash d = false -> unspent hash d' = false.
Proof.
  intros Hs Hu. apply not_true_iff_false. intros (i & t & Hi & Hh & Hn)%unspent_spec.
  destruct (Hs _ _ Hi) as (t0 & H0 & E & U). apply not_true_iff_false in Hu. apply Hu.
  apply unspent_spec. exists i, t0. split_and!; [done|congruence|].
  destruct (tUsed t0); [by rewrite U in Hn|done].
Qed.

Lemma shrink_same d d' : stepups d' = stepups d -> tokens_shrink d d'.
Proof. intros He i t Ht. exists t. by rewrite <- He. Qed.

Lemma shrink_filter (P : uuid * StepUp -> Prop) `{!forall kv, Decision (P kv)} d :
  tokens_shrink d (set_stepups (filter P) d).
Proof. intros i t Ht. cbn in Ht. apply map_lookup_filter_Some in Ht as [Ht _]. by exists t. Qed.

(** Spending uses up the row it found. *)
Lemma consume_row hash u sess d :
  match (q_ConsumeStepUpToken hash u sess d).1 with
  | Ok p => exists i t, stepups d !! i = Some t /\ spendable hash u sess (anow d) t = true /\ p = tProvider t /\
      stepups (q_ConsumeStepUpToken hash u sess d).2 =
        <[i := mkStepUp (tUserID t) (tSessionID t) (tProvider t) (tHash t) (tExpiresAt t) true]> (stepups d)
  | Err e => e = ErrNoRows /\ (q_ConsumeStepUpToken hash u sess d).2 = d
  end.
Proof.
  unfold q_ConsumeStepUpToken. destruct (filter _ _) as [|[i t] l] eqn:Hf; [done|]. cbn.
  assert (Hin : (i, t) ∈ (i, t) :: l) by left. rewrite <- Hf in Hin.
  apply list_elem_of_filter in Hin as [Ht Hin%elem_of_map_to_list]. by exists i, t.
Qed.

Lemma consume_shrink hash u sess d : tokens_shrink d (q_ConsumeStepUpToken hash u sess d).2.
Proof.
  pose proof (consume_row hash u sess d) as H. destruct (q_ConsumeStepUpToken hash u sess d).1 as [p|e].
  - destruct H as (i & t & Hi & _ & _ & He). intros j t' Hj. rewrite He in Hj.
    apply lookup_insert_Some in Hj as [[<- <-]|[_ Hj]]; [by exists t|by exists t'].
  - destruct H as [_ ->]. reflexivity.
Qed.

(** Every operation but the minting of a token only shrinks the table. *)
Definition mints X (e : authE X) : bool := match e with CreateStepUpToken _ _ _ _ _ => true | _ => false end.

Lemma tokens_shrink_step X (e : authE X) w :
  mints X e = false -> tokens_shrink (store w) (store (auth_handler X e w).2).
Proof.
  intros He. destruct e; try done; cbn [auth_handler]; try (apply (exec_rel _ tokens_shrink); intros dd);
    first [ by apply consume_shrink | by apply shrink_filter | untouched shrink_same | idtac ].
  unfold q_MoveStepUpTokensToSession. case_bool_decide; [by apply shrink_same|].
  intros i t Ht. cbn in Ht. rewrite lookup_fmap in Ht. destruct (stepups dd !! i) as [t0|]; [|done].
  injection Ht as <-. exists t0. split; [done|]. by case_match.
Qed.

(** Minting keeps hashes unique and touches no other token. *)
Lemma mint_unique u sess p h t d : tokens_unique d -> tokens_unique (q_CreateStepUpToken u sess p h t d).2.
Proof.
  intros Hu. unfold q_CreateStepUpToken. cbv zeta. destruct (_ || _); [done|].
  destruct (_ && _) eqn:Hf; [|done]. apply andb_true_iff in Hf as [_ Hf].
  assert (Hnew : forall i t', stepups d !! i = Some t' -> tHash t' <> h).
  { intros i t' Hi. assert (Hin : t' ∈ (map_to_list (stepups d)).*2).
    { apply list_elem_of_fmap. exists (i, t'). by rewrite elem_of_map_to_list. }
    apply (forallb_elem _ _ _ Hf) in Hin. by bools. }
  intros i1 i2 t1 t2 H1 H2 He. cbn in H1, H2. rewrite lookup_insert_Some in H1, H2.
  destruct H1 as [[<- <-]|[_ H1]], H2 as [[<- <-]|[_ H2]]; cbn in He; try done.
  - by apply Hnew in H2.
  - by apply Hnew in H1.
  - by eapply Hu.
Qed.

Lemma mint_spent hash u sess p h t d :
  h <> hash -> unspent hash d = false -> unspent hash (q_CreateStepUpToken u sess p h t d).2 = false.
Proof.
  intros Hne Hu. unfold q_CreateStepUpToken. cbv zeta. destruct (_ || _); [done|].
  destruct (_ && _); [|done]. apply not_true_iff_false. intros (i & k & Hi & Hh & Hk)%unspent_spec.
  cbn in Hi. apply lookup_insert_Some in Hi as [[_ <-]|[_ Hi]]; [done|].
  apply not_true_iff_false in Hu. apply Hu. apply unspent_spec. by exists i, k.
Qed.

Lemma tokens_unique_step X (e : authE X) w :
  tokens_unique (store w) -> tokens_unique (store (auth_handler X e w).2).
Proof.
  intros Hu. destruct (mints X e) eqn:Hm; [|by eapply shrink_unique; [apply tokens_shrink_step|]].
  destruct e; try done. cbn [auth_handler]. apply exec_invariant; [|done]. intros dd. apply mint_unique.
Qed.

Lemma spent_step hash X (e : authE X) w :
  mints_other hash X e -> unspent hash (store w) = false -> unspent hash (store (auth_handler X e w).2) = false.
Proof.
  intros Ho Hu. destruct (mints X e) eqn:Hm; [|by eapply shrink_spent; [apply tokens_shrink_step|]].
  destruct e; try done. cbn [auth_handler]. apply (exec_invariant _ (fun d => unspent hash d = false)); [|done].
  intros dd. by apply mint_spent.
Qed.

(** Winning: an answer with the provider. *)
Definition spends (hash : string) X (e : authE X) : X -> bool :=
  match e in authE X return X -> bool with
  | ConsumeStepUpToken h _ _ => fun r => match r with Ok _ => bool_decide (h = hash) | Err _ => false end
  | _ => fun _ => false
  end.

Definition confirmed {A} (r : result aerr A) : bool := match r with Ok _ => true | Err _ => false end.

Lemma spends_closes hash X (e : authE X) w :
  tokens_unique (store w) -> spends hash X e (auth_handler X e w).1 = true ->
  unspent hash (store w) = true /\ unspent hash (store (auth_handler X e w).2) = false.
Proof.
  intros Hu Hs. destruct e; try done. cbn [auth_handler spends] in *.
  destruct (exec _ w).1 as [p|] eqn:He; [|done]. bools. subst hash0. apply exec_ok in He as [He ->].
  pose proof (consume_row hash u sess (store w)) as Hc. rewrite He in Hc.
  destruct Hc as (i & t & Hi & Ht & _ & Hst). unfold spendable in Ht. bools. split.
  - apply unspent_spec. by exists i, t.
  - apply not_true_iff_false. intros (j & k & Hj & Hh & Hk)%unspent_spec. rewrite Hst in Hj.
    apply lookup_insert_Some in Hj as [[_ <-]|[Hne Hj]]; [done|]. apply Hne. eapply Hu; [done..|congruence].
Qed.

(** C5. A password login hands out a session only for the one account the
    identifier names, active, with its password proven and not held for email
    verification; the session is new and belongs to that account. With the
    store answering, the account has no second factor switched on: credentials
    alone never make a session on an MFA-enabled account. *)
Theorem password_login_sound (s : AuthService) (dt : string) (i : LoginInput) (ua : string) (w w' : faulty AuthDB)
    (user : User) (tokens : Tokens) :
  run auth_handler (Login s dt i ua) w = (Ok (LoggedIn user tokens), w') ->
  (q_GetUserByLoginIdentifier (loginIdentifier i) (store w)).1 = Ok user /\
  bcrypt_compare (a_crypto s) (uPasswordHash user) (in_Password i) = true /\ uIsActive user = true /\
  (a_verificationGate s = true -> uPendingEmailVerification user = true -> uEmailVerified user = true) /\
  (exists sid y, asessions (store w) !! sid = None /\ asessions (store w') !! sid = Some y /\
     sUserID y = uID user /\ sRefreshHash y = hashRefreshToken s (RefreshToken tokens)) /\
  (faults w = [] -> a_mfaRepo s = true ->
     forall row, mfa (store w) !! uID user = Some row -> mEnabled row = false).
Proof.
  intros Hrun. apply run_Login in Hrun as (w1 & (Em & _ & _ & Hf) & Hl & Hpw & Ha & Hv & Hm & Hsess).
  apply exec_ok in Hl as [Hl _]. split_and!; try done.
  - intros Hg Hp. rewrite Hg, Hp in Hv. by destruct (uEmailVerified user).
  - intros Hw Hr row Hrow. unfold mfaEnabled in Hm. rewrite Hr in Hm. cbn [negb] in Hm.
    rewrite run_mbind, run_call in Hm. cbn [auth_handler run fst mret prog_mret] in Hm.
    destruct w1 as [d1 fl]. cbn in Em, Hf. rewrite Hf in Hm by done. cbn in Hm. by rewrite Em, Hrow in Hm.
Qed.

Definition demo_login : LoginInput := mkLoginInput "" " ANN " "pw" demo_scope.

Lemma password_login_sound_witness :
  exists tokens w', run auth_handler (Login demo_auth "" demo_login "ua") (Faulty demo_one []) =
    (Ok (LoggedIn demo_account tokens), w') /\
  exists sid y, asessions (store w') !! sid = Some y /\ sUserID y = "a"%string.
Proof.
  pose (w' := (run auth_handler (Login demo_auth "" demo_login "ua") (Faulty demo_one [])).2).
  exists (mkTokens "a:i" "cg"), w'.
  assert (Hrun : run auth_handler (Login demo_auth "" demo_login "ua") (Faulty demo_one []) =
    (Ok (LoggedIn demo_account (mkTokens "a:i" "cg")), w')) by (unfold w'; apply run_answer; vm_compute; reflexivity).
  split; [exact Hrun|].
  destruct (password_login_sound demo_auth "" demo_login "ua" (Faulty demo_one []) w' demo_account (mkTokens "a:i" "cg") Hrun) as (_ & _ & _ & _ & (sid & y & _ & Hy & Ho & _) & _).
  exists sid, y. split; [exact Hy|exact Ho].
Defined.

Definition demo_mfa_db : AuthDB :=
  demo_sessions_db ∅ {["a"%string := mkMFA "123456" true 0 None]} ∅.

(** The second factor is skipped when it cannot be looked up. The
    reading of the MFA row treats every error as "not enabled": on an account
    with two-factor authentication on, a password login whose one MFA query
    fails (every other call answering) is given a session, where the same login
    with the store answering is asked for the code. *)
Theorem mfa_lookup_fails_open :
  (exists t, (run auth_handler (Login demo_auth "" demo_login "ua") (Faulty demo_mfa_db [])).1 =
     Ok (MFARequired demo_account t)) /\
  (exists t, (run auth_handler (Login demo_auth "" demo_login "ua")
       (Faulty demo_mfa_db (replicate 10 Fine ++ [FailBefore]))).1 = Ok (LoggedIn demo_account t)).
Proof.
  split.
  - eexists. vm_compute. reflexivity.
  - eexists. vm_compute. reflexivity.
Qed.

(** A step-up assertion is spent once, by the session it was made for. A
    confirmation succeeds only with a live, unspent token of that account and
    session; and however many requests present one token at the same moment,
    among any other requests (none of which mints that very token) and with any
    store calls failing, at most one of them is confirmed. *)
Theorem step_up_single_use (s : AuthService) (raw : string) (ps ps' : list (prog authE (result aerr string)))
    (w w' : faulty AuthDB) :
  tokens_unique (store w) ->
  Forall (fun p => (exists u sid, p = ConsumeStepUp s u sid raw) \/
    (exists B (q : prog authE B), ops (mints_other (hashStepUpToken s raw)) q /\
       p = (q ≫= fun _ => mret (Err AErrStepUpRequired)))) ps ->
  rtc (pool_step auth_handler aclock) (ps, w) (ps', w') ->
  (length (filter (fun p => succeeded confirmed p = true) ps') <= 1)%nat /\
  (forall u sid p, (run auth_handler (ConsumeStepUp s u sid raw) w).1 = Ok p ->
     exists id sess t, uuid_parse (a_crypto s) sid = Some sess /\ stepups (store w) !! id = Some t /\
       tHash t = hashStepUpToken s raw /\ tUserID t = u /\ tSessionID t = sess /\ tUsed t = false /\
       anow (store w) < tExpiresAt t /\ tProvider t = p).
Proof.
  intros Hu Hps Hrun. split.
  - eapply (single_winner auth_handler (mints_other (hashStepUpToken s raw)) (spends (hashStepUpToken s raw))
      (fun w => unspent (hashStepUpToken s raw) (store w)) confirmed (fun w => tokens_unique (store w)));
      [| | | | |exact Hu|exact Hrun].
    + intros X e x _. apply tokens_unique_step.
    + intros X e x _. apply spends_closes.
    + intros X e x Hm _. by apply spent_step.
    + intros x x' (t & _ & ->) Hx. by split.
    + eapply Forall_impl; [exact Hps|]. intros p [(u & sid & ->)|(B & q & Hq & ->)].
      * unfold ConsumeStepUp. split; [walk_ops; done|].
        repeat case_match; try done. cbn. intros [r|] Hr; [|done]. by rewrite bool_decide_eq_true_2 in Hr.
      * split; [by apply ops_bind|]. by apply needs_win_bind.
  - intros u sid p. unfold ConsumeStepUp. case_bool_decide; [done|].
    destruct (uuid_parse _ sid) as [sess|] eqn:Hs; [|done].
    rewrite run_mbind, run_call. cbn [auth_handler run fst mret prog_mret].
    destruct (exec _ w).1 as [q|] eqn:He; [|done]. intros [= ->]. apply exec_ok in He as [He _].
    pose proof (consume_row (hashStepUpToken s raw) u sess (store w)) as Hc. rewrite He in Hc.
    destruct Hc as (i & t & Hi & Ht & -> & _). unfold spendable in Ht. bools. exists i, sess, t. done.
Qed.

Definition demo_stepup_db : AuthDB :=
  demo_sessions_db {["x"%string := demo_sess "x" "hx" None]} ∅
    {["k"%string := mkStepUp "a" "x" "oidc" "tok" (200 * Hour) false]}.

Definition demo_spenders : list (prog authE (result aerr string)) :=
  [ConsumeStepUp demo_auth "a" "x" "tok"; ConsumeStepUp demo_auth "a" "x" "tok";
   (Refresh demo_auth "hx" "ua" ≫= fun _ => mret (Err AErrStepUpRequired))].

Definition demo_spent : list (prog authE (result aerr string)) * faulty AuthDB :=
  schedule auth_handler [2; 2; 0; 1; 2; 2; 2; 2; 2; 2; 2; 2]%nat demo_spenders (Faulty demo_stepup_db []).

Lemma step_up_single_use_witness :
  length (filter (fun p => succeeded confirmed p = true) demo_spent.1) = 1%nat /\
  (length (filter (fun p => succeeded confirmed p = true) demo_spent.1) <= 1)%nat.
Proof.
  split; [vm_compute; reflexivity|].
  apply (proj1 (step_up_single_use demo_auth "tok" demo_spenders demo_spent.1 (Faulty demo_stepup_db []) demo_spent.2
    ltac:(intros i1 i2 t1 t2 H1 H2 _; cbn in H1, H2; apply lookup_singleton_Some in H1 as [<- _], H2 as [<- _]; reflexivity)
    ltac:(repeat (constructor; [first
      [ left; do 2 eexists; reflexivity
      | right; do 2 eexists; split; [|reflexivity];
        unfold Refresh, UserByID, issueTokensForSession, generateToken, IssueForSession; walk_ops; exact I ]|]); constructor)
    ltac:(rewrite <- surjective_pairing; apply schedule_pool))).
Defined.
