(* ===== verification/Mfa.v ===== *)
(** * Two-factor authentication (src/internal/auth/mfa.go)

    TOTP enrollment, the login challenge with its single-use guarantees,
    recovery codes, removal by the owner and by an administrator, the start-up
    check of the key-encryption key, and the provider sign-in's gate. *)
From S2P Require Import Prelude GoStrings Encoding Secretbox AuthStore Devices LoginLock Sessions.
Local Open Scope Z_scope.

(** [MFAChallengeMethod]; the step that was burned is not part of the answer in
    the sources, and is kept here so that statements can speak of it. *)
Inductive MFAChallengeMethod := ByTOTP (step : Z) | ByRecovery.

Record MFAKEKReport := mkKEKReport { k_Sampled : Z; k_Sealed : Z; k_Undecryptable : Z }.

Record MFAStatus := mkMFAStatus { st_Enabled : bool; st_RecoveryCodesRemaining : Z }.

(** [OAuthSession]: the outcome of a provider sign-in. *)
Inductive OAuthSession (outcome : Type) :=
| OAuthSignedIn (user : User) (o : outcome) (tokens : Tokens)
| OAuthMFARequired (user : User) (o : outcome) (mfaToken : string).
Arguments OAuthSignedIn {outcome} user o tokens.
Arguments OAuthMFARequired {outcome} user o mfaToken.

(** Constants: MFAKEKSample, recoveryCodeCount, totpValidateOpts.Period. *)
Definition MFAKEKSample : Z := 20.
Definition recoveryCodeCount : nat := 10.
Definition period : Z := 30.

(** [time.Time.Unix] *)
Definition Unix (t : time) : Z := t / Second.

Section Mfa.
Context (s : AuthService).
Abbreviation M A := (prog authE A) (only parsing).

(** [Service.openTOTPSecret] *)
Definition openTOTPSecret (stored : string) : result aerr string :=
  if negb (IsSealed stored) then Ok stored
  else match mfa_cipher (a_crypto s) with
       | None => Err AErrMFASecretUndecryptable
       | Some c => match Open c stored with
                   | Err _ => Err AErrMFASecretUndecryptable
                   | Ok raw => Ok raw
                   end
       end.

(** [Service.sealTOTPSecret] *)
Definition sealTOTPSecret (secret : string) : M (result aerr string) :=
  match mfa_cipher (a_crypto s) with
  | None => mret (Ok secret)
  | Some c =>
      nonce ← call Random;
      mret (match Seal c nonce secret with Ok x => Ok x | Err _ => Err AErrCrypto end)
  end.

(** [MFAKEKReport.Mismatch] *)
Definition Mismatch (r : MFAKEKReport) : bool := k_Undecryptable r >? 0.

(** One sampled row of [CheckMFAKEK]'s loop. *)
Definition countSecret (rep : MFAKEKReport) (row : uuid * string) : MFAKEKReport :=
  if negb (IsSealed row.2) then rep
  else mkKEKReport (k_Sampled rep) (k_Sealed rep + 1)
         (match openTOTPSecret row.2 with Err _ => k_Undecryptable rep + 1 | Ok _ => k_Undecryptable rep end).

(** [Service.CheckMFAKEK] *)
Definition CheckMFAKEK (sample : Z) : M (result dberr MFAKEKReport) :=
  if negb (a_mfaRepo s) then mret (Ok (mkKEKReport 0 0 0)) else
  r ← call (ListRecentUserMFASecrets (if sample <=? 0 then MFAKEKSample else sample));
  mret (match r with
        | Err e => Err e
        | Ok rows => Ok (foldl countSecret (mkKEKReport (Z.of_nat (length rows)) 0 0) rows)
        end).

(** The candidate steps of [matchTOTPStep], in order. *)
Fixpoint tryTOTPSteps (code secret : string) (steps : list Z) : option Z :=
  match steps with
  | [] => None
  | step :: rest =>
      match totp_code (a_crypto s) secret step with
      | None => None
      | Some want => if bool_decide (want = code) then Some step else tryTOTPSteps code secret rest
      end
  end.

(** [Service.matchTOTPStep] *)
Definition matchTOTPStep (code secret : string) : M (option Z) :=
  now ← call ANow;
  let base := Z.quot (Unix now) period in
  mret (tryTOTPSteps (TrimSpace code) secret [base + 1; base; base - 1]).

(** [looksLikeTOTPCode] *)
Definition is_digit (c : ascii) : bool := (48 <=? code c) && (code c <=? 57).
Definition looksLikeTOTPCode (c : string) : bool :=
  let c := TrimSpace c in
  (String.length c =? 6)%nat && forallb is_digit (String.list_ascii_of_string c).

(** [hashRecoveryCode] *)
Definition hashRecoveryCode (c : string) : string :=
  sha256_hex (a_crypto s) (ToLower (remove_char (Ascii.ascii_of_nat 45) (TrimSpace c))).

(** [generateRecoveryCode] *)
Definition generateRecoveryCode : M (option string) :=
  b ← call Random;
  mret (option_map (fun b => let h := hex b in take_string 5 h +:+ "-" +:+ drop_string 5 h) b).

(** [Service.BeginTOTPEnrollmentAs] *)
Definition BeginTOTPEnrollmentAs (userID : uuid) (issuer : string) : M (result aerr (string * string)) :=
  let issuer := if bool_decide (issuer = EmptyString) then a_mfaIssuerName s else issuer in
  if negb (a_mfaRepo s) then mret (Err AErrMFAUnavailable) else
  u ← UserByID userID;
  match u with
  | Err e => mret (Err e)
  | Ok user =>
      r ← call (GetUserMFA userID);
      if match r with Ok row => mEnabled row | Err _ => false end then mret (Err AErrMFAAlreadyEnabled) else
      b ← call Random;
      match match b with Some b => totp_generate (a_crypto s) b issuer (uEmail user) | None => None end with
      | None => mret (Err AErrCrypto)
      | Some (secret, uri) =>
          st ← sealTOTPSecret secret;
          match st with
          | Err e => mret (Err e)
          | Ok stored =>
              w ← call (UpsertUserMFA userID stored);
              mret (match w with Err _ => Err AErrMFAAlreadyEnabled | Ok _ => Ok (secret, uri) end)
          end
      end
  end.

(** [Service.BeginTOTPEnrollment] *)
Definition BeginTOTPEnrollment (userID : uuid) : M (result aerr (string * string)) :=
  BeginTOTPEnrollmentAs userID EmptyString.

(** The loop of [issueRecoveryCodes]: [n] codes still to make. *)
Fixpoint makeRecoveryCodes (userID : uuid) (n : nat) (acc : list string) : M (result aerr (list string)) :=
  match n with
  | O => mret (Ok acc)
  | S n' =>
      g ← generateRecoveryCode;
      match g with
      | None => mret (Err AErrCrypto)
      | Some c =>
          r ← call (CreateRecoveryCode userID (hashRecoveryCode c));
          match r with
          | Err e => mret (Err (AErrDB e))
          | Ok _ => makeRecoveryCodes userID n' (acc ++ [c])
          end
      end
  end.

(** [Service.issueRecoveryCodes] *)
Definition issueRecoveryCodes (userID : uuid) : M (result aerr (list string)) :=
  d ← call (DeleteRecoveryCodes userID);
  match d with
  | Err e => mret (Err (AErrDB e))
  | Ok _ => makeRecoveryCodes userID recoveryCodeCount []
  end.

(** [Service.VerifyTOTPEnrollment] *)
Definition VerifyTOTPEnrollment (userID : uuid) (c : string) : M (result aerr (list string)) :=
  if negb (a_mfaRepo s) then mret (Err AErrMFAUnavailable) else
  r ← call (GetUserMFA userID);
  match r with
  | Err _ => mret (Err AErrMFANotEnrolled)
  | Ok row =>
      if mEnabled row then mret (Err AErrMFAAlreadyEnabled) else
      match openTOTPSecret (mSecret row) with
      | Err e => mret (Err e)
      | Ok secret =>
          m ← matchTOTPStep c secret;
          match m with
          | None => mret (Err AErrInvalidMFACode)
          | Some step =>
              b ← call (BurnPendingTOTPStep userID step);
              match b with
              | Err e => mret (Err (AErrDB e))
              | Ok burned =>
                  if burned =? 0 then mret (Err AErrInvalidMFACode) else
                  e ← call (EnableUserMFA userID);
                  match e with
                  | Err e => mret (Err (AErrDB e))
                  | Ok n => if n =? 0 then mret (Err AErrMFANotEnrolled) else issueRecoveryCodes userID
                  end
              end
          end
      end
  end.

(** [Service.afterTwoFactorRemoved] *)
Definition afterTwoFactorRemoved (user : User) (sessionToKeep : string) (byAdmin : bool) : M unit :=
  _ ← match uuid_parse (a_crypto s) sessionToKeep with
      | Some sid => call (RevokeOtherUserSessions (uID user) sid)
      | None => call (RevokeAllUserSessions (uID user))
      end;
  call (Mail (MailTwoFactorRemoved (uEmail user) byAdmin)).

(** The part [DisableTOTP] and [AdminRemoveTOTP] share after their checks. *)
Definition removeSecondFactor (user : User) (userID : uuid) (sessionToKeep : string) (byAdmin : bool)
    : M (result aerr unit) :=
  d ← call (DeleteUserMFA userID);
  match d with
  | Err e => mret (Err (AErrDB e))
  | Ok n =>
      if n =? 0 then mret (Err AErrMFANotEnabled) else
      c ← call (DeleteRecoveryCodes userID);
      match c with
      | Err e => mret (Err (AErrDB e))
      | Ok _ => _ ← afterTwoFactorRemoved user sessionToKeep byAdmin; mret (Ok tt)
      end
  end.

(** [Service.DisableTOTP] *)
Definition DisableTOTP (userID : uuid) (password currentSessionID : string) : M (result aerr unit) :=
  if negb (a_mfaRepo s) then mret (Err AErrMFAUnavailable) else
  u ← UserByID userID;
  match u with
  | Err e => mret (Err e)
  | Ok user =>
      if negb (CheckPassword s (uPasswordHash user) password) then mret (Err AErrInvalidPassword)
      else removeSecondFactor user userID currentSessionID false
  end.

(** [Service.confirmAdminPassword] *)
Definition confirmAdminPassword (adminID : uuid) (password : string) : M (result aerr unit) :=
  u ← UserByID adminID;
  mret (match u with
        | Err e => Err e
        | Ok admin =>
            if bool_decide (uPasswordHash admin = EmptyString) then Err AErrPasswordNotSet
            else if negb (CheckPassword s (uPasswordHash admin) password) then Err AErrInvalidPassword
            else Ok tt
        end).

(** [Service.AdminRemoveTOTP] *)
Definition AdminRemoveTOTP (adminID : uuid) (adminPassword : string) (targetID : uuid) (adminSessionID : string)
    : M (result aerr unit) :=
  if negb (a_mfaRepo s) then mret (Err AErrMFAUnavailable) else
  c ← confirmAdminPassword adminID adminPassword;
  match c with
  | Err e => mret (Err e)
  | Ok _ =>
      t ← UserByID targetID;
      match t with
      | Err _ => mret (Err AErrAccountNotFound)
      | Ok target =>
          removeSecondFactor target targetID
            (if bool_decide (targetID = adminID) then adminSessionID else EmptyString)
            (negb (bool_decide (targetID = adminID)))
      end
  end.

(** [Service.GetMFAStatus] *)
Definition GetMFAStatus (userID : uuid) : M (result aerr MFAStatus) :=
  if negb (a_mfaRepo s) then mret (Err AErrMFAUnavailable) else
  r ← call (GetUserMFA userID);
  match r with
  | Err _ => mret (Ok (mkMFAStatus false 0))
  | Ok row =>
      if negb (mEnabled row) then mret (Ok (mkMFAStatus false 0)) else
      c ← call (CountUnusedRecoveryCodes userID);
      mret (match c with Err e => Err (AErrDB e) | Ok n => Ok (mkMFAStatus true n) end)
  end.

(** [CompleteMFAChallenge] up to the issue of the session: the token, then the
    code, which is spent. *)
Definition checkChallenge (mfaToken c : string) : M (result aerr (User * MFAChallengeMethod)) :=
  if negb (a_mfaRepo s) then mret (Err AErrMFAUnavailable) else
  now ← call ANow;
  match match jwt_parse (a_crypto s) (mfaAudience s) now mfaToken with
        | Some claims => uuid_parse (a_crypto s) (cl_Subject claims)
        | None => None
        end with
  | None => mret (Err AErrInvalidMFAToken)
  | Some userID =>
      u ← UserByID userID;
      match u with
      | Err _ => mret (Err AErrInvalidMFAToken)
      | Ok user =>
          r ← call (GetUserMFA userID);
          match r with
          | Err _ => mret (Err AErrInvalidMFAToken)
          | Ok row =>
              if negb (mEnabled row) then mret (Err AErrInvalidMFAToken)
              else if looksLikeTOTPCode c then
                match openTOTPSecret (mSecret row) with
                | Err e => mret (Err e)
                | Ok secret =>
                    m ← matchTOTPStep c secret;
                    match m with
                    | None => mret (Err AErrInvalidMFACode)
                    | Some step =>
                        b ← call (BurnTOTPStep userID step);
                        mret (match b with
                              | Err e => Err (AErrDB e)
                              | Ok burned => if burned =? 0 then Err AErrInvalidMFACode else Ok (user, ByTOTP step)
                              end)
                    end
                end
              else
                n ← call (UseRecoveryCode userID (hashRecoveryCode c));
                mret (match n with
                      | Err e => Err (AErrDB e)
                      | Ok n => if n =? 0 then Err AErrInvalidMFACode else Ok (user, ByRecovery)
                      end)
          end
      end
  end.

(** [Service.CompleteMFAChallenge] *)
Definition CompleteMFAChallenge (deviceToken mfaToken c userAgent : string)
    : M (result aerr (User * Tokens * MFAChallengeMethod)) :=
  r ← checkChallenge mfaToken c;
  match r with
  | Err e => mret (Err e)
  | Ok (user, method) =>
      ts ← issueTokens s user userAgent;
      match ts with
      | Err e => mret (Err e)
      | Ok tokens => _ ← noteSignIn s deviceToken user userAgent; mret (Ok (user, tokens, method))
      end
  end.

(** [Service.providerSession] *)
Definition providerSession {O} (user : User) (outcome : O) (userAgent : string) : M (result aerr (OAuthSession O)) :=
  m ← mfaEnabled s (uID user);
  if (m : bool) then
    t ← IssueMFA s (uID user) (uRole user);
    mret (match t with None => Err AErrCrypto | Some tok => Ok (OAuthMFARequired user outcome tok) end)
  else
    ts ← issueTokens s user userAgent;
    mret (match ts with Err e => Err e | Ok tokens => Ok (OAuthSignedIn user outcome tokens) end).

End Mfa.

(** ** Lemmas: a time step is burned once *)

(** The program neither restarts nor removes this account's enrollment. *)
Definition keeps_enrollment (u : uuid) X (e : authE X) : Prop :=
  match e with UpsertUserMFA v _ | DeleteUserMFA v => v <> u | _ => True end.

(** The step can still be accepted. *)
Definition step_open (u : uuid) (n : Z) (d : AuthDB) : bool :=
  match mfa d !! u with Some r => newer (mLastStep r) n | None => true end.

Definition burns (u : uuid) (n : Z) X (e : authE X) : X -> bool :=
  match e in authE X return X -> bool with
  | BurnTOTPStep v st => fun r =>
      match r with Ok k => negb (k =? 0) && bool_decide (v = u) && (st =? n) | Err _ => false end
  | _ => fun _ => false
  end.

Definition accepted_at (n : Z) (r : result aerr (User * MFAChallengeMethod)) : bool :=
  match r with Ok (_, ByTOTP st) => st =? n | _ => false end.

(** A table that forgets no burned step. *)
Definition steps_grow (d d' : AuthDB) : Prop :=
  forall u n, step_open u n d = false -> step_open u n d' = false.

#[global] Instance steps_grow_preorder : PreOrder steps_grow.
Proof. split; [by intros d u n|]. intros x y z Hxy Hyz u n Hx. auto. Qed.

Lemma grow_same d d' : mfa d' = mfa d -> steps_grow d d'.
Proof. intros He u n. unfold step_open. by rewrite He. Qed.

Lemma grow_insert u r r' d :
  mfa d !! u = Some r -> (forall n, newer (mLastStep r) n = false -> newer (mLastStep r') n = false) ->
  steps_grow d (set_mfa <[u := r']> d).
Proof.
  intros Hr Hn v n. unfold step_open. cbn. destruct (decide (u = v)) as [<-|].
  - rewrite Hr, lookup_insert_eq. apply Hn.
  - by rewrite lookup_insert_ne.
Qed.

Lemma newer_trans last st n : newer last st = true -> newer last n = false -> newer (Some st) n = false.
Proof. unfold newer. destruct last; [|done]. intros. bools. apply Z.ltb_ge. lia. Qed.

Lemma steps_grow_step u n X (e : authE X) w :
  keeps_enrollment u X e -> step_open u n (store w) = false -> step_open u n (store (auth_handler X e w).2) = false.
Proof.
  intros Hk. destruct e; cbn [auth_handler];
    lazymatch goal with
    | |- context [q_UpsertUserMFA] => idtac
    | |- context [q_DeleteUserMFA] => idtac
    | _ => first [ by apply grow_same | apply (exec_rel _ steps_grow); intros dd; first [untouched grow_same | idtac] ]
    end.
  - cbn in Hk. apply (exec_invariant _ (fun d => step_open u n d = false)). intros dd Hd. unfold q_UpsertUserMFA.
    repeat case_match; try done; unfold step_open in *; cbn; by rewrite lookup_insert_ne.
  - unfold q_EnableUserMFA. repeat case_match; try reflexivity. by eapply grow_insert.
  - cbn in Hk. apply (exec_invariant _ (fun d => step_open u n d = false)). intros dd Hd. unfold q_DeleteUserMFA.
    repeat case_match; try done; unfold step_open in *; cbn; by rewrite lookup_delete_ne.
  - unfold q_BurnTOTPStep. repeat case_match; try reflexivity. bools. eapply grow_insert; [done|].
    intros m. by apply newer_trans.
  - unfold q_BurnPendingTOTPStep. repeat case_match; try reflexivity. eapply grow_insert; [done|].
    intros m. by apply newer_trans.
Qed.

Lemma burns_closes u n X (e : authE X) w :
  burns u n X e (auth_handler X e w).1 = true ->
  step_open u n (store w) = true /\ step_open u n (store (auth_handler X e w).2) = false.
Proof.
  intros Hb. destruct e; try done. cbn [auth_handler burns] in *.
  destruct (exec _ w).1 as [k|] eqn:He; [|done]. bools. subst. apply exec_ok in He as [He ->].
  unfold q_BurnTOTPStep, step_open in *. destruct (mfa (store w) !! u) as [r|] eqn:Hr; cbn in *; [|congruence].
  destruct (mEnabled r && newer (mLastStep r) n) eqn:Hn; cbn in *; [|congruence]. bools. split; [done|].
  rewrite lookup_insert_eq. cbn. apply Z.ltb_irrefl.
Qed.

(** ** Lemmas: a recovery code is redeemed once *)

(** The program does not issue this very code again. *)
Definition reissues_other (u : uuid) (hash : string) X (e : authE X) : Prop :=
  match e with CreateRecoveryCode v h => v <> u \/ h <> hash | _ => True end.

Definition code_open (u : uuid) (hash : string) (d : AuthDB) : bool := existsb (unused u hash) (codes d).

Definition redeems (u : uuid) (hash : string) X (e : authE X) : X -> bool :=
  match e in authE X return X -> bool with
  | UseRecoveryCode v h => fun r =>
      match r with Ok k => negb (k =? 0) && bool_decide (v = u) && bool_decide (h = hash) | Err _ => false end
  | _ => fun _ => false
  end.

Definition redeemed (r : result aerr (User * MFAChallengeMethod)) : bool :=
  match r with Ok (_, ByRecovery) => true | _ => false end.

(** No code becomes unused. *)
Definition codes_shrink (d d' : AuthDB) : Prop :=
  forall u hash, code_open u hash d = false -> code_open u hash d' = false.

#[global] Instance codes_shrink_preorder : PreOrder codes_shrink.
Proof. split; [by intros d u n|]. intros x y z Hxy Hyz u n Hx. auto. Qed.

Lemma codes_same d d' : codes d' = codes d -> codes_shrink d d'.
Proof. intros He u n. unfold code_open. by rewrite He. Qed.

Lemma code_open_spec u hash d :
  code_open u hash d = false <-> forall c, c ∈ codes d -> unused u hash c = false.
Proof.
  unfold code_open. rewrite <- not_true_iff_false, existsb_exists. split.
  - intros Hn c Hc. apply not_true_iff_false. intros Hu. apply Hn. exists c. by rewrite <- list_elem_of_In.
  - intros Hn (c & Hc & Hu). rewrite <- list_elem_of_In in Hc. by rewrite Hn in Hu.
Qed.

(** Redeeming marks the rows it counts. *)
Lemma use_code_shrink u hash d : codes_shrink d (q_UseRecoveryCode u hash d).2.
Proof.
  intros v h Hd. rewrite code_open_spec in *. cbn. intros c (c0 & -> & Hc)%list_elem_of_fmap.
  case_match; [|by apply Hd]. unfold unused. cbn. apply andb_false_r.
Qed.

Lemma use_code_closes u hash d : code_open u hash (q_UseRecoveryCode u hash d).2 = false.
Proof.
  rewrite code_open_spec. cbn. intros c (c0 & -> & Hc)%list_elem_of_fmap.
  destruct (unused u hash c0) eqn:Hu; [|done]. unfold unused. cbn. apply andb_false_r.
Qed.

Lemma use_code_open u hash d k :
  (q_UseRecoveryCode u hash d).1 = Ok k -> k <> 0 -> code_open u hash d = true.
Proof.
  intros [= <-] Hk. destruct (code_open u hash d) eqn:Ho; [done|]. exfalso. apply Hk.
  rewrite code_open_spec in Ho. destruct (filter _ _) as [|c l] eqn:Hf; [done|].
  assert (Hin : c ∈ c :: l) by left. rewrite <- Hf in Hin. apply list_elem_of_filter in Hin as [Hu Hc].
  by rewrite Ho in Hu.
Qed.

Lemma code_closed_step u hash X (e : authE X) w :
  reissues_other u hash X e -> code_open u hash (store w) = false ->
  code_open u hash (store (auth_handler X e w).2) = false.
Proof.
  intros Hk. destruct e; cbn [auth_handler];
    lazymatch goal with
    | |- context [q_CreateRecoveryCode] => idtac
    | _ => first [ by apply codes_same | apply (exec_rel _ codes_shrink); intros dd;
             first [ untouched codes_same | apply use_code_shrink | idtac ] ]
    end.
  - cbn in Hk. apply (exec_invariant _ (fun d => code_open u hash d = false)). intros dd Hd.
    unfold q_CreateRecoveryCode. case_bool_decide; [done|]. rewrite code_open_spec in *. cbn.
    intros c [Hc| ->%list_elem_of_singleton]%elem_of_app; [by apply Hd|]. unfold unused. cbn.
    destruct Hk as [Hk|Hk]; rewrite (bool_decide_eq_false_2 _ Hk); [done|by rewrite andb_false_r].
  - intros v h Hd. rewrite code_open_spec in *. cbn. intros c [_ Hc]%list_elem_of_filter. by apply Hd.
Qed.

Lemma redeems_closes u hash X (e : authE X) w :
  redeems u hash X e (auth_handler X e w).1 = true ->
  code_open u hash (store w) = true /\ code_open u hash (store (auth_handler X e w).2) = false.
Proof.
  intros Hb. destruct e; try done. cbn [auth_handler redeems] in *.
  destruct (exec _ w).1 as [k|] eqn:He; [|done]. bools. subst. apply exec_ok in He as [He ->].
  split; [by eapply use_code_open|apply use_code_closes].
Qed.

(** ** Lemmas: the challenge *)

(** Every token of the request is one of this account's. *)
Definition token_of (s : AuthService) (u : uuid) (tok : string) : Prop :=
  forall now claims v, jwt_parse (a_crypto s) (mfaAudience s) now tok = Some claims ->
    uuid_parse (a_crypto s) (cl_Subject claims) = Some v -> v = u.

(** Acceptance by a code needs the burn of its step; acceptance by a recovery
    code needs its redemption. *)
Ltac walk_challenge s tok c Ht :=
  unfold checkChallenge; destruct (negb (a_mfaRepo s)); [done|]; cbn -[tryTOTPSteps]; intros now _;
  let Hj := fresh "Hj" in let Hv := fresh "Hv" in
  destruct (jwt_parse _ _ now tok) as [cl|] eqn:Hj; [|done];
  destruct (uuid_parse _ _) as [v|] eqn:Hv; [|done]; rewrite <- (Ht _ _ _ Hj Hv);
  cbn -[tryTOTPSteps]; intros [user|] _; [|done]; destruct (uIsActive user); [|done]; cbn -[tryTOTPSteps]; intros [row|] _; [|done];
  destruct (mEnabled row); [|done]; cbn [negb]; destruct (looksLikeTOTPCode c);
  [ destruct (openTOTPSecret s _); [|done]; cbn -[tryTOTPSteps]; intros t _;
    destruct (tryTOTPSteps _ _ _ _) as [st|]; [|done] | ];
  cbn -[tryTOTPSteps]; intros [k|] Hk; [destruct (k =? 0) eqn:E0; [done|]|done| |done]; cbn in *.

Lemma challenge_needs_burn s u n tok c :
  token_of s u tok -> needs_win (burns u n) (accepted_at n) (checkChallenge s tok c).
Proof.
  intros Ht. walk_challenge s tok c Ht.
  - by rewrite bool_decide_eq_true_2 in Hk.
  - by destruct (k =? 0).
Qed.

Lemma challenge_needs_redemption s u tok c :
  token_of s u tok -> needs_win (redeems u (hashRecoveryCode s c)) redeemed (checkChallenge s tok c).
Proof.
  intros Ht. walk_challenge s tok c Ht; [done|]. rewrite !bool_decide_eq_true_2 in Hk by done.
  by destruct (k =? 0).
Qed.

Lemma challenge_ops s P tok c :
  (forall X e, match e with UpsertUserMFA _ _ | DeleteUserMFA _ | CreateRecoveryCode _ _ => False | _ => True end -> P X e) ->
  ops P (checkChallenge s tok c).
Proof. intros HP. unfold checkChallenge, UserByID, matchTOTPStep. walk_ops; by apply HP. Qed.

(** The operations after a passed challenge: none touches the second factor. *)
Definition session_op X (e : authE X) : Prop :=
  match e with
  | UpsertUserMFA _ _ | EnableUserMFA _ | DeleteUserMFA _ | BurnTOTPStep _ _ | BurnPendingTOTPStep _ _
  | CreateRecoveryCode _ _ | DeleteRecoveryCodes _ | UseRecoveryCode _ _ => False
  | _ => True
  end.

Definition factor_kept (d d' : AuthDB) : Prop := mfa d' = mfa d /\ codes d' = codes d.

#[global] Instance factor_kept_preorder : PreOrder factor_kept.
Proof. split; [by intros d|]. intros x y z [? ?] [? ?]. split; congruence. Qed.

Lemma factor_same d d' : mfa d' = mfa d /\ codes d' = codes d -> factor_kept d d'.
Proof. done. Qed.

Lemma run_session_ops {A} (p : prog authE A) w :
  ops session_op p -> factor_kept (store w) (store (run auth_handler p w).2).
Proof.
  intros Hp. assert (Hpre : PreOrder (fun w w' : faulty AuthDB => factor_kept (store w) (store w'))).
  { split; [intros x; reflexivity|]. intros x y z. apply transitivity. }
  apply (run_rel auth_handler session_op (fun w w' => factor_kept (store w) (store w'))); [|done].
  intros X e x He. destruct e; try done; cbn [auth_handler];
    first [ by apply factor_same | apply (exec_rel _ factor_kept); intros dd; untouched factor_same ].
Qed.

Lemma tryTOTPSteps_spec s c secret steps st :
  tryTOTPSteps s c secret steps = Some st -> st ∈ steps /\ totp_code (a_crypto s) secret st = Some c.
Proof.
  induction steps as [|x steps IH]; [done|]. cbn. destruct (totp_code _ secret x) as [want|] eqn:Hx; [|done].
  case_bool_decide as He; [|intros ?%IH; split; [right|]; tauto]. intros [= <-]. subst. split; [left|done].
Qed.

(** What the accepted code was. *)
Definition code_spent (s : AuthService) (u : uuid) (row : UserMFA) (c : string) (method : MFAChallengeMethod)
    (d d' : AuthDB) : Prop :=
  match method with
  | ByTOTP st =>
      (exists secret, openTOTPSecret s (mSecret row) = Ok secret /\ totp_code (a_crypto s) secret st = Some (TrimSpace c)) /\
      Z.abs (st - Z.quot (Unix (anow d)) period) <= 1 /\ newer (mLastStep row) st = true /\
      exists row', mfa d' !! u = Some row' /\ mEnabled row' = true /\ mLastStep row' = Some st
  | ByRecovery => code_open u (hashRecoveryCode s c) d = true /\ code_open u (hashRecoveryCode s c) d' = false
  end.

(** A winning burn found an enabled row whose last step was older. *)
Lemma burn_row u st d k :
  (q_BurnTOTPStep u st d).1 = Ok k -> k <> 0 ->
  exists row, mfa d !! u = Some row /\ mEnabled row = true /\ newer (mLastStep row) st = true /\
    (q_BurnTOTPStep u st d).2 = set_mfa <[u := mkMFA (mSecret row) (mEnabled row) (mCreated row) (Some st)]> d.
Proof.
  unfold q_BurnTOTPStep. destruct (mfa d !! u) as [row|]; cbn; [|by intros [= <-]].
  destruct (mEnabled row && newer (mLastStep row) st) eqn:Hn; cbn; [|by intros [= <-]].
  bools. intros _ _. by exists row.
Qed.

Lemma run_checkChallenge s tok c w user method w' :
  run auth_handler (checkChallenge s tok c) w = (Ok (user, method), w') ->
  exists claims u row, jwt_parse (a_crypto s) (mfaAudience s) (anow (store w)) tok = Some claims /\
    uuid_parse (a_crypto s) (cl_Subject claims) = Some u /\
    users (store w) !! u = Some user /\ uIsActive user = true /\
    mfa (store w) !! u = Some row /\ mEnabled row = true /\
    asessions (store w') = asessions (store w) /\
    code_spent s u row c method (store w) (store w').
Proof.
  unfold checkChallenge. destruct (a_mfaRepo s); cbn [negb]; [|done].
  rewrite run_mbind, run_call. cbn [auth_handler fst snd].
  destruct (jwt_parse _ _ _ tok) as [cl|] eqn:Hj; [|done]. destruct (uuid_parse _ _) as [u|] eqn:Hu; [|done].
  rewrite run_mbind. destruct (run_UserByID u w) as (Hs1 & _ & Hus).
  destruct (run auth_handler (UserByID u) w) as [[us|e] w1]; cbn [fst snd] in *; [|done].
  destruct Hus as [Hus Ha]. rewrite run_mbind, run_call. cbn [auth_handler].
  assert (Hs2 : store (exec (q_GetUserMFA u) w1).2 = store w1) by (by apply reads_store).
  destruct (exec (q_GetUserMFA u) w1) as [[row|e] w2] eqn:Hg; cbn [fst snd] in *; [|done].
  pose proof (f_equal fst Hg) as Hg1. apply exec_ok in Hg1 as [Hg1 _]. rewrite Hs1 in Hg1. cbn in Hg1.
  destruct (mfa (store w) !! u) as [row'|] eqn:Hrow; [|done]. injection Hg1 as ->.
  destruct (mEnabled row) eqn:Hen; cbn [negb]; [|done]. rewrite Hs1 in Hs2.
  intros Hrun. exists cl, u, row.
  enough (us = user /\ asessions (store w') = asessions (store w) /\
    code_spent s u row c method (store w) (store w')) as (-> & ? & ?) by (split_and!; done).
  destruct (looksLikeTOTPCode c).
  - destruct (openTOTPSecret s (mSecret row)) as [secret|e] eqn:Hop; [|done].
    rewrite run_mbind in Hrun. unfold matchTOTPStep in Hrun. rewrite run_mbind, run_call in Hrun.
    cbn [auth_handler fst snd run mret prog_mret] in Hrun. rewrite Hs2 in Hrun.
    destruct (tryTOTPSteps s _ _ _) as [st|] eqn:Hst; [|done]. apply tryTOTPSteps_spec in Hst as [Hin Hcode].
    rewrite run_mbind, run_call in Hrun. cbn [auth_handler] in Hrun.
    destruct (exec (q_BurnTOTPStep u st) w2) as [[k|e] w3] eqn:Hb; cbn [fst snd run mret prog_mret] in Hrun; [|done].
    destruct (k =? 0) eqn:Hk; [done|]. injection Hrun as <- <- <-. bools.
    pose proof (f_equal fst Hb) as Hb1. apply exec_ok in Hb1 as [Hb1 Hb2]. rewrite Hb, Hs2 in Hb2. rewrite Hs2 in Hb1.
    destruct (burn_row _ _ _ _ Hb1 Hk) as (r & Hr & _ & Hn & Hst). rewrite Hrow in Hr. injection Hr as <-.
    cbn [snd] in Hb2. rewrite Hst in Hb2. split; [done|]. split; [by rewrite Hb2|]. split_and!; [by exists secret| |done|].
    + rewrite !elem_of_cons, elem_of_nil in Hin. lia.
    + rewrite Hb2. cbn. rewrite lookup_insert_eq. eexists. split; done.
  - rewrite run_mbind, run_call in Hrun. cbn [auth_handler] in Hrun.
    destruct (exec (q_UseRecoveryCode u _) w2) as [[k|e] w3] eqn:Hb; cbn [fst snd run mret prog_mret] in Hrun; [|done].
    destruct (k =? 0) eqn:Hk; [done|]. injection Hrun as <- <- <-. bools.
    pose proof (f_equal fst Hb) as Hb1. apply exec_ok in Hb1 as [Hb1 Hb2]. rewrite Hb, Hs2 in Hb2. rewrite Hs2 in Hb1.
    cbn [snd] in Hb2. split; [done|]. rewrite Hb2. split; [done|]. cbn [code_spent]. split.
    + by eapply use_code_open.
    + apply use_code_closes.
Qed.

(** ** Lemmas: enrollment *)

Lemma run_makeRecoveryCodes s u n : forall acc w cs w',
  run auth_handler (makeRecoveryCodes s u n acc) w = (Ok cs, w') ->
  exists new, cs = acc ++ new /\ length new = n /\ mfa (store w') = mfa (store w) /\
    codes (store w') = codes (store w) ++ map (fun c => mkCode u (hashRecoveryCode s c) false) new.
Proof.
  induction n as [|n IH]; intros acc w cs w'; cbn [makeRecoveryCodes].
  { intros [= <- <-]. exists []. by rewrite !app_nil_r. }
  unfold generateRecoveryCode. rewrite !run_mbind, run_call. cbn [auth_handler pure_op fst snd run mret prog_mret].
  destruct (option_map _ _) as [c|]; [|done]. rewrite run_mbind, run_call. cbn [auth_handler].
  destruct (exec (q_CreateRecoveryCode _ _) _) as [[[]|e] w1] eqn:Hc; cbn [fst snd]; [|done].
  pose proof (f_equal fst Hc) as Hc1. apply exec_ok in Hc1 as [Hc1 Hc2]. rewrite Hc in Hc2. cbn [store snd] in *.
  intros (new & -> & Hlen & Hm & Hcodes)%IH. exists (c :: new). unfold q_CreateRecoveryCode in Hc1, Hc2.
  case_bool_decide; [done|]. cbn in Hc2. rewrite Hc2 in Hm, Hcodes. cbn in Hm, Hcodes.
  rewrite <- app_assoc. split_and!; [done|cbn; by rewrite Hlen|done|]. by rewrite Hcodes, <- app_assoc.
Qed.

Lemma run_issueRecoveryCodes s u w cs w' :
  run auth_handler (issueRecoveryCodes s u) w = (Ok cs, w') ->
  length cs = recoveryCodeCount /\ mfa (store w') = mfa (store w) /\
  codes (store w') = filter (fun c => rcUser c <> u) (codes (store w)) ++
    map (fun c => mkCode u (hashRecoveryCode s c) false) cs.
Proof.
  unfold issueRecoveryCodes. rewrite run_mbind, run_call. cbn [auth_handler].
  destruct (exec (q_DeleteRecoveryCodes u) w) as [[[]|e] w1] eqn:Hd; cbn [fst snd]; [|done].
  pose proof (f_equal fst Hd) as Hd1. apply exec_ok in Hd1 as [_ Hd2]. rewrite Hd in Hd2. cbn in Hd2.
  intros (new & -> & Hlen & Hm & Hc)%run_makeRecoveryCodes. rewrite Hd2 in Hm, Hc. done.
Qed.

(** Switching a pending enrollment on. *)
Lemma enable_row u d k :
  (q_EnableUserMFA u d).1 = Ok k -> k <> 0 ->
  exists row, mfa d !! u = Some row /\ codes (q_EnableUserMFA u d).2 = codes d /\
    mfa (q_EnableUserMFA u d).2 = <[u := mkMFA (mSecret row) true (mCreated row) (mLastStep row)]> (mfa d).
Proof.
  unfold q_EnableUserMFA. destruct (mfa d !! u) as [row|]; cbn; [|by intros [= <-]].
  destruct (mEnabled row); cbn; [by intros [= <-]|]. intros _ _. by exists row.
Qed.

Lemma burn_pending_row u st d k :
  (q_BurnPendingTOTPStep u st d).1 = Ok k -> k <> 0 ->
  exists row, mfa d !! u = Some row /\ newer (mLastStep row) st = true /\
    (q_BurnPendingTOTPStep u st d).2 = set_mfa <[u := mkMFA (mSecret row) (mEnabled row) (mCreated row) (Some st)]> d.
Proof.
  unfold q_BurnPendingTOTPStep. destruct (mfa d !! u) as [row|]; cbn; [|by intros [= <-]].
  destruct (newer (mLastStep row) st) eqn:Hn; cbn; [|by intros [= <-]]. intros _ _. by exists row.
Qed.

Lemma run_VerifyTOTPEnrollment s u c w cs w' :
  run auth_handler (VerifyTOTPEnrollment s u c) w = (Ok cs, w') ->
  exists row secret st, mfa (store w) !! u = Some row /\ mEnabled row = false /\
    openTOTPSecret s (mSecret row) = Ok secret /\ totp_code (a_crypto s) secret st = Some (TrimSpace c) /\
    newer (mLastStep row) st = true /\
    mfa (store w') !! u = Some (mkMFA (mSecret row) true (mCreated row) (Some st)) /\
    length cs = recoveryCodeCount /\
    codes (store w') = filter (fun c => rcUser c <> u) (codes (store w)) ++
      map (fun c => mkCode u (hashRecoveryCode s c) false) cs.
Proof.
  unfold VerifyTOTPEnrollment. destruct (a_mfaRepo s); cbn [negb]; [|done]. rewrite run_mbind, run_call. cbn [auth_handler].
  assert (Hs1 : store (exec (q_GetUserMFA u) w).2 = store w) by (by apply reads_store).
  destruct (exec (q_GetUserMFA u) w) as [[row|e] w1] eqn:Hg; cbn [fst snd] in *; [|done].
  pose proof (f_equal fst Hg) as Hg1. apply exec_ok in Hg1 as [Hg1 _]. cbn in Hg1.
  destruct (mfa (store w) !! u) as [row'|] eqn:Hrow; [|done]. injection Hg1 as ->.
  destruct (mEnabled row) eqn:Hen; [done|]. destruct (openTOTPSecret s _) as [secret|] eqn:Hop; [|done].
  rewrite run_mbind. unfold matchTOTPStep. rewrite run_mbind, run_call. cbn [auth_handler fst snd run mret prog_mret].
  destruct (tryTOTPSteps s _ _ _) as [st|] eqn:Hst; [|done]. apply tryTOTPSteps_spec in Hst as [_ Hcode].
  rewrite run_mbind, run_call. cbn [auth_handler].
  destruct (exec (q_BurnPendingTOTPStep u st) w1) as [[k|e] w2] eqn:Hb; cbn [fst snd]; [|done].
  destruct (k =? 0) eqn:Hk; [done|]. bools. rewrite run_mbind, run_call. cbn [auth_handler].
  pose proof (f_equal fst Hb) as Hb1. apply exec_ok in Hb1 as [Hb1 Hb2]. rewrite Hb, Hs1 in Hb2. rewrite Hs1 in Hb1.
  destruct (burn_pending_row _ _ _ _ Hb1 Hk) as (r & Hr & Hn & Hst). rewrite Hrow in Hr. injection Hr as <-.
  cbn [snd] in Hb2. rewrite Hst in Hb2.
  destruct (exec (q_EnableUserMFA u) w2) as [[n|e] w3] eqn:He; cbn [fst snd]; [|done].
  destruct (n =? 0) eqn:Hn0; [done|]. bools.
  pose proof (f_equal fst He) as He1. apply exec_ok in He1 as [He1 He2]. rewrite He in He2. cbn [snd] in He2.
  destruct (enable_row _ _ _ He1 Hn0) as (r & Hr & Hcs & Hm). rewrite Hb2 in Hr. cbn in Hr.
  rewrite lookup_insert_eq in Hr. injection Hr as <-.
  intros (Hlen & Hm4 & Hc4)%run_issueRecoveryCodes. exists row, secret, st. split_and!; try done.
  - rewrite Hm4, He2, Hm. cbn. by rewrite lookup_insert_eq.
  - rewrite Hc4, He2, Hcs, Hb2. done.
Qed.

(** ** A concrete enrolled account *)

(** Codes of one step only; a challenge token is the account's id. *)
Definition demo_mfa_crypto : Crypto := {|
  bcrypt_compare := bcrypt_compare demo_crypto; bcrypt_hash := bcrypt_hash demo_crypto;
  sha256_hex := sha256_hex demo_crypto;
  totp_code secret step := Some (if Z.eqb step 12000 then "123456" else "000000")%string;
  totp_generate := totp_generate demo_crypto; mfa_cipher := None;
  jwt_sign := jwt_sign demo_crypto;
  jwt_parse aud now tok := Some (mkClaims "user" "" tok aud 0 (now + 1));
  uuid_parse := uuid_parse demo_crypto |}.

Definition demo_mfa : AuthService := mkAuthService demo_mfa_crypto true false true true true false (30 * 24 * Hour)
  "api" (15 * Minute) "vidra".

Definition demo_enrolled (enabled : bool) (cs : list RecoveryCode) : AuthDB :=
  mkAuth {["a"%string := demo_account]} ∅ ∅ {["a"%string := mkMFA "k" enabled 0 None]} cs ∅ ∅ ∅ [] (100 * Hour)
    (fun n => Nat.iter n (String.append "i") "i"%string) 0 (fun n => Some (Nat.iter n (String.append "r") "r"%string)) 0 [].

Lemma demo_token : token_of demo_mfa "a" "a".
Proof. intros now claims v [= <-]. cbn. by intros [= <-]. Qed.

(** ** Properties *)

(** A TOTP code is accepted once. For every account and time step, of all
    the challenges in flight, interleaved with any other requests (except ones
    that restart or remove that account's enrollment) and with any store calls
    failing, at most one is accepted on that step. *)
Theorem totp_step_accepted_once (s : AuthService) (u : uuid) (n : Z)
    (ps ps' : list (prog authE (result aerr (User * MFAChallengeMethod)))) (w w' : faulty AuthDB) :
  Forall (fun p => (exists tok c, token_of s u tok /\ p = checkChallenge s tok c) \/
    (exists B (q : prog authE B), ops (keeps_enrollment u) q /\ p = (q ≫= fun _ => mret (Err AErrInvalidMFACode)))) ps ->
  rtc (pool_step auth_handler aclock) (ps, w) (ps', w') ->
  (length (filter (fun p => succeeded (accepted_at n) p = true) ps') <= 1)%nat.
Proof.
  intros Hps Hrun.
  eapply (single_winner auth_handler (keeps_enrollment u) (burns u n) (fun w => step_open u n (store w))
    (accepted_at n) (fun _ => True)); [| | | | |exact I|exact Hrun].
  - done.
  - intros X e x _ _. apply burns_closes.
  - intros X e x Hk _. by apply steps_grow_step.
  - intros x x' (t & _ & ->) _. by split.
  - eapply Forall_impl; [exact Hps|]. intros p [(tok & c & Ht & ->)|(B & q & Hq & ->)].
    + split; [apply challenge_ops; by intros X []|by apply challenge_needs_burn].
    + split; [by apply ops_bind|by apply needs_win_bind].
Qed.

Definition demo_replays : list (prog authE (result aerr (User * MFAChallengeMethod))) :=
  [checkChallenge demo_mfa "a" "123456"; checkChallenge demo_mfa "a" " 123456 "].

Definition demo_replayed : list (prog authE (result aerr (User * MFAChallengeMethod))) * faulty AuthDB :=
  schedule auth_handler (concat (repeat [0; 1] 6))%nat demo_replays (Faulty (demo_enrolled true []) []).

Lemma totp_step_accepted_once_witness :
  length (filter (fun p => succeeded (accepted_at 12000) p = true) demo_replayed.1) = 1%nat /\
  (length (filter (fun p => succeeded (accepted_at 12000) p = true) demo_replayed.1) <= 1)%nat.
Proof.
  split; [vm_compute; reflexivity|].
  refine (totp_step_accepted_once demo_mfa "a" 12000 demo_replays demo_replayed.1
    (Faulty (demo_enrolled true []) []) demo_replayed.2 _ _).
  - repeat (constructor; [left; do 2 eexists; split; [exact demo_token|reflexivity]|]); constructor.
  - rewrite <- surjective_pairing. apply schedule_pool.
Defined.

(** A recovery code is redeemed once: of all the challenges presenting it,
    interleaved with any other requests (except ones that issue the very same
    code again) and with any store calls failing, at most one is accepted. *)
Theorem recovery_code_redeemed_once (s : AuthService) (u : uuid) (c : string)
    (ps ps' : list (prog authE (result aerr (User * MFAChallengeMethod)))) (w w' : faulty AuthDB) :
  Forall (fun p => (exists tok c', token_of s u tok /\ hashRecoveryCode s c' = hashRecoveryCode s c /\
      p = checkChallenge s tok c') \/
    (exists B (q : prog authE B), ops (reissues_other u (hashRecoveryCode s c)) q /\
       p = (q ≫= fun _ => mret (Err AErrInvalidMFACode)))) ps ->
  rtc (pool_step auth_handler aclock) (ps, w) (ps', w') ->
  (length (filter (fun p => succeeded redeemed p = true) ps') <= 1)%nat.
Proof.
  intros Hps Hrun.
  eapply (single_winner auth_handler (reissues_other u (hashRecoveryCode s c)) (redeems u (hashRecoveryCode s c))
    (fun w => code_open u (hashRecoveryCode s c) (store w)) redeemed (fun _ => True)); [| | | | |exact I|exact Hrun].
  - done.
  - intros X e x _ _. apply redeems_closes.
  - intros X e x Hk _. by apply code_closed_step.
  - intros x x' (t & _ & ->) _. by split.
  - eapply Forall_impl; [exact Hps|]. intros p [(tok & c' & Ht & <- & ->)|(B & q & Hq & ->)].
    + split; [apply challenge_ops; by intros X []|by apply challenge_needs_redemption].
    + split; [by apply ops_bind|by apply needs_win_bind].
Qed.

Definition demo_redeemers : list (prog authE (result aerr (User * MFAChallengeMethod))) :=
  [checkChallenge demo_mfa "a" "AB-cd"; checkChallenge demo_mfa "a" " abcd"].

Definition demo_redeemed : list (prog authE (result aerr (User * MFAChallengeMethod))) * faulty AuthDB :=
  schedule auth_handler (concat (repeat [0; 1] 6))%nat demo_redeemers
    (Faulty (demo_enrolled true [mkCode "a" "abcd" false]) []).

Lemma recovery_code_redeemed_once_witness :
  length (filter (fun p => succeeded redeemed p = true) demo_redeemed.1) = 1%nat /\
  (length (filter (fun p => succeeded redeemed p = true) demo_redeemed.1) <= 1)%nat.
Proof.
  split; [vm_compute; reflexivity|].
  refine (recovery_code_redeemed_once demo_mfa "a" "abcd" demo_redeemers demo_redeemed.1
    (Faulty (demo_enrolled true [mkCode "a" "abcd" false]) []) demo_redeemed.2 _ _).
  - repeat (constructor; [left; do 2 eexists; split; [exact demo_token|split; [|reflexivity]; vm_compute; reflexivity]|]); constructor.
  - rewrite <- surjective_pairing. apply schedule_pool.
Defined.

(** C6. A completed challenge proved both factors. The token is one of the MFA
    audience valid now, its account is active with two-factor on, and the code
    was that account's: either the code of a step within one of the current
    one, newer than any accepted before, and recorded, or an unused recovery
    code, now used. Only then is a session made, for that account. *)
Theorem challenge_proves_second_factor (s : AuthService) (dt tok c ua : string) (w w' : faulty AuthDB)
    (user : User) (tokens : Tokens) (method : MFAChallengeMethod) :
  run auth_handler (CompleteMFAChallenge s dt tok c ua) w = (Ok (user, tokens, method), w') ->
  exists claims u row, jwt_parse (a_crypto s) (mfaAudience s) (anow (store w)) tok = Some claims /\
    uuid_parse (a_crypto s) (cl_Subject claims) = Some u /\
    users (store w) !! u = Some user /\ uIsActive user = true /\
    mfa (store w) !! u = Some row /\ mEnabled row = true /\
    code_spent s u row c method (store w) (store w') /\
    exists sid y, asessions (store w) !! sid = None /\ asessions (store w') !! sid = Some y /\
      sUserID y = uID user /\ sRefreshHash y = hashRefreshToken s (RefreshToken tokens).
Proof.
  unfold CompleteMFAChallenge. rewrite run_mbind.
  destruct (run auth_handler (checkChallenge s tok c) w) as [[[us m]|e] w1] eqn:Hc; cbn [fst snd]; [|done].
  apply run_checkChallenge in Hc as (cl & u & row & Hj & Hu & Hus & Ha & Hrow & Hen & Hs1 & Hspent).
  unfold issueTokens. rewrite !run_mbind.
  assert (Hk2 : factor_kept (store w1) (store (run auth_handler (issueTokensForSession s us ua) w1).2)).
  { apply run_session_ops. unfold issueTokensForSession, generateToken, IssueForSession. walk_ops; exact I. }
  destruct (run auth_handler (issueTokensForSession s us ua) w1) as [[[tk sid]|e] w2] eqn:Hi; cbn [fst snd run mret prog_mret] in *; [|done].
  apply run_issue in Hi as (Hnew & _ & _ & H2). rewrite run_mbind. cbn [fst snd run mret prog_mret].
  intros [= <- <- <- <-]. exists cl, u, row. split_and!; try done.
  - assert (Hk3 : factor_kept (store w2) (store (run auth_handler (noteSignIn s dt us ua) w2).2)).
    { apply run_session_ops. unfold noteSignIn. walk_ops; exact I. }
    destruct Hk2 as [Em2 Ec2], Hk3 as [Em3 Ec3]. destruct m; cbn in *.
    + by rewrite Em3, Em2.
    + unfold code_open in *. by rewrite Ec3, Ec2.
  - assert (Hkept : sessions_kept (store w2) (store (run auth_handler (noteSignIn s dt us ua) w2).2)).
    { apply (run_invariant auth_handler (fun _ _ => True) (fun w => sessions_kept (store w2) (store w)));
        [|by apply ops_all|done]. intros X e x _ Hx. etrans; [exact Hx|apply sessions_kept_step]. }
    destruct (Hkept sid _ ltac:(rewrite H2; apply lookup_insert_eq)) as (y & Hy & Hsame).
    exists sid, y. destruct Hsame as (_ & E & Eh & _). rewrite Hs1 in Hnew. split_and!; done.
Qed.

Lemma challenge_proves_second_factor_witness :
  exists w', run auth_handler (CompleteMFAChallenge demo_mfa "" "a" "123456" "ua") (Faulty (demo_enrolled true []) []) =
    (Ok (demo_account, mkTokens "a:i" "cg", ByTOTP 12000), w') /\
  exists row', mfa (store w') !! "a"%string = Some row' /\ mLastStep row' = Some 12000.
Proof.
  pose (w' := (run auth_handler (CompleteMFAChallenge demo_mfa "" "a" "123456" "ua") (Faulty (demo_enrolled true []) [])).2).
  exists w'.
  assert (Hrun : run auth_handler (CompleteMFAChallenge demo_mfa "" "a" "123456" "ua") (Faulty (demo_enrolled true []) []) =
    (Ok (demo_account, mkTokens "a:i" "cg", ByTOTP 12000), w')) by (unfold w'; apply run_answer; vm_compute; reflexivity).
  split; [exact Hrun|].
  destruct (challenge_proves_second_factor demo_mfa "" "a" "123456" "ua" (Faulty (demo_enrolled true []) []) w'
    demo_account (mkTokens "a:i" "cg") (ByTOTP 12000) Hrun)
    as (cl & u & row & Hj & Hu & _ & _ & _ & _ & (_ & _ & _ & row' & Hrow' & _ & Hlast) & _).
  cbn in Hj. injection Hj as <-. cbn in Hu. injection Hu as <-. exists row'. split; [exact Hrow'|exact Hlast].
Defined.

(** Confirming an enrollment switches it on and hands out working recovery
    codes. When it succeeds the enrollment was pending and the code was its
    secret's; the factor is now on with that code's step already spent, and
    exactly ten codes were issued: they replace the account's old ones, no
    other account's codes changed, and each of the ten can be redeemed. *)
Theorem enrollment_confirmed (s : AuthService) (u : uuid) (c : string) (w w' : faulty AuthDB) (cs : list string) :
  run auth_handler (VerifyTOTPEnrollment s u c) w = (Ok cs, w') ->
  exists row secret st, mfa (store w) !! u = Some row /\ mEnabled row = false /\
    openTOTPSecret s (mSecret row) = Ok secret /\ totp_code (a_crypto s) secret st = Some (TrimSpace c) /\
    mfa (store w') !! u = Some (mkMFA (mSecret row) true (mCreated row) (Some st)) /\
    step_open u st (store w') = false /\
    length cs = 10%nat /\
    codes (store w') = filter (fun c => rcUser c <> u) (codes (store w)) ++
      map (fun c => mkCode u (hashRecoveryCode s c) false) cs /\
    forall rc, rc ∈ cs -> code_open u (hashRecoveryCode s rc) (store w') = true.
Proof.
  intros (row & secret & st & Hrow & Hen & Hop & Hcode & _ & Hrow' & Hlen & Hcs)%run_VerifyTOTPEnrollment.
  exists row, secret, st. split_and!; try done.
  - unfold step_open. rewrite Hrow'. apply Z.ltb_irrefl.
  - intros rc Hrc. unfold code_open. apply existsb_exists. exists (mkCode u (hashRecoveryCode s rc) false).
    rewrite Hcs, <- list_elem_of_In, elem_of_app. split.
    + right. apply list_elem_of_fmap. by exists rc.
    + unfold unused. cbn. by rewrite !bool_decide_eq_true_2.
Qed.

Lemma enrollment_confirmed_witness :
  exists cs w', run auth_handler (VerifyTOTPEnrollment demo_mfa "a" "123456") (Faulty (demo_enrolled false [mkCode "a" "old" false]) []) =
    (Ok cs, w') /\ length cs = 10%nat.
Proof.
  pose (r := run auth_handler (VerifyTOTPEnrollment demo_mfa "a" "123456") (Faulty (demo_enrolled false [mkCode "a" "old" false]) [])).
  pose (cs := match r.1 with Ok cs => cs | Err _ => [] end). exists cs, r.2.
  assert (Hrun : run auth_handler (VerifyTOTPEnrollment demo_mfa "a" "123456")
      (Faulty (demo_enrolled false [mkCode "a" "old" false]) []) = (Ok cs, r.2)).
  { unfold cs, r. apply run_answer. vm_compute. reflexivity. }
  split; [exact Hrun|].
  destruct (enrollment_confirmed demo_mfa "a" "123456" _ r.2 cs Hrun) as (_ & _ & _ & _ & _ & _ & _ & _ & _ & Hlen & _).
  exact Hlen.
Defined.
