(* ===== verification/AccountStore.v ===== *)
(** * The tables behind account recovery and sign-up (src/internal/store/queries)

    [password_reset_tokens], [email_verification_tokens],
    [email_change_requests], [owner_claim_tokens], [registration_requests], the
    owner marker and the handle namespace, beside the tables of [AuthStore]; one
    definition per SQL statement, and the signature [accE], which adds these
    statements and the account mails to [authE]. *)
From S2P Require Import Prelude GoStrings Encoding Secretbox AuthStore.
Local Open Scope Z_scope.

(** ** Rows *)

(** [password_reset_tokens] and [email_verification_tokens] *)
Record Token := mkToken { kUser : uuid; kHash : string; kExpires : time; kUsed : bool; kCreated : time }.

(** [email_change_requests] *)
Record EmailChange := mkChange {
  ecUser : uuid; ecNewEmail : string; ecHash : string; ecExpires : time; ecUsed : bool; ecCreated : time;
}.

(** [registration_requests.status] *)
Inductive regstatus := RegistrationPending | RegistrationApproved | RegistrationRejected.

#[global] Instance regstatus_eq_dec : EqDecision regstatus.
Proof. solve_decision. Defined.

(** [registration_requests]; the provider and subject of an applicant who
    signed in with one. *)
Record RegRequest := mkReg {
  rgUsername : string; rgEmail : string; rgPasswordHash : string; rgNote : string; rgStatus : regstatus;
  rgModeratorNote : string; rgReviewedBy : option uuid; rgReviewedAt : option time; rgCreated : time;
  rgProvider : option (string * string); rgEmailVerified : bool;
}.

(** What the mailer is asked to deliver. *)
Inductive amail :=
| MailPasswordReset (email token : string)
| MailVerification (email token : string)
| MailEmailChange (newEmail token : string)
| MailEmailChanged (oldEmail newEmail : string)
| MailRegistrationApproved (email username : string) (verifyRequired : bool)
| MailRegistrationRejected (email username note : string)
| MailOwnershipTransferred (email recipient counterpart : string) (isNewOwner : bool)
| MailAccountSuspended (email reason : string)
| MailAccountReinstated (email : string).

(** The tables: [auth] holds those of sign-in, [owners] the accounts whose
    is_owner is set, [handles] the channel handles of the shared namespace in
    lower case, [subjects] the linked (provider, subject) pairs. *)
Record AccDB := mkAcc {
  auth : AuthDB;
  resets : gmap uuid Token;
  verifs : gmap uuid Token;
  changes : gmap uuid EmailChange;
  claim : option (string * bool);
  owners : gset uuid;
  handles : gset string;
  requests : gmap uuid RegRequest;
  subjects : gset (string * string);
  outbox : list amail;
}.

Definition set_auth f (a : AccDB) := mkAcc (f (auth a)) (resets a) (verifs a) (changes a) (claim a) (owners a) (handles a) (requests a) (subjects a) (outbox a).
Definition set_resets f (a : AccDB) := mkAcc (auth a) (f (resets a)) (verifs a) (changes a) (claim a) (owners a) (handles a) (requests a) (subjects a) (outbox a).
Definition set_verifs f (a : AccDB) := mkAcc (auth a) (resets a) (f (verifs a)) (changes a) (claim a) (owners a) (handles a) (requests a) (subjects a) (outbox a).
Definition set_changes f (a : AccDB) := mkAcc (auth a) (resets a) (verifs a) (f (changes a)) (claim a) (owners a) (handles a) (requests a) (subjects a) (outbox a).
Definition set_claim c (a : AccDB) := mkAcc (auth a) (resets a) (verifs a) (changes a) c (owners a) (handles a) (requests a) (subjects a) (outbox a).
Definition set_owners f (a : AccDB) := mkAcc (auth a) (resets a) (verifs a) (changes a) (claim a) (f (owners a)) (handles a) (requests a) (subjects a) (outbox a).
Definition set_requests f (a : AccDB) := mkAcc (auth a) (resets a) (verifs a) (changes a) (claim a) (owners a) (handles a) (f (requests a)) (subjects a) (outbox a).
Definition set_subjects f (a : AccDB) := mkAcc (auth a) (resets a) (verifs a) (changes a) (claim a) (owners a) (handles a) (requests a) (f (subjects a)) (outbox a).
Definition post (m : amail) (a : AccDB) := mkAcc (auth a) (resets a) (verifs a) (changes a) (claim a) (owners a) (handles a) (requests a) (subjects a) (m :: outbox a).

Definition set_identities f (d : AuthDB) := mkAuth (users d) (asessions d) (throttles d) (mfa d) (codes d) (stepups d) (devices d) (prefs d) (f (identities d)) (anow d) (agen d) (adrawn d) (rand d) (rdrawn d) (sent d).

(** The next row id, and the database after drawing it. *)
Definition next_id (a : AccDB) : uuid := agen (auth a) (adrawn (auth a)).
Definition drawn_id (a : AccDB) : AccDB := set_auth draw_id a.

Abbreviation astmt A := (AccDB -> result dberr A * AccDB) (only parsing).

(** ** users *)

Definition q_GetUserByEmail (email : string) : astmt User := fun a =>
  (match filter (fun u => ToLower (uEmail u) = ToLower email) (map_to_list (users (auth a))).*2 with
   | u :: _ => Ok u
   | [] => Err ErrNoRows
   end, a).

(** GetUserByID where the caller reads is_owner too. *)
Definition q_GetUserRow (id : uuid) : astmt (User * bool) := fun a =>
  (match users (auth a) !! id with Some u => Ok (u, bool_decide (id ∈ owners a)) | None => Err ErrNoRows end, a).

Definition q_CountUsers : astmt Z := fun a => (Ok (Z.of_nat (size (users (auth a)))), a).

(** Some account holds the name or the address (the unique indexes). *)
Definition name_taken (username email : string) (d : AuthDB) : bool :=
  existsb (fun u => bool_decide (ToLower (uUsername u) = ToLower username) ||
                    bool_decide (ToLower (uEmail u) = ToLower email)) (map_to_list (users d)).*2.

(** The roles the CHECK constraint admits. *)
Definition known_role (role : string) : bool :=
  bool_decide (role = "user"%string) || bool_decide (role = "moderator"%string) || bool_decide (role = "admin"%string).

(** INSERT INTO users: the check on the role, the unique indexes (the single
    owner among them), then the trigger that reserves the handle. *)
Definition insert_user (username email hash role : string) (pending verified owner : bool) : astmt User := fun a =>
  let id := next_id a in
  let u := mkUser id username email hash role true false verified pending in
  if negb (known_role role) then (Err ErrStore, drawn_id a)
  else if name_taken username email (auth a) || bool_decide (is_Some (users (auth a) !! id)) ||
          (owner && negb (bool_decide (owners a = ∅)))
  then (Err ErrUnique, drawn_id a)
  else if bool_decide (ToLower username ∈ handles a) then (Err ErrReserved, drawn_id a)
  else (Ok u, set_owners (fun os => if owner then os ∪ {[id]} else os)
                (set_auth (set_users <[id := u]>) (drawn_id a))).

Definition q_CreateUser (username email hash role : string) (pending : bool) : astmt User :=
  insert_user username email hash role pending false false.

Definition verified_user (u : User) : User :=
  mkUser (uID u) (uUsername u) (uEmail u) (uPasswordHash u) (uRole u) (uIsActive u) (uDeleted u) true
    (uPendingEmailVerification u).

Definition q_SetUserEmailVerified (id : uuid) : astmt unit := fun a =>
  (Ok tt, set_auth (set_users (alter verified_user id)) a).

(** ** password_reset_tokens and email_verification_tokens *)

Definition token_hash_taken (hash : string) (m : gmap uuid Token) : bool :=
  existsb (fun t => bool_decide (kHash t = hash)) (map_to_list m).*2.

Definition q_CreatePasswordResetToken (u : uuid) (hash : string) (expires : time) : astmt unit := fun a =>
  let id := next_id a in
  if bool_decide (users (auth a) !! u = None) then (Err ErrStore, drawn_id a)
  else if token_hash_taken hash (resets a) || bool_decide (is_Some (resets a !! id)) then (Err ErrUnique, drawn_id a)
  else (Ok tt, set_resets <[id := mkToken u hash expires false (anow (auth a))]> (drawn_id a)).

Definition find_token (hash : string) (m : gmap uuid Token) : result dberr (uuid * Token) :=
  match filter (fun kv => kHash kv.2 = hash) (map_to_list m) with kv :: _ => Ok kv | [] => Err ErrNoRows end.

Definition q_GetPasswordResetToken (hash : string) : astmt (uuid * Token) := fun a => (find_token hash (resets a), a).

Definition used_token (t : Token) : Token := mkToken (kUser t) (kHash t) (kExpires t) true (kCreated t).

Definition q_MarkPasswordResetTokenUsed (id : uuid) : astmt unit := fun a =>
  (Ok tt, set_resets (alter used_token id) a).

Definition drop_unused (u : uuid) : gmap uuid Token -> gmap uuid Token :=
  filter (fun kv => ~ (kUser kv.2 = u /\ kUsed kv.2 = false)).

Definition q_DeleteUnusedPasswordResetTokens (u : uuid) : astmt unit := fun a =>
  (Ok tt, set_resets (drop_unused u) a).

Definition q_CreateEmailVerificationToken (u : uuid) (hash : string) (expires : time) : astmt unit := fun a =>
  let id := next_id a in
  if bool_decide (users (auth a) !! u = None) then (Err ErrStore, drawn_id a)
  else if token_hash_taken hash (verifs a) || bool_decide (is_Some (verifs a !! id)) then (Err ErrUnique, drawn_id a)
  else (Ok tt, set_verifs <[id := mkToken u hash expires false (anow (auth a))]> (drawn_id a)).

Definition q_GetEmailVerificationToken (hash : string) : astmt (uuid * Token) := fun a => (find_token hash (verifs a), a).

Definition q_MarkEmailVerificationTokenUsed (id : uuid) : astmt unit := fun a =>
  (Ok tt, set_verifs (alter used_token id) a).

Definition q_LatestUnusedEmailVerificationTokenAt (u : uuid) : astmt time := fun a =>
  (match merge_sort (by_key (fun t => - kCreated t))
           (filter (fun t => kUser t = u /\ kUsed t = false) (map_to_list (verifs a)).*2) with
   | t :: _ => Ok (kCreated t)
   | [] => Err ErrNoRows
   end, a).

Definition q_DeleteUnusedEmailVerificationTokens (u : uuid) : astmt unit := fun a =>
  (Ok tt, set_verifs (drop_unused u) a).

(** ** email_change_requests *)

Definition q_CreateEmailChangeRequest (u : uuid) (newEmail hash : string) (expires : time) : astmt EmailChange := fun a =>
  let id := next_id a in
  let c := mkChange u newEmail hash expires false (anow (auth a)) in
  if bool_decide (users (auth a) !! u = None) then (Err ErrStore, drawn_id a)
  else if existsb (fun c => bool_decide (ecHash c = hash)) (map_to_list (changes a)).*2 ||
          bool_decide (is_Some (changes a !! id)) then (Err ErrUnique, drawn_id a)
  else (Ok c, set_changes <[id := c]> (drawn_id a)).

Definition q_GetPendingEmailChangeRequest (u : uuid) : astmt EmailChange := fun a =>
  (match merge_sort (by_key (fun c => - ecCreated c))
           (filter (fun c => ecUser c = u /\ ecUsed c = false /\ anow (auth a) < ecExpires c)
              (map_to_list (changes a)).*2) with
   | c :: _ => Ok c
   | [] => Err ErrNoRows
   end, a).

Definition q_DeleteUnusedEmailChangeRequests (u : uuid) : astmt Z := fun a =>
  (Ok (Z.of_nat (length (filter (fun c => ecUser c = u /\ ecUsed c = false) (map_to_list (changes a)).*2))),
   set_changes (filter (fun kv => ~ (ecUser kv.2 = u /\ ecUsed kv.2 = false))) a).

(** The request the token opens, for this account, now. *)
Definition confirmable (hash : string) (u : uuid) (t : time) (c : EmailChange) : bool :=
  bool_decide (ecHash c = hash) && bool_decide (ecUser c = u) && negb (ecUsed c) && (t <? ecExpires c).

(** Another account has the address. *)
Definition email_taken (u : uuid) (email : string) (d : AuthDB) : bool :=
  existsb (fun kv => negb (bool_decide (kv.1 = u)) && bool_decide (ToLower (uEmail kv.2) = ToLower email))
    (map_to_list (users d)).

Definition moved_user (email : string) (x : User) : User :=
  mkUser (uID x) (uUsername x) email (uPasswordHash x) (uRole x) (uIsActive x) (uDeleted x) true
    (uPendingEmailVerification x).

(** One statement: the token is consumed and the address moved, or neither (a
    violated index rolls the statement back). The answer is the new address. *)
Definition q_ConfirmEmailChange (hash : string) (u : uuid) : astmt string := fun a =>
  match filter (fun kv => confirmable hash u (anow (auth a)) kv.2 = true) (map_to_list (changes a)) with
  | (id, c) :: _ =>
      match users (auth a) !! u with
      | None => (Err ErrNoRows,
                 set_changes <[id := mkChange (ecUser c) (ecNewEmail c) (ecHash c) (ecExpires c) true (ecCreated c)]> a)
      | Some _ =>
          if email_taken u (ecNewEmail c) (auth a) then (Err ErrUnique, a)
          else (Ok (ecNewEmail c),
                set_changes <[id := mkChange (ecUser c) (ecNewEmail c) (ecHash c) (ecExpires c) true (ecCreated c)]>
                  (set_auth (set_users (alter (moved_user (ecNewEmail c)) u)) a))
      end
  | [] => (Err ErrNoRows, a)
  end.

(** ** owner_claim_tokens and the owner marker *)

Definition q_UpsertOwnerClaimToken (hash : string) : astmt unit := fun a => (Ok tt, set_claim (Some (hash, false)) a).

Definition q_GetUnclaimedOwnerClaimToken : astmt string := fun a =>
  (match claim a with Some (h, false) => Ok h | _ => Err ErrNoRows end, a).

Definition q_ClaimOwnerAndCreateAdmin (hash username email pw : string) : astmt User := fun a =>
  match claim a with
  | Some (h, false) =>
      if bool_decide (h = hash) then
        match insert_user username email pw "admin" false false true a with
        | (Ok u, a') => (Ok u, set_claim (Some (h, true)) a')
        | (Err e, a') => (Err e, a')
        end
      else (Err ErrNoRows, a)
  | _ => (Err ErrNoRows, a)
  end.

(** An account that may hold the marker. *)
Definition eligible_owner (u : User) : bool :=
  bool_decide (uRole u = "admin"%string) && uIsActive u && negb (uDeleted u).

(** The answer: id, username, address, and how many markers were cleared. *)
Definition q_TransferInstanceOwner (target : uuid) : astmt (uuid * string * string * Z) := fun a =>
  match users (auth a) !! target with
  | Some u =>
      if eligible_owner u
      then (Ok (uID u, uUsername u, uEmail u, Z.of_nat (size (owners a ∖ {[target]}))),
            set_owners (fun _ => {[target]}) a)
      else (Err ErrNoRows, a)
  | None => (Err ErrNoRows, a)
  end.

Definition q_GetInstanceOwner : astmt User := fun a =>
  (match filter (fun kv => kv.1 ∈ owners a /\ uDeleted kv.2 = false) (map_to_list (users (auth a))) with
   | kv :: _ => Ok kv.2
   | [] => Err ErrNoRows
   end, a).

(** ** registration_requests *)

Definition pending (r : RegRequest) : bool := bool_decide (rgStatus r = RegistrationPending).

(** A pending request for the same name, address or identity (the partial
    unique indexes). *)
Definition pending_clash (username email : string) (prov : option (string * string)) (r : RegRequest) : bool :=
  pending r && (bool_decide (ToLower (rgEmail r) = ToLower email) || bool_decide (ToLower (rgUsername r) = ToLower username)
    || match prov with Some p => bool_decide (rgProvider r = Some p) | None => false end).

Definition insert_request (r : RegRequest) : astmt (uuid * RegRequest) := fun a =>
  let id := next_id a in
  if existsb (pending_clash (rgUsername r) (rgEmail r) (rgProvider r)) (map_to_list (requests a)).*2 ||
     bool_decide (is_Some (requests a !! id))
  then (Err ErrUnique, drawn_id a)
  else (Ok (id, r), set_requests <[id := r]> (drawn_id a)).

Definition q_CreateRegistrationRequest (username email hash note : string) : astmt (uuid * RegRequest) := fun a =>
  insert_request (mkReg username email hash note RegistrationPending EmptyString None None (anow (auth a)) None false) a.

Definition q_CreateProviderRegistrationRequest (username email provider subject : string) (verified : bool)
    : astmt (uuid * RegRequest) := fun a =>
  insert_request (mkReg username email EmptyString EmptyString RegistrationPending EmptyString None None (anow (auth a))
                    (Some (provider, subject)) verified) a.

Definition q_GetPendingProviderRegistrationRequest (provider subject : string) : astmt uuid := fun a =>
  (match filter (fun kv => rgProvider kv.2 = Some (provider, subject) /\ pending kv.2 = true) (map_to_list (requests a)) with
   | kv :: _ => Ok kv.1
   | [] => Err ErrNoRows
   end, a).

Definition reviewed (st : regstatus) (note : string) (by_ : uuid) (t : time) (r : RegRequest) : RegRequest :=
  mkReg (rgUsername r) (rgEmail r) (rgPasswordHash r) (rgNote r) st note (Some by_) (Some t) (rgCreated r)
    (rgProvider r) (rgEmailVerified r).

(** The account, its identity and the mark on the request, or nothing. *)
Definition q_ApproveRegistrationRequest (id reviewer : uuid) (gate : bool) : astmt User := fun a =>
  match requests a !! id with
  | Some r =>
      if negb (pending r) then (Err ErrNoRows, a) else
      match insert_user (rgUsername r) (rgEmail r) (rgPasswordHash r) "user"
              (gate && bool_decide (rgProvider r = None)) (rgEmailVerified r) false a with
      | (Err e, a') => (Err e, a')
      | (Ok u, a') =>
          match rgProvider r with
          | Some p =>
              if bool_decide (p ∈ subjects a) then (Err ErrUnique, drawn_id a)
              else (Ok u, set_subjects (fun ss => ss ∪ {[p]})
                            (set_auth (set_identities (fun ids => ids ++ [(uID u, p.1)]))
                               (set_requests <[id := reviewed RegistrationApproved (rgModeratorNote r) reviewer (anow (auth a)) r]> a')))
          | None => (Ok u, set_requests <[id := reviewed RegistrationApproved (rgModeratorNote r) reviewer (anow (auth a)) r]> a')
          end
      end
  | None => (Err ErrNoRows, a)
  end.

(** The answer is the applicant's name and address. *)
Definition q_RejectRegistrationRequest (id : uuid) (note : string) (reviewer : uuid) : astmt (string * string) := fun a =>
  match requests a !! id with
  | Some r =>
      if pending r
      then (Ok (rgUsername r, rgEmail r),
            set_requests <[id := reviewed RegistrationRejected note reviewer (anow (auth a)) r]> a)
      else (Err ErrNoRows, a)
  | None => (Err ErrNoRows, a)
  end.

Definition matching_requests (status : option regstatus) (a : AccDB) : list (uuid * RegRequest) :=
  filter (fun kv => match status with None => true | Some st => bool_decide (rgStatus kv.2 = st) end = true)
    (map_to_list (requests a)).

(** Newest first; ties by id, descending. *)
Definition newer_request (x y : uuid * RegRequest) : Prop :=
  rgCreated y.2 < rgCreated x.2 \/ (rgCreated y.2 = rgCreated x.2 /\ String.leb y.1 x.1 = true).

#[global] Instance newer_request_dec : RelDecision newer_request.
Proof. intros x y. unfold newer_request. apply _. Defined.

Definition q_ListRegistrationRequests (status : option regstatus) (limit offset : Z)
    : astmt (list (uuid * RegRequest * option string)) := fun a =>
  (Ok (map (fun kv => (kv, rgReviewedBy kv.2 ≫= fun by_ => uUsername <$> users (auth a) !! by_))
         (take (Z.to_nat limit) (drop (Z.to_nat offset) (merge_sort newer_request (matching_requests status a))))), a).

Definition q_CountRegistrationRequests (status : option regstatus) : astmt Z := fun a =>
  (Ok (Z.of_nat (length (matching_requests status a))), a).

(** ** The service's collaborators *)

(** The operations of [authE], the statements above, and the mailer: here its
    failures are answers, since the callers report them. *)
Inductive accE : Type -> Type :=
| Auth {X} (e : authE X) : accE X
| GetUserByEmail (email : string) : accE (result dberr User)
| GetUserRow (id : uuid) : accE (result dberr (User * bool))
| CountUsers : accE (result dberr Z)
| CreateUser (username email hash role : string) (pending : bool) : accE (result dberr User)
| SetUserEmailVerified (id : uuid) : accE (result dberr unit)
| CreatePasswordResetToken (u : uuid) (hash : string) (expires : time) : accE (result dberr unit)
| GetPasswordResetToken (hash : string) : accE (result dberr (uuid * Token))
| MarkPasswordResetTokenUsed (id : uuid) : accE (result dberr unit)
| DeleteUnusedPasswordResetTokens (u : uuid) : accE (result dberr unit)
| CreateEmailVerificationToken (u : uuid) (hash : string) (expires : time) : accE (result dberr unit)
| GetEmailVerificationToken (hash : string) : accE (result dberr (uuid * Token))
| MarkEmailVerificationTokenUsed (id : uuid) : accE (result dberr unit)
| LatestUnusedEmailVerificationTokenAt (u : uuid) : accE (result dberr time)
| DeleteUnusedEmailVerificationTokens (u : uuid) : accE (result dberr unit)
| CreateEmailChangeRequest (u : uuid) (newEmail hash : string) (expires : time) : accE (result dberr EmailChange)
| GetPendingEmailChangeRequest (u : uuid) : accE (result dberr EmailChange)
| DeleteUnusedEmailChangeRequests (u : uuid) : accE (result dberr Z)
| ConfirmEmailChangeRow (hash : string) (u : uuid) : accE (result dberr string)
| UpsertOwnerClaimToken (hash : string) : accE (result dberr unit)
| GetUnclaimedOwnerClaimToken : accE (result dberr string)
| ClaimOwnerAndCreateAdmin (hash username email pw : string) : accE (result dberr User)
| TransferInstanceOwner (target : uuid) : accE (result dberr (uuid * string * string * Z))
| GetInstanceOwner : accE (result dberr User)
| CreateRegistrationRequest (username email hash note : string) : accE (result dberr (uuid * RegRequest))
| CreateProviderRegistrationRequest (username email provider subject : string) (verified : bool) : accE (result dberr (uuid * RegRequest))
| GetPendingProviderRegistrationRequest (provider subject : string) : accE (result dberr uuid)
| ApproveRegistrationRequest (id reviewer : uuid) (gate : bool) : accE (result dberr User)
| RejectRegistrationRequest (id : uuid) (note : string) (reviewer : uuid) : accE (result dberr (string * string))
| ListRegistrationRows (status : option regstatus) (limit offset : Z) : accE (result dberr (list (uuid * RegRequest * option string)))
| CountRegistrationRequests (status : option regstatus) : accE (result dberr Z)
| SendMail (m : amail) : accE (result dberr unit).

(** An operation of [authE] on its part of the state, with the shared fault
    schedule. *)
Definition on_auth {A} (r : faulty AuthDB -> A * faulty AuthDB) (w : faulty AccDB) : A * faulty AccDB :=
  let x := r (Faulty (auth (store w)) (faults w)) in
  (x.1, Faulty (set_auth (fun _ => store x.2) (store w)) (faults x.2)).

Definition acc_handler : handler accE (faulty AccDB) := fun X e w =>
  match e in accE X return X * faulty AccDB with
  | Auth e => on_auth (auth_handler _ e) w
  | GetUserByEmail email => exec (q_GetUserByEmail email) w
  | GetUserRow id => exec (q_GetUserRow id) w
  | CountUsers => exec q_CountUsers w
  | CreateUser username email hash role pending => exec (q_CreateUser username email hash role pending) w
  | SetUserEmailVerified id => exec (q_SetUserEmailVerified id) w
  | CreatePasswordResetToken u hash expires => exec (q_CreatePasswordResetToken u hash expires) w
  | GetPasswordResetToken hash => exec (q_GetPasswordResetToken hash) w
  | MarkPasswordResetTokenUsed id => exec (q_MarkPasswordResetTokenUsed id) w
  | DeleteUnusedPasswordResetTokens u => exec (q_DeleteUnusedPasswordResetTokens u) w
  | CreateEmailVerificationToken u hash expires => exec (q_CreateEmailVerificationToken u hash expires) w
  | GetEmailVerificationToken hash => exec (q_GetEmailVerificationToken hash) w
  | MarkEmailVerificationTokenUsed id => exec (q_MarkEmailVerificationTokenUsed id) w
  | LatestUnusedEmailVerificationTokenAt u => exec (q_LatestUnusedEmailVerificationTokenAt u) w
  | DeleteUnusedEmailVerificationTokens u => exec (q_DeleteUnusedEmailVerificationTokens u) w
  | CreateEmailChangeRequest u newEmail hash expires => exec (q_CreateEmailChangeRequest u newEmail hash expires) w
  | GetPendingEmailChangeRequest u => exec (q_GetPendingEmailChangeRequest u) w
  | DeleteUnusedEmailChangeRequests u => exec (q_DeleteUnusedEmailChangeRequests u) w
  | ConfirmEmailChangeRow hash u => exec (q_ConfirmEmailChange hash u) w
  | UpsertOwnerClaimToken hash => exec (q_UpsertOwnerClaimToken hash) w
  | GetUnclaimedOwnerClaimToken => exec q_GetUnclaimedOwnerClaimToken w
  | ClaimOwnerAndCreateAdmin hash username email pw => exec (q_ClaimOwnerAndCreateAdmin hash username email pw) w
  | TransferInstanceOwner target => exec (q_TransferInstanceOwner target) w
  | GetInstanceOwner => exec q_GetInstanceOwner w
  | CreateRegistrationRequest username email hash note => exec (q_CreateRegistrationRequest username email hash note) w
  | CreateProviderRegistrationRequest username email provider subject verified => exec (q_CreateProviderRegistrationRequest username email provider subject verified) w
  | GetPendingProviderRegistrationRequest provider subject => exec (q_GetPendingProviderRegistrationRequest provider subject) w
  | ApproveRegistrationRequest id reviewer gate => exec (q_ApproveRegistrationRequest id reviewer gate) w
  | RejectRegistrationRequest id note reviewer => exec (q_RejectRegistrationRequest id note reviewer) w
  | ListRegistrationRows status limit offset => exec (q_ListRegistrationRequests status limit offset) w
  | CountRegistrationRequests status => exec (q_CountRegistrationRequests status) w
  | SendMail m => exec (fun a => (Ok tt, post m a)) w
  end.

(** [auth.Service] with what these flows add to its configuration. *)
Record AccountService := mkAccountService {
  ac : AuthService;
  ac_resetTTL : duration;
  ac_verifyTTL : duration;
  ac_fixedOwnerClaimToken : string;
}.

(** Time passes between operations. *)
Definition acclock (w w' : faulty AccDB) : Prop :=
  exists t, anow (auth (store w)) <= t /\ w' = Faulty (set_auth (set_anow t) (store w)) (faults w).
