(* ===== verification/Account.v ===== *)
(** * Account recovery, sign-up and ownership (src/internal/auth: reset.go,
    verification.go, emailchange.go, account.go, adminreset.go,
    registration.go, ownerclaim.go, ownertransfer.go, ownerrecovery.go and the
    registration half of service.go)

    Password-reset links, address verification and the two-step change of
    address, deactivation, administrator-made accounts and links, registration
    with and without approval, and the claim, transfer and recovery of the
    instance's ownership. *)
From S2P Require Import Prelude GoStrings Encoding Secretbox AuthStore Devices LoginLock Sessions Mfa AccountStore.
Local Open Scope Z_scope.

(** ** Errors *)

Inductive acerr :=
| CErrInvalidResetToken | CErrMailDelivery | CErrInvalidVerificationToken
| CErrEmailUnchanged | CErrEmailTaken | CErrInvalidEmailChangeToken | CErrNoPendingEmailChange
| CErrResetTargetInactive | CErrResetTargetOwner | CErrResetTargetStaff
| CErrConflict | CErrHandleReserved | CErrOwnerClaimRequired | CErrOwnerClaimInvalid
| CErrNotInstanceOwner | CErrOwnerTargetNotFound | CErrOwnerTargetIneligible | CErrOwnerTransferConflict
| CErrNoInstanceOwner | CErrOwnerAccountDisabled
| CErrRegistrationRequestNotFound | CErrRegistrationPending
| CAuth (e : aerr).

#[global] Instance acerr_eq_dec : EqDecision acerr.
Proof. solve_decision. Defined.

(** [nameConflict], on an error that is a unique violation; any other error is
    returned as it is. *)
Definition nameConflict (e : dberr) : acerr :=
  match e with ErrReserved => CErrHandleReserved | ErrUnique => CErrConflict | _ => CAuth (AErrDB e) end.

(** ** Constants and records *)

Definition VerificationResendCooldown : duration := 60 * Second.
Definition emailChangeTTL : duration := Hour.

Record PendingEmailChange := mkPendingChange { pc_NewEmail : string; pc_RequestedAt : time; pc_ExpiresAt : time }.
Record AdminResetLink := mkResetLink { rl_Token : string; rl_ExpiresAt : time }.
Record RegisterInput := mkRegisterInput { ri_Username : string; ri_Email : string; ri_Password : string }.
Record OwnerTransfer := mkOwnerTransfer { ot_Former : uuid; ot_New : uuid; ot_Cleared : Z }.
Record OwnerRecovery := mkOwnerRecovery { or_Token : string; or_ExpiresAt : time; or_MFARemoved : bool; or_OwnerID : uuid }.

Section Account.
Context (s : AccountService).
Abbreviation M A := (prog accE A) (only parsing).
Abbreviation C := (a_crypto (ac s)) (only parsing).

(** A program of sign-in, run by these flows. *)
Definition up {A} (p : prog authE A) : M A := lift (@Auth) p.

(** [hashResetToken], [hashVerificationToken], [hashEmailChangeToken] and
    [hashOwnerClaimToken] *)
Definition hashToken (raw : string) : string := sha256_hex (a_crypto (ac s)) raw.

(** [generateResetToken] and its siblings: the raw token. *)
Definition newToken : M (option string) := up generateToken.

(** ** Password reset *)

(** [Service.RequestPasswordReset] *)
Definition RequestPasswordReset (email : string) : M (result acerr unit) :=
  r ← call (GetUserByEmail (TrimSpace email));
  match r with
  | Err _ => mret (Ok tt)
  | Ok user =>
      if negb (uIsActive user) then mret (Ok tt) else
      g ← newToken;
      match g with
      | None => mret (Err (CAuth AErrCrypto))
      | Some raw =>
          _ ← call (DeleteUnusedPasswordResetTokens (uID user));
          now ← call (Auth ANow);
          c ← call (CreatePasswordResetToken (uID user) (hashToken raw) (now + ac_resetTTL s));
          match c with
          | Err e => mret (Err (CAuth (AErrDB e)))
          | Ok _ =>
              m ← call (SendMail (MailPasswordReset (uEmail user) raw));
              mret (match m with Err _ => Err CErrMailDelivery | Ok _ => Ok tt end)
          end
      end
  end.

(** [Service.ResetPassword] *)
Definition ResetPassword (rawToken newPassword : string) : M (result acerr unit) :=
  r ← call (GetPasswordResetToken (hashToken rawToken));
  match r with
  | Err _ => mret (Err CErrInvalidResetToken)
  | Ok (id, row) =>
      if kUsed row then mret (Err CErrInvalidResetToken) else
      now ← call (Auth ANow);
      if kExpires row <=? now then mret (Err CErrInvalidResetToken) else
      u ← call (Auth (GetUserByID (kUser row)));
      if match u with Ok x => negb (uIsActive x) | Err _ => true end then mret (Err CErrInvalidResetToken) else
      match bcrypt_hash (a_crypto (ac s)) newPassword with
      | None => mret (Err (CAuth AErrCrypto))
      | Some hash =>
          w ← call (Auth (UpdateUserPassword (kUser row) hash));
          match w with
          | Err e => mret (Err (CAuth (AErrDB e)))
          | Ok _ =>
              _ ← call (MarkPasswordResetTokenUsed id);
              _ ← call (Auth (RevokeAllUserSessions (kUser row)));
              if a_lockStore (ac s) then
                _ ← call (Auth (ClearLoginThrottles (kUser row))); mret (Ok tt)
              else mret (Ok tt)
          end
      end
  end.

(** ** Address verification *)

(** The token half both requests share. *)
Definition issueVerification (user : User) : M (result acerr string) :=
  g ← newToken;
  match g with
  | None => mret (Err (CAuth AErrCrypto))
  | Some raw =>
      _ ← call (DeleteUnusedEmailVerificationTokens (uID user));
      now ← call (Auth ANow);
      c ← call (CreateEmailVerificationToken (uID user) (hashToken raw) (now + ac_verifyTTL s));
      mret (match c with Err e => Err (CAuth (AErrDB e)) | Ok _ => Ok raw end)
  end.

(** [Service.ResendEmailVerification] *)
Definition ResendEmailVerification (email : string) : M (result acerr unit) :=
  r ← call (GetUserByEmail (TrimSpace email));
  match r with
  | Err _ => mret (Ok tt)
  | Ok user =>
      if negb (uIsActive user) || uEmailVerified user then mret (Ok tt) else
      l ← call (LatestUnusedEmailVerificationTokenAt (uID user));
      quiet ← match l with
              | Err _ => mret false
              | Ok at_ => now ← call (Auth ANow); mret (now - at_ <? VerificationResendCooldown)
              end;
      if (quiet : bool) then mret (Ok tt) else
      i ← issueVerification user;
      match i with
      | Err e => mret (Err e)
      | Ok raw =>
          m ← call (SendMail (MailVerification (uEmail user) raw));
          mret (match m with Err _ => Err CErrMailDelivery | Ok _ => Ok tt end)
      end
  end.

(** [Service.RequestEmailVerification] *)
Definition RequestEmailVerification (userID : uuid) : M (result acerr unit) :=
  u ← up (UserByID userID);
  match u with
  | Err e => mret (Err (CAuth e))
  | Ok user =>
      if uEmailVerified user then mret (Ok tt) else
      i ← issueVerification user;
      match i with
      | Err e => mret (Err e)
      | Ok raw =>
          m ← call (SendMail (MailVerification (uEmail user) raw));
          mret (match m with Err e => Err (CAuth (AErrDB e)) | Ok _ => Ok tt end)
      end
  end.

(** [Service.VerifyEmail] *)
Definition VerifyEmail (rawToken : string) : M (result acerr unit) :=
  r ← call (GetEmailVerificationToken (hashToken rawToken));
  match r with
  | Err _ => mret (Err CErrInvalidVerificationToken)
  | Ok (id, row) =>
      if kUsed row then mret (Err CErrInvalidVerificationToken) else
      now ← call (Auth ANow);
      if kExpires row <=? now then mret (Err CErrInvalidVerificationToken) else
      w ← call (SetUserEmailVerified (kUser row));
      match w with
      | Err e => mret (Err (CAuth (AErrDB e)))
      | Ok _ => _ ← call (MarkEmailVerificationTokenUsed id); mret (Ok tt)
      end
  end.

(** ** Change of address *)

(** [Service.emailAvailableFor] *)
Definition emailAvailableFor (userID : uuid) (addr : string) : M (option acerr) :=
  r ← call (Auth (GetUserByLoginIdentifier addr));
  mret (match r with
        | Ok other => if bool_decide (uID other = userID) then None else Some CErrEmailTaken
        | Err _ => None
        end).

(** Supersede, mint and mail: the part [requestEmailChangeFor] and
    [ResendEmailChange] have in common. *)
Definition mintEmailChange (userID : uuid) (addr : string) : M (result acerr PendingEmailChange) :=
  g ← newToken;
  match g with
  | None => mret (Err (CAuth AErrCrypto))
  | Some raw =>
      d ← call (DeleteUnusedEmailChangeRequests userID);
      match d with
      | Err e => mret (Err (CAuth (AErrDB e)))
      | Ok _ =>
          now ← call (Auth ANow);
          c ← call (CreateEmailChangeRequest userID addr (hashToken raw) (now + emailChangeTTL));
          match c with
          | Err e => mret (Err (CAuth (AErrDB e)))
          | Ok row =>
              m ← call (SendMail (MailEmailChange (ecNewEmail row) raw));
              mret (match m with
                    | Err e => Err (CAuth (AErrDB e))
                    | Ok _ => Ok (mkPendingChange (ecNewEmail row) (ecCreated row) (ecExpires row))
                    end)
          end
      end
  end.

(** [Service.requestEmailChangeFor]; [strings.EqualFold] on ASCII. *)
Definition requestEmailChangeFor (user : User) (newEmail : string) : M (result acerr PendingEmailChange) :=
  let addr := TrimSpace newEmail in
  if bool_decide (ToLower addr = ToLower (uEmail user)) then mret (Err CErrEmailUnchanged) else
  av ← emailAvailableFor (uID user) addr;
  match av with
  | Some e => mret (Err e)
  | None => mintEmailChange (uID user) addr
  end.

(** [Service.RequestEmailChange] *)
Definition RequestEmailChange (userID : uuid) (currentPassword newEmail : string) : M (result acerr PendingEmailChange) :=
  u ← up (UserByID userID);
  match u with
  | Err e => mret (Err (CAuth e))
  | Ok user =>
      if bool_decide (uPasswordHash user = EmptyString) then mret (Err (CAuth AErrPasswordNotSet))
      else if negb (CheckPassword (ac s) (uPasswordHash user) currentPassword) then mret (Err (CAuth AErrInvalidPassword))
      else requestEmailChangeFor user newEmail
  end.

(** [Service.RequestEmailChangeWithStepUp] *)
Definition RequestEmailChangeWithStepUp (userID : uuid) (currentSessionID stepUpToken newEmail : string)
    : M (result acerr PendingEmailChange) :=
  u ← up (UserByID userID);
  match u with
  | Err e => mret (Err (CAuth e))
  | Ok user =>
      if negb (bool_decide (uPasswordHash user = EmptyString)) then mret (Err (CAuth AErrPasswordAlreadySet)) else
      c ← up (ConsumeStepUp (ac s) (uID user) currentSessionID stepUpToken);
      match c with
      | Err e => mret (Err (CAuth e))
      | Ok _ => requestEmailChangeFor user newEmail
      end
  end.

(** [Service.ResendEmailChange] *)
Definition ResendEmailChange (userID : uuid) : M (result acerr PendingEmailChange) :=
  r ← call (GetPendingEmailChangeRequest userID);
  match r with
  | Err _ => mret (Err CErrNoPendingEmailChange)
  | Ok current => mintEmailChange userID (ecNewEmail current)
  end.

(** [Service.PendingEmailChangeFor] *)
Definition PendingEmailChangeFor (userID : uuid) : M (result acerr PendingEmailChange) :=
  r ← call (GetPendingEmailChangeRequest userID);
  mret (match r with
        | Err _ => Err CErrNoPendingEmailChange
        | Ok row => Ok (mkPendingChange (ecNewEmail row) (ecCreated row) (ecExpires row))
        end).

(** [Service.CancelEmailChange] *)
Definition CancelEmailChange (userID : uuid) : M (result acerr unit) :=
  r ← call (DeleteUnusedEmailChangeRequests userID);
  mret (match r with
        | Err e => Err (CAuth (AErrDB e))
        | Ok n => if n =? 0 then Err CErrNoPendingEmailChange else Ok tt
        end).

(** [Service.ConfirmEmailChange]: the old and the new address. *)
Definition ConfirmEmailChange (userID : uuid) (rawToken : string) : M (result acerr (string * string)) :=
  u ← up (UserByID userID);
  match u with
  | Err e => mret (Err (CAuth e))
  | Ok user =>
      r ← call (ConfirmEmailChangeRow (hashToken rawToken) userID);
      match r with
      | Err (ErrUnique | ErrReserved) => mret (Err CErrEmailTaken)
      | Err _ => mret (Err CErrInvalidEmailChangeToken)
      | Ok newEmail =>
          _ ← call (DeleteUnusedEmailChangeRequests userID);
          if negb (IsPlaceholderEmail (uEmail user)) then
            _ ← call (SendMail (MailEmailChanged (uEmail user) newEmail)); mret (Ok (uEmail user, newEmail))
          else mret (Ok (uEmail user, newEmail))
      end
  end.

(** ** Deactivation *)

(** [Service.ConfirmPassword] *)
Definition ConfirmPassword (userID : uuid) (password : string) : M (result acerr unit) :=
  u ← up (UserByID userID);
  mret (match u with
        | Err e => Err (CAuth e)
        | Ok user => if CheckPassword (ac s) (uPasswordHash user) password then Ok tt else Err (CAuth AErrInvalidPassword)
        end).

(** [Service.DeactivateAccount] *)
Definition DeactivateAccount (userID : uuid) (password : string) : M (result acerr unit) :=
  c ← ConfirmPassword userID password;
  match c with
  | Err e => mret (Err e)
  | Ok _ =>
      u ← up (UserByID userID);
      match u with
      | Err e => mret (Err (CAuth e))
      | Ok user =>
          r ← call (Auth (DeactivateUser (uID user)));
          match r with
          | Err e => mret (Err (CAuth (AErrDB e)))
          | Ok _ => _ ← call (Auth (RevokeAllUserSessions (uID user))); mret (Ok tt)
          end
      end
  end.

(** ** Administrator links and accounts *)

(** [Service.mintResetLink] *)
Definition mintResetLink (targetID : uuid) : M (result acerr AdminResetLink) :=
  g ← newToken;
  match g with
  | None => mret (Err (CAuth AErrCrypto))
  | Some raw =>
      d ← call (DeleteUnusedPasswordResetTokens targetID);
      match d with
      | Err e => mret (Err (CAuth (AErrDB e)))
      | Ok _ =>
          now ← call (Auth ANow);
          c ← call (CreatePasswordResetToken targetID (hashToken raw) (now + ac_resetTTL s));
          mret (match c with
                | Err e => Err (CAuth (AErrDB e))
                | Ok _ => Ok (mkResetLink raw (now + ac_resetTTL s))
                end)
      end
  end.

(** [Service.AdminIssueResetLink] *)
Definition AdminIssueResetLink (adminID : uuid) (adminPassword : string) (targetID : uuid) : M (result acerr AdminResetLink) :=
  c ← up (confirmAdminPassword (ac s) adminID adminPassword);
  match c with
  | Err e => mret (Err (CAuth e))
  | Ok _ =>
      t ← call (GetUserRow targetID);
      match t with
      | Err _ => mret (Err (CAuth AErrAccountNotFound))
      | Ok (target, isOwner) =>
          if negb (uIsActive target) || uDeleted target then mret (Err CErrResetTargetInactive)
          else if (isOwner : bool) then mret (Err CErrResetTargetOwner)
          else if negb (bool_decide (uRole target = "user"%string)) then mret (Err CErrResetTargetStaff)
          else mintResetLink targetID
      end
  end.

(** [Service.AdminIssueSetPasswordLink] *)
Definition AdminIssueSetPasswordLink (targetID : uuid) : M (result acerr AdminResetLink) := mintResetLink targetID.

(** [Service.AdminSendSetPasswordLink] *)
Definition AdminSendSetPasswordLink (email token : string) : M (result acerr unit) :=
  m ← call (SendMail (MailPasswordReset email token));
  mret (match m with Err _ => Err CErrMailDelivery | Ok _ => Ok tt end).

(** [Service.AdminWithdrawResetLink] *)
Definition AdminWithdrawResetLink (targetID : uuid) : M (result dberr unit) :=
  call (DeleteUnusedPasswordResetTokens targetID).

(** [Service.AdminDiscardAccount] *)
Definition AdminDiscardAccount (id : uuid) : M (result dberr unit) :=
  r ← call (Auth (DeactivateUser id));
  match r with
  | Err e => mret (Err e)
  | Ok _ => call (DeleteUnusedPasswordResetTokens id)
  end.

(** [Service.NotifyAccountSuspended] and [Service.NotifyAccountReinstated] *)
Definition NotifyAccountSuspended (email reason : string) : M (result dberr unit) :=
  call (SendMail (MailAccountSuspended email reason)).
Definition NotifyAccountReinstated (email : string) : M (result dberr unit) :=
  call (SendMail (MailAccountReinstated email)).

(** ** The claim of a fresh instance *)

(** [Service.newOwnerClaimToken] *)
Definition newOwnerClaimToken : M (option string) :=
  if negb (bool_decide (ac_fixedOwnerClaimToken s = EmptyString)) then mret (Some (ac_fixedOwnerClaimToken s))
  else newToken.

(** [Service.EnsureOwnerClaimToken]: the minted token, if any, and whether
    accounts existed. *)
Definition EnsureOwnerClaimToken : M (result acerr (option string * bool)) :=
  n ← call CountUsers;
  match n with
  | Err e => mret (Err (CAuth (AErrDB e)))
  | Ok n =>
      pre ← (if 0 <? n then
               t ← call GetUnclaimedOwnerClaimToken;
               mret (match t with
                     | Ok _ => None
                     | Err ErrNoRows => Some (Ok (None, false))
                     | Err e => Some (Err (CAuth (AErrDB e)))
                     end)
             else mret None);
      match pre with
      | Some answer => mret answer
      | None =>
          g ← newOwnerClaimToken;
          match g with
          | None => mret (Err (CAuth AErrCrypto))
          | Some raw =>
              u ← call (UpsertOwnerClaimToken (hashToken raw));
              mret (match u with
                    | Err e => Err (CAuth (AErrDB e))
                    | Ok _ => Ok (Some raw, 0 <? n)
                    end)
          end
      end
  end.

(** [Service.OwnerClaimPending] *)
Definition OwnerClaimPending : M (result dberr bool) :=
  n ← call CountUsers;
  match n with
  | Err e => mret (Err e)
  | Ok n =>
      if 0 <? n then mret (Ok false) else
      t ← call GetUnclaimedOwnerClaimToken;
      mret (match t with Ok _ => Ok true | Err ErrNoRows => Ok false | Err e => Err e end)
  end.

(** [Service.refuseIfOwnerUnclaimed] *)
Definition refuseIfOwnerUnclaimed : M (option acerr) :=
  p ← OwnerClaimPending;
  mret (match p with
        | Err e => Some (CAuth (AErrDB e))
        | Ok true => Some CErrOwnerClaimRequired
        | Ok false => None
        end).

(** [Service.ClaimOwner] *)
Definition ClaimOwner (token : string) (i : RegisterInput) (userAgent : string) : M (result acerr (User * Tokens)) :=
  t ← call GetUnclaimedOwnerClaimToken;
  match t with
  | Err ErrNoRows => mret (Err CErrOwnerClaimInvalid)
  | Err e => mret (Err (CAuth (AErrDB e)))
  | Ok h =>
      if negb (bool_decide (hashToken token = h)) then mret (Err CErrOwnerClaimInvalid) else
      match bcrypt_hash (a_crypto (ac s)) (ri_Password i) with
      | None => mret (Err (CAuth AErrCrypto))
      | Some hash =>
          c ← call (ClaimOwnerAndCreateAdmin h (TrimSpace (ri_Username i)) (TrimSpace (ri_Email i)) hash);
          match c with
          | Err ErrNoRows => mret (Err CErrOwnerClaimInvalid)
          | Err e => mret (Err (nameConflict e))
          | Ok user =>
              ts ← up (issueTokens (ac s) user userAgent);
              mret (match ts with Err e => Err (CAuth e) | Ok tokens => Ok (user, tokens) end)
          end
      end
  end.

(** ** Registration *)

(** [Service.Register] *)
Definition Register (i : RegisterInput) (userAgent : string) : M (result acerr (User * Tokens)) :=
  o ← refuseIfOwnerUnclaimed;
  match o with
  | Some e => mret (Err e)
  | None =>
      match bcrypt_hash (a_crypto (ac s)) (ri_Password i) with
      | None => mret (Err (CAuth AErrCrypto))
      | Some hash =>
          c ← call (CreateUser (TrimSpace (ri_Username i)) (TrimSpace (ri_Email i)) hash "user" false);
          match c with
          | Err e => mret (Err (nameConflict e))
          | Ok user =>
              ts ← up (issueTokens (ac s) user userAgent);
              mret (match ts with Err e => Err (CAuth e) | Ok tokens => Ok (user, tokens) end)
          end
      end
  end.

(** [Service.RegisterPendingVerification]: the account, and the failure of the
    verification mail, if it failed. *)
Definition RegisterPendingVerification (i : RegisterInput) : M (result acerr (User * option acerr)) :=
  o ← refuseIfOwnerUnclaimed;
  match o with
  | Some e => mret (Err e)
  | None =>
      match bcrypt_hash (a_crypto (ac s)) (ri_Password i) with
      | None => mret (Err (CAuth AErrCrypto))
      | Some hash =>
          c ← call (CreateUser (TrimSpace (ri_Username i)) (TrimSpace (ri_Email i)) hash "user" true);
          match c with
          | Err e => mret (Err (nameConflict e))
          | Ok user =>
              v ← RequestEmailVerification (uID user);
              mret (Ok (user, match v with Err e => Some e | Ok _ => None end))
          end
      end
  end.

(** [Service.AdminCreateAccount] *)
Definition AdminCreateAccount (adminID : uuid) (adminPassword username email role : string) : M (result acerr User) :=
  c ← up (confirmAdminPassword (ac s) adminID adminPassword);
  match c with
  | Err e => mret (Err (CAuth e))
  | Ok _ =>
      o ← refuseIfOwnerUnclaimed;
      match o with
      | Some e => mret (Err e)
      | None =>
          u ← call (CreateUser (TrimSpace username) (TrimSpace email) EmptyString role false);
          mret (match u with Err e => Err (nameConflict e) | Ok user => Ok user end)
      end
  end.

(** [Service.RequestRegistration] *)
Definition RequestRegistration (i : RegisterInput) (note : string) : M (result acerr (uuid * RegRequest)) :=
  o ← refuseIfOwnerUnclaimed;
  match o with
  | Some e => mret (Err e)
  | None =>
      match bcrypt_hash (a_crypto (ac s)) (ri_Password i) with
      | None => mret (Err (CAuth AErrCrypto))
      | Some hash =>
          g ← call (GetUserByEmail (ToLower (TrimSpace (ri_Email i))));
          match g with
          | Ok _ => mret (Err CErrConflict)
          | Err _ =>
              r ← call (CreateRegistrationRequest (TrimSpace (ri_Username i)) (TrimSpace (ri_Email i)) hash (TrimSpace note));
              mret (match r with Err e => Err (nameConflict e) | Ok row => Ok row end)
          end
      end
  end.

(** [Service.ListRegistrationRequests] *)
Definition ListRegistrationRequests (status : option regstatus) (limit offset : Z)
    : M (result dberr (list (uuid * RegRequest * option string) * Z)) :=
  r ← call (ListRegistrationRows status limit offset);
  match r with
  | Err e => mret (Err e)
  | Ok rows =>
      n ← call (CountRegistrationRequests status);
      mret (match n with Err e => Err e | Ok total => Ok (rows, total) end)
  end.

(** [Service.ApproveRegistration] *)
Definition ApproveRegistration (adminID requestID : uuid) : M (result acerr User) :=
  let gate := a_verificationGate (ac s) in
  r ← call (ApproveRegistrationRequest requestID adminID gate);
  match r with
  | Err ErrNoRows => mret (Err CErrRegistrationRequestNotFound)
  | Err e => mret (Err (nameConflict e))
  | Ok user =>
      _ ← (if gate then _ ← RequestEmailVerification (uID user); mret tt else mret tt);
      _ ← call (SendMail (MailRegistrationApproved (uEmail user) (uUsername user) gate));
      mret (Ok user)
  end.

(** [Service.RejectRegistration] *)
Definition RejectRegistration (adminID requestID : uuid) (note : string) : M (result acerr unit) :=
  r ← call (RejectRegistrationRequest requestID (TrimSpace note) adminID);
  match r with
  | Err ErrNoRows => mret (Err CErrRegistrationRequestNotFound)
  | Err e => mret (Err (CAuth (AErrDB e)))
  | Ok (username, email) =>
      _ ← call (SendMail (MailRegistrationRejected email username (TrimSpace note)));
      mret (Ok tt)
  end.

(** [Service.RequestProviderRegistration]: always an error. *)
Definition RequestProviderRegistration (username email provider subject : string) (emailVerified : bool) : M acerr :=
  g ← call (GetPendingProviderRegistrationRequest provider subject);
  match g with
  | Ok _ => mret CErrRegistrationPending
  | Err ErrNoRows =>
      r ← call (CreateProviderRegistrationRequest username email provider subject emailVerified);
      mret (match r with
            | Ok _ | Err (ErrUnique | ErrReserved) => CErrRegistrationPending
            | Err e => CAuth (AErrDB e)
            end)
  | Err e => mret (CAuth (AErrDB e))
  end.

(** ** Ownership *)

(** [Service.sendOwnershipNotices] *)
Definition sendOwnershipNotices (former : User) (toUsername toEmail : string) : M unit :=
  _ ← call (SendMail (MailOwnershipTransferred toEmail toUsername (uUsername former) true));
  _ ← call (SendMail (MailOwnershipTransferred (uEmail former) (uUsername former) toUsername false));
  mret tt.

(** [Service.TransferOwnership] *)
Definition TransferOwnership (callerID targetID : uuid) (password : string) : M (result acerr OwnerTransfer) :=
  c ← call (GetUserRow callerID);
  match c with
  | Err _ => mret (Err (CAuth AErrAccountNotFound))
  | Ok (caller, isOwner) =>
      if negb (uIsActive caller) then mret (Err (CAuth AErrAccountNotFound))
      else if negb isOwner then mret (Err CErrNotInstanceOwner)
      else
        p ← ConfirmPassword callerID password;
        match p with
        | Err e => mret (Err e)
        | Ok _ =>
            t ← call (Auth (GetUserByID targetID));
            match t with
            | Err _ => mret (Err CErrOwnerTargetNotFound)
            | Ok target =>
                if bool_decide (uID target = uID caller) || negb (eligible_owner target)
                then mret (Err CErrOwnerTargetIneligible)
                else
                  r ← call (TransferInstanceOwner targetID);
                  match r with
                  | Err ErrNoRows => mret (Err CErrOwnerTargetIneligible)
                  | Err (ErrUnique | ErrReserved) => mret (Err CErrOwnerTransferConflict)
                  | Err e => mret (Err (CAuth (AErrDB e)))
                  | Ok (id, username, email, cleared) =>
                      _ ← sendOwnershipNotices caller username email;
                      mret (Ok (mkOwnerTransfer (uID caller) id cleared))
                  end
            end
        end
  end.

(** [Service.IssueOwnerRecovery] *)
Definition IssueOwnerRecovery (removeMFA : bool) : M (result acerr OwnerRecovery) :=
  if removeMFA && negb (a_mfaRepo (ac s)) then mret (Err (CAuth AErrMFAUnavailable)) else
  o ← call GetInstanceOwner;
  match o with
  | Err ErrNoRows => mret (Err CErrNoInstanceOwner)
  | Err e => mret (Err (CAuth (AErrDB e)))
  | Ok owner =>
      if negb (uIsActive owner) then mret (Err CErrOwnerAccountDisabled) else
      l ← mintResetLink (uID owner);
      match l with
      | Err e => mret (Err e)
      | Ok link =>
          if negb removeMFA then mret (Ok (mkOwnerRecovery (rl_Token link) (rl_ExpiresAt link) false (uID owner))) else
          n ← call (Auth (DeleteUserMFA (uID owner)));
          match n with
          | Err e => mret (Err (CAuth (AErrDB e)))
          | Ok n =>
              if 0 <? n then
                d ← call (Auth (DeleteRecoveryCodes (uID owner)));
                match d with
                | Err e => mret (Err (CAuth (AErrDB e)))
                | Ok _ =>
                    _ ← up (afterTwoFactorRemoved (ac s) owner EmptyString true);
                    mret (Ok (mkOwnerRecovery (rl_Token link) (rl_ExpiresAt link) true (uID owner)))
                end
              else mret (Ok (mkOwnerRecovery (rl_Token link) (rl_ExpiresAt link) false (uID owner)))
          end
      end
  end.

End Account.

(** ** Well-formed accounts *)

(** What the indexes, checks and triggers of the schema stand for: rows under
    their ids, names and addresses unique up to case, known roles, no account
    under a channel's handle, at most one owner and it exists, and one row per
    token hash. *)
Record wf_accounts (a : AccDB) : Prop := {
  wf_keyed id u : users (auth a) !! id = Some u -> uID u = id;
  wf_username i j u v : users (auth a) !! i = Some u -> users (auth a) !! j = Some v ->
    ToLower (uUsername u) = ToLower (uUsername v) -> i = j;
  wf_email i j u v : users (auth a) !! i = Some u -> users (auth a) !! j = Some v ->
    ToLower (uEmail u) = ToLower (uEmail v) -> i = j;
  wf_role id u : users (auth a) !! id = Some u -> known_role (uRole u) = true;
  wf_handle id u : users (auth a) !! id = Some u -> ToLower (uUsername u) ∉ handles a;
  wf_owner i j : i ∈ owners a -> j ∈ owners a -> i = j;
  wf_owner_exists i : i ∈ owners a -> is_Some (users (auth a) !! i);
  wf_resets i j t k : resets a !! i = Some t -> resets a !! j = Some k -> kHash t = kHash k -> i = j;
  wf_changes i j t k : changes a !! i = Some t -> changes a !! j = Some k -> ecHash t = ecHash k -> i = j;
}.

(** The columns those rules read. *)
Definition face (u : User) : uuid * string * string * string := (uID u, uUsername u, uEmail u, uRole u).

Definition same_faces (d d' : AuthDB) : Prop := face <$> users d' = face <$> users d.

#[global] Instance same_faces_equivalence : Equivalence same_faces.
Proof. unfold same_faces. split; [done|..]; intros x y; [|intros z]; congruence. Qed.

Lemma same_faces_users d d' : users d' = users d -> same_faces d d'.
Proof. unfold same_faces. by intros ->. Qed.

Lemma same_faces_alter f id d :
  (forall u, face (f u) = face u) -> same_faces d (set_users (alter f id) d).
Proof.
  intros Hf. unfold same_faces. cbn. apply map_eq. intros i. rewrite !lookup_fmap.
  destruct (decide (id = i)) as [->|]; [rewrite lookup_alter_eq|by rewrite lookup_alter_ne].
  destruct (users d !! i); cbn; [by rewrite Hf|done].
Qed.

(** Nothing sign-in does renames, re-addresses, promotes, adds or removes an
    account. *)
Lemma same_faces_step X (e : authE X) w : same_faces (store w) (store (auth_handler X e w).2).
Proof.
  destruct e; cbn [auth_handler];
    try (apply (exec_rel _ same_faces); intros dd);
    try (by apply same_faces_alter); untouched same_faces_users.
Qed.

Lemma same_faces_lookup d d' id u' :
  same_faces d d' -> users d' !! id = Some u' -> exists u, users d !! id = Some u /\ face u' = face u.
Proof.
  unfold same_faces. intros He Hu. assert (Hf : (face <$> users d') !! id = Some (face u')) by (by rewrite lookup_fmap, Hu).
  rewrite He, lookup_fmap in Hf. destruct (users d !! id) as [u|]; [|done]. cbn in Hf. exists u. split; [done|]. congruence.
Qed.

(** Tables other than users and tokens do not matter. *)
Lemma wf_same a a' :
  same_faces (auth a) (auth a') -> handles a' = handles a -> owners a' = owners a ->
  (forall i t, resets a' !! i = Some t -> exists k, resets a !! i = Some k /\ kHash t = kHash k) ->
  (forall i t, changes a' !! i = Some t -> exists k, changes a !! i = Some k /\ ecHash t = ecHash k) ->
  wf_accounts a -> wf_accounts a'.
Proof.
  intros Hf Hh Ho Hr Hc [K U E R H O OE RT CT].
  assert (Hl : forall id u', users (auth a') !! id = Some u' -> exists u, users (auth a) !! id = Some u /\ face u' = face u)
    by (intros; by eapply same_faces_lookup).
  split.
  - intros id u' Hu. destruct (Hl _ _ Hu) as (u & Hu0 & [= -> _ _ _]). by apply K.
  - intros i j u v Hu Hv. destruct (Hl _ _ Hu) as (u0 & Hu0 & [= _ -> _ _]).
    destruct (Hl _ _ Hv) as (v0 & Hv0 & [= _ -> _ _]). by apply U.
  - intros i j u v Hu Hv. destruct (Hl _ _ Hu) as (u0 & Hu0 & [= _ _ -> _]).
    destruct (Hl _ _ Hv) as (v0 & Hv0 & [= _ _ -> _]). by apply E.
  - intros id u' Hu. destruct (Hl _ _ Hu) as (u & Hu0 & [= _ _ _ ->]). by eapply R.
  - intros id u' Hu. rewrite Hh. destruct (Hl _ _ Hu) as (u & Hu0 & [= _ -> _ _]). by eapply H.
  - rewrite Ho. apply O.
  - rewrite Ho. intros i Hi. destruct (OE _ Hi) as [u Hu].
    destruct (same_faces_lookup _ _ i u (symmetry Hf) Hu) as (u' & -> & _). done.
  - intros i j t k Ht Hk. destruct (Hr _ _ Ht) as (t0 & Ht0 & ->). destruct (Hr _ _ Hk) as (k0 & Hk0 & ->). by apply RT.
  - intros i j t k Ht Hk. destruct (Hc _ _ Ht) as (t0 & Ht0 & ->). destruct (Hc _ _ Hk) as (k0 & Hk0 & ->). by apply CT.
Qed.

Ltac other_tables := apply wf_same; [reflexivity || assumption|done|done|..]; eauto.

Lemma drawn_faces a : same_faces (auth a) (auth (drawn_id a)).
Proof. done. Qed.

Lemma taken_none {K} `{Countable K} {V} (f : V -> bool) (m : gmap K V) i v :
  existsb f (map_to_list m).*2 = false -> m !! i = Some v -> f v = false.
Proof.
  intros Hn Hv. destruct (f v) eqn:Hf; [|done]. rewrite (proj2 (existsb_exists f _)) in Hn; [done|].
  exists v. split; [|done]. apply list_elem_of_In, list_elem_of_fmap. exists (i, v). by rewrite elem_of_map_to_list.
Qed.

Lemma name_free username email d i u :
  name_taken username email d = false -> users d !! i = Some u ->
  ToLower (uUsername u) <> ToLower username /\ ToLower (uEmail u) <> ToLower email.
Proof.
  intros Hn Hu. pose proof (taken_none _ _ _ _ Hn Hu) as Hf. cbv beta in Hf. bools. done.
Qed.

(** A row that passes the constraints keeps the table well formed. *)
Lemma wf_insert a u (owner : bool) :
  wf_accounts a -> users (auth a) !! uID u = None -> known_role (uRole u) = true ->
  name_taken (uUsername u) (uEmail u) (auth a) = false -> ToLower (uUsername u) ∉ handles a ->
  (owner = true -> owners a = ∅) ->
  wf_accounts (set_owners (fun os => if owner then os ∪ {[uID u]} else os)
                 (set_auth (set_users <[uID u := u]>) (drawn_id a))).
Proof.
  intros [K U E R H O OE RT CT] Hnew Hrole Hname Hhandle Hown.
  assert (Hfree := fun i v => name_free _ _ _ i v Hname).
  split; cbn -[ToLower].
  - intros id v. rewrite lookup_insert_Some. intros [[<- <-]|[_ Hv]]; [done|by apply K].
  - intros i j v w. rewrite !lookup_insert_Some.
    intros [[<- <-]|[_ Hv]] [[<- <-]|[_ Hw]] He; [done| | |by eapply U].
    + by destruct (Hfree _ _ Hw) as [[] _].
    + by destruct (Hfree _ _ Hv) as [[] _].
  - intros i j v w. rewrite !lookup_insert_Some.
    intros [[<- <-]|[_ Hv]] [[<- <-]|[_ Hw]] He; [done| | |by eapply E].
    + by destruct (Hfree _ _ Hw) as [_ []].
    + by destruct (Hfree _ _ Hv) as [_ []].
  - intros id v. rewrite lookup_insert_Some. intros [[_ <-]|[_ Hv]]; [done|by eapply R].
  - intros id v. rewrite lookup_insert_Some. intros [[_ <-]|[_ Hv]]; [done|by eapply H].
  - destruct owner; [|done]. rewrite Hown by done. set_solver.
  - intros i Hi. rewrite lookup_insert_is_Some. destruct (decide (uID u = i)) as [->|Hne]; [by left|right].
    split; [done|]. apply OE. destruct owner; [|done]. rewrite Hown in Hi by done. set_solver.
  - done.
  - done.
Qed.

Lemma wf_drawn a : wf_accounts a -> wf_accounts (drawn_id a).
Proof. other_tables. Qed.

Lemma wf_insert_user username email hash role p v owner a :
  wf_accounts a -> wf_accounts (insert_user username email hash role p v owner a).2.
Proof.
  intros Hwf. unfold insert_user. cbv zeta. destruct (known_role role) eqn:Hr; cbn [negb]; [|by apply wf_drawn].
  destruct (name_taken _ _ _) eqn:Hn; cbn [orb]; [by apply wf_drawn|].
  case_bool_decide as Hid; cbn [orb]; [by apply wf_drawn|].
  destruct (owner && _) eqn:Ho; [by apply wf_drawn|]. destruct (bool_decide (ToLower username ∈ handles a)) eqn:Hh; [by apply wf_drawn|].
  apply bool_decide_eq_false in Hh. apply (wf_insert a (mkUser (next_id a) username email hash role true false v p)); try done.
  - cbn. by apply eq_None_not_Some.
  - intros ->. cbn in Ho. apply negb_false_iff in Ho. by apply bool_decide_eq_true in Ho.
Qed.

Lemma wf_moved email u id a :
  wf_accounts a -> users (auth a) !! u = Some id -> email_taken u email (auth a) = false ->
  wf_accounts (set_auth (set_users (alter (moved_user email) u)) a).
Proof.
  intros [K U E R H O OE RT CT] Hu Ht.
  assert (Hfree : forall i v, users (auth a) !! i = Some v -> i <> u -> ToLower (uEmail v) <> ToLower email).
  { intros i v Hv Hne He. assert (Hex : email_taken u email (auth a) = true); [|congruence].
    apply existsb_exists. exists (i, v). rewrite <- list_elem_of_In, elem_of_map_to_list. split; [done|]. cbn -[ToLower].
    by rewrite bool_decide_eq_false_2, bool_decide_eq_true_2. }
  assert (Hl : forall i v, alter (moved_user email) u (users (auth a)) !! i = Some v ->
    exists v0, users (auth a) !! i = Some v0 /\ uID v = uID v0 /\ uUsername v = uUsername v0 /\ uRole v = uRole v0 /\
      (i = u /\ uEmail v = email \/ i <> u /\ uEmail v = uEmail v0)).
  { intros i v. rewrite lookup_alter_Some. intros [(<- & v0 & Hv0 & ->)|[Hne Hv]]; [exists v0|exists v]; naive_solver. }
  split; cbn -[ToLower]; [| | | | |done| |done|done].
  - intros i v Hv. destruct (Hl _ _ Hv) as (v0 & Hv0 & -> & _). by apply K.
  - intros i j v w Hv Hw. destruct (Hl _ _ Hv) as (v0 & Hv0 & _ & -> & _).
    destruct (Hl _ _ Hw) as (w0 & Hw0 & _ & -> & _). by apply U.
  - intros i j v w Hv Hw. destruct (Hl _ _ Hv) as (v0 & Hv0 & _ & _ & _ & Hev).
    destruct (Hl _ _ Hw) as (w0 & Hw0 & _ & _ & _ & Hew). intros He.
    destruct Hev as [[-> Ev]|[Hi Ev]], Hew as [[-> Ew]|[Hj Ew]]; rewrite Ev, Ew in He; [done| | |by eapply E].
    + by destruct (Hfree _ _ Hw0 Hj).
    + by destruct (Hfree _ _ Hv0 Hi).
  - intros i v Hv. destruct (Hl _ _ Hv) as (v0 & Hv0 & _ & _ & -> & _). by eapply R.
  - intros i v Hv. destruct (Hl _ _ Hv) as (v0 & Hv0 & _ & -> & _). by eapply H.
  - intros i Hi. rewrite lookup_alter_is_Some. by apply OE.
Qed.

Lemma wf_resets_insert a u hash expires :
  wf_accounts a -> wf_accounts (q_CreatePasswordResetToken u hash expires a).2.
Proof.
  intros Hwf. unfold q_CreatePasswordResetToken. cbv zeta. case_bool_decide as Hu; [by apply wf_drawn|].
  destruct (token_hash_taken hash (resets a)) eqn:Ht; cbn [orb]; [by apply wf_drawn|].
  case_bool_decide as Hid; [by apply wf_drawn|]. apply wf_drawn in Hwf as [K U E R H O OE RT CT]. split; try done.
  cbn. intros i j t k. rewrite !lookup_insert_Some.
  assert (Hfree : forall i t, resets a !! i = Some t -> kHash t <> hash).
  { intros i0 t0 H0. pose proof (taken_none _ _ _ _ Ht H0) as Hf. cbv beta in Hf. by bools. }
  intros [[<- <-]|[_ Hv]] [[<- <-]|[_ Hw]] He; [done| | |by eapply RT]; cbn in He.
  - by destruct (Hfree _ _ Hw).
  - by destruct (Hfree _ _ Hv).
Qed.

Lemma wf_changes_insert a u newEmail hash expires :
  wf_accounts a -> wf_accounts (q_CreateEmailChangeRequest u newEmail hash expires a).2.
Proof.
  intros Hwf. unfold q_CreateEmailChangeRequest. cbv zeta. case_bool_decide as Hu; [by apply wf_drawn|].
  destruct (existsb _ _) eqn:Ht; cbn [orb]; [by apply wf_drawn|].
  case_bool_decide as Hid; [by apply wf_drawn|]. apply wf_drawn in Hwf as [K U E R H O OE RT CT]. split; try done.
  cbn. intros i j t k. rewrite !lookup_insert_Some.
  assert (Hfree : forall i t, changes a !! i = Some t -> ecHash t <> hash).
  { intros i0 t0 H0. pose proof (taken_none _ _ _ _ Ht H0) as Hf. cbv beta in Hf. by bools. }
  intros [[<- <-]|[_ Hv]] [[<- <-]|[_ Hw]] He; [done| | |by eapply CT]; cbn in He.
  - by destruct (Hfree _ _ Hw).
  - by destruct (Hfree _ _ Hv).
Qed.

(** The request a token opens is a row of the table. *)
Lemma confirmable_row hash u a id c l :
  filter (fun kv => confirmable hash u (anow (auth a)) kv.2 = true) (map_to_list (changes a)) = (id, c) :: l ->
  changes a !! id = Some c /\ confirmable hash u (anow (auth a)) c = true.
Proof.
  intros Hf. assert (Hin : (id, c) ∈ (id, c) :: l) by left. rewrite <- Hf in Hin.
  apply list_elem_of_filter in Hin as [Hc Hin]. by apply elem_of_map_to_list in Hin.
Qed.

Lemma wf_change_used a id c :
  changes a !! id = Some c -> wf_accounts a ->
  wf_accounts (set_changes <[id := mkChange (ecUser c) (ecNewEmail c) (ecHash c) (ecExpires c) true (ecCreated c)]> a).
Proof.
  intros Hc. apply wf_same; try done; [by eauto|]. intros i t. cbn. rewrite lookup_insert_Some.
  intros [[<- <-]|[_ Ht]]; eauto.
Qed.

Lemma wf_confirm hash u a : wf_accounts a -> wf_accounts (q_ConfirmEmailChange hash u a).2.
Proof.
  intros Hwf. unfold q_ConfirmEmailChange. destruct (filter _ _) as [|[id c] l] eqn:Hf; [done|].
  apply confirmable_row in Hf as [Hc _].
  destruct (users (auth a) !! u) as [x|] eqn:Hu; [|by apply wf_change_used].
  destruct (email_taken _ _ _) eqn:Ht; [done|].
  apply (wf_change_used (set_auth (set_users (alter (moved_user (ecNewEmail c)) u)) a) id c); [done|]. by eapply wf_moved.
Qed.

Lemma filter_row {V} (P : uuid * V -> Prop) `{!forall x, Decision (P x)} (m : gmap uuid V) i v :
  filter P m !! i = Some v -> m !! i = Some v.
Proof. intros Hv. by apply map_lookup_filter_Some in Hv as [? _]. Qed.

(** Every operation keeps the tables well formed. *)
Lemma wf_step X (e : accE X) w : wf_accounts (store w) -> wf_accounts (store (acc_handler X e w).2).
Proof.
  intros Hwf. destruct e; cbn [acc_handler];
    try (apply (exec_invariant _ wf_accounts); [|exact Hwf]; clear Hwf; intros a Hwf);
    try exact Hwf; try (by apply wf_insert_user); try (by apply wf_resets_insert); try (by apply wf_changes_insert);
    try (by apply wf_confirm).
  - cbn. revert Hwf. apply wf_same; try done; eauto. cbn. apply same_faces_step with (w := Faulty _ _).
  - revert Hwf. apply wf_same; try done; eauto. by apply same_faces_alter.
  - revert Hwf. apply wf_same; try done; eauto. cbn. intros i t. rewrite lookup_alter_Some.
    intros [(<- & t0 & Ht & ->)|[_ Ht]]; eauto.
  - revert Hwf. apply wf_same; try done; eauto. cbn. intros i t Ht. apply filter_row in Ht. eauto.
  - unfold q_CreateEmailVerificationToken. cbv zeta. repeat case_match; (revert Hwf; other_tables).
  - revert Hwf. other_tables.
  - revert Hwf. other_tables.
  - revert Hwf. apply wf_same; try done; eauto. cbn. intros i t Ht. apply filter_row in Ht. eauto.
  - revert Hwf. other_tables.
  - unfold q_ClaimOwnerAndCreateAdmin. destruct (claim a) as [[h []]|]; try done. case_bool_decide; [|done].
    pose proof (wf_insert_user username email pw "admin" false false true a Hwf) as Hi.
    destruct (insert_user _ _ _ _ _ _ _ a) as [[u|e] a']; [|done]. cbn in *. revert Hi. other_tables.
  - unfold q_TransferInstanceOwner. destruct (users (auth a) !! target) as [u|] eqn:Hu; [|done].
    destruct (eligible_owner u); [|done]. destruct Hwf as [K U E R H O OE RT CT]. split; try done; cbn.
    + set_solver.
    + intros i ->%elem_of_singleton. eauto.
  - unfold q_CreateRegistrationRequest, insert_request. cbv zeta. case_match; (revert Hwf; other_tables).
  - unfold q_CreateProviderRegistrationRequest, insert_request. cbv zeta. case_match; (revert Hwf; other_tables).
  - unfold q_ApproveRegistrationRequest. destruct (requests a !! id) as [r|]; [|done]. destruct (negb _); [done|].
    pose proof (wf_insert_user (rgUsername r) (rgEmail r) (rgPasswordHash r) "user" (gate && bool_decide (rgProvider r = None)) (rgEmailVerified r) false a Hwf) as Hi.
    destruct (insert_user _ _ _ _ _ _ _ a) as [[u|e] a']; [|done]. cbn in *.
    destruct (rgProvider r); [case_bool_decide; [by apply wf_drawn|]|]; (revert Hi; other_tables).
  - unfold q_RejectRegistrationRequest. repeat case_match; (revert Hwf; other_tables).
  - revert Hwf. other_tables.
Qed.
