(* ===== verification/AccountSafety.v ===== *)
(** * What the account flows guarantee (src/internal/auth)

    Theorems on [Account]: well-formed tables under every interleaving, reset
    links that work once, a change of address that is confirmed once, one winner
    of the owner claim, and the two places where the code is weaker than its
    comments. *)
From S2P Require Import Prelude GoStrings Encoding Secretbox AuthStore Devices LoginLock Sessions Mfa AccountStore Account.
Local Open Scope Z_scope.

(** ** A change of address is confirmed once *)

(** A request with this token was confirmed. *)
Definition change_spent (hash : string) (a : AccDB) : bool :=
  existsb (fun c => bool_decide (ecHash c = hash) && ecUsed c) (map_to_list (changes a)).*2.

Lemma change_spent_spec hash a :
  change_spent hash a = true <-> exists i c, changes a !! i = Some c /\ ecHash c = hash /\ ecUsed c = true.
Proof.
  unfold change_spent. rewrite existsb_exists. split.
  - intros (c & Hin & Hc). bools. apply list_elem_of_In, list_elem_of_fmap in Hin as ([i c'] & -> & Hin).
    apply elem_of_map_to_list in Hin. by exists i, c'.
  - intros (i & c & Hi & <- & Hu). exists c. split; [|by rewrite bool_decide_eq_true_2].
    apply list_elem_of_In, list_elem_of_fmap. exists (i, c). by rewrite elem_of_map_to_list.
Qed.

(** Confirmed requests stay. *)
Definition changes_stay (a a' : AccDB) : Prop :=
  forall i c, changes a !! i = Some c -> ecUsed c = true ->
    exists c', changes a' !! i = Some c' /\ ecHash c' = ecHash c /\ ecUsed c' = true.

#[global] Instance changes_stay_preorder : PreOrder changes_stay.
Proof.
  split; [intros a i c; eauto|]. intros a1 a2 a3 H12 H23 i c Hc Hu.
  destruct (H12 _ _ Hc Hu) as (c2 & Hc2 & E2 & U2). destruct (H23 _ _ Hc2 U2) as (c3 & ? & ? & ?).
  exists c3. split_and!; congruence.
Qed.

Lemma stay_same a a' : changes a' = changes a -> changes_stay a a'.
Proof. intros He i c. rewrite He. eauto. Qed.

Lemma confirm_row hash u a :
  match (q_ConfirmEmailChange hash u a).1 with
  | Ok email => exists id c, changes a !! id = Some c /\ confirmable hash u (anow (auth a)) c = true /\
      email = ecNewEmail c /\ is_Some (users (auth a) !! u) /\ email_taken u email (auth a) = false /\
      (q_ConfirmEmailChange hash u a).2 =
        set_changes <[id := mkChange (ecUser c) (ecNewEmail c) (ecHash c) (ecExpires c) true (ecCreated c)]>
          (set_auth (set_users (alter (moved_user (ecNewEmail c)) u)) a)
  | Err e => changes_stay a (q_ConfirmEmailChange hash u a).2
  end.
Proof.
  unfold q_ConfirmEmailChange. destruct (filter _ _) as [|[id c] l] eqn:Hf; [by apply stay_same|].
  apply confirmable_row in Hf as [Hc Hok]. destruct (users (auth a) !! u) as [x|] eqn:Hu.
  - destruct (email_taken _ _ _) eqn:Ht; [by apply stay_same|]. exists id, c. split_and!; done.
  - cbn. intros i c' Hc' Hused. cbn. destruct (decide (id = i)) as [<-|Hne].
    + rewrite lookup_insert_eq. eexists. split; [done|]. assert (c' = c) as -> by congruence. done.
    + rewrite lookup_insert_ne by done. eauto.
Qed.

Lemma stay_confirm hash u a : changes_stay a (q_ConfirmEmailChange hash u a).2.
Proof.
  pose proof (confirm_row hash u a) as H. destruct (q_ConfirmEmailChange hash u a).1; [|done].
  destruct H as (id & c & Hc & Hok & _ & _ & _ & ->). intros i c' Hc' Hused. cbn.
  destruct (decide (id = i)) as [<-|Hne]; [|rewrite lookup_insert_ne by done; eauto].
  unfold confirmable in Hok. bools. congruence.
Qed.

Lemma stay_step X (e : accE X) w : changes_stay (store w) (store (acc_handler X e w).2).
Proof.
  destruct e; cbn [acc_handler]; try (apply (exec_rel _ changes_stay); intros a); try (by apply stay_same);
    try (by apply stay_confirm).
  - unfold q_CreateUser, insert_user. cbv zeta. repeat case_match; by apply stay_same.
  - unfold q_CreatePasswordResetToken. cbv zeta. repeat case_match; by apply stay_same.
  - unfold q_CreateEmailVerificationToken. cbv zeta. repeat case_match; by apply stay_same.
  - unfold q_CreateEmailChangeRequest. cbv zeta. case_bool_decide; [by apply stay_same|].
    destruct (_ || _) eqn:Hf; [by apply stay_same|]. bools. intros i c Hc Hu. cbn.
    rewrite lookup_insert_ne; [eauto|]. intros <-. rewrite Hc in *. naive_solver.
  - intros i c Hc Hu. cbn. exists c. split; [|done]. apply map_lookup_filter_Some. split; [done|]. cbn. rewrite Hu. naive_solver.
  - unfold q_ClaimOwnerAndCreateAdmin, insert_user. cbv zeta. repeat case_match; simplify_eq; by apply stay_same.
  - unfold q_TransferInstanceOwner. repeat case_match; by apply stay_same.
  - unfold q_CreateRegistrationRequest, insert_request. cbv zeta. repeat case_match; by apply stay_same.
  - unfold q_CreateProviderRegistrationRequest, insert_request. cbv zeta. repeat case_match; by apply stay_same.
  - unfold q_ApproveRegistrationRequest, insert_user. cbv zeta. repeat case_match; simplify_eq; by apply stay_same.
  - unfold q_RejectRegistrationRequest. repeat case_match; by apply stay_same.
Qed.

(** Winning: an answer with the new address. *)
Definition confirms (hash : string) X (e : accE X) : X -> bool :=
  match e in accE X return X -> bool with
  | ConfirmEmailChangeRow h _ => fun r => match r with Ok _ => bool_decide (h = hash) | Err _ => false end
  | _ => fun _ => false
  end.

Definition answered {E A} (r : result E A) : bool := match r with Ok _ => true | Err _ => false end.

Lemma confirms_closes hash X (e : accE X) w :
  wf_accounts (store w) -> confirms hash X e (acc_handler X e w).1 = true ->
  change_spent hash (store w) = false /\ change_spent hash (store (acc_handler X e w).2) = true.
Proof.
  intros Hwf Hs. destruct e; try done. cbn [acc_handler confirms] in *.
  destruct (exec _ w).1 as [p|] eqn:He; [|done]. bools. subst hash0. apply exec_ok in He as [He ->].
  pose proof (confirm_row hash u (store w)) as Hc. rewrite He in Hc.
  destruct Hc as (i & c & Hi & Hok & _ & _ & _ & Hst). unfold confirmable in Hok. bools. split.
  - apply not_true_iff_false. intros (j & k & Hj & Hh & Hk)%change_spent_spec.
    assert (j = i) as -> by (eapply (wf_changes _ Hwf); [done..|congruence]). congruence.
  - apply change_spent_spec. rewrite Hst. exists i. eexists. cbn. by rewrite lookup_insert_eq.
Qed.

Lemma spent_stays hash a a' : changes_stay a a' -> change_spent hash a = true -> change_spent hash a' = true.
Proof.
  intros Hs (i & c & Hi & Hh & Hu)%change_spent_spec. apply change_spent_spec.
  destruct (Hs _ _ Hi Hu) as (c' & ? & ? & ?). exists i, c'. split_and!; congruence.
Qed.

Lemma acclock_wf w w' : acclock w w' -> wf_accounts (store w) -> wf_accounts (store w').
Proof. intros (t & _ & ->). apply wf_same; try done; eauto. Qed.

(** Sign-in programs run on their part of the state. *)
Lemma run_up {A} (p : prog authE A) w :
  run acc_handler (up p) w =
    ((run auth_handler p (Faulty (auth (store w)) (faults w))).1,
     Faulty (set_auth (fun _ => store (run auth_handler p (Faulty (auth (store w)) (faults w))).2) (store w))
       (faults (run auth_handler p (Faulty (auth (store w)) (faults w))).2)).
Proof.
  unfold up. revert w. induction p as [a|X e k IH]; intros w; cbn.
  - f_equal. destruct w as [[] fl]. done.
  - rewrite IH. cbn. destruct (auth_handler X e _) as [x [d fl]]. done.
Qed.

(** What a confirmation that answers did, whatever failed around it. *)
Lemma run_confirm s u raw w old new w' :
  run acc_handler (ConfirmEmailChange s u raw) w = (Ok (old, new), w') ->
  exists id c x, changes (store w) !! id = Some c /\ confirmable (hashToken s raw) u (anow (auth (store w))) c = true /\
    new = ecNewEmail c /\ users (auth (store w)) !! u = Some x /\ uIsActive x = true /\ uEmail x = old /\
    email_taken u new (auth (store w)) = false /\
    users (auth (store w')) = alter (moved_user new) u (users (auth (store w))).
Proof.
  unfold ConfirmEmailChange. rewrite run_mbind, run_up. cbn [fst snd].
  destruct (run_UserByID u (Faulty (auth (store w)) (faults w))) as (Es & _ & Hu). cbn [store] in *.
  destruct (run auth_handler (UserByID u) _) as [[x|e] w1]; cbn [fst snd] in *; [|done]. destruct Hu as [Hx Ha].
  rewrite run_mbind, run_call. cbn [acc_handler]. set (w2 := Faulty _ (faults w1)).
  assert (E2 : store w2 = store w). { unfold w2. cbn. rewrite Es. by destruct (store w). }
  destruct (exec _ w2) as [[email|e] w3] eqn:He; cbn [fst snd]; [|by destruct e].
  pose proof (f_equal fst He) as H1. apply exec_ok in H1 as [H1 H3]. rewrite He, E2 in H3. rewrite E2 in H1. cbn [fst snd] in H1, H3.
  pose proof (confirm_row (hashToken s raw) u (store w)) as Hc. rewrite H1 in Hc.
  destruct Hc as (id & c & Hid & Hok & -> & _ & Ht & Hst). rewrite Hst in H3.
  rewrite run_mbind, run_call. cbn [acc_handler].
  assert (Ud : forall w0, users (auth (store (exec (q_DeleteUnusedEmailChangeRequests u) w0).2)) = users (auth (store w0))).
  { intros w0. apply (exec_field (fun a => users (auth a))). done. }
  assert (Um : forall m w0, users (auth (store (exec (fun a => (Ok tt, post m a)) w0).2)) = users (auth (store w0))).
  { intros m w0. apply (exec_field (fun a => users (auth a))). done. }
  intros Hrun. exists id, c, x.
  assert (Hfin : old = uEmail x /\ new = ecNewEmail c /\
    users (auth (store w')) = alter (moved_user (ecNewEmail c)) u (users (auth (store w)))).
  { destruct (negb (IsPlaceholderEmail (uEmail x))).
    - rewrite run_mbind, run_call in Hrun. cbn [acc_handler run mret prog_mret] in Hrun. injection Hrun as <- <- <-.
      split_and!; [done|done|]. by rewrite Um, Ud, H3.
    - cbn [run mret prog_mret] in Hrun. injection Hrun as <- <- <-. split_and!; [done|done|]. by rewrite Ud, H3. }
  destruct Hfin as (-> & -> & Hus). split_and!; done.
Qed.

(** An address moves once per confirmation link, and only where the link was
    sent. A confirmation that answers found a live request of that very account
    with the token's hash; the account now has the address the request named,
    as verified, and no other account changed or has it. Among any number of
    concurrent confirmations of one link, mixed with any other requests and any
    failures of the store, at most one succeeds. *)
Theorem email_change_confirmed_once (s : AccountService) (raw : string)
    (ps ps' : list (prog accE (result acerr (string * string)))) (w w' : faulty AccDB) :
  wf_accounts (store w) ->
  Forall (fun p => (exists u, p = ConfirmEmailChange s u raw) \/
    (exists B (q : prog accE B), p = (q ≫= fun _ => mret (Err CErrInvalidEmailChangeToken)))) ps ->
  rtc (pool_step acc_handler acclock) (ps, w) (ps', w') ->
  (length (filter (fun p => succeeded answered p = true) ps') <= 1)%nat /\
  (forall u old new w2, run acc_handler (ConfirmEmailChange s u raw) w = (Ok (old, new), w2) ->
     exists id c x, changes (store w) !! id = Some c /\ ecHash c = hashToken s raw /\ ecUser c = u /\ ecUsed c = false /\
       anow (auth (store w)) < ecExpires c /\ ecNewEmail c = new /\
       users (auth (store w)) !! u = Some x /\ uEmail x = old /\
       users (auth (store w2)) = <[u := moved_user new x]> (users (auth (store w))) /\
       (forall v y, users (auth (store w)) !! v = Some y -> v <> u -> ToLower (uEmail y) <> ToLower new)).
Proof.
  intros Hwf Hps Hrun. split.
  - eapply (single_winner acc_handler (fun _ _ => True) (confirms (hashToken s raw))
      (fun w => negb (change_spent (hashToken s raw) (store w))) answered (fun w => wf_accounts (store w)));
      [| | | | |exact Hwf|exact Hrun].
    + intros X e x _. apply wf_step.
    + intros X e x _ Hx Hc. destruct (confirms_closes _ _ _ _ Hx Hc) as [-> ->]. done.
    + intros X e x _ _ Hc. apply negb_false_iff in Hc. apply negb_false_iff. eapply spent_stays; [apply stay_step|done].
    + intros x x' Hclock Hx. pose proof (acclock_wf _ _ Hclock Hx). destruct Hclock as (t & _ & ->). by split.
    + eapply Forall_impl; [exact Hps|]. intros p [(u & ->)|(B & q & ->)]; (split; [by apply ops_all|]).
      * unfold ConfirmEmailChange. apply needs_win_bind. intros [x|e]; [|done]. cbn. intros [r|e] Hr.
        -- by rewrite bool_decide_eq_true_2 in Hr.
        -- by destruct e.
      * by apply needs_win_bind.
  - intros u old new w2 Hr. destruct (run_confirm _ _ _ _ _ _ _ Hr) as (id & c & x & Hc & Hok & -> & Hx & _ & Ho & Ht & Hus).
    unfold confirmable in Hok. bools. exists id, c, x. split_and!; try done.
    + rewrite Hus. apply map_eq. intros i. destruct (decide (u = i)) as [<-|].
      * by rewrite lookup_alter_eq, Hx, lookup_insert_eq.
      * by rewrite lookup_alter_ne, lookup_insert_ne.
    + intros v y Hy Hne He. assert (Hex : email_taken u (ecNewEmail c) (auth (store w)) = true); [|congruence].
      apply existsb_exists. exists (v, y). rewrite <- list_elem_of_In, elem_of_map_to_list. split; [done|]. cbn -[ToLower].
      by rewrite bool_decide_eq_false_2, bool_decide_eq_true_2.
Qed.

(** ** Reset links *)

Lemma found_by_email a email user :
  wf_accounts a -> users (auth a) !! uID user = Some user -> ToLower email = ToLower (uEmail user) ->
  (q_GetUserByEmail email a).1 = Ok user.
Proof.
  intros Hwf Hu He. unfold q_GetUserByEmail. cbn [fst].
  destruct (filter _ _) as [|v l] eqn:Hf.
  - assert (Hin : user ∈ filter (fun u => ToLower (uEmail u) = ToLower email) (map_to_list (users (auth a))).*2).
    { apply list_elem_of_filter. split; [done|]. apply list_elem_of_fmap. exists (uID user, user).
      by rewrite elem_of_map_to_list. }
    rewrite Hf in Hin. by apply not_elem_of_nil in Hin.
  - assert (Hin : v ∈ v :: l) by left. rewrite <- Hf in Hin. apply list_elem_of_filter in Hin as [Hv Hin].
    apply list_elem_of_fmap in Hin as ([i v'] & -> & Hin%elem_of_map_to_list). cbn [snd] in *.
    assert (i = uID user) as -> by (eapply (wf_email _ Hwf); [done..|congruence]). congruence.
Qed.

Lemma find_token_hash hash m id t : find_token hash m = Ok (id, t) -> m !! id = Some t /\ kHash t = hash.
Proof.
  unfold find_token. destruct (filter _ _) as [|kv l] eqn:Hf; [done|]. intros [= ->].
  assert (Hin : (id, t) ∈ (id, t) :: l) by left. rewrite <- Hf in Hin.
  apply list_elem_of_filter in Hin as [Hh Hin]. by apply elem_of_map_to_list in Hin.
Qed.

Lemma find_token_unique hash m id t :
  m !! id = Some t -> kHash t = hash -> (forall j k, m !! j = Some k -> kHash k = hash -> j = id) ->
  find_token hash m = Ok (id, t).
Proof.
  intros Ht Hh Hu. destruct (find_token hash m) as [[j k]|e] eqn:Hf.
  - apply find_token_hash in Hf as [Hj Hk]. assert (j = id) as -> by (by eapply Hu). congruence.
  - unfold find_token in Hf. destruct (filter _ _) as [|kv l] eqn:Hfil; [|done].
    assert (Hin : (id, t) ∈ filter (fun kv => kHash kv.2 = hash) (map_to_list m)).
    { apply list_elem_of_filter. by rewrite elem_of_map_to_list. }
    rewrite Hfil in Hin. by apply not_elem_of_nil in Hin.
Qed.

Definition new_password (h : string) (u : User) : User :=
  mkUser (uID u) (uUsername u) (uEmail u) h (uRole u) (uIsActive u) (uDeleted u) (uEmailVerified u)
    (uPendingEmailVerification u).

(** Redeeming a live link on a store that answers. *)
Lemma ResetPassword_redeems s raw pw h a id row user :
  find_token (hashToken s raw) (resets a) = Ok (id, row) -> kUsed row = false -> anow (auth a) < kExpires row ->
  users (auth a) !! kUser row = Some user -> uIsActive user = true -> bcrypt_hash (a_crypto (ac s)) pw = Some h ->
  exists a', run acc_handler (ResetPassword s raw pw) (Faulty a []) = (Ok tt, Faulty a' []) /\
    resets a' = alter used_token id (resets a) /\
    users (auth a') = alter (new_password h) (kUser row) (users (auth a)) /\
    (forall sid x, asessions (auth a') !! sid = Some x -> sUserID x = kUser row -> sRevoked x <> None).
Proof.
  intros Hf Hu He Hx Ha Hh. unfold ResetPassword.
  rewrite run_mbind, run_call. cbn [acc_handler]. rewrite exec_fine. cbn [fst snd q_GetPasswordResetToken]. rewrite Hf, Hu.
  rewrite run_mbind, run_call. cbn [acc_handler on_auth auth_handler fst snd store faults].
  replace (set_auth (fun _ => auth a) a) with a by (by destruct a).
  destruct (Z.leb_spec (kExpires row) (anow (auth a))); [lia|].
  rewrite run_mbind, run_call. cbn [acc_handler on_auth auth_handler fst snd store faults]. rewrite exec_fine.
  unfold q_GetUserByID. rewrite Hx. cbn [fst snd store faults]. rewrite Ha. cbn [negb].
  replace (set_auth (fun _ => auth a) a) with a by (by destruct a).
  rewrite Hh, run_mbind, run_call. cbn [acc_handler on_auth auth_handler fst snd store faults]. rewrite exec_fine.
  cbn [fst snd store faults q_UpdateUserPassword]. rewrite run_mbind, run_call. cbn [acc_handler]. rewrite exec_fine. cbn [fst snd].
  rewrite run_mbind, run_call. cbn [acc_handler on_auth auth_handler fst snd store faults]. rewrite exec_fine. cbn [fst snd store faults].
  assert (Hrev : forall (m : gmap uuid Session) t sid x, (fun s0 => if bool_decide (sUserID s0 = kUser row) then revoke t SignedOut s0 else s0) <$> m !! sid = Some x ->
     sUserID x = kUser row -> sRevoked x <> None).
  { intros m t sid x. destruct (m !! sid : option Session) as [y|]; [|done]. cbn. intros [= <-].
    case_bool_decide as Ho; [|done]. intros _. unfold revoke. destruct (sRevoked y) eqn:Hy; [by rewrite Hy|done]. }
  destruct (a_lockStore (ac s)).
  - rewrite run_mbind, run_call. cbn [acc_handler on_auth auth_handler run mret prog_mret fst snd store faults]. rewrite exec_fine. cbn [fst snd store faults].
    eexists. split; [done|]. split_and!; [done|done|]. cbn. intros sid x. rewrite lookup_fmap. apply Hrev.
  - eexists. split; [done|]. split_and!; [done|done|]. cbn. intros sid x. rewrite lookup_fmap. apply Hrev.
Qed.

(** A link that is unknown or was used is refused, and changes nothing. *)
Lemma ResetPassword_refuses s raw pw a :
  (forall id row, find_token (hashToken s raw) (resets a) = Ok (id, row) -> kUsed row = true) ->
  run acc_handler (ResetPassword s raw pw) (Faulty a []) = (Err CErrInvalidResetToken, Faulty a []).
Proof.
  intros Hu. unfold ResetPassword. rewrite run_mbind, run_call. cbn [acc_handler]. rewrite exec_fine.
  cbn [fst snd q_GetPasswordResetToken]. destruct (find_token _ _) as [[id row]|e]; [|done]. by rewrite (Hu _ _ eq_refl).
Qed.

Lemma create_reset_row u hash expires a :
  is_Some (users (auth a) !! u) -> token_hash_taken hash (resets a) = false -> resets a !! next_id a = None ->
  q_CreatePasswordResetToken u hash expires a =
    (Ok tt, set_resets <[next_id a := mkToken u hash expires false (anow (auth a))]> (drawn_id a)).
Proof.
  intros [x Hx] Ht Hid. unfold q_CreatePasswordResetToken. cbv zeta.
  rewrite bool_decide_eq_false_2 by (by rewrite Hx). rewrite Ht, bool_decide_eq_false_2 by (rewrite Hid; by intros []). done.
Qed.

Lemma drop_unused_hash hash u m : token_hash_taken hash m = false -> token_hash_taken hash (drop_unused u m) = false.
Proof.
  intros Ht. apply not_true_iff_false. intros (k & Hin & Hk)%existsb_exists. bools.
  apply list_elem_of_In, list_elem_of_fmap in Hin as ([i k'] & -> & Hin%elem_of_map_to_list).
  apply map_lookup_filter_Some in Hin as [Hin _]. pose proof (taken_none _ _ _ _ Ht Hin) as Hf. cbv beta in Hf. cbn in *. by bools.
Qed.

(** The state after a reset was requested for an account. *)
Lemma RequestPasswordReset_mails s email a user b :
  wf_accounts a -> users (auth a) !! uID user = Some user -> uIsActive user = true ->
  ToLower (TrimSpace email) = ToLower (uEmail user) -> rand (auth a) (rdrawn (auth a)) = Some b ->
  token_hash_taken (hashToken s (base64_rawurl b)) (resets a) = false -> resets a !! next_id a = None ->
  exists a', run acc_handler (RequestPasswordReset s email) (Faulty a []) = (Ok tt, Faulty a' []) /\
    outbox a' = MailPasswordReset (uEmail user) (base64_rawurl b) :: outbox a /\
    users (auth a') = users (auth a) /\ anow (auth a') = anow (auth a) /\
    resets a' = <[next_id a := mkToken (uID user) (hashToken s (base64_rawurl b)) (anow (auth a) + ac_resetTTL s) false (anow (auth a))]>
                  (drop_unused (uID user) (resets a)).
Proof.
  intros Hwf Hu Ha He Hr Ht Hid. unfold RequestPasswordReset.
  rewrite run_mbind, run_call. cbn [acc_handler]. rewrite exec_fine. rewrite (found_by_email _ _ _ Hwf Hu He). cbn [fst snd q_GetUserByEmail].
  rewrite Ha. cbn [negb]. rewrite run_mbind. unfold newToken. rewrite run_up. unfold generateToken. rewrite run_mbind, run_call.
  cbn [auth_handler pure_op run mret prog_mret fst snd store faults]. rewrite Hr. cbn [option_map].
  rewrite run_mbind, run_call. cbn [acc_handler]. rewrite exec_fine. cbn [fst snd q_DeleteUnusedPasswordResetTokens].
  rewrite run_mbind, run_call. cbn [acc_handler on_auth auth_handler fst snd store faults].
  rewrite run_mbind, run_call. cbn [acc_handler]. rewrite exec_fine. rewrite create_reset_row.
  2:{ cbn. by rewrite Hu. } 2:{ by apply drop_unused_hash. }
  2:{ apply eq_None_not_Some. intros [k Hk]. apply map_lookup_filter_Some in Hk as [Hk _].
      change (resets a !! next_id a = Some k) in Hk. congruence. }
  cbn [fst snd]. rewrite run_mbind, run_call. cbn [acc_handler]. rewrite exec_fine. cbn [fst snd run mret prog_mret].
  eexists. split; [done|]. split_and!; done.
Qed.

(** C9. A reset link works, once, and only the newest one. Asking for a reset by
    the account's address (up to case and surrounding space) mails one link to
    the account's own address; redeemed before it expires, it sets the new
    password and leaves no session of the account alive; afterwards neither it
    nor any earlier link of the account is accepted. *)
Theorem reset_link_roundtrip (s : AccountService) (email pw h b : string) (t : time) (a : AccDB) (user : User) :
  wf_accounts a -> users (auth a) !! uID user = Some user -> uIsActive user = true ->
  ToLower (TrimSpace email) = ToLower (uEmail user) ->
  rand (auth a) (rdrawn (auth a)) = Some b -> bcrypt_hash (a_crypto (ac s)) pw = Some h ->
  token_hash_taken (hashToken s (base64_rawurl b)) (resets a) = false -> resets a !! next_id a = None ->
  anow (auth a) <= t < anow (auth a) + ac_resetTTL s ->
  let raw := base64_rawurl b in
  exists a1 a2,
    run acc_handler (RequestPasswordReset s email) (Faulty a []) = (Ok tt, Faulty a1 []) /\
    outbox a1 = MailPasswordReset (uEmail user) raw :: outbox a /\
    run acc_handler (ResetPassword s raw pw) (Faulty (set_auth (set_anow t) a1) []) = (Ok tt, Faulty a2 []) /\
    users (auth a2) = <[uID user := new_password h user]> (users (auth a)) /\
    (forall sid x, asessions (auth a2) !! sid = Some x -> sUserID x = uID user -> sRevoked x <> None) /\
    (forall raw' pw', raw' = raw \/ (exists id k, resets a !! id = Some k /\ kHash k = hashToken s raw' /\ kUser k = uID user) ->
       run acc_handler (ResetPassword s raw' pw') (Faulty a2 []) = (Err CErrInvalidResetToken, Faulty a2 [])).
Proof.
  intros Hwf Hu Ha He Hr Hh Htaken Hid Ht. cbv zeta.
  destruct (RequestPasswordReset_mails s email a user b Hwf Hu Ha He Hr Htaken Hid) as (a1 & Hrun & Hout & Hus & Hnow & Hres).
  set (tok := mkToken (uID user) (hashToken s (base64_rawurl b)) (anow (auth a) + ac_resetTTL s) false (anow (auth a))) in *.
  assert (Hfree : forall i k, resets a !! i = Some k -> kHash k <> hashToken s (base64_rawurl b)).
  { intros i k Hk. pose proof (taken_none _ _ _ _ Htaken Hk) as Hf. cbv beta in Hf. by bools. }
  assert (Hfind : find_token (hashToken s (base64_rawurl b)) (resets a1) = Ok (next_id a, tok)).
  { rewrite Hres. apply find_token_unique; [by rewrite lookup_insert_eq|done|]. intros j k.
    rewrite lookup_insert_Some. intros [[<- _]|[_ Hk]]; [done|]. intros Hkh.
    apply map_lookup_filter_Some in Hk as [Hk _]. by apply Hfree in Hk. }
  destruct (ResetPassword_redeems s (base64_rawurl b) pw h (set_auth (set_anow t) a1) (next_id a) tok user)
    as (a2 & Hrun2 & Hres2 & Hus2 & Hses); try done.
  { cbn. lia. } { cbn. by rewrite Hus. }
  exists a1, a2. split_and!; try done.
  - rewrite Hus2. cbn. rewrite Hus. apply map_eq. intros i. destruct (decide (uID user = i)) as [<-|].
    + by rewrite lookup_alter_eq, Hu, lookup_insert_eq.
    + by rewrite lookup_alter_ne, lookup_insert_ne.
  - intros raw' pw' Hold. apply ResetPassword_refuses. intros id row Hf. apply find_token_hash in Hf as [Hrow Hhash].
    rewrite Hres2 in Hrow. cbn in Hrow. apply lookup_alter_Some in Hrow as [(<- & k & Hk & ->)|[Hne Hk]]; [done|].
    rewrite Hres, lookup_insert_ne in Hk by done. apply map_lookup_filter_Some in Hk as [Hk Hdrop]. cbn in Hdrop.
    destruct Hold as [->|(id' & k' & Hk' & Hh' & Ho')]; [by apply Hfree in Hk|].
    assert (id' = id) as -> by (eapply (wf_resets _ Hwf); [done..|congruence]).
    assert (k' = row) as -> by congruence. destruct (kUsed row); [done|]. naive_solver.
Qed.

(** ** The tables stay well formed *)


(** ** The owner claim *)

Definition unclaimed (a : AccDB) : bool := match claim a with Some (_, false) => true | _ => false end.

(** Everything but the minting of a new claim token. *)
Definition no_new_claim X (e : accE X) : Prop := match e with UpsertOwnerClaimToken _ => False | _ => True end.

Definition claims X (e : accE X) : X -> bool :=
  match e in accE X return X -> bool with
  | ClaimOwnerAndCreateAdmin _ _ _ _ => answered
  | _ => fun _ => false
  end.

Lemma insert_user_claim username email hash role p v owner a :
  claim (insert_user username email hash role p v owner a).2 = claim a.
Proof. unfold insert_user. cbv zeta. by repeat case_match. Qed.

Lemma insert_user_answer username email hash role p v owner a u :
  (insert_user username email hash role p v owner a).1 = Ok u ->
  u = mkUser (next_id a) username email hash role true false v p /\ users (auth a) !! next_id a = None /\
  (owner = true -> owners a = ∅) /\
  (insert_user username email hash role p v owner a).2 =
    set_owners (fun os => if owner then os ∪ {[next_id a]} else os) (set_auth (set_users <[next_id a := u]>) (drawn_id a)).
Proof.
  unfold insert_user. cbv zeta. destruct (negb _); [done|]. destruct (name_taken _ _ _); [done|]. cbn [orb].
  case_bool_decide as Hid; [done|]. cbn [orb]. destruct (owner && _) eqn:Ho; [done|].
  destruct (bool_decide (ToLower username ∈ handles a)); [done|]. cbn [fst snd]. intros [= <-]. split_and!; try done.
  - by apply eq_None_not_Some.
  - intros ->. cbn in Ho. apply negb_false_iff in Ho. by apply bool_decide_eq_true in Ho.
Qed.

(** What a claim that wins did. *)
Lemma claim_row hash username email pw a u :
  (q_ClaimOwnerAndCreateAdmin hash username email pw a).1 = Ok u ->
  claim a = Some (hash, false) /\ claim (q_ClaimOwnerAndCreateAdmin hash username email pw a).2 = Some (hash, true) /\
  owners a = ∅ /\ owners (q_ClaimOwnerAndCreateAdmin hash username email pw a).2 = {[uID u]} /\
  uRole u = "admin"%string /\ uUsername u = username /\ uEmail u = email /\ users (auth a) !! uID u = None /\
  users (auth (q_ClaimOwnerAndCreateAdmin hash username email pw a).2) = <[uID u := u]> (users (auth a)).
Proof.
  unfold q_ClaimOwnerAndCreateAdmin. destruct (claim a) as [[h []]|] eqn:Hc; try done. case_bool_decide as Hh; [subst h|done].
  destruct (insert_user _ _ _ _ _ _ _ a) as [[v|e] a'] eqn:Hi; [|done]. cbn [fst snd]. intros [= ->].
  pose proof (f_equal fst Hi) as H1. apply insert_user_answer in H1 as (Hu & Hnew & Ho & H2). rewrite Hi in H2. cbn [snd] in H2. subst a' u.
  cbn. rewrite (Ho eq_refl). split_and!; try done. set_solver.
Qed.

Lemma closed_claim X (e : accE X) w :
  no_new_claim X e -> unclaimed (store w) = false -> unclaimed (store (acc_handler X e w).2) = false.
Proof.
  set (R := fun a a' => unclaimed a = false -> unclaimed a' = false).
  assert (Hsame : forall a a', claim a' = claim a -> R a a') by (intros a a'; unfold R, unclaimed; by intros ->).
  assert (PreOrder R) by (split; [intros a Ha; exact Ha|intros a b c Hab Hbc Ha; exact (Hbc (Hab Ha))]).
  intros Hne. change (R (store w) (store (acc_handler X e w).2)).
  destruct e; cbn [acc_handler]; try done; try (apply (exec_rel _ R); intros a); try (by apply Hsame);
    unfold q_CreateUser, q_CreatePasswordResetToken, q_CreateEmailVerificationToken, q_CreateEmailChangeRequest,
      q_ConfirmEmailChange, q_TransferInstanceOwner, q_CreateRegistrationRequest, q_CreateProviderRegistrationRequest,
      q_RejectRegistrationRequest, insert_request; cbv zeta.
  all: try (apply Hsame; by rewrite insert_user_claim).
  all: try (repeat case_match; by apply Hsame).
  - unfold q_ClaimOwnerAndCreateAdmin, R, unclaimed. destruct (claim a) as [[h []]|] eqn:Hc; cbn [snd]; rewrite ?Hc; done.
  - unfold q_ApproveRegistrationRequest. destruct (requests a !! id) as [r|]; [|by apply Hsame].
    destruct (negb _); [by apply Hsame|].
    pose proof (insert_user_claim (rgUsername r) (rgEmail r) (rgPasswordHash r) "user" (gate && bool_decide (rgProvider r = None)) (rgEmailVerified r) false a) as Hi.
    destruct (insert_user _ _ _ _ _ _ _ a) as [[u|e] a']; apply Hsame; [|done]. cbn in *. repeat case_match; done.
Qed.

(** Sign-in leaves the marker and the names alone. *)
Lemma run_up_faces {A} (p : prog authE A) w :
  same_faces (auth (store w)) (auth (store (run acc_handler (up p) w).2)) /\
  owners (store (run acc_handler (up p) w).2) = owners (store w).
Proof.
  rewrite run_up. split; [|done]. cbn.
  assert (PreOrder (fun x y : faulty AuthDB => same_faces (store x) (store y)))
    by (split; [intros x; reflexivity|intros x y z; apply transitivity]).
  apply (run_rel auth_handler (fun _ _ => True) (fun x y => same_faces (store x) (store y)) (fun X e x _ => same_faces_step X e x)
    p (Faulty (auth (store w)) (faults w))). by apply ops_all.
Qed.

(** What a claim that answers did, whatever failed around it. *)
Lemma run_ClaimOwner s token i ua w user ts w' :
  run acc_handler (ClaimOwner s token i ua) w = (Ok (user, ts), w') ->
  claim (store w) = Some (hashToken s token, false) /\ owners (store w) = ∅ /\ owners (store w') = {[uID user]} /\
  users (auth (store w)) !! uID user = None /\
  face <$> users (auth (store w')) !! uID user =
    Some (uID user, TrimSpace (ri_Username i), TrimSpace (ri_Email i), "admin"%string).
Proof.
  unfold ClaimOwner. rewrite run_mbind, run_call. cbn [acc_handler].
  assert (Es : store (exec q_GetUnclaimedOwnerClaimToken w).2 = store w) by (by apply (exec_field (fun a => a))).
  destruct (exec q_GetUnclaimedOwnerClaimToken w) as [[h|e] w1]; cbn [fst snd] in *; [|by destruct e].
  case_bool_decide as Hh; cbn [negb]; [subst h|done]. destruct (bcrypt_hash _ _) as [pw|]; [|done].
  rewrite run_mbind, run_call. cbn [acc_handler].
  destruct (exec _ w1) as [[u|e] w2] eqn:He; cbn [fst snd]; [|by destruct e].
  pose proof (f_equal fst He) as H1. apply exec_ok in H1 as [H1 H2]. rewrite He in H2. cbn [snd] in H2. rewrite Es in H1, H2.
  apply claim_row in H1 as (Hc & _ & Ho & Ho' & Hr & Hn & Hm & Hnew & Hus). rewrite <- H2 in Ho', Hus.
  rewrite run_mbind. destruct (run_up_faces (issueTokens (ac s) u ua) w2) as [Hf Hw].
  destruct (run acc_handler (up (issueTokens (ac s) u ua)) w2) as [[t|e] w3]; cbn [fst snd run mret prog_mret] in *; [|done].
  intros [= -> <- <-]. split_and!; try done; [by rewrite Hw|].
  rewrite <- lookup_fmap, Hf, lookup_fmap, Hus, lookup_insert_eq. cbn. unfold face. by rewrite Hr, Hn, Hm.
Qed.

Lemma up_ops {A} (P : forall X, accE X -> Prop) (p : prog authE A) : (forall X e, P X (Auth e)) -> ops P (up p).
Proof. intros HP. unfold up. induction p as [a|X e k IH]; cbn; auto. Qed.

(** C8. A fresh instance is claimed by one person. Of any number of concurrent
    claims, with any tokens, interleaved with any other requests that do not
    mint a claim token and with any failures of the store, at most one
    succeeds; the one that answers presented the unclaimed token, found no owner,
    and its new account is an administrator under the trimmed name and address
    and is the one owner. *)
Theorem owner_claimed_once (s : AccountService) (ps ps' : list (prog accE (result acerr (User * Tokens)))) (w w' : faulty AccDB) :
  Forall (fun p => (exists token i ua, p = ClaimOwner s token i ua) \/
    (exists B (q : prog accE B), ops no_new_claim q /\ p = (q ≫= fun _ => mret (Err CErrOwnerClaimInvalid)))) ps ->
  rtc (pool_step acc_handler acclock) (ps, w) (ps', w') ->
  (length (filter (fun p => succeeded answered p = true) ps') <= 1)%nat /\
  (forall token i ua user ts w2, run acc_handler (ClaimOwner s token i ua) w = (Ok (user, ts), w2) ->
     claim (store w) = Some (hashToken s token, false) /\ owners (store w) = ∅ /\ owners (store w2) = {[uID user]} /\
     users (auth (store w)) !! uID user = None /\
     face <$> users (auth (store w2)) !! uID user =
       Some (uID user, TrimSpace (ri_Username i), TrimSpace (ri_Email i), "admin"%string)).
Proof.
  intros Hps Hrun. split; [|by intros; eapply run_ClaimOwner].
  eapply (single_winner acc_handler no_new_claim claims (fun w => unclaimed (store w)) answered (fun _ => True));
    [done| | | | |done|exact Hrun].
  - intros X e x _ _ Hc. destruct e; try done. cbn [acc_handler claims] in *.
    destruct (exec _ x).1 as [u|] eqn:He; [|done]. apply exec_ok in He as [He ->].
    apply claim_row in He as (H1 & H2 & _). unfold unclaimed. by rewrite H1, H2.
  - intros X e x Hne _. by apply closed_claim.
  - intros x x' (t & _ & ->) _. done.
  - eapply Forall_impl; [exact Hps|]. intros p [(token & i & ua & ->)|(B & q & Hq & ->)].
    + split; [unfold ClaimOwner; walk_ops; try done; by apply up_ops|].
      unfold ClaimOwner. apply needs_win_bind. intros [h|[]]; try done. destruct (negb _); [done|].
      destruct (bcrypt_hash _ _); [|done]. cbn. intros [u|[]]; try done.
    + split; [by apply ops_bind|by apply needs_win_bind].
Qed.

(** ** Concrete accounts, and two races *)

Definition demo_accounts : AccountService := mkAccountService demo_auth Hour (24 * Hour) EmptyString.

Definition demo_admin (id name : string) : User := mkUser id name (name +:+ "@x") "pw" "admin" true false true false.

(** Ann, and three administrators of whom Bob is the owner. *)
Definition demo_users : gmap uuid User :=
  {["a"%string := demo_account; "b"%string := demo_admin "b" "bob"; "c"%string := demo_admin "c" "cas";
    "d"%string := demo_admin "d" "dee"]}.

Definition demo_acc_db (us : gmap uuid User) (rs : gmap uuid Token) (cs : gmap uuid EmailChange)
    (cl : option (string * bool)) (os : gset uuid) : AccDB :=
  mkAcc (set_users (fun _ => us) (demo_auth_db ∅)) rs ∅ cs cl os {["newsroom"%string]} ∅ ∅ [].

(** Rows checked one by one. *)
Lemma wf_checked us rs cs cl os :
  forallb (fun kv => bool_decide (uID kv.2 = kv.1) && known_role (uRole kv.2) &&
    negb (bool_decide (ToLower (uUsername kv.2) ∈ ({["newsroom"%string]} : gset string))) &&
    forallb (fun kv' => bool_decide (kv.1 = kv'.1) ||
      negb (bool_decide (ToLower (uUsername kv.2) = ToLower (uUsername kv'.2)) ||
            bool_decide (ToLower (uEmail kv.2) = ToLower (uEmail kv'.2)))) (map_to_list us)) (map_to_list us) = true ->
  forallb (fun kv => forallb (fun kv' => bool_decide (kv.1 = kv'.1) || negb (bool_decide (kHash kv.2 = kHash kv'.2)))
    (map_to_list rs)) (map_to_list rs) = true ->
  forallb (fun kv => forallb (fun kv' => bool_decide (kv.1 = kv'.1) || negb (bool_decide (ecHash kv.2 = ecHash kv'.2)))
    (map_to_list cs)) (map_to_list cs) = true ->
  forallb (fun i => bool_decide (is_Some (us !! i)) && forallb (fun j => bool_decide (i = j)) (elements os)) (elements os) = true ->
  wf_accounts (demo_acc_db us rs cs cl os).
Proof.
  rewrite !forallb_forall. intros Hu Hr Hc Ho.
  assert (Hin : forall {V} (m : gmap uuid V) i v, m !! i = Some v -> List.In (i, v) (map_to_list m))
    by (intros V m i v Hv; by apply list_elem_of_In, elem_of_map_to_list).
  assert (Hrow : forall i u, us !! i = Some u -> uID u = i /\ known_role (uRole u) = true /\
    (ToLower (uUsername u) ∉ ({["newsroom"%string]} : gset string)) /\
    forall j v, us !! j = Some v -> i <> j -> ToLower (uUsername u) <> ToLower (uUsername v) /\ ToLower (uEmail u) <> ToLower (uEmail v)).
  { intros i u Hi. specialize (Hu (i, u) (Hin _ _ _ _ Hi)). cbn [fst snd] in Hu. bools. split_and!; try done.
    intros j v Hj Hne. rewrite forallb_forall in *. match goal with H : forall x, _ -> _ = true |- _ => specialize (H (j, v) (Hin _ _ _ _ Hj)) end.
    cbn [fst snd] in *. rewrite bool_decide_eq_false_2 in * by done. cbn in *. bools. done. }
  split; cbn -[ToLower].
  - intros i u Hi. by apply Hrow.
  - intros i j u v Hi Hj He. destruct (decide (i = j)) as [|Hne]; [done|]. by destruct (proj2 (proj2 (proj2 (Hrow _ _ Hi))) _ _ Hj Hne).
  - intros i j u v Hi Hj He. destruct (decide (i = j)) as [|Hne]; [done|]. by destruct (proj2 (proj2 (proj2 (Hrow _ _ Hi))) _ _ Hj Hne).
  - intros i u Hi. by apply Hrow in Hi as (_ & ? & _).
  - intros i u Hi. by apply Hrow in Hi as (_ & _ & ? & _).
  - intros i j Hi Hj. specialize (Ho i (proj1 (list_elem_of_In _ _) (proj2 (elem_of_elements _ _) Hi))). bools.
    rewrite forallb_forall in *. match goal with H : forall x, _ -> _ = true |- _ => specialize (H j (proj1 (list_elem_of_In _ _) (proj2 (elem_of_elements _ _) Hj))) end. by bools.
  - intros i Hi. specialize (Ho i (proj1 (list_elem_of_In _ _) (proj2 (elem_of_elements _ _) Hi))). by bools.
  - intros i j t k Hi Hj He. specialize (Hr (i, t) (Hin _ _ _ _ Hi)). rewrite forallb_forall in Hr.
    specialize (Hr (j, k) (Hin _ _ _ _ Hj)). cbn [fst snd] in Hr. rewrite (bool_decide_eq_true_2 _ He), orb_false_r in Hr. by bools.
  - intros i j t k Hi Hj He. specialize (Hc (i, t) (Hin _ _ _ _ Hi)). rewrite forallb_forall in Hc.
    specialize (Hc (j, k) (Hin _ _ _ _ Hj)). cbn [fst snd] in Hc. rewrite (bool_decide_eq_true_2 _ He), orb_false_r in Hc. by bools.
Qed.

Definition demo_requests_to_change : AccDB :=
  demo_acc_db demo_users ∅ {["e"%string := mkChange "a" "new@x" "tok" (101 * Hour) false (99 * Hour)]} None {["b"%string]}.

Lemma demo_changes_wf : wf_accounts demo_requests_to_change.
Proof. apply wf_checked; vm_compute; reflexivity. Qed.

Definition demo_confirmers : list (prog accE (result acerr (string * string))) :=
  [ConfirmEmailChange demo_accounts "a" "tok"; ConfirmEmailChange demo_accounts "a" "tok"].

Definition demo_confirmed : list (prog accE (result acerr (string * string))) * faulty AccDB :=
  schedule acc_handler (concat (repeat [0; 1] 6))%nat demo_confirmers (Faulty demo_requests_to_change []).

Lemma email_change_confirmed_once_witness :
  (length (filter (fun p => succeeded answered p = true) demo_confirmed.1) <= 1)%nat /\
  length (filter (fun p => succeeded answered p = true) demo_confirmed.1) = 1%nat.
Proof.
  split; [|vm_compute; reflexivity].
  apply (email_change_confirmed_once demo_accounts "tok" demo_confirmers demo_confirmed.1
    (Faulty demo_requests_to_change []) demo_confirmed.2).
  - exact demo_changes_wf.
  - repeat (constructor; [left; by eexists|]); constructor.
  - rewrite <- surjective_pairing. apply schedule_pool.
Defined.

Definition demo_links : AccDB :=
  demo_acc_db demo_users {["e"%string := mkToken "a" "old" (101 * Hour) false (99 * Hour)]} ∅ None {["b"%string]}.

Lemma demo_links_wf : wf_accounts demo_links.
Proof. apply wf_checked; vm_compute; reflexivity. Qed.

(** Ann asks in capitals and with a space; her older link is dead afterwards. *)
Lemma reset_link_roundtrip_witness :
  exists a1 a2,
    run acc_handler (RequestPasswordReset demo_accounts " ANN@x") (Faulty demo_links []) = (Ok tt, Faulty a1 []) /\
    run acc_handler (ResetPassword demo_accounts (base64_rawurl "r") "fresh") (Faulty (set_auth (set_anow (100 * Hour + Minute)) a1) [])
      = (Ok tt, Faulty a2 []) /\
    uPasswordHash <$> users (auth a2) !! "a"%string = Some "fresh"%string /\
    run acc_handler (ResetPassword demo_accounts "old" "evil") (Faulty a2 []) = (Err CErrInvalidResetToken, Faulty a2 []).
Proof.
  destruct (reset_link_roundtrip demo_accounts " ANN@x" "fresh" "fresh" "r" (100 * Hour + Minute) demo_links demo_account
    demo_links_wf ltac:(vm_compute; reflexivity) eq_refl ltac:(vm_compute; reflexivity) eq_refl eq_refl
    ltac:(vm_compute; reflexivity) ltac:(vm_compute; reflexivity) ltac:(vm_compute; split; done))
    as (a1 & a2 & H1 & _ & H2 & H3 & _ & H4).
  exists a1, a2. split_and!; [exact H1|exact H2| |].
  - rewrite H3. vm_compute. reflexivity.
  - apply H4. right. exists "e"%string. eexists. split; [vm_compute; reflexivity|]. by split.
Defined.

(** Two people register the same name at once. *)
Definition demo_registrants : list (prog accE (result acerr (User * Tokens))) :=
  [Register demo_accounts (mkRegisterInput "Eve" "eve@x" "p") ""; Register demo_accounts (mkRegisterInput "eve" "eve@y" "q") "";
   Register demo_accounts (mkRegisterInput "Newsroom" "n@y" "q") ""].

Definition demo_registered : list (prog accE (result acerr (User * Tokens))) * faulty AccDB :=
  schedule acc_handler (concat (repeat [0; 1; 2] 12))%nat demo_registrants (Faulty demo_links []).


Definition demo_fresh : AccDB := demo_acc_db ∅ ∅ ∅ (Some ("tok"%string, false)) ∅.

Definition demo_claimers : list (prog accE (result acerr (User * Tokens))) :=
  [ClaimOwner demo_accounts "tok" (mkRegisterInput " ann " "ann@x" "p") ""; ClaimOwner demo_accounts "tok" (mkRegisterInput "eve" "eve@x" "q") ""].

Definition demo_claimed_run : list (prog accE (result acerr (User * Tokens))) * faulty AccDB :=
  schedule acc_handler (concat (repeat [0; 1] 12))%nat demo_claimers (Faulty demo_fresh []).

Lemma owner_claimed_once_witness :
  (length (filter (fun p => succeeded answered p = true) demo_claimed_run.1) <= 1)%nat /\
  length (filter (fun p => succeeded answered p = true) demo_claimed_run.1) = 1%nat /\
  owners (store demo_claimed_run.2) = {["i"%string]}.
Proof.
  split; [|split; vm_compute; reflexivity].
  apply (owner_claimed_once demo_accounts demo_claimers demo_claimed_run.1 (Faulty demo_fresh []) demo_claimed_run.2).
  - repeat (constructor; [left; do 3 eexists; reflexivity|]); constructor.
  - rewrite <- surjective_pairing. apply schedule_pool.
Defined.

(** A single-use link can be used twice at once: the token is read before the
    password is hashed and marked afterwards, with no condition, so two requests
    that both read it live both set a password, and the later one's stays. *)
Theorem reset_link_used_twice :
  let out := schedule acc_handler [0; 0; 0; 1; 1; 1; 0; 0; 0; 0; 1; 1; 1; 1]%nat
    [ResetPassword demo_accounts "old" "first"; ResetPassword demo_accounts "old" "second"] (Faulty demo_links []) in
  Forall (fun p => p = Ret (Ok tt)) out.1 /\
  uPasswordHash <$> users (auth (store out.2)) !! "a"%string = Some "second"%string.
Proof. split; [|vm_compute; reflexivity]. repeat constructor. Qed.

(** A former owner can still give the instance away: the caller's marker is
    read before the move and not again by it, so two transfers begun by one
    owner both succeed, and the second takes the marker from the account the
    first gave it to. *)
Theorem former_owner_transfers :
  let out := schedule acc_handler [0; 0; 0; 1; 1; 1; 0; 0; 0; 1; 1; 1]%nat
    [TransferOwnership demo_accounts "b" "c" "pw"; TransferOwnership demo_accounts "b" "d" "pw"] (Faulty demo_links []) in
  map (fun p => match p with Ret (Ok t) => Some (ot_New t) | _ => None end) out.1 = [Some "c"%string; Some "d"%string] /\
  owners (store out.2) = {["d"%string]}.
Proof. split; vm_compute; reflexivity. Qed.
