(* ===== verification/Quota.v ===== *)
(** * Storage quotas (src/internal/quota/service.go)

    The effective quota of an account, its usage over the files of the videos
    it owns, and the rolling 24-hour upload ledger. *)
From S2P Require Import Prelude.
Local Open Scope Z_scope.

(** ** The store *)

Record UsageEvent := mkEvent { ev_user : uuid; ev_bytes : Z; ev_created : time }.

Record QuotaDB := mkQuotaDB {
  qusers : gmap uuid (option Z);        (* users.storage_quota_bytes; None: no override *)
  qchannels : gmap uuid uuid;           (* channels.owner_id *)
  qvideos : gmap uuid uuid;             (* videos.channel_id *)
  qfiles : list (uuid * Z);             (* video_files: video_id, size_bytes *)
  qdaily : gmap uuid Z;                 (* user_daily_quotas *)
  ledger : list UsageEvent;             (* upload_usage_events *)
  qnow : time;
}.

Definition set_ledger f (d : QuotaDB) :=
  mkQuotaDB (qusers d) (qchannels d) (qvideos d) (qfiles d) (qdaily d) (f (ledger d)) (qnow d).

Abbreviation stmt A := (QuotaDB -> result dberr A * QuotaDB) (only parsing).

(** A sum cast to bigint. *)
Definition bigint (n : Z) : result dberr Z :=
  if (min_int64 <=? n) && (n <=? max_int64) then Ok n else Err ErrStore.

Definition q_GetUserByID (u : uuid) : stmt (option Z) := fun d =>
  (match qusers d !! u with Some o => Ok o | None => Err ErrNoRows end, d).

(** The file belongs to a video of one of the user's channels. *)
Definition owned_by (d : QuotaDB) (u : uuid) (f : uuid * Z) : bool :=
  match qvideos d !! f.1 with
  | Some ch => match qchannels d !! ch with Some o => bool_decide (o = u) | None => false end
  | None => false
  end.

Definition stored_bytes (u : uuid) (d : QuotaDB) : Z :=
  sumZ (fun f => if owned_by d u f then f.2 else 0) (qfiles d).

Definition q_SumUserStorageUsage (u : uuid) : stmt Z := fun d => (bigint (stored_bytes u d), d).

Definition q_RecordUploadUsageEvent (u : uuid) (b : Z) : stmt unit := fun d =>
  if bool_decide (qusers d !! u = None) then (Err ErrStore, d)
  else (Ok tt, set_ledger (fun l => l ++ [mkEvent u b (qnow d)]) d).

Definition bytes_since (u : uuid) (since : time) (d : QuotaDB) : Z :=
  sumZ (fun e => if bool_decide (ev_user e = u) && (since <? ev_created e) then ev_bytes e else 0) (ledger d).

Definition q_SumUploadUsageSince (u : uuid) (since : time) : stmt Z := fun d => (bigint (bytes_since u since d), d).

Definition q_PruneUploadUsageEvents (u : uuid) (cutoff : time) : stmt Z := fun d =>
  (Ok (Z.of_nat (length (filter (fun e => ev_user e = u /\ ev_created e < cutoff) (ledger d)))),
   set_ledger (filter (fun e => ~ (ev_user e = u /\ ev_created e < cutoff))) d).

Definition q_GetUserDailyQuota (u : uuid) : stmt Z := fun d =>
  (match qdaily d !! u with Some v => Ok v | None => Err ErrNoRows end, d).

(** [quota.Repository] and the clock. *)
Inductive quotaE : Type -> Type :=
| GetUserQuota (u : uuid) : quotaE (result dberr (option Z))
| SumUserStorageUsage (u : uuid) : quotaE (result dberr Z)
| RecordUploadUsageEvent (u : uuid) (b : Z) : quotaE (result dberr unit)
| SumUploadUsageSince (u : uuid) (since : time) : quotaE (result dberr Z)
| PruneUploadUsageEvents (u : uuid) (cutoff : time) : quotaE (result dberr Z)
| GetUserDailyQuota (u : uuid) : quotaE (result dberr Z)
| QNow : quotaE time.

Definition quota_handler : handler quotaE (faulty QuotaDB) := fun X e w =>
  match e in quotaE X return X * faulty QuotaDB with
  | GetUserQuota u => exec (q_GetUserByID u) w
  | SumUserStorageUsage u => exec (q_SumUserStorageUsage u) w
  | RecordUploadUsageEvent u b => exec (q_RecordUploadUsageEvent u b) w
  | SumUploadUsageSince u since => exec (q_SumUploadUsageSince u since) w
  | PruneUploadUsageEvents u cutoff => exec (q_PruneUploadUsageEvents u cutoff) w
  | GetUserDailyQuota u => exec (q_GetUserDailyQuota u) w
  | QNow => (qnow (store w), w)
  end.

(** ** The service *)

Inductive qerr := QErrExceeded | QErrDailyExceeded | QErrDB (e : dberr).

#[global] Instance qerr_eq_dec : EqDecision qerr.
Proof. solve_decision. Defined.

Definition dailyWindow : duration := 24 * Hour.
Definition usageRetention : duration := 2 * dailyWindow.

(** [quota.Service]: the instance defaults, static and live. *)
Record QuotaService := mkQuotaService {
  defaultBytes : Z; defaultBytesFn : option Z; dailyBytesFn : option Z;
}.

(** [Effective]: [None] is unlimited. *)
Definition Effective (override : option Z) (instanceDefault : Z) : option Z :=
  let v := match override with Some o => o | None => instanceDefault end in
  if v <=? 0 then None else Some v.

(** [Service.effectiveDefaultBytes] *)
Definition effectiveDefaultBytes (s : QuotaService) : Z :=
  match defaultBytesFn s with Some v => v | None => defaultBytes s end.

Record Status := mkStatus { UsedBytes : Z; QuotaBytes : option Z }.

Section Quota.
Context (s : QuotaService).
Abbreviation M A := (prog quotaE A) (only parsing).

(** [Service.Status] *)
Definition GetStatus (u : uuid) : M (result qerr Status) :=
  r ← call (GetUserQuota u);
  match r with
  | Err e => mret (Err (QErrDB e))
  | Ok override =>
      n ← call (SumUserStorageUsage u);
      mret (match n with
            | Err e => Err (QErrDB e)
            | Ok used => Ok (mkStatus used (Effective override (effectiveDefaultBytes s)))
            end)
  end.

(** [Service.Remaining]: the headroom, and whether the account is limited. *)
Definition Remaining (u : uuid) : M (result qerr (Z * bool)) :=
  r ← GetStatus u;
  mret (match r with
        | Err e => Err e
        | Ok st => match QuotaBytes st with
                   | None => Ok (0, false)
                   | Some q => let rem := int64 (q - UsedBytes st) in Ok (if rem <? 0 then 0 else rem, true)
                   end
        end).

(** [Service.CheckFits] *)
Definition CheckFits (u : uuid) (incoming : Z) : M (result qerr unit) :=
  r ← Remaining u;
  mret (match r with
        | Err e => Err e
        | Ok (remaining, limited) => if limited && (incoming >? remaining) then Err QErrExceeded else Ok tt
        end).

(** [Service.DailyOverride] *)
Definition DailyOverride (u : uuid) : M (result qerr (option Z)) :=
  r ← call (GetUserDailyQuota u);
  mret (match r with Err ErrNoRows => Ok None | Err e => Err (QErrDB e) | Ok v => Ok (Some v) end).

(** [Service.dailyQuotaBytes] *)
Definition dailyQuotaBytes (u : uuid) : M (result qerr (option Z)) :=
  let def := match dailyBytesFn s with Some v => v | None => 0 end in
  r ← DailyOverride u;
  mret (match r with Err e => Err e | Ok override => Ok (Effective override def) end).

(** [Service.Daily] *)
Definition Daily (u : uuid) : M (result qerr Status) :=
  r ← dailyQuotaBytes u;
  match r with
  | Err e => mret (Err e)
  | Ok None => mret (Ok (mkStatus 0 None))
  | Ok (Some quota) =>
      now ← call QNow;
      n ← call (SumUploadUsageSince u (now - dailyWindow));
      mret (match n with Err e => Err (QErrDB e) | Ok used => Ok (mkStatus used (Some quota)) end)
  end.

(** [Service.CheckDailyFits] *)
Definition CheckDailyFits (u : uuid) (incoming : Z) : M (result qerr unit) :=
  r ← Daily u;
  mret (match r with
        | Err e => Err e
        | Ok st => match QuotaBytes st with
                   | None => Ok tt
                   | Some q => if incoming >? int64 (q - UsedBytes st) then Err QErrDailyExceeded else Ok tt
                   end
        end).

(** [Service.IngestRemaining] *)
Definition IngestRemaining (u : uuid) : M (result qerr (Z * bool)) :=
  r ← Remaining u;
  match r with
  | Err e => mret (Err e)
  | Ok (remaining, limited) =>
      d ← Daily u;
      mret (match d with
            | Err e => Err e
            | Ok st => match QuotaBytes st with
                       | None => Ok (remaining, limited)
                       | Some q =>
                           let dr := int64 (q - UsedBytes st) in
                           let dr := if dr <? 0 then 0 else dr in
                           Ok (if negb limited || (dr <? remaining) then dr else remaining, true)
                       end
            end)
  end.

(** [Service.RecordUpload] *)
Definition RecordUpload (u : uuid) (b : Z) : M (result qerr unit) :=
  if b <=? 0 then mret (Ok tt) else
  r ← call (RecordUploadUsageEvent u b);
  match r with
  | Err e => mret (Err (QErrDB e))
  | Ok _ =>
      now ← call QNow;
      _ ← call (PruneUploadUsageEvents u (now - usageRetention));
      mret (Ok tt)
  end.

End Quota.

(** ** Lemmas *)

(** Stored values are in range: quotas are bigints, sizes are not negative. *)
Definition quota_ok (s : QuotaService) (d : QuotaDB) : Prop :=
  effectiveDefaultBytes s <= max_int64 /\ (forall v, dailyBytesFn s = Some v -> v <= max_int64) /\
  (forall u o, qusers d !! u = Some (Some o) -> o <= max_int64) /\ (forall u v, qdaily d !! u = Some v -> v <= max_int64) /\
  Forall (fun f => 0 <= f.2) (qfiles d) /\ Forall (fun e => 0 <= ev_bytes e) (ledger d).

Lemma sumZ_nonneg {A} (f : A -> Z) l : Forall (fun x => 0 <= f x) l -> 0 <= sumZ f l.
Proof. induction 1 as [|x l Hx _ IH]; [done|]. cbn. unfold sumZ in IH. lia. Qed.

Lemma stored_nonneg s d u : quota_ok s d -> 0 <= stored_bytes u d.
Proof.
  intros (_ & _ & _ & _ & Hf & _). apply sumZ_nonneg. eapply Forall_impl; [exact Hf|]. intros f ?. by case_match.
Qed.

Lemma since_nonneg s d u t : quota_ok s d -> 0 <= bytes_since u t d.
Proof.
  intros (_ & _ & _ & _ & _ & Hl). apply sumZ_nonneg. eapply Forall_impl; [exact Hl|]. intros e ?. by case_match.
Qed.

(** The caps that apply: [None] is unlimited. *)
Definition total_cap (s : QuotaService) (u : uuid) (d : QuotaDB) : option Z :=
  Effective (match qusers d !! u with Some o => o | None => None end) (effectiveDefaultBytes s).
Definition daily_cap (s : QuotaService) (u : uuid) (d : QuotaDB) : option Z :=
  Effective (qdaily d !! u) (match dailyBytesFn s with Some v => v | None => 0 end).

Lemma Effective_some o def q : Effective o def = Some q -> 0 < q /\ q = match o with Some o => o | None => def end.
Proof. unfold Effective. cbv zeta. case_match; [done|]. bools. intros [= <-]. done. Qed.

Lemma total_cap_range s u d q : quota_ok s d -> total_cap s u d = Some q -> 0 < q <= max_int64.
Proof.
  intros (Hd & _ & Hu & _) [Hq He]%Effective_some. split; [done|]. subst q.
  destruct (qusers d !! u) as [[o|]|] eqn:Ho; [by eapply Hu|done..].
Qed.

Lemma daily_cap_range s u d q : quota_ok s d -> daily_cap s u d = Some q -> 0 < q <= max_int64.
Proof.
  intros (_ & Hd & _ & Hu & _) [Hq He]%Effective_some. split; [done|]. subst q.
  destruct (qdaily d !! u) as [o|] eqn:Ho; [by eapply Hu|]. destruct (dailyBytesFn s); [by apply Hd|lia].
Qed.

(** Reads leave the store alone, whatever fails. *)
Definition reads X (e : quotaE X) : Prop :=
  match e with RecordUploadUsageEvent _ _ | PruneUploadUsageEvents _ _ => False | _ => True end.

Lemma run_reads {A} (p : prog quotaE A) w : ops reads p -> store (run quota_handler p w).2 = store w.
Proof.
  intros Hp. symmetry.
  assert (Hpre : PreOrder (fun w w' : faulty QuotaDB => store w = store w')) by (split; congruence).
  apply (run_rel quota_handler reads (fun w w' => store w = store w')); [|done].
  intros X e x He. destruct e; try done; cbn [quota_handler]; by apply (exec_rel _ eq).
Qed.

Lemma bigint_ok n m : bigint n = Ok m -> m = n /\ n <= max_int64.
Proof. unfold bigint. case_match; [|done]. bools. by intros [= <-]. Qed.

(** What a successful reading says. *)
Lemma run_GetStatus s u w st :
  (run quota_handler (GetStatus s u) w).1 = Ok st ->
  st = mkStatus (stored_bytes u (store w)) (total_cap s u (store w)) /\ stored_bytes u (store w) <= max_int64.
Proof.
  unfold GetStatus, total_cap. rewrite run_mbind, run_call. cbn [quota_handler].
  assert (Hs : store (exec (q_GetUserByID u) w).2 = store w) by (symmetry; by apply (exec_rel _ eq)).
  destruct (exec (q_GetUserByID u) w) as [[o|e] w1] eqn:Hg; cbn [fst snd] in *; [|done].
  pose proof (f_equal fst Hg) as Hg1. apply exec_ok in Hg1 as [Hg1 _]. cbn in Hg1.
  destruct (qusers (store w) !! u) as [o'|]; [|done]. injection Hg1 as ->.
  rewrite run_mbind, run_call. cbn [quota_handler run mret prog_mret fst].
  destruct (exec (q_SumUserStorageUsage u) w1).1 as [n|e] eqn:Hn; [|done]. intros [= <-].
  apply exec_ok in Hn as [Hn _]. cbn in Hn. rewrite Hs in Hn. apply bigint_ok in Hn as [-> ?]. done.
Qed.

Lemma run_dailyQuotaBytes s u w c :
  (run quota_handler (dailyQuotaBytes s u) w).1 = Ok c -> c = daily_cap s u (store w).
Proof.
  unfold dailyQuotaBytes, DailyOverride, daily_cap. cbv zeta. rewrite !run_mbind, run_call.
  cbn [quota_handler run mret prog_mret fst snd].
  destruct (exec (q_GetUserDailyQuota u) w).1 as [v|e] eqn:Hg.
  - apply exec_ok in Hg as [Hg _]. cbn in Hg. destruct (qdaily (store w) !! u); [|done]. injection Hg as ->. congruence.
  - destruct e; try done. apply exec_norows in Hg. cbn in Hg. destruct (qdaily (store w) !! u); congruence.
Qed.

Lemma run_Daily s u w st :
  (run quota_handler (Daily s u) w).1 = Ok st ->
  QuotaBytes st = daily_cap s u (store w) /\
  (daily_cap s u (store w) <> None -> UsedBytes st = bytes_since u (qnow (store w) - dailyWindow) (store w) /\
     UsedBytes st <= max_int64).
Proof.
  unfold Daily. rewrite run_mbind.
  assert (Hs : store (run quota_handler (dailyQuotaBytes s u) w).2 = store w).
  { apply run_reads. unfold dailyQuotaBytes, DailyOverride. walk_ops; done. }
  destruct (run quota_handler (dailyQuotaBytes s u) w) as [[c|e] w1] eqn:Hc; cbn [fst snd] in *; [|done].
  assert (c = daily_cap s u (store w)) as -> by (apply run_dailyQuotaBytes; by rewrite Hc).
  destruct (daily_cap s u (store w)) as [q|]; [|by intros [= <-]].
  rewrite run_mbind, run_call. cbn [quota_handler fst snd]. rewrite run_mbind, run_call.
  cbn [quota_handler run mret prog_mret fst]. rewrite Hs.
  destruct (exec (q_SumUploadUsageSince u _) w1).1 as [n|e] eqn:Hn; [|done]. intros [= <-]. split; [done|]. intros _.
  apply exec_ok in Hn as [Hn _]. cbn in Hn. rewrite Hs in Hn. apply bigint_ok in Hn as [-> ?]. done.
Qed.

(** The headroom under a cap. *)
Definition room (cap : option Z) (used : Z) : option Z := option_map (fun q => Z.max 0 (q - used)) cap.

(** The tighter of two headrooms. *)
Definition tightest (a b : option Z) : option Z :=
  match a, b with
  | Some x, Some y => Some (Z.min x y)
  | Some x, None => Some x
  | None, b => b
  end.

Lemma run_Remaining s u w r :
  quota_ok s (store w) -> (run quota_handler (Remaining s u) w).1 = Ok r ->
  r = match room (total_cap s u (store w)) (stored_bytes u (store w)) with Some x => (x, true) | None => (0, false) end.
Proof.
  intros Hok. unfold Remaining. rewrite run_mbind. cbn [run mret prog_mret fst].
  destruct (run quota_handler (GetStatus s u) w) as [[st|e] w1] eqn:Hst; cbn [fst snd]; [|done].
  pose proof (f_equal fst Hst) as H1. apply run_GetStatus in H1 as [-> Hmax]. cbn [QuotaBytes UsedBytes].
  pose proof (stored_nonneg s _ u Hok). destruct (total_cap s u (store w)) as [q|] eqn:Hq; cbn; [|by intros [= <-]].
  apply (total_cap_range s) in Hq; [|done]. unwrap. intros [= <-]. f_equal.
  destruct (Z.ltb_spec (q - stored_bytes u (store w)) 0); lia.
Qed.

(** Failed readings are store errors. *)
Definition db_error (e : qerr) : Prop := match e with QErrDB _ => True | _ => False end.

Lemma Remaining_error s u w e : (run quota_handler (Remaining s u) w).1 = Err e -> db_error e.
Proof.
  unfold Remaining, GetStatus. rewrite !run_mbind, run_call. cbn [run mret prog_mret fst].
  destruct (quota_handler _ (GetUserQuota u) w) as [[o|e1] w1]; cbn [fst snd run]; [|by intros [= <-]].
  rewrite run_mbind, run_call. cbn [run mret prog_mret fst].
  destruct (quota_handler _ (SumUserStorageUsage u) w1) as [[n|e1] w2]; cbn; [by case_match|by intros [= <-]].
Qed.

Lemma Daily_error s u w e : (run quota_handler (Daily s u) w).1 = Err e -> db_error e.
Proof.
  unfold Daily, dailyQuotaBytes, DailyOverride. cbv zeta. rewrite !run_mbind, run_call. cbn [run mret prog_mret fst snd].
  destruct (quota_handler _ (GetUserDailyQuota u) w) as [[o|[]] w1]; cbn [fst snd run]; try by intros [= <-].
  all: destruct (Effective _ _); [|done]; rewrite run_mbind, run_call; cbn [fst snd]; rewrite run_mbind, run_call;
    cbn [run mret prog_mret fst]; case_match; [done|by intros [= <-]].
Qed.

(** The bytes of the trailing day. *)
Definition day_bytes (u : uuid) (d : QuotaDB) : Z := bytes_since u (qnow d - dailyWindow) d.

Lemma daily_difference s u w st q :
  quota_ok s (store w) -> (run quota_handler (Daily s u) w).1 = Ok st -> daily_cap s u (store w) = Some q ->
  QuotaBytes st = Some q /\ int64 (q - UsedBytes st) = q - day_bytes u (store w).
Proof.
  intros Hok [Hc Hu]%run_Daily Hq. rewrite Hq in Hc, Hu. split; [done|]. destruct (Hu ltac:(done)) as [-> ?].
  pose proof (since_nonneg s _ u (qnow (store w) - dailyWindow) Hok). apply (daily_cap_range s) in Hq; [|done].
  unfold day_bytes. by unwrap.
Qed.

Lemma run_IngestRemaining s u w r limited :
  quota_ok s (store w) -> (run quota_handler (IngestRemaining s u) w).1 = Ok (r, limited) ->
  (if limited then Some r else None) =
    tightest (room (total_cap s u (store w)) (stored_bytes u (store w)))
             (room (daily_cap s u (store w)) (day_bytes u (store w))).
Proof.
  intros Hok. unfold IngestRemaining. rewrite run_mbind.
  destruct (run quota_handler (Remaining s u) w) as [[[r1 l1]|e] w1] eqn:Hr; cbn [fst snd]; [|done].
  assert (Hs : store w1 = store w).
  { replace w1 with (run quota_handler (Remaining s u) w).2 by (by rewrite Hr). apply run_reads.
    unfold Remaining, GetStatus. walk_ops; done. }
  pose proof (f_equal fst Hr) as H1. apply run_Remaining in H1; [|done].
  rewrite run_mbind. cbn [run mret prog_mret fst].
  destruct (run quota_handler (Daily s u) w1) as [[st|e] w2] eqn:Hd; cbn [fst snd]; [|done].
  pose proof (f_equal fst Hd) as H2. cbn [fst] in H2. rewrite <- Hs in Hok.
  destruct (daily_cap s u (store w1)) as [q|] eqn:Hq.
  + destruct (daily_difference s u w1 st q Hok H2 Hq) as [-> ->]. rewrite Hs in *. rewrite Hq. intros [= <- <-].
    destruct (room (total_cap _ _ _) _) as [x|]; injection H1 as -> ->; cbn; f_equal;
      destruct (Z.ltb_spec (q - day_bytes u (store w)) 0); cbn; try lia.
    all: case_match; bools; lia.
  + apply run_Daily in H2 as [H2 _]. rewrite H2, Hq. rewrite Hs in Hq. rewrite Hq. intros [= <- <-].
    destruct (room (total_cap _ _ _) _) as [x|]; injection H1 as -> ->; done.
Qed.

(** ** Properties *)

(** The quota gates answer exactly. Whatever store calls fail, an answer
    that is not a store error is right: bytes are admitted exactly when they fit
    under the total cap and, for the daily gate, when they fit under what is
    left of the trailing 24 hours, with no overflow at machine width; and the
    streaming cap is the tighter of the two headrooms. *)
Theorem quota_gates_exact (s : QuotaService) (u : uuid) (n : Z) (w : faulty QuotaDB) :
  quota_ok s (store w) ->
  match (run quota_handler (CheckFits s u n) w).1 with
  | Ok _ => forall x, room (total_cap s u (store w)) (stored_bytes u (store w)) = Some x -> n <= x
  | Err QErrExceeded => exists x, room (total_cap s u (store w)) (stored_bytes u (store w)) = Some x /\ x < n
  | Err QErrDailyExceeded => False
  | Err (QErrDB _) => True
  end /\
  match (run quota_handler (CheckDailyFits s u n) w).1 with
  | Ok _ => forall q, daily_cap s u (store w) = Some q -> day_bytes u (store w) + n <= q
  | Err QErrExceeded => False
  | Err QErrDailyExceeded => exists q, daily_cap s u (store w) = Some q /\ q < day_bytes u (store w) + n
  | Err (QErrDB _) => True
  end /\
  (forall r limited, (run quota_handler (IngestRemaining s u) w).1 = Ok (r, limited) ->
     (if limited then Some r else None) =
     tightest (room (total_cap s u (store w)) (stored_bytes u (store w)))
              (room (daily_cap s u (store w)) (day_bytes u (store w)))).
Proof.
  intros Hok. split; [|split].
  - unfold CheckFits. rewrite run_mbind. cbn [run mret prog_mret fst].
    destruct (run quota_handler (Remaining s u) w) as [[[r l]|e] w1] eqn:Hr; cbn [fst snd].
    + pose proof (f_equal fst Hr) as H1. apply run_Remaining in H1; [|done].
      destruct (room _ _) as [x|]; injection H1 as -> ->; cbn [andb]; [|done].
      destruct (n >? x) eqn:Hn; bools; [by exists x|]. by intros y [= <-].
    + pose proof (f_equal fst Hr) as H1. apply Remaining_error in H1. by destruct e.
  - unfold CheckDailyFits. rewrite run_mbind. cbn [run mret prog_mret fst].
    destruct (run quota_handler (Daily s u) w) as [[st|e] w1] eqn:Hr; cbn [fst snd].
    + pose proof (f_equal fst Hr) as H1. cbn [fst] in H1. destruct (daily_cap s u (store w)) as [q|] eqn:Hq.
      * destruct (daily_difference s u w st q Hok H1 Hq) as [-> ->].
        destruct (n >? q - day_bytes u (store w)) eqn:Hn; bools; [exists q; split; [done|lia]|].
        intros y [= <-]. lia.
      * apply run_Daily in H1 as [H1 _]. rewrite H1, Hq. done.
    + pose proof (f_equal fst Hr) as H1. apply Daily_error in H1. by destruct e.
  - intros r limited. by apply run_IngestRemaining.
Qed.

(** One account with a cap of 100 bytes, 40 stored, and 30 uploaded today out
    of 50 a day. *)
Definition demo_quota : QuotaService := mkQuotaService 100 None (Some 50).
Definition demo_quota_db : QuotaDB :=
  mkQuotaDB {["a"%string := None]} {["c"%string := "a"%string]} {["v"%string := "c"%string]}
    [("v"%string, 40); ("x"%string, 7)] ∅ [mkEvent "a" 20 (10 * Hour); mkEvent "a" 30 (90 * Hour)] (100 * Hour).

Lemma demo_quota_ok : quota_ok demo_quota demo_quota_db.
Proof.
  split_and!.
  - vm_compute. discriminate.
  - intros v [= <-]. vm_compute. discriminate.
  - intros u o Hu. cbn in Hu. apply lookup_singleton_Some in Hu as [_ Hu]. discriminate Hu.
  - intros u v Hv. cbn in Hv. rewrite lookup_empty in Hv. discriminate Hv.
  - repeat (constructor; [vm_compute; discriminate|]). constructor.
  - repeat (constructor; [vm_compute; discriminate|]). constructor.
Qed.

Lemma quota_gates_exact_witness :
  (run quota_handler (CheckFits demo_quota "a" 60) (Faulty demo_quota_db [])).1 = Ok tt /\
  (exists x, room (total_cap demo_quota "a" demo_quota_db) (stored_bytes "a" demo_quota_db) = Some x /\ 60 <= x) /\
  (run quota_handler (IngestRemaining demo_quota "a") (Faulty demo_quota_db [])).1 = Ok (20, true).
Proof.
  split; [vm_compute; reflexivity|]. split; [|vm_compute; reflexivity].
  pose proof (proj1 (quota_gates_exact demo_quota "a" 60 (Faulty demo_quota_db []) demo_quota_ok)) as H.
  replace (run quota_handler (CheckFits demo_quota "a" 60) (Faulty demo_quota_db [])).1 with (@Ok qerr unit tt) in H
    by (vm_compute; reflexivity).
  destruct (room (total_cap demo_quota "a" demo_quota_db) (stored_bytes "a" demo_quota_db)) as [x|] eqn:Hx;
    [|vm_compute in Hx; discriminate].
  exists x. split; [done|]. exact (H x Hx).
Defined.

(** ** Lemmas: the ledger *)

(** The part of an event that counts in a window. *)
Definition counted (u : uuid) (since : time) (e : UsageEvent) : Z :=
  if bool_decide (ev_user e = u) && (since <? ev_created e) then ev_bytes e else 0.

Lemma bytes_since_counted u t d : bytes_since u t d = sumZ (counted u t) (ledger d).
Proof. done. Qed.

Lemma sumZ_mono {A} (f g : A -> Z) l : Forall (fun x => f x <= g x) l -> sumZ f l <= sumZ g l.
Proof. induction 1 as [|x l Hx _ IH]; [done|]. cbn. unfold sumZ in IH. lia. Qed.

Lemma sumZ_filter {A} (P : A -> Prop) `{!forall x, Decision (P x)} (f : A -> Z) l :
  sumZ f (filter P l) = sumZ (fun x => if bool_decide (P x) then f x else 0) l.
Proof.
  induction l as [|x l IH]; [done|]. rewrite filter_cons. cbn [sumZ foldr]. unfold sumZ in *.
  destruct (decide (P x)) as [Hx|Hx].
  - rewrite bool_decide_eq_true_2 by done. cbn. by rewrite IH.
  - rewrite bool_decide_eq_false_2 by done. rewrite IH. lia.
Qed.

(** A later window start counts no more. *)
Lemma counted_later u t t' e : t <= t' -> 0 <= ev_bytes e -> counted u t' e <= counted u t e.
Proof.
  intros Ht He. unfold counted. destruct (bool_decide _); [|done]. cbn [andb].
  destruct (Z.ltb_spec t' (ev_created e)), (Z.ltb_spec t (ev_created e)); lia.
Qed.

(** What recording an upload can do to the ledger, whatever fails: nothing, or
    append the event, and possibly drop events older than the retention. *)
Lemma run_RecordUpload u b w :
  ledger (store (run quota_handler (RecordUpload u b) w).2) = ledger (store w) \/
  exists l, (l = [] \/ l = [mkEvent u b (qnow (store w))]) /\
    (ledger (store (run quota_handler (RecordUpload u b) w).2) = ledger (store w) ++ l \/
     ledger (store (run quota_handler (RecordUpload u b) w).2) =
       filter (fun e => ~ (ev_user e = u /\ ev_created e < qnow (store w) - usageRetention)) (ledger (store w) ++ l)).
Proof.
  unfold RecordUpload. case_match; [by left|]. rewrite run_mbind, run_call. cbn [quota_handler].
  assert (H1 : exists l, (l = [] \/ l = [mkEvent u b (qnow (store w))]) /\
    ledger (store (exec (q_RecordUploadUsageEvent u b) w).2) = ledger (store w) ++ l /\
    qnow (store (exec (q_RecordUploadUsageEvent u b) w).2) = qnow (store w)).
  { assert (Hd : forall d, ledger (q_RecordUploadUsageEvent u b d).2 = ledger d ++ [] \/
      ledger (q_RecordUploadUsageEvent u b d).2 = ledger d ++ [mkEvent u b (qnow d)]).
    { intros d. unfold q_RecordUploadUsageEvent. case_bool_decide; [left; by rewrite app_nil_r|by right]. }
    assert (Hn : forall d, qnow (q_RecordUploadUsageEvent u b d).2 = qnow d).
    { intros d. unfold q_RecordUploadUsageEvent. by case_bool_decide. }
    destruct w as [d fl]. unfold exec. destruct fl as [|[] fl]; cbn [store faults snd];
      try (destruct (Hd d) as [->| ->]; rewrite Hn; eauto).
    exists []. rewrite app_nil_r. eauto. }
  destruct H1 as (l & Hl & Hled & Hnow). right. exists l. split; [done|].
  destruct (exec (q_RecordUploadUsageEvent u b) w) as [[[]|e] w1]; cbn [fst snd run mret prog_mret] in *; [|by left].
  rewrite run_mbind, run_call. cbn [quota_handler fst snd]. rewrite run_mbind, run_call. cbn [quota_handler run mret prog_mret snd].
  rewrite Hnow. destruct w1 as [d fl]. unfold exec. destruct fl as [|[] fl]; cbn [store faults snd] in *;
    [right|right|by left|right]; cbn; by rewrite Hled.
Qed.

(** Recording adds at most the upload to what any window counts. *)
Lemma record_adds_at_most u b w t :
  0 <= b -> Forall (fun e => 0 <= ev_bytes e) (ledger (store w)) ->
  bytes_since u t (store (run quota_handler (RecordUpload u b) w).2) <= bytes_since u t (store w) + b.
Proof.
  intros Hb Hl. rewrite !bytes_since_counted.
  assert (Hone : forall l, l = [] \/ l = [mkEvent u b (qnow (store w))] -> sumZ (counted u t) l <= b).
  { intros l [->| ->]; [done|]. cbn. unfold counted. cbn. case_match; lia. }
  assert (Hpos : forall l, l = [] \/ l = [mkEvent u b (qnow (store w))] -> Forall (fun e => 0 <= ev_bytes e) l).
  { intros l [->| ->]; repeat constructor. done. }
  destruct (run_RecordUpload u b w) as [->| (l & Hcase & [->| ->])]; [lia|..].
  - rewrite sumZ_app. specialize (Hone l Hcase). lia.
  - rewrite sumZ_filter. etransitivity.
    + apply (sumZ_mono _ (counted u t)). apply Forall_app. split.
      * eapply Forall_impl; [exact Hl|]. intros e He. cbn beta in *. unfold counted. destruct (bool_decide (~ _)); [done|]. case_match; lia.
      * eapply Forall_impl; [exact (Hpos l Hcase)|]. intros e He. cbn beta in *. unfold counted. destruct (bool_decide (~ _)); [done|]. case_match; lia.
    + rewrite sumZ_app. specialize (Hone l Hcase). lia.
Qed.

Definition set_qnow (t : time) (d : QuotaDB) : QuotaDB :=
  mkQuotaDB (qusers d) (qchannels d) (qvideos d) (qfiles d) (qdaily d) (ledger d) t.

(** Pruning drops nothing a current window counts. *)
Lemma prune_keeps u T now e :
  now <= T ->
  (if bool_decide (~ (ev_user e = u /\ ev_created e < now - usageRetention)) then counted u (T - dailyWindow) e else 0) =
    counted u (T - dailyWindow) e.
Proof.
  intros HT. case_bool_decide as Hp; [done|]. unfold counted. destruct (bool_decide (ev_user e = u)); [|done]. cbn [andb].
  destruct (Z.ltb_spec (T - dailyWindow) (ev_created e)); [|done]. exfalso. destruct Hp as [_ Hp].
  assert (0 < dailyWindow) by (vm_compute; reflexivity). unfold usageRetention in *. lia.
Qed.

(** With the store answering, recording adds exactly the upload to every window
    that contains now: nothing a window still counts is pruned. *)
Lemma record_adds_exactly u b d T :
  0 < b -> qusers d !! u <> None -> qnow d <= T < qnow d + dailyWindow ->
  bytes_since u (T - dailyWindow) (store (run quota_handler (RecordUpload u b) (Faulty d [])).2) =
    bytes_since u (T - dailyWindow) d + b.
Proof.
  intros Hb Hu HT. unfold RecordUpload. destruct (Z.leb_spec b 0); [lia|]. rewrite run_mbind, run_call.
  cbn [quota_handler]. rewrite exec_fine. unfold q_RecordUploadUsageEvent. rewrite bool_decide_eq_false_2 by done.
  cbn [fst snd]. rewrite run_mbind, run_call. cbn [quota_handler fst snd store]. rewrite run_mbind, run_call.
  cbn [quota_handler run mret prog_mret snd]. rewrite exec_fine. cbn [snd store]. rewrite !bytes_since_counted.
  cbn [q_PruneUploadUsageEvents set_ledger ledger qnow snd]. rewrite sumZ_filter, sumZ_app. f_equal.
  - apply Z.le_antisymm; apply sumZ_mono, Forall_forall; intros e _; by rewrite prune_keeps by lia.
  - cbn [sumZ foldr]. rewrite prune_keeps by lia. unfold counted. cbn [ev_user ev_created ev_bytes].
    rewrite bool_decide_eq_true_2 by done. cbn [andb]. destruct (Z.ltb_spec (T - dailyWindow) (qnow d)); lia.
Qed.

(** The rolling day stays within its cap. When an upload passed the daily
    check and is recorded at any later moment (nothing else having been
    recorded in between), then from that moment on no trailing 24-hour window
    counts more than the cap, whichever store calls fail; and with the store
    answering, every window that contains the upload counts it in full, since
    pruning never drops an event that a window still needs. *)
Theorem daily_window_respected (s : QuotaService) (u : uuid) (n q : Z) (w w1 : faulty QuotaDB) (t : time) :
  quota_ok s (store w) -> 0 < n -> daily_cap s u (store w) = Some q ->
  run quota_handler (CheckDailyFits s u n) w = (Ok tt, w1) -> qnow (store w) <= t ->
  (forall fl T, t <= T ->
     bytes_since u (T - dailyWindow)
       (store (run quota_handler (RecordUpload u n) (Faulty (set_qnow t (store w1)) fl)).2) <= q) /\
  (forall T, qusers (store w) !! u <> None -> t <= T < t + dailyWindow ->
     bytes_since u (T - dailyWindow)
       (store (run quota_handler (RecordUpload u n) (Faulty (set_qnow t (store w1)) [])).2) =
     bytes_since u (T - dailyWindow) (store w) + n).
Proof.
  intros Hok Hn Hq Hrun Ht.
  assert (Hs : store w1 = store w).
  { replace w1 with (run quota_handler (CheckDailyFits s u n) w).2 by (by rewrite Hrun). apply run_reads.
    unfold CheckDailyFits, Daily, dailyQuotaBytes, DailyOverride. walk_ops; done. }
  assert (Hfits : day_bytes u (store w) + n <= q).
  { unfold CheckDailyFits in Hrun. rewrite run_mbind in Hrun. cbn [run mret prog_mret] in Hrun.
    destruct (run quota_handler (Daily s u) w) as [[st|e] w2] eqn:Hd; cbn [fst snd] in Hrun; [|done].
    destruct (daily_difference s u w st q Hok ltac:(by rewrite Hd) Hq) as [Hqs Hdiff].
    rewrite Hqs, Hdiff in Hrun. destruct (n >? _) eqn:Hgt; [done|]. bools. lia. }
  rewrite Hs. destruct Hok as (_ & _ & _ & _ & _ & Hl). split.
  - intros fl T HT. etransitivity; [apply record_adds_at_most; [lia|exact Hl]|]. cbn [store].
    enough (bytes_since u (T - dailyWindow) (set_qnow t (store w)) <= day_bytes u (store w)) by lia.
    unfold day_bytes. rewrite !bytes_since_counted. cbn [ledger set_qnow]. apply sumZ_mono.
    eapply Forall_impl; [exact Hl|]. intros e He. apply counted_later; [lia|done].
  - intros T Hu HT. by rewrite record_adds_exactly.
Qed.

Lemma daily_window_respected_witness :
  bytes_since "a" (101 * Hour - dailyWindow)
    (store (run quota_handler (RecordUpload "a" 20) (Faulty (set_qnow (101 * Hour) demo_quota_db) [])).2) = 50 /\
  bytes_since "a" (101 * Hour - dailyWindow)
    (store (run quota_handler (RecordUpload "a" 20) (Faulty (set_qnow (101 * Hour) demo_quota_db) [])).2) <= 50.
Proof.
  split; [vm_compute; reflexivity|].
  refine (proj1 (daily_window_respected demo_quota "a" 20 50 (Faulty demo_quota_db []) (Faulty demo_quota_db []) (101 * Hour)
    demo_quota_ok _ _ _ _) [] (101 * Hour) _).
  - reflexivity.
  - vm_compute. reflexivity.
  - vm_compute. reflexivity.
  - vm_compute. discriminate.
  - reflexivity.
Defined.
