(* ===== verification/RateLimit.v ===== *)
(** * Fixed-window rate limiting (src/internal/ratelimit)

    The limiter against the interface [Counter], the in-process counter, and the
    Redis counter over a pipeline that is a parameter. *)
From S2P Require Import Prelude.
Local Open Scope Z_scope.

(** ** The interface *)

(** [ratelimit.Counter]: increment a key (created with the window's lifetime on
    first use); the new count and what is left of the window. The clock is an
    argument. *)
Class Counter (S : Type) := Incr : time -> string -> duration -> S -> result dberr (Z * duration) * S.

(** The count and the end of the window that is open for a key. *)
Class CounterView (S : Type) := open_window : S -> time -> string -> option (Z * time).

(** What a counter promises: it continues the open window or opens a new one,
    and touches no other key's window. *)
Class CounterLaws (S : Type) `{!Counter S, !CounterView S} : Prop := {
  incr_answer : forall now key window s,
    (Incr now key window s).1 =
      Ok (match open_window s now key with
          | Some (c, e) => (int64 (c + 1), e - now)
          | None => (1, window)
          end);
  incr_window : forall now key window s t,
    now <= t -> 0 < window ->
    open_window (Incr now key window s).2 t key =
      (let '(c, e) := match open_window s now key with
                      | Some (c, e) => (int64 (c + 1), e)
                      | None => (1, now + window)
                      end in if t <? e then Some (c, e) else None);
  incr_other : forall now key window s t k,
    now <= t -> k <> key -> open_window (Incr now key window s).2 t k = open_window s t k;
}.

(** ** The limiter *)

Record Limiter := mkLimiter { l_limit : Z; l_window : duration }.

Record Result := mkResult {
  r_Allowed : bool; r_Limit : Z; r_Remaining : Z; r_Reset : duration; r_RetryAfter : duration;
}.

Section Limiter.
Context {S : Type} `{!Counter S}.

(** [Limiter.Allow] *)
Definition Allow (l : Limiter) (now : time) (key : string) (s : S) : result dberr Result * S :=
  match Incr now key (l_window l) s with
  | (Err e, s') => (Err e, s')
  | (Ok (count, ttl), s') =>
      let ttl := if ttl <=? 0 then l_window l else ttl in
      let remaining := int64 (l_limit l - count) in
      let rem := if remaining >? 0 then remaining else 0 in
      (Ok (if count <=? l_limit l then mkResult true (l_limit l) rem ttl 0
           else mkResult false (l_limit l) rem ttl ttl), s')
  end.

(** A sequence of requests, each with its moment and key. *)
Fixpoint serve (l : Limiter) (reqs : list (time * string)) (s : S) : list (result dberr Result) * S :=
  match reqs with
  | [] => ([], s)
  | (t, k) :: rest =>
      let '(r, s1) := Allow l t k s in
      let '(rs, s2) := serve l rest s1 in (r :: rs, s2)
  end.

End Limiter.

(** ** The in-process counter *)

Record memEntry := mkEntry { e_count : Z; e_expires : time }.
Record MemoryCounter := mkMemory { entries : gmap string memEntry; lastSweep : time }.

(** [NewMemoryCounter]; the zero [time.Time] is far in the past. *)
Definition NewMemoryCounter : MemoryCounter := mkMemory ∅ min_int64.

(** The opportunistic sweep of [Incr]: expired keys go, at most once a window. *)
Definition sweep (now : time) (window : duration) (m : MemoryCounter) : MemoryCounter :=
  if window <=? now - lastSweep m
  then mkMemory (filter (fun kv => now < e_expires kv.2) (entries m)) now
  else m.

(** [MemoryCounter.Incr] *)
#[global] Instance MemoryCounter_Incr : Counter MemoryCounter := fun (now : time) (key : string) (window : duration) (m : MemoryCounter) =>
  let m1 := sweep now window m in
  let fresh := mkEntry 0 (now + window) in
  let e := match entries m1 !! key with
           | Some e => if negb (now <? e_expires e) then fresh else e
           | None => fresh
           end in
  let e := mkEntry (int64 (e_count e + 1)) (e_expires e) in
  (Ok (e_count e, e_expires e - now), mkMemory (<[key := e]> (entries m1)) (lastSweep m1)).

(** ** The Redis counter *)

Section Redis.
Context {R : Type} (pipeline : string -> duration -> R -> result dberr (Z * duration) * R).

(** [RedisCounter.Incr]: one pipeline of INCR, EXPIRE NX and PTTL, whose answers
    are the new count and the remaining lifetime. *)
Definition RedisIncr (key : string) (window : duration) (r : R) : result dberr (Z * duration) * R :=
  match pipeline ("ratelimit:" +:+ key) window r with
  | (Err e, r') => (Err e, r')
  | (Ok (incr, pttl), r') => (Ok (incr, if pttl <? 0 then window else pttl), r')
  end.

End Redis.

(** ** Lemmas: the in-process counter *)

#[global] Instance MemoryCounter_view : CounterView MemoryCounter := fun (m : MemoryCounter) (t : time) (k : string) =>
  match entries m !! k with
  | Some e => if t <? e_expires e then Some (e_count e, e_expires e) else None
  | None => None
  end.

(** Sweeping drops only closed windows. *)
Lemma sweep_view now window (m : MemoryCounter) t k :
  now <= t -> open_window (sweep now window m) t k = open_window m t k.
Proof.
  intros Ht. unfold sweep. case_match; [|done]. unfold open_window, MemoryCounter_view. cbn. rewrite map_lookup_filter.
  destruct (entries m !! k) as [e|]; [|done]. cbn. unfold guard. case_decide; cbn; [done|].
  destruct (Z.ltb_spec t (e_expires e)); [lia|done].
Qed.

#[global] Instance MemoryCounter_laws : CounterLaws MemoryCounter.
Proof.
  split.
  - intros now key window m. rewrite <- (sweep_view now window m now key) by lia. unfold Incr, MemoryCounter_Incr. cbv zeta.
    set (m1 := sweep now window m). cbn [fst]. unfold open_window, MemoryCounter_view.
    destruct (entries m1 !! key) as [e|]; [|cbn; do 2 f_equal; lia].
    destruct (now <? e_expires e); cbn; [done|]. do 2 f_equal. lia.
  - intros now key window m t Ht Hw. rewrite <- (sweep_view now window m now key) by lia.
    unfold Incr, MemoryCounter_Incr. cbv zeta.
    set (m1 := sweep now window m). cbn [snd]. unfold open_window, MemoryCounter_view. cbn [entries].
    rewrite lookup_insert_eq. destruct (entries m1 !! key) as [e|]; [|done].
    destruct (now <? e_expires e); done.
  - intros now key window m t k Ht Hk. rewrite <- (sweep_view now window m t k) by lia.
    unfold Incr, MemoryCounter_Incr. cbv zeta.
    set (m1 := sweep now window m). cbn [snd]. unfold open_window, MemoryCounter_view. cbn [entries].
    by rewrite lookup_insert_ne.
Qed.

(** ** Lemmas: the limiter against the interface *)

(** The requests and the answers of one key. *)
Definition times_of (key : string) (reqs : list (time * string)) : list time :=
  (filter (fun r => r.2 = key) reqs).*1.
Definition answers_of {A} (key : string) (reqs : list (time * string)) (rs : list A) : list A :=
  (filter (fun p => p.1.2 = key) (zip reqs rs)).*2.

(** The answer to the n-th request of a window that ends at [e]. *)
Definition verdict (l : Limiter) (n : Z) (e t : time) : result dberr Result :=
  Ok (mkResult (n <=? l_limit l) (l_limit l) (Z.max 0 (l_limit l - n)) (e - t)
        (if n <=? l_limit l then 0 else e - t)).

(** Requests in order from [t] on. *)
Fixpoint ordered_from (t : time) (reqs : list (time * string)) : Prop :=
  match reqs with
  | [] => True
  | (t', _) :: rest => t <= t' /\ ordered_from t' rest
  end.

Section Client.
Context {S : Type} `{!Counter S, !CounterView S, !CounterLaws S} (l : Limiter) (key : string).
Context (Hlimit : 0 <= l_limit l <= max_int64) (Hwindow : 0 < l_window l).

(** Allowing is counting. *)
Lemma Allow_verdict now s n ttl :
  (Incr now key (l_window l) s).1 = Ok (n, ttl) -> 0 < ttl -> 0 <= n <= max_int64 ->
  Allow l now key s = (verdict l n (now + ttl) now, (Incr now key (l_window l) s).2).
Proof.
  intros Hi Ht Hn. unfold Allow, verdict. destruct (Incr now key (l_window l) s) as [r s']. cbn in Hi. subst r. cbn [snd].
  destruct (Z.leb_spec ttl 0); [lia|]. unfold max_int64, min_int64 in *. unwrap.
  replace (now + ttl - now) with ttl by lia. rewrite Z.gtb_ltb.
  destruct (Z.leb_spec n (l_limit l)), (Z.ltb_spec 0 (l_limit l - n)); do 3 f_equal; lia.
Qed.

Lemma serve_open e : forall reqs s t0 c,
  (forall t, t0 <= t -> open_window s t key = if t <? e then Some (c, e) else None) ->
  ordered_from t0 reqs -> Forall (fun r => r.1 < e) reqs -> 0 <= c -> c + Z.of_nat (length reqs) <= max_int64 ->
  answers_of key reqs (serve l reqs s).1 =
    imap (fun i t => verdict l (c + 1 + Z.of_nat i) e t) (times_of key reqs).
Proof.
  induction reqs as [|[t k] reqs IH]; intros s t0 c Hs Hord Hlt Hc Hmax; [done|].
  destruct Hord as [Ht Hord]. apply Forall_cons in Hlt as [Hte Hlt]. cbn [fst length] in *.
  cbn [serve]. unfold answers_of, times_of in *. destruct (decide (k = key)) as [->|Hk].
  - assert (Hi : (Incr t key (l_window l) s).1 = Ok (c + 1, e - t)).
    { rewrite incr_answer, Hs by done. destruct (Z.ltb_spec t e); [|lia]. by rewrite int64_id by (unfold in_int64, max_int64, min_int64 in *; lia). }
    rewrite (Allow_verdict t s (c + 1) (e - t)) by (done || lia).
    destruct (serve l reqs _) as [rs s2] eqn:Hserve. cbn [fst zip zip_with].
    rewrite !filter_cons_True by done. rewrite !fmap_cons, imap_cons. cbn [fst snd]. f_equal; [f_equal; lia|].
    pose proof (IH (Incr t key (l_window l) s).2 t (c + 1)) as IHs. rewrite Hserve in IHs. cbn [fst] in IHs.
    rewrite IHs; [|clear IHs..]; try lia; try done.
    + apply imap_ext. intros i x Hx. cbn. f_equal. lia.
    + intros t' Ht'. rewrite incr_window by (lia || done). rewrite Hs by done.
      destruct (Z.ltb_spec t e); [|lia]. by rewrite int64_id by (unfold in_int64, max_int64, min_int64 in *; lia).
  - destruct (Allow l t k s) as [r s1] eqn:Ha.
    assert (Hs1 : s1 = (Incr t k (l_window l) s).2).
    { unfold Allow in Ha. destruct (Incr t k (l_window l) s) as [[[n ttl]|er] s']; by injection Ha. }
    pose proof (IH s1 t c) as IHs. destruct (serve l reqs s1) as [rs s2]. cbn [fst zip zip_with] in *.
    rewrite !filter_cons_False by done. apply IHs; try done; [|lia].
    intros t' Ht'. subst s1. rewrite incr_other by (congruence || done). apply Hs. lia.
Qed.

End Client.

(** ** Properties *)

(** The limiter is a fixed window of exactly [limit] requests. From the
    request that opens a key's window until the window ends, with requests of
    any other keys in between, the key's n-th request is allowed exactly when
    n <= limit; every answer reports the budget left and the time to the end of
    the window, and a refused client is told to wait exactly that long. Proved
    for any counter that keeps the interface's promises. *)
Theorem limiter_fixed_window {S : Type} `{!Counter S, !CounterView S, !CounterLaws S} (l : Limiter) (key : string)
    (t0 : time) (s : S) (reqs : list (time * string)) :
  0 <= l_limit l <= max_int64 -> 0 < l_window l -> open_window s t0 key = None ->
  ordered_from t0 reqs -> Forall (fun r => r.1 < t0 + l_window l) reqs ->
  1 + Z.of_nat (length reqs) <= max_int64 ->
  answers_of key ((t0, key) :: reqs) (serve l ((t0, key) :: reqs) s).1 =
    imap (fun i t => verdict l (Z.of_nat i + 1) (t0 + l_window l) t) (times_of key ((t0, key) :: reqs)).
Proof.
  intros Hl Hw Hnone Hord Hlt Hmax. cbn [serve].
  assert (Hi : (Incr t0 key (l_window l) s).1 = Ok (1, l_window l)) by (by rewrite incr_answer, Hnone).
  rewrite (Allow_verdict l key Hl t0 s 1 (l_window l)) by (done || lia).
  pose proof (serve_open l key Hl Hw (t0 + l_window l) reqs (Incr t0 key (l_window l) s).2 t0 1) as Hs.
  destruct (serve l reqs _) as [rs s2]. unfold answers_of, times_of in *. cbn [fst zip zip_with] in *.
  rewrite !filter_cons_True by done. rewrite !fmap_cons, imap_cons. cbn [fst snd]. f_equal.
  rewrite Hs; try done; try lia.
  - apply imap_ext. intros i x Hx. cbn. f_equal. lia.
  - intros t Ht. rewrite incr_window, Hnone by (lia || done). done.
Qed.

Lemma limiter_fixed_window_witness :
  answers_of "a" [(0, "a"); (1, "b"); (2, "a"); (3, "a")]%string
    (serve (mkLimiter 2 60) [(0, "a"); (1, "b"); (2, "a"); (3, "a")]%string NewMemoryCounter).1 =
  [Ok (mkResult true 2 1 60 0); Ok (mkResult true 2 0 58 0); Ok (mkResult false 2 0 57 57)].
Proof.
  refine (eq_trans (limiter_fixed_window (mkLimiter 2 60) "a" 0 NewMemoryCounter [(1, "b"); (2, "a"); (3, "a")]%string
    _ _ _ _ _ _) _).
  - cbn. unfold max_int64. lia.
  - cbn. lia.
  - reflexivity.
  - cbn. lia.
  - repeat (constructor; [reflexivity|]). constructor.
  - cbn. unfold max_int64. lia.
  - vm_compute. reflexivity.
Defined.
