(* ===== verification/JobLoop.v ===== *)
(** * The worker loop (src/internal/jobloop/jobloop.go)

    The schedule every background worker runs on: on each tick, every due pass
    in order, with a ladder of delays for a pass that keeps failing. The work of
    a pass is a parameter over a world [W]; the ticker and the context are the
    list of ticks that are delivered. *)
From S2P Require Import Prelude Retry.
Local Open Scope Z_scope.

Definition DefaultBackoffMax : duration := 10 * Minute.

Section JobLoop.
Context {W : Type}.

(** [Pass]; [p_DoneMsg] says whether a success message is set. *)
Record Pass := mkPass { p_Run : time -> W -> result dberr Z * W; p_DoneMsg : bool; p_Drain : bool }.

(** [Loop]; [lp_Leader] is [None] when the loop is not gated. *)
Record Loop := mkLoop { lp_Interval : duration; lp_Leader : option (time -> bool); lp_BackoffMax : duration }.

(** [passState]; the zero time is in the past of every tick. *)
Record passState := mkPassState { failures : Z; skipUntil : time }.
Definition zero_time : time := min_int64.
Definition fresh : passState := mkPassState 0 zero_time.

(** What is logged about the pass at a position. *)
Inductive event :=
| Warned (i : nat) (failures : Z) (delay : duration)
| Recovered (i : nat) (failures : Z)
| Done (i : nat) (count : Z).

(** The loop of [Pass.run]: the total handled and the failure, if any. The fuel
    bounds the repeats of a draining pass. *)
Fixpoint repeat_run (fuel : nat) (p : Pass) (tick : time) (total : Z) (w : W) : option (Z * option dberr * W) :=
  match fuel with
  | O => None
  | S f =>
      match p_Run p tick w with
      | (Err e, w') => Some (total, Some e, w')
      | (Ok n, w') =>
          let total := int64 (total + n) in
          if negb (p_Drain p) || (n =? 0) then Some (total, None, w') else repeat_run f p tick total w'
      end
  end.

(** [Pass.run] *)
Definition run_pass (fuel : nat) (i : nat) (p : Pass) (tick : time) (w : W) : option (option dberr * list event * W) :=
  match repeat_run fuel p tick 0 w with
  | None => None
  | Some (total, failure, w') =>
      Some (failure, if (total >? 0) && p_DoneMsg p then [Done i total] else [], w')
  end.

Definition backoffMax (l : Loop) : duration := if lp_BackoffMax l <=? 0 then DefaultBackoffMax else lp_BackoffMax l.

(** One turn of the inner loop of [Loop.Run]: a pass and its state. *)
Definition step_pass (fuel : nat) (l : Loop) (tick : time) (i : nat) (p : Pass) (st : passState) (w : W)
    : option (passState * list event * W) :=
  if tick <? skipUntil st then Some (st, [], w) else
  match run_pass fuel i p tick w with
  | None => None
  | Some (Some _, logged, w') =>
      let n := int64 (failures st + 1) in
      let delay := Backoff n (lp_Interval l) (backoffMax l) in
      Some (mkPassState n (tick + delay), logged ++ [Warned i n delay], w')
  | Some (None, logged, w') =>
      if failures st >? 0 then Some (fresh, logged ++ [Recovered i (failures st)], w') else Some (st, logged, w')
  end.

(** The inner loop over the passes, from position [i]. *)
Fixpoint step_passes (fuel : nat) (l : Loop) (tick : time) (i : nat) (ps : list Pass) (sts : list passState) (w : W)
    : option (list passState * list event * W) :=
  match ps, sts with
  | p :: ps', st :: sts' =>
      match step_pass fuel l tick i p st w with
      | None => None
      | Some (st', ev, w') =>
          match step_passes fuel l tick (S i) ps' sts' w' with
          | None => None
          | Some (sts'', ev', w'') => Some (st' :: sts'', ev ++ ev', w'')
          end
      end
  | _, _ => Some ([], [], w)
  end.

(** One tick: a follower skips it. *)
Definition on_tick (fuel : nat) (l : Loop) (ps : list Pass) (tick : time) (sts : list passState) (w : W)
    : option (list passState * list event * W) :=
  match lp_Leader l with
  | Some isLeader => if negb (isLeader tick) then Some (sts, [], w) else step_passes fuel l tick 0 ps sts w
  | None => step_passes fuel l tick 0 ps sts w
  end.

(** [Loop.Run] over the ticks delivered before the context ends. *)
Fixpoint run_ticks (fuel : nat) (l : Loop) (ps : list Pass) (ticks : list time) (sts : list passState) (w : W)
    : option (list passState * list event * W) :=
  match ticks with
  | [] => Some (sts, [], w)
  | t :: rest =>
      match on_tick fuel l ps t sts w with
      | None => None
      | Some (sts', ev, w') =>
          match run_ticks fuel l ps rest sts' w' with
          | None => None
          | Some (sts'', ev', w'') => Some (sts'', ev ++ ev', w'')
          end
      end
  end.

Definition Run (fuel : nat) (l : Loop) (ps : list Pass) (ticks : list time) (w : W)
    : option (list passState * list event * W) :=
  run_ticks fuel l ps ticks (repeat fresh (length ps)) w.

End JobLoop.
Arguments Pass W : clear implicits.

(** ** Lemmas *)

Section Tick.
Context {W : Type} (l : Loop) (backlog : W -> nat).

(** A pass never adds to the backlog, and a draining pass reports only work
    that left it. *)
Definition well_behaved (p : Pass W) : Prop :=
  forall tick w, (backlog (p_Run p tick w).2 <= backlog w)%nat /\
    (p_Drain p = true -> forall n, (p_Run p tick w).1 = Ok n -> n <> 0 -> (backlog (p_Run p tick w).2 < backlog w)%nat).

Lemma repeat_run_ends p tick : well_behaved p -> forall fuel total w,
  (backlog w < fuel)%nat -> exists total' failure w', repeat_run fuel p tick total w = Some (total', failure, w') /\
    (backlog w' <= backlog w)%nat.
Proof.
  intros Hp. induction fuel as [|f IH]; intros total w Hf; [lia|]. cbn [repeat_run].
  destruct (Hp tick w) as [Hle Hlt]. destruct (p_Run p tick w) as [[n|e] w']; cbn [fst snd] in *; [|eauto].
  destruct (p_Drain p); cbn [negb orb]; [|eauto].
  destruct (Z.eqb_spec n 0) as [|Hn]; [eauto|]. specialize (Hlt eq_refl n eq_refl Hn).
  destruct (IH (int64 (total + n)) w' ltac:(lia)) as (t' & fl & w'' & -> & ?). exists t', fl, w''. split; [done|lia].
Qed.

(** The next state of a pass's ladder. *)
Definition ladder_step (tick : time) (st st' : passState) : Prop :=
  (tick < skipUntil st /\ st' = st) \/
  (skipUntil st <= tick /\
    ((failures st' = 0 /\ skipUntil st' <= tick) \/
     (failures st' = failures st + 1 /\
      skipUntil st' = tick + Backoff (failures st + 1) (lp_Interval l) (backoffMax l)))).

Definition state_ok (st : passState) : Prop := 0 <= failures st < max_int64.

Lemma step_pass_ladder fuel tick i p st w :
  well_behaved p -> state_ok st -> zero_time <= tick -> (backlog w < fuel)%nat ->
  exists st' ev w', step_pass fuel l tick i p st w = Some (st', ev, w') /\ ladder_step tick st st' /\
    (backlog w' <= backlog w)%nat.
Proof.
  intros Hp Hst Ht Hf. unfold step_pass, ladder_step, run_pass. destruct (Z.ltb_spec tick (skipUntil st)).
  { exists st, [], w. split_and!; [done|by left|done]. }
  destruct (repeat_run_ends p tick Hp fuel 0 w Hf) as (total & failure & w' & -> & Hle).
  unfold state_ok, max_int64 in Hst. destruct failure as [e|].
  - cbv zeta. unwrap. do 3 eexists. split; [reflexivity|]. split; [|done]. right. split; [done|]. right. done.
  - destruct (Z.gtb_spec (failures st) 0).
    + do 3 eexists. split; [reflexivity|]. split; [|done]. right. split; [done|]. left. split; [done|]. done.
    + do 3 eexists. split; [reflexivity|]. split; [|done]. right. split; [done|]. left. split; [lia|done].
Qed.

Lemma step_passes_ladder fuel tick ps : forall i sts w,
  Forall well_behaved ps -> Forall state_ok sts -> length sts = length ps -> zero_time <= tick -> (backlog w < fuel)%nat ->
  exists sts' ev w', step_passes fuel l tick i ps sts w = Some (sts', ev, w') /\
    Forall2 (ladder_step tick) sts sts' /\ (backlog w' <= backlog w)%nat.
Proof.
  induction ps as [|p ps IH]; intros i [|st sts] w Hps Hsts Hlen Ht Hf; try done; cbn [step_passes].
  { exists [], [], w. split_and!; done. }
  apply Forall_cons in Hps as [Hp Hps], Hsts as [Hst Hsts].
  destruct (step_pass_ladder fuel tick i p st w Hp Hst Ht Hf) as (st' & ev & w' & -> & Hlad & Hle).
  destruct (IH (S i) sts w' Hps Hsts ltac:(by injection Hlen) Ht ltac:(lia)) as (sts' & ev' & w'' & -> & Hall & Hle').
  do 3 eexists. split; [reflexivity|]. split; [by constructor|lia].
Qed.

End Tick.

(** ** Properties *)


(** A sweep that fails and a drain of three items beside it. *)
Definition demo_sweep : Pass nat := mkPass (fun _ w => (Err ErrStore, w)) false false.
Definition demo_drain : Pass nat := mkPass (fun _ w => (Ok (if (w =? 0)%nat then 0 else 1), pred w)) true true.
Definition demo_loop : Loop := mkLoop (10 * Second) None 0.

