(* ===== verification/ShortId.v ===== *)
(** * Short ids (src/internal/shortid/shortid.go)

    A UUID re-encoded in base58, and back. A UUID is its sixteen bytes. *)
From S2P Require Import Prelude Encoding.
Local Open Scope Z_scope.

(** ** Positional notation *)

(** The loop of [big.Int.DivMod] by the base while the number is positive:
    least significant digit first. *)
Fixpoint div_loop (base : Z) (fuel : nat) (n : Z) : list Z :=
  match fuel with
  | O => []
  | S f => if n <=? 0 then [] else n mod base :: div_loop base f (n / base)
  end.

(** Every turn at least halves the number. *)
Definition digits (base n : Z) : list Z := div_loop base (S (Z.to_nat (Z.log2 n))) n.

(** The value of digits, least significant first. *)
Fixpoint value (base : Z) (ds : list Z) : Z :=
  match ds with
  | [] => 0
  | d :: ds' => d + base * value base ds'
  end.

(** ** The codec *)

Definition Alphabet : string := "123456789ABCDEFGHJKLMNPQRSTUVWXYZabcdefghijkmnopqrstuvwxyz".
Definition one : Z := 49.

Definition minLen : Z := 16.
Definition maxLen : Z := 22.

(** How many entries at the front are [x]. *)
Fixpoint leading (x : Z) (l : list Z) : nat :=
  match l with
  | [] => 0
  | y :: l' => if y =? x then S (leading x l') else 0
  end.

(** [big.Int.SetBytes] and [big.Int.Bytes]: big-endian, no leading zero byte. *)
Definition SetBytes (l : list Z) : Z := value 256 (rev l).
Definition Bytes (n : Z) : list Z := rev (digits 256 n).

(** [FromUUID] *)
Definition FromUUID (u : list Z) : string :=
  of_bytes (repeat one (leading 0 u) ++ map (digit (bytes Alphabet)) (rev (digits 58 (SetBytes u)))).

(** The accumulation loop of [ToUUID] over the characters after the leading
    ones. *)
Fixpoint read_digits (n : Z) (l : list Z) : option Z :=
  match l with
  | [] => Some n
  | c :: l' => match index_of (bytes Alphabet) c with
               | None => None
               | Some v => read_digits (n * 58 + v) l'
               end
  end.

(** [ToUUID] up to its last check: the bytes the text stands for. *)
Definition decode (sid : string) : option (list Z) :=
  let l := bytes sid in
  if (Z.of_nat (length l) <? minLen) || (maxLen <? Z.of_nat (length l)) then None else
  match read_digits 0 (drop (leading one l) l) with
  | None => None
  | Some n =>
      let body := Bytes n in
      if negb (leading one l + length body =? 16)%nat then None
      else Some (repeat 0 (leading one l) ++ body)
  end.

(** [ToUUID] *)
Definition ToUUID (sid : string) : option (list Z) :=
  match decode sid with
  | None => None
  | Some out => if bool_decide (FromUUID out = sid) then Some out else None
  end.

(** ** Lemmas: positional notation *)

(** Digits of a number: in range, and the most significant one is not zero. *)
Definition numeral (base : Z) (ds : list Z) : Prop :=
  Forall (fun d => 0 <= d < base) ds /\ (forall d, last ds = Some d -> d <> 0).

Lemma value_nonneg base ds : 1 < base -> Forall (fun d => 0 <= d < base) ds -> 0 <= value base ds.
Proof. intros Hb. induction 1; cbn [value]; nia. Qed.

Lemma numeral_tail base d ds : numeral base (d :: ds) -> 0 <= d < base /\ numeral base ds.
Proof.
  intros [Hr Hl]. apply Forall_cons in Hr as [Hd Hr]. split; [done|]. split; [done|].
  intros x Hx. apply Hl. destruct ds; [done|]. exact Hx.
Qed.

Lemma numeral_positive base d ds : 1 < base -> numeral base (d :: ds) -> 0 < value base (d :: ds).
Proof.
  intros Hb. revert d. induction ds as [|e ds IH]; intros d Hn.
  - destruct Hn as [Hr Hl]. apply Forall_cons in Hr as [Hd _]. specialize (Hl d eq_refl). cbn. lia.
  - apply numeral_tail in Hn as [Hd Hn]. apply IH in Hn. cbn [value] in *. nia.
Qed.

(** A number has one numeral. *)
Lemma numeral_unique base ds es :
  1 < base -> numeral base ds -> numeral base es -> value base ds = value base es -> ds = es.
Proof.
  intros Hb. revert es. induction ds as [|d ds IH]; intros [|e es] Hd He Hv; [done|..].
  - pose proof (numeral_positive _ _ _ Hb He). cbn [value] in *. lia.
  - pose proof (numeral_positive _ _ _ Hb Hd). cbn [value] in *. lia.
  - apply numeral_tail in Hd as [Rd Hd], He as [Re He]. cbn [value] in Hv.
    assert (d = e /\ value base ds = value base es) as [-> Hv'].
    { assert (Hm : (d + base * value base ds) mod base = (e + base * value base es) mod base) by (by rewrite Hv).
      rewrite !(Z.mul_comm base), !Z.mod_add, !Z.mod_small in Hm by lia. split; [done|]. subst. nia. }
    f_equal. by apply IH.
Qed.

Lemma div_loop_spec base f : forall n, 1 < base -> 0 <= n < 2 ^ Z.of_nat f ->
  numeral base (div_loop base f n) /\ value base (div_loop base f n) = n.
Proof.
  induction f as [|f IH]; intros n Hb Hn; cbn [div_loop].
  { split; [split; [constructor|done]|]. cbn in *. lia. }
  destruct (Z.leb_spec n 0). { split; [split; [constructor|done]|]. cbn. lia. }
  assert (Hq : 0 <= n / base < 2 ^ Z.of_nat f).
  { split; [apply Z.div_pos; lia|]. rewrite Nat2Z.inj_succ, Z.pow_succ_r in Hn by lia.
    apply Z.div_lt_upper_bound; nia. }
  destruct (IH (n / base) Hb Hq) as [[Hr Hl] Hv]. pose proof (Z.mod_pos_bound n base ltac:(lia)).
  pose proof (Z.div_mod n base ltac:(lia)). split.
  - split; [by constructor|]. intros d. destruct (div_loop base f (n / base)) as [|e es] eqn:He.
    + intros [= <-]. cbn in Hv. lia.
    + intros Hd. by apply Hl.
  - cbn [value]. rewrite Hv. lia.
Qed.

Lemma digits_spec base n : 1 < base -> 0 <= n -> numeral base (digits base n) /\ value base (digits base n) = n.
Proof.
  intros Hb Hn. unfold digits. apply div_loop_spec; [done|]. split; [done|].
  destruct (Z.eq_dec n 0) as [->|]; [cbn; lia|].
  pose proof (Z.log2_spec n ltac:(lia)). pose proof (Z.log2_nonneg n).
  rewrite Nat2Z.inj_succ, Z2Nat.id by lia. lia.
Qed.

Lemma digits_value base ds : 1 < base -> numeral base ds -> digits base (value base ds) = ds.
Proof.
  intros Hb Hd. pose proof (value_nonneg base ds Hb (proj1 Hd)) as Hn.
  destruct (digits_spec base (value base ds) Hb Hn) as [Hs Hv]. by apply (numeral_unique base).
Qed.

Lemma value_app base a b : value base (a ++ b) = value base a + base ^ Z.of_nat (length a) * value base b.
Proof.
  induction a as [|d a IH]; [cbn; lia|]. cbn [app value length]. rewrite IH, Nat2Z.inj_succ, Z.pow_succ_r by lia. lia.
Qed.

Lemma value_upper base ds : 1 < base -> Forall (fun d => 0 <= d < base) ds -> value base ds < base ^ Z.of_nat (length ds).
Proof.
  intros Hb. induction 1 as [|d ds Hd _ IH]; [cbn; lia|].
  cbn [value length]. rewrite Nat2Z.inj_succ, Z.pow_succ_r by lia. nia.
Qed.

Lemma value_lower base ds : 1 < base -> numeral base ds -> ds <> [] -> base ^ (Z.of_nat (length ds) - 1) <= value base ds.
Proof.
  intros Hb. induction ds as [|d ds IH]; [done|]. intros Hn _. destruct ds as [|e ds].
  - pose proof (numeral_positive _ _ _ Hb Hn). cbn in *. lia.
  - apply numeral_tail in Hn as [Hd Hn]. specialize (IH Hn ltac:(done)).
    replace (Z.of_nat (length (d :: e :: ds)) - 1) with (Z.succ (Z.of_nat (length (e :: ds)) - 1)) by (cbn [length]; lia).
    cbn [value] in *. rewrite Z.pow_succ_r by (cbn [length]; lia). nia.
Qed.

(** ** Lemmas: leading entries *)

Lemma leading_split x l : l = repeat x (leading x l) ++ drop (leading x l) l /\ head (drop (leading x l) l) <> Some x.
Proof.
  induction l as [|y l IH]; [done|]. cbn [leading]. destruct (Z.eqb_spec y x) as [->|Hn].
  - destruct IH as [IH Hh]. cbn [repeat drop app]. split; [by rewrite <- IH|done].
  - cbn. split; [done|congruence].
Qed.

Lemma leading_repeat x k l : head l <> Some x -> leading x (repeat x k ++ l) = k.
Proof.
  intros Hh. induction k as [|k IH]; cbn.
  - destruct l as [|y l]; [done|]. cbn in *. destruct (Z.eqb_spec y x); [congruence|done].
  - by rewrite Z.eqb_refl, IH.
Qed.

(** ** Lemmas: the alphabet *)

Definition char_ok (d : Z) : bool :=
  bool_decide (index_of (bytes Alphabet) (digit (bytes Alphabet) d) = Some d) &&
  (0 <=? digit (bytes Alphabet) d) && (digit (bytes Alphabet) d <? 256) &&
  Bool.eqb (digit (bytes Alphabet) d =? one) (d =? 0).

Lemma chars_ok d : 0 <= d < 58 ->
  index_of (bytes Alphabet) (digit (bytes Alphabet) d) = Some d /\ is_byte (digit (bytes Alphabet) d) /\
  (digit (bytes Alphabet) d = one <-> d = 0).
Proof.
  intros Hd. assert (Hall : forallb char_ok (seqZ 0 58) = true) by (vm_compute; reflexivity).
  apply (forallb_elem _ _ d) in Hall; [|apply elem_of_seqZ; lia]. unfold char_ok in Hall. bools.
  split; [done|]. split; [split; lia|]. apply Bool.eqb_prop in H0. rewrite <- Z.eqb_eq, H0. apply Z.eqb_eq.
Qed.

Lemma index_of_digit alpha c v : index_of alpha c = Some v -> 0 <= v < Z.of_nat (length alpha) /\ digit alpha v = c.
Proof.
  revert v. induction alpha as [|a alpha IH]; intros v; [done|]. cbn [index_of length].
  destruct (Z.eqb_spec a c) as [->|]; [intros [= <-]; split; [lia|done]|].
  destruct (index_of alpha c) as [w|]; [|done]. cbn. intros [= <-]. destruct (IH w eq_refl) as [Hr Hd].
  split; [lia|]. unfold digit in *. rewrite Z2Nat.inj_succ by lia. exact Hd.
Qed.

(** Reading is evaluation: from [n], with the digits least significant first. *)
Lemma read_digits_spec l : forall n,
  match read_digits n l with
  | None => True
  | Some m => exists ds, l = map (digit (bytes Alphabet)) (rev ds) /\ Forall (fun d => 0 <= d < 58) ds /\
                m = n * 58 ^ Z.of_nat (length ds) + value 58 ds
  end.
Proof.
  induction l as [|c l IH]; intros n; cbn [read_digits].
  { exists []. cbn. split_and!; [done|constructor|lia]. }
  destruct (index_of _ c) as [v|] eqn:Hv; [|done]. apply index_of_digit in Hv as [Hr <-].
  specialize (IH (n * 58 + v)). destruct (read_digits _ l) as [m|]; [|done].
  destruct IH as (ds & -> & Hds & ->). exists (ds ++ [v]). rewrite rev_app_distr. split; [done|]. split.
  - apply Forall_app. split; [done|]. constructor; [exact Hr|constructor].
  - rewrite value_app, length_app. cbn [length value]. rewrite Nat2Z.inj_add, Z.pow_add_r by lia. lia.
Qed.

Lemma read_digits_map ds : forall n, Forall (fun d => 0 <= d < 58) ds ->
  read_digits n (map (digit (bytes Alphabet)) ds) = Some (n * 58 ^ Z.of_nat (length ds) + value 58 (rev ds)).
Proof.
  induction ds as [|d ds IH]; intros n Hds; cbn [map read_digits].
  { f_equal. cbn. lia. }
  apply Forall_cons in Hds as [Hd Hds]. rewrite (proj1 (chars_ok d Hd)), IH by done. f_equal.
  cbn [rev length]. rewrite value_app, length_rev, Nat2Z.inj_succ, Z.pow_succ_r by lia. cbn [value]. lia.
Qed.

(** ** Lemmas: the codec *)

Lemma last_rev (l : list Z) : last (rev l) = head l.
Proof. destruct l as [|x l]; [done|]. cbn. apply last_snoc. Qed.

Lemma rev_head (l : list Z) : head (rev l) = last l.
Proof. rewrite <- (rev_involutive l) at 2. by rewrite last_rev. Qed.

Lemma numeral_rev base l : Forall (fun d => 0 <= d < base) l -> head l <> Some 0 -> numeral base (rev l).
Proof.
  intros Hl Hh. split; [by apply Forall_rev|]. intros d. rewrite last_rev. congruence.
Qed.

Lemma value_zeros base ds k : value base (ds ++ repeat 0 k) = value base ds.
Proof.
  rewrite value_app. assert (value base (repeat 0 k) = 0) as ->; [|lia]. induction k as [|k IH]; cbn; lia.
Qed.

Lemma SetBytes_zeros k body : SetBytes (repeat 0 k ++ body) = SetBytes body.
Proof. unfold SetBytes. rewrite rev_app_distr, rev_repeat. apply value_zeros. Qed.

(** The text of a number after the leading ones: digits, the first not one. *)
Lemma digits_text n : 0 <= n ->
  Forall (fun d => 0 <= d < 58) (rev (digits 58 n)) /\
  head (map (digit (bytes Alphabet)) (rev (digits 58 n))) <> Some one.
Proof.
  intros Hn. destruct (digits_spec 58 n ltac:(lia) Hn) as [[Hr Hl] _]. split; [by apply Forall_rev|].
  pose proof (rev_head (digits 58 n)) as Hh. apply Forall_rev in Hr. destruct (rev (digits 58 n)) as [|d ds]; [done|].
  cbn in *. apply Forall_cons in Hr as [Hd _]. intros [= He]. apply (proj2 (proj2 (chars_ok d Hd))) in He.
  by apply (Hl d).
Qed.

Lemma FromUUID_bytes u : 0 <= SetBytes u ->
  bytes (FromUUID u) = repeat one (leading 0 u) ++ map (digit (bytes Alphabet)) (rev (digits 58 (SetBytes u))).
Proof.
  intros Hn. unfold FromUUID. apply bytes_of_bytes. apply Forall_app. split.
  - apply Forall_forall. intros x Hx. rewrite list_elem_of_In in Hx. apply repeat_spec in Hx as ->. unfold is_byte, one. lia.
  - destruct (digits_text _ Hn) as [Hr _]. apply Forall_forall. intros x (d & -> & Hd)%list_elem_of_fmap.
    rewrite Forall_forall in Hr. by apply chars_ok, Hr.
Qed.

(** Sixteen bytes with [k] leading zeros take between sixteen and twenty-two
    characters. *)
Lemma text_length k body : (k + length body = 16)%nat -> Forall is_byte body -> head body <> Some 0 ->
  (16 <= k + length (digits 58 (SetBytes body)) <= 22)%nat.
Proof.
  intros Hk Hb Hh. pose proof (numeral_rev 256 body Hb Hh) as Hn. unfold SetBytes.
  assert (Hv : 0 <= value 256 (rev body)) by (apply value_nonneg; [lia|apply Hn]).
  destruct (digits_spec 58 _ ltac:(lia) Hv) as [Hd Hdv]. set (ds := digits 58 (value 256 (rev body))) in *.
  pose proof (value_upper 256 (rev body) ltac:(lia) (proj1 Hn)) as Hu. rewrite length_rev in Hu.
  pose proof (value_upper 58 ds ltac:(lia) (proj1 Hd)) as Hdu. rewrite Hdv in Hdu.
  split.
  - destruct body as [|b body]; [cbn [length] in *; lia|].
    assert (Hl : 256 ^ (Z.of_nat (length (b :: body)) - 1) <= value 256 (rev (b :: body))).
    { rewrite <- (length_rev (b :: body)). apply value_lower; [lia|done|]. cbn. by destruct (rev body). }
    destruct (decide (length (b :: body) <= length ds)%nat) as [|Hlt]; [lia|]. exfalso.
    assert (58 ^ Z.of_nat (length ds) <= 256 ^ (Z.of_nat (length (b :: body)) - 1)); [|lia].
    etransitivity; [apply Z.pow_le_mono_r; [lia|]|apply Z.pow_le_mono_l; lia]. lia.
  - destruct (decide (ds = [])) as [He|He]; [rewrite He; cbn; lia|].
    pose proof (value_lower 58 ds ltac:(lia) Hd He) as Hdl. rewrite Hdv in Hdl.
    destruct (decide (k + length ds <= 22)%nat) as [|Hlt]; [done|]. exfalso.
    assert (58 ^ (22 - Z.of_nat k) <= 58 ^ (Z.of_nat (length ds) - 1)) by (apply Z.pow_le_mono_r; lia).
    assert (256 ^ Z.of_nat (length body) <= 58 ^ (22 - Z.of_nat k)); [|lia].
    replace (Z.of_nat (length body)) with (16 - Z.of_nat k) by lia.
    assert (Hall : forallb (fun k => 256 ^ (16 - k) <=? 58 ^ (22 - k)) (seqZ 0 17) = true) by (vm_compute; reflexivity).
    apply (forallb_elem _ _ (Z.of_nat k)) in Hall; [|apply elem_of_seqZ; lia]. by apply Z.leb_le.
Qed.

Definition is_uuid (u : list Z) : Prop := length u = 16%nat /\ Forall is_byte u.

(** The bytes after the leading zeros. *)
Lemma uuid_split u : is_uuid u -> exists k body, u = repeat 0 k ++ body /\ leading 0 u = k /\
  (k + length body = 16)%nat /\ Forall is_byte body /\ head body <> Some 0.
Proof.
  intros [Hlen Hb]. destruct (leading_split 0 u) as [Hu Hh]. exists (leading 0 u), (drop (leading 0 u) u).
  split_and!; try done.
  - rewrite Hu in Hlen. by rewrite length_app, repeat_length in Hlen.
  - by apply Forall_drop.
Qed.

Lemma decode_FromUUID u : is_uuid u -> decode (FromUUID u) = Some u.
Proof.
  intros Hu. destruct (uuid_split u Hu) as (k & body & -> & Hk & Hlen & Hb & Hh).
  pose proof (numeral_rev 256 body Hb Hh) as Hn.
  assert (Hv : 0 <= SetBytes body) by (apply value_nonneg; [lia|apply Hn]).
  unfold decode. rewrite FromUUID_bytes, Hk, SetBytes_zeros by (by rewrite SetBytes_zeros). cbv zeta.
  destruct (digits_text _ Hv) as [Hr Hhd]. rewrite leading_repeat by done.
  pose proof (text_length k body Hlen Hb Hh) as Ht.
  rewrite length_app, repeat_length, length_map, length_rev.
  destruct (Z.ltb_spec (Z.of_nat (k + length (digits 58 (SetBytes body)))) minLen); [unfold minLen in *; lia|].
  destruct (Z.ltb_spec maxLen (Z.of_nat (k + length (digits 58 (SetBytes body))))); [unfold maxLen in *; lia|].
  cbn [orb]. rewrite drop_app_length' by (by rewrite repeat_length).
  rewrite read_digits_map by done. rewrite rev_involutive, (proj2 (digits_spec 58 _ ltac:(lia) Hv)). rewrite Z.mul_0_l, Z.add_0_l.
  unfold Bytes, SetBytes. rewrite digits_value by done. rewrite rev_involutive, Hlen. done.
Qed.

(** What [decode] accepts is already the canonical text. *)
Lemma decode_canonical sid u : decode sid = Some u -> is_uuid u /\ FromUUID u = sid.
Proof.
  unfold decode. cbv zeta. destruct (_ || _); [done|].
  destruct (leading_split one (bytes sid)) as [Hs Hh]. set (k := leading one (bytes sid)) in *.
  pose proof (read_digits_spec (drop k (bytes sid)) 0) as Hr. destruct (read_digits 0 _) as [n|]; [|done].
  destruct Hr as (ds & Hds & Hrange & ->). rewrite Z.mul_0_l, Z.add_0_l.
  destruct (Nat.eqb_spec (k + length (Bytes (value 58 ds))) 16) as [Hlen|]; [|done]. cbn [negb]. intros [= <-].
  pose proof (value_nonneg 58 ds ltac:(lia) Hrange) as Hv.
  destruct (digits_spec 256 _ ltac:(lia) Hv) as [[Hb Hl] Hbv].
  assert (Hhead : head (Bytes (value 58 ds)) <> Some 0).
  { unfold Bytes. rewrite rev_head. intros Hz. by apply (Hl 0). }
  assert (Hbytes : Forall is_byte (Bytes (value 58 ds))) by (by apply Forall_rev).
  assert (Hnum : numeral 58 ds).
  { split; [done|]. intros d Hd ->. apply Hh. rewrite Hds. rewrite <- rev_head in Hd.
    destruct (rev ds) as [|d0 t]; [done|]. cbn in *. injection Hd as ->. vm_compute. reflexivity. }
  assert (Hset : SetBytes (repeat 0 k ++ Bytes (value 58 ds)) = value 58 ds).
  { rewrite SetBytes_zeros. unfold SetBytes, Bytes. by rewrite rev_involutive. }
  split.
  - split; [by rewrite length_app, repeat_length|]. apply Forall_app. split; [|done].
    apply Forall_forall. intros x Hx. rewrite list_elem_of_In in Hx. apply repeat_spec in Hx as ->. unfold is_byte. lia.
  - unfold FromUUID. rewrite Hset, leading_repeat by done. rewrite digits_value by (lia || done).
    rewrite <- Hds, <- Hs. apply of_bytes_bytes.
Qed.

(** ** Properties *)

(** C39. Short ids are a bijection. Every UUID has a short id that decodes back
    to it, of 16 to 22 characters; every text that decodes at all is the short
    id of the UUID it decodes to, so a video has one spelling; and the final
    re-encoding check refuses nothing the earlier checks accept. *)
Theorem shortid_bijection (u : list Z) (sid : string) :
  (is_uuid u -> ToUUID (FromUUID u) = Some u) /\
  (ToUUID sid = Some u <-> is_uuid u /\ FromUUID u = sid) /\
  ToUUID sid = decode sid.
Proof.
  assert (Hto : ToUUID sid = decode sid).
  { unfold ToUUID. destruct (decode sid) as [v|] eqn:Hd; [|done].
    apply decode_canonical in Hd as [_ ->]. by rewrite bool_decide_eq_true_2. }
  assert (Hround : is_uuid u -> ToUUID (FromUUID u) = Some u).
  { intros Hu. unfold ToUUID. rewrite decode_FromUUID by done. by rewrite bool_decide_eq_true_2. }
  split; [exact Hround|]. split; [|exact Hto]. split.
  - rewrite Hto. apply decode_canonical.
  - intros [Hu <-]. by apply Hround.
Qed.

Lemma shortid_bijection_witness :
  ToUUID (FromUUID (repeat 0 15 ++ [1])) = Some (repeat 0 15 ++ [1]) /\
  FromUUID (repeat 0 15 ++ [1]) = "1111111111111112"%string /\
  ToUUID "11111111111111112" = None.
Proof.
  split; [|split; vm_compute; reflexivity].
  apply (proj1 (shortid_bijection (repeat 0 15 ++ [1]) "")). split; [reflexivity|].
  repeat (constructor; [vm_compute; split; [discriminate|reflexivity]|]). constructor.
Defined.
