(* ===== verification/Playlist.v ===== *)
(** * Playlists (src/internal/playlist/service.go)

    Named, ordered collections of videos with an owner and a visibility: their
    creation, editing, listing, item order and cover images. The order of the
    items is what the SQL statements sort by; the statements that move and
    reorder items are modelled with their renumbering. *)
From S2P Require Import Prelude GoStrings Storage.
Local Open Scope Z_scope.

(** ** The store *)

Inductive visibility := Public | Unlisted | Private.

#[global] Instance visibility_eq_dec : EqDecision visibility.
Proof. solve_decision. Defined.

Record Playlist := mkPlaylist {
  plID : uuid; plOwner : uuid; plTitle : string; plDescription : string; plVisibility : visibility;
  plChannel : option uuid; plThumbnailExt : option string; plCreated : time;
}.

(** [playlist_items]: the columns besides the key. *)
Record Item := mkItem { it_position : Z; it_added : time }.

Record PlaylistDB := mkPlaylistDB {
  playlists : gmap uuid Playlist;
  items : gmap uuid (gmap uuid Item);       (* playlist_id, video_id *)
  pchannels : gmap uuid uuid;               (* channels.owner_id *)
  pvideos : gmap uuid bool;                 (* public and published *)
  hidden : gset (uuid * uuid);              (* viewer, account muted or blocked *)
  pnow : time;
  pgen : nat -> uuid;
  pdrawn : nat;
}.

Definition set_playlists f (d : PlaylistDB) :=
  mkPlaylistDB (f (playlists d)) (items d) (pchannels d) (pvideos d) (hidden d) (pnow d) (pgen d) (pdrawn d).
Definition set_items f (d : PlaylistDB) :=
  mkPlaylistDB (playlists d) (f (items d)) (pchannels d) (pvideos d) (hidden d) (pnow d) (pgen d) (pdrawn d).
Definition draw_playlist (d : PlaylistDB) :=
  mkPlaylistDB (playlists d) (items d) (pchannels d) (pvideos d) (hidden d) (pnow d) (pgen d) (S (pdrawn d)).

Abbreviation stmt A := (PlaylistDB -> result dberr A * PlaylistDB) (only parsing).

(** *** The order of items *)

(** ORDER BY position, added_at, video_id. *)
Definition item_le (x y : uuid * Item) : Prop :=
  it_position x.2 < it_position y.2 \/
  (it_position x.2 = it_position y.2 /\
    (it_added x.2 < it_added y.2 \/ (it_added x.2 = it_added y.2 /\ String.leb x.1 y.1 = true))).

#[global] Instance item_le_dec : RelDecision item_le.
Proof. intros x y. unfold item_le. apply _. Defined.

Definition items_of (pl : uuid) (d : PlaylistDB) : gmap uuid Item := default ∅ (items d !! pl).

Definition order_of (m : gmap uuid Item) : list uuid := (merge_sort item_le (map_to_list m)).*1.

(** The position of an id in a list, from zero. *)
Fixpoint index (v : uuid) (l : list uuid) : option nat :=
  match l with
  | [] => None
  | x :: l' => if bool_decide (x = v) then Some O else S <$> index v l'
  end.

(** Positions 1..n in the order of the list; items not listed keep theirs. *)
Definition renumber (l : list uuid) (m : gmap uuid Item) : gmap uuid Item :=
  map_imap (fun v it => Some (match index v l with
                              | Some i => mkItem (Z.of_nat i + 1) (it_added it)
                              | None => it
                              end)) m.

(** *** Statements *)

Definition q_CreatePlaylist (owner : uuid) (title descr : string) (vis : visibility) (ch : option uuid)
    : stmt Playlist := fun d =>
  let p := mkPlaylist (pgen d (pdrawn d)) owner title descr vis ch None (pnow d) in
  if bool_decide (playlists d !! plID p = None) then (Ok p, set_playlists <[plID p := p]> (draw_playlist d))
  else (Err ErrUnique, draw_playlist d).

(** Items whose video is public and published. *)
Definition listed (d : PlaylistDB) (v : uuid) : bool := match pvideos d !! v with Some b => b | None => false end.

Definition video_count (pl : uuid) (d : PlaylistDB) : Z :=
  Z.of_nat (length (filter (fun v => listed d v = true) (order_of (items_of pl d)))).

Definition q_GetPlaylistByID (id : uuid) : stmt (Playlist * Z) := fun d =>
  (match playlists d !! id with Some p => Ok (p, video_count id d) | None => Err ErrNoRows end, d).

Definition q_GetChannelByID (id : uuid) : stmt uuid := fun d =>
  (match pchannels d !! id with Some o => Ok o | None => Err ErrNoRows end, d).

(** ORDER BY created_at DESC, id DESC. *)
Definition newest_first (x y : Playlist) : Prop :=
  plCreated y < plCreated x \/ (plCreated x = plCreated y /\ String.leb (plID y) (plID x) = true).

#[global] Instance newest_first_dec : RelDecision newest_first.
Proof. intros x y. unfold newest_first. apply _. Defined.

Definition page {A} (limit offset : Z) (l : list A) : list A := take (Z.to_nat limit) (drop (Z.to_nat offset) l).

Definition rows_where (f : Playlist -> bool) (d : PlaylistDB) : list Playlist :=
  merge_sort newest_first (filter (fun p => f p = true) (map_to_list (playlists d)).*2).

(** The playlist privacy rule of the channel listing. *)
Definition shown_to (ch : uuid) (viewer : option uuid) (d : PlaylistDB) (p : Playlist) : bool :=
  bool_decide (plChannel p = Some ch) &&
  (bool_decide (plVisibility p = Public) || bool_decide (viewer = Some (plOwner p))) &&
  match viewer with Some v => negb (bool_decide ((v, plOwner p) ∈ hidden d)) | None => true end.

Definition with_count (d : PlaylistDB) (p : Playlist) : Playlist * Z := (p, video_count (plID p) d).

Definition q_ListPlaylistsByChannel (ch : uuid) (viewer : option uuid) (limit offset : Z) : stmt (list (Playlist * Z)) :=
  fun d => (Ok (map (with_count d) (page limit offset (rows_where (shown_to ch viewer d) d))), d).
Definition q_CountPlaylistsByChannel (ch : uuid) (viewer : option uuid) : stmt Z := fun d =>
  (Ok (Z.of_nat (length (rows_where (shown_to ch viewer d) d))), d).
Definition q_ListPlaylistsByOwner (owner : uuid) (limit offset : Z) : stmt (list (Playlist * Z)) := fun d =>
  (Ok (map (with_count d) (page limit offset (rows_where (fun p => bool_decide (plOwner p = owner)) d))), d).
Definition q_CountPlaylistsByOwner (owner : uuid) : stmt Z := fun d =>
  (Ok (Z.of_nat (length (rows_where (fun p => bool_decide (plOwner p = owner)) d))), d).

Definition q_UpdatePlaylist (id : uuid) (title descr : option string) (vis : option visibility) (setCh : bool)
    (ch : option uuid) : stmt Playlist := fun d =>
  match playlists d !! id with
  | None => (Err ErrNoRows, d)
  | Some p =>
      let p' := mkPlaylist (plID p) (plOwner p) (default (plTitle p) title) (default (plDescription p) descr)
                  (default (plVisibility p) vis) (if setCh then ch else plChannel p) (plThumbnailExt p) (plCreated p) in
      (Ok p', set_playlists <[id := p']> d)
  end.

Definition set_thumb (ext : option string) (p : Playlist) : Playlist :=
  mkPlaylist (plID p) (plOwner p) (plTitle p) (plDescription p) (plVisibility p) (plChannel p) ext (plCreated p).

Definition q_SetPlaylistThumbnail (id : uuid) (ext : string) : stmt unit := fun d =>
  (Ok tt, set_playlists (alter (set_thumb (Some ext)) id) d).
Definition q_ClearPlaylistThumbnail (id : uuid) : stmt unit := fun d =>
  (Ok tt, set_playlists (alter (set_thumb None) id) d).

(** The items go with the playlist (ON DELETE CASCADE). *)
Definition q_DeletePlaylist (id : uuid) : stmt unit := fun d =>
  (Ok tt, set_items (delete id) (set_playlists (delete id) d)).

Definition max_position (m : gmap uuid Item) : Z := foldr (fun kv acc => Z.max (it_position kv.2) acc) 0 (map_to_list m).

Definition q_AddPlaylistItem (pl v : uuid) : stmt unit := fun d =>
  if bool_decide (playlists d !! pl = None) || bool_decide (pvideos d !! v = None) then (Err ErrStore, d)
  else match items_of pl d !! v with
       | Some _ => (Ok tt, d)
       | None => (Ok tt, set_items <[pl := <[v := mkItem (max_position (items_of pl d) + 1) (pnow d)]> (items_of pl d)]> d)
       end.

Definition q_RemovePlaylistItem (pl v : uuid) : stmt unit := fun d =>
  (Ok tt, set_items <[pl := delete v (items_of pl d)]> d).

Definition q_ListPlaylistItemVideoIDs (pl : uuid) : stmt (list uuid) := fun d => (Ok (order_of (items_of pl d)), d).

Definition q_ReorderPlaylistItems (pl : uuid) (vids : list uuid) : stmt unit := fun d =>
  (Ok tt, set_items <[pl := renumber vids (items_of pl d)]> d).

(** The slot of an item while one is moved: 2 * rank, and for the moved one
    directly after the anchor's. *)
Definition slot (l : list uuid) (v : uuid) (anchor : Z) (x : uuid) : Z :=
  if bool_decide (x = v) then anchor * 2 + 1
  else match index x l with Some i => (Z.of_nat i + 1) * 2 | None => 0 end.

(** Renumber by slot; no row when the video or its anchor is not an item. *)
Definition q_MovePlaylistItem (pl v : uuid) (after : option uuid) : stmt Z := fun d =>
  let m := items_of pl d in
  let l := order_of m in
  let anchor := match after with
                | None => Some 0
                | Some a => match index a l with Some i => Some (Z.of_nat i + 1) | None => None end
                end in
  match anchor, index v l with
  | Some n, Some _ =>
      let l' := merge_sort (by_key (slot l v n)) l in
      (Ok (Z.of_nat (length l)), set_items <[pl := renumber l' m]> d)
  | _, _ => (Ok 0, d)
  end.

Definition q_ListPlaylistItems (pl : uuid) (limit offset : Z) : stmt (list uuid) := fun d =>
  (Ok (page limit offset (filter (fun v => listed d v = true) (order_of (items_of pl d)))), d).
Definition q_CountPlaylistItems (pl : uuid) : stmt Z := fun d => (Ok (video_count pl d), d).

(** ** The service's collaborators *)

Inductive playlistE : Type -> Type :=
| CreatePlaylist (owner : uuid) (title descr : string) (vis : visibility) (ch : option uuid) : playlistE (result dberr Playlist)
| GetPlaylistByID (id : uuid) : playlistE (result dberr (Playlist * Z))
| GetChannelByID (id : uuid) : playlistE (result dberr uuid)
| ListPlaylistsByChannel (ch : uuid) (viewer : option uuid) (limit offset : Z) : playlistE (result dberr (list (Playlist * Z)))
| CountPlaylistsByChannel (ch : uuid) (viewer : option uuid) : playlistE (result dberr Z)
| ListPlaylistsByOwner (owner : uuid) (limit offset : Z) : playlistE (result dberr (list (Playlist * Z)))
| CountPlaylistsByOwner (owner : uuid) : playlistE (result dberr Z)
| UpdatePlaylist (id : uuid) (title descr : option string) (vis : option visibility) (setCh : bool) (ch : option uuid)
    : playlistE (result dberr Playlist)
| DeletePlaylist (id : uuid) : playlistE (result dberr unit)
| AddPlaylistItem (pl v : uuid) : playlistE (result dberr unit)
| RemovePlaylistItem (pl v : uuid) : playlistE (result dberr unit)
| ListPlaylistItems (pl : uuid) (limit offset : Z) : playlistE (result dberr (list uuid))
| CountPlaylistItems (pl : uuid) : playlistE (result dberr Z)
| ListPlaylistItemVideoIDs (pl : uuid) : playlistE (result dberr (list uuid))
| ReorderPlaylistItems (pl : uuid) (vids : list uuid) : playlistE (result dberr unit)
| MovePlaylistItem (pl v : uuid) (after : option uuid) : playlistE (result dberr Z)
| SetPlaylistThumbnail (id : uuid) (ext : string) : playlistE (result dberr unit)
| ClearPlaylistThumbnail (id : uuid) : playlistE (result dberr unit)
| BlobPut (key : string) (r : reader) : playlistE (result ioerr Z)
| BlobDelete (key : string) : playlistE (result ioerr unit)
| EnqueuePlaylistCover (id : uuid) : playlistE unit
| EnqueueUnpin (key : string) : playlistE unit.

(** The database with its faults, the blobs, and what the mirror was asked. *)
Record playlistW (B : Type) := mkPlaylistW { pdb : faulty PlaylistDB; pblobs : B; mirrored : list (uuid + string) }.
Arguments mkPlaylistW {B} pdb pblobs mirrored.
Arguments pdb {B} p.
Arguments pblobs {B} p.
Arguments mirrored {B} p.

Definition on_pdb {B A} (q : PlaylistDB -> result dberr A * PlaylistDB) (w : playlistW B)
    : result dberr A * playlistW B :=
  ((exec q (pdb w)).1, mkPlaylistW (exec q (pdb w)).2 (pblobs w) (mirrored w)).

Definition playlist_handler {B} `{!Backend B} : handler playlistE (playlistW B) := fun X e w =>
  match e in playlistE X return X * playlistW B with
  | CreatePlaylist o t de v c => on_pdb (q_CreatePlaylist o t de v c) w
  | GetPlaylistByID id => on_pdb (q_GetPlaylistByID id) w
  | GetChannelByID id => on_pdb (q_GetChannelByID id) w
  | ListPlaylistsByChannel c v l o => on_pdb (q_ListPlaylistsByChannel c v l o) w
  | CountPlaylistsByChannel c v => on_pdb (q_CountPlaylistsByChannel c v) w
  | ListPlaylistsByOwner u l o => on_pdb (q_ListPlaylistsByOwner u l o) w
  | CountPlaylistsByOwner u => on_pdb (q_CountPlaylistsByOwner u) w
  | UpdatePlaylist id t de v sc c => on_pdb (q_UpdatePlaylist id t de v sc c) w
  | DeletePlaylist id => on_pdb (q_DeletePlaylist id) w
  | AddPlaylistItem pl v => on_pdb (q_AddPlaylistItem pl v) w
  | RemovePlaylistItem pl v => on_pdb (q_RemovePlaylistItem pl v) w
  | ListPlaylistItems pl l o => on_pdb (q_ListPlaylistItems pl l o) w
  | CountPlaylistItems pl => on_pdb (q_CountPlaylistItems pl) w
  | ListPlaylistItemVideoIDs pl => on_pdb (q_ListPlaylistItemVideoIDs pl) w
  | ReorderPlaylistItems pl vids => on_pdb (q_ReorderPlaylistItems pl vids) w
  | MovePlaylistItem pl v a => on_pdb (q_MovePlaylistItem pl v a) w
  | SetPlaylistThumbnail id ext => on_pdb (q_SetPlaylistThumbnail id ext) w
  | ClearPlaylistThumbnail id => on_pdb (q_ClearPlaylistThumbnail id) w
  | BlobPut key r => ((be_put key r (pblobs w)).1, mkPlaylistW (pdb w) (be_put key r (pblobs w)).2 (mirrored w))
  | BlobDelete key => ((be_delete key (pblobs w)).1, mkPlaylistW (pdb w) (be_delete key (pblobs w)).2 (mirrored w))
  | EnqueuePlaylistCover id => (tt, mkPlaylistW (pdb w) (pblobs w) (inl id :: mirrored w))
  | EnqueueUnpin key => (tt, mkPlaylistW (pdb w) (pblobs w) (inr key :: mirrored w))
  end.

(** ** The service *)

Inductive plerr :=
| PErrNotFound | PErrForbidden | PErrChannelRefused | PErrInvalidOrder | PErrItemNotFound | PErrInvalidMove
| PErrUnsupportedMedia | PErrStorageUnavailable | PErrDB (e : dberr) | PErrBlob (e : ioerr).

#[global] Instance plerr_eq_dec : EqDecision plerr.
Proof. solve_decision. Defined.

(** [playlist.Service]: which optional collaborators are wired. *)
Record PlaylistService := mkPlaylistService { ps_blobs : bool; ps_mirror : bool }.

Record CreateInput := mkCreateInput {
  ci_Title : string; ci_Description : string; ci_Visibility : visibility; ci_ChannelID : option uuid;
}.

Record UpdateInput := mkUpdateInput {
  ui_Title : option string; ui_Description : option string; ui_Visibility : option visibility;
  ui_SetChannel : bool; ui_ChannelID : option uuid;
}.

(** [media.AcceptedImageExts] and [media.PlaylistThumbnailKey] *)
Definition AcceptedImageExts : list (string * string) :=
  [(".jpg", "image/jpeg"); (".jpeg", "image/jpeg"); (".png", "image/png"); (".webp", "image/webp")]%string.
Definition image_type (dotExt : string) : option string :=
  snd <$> List.find (fun p => bool_decide (p.1 = dotExt)) AcceptedImageExts.
Definition PlaylistThumbnailKey (id : uuid) (ext : string) : string := "playlist-thumbnails/" +:+ id +:+ "." +:+ ext.

(** [ThumbnailContentType] *)
Definition ThumbnailContentType (ext : string) : option string := image_type ("." +:+ trim_dot (ToLower ext)).

(** [samePermutation] *)
Fixpoint no_repeat (seen : gset uuid) (want : list uuid) : option (gset uuid) :=
  match want with
  | [] => Some seen
  | id :: rest => if bool_decide (id ∈ seen) then None else no_repeat ({[id]} ∪ seen) rest
  end.
Definition samePermutation (want have : list uuid) : bool :=
  (length want =? length have)%nat &&
  match no_repeat ∅ want with
  | None => false
  | Some seen => forallb (fun id => bool_decide (id ∈ seen)) have
  end.

Section Service.
Context (s : PlaylistService).
Abbreviation M A := (prog playlistE A) (only parsing).

(** [Service.checkChannel] *)
Definition checkChannel (ownerID channelID : uuid) : M (option plerr) :=
  r ← call (GetChannelByID channelID);
  mret (match r with
        | Ok owner => if bool_decide (owner = ownerID) then None else Some PErrChannelRefused
        | Err _ => Some PErrChannelRefused
        end).

(** The repository's answer as the service's. *)
Definition db {A} (r : result dberr A) : result plerr A := match r with Ok a => Ok a | Err e => Err (PErrDB e) end.

(** [Service.Create] *)
Definition Create (ownerID : uuid) (i : CreateInput) : M (result plerr Playlist) :=
  refused ← match ci_ChannelID i with Some ch => checkChannel ownerID ch | None => mret None end;
  match refused with
  | Some e => mret (Err e)
  | None =>
      r ← call (CreatePlaylist ownerID (TrimSpace (ci_Title i)) (TrimSpace (ci_Description i)) (ci_Visibility i) (ci_ChannelID i));
      mret (db r)
  end.

(** [Service.ListByChannel] *)
Definition ListByChannel (ch : uuid) (viewer : option uuid) (limit offset : Z) : M (result plerr (list (Playlist * Z) * Z)) :=
  r ← call (ListPlaylistsByChannel ch viewer limit offset);
  match r with
  | Err e => mret (Err (PErrDB e))
  | Ok rows => t ← call (CountPlaylistsByChannel ch viewer);
               mret (match t with Err e => Err (PErrDB e) | Ok total => Ok (rows, total) end)
  end.

(** [Service.GetByID] *)
Definition GetByID (id : uuid) : M (result plerr (Playlist * Z)) :=
  r ← call (GetPlaylistByID id);
  mret (match r with Err _ => Err PErrNotFound | Ok p => Ok p end).

(** [Service.ListOwn] *)
Definition ListOwn (owner : uuid) (limit offset : Z) : M (result plerr (list (Playlist * Z) * Z)) :=
  r ← call (ListPlaylistsByOwner owner limit offset);
  match r with
  | Err e => mret (Err (PErrDB e))
  | Ok rows => t ← call (CountPlaylistsByOwner owner);
               mret (match t with Err e => Err (PErrDB e) | Ok total => Ok (rows, total) end)
  end.

(** The opening of every owner-only operation: the playlist must exist and be
    the caller's. *)
Definition owned {A} (ownerID id : uuid) (k : Playlist -> M (result plerr A)) : M (result plerr A) :=
  r ← GetByID id;
  match r with
  | Err e => mret (Err e)
  | Ok (p, _) => if bool_decide (plOwner p = ownerID) then k p else mret (Err PErrForbidden)
  end.

(** [Service.Update] *)
Definition Update (ownerID id : uuid) (i : UpdateInput) : M (result plerr Playlist) :=
  owned ownerID id (fun _ =>
    refused ← (if ui_SetChannel i
               then match ui_ChannelID i with Some ch => checkChannel ownerID ch | None => mret None end
               else mret None);
    match refused with
    | Some e => mret (Err e)
    | None =>
        r ← call (UpdatePlaylist id (TrimSpace <$> ui_Title i) (TrimSpace <$> ui_Description i) (ui_Visibility i)
                    (ui_SetChannel i) (ui_ChannelID i));
        match r with
        | Err e => mret (Err (PErrDB e))
        | Ok p =>
            _ ← (if bool_decide (ui_Visibility i <> None) && ps_mirror s then call (EnqueuePlaylistCover id) else mret tt);
            mret (Ok p)
        end
    end).

(** [Service.Delete] *)
Definition Delete (ownerID id : uuid) : M (result plerr unit) :=
  owned ownerID id (fun _ => r ← call (DeletePlaylist id); mret (db r)).

(** [Service.AddItem] *)
Definition AddItem (ownerID pl v : uuid) : M (result plerr unit) :=
  owned ownerID pl (fun _ => r ← call (AddPlaylistItem pl v); mret (db r)).

(** [Service.RemoveItem] *)
Definition RemoveItem (ownerID pl v : uuid) : M (result plerr unit) :=
  owned ownerID pl (fun _ => r ← call (RemovePlaylistItem pl v); mret (db r)).

(** [Service.ReorderItems] *)
Definition ReorderItems (ownerID pl : uuid) (vids : list uuid) : M (result plerr unit) :=
  owned ownerID pl (fun _ =>
    c ← call (ListPlaylistItemVideoIDs pl);
    match c with
    | Err e => mret (Err (PErrDB e))
    | Ok current =>
        if negb (samePermutation vids current) then mret (Err PErrInvalidOrder)
        else if bool_decide (vids = []) then mret (Ok tt)
        else r ← call (ReorderPlaylistItems pl vids); mret (db r)
    end).

(** [Service.MoveItem] *)
Definition MoveItem (ownerID pl v : uuid) (after : option uuid) : M (result plerr unit) :=
  owned ownerID pl (fun _ =>
    if bool_decide (after = Some v) then mret (Err PErrInvalidMove) else
    r ← call (MovePlaylistItem pl v after);
    mret (match r with
          | Err e => Err (PErrDB e)
          | Ok n => if n =? 0 then Err PErrItemNotFound else Ok tt
          end)).

(** [Service.ListItems]: the cards' video ids and the total. *)
Definition ListItems (pl : uuid) (limit offset : Z) : M (result plerr (list uuid * Z)) :=
  r ← call (ListPlaylistItems pl limit offset);
  match r with
  | Err e => mret (Err (PErrDB e))
  | Ok rows => t ← call (CountPlaylistItems pl);
               mret (match t with Err e => Err (PErrDB e) | Ok total => Ok (rows, total) end)
  end.

(** A cover that is set. *)
Definition cover (p : Playlist) : option string :=
  match plThumbnailExt p with Some e => if bool_decide (e = EmptyString) then None else Some e | None => None end.

(** Delete a cover's blob and unpin it, best-effort. *)
Definition dropCover (pl : uuid) (ext : string) : M unit :=
  _ ← call (BlobDelete (PlaylistThumbnailKey pl ext));
  if ps_mirror s then call (EnqueueUnpin (PlaylistThumbnailKey pl ext)) else mret tt.

(** [Service.SetThumbnail] *)
Definition SetThumbnail (ownerID pl : uuid) (filename : string) (r : reader) : M (result plerr string) :=
  if negb (ps_blobs s) then mret (Err PErrStorageUnavailable) else
  owned ownerID pl (fun p =>
    let dotExt := ToLower (Ext filename) in
    if bool_decide (image_type dotExt = None) then mret (Err PErrUnsupportedMedia) else
    let ext := trim_dot dotExt in
    let ext := if bool_decide (ext = "jpeg"%string) then "jpg"%string else ext in
    w ← call (BlobPut (PlaylistThumbnailKey pl ext) r);
    match w with
    | Err e => mret (Err (PErrBlob e))
    | Ok _ =>
        _ ← match cover p with
            | Some old => if bool_decide (old = ext) then mret tt else dropCover pl old
            | None => mret tt
            end;
        u ← call (SetPlaylistThumbnail pl ext);
        match u with
        | Err e => mret (Err (PErrDB e))
        | Ok _ => _ ← (if ps_mirror s then call (EnqueuePlaylistCover pl) else mret tt); mret (Ok ext)
        end
    end).

(** [Service.ClearThumbnail] *)
Definition ClearThumbnail (ownerID pl : uuid) : M (result plerr unit) :=
  owned ownerID pl (fun p =>
    _ ← match cover p with
        | Some old => if ps_blobs s then dropCover pl old else mret tt
        | None => mret tt
        end;
    r ← call (ClearPlaylistThumbnail pl); mret (db r)).

End Service.

(** ** Lemmas: the order of items *)

Lemma leb_trans (x y z : string) : String.leb x y = true -> String.leb y z = true -> String.leb x z = true.
Proof.
  revert y z. induction x as [|a x IH]; intros [|b y] [|c z]; try done. unfold String.leb in *. cbn.
  unfold Ascii.compare. pose proof (N.compare_spec (Ascii.N_of_ascii a) (Ascii.N_of_ascii b)) as Hab.
  pose proof (N.compare_spec (Ascii.N_of_ascii b) (Ascii.N_of_ascii c)) as Hbc.
  pose proof (N.compare_spec (Ascii.N_of_ascii a) (Ascii.N_of_ascii c)) as Hac.
  destruct (N.compare (Ascii.N_of_ascii a) (Ascii.N_of_ascii b)), (N.compare (Ascii.N_of_ascii b) (Ascii.N_of_ascii c)),
    (N.compare (Ascii.N_of_ascii a) (Ascii.N_of_ascii c)); inversion Hab; inversion Hbc; inversion Hac; try done; try lia.
  apply IH.
Qed.

#[global] Instance item_le_trans : Transitive item_le.
Proof.
  intros x y z Hxy Hyz. unfold item_le in *.
  destruct Hxy as [?|(? & [?|[? ?]])], Hyz as [?|(? & [?|[? ?]])]; try (left; lia); right; (split; [lia|]);
    try (left; lia). right. split; [lia|]. by eapply leb_trans.
Qed.

#[global] Instance item_le_total : Total item_le.
Proof.
  intros x y. unfold item_le. destruct (Z.lt_trichotomy (it_position x.2) (it_position y.2)) as [?|[?|?]]; [by left; left| |by right; left].
  destruct (Z.lt_trichotomy (it_added x.2) (it_added y.2)) as [?|[?|?]]; [left; right; auto| |right; right; split; [lia|by left]].
  destruct (String.leb_total x.1 y.1); [left|right]; right; split; try lia; right; split; (lia || done).
Qed.

#[global] Instance item_le_antisymm : AntiSymm (=) item_le.
Proof.
  intros [v [p a]] [v' [p' a']]. unfold item_le. cbn.
  intros [?|(-> & [?|[-> Hv]])] [?|(? & [?|[? Hv']])]; try lia. by rewrite (String.leb_antisym v v').
Qed.

Lemma order_sorted m l :
  l ≡ₚ map_to_list m -> StronglySorted item_le l -> merge_sort item_le (map_to_list m) = l.
Proof.
  intros Hp Hs. apply (StronglySorted_unique item_le); [|done|by rewrite merge_sort_Permutation].
  apply Sorted_StronglySorted; [apply _|]. apply Sorted_merge_sort, _.
Qed.

Lemma order_of_elem m v : v ∈ order_of m <-> is_Some (m !! v).
Proof.
  unfold order_of. rewrite merge_sort_Permutation. rewrite list_elem_of_fmap. split.
  - intros ([v' it] & -> & H%elem_of_map_to_list). by exists it.
  - intros [it Hit]. exists (v, it). by rewrite elem_of_map_to_list.
Qed.

Lemma order_of_NoDup m : NoDup (order_of m).
Proof. unfold order_of. rewrite merge_sort_Permutation. apply NoDup_fst_map_to_list. Qed.

(** A list of pairs that is the map. *)
Lemma perm_of_lookup (l : list (uuid * Item)) m :
  NoDup l.*1 -> (forall v it, (v, it) ∈ l <-> m !! v = Some it) -> l ≡ₚ map_to_list m.
Proof.
  intros Hnd Hl. apply NoDup_Permutation; [by eapply NoDup_fmap_1|apply NoDup_map_to_list|].
  intros [v it]. by rewrite Hl, elem_of_map_to_list.
Qed.

(** The items in the order of a list, numbered from [k + 1]. *)
Fixpoint numbered (k : Z) (m : gmap uuid Item) (l : list uuid) : list (uuid * Item) :=
  match l with
  | [] => []
  | v :: l' => (v, mkItem (k + 1) (match m !! v with Some it => it_added it | None => 0 end)) :: numbered (k + 1) m l'
  end.

Lemma numbered_fst k m l : (numbered k m l).*1 = l.
Proof. revert k. induction l as [|v l IH]; intros k; [done|]. cbn. by rewrite IH. Qed.

Lemma numbered_elem k m l v it : NoDup l ->
  (v, it) ∈ numbered k m l <->
  exists i, index v l = Some i /\ it = mkItem (k + Z.of_nat i + 1) (match m !! v with Some it => it_added it | None => 0 end).
Proof.
  revert k. induction l as [|x l IH]; intros k Hnd; cbn [numbered index].
  { split; [by intros ?%elem_of_nil|by intros (i & ? & _)]. }
  apply NoDup_cons in Hnd as [Hx Hnd]. rewrite elem_of_cons, IH by done. case_bool_decide as Hv.
  - subst x. split.
    + intros [[= ->]|(i & Hi & _)]; [exists O; split; [done|f_equal; lia]|].
      exfalso. apply Hx. clear -Hi. revert i Hi. induction l as [|y l IHl]; intros i; [done|]. cbn.
      case_bool_decide; [subst; left|]. destruct (index v l) as [j|]; [|done]. intros _. right. by eapply IHl.
    + intros (i & [= <-] & ->). left. do 2 f_equal. lia.
  - split.
    + intros [[= -> _]|(i & Hi & ->)]; [done|]. exists (S i). rewrite Hi. split; [done|]. f_equal. lia.
    + intros (i & Hi & ->). destruct (index v l) as [j|]; [|done]. injection Hi as <-. right. exists j. split; [done|]. f_equal. lia.
Qed.

Lemma numbered_sorted k m l : StronglySorted item_le (numbered k m l) /\ Forall (fun p => k < it_position p.2) (numbered k m l).
Proof.
  revert k. induction l as [|v l IH]; intros k; cbn; [split; constructor|]. destruct (IH (k + 1)) as [Hs Hf].
  split; constructor; try done; try (cbn; lia).
  - eapply Forall_impl; [exact Hf|]. intros p Hp. left. exact Hp.
  - eapply Forall_impl; [exact Hf|]. intros p Hp. cbn in *. lia.
Qed.

Lemma index_elem v l : v ∈ l <-> is_Some (index v l).
Proof.
  induction l as [|x l IH]; cbn; [split; [by intros ?%elem_of_nil|by intros [? ?]]|].
  rewrite elem_of_cons, IH. case_bool_decide as Hv; [split; [by eexists|by left]|].
  destruct (index v l) as [i|]; split; cbn; try (intros [?|[? ?]]; done); try (by intros [? ?]); eauto.
Qed.

(** Renumbering by a permutation of the items puts them in that order. *)
Lemma order_renumber l m : l ≡ₚ order_of m -> order_of (renumber l m) = l.
Proof.
  intros Hp. assert (Hnd : NoDup l) by (rewrite Hp; apply order_of_NoDup).
  unfold order_of at 1. rewrite (order_sorted (renumber l m) (numbered 0 m l)); [apply numbered_fst| |apply numbered_sorted].
  apply perm_of_lookup; [by rewrite numbered_fst|]. intros v it. rewrite numbered_elem by done.
  unfold renumber. rewrite map_lookup_imap. assert (Hv : v ∈ l <-> is_Some (m !! v)) by (rewrite Hp; apply order_of_elem).
  rewrite index_elem in Hv. destruct (m !! v) as [it0|]; cbn.
  - destruct (proj2 Hv ltac:(by eexists)) as [i Hi]. rewrite Hi. split; [intros (j & [= <-] & ->)|intros [= <-]; exists i]; [|split; [done|]];
      repeat f_equal; lia.
  - split; [|done]. intros (i & Hi & _). destruct (proj1 Hv ltac:(by rewrite Hi)) as [? ?]. done.
Qed.

Lemma sorted_impl {A} (R R' : A -> A -> Prop) l :
  StronglySorted R l -> (forall x y, x ∈ l -> y ∈ l -> R x y -> R' x y) -> StronglySorted R' l.
Proof.
  induction 1 as [|x l Hs IH Hf]; intros Himp; constructor.
  - apply IH. intros y z Hy Hz. apply Himp; by right.
  - apply Forall_forall. intros y Hy. rewrite Forall_forall in Hf. apply Himp; [left|by right|auto].
Qed.

Lemma fst_filter (v : uuid) (l : list (uuid * Item)) : (filter (fun p => p.1 <> v) l).*1 = filter (fun x => x <> v) l.*1.
Proof.
  induction l as [|p l IH]; [done|]. rewrite fmap_cons, !filter_cons. cbn. case_decide; [by rewrite fmap_cons, IH|done].
Qed.

Lemma map_sorted m : StronglySorted item_le (merge_sort item_le (map_to_list m)).
Proof. apply Sorted_StronglySorted; [apply _|]. apply Sorted_merge_sort, _. Qed.

Lemma max_position_ge m v it : m !! v = Some it -> it_position it <= max_position m.
Proof.
  intros Hv%elem_of_map_to_list. unfold max_position. induction (map_to_list m) as [|p l IH]; [by apply elem_of_nil in Hv|].
  apply elem_of_cons in Hv as [<-|Hv]; cbn; [lia|]. specialize (IH Hv). lia.
Qed.

Lemma order_add m v t : m !! v = None ->
  order_of (<[v := mkItem (max_position m + 1) t]> m) = order_of m ++ [v].
Proof.
  intros Hv. unfold order_of at 1.
  rewrite (order_sorted _ (merge_sort item_le (map_to_list m) ++ [(v, mkItem (max_position m + 1) t)])).
  - by rewrite fmap_app.
  - rewrite map_to_list_insert by done. rewrite merge_sort_Permutation. symmetry. apply Permutation_cons_append.
  - apply StronglySorted_app_2; [|apply map_sorted|repeat constructor].
    intros [v' it'] x Hin ->%list_elem_of_singleton. rewrite merge_sort_Permutation, elem_of_map_to_list in Hin.
    left. cbn. apply max_position_ge in Hin. lia.
Qed.

Lemma order_remove m v : order_of (delete v m) = filter (fun x => x <> v) (order_of m).
Proof.
  unfold order_of at 1. rewrite (order_sorted _ (filter (fun p => p.1 <> v) (merge_sort item_le (map_to_list m)))).
  - apply fst_filter.
  - apply perm_of_lookup.
    + rewrite fst_filter. apply NoDup_filter, order_of_NoDup.
    + intros x it. rewrite list_elem_of_filter, merge_sort_Permutation, elem_of_map_to_list. cbn.
      rewrite lookup_delete_Some. naive_solver.
  - apply sorted_filter, map_sorted.
Qed.

(** ** The abstract playlist: an ordered list *)

(** Directly after [a]; unchanged when [a] is not there. *)
Fixpoint insert_after (v a : uuid) (l : list uuid) : list uuid :=
  match l with
  | [] => []
  | x :: l' => if bool_decide (x = a) then x :: v :: l' else x :: insert_after v a l'
  end.

Definition place_after (v : uuid) (after : option uuid) (l : list uuid) : list uuid :=
  let rest := filter (fun x => x <> v) l in
  match after with None => v :: rest | Some a => insert_after v a rest end.

Definition append_new (v : uuid) (l : list uuid) : list uuid := if bool_decide (v ∈ l) then l else l ++ [v].

Lemma insert_after_perm v a l : a ∈ l -> insert_after v a l ≡ₚ v :: l.
Proof.
  induction l as [|x l IH]; [by intros ?%elem_of_nil|]. cbn. case_bool_decide as Hx; [intros _; constructor|].
  intros [->|Ha]%elem_of_cons; [done|]. rewrite IH by done. constructor.
Qed.

Lemma place_after_perm v after l : NoDup l -> v ∈ l -> (forall a, after = Some a -> a ∈ l /\ a <> v) -> place_after v after l ≡ₚ l.
Proof.
  intros Hnd Hv Ha. assert (Hp : v :: filter (fun x => x <> v) l ≡ₚ l).
  { apply NoDup_Permutation; [constructor|done|].
    - rewrite list_elem_of_filter. tauto.
    - by apply NoDup_filter.
    - intros x. rewrite elem_of_cons, list_elem_of_filter. destruct (decide (x = v)) as [->|]; tauto. }
  unfold place_after. destruct after as [a|]; [|done]. rewrite insert_after_perm; [done|].
  apply list_elem_of_filter. destruct (Ha a eq_refl). done.
Qed.

(** Ranks grow along a list without repetitions. *)
Definition rank (l : list uuid) (x : uuid) : Z := match index x l with Some i => Z.of_nat i + 1 | None => 0 end.

Lemma rank_sorted l : NoDup l -> StronglySorted (fun x y => rank l x < rank l y) l /\ Forall (fun x => 0 < rank l x) l.
Proof.
  induction l as [|v l IH]; intros Hnd; [split; constructor|]. apply NoDup_cons in Hnd as [Hv Hnd].
  destruct (IH Hnd) as [Hs Hf]. assert (Hr : forall x, x ∈ l -> rank (v :: l) x = rank l x + 1 /\ 0 < rank l x).
  { intros x Hx. rewrite Forall_forall in Hf. specialize (Hf x Hx). split; [|done]. unfold rank in *. cbn.
    rewrite bool_decide_eq_false_2 by congruence. destruct (index x l); cbn; [lia|done]. }
  assert (Hv1 : rank (v :: l) v = 1) by (unfold rank; cbn; by rewrite bool_decide_eq_true_2).
  split.
  - constructor.
    + eapply sorted_impl; [exact Hs|]. intros x y Hx Hy Hxy. cbn beta in *. destruct (Hr x Hx) as [-> _], (Hr y Hy) as [-> _]. lia.
    + apply Forall_forall. intros y Hy. rewrite Hv1. destruct (Hr y Hy). lia.
  - constructor; [lia|]. apply Forall_forall. intros y Hy. destruct (Hr y Hy). lia.
Qed.

(** Inserting at a slot between the anchor's and the next. *)
Lemma insert_after_sorted (f : uuid -> Z) v a l :
  StronglySorted (fun x y => f x + 2 <= f y) l -> a ∈ l -> f v = f a + 1 ->
  StronglySorted (by_key f) (insert_after v a l).
Proof.
  intros Hs Ha Hv. assert (Hle : forall k, StronglySorted (fun x y => f x + 2 <= f y) k -> StronglySorted (by_key f) k).
  { intros k Hk. eapply sorted_impl; [exact Hk|]. unfold by_key. intros x y _ _ ?. lia. }
  induction Hs as [|x l Hl IH Hall]; [by apply elem_of_nil in Ha|]. cbn. case_bool_decide as Hx.
  - subst x. constructor; [constructor|].
    + by apply Hle.
    + eapply Forall_impl; [exact Hall|]. unfold by_key. intros y ?. lia.
    + constructor; [unfold by_key; lia|]. eapply Forall_impl; [exact Hall|]. unfold by_key. intros y ?. lia.
  - apply elem_of_cons in Ha as [->|Ha]; [done|]. constructor; [by apply IH|]. rewrite insert_after_perm by done.
    rewrite Forall_forall in Hall. constructor; [|apply Forall_forall; intros y Hy; specialize (Hall y Hy); unfold by_key; lia].
    specialize (Hall a Ha). unfold by_key. lia.
Qed.

Lemma index_lookup v l i : index v l = Some i -> l !! i = Some v.
Proof.
  revert i. induction l as [|x l IH]; intros i; cbn; [done|]. case_bool_decide as Hx; [intros [= <-]; by subst|].
  destruct (index v l) as [j|]; [|done]. intros [= <-]. cbn. by apply IH.
Qed.

Lemma slot_rank l v n x : x <> v -> slot l v n x = 2 * rank l x.
Proof. intros Hx. unfold slot, rank. rewrite bool_decide_eq_false_2 by done. destruct (index x l); lia. Qed.

Lemma slot_moved l v n : slot l v n v = 2 * n + 1.
Proof. unfold slot. rewrite bool_decide_eq_true_2 by done. lia. Qed.

Lemma slot_inj l v n x y : x ∈ l -> y ∈ l -> slot l v n x = slot l v n y -> x = y.
Proof.
  intros Hx Hy. destruct (decide (x = v)) as [->|Hxv], (decide (y = v)) as [->|Hyv]; [done|..].
  - rewrite slot_moved, slot_rank by done. lia.
  - rewrite slot_moved, slot_rank by done. lia.
  - rewrite !slot_rank by done. unfold rank. apply index_elem in Hx as [i Hi], Hy as [j Hj]. rewrite Hi, Hj. intros He.
    assert (i = j) as -> by lia. apply index_lookup in Hi, Hj. congruence.
Qed.

(** Sorting by slots is placing after the anchor. *)
Lemma slots_place l v after n :
  NoDup l -> v ∈ l -> match after with None => n = 0 | Some a => a ∈ l /\ a <> v /\ n = rank l a end ->
  merge_sort (by_key (slot l v n)) l = place_after v after l.
Proof.
  intros Hnd Hv Ha. destruct (rank_sorted l Hnd) as [Hs Hpos].
  assert (Hrest : StronglySorted (fun x y => slot l v n x + 2 <= slot l v n y) (filter (fun x => x <> v) l)).
  { eapply sorted_impl; [by apply sorted_filter|]. cbn beta. intros x y [Hx _]%list_elem_of_filter [Hy _]%list_elem_of_filter Hr.
    rewrite !slot_rank by done. lia. }
  assert (Hperm : place_after v after l ≡ₚ l).
  { apply place_after_perm; [done..|]. intros a ->. tauto. }
  apply (StronglySorted_unique_strong (by_key (slot l v n))).
  - intros x y Hx Hy Hxy Hyx. rewrite merge_sort_Permutation in Hx. rewrite Hperm in Hy. unfold by_key in *.
    apply (slot_inj l v n); [done..|lia].
  - apply Sorted_StronglySorted; [apply _|]. apply Sorted_merge_sort, _.
  - unfold place_after. destruct after as [a|].
    + destruct Ha as (Ha & Hav & ->). apply insert_after_sorted; [done| |].
      * by apply list_elem_of_filter.
      * rewrite slot_moved, slot_rank by done. lia.
    + subst n. constructor.
      * eapply sorted_impl; [exact Hrest|]. unfold by_key. intros x y _ _ ?. lia.
      * apply Forall_forall. intros x [Hx Hxl]%list_elem_of_filter. rewrite Forall_forall in Hpos. specialize (Hpos x Hxl).
        unfold by_key. rewrite slot_moved, slot_rank by done. lia.
  - by rewrite merge_sort_Permutation.
Qed.

(** The first loop of [samePermutation] collects a list without repetitions. *)
Lemma no_repeat_spec l : forall seen,
  match no_repeat seen l with
  | Some out => NoDup l /\ (forall x, x ∈ l -> x ∉ seen) /\ (forall x, x ∈ out <-> x ∈ l \/ x ∈ seen)
  | None => ~ (NoDup l /\ (forall x, x ∈ l -> x ∉ seen))
  end.
Proof.
  induction l as [|a l IH]; intros seen; cbn [no_repeat].
  { split; [constructor|]. split; [by intros x ?%elem_of_nil|]. intros x. rewrite elem_of_nil. tauto. }
  case_bool_decide as Ha; [intros [_ H]; apply (H a); [left|done]|].
  specialize (IH ({[a]} ∪ seen)). destruct (no_repeat _ l) as [out|].
  - destruct IH as (H1 & H2 & H3). split; [|split].
    + apply NoDup_cons. split; [|done]. intros Hin. apply (H2 a Hin). by apply elem_of_union_l, elem_of_singleton.
    + intros x [->|Hx]%elem_of_cons; [done|]. specialize (H2 x Hx). by apply not_elem_of_union in H2 as [_ ?].
    + intros x. rewrite H3, elem_of_cons, elem_of_union, elem_of_singleton. tauto.
  - intros [[Hal Hl]%NoDup_cons H2]. apply IH. split; [done|]. intros x Hx Hin. apply (H2 x ltac:(by right)).
    apply elem_of_union in Hin as [->%elem_of_singleton|?]; [done|done].
Qed.

Lemma samePermutation_spec want have : NoDup have -> samePermutation want have = true <-> want ≡ₚ have.
Proof.
  intros Hnd. pose proof (no_repeat_spec want ∅) as Hn. unfold samePermutation. rewrite andb_true_iff, Nat.eqb_eq. split.
  - intros [Hlen Hall]. destruct (no_repeat ∅ want) as [seen|]; [|done]. destruct Hn as (Hw & _ & Hseen).
    symmetry. apply submseteq_length_Permutation; [|lia]. apply NoDup_submseteq; [done|]. intros x Hx.
    apply (forallb_elem _ _ x) in Hall; [|done]. cbn beta in Hall. bools. apply Hseen in Hall as [?|?%elem_of_empty]; done.
  - intros Hp. split; [by rewrite Hp|]. destruct (no_repeat ∅ want) as [seen|].
    + destruct Hn as (_ & _ & Hseen). apply forallb_forall. intros x Hx%list_elem_of_In. apply bool_decide_eq_true_2, Hseen.
      left. by rewrite Hp.
    + exfalso. apply Hn. split; [by rewrite Hp|]. intros x _. apply not_elem_of_empty.
Qed.

(** ** Lemmas: the handlers *)

Section Refinement.
Context {B : Type} `{!Backend B} (s : PlaylistService).

(** The order of a playlist's items in a state. *)
Definition order (pl : uuid) (w : playlistW B) : list uuid := order_of (items_of pl (store (pdb w))).

(** No store call fails from here on. *)
Definition answering (w : playlistW B) : Prop := faults (pdb w) = [].

Lemma on_pdb_fine {A} (q : PlaylistDB -> result dberr A * PlaylistDB) (w : playlistW B) :
  answering w -> on_pdb q w = ((q (store (pdb w))).1, mkPlaylistW (Faulty (q (store (pdb w))).2 []) (pblobs w) (mirrored w)).
Proof. destruct w as [[d fl] b m]. unfold answering. cbn. by intros ->. Qed.

(** The gate of the owner-only operations. *)
Lemma run_owned {A} ownerID id (k : Playlist -> prog playlistE (result plerr A)) (w : playlistW B) :
  answering w ->
  run playlist_handler (owned ownerID id k) w =
    match playlists (store (pdb w)) !! id with
    | None => (Err PErrNotFound, w)
    | Some p => if bool_decide (plOwner p = ownerID) then run playlist_handler (k p) w else (Err PErrForbidden, w)
    end.
Proof.
  intros Hw. unfold owned, GetByID. rewrite !run_mbind, run_call. cbn [playlist_handler run mret prog_mret fst snd].
  rewrite on_pdb_fine by done. destruct w as [[d fl] b m]. unfold answering in Hw. cbn in Hw. subst fl. cbn.
  destruct (playlists d !! id) as [p|]; cbn; [|done]. by case_bool_decide.
Qed.

Lemma items_of_set pl x d : items_of pl (set_items <[pl := x]> d) = x.
Proof. unfold items_of. cbn. by rewrite lookup_insert_eq. Qed.

(** A statement after the gate. *)
Lemma run_after_gate {A X} (e : playlistE (result dberr X)) (q : PlaylistDB -> result dberr X * PlaylistDB)
    (f : result dberr X -> result plerr A) (w : playlistW B) :
  answering w -> playlist_handler _ e w = on_pdb q w ->
  run playlist_handler (r ← call e; mret (f r)) w =
    (f (q (store (pdb w))).1, mkPlaylistW (Faulty (q (store (pdb w))).2 []) (pblobs w) (mirrored w)).
Proof. intros Hw He. rewrite run_mbind, run_call, He, on_pdb_fine by done. done. Qed.

Lemma move_order pl v after d :
  let l := order_of (items_of pl d) in
  after <> Some v ->
  (if bool_decide (v ∈ l) && match after with Some a => bool_decide (a ∈ l) | None => true end
   then exists n, (q_MovePlaylistItem pl v after d).1 = Ok n /\ n <> 0 /\
          order_of (items_of pl (q_MovePlaylistItem pl v after d).2) = place_after v after l
   else q_MovePlaylistItem pl v after d = (Ok 0, d)).
Proof.
  intros l Hne. unfold q_MovePlaylistItem. cbv zeta. fold l.
  assert (Hl : NoDup l) by apply order_of_NoDup.
  assert (Hidx : forall x, index x l = None <-> x ∉ l).
  { intros x. rewrite index_elem. apply eq_None_not_Some. }
  destruct (index v l) as [i|] eqn:Hi.
  2:{ rewrite bool_decide_eq_false_2 by (by apply Hidx). cbn. repeat case_match; done. }
  assert (Hv : v ∈ l) by (apply index_elem; by rewrite Hi). rewrite bool_decide_eq_true_2 by done. cbn [andb].
  assert (Hlen : Z.of_nat (length l) <> 0) by (destruct l; [by apply elem_of_nil in Hv|cbn; lia]).
  assert (Hmove : forall n, match after with None => n = 0 | Some a => a ∈ l /\ a <> v /\ n = rank l a end ->
    order_of (renumber (merge_sort (by_key (slot l v n)) l) (items_of pl d)) = place_after v after l).
  { intros n Hn. rewrite order_renumber; [by apply slots_place|]. rewrite merge_sort_Permutation. done. }
  destruct after as [a|].
  - destruct (index a l) as [j|] eqn:Hj.
    + assert (Ha : a ∈ l) by (apply index_elem; by rewrite Hj). rewrite bool_decide_eq_true_2 by done.
      eexists. split; [reflexivity|]. split; [exact Hlen|]. cbn [snd]. rewrite items_of_set. apply Hmove.
      split_and!; [done|congruence|]. unfold rank. by rewrite Hj.
    + rewrite bool_decide_eq_false_2 by (by apply Hidx). done.
  - eexists. split; [reflexivity|]. split; [exact Hlen|]. cbn [snd]. rewrite items_of_set. by apply Hmove.
Qed.

(** The body of [ReorderItems] on a permutation, and on anything else. *)
Definition reorder_body (pl : uuid) (vids : list uuid) : prog playlistE (result plerr unit) :=
  c ← call (ListPlaylistItemVideoIDs pl);
  match c with
  | Err e => mret (Err (PErrDB e))
  | Ok current =>
      if negb (samePermutation vids current) then mret (Err PErrInvalidOrder)
      else if bool_decide (vids = []) then mret (Ok tt)
      else r ← call (ReorderPlaylistItems pl vids); mret (db r)
  end.

Lemma run_reorder_ok pl vids (w : playlistW B) :
  answering w -> vids ≡ₚ order pl w ->
  (run playlist_handler (reorder_body pl vids) w).1 = Ok tt /\
  order pl (run playlist_handler (reorder_body pl vids) w).2 = vids.
Proof.
  intros Hw Hperm. unfold reorder_body. rewrite run_mbind, run_call. cbn [playlist_handler].
  rewrite on_pdb_fine by done. cbn [fst snd q_ListPlaylistItemVideoIDs].
  rewrite (proj2 (samePermutation_spec _ _ (order_of_NoDup _))) by exact Hperm. cbn [negb]. case_bool_decide as Hn.
  - subst vids. cbn. split; [done|]. unfold order in *. cbn. symmetry in Hperm. by apply Permutation_nil_r in Hperm.
  - rewrite (run_after_gate _ (q_ReorderPlaylistItems pl vids)) by done. cbn [fst snd db q_ReorderPlaylistItems].
    split; [done|]. unfold order. cbn [pdb store]. rewrite items_of_set. by apply order_renumber.
Qed.

Lemma run_reorder_refused pl vids (w : playlistW B) :
  answering w -> ~ vids ≡ₚ order pl w ->
  (run playlist_handler (reorder_body pl vids) w).1 = Err PErrInvalidOrder /\
  order pl (run playlist_handler (reorder_body pl vids) w).2 = order pl w.
Proof.
  intros Hw Hperm. unfold reorder_body. rewrite run_mbind, run_call. cbn [playlist_handler].
  rewrite on_pdb_fine by done. cbn [fst snd q_ListPlaylistItemVideoIDs].
  destruct (samePermutation vids _) eqn:Hs; [|done].
  exfalso. apply Hperm. by apply (samePermutation_spec _ _ (order_of_NoDup _)).
Qed.

Lemma run_MoveItem ownerID pl v after p (w : playlistW B) :
  answering w -> playlists (store (pdb w)) !! pl = Some p -> plOwner p = ownerID -> after <> Some v ->
  run playlist_handler (MoveItem ownerID pl v after) w =
    (match (q_MovePlaylistItem pl v after (store (pdb w))).1 with
     | Err e => Err (PErrDB e)
     | Ok n => if n =? 0 then Err PErrItemNotFound else Ok tt
     end, mkPlaylistW (Faulty (q_MovePlaylistItem pl v after (store (pdb w))).2 []) (pblobs w) (mirrored w)).
Proof.
  intros Hw Hp Ho Ha. unfold MoveItem. rewrite run_owned, Hp, bool_decide_eq_true_2 by done.
  rewrite bool_decide_eq_false_2 by done. by rewrite (run_after_gate _ (q_MovePlaylistItem pl v after)).
Qed.

End Refinement.

(** ** Properties *)

(** C37. A playlist is an ordered list. With the store answering, each edit the
    owner makes is the list operation it stands for: adding an existing video
    appends it unless it is there, removing takes it out, reordering is accepted
    exactly for a permutation of the items and puts them in that order, and
    moving places one item directly after its anchor (or first) leaving the
    others in order, however the positions were numbered, tied or gapped before.
    Invalid requests, and anyone else's, are refused and change nothing. *)
Theorem playlist_edits_refine_list {B : Type} `{!Backend B} (ownerID pl v : uuid) (after : option uuid) (vids : list uuid)
    (w : playlistW B) (p : Playlist) :
  answering w -> playlists (store (pdb w)) !! pl = Some p ->
  let l := order pl w in
  let ran {A} (op : prog playlistE (result plerr A)) (r : result plerr A) (l' : list uuid) : Prop :=
    (run playlist_handler op w).1 = r /\ order pl (run playlist_handler op w).2 = l' in
  if bool_decide (plOwner p = ownerID) then
    (pvideos (store (pdb w)) !! v <> None -> ran (AddItem ownerID pl v) (Ok tt) (append_new v l)) /\
    ran (RemoveItem ownerID pl v) (Ok tt) (filter (fun x => x <> v) l) /\
    (vids ≡ₚ l -> ran (ReorderItems ownerID pl vids) (Ok tt) vids) /\
    (~ vids ≡ₚ l -> ran (ReorderItems ownerID pl vids) (Err PErrInvalidOrder) l) /\
    (if bool_decide (after = Some v) then ran (MoveItem ownerID pl v after) (Err PErrInvalidMove) l
     else if bool_decide (v ∈ l) && match after with Some a => bool_decide (a ∈ l) | None => true end
     then ran (MoveItem ownerID pl v after) (Ok tt) (place_after v after l)
     else ran (MoveItem ownerID pl v after) (Err PErrItemNotFound) l)
  else
    ran (AddItem ownerID pl v) (Err PErrForbidden) l /\ ran (RemoveItem ownerID pl v) (Err PErrForbidden) l /\
    ran (ReorderItems ownerID pl vids) (Err PErrForbidden) l /\ ran (MoveItem ownerID pl v after) (Err PErrForbidden) l.
Proof.
  intros Hw Hp l ran. unfold AddItem, RemoveItem, ReorderItems. case_bool_decide as Ho.
  2:{ unfold ran, MoveItem. rewrite !run_owned, Hp, bool_decide_eq_false_2 by done. done. }
  split_and!.
  - intros Hv. unfold ran. rewrite run_owned, Hp, bool_decide_eq_true_2 by done.
    rewrite (run_after_gate _ (q_AddPlaylistItem pl v)) by done. cbn [fst snd]. unfold order at 1. cbn [pdb store].
    unfold q_AddPlaylistItem. rewrite Hp, !bool_decide_eq_false_2 by done. cbn [orb].
    unfold append_new. destruct (items_of pl (store (pdb w)) !! v) as [it|] eqn:Hi; cbn [fst snd db].
    + rewrite bool_decide_eq_true_2; [done|]. apply order_of_elem. by eexists.
    + rewrite bool_decide_eq_false_2 by (unfold l, order; rewrite order_of_elem, Hi; by intros [? ?]).
      split; [done|]. rewrite items_of_set. by apply order_add.
  - unfold ran. rewrite run_owned, Hp, bool_decide_eq_true_2 by done.
    rewrite (run_after_gate _ (q_RemovePlaylistItem pl v)) by done. cbn [fst snd db q_RemovePlaylistItem]. split; [done|].
    unfold order at 1. cbn [pdb store]. rewrite items_of_set. apply order_remove.
  - intros Hperm. unfold ran. rewrite run_owned, Hp, bool_decide_eq_true_2 by done. apply run_reorder_ok; done.
  - intros Hperm. unfold ran. rewrite run_owned, Hp, bool_decide_eq_true_2 by done. apply run_reorder_refused; done.
  - case_bool_decide as Ha.
    { unfold ran, MoveItem. rewrite run_owned, Hp, !bool_decide_eq_true_2 by done. done. }
    pose proof (move_order pl v after (store (pdb w)) Ha) as Hm. cbv zeta in Hm.
    change (order_of (items_of pl (store (pdb w)))) with l in Hm.
    pose proof (run_MoveItem ownerID pl v after p w Hw Hp Ho Ha) as Hrun.
    destruct (bool_decide (v ∈ l) && _); unfold ran; rewrite Hrun.
    + destruct Hm as (n & -> & Hn & Hord). cbn [fst snd]. destruct (Z.eqb_spec n 0); [done|]. split; [done|]. exact Hord.
    + rewrite Hm. cbn. done.
Qed.

(** One playlist of three videos, with tied positions. *)
Definition demo_playlist_w : playlistW LocalFS :=
  mkPlaylistW (Faulty (mkPlaylistDB
      {["p"%string := mkPlaylist "p" "o" "t" "" Public None None 0]}
      {["p"%string := {["a"%string := mkItem 1 10; "b"%string := mkItem 2 20; "c"%string := mkItem 2 20]}]}
      ∅ {["a"%string := true; "b"%string := true; "c"%string := true]} ∅ 100 (fun _ => "g"%string) 0) [])
    (mkLocalFS (mkLocal ∅ ∅) []) [].

Lemma playlist_edits_refine_list_witness :
  order "p" demo_playlist_w = ["a"; "b"; "c"]%string /\
  (run playlist_handler (MoveItem "o" "p" "a" (Some "b"%string)) demo_playlist_w).1 = Ok tt /\
  order "p" (run playlist_handler (MoveItem "o" "p" "a" (Some "b"%string)) demo_playlist_w).2 = ["b"; "a"; "c"]%string.
Proof.
  split; [vm_compute; reflexivity|].
  pose proof (playlist_edits_refine_list "o" "p" "a" (Some "b"%string) [] demo_playlist_w
    (mkPlaylist "p" "o" "t" "" Public None None 0) eq_refl ltac:(vm_compute; reflexivity)) as H.
  cbv zeta in H. change (bool_decide (plOwner (mkPlaylist "p" "o" "t" "" Public None None 0) = "o"%string)) with true in H.
  cbv iota in H. destruct H as (_ & _ & _ & _ & H).
  replace (order "p" demo_playlist_w) with ["a"; "b"; "c"]%string in H by (vm_compute; reflexivity).
  exact H.
Defined.
