(* ===== verification/MediaKeys.v ===== *)
(** * The key grammar of stored media (src/internal/media: hls.go, web_video.go,
    keys.go)

    Where originals, transcode generations, posters and covers live in the
    object store, and how a generation and a source version are read back from
    a key. *)
From S2P Require Import Prelude GoStrings Storage.
Local Open Scope Z_scope.

(** ** Go's standard library *)

Definition dot : ascii := Ascii.ascii_of_nat 46.
Definition letter_r : ascii := Ascii.ascii_of_nat 114.

(** [strings.Cut(s, c)] for a single byte: what is before it, and what is
    after it when it occurs. *)
Fixpoint Cut (c : ascii) (s : string) : string * option string :=
  match s with
  | EmptyString => (EmptyString, None)
  | String c' s' =>
      if bool_decide (c' = c) then (EmptyString, Some s')
      else match Cut c s' with (before, after) => (String c' before, after) end
  end.

(** [strings.CutPrefix] *)
Fixpoint CutPrefix (s prefix : string) {struct prefix} : option string :=
  match prefix, s with
  | EmptyString, _ => Some s
  | String c p', String c' s' => if bool_decide (c = c') then CutPrefix s' p' else None
  | String _ _, EmptyString => None
  end.

(** [strings.Split(s, ".")] *)
Fixpoint split_dot (s : string) : list string :=
  match s with
  | EmptyString => [EmptyString]
  | String c s' =>
      if bool_decide (c = dot) then EmptyString :: split_dot s'
      else match split_dot s' with w :: ws => String c w :: ws | [] => [String c EmptyString] end
  end.

(** [path.Base] *)
Definition path_Base (p : string) : string :=
  match rev (filter (fun seg => seg <> EmptyString) (split_slash p)) with
  | seg :: _ => seg
  | [] => if bool_decide (p = EmptyString) then "." else "/"
  end.

Definition is_digit (c : ascii) : bool := (48 <=? code c) && (code c <=? 57).
Definition is_alnum (c : ascii) : bool :=
  is_digit c || ((65 <=? code c) && (code c <=? 90)) || ((97 <=? code c) && (code c <=? 122)).

Fixpoint all_chars (f : ascii -> bool) (s : string) : bool :=
  match s with EmptyString => true | String c s' => f c && all_chars f s' end.

Fixpoint decimal (s : string) (acc : Z) : Z :=
  match s with EmptyString => acc | String c s' => decimal s' (acc * 10 + (code c - 48)) end.

(** ** Generations *)

(** [media.HLSGenerationName] *)
Definition HLSGenerationName (version : Z) : string :=
  if version <=? 0 then EmptyString else "r" +:+ pretty version.

(** [media.IsHLSGenerationName]: an r and a number without leading zero. *)
Definition IsHLSGenerationName (segment : string) : bool :=
  match segment with
  | String r (String d rest) =>
      bool_decide (r = letter_r) && is_digit d && negb (bool_decide (d = Ascii.ascii_of_nat 48)) &&
      all_chars is_digit rest
  | _ => false
  end.

(** [media.HLSKeyPrefix] *)
Definition HLSKeyPrefix (videoID : uuid) : string := "streaming-playlists/" +:+ videoID.

(** [media.HLSPrefixForGeneration] *)
Definition HLSPrefixForGeneration (videoID : uuid) (generation : Z) : string :=
  if bool_decide (HLSGenerationName generation = EmptyString) then HLSKeyPrefix videoID
  else HLSKeyPrefix videoID +:+ "/" +:+ HLSGenerationName generation.

(** [media.WebVideoPrefixForGeneration] *)
Definition WebVideoPrefixForGeneration (videoID : uuid) (generation : Z) : string :=
  if bool_decide (HLSGenerationName generation = EmptyString) then "web-videos/" +:+ videoID
  else "web-videos/" +:+ videoID +:+ "/" +:+ HLSGenerationName generation.

(** [media.VideoThumbnailKey] *)
Definition VideoThumbnailKey (videoID : uuid) : string := "thumbnails/" +:+ videoID +:+ ".jpg".

(** ** Source versions *)

(** [media.OriginalVideoKey] *)
Definition OriginalVideoKey (videoID : uuid) (version : Z) (ext : string) : string :=
  if version <=? 0 then "web-videos/" +:+ videoID +:+ ext
  else "web-videos/" +:+ videoID +:+ "." +:+ HLSGenerationName version +:+ ext.

(** [media.OriginalKeyVersion]: the base name ends in ".rN.ext", for a number
    without leading zero and an alphanumeric extension; [strconv.Atoi] of the
    number. *)
Definition OriginalKeyVersion (key : string) : Z :=
  match rev (split_dot (path_Base key)) with
  | ext :: gen :: _ :: _ =>
      if negb (bool_decide (ext = EmptyString)) && all_chars is_alnum ext && IsHLSGenerationName gen then
        match gen with
        | String _ digits => if decimal digits 0 <=? max_int64 then decimal digits 0 else 0
        | EmptyString => 0
        end
      else 0
  | _ => 0
  end.

(** ** Lemmas: strings *)

Lemma append_assoc (s t u : string) : (s +:+ t) +:+ u = s +:+ (t +:+ u).
Proof. induction s as [|c s IH]; [done|]. change (String c ((s +:+ t) +:+ u) = String c (s +:+ (t +:+ u))). by rewrite IH. Qed.

Lemma CutPrefix_app p s : CutPrefix (p +:+ s) p = Some s.
Proof.
  induction p as [|c p IH]; [by destruct s|]. change (CutPrefix (String c (p +:+ s)) (String c p) = Some s). cbn.
  by rewrite bool_decide_eq_true_2.
Qed.

Lemma CutPrefix_Some p s t : CutPrefix s p = Some t -> s = p +:+ t.
Proof.
  revert s. induction p as [|c p IH]; intros s; [destruct s; cbn; by intros [= <-]|]. destruct s as [|c' s]; [done|]. cbn.
  case_bool_decide as Hc; [subst c'|done]. intros Ht. change (String c s = String c (p +:+ t)). f_equal. by apply IH.
Qed.

Lemma Cut_none c s : contains c s = false -> Cut c s = (s, None).
Proof.
  induction s as [|c' s IH]; [done|]. cbn. intros H. bools. rewrite bool_decide_eq_false_2 by congruence.
  by rewrite IH by done.
Qed.

Lemma Cut_app c s t : contains c s = false -> Cut c (s +:+ String c t) = (s, Some t).
Proof.
  induction s as [|c' s IH]; intros H; [change (Cut c (String c t) = (EmptyString, Some t)); cbn [Cut]; by rewrite bool_decide_eq_true_2|].
  change (Cut c (String c' (s +:+ String c t)) = (String c' s, Some t)). cbn in *. bools.
  rewrite bool_decide_eq_false_2 by congruence. by rewrite IH by done.
Qed.

(** Words of the characters of ids and numbers. *)
Lemma plain_contains c s : plain_char c = false -> plain_chars s = true -> contains c s = false.
Proof.
  intros Hc. induction s as [|c' s IH]; [done|]. cbn. intros H. bools. rewrite IH by done.
  rewrite bool_decide_eq_false_2; [done|]. intros ->. congruence.
Qed.

Lemma split_dot_app s t : contains dot s = false -> split_dot (s +:+ String dot t) = s :: split_dot t.
Proof.
  induction s as [|c s IH]; intros H; [done|]. change (split_dot (String c (s +:+ String dot t)) = String c s :: split_dot t).
  cbn in *. bools. rewrite bool_decide_eq_false_2 by congruence. by rewrite IH by done.
Qed.

Lemma split_dot_word s : contains dot s = false -> split_dot s = [s].
Proof.
  induction s as [|c s IH]; intros H; [done|]. cbn in *. bools. rewrite bool_decide_eq_false_2 by congruence.
  by rewrite IH by done.
Qed.

(** ** Lemmas: numbers *)

Lemma pretty_char_code (x : N) : (x < 10)%N -> code (pretty_N_char x) - 48 = Z.of_N x.
Proof. intros H. assert (Hc : (x = 0 \/ x = 1 \/ x = 2 \/ x = 3 \/ x = 4 \/ x = 5 \/ x = 6 \/ x = 7 \/ x = 8 \/ x = 9)%N) by lia.
  naive_solver. Qed.

Lemma pretty_char_digit (x : N) : is_digit (pretty_N_char x) = true.
Proof. unfold pretty_N_char. by repeat case_match. Qed.

Lemma pretty_go_digits x s : all_chars is_digit s = true -> all_chars is_digit (pretty_N_go x s) = true.
Proof.
  revert s. induction (N.lt_wf_0 x) as [x _ IH]. intros s Hs.
  destruct (decide (x = 0%N)) as [->|]; [by rewrite pretty_N_go_0|].
  rewrite pretty_N_go_step by lia. apply IH; [apply N.div_lt; lia|]. cbn [all_chars]. by rewrite pretty_char_digit.
Qed.

Lemma pretty_go_decimal x s : decimal (pretty_N_go x s) 0 = decimal s (Z.of_N x).
Proof.
  revert s. induction (N.lt_wf_0 x) as [x _ IH]. intros s.
  destruct (decide (x = 0%N)) as [->|]; [by rewrite pretty_N_go_0|].
  rewrite pretty_N_go_step by lia. rewrite IH by (apply N.div_lt; lia). cbn [decimal].
  rewrite pretty_char_code by (apply N.mod_lt; lia). f_equal.
  rewrite N2Z.inj_div, N2Z.inj_mod. change (Z.of_N 10) with 10. pose proof (Z.div_mod (Z.of_N x) 10 ltac:(lia)). lia.
Qed.

(** A positive number starts with a digit other than 0. *)
Lemma pretty_go_head x s : (0 < x)%N ->
  exists d t, pretty_N_go x s = String d t /\ is_digit d = true /\ d <> Ascii.ascii_of_nat 48.
Proof.
  revert s. induction (N.lt_wf_0 x) as [x _ IH]. intros s Hx. rewrite pretty_N_go_step by lia.
  destruct (decide (x < 10)%N) as [Hlt|Hge].
  - rewrite N.div_small, pretty_N_go_0, N.mod_small by done. do 2 eexists. split; [done|]. split; [apply pretty_char_digit|].
    intros He. apply (f_equal code) in He. pose proof (pretty_char_code x Hlt) as Hc. rewrite He in Hc.
    change (code (Ascii.ascii_of_nat 48)) with 48 in Hc. lia.
  - apply IH; [apply N.div_lt; lia|]. apply N.div_str_pos. lia.
Qed.

Lemma pretty_pos n : 0 < n -> pretty n = pretty_N_go (Z.to_N n) "".
Proof. intros Hn. destruct n as [|p|p]; [lia| |lia]. reflexivity. Qed.

(** ** Lemmas: generations and versions *)

Lemma generation_name_pos n : 0 < n -> HLSGenerationName n = "r" +:+ pretty n.
Proof. intros Hn. unfold HLSGenerationName. by rewrite (proj2 (Z.leb_gt n 0)). Qed.

Lemma generation_name_nonempty n : 0 < n -> HLSGenerationName n <> EmptyString.
Proof. intros Hn. by rewrite generation_name_pos. Qed.

(** Names of generations are recognised, and nothing is without a number. *)
Lemma generation_name_recognised n : IsHLSGenerationName (HLSGenerationName n) = (0 <? n).
Proof.
  destruct (Z.ltb_spec 0 n) as [Hn|Hn].
  - rewrite generation_name_pos, pretty_pos by done.
    destruct (pretty_go_head (Z.to_N n) "") as (d & t & Hp & Hd & H0); [lia|].
    pose proof (pretty_go_digits (Z.to_N n) "" eq_refl) as Ha. rewrite Hp in *. cbn in Ha. bools.
    change (IsHLSGenerationName (String letter_r (String d t)) = true). unfold IsHLSGenerationName.
    by rewrite bool_decide_eq_true_2, Hd, (bool_decide_eq_false_2 _ H0) by done.
  - unfold HLSGenerationName. by rewrite (proj2 (Z.leb_le n 0)).
Qed.

Lemma generation_name_decimal n : 0 < n ->
  exists digits, HLSGenerationName n = String letter_r digits /\ decimal digits 0 = n.
Proof.
  intros Hn. exists (pretty n). rewrite generation_name_pos by done. split; [done|].
  rewrite pretty_pos by done. rewrite pretty_go_decimal. cbn. lia.
Qed.

Lemma generation_name_inj m n : 0 < m -> 0 < n -> HLSGenerationName m = HLSGenerationName n -> m = n.
Proof.
  intros Hm Hn He. destruct (generation_name_decimal m Hm) as (d1 & E1 & <-).
  destruct (generation_name_decimal n Hn) as (d2 & E2 & <-). congruence.
Qed.

Lemma generation_name_plain n : plain_chars (HLSGenerationName n) = true.
Proof.
  destruct (Z.ltb_spec 0 n) as [Hn|Hn].
  - rewrite generation_name_pos by done. pose proof (pretty_Z_plain n ltac:(lia)) as Hp. unfold plain in Hp. bools. done.
  - unfold HLSGenerationName. by rewrite (proj2 (Z.leb_le n 0)).
Qed.

(** An extension as the services build it. *)
Definition good_ext (ext : string) : Prop :=
  exists e, ext = String dot e /\ e <> EmptyString /\ all_chars is_alnum e = true.

Lemma alnum_contains c s : is_alnum c = false -> all_chars is_alnum s = true -> contains c s = false.
Proof.
  intros Hc. induction s as [|c' s IH]; [done|]. cbn. intros H. bools. rewrite IH by done.
  rewrite bool_decide_eq_false_2; [done|]. intros ->. congruence.
Qed.

Lemma path_Base_last d s : contains slash d = false -> contains slash s = false -> s <> EmptyString ->
  path_Base (d +:+ String slash s) = s.
Proof.
  intros Hd Hs Hne. unfold path_Base. rewrite split_slash_no_slash, split_slash_single by done.
  rewrite filter_cons. case_decide; rewrite filter_cons, decide_True by done; done.
Qed.

Lemma original_base id v e :
  plain id = true -> e <> EmptyString -> all_chars is_alnum e = true ->
  path_Base (OriginalVideoKey id v (String dot e)) =
    if v <=? 0 then id +:+ String dot e else id +:+ String dot (HLSGenerationName v +:+ String dot e).
Proof.
  intros Hid Hne He. unfold plain in Hid. bools.
  assert (Hi : contains slash id = false) by (by apply plain_contains).
  assert (Hes : contains slash e = false) by (by apply alnum_contains).
  assert (Hg : contains slash (HLSGenerationName v) = false) by (apply plain_contains; [done|apply generation_name_plain]).
  unfold OriginalVideoKey. destruct (v <=? 0).
  - apply (path_Base_last "web-videos" (id +:+ String dot e)); [done| |by destruct id].
    rewrite contains_app, Hi. cbn [contains orb]. by rewrite Hes.
  - apply (path_Base_last "web-videos" (id +:+ String dot (HLSGenerationName v +:+ String dot e))); [done| |by destruct id].
    rewrite contains_app, Hi. cbn [contains orb]. rewrite contains_app, Hg. cbn [contains orb]. by rewrite Hes.
Qed.

(** The version of an original is read back from its key: any id, any
    extension, any version an [int] holds; an unversioned key is version 0. *)
Theorem original_key_version (id : uuid) (v : Z) (ext : string) :
  plain id = true -> good_ext ext -> 0 <= v <= max_int64 ->
  OriginalKeyVersion (OriginalVideoKey id v ext) = v.
Proof.
  intros Hid (e & -> & Hne & He) Hv. unfold OriginalKeyVersion. rewrite original_base by done. unfold plain in Hid. bools.
  assert (Hi : contains dot id = false) by (by apply plain_contains).
  assert (Hes : contains dot e = false) by (by apply alnum_contains).
  destruct (Z.leb_spec v 0) as [Hz|Hz].
  - rewrite split_dot_app, split_dot_word by done. cbn. lia.
  - assert (Hg : contains dot (HLSGenerationName v) = false) by (apply plain_contains; [done|apply generation_name_plain]).
    rewrite split_dot_app, split_dot_app, split_dot_word by done. cbn [rev app].
    rewrite generation_name_recognised, He, bool_decide_eq_false_2 by done. rewrite (proj2 (Z.ltb_lt 0 v)) by done. cbn [negb andb].
    destruct (generation_name_decimal v Hz) as (digits & -> & ->). by rewrite (proj2 (Z.leb_le v max_int64)) by lia.
Qed.

Lemma original_key_version_witness :
  OriginalKeyVersion (OriginalVideoKey "7c9e" 12 ".mp4") = 12 /\ OriginalKeyVersion (OriginalVideoKey "7c9e" 0 ".mp4") = 0.
Proof.
  split; apply original_key_version; try reflexivity; try (exists "mp4"%string; split_and!; [reflexivity|discriminate|reflexivity]);
    unfold max_int64; lia.
Defined.
