(* ===== verification/MediaStore.v ===== *)
(** * The tables and collaborators of the media pipeline

    [videos.transcode_generation], [video_files], [captions],
    [streaming_playlists], [video_renditions], [transcode_jobs], playlist covers
    and storage migrations; one definition per SQL statement
    (src/internal/store/queries: transcoding.sql, video_files.sql, media_gc.sql,
    storage_migrations.sql), the object store, and the signature [mediaE] that
    the transcode queue and the garbage collector run against. *)
From S2P Require Import Prelude GoStrings Queue Storage MediaKeys.
Local Open Scope Z_scope.

(** ** Rows *)

(** [transcode_jobs.transcode_type] *)
Inductive ttarget := TargetAll | TargetHLS | TargetWebVideo.

#[global] Instance ttarget_eq_dec : EqDecision ttarget.
Proof. solve_decision. Defined.

(** [transcode_jobs.state] *)
Inductive tstate := TPending | TRunning | TDone | TFailed.

#[global] Instance tstate_eq_dec : EqDecision tstate.
Proof. solve_decision. Defined.

Record TranscodeJob := mkTJob {
  tjID : uuid; tjVideo : uuid; tjSource : string; tjTarget : ttarget; tjState : tstate;
  tjAttempts : Z; tjNext : time; tjError : string;
}.

Record VideoFile := mkVideoFile { vfVideo : uuid; vfKind : string; vfKey : string; vfSize : Z; vfSha : string }.

(** [streaming_playlists] (keyed by video) *)
Record StreamingPlaylist := mkSP { spMaster : string; spState : string; spFormat : string }.

Record Rendition := mkRendition { rdHeight : Z; rdWidth : Z; rdPrefix : string; rdSize : Z }.

(** [mvideos] maps a video to its transcode_generation; [covers] is the id and
    thumbnail_ext of the playlists. *)
Record MediaDB := mkMedia {
  mvideos : gmap uuid Z;
  mfiles : list VideoFile;
  mcaptions : list (uuid * string);
  splaylists : gmap uuid StreamingPlaylist;
  renditions : gmap (uuid * Z) Rendition;
  tjobs : gmap uuid TranscodeJob;
  covers : list (uuid * option string);
  migrating : bool;
  mnow : time;
  mgen : nat -> uuid;
  mdrawn : nat;
}.

Definition set_mvideos f (d : MediaDB) := mkMedia (f (mvideos d)) (mfiles d) (mcaptions d) (splaylists d) (renditions d) (tjobs d) (covers d) (migrating d) (mnow d) (mgen d) (mdrawn d).
Definition set_mfiles f (d : MediaDB) := mkMedia (mvideos d) (f (mfiles d)) (mcaptions d) (splaylists d) (renditions d) (tjobs d) (covers d) (migrating d) (mnow d) (mgen d) (mdrawn d).
Definition set_splaylists f (d : MediaDB) := mkMedia (mvideos d) (mfiles d) (mcaptions d) (f (splaylists d)) (renditions d) (tjobs d) (covers d) (migrating d) (mnow d) (mgen d) (mdrawn d).
Definition set_renditions f (d : MediaDB) := mkMedia (mvideos d) (mfiles d) (mcaptions d) (splaylists d) (f (renditions d)) (tjobs d) (covers d) (migrating d) (mnow d) (mgen d) (mdrawn d).
Definition set_tjobs f (d : MediaDB) := mkMedia (mvideos d) (mfiles d) (mcaptions d) (splaylists d) (renditions d) (f (tjobs d)) (covers d) (migrating d) (mnow d) (mgen d) (mdrawn d).
Definition set_mnow t (d : MediaDB) := mkMedia (mvideos d) (mfiles d) (mcaptions d) (splaylists d) (renditions d) (tjobs d) (covers d) (migrating d) t (mgen d) (mdrawn d).
Definition mdraw (d : MediaDB) := mkMedia (mvideos d) (mfiles d) (mcaptions d) (splaylists d) (renditions d) (tjobs d) (covers d) (migrating d) (mnow d) (mgen d) (S (mdrawn d)).

Definition next_job (d : MediaDB) : uuid := mgen d (mdrawn d).

Abbreviation mstmt A := (MediaDB -> result dberr A * MediaDB) (only parsing).

(** ** transcode_jobs *)

Definition tlive (j : TranscodeJob) : bool := bool_decide (tjState j = TPending) || bool_decide (tjState j = TRunning).

(** Transcode jobs as rows of a queue: their subject is the video. *)
#[global] Instance transcode_queue : QueueRow TranscodeJob :=
  { row_id := tjID; row_subject := tjVideo; row_live := tlive }.

(** Some live job of the video (the partial unique index). *)
Definition has_live (v : uuid) (d : MediaDB) : bool := has_live_row v (tjobs d).

Definition with_state (st : tstate) (attempts : Z) (next : time) (err : string) (j : TranscodeJob) : TranscodeJob :=
  mkTJob (tjID j) (tjVideo j) (tjSource j) (tjTarget j) st attempts next err.

(** ON CONFLICT DO NOTHING: one live job per video. *)
Definition q_EnqueueTranscodeJob (v : uuid) (source : string) (target : ttarget) : mstmt unit := fun d =>
  let id := next_job d in
  if bool_decide (mvideos d !! v = None) then (Err ErrStore, mdraw d)
  else if has_live v d then (Ok tt, mdraw d)
  else if bool_decide (is_Some (tjobs d !! id)) then (Err ErrUnique, mdraw d)
  else (Ok tt, set_tjobs <[id := mkTJob id v source target TPending 0 (mnow d) EmptyString]> (mdraw d)).

(** The column is an INT: past its range the statement fails. *)
Definition q_BumpVideoTranscodeGeneration (v : uuid) : mstmt Z := fun d =>
  match mvideos d !! v with
  | Some g => if g <? 2 ^ 31 - 1 then (Ok (g + 1), set_mvideos <[v := g + 1]> d) else (Err ErrStore, d)
  | None => (Err ErrNoRows, d)
  end.

Definition q_GetVideoTranscodeGeneration (v : uuid) : mstmt Z := fun d =>
  (match mvideos d !! v with Some g => Ok g | None => Err ErrNoRows end, d).

(** The rows in a state whose next_attempt_at has come, oldest first. *)
Definition tdue (st : tstate) (limit : nat) (d : MediaDB) : list TranscodeJob :=
  first_rows tjNext limit (fun j => tjState j = st /\ tjNext j <= mnow d) (tjobs d).

Definition tlease : duration := 30 * Minute.

Definition claimed (t : time) (j : TranscodeJob) : TranscodeJob := with_state TRunning (tjAttempts j) (t + tlease) (tjError j) j.

Definition q_ClaimDueTranscodeJobs (limit : Z) : mstmt (list TranscodeJob) := fun d =>
  let js := tdue TPending (Z.to_nat limit) d in
  (Ok (map (claimed (mnow d)) js), set_tjobs (update_rows (claimed (mnow d)) js) d).

Definition q_HasLiveTranscodeJob (v : uuid) : mstmt bool := fun d => (Ok (has_live v d), d).

Definition q_CompleteTranscodeJob (id : uuid) : mstmt unit := fun d =>
  (Ok tt, set_tjobs (alter (fun j => with_state TDone (tjAttempts j) (tjNext j) (tjError j) j) id) d).

(** Back to pending: the index refuses it for a row that is not live when
    another job of the video is. *)
Definition requeue (f : TranscodeJob -> TranscodeJob) (id : uuid) : mstmt unit := fun d =>
  match tjobs d !! id with
  | Some j => if negb (tlive j) && has_live (tjVideo j) d then (Err ErrUnique, d) else (Ok tt, set_tjobs (alter f id) d)
  | None => (Ok tt, d)
  end.

Definition q_RescheduleTranscodeJob (id : uuid) (next : time) (err : string) : mstmt unit :=
  requeue (fun j => with_state TPending (tjAttempts j + 1) next err j) id.

Definition q_DeferTranscodeJob (id : uuid) (next : time) (err : string) : mstmt unit :=
  requeue (fun j => with_state TPending (tjAttempts j) next err j) id.

Definition q_FailTranscodeJob (id : uuid) (err : string) : mstmt unit := fun d =>
  (Ok tt, set_tjobs (alter (fun j => with_state TFailed (tjAttempts j + 1) (tjNext j) err j) id) d).

Definition q_RenewTranscodeJobLease (id : uuid) : mstmt unit := fun d =>
  (Ok tt, set_tjobs (alter (fun j =>
     if bool_decide (tjState j = TRunning) then with_state TRunning (tjAttempts j) (mnow d + tlease) (tjError j) j else j) id) d).

Definition q_SweepExpiredTranscodeJobs : mstmt Z := fun d =>
  let js := tdue TRunning 1000 d in
  (Ok (Z.of_nat (length js)),
   set_tjobs (update_rows (fun j => with_state TPending (tjAttempts j + 1) (tjNext j) (tjError j) j) js) d).

(** ** streaming_playlists, video_renditions, video_files *)

(** An empty format is stored as "hls-ts". *)
Definition q_UpsertStreamingPlaylist (v : uuid) (master state format : string) : mstmt unit := fun d =>
  if bool_decide (mvideos d !! v = None) then (Err ErrStore, d)
  else (Ok tt, set_splaylists <[v := mkSP master state (if bool_decide (format = EmptyString) then "hls-ts"%string else format)]> d).

Definition q_MarkStreamingPlaylistFailed (v : uuid) : mstmt unit := fun d =>
  if bool_decide (mvideos d !! v = None) then (Err ErrStore, d)
  else (Ok tt, set_splaylists (fun m => <[v := mkSP EmptyString "failed"
          (match m !! v with Some sp => spFormat sp | None => "hls-ts"%string end)]> m) d).

Definition q_GetStreamingPlaylist (v : uuid) : mstmt StreamingPlaylist := fun d =>
  (match splaylists d !! v with Some sp => Ok sp | None => Err ErrNoRows end, d).

Definition q_DeleteStreamingPlaylist (v : uuid) : mstmt unit := fun d => (Ok tt, set_splaylists (delete v) d).

(** The checks on height and width, and the unique (video_id, height). *)
Definition q_CreateVideoRendition (v : uuid) (r : Rendition) : mstmt unit := fun d =>
  if bool_decide (mvideos d !! v = None) || (rdHeight r <=? 0) || (rdWidth r <=? 0) then (Err ErrStore, d)
  else if bool_decide (is_Some (renditions d !! (v, rdHeight r))) then (Err ErrUnique, d)
  else (Ok tt, set_renditions <[(v, rdHeight r) := r]> d).

Definition q_DeleteVideoRenditions (v : uuid) : mstmt unit := fun d =>
  (Ok tt, set_renditions (filter (fun kv => kv.1.1 <> v)) d).

(** Tallest first. *)
Definition q_ListVideoRenditions (v : uuid) : mstmt (list Rendition) := fun d =>
  (Ok (merge_sort (by_key (fun r => - rdHeight r)) (filter (fun kv => kv.1.1 = v) (map_to_list (renditions d))).*2), d).

Definition q_CreateVideoFile (f : VideoFile) : mstmt unit := fun d =>
  if bool_decide (mvideos d !! vfVideo f = None) then (Err ErrStore, d)
  else (Ok tt, set_mfiles (fun fs => fs ++ [f]) d).

Definition q_DeleteVideoFilesByVideoAndKind (v : uuid) (kind : string) : mstmt unit := fun d =>
  (Ok tt, set_mfiles (filter (fun f => ~ (vfVideo f = v /\ vfKind f = kind))) d).

Definition q_GetVideoFileSizeByStorageKey (key : string) : mstmt Z := fun d =>
  (match filter (fun f => vfKey f = key) (mfiles d) with f :: _ => Ok (vfSize f) | [] => Err ErrNoRows end, d).

(** ** media_gc.sql *)

Definition q_ListAllVideoFileKeys : mstmt (list string) := fun d => (Ok (map vfKey (mfiles d)), d).
Definition q_ListAllCaptionKeys : mstmt (list string) := fun d => (Ok (mcaptions d).*2, d).
Definition q_ListVideoTranscodeGenerations : mstmt (list (uuid * Z)) := fun d => (Ok (map_to_list (mvideos d)), d).
Definition q_ListStreamingPlaylistRefs : mstmt (list (uuid * string * string)) := fun d =>
  (Ok (map (fun kv => (kv.1, spMaster kv.2, spFormat kv.2)) (map_to_list (splaylists d))), d).
Definition q_ListPlaylistThumbnailRefs : mstmt (list (uuid * option string)) := fun d =>
  (Ok (filter (fun c => c.2 <> None) (covers d)), d).

(** LIKE 'prefix%' for a prefix without wildcards. *)
Definition like_prefix (prefix s : string) : bool := match CutPrefix s prefix with Some _ => true | None => false end.

Definition q_CountForeignLayoutMediaRefs : mstmt Z := fun d =>
  (Ok (Z.of_nat (length (filter (fun f => like_prefix "web-videos/" (vfKey f) && negb (like_prefix ("web-videos/" +:+ vfVideo f) (vfKey f)) = true) (mfiles d)))
       + Z.of_nat (length (filter (fun kv => negb (bool_decide (spMaster kv.2 = EmptyString)) &&
           negb (like_prefix ("streaming-playlists/" +:+ kv.1 +:+ "/") (spMaster kv.2)) = true) (map_to_list (splaylists d))))), d).

Definition q_HasActiveStorageMigration : mstmt bool := fun d => (Ok (migrating d), d).

(** ** The transcoder *)

(** A failed run: the message, whether it is permanent ([media.IsPermanent]),
    and the target it is attributed to ([targetRunError]). *)
Record tcause := mkCause { c_msg : string; c_permanent : bool; c_target : option ttarget }.

Record HLSResult := mkHLSResult {
  hr_MasterKey : string; hr_Format : string; hr_Renditions : list Rendition;
  hr_WebMKey : string; hr_WebMBytes : Z; hr_WebMSHA256 : string;
}.

Record WebVideoResult := mkWebVideo { wv_Height : Z; wv_Key : string; wv_Size : Z; wv_Sha : string }.

(** [Transcoder] and [TargetTranscoder]: what the n-th run answers, and the objects it wrote
    (also when it failed). *)
Record Transcoder := {
  tc_probe : nat -> string -> result tcause unit;
  tc_only : nat -> uuid -> string -> result tcause HLSResult * list (string * bytes);
  tc_hls : nat -> uuid -> string -> Z -> result tcause HLSResult * list (string * bytes);
  tc_web : nat -> uuid -> string -> Z -> result tcause (list WebVideoResult) * list (string * bytes);
  tc_all : nat -> uuid -> string -> Z -> result tcause (HLSResult * list WebVideoResult) * list (string * bytes);
}.

(** ** The world *)

(** [mediagc.BucketOwnership] *)
Inductive BucketOwnership :=
| OwnershipUnknown | OwnershipNotApplicable | OwnershipOwned | OwnershipUnowned | OwnershipConflict.

#[global] Instance ownership_eq_dec : EqDecision BucketOwnership.
Proof. solve_decision. Defined.

(** The completion and failure hooks that ran. *)
Inductive thook := OnComplete (v : uuid) | OnFail (v : uuid).

(** The database, the object store, the collector's cached verdict, and what
    the injected functions answer: transcoding enabled, free scratch bytes
    ([None] when not wired or not measurable), the store's write verdict. *)
Record mworld (B : Type) := mkMWorld {
  mdb : faulty MediaDB;
  mblobs : B;
  mown : BucketOwnership;
  mtc : Transcoder;
  mcalls : nat;
  mhooks : list thook;
  menabled : bool;
  mscratch : option Z;
  mwritable : bool;
}.
Arguments mkMWorld {B}.
Arguments mdb {B}.
Arguments mblobs {B}.
Arguments mown {B}.
Arguments mtc {B}.
Arguments mcalls {B}.
Arguments mhooks {B}.
Arguments menabled {B}.
Arguments mscratch {B}.
Arguments mwritable {B}.

(** [transcode.Repository], [mediagc.Repository], [storage.Backend] with
    [storage.ObjectLister], the transcoder, the hooks, the injected functions
    and the collector's ownership field. *)
Inductive mediaE : Type -> Type :=
| EnqueueTranscodeJob (v : uuid) (source : string) (target : ttarget) : mediaE (result dberr unit)
| BumpVideoTranscodeGeneration (v : uuid) : mediaE (result dberr Z)
| GetVideoTranscodeGeneration (v : uuid) : mediaE (result dberr Z)
| ClaimDueTranscodeJobs (limit : Z) : mediaE (result dberr (list TranscodeJob))
| HasLiveTranscodeJob (v : uuid) : mediaE (result dberr bool)
| CompleteTranscodeJob (id : uuid) : mediaE (result dberr unit)
| RescheduleTranscodeJob (id : uuid) (next : time) (err : string) : mediaE (result dberr unit)
| DeferTranscodeJob (id : uuid) (next : time) (err : string) : mediaE (result dberr unit)
| FailTranscodeJob (id : uuid) (err : string) : mediaE (result dberr unit)
| RenewTranscodeJobLease (id : uuid) : mediaE (result dberr unit)
| SweepExpiredTranscodeJobs : mediaE (result dberr Z)
| UpsertStreamingPlaylist (v : uuid) (master state format : string) : mediaE (result dberr unit)
| MarkStreamingPlaylistFailed (v : uuid) : mediaE (result dberr unit)
| GetStreamingPlaylist (v : uuid) : mediaE (result dberr StreamingPlaylist)
| DeleteStreamingPlaylist (v : uuid) : mediaE (result dberr unit)
| CreateVideoRendition (v : uuid) (r : Rendition) : mediaE (result dberr unit)
| DeleteVideoRenditions (v : uuid) : mediaE (result dberr unit)
| ListVideoRenditions (v : uuid) : mediaE (result dberr (list Rendition))
| CreateVideoFile (f : VideoFile) : mediaE (result dberr unit)
| DeleteVideoFilesByVideoAndKind (v : uuid) (kind : string) : mediaE (result dberr unit)
| GetVideoFileSizeByStorageKey (key : string) : mediaE (result dberr Z)
| ListAllVideoFileKeys : mediaE (result dberr (list string))
| ListAllCaptionKeys : mediaE (result dberr (list string))
| ListVideoTranscodeGenerations : mediaE (result dberr (list (uuid * Z)))
| ListStreamingPlaylistRefs : mediaE (result dberr (list (uuid * string * string)))
| ListPlaylistThumbnailRefs : mediaE (result dberr (list (uuid * option string)))
| CountForeignLayoutMediaRefs : mediaE (result dberr Z)
| HasActiveStorageMigration : mediaE (result dberr bool)
| MNow : mediaE time
| TranscodingEnabled : mediaE bool
| FreeScratch : mediaE (option Z)
| StorageWritable : mediaE bool
| Probe (source : string) : mediaE (result tcause unit)
| Transcode (v : uuid) (source : string) : mediaE (result tcause HLSResult)
| TranscodeHLS (v : uuid) (source : string) (generation : Z) : mediaE (result tcause HLSResult)
| TranscodeWebVideos (v : uuid) (source : string) (generation : Z) : mediaE (result tcause (list WebVideoResult))
| TranscodeAll (v : uuid) (source : string) (generation : Z) : mediaE (result tcause (HLSResult * list WebVideoResult))
| Hook (h : thook) : mediaE unit
| ObjPut (key : string) (r : reader) : mediaE (result ioerr Z)
| ObjOpen (key : string) : mediaE (result ioerr reader)
| ObjDelete (key : string) : mediaE (result ioerr unit)
| ObjList (prefix : string) : mediaE (result ioerr (list string))
| GetOwnership : mediaE BucketOwnership
| PutOwnership (o : BucketOwnership) : mediaE unit.

Section Handler.
Context {B : Type} `{Backend B, !Lister B}.

Definition on_media {A} (q : MediaDB -> result dberr A * MediaDB) (w : mworld B) : result dberr A * mworld B :=
  let r := exec q (mdb w) in
  (r.1, mkMWorld r.2 (mblobs w) (mown w) (mtc w) (mcalls w) (mhooks w) (menabled w) (mscratch w) (mwritable w)).

Definition on_objects {A} (op : B -> A * B) (w : mworld B) : A * mworld B :=
  let r := op (mblobs w) in
  (r.1, mkMWorld (mdb w) r.2 (mown w) (mtc w) (mcalls w) (mhooks w) (menabled w) (mscratch w) (mwritable w)).

(** The objects a run wrote. *)
Definition put_all (objs : list (string * bytes)) (b : B) : B :=
  foldl (fun b kv => (be_put kv.1 (Reader [kv.2] None false) b).2) b objs.

Definition transcoded {A} (r : A * list (string * bytes)) (w : mworld B) : A * mworld B :=
  (r.1, mkMWorld (mdb w) (put_all r.2 (mblobs w)) (mown w) (mtc w) (S (mcalls w)) (mhooks w) (menabled w) (mscratch w) (mwritable w)).

Definition media_handler : handler mediaE (mworld B) := fun X e w =>
  match e in mediaE X return X * mworld B with
  | EnqueueTranscodeJob v source target => on_media (q_EnqueueTranscodeJob v source target) w
  | BumpVideoTranscodeGeneration v => on_media (q_BumpVideoTranscodeGeneration v) w
  | GetVideoTranscodeGeneration v => on_media (q_GetVideoTranscodeGeneration v) w
  | ClaimDueTranscodeJobs limit => on_media (q_ClaimDueTranscodeJobs limit) w
  | HasLiveTranscodeJob v => on_media (q_HasLiveTranscodeJob v) w
  | CompleteTranscodeJob id => on_media (q_CompleteTranscodeJob id) w
  | RescheduleTranscodeJob id next err => on_media (q_RescheduleTranscodeJob id next err) w
  | DeferTranscodeJob id next err => on_media (q_DeferTranscodeJob id next err) w
  | FailTranscodeJob id err => on_media (q_FailTranscodeJob id err) w
  | RenewTranscodeJobLease id => on_media (q_RenewTranscodeJobLease id) w
  | SweepExpiredTranscodeJobs => on_media q_SweepExpiredTranscodeJobs w
  | UpsertStreamingPlaylist v master state format => on_media (q_UpsertStreamingPlaylist v master state format) w
  | MarkStreamingPlaylistFailed v => on_media (q_MarkStreamingPlaylistFailed v) w
  | GetStreamingPlaylist v => on_media (q_GetStreamingPlaylist v) w
  | DeleteStreamingPlaylist v => on_media (q_DeleteStreamingPlaylist v) w
  | CreateVideoRendition v r => on_media (q_CreateVideoRendition v r) w
  | DeleteVideoRenditions v => on_media (q_DeleteVideoRenditions v) w
  | ListVideoRenditions v => on_media (q_ListVideoRenditions v) w
  | CreateVideoFile f => on_media (q_CreateVideoFile f) w
  | DeleteVideoFilesByVideoAndKind v kind => on_media (q_DeleteVideoFilesByVideoAndKind v kind) w
  | GetVideoFileSizeByStorageKey key => on_media (q_GetVideoFileSizeByStorageKey key) w
  | ListAllVideoFileKeys => on_media q_ListAllVideoFileKeys w
  | ListAllCaptionKeys => on_media q_ListAllCaptionKeys w
  | ListVideoTranscodeGenerations => on_media q_ListVideoTranscodeGenerations w
  | ListStreamingPlaylistRefs => on_media q_ListStreamingPlaylistRefs w
  | ListPlaylistThumbnailRefs => on_media q_ListPlaylistThumbnailRefs w
  | CountForeignLayoutMediaRefs => on_media q_CountForeignLayoutMediaRefs w
  | HasActiveStorageMigration => on_media q_HasActiveStorageMigration w
  | MNow => (mnow (store (mdb w)), w)
  | TranscodingEnabled => (menabled w, w)
  | FreeScratch => (mscratch w, w)
  | StorageWritable => (mwritable w, w)
  | Probe source => (tc_probe (mtc w) (mcalls w) source, w)
  | Transcode v source => transcoded (tc_only (mtc w) (mcalls w) v source) w
  | TranscodeHLS v source g => transcoded (tc_hls (mtc w) (mcalls w) v source g) w
  | TranscodeWebVideos v source g => transcoded (tc_web (mtc w) (mcalls w) v source g) w
  | TranscodeAll v source g => transcoded (tc_all (mtc w) (mcalls w) v source g) w
  | Hook h => (tt, mkMWorld (mdb w) (mblobs w) (mown w) (mtc w) (mcalls w) (h :: mhooks w) (menabled w) (mscratch w) (mwritable w))
  | ObjPut key r => on_objects (be_put key r) w
  | ObjOpen key => (be_open key (mblobs w), w)
  | ObjDelete key => on_objects (be_delete key) w
  | ObjList prefix => (be_list prefix (mblobs w), w)
  | GetOwnership => (mown w, w)
  | PutOwnership o => (tt, mkMWorld (mdb w) (mblobs w) o (mtc w) (mcalls w) (mhooks w) (menabled w) (mscratch w) (mwritable w))
  end.

(** Time passes, settings change, other processes move the caches. *)
Definition mclock (w w' : mworld B) : Prop :=
  exists t own en sc wr, mnow (store (mdb w)) <= t /\
    w' = mkMWorld (Faulty (set_mnow t (store (mdb w))) (faults (mdb w))) (mblobs w) own (mtc w) (mcalls w) (mhooks w) en sc wr.

Lemma on_media_ok {A} (q : MediaDB -> result dberr A * MediaDB) (w : mworld B) a :
  (on_media q w).1 = Ok a ->
  (q (store (mdb w))).1 = Ok a /\ store (mdb (on_media q w).2) = (q (store (mdb w))).2.
Proof. apply exec_ok. Qed.

Lemma on_media_fine {A} (q : MediaDB -> result dberr A * MediaDB) (w : mworld B) :
  faults (mdb w) = [] ->
  on_media q w = ((q (store (mdb w))).1,
    mkMWorld (Faulty (q (store (mdb w))).2 []) (mblobs w) (mown w) (mtc w) (mcalls w) (mhooks w) (menabled w) (mscratch w) (mwritable w)).
Proof. intros Hf. unfold on_media. destruct (mdb w) as [d fs]. cbn in *. subst fs. done. Qed.

Lemma on_media_rel {A} (q : MediaDB -> result dberr A * MediaDB) (R : MediaDB -> MediaDB -> Prop) `{!PreOrder R} (w : mworld B) :
  (forall d, R d (q d).2) -> R (store (mdb w)) (store (mdb (on_media q w).2)).
Proof. intros Hq. by apply (exec_rel q R). Qed.

Lemma on_media_invariant {A} (q : MediaDB -> result dberr A * MediaDB) (I : MediaDB -> Prop) (w : mworld B) :
  (forall d, I d -> I (q d).2) -> I (store (mdb w)) -> I (store (mdb (on_media q w).2)).
Proof. intros Hq Hi. by apply (exec_invariant q I). Qed.
End Handler.
