(* ===== verification/Transcode.v ===== *)
(** * The transcode queue (src/internal/transcode/service.go)

    [EnqueueTarget] (insert the job, then advance the video's generation), the
    worker's [DrainJobs] with its admission control, [runTarget], the promotion
    of a finished tree ([storeResult], [storeWebVideos]), the failure ladder
    ([recordFailure]), and the throttle on progress writes. The encoder behind
    [TargetTranscoder] is part of the state: what each run answers and writes. *)
From S2P Require Import Prelude GoStrings Queue Storage MediaKeys MediaStore Retry.
Local Open Scope Z_scope.

(** ** Constants and configuration *)

Definition maxAttempts : Z := 5.
Definition baseBackoff : duration := Minute.
Definition maxBackoff : duration := Hour.
Definition maxLastErrorLen : nat := 500.
Definition DefaultMinFreeScratchBytes : Z := 10 * 2 ^ 30.
Definition scratchMultiple : Z := 3.
Definition scratchRetryDelay : duration := 5 * Minute.

Definition PlaylistReady : string := "ready".

(** [backoff] *)
Definition backoff (attempts : Z) : duration := Backoff attempts baseBackoff maxBackoff.

(** What is wired: a transcoder, whether it is a [TargetTranscoder], the free-space
    floor, the size lookup, the store's write gate, the two hooks. *)
Record TranscodeService := mkTranscode {
  ts_transcoder : bool;
  ts_targets : bool;
  ts_minFreeScratch : Z;
  ts_sizes : bool;
  ts_writeGate : bool;
  ts_onComplete : bool;
  ts_onFail : bool;
}.

(** [WithScratchGuard]'s default. *)
Definition WithScratchGuard (minFree : Z) : Z := if minFree =? 0 then DefaultMinFreeScratchBytes else minFree.

Inductive trerr := TErrNoTranscoder | TErrInvalidTarget | TErrDB (e : dberr).

#[global] Instance trerr_eq_dec : EqDecision trerr.
Proof. solve_decision. Defined.

(** The target names. *)
Definition target_of (name : string) : option ttarget :=
  if bool_decide (name = "all"%string) then Some TargetAll
  else if bool_decide (name = "hls"%string) then Some TargetHLS
  else if bool_decide (name = "web_video"%string) then Some TargetWebVideo
  else None.

(** ** Programs *)

Section Programs.
Context (s : TranscodeService).
Abbreviation M A := (prog mediaE A) (only parsing).
Implicit Types (v : uuid) (row : TranscodeJob).

(** [Service.EnqueueTarget]; the labels of [jobtrace] are left out. *)
Definition EnqueueTarget v (sourceKey target : string) : M (result trerr unit) :=
  en ← call TranscodingEnabled;
  if negb en then mret (Ok tt) else
  match target_of target with
  | None => mret (Err TErrInvalidTarget)
  | Some t =>
      r ← call (EnqueueTranscodeJob v sourceKey t);
      match r with
      | Err e => mret (Err (TErrDB e))
      | Ok _ => _ ← call (BumpVideoTranscodeGeneration v); mret (Ok tt)
      end
  end.

(** [Service.Enqueue] *)
Definition Enqueue v (sourceKey : string) : M (result trerr unit) := EnqueueTarget v sourceKey "all".

(** [Service.HasLiveJob]: a lookup that fails is busy. *)
Definition HasLiveJob v : M bool :=
  r ← call (HasLiveTranscodeJob v); mret (match r with Ok b => b | Err _ => true end).

(** [Service.LiveJob] *)
Definition LiveJob v : M (result dberr bool) := call (HasLiveTranscodeJob v).

(** [Service.Invalidate] *)
Definition Invalidate v : M (result dberr unit) :=
  r ← call (DeleteVideoRenditions v);
  match r with
  | Err e => mret (Err e)
  | Ok _ =>
      r ← call (DeleteVideoFilesByVideoAndKind v "rendition");
      match r with
      | Err e => mret (Err e)
      | Ok _ =>
          r ← call (DeleteVideoFilesByVideoAndKind v "webm");
          match r with
          | Err e => mret (Err e)
          | Ok _ => call (DeleteStreamingPlaylist v)
          end
      end
  end.

(** A store failure as the cause of a failed run. *)
Definition db_cause (e : dberr) : tcause := mkCause "store" false None.

(** [targetRunError] *)
Definition attributed (t : ttarget) (c : tcause) : tcause := mkCause (c_msg c) (c_permanent c) (Some t).

(** The rows of a ladder, one by one. *)
Fixpoint create_renditions v (rs : list Rendition) : M (option tcause) :=
  match rs with
  | [] => mret None
  | r :: rs' =>
      c ← call (CreateVideoRendition v r);
      match c with Err e => mret (Some (db_cause e)) | Ok _ => create_renditions v rs' end
  end.

(** The VP9 alternate of [storeResult], when the run made one. *)
Definition store_webm v (res : HLSResult) : M (option tcause) :=
  if bool_decide (hr_WebMKey res = EmptyString) then mret None else
  d ← call (DeleteVideoFilesByVideoAndKind v "webm");
  match d with
  | Err e => mret (Some (db_cause e))
  | Ok _ =>
      c ← call (CreateVideoFile (mkVideoFile v "webm" (hr_WebMKey res) (hr_WebMBytes res) (hr_WebMSHA256 res)));
      mret (match c with Err e => Some (db_cause e) | Ok _ => None end)
  end.

(** [Service.storeResult] *)
Definition storeResult v (res : HLSResult) : M (option tcause) :=
  d ← call (DeleteVideoRenditions v);
  match d with
  | Err e => mret (Some (db_cause e))
  | Ok _ =>
      c ← create_renditions v (hr_Renditions res);
      match c with
      | Some e => mret (Some e)
      | None =>
          w ← store_webm v res;
          match w with
          | Some e => mret (Some e)
          | None =>
              p ← call (UpsertStreamingPlaylist v (hr_MasterKey res) PlaylistReady (hr_Format res));
              mret (match p with Err e => Some (db_cause e) | Ok _ => None end)
          end
      end
  end.

Fixpoint create_files v (fs : list WebVideoResult) : M (option tcause) :=
  match fs with
  | [] => mret None
  | f :: fs' =>
      c ← call (CreateVideoFile (mkVideoFile v "rendition" (wv_Key f) (wv_Size f) (wv_Sha f)));
      match c with Err e => mret (Some (db_cause e)) | Ok _ => create_files v fs' end
  end.

(** [Service.storeWebVideos] *)
Definition storeWebVideos v (files : list WebVideoResult) : M (option tcause) :=
  d ← call (DeleteVideoFilesByVideoAndKind v "rendition");
  match d with
  | Err e => mret (Some (db_cause e))
  | Ok _ => create_files v files
  end.

Definition as_target (t : ttarget) (c : option tcause) : option tcause := attributed t <$> c.

(** [Service.runTarget]; the progress callback, which writes best-effort step
    rows, is left out. *)
Definition runTarget row : M (option tcause) :=
  let v := tjVideo row in
  if negb (ts_targets s) then
    r ← call (Transcode v (tjSource row));
    match r with Err c => mret (Some c) | Ok res => storeResult v res end
  else
    g ← call (GetVideoTranscodeGeneration v);
    let generation := match g with Ok n => n | Err _ => 0 end in
    p ← call (Probe (tjSource row));
    match p with
    | Err c => mret (Some c)
    | Ok _ =>
        match tjTarget row with
        | TargetAll =>
            r ← call (TranscodeAll v (tjSource row) generation);
            match r with
            | Err c => mret (Some (attributed TargetHLS c))
            | Ok (res, files) =>
                st ← storeResult v res;
                match st with
                | Some c => mret (Some (attributed TargetHLS c))
                | None => wv ← storeWebVideos v files; mret (as_target TargetWebVideo wv)
                end
            end
        | TargetHLS =>
            r ← call (TranscodeHLS v (tjSource row) generation);
            match r with
            | Err c => mret (Some (attributed TargetHLS c))
            | Ok res => st ← storeResult v res; mret (as_target TargetHLS st)
            end
        | TargetWebVideo =>
            r ← call (TranscodeWebVideos v (tjSource row) generation);
            match r with
            | Err c => mret (Some (attributed TargetWebVideo c))
            | Ok files => wv ← storeWebVideos v files; mret (as_target TargetWebVideo wv)
            end
        end
    end.

(** Whether the playlist is marked failed with the job. *)
Definition affects_hls row (cause : tcause) : bool :=
  match c_target cause with
  | Some t => bool_decide (t = TargetHLS)
  | None => negb (bool_decide (tjTarget row = TargetWebVideo))
  end.

(** [Service.recordFailure] *)
Definition recordFailure row (cause : tcause) : M unit :=
  let attempts := tjAttempts row + 1 in
  let msg := if (maxLastErrorLen <? String.length (c_msg cause))%nat
             then String.substring 0 maxLastErrorLen (c_msg cause) else c_msg cause in
  if (maxAttempts <=? attempts) || c_permanent cause then
    _ ← call (FailTranscodeJob (tjID row) msg);
    _ ← (if affects_hls row cause then _ ← call (MarkStreamingPlaylistFailed (tjVideo row)); mret tt else mret tt);
    if ts_onFail s then call (Hook (OnFail (tjVideo row))) else mret tt
  else
    t ← call MNow;
    _ ← call (RescheduleTranscodeJob (tjID row) (t + backoff attempts) msg);
    mret tt.

(** [Service.scratchFits]: [uint64(size) * scratchMultiple]. *)
Definition scratchFits (sourceKey : string) (free : Z) : M bool :=
  if negb (ts_sizes s) then mret true else
  r ← call (GetVideoFileSizeByStorageKey sourceKey);
  mret (match r with
        | Err _ => true
        | Ok size => if size <=? 0 then true else (size * scratchMultiple) mod 2 ^ 64 <=? free
        end).

(** The body a worker runs for one claimed row: how many it completed. *)
Definition drain_one (free : option Z) row : M Z :=
  fits ← (match free with None => mret true | Some f => scratchFits (tjSource row) f end);
  if negb (fits : bool) then
    t ← call MNow;
    _ ← call (DeferTranscodeJob (tjID row) (t + scratchRetryDelay) "deferred: not enough scratch space for this source");
    mret 0
  else
    r ← runTarget row;
    match r with
    | Some cause => _ ← recordFailure row cause; mret 0
    | None =>
        _ ← call (CompleteTranscodeJob (tjID row));
        _ ← (if ts_onComplete s then call (Hook (OnComplete (tjVideo row))) else mret tt);
        mret 1
    end.

Fixpoint drain_rows (free : option Z) (rows : list TranscodeJob) (done : Z) : M Z :=
  match rows with
  | [] => mret done
  | row :: rows' => n ← drain_one free row; drain_rows free rows' (done + n)
  end.

(** [Service.DrainJobs] at concurrency one; at a higher concurrency the bodies
    of the claimed rows interleave, which the pool semantics covers. *)
Definition DrainJobs (limit : Z) : M (result trerr Z) :=
  if negb (ts_transcoder s) then mret (Err TErrNoTranscoder) else
  en ← call TranscodingEnabled;
  if negb en then mret (Ok 0) else
  free ← call FreeScratch;
  if match free with Some f => f <? ts_minFreeScratch s | None => false end then mret (Ok 0) else
  wr ← (if ts_writeGate s then call StorageWritable else mret true);
  if negb (wr : bool) then mret (Ok 0) else
  r ← call (ClaimDueTranscodeJobs (int32 limit));
  match r with
  | Err e => mret (Err (TErrDB e))
  | Ok rows => n ← drain_rows free rows 0; mret (Ok n)
  end.

(** [lease.Keep]'s goroutine over [ticks] ticks. *)
Fixpoint KeepTranscodeLease (ticks : nat) (jid : uuid) : M unit :=
  match ticks with
  | O => mret tt
  | S ticks' => _ ← call (RenewTranscodeJobLease jid); KeepTranscodeLease ticks' jid
  end.

(** [Service.Playlist] and [Service.Renditions]: a failed lookup is a miss. *)
Definition Playlist v : M (option StreamingPlaylist) :=
  r ← call (GetStreamingPlaylist v); mret (match r with Ok sp => Some sp | Err _ => None end).
Definition Renditions v : M (list Rendition) :=
  r ← call (ListVideoRenditions v); mret (match r with Ok rs => rs | Err _ => [] end).
End Programs.

(** ** The throttle on progress writes *)

Definition progressWriteStep : Z := 5.

(** [media.TranscodeProgress] *)
Record Progress := mkProgress { pg_Format : string; pg_Height : Z; pg_Width : Z; pg_State : string; pg_Stage : string; pg_Percent : Z }.

(** [stepProgressMark] *)
Record Mark := mkMark { mk_state : string; mk_stage : string; mk_percent : Z }.

Definition step_key (p : Progress) : string * Z * Z := (pg_Format p, pg_Height p, pg_Width p).

(** [stepProgressThrottle.admit] *)
Definition throttle_admit (p : Progress) (last : gmap (string * Z * Z) Mark) : bool * gmap (string * Z * Z) Mark :=
  let written :=
    match last !! step_key p with
    | None => true
    | Some prev =>
        negb (bool_decide (pg_State p = mk_state prev)) || negb (bool_decide (pg_Stage p = mk_stage prev)) ||
        (100 <=? pg_Percent p) || (pg_Percent p <? mk_percent prev) ||
        (progressWriteStep <=? pg_Percent p - mk_percent prev)
    end in
  if written then (true, <[step_key p := mkMark (pg_State p) (pg_Stage p) (pg_Percent p)]> last) else (false, last).

(** ** Lemmas: the queue *)

Lemma with_state_row st a n err j : tjID (with_state st a n err j) = tjID j /\ tjVideo (with_state st a n err j) = tjVideo j.
Proof. done. Qed.

Lemma narrows_tdue f st limit d :
  queue_wf (tjobs d) -> st = TPending \/ st = TRunning ->
  (forall j, tjID (f j) = tjID j /\ tjVideo (f j) = tjVideo j) ->
  narrows (tjobs d) (update_rows f (tdue st limit d) (tjobs d)).
Proof.
  intros [Hk _] Hst Hf. apply (narrows_chosen f tjNext limit _ (tjobs d) Hk); [|done].
  intros j [Hs _]. cbn. unfold tlive. rewrite Hs. by destruct Hst as [-> | ->].
Qed.

Lemma queue_wf_enqueue v source target d : queue_wf (tjobs d) -> queue_wf (tjobs (q_EnqueueTranscodeJob v source target d).2).
Proof.
  intros Hw. unfold q_EnqueueTranscodeJob. cbv zeta. case_bool_decide; [done|].
  destruct (has_live v d) eqn:Hl; [done|]. case_bool_decide as Hid; [done|].
  exact (queue_wf_insert (tjobs d) (mkTJob (next_job d) v source target TPending 0 (mnow d) EmptyString)
    (proj2 (eq_None_not_Some _) Hid) Hl Hw).
Qed.

Lemma queue_wf_requeued f id d :
  (forall j, tjID (f j) = tjID j /\ tjVideo (f j) = tjVideo j) -> queue_wf (tjobs d) -> queue_wf (tjobs (requeue f id d).2).
Proof.
  intros Hf Hw. unfold requeue. destruct (tjobs d !! id) as [j|] eqn:Hj; [|done].
  destruct (negb _ && _) eqn:Hok; [done|]. exact (queue_wf_requeue f id j (tjobs d) Hj Hok Hf Hw).
Qed.

Section QueueInvariant.
Context {B : Type} `{Backend B, !Lister B}.

(** Every operation of the pipeline keeps the queue well formed. *)
Lemma queue_wf_step X (e : mediaE X) (w : mworld B) :
  queue_wf (tjobs (store (mdb w))) -> queue_wf (tjobs (store (mdb (media_handler X e w).2))).
Proof.
  intros Hw. destruct e; cbn [media_handler]; try exact Hw;
    (apply (on_media_invariant _ (fun d => queue_wf (tjobs d))); [|exact Hw]); clear Hw; intros d Hd; try exact Hd;
    try (by apply queue_wf_enqueue); try (by apply queue_wf_requeued);
    try (unfold q_BumpVideoTranscodeGeneration, q_UpsertStreamingPlaylist, q_MarkStreamingPlaylistFailed,
           q_CreateVideoRendition, q_CreateVideoFile; by repeat case_match).
  - apply (narrows_wf (tjobs d)); [|done]. by apply narrows_tdue; [|left|].
  - apply (narrows_wf (tjobs d)); [|done]. by apply narrows_alter.
  - apply (narrows_wf (tjobs d)); [|done]. by apply narrows_alter.
  - apply (narrows_wf (tjobs d)); [|done]. apply narrows_alter. intros j.
    by case_bool_decide as Hs; split_and!; try done; intros _; cbn; unfold tlive; rewrite ?Hs.
  - apply (narrows_wf (tjobs d)); [|done]. by apply narrows_tdue; [|right|].
Qed.

Lemma mclock_jobs (w w' : mworld B) : mclock w w' -> tjobs (store (mdb w')) = tjobs (store (mdb w)).
Proof. by intros (t & own & en & sc & wr & _ & ->). Qed.
End QueueInvariant.

(** ** Theorems: the queue *)

(** A video has at most one live transcode job, ever. However enqueuers,
    workers, lease keepers, sweeps and any other programs of the pipeline
    interleave, and whatever store calls fail before or after taking effect, the
    job table keeps its rows under their ids and no video has two jobs that are
    pending or running. *)
Theorem one_live_transcode_per_video {B A} `{Backend B, !Lister B} (ps ps' : list (prog mediaE A)) (w w' : mworld B) :
  queue_wf (tjobs (store (mdb w))) -> rtc (pool_step media_handler mclock) (ps, w) (ps', w') ->
  queue_wf (tjobs (store (mdb w'))).
Proof.
  intros Hwf Hrun.
  assert (Hclock : forall w0 w0' : mworld B, mclock w0 w0' ->
    queue_wf (tjobs (store (mdb w0))) -> queue_wf (tjobs (store (mdb w0')))) by (intros w0 w0' Hc; by rewrite (mclock_jobs _ _ Hc)).
  apply (pool_invariant media_handler (fun _ _ => True) mclock (fun w => queue_wf (tjobs (store (mdb w))))
    (fun X e w0 _ => queue_wf_step X e w0) Hclock _ _ Hrun); [|done].
  apply Forall_forall. intros p _. by apply ops_all.
Qed.

(** ** Theorems: the throttle *)

(** The marks after a sequence of reports, and the reports written. *)
Fixpoint throttle_run (ps : list Progress) (last : gmap (string * Z * Z) Mark) : list Progress * gmap (string * Z * Z) Mark :=
  match ps with
  | [] => ([], last)
  | p :: ps' =>
      let r := throttle_admit p last in
      let rest := throttle_run ps' r.2 in
      (if r.1 then p :: rest.1 else rest.1, rest.2)
  end.

(** What the database last heard of a rung stands for what was reported. *)
Definition reflects (p : Progress) (m : Mark) : Prop :=
  mk_state m = pg_State p /\ mk_stage m = pg_Stage p /\
  mk_percent m <= pg_Percent p < mk_percent m + progressWriteStep /\ (100 <= pg_Percent p -> mk_percent m = pg_Percent p).

Lemma admit_reflects p last :
  exists m, (throttle_admit p last).2 !! step_key p = Some m /\ reflects p m.
Proof.
  unfold throttle_admit, reflects, progressWriteStep. destruct (last !! step_key p) as [prev|] eqn:Hp.
  - destruct (_ || _) eqn:Hw.
    + eexists. cbn. rewrite lookup_insert_eq. split; [done|]. cbn. split_and!; try done; lia.
    + exists prev. cbn. rewrite Hp. split; [done|]. bools. split_and!; try done; lia.
  - eexists. cbn. rewrite lookup_insert_eq. split; [done|]. cbn. split_and!; try done; lia.
Qed.

Lemma admit_frame p q last : step_key p <> step_key q -> (throttle_admit p last).2 !! step_key q = last !! step_key q.
Proof. intros Hne. unfold throttle_admit. cbv zeta. match goal with |- context [if ?b then _ else _] => destruct b end; [|done]. cbn. by rewrite lookup_insert_ne. Qed.

(** Reports of one rung in one state and stage, with growing percentages. *)
Definition climbing (p : Progress) (ps : list Progress) : Prop :=
  Forall (fun q => step_key q = step_key p /\ pg_State q = pg_State p /\ pg_Stage q = pg_Stage p /\ 0 <= pg_Percent q < 100) ps /\
  StronglySorted (fun a b => pg_Percent a <= pg_Percent b) ps.

Lemma climbing_writes p ps last m :
  climbing p ps -> last !! step_key p = Some m -> mk_state m = pg_State p -> mk_stage m = pg_Stage p ->
  Forall (fun q => mk_percent m <= pg_Percent q) ps ->
  Z.of_nat (length (throttle_run ps last).1) * progressWriteStep <= Z.max 0 (99 - mk_percent m).
Proof.
  revert last m. induction ps as [|q ps IH]; intros last m [Hall Hsort] Hm Hs Hg Hle; [cbn; lia|].
  apply Forall_cons in Hall as [(Hk & Es & Eg & Hr) Hall]. apply StronglySorted_inv in Hsort as [Hsort Hle'].
  apply Forall_cons in Hle as [Hq Hle].
  assert (Ha : throttle_admit q last = if progressWriteStep <=? pg_Percent q - mk_percent m
    then (true, <[step_key p := mkMark (pg_State p) (pg_Stage p) (pg_Percent q)]> last) else (false, last)).
  { unfold throttle_admit. rewrite Hk, Hm, Es, Eg, Hs, Hg, !bool_decide_eq_true_2 by done. cbn [negb orb].
    destruct (Z.leb_spec 100 (pg_Percent q)); [lia|]. by destruct (Z.ltb_spec (pg_Percent q) (mk_percent m)); [lia|]. }
  cbn [throttle_run]. cbv zeta. rewrite Ha.
  destruct (Z.leb_spec progressWriteStep (pg_Percent q - mk_percent m)); cbn [fst snd].
  - assert (IHq := IH (<[step_key p := mkMark (pg_State p) (pg_Stage p) (pg_Percent q)]> last)
      (mkMark (pg_State p) (pg_Stage p) (pg_Percent q))). rewrite lookup_insert_eq in IHq.
    specialize (IHq (conj Hall Hsort) eq_refl eq_refl eq_refl Hle'). cbn [mk_percent] in IHq. cbn [length]. unfold progressWriteStep in *. lia.
  - exact (IH last m (conj Hall Hsort) Hm Hs Hg Hle).
Qed.

(** The throttle loses nothing an operator reads and bounds what is written.
    After every report, what was last written for its rung has the same state
    and stage and is less than five percent behind, and is exact at 100; other
    rungs are untouched. A rung that climbs through one stage below 100, however
    finely it is reported, is written at most twenty times. *)
Theorem progress_throttle (last : gmap (string * Z * Z) Mark) (p : Progress) (ps : list Progress) :
  (exists m, (throttle_admit p last).2 !! step_key p = Some m /\ reflects p m) /\
  (forall q, step_key p <> step_key q -> (throttle_admit p last).2 !! step_key q = last !! step_key q) /\
  (last !! step_key p = None -> climbing p (p :: ps) -> (length (throttle_run (p :: ps) last).1 <= 20)%nat).
Proof.
  split; [apply admit_reflects|]. split; [intros q; apply admit_frame|]. intros Hnone [Hall Hsort].
  apply Forall_cons in Hall as [(_ & _ & _ & Hr) Hall]. apply StronglySorted_inv in Hsort as [Hsort Hle].
  cbn [throttle_run]. cbv zeta.
  assert (Ha : throttle_admit p last = (true, <[step_key p := mkMark (pg_State p) (pg_Stage p) (pg_Percent p)]> last))
    by (unfold throttle_admit; by rewrite Hnone).
  rewrite Ha. cbn [fst snd length].
  pose proof (climbing_writes p ps (<[step_key p := mkMark (pg_State p) (pg_Stage p) (pg_Percent p)]> last)
    (mkMark (pg_State p) (pg_Stage p) (pg_Percent p)) (conj Hall Hsort)) as Hw.
  rewrite lookup_insert_eq in Hw. specialize (Hw eq_refl eq_refl eq_refl Hle). cbn [mk_percent] in Hw.
  unfold progressWriteStep in Hw. lia.
Qed.

Definition demo_climb : list Progress := map (mkProgress "hls" 720 1280 "running" "encoding") (seqZ 0 30).

Lemma progress_throttle_witness :
  (length (throttle_run demo_climb ∅).1 <= 20)%nat /\ length (throttle_run demo_climb ∅).1 = 6%nat.
Proof.
  split; [|vm_compute; reflexivity].
  apply (proj2 (proj2 (progress_throttle ∅ (mkProgress "hls" 720 1280 "running" "encoding" 0) (tail demo_climb)))).
  - reflexivity.
  - split.
    + apply (Forall_fmap _ _ (seqZ 0 30)). apply Forall_forall. intros x Hx%elem_of_seqZ. cbn. split_and!; try reflexivity; lia.
    + vm_compute. repeat constructor; discriminate.
Defined.

(** ** Theorems: a run *)

Section Runs.
Context {B : Type} `{Backend B, !Lister B}.
Implicit Types (w : mworld B).

(** The same world with another database. *)
Definition with_db (d : MediaDB) w : mworld B :=
  mkMWorld (Faulty d []) (mblobs w) (mown w) (mtc w) (mcalls w) (mhooks w) (menabled w) (mscratch w) (mwritable w).

Lemma with_db_twice d d' w : with_db d (with_db d' w) = with_db d w.
Proof. done. Qed.

Lemma on_media_with_db {A} (q : MediaDB -> result dberr A * MediaDB) d w :
  on_media q (with_db d w) = ((q d).1, with_db (q d).2 w).
Proof. done. Qed.

(** One statement on a store that answers. *)
Ltac mstep := rewrite run_mbind, run_call; cbn [media_handler]; rewrite on_media_with_db; cbn [fst snd].

Definition add_renditions (v : uuid) (rs : list Rendition) (m : gmap (uuid * Z) Rendition) : gmap (uuid * Z) Rendition :=
  foldl (fun m r => <[(v, rdHeight r) := r]> m) m rs.

Lemma add_renditions_spec v rs m :
  NoDup (map rdHeight rs) ->
  (forall u h, u <> v -> add_renditions v rs m !! (u, h) = m !! (u, h)) /\
  (forall h r, (forall r', m !! (v, h) = Some r' -> False) -> add_renditions v rs m !! (v, h) = Some r <-> r ∈ rs /\ rdHeight r = h) /\
  (forall h, h ∉ map rdHeight rs -> add_renditions v rs m !! (v, h) = m !! (v, h)).
Proof.
  revert m. induction rs as [|r rs IH]; intros m Hnd; cbn.
  { split_and!; [done| |done]. intros h r Hm. split; [intros Hr; by apply Hm in Hr|]. intros [Hin _]. by apply not_elem_of_nil in Hin. }
  apply NoDup_cons in Hnd as [Hnin Hnd]. destruct (IH (<[(v, rdHeight r) := r]> m) Hnd) as (IH1 & IH2 & IH3). split_and!.
  - intros u h Hne. rewrite IH1 by done. by rewrite lookup_insert_ne by congruence.
  - intros h x Hm. destruct (decide (h = rdHeight r)) as [->|Hne].
    + rewrite IH3, lookup_insert_eq by done. split.
      * intros [= <-]. split; [by left|done].
      * intros [Hin Hx]. apply elem_of_cons in Hin as [->|Hin]; [done|]. exfalso. apply Hnin. rewrite <- Hx.
        apply list_elem_of_fmap. by exists x.
    + rewrite IH2 by (intros r'; rewrite lookup_insert_ne by congruence; apply Hm). rewrite elem_of_cons. naive_solver.
  - intros h Hh. apply not_elem_of_cons in Hh as [Hne Hh]. rewrite IH3 by done. by rewrite lookup_insert_ne by congruence.
Qed.

Lemma run_create_renditions v rs d w :
  mvideos d !! v <> None -> Forall (fun r => 0 < rdHeight r /\ 0 < rdWidth r) rs -> NoDup (map rdHeight rs) ->
  (forall h, h ∈ map rdHeight rs -> renditions d !! (v, h) = None) ->
  run media_handler (create_renditions v rs) (with_db d w) = (None, with_db (set_renditions (add_renditions v rs) d) w).
Proof.
  intros Hv Hpos. revert d Hv. induction rs as [|r rs IH]; intros d Hv Hnd Hfree; [by destruct d|].
  apply Forall_cons in Hpos as [[Hh Hw] Hpos]. apply NoDup_cons in Hnd as [Hnin Hnd].
  cbn [create_renditions]. mstep. unfold q_CreateVideoRendition.
  rewrite bool_decide_eq_false_2, (proj2 (Z.leb_gt _ _) Hh), (proj2 (Z.leb_gt _ _) Hw) by done. cbn [orb].
  rewrite bool_decide_eq_false_2 by (rewrite Hfree by (by left); intros [? [=]]). cbn [fst snd].
  rewrite IH by (try done; intros h Hin; cbn; rewrite lookup_insert_ne by (intros [= <-]; done); apply Hfree; by right). done.
Qed.

Definition web_rows (v : uuid) (fs : list WebVideoResult) : list VideoFile :=
  map (fun f => mkVideoFile v "rendition" (wv_Key f) (wv_Size f) (wv_Sha f)) fs.

Lemma run_create_files v fs d w :
  mvideos d !! v <> None ->
  run media_handler (create_files v fs) (with_db d w) = (None, with_db (set_mfiles (fun l => l ++ web_rows v fs) d) w).
Proof.
  revert d. induction fs as [|f fs IH]; intros d Hv.
  { cbn. unfold with_db, set_mfiles. rewrite app_nil_r. by destruct d. }
  cbn [create_files]. mstep. unfold q_CreateVideoFile. cbn [vfVideo]. rewrite bool_decide_eq_false_2 by done. cbn [fst snd].
  rewrite IH by done. unfold with_db, set_mfiles. cbn. by rewrite <- app_assoc.
Qed.

(** The alternate's row, when the run made one. *)
Definition webm_rows (v : uuid) (res : HLSResult) (l : list VideoFile) : list VideoFile :=
  if bool_decide (hr_WebMKey res = EmptyString) then l
  else filter (fun f => ~ (vfVideo f = v /\ vfKind f = "webm"%string)) l ++
         [mkVideoFile v "webm" (hr_WebMKey res) (hr_WebMBytes res) (hr_WebMSHA256 res)].

Lemma run_store_webm v res d w :
  mvideos d !! v <> None ->
  run media_handler (store_webm v res) (with_db d w) = (None, with_db (set_mfiles (webm_rows v res) d) w).
Proof.
  intros Hv. unfold store_webm, webm_rows. case_bool_decide; [by destruct d|].
  mstep. unfold q_DeleteVideoFilesByVideoAndKind. cbn [fst snd]. mstep. unfold q_CreateVideoFile. cbn [vfVideo].
  rewrite bool_decide_eq_false_2 by done. done.
Qed.

Definition stored_format (format : string) : string := if bool_decide (format = EmptyString) then "hls-ts"%string else format.

(** What [storeResult] leaves. *)
Definition promoted (v : uuid) (res : HLSResult) (d : MediaDB) : MediaDB :=
  set_splaylists <[v := mkSP (hr_MasterKey res) PlaylistReady (stored_format (hr_Format res))]>
    (set_mfiles (webm_rows v res)
      (set_renditions (fun m => add_renditions v (hr_Renditions res) (filter (fun kv => kv.1.1 <> v) m)) d)).

Lemma run_storeResult v res d w :
  mvideos d !! v <> None -> Forall (fun r => 0 < rdHeight r /\ 0 < rdWidth r) (hr_Renditions res) ->
  NoDup (map rdHeight (hr_Renditions res)) ->
  run media_handler (storeResult v res) (with_db d w) = (None, with_db (promoted v res d) w).
Proof.
  intros Hv Hpos Hnd. unfold storeResult. mstep. unfold q_DeleteVideoRenditions at 1. cbn [fst].
  rewrite run_mbind, run_create_renditions; [|done|done|done|].
  2:{ intros h _. apply eq_None_not_Some. intros [r Hr]. cbn in Hr. apply map_lookup_filter_Some in Hr as [_ Hr]. by cbn in Hr. }
  cbn [fst snd]. rewrite run_mbind, run_store_webm by done. cbn [fst snd]. mstep.
  unfold q_UpsertStreamingPlaylist. rewrite bool_decide_eq_false_2 by done. done.
Qed.

Lemma run_storeWebVideos v fs d w :
  mvideos d !! v <> None ->
  run media_handler (storeWebVideos v fs) (with_db d w) =
    (None, with_db (set_mfiles (fun l => filter (fun f => ~ (vfVideo f = v /\ vfKind f = "rendition"%string)) l ++ web_rows v fs) d) w).
Proof.
  intros Hv. unfold storeWebVideos. mstep. unfold q_DeleteVideoFilesByVideoAndKind. cbn [fst snd].
  by rewrite run_create_files.
Qed.

Lemma with_db_same w : faults (mdb w) = [] -> w = with_db (store (mdb w)) w.
Proof. destruct w as [[d fs] b o tc n hs en sc wr]. cbn. by intros ->. Qed.

(** The database after a completed full job. *)
Definition completed (row : TranscodeJob) (res : HLSResult) (files : list WebVideoResult) (d : MediaDB) : MediaDB :=
  set_tjobs (alter (fun j => with_state TDone (tjAttempts j) (tjNext j) (tjError j) j) (tjID row))
    (set_mfiles (fun l => filter (fun f => ~ (vfVideo f = tjVideo row /\ vfKind f = "rendition"%string)) l ++ web_rows (tjVideo row) files)
      (promoted (tjVideo row) res d)).

Lemma run_full_job s row w g res files objs :
  faults (mdb w) = [] -> ts_targets s = true -> tjTarget row = TargetAll ->
  mvideos (store (mdb w)) !! tjVideo row = Some g ->
  tc_probe (mtc w) (mcalls w) (tjSource row) = Ok tt ->
  tc_all (mtc w) (mcalls w) (tjVideo row) (tjSource row) g = (Ok (res, files), objs) ->
  Forall (fun r => 0 < rdHeight r /\ 0 < rdWidth r) (hr_Renditions res) -> NoDup (map rdHeight (hr_Renditions res)) ->
  exists w', run media_handler (drain_one s None row) w = (1, w') /\
    store (mdb w') = completed row res files (store (mdb w)) /\ mblobs w' = put_all objs (mblobs w) /\
    mhooks w' = (if ts_onComplete s then [OnComplete (tjVideo row)] else []) ++ mhooks w.
Proof.
  intros Hf Ht Hall Hg Hp Htc Hpos Hnd. rewrite (with_db_same w Hf). set (d := store (mdb w)) in *.
  unfold drain_one. rewrite run_mbind, run_mret. cbn [fst snd negb]. rewrite run_mbind. unfold runTarget.
  rewrite Ht. cbn [negb]. mstep. unfold q_GetVideoTranscodeGeneration. rewrite Hg. cbn [fst snd].
  rewrite run_mbind, run_call. cbn [media_handler mtc mcalls with_db fst snd]. rewrite Hp, Hall.
  rewrite run_mbind, run_call. cbn [media_handler mtc mcalls with_db fst snd]. rewrite Htc. unfold transcoded. cbn [fst snd].
  set (w1 := mkMWorld _ _ _ _ _ _ _ _ _). change w1 with (with_db d w1).
  rewrite run_mbind, run_storeResult by (try done; by rewrite Hg). cbn [fst snd].
  rewrite run_mbind, run_storeWebVideos by (cbn; by rewrite Hg). cbn [fst snd run mret prog_mret as_target fmap option_fmap option_map].
  mstep. unfold q_CompleteTranscodeJob. cbn [fst snd].
  destruct (ts_onComplete s); rewrite run_mbind; [rewrite run_call|]; cbn [media_handler fst snd run mret prog_mret];
    eexists; (split; [reflexivity|]); split_and!; done.
Qed.
End Runs.


(** ** Theorems: failures and admission *)

(** What one failed or refused run does to its job, and nothing else. *)
Definition failed_row (row : TranscodeJob) (cause : tcause) (msg : string) (t : time) : TranscodeJob :=
  if (maxAttempts <=? tjAttempts row + 1) || c_permanent cause
  then with_state TFailed (tjAttempts row + 1) (tjNext row) msg row
  else with_state TPending (tjAttempts row + 1) (t + backoff (tjAttempts row + 1)) msg row.

Definition cut_message (cause : tcause) : string :=
  if (maxLastErrorLen <? String.length (c_msg cause))%nat then String.substring 0 maxLastErrorLen (c_msg cause) else c_msg cause.

Lemma requeue_live f id j d :
  tjobs d !! id = Some j -> tlive j = true -> requeue f id d = (Ok tt, set_tjobs (alter f id) d).
Proof. intros Hj Hl. unfold requeue. by rewrite Hj, Hl. Qed.

Lemma alter_known {V} (f : V -> V) (m : gmap uuid V) id v : m !! id = Some v -> alter f id m = <[id := f v]> m.
Proof.
  intros Hv. apply map_eq. intros i. destruct (decide (id = i)) as [<-|].
  - by rewrite lookup_alter_eq, Hv, lookup_insert_eq.
  - by rewrite lookup_alter_ne, lookup_insert_ne.
Qed.

Section Failures.
Context {B : Type} `{Backend B, !Lister B}.
Implicit Types (w : mworld B).

Lemma run_recordFailure s row cause w :
  let d := store (mdb w) in
  let dead := (5 <=? tjAttempts row + 1) || c_permanent cause in
  let w1 := (run media_handler (recordFailure s row cause) w).2 in
  faults (mdb w) = [] -> tjobs d !! tjID row = Some row -> tlive row = true -> mvideos d !! tjVideo row <> None ->
  tjobs (store (mdb w1)) = <[tjID row := failed_row row cause (cut_message cause) (mnow d)]> (tjobs d) /\
  splaylists (store (mdb w1)) =
    (if dead && affects_hls row cause
     then <[tjVideo row := mkSP EmptyString "failed" (match splaylists d !! tjVideo row with Some sp => spFormat sp | None => "hls-ts"%string end)]> (splaylists d)
     else splaylists d) /\
  mhooks w1 = (if dead && ts_onFail s then [OnFail (tjVideo row)] else []) ++ mhooks w.
Proof.
  cbv zeta. intros Hf Hrow Hlive Hv. rewrite (with_db_same w Hf). set (d := store (mdb w)) in *.
  unfold recordFailure, failed_row, maxAttempts. fold (cut_message cause). destruct (_ || _); cbn [andb].
  - rewrite run_mbind, run_call. cbn [media_handler]. rewrite on_media_with_db. unfold q_FailTranscodeJob. cbn [fst snd].
    destruct (affects_hls row cause); rewrite run_mbind.
    + rewrite run_mbind, run_call. cbn [media_handler]. rewrite on_media_with_db. unfold q_MarkStreamingPlaylistFailed.
      rewrite bool_decide_eq_false_2 by done. cbn [fst snd]. rewrite run_mret. cbn [fst snd].
      destruct (ts_onFail s); [rewrite run_call|rewrite run_mret]; cbn; by rewrite (alter_known _ _ _ _ Hrow).
    + rewrite run_mret. cbn [fst snd].
      destruct (ts_onFail s); [rewrite run_call|rewrite run_mret]; cbn; by rewrite (alter_known _ _ _ _ Hrow).
  - rewrite run_mbind, run_call. cbn [media_handler fst snd with_db mdb store].
    rewrite run_mbind, run_call. cbn [media_handler]. change (mkMWorld _ _ _ _ _ _ _ _ _) with (with_db d w).
    rewrite on_media_with_db. unfold q_RescheduleTranscodeJob. rewrite (requeue_live _ _ row) by done. cbn [fst snd].
    rewrite run_mret. cbn. by rewrite (alter_known _ _ _ _ Hrow).
Qed.

Lemma run_deferred s row w free size :
  let d := store (mdb w) in
  let w2 := (run media_handler (drain_one s (Some free) row) w).2 in
  faults (mdb w) = [] -> tjobs d !! tjID row = Some row -> tlive row = true ->
  ts_sizes s = true -> 0 < size -> size * 3 < 2 ^ 64 -> free < size * 3 ->
  (q_GetVideoFileSizeByStorageKey (tjSource row) d).1 = Ok size ->
  tjobs (store (mdb w2)) =
    <[tjID row := with_state TPending (tjAttempts row) (mnow d + 5 * Minute) "deferred: not enough scratch space for this source" row]> (tjobs d) /\
  mcalls w2 = mcalls w /\ mhooks w2 = mhooks w.
Proof.
  cbv zeta. intros Hf Hrow Hlive Hs Hpos Hov Hlt Hsize. rewrite (with_db_same w Hf). set (d := store (mdb w)) in *.
  unfold drain_one, scratchFits. rewrite Hs. cbn [negb].
  rewrite run_mbind, run_mbind, run_call. cbn [media_handler]. rewrite on_media_with_db.
  change (q_GetVideoFileSizeByStorageKey (tjSource row) d).2 with d. rewrite Hsize. cbn [fst snd]. rewrite run_mret. cbn [fst snd].
  rewrite (proj2 (Z.leb_gt size 0)) by done. unfold scratchMultiple. rewrite Z.mod_small by lia.
  rewrite (proj2 (Z.leb_gt (size * 3) free)) by done. cbn [negb].
  rewrite run_mbind, run_call. cbn [media_handler fst snd with_db mdb store].
  rewrite run_mbind, run_call. cbn [media_handler]. change (mkMWorld _ _ _ _ _ _ _ _ _) with (with_db d w).
  rewrite on_media_with_db. unfold q_DeferTranscodeJob. rewrite (requeue_live _ _ row) by done. cbn [fst snd].
  rewrite run_mret. cbn. by rewrite (alter_known _ _ _ _ Hrow).
Qed.

Lemma run_drain_refused s w limit :
  ts_transcoder s = true ->
  menabled w = false \/ (exists f, mscratch w = Some f /\ f < ts_minFreeScratch s) \/ (ts_writeGate s = true /\ mwritable w = false) ->
  run media_handler (DrainJobs s limit) w = (Ok 0, w).
Proof.
  intros Ht Hwhy. unfold DrainJobs. rewrite Ht. cbn [negb]. rewrite run_mbind, run_call. cbn [media_handler fst snd].
  destruct (menabled w) eqn:Hen; cbn [negb]; [|done]. destruct Hwhy as [?|Hwhy]; [done|].
  rewrite run_mbind, run_call. cbn [media_handler fst snd].
  destruct Hwhy as [(f & -> & Hlt)|[Hg Hwr]]; [by rewrite (proj2 (Z.ltb_lt _ _) Hlt)|].
  destruct (match mscratch w with Some f => _ | None => _ end); [done|].
  rewrite Hg, run_mbind, run_call. cbn [media_handler fst snd]. by rewrite Hwr.
Qed.
End Failures.

Lemma transcode_backoff attempts : backoff attempts = Z.min (Minute * 2 ^ Z.max 0 (attempts - 1)) Hour.
Proof.
  unfold backoff. destruct (Backoff_exponential attempts baseBackoff maxBackoff) as (-> & _); [|vm_compute; done|done].
  vm_compute. split; congruence || done.
Qed.

(** The retry ladder and the admission rules of the transcode queue. A failed
    run of a claimed job, on a store that answers, is retried after the
    exponential delay (one minute doubled per attempt, at most an hour) until
    the fifth attempt, or dead-lettered at once when the failure is permanent;
    only then is the playlist marked failed (when the failure is the streaming
    tree's) and the failure hook run. A source that does not fit the free
    scratch space is deferred for five minutes without spending an attempt and
    without starting the encoder. While transcoding is off, the scratch space is
    below the floor or the store refuses writes, a drain claims nothing. *)
Theorem transcode_failures_and_admission {B} `{Backend B, !Lister B} (s : TranscodeService) (row : TranscodeJob) (cause : tcause)
    (w : mworld B) (free size : Z) :
  let d := store (mdb w) in
  faults (mdb w) = [] -> tjobs d !! tjID row = Some row -> tlive row = true -> mvideos d !! tjVideo row <> None ->
  let dead := (5 <=? tjAttempts row + 1) || c_permanent cause in
  let w1 := (run media_handler (recordFailure s row cause) w).2 in
  tjobs (store (mdb w1)) = <[tjID row := failed_row row cause (cut_message cause) (mnow d)]> (tjobs d) /\
  splaylists (store (mdb w1)) =
    (if dead && affects_hls row cause
     then <[tjVideo row := mkSP EmptyString "failed" (match splaylists d !! tjVideo row with Some sp => spFormat sp | None => "hls-ts"%string end)]> (splaylists d)
     else splaylists d) /\
  mhooks w1 = (if dead && ts_onFail s then [OnFail (tjVideo row)] else []) ++ mhooks w /\
  backoff (tjAttempts row + 1) = Z.min (Minute * 2 ^ Z.max 0 (tjAttempts row)) Hour /\
  (ts_sizes s = true -> 0 < size -> size * 3 < 2 ^ 64 -> free < size * 3 ->
   (q_GetVideoFileSizeByStorageKey (tjSource row) d).1 = Ok size ->
   let w2 := (run media_handler (drain_one s (Some free) row) w).2 in
   tjobs (store (mdb w2)) =
     <[tjID row := with_state TPending (tjAttempts row) (mnow d + 5 * Minute) "deferred: not enough scratch space for this source" row]> (tjobs d) /\
   mcalls w2 = mcalls w /\ mhooks w2 = mhooks w) /\
  (forall limit, ts_transcoder s = true ->
     menabled w = false \/ (exists f, mscratch w = Some f /\ f < ts_minFreeScratch s) \/ (ts_writeGate s = true /\ mwritable w = false) ->
     run media_handler (DrainJobs s limit) w = (Ok 0, w)).
Proof.
  cbv zeta. intros Hf Hrow Hlive Hv. destruct (run_recordFailure s row cause w Hf Hrow Hlive Hv) as (H1 & H2 & H3).
  split_and!; try done.
  - rewrite transcode_backoff. do 3 f_equal. lia.
  - intros Hs Hpos Hov Hlt Hsize. by apply (run_deferred s row w free size).
  - intros limit Ht Hwhy. by apply run_drain_refused.
Qed.

(** ** A concrete library *)

Definition demo_service : TranscodeService := mkTranscode true true DefaultMinFreeScratchBytes true true true true.

(** An encoder that writes a master and one rung under its generation. *)
Definition demo_master (v : uuid) (g : Z) : string := HLSPrefixForGeneration v g +:+ "/master.m3u8".

Definition demo_result (v : uuid) (g : Z) : HLSResult :=
  mkHLSResult (demo_master v g) "cmaf" [mkRendition 720 1280 (HLSPrefixForGeneration v g +:+ "/720p") 10] EmptyString 0 EmptyString.

Definition demo_files (v : uuid) (g : Z) : list WebVideoResult :=
  [mkWebVideo 720 (WebVideoPrefixForGeneration v g +:+ "/720p.mp4") 10 EmptyString].

Definition demo_objects (v : uuid) (g : Z) : list (string * bytes) :=
  [(demo_master v g, [Byte.x41]); (WebVideoPrefixForGeneration v g +:+ "/720p.mp4", [Byte.x42])].

Definition demo_transcoder : Transcoder := {|
  tc_probe _ _ := Ok tt;
  tc_only _ v _ := (Ok (demo_result v 0), demo_objects v 0);
  tc_hls _ v _ g := (Ok (demo_result v g), demo_objects v g);
  tc_web _ v _ g := (Ok (demo_files v g), demo_objects v g);
  tc_all _ v _ g := (Ok (demo_result v g, demo_files v g), demo_objects v g);
|}.

Definition demo_video : uuid := "7c9e6679-7425-40de-944b-e07fc1f90ae7".

(** A video whose first generation is promoted and stored. *)
Definition demo_tree : LocalFS :=
  mkLocalFS (mkLocal {[split_slash (demo_master demo_video 1) := [Byte.x00]]}
    (list_to_set (ancestors (split_slash (demo_master demo_video 1))))) [].

Definition demo_media (jobs : gmap uuid TranscodeJob) : MediaDB :=
  mkMedia {[demo_video := 1]} [mkVideoFile demo_video "original" (OriginalVideoKey demo_video 0 ".mp4") 100 EmptyString] []
    {[demo_video := mkSP (demo_master demo_video 1) "ready" "cmaf"]} ∅ jobs [] false 1000 (fun n => Nat.iter n (String.append "j") "j"%string) 0.

Definition demo_mworld (jobs : gmap uuid TranscodeJob) : mworld LocalFS :=
  mkMWorld (Faulty (demo_media jobs) []) demo_tree OwnershipNotApplicable demo_transcoder 0 [] true None true.

Definition demo_job (attempts : Z) : TranscodeJob :=
  mkTJob "k" demo_video (OriginalVideoKey demo_video 0 ".mp4") TargetAll TRunning attempts 2000 EmptyString.


(** Many processes enqueue, drain and sweep one video at once. *)
Definition demo_crowd : list (prog mediaE (result trerr Z)) :=
  let enq := (_ ← EnqueueTarget demo_video "src" "all"; mret (Ok 0)) : prog mediaE (result trerr Z) in
  [enq; enq; DrainJobs demo_service 10; DrainJobs demo_service 10; (_ ← call SweepExpiredTranscodeJobs; mret (Ok 0))].

Definition demo_crowded : list (prog mediaE (result trerr Z)) * mworld LocalFS :=
  schedule media_handler (concat (repeat [0; 1; 2; 3; 4] 25))%nat demo_crowd (demo_mworld ∅).

Lemma one_live_transcode_per_video_witness :
  queue_wf (tjobs (store (mdb demo_crowded.2))) /\ size (tjobs (store (mdb demo_crowded.2))) = 1%nat.
Proof.
  split; [|vm_compute; reflexivity].
  apply (one_live_transcode_per_video demo_crowd demo_crowded.1 (demo_mworld ∅) demo_crowded.2).
  - split; intros k; by intros.
  - rewrite <- surjective_pairing. apply schedule_pool.
Defined.

(** A run can write over the tree players are streaming. The job is visible
    before the video's generation is advanced: a worker that claims it in
    between reads the generation of the promoted tree, and its encode replaces
    the promoted master's bytes in place while the playlist still points there. *)
Theorem transcode_overwrites_streamed_tree :
  let start := demo_mworld ∅ in
  let out := schedule media_handler [0; 0; 1; 1; 1; 1; 1; 0; 1; 1]%nat
    [(_ ← EnqueueTarget demo_video "src" "all"; mret (Ok 0)); DrainJobs demo_service 1] start in
  mvideos (store (mdb out.2)) !! demo_video = Some 2 /\
  splaylists (store (mdb out.2)) !! demo_video = splaylists (store (mdb start)) !! demo_video /\
  spMaster <$> splaylists (store (mdb start)) !! demo_video = Some (demo_master demo_video 1) /\
  contents (mblobs start) (demo_master demo_video 1) = Some [Byte.x00] /\
  contents (mblobs out.2) (demo_master demo_video 1) = Some [Byte.x41].
Proof. vm_compute. split_and!; reflexivity. Qed.

(** The demo video's job fails for the second time; then the disk is small. *)
Lemma transcode_failures_and_admission_witness :
  let w := demo_mworld {["k"%string := demo_job 1]} in
  tjobs (store (mdb (run media_handler (recordFailure demo_service (demo_job 1) (mkCause "boom" false None)) w).2)) !! "k"%string =
    Some (with_state TPending 2 (1000 + 2 * Minute) "boom" (demo_job 1)) /\
  tjobs (store (mdb (run media_handler (drain_one demo_service (Some 299) (demo_job 1)) w).2)) !! "k"%string =
    Some (with_state TPending 1 (1000 + 5 * Minute) "deferred: not enough scratch space for this source" (demo_job 1)).
Proof.
  destruct (transcode_failures_and_admission demo_service (demo_job 1) (mkCause "boom" false None)
    (demo_mworld {["k"%string := demo_job 1]}) 299 100) as (H1 & _ & _ & _ & H5 & _);
    [reflexivity|reflexivity|reflexivity|discriminate|].
  destruct (H5 eq_refl) as (H2 & _); [lia|lia|lia|reflexivity|].
  cbv zeta. rewrite H1, H2. split; vm_compute; reflexivity.
Defined.
