(* ===== verification/MediaGC.v ===== *)
(** * Media garbage collection (src/internal/mediagc/service.go,
    src/internal/storage/marker.go)

    [Sweep] lists the objects under six known prefixes, keeps what the database
    references, and deletes the rest unless a rail forbids it: the migration
    interlock, the bucket-ownership marker, the orphan-ratio breaker. With the
    ownership marker ([ReadOwnerMarker], [WriteOwnerMarker],
    [refreshOwnership], [AdoptBucket], [resolveBucketOwnership]) and
    [ListReferences]. [uuid.Parse] is a parameter. *)
From S2P Require Import Prelude GoStrings Queue Storage MediaKeys MediaStore Playlist Transcode.
Local Open Scope Z_scope.
Local Open Scope go_scope.

(** ** Constants, configuration, results *)

Definition DefaultMaxOrphanPercent : Z := 25.
Definition breakerFloor : Z := 100.
Definition OwnerMarkerKey : string := ".vidra/owner".
Definition hlsPrefix : string := "streaming-playlists".
Definition webVideoPrefix : string := "web-videos".

Definition sweptPrefixes : list string :=
  ["web-videos"; "thumbnails"; "storyboards"; "captions"; "streaming-playlists"; "playlist-thumbnails"]%string.

Definition AllowsDelete (o : BucketOwnership) : bool :=
  bool_decide (o = OwnershipOwned) || bool_decide (o = OwnershipNotApplicable).

Inductive gcerr :=
| GErrListingUnsupported | GErrAdoptNotApplicable | GErrNoInstanceIdentity | GErrAdoptForeignLayoutMedia
| GErrDB (e : dberr) | GErrStorage (e : ioerr) | GErrMarkerRead.

#[global] Instance gcerr_eq_dec : EqDecision gcerr.
Proof. solve_decision. Defined.

(** Which rail forced a dry run. *)
Inductive rail := ReasonBucketOwnership | ReasonMigrationActive.

(** The service: whether the backend lists, the breaker's percentage, this
    install's identity, and which interlocks are wired. *)
Record GcService := mkGc {
  gc_lister : bool;
  gc_maxOrphanPercent : Z;
  gc_identity : string;
  gc_migrationActive : bool;
  gc_foreignLayoutRefs : bool;
}.

(** [WithMaxOrphanPercent] over the default. *)
Definition WithMaxOrphanPercent (pct : Z) : Z := if (0 <=? pct) && (pct <=? 100) then pct else DefaultMaxOrphanPercent.

(** [Result]; the mode is the negation of [rs_DryRun]. *)
Record Result := mkResult {
  rs_DryRun : bool; rs_Scanned : Z; rs_Orphans : list string; rs_Deleted : Z; rs_OrphanPercent : Z;
  rs_BreakerTripped : bool; rs_Ownership : BucketOwnership; rs_Forced : option rail;
}.

(** [refSet]: a video with an attributable master maps to its promoted
    generation's name. *)
Record refSet := mkRefs {
  referenced : gset string;
  liveVideoIDs : gset string;
  promotedGen : gmap string string;
  targetGen : gmap string string;
}.

(** ** The key grammar *)

Section Grammar.
Context (uuid_Parse : string -> option uuid).

(** [isEntityID] *)
Definition isEntityID (seg : string) : bool := match uuid_Parse seg with Some _ => true | None => false end.

(** [isMintedKey] *)
Definition isMintedKey (key prefix : string) : bool :=
  match CutPrefix key (prefix +:+ "/") with
  | None => false
  | Some rest =>
      let seg := (Cut slash rest).1 in
      if isEntityID seg then true
      else match Cut dot seg with
           | (stem, Some _) => isEntityID stem
           | (_, None) => false
           end
  end.

(** [Service.isReferenced] *)
Definition isReferenced (key prefix : string) (refs : refSet) : bool :=
  if negb (isMintedKey key prefix) then true
  else if bool_decide (prefix = hlsPrefix) then
    let parts := split_slash key in
    let vid := match parts with _ :: vid :: _ => vid | _ => EmptyString end in
    if negb (isEntityID vid) then true
    else if negb (bool_decide (vid ∈ liveVideoIDs refs)) then false
    else match promotedGen refs !! vid with
         | None => true
         | Some promoted =>
             let gen := match parts with
                        | _ :: _ :: seg :: _ => if IsHLSGenerationName seg then seg else EmptyString
                        | _ => EmptyString
                        end in
             if bool_decide (gen = promoted) then true
             else match targetGen refs !! vid with Some target => bool_decide (gen = target) | None => false end
         end
  else if bool_decide (prefix = webVideoPrefix) then
    if bool_decide (key ∈ referenced refs) then true
    else match split_slash key with
         | [_; vid; gen; _] =>
             if isEntityID vid && IsHLSGenerationName gen then
               bool_decide (vid ∈ liveVideoIDs refs) &&
               bool_decide (gen = match targetGen refs !! vid with Some t => t | None => EmptyString end)
             else false
         | _ => false
         end
  else bool_decide (key ∈ referenced refs).

(** ** The reference set *)

Abbreviation M A := (prog mediaE A) (only parsing).

(** The keys of the covers. *)
Definition cover_keys (rows : list (uuid * option string)) : list string :=
  flat_map (fun r => match r.2 with
                     | Some ext => if bool_decide (ext = EmptyString) then [] else [PlaylistThumbnailKey r.1 ext]
                     | None => []
                     end) rows.

(** The promoted generation a master key records, when it is attributable. *)
Definition master_generation (v : uuid) (master : string) : option string :=
  match CutPrefix master (HLSKeyPrefix v +:+ "/") with
  | None | Some EmptyString => None
  | Some rest =>
      Some (match Cut slash rest with
            | (seg, Some _) => if IsHLSGenerationName seg then seg else EmptyString
            | (_, None) => EmptyString
            end)
  end.

(** The loop over the playlists. *)
Definition promoted_map (rows : list (uuid * string * string)) : gmap string string :=
  foldl (fun m r => match master_generation r.1.1 r.1.2 with Some gen => <[r.1.1 := gen]> m | None => m end) ∅ rows.

(** [referenceSet] *)
Definition referenceSet : M (result gcerr refSet) :=
  f ← call ListAllVideoFileKeys;
  match f with
  | Err e => mret (Err (GErrDB e))
  | Ok fileKeys =>
      c ← call ListAllCaptionKeys;
      match c with
      | Err e => mret (Err (GErrDB e))
      | Ok capKeys =>
          p ← call ListPlaylistThumbnailRefs;
          match p with
          | Err e => mret (Err (GErrDB e))
          | Ok plRefs =>
              sp ← call ListStreamingPlaylistRefs;
              match sp with
              | Err e => mret (Err (GErrDB e))
              | Ok spRefs =>
                  g ← call ListVideoTranscodeGenerations;
                  mret (match g with
                        | Err e => Err (GErrDB e)
                        | Ok gens =>
                            Ok (mkRefs (list_to_set (fileKeys ++ capKeys ++ cover_keys plRefs)) (list_to_set gens.*1)
                                  (promoted_map spRefs)
                                  (list_to_map (map (fun kv => (kv.1, HLSGenerationName kv.2)) gens)))
                        end)
              end
          end
      end
  end.

(** ** The ownership marker *)

(** [storage.ReadOwnerMarker]: the identity, when there is a marker. *)
Definition ReadOwnerMarker : M (result gcerr (option string)) :=
  r ← call (ObjOpen OwnerMarkerKey);
  mret (match r with
        | Err ErrNotFound => Ok None
        | Err e => Err (GErrStorage e)
        | Ok rc =>
            match read_limited 4096 rc with
            | Some (body, None) => Ok (Some (TrimSpace (String.string_of_list_byte body)))
            | _ => Err GErrMarkerRead
            end
        end).

(** [storage.WriteOwnerMarker] *)
Definition WriteOwnerMarker (identity : string) : M (result gcerr unit) :=
  let identity := TrimSpace identity in
  if bool_decide (identity = EmptyString) then mret (Err GErrNoInstanceIdentity) else
  r ← call (ObjPut OwnerMarkerKey (Reader [String.list_byte_of_string identity] None false));
  mret (match r with Err e => Err (GErrStorage e) | Ok _ => Ok tt end).

Context (s : GcService).

(** [Service.refreshOwnership] *)
Definition refreshOwnership : M BucketOwnership :=
  if bool_decide (gc_identity s = EmptyString) then call GetOwnership else
  m ← ReadOwnerMarker;
  _ ← match m with
      | Ok (Some marker) =>
          call (PutOwnership (if bool_decide (marker = gc_identity s) then OwnershipOwned else OwnershipConflict))
      | Ok None | Err _ => mret tt
      end;
  call GetOwnership.

(** [Service.AdoptBucket] *)
Definition AdoptBucket (force : bool) : M (result gcerr unit) :=
  o ← call GetOwnership;
  if bool_decide (o = OwnershipNotApplicable) then mret (Err GErrAdoptNotApplicable)
  else if bool_decide (gc_identity s = EmptyString) then mret (Err GErrNoInstanceIdentity)
  else
    foreign ← (if negb force && gc_foreignLayoutRefs s then
                 n ← call CountForeignLayoutMediaRefs;
                 mret (match n with Err _ => true | Ok n => 0 <? n end)
               else mret false);
    if (foreign : bool) then mret (Err GErrAdoptForeignLayoutMedia) else
    w ← WriteOwnerMarker (gc_identity s);
    match w with
    | Err e => mret (Err e)
    | Ok _ => _ ← call (PutOwnership OwnershipOwned); mret (Ok tt)
    end.

(** [resolveBucketOwnership] of cmd/api, at start-up: [empty] is what the bucket
    answers to a listing of one key. *)
Definition resolveBucketOwnership (isObjectStore createdBucket : bool) (empty : result ioerr bool) (identity : string)
    : M BucketOwnership :=
  if negb isObjectStore then mret OwnershipNotApplicable
  else if bool_decide (identity = EmptyString) then mret OwnershipUnowned
  else
    m ← ReadOwnerMarker;
    match m with
    | Err _ => mret OwnershipUnowned
    | Ok (Some marker) => mret (if bool_decide (marker = identity) then OwnershipOwned else OwnershipConflict)
    | Ok None =>
        if (if createdBucket then true else match empty with Ok b => b | Err _ => false end) then
          w ← WriteOwnerMarker identity;
          mret (match w with Ok _ => OwnershipOwned | Err _ => OwnershipUnowned end)
        else mret OwnershipUnowned
    end.

(** ** The sweep *)

(** The two gates: whether it is a dry run now, under which ownership, and the
    rail that forced it. *)
Definition gates (dryRun : bool) : M (bool * BucketOwnership * option rail) :=
  own ← call GetOwnership;
  active ← (if negb dryRun && gc_migrationActive s then
              m ← call HasActiveStorageMigration;
              mret (match m with Ok b => b | Err _ => true end)
            else mret false);
  if (active : bool) then mret (true, own, Some ReasonMigrationActive)
  else if negb dryRun && negb (AllowsDelete own) then
    own ← refreshOwnership;
    mret (if AllowsDelete own then (dryRun, own, None) else (true, own, Some ReasonBucketOwnership))
  else mret (dryRun, own, None).

(** The listing: how many objects were seen, and the orphans. *)
Fixpoint scan (prefixes : list string) (refs : refSet) (scanned : Z) (orphans : list string) : M (result gcerr (Z * list string)) :=
  match prefixes with
  | [] => mret (Ok (scanned, orphans))
  | p :: ps =>
      l ← call (ObjList p);
      match l with
      | Err e => mret (Err (GErrStorage e))
      | Ok keys =>
          scan ps refs (scanned + Z.of_nat (length keys))
            (orphans ++ filter (fun key => isReferenced key p refs = false) keys)
      end
  end.

Fixpoint delete_all (keys : list string) (deleted : Z) : M Z :=
  match keys with
  | [] => mret deleted
  | key :: keys' =>
      r ← call (ObjDelete key);
      delete_all keys' (match r with Ok _ => deleted + 1 | Err _ => deleted end)
  end.

(** [Service.breakerTrips] and [percentOf] *)
Definition breakerTrips (orphans scanned : Z) : bool :=
  if orphans <=? breakerFloor then false else (scanned *% gc_maxOrphanPercent s) <? (orphans *% 100).
Definition percentOf (part total : Z) : Z := if total <=? 0 then 0 else (part *% 100) ÷ total.

(** [sort.Strings] *)
Definition string_le (x y : string) : Prop := String.leb x y = true.

#[global] Instance string_le_dec : RelDecision string_le.
Proof. intros x y. unfold string_le. apply _. Defined.

(** [Service.Sweep] *)
Definition Sweep (dryRun : bool) : M (result gcerr Result) :=
  if negb (gc_lister s) then mret (Err GErrListingUnsupported) else
  g ← gates dryRun;
  match g with
  | (dry, own, forced) =>
      r ← referenceSet;
      match r with
      | Err e => mret (Err e)
      | Ok refs =>
          l ← scan sweptPrefixes refs 0 [];
          match l with
          | Err e => mret (Err e)
          | Ok (scanned, found) =>
              let orphans := merge_sort string_le found in
              let n := Z.of_nat (length orphans) in
              let pct := percentOf n scanned in
              if negb dry && breakerTrips n scanned
              then mret (Ok (mkResult true scanned orphans 0 pct true own forced))
              else if dry then mret (Ok (mkResult true scanned orphans 0 pct false own forced))
              else
                del ← delete_all orphans 0;
                mret (Ok (mkResult false scanned orphans del pct false own forced))
          end
      end
  end.

(** [PlaylistRef] and [References] *)
Record PlaylistRef := mkPlaylistRef { pr_VideoID : uuid; pr_MasterKey : string; pr_Format : string; pr_Prefix : string }.
Record References := mkReferences { rf_Keys : list string; rf_Playlists : list PlaylistRef }.

Definition playlist_le (x y : PlaylistRef) : Prop :=
  if bool_decide (pr_VideoID x = pr_VideoID y) then string_le (pr_MasterKey x) (pr_MasterKey y)
  else string_le (pr_VideoID x) (pr_VideoID y).

#[global] Instance playlist_le_dec : RelDecision playlist_le.
Proof. intros x y. unfold playlist_le. case_bool_decide; apply _. Defined.

(** [ListReferences] *)
Definition ListReferences : M (result gcerr References) :=
  r ← referenceSet;
  match r with
  | Err e => mret (Err e)
  | Ok refs =>
      sp ← call ListStreamingPlaylistRefs;
      mret (match sp with
            | Err e => Err (GErrDB e)
            | Ok rows =>
                Ok (mkReferences
                  (merge_sort string_le (filter (fun k => TrimSpace k <> EmptyString) (elements (referenced refs))))
                  (merge_sort playlist_le (map (fun r => mkPlaylistRef r.1.1 (TrimSpace r.1.2) r.2 (HLSKeyPrefix r.1.1)) rows)))
            end)
  end.
End Grammar.

(** ** Lemmas: what the sweep reads *)

(** Operations that leave the database and the objects alone. *)
Definition reading X (e : mediaE X) : Prop :=
  match e with
  | ListAllVideoFileKeys | ListAllCaptionKeys | ListVideoTranscodeGenerations | ListStreamingPlaylistRefs
  | ListPlaylistThumbnailRefs | CountForeignLayoutMediaRefs | HasActiveStorageMigration | ObjOpen _ | ObjList _
  | GetOwnership | PutOwnership _ => True
  | _ => False
  end.

(** The reference set of a database. *)
Definition refs_of (d : MediaDB) : refSet :=
  mkRefs (list_to_set (map vfKey (mfiles d) ++ (mcaptions d).*2 ++ cover_keys (filter (fun c => c.2 <> None) (covers d))))
    (list_to_set (map_to_list (mvideos d)).*1)
    (promoted_map (map (fun kv => (kv.1, spMaster kv.2, spFormat kv.2)) (map_to_list (splaylists d))))
    (list_to_map (map (fun kv => (kv.1, HLSGenerationName kv.2)) (map_to_list (mvideos d)))).

Section Reads.
Context {B : Type} `{Backend B, !Lister B} (uuid_Parse : string -> option uuid) (s : GcService).
Implicit Types (w : mworld B).

(** Same database, same objects. *)
Definition same_data w w' : Prop := store (mdb w') = store (mdb w) /\ mblobs w' = mblobs w.

#[global] Instance same_data_preorder : PreOrder same_data.
Proof. split; [done|]. intros x y z [] []. split; congruence. Qed.

Lemma reading_step X (e : mediaE X) w : reading X e -> same_data w (media_handler X e w).2.
Proof.
  destruct e; cbn [reading]; try done; intros _; split; try done; cbn [media_handler];
    by apply (on_media_invariant _ (fun d => d = store (mdb w))).
Qed.

Lemma run_reading {A} (p : prog mediaE A) w : ops reading p -> same_data w (run media_handler p w).2.
Proof. apply (run_rel media_handler reading same_data (fun X e w0 => reading_step X e w0)). Qed.

Lemma referenceSet_reads : ops reading referenceSet.
Proof. unfold referenceSet. walk_ops; done. Qed.

Lemma gates_reads dry : ops reading (gates s dry).
Proof. unfold gates, refreshOwnership, ReadOwnerMarker. walk_ops; done. Qed.

Lemma scan_reads ps refs n l : ops reading (scan uuid_Parse ps refs n l).
Proof. revert n l. induction ps as [|p ps IH]; intros n l; cbn [scan]; walk_ops; done. Qed.

(** One read that answered. *)
Lemma read_answer {A} (q : MediaDB -> result dberr A * MediaDB) w a :
  (forall d, (q d).2 = d) -> (on_media q w).1 = Ok a -> (q (store (mdb w))).1 = Ok a /\ same_data w (on_media q w).2.
Proof. intros Hq Ha. apply on_media_ok in Ha as [H1 H2]. split; [done|]. split; [by rewrite H2|done]. Qed.

Lemma run_referenceSet w refs :
  (run media_handler referenceSet w).1 = Ok refs -> refs = refs_of (store (mdb w)).
Proof.
  unfold referenceSet.
  rewrite run_mbind, run_call. cbn [media_handler]. destruct (on_media _ w).1 as [fk|] eqn:H1; [|done].
  apply read_answer in H1 as [[= <-] [E1 _]]; [|done]. set (w1 := (on_media _ w).2) in *. clearbody w1.
  rewrite run_mbind, run_call. cbn [media_handler]. destruct (on_media _ w1).1 as [ck|] eqn:H2; [|done].
  apply read_answer in H2 as [[= <-] [E2 _]]; [|done]. set (w2 := (on_media _ w1).2) in *. clearbody w2.
  rewrite run_mbind, run_call. cbn [media_handler]. destruct (on_media _ w2).1 as [pk|] eqn:H3; [|done].
  apply read_answer in H3 as [[= <-] [E3 _]]; [|done]. set (w3 := (on_media _ w2).2) in *. clearbody w3.
  rewrite run_mbind, run_call. cbn [media_handler]. destruct (on_media _ w3).1 as [sk|] eqn:H4; [|done].
  apply read_answer in H4 as [[= <-] [E4 _]]; [|done]. set (w4 := (on_media _ w3).2) in *. clearbody w4.
  rewrite run_mbind, run_call. cbn [media_handler]. destruct (on_media _ w4).1 as [gk|] eqn:H5; [|done].
  apply read_answer in H5 as [[= <-] [E5 _]]; [|done]. rewrite run_mret. cbn [fst]. intros [= <-]. unfold refs_of. by rewrite E4, E3, E2, E1.
Qed.

(** A listing that answered is made of orphans of the listed prefixes. *)
Lemma run_scan ps refs n l w n' found :
  (run media_handler (scan uuid_Parse ps refs n l) w).1 = Ok (n', found) ->
  exists lists, Forall2 (fun p ks => be_list p (mblobs w) = Ok ks) ps lists /\
    n' = n + sumZ (fun ks => Z.of_nat (length ks)) lists /\
    found = l ++ concat (zip_with (fun p ks => filter (fun key => isReferenced uuid_Parse key p refs = false) ks) ps lists).
Proof.
  revert n l. induction ps as [|p ps IH]; intros n l.
  { cbn. intros [= <- <-]. exists []. split; [constructor|]. cbn. rewrite app_nil_r. split; [unfold sumZ; cbn; lia|done]. }
  cbn [scan]. rewrite run_mbind, run_call. cbn [media_handler fst snd].
  destruct (be_list p (mblobs w)) as [ks|e] eqn:Hl; [|done]. intros Hrun.
  destruct (IH _ _ Hrun) as (lists & H1 & -> & ->). exists (ks :: lists). split; [by constructor|]. split; [unfold sumZ; cbn; lia|].
  cbn. by rewrite <- app_assoc.
Qed.

Lemma scan_found ps refs w n found k :
  (run media_handler (scan uuid_Parse ps refs 0 []) w).1 = Ok (n, found) ->
  k ∈ found <-> exists p ks, p ∈ ps /\ be_list p (mblobs w) = Ok ks /\ k ∈ ks /\ isReferenced uuid_Parse k p refs = false.
Proof.
  intros Hrun. destruct (run_scan _ _ _ _ _ _ _ Hrun) as (lists & HF & _ & ->). cbn [app]. clear Hrun.
  induction HF as [|p ks ps lists Hp HF IH]; cbn [zip_with concat].
  { split; [intros Hk; by apply not_elem_of_nil in Hk|]. intros (p & _ & Hp & _). by apply not_elem_of_nil in Hp. }
  rewrite elem_of_app, list_elem_of_filter, IH. split.
  - intros [[Hr Hk]|(p' & ks' & Hp' & Hl & Hk & Hr)]; [exists p, ks|exists p', ks']; split_and!; try done; [by left|by right].
  - intros (p' & ks' & Hp' & Hl & Hk & Hr). apply elem_of_cons in Hp' as [->|Hp']; [left; split; congruence|right; eauto 10].
Qed.
End Reads.

(** ** Lemmas: deleting *)

Section Deletes.
Context {B : Type} `{BackendLaws B, !Lister B}.
Implicit Types (w : mworld B).

Lemma run_delete_all keys n w :
  Forall (fun k => canonical k = true) keys ->
  let w' := (run media_handler (delete_all keys n) w).2 in
  mdb w' = mdb w /\ (forall k, canonical k = true -> k ∉ keys -> contents (mblobs w') k = contents (mblobs w) k).
Proof.
  intros Hc. revert n w. induction Hc as [|key keys Hk Hks IH]; intros n w; cbn [delete_all]; [done|].
  rewrite run_mbind, run_call. cbn [media_handler]. unfold on_objects at 2 3. cbv zeta. cbn [fst snd].
  match goal with |- context [run media_handler (delete_all keys ?m) ?x] => destruct (IH m x) as [E1 E2] end.
  split; [by rewrite E1|]. intros k Hcan Hnin. apply not_elem_of_cons in Hnin as [Hne Hnin]. rewrite E2 by done. cbn.
  by apply delete_frame.
Qed.
End Deletes.

(** ** What must stay *)

(** The generation a playlist row promotes. *)
Definition promotes (d : MediaDB) (v : uuid) (g : Z) : Prop :=
  exists sp file, splaylists d !! v = Some sp /\ spMaster sp = HLSPrefixForGeneration v g +:+ String slash file /\
    file <> EmptyString /\ (g <= 0 -> IsHLSGenerationName (Cut slash file).1 = false).

(** No master under the video's own tree is recorded: never transcoded, failed,
    or imported by reference. *)
Definition unattributed (d : MediaDB) (v : uuid) : Prop :=
  forall sp, splaylists d !! v = Some sp -> master_generation v (spMaster sp) = None.

(** A row holds the key. *)
Definition recorded (d : MediaDB) (k : string) : Prop :=
  k ∈ map vfKey (mfiles d) \/ k ∈ (mcaptions d).*2 \/
  exists id ext, (id, Some ext) ∈ covers d /\ ext <> EmptyString /\ k = PlaylistThumbnailKey id ext.

(** The objects a database needs, and those it cannot judge: keys a row holds
    (outside the streaming trees), the promoted and the in-flight generation of
    a video's trees, the whole tree of a video without an attributable master,
    what another system laid out, and everything outside the swept prefixes. *)
Inductive live (uuid_Parse : string -> option uuid) (d : MediaDB) : string -> Prop :=
| live_recorded k : recorded d k -> under hlsPrefix k = false -> live uuid_Parse d k
| live_tree v g target rest :
    mvideos d !! v = Some target -> g = target \/ promotes d v g \/ unattributed d v ->
    (g <= 0 -> IsHLSGenerationName (Cut slash rest).1 = false) ->
    live uuid_Parse d (HLSPrefixForGeneration v g +:+ String slash rest)
| live_progressive v g rung :
    mvideos d !! v = Some g -> 0 < g -> contains slash rung = false ->
    live uuid_Parse d (WebVideoPrefixForGeneration v g +:+ String slash rung)
| live_foreign p rest :
    isEntityID uuid_Parse (Cut slash rest).1 = false -> isEntityID uuid_Parse (Cut dot (Cut slash rest).1).1 = false ->
    p ∈ sweptPrefixes -> live uuid_Parse d (p +:+ String slash rest)
| live_elsewhere k : Forall (fun p => under p k = false) sweptPrefixes -> live uuid_Parse d k.

(** Ids of videos are texts [uuid.Parse] accepts. *)
Definition ids_parse (uuid_Parse : string -> option uuid) (d : MediaDB) : Prop :=
  forall v g, mvideos d !! v = Some g -> plain v = true /\ uuid_Parse v <> None.

(** ** Lemmas: the reference set *)

Lemma promoted_map_lookup rows v :
  NoDup (map (fun r => r.1.1) rows) ->
  promoted_map rows !! v =
    (list_find (fun r : uuid * string * string => r.1.1 = v) rows) ≫= fun ir => master_generation v ir.2.1.2.
Proof.
  unfold promoted_map. intros Hnd.
  assert (Hgen : forall m : gmap string string, (forall r, r ∈ rows -> m !! r.1.1 = None) ->
    foldl (fun m r => match master_generation r.1.1 r.1.2 with Some gen => <[r.1.1 := gen]> m | None => m end) m rows !! v =
      match list_find (fun r : uuid * string * string => r.1.1 = v) rows with
      | Some ir => master_generation v ir.2.1.2
      | None => m !! v
      end).
  { induction rows as [|r rows IH]; intros m Hm; [done|]. cbn in Hnd. apply NoDup_cons in Hnd as [Hnin Hnd]. cbn [foldl].
    assert (Hrest : forall r', r' ∈ rows -> r'.1.1 <> r.1.1).
    { intros r' Hr' He. apply Hnin. rewrite <- He. apply list_elem_of_fmap. by exists r'. }
    rewrite IH; [|done|].
    2:{ intros r' Hr'. destruct (master_generation r.1.1 r.1.2); [rewrite lookup_insert_ne by (by apply not_eq_sym, Hrest)|]; apply Hm; by right. }
    cbn [list_find]. case_decide as Hv.
    - subst v. assert (Hno : list_find (fun r0 : uuid * string * string => r0.1.1 = r.1.1) rows = None).
      { apply list_find_None, Forall_forall. intros x Hx. by apply Hrest. }
      rewrite Hno. cbn. destruct (master_generation r.1.1 r.1.2); [by rewrite lookup_insert_eq|]. apply Hm. by left.
    - destruct (list_find _ rows) as [[i x]|]; cbn; [done|].
      destruct (master_generation r.1.1 r.1.2); [by rewrite lookup_insert_ne|done]. }
  rewrite Hgen by (intros; apply lookup_empty). by destruct (list_find _ rows) as [[]|].
Qed.

Lemma refs_promoted d v :
  promotedGen (refs_of d) !! v = splaylists d !! v ≫= fun sp => master_generation v (spMaster sp).
Proof.
  unfold refs_of. cbn [promotedGen].
  assert (Hkeys : map (fun r : uuid * string * string => r.1.1) (map (fun kv => (kv.1, spMaster kv.2, spFormat kv.2)) (map_to_list (splaylists d)))
    = (map_to_list (splaylists d)).*1) by (by rewrite map_map).
  rewrite promoted_map_lookup by (rewrite Hkeys; apply NoDup_fst_map_to_list).
  destruct (list_find _ _) as [[i r]|] eqn:Hf.
  - apply list_find_Some in Hf as (Hi & Hv & _). apply list_elem_of_lookup_2, list_elem_of_fmap in Hi as ([u sp] & -> & Hu).
    apply elem_of_map_to_list in Hu. cbn in *. subst u. by rewrite Hu.
  - destruct (splaylists d !! v) as [sp|] eqn:Hs; [|done]. apply list_find_None in Hf.
    rewrite Forall_forall in Hf. exfalso. apply (Hf (v, spMaster sp, spFormat sp)); [|done].
    apply list_elem_of_fmap. exists (v, sp). by rewrite elem_of_map_to_list.
Qed.

Lemma refs_target d v : targetGen (refs_of d) !! v = HLSGenerationName <$> mvideos d !! v.
Proof.
  unfold refs_of. cbn [targetGen].
  change (map (fun kv : uuid * Z => (kv.1, HLSGenerationName kv.2)) (map_to_list (mvideos d)))
    with (prod_map (@id uuid) HLSGenerationName <$> map_to_list (mvideos d)).
  by rewrite list_to_map_fmap, list_to_map_to_list, lookup_fmap.
Qed.

Lemma refs_live d v : v ∈ liveVideoIDs (refs_of d) <-> is_Some (mvideos d !! v).
Proof.
  unfold refs_of. cbn [liveVideoIDs]. rewrite elem_of_list_to_set, list_elem_of_fmap. split.
  - intros ([u g] & -> & Hu%elem_of_map_to_list). cbn. by eexists.
  - intros [g Hg]. exists (v, g). by rewrite elem_of_map_to_list.
Qed.

Lemma refs_recorded d k : recorded d k -> k ∈ referenced (refs_of d).
Proof.
  unfold refs_of. cbn [referenced]. rewrite elem_of_list_to_set, !elem_of_app. intros [?|[?|(id & ext & Hin & Hne & ->)]]; [by left|by right; left|].
  right; right. unfold cover_keys. apply list_elem_of_In, in_flat_map. exists (id, Some ext). split.
  - apply list_elem_of_In, list_elem_of_filter. by split.
  - cbn. rewrite bool_decide_eq_false_2 by done. by left.
Qed.

(** ** Lemmas: a live key is referenced *)

Lemma split_slash_head s : exists ws, split_slash s = (Cut slash s).1 :: ws.
Proof.
  induction s as [|c s [ws IH]]; [by exists []|]. cbn [split_slash Cut].
  destruct (decide (c = slash)) as [->|Hc]; [by eexists|].
  rewrite (bool_decide_eq_false_2 (c = slash)), IH by done.
  destruct (Cut slash s) as [h t]. cbn. by exists ws.
Qed.

(** Below a prefix of one segment: the prefix is the key's first segment. *)
Lemma under_head p k : contains slash p = false -> under p k = true -> exists ws, split_slash k = p :: ws.
Proof.
  intros Hp. unfold under, below. rewrite split_slash_single by done. intros [ws Hw]%bool_decide_eq_true. by exists ws.
Qed.

Lemma swept_single p : p ∈ sweptPrefixes -> contains slash p = false.
Proof. intros Hp. by repeat (apply elem_of_cons in Hp as [->|Hp]; [reflexivity|]); apply not_elem_of_nil in Hp. Qed.

(** A key has one swept prefix. *)
Lemma under_first p p' rest :
  p ∈ sweptPrefixes -> contains slash p' = false -> under p (p' +:+ String slash rest) = true -> p = p'.
Proof.
  intros Hp Hp' [ws Hw]%under_head; [|by apply swept_single].
  assert (E : split_slash (p' +:+ String slash rest) = p' :: split_slash rest) by (by apply split_slash_no_slash). congruence.
Qed.

Section Live.
Context (uuid_Parse : string -> option uuid) (d : MediaDB).
Hypothesis (Hids : ids_parse uuid_Parse d).

Lemma minted_cut p rest : CutPrefix (p +:+ String slash rest) (p +:+ "/") = Some rest.
Proof.
  replace (p +:+ String slash rest) with ((p +:+ "/") +:+ rest) by (by rewrite append_assoc). apply CutPrefix_app.
Qed.

Lemma entity_id v g : mvideos d !! v = Some g -> isEntityID uuid_Parse v = true /\ contains slash v = false.
Proof.
  intros Hv. destruct (Hids v g Hv) as [Hp Hu]. unfold isEntityID. split; [by destruct (uuid_Parse v)|].
  unfold plain in Hp. bools. by apply plain_contains.
Qed.

(** A key whose first segment after the prefix is an id is minted here. *)
Lemma minted_tree p v g rest :
  mvideos d !! v = Some g -> isMintedKey uuid_Parse (p +:+ String slash (v +:+ String slash rest)) p = true.
Proof.
  intros Hv. destruct (entity_id v g Hv) as [He Hs]. unfold isMintedKey. rewrite minted_cut, Cut_app by done. cbn [fst].
  by rewrite He.
Qed.

(** The path of a tree, and the generation read back from it. *)
Definition tree_tail (g : Z) (rest : string) : string :=
  if 0 <? g then HLSGenerationName g +:+ String slash rest else rest.

Lemma generation_dir (pre : string) g rest :
  (if bool_decide (HLSGenerationName g = EmptyString) then pre else pre +:+ "/" +:+ HLSGenerationName g) +:+ String slash rest
    = pre +:+ String slash (tree_tail g rest).
Proof.
  unfold tree_tail. destruct (Z.ltb_spec 0 g) as [Hg|Hg].
  - rewrite bool_decide_eq_false_2 by (by apply generation_name_nonempty). by rewrite !append_assoc.
  - rewrite bool_decide_eq_true_2; [done|]. unfold HLSGenerationName. by rewrite (proj2 (Z.leb_le g 0)).
Qed.

Lemma hls_key v g rest :
  HLSPrefixForGeneration v g +:+ String slash rest = hlsPrefix +:+ String slash (v +:+ String slash (tree_tail g rest)).
Proof. unfold HLSPrefixForGeneration. rewrite generation_dir. done. Qed.

Lemma web_key v g rest :
  WebVideoPrefixForGeneration v g +:+ String slash rest = webVideoPrefix +:+ String slash (v +:+ String slash (tree_tail g rest)).
Proof.
  unfold WebVideoPrefixForGeneration.
  change ("web-videos/" +:+ v +:+ "/" +:+ HLSGenerationName g) with (("web-videos/" +:+ v) +:+ "/" +:+ HLSGenerationName g).
  rewrite generation_dir. done.
Qed.

Lemma tail_generation g rest : (g <= 0 -> IsHLSGenerationName (Cut slash rest).1 = false) ->
  exists seg ws, split_slash (tree_tail g rest) = seg :: ws /\
    (if IsHLSGenerationName seg then seg else EmptyString) = HLSGenerationName g.
Proof.
  intros Hr. unfold tree_tail. destruct (Z.ltb_spec 0 g) as [Hg|Hg].
  - exists (HLSGenerationName g), (split_slash rest). split.
    + apply split_slash_no_slash. apply plain_contains; [done|]. apply generation_name_plain.
    + by rewrite generation_name_recognised, (proj2 (Z.ltb_lt 0 g)).
  - destruct (split_slash_head rest) as [ws Hws]. exists (Cut slash rest).1, ws. split; [done|].
    rewrite Hr by done. unfold HLSGenerationName. by rewrite (proj2 (Z.leb_le g 0)).
Qed.

(** The master of a generation is read back as that generation. *)
Lemma master_generation_read v g file : file <> EmptyString ->
  (g <= 0 -> IsHLSGenerationName (Cut slash file).1 = false) ->
  master_generation v (HLSPrefixForGeneration v g +:+ String slash file) = Some (HLSGenerationName g).
Proof.
  intros Hne Hf. unfold master_generation. rewrite hls_key.
  change (hlsPrefix +:+ String slash (v +:+ String slash (tree_tail g file))) with (HLSKeyPrefix v +:+ String slash (tree_tail g file)).
  rewrite minted_cut. unfold tree_tail. destruct (Z.ltb_spec 0 g) as [Hg|Hg].
  - pose proof (generation_name_nonempty g Hg) as Hn. pose proof (generation_name_plain g) as Hp.
    rewrite Cut_app by (by apply plain_contains). rewrite generation_name_recognised, (proj2 (Z.ltb_lt 0 g)) by done.
    by destruct (HLSGenerationName g).
  - destruct (HLSGenerationName g) eqn:Hn.
    2:{ unfold HLSGenerationName in Hn. by rewrite (proj2 (Z.leb_le g 0)) in Hn. }
    specialize (Hf Hg). destruct file as [|c file]; [done|]. destruct (Cut slash (String c file)) as [seg [t|]]; [|done].
    cbn in Hf. by rewrite Hf.
Qed.

Lemma tree_referenced v g target rest :
  mvideos d !! v = Some target -> g = target \/ promotes d v g \/ unattributed d v ->
  (g <= 0 -> IsHLSGenerationName (Cut slash rest).1 = false) ->
  isReferenced uuid_Parse (HLSPrefixForGeneration v g +:+ String slash rest) hlsPrefix (refs_of d) = true.
Proof.
  intros Hv Hg Hrest. destruct (entity_id v target Hv) as [He Hs].
  unfold isReferenced. rewrite hls_key, (minted_tree _ _ target) by done. cbn [negb].
  rewrite bool_decide_eq_true_2 by done.
  assert (Hsplit : split_slash (hlsPrefix +:+ String slash (v +:+ String slash (tree_tail g rest)))
    = hlsPrefix :: v :: split_slash (tree_tail g rest)).
  { change (?a +:+ ?b) with (String.append a b). by rewrite !split_slash_no_slash. }
  rewrite Hsplit. destruct (tail_generation g rest Hrest) as (seg & ws & -> & Hgen). rewrite He. cbn [negb].
  rewrite bool_decide_eq_true_2 by (apply refs_live; by eexists). cbn [negb].
  rewrite refs_promoted, refs_target, Hv. cbn [fmap option_fmap option_map]. rewrite Hgen.
  destruct Hg as [->|[(sp & file & Hsp & Hm & Hne & Hf)|Hun]].
  - destruct (splaylists d !! v ≫= _) as [pr|]; [|done]. rewrite (bool_decide_eq_true_2 (HLSGenerationName target = HLSGenerationName target)) by done.
    by case_bool_decide.
  - rewrite Hsp. cbn. rewrite Hm, master_generation_read by done. by rewrite bool_decide_eq_true_2.
  - destruct (splaylists d !! v) as [sp|] eqn:Hsp; [|done]. cbn. by rewrite (Hun sp Hsp).
Qed.

Lemma progressive_referenced v g rung :
  mvideos d !! v = Some g -> 0 < g -> contains slash rung = false ->
  isReferenced uuid_Parse (WebVideoPrefixForGeneration v g +:+ String slash rung) webVideoPrefix (refs_of d) = true.
Proof.
  intros Hv Hg Hr. destruct (entity_id v g Hv) as [He Hs].
  unfold isReferenced. rewrite web_key, (minted_tree _ _ g) by done. cbn [negb].
  rewrite (bool_decide_eq_false_2 (webVideoPrefix = hlsPrefix)), bool_decide_eq_true_2 by done.
  case_bool_decide as Hin; [done|]. unfold tree_tail. rewrite (proj2 (Z.ltb_lt 0 g)) by done.
  assert (Hn : contains slash (HLSGenerationName g) = false) by (apply plain_contains; [done|apply generation_name_plain]).
  assert (Hsplit : split_slash (webVideoPrefix +:+ String slash (v +:+ String slash (HLSGenerationName g +:+ String slash rung)))
    = [webVideoPrefix; v; HLSGenerationName g; rung]).
  { change (?a +:+ ?b) with (String.append a b). by rewrite !split_slash_no_slash, split_slash_single by done. }
  rewrite Hsplit, He, generation_name_recognised, (proj2 (Z.ltb_lt 0 g)) by done. cbn [andb].
  rewrite refs_target, Hv. cbn. rewrite !bool_decide_eq_true_2; try done. apply refs_live. by eexists.
Qed.

Lemma foreign_kept p rest refs :
  isEntityID uuid_Parse (Cut slash rest).1 = false -> isEntityID uuid_Parse (Cut dot (Cut slash rest).1).1 = false ->
  isReferenced uuid_Parse (p +:+ String slash rest) p refs = true.
Proof.
  intros H1 H2. unfold isReferenced, isMintedKey. rewrite minted_cut, H1.
  destruct (Cut dot _) as [stem [ext|]]; [cbn in H2; by rewrite H2|done].
Qed.

(** No live key is an orphan. *)
Lemma live_referenced k p :
  live uuid_Parse d k -> p ∈ sweptPrefixes -> under p k = true -> isReferenced uuid_Parse k p (refs_of d) = true.
Proof.
  intros Hl Hp Hu. destruct Hl as [k Hk Hn|v g target rest Hv Hg Hr|v g rung Hv Hg Hr|p' rest H1 H2 Hp'|k Hk].
  - unfold isReferenced. destruct (isMintedKey _ _ _); [|done]. cbn [negb]. apply refs_recorded in Hk.
    rewrite bool_decide_eq_false_2 by congruence. rewrite (bool_decide_eq_true_2 (k ∈ _)) by done. by case_bool_decide.
  - assert (p = hlsPrefix) as ->. { rewrite hls_key in Hu. by apply under_first in Hu. } by apply (tree_referenced v g target).
  - assert (p = webVideoPrefix) as ->. { rewrite web_key in Hu. by apply under_first in Hu. } by apply progressive_referenced.
  - assert (p = p') as ->. { apply under_first in Hu; [done|done|by apply swept_single]. } by apply foreign_kept.
  - rewrite Forall_forall in Hk. specialize (Hk p Hp). congruence.
Qed.
End Live.

(** ** Lemmas: the marker *)

Lemma limited_loop fuel n r :
  (reads_left (pieces r) < fuel)%nat -> Z.of_nat (length (data r)) <= n -> rend r = None ->
  copy_loop limit_Read fuel (n, r) = Some (data r, None).
Proof.
  revert n r. induction fuel as [|fuel IH]; intros n r Hf Hn He; [lia|]. cbn [copy_loop]. unfold limit_Read at 1. cbn [fst snd].
  destruct (Z.leb_spec n 0) as [H0|H0].
  { destruct (data r); [done|cbn in Hn; lia]. }
  destruct (Read (Z.min copy_buf n) r) as [[x st] r'] eqn:HR.
  apply Read_spec in HR as (Hd & He' & Hlen & Hend & Hprog); [|unfold copy_buf; lia]. destruct st as [| |e].
  - rewrite Hd, length_app in Hn. rewrite IH; [by rewrite Hd| |lia|congruence].
    specialize (Hprog (or_introl eq_refl)). lia.
  - destruct Hend as [Hp _]; [done|]. unfold data in Hd |- *. rewrite Hp in Hd. cbn in Hd. by rewrite app_nil_r in Hd; rewrite Hd.
  - destruct Hend as [_ Hs]; [done|]. unfold end_stat in Hs. by rewrite He in Hs.
Qed.

Lemma read_limited_all n r : Z.of_nat (length (data r)) <= n -> rend r = None -> read_limited n r = Some (data r, None).
Proof. intros Hn He. apply limited_loop; [lia|done|done]. Qed.

Lemma length_list_byte x : length (String.list_byte_of_string x) = String.length x.
Proof. unfold String.list_byte_of_string. rewrite length_map. induction x as [|c x IH]; [done|]. cbn. by rewrite IH. Qed.

Section Marker.
Context {B : Type} `{BackendLaws B, !Lister B}.
Implicit Types (w : mworld B).

Lemma run_ReadOwnerMarker w body :
  contents (mblobs w) OwnerMarkerKey = Some body -> Z.of_nat (length body) <= 4096 ->
  run media_handler ReadOwnerMarker w = (Ok (Some (TrimSpace (String.string_of_list_byte body))), w).
Proof.
  intros Hc Hl. unfold ReadOwnerMarker. rewrite run_mbind, run_call. cbn [media_handler fst snd]. rewrite run_mret.
  destruct (open_stored OwnerMarkerKey (mblobs w) body) as (r & -> & Hd & He); [reflexivity|done|].
  rewrite read_limited_all by (rewrite ?Hd; done). by rewrite Hd.
Qed.

(** The marker written is the trimmed identity. *)
Lemma run_WriteOwnerMarker identity w r w' :
  run media_handler (WriteOwnerMarker identity) w = (Ok r, w') ->
  TrimSpace identity <> EmptyString /\
  contents (mblobs w') OwnerMarkerKey = Some (String.list_byte_of_string (TrimSpace identity)) /\ mdb w' = mdb w /\
  forall k, canonical k = true -> k <> OwnerMarkerKey -> contents (mblobs w') k = contents (mblobs w) k.
Proof.
  unfold WriteOwnerMarker. case_bool_decide as Hid; [done|]. rewrite run_mbind, run_call, run_mret. cbn [media_handler].
  unfold on_objects. cbv zeta. cbn [fst snd]. destruct (be_put _ _ _).1 as [n|] eqn:Hp; [|done]. intros [= <- <-].
  apply put_ok in Hp as (_ & _ & Hc); [|reflexivity]. cbn. split_and!; [done|rewrite Hc; cbn; by rewrite app_nil_r|done|].
  intros k Hk Hne. by apply put_frame.
Qed.
End Marker.

(** ** Lemmas: the sweep *)

Section Sweeps.
Context {B : Type} `{BackendLaws B, !Lister B, !ListerLaws B} (uuid_Parse : string -> option uuid) (s : GcService).
Implicit Types (w : mworld B).

(** The orphans of a database over a store. *)
Definition orphan (d : MediaDB) (b : B) (k : string) : Prop :=
  canonical k = true /\ is_Some (contents b k) /\
  exists p, p ∈ sweptPrefixes /\ under p k = true /\ isReferenced uuid_Parse k p (refs_of d) = false.

(** Deleting counts what answered. *)
Lemma run_delete_count keys n w :
  Forall (fun k => canonical k = true) keys ->
  let out := run media_handler (delete_all keys n) w in
  n <= out.1 <= n + Z.of_nat (length keys) /\
  (out.1 = n + Z.of_nat (length keys) -> forall k, k ∈ keys -> contents (mblobs out.2) k = None).
Proof.
  intros Hc. revert n w. induction Hc as [|key keys Hk Hks IH]; intros n w; cbn [delete_all].
  { cbn. split; [lia|]. intros _ k Hk. by apply not_elem_of_nil in Hk. }
  rewrite run_mbind, run_call. cbn [media_handler]. unfold on_objects. cbv zeta. cbn [fst snd length].
  match goal with |- context [run media_handler (delete_all keys ?m) ?x] =>
    destruct (IH m x) as [Hb Hnone]; pose proof (run_delete_all keys m x Hks) as [_ Hframe] end.
  destruct (be_delete key (mblobs w)).1 as [[]|e] eqn:Hd.
  - split; [lia|]. intros Hout k Hin. destruct (decide (k ∈ keys)) as [Hi|Hni]; [apply Hnone; [lia|done]|].
    apply elem_of_cons in Hin as [->|]; [|done]. rewrite Hframe by done. cbn. by apply delete_ok.
  - split; [lia|]. intros Hout. lia.
Qed.

Lemma scan_orphans w refs n found k :
  refs = refs_of (store (mdb w)) ->
  (run media_handler (scan uuid_Parse sweptPrefixes refs 0 []) w).1 = Ok (n, found) ->
  k ∈ found <-> orphan (store (mdb w)) (mblobs w) k.
Proof.
  intros -> Hrun. rewrite (scan_found _ _ _ _ _ _ _ Hrun). destruct (run_scan _ _ _ _ _ _ _ _ Hrun) as (lists & HF & _ & _).
  assert (Hcan : forall p, p ∈ sweptPrefixes -> canonical p = true).
  { intros p Hp. by repeat (apply elem_of_cons in Hp as [->|Hp]; [reflexivity|]); apply not_elem_of_nil in Hp. }
  split.
  - intros (p & ks & Hp & Hl & Hk & Hr). destruct (list_sound p (mblobs w) ks k (Hcan p Hp) Hl Hk) as (H1 & H2 & H3).
    split_and!; [done|done|]. by exists p.
  - intros (Hk & Hs & p & Hp & Hu & Hr). destruct (list_elem_of_lookup_1 _ _ Hp) as [i Hi].
    destruct (Forall2_lookup_l _ _ _ _ _ HF Hi) as (ks & _ & Hl). exists p, ks. split_and!; try done.
    by apply (list_complete p (mblobs w)); auto.
Qed.

Lemma scan_counts w refs n found :
  (run media_handler (scan uuid_Parse sweptPrefixes refs 0 []) w).1 = Ok (n, found) -> Z.of_nat (length found) <= n.
Proof.
  intros Hrun. destruct (run_scan _ _ _ _ _ _ _ _ Hrun) as (lists & HF & -> & ->). cbn [app]. clear Hrun.
  induction HF as [|p ks ps lists Hp HF IH]; [unfold sumZ; cbn; lia|]. cbn [zip_with concat]. rewrite length_app.
  pose proof (length_filter (fun key => isReferenced uuid_Parse key p refs = false) ks). unfold sumZ in *. cbn. lia.
Qed.

(** What a sweep does: it fails, or only reports, and changes nothing; or its
    gates were open and it deletes the orphans it reports. *)
Inductive swept (dry : bool) (w : mworld B) : result gcerr Result * mworld B -> Prop :=
| swept_failed e w' : same_data w w' -> swept dry w (Err e, w')
| swept_reported r w' :
    same_data w w' -> rs_DryRun r = true -> rs_Deleted r = 0 ->
    (forall k, k ∈ rs_Orphans r <-> orphan (store (mdb w)) (mblobs w) k) -> swept dry w (Ok r, w')
| swept_deleted r w1 w' own :
    gc_lister s = true -> (run media_handler (gates s dry) w).1 = (false, own, None) -> same_data w w1 ->
    rs_DryRun r = false -> breakerTrips s (Z.of_nat (length (rs_Orphans r))) (rs_Scanned r) = false ->
    Z.of_nat (length (rs_Orphans r)) <= rs_Scanned r ->
    (forall k, k ∈ rs_Orphans r <-> orphan (store (mdb w)) (mblobs w) k) ->
    run media_handler (delete_all (rs_Orphans r) 0) w1 = (rs_Deleted r, w') -> swept dry w (Ok r, w').

Lemma gates_forced dry w own forced : (run media_handler (gates s dry) w).1 = (false, own, forced) -> forced = None.
Proof.
  unfold gates. rewrite run_mbind, run_call. cbn [media_handler fst snd]. rewrite run_mbind.
  destruct (run media_handler (if negb dry && gc_migrationActive s then _ else _) w) as [[] w1]; cbn [fst snd]; [done|].
  destruct (negb dry && negb (AllowsDelete (mown w))); [|intros [= _ _ <-]; done].
  rewrite run_mbind. destruct (run media_handler (refreshOwnership s) w1) as [own' w2]. cbn [fst snd]. rewrite run_mret. cbn [fst].
  destruct (AllowsDelete own'); [intros [= _ _ <-]|]; done.
Qed.

Lemma run_Sweep dry w : swept dry w (run media_handler (Sweep uuid_Parse s dry) w).
Proof.
  unfold Sweep. destruct (gc_lister s) eqn:Hlist; cbn [negb]; [|by constructor].
  rewrite run_mbind. pose proof (run_reading (gates s dry) w (gates_reads s dry)) as Hd1.
  destruct (run media_handler (gates s dry) w) as [[[dry' own] forced] w1] eqn:Hg. cbn [fst snd] in *.
  rewrite run_mbind. pose proof (run_reading referenceSet w1 referenceSet_reads) as Hd2.
  destruct (run media_handler referenceSet w1) as [[refs|e] w2] eqn:Hr; cbn [fst snd] in *.
  2:{ constructor. by etrans. }
  pose proof (run_referenceSet w1 refs ltac:(by rewrite Hr)) as Hrefs.
  rewrite run_mbind. pose proof (run_reading _ w2 (scan_reads uuid_Parse sweptPrefixes refs 0 [])) as Hd3.
  destruct (run media_handler (scan uuid_Parse sweptPrefixes refs 0 []) w2) as [[[n found]|e] w3] eqn:Hs; cbn [fst snd] in *.
  2:{ constructor. etrans; [done|]. by etrans. }
  assert (Hsame : same_data w w2) by (by etrans).
  assert (Horph : forall k, k ∈ merge_sort string_le found <-> orphan (store (mdb w)) (mblobs w) k).
  { intros k. rewrite (merge_sort_Permutation string_le found).
    rewrite (scan_orphans w2 refs n found k); [by destruct Hsame as [-> ->]| |by rewrite Hs].
    rewrite Hrefs. by destruct Hd2 as [-> _]. }
  assert (Hw3 : same_data w w3) by (by etrans).
  destruct (negb dry' && breakerTrips s _ n) eqn:Hbr; [rewrite run_mret; by apply swept_reported|].
  destruct dry'; [rewrite run_mret; by apply swept_reported|]. cbn [negb andb] in Hbr.
  rewrite run_mbind. destruct (run media_handler (delete_all _ 0) w3) as [del w4] eqn:Hdel. cbn [fst snd]. rewrite run_mret.
  assert (forced = None) as -> by (eapply gates_forced; by rewrite Hg).
  eapply swept_deleted; [done|by rewrite Hg|exact Hw3|done|exact Hbr| |exact Horph|exact Hdel].
  cbn. rewrite (merge_sort_Permutation string_le found). eapply scan_counts. by rewrite Hs.
Qed.

Lemma swept_canonical r d (b : B) :
  (forall k, k ∈ rs_Orphans r <-> orphan d b k) -> Forall (fun k => canonical k = true) (rs_Orphans r).
Proof. intros Ho. apply Forall_forall. intros k Hk. by apply Ho in Hk as [? _]. Qed.
End Sweeps.

(** ** Properties *)

Section Safety.
Context {B : Type} `{BackendLaws B, !Lister B, !ListerLaws B} (uuid_Parse : string -> option uuid) (s : GcService).
Implicit Types (w : mworld B).


(** The marker as the store holds it. *)
Definition marker_of w : result gcerr (option string) := (run media_handler ReadOwnerMarker w).1.

Lemma run_refreshOwnership w :
  AllowsDelete (mown w) = false -> AllowsDelete (run media_handler (refreshOwnership s) w).1 = true ->
  gc_identity s <> EmptyString /\ marker_of w = Ok (Some (gc_identity s)).
Proof.
  intros Hno. unfold refreshOwnership. case_bool_decide as Hid; [rewrite run_call; cbn; congruence|].
  rewrite run_mbind, run_mbind. unfold marker_of. assert (Hw : (run media_handler ReadOwnerMarker w).2 = w) by reflexivity. rewrite Hw.
  destruct (run media_handler ReadOwnerMarker w).1 as [[m|]|e]; [|intros Hal; exfalso; cbn in Hal; congruence|intros Hal; exfalso; cbn in Hal; congruence].
  case_bool_decide as Hm; [by subst m|done].
Qed.

Lemma gates_open dry w own :
  (run media_handler (gates s dry) w).1 = (false, own, None) ->
  dry = false /\ (gc_migrationActive s = true -> migrating (store (mdb w)) = false) /\
  (AllowsDelete (mown w) = true \/ gc_identity s <> EmptyString /\ marker_of w = Ok (Some (gc_identity s))).
Proof.
  unfold gates. rewrite run_mbind, run_call. cbn [media_handler fst snd]. rewrite run_mbind. destruct dry; cbn [negb andb].
  { rewrite run_mret. cbn. congruence. }
  set (ask := if gc_migrationActive s then _ else _). intros Hrun. split; [done|].
  assert (Hask : mblobs (run media_handler ask w).2 = mblobs w /\ mown (run media_handler ask w).2 = mown w /\
    ((run media_handler ask w).1 = false -> gc_migrationActive s = true -> migrating (store (mdb w)) = false)).
  { unfold ask. destruct (gc_migrationActive s); [|done]. rewrite run_mbind, run_call, run_mret. cbn [media_handler fst snd].
    split_and!; [done|done|]. destruct (on_media q_HasActiveStorageMigration w).1 eqn:Hm; [|done].
    apply on_media_ok in Hm as [[= <-] _]. done. }
  clearbody ask. destruct (run media_handler ask w) as [act w1]. cbn [fst snd] in *. destruct Hask as (Hb & Hown & Hmig).
  destruct act; [done|]. split; [by apply Hmig|]. destruct (AllowsDelete (mown w)) eqn:Hal; [by left|right]. cbn [negb andb] in Hrun.
  rewrite run_mbind in Hrun. pose proof (run_refreshOwnership w1) as Href. rewrite Hown in Href. specialize (Href Hal).
  destruct (run media_handler (refreshOwnership s) w1) as [own' w2]. cbn [fst snd] in *. rewrite run_mret in Hrun. cbn [fst] in Hrun.
  destruct (AllowsDelete own'); [|done]. destruct (Href eq_refl) as [? Hmk]. split; [done|]. rewrite <- Hmk.
  unfold marker_of, ReadOwnerMarker. by rewrite !run_mbind, !run_call, !run_mret; cbn [media_handler fst snd]; rewrite Hb.
Qed.

(** Three rails stand before a deletion: when a sweep changed the store at
    all, deleting was asked for, no storage migration is active where that
    check is wired, the process held the bucket as its own or the marker in the
    bucket carries this install's identity, and the orphans are at most a
    hundred or within the configured share of what was scanned. *)
Theorem sweep_rails (dry : bool) w :
  let out := run media_handler (Sweep uuid_Parse s dry) w in
  mblobs out.2 = mblobs w \/
  dry = false /\ (gc_migrationActive s = true -> migrating (store (mdb w)) = false) /\
  (AllowsDelete (mown w) = true \/ gc_identity s <> EmptyString /\ marker_of w = Ok (Some (gc_identity s))) /\
  exists r, out.1 = Ok r /\ rs_DryRun r = false /\
    let n := Z.of_nat (length (rs_Orphans r)) in
    0 <= rs_Deleted r <= n /\
    (0 <= gc_maxOrphanPercent s <= 100 -> rs_Scanned r * 100 <= max_int64 ->
     n <= breakerFloor \/ n * 100 <= rs_Scanned r * gc_maxOrphanPercent s).
Proof.
  cbv zeta. destruct (run_Sweep uuid_Parse s dry w) as [e w' [H1 H2]|r w' [H1 H2] _ _ _|r w1 w' own _ Hg _ Hdry Hbr Hle Ho Hdel];
    cbn [fst snd]; [by left|by left|right].
  destruct (gates_open dry w own Hg) as (G1 & G2 & G3). split_and!; try done. exists r. split_and!; try done.
  - destruct (run_delete_count (rs_Orphans r) 0 w1) as [Hb _]; [by eapply swept_canonical|]. rewrite Hdel in Hb. cbn in Hb. lia.
  - destruct (run_delete_count (rs_Orphans r) 0 w1) as [Hb _]; [by eapply swept_canonical|]. rewrite Hdel in Hb. cbn in Hb. lia.
  - intros Hpct Hmax. unfold breakerTrips in Hbr. destruct (Z.leb_spec (Z.of_nat (length (rs_Orphans r))) breakerFloor); [by left|right].
    apply Z.ltb_ge in Hbr. rewrite !int64_id in Hbr; [done| |]; unfold in_int64, min_int64, max_int64 in *; nia.
Qed.

(** A sweep that answers reports exactly the orphans: the stored objects
    under the swept prefixes that are not referenced. In a dry run the store
    stays as it is; a deleting run whose deletes all answered has removed those
    objects and no other. *)
Theorem sweep_exact (dry : bool) w r w' :
  run media_handler (Sweep uuid_Parse s dry) w = (Ok r, w') ->
  (forall k, k ∈ rs_Orphans r <-> orphan uuid_Parse (store (mdb w)) (mblobs w) k) /\
  (rs_DryRun r = true -> mblobs w' = mblobs w /\ rs_Deleted r = 0) /\
  (rs_DryRun r = false -> rs_Deleted r = Z.of_nat (length (rs_Orphans r)) ->
   forall k, canonical k = true ->
     contents (mblobs w') k = if decide (k ∈ rs_Orphans r) then None else contents (mblobs w) k).
Proof.
  intros Hrun. pose proof (run_Sweep uuid_Parse s dry w) as Hs. rewrite Hrun in Hs.
  inversion Hs as [|? ? [H1 H2] Hdry Hdel Ho|? w1 ? own _ _ [H1 H2] Hdry _ _ Ho Hdel]; subst.
  - split_and!; [done|done|]. congruence.
  - split_and!; [done|congruence|]. intros _ Hall k Hk.
    pose proof (swept_canonical uuid_Parse r (store (mdb w)) (mblobs w) Ho) as Hc.
    destruct (run_delete_all (rs_Orphans r) 0 w1 Hc) as [_ Hframe].
    destruct (run_delete_count (rs_Orphans r) 0 w1 Hc) as [_ Hgone]. rewrite Hdel in Hframe, Hgone. cbn [fst snd] in *.
    case_decide as Hin; [by apply Hgone; [lia|]|]. rewrite Hframe, H2; done.
Qed.

Lemma run_AdoptBucket (force : bool) w w' :
  run media_handler (AdoptBucket s force) w = (Ok tt, w') ->
  gc_identity s <> EmptyString /\
  (force = true \/ gc_foreignLayoutRefs s = false \/ (q_CountForeignLayoutMediaRefs (store (mdb w))).1 = Ok 0) /\
  mown w <> OwnershipNotApplicable /\ mown w' = OwnershipOwned /\ store (mdb w') = store (mdb w) /\
  contents (mblobs w') OwnerMarkerKey = Some (String.list_byte_of_string (TrimSpace (gc_identity s))) /\
  forall k, canonical k = true -> k <> OwnerMarkerKey -> contents (mblobs w') k = contents (mblobs w) k.
Proof.
  unfold AdoptBucket. rewrite run_mbind, run_call. cbn [media_handler fst snd].
  case_bool_decide as Hna; [done|]. case_bool_decide as Hid; [done|]. rewrite run_mbind.
  set (ask := if negb force && gc_foreignLayoutRefs s then _ else _). intros Hrun.
  assert (Hask : mblobs (run media_handler ask w).2 = mblobs w /\ store (mdb (run media_handler ask w).2) = store (mdb w) /\
    ((run media_handler ask w).1 = false ->
     force = true \/ gc_foreignLayoutRefs s = false \/ (q_CountForeignLayoutMediaRefs (store (mdb w))).1 = Ok 0)).
  { unfold ask. destruct force; [cbn; auto|]. destruct (gc_foreignLayoutRefs s); [|cbn; auto]. cbn [negb andb].
    rewrite run_mbind, run_call, run_mret. cbn [media_handler fst snd]. split_and!; [done| |].
    - by apply (on_media_invariant _ (fun d => d = store (mdb w))).
    - destruct (on_media q_CountForeignLayoutMediaRefs w).1 as [n|] eqn:Hm; [|done].
      apply on_media_ok in Hm as [Hq _]. intros Hn%Z.ltb_ge. right; right. rewrite Hq. f_equal.
      injection Hq as <-. lia. }
  clearbody ask. destruct (run media_handler ask w) as [act w1]. cbn [fst snd] in *. destruct Hask as (Hb & Hd & Hwhy).
  destruct act; [done|]. rewrite run_mbind in Hrun.
  destruct (run media_handler (WriteOwnerMarker (gc_identity s)) w1) as [[[]|e] w2] eqn:Hw; [|done].
  apply run_WriteOwnerMarker in Hw as (_ & Hc & Hdb & Hframe). cbn [fst snd] in Hrun. rewrite run_mbind, run_call, run_mret in Hrun.
  cbn [media_handler fst snd] in Hrun. injection Hrun as <-. cbn. split_and!; try done; [by apply Hwhy|by rewrite Hdb|].
  intros k Hk Hne. by rewrite Hframe, Hb.
Qed.

(** With the marker in the store and no migration, a process either passes or
    learns whose bucket it is. *)
Lemma run_gates_marker (s0 : GcService) w identity :
  contents (mblobs w) OwnerMarkerKey = Some (String.list_byte_of_string identity) ->
  TrimSpace identity = identity -> Z.of_nat (String.length identity) <= 4096 ->
  gc_identity s0 <> EmptyString -> faults (mdb w) = [] -> migrating (store (mdb w)) = false ->
  (run media_handler (gates s0 false) w).1 =
    if AllowsDelete (mown w) then (false, mown w, None)
    else if bool_decide (identity = gc_identity s0) then (false, OwnershipOwned, None)
    else (true, OwnershipConflict, Some ReasonBucketOwnership).
Proof.
  intros Hc Htrim Hlen Hid Hf Hmig. unfold gates. rewrite run_mbind, run_call. cbn [media_handler fst snd negb andb]. rewrite run_mbind.
  set (ask := if gc_migrationActive s0 then _ else _).
  assert (Hask : (run media_handler ask w).1 = false /\ mown (run media_handler ask w).2 = mown w /\
    mblobs (run media_handler ask w).2 = mblobs w).
  { unfold ask. destruct (gc_migrationActive s0); [|done]. rewrite run_mbind, run_call, run_mret. cbn [media_handler fst snd].
    rewrite on_media_fine by done. done. }
  clearbody ask. destruct (run media_handler ask w) as [act w1]. cbn [fst snd] in *. destruct Hask as (-> & Hown & Hb).
  destruct (AllowsDelete (mown w)) eqn:Hal; [done|]. cbn [negb andb]. rewrite run_mbind.
  unfold refreshOwnership. rewrite bool_decide_eq_false_2 by done. rewrite run_mbind.
  rewrite (run_ReadOwnerMarker w1 (String.list_byte_of_string identity)).
  2:{ by rewrite Hb. } 2:{ by rewrite length_list_byte. }
  cbn [fst snd]. rewrite String.string_of_list_byte_of_string, Htrim. by case_bool_decide.
Qed.

(** An adoption reaches every process. [AdoptBucket] succeeds only on an
    object store with a known identity and, unless forced, with no reference to
    media another system laid out; it writes the marker and touches no other
    object. From then on a process with any cached verdict, over a store with
    that marker and no active migration, passes both gates when it has this
    identity; a process of another install that could not delete before is held
    to a dry run and learns of the conflict. *)
Theorem adoption_reaches_every_process (s' : GcService) (force : bool) w w' w2 :
  run media_handler (AdoptBucket s force) w = (Ok tt, w') ->
  TrimSpace (gc_identity s) = gc_identity s -> Z.of_nat (String.length (gc_identity s)) <= 4096 ->
  contents (mblobs w2) OwnerMarkerKey = contents (mblobs w') OwnerMarkerKey ->
  faults (mdb w2) = [] -> migrating (store (mdb w2)) = false ->
  (force = true \/ gc_foreignLayoutRefs s = false \/ (q_CountForeignLayoutMediaRefs (store (mdb w))).1 = Ok 0) /\
  (forall k, canonical k = true -> k <> OwnerMarkerKey -> contents (mblobs w') k = contents (mblobs w) k) /\
  (exists own, (run media_handler (gates s false) w2).1 = (false, own, None) /\ AllowsDelete own = true) /\
  (gc_identity s' <> EmptyString -> gc_identity s' <> gc_identity s -> AllowsDelete (mown w2) = false ->
   (run media_handler (gates s' false) w2).1 = (true, OwnershipConflict, Some ReasonBucketOwnership)).
Proof.
  intros Hrun Htrim Hlen Hsame Hf Hmig. apply run_AdoptBucket in Hrun as (Hid & Hwhy & _ & _ & _ & Hc & Hframe).
  split_and!; [done|done| |].
  - rewrite (run_gates_marker s w2 (gc_identity s)) by (rewrite ?Hsame, ?Hc, ?Htrim; done).
    rewrite (bool_decide_eq_true_2 (gc_identity s = gc_identity s)) by done.
    destruct (AllowsDelete (mown w2)) eqn:Hal; [by exists (mown w2)|by exists OwnershipOwned].
  - intros Hid' Hne Hal. rewrite (run_gates_marker s' w2 (gc_identity s)) by (rewrite ?Hsame, ?Hc, ?Htrim; done).
    by rewrite Hal, bool_decide_eq_false_2 by congruence.
Qed.
End Safety.

(** ** A concrete store *)

Lemma pair_of_fst {X Y} (p : X * Y) x : p.1 = x -> p = (x, p.2).
Proof. intros <-. apply surjective_pairing. Qed.

(** Ids of 36 characters. *)
Definition demo_parse (x : string) : option uuid := if (String.length x =? 36)%nat then Some x else None.

Definition demo_store (objs : list (string * bytes)) : LocalFS :=
  mkLocalFS (mkLocal (list_to_map (map (fun kv => (split_slash kv.1, kv.2)) objs))
    (list_to_set (concat (map (fun kv => ancestors (split_slash kv.1)) objs)))) [].

Definition demo_gc (identity : string) : GcService := mkGc true DefaultMaxOrphanPercent identity true true.

Definition demo_gone : uuid := "00000000-7425-40de-944b-e07fc1f90ae7".

(** The promoted tree, a superseded one, the poster of a deleted video and a
    file another system wrote. *)
Definition demo_objs : list (string * bytes) :=
  [(demo_master demo_video 1, [Byte.x00]); (HLSPrefixForGeneration demo_video 7 +:+ "/720p.m3u8", [Byte.x01]);
   (VideoThumbnailKey demo_gone, [Byte.x02]); ("web-videos/clip.mp4"%string, [Byte.x03])].

Definition demo_gcworld (own : BucketOwnership) : mworld LocalFS :=
  mkMWorld (Faulty (demo_media ∅) []) (demo_store demo_objs) own demo_transcoder 0 [] true None true.

Lemma demo_ids : ids_parse demo_parse (demo_media ∅).
Proof. intros v g Hv. cbn in Hv. apply lookup_singleton_Some in Hv as [<- _]. split; [reflexivity|discriminate]. Qed.


Definition demo_report : result gcerr Result * mworld LocalFS :=
  run media_handler (Sweep demo_parse (demo_gc "i") false) (demo_gcworld OwnershipNotApplicable).

Definition demo_found : Result :=
  mkResult false 4 [HLSPrefixForGeneration demo_video 7 +:+ "/720p.m3u8"; VideoThumbnailKey demo_gone] 2 50 false OwnershipNotApplicable None.

Lemma demo_report_ok :
  run media_handler (Sweep demo_parse (demo_gc "i") false) (demo_gcworld OwnershipNotApplicable) = (Ok demo_found, demo_report.2).
Proof. unfold demo_report. apply pair_of_fst. vm_compute. reflexivity. Qed.

(** The demo sweep changed the store, so its rails held. *)
Lemma sweep_rails_witness :
  exists r, (run media_handler (Sweep demo_parse (demo_gc "i") false) (demo_gcworld OwnershipNotApplicable)).1 = Ok r /\
    rs_DryRun r = false /\ 0 <= rs_Deleted r <= Z.of_nat (length (rs_Orphans r)).
Proof.
  destruct (sweep_rails demo_parse (demo_gc "i") false (demo_gcworld OwnershipNotApplicable))
    as [Hsame|(_ & _ & _ & r & Hr & Hdry & Hdel & _)]; [exfalso|exists r; exact (conj Hr (conj Hdry Hdel))].
  apply (f_equal (fun b => contents b (VideoThumbnailKey demo_gone))) in Hsame. vm_compute in Hsame. discriminate.
Defined.

(** The poster of the deleted video is an orphan; the streamed master stays. *)
Lemma sweep_exact_witness :
  orphan demo_parse (store (mdb (demo_gcworld OwnershipNotApplicable))) (mblobs (demo_gcworld OwnershipNotApplicable))
    (VideoThumbnailKey demo_gone) /\
  contents (mblobs demo_report.2) (demo_master demo_video 1) =
    contents (mblobs (demo_gcworld OwnershipNotApplicable)) (demo_master demo_video 1).
Proof.
  destruct (sweep_exact demo_parse (demo_gc "i") false (demo_gcworld OwnershipNotApplicable) demo_found demo_report.2 demo_report_ok)
    as (Ho & _ & Hdel).
  split; [apply Ho; right; left|].
  assert (Hk : canonical (demo_master demo_video 1) = true) by (vm_compute; reflexivity).
  assert (Hn : demo_master demo_video 1 ∉ rs_Orphans demo_found).
  { apply (bool_decide_eq_false_1 (_ ∈ _)). vm_compute. reflexivity. }
  pose proof (Hdel eq_refl eq_refl _ Hk) as Hm. by rewrite decide_False in Hm.
Defined.

(** An adoption, and another process that had found the bucket unowned. *)
Definition demo_adopted : result gcerr unit * mworld LocalFS :=
  run media_handler (AdoptBucket (demo_gc "mine") true) (demo_gcworld OwnershipUnowned).

Definition demo_process (b : LocalFS) : mworld LocalFS :=
  mkMWorld (Faulty (demo_media ∅) []) b OwnershipUnowned demo_transcoder 0 [] true None true.

Lemma demo_process_blobs b : mblobs (demo_process b) = b.
Proof. reflexivity. Qed.

Lemma demo_adopted_ok :
  run media_handler (AdoptBucket (demo_gc "mine") true) (demo_gcworld OwnershipUnowned) = (Ok tt, demo_adopted.2).
Proof. unfold demo_adopted. apply pair_of_fst. vm_compute. reflexivity. Qed.

Lemma adoption_reaches_every_process_witness :
  (exists own, (run media_handler (gates (demo_gc "mine") false) (demo_process (mblobs demo_adopted.2))).1 = (false, own, None) /\ AllowsDelete own = true) /\
  (run media_handler (gates (demo_gc "theirs") false) (demo_process (mblobs demo_adopted.2))).1 = (true, OwnershipConflict, Some ReasonBucketOwnership).
Proof.
  destruct (adoption_reaches_every_process (demo_gc "mine") (demo_gc "theirs") true (demo_gcworld OwnershipUnowned) demo_adopted.2 (demo_process (mblobs demo_adopted.2))
    demo_adopted_ok) as (_ & _ & Hmine & Htheirs); [reflexivity|vm_compute; discriminate|by rewrite demo_process_blobs|reflexivity|reflexivity|].
  split; [exact Hmine|]. apply Htheirs; [discriminate|discriminate|reflexivity].
Defined.

(** ** Where the collector takes what is needed *)

Definition discard {A} (p : prog mediaE A) : prog mediaE unit := (_ ← p; mret tt).

(** An enqueue, a worker, a second enqueue and a sweep. *)
Definition demo_crew : list (prog mediaE unit) :=
  [discard (EnqueueTarget demo_video "src" "all"); discard (DrainJobs demo_service 1);
   discard (EnqueueTarget demo_video "src" "all"); discard (Sweep demo_parse (demo_gc "i") false)].

(** A sweep can delete the tree a running transcode is about to promote. A
    second enqueue while the job runs inserts nothing but advances the video's
    generation, so the tree being written is neither the target nor promoted;
    the sweep collects it, and the worker then promotes a master that is no
    longer stored. *)
Theorem sweep_collects_running_generation :
  let w := (schedule media_handler (repeat 0 6 ++ repeat 1 8 ++ repeat 2 6 ++ repeat 3 20 ++ repeat 1 20)%nat
              demo_crew (demo_gcworld OwnershipNotApplicable)).2 in
  (spMaster <$> splaylists (store (mdb w)) !! demo_video) = Some (demo_master demo_video 2) /\
  mvideos (store (mdb w)) !! demo_video = Some 3 /\ contents (mblobs w) (demo_master demo_video 2) = None.
Proof. vm_compute. split_and!; reflexivity. Qed.

(** The video has a VP9 alternate from its first run. *)
Definition demo_webm : string := HLSPrefixForGeneration demo_video 1 +:+ "/vp9.webm".

Definition demo_altworld : mworld LocalFS :=
  mkMWorld (Faulty (set_mfiles (fun fs => fs ++ [mkVideoFile demo_video "webm" demo_webm 1 EmptyString]) (demo_media ∅)) [])
    (demo_store [(demo_master demo_video 1, [Byte.x00]); (demo_webm, [Byte.x05])]) OwnershipNotApplicable demo_transcoder 0 [] true None true.

(** A sweep can delete an object a row of video_files names: after a run
    that produced no VP9 alternate, the earlier alternate's row remains while
    its generation is no longer promoted, and the rule for streaming trees does
    not consult the recorded keys. *)
Theorem sweep_deletes_recorded_alternate :
  let w := (run media_handler (discard (EnqueueTarget demo_video "src" "all") ≫= fun _ =>
              discard (DrainJobs demo_service 1) ≫= fun _ => discard (Sweep demo_parse (demo_gc "i") false)) demo_altworld).2 in
  contents (mblobs demo_altworld) demo_webm = Some [Byte.x05] /\
  recorded (store (mdb w)) demo_webm /\ contents (mblobs w) demo_webm = None.
Proof.
  cbv zeta. split; [vm_compute; reflexivity|]. split; [left|vm_compute; reflexivity].
  apply list_elem_of_In. vm_compute. auto.
Qed.
