(* ===== verification/VideoStore.v ===== *)
(** * The tables and collaborators of video publishing

    [videos] with its channel and owner, tags, probe metadata, view counts,
    passwords and rejections, beside the media tables of [MediaStore]; one
    definition per SQL statement (src/internal/store/queries: videos.sql,
    video_files.sql, video_passwords.sql, video_views.sql and others), and the
    signature [videoE] of what src/internal/video calls: its repository, the
    object store, the scanner, the prober, the hooks. *)
From S2P Require Import Prelude GoStrings Queue Storage MediaKeys MediaStore.
Local Open Scope Z_scope.

(** ** Rows *)

(** [videos.state] *)
Inductive vstate := VDraft | VProcessing | VScheduled | VQuarantined | VTranscoding | VPublished | VFailed.

#[global] Instance vstate_eq_dec : EqDecision vstate.
Proof. solve_decision. Defined.

Record Video := mkVideo {
  vID : uuid; vChannel : uuid; vTitle : string; vDescription : string; vPrivacy : string; vState : vstate; vUpdated : time;
  vCategory : option string; vLanguage : option string; vLicense : option string; vPublishAt : option time;
  vSensitive : bool; vFlags : list string; vReason : string; vComments : string; vDownload : bool; vPublishAfter : bool;
  vOriginally : option time; vSupport : option string;
}.

#[global] Instance Video_eq_dec : EqDecision Video.
Proof. solve_decision. Defined.

Definition with_vstate (st : vstate) (t : time) (v : Video) : Video :=
  mkVideo (vID v) (vChannel v) (vTitle v) (vDescription v) (vPrivacy v) st t (vCategory v) (vLanguage v) (vLicense v) (vPublishAt v)
    (vSensitive v) (vFlags v) (vReason v) (vComments v) (vDownload v) (vPublishAfter v) (vOriginally v) (vSupport v).

(** What a channel and an account contribute to the statements. *)
Record Channel := mkChannel { chOwner : uuid; chSupport : option string }.
Record Owner := mkOwner { oRole : string; oBypass : bool }.
Record VideoPassword := mkVideoPassword { pwVideo : uuid; pwHash : string; pwAt : time }.

(** [video_metadata] *)
Record VMeta := mkVMeta { vmDuration : option Z; vmWidth : option Z; vmHeight : option Z }.

Record VTabs := mkTabs {
  vrows : gmap uuid Video;
  vchannels : gmap uuid Channel;
  vowners : gmap uuid Owner;
  vtags : gmap uuid (gset string);
  vmeta : gmap uuid VMeta;
  vviews : gmap uuid Z;
  vviewdays : gmap (uuid * Z) Z;
  vrejected : gmap uuid (string * uuid);
  vpasswords : gmap uuid VideoPassword;
}.

Definition set_vrows f t := mkTabs (f (vrows t)) (vchannels t) (vowners t) (vtags t) (vmeta t) (vviews t) (vviewdays t) (vrejected t) (vpasswords t).
Definition set_vtags f t := mkTabs (vrows t) (vchannels t) (vowners t) (f (vtags t)) (vmeta t) (vviews t) (vviewdays t) (vrejected t) (vpasswords t).
Definition set_vmeta f t := mkTabs (vrows t) (vchannels t) (vowners t) (vtags t) (f (vmeta t)) (vviews t) (vviewdays t) (vrejected t) (vpasswords t).
Definition set_vviews f t := mkTabs (vrows t) (vchannels t) (vowners t) (vtags t) (vmeta t) (f (vviews t)) (vviewdays t) (vrejected t) (vpasswords t).
Definition set_vviewdays f t := mkTabs (vrows t) (vchannels t) (vowners t) (vtags t) (vmeta t) (vviews t) (f (vviewdays t)) (vrejected t) (vpasswords t).
Definition set_vrejected f t := mkTabs (vrows t) (vchannels t) (vowners t) (vtags t) (vmeta t) (vviews t) (vviewdays t) (f (vrejected t)) (vpasswords t).
Definition set_vpasswords f t := mkTabs (vrows t) (vchannels t) (vowners t) (vtags t) (vmeta t) (vviews t) (vviewdays t) (vrejected t) (f (vpasswords t)).

(** The database: the media tables and these. *)
Record VideoDB := mkVideoDB { vmedia : MediaDB; vtabs : VTabs }.

Definition on_tabs (f : VTabs -> VTabs) (d : VideoDB) : VideoDB := mkVideoDB (vmedia d) (f (vtabs d)).
Definition vnow (d : VideoDB) : time := mnow (vmedia d).

Abbreviation vstmt A := (VideoDB -> result dberr A * VideoDB) (only parsing).

(** ** videos.sql *)

(** The checks of the table. *)
Definition known_privacy (p : string) : bool :=
  bool_decide (p ∈ ["public"; "unlisted"; "private"; "password"; "internal"]%string).
Definition known_comments (p : string) : bool := bool_decide (p ∈ ["enabled"; "disabled"; "requires_approval"]%string).
Definition support_fits (s : option string) : bool :=
  match s with Some s => (String.length s <=? 1000)%nat | None => true end.
Definition SensitiveFlags : list string := ["violent"; "shocking"; "sex"]%string.
Definition known_flags (fs : list string) : bool := forallb (fun f => bool_decide (f ∈ SensitiveFlags)) fs.
Definition video_checks (v : Video) : bool :=
  known_privacy (vPrivacy v) && known_comments (vComments v) && support_fits (vSupport v) && known_flags (vFlags v).

(** [CreateVideoParams]: the new row, but for its id, state and time. *)
Definition q_CreateVideo (row : Video) : vstmt Video := fun d =>
  let id := next_job (vmedia d) in
  let v := mkVideo id (vChannel row) (vTitle row) (vDescription row) (vPrivacy row) VDraft (vnow d) (vCategory row) (vLanguage row)
    (vLicense row) (vPublishAt row) (vSensitive row) (vFlags row) (vReason row) (vComments row) (vDownload row) (vPublishAfter row)
    None (vSupport row) in
  let drawn := mkVideoDB (mdraw (vmedia d)) (vtabs d) in
  if bool_decide (vchannels (vtabs d) !! vChannel row = None) || negb (video_checks v) then (Err ErrStore, drawn)
  else if bool_decide (is_Some (vrows (vtabs d) !! id)) then (Err ErrUnique, drawn)
  else (Ok v, mkVideoDB (set_mvideos <[id := 0]> (mdraw (vmedia d))) (set_vrows <[id := v]> (vtabs d))).

(** The owner of a video, through its channel. *)
Definition owner_of (d : VideoDB) (v : Video) : option uuid := chOwner <$> vchannels (vtabs d) !! vChannel v.

(** [GetVideoByIDRow]: the row with its owner's id (the joins need the channel
    and the account). *)
Definition q_GetVideoByID (id : uuid) : vstmt (Video * uuid) := fun d =>
  (match vrows (vtabs d) !! id with
   | Some v =>
       match owner_of d v with
       | Some o => if bool_decide (is_Some (vowners (vtabs d) !! o)) then Ok (v, o) else Err ErrNoRows
       | None => Err ErrNoRows
       end
   | None => Err ErrNoRows
   end, d).

Definition q_GetChannelByID (id : uuid) : vstmt Channel := fun d =>
  (match vchannels (vtabs d) !! id with Some c => Ok c | None => Err ErrNoRows end, d).

(** [UpdateVideoParams]: [None] keeps the column. *)
Record UpdateParams := mkUpdate {
  upTitle : option string; upDescription : option string; upPrivacy : option string; upCategory : option string;
  upLanguage : option string; upLicense : option string; upPublishAt : option time; upSensitive : option bool;
  upFlags : option (list string); upReason : option string; upSupport : option string; upComments : option string;
  upDownload : option bool; upChannel : option uuid; upOriginally : option time; upPublishAfter : option bool;
}.

Definition COALESCE {A} (o : option A) (a : A) : A := match o with Some x => x | None => a end.

Definition q_UpdateVideo (id : uuid) (p : UpdateParams) : vstmt Video := fun d =>
  match vrows (vtabs d) !! id with
  | None => (Err ErrNoRows, d)
  | Some v =>
      let v' := mkVideo (vID v) (COALESCE (upChannel p) (vChannel v)) (COALESCE (upTitle p) (vTitle v))
        (COALESCE (upDescription p) (vDescription v)) (COALESCE (upPrivacy p) (vPrivacy v)) (vState v) (vnow d)
        (match upCategory p with Some c => Some c | None => vCategory v end)
        (match upLanguage p with Some c => Some c | None => vLanguage v end)
        (match upLicense p with Some c => Some c | None => vLicense v end)
        (match upPublishAt p with Some t => Some t | None => vPublishAt v end)
        (COALESCE (upSensitive p) (vSensitive v)) (COALESCE (upFlags p) (vFlags v)) (COALESCE (upReason p) (vReason v))
        (COALESCE (upComments p) (vComments v)) (COALESCE (upDownload p) (vDownload v)) (COALESCE (upPublishAfter p) (vPublishAfter v))
        (match upOriginally p with Some t => Some t | None => vOriginally v end)
        (match upSupport p with Some s => if bool_decide (s = EmptyString) then None else Some s | None => vSupport v end) in
      if bool_decide (vchannels (vtabs d) !! vChannel v' = None) || negb (video_checks v') then (Err ErrStore, d)
      else (Ok v', on_tabs (set_vrows <[id := v']>) d)
  end.

Definition q_SetVideoState (id : uuid) (st : vstate) : vstmt Video := fun d =>
  match vrows (vtabs d) !! id with
  | None => (Err ErrNoRows, d)
  | Some v => (Ok (with_vstate st (vnow d) v), on_tabs (set_vrows <[id := with_vstate st (vnow d) v]>) d)
  end.

(** The row and everything that refers to it. *)
Definition q_DeleteVideo (id : uuid) : vstmt unit := fun d =>
  let m := vmedia d in
  (Ok tt, mkVideoDB
    (mkMedia (delete id (mvideos m)) (filter (fun f => vfVideo f <> id) (mfiles m)) (filter (fun c => c.1 <> id) (mcaptions m))
       (delete id (splaylists m)) (filter (fun kv => kv.1.1 <> id) (renditions m)) (filter (fun kv => tjVideo kv.2 <> id) (tjobs m))
       (covers m) (migrating m) (mnow m) (mgen m) (mdrawn m))
    (mkTabs (delete id (vrows (vtabs d))) (vchannels (vtabs d)) (vowners (vtabs d)) (delete id (vtags (vtabs d)))
       (delete id (vmeta (vtabs d))) (delete id (vviews (vtabs d))) (filter (fun kv => kv.1.1 <> id) (vviewdays (vtabs d)))
       (delete id (vrejected (vtabs d))) (filter (fun kv => pwVideo kv.2 <> id) (vpasswords (vtabs d))))).

Definition q_RecordVideoRejection (id : uuid) (note : string) (by_ : uuid) : vstmt unit := fun d =>
  if bool_decide (vrows (vtabs d) !! id = None) then (Err ErrStore, d)
  else (Ok tt, on_tabs (set_vrejected <[id := (note, by_)]>) d).

Definition q_UploadRequiresQuarantine (id : uuid) : vstmt bool := fun d =>
  (match vrows (vtabs d) !! id with
   | Some v =>
       match owner_of d v with
       | Some o => match vowners (vtabs d) !! o with
                   | Some u => Ok (bool_decide (oRole u = "user"%string) && negb (oBypass u))
                   | None => Err ErrNoRows
                   end
       | None => Err ErrNoRows
       end
   | None => Err ErrNoRows
   end, d).

(** ORDER BY a time, then the id. *)
Definition by_time (x y : time * uuid) : Prop := x.1 < y.1 \/ x.1 = y.1 /\ String.leb x.2 y.2 = true.

#[global] Instance by_time_dec : RelDecision by_time.
Proof. intros x y. unfold by_time. apply _. Defined.

(** The rows [pick] selects, in the order of its times. *)
Definition rows_by (pick : Video -> option time) (d : VideoDB) : list (time * uuid) :=
  merge_sort by_time (omap (fun kv => (fun t => (t, kv.1)) <$> pick kv.2) (map_to_list (vrows (vtabs d)))).

Definition due (d : VideoDB) (v : Video) : option time :=
  match vPublishAt v with
  | Some t => if bool_decide (vState v = VScheduled) && (t <=? vnow d) then Some t else None
  | None => None
  end.

(** Joined with the stored originals. *)
Definition q_ListDueScheduledVideos (limit : Z) : vstmt (list (uuid * string)) := fun d =>
  (Ok (take (Z.to_nat limit) (flat_map (fun tv =>
     map (fun f => (tv.2, vfKey f)) (filter (fun f => vfVideo f = tv.2 /\ vfKind f = "original"%string) (mfiles (vmedia d))))
     (rows_by (due d) d))), d).

Definition stuck (cutoff : time) (v : Video) : option time :=
  if bool_decide (vState v = VTranscoding) && (vUpdated v <? cutoff) then Some (vUpdated v) else None.

Definition q_ListStuckTranscodingVideos (cutoff : time) (limit : Z) : vstmt (list uuid) := fun d =>
  (Ok (take (Z.to_nat limit) (map snd (rows_by (stuck cutoff) d))), d).

(** The compare-and-set: how many rows it changed. *)
Definition q_PublishTranscodingVideo (id : uuid) : vstmt Z := fun d =>
  match vrows (vtabs d) !! id with
  | Some v => if bool_decide (vState v = VTranscoding)
              then (Ok 1, on_tabs (set_vrows <[id := with_vstate VPublished (vnow d) v]>) d)
              else (Ok 0, d)
  | None => (Ok 0, d)
  end.

(** ** Files, tags, metadata, views *)

(** The newest file of the kind. *)
Definition q_GetVideoFileByKind (id : uuid) (kind : string) : vstmt VideoFile := fun d =>
  (match last (filter (fun f => vfVideo f = id /\ vfKind f = kind) (mfiles (vmedia d))) with
   | Some f => Ok f
   | None => Err ErrNoRows
   end, d).

(** One statement: the video still has this owner, its originals go, the new
    one is inserted. *)
Definition q_SwapVideoOriginalIfOwner (id owner : uuid) (f : VideoFile) : vstmt VideoFile := fun d =>
  match vrows (vtabs d) !! id with
  | Some v =>
      if bool_decide (owner_of d v = Some owner) then
        (Ok f, mkVideoDB (set_mfiles (fun fs => filter (fun x => ~ (vfVideo x = id /\ vfKind x = "original"%string)) fs ++ [f]) (vmedia d))
                 (set_vrows <[id := with_vstate (vState v) (vnow d) v]> (vtabs d)))
      else (Err ErrNoRows, d)
  | None => (Err ErrNoRows, d)
  end.

Definition q_DeleteVideoTags (id : uuid) : vstmt unit := fun d => (Ok tt, on_tabs (set_vtags (delete id)) d).

Definition tag_ok (t : string) : bool :=
  bool_decide (ToLower t = t) && (1 <=? String.length t)%nat && (String.length t <=? 50)%nat.

Definition q_InsertVideoTags (id : uuid) (tags : list string) : vstmt unit := fun d =>
  if bool_decide (vrows (vtabs d) !! id = None) || negb (forallb tag_ok tags) then (Err ErrStore, d)
  else (Ok tt, on_tabs (set_vtags (fun m => <[id := COALESCE (m !! id) ∅ ∪ list_to_set tags]> m)) d).

Definition q_UpsertVideoMetadata (id : uuid) (m : VMeta) : vstmt unit := fun d =>
  if bool_decide (vrows (vtabs d) !! id = None) then (Err ErrStore, d)
  else (Ok tt, on_tabs (set_vmeta <[id := m]>) d).

Definition q_IncrementVideoViews (id : uuid) : vstmt Z := fun d =>
  if bool_decide (vrows (vtabs d) !! id = None) then (Err ErrStore, d)
  else let n := COALESCE (vviews (vtabs d) !! id) 0 + 1 in (Ok n, on_tabs (set_vviews <[id := n]>) d).

(** The day is that of now, in UTC. *)
Definition day_of (t : time) : Z := t / (24 * Hour).

Definition q_IncrementVideoViewDay (id : uuid) : vstmt unit := fun d =>
  if bool_decide (vrows (vtabs d) !! id = None) then (Err ErrStore, d)
  else let k := (id, day_of (vnow d)) in (Ok tt, on_tabs (set_vviewdays (fun m => <[k := COALESCE (m !! k) 0 + 1]> m)) d).

(** ** video_passwords.sql *)

Definition passwords_of (id : uuid) (d : VideoDB) : list (uuid * VideoPassword) :=
  filter (fun kv => pwVideo kv.2 = id) (map_to_list (vpasswords (vtabs d))).

Definition q_CountVideoPasswords (id : uuid) : vstmt Z := fun d => (Ok (Z.of_nat (length (passwords_of id d))), d).

(** Oldest first. *)
Definition q_ListVideoPasswords (id : uuid) : vstmt (list (uuid * time)) := fun d =>
  (Ok (map (fun x => (x.2, x.1)) (merge_sort by_time (map (fun kv => (pwAt kv.2, kv.1)) (passwords_of id d)))), d).

Definition q_ListVideoPasswordHashes (id : uuid) : vstmt (list string) := fun d => (Ok (map (fun kv => pwHash kv.2) (passwords_of id d)), d).

Definition insert_password (id : uuid) (hash : string) (d : VideoDB) : VideoDB :=
  mkVideoDB (mdraw (vmedia d)) (set_vpasswords <[next_job (vmedia d) := mkVideoPassword id hash (vnow d)]> (vtabs d)).

Definition q_InsertVideoPassword (id : uuid) (hash : string) : vstmt (uuid * time) := fun d =>
  if bool_decide (vrows (vtabs d) !! id = None) then (Err ErrStore, d)
  else if bool_decide (is_Some (vpasswords (vtabs d) !! next_job (vmedia d))) then (Err ErrUnique, mkVideoDB (mdraw (vmedia d)) (vtabs d))
  else (Ok (next_job (vmedia d), vnow d), insert_password id hash d).

(** All of them or none. *)
Fixpoint insert_passwords (id : uuid) (hashes : list string) (d : VideoDB) : option VideoDB :=
  match hashes with
  | [] => Some d
  | hash :: rest =>
      if bool_decide (is_Some (vpasswords (vtabs d) !! next_job (vmedia d))) then None
      else insert_passwords id rest (insert_password id hash d)
  end.

Definition q_InsertVideoPasswords (id : uuid) (hashes : list string) : vstmt unit := fun d =>
  if bool_decide (vrows (vtabs d) !! id = None) && negb (bool_decide (hashes = [])) then (Err ErrStore, d)
  else match insert_passwords id hashes d with Some d' => (Ok tt, d') | None => (Err ErrUnique, d) end.

Definition q_VideoPasswordExists (pid id : uuid) : vstmt bool := fun d =>
  (Ok (bool_decide (pwVideo <$> vpasswords (vtabs d) !! pid = Some id)), d).

Definition q_DeleteVideoPassword (pid id : uuid) : vstmt Z := fun d =>
  if bool_decide (pwVideo <$> vpasswords (vtabs d) !! pid = Some id)
  then (Ok 1, on_tabs (set_vpasswords (delete pid)) d) else (Ok 0, d).

Definition q_DeleteVideoPasswords (id : uuid) : vstmt unit := fun d =>
  (Ok tt, on_tabs (set_vpasswords (filter (fun kv => pwVideo kv.2 <> id))) d).

(** ** Collaborators and the world *)

(** [media.Metadata], as far as publishing reads it. *)
Record Metadata := mkMetadata { mdDuration : Z; mdWidth : Z; mdHeight : Z; mdAudioOnly : bool }.

(** What the [n]-th call of a collaborator answers: the scanner (clean or not),
    the prober, the poster and storyboard generators, the view deduper, the
    password hasher; [None] for an error. *)
Record Collaborators := {
  co_Scan : nat -> string -> option bool;
  co_Probe : nat -> string -> option Metadata;
  co_Thumbnail : nat -> string -> Z -> option bytes;
  co_Storyboard : nat -> string -> Z -> option (bytes * bytes);
  co_First : nat -> string -> option bool;
  co_Hash : nat -> string -> option string;
  co_Check : string -> string -> bool;
}.

(** [PublishDefaults] *)
Record PublishDefaults := mkDefaults { pdPrivacy : string; pdLicense : string; pdComments : string; pdDownload : bool }.

(** Instance settings read at run time. *)
Record VSettings := mkSettings { seQuarantine : bool; seStoryboards : bool; seAdditionalExts : bool; seDefaults : PublishDefaults }.

(** Hooks that ran. *)
Inductive vhook :=
| HPublish (v : uuid) | HQuarantine (v : uuid) | HUpdate (v : uuid) (federated : bool) | HMove (v from : uuid) (federated : bool)
| HDelete (v channel : uuid) (public : bool) | HMediaReplaced (v : uuid) (kind : string).

#[global] Instance vhook_eq_dec : EqDecision vhook.
Proof. solve_decision. Defined.

(** [observability.ActionUploadMalware*] *)
Inductive vaudit := MalwareRejected (v : uuid) (outcome : string) | MalwareSkipped (v : uuid).

Record vworld (B : Type) := mkVWorld {
  vmw : mworld B;
  vt : VTabs;
  vco : Collaborators;
  vcalls : nat;
  vset : VSettings;
  vhooks : list vhook;
  vbilled : list (uuid * Z);
  vaudited : list vaudit;
}.
Arguments mkVWorld {B}.
Arguments vmw {B}.
Arguments vt {B}.
Arguments vco {B}.
Arguments vcalls {B}.
Arguments vset {B}.
Arguments vhooks {B}.
Arguments vbilled {B}.
Arguments vaudited {B}.

(** [video.Repository] with the media operations, the object store, the clock,
    and the seams. *)
Inductive videoE : Type -> Type :=
| VMedia {X} (e : mediaE X) : videoE X
| CreateVideo (row : Video) : videoE (result dberr Video)
| GetVideoByID (id : uuid) : videoE (result dberr (Video * uuid))
| GetChannelByID (id : uuid) : videoE (result dberr Channel)
| UpdateVideo (id : uuid) (p : UpdateParams) : videoE (result dberr Video)
| SetVideoState (id : uuid) (st : vstate) : videoE (result dberr Video)
| DeleteVideo (id : uuid) : videoE (result dberr unit)
| RecordVideoRejection (id : uuid) (note : string) (by_ : uuid) : videoE (result dberr unit)
| UploadRequiresQuarantine (id : uuid) : videoE (result dberr bool)
| ListDueScheduledVideos (limit : Z) : videoE (result dberr (list (uuid * string)))
| ListStuckTranscodingVideos (cutoff : time) (limit : Z) : videoE (result dberr (list uuid))
| PublishTranscodingVideo (id : uuid) : videoE (result dberr Z)
| GetVideoFileByKind (id : uuid) (kind : string) : videoE (result dberr VideoFile)
| SwapVideoOriginalIfOwner (id owner : uuid) (f : VideoFile) : videoE (result dberr VideoFile)
| DeleteVideoTags (id : uuid) : videoE (result dberr unit)
| InsertVideoTags (id : uuid) (tags : list string) : videoE (result dberr unit)
| UpsertVideoMetadata (id : uuid) (m : VMeta) : videoE (result dberr unit)
| IncrementVideoViews (id : uuid) : videoE (result dberr Z)
| IncrementVideoViewDay (id : uuid) : videoE (result dberr unit)
| CountVideoPasswords (id : uuid) : videoE (result dberr Z)
| ListVideoPasswords (id : uuid) : videoE (result dberr (list (uuid * time)))
| ListVideoPasswordHashes (id : uuid) : videoE (result dberr (list string))
| InsertVideoPassword (id : uuid) (hash : string) : videoE (result dberr (uuid * time))
| InsertVideoPasswords (id : uuid) (hashes : list string) : videoE (result dberr unit)
| VideoPasswordExists (pid id : uuid) : videoE (result dberr bool)
| DeleteVideoPassword (pid id : uuid) : videoE (result dberr Z)
| DeleteVideoPasswords (id : uuid) : videoE (result dberr unit)
| Scan (key : string) : videoE (option bool)
| ProbeFile (key : string) : videoE (option Metadata)
| Thumbnail (key : string) (hint : Z) : videoE (option bytes)
| Storyboard (key : string) (hint : Z) : videoE (option (bytes * bytes))
| First (key : string) : videoE (option bool)
| HashPassword (plain : string) : videoE (option string)
| Settings : videoE VSettings
| FireHook (h : vhook) : videoE unit
| Bill (owner : uuid) (size : Z) : videoE unit
| Audit (a : vaudit) : videoE unit.

Section VHandler.
Context {B : Type} `{Backend B, !Lister B}.
Implicit Types (w : vworld B).

(** The whole database, with its schedule of faults. *)
Definition vdb w : faulty VideoDB := Faulty (mkVideoDB (store (mdb (vmw w))) (vt w)) (faults (mdb (vmw w))).

Definition with_vdb (f : faulty VideoDB) w : vworld B :=
  let m := vmw w in
  mkVWorld (mkMWorld (Faulty (vmedia (store f)) (faults f)) (mblobs m) (mown m) (mtc m) (mcalls m) (mhooks m) (menabled m) (mscratch m) (mwritable m))
    (vtabs (store f)) (vco w) (vcalls w) (vset w) (vhooks w) (vbilled w) (vaudited w).

Definition on_video {A} (q : VideoDB -> result dberr A * VideoDB) w : result dberr A * vworld B :=
  ((exec q (vdb w)).1, with_vdb (exec q (vdb w)).2 w).

(** One call of a collaborator. *)
Definition asked {A} (f : nat -> A) w : A * vworld B :=
  (f (vcalls w), mkVWorld (vmw w) (vt w) (vco w) (S (vcalls w)) (vset w) (vhooks w) (vbilled w) (vaudited w)).

Definition on_mworld {A} (r : A * mworld B) w : A * vworld B :=
  (r.1, mkVWorld r.2 (vt w) (vco w) (vcalls w) (vset w) (vhooks w) (vbilled w) (vaudited w)).

Definition video_handler : handler videoE (vworld B) := fun X e w =>
  match e in videoE X return X * vworld B with
  | VMedia e => on_mworld (media_handler _ e (vmw w)) w
  | CreateVideo row => on_video (q_CreateVideo row) w
  | GetVideoByID id => on_video (q_GetVideoByID id) w
  | GetChannelByID id => on_video (q_GetChannelByID id) w
  | UpdateVideo id p => on_video (q_UpdateVideo id p) w
  | SetVideoState id st => on_video (q_SetVideoState id st) w
  | DeleteVideo id => on_video (q_DeleteVideo id) w
  | RecordVideoRejection id note by_ => on_video (q_RecordVideoRejection id note by_) w
  | UploadRequiresQuarantine id => on_video (q_UploadRequiresQuarantine id) w
  | ListDueScheduledVideos limit => on_video (q_ListDueScheduledVideos limit) w
  | ListStuckTranscodingVideos cutoff limit => on_video (q_ListStuckTranscodingVideos cutoff limit) w
  | PublishTranscodingVideo id => on_video (q_PublishTranscodingVideo id) w
  | GetVideoFileByKind id kind => on_video (q_GetVideoFileByKind id kind) w
  | SwapVideoOriginalIfOwner id owner f => on_video (q_SwapVideoOriginalIfOwner id owner f) w
  | DeleteVideoTags id => on_video (q_DeleteVideoTags id) w
  | InsertVideoTags id tags => on_video (q_InsertVideoTags id tags) w
  | UpsertVideoMetadata id m => on_video (q_UpsertVideoMetadata id m) w
  | IncrementVideoViews id => on_video (q_IncrementVideoViews id) w
  | IncrementVideoViewDay id => on_video (q_IncrementVideoViewDay id) w
  | CountVideoPasswords id => on_video (q_CountVideoPasswords id) w
  | ListVideoPasswords id => on_video (q_ListVideoPasswords id) w
  | ListVideoPasswordHashes id => on_video (q_ListVideoPasswordHashes id) w
  | InsertVideoPassword id hash => on_video (q_InsertVideoPassword id hash) w
  | InsertVideoPasswords id hashes => on_video (q_InsertVideoPasswords id hashes) w
  | VideoPasswordExists pid id => on_video (q_VideoPasswordExists pid id) w
  | DeleteVideoPassword pid id => on_video (q_DeleteVideoPassword pid id) w
  | DeleteVideoPasswords id => on_video (q_DeleteVideoPasswords id) w
  | Scan key => asked (fun n => co_Scan (vco w) n key) w
  | ProbeFile key => asked (fun n => co_Probe (vco w) n key) w
  | Thumbnail key hint => asked (fun n => co_Thumbnail (vco w) n key hint) w
  | Storyboard key hint => asked (fun n => co_Storyboard (vco w) n key hint) w
  | First key => asked (fun n => co_First (vco w) n key) w
  | HashPassword plain => asked (fun n => co_Hash (vco w) n plain) w
  | Settings => (vset w, w)
  | FireHook h => (tt, mkVWorld (vmw w) (vt w) (vco w) (vcalls w) (vset w) (h :: vhooks w) (vbilled w) (vaudited w))
  | Bill owner size => (tt, mkVWorld (vmw w) (vt w) (vco w) (vcalls w) (vset w) (vhooks w) ((owner, size) :: vbilled w) (vaudited w))
  | Audit a => (tt, mkVWorld (vmw w) (vt w) (vco w) (vcalls w) (vset w) (vhooks w) (vbilled w) (a :: vaudited w))
  end.

(** Time passes and settings change. *)
Definition vclock w w' : Prop :=
  exists m se, mclock (vmw w) m /\ w' = mkVWorld m (vt w) (vco w) (vcalls w) se (vhooks w) (vbilled w) (vaudited w).

(** A statement that answers is the statement on the database. *)
Lemma on_video_ok {A} (q : VideoDB -> result dberr A * VideoDB) w a :
  (on_video q w).1 = Ok a ->
  (q (store (vdb w))).1 = Ok a /\ store (vdb (on_video q w).2) = (q (store (vdb w))).2.
Proof. intros Ha. apply exec_ok in Ha as [H1 H2]. split; [done|]. cbn. rewrite H2. by destruct (q _).2. Qed.

(** A statement took effect, or nothing happened. *)
Lemma on_video_store {A} (q : VideoDB -> result dberr A * VideoDB) w :
  store (vdb (on_video q w).2) = (q (store (vdb w))).2 \/ store (vdb (on_video q w).2) = store (vdb w).
Proof.
  unfold on_video, exec. destruct (vdb w) as [d fs]. destruct fs as [|[] fs]; cbn; [left|left|right|left];
    try (by destruct (q d).2); by destruct d.
Qed.

Lemma on_video_fine {A} (q : VideoDB -> result dberr A * VideoDB) w :
  faults (mdb (vmw w)) = [] ->
  on_video q w = ((q (store (vdb w))).1, with_vdb (Faulty (q (store (vdb w))).2 []) w).
Proof. intros Hf. unfold on_video, vdb. rewrite Hf. done. Qed.

Lemma on_video_invariant {A} (q : VideoDB -> result dberr A * VideoDB) (I : VideoDB -> Prop) w :
  (forall d, I d -> I (q d).2) -> I (store (vdb w)) -> I (store (vdb (on_video q w).2)).
Proof.
  intros Hq Hi. pose proof (exec_invariant q I Hq (vdb w) Hi) as He. unfold on_video. cbn.
  by destruct (store (exec q (vdb w)).2).
Qed.

Lemma on_video_rel {A} (q : VideoDB -> result dberr A * VideoDB) (R : VideoDB -> VideoDB -> Prop) `{!PreOrder R} w :
  (forall d, R d (q d).2) -> R (store (vdb w)) (store (vdb (on_video q w).2)).
Proof. intros Hq. pose proof (exec_rel q R Hq (vdb w)) as He. unfold on_video. cbn in *. by destruct (store (exec q (vdb w)).2). Qed.
End VHandler.
