(* ===== verification/Video.v ===== *)
(** * Video publishing (src/internal/video/service.go, passwords.go, privacy.go,
    sensitive.go, scanpolicy.go)

    Drafts, uploads, the scan and probe of a finished upload with the holds it
    may enter (quarantine, schedule, publish-after-transcode) and their releases,
    replacement of the source, edits, deletion, views and password protection.
    [wire] connects the transcode queue's hooks as cmd/api/main.go does. The
    digest of a stored file is a parameter; feeds and searches, captions and
    chapters are not modelled. *)
From S2P Require Import Prelude Interleave GoStrings Queue Storage MediaKeys MediaStore Playlist Transcode VideoStore.
Local Open Scope Z_scope.

(** ** Configuration and errors *)

(** [ScanMode] *)
Inductive ScanMode := ScanModeFailClosed | ScanModeFailOpen | ScanModeQuarantine | ScanModeDisabled.

#[global] Instance ScanMode_eq_dec : EqDecision ScanMode.
Proof. solve_decision. Defined.

(** [Service]: which collaborators and gates are wired. *)
Record VideoService := mkVideoService {
  vs_blobs : bool; vs_scanner : bool; vs_scanMode : ScanMode; vs_prober : bool; vs_thumbnailer : bool; vs_storyboarder : bool;
  vs_storyboardGate : bool; vs_additionalExtGate : bool; vs_deduper : bool; vs_quarantineGate : bool; vs_onTranscode : bool;
  vs_transcodeWillRun : bool; vs_hasLiveJob : bool; vs_usageRecorder : bool; vs_publishDefaults : bool; vs_auditor : bool;
  vs_onMediaReplaced : bool;
}.

Inductive verr :=
| VErrNotFound | VErrForbidden | VErrStorageUnavailable | VErrUnsupportedMedia | VErrPublished | VErrMoveRefused
| VErrNotQuarantined | VErrPasswordRequired | VErrLastPassword | VErrPasswordNotFound | VErrReplaceConflict
| VErrReplaceRejected (reason : string) | VErrPasswordValidation | VErrHash | VErrDB (e : dberr) | VErrStorage (e : ioerr)
| VErrStoryboarderUnavailable | VErrStoryboard.

#[global] Instance verr_eq_dec : EqDecision verr.
Proof. solve_decision. Defined.

Definition viewDedupeWindow : duration := Hour.
Definition MinVideoPasswordLen : nat := 6.
Definition MaxVideoPasswordLen : nat := 100.
Definition MaxVideoPasswords : nat := 20.
Definition PrivacyPassword : string := "password".
Definition PrivacyInternal : string := "internal".
Definition SafetyScanRejectedMessage : string := "This file was rejected by the instance's safety scan and was not stored.".

(** ** Pure parts *)

(** [PrivacyAdmits] *)
Definition PrivacyAdmits (privacy : string) (authed isOwner : bool) : bool :=
  if bool_decide (privacy = "public"%string) || bool_decide (privacy = "unlisted"%string) || bool_decide (privacy = PrivacyPassword) then true
  else if bool_decide (privacy = PrivacyInternal) then authed
  else authed && isOwner.

(** [NormalizeTags] *)
Fixpoint normalize_from (seen : list string) (tags : list string) : list string :=
  match tags with
  | [] => []
  | t :: rest =>
      let t := ToLower (TrimSpace t) in
      if bool_decide (t = EmptyString) || bool_decide (t ∈ seen) then normalize_from seen rest
      else t :: normalize_from (t :: seen) rest
  end.
Definition NormalizeTags (tags : list string) : list string := normalize_from [] tags.

(** [NormalizeSensitiveFlags] *)
Definition NormalizeSensitiveFlags (flags : list string) : list string := filter (fun f => f ∈ flags) SensitiveFlags.

(** [sensitiveWithFlags] and [sensitiveFlagsPatch] *)
Definition sensitiveWithFlags (sens : option bool) (flags : option (list string)) : option bool :=
  match flags with
  | Some fs => if bool_decide (NormalizeSensitiveFlags fs = []) then sens else Some true
  | None => sens
  end.
Definition sensitiveFlagsPatch (sens : option bool) (flags : option (list string)) : option (list string) :=
  match flags, sens with
  | Some fs, _ => Some (NormalizeSensitiveFlags fs)
  | None, Some false => Some []
  | None, _ => None
  end.

(** [sensitivePolicyRank] and [IsSensitivePolicy] *)
Definition sensitivePolicyRank (p : string) : option Z :=
  if bool_decide (p = "display"%string) then Some 0 else if bool_decide (p = "blur"%string) then Some 1
  else if bool_decide (p = "warn"%string) then Some 2 else if bool_decide (p = "hide"%string) then Some 3 else None.

(** The rank the map answers: 0 for an unknown policy. *)
Definition rank_of (p : string) : Z := COALESCE (sensitivePolicyRank p) 0.

(** The policies of a video's flags, most restrictive first. *)
Definition flag_policy (base : string) (overrides : gmap string string) (f : string) : string :=
  match overrides !! f with
  | Some o => if bool_decide (is_Some (sensitivePolicyRank o)) then o else base
  | None => base
  end.

(** [ResolveSensitivePolicy] *)
Definition ResolveSensitivePolicy (base : string) (overrides : gmap string string) (flags : list string) (isSensitive : bool) : string :=
  if negb isSensitive then "display"%string
  else match merge_sort (by_key (fun p => - rank_of p)) (map (flag_policy base overrides) flags) with
       | p :: _ => p
       | [] => base
       end.

(** The accepted containers. *)
Definition baseVideoExts : list string :=
  [".mp4"; ".webm"; ".ogv"; ".ogg"; ".mp3"; ".m4a"; ".m4b"; ".aac"; ".flac"; ".wav"; ".opus"]%string.
Definition additionalVideoExts : list string :=
  [".m4v"; ".mov"; ".mkv"; ".avi"; ".mpg"; ".mpeg"; ".ts"; ".flv"; ".wmv"; ".3gp"]%string.

(** [AcceptedVideoExtGated] *)
Definition AcceptedVideoExtGated (filename : string) (additional : bool) : option string :=
  let ext := ToLower (Ext filename) in
  if bool_decide (ext ∈ baseVideoExts) || (additional && bool_decide (ext ∈ additionalVideoExts)) then Some ext else None.

Definition videoContentTypeExts : gmap string string := list_to_map
  [("video/mp4", ".mp4"); ("video/x-m4v", ".m4v"); ("video/quicktime", ".mov"); ("video/webm", ".webm"); ("video/x-matroska", ".mkv");
   ("video/x-msvideo", ".avi"); ("video/ogg", ".ogv"); ("application/ogg", ".ogv"); ("video/mpeg", ".mpeg"); ("video/mp2t", ".ts");
   ("video/x-flv", ".flv"); ("video/x-ms-wmv", ".wmv"); ("video/3gpp", ".3gp"); ("audio/mpeg", ".mp3"); ("audio/mp3", ".mp3");
   ("audio/mp4", ".m4a"); ("audio/x-m4a", ".m4a"); ("audio/m4a", ".m4a"); ("audio/x-m4b", ".m4b"); ("audio/aac", ".aac");
   ("audio/flac", ".flac"); ("audio/x-flac", ".flac"); ("audio/wav", ".wav"); ("audio/x-wav", ".wav"); ("audio/wave", ".wav");
   ("audio/ogg", ".ogg"); ("audio/opus", ".opus")]%string.

(** [extForContentType] *)
Definition extForContentType (contentType : string) : option string :=
  let mediaType := ToLower (TrimSpace contentType) in
  videoContentTypeExts !!
    match Cut (Ascii.ascii_of_nat 59) mediaType with (before, Some _) => TrimSpace before | (_, None) => mediaType end.

(** The type gate of [AttachOriginal] and [ReplaceSource]: the file name, else
    the declared content type through the same gate. *)
Definition upload_ext (filename contentType : string) (additional : bool) : option string :=
  match AcceptedVideoExtGated filename additional with
  | Some ext => Some ext
  | None => match extForContentType contentType with
            | Some ext => AcceptedVideoExtGated ("x" +:+ ext) additional
            | None => None
            end
  end.

(** [originalKey] *)
Definition originalKey (videoID : uuid) (ext : string) : string := OriginalVideoKey videoID 0 ext.

(** [media.StoryboardKeyJPG] and [media.StoryboardKeyVTT] *)
Definition StoryboardKeyJPG (videoID : uuid) : string := "storyboards/" +:+ videoID +:+ ".jpg".
Definition StoryboardKeyVTT (videoID : uuid) : string := "storyboards/" +:+ videoID +:+ ".vtt".

(** [posInt32] and [metadataParams] *)
Definition posInt32 (n : Z) : option Z := if n <=? 0 then None else Some (int32 n).
Definition metadataParams (md : Metadata) : VMeta :=
  mkVMeta (posInt32 (mdDuration md)) (posInt32 (mdWidth md)) (posInt32 (mdHeight md)).

Definition nilIfEmpty (s : string) : option string := if bool_decide (s = EmptyString) then None else Some s.

(** [edgeServableVideo] *)
Definition edgeServableVideo (v : Video) : bool := bool_decide (vPrivacy v = "public"%string) && bool_decide (vState v = VPublished).

(** [validateVideoPasswordLen] *)
Definition validateVideoPasswordLen (plain : string) : bool :=
  (MinVideoPasswordLen <=? String.length plain)%nat && (String.length plain <=? MaxVideoPasswordLen)%nat.

(** ** Inputs *)

(** [CreateInput]; [ciSupport] distinguishes unset from empty. *)
Record CreateInput := mkCreateInput {
  ciTitle : string; ciDescription : string; ciPrivacy : string; ciCategory : string; ciLanguage : string; ciLicense : string;
  ciSupport : option string; ciTags : list string; ciPublishAt : option time; ciSensitive : bool; ciFlags : list string;
  ciReason : string; ciComments : string; ciDownload : option bool; ciPublishAfter : bool;
}.

(** [UploadInput] *)
Record UploadInput := mkUploadInput { uiFilename : string; uiContentType : string; uiReader : reader }.

(** [UpdateInput] *)
Record UpdateInput := mkUpdateInput {
  inChannel : option uuid; inTitle : option string; inDescription : option string; inPrivacy : option string;
  inCategory : option string; inLanguage : option string; inLicense : option string; inSupport : option string;
  inTags : option (list string); inPublishAt : option time; inOriginally : option time; inSensitive : option bool;
  inFlags : option (list string); inReason : option string; inComments : option string; inDownload : option bool;
  inPublishAfter : option bool;
}.

(** [shippedPublishDefaults] *)
Definition shippedPublishDefaults : PublishDefaults := mkDefaults "private" EmptyString "enabled" true.

(** How [Process] ends: the row, with the scanner's rejection reported beside
    the persisted failure. *)
Inductive processed := Processed (v : Video) | Rejected (v : Video) (outcome : string).

(** ** Programs *)

Section Programs.
Context (s : VideoService) (ts : TranscodeService) (sha256 : bytes -> string).
Abbreviation M A := (prog videoE A) (only parsing).
Implicit Types (id : uuid).

Definition media_call {X} (e : mediaE X) : M X := call (VMedia e).

(** A program of the transcode queue, as this service runs it. *)
Definition media {A} (p : prog mediaE A) : M A := lift (fun X e => VMedia e) p.

(** [storage.PutSizedHashed]: the size and the digest of what was stored. *)
Definition PutSizedHashed (key : string) (r : reader) : M (result ioerr (Z * string)) :=
  p ← media_call (ObjPut key r);
  mret (match p with Err e => Err e | Ok n => Ok (n, sha256 (data r)) end).

(** [Service.GetByID] *)
Definition VideoByID id : M (result verr (Video * uuid)) :=
  r ← call (GetVideoByID id); mret (match r with Ok v => Ok v | Err _ => Err VErrNotFound end).

(** The audit records of the scanner. *)
Definition audited (a : vaudit) : M unit := if vs_auditor s then call (Audit a) else mret tt.

(** *** Drafts *)

(** [Service.CreateDraft] *)
Definition CreateDraft (channelID : uuid) (i : CreateInput) : M (result verr Video) :=
  if bool_decide (ciPrivacy i = PrivacyPassword) then mret (Err VErrPasswordRequired) else
  def ← (if vs_publishDefaults s then se ← call Settings; mret (seDefaults se) else mret shippedPublishDefaults);
  let privacy := if bool_decide (ciPrivacy i = EmptyString) then pdPrivacy def else ciPrivacy i in
  let license := if bool_decide (ciLicense i = EmptyString) then pdLicense def else ciLicense i in
  let comments := if bool_decide (ciComments i = EmptyString) then pdComments def else ciComments i in
  let comments := if bool_decide (comments = EmptyString) then "enabled"%string else comments in
  support ← match ciSupport i with
            | Some t => mret (Some t)
            | None => c ← call (GetChannelByID channelID); mret (match c with Ok ch => chSupport ch | Err _ => None end)
            end;
  r ← call (CreateVideo (mkVideo EmptyString channelID (TrimSpace (ciTitle i)) (TrimSpace (ciDescription i)) privacy VDraft 0
        (nilIfEmpty (ciCategory i)) (nilIfEmpty (ciLanguage i)) (nilIfEmpty license) (ciPublishAt i)
        (ciSensitive i || negb (bool_decide (ciFlags i = []))) (NormalizeSensitiveFlags (ciFlags i)) (TrimSpace (ciReason i)) comments
        (COALESCE (ciDownload i) (pdDownload def)) (ciPublishAfter i) None (nilIfEmpty (COALESCE support EmptyString))));
  match r with
  | Err e => mret (Err (VErrDB e))
  | Ok v =>
      let tags := NormalizeTags (ciTags i) in
      if bool_decide (tags = []) then mret (Ok v) else
      t ← call (InsertVideoTags (vID v) tags);
      mret (match t with Err e => Err (VErrDB e) | Ok _ => Ok v end)
  end.

(** *** Uploads *)

Definition additionalExtsAllowed : M bool :=
  if vs_additionalExtGate s then se ← call Settings; mret (seAdditionalExts se) else mret true.

(** [Service.billStoredOriginal] *)
Definition billStoredOriginal (owner : uuid) (priorSum sum : string) (size : Z) : M unit :=
  if negb (vs_usageRecorder s) then mret tt
  else if negb (bool_decide (priorSum = EmptyString)) && negb (bool_decide (sum = EmptyString)) && bool_decide (priorSum = sum) then mret tt
  else call (Bill owner size).

(** [Service.AttachOriginal] *)
Definition AttachOriginal (ownerID : uuid) id (i : UploadInput) : M (result verr (Video * VideoFile)) :=
  if negb (vs_blobs s) then mret (Err VErrStorageUnavailable) else
  v ← VideoByID id;
  match v with
  | Err e => mret (Err e)
  | Ok (_, owner) =>
      if negb (bool_decide (owner = ownerID)) then mret (Err VErrForbidden) else
      additional ← additionalExtsAllowed;
      match upload_ext (uiFilename i) (uiContentType i) additional with
      | None => mret (Err VErrUnsupportedMedia)
      | Some ext =>
          let key := originalKey id ext in
          cur ← call (GetVideoFileByKind id "original");
          match (match cur with Ok f => Ok (vfSha f) | Err ErrNoRows => Ok EmptyString | Err e => Err e end) with
          | Err e => mret (Err (VErrDB e))
          | Ok priorSum =>
              dl ← media_call (DeleteVideoFilesByVideoAndKind id "original");
              match dl with
              | Err e => mret (Err (VErrDB e))
              | Ok _ =>
                  p ← PutSizedHashed key (uiReader i);
                  match p with
                  | Err e => mret (Err (VErrStorage e))
                  | Ok (size, sum) =>
                      let f := mkVideoFile id "original" key size sum in
                      c ← media_call (CreateVideoFile f);
                      match c with
                      | Err e => mret (Err (VErrDB e))
                      | Ok _ =>
                          u ← call (SetVideoState id VProcessing);
                          match u with
                          | Err e => mret (Err (VErrDB e))
                          | Ok updated => _ ← billStoredOriginal ownerID priorSum sum size; mret (Ok (updated, f))
                          end
                      end
                  end
              end
          end
      end
  end.

(** [Service.generateThumbnail] *)
Definition generateThumbnail id (key : string) (hint : Z) : M unit :=
  if negb (vs_blobs s) then mret tt else
  t ← call (Thumbnail key hint);
  match t with
  | None | Some [] => mret tt
  | Some jpg =>
      let tkey := VideoThumbnailKey id in
      p ← PutSizedHashed tkey (Reader [jpg] None false);
      match p with
      | Err _ => mret tt
      | Ok (_, sum) =>
          _ ← media_call (DeleteVideoFilesByVideoAndKind id "thumbnail");
          _ ← media_call (CreateVideoFile (mkVideoFile id "thumbnail" tkey (Z.of_nat (length jpg)) sum));
          mret tt
      end
  end.

(** [Service.fireMediaReplaced] *)
Definition fireMediaReplaced id (v : Video) (kind : string) : M unit :=
  if vs_onMediaReplaced s && edgeServableVideo v then call (FireHook (HMediaReplaced id kind)) else mret tt.

(** The rows of a storyboard, replacing an earlier pair. *)
Definition replace_storyboard id (jpg vtt : VideoFile) : M (result verr unit) :=
  d1 ← media_call (DeleteVideoFilesByVideoAndKind id "storyboard");
  match d1 with
  | Err e => mret (Err (VErrDB e))
  | Ok _ =>
      d2 ← media_call (DeleteVideoFilesByVideoAndKind id "storyboard_vtt");
      match d2 with
      | Err e => mret (Err (VErrDB e))
      | Ok _ =>
          c1 ← media_call (CreateVideoFile jpg);
          match c1 with
          | Err e => mret (Err (VErrDB e))
          | Ok _ => c2 ← media_call (CreateVideoFile vtt); mret (match c2 with Err e => Err (VErrDB e) | Ok _ => Ok tt end)
          end
      end
  end.

(** [Service.GenerateStoryboard] *)
Definition GenerateStoryboard id (key : string) (hint : Z) : M (result verr unit) :=
  if negb (vs_blobs s) then mret (Err VErrStorageUnavailable)
  else if negb (vs_storyboarder s) then mret (Err VErrStoryboarderUnavailable)
  else
    b ← call (Storyboard key hint);
    match b with
    | None | Some ([], _) | Some (_, []) => mret (Err VErrStoryboard)
    | Some (sprite, vtt) =>
        p ← PutSizedHashed (StoryboardKeyJPG id) (Reader [sprite] None false);
        match p with
        | Err e => mret (Err (VErrStorage e))
        | Ok (_, spriteSum) =>
            p ← PutSizedHashed (StoryboardKeyVTT id) (Reader [vtt] None false);
            match p with
            | Err e => mret (Err (VErrStorage e))
            | Ok (_, vttSum) =>
                r ← replace_storyboard id (mkVideoFile id "storyboard" (StoryboardKeyJPG id) (Z.of_nat (length sprite)) spriteSum)
                      (mkVideoFile id "storyboard_vtt" (StoryboardKeyVTT id) (Z.of_nat (length vtt)) vttSum);
                match r with
                | Err e => mret (Err e)
                | Ok _ =>
                    v ← VideoByID id;
                    _ ← match v with Ok (v, _) => fireMediaReplaced id v "storyboard" | Err _ => mret tt end;
                    mret (Ok tt)
                end
            end
        end
    end.

(** The storyboard of a publish path, when one is made. *)
Definition storyboard_if_wanted id (key : string) (hint : Z) (audioOnly : bool) : M unit :=
  if audioOnly || negb (vs_storyboarder s) then mret tt else
  se ← call Settings;
  if vs_storyboardGate s && negb (seStoryboards se) then mret tt else
  _ ← GenerateStoryboard id key hint; mret tt.

(** [Service.dropRejectedOriginal] *)
Definition dropRejectedOriginal id (key : string) : M unit :=
  _ ← media_call (DeleteVideoFilesByVideoAndKind id "original");
  if negb (vs_blobs s) then mret tt else _ ← media_call (ObjDelete key); mret tt.

(** *** Publishing and the holds *)

(** The transcode hook: an enqueue whose failure is only logged. *)
Definition onTranscode id (key : string) : M unit := _ ← media (Enqueue id key); mret tt.

(** The wired predicates of the publish-after-transcode hold. *)
Definition hasLiveTranscodeJob id : M bool := media (HasLiveJob id).
Definition transcodeWillRun : M bool := if ts_transcoder ts then media_call TranscodingEnabled else mret false.

(** [Service.publish] *)
Definition publish id (key : string) : M (result verr Video) :=
  r ← call (SetVideoState id VPublished);
  match r with
  | Err e => mret (Err (VErrDB e))
  | Ok v =>
      _ ← (if bool_decide (vState v = VPublished) then
             _ ← call (FireHook (HPublish id));
             if vs_onTranscode s then onTranscode id key else mret tt
           else mret tt);
      mret (Ok v)
  end.

(** [Service.parkQuarantined] *)
Definition parkQuarantined id : M (result verr Video) :=
  r ← call (SetVideoState id VQuarantined);
  match r with
  | Err e => mret (Err (VErrDB e))
  | Ok v => _ ← call (FireHook (HQuarantine id)); mret (Ok v)
  end.

(** [Service.ReleaseTranscodeHold] *)
Definition ReleaseTranscodeHold id : M (result verr unit) :=
  r ← call (PublishTranscodingVideo id);
  match r with
  | Err e => mret (Err (VErrDB e))
  | Ok n => if n =? 0 then mret (Ok tt) else _ ← call (FireHook (HPublish id)); mret (Ok tt)
  end.

(** [Service.enterTranscodeHold]: the row it returns. *)
Definition enterTranscodeHold id : M (result verr Video) :=
  r ← call (SetVideoState id VTranscoding);
  match r with
  | Err e => mret (Err (VErrDB e))
  | Ok held =>
      if negb (vs_hasLiveJob s) then mret (Ok held) else
      live ← hasLiveTranscodeJob id;
      if (live : bool) then mret (Ok held) else
      rel ← ReleaseTranscodeHold id;
      mret (Ok (match rel with Ok _ => with_vstate VPublished (vUpdated held) held | Err _ => held end))
  end.

Fixpoint release_each (ids : list uuid) (released : Z) : M Z :=
  match ids with
  | [] => mret released
  | id :: rest =>
      r ← ReleaseTranscodeHold id;
      release_each rest (match r with Ok _ => released + 1 | Err _ => released end)
  end.

(** [Service.ReleaseStuckTranscodeHolds] *)
Definition ReleaseStuckTranscodeHolds (olderThan : duration) (limit : Z) : M (result verr Z) :=
  t ← media_call MNow;
  r ← call (ListStuckTranscodingVideos (t - olderThan) limit);
  match r with
  | Err e => mret (Err (VErrDB e))
  | Ok ids => n ← release_each ids 0; mret (Ok n)
  end.

(** What the scan of an upload decides. *)
Inductive scan_verdict := ScanPass | ScanPark | ScanFail (outcome : string).

Definition scan_upload id (key : string) : M scan_verdict :=
  if negb (vs_scanner s) then mret ScanPass else
  r ← call (Scan key);
  match r with
  | None =>
      match vs_scanMode s with
      | ScanModeFailOpen => _ ← audited (MalwareSkipped id); mret ScanPass
      | ScanModeQuarantine => _ ← audited (MalwareRejected id "scan_error"); mret ScanPark
      | _ => _ ← audited (MalwareRejected id "scan_error"); mret (ScanFail "scan_error")
      end
  | Some true => mret ScanPass
  | Some false =>
      _ ← audited (MalwareRejected id "infected");
      _ ← dropRejectedOriginal id key;
      mret (ScanFail "infected")
  end.

(** The probe of an upload: the duration and whether it is audio only; [None]
    when it is not media. *)
Definition probe_upload id (key : string) : M (result verr (option (Z * bool))) :=
  if negb (vs_prober s) then mret (Ok (Some (0, false))) else
  r ← call (ProbeFile key);
  match r with
  | None => mret (Ok None)
  | Some md =>
      u ← call (UpsertVideoMetadata id (metadataParams md));
      mret (match u with Err e => Err (VErrDB e) | Ok _ => Ok (Some (mdDuration md, mdAudioOnly md)) end)
  end.

(** Whether moderation holds the upload: an unreadable answer does. *)
Definition quarantine_gate id : M bool :=
  if negb (vs_quarantineGate s) then mret false else
  se ← call Settings;
  if negb (seQuarantine se) then mret false else
  r ← call (UploadRequiresQuarantine id);
  mret (match r with Ok b => b | Err _ => true end).

(** The holds of a processed upload, and its publication. *)
Definition finish_upload id (key : string) (park : bool) : M (result verr Video) :=
  if park then parkQuarantined id else
  q ← quarantine_gate id;
  if (q : bool) then parkQuarantined id else
  g ← VideoByID id;
  t ← media_call MNow;
  match g with
  | Err _ => publish id key
  | Ok (v, _) =>
      if match vPublishAt v with Some at_ => t <? at_ | None => false end then
        r ← call (SetVideoState id VScheduled); mret (match r with Err e => Err (VErrDB e) | Ok v => Ok v end)
      else
        will ← (if vPublishAfter v && vs_transcodeWillRun s then transcodeWillRun else mret false);
        if (will : bool) && vs_onTranscode s then
          _ ← onTranscode id key;
          live ← (if vs_hasLiveJob s then hasLiveTranscodeJob id else mret true);
          if (live : bool) then enterTranscodeHold id else publish id key
        else publish id key
  end.

(** [Service.Process] *)
Definition Process id (key : string) : M (result verr processed) :=
  sc ← scan_upload id key;
  match sc with
  | ScanFail outcome =>
      r ← call (SetVideoState id VFailed);
      mret (match r with Err e => Err (VErrDB e) | Ok v => Ok (Rejected v outcome) end)
  | _ =>
      p ← probe_upload id key;
      match p with
      | Err e => mret (Err e)
      | Ok None =>
          r ← call (SetVideoState id VFailed);
          mret (match r with Err e => Err (VErrDB e) | Ok v => Ok (Processed v) end)
      | Ok (Some (hint, audioOnly)) =>
          _ ← (if vs_thumbnailer s && negb audioOnly then generateThumbnail id key hint else mret tt);
          _ ← storyboard_if_wanted id key hint audioOnly;
          r ← finish_upload id key (match sc with ScanPark => true | _ => false end);
          mret (match r with Err e => Err e | Ok v => Ok (Processed v) end)
      end
  end.

(** [Service.ApproveQuarantined] *)
Definition ApproveQuarantined id : M (result verr Video) :=
  g ← VideoByID id;
  match g with
  | Err e => mret (Err e)
  | Ok (v, _) =>
      if negb (bool_decide (vState v = VQuarantined)) then mret (Err VErrNotQuarantined) else
      f ← call (GetVideoFileByKind id "original");
      match f with Err e => mret (Err (VErrDB e)) | Ok f => publish id (vfKey f) end
  end.

(** [Service.RejectQuarantined] *)
Definition RejectQuarantined id (moderatorID : uuid) (note : string) : M (result verr Video) :=
  g ← VideoByID id;
  match g with
  | Err e => mret (Err e)
  | Ok (v, _) =>
      if negb (bool_decide (vState v = VQuarantined)) then mret (Err VErrNotQuarantined) else
      r ← call (SetVideoState id VFailed);
      match r with
      | Err e => mret (Err (VErrDB e))
      | Ok _ =>
          n ← call (RecordVideoRejection id note moderatorID);
          mret (match n with Err e => Err (VErrDB e) | Ok _ => Ok (with_vstate VFailed (vUpdated v) v) end)
      end
  end.

Fixpoint publish_each (rows : list (uuid * string)) (published : Z) : M Z :=
  match rows with
  | [] => mret published
  | (id, key) :: rest =>
      r ← publish id key;
      publish_each rest (match r with Ok _ => published + 1 | Err _ => published end)
  end.

(** [Service.PublishDue] *)
Definition PublishDue (limit : Z) : M (result verr Z) :=
  r ← call (ListDueScheduledVideos limit);
  match r with
  | Err e => mret (Err (VErrDB e))
  | Ok rows => n ← publish_each rows 0; mret (Ok n)
  end.

(** *** Replacement of the source *)

(** Whether the scan admits a replacement. *)
Definition scan_replacement id (key : string) : M bool :=
  if negb (vs_scanner s) then mret true else
  r ← call (Scan key);
  match r with
  | None =>
      if bool_decide (vs_scanMode s = ScanModeFailOpen) then _ ← audited (MalwareSkipped id); mret true
      else _ ← audited (MalwareRejected id "scan_error"); mret false
  | Some true => mret true
  | Some false => _ ← audited (MalwareRejected id "infected"); mret false
  end.

Definition drop_candidate {A} (key : string) (e : verr) : M (result verr A) := _ ← media_call (ObjDelete key); mret (Err e).

(** From the swap on: the row, the probe's metadata, the ledger, the storyboard,
    the row's time and the update hooks. *)
Definition swap_source id (v : Video) (owner : uuid) (f : VideoFile) (priorSum : string) (md : option Metadata)
    : M (result verr (Video * VideoFile)) :=
  sw ← call (SwapVideoOriginalIfOwner id owner f);
  match sw with
  | Err ErrNoRows => drop_candidate (vfKey f) VErrReplaceConflict
  | Err e => mret (Err (VErrDB e))
  | Ok f =>
      u ← match md with Some m => call (UpsertVideoMetadata id (metadataParams m)) | None => mret (Ok tt) end;
      match u with
      | Err e => mret (Err (VErrDB e))
      | Ok _ =>
          _ ← billStoredOriginal owner priorSum (vfSha f) (vfSize f);
          _ ← storyboard_if_wanted id (vfKey f) (match md with Some m => mdDuration m | None => 0 end)
                (match md with Some m => mdAudioOnly m | None => false end);
          st ← call (SetVideoState id VPublished);
          match st with
          | Err e => mret (Err (VErrDB e))
          | Ok updated => _ ← call (FireHook (HUpdate id (edgeServableVideo v))); mret (Ok (updated, f))
          end
      end
  end.

(** [Service.ReplaceSource] *)
Definition ReplaceSource (actorID : uuid) id (i : UploadInput) (canManage : bool) : M (result verr (Video * VideoFile)) :=
  if negb (vs_blobs s) then mret (Err VErrStorageUnavailable) else
  g ← VideoByID id;
  match g with
  | Err e => mret (Err e)
  | Ok (v, owner) =>
      if negb (bool_decide (owner = actorID)) && negb canManage then mret (Err VErrForbidden)
      else if negb (bool_decide (vState v = VPublished)) then mret (Err VErrReplaceConflict)
      else
        additional ← additionalExtsAllowed;
        match upload_ext (uiFilename i) (uiContentType i) additional with
        | None => mret (Err VErrUnsupportedMedia)
        | Some ext =>
            cur ← call (GetVideoFileByKind id "original");
            match (match cur with
                   | Ok f => Ok (OriginalKeyVersion (vfKey f) + 1, vfSha f)
                   | Err ErrNoRows => Ok (1, EmptyString)
                   | Err e => Err e
                   end) with
            | Err e => mret (Err (VErrDB e))
            | Ok (version, priorSum) =>
                let key := OriginalVideoKey id version ext in
                p ← PutSizedHashed key (uiReader i);
                match p with
                | Err e => mret (Err (VErrStorage e))
                | Ok (size, sum) =>
                    ok ← scan_replacement id key;
                    if negb (ok : bool) then drop_candidate key (VErrReplaceRejected SafetyScanRejectedMessage) else
                    let f := mkVideoFile id "original" key size sum in
                    if negb (vs_prober s) then swap_source id v owner f priorSum None else
                    m ← call (ProbeFile key);
                    match m with
                    | None => drop_candidate key (VErrReplaceRejected "the file is not a playable video")
                    | Some md => swap_source id v owner f priorSum (Some md)
                    end
                end
            end
        end
  end.

(** *** Edits *)

Definition HasPassword id : M (result verr bool) :=
  r ← call (CountVideoPasswords id); mret (match r with Err e => Err (VErrDB e) | Ok n => Ok (0 <? n) end).

(** The parameters of an edit. *)
Definition update_params (i : UpdateInput) : UpdateParams :=
  mkUpdate (TrimSpace <$> inTitle i) (TrimSpace <$> inDescription i) (inPrivacy i) (inCategory i) (inLanguage i) (inLicense i)
    (inPublishAt i) (sensitiveWithFlags (inSensitive i) (inFlags i)) (sensitiveFlagsPatch (inSensitive i) (inFlags i))
    (TrimSpace <$> inReason i) (TrimSpace <$> inSupport i) (inComments i) (inDownload i) (inChannel i) (inOriginally i) (inPublishAfter i).

(** The guards of an edit, before anything is written. *)
Definition update_guard id (v : Video) (owner : uuid) (i : UpdateInput) (moved : bool) : M (result verr unit) :=
  if negb (bool_decide (inPublishAt i = None)) && bool_decide (vState v = VPublished) then mret (Err VErrPublished) else
  mv ← match inChannel i with
       | Some ch => if moved then c ← call (GetChannelByID ch);
                                  mret (match c with Ok c => bool_decide (chOwner c = owner) | Err _ => false end)
                    else mret true
       | None => mret true
       end;
  if negb (mv : bool) then mret (Err VErrMoveRefused)
  else if bool_decide (inPrivacy i = Some PrivacyPassword) then
    h ← HasPassword id;
    mret (match h with Err e => Err e | Ok true => Ok tt | Ok false => Err VErrPasswordRequired end)
  else mret (Ok tt).

Definition replace_tags id (tags : option (list string)) : M (result verr unit) :=
  match tags with
  | None => mret (Ok tt)
  | Some ts =>
      d ← call (DeleteVideoTags id);
      match d with
      | Err e => mret (Err (VErrDB e))
      | Ok _ =>
          if bool_decide (NormalizeTags ts = []) then mret (Ok tt) else
          r ← call (InsertVideoTags id (NormalizeTags ts));
          mret (match r with Err e => Err (VErrDB e) | Ok _ => Ok tt end)
      end
  end.

(** The toggle of publish-after-transcode: the row to answer with. *)
Definition toggle_hold id (v updated : Video) (flag : option bool) : M (result verr Video) :=
  match flag with
  | None => mret (Ok updated)
  | Some true =>
      if bool_decide (vState v = VPublished) && negb (bool_decide (vPrivacy v = "public"%string)) && vs_transcodeWillRun s then
        will ← transcodeWillRun;
        live ← (if (will : bool) && vs_hasLiveJob s then hasLiveTranscodeJob id else mret false);
        if (live : bool) then enterTranscodeHold id else mret (Ok updated)
      else mret (Ok updated)
  | Some false =>
      if bool_decide (vState v = VTranscoding) then
        r ← ReleaseTranscodeHold id;
        mret (match r with Err e => Err e | Ok _ => Ok (with_vstate VPublished (vUpdated updated) updated) end)
      else mret (Ok updated)
  end.

(** [Service.fireUpdateHooks] *)
Definition fireUpdateHooks (v : Video) (moved : bool) : M unit :=
  _ ← call (FireHook (HUpdate (vID v) (edgeServableVideo v)));
  if moved then call (FireHook (HMove (vID v) (vChannel v) (edgeServableVideo v))) else mret tt.

(** [Service.UpdateForActor] *)
Definition UpdateForActor (actorID : uuid) id (i : UpdateInput) (canManage : bool) : M (result verr Video) :=
  g ← VideoByID id;
  match g with
  | Err e => mret (Err e)
  | Ok (v, owner) =>
      if negb (bool_decide (owner = actorID)) && negb canManage then mret (Err VErrForbidden) else
      let moved := match inChannel i with Some ch => negb (bool_decide (ch = vChannel v)) | None => false end in
      ok ← update_guard id v owner i moved;
      match ok with
      | Err e => mret (Err e)
      | Ok _ =>
          u ← call (UpdateVideo id (update_params i));
          match u with
          | Err e => mret (Err (VErrDB e))
          | Ok updated =>
              t ← replace_tags id (inTags i);
              match t with
              | Err e => mret (Err e)
              | Ok _ =>
                  h ← toggle_hold id v updated (inPublishAfter i);
                  match h with
                  | Err e => mret (Err e)
                  | Ok updated => _ ← fireUpdateHooks v moved; mret (Ok updated)
                  end
              end
          end
      end
  end.

(** [Service.PrefillMetadata] *)
Definition PrefillMetadata id (title description : string) : M (result verr unit) :=
  g ← VideoByID id;
  match g with
  | Err e => mret (Err e)
  | Ok (v, _) =>
      let t := if bool_decide (TrimSpace (vTitle v) = EmptyString) then nilIfEmpty (TrimSpace title) else None in
      let d := if bool_decide (TrimSpace (vDescription v) = EmptyString) then nilIfEmpty (TrimSpace description) else None in
      match t, d with
      | None, None => mret (Ok tt)
      | _, _ =>
          r ← call (UpdateVideo id (mkUpdate t d None None None None None None None None None None None None None None));
          mret (match r with Err e => Err (VErrDB e) | Ok _ => Ok tt end)
      end
  end.

(** [Service.DeleteForActor] *)
Definition DeleteForActor (actorID : uuid) id (canManage : bool) : M (result verr unit) :=
  g ← VideoByID id;
  match g with
  | Err e => mret (Err e)
  | Ok (v, owner) =>
      if negb (bool_decide (owner = actorID)) && negb canManage then mret (Err VErrForbidden) else
      r ← call (DeleteVideo id);
      match r with
      | Err e => mret (Err (VErrDB e))
      | Ok _ => _ ← call (FireHook (HDelete id (vChannel v) (bool_decide (vPrivacy v = "public"%string)))); mret (Ok tt)
      end
  end.

(** *** Reading and views *)

(** [Service.FileForView] *)
Definition FileForView id (viewerID : uuid) (authed : bool) (kind : string) : M (result verr VideoFile) :=
  g ← VideoByID id;
  match g with
  | Err e => mret (Err e)
  | Ok (v, owner) =>
      if negb (PrivacyAdmits (vPrivacy v) authed (bool_decide (viewerID = owner))) then mret (Err VErrNotFound) else
      f ← call (GetVideoFileByKind id kind);
      mret (match f with Ok f => Ok f | Err _ => Err VErrNotFound end)
  end.

(** [Service.RecordViewGated]; [gate] is [None] for no gate, else what it
    answers ([None] inside for an error). *)
Definition RecordViewGated id (viewerID : uuid) (authed : bool) (viewerKey : string) (gate : option (option bool)) : M (result verr unit) :=
  g ← VideoByID id;
  match g with
  | Err e => mret (Err e)
  | Ok (v, owner) =>
      if negb (PrivacyAdmits (vPrivacy v) authed (bool_decide (viewerID = owner))) then mret (Err VErrNotFound)
      else if negb (bool_decide (vState v = VPublished)) then mret (Ok tt)
      else
        seen ← (if vs_deduper s then f ← call (First ("view:" +:+ id +:+ ":" +:+ viewerKey)); mret (bool_decide (f = Some false))
                else mret false);
        if (seen : bool) then mret (Ok tt) else
        match gate with
        | Some None => mret (Err (VErrDB ErrStore))
        | Some (Some false) => mret (Ok tt)
        | _ =>
            n ← call (IncrementVideoViews id);
            match n with
            | Err e => mret (Err (VErrDB e))
            | Ok _ => r ← call (IncrementVideoViewDay id); mret (match r with Err e => Err (VErrDB e) | Ok _ => Ok tt end)
            end
        end
  end.

(** *** Passwords *)

(** [Service.ownedVideo] *)
Definition ownedVideo (ownerID : uuid) id : M (result verr Video) :=
  g ← VideoByID id;
  mret (match g with
        | Err e => Err e
        | Ok (v, owner) => if bool_decide (owner = ownerID) then Ok v else Err VErrForbidden
        end).

(** [Service.ListPasswords] *)
Definition ListPasswords (ownerID : uuid) id : M (result verr (list (uuid * time))) :=
  o ← ownedVideo ownerID id;
  match o with
  | Err e => mret (Err e)
  | Ok _ => r ← call (ListVideoPasswords id); mret (match r with Err e => Err (VErrDB e) | Ok l => Ok l end)
  end.

(** [Service.AddPassword] *)
Definition AddPassword (ownerID : uuid) id (plain : string) : M (result verr (uuid * time)) :=
  o ← ownedVideo ownerID id;
  match o with
  | Err e => mret (Err e)
  | Ok _ =>
      if negb (validateVideoPasswordLen plain) then mret (Err VErrPasswordValidation) else
      h ← call (HashPassword plain);
      match h with
      | None => mret (Err VErrHash)
      | Some hash => r ← call (InsertVideoPassword id hash); mret (match r with Err e => Err (VErrDB e) | Ok x => Ok x end)
      end
  end.

(** The hashes of a set, each validated first. *)
Fixpoint hash_all (plains : list string) : M (result verr (list string)) :=
  match plains with
  | [] => mret (Ok [])
  | p :: rest =>
      if negb (validateVideoPasswordLen p) then mret (Err VErrPasswordValidation) else
      h ← call (HashPassword p);
      match h with
      | None => mret (Err VErrHash)
      | Some hash => r ← hash_all rest; mret (match r with Err e => Err e | Ok hs => Ok (hash :: hs) end)
      end
  end.

(** [Service.ReplacePasswords] *)
Definition ReplacePasswords (ownerID : uuid) id (plains : list string) : M (result verr (list (uuid * time))) :=
  o ← ownedVideo ownerID id;
  match o with
  | Err e => mret (Err e)
  | Ok _ =>
      if ((length plains <? 1) || (MaxVideoPasswords <? length plains))%nat then mret (Err VErrPasswordValidation) else
      hs ← hash_all plains;
      match hs with
      | Err e => mret (Err e)
      | Ok hashes =>
          d ← call (DeleteVideoPasswords id);
          match d with
          | Err e => mret (Err (VErrDB e))
          | Ok _ =>
              n ← call (InsertVideoPasswords id hashes);
              match n with Err e => mret (Err (VErrDB e)) | Ok _ => ListPasswords ownerID id end
          end
      end
  end.

(** [Service.DeletePassword] *)
Definition DeletePassword (ownerID : uuid) id (pid : uuid) : M (result verr unit) :=
  o ← ownedVideo ownerID id;
  match o with
  | Err e => mret (Err e)
  | Ok v =>
      ex ← call (VideoPasswordExists pid id);
      match ex with
      | Err e => mret (Err (VErrDB e))
      | Ok false => mret (Err VErrPasswordNotFound)
      | Ok true =>
          last ← (if bool_decide (vPrivacy v = PrivacyPassword) then
                    n ← call (CountVideoPasswords id);
                    mret (match n with Err e => Err (VErrDB e) | Ok n => Ok (n <=? 1) end)
                  else mret (Ok false));
          match last with
          | Err e => mret (Err e)
          | Ok true => mret (Err VErrLastPassword)
          | Ok false => r ← call (DeleteVideoPassword pid id); mret (match r with Err e => Err (VErrDB e) | Ok _ => Ok tt end)
          end
      end
  end.

(** [Service.VerifyPassword]; [check] is bcrypt's comparison. *)
Definition VerifyPassword (check : string -> string -> bool) id (plain : string) : M (result verr bool) :=
  r ← call (ListVideoPasswordHashes id);
  mret (match r with
        | Err e => Err (VErrDB e)
        | Ok hashes => Ok (foldl (fun matched h => if check h plain then true else matched) false hashes)
        end).

(** *** The transcode queue, wired *)

(** [releaseHold] of cmd/api: the completion and failure hook. *)
Definition releaseHold id : M unit :=
  l ← media (LiveJob id);
  match l with
  | Ok true => mret tt
  | _ => _ ← ReleaseTranscodeHold id; mret tt
  end.

(** The queue's programs with their hooks run as this service. *)
Definition wire X (e : mediaE X) : M X :=
  match e in mediaE X return prog videoE X with
  | Hook (OnComplete v) => releaseHold v
  | Hook (OnFail v) => releaseHold v
  | e => call (VMedia e)
  end.

Definition wired {A} (p : prog mediaE A) : M A := interp wire p.
End Programs.
