(* ===== verification/VideoSafety.v ===== *)
(** * What video publishing guarantees

    The fate of infected files, the single release of a publish-after-transcode
    hold, and moderation that nothing but a moderator undoes. *)
From S2P Require Import Prelude Interleave GoStrings Queue Storage MediaKeys MediaStore Playlist Transcode VideoStore Video.
Local Open Scope Z_scope.

(** ** Lemmas: operations *)

Section Ops.
Context {B : Type} `{Backend B, !Lister B}.
Implicit Types (w : vworld B).

(** Media operations leave the other tables and the seams alone. *)
Lemma media_tabs X (e : mediaE X) w : vt (video_handler X (VMedia e) w).2 = vt w.
Proof. done. Qed.

Lemma run_media {A} (p : prog mediaE A) w :
  run video_handler (media p) w = on_mworld (run media_handler p (vmw w)) w.
Proof.
  revert w. induction p as [a|X e k IH]; intros w; cbn; [by destruct w|]. rewrite IH. unfold on_mworld. cbn. done.
Qed.

(** What a lookup answers is the row. *)
Lemma run_VideoByID id w :
  (run video_handler (VideoByID id) w).1 = Err VErrNotFound \/
  exists v o, (run video_handler (VideoByID id) w).1 = Ok (v, o) /\ vrows (vt w) !! id = Some v /\ owner_of (store (vdb w)) v = Some o.
Proof.
  unfold VideoByID. rewrite run_mbind, run_call, run_mret. cbn [video_handler fst snd].
  destruct (on_video (q_GetVideoByID id) w).1 as [[v o]|e] eqn:Hq; [right|by left].
  apply on_video_ok in Hq as [Hq _]. unfold q_GetVideoByID in Hq. cbn in Hq. exists v, o.
  destruct (vrows (vt w) !! id) as [v'|] eqn:Hv; [|done]. destruct (owner_of _ v') as [o'|] eqn:Ho; [|done].
  case_bool_decide; [|done]. injection Hq as -> ->. done.
Qed.

Lemma run_VideoByID_fine id w v o :
  faults (mdb (vmw w)) = [] -> vrows (vt w) !! id = Some v -> owner_of (store (vdb w)) v = Some o -> is_Some (vowners (vt w) !! o) ->
  run video_handler (VideoByID id) w = (Ok (v, o), w).
Proof.
  intros Hf Hv Ho Hu. unfold VideoByID. rewrite run_mbind, run_call, run_mret. cbn [video_handler fst snd].
  rewrite on_video_fine by done. unfold q_GetVideoByID. cbn [store vdb vtabs fst snd]. rewrite Hv. change (store (vdb w)) with (mkVideoDB (store (mdb (vmw w))) (vt w)) in Ho.
  rewrite Ho, bool_decide_eq_true_2 by done. cbn. f_equal. destruct w as [[[d fs] ? ? ? ? ? ? ? ?] ? ? ? ? ? ? ?]. cbn in *. by subst fs.
Qed.
End Ops.

(** ** Infected files *)

Section Infected.
Context {B : Type} `{BackendLaws B, !Lister B} (s : VideoService) (ts : TranscodeService) (sha256 : bytes -> string).
Implicit Types (w : vworld B).

(** What rejecting an upload may change: audit records, calls made, the rows
    and the bytes of the original, and the state of this video to failed. *)
Definition rejecting (id : uuid) w w' : Prop :=
  vhooks w' = vhooks w /\ vbilled w' = vbilled w /\
  tjobs (store (mdb (vmw w'))) = tjobs (store (mdb (vmw w))) /\ splaylists (store (mdb (vmw w'))) = splaylists (store (mdb (vmw w))) /\
  (forall id', id' <> id -> vrows (vt w') !! id' = vrows (vt w) !! id') /\
  (forall row, vrows (vt w') !! id = Some row -> vState row = VFailed \/ vrows (vt w) !! id = Some row).

#[local] Instance rejecting_preorder id : PreOrder (rejecting id).
Proof.
  split; [intros w; split_and!; try done; by right|].
  intros x y z (A1 & A2 & A3 & A4 & A5 & A6) (B1 & B2 & B3 & B4 & B5 & B6).
  split_and!; try congruence; [intros id' Hne; by rewrite B5, A5|].
  intros row Hr. destruct (B6 row Hr) as [?|Hy]; [by left|by apply A6].
Qed.

Definition rejects (id : uuid) X (e : videoE X) : Prop :=
  match e with
  | Scan _ | Audit _ | VMedia (DeleteVideoFilesByVideoAndKind _ _) | VMedia (ObjDelete _) => True
  | SetVideoState id' VFailed => id' = id
  | _ => False
  end.

Lemma rejects_step id X (e : videoE X) w : rejects id X e -> rejecting id w (video_handler X e w).2.
Proof.
  destruct e; cbn [rejects]; try done.
  - destruct e; try done; intros _; split_and!; try done; try (by right); cbn [video_handler on_mworld media_handler snd vmw].
    + by apply (on_media_invariant (q_DeleteVideoFilesByVideoAndKind v kind) (fun d => tjobs d = tjobs (store (mdb (vmw w))))).
    + by apply (on_media_invariant (q_DeleteVideoFilesByVideoAndKind v kind) (fun d => splaylists d = splaylists (store (mdb (vmw w))))).
  - destruct st; try done. intros ->. cbn [video_handler].
    pose proof (on_video_invariant (q_SetVideoState id VFailed) (fun d =>
      tjobs (vmedia d) = tjobs (store (mdb (vmw w))) /\ splaylists (vmedia d) = splaylists (store (mdb (vmw w))) /\
      (forall id', id' <> id -> vrows (vtabs d) !! id' = vrows (vt w) !! id') /\
      (forall row, vrows (vtabs d) !! id = Some row -> vState row = VFailed \/ vrows (vt w) !! id = Some row)) w) as Hi.
    destruct Hi as (I1 & I2 & I3 & I4); [|split_and!; auto|by split_and!].
    intros d (D1 & D2 & D3 & D4). unfold q_SetVideoState. destruct (vrows (vtabs d) !! id) as [v|] eqn:Hv; [cbn|cbn; rewrite Hv; by split_and!].
    split_and!; try done; [intros id' Hne; rewrite lookup_insert_ne by done; auto|].
    intros row. rewrite lookup_insert_eq. intros [= <-]. by left.
  - intros _. split_and!; try done. by right.
  - intros _. split_and!; try done. by right.
Qed.

Lemma run_infected_scan id key w :
  vs_scanner s = true -> co_Scan (vco w) (vcalls w) key = Some false ->
  (run video_handler (scan_upload s id key) w).1 = ScanFail "infected" /\ rejecting id w (run video_handler (scan_upload s id key) w).2.
Proof.
  intros Hs Hc. unfold scan_upload. rewrite Hs. cbn [negb]. rewrite run_mbind, run_call. cbn [video_handler asked fst snd]. rewrite Hc.
  split; [by rewrite !run_mbind, run_mret|]. etrans; [by apply (rejects_step id _ (Scan key))|].
  cbn [video_handler asked snd]. apply (run_rel video_handler (rejects id) (rejecting id) (rejects_step id)).
  unfold audited, dropRejectedOriginal, media_call. walk_ops; done.
Qed.

(** C10. A file the scanner calls infected is never published. Whatever scan
    mode is configured and whatever store calls fail, processing it publishes
    nothing, runs no hook, bills nothing and queues no transcode, leaves every
    other video alone, and ends with a rejection or a store error; when the
    store answers the video is failed, no original of it is recorded, and the
    rejected bytes are no longer stored if the object store confirmed. *)
Theorem infected_never_published (id : uuid) (key : string) w :
  vs_scanner s = true -> co_Scan (vco w) (vcalls w) key = Some false ->
  let out := run video_handler (Process s ts sha256 id key) w in
  rejecting id w out.2 /\
  ((exists v, out.1 = Ok (Rejected v "infected")) \/ exists e, out.1 = Err (VErrDB e)) /\
  (faults (mdb (vmw w)) = [] -> forall v, vrows (vt w) !! id = Some v ->
   vState <$> vrows (vt out.2) !! id = Some VFailed /\
   (forall f, f ∈ mfiles (store (mdb (vmw out.2))) -> ~ (vfVideo f = id /\ vfKind f = "original"%string)) /\
   (vs_blobs s = true -> canonical key = true -> (be_delete key (mblobs (vmw w))).1 = Ok tt ->
    contents (mblobs (vmw out.2)) key = None)).
Proof.
  intros Hs Hc. cbv zeta. destruct (run_infected_scan id key w Hs Hc) as [H1 H2].
  assert (Hrun : run video_handler (Process s ts sha256 id key) w =
    (match (video_handler _ (SetVideoState id VFailed) (run video_handler (scan_upload s id key) w).2).1 with
     | Err e => Err (VErrDB e) | Ok v => Ok (Rejected v "infected") end,
     (video_handler _ (SetVideoState id VFailed) (run video_handler (scan_upload s id key) w).2).2)).
  { unfold Process. rewrite run_mbind, H1, run_mbind, run_call, run_mret. done. }
  rewrite Hrun. cbn [fst snd]. split_and!.
  - etrans; [exact H2|]. by apply rejects_step.
  - destruct (video_handler _ _ _).1; [left|right]; by eexists.
  - intros Hf v Hv. clear Hrun H1 H2.
    unfold scan_upload, audited, dropRejectedOriginal, media_call. rewrite Hs. cbn [negb]. rewrite run_mbind, run_call.
    cbn [video_handler asked fst snd]. rewrite Hc.
    destruct w as [[[d fs] b own tc mc mh en sc wr] t co n se hs bl au]. cbn in Hf. subst fs.
    cbn in Hv. destruct (vs_auditor s), (vs_blobs s); cbn; unfold on_video; cbn; unfold q_SetVideoState; cbn; rewrite Hv; cbn;
      (split; [by rewrite lookup_insert_eq|]);
      (split; [intros f [Hf _]%list_elem_of_filter; exact Hf|]); intros; try done; by apply delete_ok.
Qed.
End Infected.

(** ** Lemmas: how a state changes *)

Section States.
Context {B : Type} `{Backend B, !Lister B}.
Implicit Types (w : vworld B) (id : uuid).

Definition state_in id (d : VideoDB) : option vstate := vState <$> vrows (vtabs d) !! id.
Definition state_of id w : option vstate := vState <$> vrows (vt w) !! id.

(** The operations that give a video a state. *)
Definition gives id (st : vstate) (old : option vstate) X (e : videoE X) : Prop :=
  match e with
  | SetVideoState id' st' => id' = id /\ st' = st
  | PublishTranscodingVideo id' => id' = id /\ st = VPublished /\ old = Some VTranscoding
  | CreateVideo _ => st = VDraft
  | _ => False
  end.

(** By a statement's effect on the database. *)
Lemma state_stmt {A} (q : VideoDB -> result dberr A * VideoDB) id w (K : Prop) st :
  (state_in id (q (store (vdb w))).2 = Some st -> state_of id w = Some st \/ K) ->
  state_of id (on_video q w).2 = Some st -> state_of id w = Some st \/ K.
Proof.
  intros Hq Hst. change (state_in id (store (vdb (on_video q w).2)) = Some st) in Hst.
  destruct (on_video_store q w) as [E|E]; rewrite E in Hst; [by apply Hq|by left].
Qed.

Lemma state_insert id id' v d : state_in id (on_tabs (set_vrows <[id' := v]>) d) = if decide (id' = id) then Some (vState v) else state_in id d.
Proof. unfold state_in. cbn. case_decide as Hd; [subst; by rewrite lookup_insert_eq|by rewrite lookup_insert_ne]. Qed.

Lemma insert_passwords_rows id0 hashes d d' id : insert_passwords id0 hashes d = Some d' -> state_in id d' = state_in id d.
Proof.
  revert d. induction hashes as [|h hs IH]; intros d; cbn; [by intros [= ->]|]. case_match; [done|]. intros Hi. by rewrite (IH _ Hi).
Qed.

(** A state after an operation was there before, or the operation gave it. *)
Lemma state_step id X (e : videoE X) w st :
  state_of id (video_handler X e w).2 = Some st -> state_of id w = Some st \/ gives id st (state_of id w) X e.
Proof.
  destruct e; cbn [video_handler gives]; try (by left); apply state_stmt; try (by left); set (d := store (vdb w));
    change (state_of id w) with (state_in id d); clearbody d;
    try (unfold q_InsertVideoTags, q_UpsertVideoMetadata, q_IncrementVideoViews, q_IncrementVideoViewDay,
           q_RecordVideoRejection, q_InsertVideoPassword, q_DeleteVideoPassword; by left; repeat case_match).
  - unfold q_CreateVideo. cbv zeta. repeat case_match; try (by left). cbn. unfold state_in. cbn.
    destruct (decide (next_job (vmedia d) = id)) as [<-|Hne]; [rewrite lookup_insert_eq; intros [= <-]; by right|].
    rewrite lookup_insert_ne by done. by left.
  - unfold q_UpdateVideo. destruct (vrows (vtabs d) !! id0) as [v|] eqn:Hv; [|by left]. cbv zeta. case_match; [by left|].
    cbn [snd]. rewrite state_insert. case_decide as Hd; [|by left]. subst. intros [= <-]. left. unfold state_in. by rewrite Hv.
  - unfold q_SetVideoState. destruct (vrows (vtabs d) !! id0) as [v|] eqn:Hv; [|by left].
    cbn [snd]. rewrite state_insert. case_decide as Hd; [|by left]. intros [= <-]. by right.
  - unfold q_DeleteVideo, state_in. cbn. destruct (decide (id0 = id)) as [->|Hne]; [by rewrite lookup_delete_eq|].
    rewrite lookup_delete_ne by done. by left.
  - unfold q_PublishTranscodingVideo. destruct (vrows (vtabs d) !! id0) as [v|] eqn:Hv; [|by left].
    case_bool_decide as Ht; [|by left]. cbn [snd]. rewrite state_insert. case_decide as Hd; [|by left]. subst. intros [= <-]. right.
    split_and!; [done|done|]. unfold state_in. rewrite Hv. cbn. by rewrite Ht.
  - unfold q_SwapVideoOriginalIfOwner. destruct (vrows (vtabs d) !! id0) as [v|] eqn:Hv; [|by left]. case_match; [|by left].
    unfold state_in. cbn. destruct (decide (id0 = id)) as [->|Hne]; [rewrite lookup_insert_eq; cbn; rewrite Hv; by left|].
    rewrite lookup_insert_ne by done. by left.
  - unfold q_InsertVideoPasswords. case_match; [by left|]. destruct (insert_passwords id0 hashes d) as [d'|] eqn:Hi; [|by left].
    cbn. rewrite (insert_passwords_rows _ _ _ _ _ Hi). by left.
Qed.
End States.

(** ** One release of a hold *)

Section Release.
Context {B : Type} `{Backend B, !Lister B} (id : uuid).
Implicit Types (w : vworld B).

Definition held w : bool := bool_decide (state_of id w = Some VTranscoding).
Definition announced w : nat := length (filter (fun h => h = HPublish id) (vhooks w)).

(** Winning the compare-and-set, announcing, and what must not happen besides. *)
Definition won_release X (e : videoE X) : X -> bool :=
  match e in videoE X return X -> bool with
  | PublishTranscodingVideo id' => fun r => bool_decide (id' = id) && match r with Ok n => negb (n =? 0) | Err _ => false end
  | _ => fun _ => false
  end.
Definition announces X (e : videoE X) : bool :=
  match e with FireHook (HPublish id') => bool_decide (id' = id) | _ => false end.
Definition no_hold X (e : videoE X) : Prop := match e with SetVideoState id' VTranscoding => id' <> id | _ => True end.

Lemma win_closes X (e : videoE X) w :
  won_release X e (video_handler X e w).1 = true ->
  held w = true /\ held (video_handler X e w).2 = false /\ announces X e = false.
Proof.
  destruct e; cbn [won_release]; try done. intros Hw. bools. subst id0. cbn [video_handler] in *.
  destruct (on_video (q_PublishTranscodingVideo id) w).1 as [n|] eqn:Hq; [|done].
  apply on_video_ok in Hq as [Hq Hs]. unfold held. change (state_of id (on_video ?q w).2) with (state_in id (store (vdb (on_video q w).2))).
  rewrite Hs. change (state_of id w) with (state_in id (store (vdb w))).
  unfold q_PublishTranscodingVideo in *. destruct (vrows (vtabs (store (vdb w))) !! id) as [v|] eqn:Hv; [|by injection Hq as <-].
  case_bool_decide as Ht; [|by injection Hq as <-]. cbn [snd]. rewrite state_insert, decide_True by done. split_and!; [|done|done].
  apply bool_decide_eq_true_2. unfold state_in. rewrite Hv. cbn. by rewrite Ht.
Qed.

Lemma release_stays X (e : videoE X) w : no_hold X e -> held w = false -> held (video_handler X e w).2 = false.
Proof.
  intros Hn Hh. unfold held in *. apply bool_decide_eq_false in Hh. apply bool_decide_eq_false_2. intros Hst.
  destruct (state_step id X e w _ Hst) as [?|Hg]; [done|]. destruct e; cbn in Hg; try done; destruct Hg as [? Hg]; subst; try done.
  by destruct Hg.
Qed.

Lemma announced_step X (e : videoE X) w : (announced (video_handler X e w).2 <= announced w + if announces X e then 1 else 0)%nat.
Proof.
  unfold announced. destruct e; cbn [video_handler announces]; try (cbn; lia). cbn [snd vhooks]. rewrite filter_cons.
  destruct h; case_decide as Hd; simplify_eq; cbn; try lia. rewrite bool_decide_eq_true_2 by done. lia.
Qed.

(** Programs that release holds. *)
Definition releaser {A} (p : prog videoE A) : Prop := ops no_hold p /\ spender won_release announces false p.

Lemma releaser_bind {A C} (p : prog videoE A) (f : A -> prog videoE C) : releaser p -> (forall a, releaser (f a)) -> releaser (p ≫= f).
Proof. intros [H1 H2] Hf. split; [apply ops_bind; [done|apply Hf]|apply spender_bind; [done|apply Hf]]. Qed.

Lemma releaser_quiet {A} (p : prog videoE A) : ops no_hold p -> ops (fun X e => announces X e = false) p -> releaser p.
Proof. intros H1 H2. split; [done|by apply spender_ops]. Qed.

Lemma releaser_release id' : releaser (ReleaseTranscodeHold id').
Proof.
  unfold ReleaseTranscodeHold. split; [walk_ops; done|]. cbn. split; [done|]. intros [n|e]; cbn; [|done].
  destruct (n =? 0) eqn:Hn; cbn; [done|]. split; [|done]. intros ->%bool_decide_eq_true. by rewrite bool_decide_eq_true_2.
Qed.

Lemma releaser_each ids n : releaser (release_each ids n).
Proof. revert n. induction ids as [|i ids IH]; intros n; cbn [release_each]; [done|]. apply releaser_bind; [apply releaser_release|]. intros a. apply IH. Qed.

Lemma releaser_media {A} (p : prog mediaE A) : releaser (media p).
Proof.
  apply releaser_quiet; unfold media; induction p as [a|X e k IH]; cbn; done.
Qed.

Lemma releaser_call X (e : videoE X) : no_hold X e -> announces X e = false -> releaser (call e).
Proof. intros H1 H2. apply releaser_quiet; apply ops_call; done. Qed.

Lemma releaser_ret {A} (a : A) : releaser (mret a).
Proof. done. Qed.

Lemma releaser_hook id' : releaser (releaseHold id').
Proof.
  unfold releaseHold. apply releaser_bind; [apply releaser_media|]. intros l. case_match; [case_match|]; try done;
    (apply releaser_bind; [apply releaser_release|done]).
Qed.

(** The queue's programs, with their hooks wired. *)
Lemma releaser_wired {A} (p : prog mediaE A) : releaser (wired p).
Proof.
  unfold wired. induction p as [a|X e k IH]; [done|]. cbn [interp]. apply releaser_bind; [|done].
  destruct e; try (by apply releaser_call). destruct h; apply releaser_hook.
Qed.

Lemma releaser_stuck older limit : releaser (ReleaseStuckTranscodeHolds older limit).
Proof.
  unfold ReleaseStuckTranscodeHolds. apply releaser_bind; [by apply releaser_call|]. intros t.
  apply releaser_bind; [by apply releaser_call|]. intros [ids|e]; [|done]. apply releaser_bind; [apply releaser_each|done].
Qed.

(** An edit that does not ask for the hold. *)
Lemma releaser_update s ts actor id' i can : inPublishAfter i <> Some true -> releaser (UpdateForActor s ts actor id' i can).
Proof.
  intros Hf. unfold UpdateForActor.
  apply releaser_bind; [apply releaser_quiet; unfold VideoByID; walk_ops; done|]. intros [[v o]|e]; [|done]. case_match; [done|].
  apply releaser_bind; [apply releaser_quiet; unfold update_guard, HasPassword; walk_ops; done|]. intros [[]|e]; [|done].
  apply releaser_bind; [by apply releaser_call|]. intros [u|e]; [|done].
  apply releaser_bind; [apply releaser_quiet; unfold replace_tags; walk_ops; done|]. intros [[]|e]; [|done].
  apply releaser_bind; [|intros [u'|e]; [|done]; apply releaser_quiet; unfold fireUpdateHooks; walk_ops; done].
  unfold toggle_hold. destruct (inPublishAfter i) as [[]|]; [done| |done]. case_match; [|done].
  apply releaser_bind; [apply releaser_release|]. intros []; done.
Qed.

Lemma held_clock w w' : vclock w w' -> (held w = false -> held w' = false) /\ (announced w' <= announced w)%nat.
Proof. intros (m & se & _ & ->). done. Qed.
End Release.

(** The release triggers: the hook of a finished or dead transcode, the workers
    of the queue with that hook wired, the sweep of stuck holds, and edits that
    switch the hold off or leave it. *)
Inductive release_trigger (s : VideoService) (ts : TranscodeService) : prog videoE unit -> Prop :=
| trig_hook v : release_trigger s ts (releaseHold v)
| trig_worker limit : release_trigger s ts (_ ← wired (DrainJobs ts limit); mret tt)
| trig_stuck older limit : release_trigger s ts (_ ← ReleaseStuckTranscodeHolds older limit; mret tt)
| trig_edit actor v i can : inPublishAfter i <> Some true -> release_trigger s ts (_ ← UpdateForActor s ts actor v i can; mret tt).

(** A hold is released once. However many release triggers run at the same
    time, and whatever store calls fail, a video that was held is announced as
    published at most once, and a video that was not held is not announced. *)
Theorem hold_released_once {B} `{Backend B, !Lister B} (s : VideoService) (ts : TranscodeService) (id : uuid)
    (ps ps' : list (prog videoE unit)) (w w' : vworld B) :
  Forall (release_trigger s ts) ps -> rtc (pool_step video_handler vclock) (ps, w) (ps', w') ->
  (announced id w' <= announced id w + if held id w then 1 else 0)%nat.
Proof.
  intros Hps Hrun.
  apply (pool_budget video_handler (no_hold id) (won_release id) (announces id) (held id) (announced id)
    (fun _ => True)
    (fun X e w0 _ _ => I) (fun X e w0 _ _ => win_closes id X e w0) (fun X e w0 HP _ => release_stays id X e w0 HP) (fun X e w0 _ => announced_step id X e w0)
    vclock ps ps' w w' (fun a b Hab _ => conj I (held_clock id a b Hab))); [|done|exact Hrun].
  eapply Forall_impl; [exact Hps|]. intros p Hp. change (releaser id p). destruct Hp as [v|limit|older limit|actor v i can Hf].
  - apply releaser_hook.
  - apply releaser_bind; [apply releaser_wired|done].
  - apply releaser_bind; [apply releaser_stuck|done].
  - apply releaser_bind; [by apply releaser_update|done].
Qed.

(** ** Moderation *)

Section Moderation.
Context {B : Type} `{Backend B, !Lister B} (s : VideoService) (ts : TranscodeService) (sha256 : bytes -> string) (v : uuid) (n0 : nat).
Implicit Types (w : vworld B) (id : uuid).

(** The video is quarantined (or deleted), and was announced [n0] times. *)
Definition parked w : Prop := (forall st, state_of v w = Some st -> st = VQuarantined) /\ announced v w = n0.

(** Operations that keep it so whatever the store holds. *)
Definition tame X (e : videoE X) : Prop :=
  match e with
  | SetVideoState id st => id = v -> st = VQuarantined
  | CreateVideo _ => False
  | FireHook (HPublish id) => id <> v
  | _ => True
  end.

Lemma tame_step X (e : videoE X) w : tame X e -> parked w -> parked (video_handler X e w).2.
Proof.
  intros Ht [Hs Hn]. split.
  - intros st Hst. destruct (state_step v X e w st Hst) as [?|Hg]; [by apply Hs|].
    destruct e; cbn in Hg, Ht; try done; destruct Hg as [? Hg]; subst; [by apply Ht|].
    destruct Hg as [_ Ho]. specialize (Hs _ Ho). done.
  - rewrite <- Hn. unfold announced. destruct e; try done. cbn [video_handler snd vhooks]. rewrite filter_cons.
    destruct h; case_decide as Hd; simplify_eq; try done.
Qed.

Abbreviation parks := (ensures video_handler parked).

Lemma parks_tame {A} (p : prog videoE A) : ops tame p -> parks (fun _ => True) p.
Proof. apply ensures_ops. intros X e w. apply tame_step. Qed.

Lemma parks_any {A C} (p : prog videoE A) (f : A -> prog videoE C) :
  parks (fun _ => True) p -> (forall a, parks (fun _ => True) (f a)) -> parks (fun _ => True) (p ≫= f).
Proof. intros Hp Hf. by apply (ensures_bind video_handler parked (fun _ => True)). Qed.

(** What a lookup, the compare-and-set and the schedule answer about the video. *)
Lemma parks_lookup id : parks (fun r => forall row o, r = Ok (row, o) -> id = v -> vState row = VQuarantined) (VideoByID id).
Proof.
  unfold VideoByID. eapply ensures_bind; [apply (ensures_call _ _ (fun r => forall row o, r = Ok (row, o) -> id = v -> vState row = VQuarantined))|].
  - intros w Hp. split; [by apply tame_step|]. intros row o Hr ->. cbn [video_handler] in Hr. apply on_video_ok in Hr as [Hr _].
    destruct Hp as [Hs _]. apply Hs. unfold state_of. unfold q_GetVideoByID in Hr. cbn in Hr.
    destruct (vrows (vt w) !! v) as [v'|]; [|done]. destruct (owner_of _ v') as [o'|]; [|done]. case_bool_decide; [|done]. by injection Hr as -> ->.
  - intros [[row o]|e] Hr; cbn; [|done]. intros row' o' [= <- <-] Hid. exact (Hr row o eq_refl Hid).
Qed.

Lemma parks_release id : parks (fun _ => True) (ReleaseTranscodeHold id).
Proof.
  unfold ReleaseTranscodeHold.
  eapply ensures_bind; [apply (ensures_call _ _ (fun r => id = v -> forall n, r = Ok n -> n = 0))|].
  - intros w Hp. split; [by apply tame_step|]. intros -> n Hr. cbn [video_handler] in Hr. apply on_video_ok in Hr as [Hr _].
    unfold q_PublishTranscodingVideo in Hr. cbn in Hr. destruct (vrows (vt w) !! v) as [row|] eqn:Hrow; [|by injection Hr as <-].
    case_bool_decide as Ht; [|by injection Hr as <-]. destruct Hp as [Hs _]. unfold state_of in Hs. rewrite Hrow in Hs. cbn in Hs.
    specialize (Hs _ eq_refl). congruence.
  - intros [n|e] Hr; [|done]. destruct (Z.eqb_spec n 0) as [|Hn]; [done|]. apply parks_tame. split; [|done].
    cbn. intros ->. by apply Hn, Hr.
Qed.

Lemma parks_hook id : parks (fun _ => True) (releaseHold id).
Proof.
  unfold releaseHold. apply parks_any; [apply parks_tame; unfold media, LiveJob; cbn; done|].
  intros [[]|e]; [done| |]; (apply parks_any; [apply parks_release|done]).
Qed.

Lemma tame_media {A} (p : prog mediaE A) : ops tame (media p).
Proof. unfold media. induction p as [a|X e k IH]; cbn; done. Qed.

Lemma parks_media {A} (p : prog mediaE A) : parks (fun _ => True) (media p).
Proof. apply parks_tame, tame_media. Qed.

Lemma parks_wired {A} (p : prog mediaE A) : parks (fun _ => True) (wired p).
Proof.
  unfold wired. induction p as [a|X e k IH]; [done|]. cbn [interp]. apply parks_any; [|done].
  destruct e; try (by apply parks_tame). destruct h; apply parks_hook.
Qed.

Lemma parks_each ids n : parks (fun _ => True) (release_each ids n).
Proof. revert n. induction ids as [|i ids IH]; intros n; cbn [release_each]; [done|]. apply parks_any; [apply parks_release|]. intros a. apply IH. Qed.

Lemma parks_stuck older limit : parks (fun _ => True) (ReleaseStuckTranscodeHolds older limit).
Proof.
  unfold ReleaseStuckTranscodeHolds, media_call. apply parks_any; [by apply parks_tame|]. intros t.
  apply parks_any; [by apply parks_tame|]. intros [ids|e]; [|done]. apply parks_any; [apply parks_each|done].
Qed.

Lemma parks_hold id : id <> v -> parks (fun _ => True) (enterTranscodeHold s id).
Proof.
  intros Hne. unfold enterTranscodeHold. apply parks_any; [apply parks_tame; split; [by intros ->|done]|]. intros [held|e]; [|done]. case_match; [done|].
  apply parks_any; [apply parks_media|]. intros []; [done|]. apply parks_any; [apply parks_release|done].
Qed.

Lemma parks_toggle id row updated flag :
  (id = v -> vState row = VQuarantined) -> parks (fun _ => True) (toggle_hold s ts id row updated flag).
Proof.
  intros Hst. unfold toggle_hold. destruct flag as [[]|]; [| |done].
  - case_match eqn:Hc; [|done]. apply parks_any; [apply parks_tame; unfold transcodeWillRun; walk_ops; done|]. intros will.
    apply parks_any; [case_match; [apply parks_media|done]|]. intros []; [|done]. apply parks_hold. intros ->.
    specialize (Hst eq_refl). rewrite Hst in Hc. done.
  - case_match; [|done]. apply parks_any; [apply parks_release|]. intros []; done.
Qed.

Lemma parks_update actor id i can : parks (fun _ => True) (UpdateForActor s ts actor id i can).
Proof.
  unfold UpdateForActor. eapply ensures_bind; [apply parks_lookup|]. intros [[row o]|e] Hrow; [|done]. case_match; [done|].
  apply parks_any; [apply parks_tame; unfold update_guard, HasPassword; walk_ops; done|]. intros [[]|e]; [|done].
  apply parks_any; [by apply parks_tame|]. intros [u|e]; [|done].
  apply parks_any; [apply parks_tame; unfold replace_tags; walk_ops; done|]. intros [[]|e]; [|done].
  apply parks_any; [apply parks_toggle; by apply (Hrow row o)|]. intros [u'|e]; [|done].
  apply parks_tame. unfold fireUpdateHooks. walk_ops; done.
Qed.

Lemma tame_storyboard id key hint b : ops tame (storyboard_if_wanted s sha256 id key hint b).
Proof. unfold storyboard_if_wanted, GenerateStoryboard, replace_storyboard, PutSizedHashed, fireMediaReplaced, VideoByID, media_call. walk_ops; done. Qed.

Lemma parks_replace actor id i can : parks (fun _ => True) (ReplaceSource s sha256 actor id i can).
Proof.
  unfold ReplaceSource. case_match; [done|]. eapply ensures_bind; [apply parks_lookup|]. intros [[row o]|e] Hrow; [|done].
  case_match; [done|]. case_match eqn:Hst; [done|]. bools.
  assert (Hne : id <> v) by (intros ->; specialize (Hrow row o eq_refl eq_refl); congruence).
  apply parks_tame. unfold additionalExtsAllowed, PutSizedHashed, scan_replacement, audited, drop_candidate, swap_source, billStoredOriginal, media_call.
  walk_ops; try done; first [apply tame_storyboard|by intros ->].
Qed.

Lemma tame_publish id key : id <> v -> ops tame (publish s id key).
Proof.
  intros Hne. unfold publish. apply ops_bind; [split; [by intros ->|done]|]. intros [row|e]; [|done]. apply ops_bind; [|done].
  case_match; [|done]. apply ops_bind; [done|]. intros _. case_match; [|done]. apply ops_bind; [apply tame_media|done].
Qed.

Lemma parks_due limit : parks (fun _ => True) (PublishDue s limit).
Proof.
  unfold PublishDue.
  eapply ensures_bind; [apply (ensures_call _ _ (fun r => forall rows, r = Ok rows -> Forall (fun x => x.1 <> v) rows))|].
  - intros w Hp. split; [by apply tame_step|]. intros rows Hr. cbn [video_handler] in Hr. apply on_video_ok in Hr as [Hr _].
    injection Hr as <-. apply Forall_take, Forall_forall. intros [i k] Hi. cbn.
    apply list_elem_of_In, in_flat_map in Hi as ([t i'] & Ht & Hf). apply in_map_iff in Hf as (f & [= <- _] & _).
    apply list_elem_of_In in Ht. unfold rows_by in Ht. rewrite merge_sort_Permutation in Ht.
    apply list_elem_of_omap in Ht as ([i2 row] & Hin & Hd). apply elem_of_map_to_list in Hin. cbn in *.
    destruct (due _ row) as [t'|] eqn:Hdue; [|done]. injection Hd as -> ->. intros ->.
    unfold due in Hdue. destruct (vPublishAt row); [|done]. destruct (_ && _) eqn:Hb; [|done]. bools.
    destruct Hp as [Hs _]. unfold state_of in Hs. rewrite Hin in Hs. specialize (Hs _ eq_refl). congruence.
  - intros [rows|e] Hr; [|done]. specialize (Hr rows eq_refl). apply parks_tame. apply ops_bind; [|done]. generalize 0.
    induction Hr as [|[i k] rows Hi _ IH]; intros n; cbn [publish_each]; [done|]. apply ops_bind; [by apply tame_publish|]. intros a. apply IH.
Qed.

Lemma tame_release id : id <> v -> ops tame (ReleaseTranscodeHold id).
Proof. intros Hne. unfold ReleaseTranscodeHold. walk_ops; done. Qed.

Lemma tame_hold id : id <> v -> ops tame (enterTranscodeHold s id).
Proof.
  intros Hne. unfold enterTranscodeHold. apply ops_bind; [split; [by intros ->|done]|]. intros [held|e]; [|done]. case_match; [done|].
  apply ops_bind; [apply tame_media|]. intros []; [done|]. apply ops_bind; [by apply tame_release|done].
Qed.

Lemma tame_park id : ops tame (parkQuarantined id).
Proof. unfold parkQuarantined. walk_ops; done. Qed.

Lemma tame_finish id key park : id <> v -> ops tame (finish_upload s ts id key park).
Proof.
  intros Hne. unfold finish_upload. destruct park; [apply tame_park|].
  apply ops_bind; [unfold quarantine_gate; walk_ops; done|]. intros []; [apply tame_park|].
  apply ops_bind; [unfold VideoByID; walk_ops; done|]. intros g. apply ops_bind; [done|]. intros t. destruct g as [[row o]|e]; [|by apply tame_publish].
  match goal with |- ops _ (if ?b then _ else _) => destruct b end; [apply ops_bind; [split; [by intros ->|done]|done]|].
  apply ops_bind; [unfold transcodeWillRun, media_call; walk_ops; done|]. intros will. destruct (_ && vs_onTranscode s); [|by apply tame_publish].
  apply ops_bind; [apply ops_bind; [apply tame_media|done]|]. intros _. apply ops_bind; [case_match; [apply tame_media|done]|].
  intros []; [by apply tame_hold|by apply tame_publish].
Qed.

Lemma tame_process id key : id <> v -> ops tame (Process s ts sha256 id key).
Proof.
  intros Hne. unfold Process. apply ops_bind; [unfold scan_upload, audited, dropRejectedOriginal, media_call; walk_ops; done|].
  assert (Hset : forall (f : result dberr Video -> result verr processed), ops tame (call (SetVideoState id VFailed) ≫= fun r => mret (f r))).
  { intros f. apply ops_bind; [split; [by intros ->|done]|done]. }
  assert (Hrest : forall park, ops tame (p ← probe_upload s id key;
      match p with
      | Err e => mret (Err e)
      | Ok None => r ← call (SetVideoState id VFailed); mret (match r with Err e => Err (VErrDB e) | Ok v => Ok (Processed v) end)
      | Ok (Some (hint, audioOnly)) =>
          _ ← (if vs_thumbnailer s && negb audioOnly then generateThumbnail s sha256 id key hint else mret tt);
          _ ← storyboard_if_wanted s sha256 id key hint audioOnly;
          r ← finish_upload s ts id key park;
          mret (match r with Err e => Err e | Ok v => Ok (Processed v) end)
      end)).
  { intros park. apply ops_bind; [unfold probe_upload; walk_ops; done|]. intros [[[hint b]|]|e]; [|apply Hset|done].
    apply ops_bind; [unfold generateThumbnail, PutSizedHashed, media_call; walk_ops; done|]. intros _.
    apply ops_bind; [apply tame_storyboard|]. intros _. apply ops_bind; [by apply tame_finish|done]. }
  intros []; [apply Hrest|apply Hrest|apply Hset].
Qed.

Lemma tame_attach owner id i : id <> v -> ops tame (AttachOriginal s sha256 owner id i).
Proof.
  intros Hne. unfold AttachOriginal, VideoByID, additionalExtsAllowed, PutSizedHashed, billStoredOriginal, media_call.
  walk_ops; first [done|by intros ->].
Qed.
End Moderation.

(** What everyone but a moderator of this video does: edits, replacements and
    deletions of any video by anyone, uploads to other videos, the sweeps, the
    transcode workers, reads, views and passwords. *)
Inductive ordinary (s : VideoService) (ts : TranscodeService) (sha256 : bytes -> string) (v : uuid) : prog videoE unit -> Prop :=
| ord_edit actor id i can : ordinary s ts sha256 v (_ ← UpdateForActor s ts actor id i can; mret tt)
| ord_replace actor id i can : ordinary s ts sha256 v (_ ← ReplaceSource s sha256 actor id i can; mret tt)
| ord_delete actor id can : ordinary s ts sha256 v (_ ← DeleteForActor actor id can; mret tt)
| ord_prefill id title description : ordinary s ts sha256 v (_ ← PrefillMetadata id title description; mret tt)
| ord_upload owner id i key : id <> v ->
    ordinary s ts sha256 v (_ ← AttachOriginal s sha256 owner id i; _ ← Process s ts sha256 id key; mret tt)
| ord_due limit : ordinary s ts sha256 v (_ ← PublishDue s limit; mret tt)
| ord_stuck older limit : ordinary s ts sha256 v (_ ← ReleaseStuckTranscodeHolds older limit; mret tt)
| ord_hook id : ordinary s ts sha256 v (releaseHold id)
| ord_worker limit : ordinary s ts sha256 v (_ ← wired (DrainJobs ts limit); mret tt)
| ord_view id viewer authed key gate : ordinary s ts sha256 v (_ ← RecordViewGated s id viewer authed key gate; mret tt)
| ord_read id viewer authed kind : ordinary s ts sha256 v (_ ← FileForView id viewer authed kind; mret tt)
| ord_add_password owner id plain : ordinary s ts sha256 v (_ ← AddPassword owner id plain; mret tt)
| ord_delete_password owner id pid : ordinary s ts sha256 v (_ ← DeletePassword owner id pid; mret tt).


(** ** A concrete instance *)

Definition demo_videos : VideoService :=
  mkVideoService true true ScanModeFailClosed true true true true true true true true true true true true true true.

(** The scanner answers call by call; everything else works. *)
Definition demo_collaborators (scans : list (option bool)) : Collaborators := {|
  co_Scan n _ := nth n scans (Some true);
  co_Probe _ _ := Some (mkMetadata 60 1280 720 false);
  co_Thumbnail _ _ _ := Some [Byte.x10];
  co_Storyboard _ _ _ := Some ([Byte.x11], [Byte.x12]);
  co_First _ _ := Some true;
  co_Hash _ plain := Some ("#" +:+ plain);
  co_Check h plain := bool_decide (h = "#" +:+ plain);
|}.

Definition demo_row (st : vstate) (after : bool) : Video :=
  mkVideo demo_video "channel" "title" EmptyString "public" st 900 None None None None false [] EmptyString "enabled" true after None None.

Definition demo_tabs (st : vstate) (after : bool) : VTabs :=
  mkTabs {[demo_video := demo_row st after]} {["channel"%string := mkChannel "owner" None]}
    {["owner"%string := mkOwner "user" false]} ∅ ∅ ∅ ∅ ∅ ∅.

Definition demo_key : string := OriginalVideoKey demo_video 0 ".mp4".

(** The video with its original stored. *)
Definition demo_vworld (scans : list (option bool)) (moderated : bool) (st : vstate) (after : bool) : vworld LocalFS :=
  mkVWorld (mkMWorld (Faulty (demo_media ∅) [])
      (mkLocalFS (mkLocal {[split_slash demo_key := [Byte.x00]]} (list_to_set (ancestors (split_slash demo_key)))) [])
      OwnershipNotApplicable demo_transcoder 0 [] true None true)
    (demo_tabs st after) (demo_collaborators scans) 0
    (mkSettings moderated true true shippedPublishDefaults) [] [] [].

(** The digest does not matter here. *)
Definition demo_digest (_ : bytes) : string := "sum".

Lemma infected_never_published_witness :
  let w := demo_vworld [Some false] false VProcessing false in
  let out := run video_handler (Process demo_videos demo_service demo_digest demo_video demo_key) w in
  vhooks out.2 = [] /\ vState <$> vrows (vt out.2) !! demo_video = Some VFailed /\
  contents (mblobs (vmw w)) demo_key = Some [Byte.x00] /\ contents (mblobs (vmw out.2)) demo_key = None.
Proof.
  cbv zeta.
  destruct (infected_never_published demo_videos demo_service demo_digest demo_video demo_key (demo_vworld [Some false] false VProcessing false))
    as ((H1 & _) & _ & H2); [reflexivity|reflexivity|].
  destruct (H2 eq_refl (demo_row VProcessing false)) as (H3 & _ & H4); [reflexivity|].
  split_and!; [exact H1|exact H3|reflexivity|apply H4; vm_compute; reflexivity].
Defined.

(** Two completion hooks and the sweep at once. *)
Definition demo_releases : list (prog videoE unit) :=
  [releaseHold demo_video; releaseHold demo_video; (_ ← ReleaseStuckTranscodeHolds 0 10; mret tt)].

Definition demo_held : vworld LocalFS := demo_vworld [] false VTranscoding true.

Lemma hold_released_once_witness :
  let out := schedule video_handler (concat (repeat [0; 1; 2] 8))%nat demo_releases demo_held in
  (announced demo_video out.2 <= 1)%nat /\ vhooks out.2 = [HPublish demo_video] /\ Forall (fun p => p = Ret tt) out.1.
Proof.
  cbv zeta. split; [|split; [vm_compute; reflexivity|repeat constructor]].
  apply (hold_released_once demo_videos demo_service demo_video demo_releases
    (schedule video_handler (concat (repeat [0; 1; 2] 8))%nat demo_releases demo_held).1 demo_held).
  - repeat constructor.
  - rewrite <- surjective_pairing. apply schedule_pool.
Defined.

(** The owner edits, the sweeps run and a transcode finishes while the video is
    under moderation. *)
Definition demo_edit (flag : bool) : UpdateInput :=
  mkUpdateInput None (Some "new title"%string) None None None None None None None None None None None None None None (Some flag).

Definition demo_bustle : list (prog videoE unit) :=
  [(_ ← UpdateForActor demo_videos demo_service "owner" demo_video (demo_edit false) false; mret tt);
   (_ ← UpdateForActor demo_videos demo_service "owner" demo_video (demo_edit true) false; mret tt);
   (_ ← PublishDue demo_videos 10; mret tt); releaseHold demo_video;
   (_ ← ReleaseStuckTranscodeHolds 0 10; mret tt)].

Definition demo_moderated : vworld LocalFS := demo_vworld [] true VQuarantined true.

