(* ===== verification/VideoOutcome.v ===== *)
(** * Where a finished upload ends

    The decision table of [Process] on a store that answers. *)
From S2P Require Import Prelude Interleave GoStrings Queue Storage MediaKeys MediaStore Playlist Transcode VideoStore Video VideoSafety.
Local Open Scope Z_scope.

(** ** The decision table of a finished upload *)

Section Outcome.
Context {B : Type} `{Backend B, !Lister B} (s : VideoService) (ts : TranscodeService) (sha256 : bytes -> string).
Implicit Types (w : vworld B) (id : uuid).

(** Where an upload ends whose scan and probe let it through. *)
Definition settled (parked requires : bool) (se : VSettings) (now : time) (enabled : bool) (row : Video) : vstate :=
  if parked || (vs_quarantineGate s && seQuarantine se && requires) then VQuarantined
  else if match vPublishAt row with Some t => now <? t | None => false end then VScheduled
  else if vPublishAfter row && vs_transcodeWillRun s && ts_transcoder ts && enabled && vs_onTranscode s then VTranscoding
  else VPublished.

(** What the transition announces. *)
Definition announcement id (st : vstate) : list vhook :=
  match st with VPublished => [HPublish id] | VQuarantined => [HQuarantine id] | _ => [] end.

(** A job of the video is live. *)
Definition queued id w : bool := has_live id (store (mdb (vmw w))).

(** A settled store: nothing fails, the video is complete, the next job id is
    free. *)
Definition complete id row w : Prop :=
  faults (mdb (vmw w)) = [] /\ vrows (vt w) !! id = Some row /\ is_Some (mvideos (store (mdb (vmw w))) !! id) /\
  tjobs (store (mdb (vmw w))) !! next_job (store (mdb (vmw w))) = None /\
  exists o, owner_of (store (vdb w)) row = Some o /\ is_Some (vowners (vt w) !! o).

Lemma run_enqueue id key (m : mworld B) :
  faults (mdb m) = [] -> is_Some (mvideos (store (mdb m)) !! id) -> tjobs (store (mdb m)) !! next_job (store (mdb m)) = None ->
  let m' := (run media_handler (Enqueue id key) m).2 in
  faults (mdb m') = [] /\ menabled m' = menabled m /\
  has_live id (store (mdb m')) = menabled m || has_live id (store (mdb m)).
Proof.
  intros Hf [g Hg] Hfresh. destruct m as [[d fs] b own tc mc mh en sc wr]. cbn in Hf, Hg, Hfresh |- *. subst fs.
  destruct en; cbn; [|done].
  change (target_of "all") with (Some TargetAll). cbn. unfold q_EnqueueTranscodeJob. rewrite bool_decide_eq_false_2 by (by rewrite Hg). cbn.
  assert (Hbump : forall d0 : MediaDB, tjobs (q_BumpVideoTranscodeGeneration id d0).2 = tjobs d0)
    by (intros d0; unfold q_BumpVideoTranscodeGeneration; by repeat case_match).
  destruct (has_live id d) eqn:Hl; cbn; [split_and!; try done; unfold has_live in *; by rewrite Hbump|].
  rewrite bool_decide_eq_false_2 by (rewrite Hfresh; by intros [? ?]). cbn. split_and!; try done. unfold has_live. rewrite Hbump. cbn.
  eapply has_live_row_true; [apply lookup_insert_eq|done|done].
Qed.

(** The world with other tables, or another hook run. *)
Definition tabs_world (f : VTabs -> VTabs) w : vworld B :=
  mkVWorld (vmw w) (f (vt w)) (vco w) (vcalls w) (vset w) (vhooks w) (vbilled w) (vaudited w).
Definition hooked (h : vhook) w : vworld B :=
  mkVWorld (vmw w) (vt w) (vco w) (vcalls w) (vset w) (h :: vhooks w) (vbilled w) (vaudited w).

Lemma with_vdb_tabs (f : VTabs -> VTabs) w : faults (mdb (vmw w)) = [] -> with_vdb (Faulty (on_tabs f (store (vdb w))) []) w = tabs_world f w.
Proof. destruct w as [[[d fs] b own tc mc mh en sc wr] t co n se hs bl au]. cbn. by intros ->. Qed.

Lemma with_vdb_same w : faults (mdb (vmw w)) = [] -> with_vdb (Faulty (store (vdb w)) []) w = w.
Proof. destruct w as [[[d fs] b own tc mc mh en sc wr] t co n se hs bl au]. cbn. by intros ->. Qed.

Lemma set_fine id st row w :
  faults (mdb (vmw w)) = [] -> vrows (vt w) !! id = Some row ->
  video_handler _ (SetVideoState id st) w =
    (Ok (with_vstate st (mnow (store (mdb (vmw w)))) row), tabs_world (set_vrows <[id := with_vstate st (mnow (store (mdb (vmw w)))) row]>) w).
Proof.
  intros Hf Hr. cbn [video_handler]. rewrite on_video_fine by done. unfold q_SetVideoState.
  change (vrows (vtabs (store (vdb w))) !! id) with (vrows (vt w) !! id). rewrite Hr. cbn [fst snd]. by rewrite with_vdb_tabs.
Qed.

Lemma run_onTranscode id key w :
  run video_handler (onTranscode id key) w = (tt, (on_mworld (run media_handler (Enqueue id key) (vmw w)) w).2).
Proof. unfold onTranscode. by rewrite run_mbind, run_media, run_mret. Qed.

Lemma run_publish id key row w :
  complete id row w ->
  let out := run video_handler (publish s id key) w in
  vState <$> (match out.1 with Ok v => Some v | Err _ => None end) = Some VPublished /\ state_of id out.2 = Some VPublished /\
  vhooks out.2 = HPublish id :: vhooks w /\ queued id out.2 = (vs_onTranscode s && menabled (vmw w)) || queued id w.
Proof.
  intros (Hf & Hr & Hm & Hfresh & _). unfold publish. rewrite run_mbind, run_call, (set_fine id VPublished row) by done. cbn [fst snd].
  rewrite run_mbind. change (vState (with_vstate ?a ?b ?c)) with a. rewrite bool_decide_eq_true_2 by done. rewrite run_mbind, run_call.
  cbn [video_handler fst snd]. destruct (vs_onTranscode s).
  - rewrite run_onTranscode, run_mret. cbn [fst snd on_mworld].
    destruct (run_enqueue id key (vmw w) Hf Hm Hfresh) as (_ & _ & Hq). cbn [fst snd] in *.
    split_and!; try done. unfold state_of. cbn. by rewrite lookup_insert_eq.
  - rewrite !run_mret. cbn. split_and!; try done. unfold state_of. cbn. by rewrite lookup_insert_eq.
Qed.

Lemma run_park id row w :
  complete id row w ->
  let out := run video_handler (parkQuarantined id) w in
  vState <$> (match out.1 with Ok v => Some v | Err _ => None end) = Some VQuarantined /\ state_of id out.2 = Some VQuarantined /\
  vhooks out.2 = HQuarantine id :: vhooks w /\ queued id out.2 = queued id w.
Proof.
  intros (Hf & Hr & _). unfold parkQuarantined. rewrite run_mbind, run_call, (set_fine id VQuarantined row) by done. cbn.
  split_and!; try done. unfold state_of. cbn. by rewrite lookup_insert_eq.
Qed.

(** The lookup and the gate answer from the tables. *)
Lemma run_gate id row w :
  complete id row w ->
  exists requires, (q_UploadRequiresQuarantine id (store (vdb w))).1 = Ok requires /\
    run video_handler (quarantine_gate s id) w = (vs_quarantineGate s && seQuarantine (vset w) && requires, w).
Proof.
  intros (Hf & Hr & _ & _ & o & Ho & [u Hu]).
  exists (bool_decide (oRole u = "user"%string) && negb (oBypass u)).
  assert (Hq : (q_UploadRequiresQuarantine id (store (vdb w))).1 = Ok (bool_decide (oRole u = "user"%string) && negb (oBypass u))).
  { unfold q_UploadRequiresQuarantine. change (vrows (vtabs (store (vdb w)))) with (vrows (vt w)). cbn [fst]. rewrite Hr, Ho.
    change (vowners (vtabs (store (vdb w)))) with (vowners (vt w)). by rewrite Hu. }
  split; [done|]. unfold quarantine_gate. destruct (vs_quarantineGate s); [|done]. cbn [negb]. rewrite run_mbind, run_call. cbn [video_handler fst snd].
  destruct (seQuarantine (vset w)); [|done]. cbn [negb andb]. rewrite run_mbind, run_call. cbn [video_handler]. rewrite on_video_fine by done.
  cbn [fst snd]. rewrite Hq. change (q_UploadRequiresQuarantine id (store (vdb w))).2 with (store (vdb w)). by rewrite with_vdb_same.
Qed.

Lemma run_live id w : faults (mdb (vmw w)) = [] -> run video_handler (hasLiveTranscodeJob id) w = (queued id w, w).
Proof.
  intros Hf. unfold hasLiveTranscodeJob. rewrite run_media. unfold HasLiveJob. rewrite run_mbind, run_call, run_mret. cbn [media_handler].
  rewrite on_media_fine by done. cbn. f_equal. destruct w as [[[d fs] b own tc mc mh en sc wr] t co n se hs bl au]. cbn in *. by subst fs.
Qed.

Lemma run_hold id row w :
  faults (mdb (vmw w)) = [] -> vrows (vt w) !! id = Some row -> queued id w = true ->
  let out := run video_handler (enterTranscodeHold s id) w in
  vState <$> (match out.1 with Ok v => Some v | Err _ => None end) = Some VTranscoding /\ state_of id out.2 = Some VTranscoding /\
  vhooks out.2 = vhooks w /\ queued id out.2 = true.
Proof.
  intros Hf Hr Hq. unfold enterTranscodeHold. rewrite run_mbind, run_call, (set_fine id VTranscoding row) by done. cbn [fst snd].
  assert (Hst : state_of id (tabs_world (set_vrows <[id := with_vstate VTranscoding (mnow (store (mdb (vmw w)))) row]>) w) = Some VTranscoding)
    by (unfold state_of; cbn; by rewrite lookup_insert_eq).
  destruct (vs_hasLiveJob s); cbn [negb]; [|rewrite run_mret; cbn; done].
  rewrite run_mbind, run_live by done. cbn [fst snd]. change (queued id (tabs_world ?f w)) with (queued id w). rewrite Hq. done.
Qed.

Lemma run_now w : run video_handler (media_call MNow) w = (mnow (store (mdb (vmw w))), w).
Proof. by destruct w. Qed.

Lemma run_will w : run video_handler (transcodeWillRun ts) w = (ts_transcoder ts && menabled (vmw w), w).
Proof. unfold transcodeWillRun. destruct w, (ts_transcoder ts); done. Qed.

Lemma run_finish id key park row w requires :
  complete id row w -> (q_UploadRequiresQuarantine id (store (vdb w))).1 = Ok requires ->
  let out := run video_handler (finish_upload s ts id key park) w in
  let st := settled park requires (vset w) (mnow (store (mdb (vmw w)))) (menabled (vmw w)) row in
  vState <$> (match out.1 with Ok v => Some v | Err _ => None end) = Some st /\ state_of id out.2 = Some st /\
  vhooks out.2 = announcement id st ++ vhooks w /\
  (st = VTranscoding \/ (st = VPublished /\ vs_onTranscode s && menabled (vmw w) = true) -> queued id out.2 = true).
Proof.
  intros Hc Hreq. cbv zeta. unfold finish_upload, settled. destruct park; cbn [orb].
  { destruct (run_park id row w Hc) as (A1 & A2 & A3 & A4). split_and!; try done. by intros [|[? _]]. }
  destruct (run_gate id row w Hc) as (req & Hq & Hg). assert (req = requires) as -> by congruence. rewrite run_mbind, Hg. cbn [fst snd].
  destruct (vs_quarantineGate s && seQuarantine (vset w) && requires).
  { destruct (run_park id row w Hc) as (A1 & A2 & A3 & A4). split_and!; try done. by intros [|[? _]]. }
  pose proof Hc as (Hf & Hr & Hm & Hfresh & o & Ho & Hu). rewrite run_mbind, (run_VideoByID_fine id w row o) by done. cbn [fst snd].
  rewrite run_mbind, run_now. cbn [fst snd].
  destruct (match vPublishAt row with Some at_ => _ | None => false end).
  { rewrite run_mbind, run_call, (set_fine id VScheduled row) by done. cbn. split_and!; try done; [|by intros [|[]]].
    unfold state_of. cbn. by rewrite lookup_insert_eq. }
  assert (Hplain : let out := run video_handler (publish s id key) w in
    vState <$> (match out.1 with Ok v => Some v | Err _ => None end) = Some VPublished /\ state_of id out.2 = Some VPublished /\
    vhooks out.2 = announcement id VPublished ++ vhooks w /\
    (VPublished = VTranscoding \/ (VPublished = VPublished /\ vs_onTranscode s && menabled (vmw w) = true) -> queued id out.2 = true)).
  { destruct (run_publish id key row w Hc) as (A1 & A2 & A3 & A4). cbv zeta. split_and!; try done.
    intros [|[_ He]]; [done|]. rewrite A4, He. done. }
  rewrite run_mbind. destruct (vPublishAfter row && vs_transcodeWillRun s) eqn:Hflag; cbn [andb].
  2:{ rewrite run_mret. cbn [fst snd andb]. exact Hplain. }
  rewrite run_will. cbn [fst snd]. destruct (ts_transcoder ts); cbn [andb]; [|exact Hplain].
  destruct (menabled (vmw w)) eqn:Hen; cbn [andb]; [|exact Hplain]. destruct (vs_onTranscode s); cbn [andb]; [|exact Hplain].
  rewrite run_mbind, run_onTranscode. cbn [fst snd].
  destruct (run_enqueue id key (vmw w) Hf Hm Hfresh) as (F1 & F2 & F3). rewrite Hen in F3. cbn [orb] in F3.
  set (w1 := (on_mworld (run media_handler (Enqueue id key) (vmw w)) w).2). change (mdb (run media_handler (Enqueue id key) (vmw w)).2) with (mdb (vmw w1)) in *.
  rewrite run_mbind.
  assert (Hlive : run video_handler (if vs_hasLiveJob s then hasLiveTranscodeJob id else mret true) w1 = (true, w1)).
  { destruct (vs_hasLiveJob s); [|done]. rewrite run_live by done. unfold queued. by rewrite F3. }
  rewrite Hlive. cbn [fst snd]. destruct (run_hold id row w1) as (A1 & A2 & A3 & A4); [done|done|done|]. split_and!; done.
Qed.

(** *** Up to the holds *)

(** What scanning, probing and the poster and storyboard leave alone. *)
Definition aside w w' : Prop :=
  vrows (vt w') = vrows (vt w) /\ vchannels (vt w') = vchannels (vt w) /\ vowners (vt w') = vowners (vt w) /\
  (faults (mdb (vmw w)) = [] -> faults (mdb (vmw w')) = []) /\
  mvideos (store (mdb (vmw w'))) = mvideos (store (mdb (vmw w))) /\ tjobs (store (mdb (vmw w'))) = tjobs (store (mdb (vmw w))) /\
  next_job (store (mdb (vmw w'))) = next_job (store (mdb (vmw w))) /\ mnow (store (mdb (vmw w'))) = mnow (store (mdb (vmw w))) /\
  menabled (vmw w') = menabled (vmw w) /\ vset w' = vset w /\ vco w' = vco w /\
  exists l, vhooks w' = l ++ vhooks w /\ Forall (fun h => exists v kind, h = HMediaReplaced v kind) l.

#[local] Instance aside_preorder : PreOrder aside.
Proof.
  split; [intros w; split_and!; try done; by exists []|].
  intros x y z (A1 & A2 & A3 & A4 & A5 & A6 & A7 & A8 & A9 & A10 & A11 & l & Hl & Fl) (B1 & B2 & B3 & B4 & B5 & B6 & B7 & B8 & B9 & B10 & B11 & m & Hm & Fm).
  split_and!; try congruence; [auto|]. exists (m ++ l). rewrite Hm, Hl, app_assoc. split; [done|by apply Forall_app].
Qed.

(** By the databases alone. *)
Lemma aside_stmt {A} (q : VideoDB -> result dberr A * VideoDB) w :
  (forall d, vrows (vtabs (q d).2) = vrows (vtabs d) /\ vchannels (vtabs (q d).2) = vchannels (vtabs d) /\
     vowners (vtabs (q d).2) = vowners (vtabs d) /\ vmedia (q d).2 = vmedia d) ->
  aside w (on_video q w).2.
Proof.
  intros Hq. destruct (Hq (store (vdb w))) as (Q1 & Q2 & Q3 & Q4).
  assert (Hf : faults (mdb (vmw w)) = [] -> faults (mdb (vmw (on_video q w).2)) = []) by (intros Hf; by rewrite on_video_fine).
  assert (E : (forall d, d = store (vdb (on_video q w).2) -> vrows (vtabs d) = vrows (vt w) /\ vchannels (vtabs d) = vchannels (vt w) /\
    vowners (vtabs d) = vowners (vt w) /\ vmedia d = store (mdb (vmw w)))).
  { intros d ->. by destruct (on_video_store q w) as [E|E]; rewrite E. }
  destruct (E _ eq_refl) as (E1 & E2 & E3 & E4). change (vmedia (store (vdb ?x))) with (store (mdb (vmw x))) in E4.
  split_and!; try done; try (by rewrite E4); by exists [].
Qed.

Lemma aside_media {A} (q : MediaDB -> result dberr A * MediaDB) w :
  (forall d, mvideos (q d).2 = mvideos d /\ tjobs (q d).2 = tjobs d /\ next_job (q d).2 = next_job d /\ mnow (q d).2 = mnow d) ->
  aside w (on_mworld (on_media q (vmw w)) w).2.
Proof.
  intros Hq.
  pose proof (on_media_invariant q (fun d => mvideos d = mvideos (store (mdb (vmw w))) /\ tjobs d = tjobs (store (mdb (vmw w))) /\
    next_job d = next_job (store (mdb (vmw w))) /\ mnow d = mnow (store (mdb (vmw w)))) (vmw w)) as (H1 & H2 & H3 & H4); [|done|].
  { intros d (D1 & D2 & D3 & D4). destruct (Hq d) as (Q1 & Q2 & Q3 & Q4). split_and!; congruence. }
  split_and!; try done; [|by exists []]. intros Hf. cbn [on_mworld snd vmw]. by rewrite on_media_fine.
Qed.

Definition off_to_the_side X (e : videoE X) : Prop :=
  match e with
  | Scan _ | ProbeFile _ | Thumbnail _ _ | Storyboard _ _ | Audit _ | Settings | UpsertVideoMetadata _ _ | GetVideoByID _
  | FireHook (HMediaReplaced _ _) | VMedia (ObjPut _ _) | VMedia (ObjDelete _) | VMedia (CreateVideoFile _)
  | VMedia (DeleteVideoFilesByVideoAndKind _ _) => True
  | _ => False
  end.

Lemma aside_step X (e : videoE X) w : off_to_the_side X e -> aside w (video_handler X e w).2.
Proof.
  destruct e; cbn [off_to_the_side]; try done; try (intros _; split_and!; try done; by exists []).
  - destruct e; try done; intros _.
    + apply aside_media. intros d. unfold q_CreateVideoFile. by case_match.
    + by apply aside_media.
    + split_and!; try done; by exists [].
    + split_and!; try done; by exists [].
  - intros _. by apply aside_stmt.
  - intros _. apply aside_stmt. intros d. unfold q_UpsertVideoMetadata. by case_match.
  - destruct h; try done. intros _. split_and!; try done. exists [HMediaReplaced v kind]. split; [done|]. repeat constructor. by eexists _, _.
Qed.

Lemma complete_aside id row w w' : complete id row w -> aside w w' -> complete id row w'.
Proof.
  intros (C1 & C2 & C3 & C4 & o & Ho & Hu) (A1 & A2 & A3 & A4 & A5 & A6 & A7 & _). unfold complete.
  split_and!; [auto|congruence|congruence|congruence|]. exists o. rewrite A3. split; [|done].
  unfold owner_of in *. cbn in *. by rewrite A2.
Qed.

(** What scan and probe answer of the upload, in the order they are asked. *)
Definition scan_answer key w : option bool := if vs_scanner s then co_Scan (vco w) (vcalls w) key else Some true.
Definition is_media key w : bool :=
  if vs_prober s then bool_decide (is_Some (co_Probe (vco w) (if vs_scanner s then S (vcalls w) else vcalls w) key)) else true.

(** The reference: the state of the video and whether it was rejected. *)
Definition upload_outcome (scan : option bool) (media : bool) (through : bool -> vstate) : vstate * option string :=
  match scan with
  | Some false => (VFailed, Some "infected"%string)
  | None =>
      match vs_scanMode s with
      | ScanModeFailOpen => (if media then through false else VFailed, None)
      | ScanModeQuarantine => (if media then through true else VFailed, None)
      | _ => (VFailed, Some "scan_error"%string)
      end
  | Some true => (if media then through false else VFailed, None)
  end.

Definition verdict_of (scan : option bool) : scan_verdict :=
  match scan with
  | Some true => ScanPass
  | Some false => ScanFail "infected"
  | None => match vs_scanMode s with ScanModeFailOpen => ScanPass | ScanModeQuarantine => ScanPark | _ => ScanFail "scan_error" end
  end.

Lemma run_scan_upload id key w :
  let out := run video_handler (scan_upload s id key) w in
  out.1 = verdict_of (scan_answer key w) /\ aside w out.2 /\ vcalls out.2 = (if vs_scanner s then S (vcalls w) else vcalls w).
Proof.
  cbv zeta. split_and!.
  - unfold scan_upload, scan_answer, audited, verdict_of. destruct (vs_scanner s); [|done]. cbn [negb]. rewrite run_mbind, run_call.
    cbn [video_handler asked fst snd]. destruct (co_Scan _ _ _) as [[]|]; [done| |]; [|destruct (vs_scanMode s)]; rewrite !run_mbind, run_mret; done.
  - apply (run_rel video_handler off_to_the_side aside aside_step). unfold scan_upload, audited, dropRejectedOriginal, media_call. walk_ops; done.
  - unfold scan_upload, audited, dropRejectedOriginal, media_call. destruct (vs_scanner s); [|done]. cbn [negb].
    rewrite run_mbind, run_call. cbn [video_handler asked fst snd].
    destruct (co_Scan _ _ _) as [[]|]; [done| |]; [destruct (vs_auditor s), (vs_blobs s)|destruct (vs_scanMode s), (vs_auditor s)]; done.
Qed.

Lemma run_probe id key w row :
  complete id row w ->
  let out := run video_handler (probe_upload s id key) w in
  aside w out.2 /\
  (if vs_prober s then bool_decide (is_Some (co_Probe (vco w) (vcalls w) key)) else true) =
    match out.1 with Ok (Some _) => true | _ => false end /\
  (forall e, out.1 <> Err e).
Proof.
  intros (Hf & Hr & _). cbv zeta. split; [|unfold probe_upload; destruct (vs_prober s); [|done]].
  - apply (run_rel video_handler off_to_the_side aside aside_step). unfold probe_upload. walk_ops; done.
  - cbn [negb]. rewrite run_mbind, run_call. cbn [video_handler asked fst snd].
    destruct (co_Probe (vco w) (vcalls w) key) as [md|]; [|done]. rewrite run_mbind, run_call, run_mret. cbn [video_handler fst snd].
    rewrite on_video_fine by done. unfold q_UpsertVideoMetadata. cbn. by rewrite bool_decide_eq_false_2 by (by rewrite Hr).
Qed.

Lemma run_failed id row w {A} (f : Video -> A) :
  complete id row w ->
  let out := run video_handler (r ← call (SetVideoState id VFailed); mret (match r with Err e => Err (VErrDB e) | Ok v => Ok (f v) end)) w in
  (exists v, out.1 = Ok (f v) /\ vState v = VFailed) /\ state_of id out.2 = Some VFailed /\ vhooks out.2 = vhooks w.
Proof.
  intros (Hf & Hr & _). cbv zeta. rewrite run_mbind, run_call, run_mret, (set_fine id VFailed row) by done. cbn [fst snd].
  split_and!; [by eexists|unfold state_of; cbn; by rewrite lookup_insert_eq|done].
Qed.

(** The hooks a step to the side may have run before an announcement. *)
Lemma hooks_aside id st w w1 w2 :
  aside w w1 -> vhooks w2 = announcement id st ++ vhooks w1 ->
  exists l, vhooks w2 = announcement id st ++ l ++ vhooks w /\ Forall (fun h => exists v kind, h = HMediaReplaced v kind) l.
Proof. intros (_ & _ & _ & _ & _ & _ & _ & _ & _ & _ & _ & l & Hl & Fl) ->. exists l. by rewrite Hl. Qed.

(** Where the gates lead from this store. *)
Definition through id row w (park : bool) : vstate :=
  settled park (match (q_UploadRequiresQuarantine id (store (vdb w))).1 with Ok b => b | Err _ => true end) (vset w)
    (mnow (store (mdb (vmw w)))) (menabled (vmw w)) row.

Lemma through_aside id row w w' park : aside w w' -> through id row w' park = through id row w park.
Proof.
  intros (A1 & A2 & A3 & _ & _ & _ & _ & A8 & A9 & A10 & _). unfold through. rewrite A8, A9, A10. f_equal.
  unfold q_UploadRequiresQuarantine, owner_of. cbn. by rewrite A1, A2, A3.
Qed.

(** What [Process] reports, shows and announces of an outcome. *)
Definition reported id (st : vstate) (rejected : option string) w (out : result verr processed * vworld B) : Prop :=
  (exists v, out.1 = Ok (match rejected with Some o => Rejected v o | None => Processed v end) /\ vState v = st) /\
  state_of id out.2 = Some st /\
  (exists l, vhooks out.2 = announcement id st ++ l ++ vhooks w /\ Forall (fun h => exists v kind, h = HMediaReplaced v kind) l) /\
  (st = VTranscoding \/ st = VPublished /\ vs_onTranscode s && menabled (vmw w) = true -> queued id out.2 = true).

Lemma reported_failed id row w w1 (f : Video -> processed) rejected :
  complete id row w -> aside w w1 -> (forall v, f v = match rejected with Some o => Rejected v o | None => Processed v end) ->
  reported id VFailed rejected w
    (run video_handler (r ← call (SetVideoState id VFailed); mret (match r with Err e => Err (VErrDB e) | Ok v => Ok (f v) end)) w1).
Proof.
  intros Hc Ha Hfv. destruct (run_failed id row w1 f (complete_aside id row w w1 Hc Ha)) as ((v & H1 & H2) & H3 & H4).
  split_and!; [exists v; by rewrite H1, Hfv|done|by apply (hooks_aside id VFailed w w1)|by intros [|[]]].
Qed.

Lemma run_tail id key row w w1 park hint audio :
  complete id row w -> aside w w1 ->
  reported id (through id row w park) None w (run video_handler
    (_ ← (if vs_thumbnailer s && negb audio then generateThumbnail s sha256 id key hint else mret tt);
     _ ← storyboard_if_wanted s sha256 id key hint audio;
     r ← finish_upload s ts id key park;
     mret (match r with Err e => Err e | Ok v => Ok (Processed v) end)) w1).
Proof.
  intros Hc Ha. rewrite !run_mbind. set (w3 := (run video_handler (storyboard_if_wanted _ _ _ _ _ _) _).2).
  assert (H3 : aside w w3).
  { etrans; [exact Ha|]. etrans; [|apply (run_rel video_handler off_to_the_side aside aside_step)].
    - apply (run_rel video_handler off_to_the_side aside aside_step). unfold generateThumbnail, PutSizedHashed, media_call. walk_ops; done.
    - unfold storyboard_if_wanted, GenerateStoryboard, replace_storyboard, PutSizedHashed, fireMediaReplaced, VideoByID, media_call. walk_ops; done. }
  clearbody w3. pose proof (complete_aside _ _ _ _ Hc H3) as Hc3. destruct (run_gate id row w3 Hc3) as (req & Hreq & _).
  destruct (run_finish id key park row w3 req Hc3 Hreq) as (F1 & F2 & F3 & F4).
  replace (settled _ _ _ _ _ _) with (through id row w3 park) in F1, F2, F3, F4 by (unfold through; by rewrite Hreq).
  rewrite through_aside with (w := w) in F1, F2, F3, F4 by done. rewrite run_mret.
  replace (menabled (vmw w3)) with (menabled (vmw w)) in F4 by (symmetry; apply H3).
  destruct (run video_handler (finish_upload s ts id key park) w3) as [[v|e] w4]; cbn in *; [|done]. injection F1 as F1.
  split_and!; [by exists v|done|by apply (hooks_aside id _ w w3)|done].
Qed.

(** C12. The decision table of a finished upload. When the store answers,
    [Process] is the reference [upload_outcome]: an infected file fails and is
    reported rejected; an unanswered scan fails the video, lets it through or
    parks it as the scan mode says; a file the prober does not read fails; the
    rest is quarantined when moderation is on and the owner neither privileged
    nor trusted, else scheduled when its time has not come, else held when it
    waits for its transcode and one will run, else published. The video has
    that state, the caller is told it, publication or quarantine is announced
    exactly once and nothing else is, and a held video (and a published one,
    with transcoding on) has a live transcode job. *)
Theorem process_outcome id key row w :
  complete id row w ->
  let '(st, rejected) := upload_outcome (scan_answer key w) (is_media key w) (through id row w) in
  reported id st rejected w (run video_handler (Process s ts sha256 id key) w).
Proof.
  intros Hc. destruct (run_scan_upload id key w) as (S1 & S2 & S3). unfold Process. rewrite run_mbind, S1.
  set (w1 := (run video_handler (scan_upload s id key) w).2) in *. clearbody w1.
  assert (Hfail : forall o, reported id VFailed (Some o) w (run video_handler
    (r ← call (SetVideoState id VFailed); mret (match r with Err e => Err (VErrDB e) | Ok v => Ok (Rejected v o) end)) w1))
    by (intros o; by eapply reported_failed).
  destruct (run_probe id key w1 row (complete_aside _ _ _ _ Hc S2)) as (P1 & P2 & P3).
  rewrite S3 in P2. replace (vco w1) with (vco w) in P2 by (symmetry; apply S2). change (if vs_prober s then _ else _) with (is_media key w) in P2.
  assert (Hon : forall park, reported id (if is_media key w then through id row w park else VFailed) None w (run video_handler
    (p ← probe_upload s id key;
     match p with
     | Err e => mret (Err e)
     | Ok None => r ← call (SetVideoState id VFailed); mret (match r with Err e => Err (VErrDB e) | Ok v => Ok (Processed v) end)
     | Ok (Some (hint, audioOnly)) =>
         _ ← (if vs_thumbnailer s && negb audioOnly then generateThumbnail s sha256 id key hint else mret tt);
         _ ← storyboard_if_wanted s sha256 id key hint audioOnly;
         r ← finish_upload s ts id key park;
         mret (match r with Err e => Err e | Ok v => Ok (Processed v) end)
     end) w1)).
  { intros park. rewrite run_mbind. destruct (run video_handler (probe_upload s id key) w1) as [[[[hint audio]|]|e] w2] eqn:Hp; cbn [fst snd] in *;
      [rewrite P2; eapply run_tail|rewrite P2; by eapply reported_failed; [|etrans|]|by destruct (P3 e)]; [done|by etrans]. }
  unfold upload_outcome, verdict_of. destruct (scan_answer key w) as [[]|]; [apply (Hon false)|apply Hfail|].
  destruct (vs_scanMode s); [apply Hfail|apply (Hon false)|apply (Hon true)|apply Hfail].
Qed.
End Outcome.

(** An unanswered scan under the quarantine mode, a moderated upload of an
    ordinary account, and one that waits for its transcode. *)
Definition demo_lenient : VideoService :=
  mkVideoService true true ScanModeQuarantine true true true true true true true true true true true true true true.

Lemma process_outcome_witness :
  let w := demo_vworld [None] false VProcessing false in
  let w1 := demo_vworld [] true VProcessing false in
  let w2 := demo_vworld [] false VProcessing true in
  state_of demo_video (run video_handler (Process demo_lenient demo_service demo_digest demo_video demo_key) w).2 = Some VQuarantined /\
  state_of demo_video (run video_handler (Process demo_videos demo_service demo_digest demo_video demo_key) w1).2 = Some VQuarantined /\
  state_of demo_video (run video_handler (Process demo_videos demo_service demo_digest demo_video demo_key) w2).2 = Some VTranscoding /\
  queued demo_video (run video_handler (Process demo_videos demo_service demo_digest demo_video demo_key) w2).2 = true.
Proof.
  assert (Hc : forall scans m after, complete demo_video (demo_row VProcessing after) (demo_vworld scans m VProcessing after)).
  { intros scans m after. split_and!; [reflexivity|reflexivity|by exists 1|reflexivity|exists "owner"%string; split; [reflexivity|by eexists]]. }
  cbv zeta.
  pose proof (process_outcome demo_lenient demo_service demo_digest demo_video demo_key (demo_row VProcessing false)
    (demo_vworld [None] false VProcessing false) (Hc _ _ _)) as (_ & H1 & _).
  pose proof (process_outcome demo_videos demo_service demo_digest demo_video demo_key (demo_row VProcessing false)
    (demo_vworld [] true VProcessing false) (Hc _ _ _)) as (_ & H2 & _).
  pose proof (process_outcome demo_videos demo_service demo_digest demo_video demo_key (demo_row VProcessing true)
    (demo_vworld [] false VProcessing true) (Hc _ _ _)) as (_ & H3 & _ & H4).
  split_and!; [exact H1|exact H2|exact H3|]. apply H4. left. reflexivity.
Defined.
