(* ===== verification/VideoSource.v ===== *)
(** * Replacement of a video's source, and who may change a video

    A replacement never touches the served source whatever fails, and goes live
    only after scan and probe passed it; two at the same time share a key and
    can lose it. Nobody but the owner or a manager changes a video. *)
From S2P Require Import Prelude Interleave GoStrings Queue Storage MediaKeys MediaStore Playlist Transcode VideoStore Video VideoSafety.
Local Open Scope Z_scope.

(** ** Lemmas: keys *)

(** The name of an original below "web-videos". *)
Definition original_name (id : uuid) (v : Z) (ext : string) : string :=
  if v <=? 0 then id +:+ ext else id +:+ "." +:+ HLSGenerationName v +:+ ext.

Lemma original_name_clean id v ext : plain id = true -> good_ext ext -> clean_seg (original_name id v ext) = true.
Proof.
  intros Hid (e & -> & Hne & He). unfold plain in Hid. bools.
  assert (Hc : forall c, plain_char c = false -> is_alnum c = false -> c <> dot -> contains c (original_name id v (String dot e)) = false).
  { intros c Hp Ha Hd. assert (He' : contains c (String dot e) = false)
      by (cbn; rewrite bool_decide_eq_false_2 by done; by apply alnum_contains).
    assert (Hd' : contains c "." = false) by (cbn; by rewrite bool_decide_eq_false_2).
    unfold original_name. destruct (v <=? 0); rewrite !contains_app, He', (plain_contains c id) by done; [done|].
    by rewrite Hd', plain_contains by (done || apply generation_name_plain). }
  unfold clean_seg. rewrite !Hc by done.
  destruct id as [|c id]; [done|]. cbn in *. bools. assert (Hcd : c <> dot) by (intros ->; done).
  unfold original_name. destruct (v <=? 0); cbn [String.append]; rewrite !bool_decide_eq_false_2 by (intros [= ?]; by destruct Hcd); done.
Qed.

Lemma original_canonical id v ext : plain id = true -> good_ext ext -> canonical (OriginalVideoKey id v ext) = true.
Proof.
  intros Hid He. replace (OriginalVideoKey id v ext) with (join_slash ["web-videos"%string; original_name id v ext])
    by (unfold OriginalVideoKey, original_name; by destruct (v <=? 0)).
  apply canonical_clean; [|done]. repeat constructor. by apply original_name_clean.
Qed.

Lemma original_not_storyboard id v ext : OriginalVideoKey id v ext <> StoryboardKeyJPG id /\ OriginalVideoKey id v ext <> StoryboardKeyVTT id.
Proof. unfold OriginalVideoKey. by destruct (v <=? 0). Qed.

(** The accepted extensions are extensions. *)
Lemma accepted_good filename additional ext : AcceptedVideoExtGated filename additional = Some ext -> good_ext ext.
Proof.
  unfold AcceptedVideoExtGated. case_match eqn:Hin; [|done]. intros [= <-].
  assert (Hall : Forall good_ext (baseVideoExts ++ additionalVideoExts)) by (repeat constructor; by eexists).
  rewrite Forall_forall in Hall. apply Hall, elem_of_app. apply orb_true_iff in Hin as [Hin|Hin]; bools; [by left|by right].
Qed.

Lemma upload_ext_good filename contentType additional ext : upload_ext filename contentType additional = Some ext -> good_ext ext.
Proof.
  unfold upload_ext. destruct (AcceptedVideoExtGated filename additional) as [e|] eqn:He; [intros [= <-]; by eapply accepted_good|].
  destruct (extForContentType contentType); [apply accepted_good|done].
Qed.

(** ** Replacement *)

Section Replacement.
Context {B : Type} `{BackendLaws B, !Lister B} (s : VideoService) (sha256 : bytes -> string) (id : uuid).
Implicit Types (w : vworld B).

(** The recorded originals of the video, oldest first. *)
Definition originals w : list VideoFile :=
  filter (fun f => vfVideo f = id /\ vfKind f = "original"%string) (mfiles (store (mdb (vmw w)))).

(** The originals are the same, and so is every stored object of [ks]. *)
Definition spared (ks : string -> Prop) w w' : Prop :=
  originals w' = originals w /\ (forall k, canonical k = true -> ks k -> contents (mblobs (vmw w')) k = contents (mblobs (vmw w)) k) /\
  vco w' = vco w.

#[local] Instance spared_preorder ks : PreOrder (spared ks).
Proof.
  split; [done|]. intros x y z (A1 & A2 & A3) (B1 & B2 & B3).
  split_and!; [congruence| |congruence]. intros k Hc Hk. by rewrite B2, A2.
Qed.

(** Operations that spare them: nothing is written or removed at a key of [ks],
    and no original is recorded or dropped. *)
Definition sparing (ks : string -> Prop) X (e : videoE X) : Prop :=
  match e with
  | VMedia (ObjPut k _) | VMedia (ObjDelete k) => canonical k = true /\ ~ ks k
  | VMedia (CreateVideoFile f) => vfKind f <> "original"%string
  | VMedia (DeleteVideoFilesByVideoAndKind _ kind) => kind <> "original"%string
  | VMedia _ | CreateVideo _ | DeleteVideo _ | SwapVideoOriginalIfOwner _ _ _ | InsertVideoPassword _ _ | InsertVideoPasswords _ _ => False
  | _ => True
  end.

(** Statements that leave the media tables alone. *)
Lemma spared_stmt {A} ks (q : VideoDB -> result dberr A * VideoDB) w :
  (forall d, vmedia (q d).2 = vmedia d) -> spared ks w (on_video q w).2.
Proof.
  intros Hq. split_and!; try done. unfold originals.
  change (store (mdb (vmw ?x))) with (vmedia (store (vdb x))).
  by destruct (on_video_store q w) as [E|E]; rewrite E, ?Hq.
Qed.

Lemma spared_media {A} ks (q : MediaDB -> result dberr A * MediaDB) w :
  (forall d, filter (fun f => vfVideo f = id /\ vfKind f = "original"%string) (mfiles (q d).2) =
             filter (fun f => vfVideo f = id /\ vfKind f = "original"%string) (mfiles d)) ->
  spared ks w (on_mworld (on_media q (vmw w)) w).2.
Proof.
  intros Hq. split_and!; try done. unfold originals. cbn [on_mworld snd vmw].
  apply (on_media_invariant q (fun d => filter (fun f => vfVideo f = id /\ vfKind f = "original"%string) (mfiles d) = originals w)); [|done].
  intros d Hd. by rewrite Hq.
Qed.

Lemma spared_step ks X (e : videoE X) w : sparing ks X e -> spared ks w (video_handler X e w).2.
Proof.
  destruct e; cbn [sparing]; try done; intros He; try (by split_and!).
  1: { destruct e; try done.
    - apply spared_media. intros d. unfold q_CreateVideoFile. case_match; [done|]. cbn. rewrite filter_app, filter_cons, decide_False, app_nil_r; [done|].
      by intros [_ ?].
    - apply spared_media. intros d. cbn. rewrite list_filter_filter. apply list_filter_iff. intros f. split; [by intros [? _]|].
      intros [Hv Hk]. split; [done|]. intros [_ ?]. congruence.
    - destruct He as [Hc Hk]. split_and!; try done. intros k Hck Hks. cbn. apply put_frame; try done. by intros ->.
    - destruct He as [Hc Hk]. split_and!; try done. intros k Hck Hks. cbn. apply delete_frame; try done. by intros ->. }
  all: apply spared_stmt; intros d; unfold q_UpdateVideo, q_SetVideoState, q_RecordVideoRejection, q_PublishTranscodingVideo,
    q_InsertVideoTags, q_UpsertVideoMetadata, q_IncrementVideoViews, q_IncrementVideoViewDay, q_DeleteVideoPassword; cbv zeta; by repeat case_match.
Qed.

Lemma run_spares {A} ks (p : prog videoE A) w : ops (sparing ks) p -> spared ks w (run video_handler p w).2.
Proof. apply (run_rel video_handler (sparing ks) (spared ks) (spared_step ks)). Qed.

(** Neither sheet of the storyboard is an original. *)
Definition not_storyboard (k : string) : Prop := k <> StoryboardKeyJPG id /\ k <> StoryboardKeyVTT id.

Lemma storyboard_spares key hint audio : plain id = true -> ops (sparing not_storyboard) (storyboard_if_wanted s sha256 id key hint audio).
Proof.
  intros Hid.
  assert (Hc : forall k, k = StoryboardKeyJPG id \/ k = StoryboardKeyVTT id -> canonical k = true /\ ~ not_storyboard k).
  { assert (Hn : forall x, good_ext x -> canonical ("storyboards/" +:+ id +:+ x) = true).
    { intros x Hx. apply (canonical_clean ["storyboards"%string; id +:+ x]); [|done]. repeat constructor. by apply (original_name_clean id 0 x). }
    intros k [->| ->]; (split; [apply Hn; by eexists|intros [? ?]; done]). }
  unfold storyboard_if_wanted, GenerateStoryboard, replace_storyboard, PutSizedHashed, fireMediaReplaced, VideoByID, media_call.
  walk_ops; try done; apply Hc; auto.
Qed.

(** Where the video is left: with [f0], or with [f] and its bytes, and the bytes
    of [f0] as they were. *)
Definition kept (f0 f : VideoFile) (content : bytes) w w' : Prop :=
  contents (mblobs (vmw w')) (vfKey f0) = contents (mblobs (vmw w)) (vfKey f0) /\
  (originals w' = [f0] \/ originals w' = [f] /\ contents (mblobs (vmw w')) (vfKey f) = Some content).

Lemma kept_spared f0 f content w w1 w2 (ks : string -> Prop) :
  canonical (vfKey f0) = true -> canonical (vfKey f) = true -> ks (vfKey f0) -> ks (vfKey f) ->
  kept f0 f content w w1 -> spared ks w1 w2 -> kept f0 f content w w2.
Proof.
  intros H1 H2 H3 H4 [K1 K2] (S1 & S2 & _). split; [by rewrite S2|]. rewrite S1, (S2 (vfKey f)) by done. done.
Qed.

Lemma swap_stmt owner f w :
  vfVideo f = id -> vfKind f = "original"%string ->
  let out := on_video (q_SwapVideoOriginalIfOwner id owner f) w in
  mblobs (vmw out.2) = mblobs (vmw w) /\
  (originals out.2 = originals w /\ (forall g, out.1 <> Ok g) \/
   originals out.2 = [f] /\ (out.1 = Ok f \/ out.1 = Err ErrStore)).
Proof.
  intros Hv Hk. cbv zeta. split; [done|]. unfold originals.
  change (store (mdb (vmw ?x))) with (vmedia (store (vdb x))).
  assert (Hq : forall d, let r := q_SwapVideoOriginalIfOwner id owner f d in r = (Err ErrNoRows, d) \/
    r.1 = Ok f /\ filter (fun f => vfVideo f = id /\ vfKind f = "original"%string) (mfiles (vmedia r.2)) = [f]).
  { intros d. unfold q_SwapVideoOriginalIfOwner. case_match; [|by left]. case_match; [|by left]. right. split; [done|]. cbn.
    rewrite filter_app, filter_cons, decide_True by done. rewrite list_filter_filter.
    assert (Hnone : forall l : list VideoFile, filter (fun x => (vfVideo x = id /\ vfKind x = "original"%string) /\ ~ (vfVideo x = id /\ vfKind x = "original"%string)) l = [])
      by (induction l as [|x l IH]; [done|]; rewrite filter_cons_False by tauto; exact IH).
    by rewrite Hnone. }
  unfold on_video, exec. destruct (vdb w) as [d fs] eqn:Hd. destruct (Hq d) as [E|[E1 E2]].
  - destruct fs as [|[] fs]; cbn [store faults]; rewrite ?E; left; by split.
  - destruct fs as [|[] fs]; cbn [store faults fst snd vdb with_vdb vmw mdb vmedia vtabs]; cbn; [right|right|left|right]; rewrite ?E1; auto.
Qed.

Lemma run_swap_source v owner f0 f priorSum md content w :
  plain id = true -> canonical (vfKey f0) = true -> canonical (vfKey f) = true -> not_storyboard (vfKey f0) -> not_storyboard (vfKey f) ->
  vfKey f <> vfKey f0 -> vfVideo f = id -> vfKind f = "original"%string -> originals w = [f0] ->
  contents (mblobs (vmw w)) (vfKey f) = Some content ->
  let out := run video_handler (swap_source s sha256 id v owner f priorSum md) w in
  kept f0 f content w out.2 /\ (forall v' g, out.1 = Ok (v', g) -> g = f /\ originals out.2 = [f]).
Proof.
  intros Hid Hc0 Hc Hs0 Hs Hne Hv Hk Ho Hcon. cbv zeta. unfold swap_source. rewrite run_mbind, run_call. cbn [video_handler].
  destruct (swap_stmt owner f w Hv Hk) as [Hb Hsw]. cbv zeta in Hsw.
  destruct (on_video (q_SwapVideoOriginalIfOwner id owner f) w) as [r w1]. cbn [fst snd] in *.
  assert (Hk1 : kept f0 f content w w1).
  { split; [by rewrite Hb|]. destruct Hsw as [[-> _]|[-> _]]; [by left|right; by rewrite Hb]. }
  destruct Hsw as [[Hsame Herr]|[Hnew Hr]].
  - destruct r as [g|e]; [by destruct (Herr g)|].
    assert (Hdrop : forall e', let out := run video_handler (drop_candidate (A := Video * VideoFile) (vfKey f) e') w1 in
      kept f0 f content w out.2 /\ (forall v' g, out.1 = Ok (v', g) -> g = f /\ originals out.2 = [f])).
    { intros e'. cbv zeta. unfold drop_candidate, media_call. rewrite run_mbind, run_call, run_mret. cbn [fst snd]. split; [|done].
      destruct (spared_step (fun k => k <> vfKey f) _ (VMedia (ObjDelete (vfKey f))) w1) as (S1 & S2 & _); [by split; [|intros ?]|].
      split; [rewrite S2 by done; apply Hk1|left; by rewrite S1, Hsame]. }
    destruct e; first [apply Hdrop|rewrite run_mret; by split].
  - destruct r as [g|e]; [|destruct Hr as [|[= ->]]; [done|rewrite run_mret; by split]].
    destruct Hr as [[= ->]|]; [|done].
    assert (Hops : ops (sparing not_storyboard)
      (u ← match md with Some m => call (UpsertVideoMetadata id (metadataParams m)) | None => mret (Ok tt) end;
       match u with
       | Err e => mret (Err (VErrDB e))
       | Ok _ =>
           _ ← billStoredOriginal s owner priorSum (vfSha f) (vfSize f);
           _ ← storyboard_if_wanted s sha256 id (vfKey f) (match md with Some m => mdDuration m | None => 0 end)
                 (match md with Some m => mdAudioOnly m | None => false end);
           st ← call (SetVideoState id VPublished);
           match st with
           | Err e => mret (Err (VErrDB e))
           | Ok updated => _ ← call (FireHook (HUpdate id (edgeServableVideo v))); mret (Ok (updated, f))
           end
       end)).
    { apply ops_bind; [by destruct md|]. intros [u|e]; [|done]. apply ops_bind; [unfold billStoredOriginal; walk_ops; done|]. intros _.
      apply ops_bind; [by apply storyboard_spares|]. intros _. walk_ops; done. }
    pose proof (run_spares not_storyboard _ w1 Hops) as Hsp. split; [by eapply kept_spared|].
    intros v' g Hg. destruct Hsp as (Hsp & _). rewrite Hsp. split; [|done]. clear -Hg.
    rewrite !run_mbind in Hg. destruct (run video_handler _ w1).1; [|by rewrite run_mret in Hg].
    rewrite !run_mbind in Hg. destruct (run video_handler (call (SetVideoState id VPublished)) _).1; [|by rewrite run_mret in Hg].
    rewrite run_mbind, run_mret in Hg. cbn in Hg. by simplify_eq.
Qed.

(** Scan and probe of a replacement. *)
Definition vetted key w : Prop :=
  (vs_scanner s = true -> co_Scan (vco w) (vcalls w) key = Some true \/
     (co_Scan (vco w) (vcalls w) key = None /\ vs_scanMode s = ScanModeFailOpen)) /\
  (vs_prober s = true -> is_Some (co_Probe (vco w) (if vs_scanner s then S (vcalls w) else vcalls w) key)).

Lemma run_scan_replacement key w :
  let out := run video_handler (scan_replacement s id key) w in
  spared (fun _ => True) w out.2 /\ vcalls out.2 = (if vs_scanner s then S (vcalls w) else vcalls w) /\
  (out.1 = true -> vs_scanner s = true -> co_Scan (vco w) (vcalls w) key = Some true \/
     (co_Scan (vco w) (vcalls w) key = None /\ vs_scanMode s = ScanModeFailOpen)).
Proof.
  cbv zeta. split; [apply run_spares; unfold scan_replacement, audited; walk_ops; done|].
  unfold scan_replacement, audited. destruct (vs_scanner s); [|done]. cbn [negb]. rewrite run_mbind, run_call. cbn [video_handler asked fst snd].
  destruct (co_Scan (vco w) (vcalls w) key) as [[]|]; [by auto|by destruct (vs_auditor s)|].
  case_bool_decide; destruct (vs_auditor s); cbn; (split; [done|]); intros; try done; auto.
Qed.

(** Reads, before anything is stored. *)
Definition looked w w' : Prop :=
  originals w' = originals w /\ mblobs (vmw w') = mblobs (vmw w) /\ vco w' = vco w /\ vcalls w' = vcalls w.

#[local] Instance looked_preorder : PreOrder looked.
Proof. split; [done|]. intros x y z (A1 & A2 & A3 & A4) (B1 & B2 & B3 & B4). split_and!; congruence. Qed.

Lemma looked_stmt {A} (q : VideoDB -> result dberr A * VideoDB) w : (forall d, vmedia (q d).2 = vmedia d) -> looked w (on_video q w).2.
Proof. intros Hq. destruct (spared_stmt (fun _ => True) q w Hq) as (S1 & _). done. Qed.

(** What a replacement at [key] leaves of [f0]. *)
Definition sourced f0 key content w (out : result verr (Video * VideoFile) * vworld B) : Prop :=
  contents (mblobs (vmw out.2)) (vfKey f0) = contents (mblobs (vmw w)) (vfKey f0) /\
  (originals out.2 = [f0] /\ (forall v f, out.1 <> Ok (v, f)) \/
   vetted key w /\ originals out.2 = [mkVideoFile id "original" key (Z.of_nat (length content)) (sha256 content)] /\
   contents (mblobs (vmw out.2)) key = Some content).

Lemma sourced_looked f0 key content w w1 out : looked w w1 -> sourced f0 key content w1 out -> sourced f0 key content w out.
Proof. intros (L1 & L2 & L3 & L4) [S1 S2]. unfold sourced, vetted in *. rewrite L2, L3, L4 in *. done. Qed.

(** Nothing was swapped. *)
Lemma sourced_same f0 key content w (out : result verr (Video * VideoFile) * vworld B) (ks : string -> Prop) :
  canonical (vfKey f0) = true -> originals w = [f0] -> ks (vfKey f0) -> spared ks w out.2 -> (forall v f, out.1 <> Ok (v, f)) ->
  sourced f0 key content w out.
Proof. intros Hc Ho Hk (S1 & S2 & _) Hout. split; [by apply S2|]. left. by rewrite S1. Qed.

(** From the candidate's upload on. *)
Definition replace_at key v owner priorSum (i : UploadInput) : prog videoE (result verr (Video * VideoFile)) :=
  p ← PutSizedHashed sha256 key (uiReader i);
  match p with
  | Err e => mret (Err (VErrStorage e))
  | Ok (size, sum) =>
      ok ← scan_replacement s id key;
      if negb (ok : bool) then drop_candidate key (VErrReplaceRejected SafetyScanRejectedMessage) else
      let f := mkVideoFile id "original" key size sum in
      if negb (vs_prober s) then swap_source s sha256 id v owner f priorSum None else
      m ← call (ProbeFile key);
      match m with
      | None => drop_candidate key (VErrReplaceRejected "the file is not a playable video")
      | Some md => swap_source s sha256 id v owner f priorSum (Some md)
      end
  end.

Lemma run_replace_at key v owner priorSum i w f0 :
  plain id = true -> canonical (vfKey f0) = true -> canonical key = true -> not_storyboard (vfKey f0) -> not_storyboard key ->
  key <> vfKey f0 -> originals w = [f0] ->
  sourced f0 key (data (uiReader i)) w (run video_handler (replace_at key v owner priorSum i) w).
Proof.
  intros Hid Hc0 Hc Hs0 Hs Hne Ho. unfold replace_at, PutSizedHashed, media_call. rewrite run_mbind, run_mbind, run_call, run_mret.
  set (ks := fun k => k <> key). assert (Hk0 : ks (vfKey f0)) by (by unfold ks).
  pose proof (spared_step ks _ (VMedia (ObjPut key (uiReader i))) w ltac:(split; [done|by intros ?])) as Hput.
  assert (Hcalls : vcalls (video_handler _ (VMedia (ObjPut key (uiReader i))) w).2 = vcalls w) by done.
  assert (Hstored : forall m, (video_handler _ (VMedia (ObjPut key (uiReader i))) w).1 = Ok m ->
    m = Z.of_nat (length (data (uiReader i))) /\ contents (mblobs (vmw (video_handler _ (VMedia (ObjPut key (uiReader i))) w).2)) key = Some (data (uiReader i))).
  { intros m Hm. apply put_ok in Hm as (_ & -> & Hm); [|done]. by split. }
  destruct (video_handler _ (VMedia (ObjPut key (uiReader i))) w) as [r w1]. cbn [fst snd] in *.
  destruct r as [m|e]; [|rewrite run_mret; by eapply sourced_same]. destruct (Hstored m eq_refl) as [-> Hcon]. clear Hstored.
  rewrite run_mbind. destruct (run_scan_replacement key w1) as (Hsp & Hcalls2 & Hvet).
  destruct (run video_handler (scan_replacement s id key) w1) as [ok w2]. cbn [fst snd] in *.
  assert (H12 : spared ks w w2) by (etrans; [exact Hput|]; destruct Hsp as (A1 & A2 & A3); split_and!; [done|intros; by apply A2|done]).
  assert (Hcon2 : contents (mblobs (vmw w2)) key = Some (data (uiReader i))) by (rewrite <- Hcon; by apply Hsp).
  rewrite Hcalls in *. assert (Hco : vco w1 = vco w) by apply Hput. rewrite Hco in *.
  assert (Hdrop : forall w3 e, spared ks w w3 -> sourced f0 key (data (uiReader i)) w (run video_handler (drop_candidate key e) w3)).
  { intros w3 e H3. unfold drop_candidate, media_call. rewrite run_mbind, run_call, run_mret. eapply sourced_same; [done..| |done].
    etrans; [exact H3|]. apply (spared_step ks _ (VMedia (ObjDelete key))). split; [done|by intros ?]. }
  assert (Hswap : forall w3 md, vetted key w -> spared ks w w3 -> contents (mblobs (vmw w3)) key = Some (data (uiReader i)) ->
    sourced f0 key (data (uiReader i)) w (run video_handler (swap_source s sha256 id v owner
      (mkVideoFile id "original" key (Z.of_nat (length (data (uiReader i)))) (sha256 (data (uiReader i)))) priorSum md) w3)).
  { intros w3 md Hv (A1 & A2 & _) H3.
    destruct (run_swap_source v owner f0 (mkVideoFile id "original" key (Z.of_nat (length (data (uiReader i)))) (sha256 (data (uiReader i))))
      priorSum md (data (uiReader i)) w3) as [[K1 K2] K3]; try done; [by rewrite A1|].
    split; [rewrite K1; by apply A2|]. destruct K2 as [K2|[K2 K4]]; [|right; by split_and!].
    left. split; [done|]. intros v' g Hg. destruct (K3 v' g Hg) as [_ Hf]. rewrite K2 in Hf. injection Hf as Hf. apply Hne. by rewrite Hf. }
  destruct ok; cbn [negb]; [|by apply Hdrop]. specialize (Hvet eq_refl).
  destruct (vs_prober s) eqn:Hp; cbn [negb]; [|apply Hswap; [split; [done|by rewrite Hp]|done|done]].
  rewrite run_mbind, run_call. cbn [video_handler asked fst snd]. destruct (co_Probe (vco w2) (vcalls w2) key) as [md|] eqn:Hpr; [|by apply Hdrop].
  apply Hswap; [|done|done]. split; [done|]. intros _. rewrite Hcalls2 in Hpr. destruct H12 as (_ & _ & Hco2). rewrite Hco2 in Hpr. by rewrite Hpr.
Qed.

(** C13. A replacement keeps the served source. Whatever the store and the
    object store answer, after [ReplaceSource] the video has exactly one
    original: the one it had, or the new file, at a versioned key of its own
    that stores exactly the uploaded bytes, with their size and digest on
    record, and only after the scanner passed it (or could not answer and the
    instance lets such files through) and the prober read it. The bytes of the
    old original are untouched either way, and success means the new file is
    the original. *)
Theorem replace_keeps_source actor i can w f0 n ext0 :
  plain id = true -> good_ext ext0 -> 0 <= n < max_int64 -> vfKey f0 = OriginalVideoKey id n ext0 -> originals w = [f0] ->
  let out := run video_handler (ReplaceSource s sha256 actor id i can) w in
  contents (mblobs (vmw out.2)) (vfKey f0) = contents (mblobs (vmw w)) (vfKey f0) /\
  (originals out.2 = [f0] /\ (forall v f, out.1 <> Ok (v, f)) \/
   exists ext, good_ext ext /\
     let key := OriginalVideoKey id (n + 1) ext in
     let content := data (uiReader i) in
     key <> vfKey f0 /\ vetted key w /\
     originals out.2 = [mkVideoFile id "original" key (Z.of_nat (length content)) (sha256 content)] /\
     contents (mblobs (vmw out.2)) key = Some content).
Proof.
  intros Hid He0 Hn Hkey Ho. cbv zeta.
  assert (Hc0 : canonical (vfKey f0) = true) by (rewrite Hkey; by apply original_canonical).
  assert (Hsame : forall w1 e, looked w w1 -> forall P : Prop,
    contents (mblobs (vmw w1)) (vfKey f0) = contents (mblobs (vmw w)) (vfKey f0) /\
    (originals w1 = [f0] /\ (forall v f, (Err e : result verr (Video * VideoFile)) <> Ok (v, f)) \/ P)).
  { intros w1 e (L1 & L2 & _) P. split; [by rewrite L2|]. left. by rewrite L1. }
  unfold ReplaceSource. destruct (vs_blobs s); cbn [negb]; [|rewrite run_mret; by apply Hsame].
  assert (Hget : looked w (run video_handler (VideoByID id) w).2)
    by (unfold VideoByID; rewrite run_mbind, run_call, run_mret; by apply looked_stmt).
  rewrite run_mbind. destruct (run video_handler (VideoByID id) w) as [[[v owner]|e] w1]; cbn [fst snd] in *; [|rewrite run_mret; by apply Hsame].
  case_match; [rewrite run_mret; by apply Hsame|]. case_match; [rewrite run_mret; by apply Hsame|]. rewrite run_mbind.
  assert (Hadd : (run video_handler (additionalExtsAllowed s) w1).2 = w1) by (unfold additionalExtsAllowed; by destruct (vs_additionalExtGate s)).
  rewrite Hadd. destruct (upload_ext _ _ _) as [ext|] eqn:Hext; [|rewrite run_mret; by apply Hsame]. apply upload_ext_good in Hext.
  rewrite run_mbind, run_call. cbn [video_handler].
  set (cur := on_video (q_GetVideoFileByKind id "original") w1).
  assert (Hl2 : looked w cur.2) by (etrans; [exact Hget|by apply looked_stmt]).
  assert (Hcur : cur.1 = Ok f0 \/ exists e, cur.1 = Err e /\ e <> ErrNoRows).
  { unfold cur, on_video, exec. destruct (faults (vdb w1)) as [|[] fs]; cbn [fst]; [left|left|right; by exists ErrStore|right; by exists ErrStore];
      unfold q_GetVideoFileByKind; cbn; change (filter _ (mfiles _)) with (originals w1); rewrite (proj1 Hget), Ho; done. }
  destruct Hcur as [->|(e & -> & He)]; [|destruct e; try done; rewrite run_mret; by apply Hsame].
  rewrite Hkey, original_key_version by (done || lia). cbn [fst snd].
  set (key := OriginalVideoKey id (n + 1) ext).
  assert (Hne : key <> vfKey f0).
  { intros Heq. assert (Hv : OriginalKeyVersion key = n + 1) by (apply original_key_version; [done|done|unfold max_int64 in *; lia]).
    rewrite Heq, Hkey, original_key_version in Hv by (done || lia). lia. }
  destruct (run_replace_at key v owner (vfSha f0) i cur.2 f0) as [R1 R2]; try done.
  { by apply original_canonical. }
  { rewrite Hkey. apply original_not_storyboard. }
  { apply original_not_storyboard. }
  { by rewrite (proj1 Hl2). }
  destruct (sourced_looked f0 key (data (uiReader i)) w cur.2 _ Hl2 (conj R1 R2)) as [S1 S2].
  rewrite <- Hkey. split; [exact S1|]. destruct S2 as [S2|(S2 & S3 & S4)]; [by left|right]. exists ext. by split_and!.
Qed.
End Replacement.

(** ** Who may change a video *)

Definition err_of {A} (r : result verr A) : option verr := match r with Ok _ => None | Err e => Some e end.
Definition attempt {A} (p : prog videoE (result verr A)) : prog videoE (option verr) := r ← p; mret (err_of r).

(** The changes an account without management rights may try on a video. *)
Inductive change (s : VideoService) (ts : TranscodeService) (sha256 : bytes -> string) (actor id : uuid) : prog videoE (option verr) -> Prop :=
| change_edit i : change s ts sha256 actor id (attempt (UpdateForActor s ts actor id i false))
| change_delete : change s ts sha256 actor id (attempt (DeleteForActor actor id false))
| change_replace i : change s ts sha256 actor id (attempt (ReplaceSource s sha256 actor id i false))
| change_attach i : change s ts sha256 actor id (attempt (AttachOriginal s sha256 actor id i))
| change_list : change s ts sha256 actor id (attempt (ListPasswords actor id))
| change_add plain : change s ts sha256 actor id (attempt (AddPassword actor id plain))
| change_passwords plains : change s ts sha256 actor id (attempt (ReplacePasswords actor id plains))
| change_drop pid : change s ts sha256 actor id (attempt (DeletePassword actor id pid)).

Section Authorization.
Context {B : Type} `{Backend B, !Lister B} (s : VideoService) (ts : TranscodeService) (sha256 : bytes -> string) (actor id : uuid).
Implicit Types (w : vworld B).

(** Everything but the schedule of faults is the same. *)
Definition untouched w w' : Prop :=
  store (vdb w') = store (vdb w) /\ mblobs (vmw w') = mblobs (vmw w) /\ mhooks (vmw w') = mhooks (vmw w) /\
  vhooks w' = vhooks w /\ vbilled w' = vbilled w /\ vaudited w' = vaudited w /\ vcalls w' = vcalls w.

Lemma untouched_lookup w : untouched w (run video_handler (VideoByID id) w).2.
Proof.
  unfold VideoByID. rewrite run_mbind, run_call, run_mret. cbn [fst snd video_handler].
  split_and!; try done. by destruct (on_video_store (q_GetVideoByID id) w) as [E|E]; rewrite E.
Qed.

(** A program that begins with the lookup and refuses on another owner. *)
Lemma refused {A} (k : result verr (Video * uuid) -> prog videoE (result verr A)) w :
  (forall v o, vrows (vt w) !! id = Some v -> owner_of (store (vdb w)) v = Some o -> o <> actor) ->
  (forall e, k (Err e) = mret (Err e)) -> (forall v o, o <> actor -> k (Ok (v, o)) = mret (Err VErrForbidden)) ->
  let out := run video_handler (attempt (VideoByID id ≫= k)) w in
  (out.1 = Some VErrForbidden \/ out.1 = Some VErrNotFound \/ out.1 = Some VErrStorageUnavailable) /\ untouched w out.2.
Proof.
  intros Ho Herr Hok. cbv zeta. unfold attempt. rewrite run_mbind, run_mbind. pose proof (untouched_lookup w) as Hu.
  destruct (run_VideoByID id w) as [H1|(v & o & H1 & H2 & H3)]; rewrite H1.
  - rewrite Herr, !run_mret. cbn. auto.
  - rewrite Hok by (by eapply Ho). rewrite !run_mret. cbn. auto.
Qed.

(** Only the owner changes a video. An account that does not own the video
    and may not manage it is refused on every edit, deletion, upload,
    replacement and password operation, whatever store calls fail, and the
    refusal leaves the database, the object store, the ledger, the audit log
    and the hooks as they were. *)
Theorem only_owner_changes (p : prog videoE (option verr)) w :
  change s ts sha256 actor id p ->
  (forall v o, vrows (vt w) !! id = Some v -> owner_of (store (vdb w)) v = Some o -> o <> actor) ->
  let out := run video_handler p w in
  (out.1 = Some VErrForbidden \/ out.1 = Some VErrNotFound \/ out.1 = Some VErrStorageUnavailable) /\ untouched w out.2.
Proof.
  intros Hp Ho.
  assert (Hown : forall {A} (k : result verr Video -> prog videoE (result verr A)), (forall e, k (Err e) = mret (Err e)) ->
    let out := run video_handler (attempt (ownedVideo actor id ≫= k)) w in
    (out.1 = Some VErrForbidden \/ out.1 = Some VErrNotFound \/ out.1 = Some VErrStorageUnavailable) /\ untouched w out.2).
  { intros A k Hk. cbv zeta. unfold attempt, ownedVideo. rewrite !run_mbind, !run_mret. pose proof (untouched_lookup w) as Hu.
    destruct (run_VideoByID id w) as [H1|(v & o & H1 & H2 & H3)]; rewrite H1; cbn [fst snd].
    - rewrite Hk, !run_mret. cbn. auto.
    - rewrite bool_decide_eq_false_2 by (by eapply Ho). rewrite Hk, !run_mret. cbn. auto. }
  destruct Hp; try (apply Hown; done).
  - apply refused; [done|done|]. intros v o Hne. by rewrite bool_decide_eq_false_2.
  - apply refused; [done|done|]. intros v o Hne. by rewrite bool_decide_eq_false_2.
  - unfold ReplaceSource. destruct (vs_blobs s); cbn [negb]; [|unfold attempt; rewrite run_mbind, !run_mret; cbn; split; [auto|by split_and!]].
    apply refused; [done|done|]. intros v o Hne. by rewrite bool_decide_eq_false_2.
  - unfold AttachOriginal. destruct (vs_blobs s); cbn [negb]; [|unfold attempt; rewrite run_mbind, !run_mret; cbn; split; [auto|by split_and!]].
    apply refused; [done|done|]. intros v o Hne. by rewrite bool_decide_eq_false_2.
Qed.
End Authorization.

(** ** A concrete replacement, and two at once *)

Definition demo_file : VideoFile := mkVideoFile demo_video "original" demo_key 100 EmptyString.

Definition demo_replacement (b : Byte.byte) : UploadInput := mkUploadInput "new.mp4" EmptyString (Reader [[b]] None false).

Lemma replace_keeps_source_witness :
  let w := demo_vworld [Some true] false VPublished false in
  let out := run video_handler (ReplaceSource demo_videos demo_digest "owner" demo_video (demo_replacement Byte.x01) false) w in
  contents (mblobs (vmw out.2)) demo_key = contents (mblobs (vmw w)) demo_key /\
  originals demo_video out.2 = [mkVideoFile demo_video "original" (OriginalVideoKey demo_video 1 ".mp4") 1 "sum"].
Proof.
  cbv zeta. split; [|vm_compute; reflexivity].
  apply (replace_keeps_source demo_videos demo_digest demo_video "owner" (demo_replacement Byte.x01) false
    (demo_vworld [Some true] false VPublished false) demo_file 0 ".mp4"); try (vm_compute; reflexivity).
  - exists "mp4"%string. split_and!; [reflexivity|discriminate|reflexivity].
  - unfold max_int64. lia.
Defined.

Lemma only_owner_changes_witness :
  let w := demo_vworld [] false VPublished false in
  let out := run video_handler (attempt (DeleteForActor "stranger" demo_video false)) w in
  out.1 = Some VErrForbidden /\ untouched w out.2.
Proof.
  cbv zeta. split; [vm_compute; reflexivity|].
  apply (only_owner_changes demo_videos demo_service demo_digest "stranger" demo_video
    (attempt (DeleteForActor "stranger" demo_video false)) (demo_vworld [] false VPublished false)).
  - constructor.
  - intros v o Hv Ho. vm_compute in Hv. injection Hv as <-. vm_compute in Ho. injection Ho as <-. discriminate.
Defined.

(** The finding: two replacements of one video at the same time choose the same
    versioned key. The first passes its scan and becomes the video's source;
    then the second, whose upload wrote over the same object, is found
    infected, and dropping it removes the bytes of the recorded source. *)
Theorem concurrent_replacements_lose_source :
  let w := demo_vworld [Some true; Some true; Some true; Some false] false VPublished false in
  let replace b := (r ← ReplaceSource demo_videos demo_digest "owner" demo_video (demo_replacement b) false; mret (err_of r)) in
  let out := schedule video_handler ([0; 0; 0; 1; 1; 1; 0] ++ repeat 0 20 ++ repeat 1 20)%nat [replace Byte.x01; replace Byte.x02] w in
  out.1 = [Ret None; Ret (Some (VErrReplaceRejected SafetyScanRejectedMessage))] /\
  originals demo_video out.2 = [mkVideoFile demo_video "original" (OriginalVideoKey demo_video 1 ".mp4") 1 "sum"] /\
  contents (mblobs (vmw out.2)) (OriginalVideoKey demo_video 1 ".mp4") = None.
Proof. vm_compute. split_and!; reflexivity. Qed.
