(* ===== verification/VideoPasswords.v ===== *)
(** * Password protection of videos

    A password-protected video keeps a password under every operation that runs
    alone on a store that answers; concurrent or failing operations break that.
    What is set is what unlocks. *)
From S2P Require Import Prelude Interleave GoStrings Queue Storage MediaKeys MediaStore Playlist Transcode VideoStore Video VideoSafety.
Local Open Scope Z_scope.

(** Some stored password unlocks the video. *)
Definition has_password (id : uuid) (t : VTabs) : Prop := exists pid p, vpasswords t !! pid = Some p /\ pwVideo p = id.

(** Every password-protected video can be unlocked. *)
Definition protected (t : VTabs) : Prop :=
  forall id row, vrows t !! id = Some row -> vPrivacy row = PrivacyPassword -> has_password id t.

(** ** Lemmas: the password table *)

Lemma passwords_of_elem id d pid p : (pid, p) ∈ passwords_of id d <-> vpasswords (vtabs d) !! pid = Some p /\ pwVideo p = id.
Proof. unfold passwords_of. rewrite list_elem_of_filter, elem_of_map_to_list. cbn. tauto. Qed.

Lemma count_passwords id d : (0 <? Z.of_nat (length (passwords_of id d))) = true <-> has_password id (vtabs d).
Proof.
  rewrite Z.ltb_lt. split.
  - intros Hn. destruct (passwords_of id d) as [|[pid p] l] eqn:Hl; [cbn in Hn; lia|]. exists pid, p. apply passwords_of_elem. rewrite Hl. by left.
  - intros (pid & p & Hp). apply passwords_of_elem in Hp. destruct (passwords_of id d); [by inversion Hp|cbn; lia].
Qed.

(** Two passwords leave one when one goes. *)
Lemma other_password id d pid :
  1 < Z.of_nat (length (passwords_of id d)) -> exists pid' p, pid' <> pid /\ vpasswords (vtabs d) !! pid' = Some p /\ pwVideo p = id.
Proof.
  intros Hn. destruct (passwords_of id d) as [|[p1 x1] [|[p2 x2] l]] eqn:Hl; [cbn in Hn; lia..|].
  assert (Hnd : NoDup (passwords_of id d).*1).
  { unfold passwords_of. apply (sublist_NoDup _ (map_to_list (vpasswords (vtabs d))).*1); [apply NoDup_fst_map_to_list|].
    apply fmap_sublist, sublist_filter. }
  rewrite Hl in Hnd. cbn in Hnd. apply NoDup_cons in Hnd as [Hne _].
  assert (H1 : (p1, x1) ∈ passwords_of id d) by (rewrite Hl; by left).
  assert (H2 : (p2, x2) ∈ passwords_of id d) by (rewrite Hl; by right; left).
  apply passwords_of_elem in H1, H2. destruct (decide (p1 = pid)) as [->|Hp]; [|by exists p1, x1].
  exists p2, x2. split; [|done]. intros ->. apply Hne. by left.
Qed.

(** Generated ids from here on are new and distinct. *)
Definition fresh_ids (d : VideoDB) : Prop :=
  forall m n, (mdrawn (vmedia d) <= m)%nat -> (mdrawn (vmedia d) <= n)%nat ->
    vpasswords (vtabs d) !! mgen (vmedia d) m = None /\ (mgen (vmedia d) m = mgen (vmedia d) n -> m = n).

Lemma fresh_insert id hash d : fresh_ids d -> fresh_ids (insert_password id hash d).
Proof.
  intros Hf m n Hm Hn. unfold insert_password in *. cbn in *. destruct (Hf m n ltac:(lia) ltac:(lia)) as [H1 H2]. split; [|done].
  unfold next_job. rewrite lookup_insert_ne; [done|]. intros He. destruct (Hf (mdrawn (vmedia d)) m ltac:(lia) ltac:(lia)) as [_ H3].
  specialize (H3 He). lia.
Qed.

(** The whole set is inserted, and nothing else changes. *)
Lemma insert_passwords_ok id hashes d :
  fresh_ids d -> exists d', insert_passwords id hashes d = Some d' /\ vrows (vtabs d') = vrows (vtabs d) /\ vchannels (vtabs d') = vchannels (vtabs d) /\
    vowners (vtabs d') = vowners (vtabs d) /\
    forall hash id', (exists pid p, vpasswords (vtabs d') !! pid = Some p /\ pwVideo p = id' /\ pwHash p = hash) <->
      (id' = id /\ hash ∈ hashes) \/ exists pid p, vpasswords (vtabs d) !! pid = Some p /\ pwVideo p = id' /\ pwHash p = hash.
Proof.
  revert d. induction hashes as [|h hs IH]; intros d Hf.
  - exists d. split_and!; try done. intros hash id'. set_solver.
  - cbn [insert_passwords]. destruct (Hf (mdrawn (vmedia d)) (mdrawn (vmedia d)) ltac:(lia) ltac:(lia)) as [Hnew _].
    rewrite bool_decide_eq_false_2 by (unfold next_job; rewrite Hnew; by intros [? ?]).
    destruct (IH (insert_password id h d) (fresh_insert id h d Hf)) as (d' & Hd & E1 & E2 & E3 & E4). exists d'. split_and!; try done.
    intros hash id'. rewrite E4. cbn. split.
    + intros [[-> Hh]|(pid & p & Hp & <- & <-)]; [left; split; [done|by right]|].
      apply lookup_insert_Some in Hp as [[<- <-]|[_ Hp]]; [left; split; [done|by left]|right; by exists pid, p].
    + intros [[-> Hh]|(pid & p & Hp & Hv & Hq)].
      * apply elem_of_cons in Hh as [->|Hh]; [right|left; by split]. exists (next_job (vmedia d)). eexists. by rewrite lookup_insert_eq.
      * right. exists pid, p. split_and!; try done. rewrite lookup_insert_ne; [done|]. intros <-. unfold next_job in Hp. congruence.
Qed.

(** ** A protected video keeps a password *)

Section Protected.
Context {B : Type} `{Backend B, !Lister B} (s : VideoService) (ts : TranscodeService).
Implicit Types (w : vworld B).

(** Operations that never take the last password away nor protect a video. *)
Definition calm X (e : videoE X) : Prop :=
  match e with
  | CreateVideo row => vPrivacy row <> PrivacyPassword
  | UpdateVideo _ p => upPrivacy p <> Some PrivacyPassword
  | DeleteVideoPassword _ _ | DeleteVideoPasswords _ => False
  | _ => True
  end.

Lemma protected_insert id (v v' : Video) t :
  vrows t !! id = Some v -> (vPrivacy v' = PrivacyPassword -> vPrivacy v = PrivacyPassword) -> protected t ->
  protected (set_vrows <[id := v']> t).
Proof.
  intros Hv Hp Hs i row. cbn. intros Hr Hpr. apply lookup_insert_Some in Hr as [[<- <-]|[_ Hr]]; [by apply (Hs id v); auto|by apply (Hs i row)].
Qed.

Lemma protected_grow id pid p t : vpasswords t !! pid = None -> protected t -> protected (set_vpasswords <[pid := mkVideoPassword id p.1 p.2]> t).
Proof.
  intros Hf Hs i row Hr Hp. destruct (Hs i row Hr Hp) as (q & x & Hq & Hx). exists q, x. cbn. split; [|done].
  rewrite lookup_insert_ne; [done|]. intros ->. congruence.
Qed.

Lemma insert_passwords_protected id hashes d d' : insert_passwords id hashes d = Some d' -> protected (vtabs d) -> protected (vtabs d').
Proof.
  revert d. induction hashes as [|h hs IH]; intros d; cbn; [by intros [= ->]|]. case_bool_decide as Hb; [done|]. intros Hi Hs.
  apply (IH _ Hi). cbn. apply (protected_grow id _ (h, _)); [|done]. by apply eq_None_not_Some.
Qed.

Lemma protected_step X (e : videoE X) w : calm X e -> protected (vt w) -> protected (vt (video_handler X e w).2).
Proof.
  intros Hc Hs.
  assert (Hq : forall A (q : VideoDB -> result dberr A * VideoDB), (forall d, protected (vtabs d) -> protected (vtabs (q d).2)) ->
    protected (vt (on_video q w).2)) by (intros A q Hq; by apply (on_video_invariant q (fun d => protected (vtabs d)))).
  destruct e; cbn [video_handler calm] in *; try done; apply Hq; intros d Hd; try done.
  - unfold q_CreateVideo. cbv zeta. repeat case_match; try done. cbn. intros i r Hr Hp. cbn in Hr.
    apply lookup_insert_Some in Hr as [[<- <-]|[_ Hr]]; [done|by apply (Hd i r)].
  - unfold q_UpdateVideo. destruct (vrows (vtabs d) !! id) as [v|] eqn:Hv; [|done]. cbv zeta. case_match; [done|]. cbn.
    eapply protected_insert; [done| |done]. cbn. unfold COALESCE. by destruct (upPrivacy p) as [x|]; [intros ->|].
  - unfold q_SetVideoState. destruct (vrows (vtabs d) !! id) as [v|] eqn:Hv; [|done]. cbn. by eapply protected_insert.
  - intros i r Hr Hp. cbn in Hr. apply lookup_delete_Some in Hr as [Hne Hr]. destruct (Hd i r Hr Hp) as (q & x & Hq' & <-). exists q, x. cbn.
    split; [|done]. by apply map_lookup_filter_Some.
  - unfold q_RecordVideoRejection. by case_match.
  - unfold q_PublishTranscodingVideo. destruct (vrows (vtabs d) !! id) as [v|] eqn:Hv; [|done]. case_match; [|done]. cbn. by eapply protected_insert.
  - unfold q_SwapVideoOriginalIfOwner. destruct (vrows (vtabs d) !! id) as [v|] eqn:Hv; [|done]. case_match; [|done]. cbn. by eapply protected_insert.
  - unfold q_InsertVideoTags. by case_match.
  - unfold q_UpsertVideoMetadata. by case_match.
  - unfold q_IncrementVideoViews. by case_match.
  - unfold q_IncrementVideoViewDay. by case_match.
  - unfold q_InsertVideoPassword. case_bool_decide; [done|]. case_bool_decide as Hb; [done|]. cbn. apply (protected_grow id _ (hash, _)); [|done]. by apply eq_None_not_Some.
  - unfold q_InsertVideoPasswords. case_match; [done|]. destruct (insert_passwords id hashes d) eqn:Hi; [|done]. cbn. by eapply insert_passwords_protected.
Qed.

Lemma run_calm {A} (p : prog videoE A) w : ops calm p -> protected (vt w) -> protected (vt (run video_handler p w).2).
Proof. apply (run_invariant video_handler calm (fun w => protected (vt w)) (fun X e w => protected_step X e w)). Qed.

(** *** The three that need more *)

Lemma protected_delete pid id t :
  protected t -> (forall row, vrows t !! id = Some row -> vPrivacy row = PrivacyPassword ->
    exists pid' p, pid' <> pid /\ vpasswords t !! pid' = Some p /\ pwVideo p = id) ->
  pwVideo <$> vpasswords t !! pid = Some id -> protected (set_vpasswords (delete pid) t).
Proof.
  intros Hs Hother Hpid i row Hr Hp. destruct (decide (i = id)) as [->|Hne].
  - destruct (Hother row Hr Hp) as (q & x & Hq & Hx & Hv). exists q, x. cbn. by rewrite lookup_delete_ne.
  - destruct (Hs i row Hr Hp) as (q & x & Hx & Hv). exists q, x. cbn. rewrite lookup_delete_ne; [done|].
    intros <-. rewrite Hx in Hpid. cbn in Hpid. congruence.
Qed.

Lemma lookup_tabs id w : faults (mdb (vmw w)) = [] -> (run video_handler (VideoByID id) w).2 = w.
Proof.
  intros Hf. unfold VideoByID. rewrite run_mbind, run_call, run_mret. cbn [fst snd video_handler]. rewrite on_video_fine by done.
  cbn [fst snd]. destruct w as [[[d fs] ? ? ? ? ? ? ? ?] ? ? ? ? ? ? ?]. cbn in *. by subst fs.
Qed.

(** A read answers from the tables and changes nothing. *)
Lemma read_fine {A} (q : VideoDB -> result dberr A * VideoDB) w :
  faults (mdb (vmw w)) = [] -> (forall d, (q d).2 = d) -> on_video q w = ((q (store (vdb w))).1, w).
Proof.
  intros Hf Hq. rewrite on_video_fine by done. rewrite Hq. f_equal. destruct w as [[[d fs] ? ? ? ? ? ? ? ?] ? ? ? ? ? ? ?]. cbn in *. by subst fs.
Qed.

Lemma delete_keeps owner id pid w :
  faults (mdb (vmw w)) = [] -> protected (vt w) -> protected (vt (run video_handler (DeletePassword owner id pid) w).2).
Proof.
  intros Hf Hs. unfold DeletePassword, ownedVideo. rewrite !run_mbind, !run_mret, lookup_tabs by done.
  destruct (run_VideoByID id w) as [Hr|(v & o & Hr & Hv & _)]; rewrite Hr; [done|]. cbn [fst snd]. case_bool_decide; [|done].
  rewrite run_mbind, run_call. cbn [video_handler]. rewrite read_fine by done. cbn [fst snd q_VideoPasswordExists].
  case_bool_decide as Hpid; [|done]. rewrite run_mbind.
  assert (Hdel : (forall row, vrows (vt w) !! id = Some row -> vPrivacy row = PrivacyPassword ->
      exists pid' p, pid' <> pid /\ vpasswords (vt w) !! pid' = Some p /\ pwVideo p = id) ->
    protected (vt (run video_handler (r ← call (DeleteVideoPassword pid id); mret (match r with Err e => Err (VErrDB e) | Ok _ => Ok tt end)) w).2)).
  { intros Hother. rewrite run_mbind, run_call, run_mret. cbn [fst snd video_handler]. rewrite on_video_fine by done.
    unfold q_DeleteVideoPassword. rewrite bool_decide_eq_true_2 by done. cbn. by eapply protected_delete. }
  destruct (decide (vPrivacy v = PrivacyPassword)) as [Hp|Hp]; [rewrite bool_decide_eq_true_2 by done|rewrite bool_decide_eq_false_2 by done].
  - rewrite run_mbind, run_call, run_mret. cbn [video_handler]. rewrite read_fine by done. cbn [fst snd q_CountVideoPasswords].
    destruct (Z.leb_spec (Z.of_nat (length (passwords_of id (store (vdb w))))) 1) as [|Hn]; [done|].
    apply Hdel. intros row _ _. by apply (other_password id (store (vdb w)) pid).
  - rewrite run_mret. cbn [fst snd]. apply Hdel. intros row Hrow Hpr. congruence.
Qed.

Lemma run_guard id v owner i moved w :
  faults (mdb (vmw w)) = [] ->
  (run video_handler (update_guard id v owner i moved) w).2 = w /\
  ((run video_handler (update_guard id v owner i moved) w).1 = Ok tt -> inPrivacy i = Some PrivacyPassword -> has_password id (vt w)).
Proof.
  intros Hf. unfold update_guard. case_match; [done|]. rewrite run_mbind.
  match goal with |- context [run video_handler ?p w] => lazymatch type of p with prog _ bool => set (mv := p) end end.
  assert (Hmv : (run video_handler mv w).2 = w).
  { unfold mv. destruct (inChannel i); [|done]. destruct moved; [|done]. rewrite run_mbind, run_call, run_mret. cbn [video_handler]. by rewrite read_fine. }
  rewrite Hmv. destruct (run video_handler mv w).1; cbn [negb]; [|done].
  destruct (decide (inPrivacy i = Some PrivacyPassword)) as [Hp|Hp]; [rewrite bool_decide_eq_true_2 by done|rewrite bool_decide_eq_false_2 by done; by split].
  unfold HasPassword. rewrite !run_mbind, run_call, !run_mret. cbn [video_handler]. rewrite read_fine by done.
  cbn [fst snd q_CountVideoPasswords]. split; [done|]. intros Hok _. apply (count_passwords id (store (vdb w))). by destruct (0 <? _).
Qed.

Lemma update_keeps actor id i can w :
  faults (mdb (vmw w)) = [] -> protected (vt w) -> protected (vt (run video_handler (UpdateForActor s ts actor id i can) w).2).
Proof.
  intros Hf Hs. unfold UpdateForActor. rewrite run_mbind, lookup_tabs by done.
  destruct (run_VideoByID id w) as [Hr|(v & o & Hr & Hv & _)]; rewrite Hr; [done|]. case_match; [done|]. cbv zeta. rewrite run_mbind.
  match goal with |- context [update_guard id v o i ?m] => set (moved := m) end.
  destruct (run_guard id v o i moved w Hf) as [Hw Hg]. rewrite Hw. destruct (run video_handler (update_guard id v o i moved) w).1 as [[]|e]; [|done].
  specialize (Hg eq_refl). rewrite run_mbind, run_call. cbn [video_handler]. rewrite on_video_fine by done.
  set (w1 := with_vdb _ w).
  assert (Hs1 : protected (vt w1)).
  { unfold w1, q_UpdateVideo. change (vrows (vtabs (store (vdb w)))) with (vrows (vt w)). rewrite Hv. cbv zeta. case_match; [done|]. cbn.
    intros i0 row Hrow Hp. cbn in Hrow. apply lookup_insert_Some in Hrow as [[<- <-]|[_ Hrow]]; [|by apply (Hs i0 row)].
    cbn in Hp. destruct (inPrivacy i) as [x|]; cbn in Hp; [subst; by apply Hg|by apply (Hs id v)]. }
  clearbody w1. cbn [fst snd]. destruct (q_UpdateVideo _ _ _).1; [|done]. apply run_calm; [|done].
  apply ops_bind; [unfold replace_tags; walk_ops; done|]. intros [[]|e]; [|done].
  apply ops_bind; [|intros [u|e]; [|done]; unfold fireUpdateHooks; walk_ops; done].
  unfold toggle_hold, transcodeWillRun, enterTranscodeHold, ReleaseTranscodeHold, hasLiveTranscodeJob, media, HasLiveJob, media_call.
  walk_ops; cbn; repeat case_match; done.
Qed.

(** Hashing touches no table. *)
Lemma run_hash_all plains w :
  let out := run video_handler (hash_all plains) w in
  vmw out.2 = vmw w /\ vt out.2 = vt w /\ vco out.2 = vco w /\
  (forall hs, out.1 = Ok hs -> Forall2 (fun p h => exists n, co_Hash (vco w) n p = Some h) plains hs).
Proof.
  revert w. induction plains as [|p ps IH]; intros w; cbv zeta; [split_and!; try done; intros hs [= <-]; constructor|]. cbn [hash_all].
  case_match; [done|]. rewrite run_mbind, run_call. cbn [video_handler asked fst snd]. destruct (co_Hash (vco w) (vcalls w) p) as [h|] eqn:Hh; [|done].
  rewrite run_mbind. match goal with |- context [run video_handler (hash_all ps) ?w0] => destruct (IH w0) as (E1 & E2 & E3 & E4);
    destruct (run video_handler (hash_all ps) w0) as [r w1] end. cbn [fst snd] in *. rewrite run_mret. cbn [fst snd].
  split_and!; [done|done|done|]. intros hs. destruct r as [hs'|]; [|done]. intros [= <-]. constructor; [by eexists|by apply E4].
Qed.

Lemma list_tabs owner id w : faults (mdb (vmw w)) = [] -> (run video_handler (ListPasswords owner id) w).2 = w.
Proof.
  intros Hf. unfold ListPasswords, ownedVideo. rewrite !run_mbind, !run_mret, lookup_tabs by done. cbn [fst snd].
  destruct (run video_handler (VideoByID id) w).1 as [[v o]|]; [|done]. case_match; [|done]. rewrite run_mbind, run_call, run_mret. cbn [video_handler].
  by rewrite read_fine.
Qed.

(** The password [hash] of [id] is stored. *)
Definition stored_hash (t : VTabs) (id : uuid) (hash : string) : Prop :=
  exists pid p, vpasswords t !! pid = Some p /\ pwVideo p = id /\ pwHash p = hash.

(** A replaced set is what is stored from then on. *)
Lemma run_replace owner id plains w :
  faults (mdb (vmw w)) = [] -> fresh_ids (store (vdb w)) ->
  let out := run video_handler (ReplacePasswords owner id plains) w in
  (vt out.2 = vt w /\ (forall l, out.1 <> Ok l)) \/
  (plains <> [] /\ faults (mdb (vmw out.2)) = [] /\ vrows (vt out.2) = vrows (vt w) /\ vco out.2 = vco w /\
   exists hashes, Forall2 (fun p h => exists n, co_Hash (vco w) n p = Some h) plains hashes /\
     forall id' hash, stored_hash (vt out.2) id' hash <-> (id' = id /\ hash ∈ hashes) \/ (id' <> id /\ stored_hash (vt w) id' hash)).
Proof.
  intros Hf Hfr. cbv zeta. unfold ReplacePasswords, ownedVideo. rewrite !run_mbind, !run_mret, lookup_tabs by done.
  destruct (run_VideoByID id w) as [Hr|(v & o & Hr & Hv & _)]; rewrite Hr; [by left|]. cbn [fst snd]. case_bool_decide; [|by left].
  case_match eqn:Hlen; [by left|]. rewrite run_mbind. destruct (run_hash_all plains w) as (E1 & E2 & E3 & E4).
  destruct (run video_handler (hash_all plains) w) as [r w1]. cbn [fst snd] in *.
  destruct r as [hashes|e]; [|left; rewrite run_mret; cbn; by rewrite E2]. specialize (E4 hashes eq_refl). right.
  rewrite run_mbind, run_call. cbn [video_handler]. rewrite on_video_fine by (by rewrite E1). cbn [fst snd q_DeleteVideoPasswords].
  set (w2 := with_vdb _ w1). assert (Hf2 : faults (mdb (vmw w2)) = []) by done.
  rewrite run_mbind, run_call. cbn [video_handler]. rewrite on_video_fine by done.
  assert (Hd2 : store (vdb w2) = on_tabs (set_vpasswords (filter (fun kv => pwVideo kv.2 <> id))) (store (vdb w)))
    by (unfold w2, vdb, on_tabs; cbn; by rewrite E1, E2).
  rewrite Hd2. set (d2 := on_tabs _ _). assert (Hfr2 : fresh_ids d2).
  { intros m n Hm Hn. destruct (Hfr m n Hm Hn) as [F1 F2]. split; [|done]. cbn. apply map_lookup_filter_None. by left. }
  unfold q_InsertVideoPasswords. rewrite bool_decide_eq_false_2 by (cbn; by rewrite Hv). cbn [andb].
  destruct (insert_passwords_ok id hashes d2 Hfr2) as (d3 & -> & R1 & _ & _ & R4). cbn [fst snd].
  rewrite list_tabs by done. cbn [with_vdb vt vmw mdb faults vco vtabs store]. split_and!; [by intros ->|done|done|done|].
  exists hashes. split; [done|]. intros id' hash. unfold stored_hash. rewrite R4. cbn.
  split; (intros [?|Hx]; [by left|right]).
  - destruct Hx as (q & x & Hq & Hx & Hh). apply map_lookup_filter_Some in Hq as [Hq Hn]. split; [cbn in Hn; congruence|by exists q, x].
  - destruct Hx as (Hn & q & x & Hq & Hx & Hh). exists q, x. split_and!; try done. apply map_lookup_filter_Some. split; [done|]. cbn. congruence.
Qed.

Lemma replace_keeps owner id plains w :
  faults (mdb (vmw w)) = [] -> fresh_ids (store (vdb w)) -> protected (vt w) ->
  protected (vt (run video_handler (ReplacePasswords owner id plains) w).2).
Proof.
  intros Hf Hfr Hs. destruct (run_replace owner id plains w Hf Hfr) as [[-> _]|(Hne & _ & Hr & _ & hashes & Hh & Hst)]; [done|].
  intros i row Hrow Hp. rewrite Hr in Hrow.
  assert (Hx : exists hash, stored_hash (vt (run video_handler (ReplacePasswords owner id plains) w).2) i hash).
  { destruct (decide (i = id)) as [->|Hn].
    - destruct Hh as [|p h ps hs _ _]; [done|]. exists h. apply Hst. left. split; [done|by left].
    - destruct (Hs i row Hrow Hp) as (q & x & Hq & Hx). exists (pwHash x). apply Hst. right. split; [done|by exists q, x]. }
  destruct Hx as (_ & q & x & Hq & Hx & _). by exists q, x.
Qed.

Lemma draft_keeps channel i w :
  pdPrivacy (seDefaults (vset w)) <> PrivacyPassword -> protected (vt w) -> protected (vt (run video_handler (CreateDraft s channel i) w).2).
Proof.
  intros Hd Hs. unfold CreateDraft. case_bool_decide as Hp; [done|]. rewrite run_mbind.
  match goal with |- context [run video_handler ?p w] => lazymatch type of p with prog _ PublishDefaults => set (def := p) end end.
  assert (Hdef : (run video_handler def w).2 = w /\ pdPrivacy (run video_handler def w).1 <> PrivacyPassword)
    by (unfold def; by destruct (vs_publishDefaults s)).
  destruct Hdef as [-> Hne]. set (df := (run video_handler def w).1) in *. clearbody df. cbv zeta. apply run_calm; [|done].
  apply ops_bind; [walk_ops; done|]. intros support. apply ops_bind; [cbn; by case_bool_decide|]. intros [v|e]; [|done]. walk_ops; done.
Qed.
End Protected.

(** Operations on videos and their passwords, one at a time. *)
Inductive solo (s : VideoService) (ts : TranscodeService) : prog videoE unit -> Prop :=
| solo_draft channel i : solo s ts (_ ← CreateDraft s channel i; mret tt)
| solo_edit actor id i can : solo s ts (_ ← UpdateForActor s ts actor id i can; mret tt)
| solo_delete actor id can : solo s ts (_ ← DeleteForActor actor id can; mret tt)
| solo_prefill id title description : solo s ts (_ ← PrefillMetadata id title description; mret tt)
| solo_add owner id plain : solo s ts (_ ← AddPassword owner id plain; mret tt)
| solo_replace owner id plains : solo s ts (_ ← ReplacePasswords owner id plains; mret tt)
| solo_drop owner id pid : solo s ts (_ ← DeletePassword owner id pid; mret tt).

(** A password-protected video can be unlocked. Every operation that
    creates, edits or deletes videos or their passwords, run by itself on a
    store that answers, leaves each password-protected video with at least one
    password: protection is refused without a password, the last password of a
    protected video is not deleted, and replacing the set leaves a set. *)
Theorem protected_videos_keep_a_password {B} `{Backend B, !Lister B} (s : VideoService) (ts : TranscodeService) (p : prog videoE unit) (w : vworld B) :
  solo s ts p -> faults (mdb (vmw w)) = [] -> fresh_ids (store (vdb w)) -> pdPrivacy (seDefaults (vset w)) <> PrivacyPassword ->
  protected (vt w) -> protected (vt (run video_handler p w).2).
Proof.
  intros Hp Hf Hfr Hd Hs. destruct Hp; rewrite run_mbind, run_mret; cbn [snd].
  - by apply draft_keeps.
  - by apply update_keeps.
  - apply run_calm; [unfold DeleteForActor, VideoByID; walk_ops; done|done].
  - apply run_calm; [unfold PrefillMetadata, VideoByID; walk_ops; done|done].
  - apply run_calm; [unfold AddPassword, ownedVideo, VideoByID; walk_ops; done|done].
  - by apply replace_keeps.
  - by apply delete_keeps.
Qed.

(** ** What unlocks a video *)

Lemma foldl_matches {A} (f : A -> bool) l :
  foldl (fun matched h => if f h then true else matched) false l = true <-> exists h, h ∈ l /\ f h = true.
Proof.
  assert (Hg : forall b, foldl (fun matched h => if f h then true else matched) b l = true <-> b = true \/ exists h, h ∈ l /\ f h = true).
  { induction l as [|h l IH]; intros b; cbn [foldl]; [split; [by left|intros [?|(? & ?%not_elem_of_nil & _)]; done]|].
    rewrite IH. destruct (f h) eqn:Hh; split.
    - intros [_|(x & Hx & Hf)]; right; [exists h; split; [by left|done]|exists x; split; [by right|done]].
    - by left.
    - intros [?|(x & Hx & Hf)]; [by left|right; exists x; split; [by right|done]].
    - intros [?|(x & [->|Hx]%elem_of_cons & Hf)]; [by left|congruence|right; by exists x]. }
  rewrite Hg. split; [by intros [|]|by right].
Qed.

(** What was set is what unlocks. When [ReplacePasswords] succeeds on a
    store that answers, and the hasher's comparison accepts exactly the hashed
    text, then the video is unlocked by the passwords of the new set and by no
    others, and other videos by the same passwords as before. *)
Theorem replaced_passwords_unlock {B} `{Backend B, !Lister B} (owner id : uuid) (plains : list string) (w : vworld B) l :
  faults (mdb (vmw w)) = [] -> fresh_ids (store (vdb w)) ->
  (forall n p h q, co_Hash (vco w) n p = Some h -> (co_Check (vco w) h q = true <-> p = q)) ->
  (run video_handler (ReplacePasswords owner id plains) w).1 = Ok l ->
  let w' := (run video_handler (ReplacePasswords owner id plains) w).2 in
  forall id' plain, exists b, (run video_handler (VerifyPassword (co_Check (vco w)) id' plain) w').1 = Ok b /\
    (b = true <-> if decide (id' = id) then plain ∈ plains else exists h, stored_hash (vt w) id' h /\ co_Check (vco w) h plain = true).
Proof.
  intros Hf Hfr Hlaw Hok w' id' plain. destruct (run_replace owner id plains w Hf Hfr) as [[_ Hno]|(_ & Hf' & _ & _ & hashes & Hh & Hst)]; [by destruct (Hno l)|].
  fold w' in Hf', Hst. clearbody w'. unfold VerifyPassword. rewrite run_mbind, run_call, run_mret. cbn [video_handler]. rewrite read_fine by done.
  cbn [fst snd q_ListVideoPasswordHashes]. eexists. split; [done|]. rewrite foldl_matches.
  assert (Hin : forall h, h ∈ map (fun kv => pwHash kv.2) (passwords_of id' (store (vdb w'))) <-> stored_hash (vt w') id' h).
  { intros h. rewrite list_elem_of_fmap. split.
    - intros ([pid p] & -> & Hp). apply passwords_of_elem in Hp as [Hp Hv]. by exists pid, p.
    - intros (pid & p & Hp & Hv & <-). exists (pid, p). split; [done|]. by apply passwords_of_elem. }
  setoid_rewrite Hin. setoid_rewrite Hst. case_decide as Hd.
  2:{ split; intros (h & Hs & Hc); exists h; (split; [|done]); [by destruct Hs as [[? _]|[_ ?]]|by right]. }
  subst id'. split.
  - intros (h & [[_ Hm]|[? _]] & Hc); [|done]. apply list_elem_of_lookup in Hm as [j Hj].
    destruct (Forall2_lookup_r _ _ _ _ _ Hh Hj) as (p & Hp & n & Hn). apply (Hlaw n p h plain Hn) in Hc as <-. by eapply list_elem_of_lookup_2.
  - intros Hm. apply list_elem_of_lookup in Hm as [j Hj]. destruct (Forall2_lookup_l _ _ _ _ _ Hh Hj) as (h & Hp & n & Hn).
    exists h. split; [left; split; [done|by eapply list_elem_of_lookup_2]|]. by apply (Hlaw n plain h plain Hn).
Qed.

(** ** A protected video *)

Definition demo_locked_tabs : VTabs :=
  mkTabs {[demo_video := mkVideo demo_video "channel" "title" EmptyString "password" VPublished 900 None None None None false [] EmptyString
             "enabled" true false None None]}
    {["channel"%string := mkChannel "owner" None]} {["owner"%string := mkOwner "user" false]} ∅ ∅ ∅ ∅ ∅
    {["p1"%string := mkVideoPassword demo_video "#first" 1; "p2"%string := mkVideoPassword demo_video "#second" 2]}.

Definition demo_locked (fs : list fault) : vworld LocalFS :=
  let w := demo_vworld [] false VPublished false in
  let m := vmw w in
  mkVWorld (mkMWorld (Faulty (store (mdb m)) fs) (mblobs m) (mown m) (mtc m) (mcalls m) (mhooks m) (menabled m) (mscratch m) (mwritable m))
    demo_locked_tabs (vco w) (vcalls w) (vset w) [] [] [].

Lemma demo_length n : String.length (Nat.iter n (String.append "j") "j"%string) = S n.
Proof. induction n as [|n IH]; [done|]. exact (f_equal S IH). Qed.

Lemma demo_fresh : fresh_ids (store (vdb (demo_locked []))).
Proof.
  intros m n _ _. cbn [vmedia store vdb demo_locked vmw mdb mgen demo_vworld demo_media]. split.
  - destruct (vpasswords _ !! _) as [p|] eqn:Hp; [exfalso|done]. change (vtabs _) with demo_locked_tabs in Hp. cbn [demo_locked_tabs vpasswords] in Hp.
    destruct m as [|m]; [discriminate|]. cbn [Nat.iter String.append] in Hp.
    apply lookup_insert_Some in Hp as [[Hp _]|[_ Hp]]; [discriminate|]. by apply lookup_singleton_Some in Hp as [Hp _].
  - intros He. apply (f_equal String.length) in He. rewrite !demo_length in He. lia.
Qed.

Lemma demo_protected : protected demo_locked_tabs.
Proof.
  intros id row Hr _. cbn in Hr. apply lookup_singleton_Some in Hr as [<- _]. exists "p1"%string, (mkVideoPassword demo_video "#first" 1). by split.
Qed.

(** The owner deletes one of the two passwords. *)
Lemma protected_videos_keep_a_password_witness :
  let w' := (run video_handler (_ ← DeletePassword "owner" demo_video "p1"; mret tt) (demo_locked [])).2 in
  protected (vt w') /\ vpasswords (vt w') !! "p1"%string = None.
Proof.
  cbv zeta. split; [|vm_compute; reflexivity].
  apply (protected_videos_keep_a_password demo_videos demo_service); [constructor|reflexivity|exact demo_fresh|discriminate|exact demo_protected].
Defined.

Lemma replaced_passwords_unlock_witness :
  let w' := (run video_handler (ReplacePasswords "owner" demo_video ["sesame"%string]) (demo_locked [])).2 in
  exists b, (run video_handler (VerifyPassword (co_Check (vco (demo_locked []))) demo_video "sesame") w').1 = Ok b /\ b = true.
Proof.
  destruct (replaced_passwords_unlock "owner" demo_video ["sesame"%string] (demo_locked []) [("j"%string, 1000)])
    with (id' := demo_video) (plain := "sesame"%string) as (b & H1 & H2); [reflexivity|exact demo_fresh| |vm_compute; reflexivity|].
  - intros n p h q Hh. cbn in Hh. injection Hh as <-. cbn [demo_locked vco demo_vworld demo_collaborators co_Check]. rewrite bool_decide_eq_true.
    split; [intros Heq; by injection Heq|by intros ->].
  - exists b. split; [exact H1|]. apply H2. rewrite decide_True by reflexivity. by left.
Defined.

(** The finding: two deletions at the same time both count two passwords, and
    leave the protected video with none, which the guard exists to prevent; so
    does a replacement whose insert fails after its delete. *)
Theorem last_password_can_be_lost :
  let delete pid := (r ← DeletePassword "owner" demo_video pid; mret (match r with Ok _ => true | Err _ => false end)) in
  let raced := schedule video_handler [0; 0; 0; 1; 1; 1; 0; 1]%nat [delete "p1"%string; delete "p2"%string] (demo_locked []) in
  let replaced := run video_handler (ReplacePasswords "owner" demo_video ["sesame"%string]) (demo_locked [Fine; Fine; FailBefore]) in
  raced.1 = [Ret true; Ret true] /\ vpasswords (vt raced.2) = ∅ /\
  replaced.1 = Err (VErrDB ErrStore) /\ vpasswords (vt replaced.2) = ∅ /\
  vPrivacy <$> vrows (vt raced.2) !! demo_video = Some PrivacyPassword.
Proof. vm_compute. split_and!; reflexivity. Qed.
