(* ===== verification/UrlSafety.v ===== *)
(** * Outbound fetches (src/internal/urlsafety/urlsafety.go)

    Which addresses an outbound request may reach, and the guarded client:
    validation of the URL, the check at dial time of every resolved address,
    the re-validation of redirects. Resolver, servers and URL parser are
    adversarial arguments. *)
From S2P Require Import Prelude.
Local Open Scope Z_scope.

(** ** Addresses *)

(** A [net.IP]: bytes, usually 4 or 16 of them. *)
Abbreviation IP := (list Z) (only parsing).

Definition is_bytes (ip : IP) : Prop := Forall (fun b => 0 <= b < 256) ip.

(** Big-endian value. *)
Definition be (l : list Z) : Z := foldl (fun n b => n * 256 + b) 0 l.

(** A [netip.Addr] without zone. *)
Inductive Addr := V4 (n : Z) | V6 (n : Z).

(** [netip.AddrFromSlice] *)
Definition AddrFromSlice (ip : IP) : option Addr :=
  match length ip with 4%nat => Some (V4 (be ip)) | 16%nat => Some (V6 (be ip)) | _ => None end.

(** [Addr.Unmap]: ::ffff:0:0/96 is the IPv4 address in it. *)
Definition Unmap (a : Addr) : Addr :=
  match a with
  | V6 n => if Z.shiftr n 32 =? 65535 then V4 (n mod 2 ^ 32) else V6 n
  | V4 n => V4 n
  end.

(** [netip.Prefix.Contains] *)
Definition Contains (p : Addr * Z) (a : Addr) : bool :=
  match p, a with
  | (V4 m, bits), V4 n => Z.shiftr n (32 - bits) =? Z.shiftr m (32 - bits)
  | (V6 m, bits), V6 n => Z.shiftr n (128 - bits) =? Z.shiftr m (128 - bits)
  | _, _ => false
  end.

(** [netip.MustParsePrefix] of a dotted quad, and of eight groups. *)
Definition cidr4 (a b c d bits : Z) : Addr * Z := (V4 (be [a; b; c; d]), bits).
Definition groups (l : list Z) : Z := foldl (fun n g => n * 65536 + g) 0 l.
Definition cidr6 (l : list Z) (bits : Z) : Addr * Z := (V6 (groups l), bits).

(** [net.IP.To4] and [net.IP.To16] *)
Definition zeros (l : list Z) (from to : nat) : bool := forallb (fun x => x =? 0) (take (to - from) (drop from l)).
Definition byte_at (l : list Z) (i : nat) : Z := nth i l 0.

Definition To4 (ip : IP) : option IP :=
  match length ip with
  | 4%nat => Some ip
  | 16%nat => if zeros ip 0 10 && (byte_at ip 10 =? 255) && (byte_at ip 11 =? 255) then Some (drop 12 ip) else None
  | _ => None
  end.

(** [net.IPv4] *)
Definition IPv4 (a b c d : Z) : IP := repeat 0 10 ++ [255; 255; a; b; c; d].

Definition To16 (ip : IP) : option IP :=
  match length ip with
  | 4%nat => Some (repeat 0 10 ++ [255; 255] ++ ip)
  | 16%nat => Some ip
  | _ => None
  end.

(** [net.IP.Equal] of an address with a 16-byte one. *)
Definition Equal16 (ip other : IP) : bool := bool_decide (To16 ip = Some other).

Definition IsUnspecified (ip : IP) : bool := Equal16 ip (IPv4 0 0 0 0) || Equal16 ip (repeat 0 16).
Definition IsLoopback (ip : IP) : bool :=
  match To4 ip with Some v => byte_at v 0 =? 127 | None => Equal16 ip (repeat 0 15 ++ [1]) end.
Definition IsMulticast (ip : IP) : bool :=
  match To4 ip with Some v => Z.land (byte_at v 0) 240 =? 224 | None => (length ip =? 16)%nat && (byte_at ip 0 =? 255) end.
Definition IsLinkLocalUnicast (ip : IP) : bool :=
  match To4 ip with
  | Some v => (byte_at v 0 =? 169) && (byte_at v 1 =? 254)
  | None => (length ip =? 16)%nat && (byte_at ip 0 =? 254) && (Z.land (byte_at ip 1) 192 =? 128)
  end.

(** [net.IP.IsGlobalUnicast] and [net.IP.IsPrivate] *)
Definition IsGlobalUnicast (ip : IP) : bool :=
  ((length ip =? 4)%nat || (length ip =? 16)%nat) && negb (Equal16 ip (IPv4 255 255 255 255)) && negb (IsUnspecified ip) &&
  negb (IsLoopback ip) && negb (IsMulticast ip) && negb (IsLinkLocalUnicast ip).
Definition IsPrivate (ip : IP) : bool :=
  match To4 ip with
  | Some v =>
      (byte_at v 0 =? 10) || ((byte_at v 0 =? 172) && (Z.land (byte_at v 1) 240 =? 16)) || ((byte_at v 0 =? 192) && (byte_at v 1 =? 168))
  | None => (length ip =? 16)%nat && (Z.land (byte_at ip 0) 254 =? 252)
  end.

(** ** The policy *)

(** [blockedPrefixes] *)
Definition blockedPrefixes : list (Addr * Z) :=
  [cidr4 0 0 0 0 8; cidr4 100 64 0 0 10; cidr4 169 254 0 0 16; cidr4 192 0 0 0 24; cidr4 192 0 2 0 24; cidr4 198 18 0 0 15;
   cidr4 198 51 100 0 24; cidr4 203 0 113 0 24; cidr4 240 0 0 0 4; cidr4 255 255 255 255 32;
   cidr6 [0x100; 0; 0; 0; 0; 0; 0; 0] 64; cidr6 [0x2001; 2; 0; 0; 0; 0; 0; 0] 48; cidr6 [0x2001; 0x10; 0; 0; 0; 0; 0; 0] 28;
   cidr6 [0x2001; 0xdb8; 0; 0; 0; 0; 0; 0] 32; cidr6 [0x3fff; 0; 0; 0; 0; 0; 0; 0] 20; cidr6 [0x5f00; 0; 0; 0; 0; 0; 0; 0] 16;
   cidr6 [0; 0; 0; 0; 0xffff; 0; 0; 0] 96; cidr6 [0xfec0; 0; 0; 0; 0; 0; 0; 0] 10].

(** [inBlockedPrefix] *)
Definition inBlockedPrefix (ip : IP) : bool :=
  match AddrFromSlice ip with
  | None => true
  | Some a => existsb (fun p => Contains p (Unmap a)) blockedPrefixes
  end.

(** [IsBlockedIP] and [embeddedIPv4Blocked] call each other; the inner address
    is an IPv4 one, on which the latter stops: two rounds are enough. *)
Fixpoint IsBlockedIP_at (fuel : nat) (ip : IP) : bool :=
  match fuel with
  | O => true
  | S fuel =>
      if inBlockedPrefix ip then true
      else if negb (IsGlobalUnicast ip) then true
      else if IsPrivate ip then true
      else if match To4 ip with Some v4 => (byte_at v4 0 =? 100) && (Z.land (byte_at v4 1) 192 =? 64) | None => false end then true
      else
        match To4 ip with
        | Some _ => false
        | None =>
            match To16 ip with
            | None => true
            | Some b =>
                if zeros b 0 12 then true
                else if (byte_at b 0 =? 0) && (byte_at b 1 =? 100) && (byte_at b 2 =? 255) && (byte_at b 3 =? 155) && zeros b 4 12 then
                  IsBlockedIP_at fuel (IPv4 (byte_at b 12) (byte_at b 13) (byte_at b 14) (byte_at b 15))
                else if (byte_at b 0 =? 0) && (byte_at b 1 =? 100) && (byte_at b 2 =? 255) && (byte_at b 3 =? 155) && (byte_at b 4 =? 0) && (byte_at b 5 =? 1) then true
                else if (byte_at b 0 =? 32) && (byte_at b 1 =? 2) then
                  IsBlockedIP_at fuel (IPv4 (byte_at b 2) (byte_at b 3) (byte_at b 4) (byte_at b 5))
                else if (byte_at b 0 =? 32) && (byte_at b 1 =? 1) && (byte_at b 2 =? 0) && (byte_at b 3 =? 0) then true
                else false
            end
        end
  end.

Definition IsBlockedIP (ip : IP) : bool := IsBlockedIP_at 2 ip.

(** [metadataPrefixes] and [inMetadataPrefix] *)
Definition metadataPrefixes : list (Addr * Z) := [cidr4 169 254 0 0 16; cidr6 [0xfd00; 0xec2; 0; 0; 0; 0; 0; 0] 64].
Definition nat64Prefix : Addr * Z := cidr6 [0x64; 0xff9b; 0; 0; 0; 0; 0; 0] 96.

Definition inMetadataPrefix (ip : IP) : bool :=
  match AddrFromSlice ip with
  | None => true
  | Some a =>
      let a := Unmap a in
      let a := if Contains nat64Prefix a then match a with V6 n => V4 (n mod 2 ^ 32) | V4 n => V4 n end else a in
      existsb (fun p => Contains p a) metadataPrefixes
  end.

(** [Guard] and [Guard.blockedIP]; [None] is a nil address. *)
Record Guard := mkGuard { AllowPrivate : bool; KeepMetadataBlocked : bool }.

Definition blockedIP (g : Guard) (ip : option IP) : bool :=
  match ip with
  | None => true
  | Some ip => if AllowPrivate g then KeepMetadataBlocked g && inMetadataPrefix ip else IsBlockedIP ip
  end.

(** ** The guarded client *)

(** A parsed URL: what [url.Parse] and [URL.Hostname] answer. *)
Record URL := mkURL { uScheme : string; uUser : bool; uHostname : string }.

Inductive uerr := ErrInvalidURL | ErrBlockedAddress | ErrTooManyRedirects | ErrUnreachable.

#[global] Instance uerr_eq_dec : EqDecision uerr.
Proof. solve_decision. Defined.

Definition maxRedirects : nat := 5.

(** How a server answers a request: it is done, or it names another URL. *)
Inductive response := Final | Redirect (target : string).

(** A fetch: its outcome, the URLs requested and the addresses connected to. *)
Inductive outcome := Fetched | Refused (e : uerr) | OutOfFuel.

Section Client.
(** The parsers of the standard library; the resolver's candidates for the
    [n]-th connection, as the dialer writes them ("ip:port"); whether a
    connection succeeds; what the server of the [n]-th request answers. *)
Context (url_Parse : string -> option URL) (SplitHostPort : string -> option string) (ParseIP : string -> option IP).
Context (candidates : nat -> string -> list string) (accepts : nat -> string -> bool) (respond : nat -> string -> response).

(** [Guard.ValidateURL] *)
Definition ValidateURL (g : Guard) (raw : string) : result uerr URL :=
  match url_Parse raw with
  | None => Err ErrInvalidURL
  | Some u =>
      if negb (bool_decide (uScheme u = "http"%string)) && negb (bool_decide (uScheme u = "https"%string)) then Err ErrInvalidURL
      else if uUser u then Err ErrInvalidURL
      else if bool_decide (uHostname u = EmptyString) then Err ErrInvalidURL
      else match ParseIP (uHostname u) with
           | Some ip => if blockedIP g (Some ip) then Err ErrInvalidURL else Ok u
           | None => Ok u
           end
  end.

(** [Guard.control]: [None] lets the connection happen. *)
Definition control (g : Guard) (address : string) : option uerr :=
  match SplitHostPort address with
  | None => Some ErrBlockedAddress
  | Some host =>
      match ParseIP host with
      | None => Some ErrBlockedAddress
      | Some ip => if blockedIP g (Some ip) then Some ErrBlockedAddress else None
      end
  end.

(** The dialer: each candidate is put to [control] before it is connected to;
    the addresses it connected to, and whether one accepted. *)
Fixpoint dial (g : Guard) (n : nat) (addresses : list string) : bool * list string :=
  match addresses with
  | [] => (false, [])
  | a :: rest =>
      match control g a with
      | Some _ => dial g n rest
      | None => if accepts n a then (true, [a]) else let '(ok, tried) := dial g n rest in (ok, a :: tried)
      end
  end.

(** [CheckRedirect] of [newClient], with [via] requests made so far. *)
Definition CheckRedirect (g : Guard) (target : string) (via : nat) : option uerr :=
  if (maxRedirects <=? via)%nat then Some ErrTooManyRedirects
  else match ValidateURL g target with Err e => Some e | Ok _ => None end.

(** [http.Client.Do] on the [via]-th request of the chain. *)
Fixpoint follow (fuel : nat) (g : Guard) (raw : string) (u : URL) (via : nat) : outcome * list string * list string :=
  match fuel with
  | O => (OutOfFuel, [], [])
  | S fuel =>
      let '(ok, contacted) := dial g via (candidates via (uHostname u)) in
      if negb ok then (Refused ErrUnreachable, [raw], contacted) else
      match respond via raw with
      | Final => (Fetched, [raw], contacted)
      | Redirect target =>
          match CheckRedirect g target (S via) with
          | Some e => (Refused e, [raw], contacted)
          | None =>
              match url_Parse target with
              | None => (Refused ErrInvalidURL, [raw], contacted)
              | Some u' => let '(o, urls, addrs) := follow fuel g target u' (S via) in (o, raw :: urls, contacted ++ addrs)
              end
          end
      end
  end.

(** A fetch as callers make it: the pre-flight check, then the client. *)
Definition fetch (g : Guard) (raw : string) : outcome * list string * list string :=
  match ValidateURL g raw with
  | Err e => (Refused e, [], [])
  | Ok u => follow maxRedirects g raw u 0
  end.
End Client.

(** ** Reference: special-purpose ranges

    The special-purpose registries as intervals, written down independently of
    the code: first and last address. *)

Definition ip4 (a b c d : Z) : Z := be [a; b; c; d].

Definition special4 : list (Z * Z) :=
  [(ip4 0 0 0 0, ip4 0 255 255 255); (ip4 10 0 0 0, ip4 10 255 255 255); (ip4 100 64 0 0, ip4 100 127 255 255);
   (ip4 127 0 0 0, ip4 127 255 255 255); (ip4 169 254 0 0, ip4 169 254 255 255); (ip4 172 16 0 0, ip4 172 31 255 255);
   (ip4 192 0 0 0, ip4 192 0 0 255); (ip4 192 0 2 0, ip4 192 0 2 255); (ip4 192 168 0 0, ip4 192 168 255 255);
   (ip4 198 18 0 0, ip4 198 19 255 255); (ip4 198 51 100 0, ip4 198 51 100 255); (ip4 203 0 113 0, ip4 203 0 113 255);
   (ip4 224 0 0 0, ip4 239 255 255 255); (ip4 240 0 0 0, ip4 255 255 255 255)].

(** From the first 16-bit groups of a range, padded with zeros and ones. *)
Definition first6 (l : list Z) : Z := groups (l ++ repeat 0 (8 - length l)).
Definition last6 (l : list Z) : Z := groups (l ++ repeat 0xffff (8 - length l)).

Definition special6 : list (Z * Z) :=
  [(first6 [], last6 [0; 0; 0; 0; 0; 0]); (first6 [0; 0; 0; 0; 0xffff; 0], last6 [0; 0; 0; 0; 0xffff; 0]);
   (first6 [0x64; 0xff9b; 1], last6 [0x64; 0xff9b; 1]); (first6 [0x100; 0; 0; 0], last6 [0x100; 0; 0; 0]);
   (first6 [0x2001; 0], last6 [0x2001; 0]); (first6 [0x2001; 2; 0], last6 [0x2001; 2; 0]);
   (first6 [0x2001; 0x10], last6 [0x2001; 0x1f]); (first6 [0x2001; 0xdb8], last6 [0x2001; 0xdb8]);
   (first6 [0x3fff; 0], last6 [0x3fff; 0xfff]); (first6 [0x5f00], last6 [0x5f00]);
   (first6 [0xfc00], last6 [0xfdff]); (first6 [0xfe80], last6 [0xfebf]); (first6 [0xfec0], last6 [0xfeff]); (first6 [0xff00], last6 [0xffff])].

Definition within (n : Z) (r : Z * Z) : bool := (r.1 <=? n) && (n <=? r.2).
Definition in_ranges (rs : list (Z * Z)) (n : Z) : bool := existsb (within n) rs.

(** What an address must not be: a special-purpose one, or a NAT64 or 6to4
    address whose IPv4 destination is. *)
Definition special (a : Addr) : bool :=
  match a with
  | V4 n => in_ranges special4 n
  | V6 n =>
      if within n (first6 [0x64; 0xff9b; 0; 0; 0; 0], last6 [0x64; 0xff9b; 0; 0; 0; 0]) then in_ranges special4 (n mod 2 ^ 32)
      else if within n (first6 [0x2002], last6 [0x2002]) then in_ranges special4 (n / 2 ^ 80 mod 2 ^ 32)
      else in_ranges special6 n
  end.

(** ** Lemmas: bytes and ranges *)

Lemma be_app l1 l2 : be (l1 ++ l2) = be l1 * 256 ^ Z.of_nat (length l2) + be l2.
Proof.
  unfold be. rewrite foldl_app. generalize (foldl (fun n b => n * 256 + b) 0 l1). intros m.
  assert (Hg : forall l m, foldl (fun n b => n * 256 + b) m l = m * 256 ^ Z.of_nat (length l) + foldl (fun n b => n * 256 + b) 0 l).
  { clear. induction l as [|b l IH]; intros m; cbn [foldl length]; [lia|]. rewrite IH, (IH (0 * 256 + b)).
    rewrite Nat2Z.inj_succ, Z.pow_succ_r by lia. ring. }
  apply Hg.
Qed.

Lemma be_range l : is_bytes l -> 0 <= be l < 256 ^ Z.of_nat (length l).
Proof.
  induction l as [|b l IH] using rev_ind; intros Hl; [cbn; lia|]. apply Forall_app in Hl as [Hl Hb]. inversion Hb; subst.
  specialize (IH Hl). rewrite be_app, length_app. cbn [length be foldl]. rewrite Nat2Z.inj_add. cbn. rewrite Z.pow_add_r by lia. lia.
Qed.

(** Ranges that refine each other hold the same addresses. *)
Definition refines (rs rs' : list (Z * Z)) : bool := forallb (fun r => existsb (fun r' => (r'.1 <=? r.1) && (r.2 <=? r'.2)) rs') rs.

Lemma in_ranges_refines rs rs' n : refines rs rs' = true -> in_ranges rs n = true -> in_ranges rs' n = true.
Proof.
  unfold refines, in_ranges. rewrite forallb_forall, !existsb_exists. intros Hr (r & Hin & Hw). apply Hr, existsb_exists in Hin as (r' & Hin' & Hs).
  exists r'. split; [done|]. unfold within in *. bools. apply andb_true_iff. rewrite !Z.leb_le. lia.
Qed.

Lemma ranges_ext rs rs' n : refines rs rs' = true -> refines rs' rs = true -> in_ranges rs n = in_ranges rs' n.
Proof. intros H1 H2. apply eq_true_iff_eq. split; by apply in_ranges_refines. Qed.

(** A prefix is an interval. *)
Lemma shiftr_interval n m k : 0 <= k -> (Z.shiftr n k =? m) = within n (m * 2 ^ k, m * 2 ^ k + 2 ^ k - 1).
Proof.
  intros Hk. rewrite Z.shiftr_div_pow2 by done. unfold within. cbn. pose proof (Z.pow_pos_nonneg 2 k ltac:(lia) Hk).
  apply eq_true_iff_eq. rewrite andb_true_iff, Z.eqb_eq, !Z.leb_le. split.
  - intros <-. pose proof (Z.div_mod n (2 ^ k) ltac:(lia)). pose proof (Z.mod_pos_bound n (2 ^ k) ltac:(lia)). lia.
  - intros [H1 H2]. symmetry. apply Z.div_unique with (n - m * 2 ^ k); lia.
Qed.

Lemma ranges_apart rs r n :
  forallb (fun r' => (r'.2 <? r.1) || (r.2 <? r'.1)) rs = true -> within n r = true -> in_ranges rs n = false.
Proof.
  intros Hd Hw. apply not_true_iff_false. unfold in_ranges. rewrite existsb_exists. intros (r' & Hin & Hw').
  rewrite forallb_forall in Hd. specialize (Hd r' Hin). unfold within in *. rewrite orb_true_iff, !Z.ltb_lt in Hd. bools. lia.
Qed.

(** A masked byte is an interval of bytes. *)
Lemma land_interval b mask v lo hi :
  0 <= b < 256 -> forallb (fun x => Bool.eqb (Z.land x mask =? v) (within x (lo, hi))) (seqZ 0 256) = true ->
  (Z.land b mask =? v) = within b (lo, hi).
Proof.
  intros Hb Hall. rewrite forallb_forall in Hall. apply eqb_prop. apply Hall, list_elem_of_In, elem_of_seqZ. lia.
Qed.

(** Decides an equality of tests on bytes with intervals. *)
Ltac interval :=
  apply eq_true_iff_eq; unfold within, be; cbn [fst snd foldl];
  rewrite ?andb_true_iff, ?bool_decide_eq_true, ?Z.eqb_eq, ?Z.leb_le; lia.

Section Four.
Context (a b c d : Z) (Ha : 0 <= a < 256) (Hb : 0 <= b < 256) (Hc : 0 <= c < 256) (Hd : 0 <= d < 256).

Abbreviation n := (be [a; b; c; d]).

Lemma first_byte4 x : (a =? x) = within n (be [x; 0; 0; 0], be [x; 255; 255; 255]).
Proof. interval. Qed.

Lemma two_bytes4 x lo hi : 0 <= lo -> hi < 256 -> (a =? x) && within b (lo, hi) = within n (be [x; lo; 0; 0], be [x; hi; 255; 255]).
Proof. intros. interval. Qed.

Lemma whole4 x y z t : 0 <= x < 256 -> 0 <= y < 256 -> 0 <= z < 256 -> 0 <= t < 256 ->
  Equal16 [a; b; c; d] (IPv4 x y z t) = within n (be [x; y; z; t], be [x; y; z; t]).
Proof.
  intros. unfold Equal16, To16, IPv4. cbn [length app repeat].
  transitivity ((a =? x) && (b =? y) && (c =? z) && (d =? t)); [|interval].
  apply eq_true_iff_eq. rewrite bool_decide_eq_true, !andb_true_iff, !Z.eqb_eq. split; [intros [= -> -> -> ->]; done|by intros [[[-> ->] ->] ->]].
Qed.

Lemma multicast4 : (Z.land a 240 =? 224) = within n (be [224; 0; 0; 0], be [239; 255; 255; 255]).
Proof. rewrite (land_interval a 240 224 224 239) by (done || (vm_compute; reflexivity)). interval. Qed.

End Four.

(** The interval of a prefix of either family. *)
Definition interval4 (p : Addr * Z) : option (Z * Z) :=
  match p with (V4 m, bits) => let k := 32 - bits in Some (Z.shiftr m k * 2 ^ k, Z.shiftr m k * 2 ^ k + 2 ^ k - 1) | _ => None end.
Definition interval6 (p : Addr * Z) : option (Z * Z) :=
  match p with (V6 m, bits) => let k := 128 - bits in Some (Z.shiftr m k * 2 ^ k, Z.shiftr m k * 2 ^ k + 2 ^ k - 1) | _ => None end.

Lemma prefixes4 ps n :
  forallb (fun p : Addr * Z => p.2 <=? match p.1 with V4 _ => 32 | V6 _ => 128 end) ps = true ->
  existsb (fun p => Contains p (V4 n)) ps = in_ranges (omap interval4 ps) n.
Proof.
  induction ps as [|[[m|m] bits] ps IH]; intros Hp; [done| |]; cbn [forallb fst snd] in Hp; apply andb_true_iff in Hp as [Hb Hp]; apply Z.leb_le in Hb;
    cbn [existsb omap list_omap Contains interval4 orb]; rewrite IH by done; [|done].
  unfold in_ranges. cbn [existsb]. f_equal. apply shiftr_interval. lia.
Qed.

Lemma prefixes6 ps n :
  forallb (fun p : Addr * Z => p.2 <=? match p.1 with V4 _ => 32 | V6 _ => 128 end) ps = true ->
  existsb (fun p => Contains p (V6 n)) ps = in_ranges (omap interval6 ps) n.
Proof.
  induction ps as [|[[m|m] bits] ps IH]; intros Hp; [done| |]; cbn [forallb fst snd] in Hp; apply andb_true_iff in Hp as [Hb Hp]; apply Z.leb_le in Hb;
    cbn [existsb omap list_omap Contains interval6 orb]; rewrite IH by done; [done|].
  unfold in_ranges. cbn [existsb]. f_equal. apply shiftr_interval. lia.
Qed.

Lemma in_ranges_app rs rs' n : in_ranges (rs ++ rs') n = in_ranges rs n || in_ranges rs' n.
Proof. apply existsb_app. Qed.

(** The ranges the code refuses of IPv4, in the order of its tests. *)
Definition tested4 : list (Z * Z) :=
  omap interval4 blockedPrefixes ++
  [(ip4 255 255 255 255, ip4 255 255 255 255); (ip4 0 0 0 0, ip4 0 0 0 0); (ip4 127 0 0 0, ip4 127 255 255 255);
   (ip4 224 0 0 0, ip4 239 255 255 255); (ip4 169 254 0 0, ip4 169 254 255 255); (ip4 10 0 0 0, ip4 10 255 255 255);
   (ip4 172 16 0 0, ip4 172 31 255 255); (ip4 192 168 0 0, ip4 192 168 255 255); (ip4 100 64 0 0, ip4 100 127 255 255)].

Lemma blocked4 a b c d fuel : is_bytes [a; b; c; d] -> IsBlockedIP_at (S fuel) [a; b; c; d] = special (V4 (be [a; b; c; d])).
Proof.
  intros Hbytes. inversion_clear Hbytes as [|? ? Ha Hl]. inversion_clear Hl as [|? ? Hb Hl']. inversion_clear Hl' as [|? ? Hc Hl]. inversion_clear Hl as [|? ? Hd _].
  cbn [special]. rewrite (ranges_ext special4 tested4) by (vm_compute; reflexivity).
  cbn [IsBlockedIP_at]. unfold inBlockedPrefix, IsGlobalUnicast, IsUnspecified, IsLoopback, IsMulticast, IsLinkLocalUnicast, IsPrivate.
  cbn [AddrFromSlice To4 length Unmap Nat.eqb orb andb]. rewrite prefixes4 by (vm_compute; reflexivity). unfold byte_at. cbn [nth].
  assert (Hz : Equal16 [a; b; c; d] (repeat 0 16) = false) by (apply bool_decide_eq_false_2; discriminate). rewrite Hz, orb_false_r.
  rewrite !whole4 by lia. rewrite (first_byte4 a b c d Hb Hc Hd 127), (first_byte4 a b c d Hb Hc Hd 10), (multicast4 a b c d) by done.
  rewrite (land_interval b 240 16 16 31), (land_interval b 192 64 64 127) by (done || (vm_compute; reflexivity)).
  assert (He : forall y, (b =? y) = within b (y, y)) by (intros y; interval). rewrite !He, !(two_bytes4 a b c d Hb Hc Hd) by lia.
  unfold tested4. rewrite in_ranges_app. destruct (in_ranges (omap interval4 blockedPrefixes) _); [done|]. cbn [orb in_ranges existsb].
  unfold ip4. repeat match goal with |- context [within ?x ?r] => destruct (within x r) end; reflexivity.
Qed.

(** ** Lemmas: sixteen bytes *)

Lemma be_inj l l' : is_bytes l -> is_bytes l' -> length l = length l' -> be l = be l' -> l = l'.
Proof.
  revert l'. induction l as [|b l IH] using rev_ind; intros l' Hl Hl' Hlen Hbe; [by destruct l'|].
  destruct l' as [|b' l' _] using rev_ind; [rewrite length_app in Hlen; cbn in Hlen; lia|].
  rewrite !length_app in Hlen. cbn in Hlen. apply Forall_app in Hl as [Hl Hb], Hl' as [Hl' Hb']. inversion Hb; inversion Hb'; subst.
  rewrite !be_app in Hbe. cbn in Hbe. rewrite (IH l') by (done || lia). f_equal. assert (be l = be l') by lia. f_equal. lia.
Qed.

(** An address begins with given bytes when it lies in their interval. *)
Lemma prefix_interval l pat :
  is_bytes l -> is_bytes pat -> (length pat <= length l)%nat ->
  let m := 256 ^ Z.of_nat (length l - length pat) in
  bool_decide (take (length pat) l = pat) = within (be l) (be pat * m, be pat * m + m - 1).
Proof.
  intros Hl Hp Hlen m. assert (Hm : 0 < m) by (apply Z.pow_pos_nonneg; lia).
  replace (be l) with (be (take (length pat) l ++ drop (length pat) l)) by (by rewrite take_drop). rewrite be_app, length_drop. fold m.
  assert (Hd : 0 <= be (drop (length pat) l) < m).
  { unfold m. rewrite <- length_drop. apply be_range. by apply Forall_drop. }
  apply eq_true_iff_eq. unfold within. cbn. rewrite bool_decide_eq_true, andb_true_iff, !Z.leb_le. split; [intros ->; lia|].
  intros [H1 H2]. apply be_inj; [by apply Forall_take|done|rewrite length_take; lia|]. nia.
Qed.

(** The ranges the code refuses of IPv6 before it looks inside, and those it
    looks into. *)
Definition span (pat : list Z) : Z * Z :=
  let m := 256 ^ Z.of_nat (16 - length pat) in (be pat * m, be pat * m + m - 1).
Definition nat64_bytes : list Z := [0; 100; 255; 155; 0; 0; 0; 0; 0; 0; 0; 0].
Definition pre6 : list (Z * Z) :=
  omap interval6 blockedPrefixes ++
  [span (repeat 0 15 ++ [1]); span (repeat 0 16); span [255]; (0xfe80 * 2 ^ 112, 0xfebf * 2 ^ 112 + (2 ^ 112 - 1));
   (0xfc00 * 2 ^ 112, 0xfdff * 2 ^ 112 + (2 ^ 112 - 1)); span (repeat 0 12)].

(** A pattern of leading bytes, tested one byte at a time. *)
Ltac leading :=
  apply eq_true_iff_eq; unfold byte_at, zeros, nat64_bytes; cbn [take drop nth forallb Nat.sub length app repeat];
  rewrite bool_decide_eq_true, ?andb_true_iff, ?Z.eqb_eq; split; intros; destruct_and?; simplify_eq; done.

Section Sixteen.
Context (b0 b1 b2 b3 b4 b5 b6 b7 b8 b9 b10 b11 b12 b13 b14 b15 : Z).
Abbreviation l := [b0; b1; b2; b3; b4; b5; b6; b7; b8; b9; b10; b11; b12; b13; b14; b15].
Context (Hl : is_bytes l).

Lemma leads pat : is_bytes pat -> (length pat <= 16)%nat -> bool_decide (take (length pat) l = pat) = within (be l) (span pat).
Proof. intros Hp Hlen. by apply (prefix_interval l pat Hl Hp). Qed.

Lemma To4_leads : To4 l = if within (be l) (span (repeat 0 10 ++ [255; 255])) then Some [b12; b13; b14; b15] else None.
Proof.
  assert (Ht : zeros l 0 10 && (byte_at l 10 =? 255) && (byte_at l 11 =? 255) = bool_decide (take 12 l = repeat 0 10 ++ [255; 255])) by leading.
  unfold To4. cbn [length]. rewrite Ht. by rewrite <- leads by (repeat constructor; lia).
Qed.

Lemma Unmap_leads : Unmap (V6 (be l)) = if within (be l) (span (repeat 0 10 ++ [255; 255])) then V4 (be [b12; b13; b14; b15]) else V6 (be l).
Proof.
  cbn [Unmap]. rewrite shiftr_interval by lia. change (65535 * 2 ^ 32, 65535 * 2 ^ 32 + 2 ^ 32 - 1) with (span (repeat 0 10 ++ [255; 255])).
  destruct (within _ _); [|done]. f_equal. change l with ([b0; b1; b2; b3; b4; b5; b6; b7; b8; b9; b10; b11] ++ [b12; b13; b14; b15]).
  rewrite be_app. change (256 ^ Z.of_nat (length [b12; b13; b14; b15])) with (2 ^ 32). rewrite Z.add_comm, Z.mod_add by lia.
  apply Z.mod_small. apply (be_range [b12; b13; b14; b15]). unfold is_bytes in *. by rewrite !Forall_cons in *; intuition.
Qed.

Lemma whole16 pat : length pat = 16%nat -> is_bytes pat -> Equal16 l pat = within (be l) (span pat).
Proof.
  intros Hlen Hp. rewrite <- leads by (done || lia). unfold Equal16. change (To16 l) with (Some l). rewrite Hlen. apply bool_decide_ext.
  split; intros Hx; [exact (inj Some _ _ Hx)|exact (f_equal Some Hx)].
Qed.

Lemma not_mapped x y z t : within (be l) (span (repeat 0 10 ++ [255; 255])) = false -> Equal16 l (IPv4 x y z t) = false.
Proof.
  intros Hm. apply bool_decide_eq_false_2. change (To16 l) with (Some l). intros Heq.
  apply (inj Some) in Heq. rewrite <- leads in Hm by (repeat constructor; lia). apply bool_decide_eq_false in Hm. apply Hm. by rewrite Heq.
Qed.

(** Ranges given by the first two bytes. *)
Lemma top_two x y : within (be l) (x * 2 ^ 112, y * 2 ^ 112 + (2 ^ 112 - 1)) = within (be [b0; b1]) (x, y).
Proof.
  change l with ([b0; b1] ++ [b2; b3; b4; b5; b6; b7; b8; b9; b10; b11; b12; b13; b14; b15]). rewrite be_app.
  pose proof (be_range [b2; b3; b4; b5; b6; b7; b8; b9; b10; b11; b12; b13; b14; b15]) as Hr.
  assert (Hrest : is_bytes [b2; b3; b4; b5; b6; b7; b8; b9; b10; b11; b12; b13; b14; b15]) by (unfold is_bytes in *; rewrite !Forall_cons in *; tauto).
  specialize (Hr Hrest). generalize dependent (be [b2; b3; b4; b5; b6; b7; b8; b9; b10; b11; b12; b13; b14; b15]). intros r.
  cbn [length]. replace (256 ^ Z.of_nat 14) with (2 ^ 112) by (vm_compute; reflexivity). intros Hr.
  apply eq_true_iff_eq. unfold within. cbn [fst snd]. rewrite !andb_true_iff, !Z.leb_le. lia.
Qed.

Lemma link_local6 : (byte_at l 0 =? 254) && (Z.land (byte_at l 1) 192 =? 128) = within (be l) (0xfe80 * 2 ^ 112, 0xfebf * 2 ^ 112 + (2 ^ 112 - 1)).
Proof.
  assert (Hb : 0 <= b0 < 256 /\ 0 <= b1 < 256) by (unfold is_bytes in Hl; rewrite !Forall_cons in Hl; tauto).
  rewrite top_two. unfold byte_at. cbn [nth]. rewrite (land_interval b1 192 128 128 191) by (apply Hb || (vm_compute; reflexivity)). interval.
Qed.

Lemma private6 : (Z.land (byte_at l 0) 254 =? 252) = within (be l) (0xfc00 * 2 ^ 112, 0xfdff * 2 ^ 112 + (2 ^ 112 - 1)).
Proof.
  assert (Hb : 0 <= b0 < 256 /\ 0 <= b1 < 256) by (unfold is_bytes in Hl; rewrite !Forall_cons in Hl; tauto).
  rewrite top_two. unfold byte_at. cbn [nth]. rewrite (land_interval b0 254 252 252 253) by (apply Hb || (vm_compute; reflexivity)). interval.
Qed.

Lemma multicast6 : (byte_at l 0 =? 255) = within (be l) (span [255]).
Proof. rewrite <- leads by (repeat constructor; lia). leading. Qed.

Lemma compatible6 : zeros l 0 12 = within (be l) (span (repeat 0 12)).
Proof. rewrite <- leads by (repeat constructor; lia). leading. Qed.

Lemma plain6_before :
  within (be l) (span (repeat 0 10 ++ [255; 255])) = false ->
  inBlockedPrefix l || negb (IsGlobalUnicast l) || IsPrivate l || zeros l 0 12 = in_ranges pre6 (be l).
Proof.
  intros Hm. assert (H4 : To4 l = None) by (by rewrite To4_leads, Hm).
  assert (Hp : inBlockedPrefix l = in_ranges (omap interval6 blockedPrefixes) (be l)).
  { unfold inBlockedPrefix. change (AddrFromSlice l) with (Some (V6 (be l))). cbv iota beta. rewrite Unmap_leads, Hm. apply prefixes6. vm_compute. reflexivity. }
  rewrite Hp. unfold IsGlobalUnicast, IsUnspecified, IsLoopback, IsMulticast, IsLinkLocalUnicast, IsPrivate. rewrite H4, !(not_mapped _ _ _ _ Hm).
  change (length l =? 4)%nat with false. change (length l =? 16)%nat with true. cbn [orb andb].
  rewrite (whole16 (repeat 0 16)), (whole16 (repeat 0 15 ++ [1])) by (reflexivity || (repeat constructor; lia)).
  rewrite multicast6, link_local6, private6, compatible6. unfold pre6. rewrite in_ranges_app. unfold in_ranges. cbn [existsb].
  generalize (within (be l)). intros f. generalize (existsb f (omap interval6 blockedPrefixes)). intros p.
  generalize (f (span (repeat 0 16))) (f (span (repeat 0 15 ++ [1]))) (f (span [255])) (f (span (repeat 0 12))).
  generalize (f (0xfe80 * 2 ^ 112, 0xfebf * 2 ^ 112 + (2 ^ 112 - 1))) (f (0xfc00 * 2 ^ 112, 0xfdff * 2 ^ 112 + (2 ^ 112 - 1))).
  by intros [] [] [] [] [] []; destruct p.
Qed.

Lemma nat64_leads :
  (byte_at l 0 =? 0) && (byte_at l 1 =? 100) && (byte_at l 2 =? 255) && (byte_at l 3 =? 155) && zeros l 4 12 = within (be l) (span nat64_bytes).
Proof. rewrite <- leads by (repeat constructor; lia). leading. Qed.

Lemma local64_leads :
  (byte_at l 0 =? 0) && (byte_at l 1 =? 100) && (byte_at l 2 =? 255) && (byte_at l 3 =? 155) && (byte_at l 4 =? 0) && (byte_at l 5 =? 1) =
  within (be l) (span [0; 100; 255; 155; 0; 1]).
Proof. rewrite <- leads by (repeat constructor; lia). leading. Qed.

Lemma sixto4_leads : (byte_at l 0 =? 32) && (byte_at l 1 =? 2) = within (be l) (span [32; 2]).
Proof. rewrite <- leads by (repeat constructor; lia). leading. Qed.

Lemma teredo_leads : (byte_at l 0 =? 32) && (byte_at l 1 =? 1) && (byte_at l 2 =? 0) && (byte_at l 3 =? 0) = within (be l) (span [32; 1; 0; 0]).
Proof. rewrite <- leads by (repeat constructor; lia). leading. Qed.

(** The IPv4 addresses inside. *)
Lemma low4 : be l mod 2 ^ 32 = be [b12; b13; b14; b15].
Proof.
  change l with ([b0; b1; b2; b3; b4; b5; b6; b7; b8; b9; b10; b11] ++ [b12; b13; b14; b15]).
  rewrite be_app. change (256 ^ Z.of_nat (length [b12; b13; b14; b15])) with (2 ^ 32). rewrite Z.add_comm, Z.mod_add by lia.
  apply Z.mod_small. apply (be_range [b12; b13; b14; b15]). unfold is_bytes in *. rewrite !Forall_cons in *. tauto.
Qed.

Lemma middle4 : be l / 2 ^ 80 mod 2 ^ 32 = be [b2; b3; b4; b5].
Proof.
  assert (H1 : is_bytes [b6; b7; b8; b9; b10; b11; b12; b13; b14; b15]) by (unfold is_bytes in *; rewrite !Forall_cons in *; tauto).
  assert (H2 : is_bytes [b2; b3; b4; b5]) by (unfold is_bytes in *; rewrite !Forall_cons in *; tauto).
  apply be_range in H1, H2. cbn [length] in H1, H2. replace (256 ^ Z.of_nat 10) with (2 ^ 80) in H1 by reflexivity.
  replace (256 ^ Z.of_nat 4) with (2 ^ 32) in H2 by reflexivity.
  change l with ([b0; b1; b2; b3; b4; b5] ++ [b6; b7; b8; b9; b10; b11; b12; b13; b14; b15]). rewrite be_app. cbn [length].
  replace (256 ^ Z.of_nat 10) with (2 ^ 80) by reflexivity. rewrite Z.div_add_l by lia. rewrite (Z.div_small (be [b6; _; _; _; _; _; _; _; _; _])), Z.add_0_r by done.
  change [b0; b1; b2; b3; b4; b5] with ([b0; b1] ++ [b2; b3; b4; b5]). rewrite be_app. cbn [length].
  replace (256 ^ Z.of_nat 4) with (2 ^ 32) by reflexivity. rewrite Z.add_comm, Z.mod_add by lia. by apply Z.mod_small.
Qed.
End Sixteen.

(** An IPv4 address in 16 bytes is judged as the IPv4 address. *)
Lemma blocked_mapped a b c d fuel :
  is_bytes [a; b; c; d] -> IsBlockedIP_at (S fuel) (IPv4 a b c d) = IsBlockedIP_at (S fuel) [a; b; c; d].
Proof.
  intros Hb. assert (Hl : is_bytes (IPv4 a b c d)) by (unfold is_bytes, IPv4 in *; cbn [repeat app]; rewrite !Forall_cons in *; intuition lia).
  assert (Hu : Unmap (V6 (be (IPv4 a b c d))) = V4 (be [a; b; c; d])).
  { cbn [IPv4 repeat app] in *. rewrite Unmap_leads by exact Hl. rewrite <- leads by (exact Hl || (repeat constructor; lia)). by rewrite bool_decide_eq_true_2. }
  assert (Hp : inBlockedPrefix (IPv4 a b c d) = inBlockedPrefix [a; b; c; d]).
  { unfold inBlockedPrefix. change (AddrFromSlice (IPv4 a b c d)) with (Some (V6 (be (IPv4 a b c d)))). cbv iota beta. by rewrite Hu. }
  cbn [IsBlockedIP_at]. rewrite Hp. done.
Qed.

(** The verdict by ranges is the reference. *)
Lemma special6_ranges n v w :
  in_ranges pre6 n ||
    (if within n (span nat64_bytes) then v
     else if within n (span [0; 100; 255; 155; 0; 1]) then true
     else if within n (span [32; 2]) then w
     else within n (span [32; 1; 0; 0])) =
  if within n (first6 [0x64; 0xff9b; 0; 0; 0; 0], last6 [0x64; 0xff9b; 0; 0; 0; 0]) then v
  else if within n (first6 [0x2002], last6 [0x2002]) then w
  else in_ranges special6 n.
Proof.
  change (first6 [0x64; 0xff9b; 0; 0; 0; 0], last6 [0x64; 0xff9b; 0; 0; 0; 0]) with (span nat64_bytes).
  change (first6 [0x2002], last6 [0x2002]) with (span [32; 2]).
  destruct (within n (span nat64_bytes)) eqn:HN; [by rewrite (ranges_apart pre6 (span nat64_bytes)) by (done || (vm_compute; reflexivity))|].
  destruct (within n (span [32; 2])) eqn:HS.
  + rewrite (ranges_apart pre6 (span [32; 2])) by (done || (vm_compute; reflexivity)). cbn [orb].
    assert (HL : in_ranges [span [0; 100; 255; 155; 0; 1]] n = false) by (apply (ranges_apart _ (span [32; 2])); [vm_compute; reflexivity|done]).
    cbn in HL. rewrite orb_false_r in HL. by rewrite HL.
  + transitivity (in_ranges (pre6 ++ [span [0; 100; 255; 155; 0; 1]; span [32; 1; 0; 0]]) n); [|apply ranges_ext; vm_compute; reflexivity].
    rewrite in_ranges_app. f_equal. cbn. rewrite orb_false_r. by destruct (within n (span [0; 100; 255; 155; 0; 1])).
Qed.

(** The tests one after the other, as one expression. *)
Lemma blocked6_tests l fuel :
  length l = 16%nat -> To4 l = None ->
  IsBlockedIP_at (S fuel) l =
  inBlockedPrefix l || negb (IsGlobalUnicast l) || IsPrivate l || zeros l 0 12 ||
  (if (byte_at l 0 =? 0) && (byte_at l 1 =? 100) && (byte_at l 2 =? 255) && (byte_at l 3 =? 155) && zeros l 4 12 then
     IsBlockedIP_at fuel (IPv4 (byte_at l 12) (byte_at l 13) (byte_at l 14) (byte_at l 15))
   else if (byte_at l 0 =? 0) && (byte_at l 1 =? 100) && (byte_at l 2 =? 255) && (byte_at l 3 =? 155) && (byte_at l 4 =? 0) && (byte_at l 5 =? 1) then true
   else if (byte_at l 0 =? 32) && (byte_at l 1 =? 2) then IsBlockedIP_at fuel (IPv4 (byte_at l 2) (byte_at l 3) (byte_at l 4) (byte_at l 5))
   else (byte_at l 0 =? 32) && (byte_at l 1 =? 1) && (byte_at l 2 =? 0) && (byte_at l 3 =? 0)).
Proof.
  intros Hlen H4. cbn [IsBlockedIP_at]. rewrite H4. unfold To16. rewrite Hlen.
  destruct (inBlockedPrefix l); [done|]. destruct (negb (IsGlobalUnicast l)); [done|]. destruct (IsPrivate l); [done|].
  destruct (zeros l 0 12); [done|]. cbn [orb]. destruct (_ && zeros l 4 12); [done|]. destruct (_ && (byte_at l 5 =? 1)); [done|].
  destruct ((byte_at l 0 =? 32) && (byte_at l 1 =? 2)); [done|]. by destruct (_ && (byte_at l 3 =? 0)).
Qed.

Lemma blocked6 b0 b1 b2 b3 b4 b5 b6 b7 b8 b9 b10 b11 b12 b13 b14 b15 fuel :
  let l := [b0; b1; b2; b3; b4; b5; b6; b7; b8; b9; b10; b11; b12; b13; b14; b15] in
  is_bytes l -> IsBlockedIP_at (S (S fuel)) l = special (Unmap (V6 (be l))).
Proof.
  intros l Hl. assert (H4 : is_bytes [b12; b13; b14; b15] /\ is_bytes [b2; b3; b4; b5]) by (unfold is_bytes, l in *; rewrite !Forall_cons in *; tauto).
  destruct H4 as [Hlow Hmid].
  assert (Hu : Unmap (V6 (be l)) = if within (be l) (span (repeat 0 10 ++ [255; 255])) then V4 (be [b12; b13; b14; b15]) else V6 (be l)) by (by apply Unmap_leads).
  rewrite Hu. destruct (within (be l) (span (repeat 0 10 ++ [255; 255]))) eqn:Hm.
  - assert (Ht : take 12 l = repeat 0 10 ++ [255; 255]).
    { assert (Hx : bool_decide (take (length (repeat 0 10 ++ [255; 255])) l = repeat 0 10 ++ [255; 255]) = within (be l) (span (repeat 0 10 ++ [255; 255])))
        by (apply leads; [exact Hl|repeat constructor; lia|cbn; lia]).
      rewrite Hm in Hx. by apply bool_decide_eq_true in Hx. }
    assert (El : l = IPv4 b12 b13 b14 b15) by (unfold IPv4; rewrite <- (take_drop 12 l), Ht; done).
    rewrite El, blocked_mapped by done. by apply blocked4.
  - assert (Hp : inBlockedPrefix l || negb (IsGlobalUnicast l) || IsPrivate l || zeros l 0 12 = in_ranges pre6 (be l)) by (by apply plain6_before).
    assert (H4 : To4 l = None) by (unfold l; rewrite To4_leads by exact Hl; fold l; by rewrite Hm).
    assert (V : forall a b c d, is_bytes [a; b; c; d] -> IsBlockedIP_at (S fuel) (IPv4 a b c d) = in_ranges special4 (be [a; b; c; d]))
      by (intros a b c d Hb; rewrite blocked_mapped by done; by apply blocked4).
    rewrite blocked6_tests, Hp by done. cbn [special].
    rewrite (V (byte_at l 12) (byte_at l 13) (byte_at l 14) (byte_at l 15)), (V (byte_at l 2) (byte_at l 3) (byte_at l 4) (byte_at l 5)) by done.
    unfold l. rewrite nat64_leads, local64_leads, sixto4_leads, teredo_leads, low4, middle4 by exact Hl. apply special6_ranges.
Qed.

(** C36. Which addresses are refused. For every address of any length,
    [IsBlockedIP] answers true exactly when it is malformed, lies in a
    special-purpose range of the IPv4 or IPv6 registry (an IPv4-mapped address
    counting as the IPv4 one), or is a NAT64 or 6to4 address whose embedded IPv4
    destination does. *)
Theorem address_classification (ip : IP) :
  is_bytes ip -> IsBlockedIP ip = match AddrFromSlice ip with Some a => special (Unmap a) | None => true end.
Proof.
  intros Hip. unfold IsBlockedIP. destruct (decide (length ip = 4%nat)) as [H4|H4].
  { destruct ip as [|a [|b [|c [|d [|]]]]]; try discriminate. by apply blocked4. }
  destruct (decide (length ip = 16%nat)) as [H6|H6].
  { do 16 (destruct ip as [|? ip]; [discriminate|]). destruct ip; [|discriminate]. by apply blocked6. }
  assert (Hn : AddrFromSlice ip = None).
  { unfold AddrFromSlice. do 17 (destruct ip as [|? ip]; cbn in *; try done). }
  rewrite Hn. cbn [IsBlockedIP_at]. unfold inBlockedPrefix. by rewrite Hn.
Qed.

Lemma address_classification_witness :
  IsBlockedIP [8; 8; 8; 8] = false /\ IsBlockedIP [0x20; 0x02; 10; 0; 0; 1; 0; 0; 0; 0; 0; 0; 0; 0; 0; 1] = true.
Proof. split; (etrans; [apply address_classification; repeat constructor; lia|vm_compute; reflexivity]). Defined.

(** ** What a fetch can reach *)

Section Reach.
Context (url_Parse : string -> option URL) (SplitHostPort : string -> option string) (ParseIP : string -> option IP).
Context (candidates : nat -> string -> list string) (accepts : nat -> string -> bool) (respond : nat -> string -> response).

Definition vetted_address (g : Guard) (a : string) : Prop :=
  exists host ip, SplitHostPort a = Some host /\ ParseIP host = Some ip /\ blockedIP g (Some ip) = false.

Definition vetted_url (g : Guard) (raw : string) : Prop := exists u, ValidateURL url_Parse ParseIP g raw = Ok u.

Lemma control_vets g a : control SplitHostPort ParseIP g a = None -> vetted_address g a.
Proof.
  unfold control. destruct (SplitHostPort a) as [host|] eqn:Hs; [|done]. destruct (ParseIP host) as [ip|] eqn:Hp; [|done].
  destruct (blockedIP g (Some ip)) eqn:Hb; [done|]. intros _. by exists host, ip.
Qed.

Lemma dial_vets g n addrs : Forall (vetted_address g) (dial SplitHostPort ParseIP accepts g n addrs).2.
Proof.
  induction addrs as [|a rest IH]; cbn; [constructor|]. destruct (control _ _ g a) eqn:Hc; [done|]. apply control_vets in Hc.
  destruct (accepts n a); [by constructor|]. destruct (dial _ _ _ g n rest). by constructor.
Qed.

Lemma follow_vets fuel g raw u via :
  vetted_url g raw -> (via + fuel = maxRedirects)%nat -> (0 < fuel)%nat ->
  let '(o, urls, addrs) := follow url_Parse SplitHostPort ParseIP candidates accepts respond fuel g raw u via in
  o <> OutOfFuel /\ (length urls <= fuel)%nat /\ Forall (vetted_url g) urls /\ Forall (vetted_address g) addrs.
Proof.
  revert raw u via. induction fuel as [|fuel IH]; intros raw u via Hraw Hvia Hpos; [lia|]. cbn [follow].
  pose proof (dial_vets g via (candidates via (uHostname u))) as Hd. destruct (dial _ _ _ g via _) as [ok contacted]. cbn [snd] in Hd.
  destruct ok; cbn [negb]; [|split_and!; [done|cbn; lia|by repeat constructor|done]].
  destruct (respond via raw) as [|target]; [split_and!; [done|cbn; lia|by repeat constructor|done]|].
  destruct (CheckRedirect _ _ g target (S via)) as [e|] eqn:Hc; [split_and!; [done|cbn; lia|by repeat constructor|done]|].
  destruct (url_Parse target) as [u'|]; [|split_and!; [done|cbn; lia|by repeat constructor|done]].
  unfold CheckRedirect in Hc. destruct (Nat.leb_spec maxRedirects (S via)) as [|Hlt]; [done|].
  assert (Ht : vetted_url g target) by (unfold vetted_url; destruct (ValidateURL _ _ g target); [by eexists|done]).
  specialize (IH target u' (S via) Ht ltac:(lia) ltac:(lia)).
  destruct (follow _ _ _ _ _ _ fuel g target u' (S via)) as [[o urls] addrs]. destruct IH as (I1 & I2 & I3 & I4).
  split_and!; [done|cbn; lia|by constructor|by apply Forall_app].
Qed.

(** C35. An outbound fetch reaches only permitted addresses. Whatever the URL,
    whatever the resolver answers and changes between the checks, and wherever
    the servers redirect to, the fetch ends, makes at most five requests, each
    to a URL that passed validation, and connects only to addresses the guard
    permits; with the default guard, to none that is malformed or special
    purpose. *)
Theorem fetch_reaches_permitted_only (g : Guard) (raw : string) :
  (forall host ip, ParseIP host = Some ip -> is_bytes ip) ->
  let '(o, urls, addrs) := fetch url_Parse SplitHostPort ParseIP candidates accepts respond g raw in
  o <> OutOfFuel /\ (length urls <= maxRedirects)%nat /\ Forall (vetted_url g) urls /\ Forall (vetted_address g) addrs /\
  (AllowPrivate g = false -> forall a, a ∈ addrs ->
     exists host ip addr, SplitHostPort a = Some host /\ ParseIP host = Some ip /\ AddrFromSlice ip = Some addr /\ special (Unmap addr) = false).
Proof.
  intros Hbytes. unfold fetch. destruct (ValidateURL _ _ g raw) as [u|e] eqn:Hv.
  - pose proof (follow_vets maxRedirects g raw u 0 ltac:(by eexists) ltac:(done) ltac:(unfold maxRedirects; lia)) as Hf.
    destruct (follow _ _ _ _ _ _ _ g raw u 0) as [[o urls] addrs]. destruct Hf as (F1 & F2 & F3 & F4). split_and!; try done.
    intros Hg a Ha. rewrite Forall_forall in F4. destruct (F4 a Ha) as (host & ip & Hs & Hp & Hb). exists host, ip.
    cbn [blockedIP] in Hb. rewrite Hg, address_classification in Hb by (by eapply Hbytes). destruct (AddrFromSlice ip) as [addr|]; [|done]. by exists addr.
  - split_and!; [done|cbn; lia|constructor|constructor|intros _ a Ha; by inversion Ha].
Qed.
End Reach.

(** A server on a public address that redirects to the metadata service: the
    redirect by literal address is refused before a second request; the
    redirect by a name that resolves there is refused at the dial. *)
Module Scenario.
Definition url_Parse (s : string) : option URL :=
  if bool_decide (s = "http://a/")%string then Some (mkURL "http" false "a")
  else if bool_decide (s = "http://169.254.169.254/")%string then Some (mkURL "http" false "169.254.169.254")
  else if bool_decide (s = "http://rebind/")%string then Some (mkURL "http" false "rebind") else None.
Definition SplitHostPort (s : string) : option string :=
  if bool_decide (s = "93.184.216.34:80")%string then Some "93.184.216.34"%string
  else if bool_decide (s = "169.254.169.254:80")%string then Some "169.254.169.254"%string else None.
Definition ParseIP (s : string) : option IP :=
  if bool_decide (s = "93.184.216.34")%string then Some [93; 184; 216; 34]
  else if bool_decide (s = "169.254.169.254")%string then Some [169; 254; 169; 254] else None.
Definition candidates (n : nat) (host : string) : list string :=
  if bool_decide (host = "a")%string then ["93.184.216.34:80"%string] else ["169.254.169.254:80"%string].
Definition guard : Guard := mkGuard false false.
Definition go (target : string) : outcome * list string * list string :=
  fetch url_Parse SplitHostPort ParseIP candidates (fun _ _ => true) (fun _ _ => Redirect target) guard "http://a/".
End Scenario.

Lemma fetch_reaches_permitted_only_witness :
  Scenario.go "http://169.254.169.254/" = (Refused ErrInvalidURL, ["http://a/"%string], ["93.184.216.34:80"%string]) /\
  Scenario.go "http://rebind/" = (Refused ErrUnreachable, ["http://a/"%string; "http://rebind/"%string], ["93.184.216.34:80"%string]) /\
  let '(o, urls, addrs) := Scenario.go "http://rebind/" in
  o <> OutOfFuel /\ (length urls <= maxRedirects)%nat /\
  Forall (vetted_address Scenario.SplitHostPort Scenario.ParseIP Scenario.guard) addrs.
Proof.
  split_and!; [vm_compute; reflexivity|vm_compute; reflexivity|].
  pose proof (fetch_reaches_permitted_only Scenario.url_Parse Scenario.SplitHostPort Scenario.ParseIP Scenario.candidates
    (fun _ _ => true) (fun _ _ => Redirect "http://rebind/") Scenario.guard "http://a/") as H.
  assert (Hb : forall host ip, Scenario.ParseIP host = Some ip -> is_bytes ip).
  { intros host ip. unfold Scenario.ParseIP. repeat case_bool_decide; intros [= <-]; repeat constructor; lia. }
  specialize (H Hb). unfold Scenario.go. destruct (fetch _ _ _ _ _ _ _ _) as [[o urls] addrs]. by destruct H as (H1 & H2 & _ & H4 & _).
Defined.
