(* ===== verification/MigrationStore.v ===== *)
(** * The tables and stores of a storage migration

    [storage_migrations] (campaigns) and [storage_migration_objects] (the
    object ledger) with one definition per statement of
    src/internal/store/queries/storage_migrations.sql; the stores a process can
    hold a handle on, each under its identity string ([storage.Describe]); and
    the signature [migE] the migration service runs against. *)
From S2P Require Import Prelude GoStrings Queue Storage MediaGC.
Local Open Scope Z_scope.

(** ** Rows *)

(** [storage_migrations.state] *)
Inductive cstate :=
| CEnumerating | CCopying | CSynced | CCutover | CDeletingSource | CDone | CCancelled | CFailed | CPaused | CAborting.

#[global] Instance cstate_eq_dec : EqDecision cstate.
Proof. solve_decision. Defined.

(** [storage_migration_objects.state] *)
Inductive ostate := OPending | OCopying | OVerified | OFailed | OSourceDeleted.

#[global] Instance ostate_eq_dec : EqDecision ostate.
Proof. solve_decision. Defined.

(** A campaign. [cResume] is resume_state: the empty string is [None]. *)
Record Campaign := mkCampaign {
  cID : uuid; cSource : string; cTarget : string; cState : cstate; cResume : option cstate; cReason : string;
  cTotal : Z; cDone : Z; cFailedN : Z; cError : string; cCutoverAt : option time; cWorker : string; cCreated : time;
}.

(** An object of the ledger. *)
Record MObject := mkMObject {
  oKey : string; oCampaign : uuid; oState : ostate; oSha : string; oSize : Z; oAttempts : Z; oNext : time; oError : string;
}.

#[global] Instance Campaign_eq_dec : EqDecision Campaign.
Proof. solve_decision. Defined.
#[global] Instance MObject_eq_dec : EqDecision MObject.
Proof. solve_decision. Defined.

(** The database: [zfiles] is the digest video_files holds for a storage key,
    [zidentity] the id of this install. *)
Record MigDB := mkMigDB {
  camps : gmap uuid Campaign;
  objects : gmap string MObject;
  zfiles : gmap string string;
  zidentity : option uuid;
  znow : time;
  zgen : nat -> uuid;
  zdrawn : nat;
}.

Definition set_camps f (d : MigDB) := mkMigDB (f (camps d)) (objects d) (zfiles d) (zidentity d) (znow d) (zgen d) (zdrawn d).
Definition set_objects f (d : MigDB) := mkMigDB (camps d) (f (objects d)) (zfiles d) (zidentity d) (znow d) (zgen d) (zdrawn d).
Definition set_znow t (d : MigDB) := mkMigDB (camps d) (objects d) (zfiles d) (zidentity d) t (zgen d) (zdrawn d).
Definition zdraw (d : MigDB) := mkMigDB (camps d) (objects d) (zfiles d) (zidentity d) (znow d) (zgen d) (S (zdrawn d)).

Abbreviation zstmt A := (MigDB -> result dberr A * MigDB) (only parsing).

(** ** storage_migrations *)

(** state NOT IN ('done', 'cancelled', 'failed') *)
Definition live_state (st : cstate) : bool := match st with CDone | CCancelled | CFailed => false | _ => true end.

Definition set_cstate (st : cstate) (resume : option cstate) (reason err : string) (at_ : option time) (c : Campaign) : Campaign :=
  mkCampaign (cID c) (cSource c) (cTarget c) st resume reason (cTotal c) (cDone c) (cFailedN c) err at_ (cWorker c) (cCreated c).

(** Newest first, then by id. *)
Definition newer_campaign (x y : Campaign) : Prop :=
  cCreated y < cCreated x \/ (cCreated x = cCreated y /\ string_le (cID x) (cID y)).

#[global] Instance newer_campaign_dec : RelDecision newer_campaign.
Proof. intros x y. unfold newer_campaign. apply _. Defined.

Definition campaigns_by_age (d : MigDB) : list Campaign := merge_sort newer_campaign (map_to_list (camps d)).*2.

(** The partial unique index on live campaigns and the checks on the
    descriptions. *)
Definition q_CreateStorageMigration (source target : string) : zstmt Campaign := fun d =>
  let id := zgen d (zdrawn d) in
  if bool_decide (source = EmptyString) || bool_decide (target = EmptyString) then (Err ErrStore, zdraw d)
  else if bool_decide (is_Some (camps d !! id)) || existsb (fun c => live_state (cState c)) (campaigns_by_age d) then (Err ErrUnique, zdraw d)
  else
    let c := mkCampaign id source target CEnumerating None EmptyString 0 0 0 EmptyString None EmptyString (znow d) in
    (Ok c, set_camps <[id := c]> (zdraw d)).

Definition q_GetStorageMigration (id : uuid) : zstmt Campaign := fun d =>
  (match camps d !! id with Some c => Ok c | None => Err ErrNoRows end, d).

Definition q_GetActiveStorageMigration : zstmt Campaign := fun d =>
  (match filter (fun c => live_state (cState c) = true) (campaigns_by_age d) with c :: _ => Ok c | [] => Err ErrNoRows end, d).

Definition q_ListStorageMigrations (limit : Z) : zstmt (list Campaign) := fun d => (Ok (take (Z.to_nat limit) (campaigns_by_age d)), d).

(** UPDATE of one campaign where its state allows it: how many rows. *)
Definition update_camp (id : uuid) (ok : Campaign -> bool) (f : Campaign -> Campaign) : zstmt Z := fun d =>
  match camps d !! id with
  | Some c => if ok c then (Ok 1, set_camps <[id := f c]> d) else (Ok 0, d)
  | None => (Ok 0, d)
  end.

(** A statement that reports nothing (:exec). *)
Definition quiet (q : zstmt Z) : zstmt unit := fun d => (match (q d).1 with Ok _ => Ok tt | Err e => Err e end, (q d).2).

Definition q_SetStorageMigrationState (id : uuid) (st : cstate) (err : string) : zstmt unit :=
  quiet (update_camp id (fun c => live_state (cState c)) (fun c => set_cstate st (cResume c) (cReason c) err (cCutoverAt c) c)).

Definition q_SetStorageMigrationError (id : uuid) (err : string) : zstmt unit :=
  quiet (update_camp id (fun c => live_state (cState c) && negb (bool_decide (cError c = err)))
    (fun c => set_cstate (cState c) (cResume c) (cReason c) err (cCutoverAt c) c)).

Definition q_MarkStorageMigrationCutover (id : uuid) : zstmt unit := fun d =>
  quiet (update_camp id (fun c => match cState c with CCopying | CSynced => true | _ => false end)
    (fun c => set_cstate CCutover (cResume c) (cReason c) EmptyString
                (match cCutoverAt c with Some t => Some t | None => Some (znow d) end) c)) d.

(** The phases before the cutover, which can be paused. *)
Definition pausable (st : cstate) : bool := match st with CEnumerating | CCopying | CSynced => true | _ => false end.

Definition q_PauseStorageMigration (id : uuid) (reason err : string) : zstmt Z :=
  update_camp id (fun c => pausable (cState c)) (fun c => set_cstate CPaused (Some (cState c)) reason err (cCutoverAt c) c).

Definition q_ResumeStorageMigration (id : uuid) : zstmt Z :=
  update_camp id (fun c => bool_decide (cState c = CPaused))
    (fun c => set_cstate (match cResume c with Some st => st | None => CCopying end) None EmptyString EmptyString (cCutoverAt c) c).

Definition q_AbortStorageMigrationWithCleanup (id : uuid) (err : string) : zstmt Z :=
  update_camp id (fun c => pausable (cState c) || bool_decide (cState c = CPaused))
    (fun c => set_cstate CAborting None EmptyString err (cCutoverAt c) c).

Definition q_ReleaseStorageMigrationSource (id : uuid) : zstmt Z :=
  update_camp id (fun c => bool_decide (cState c = CCutover))
    (fun c => set_cstate CDeletingSource (cResume c) (cReason c) EmptyString (cCutoverAt c) c).

Definition q_CancelStorageMigration (id : uuid) : zstmt Z :=
  update_camp id (fun c => live_state (cState c)) (fun c => set_cstate CCancelled None EmptyString (cError c) (cCutoverAt c) c).

Definition q_SetStorageMigrationWorker (id : uuid) (worker : string) : zstmt unit :=
  quiet (update_camp id (fun c => negb (bool_decide (cWorker c = worker)))
    (fun c => mkCampaign (cID c) (cSource c) (cTarget c) (cState c) (cResume c) (cReason c) (cTotal c) (cDone c) (cFailedN c) (cError c) (cCutoverAt c) worker (cCreated c))).

(** ** storage_migration_objects *)

Definition ledger (id : uuid) (d : MigDB) : list MObject := filter (fun o => oCampaign o = id) (map_to_list (objects d)).*2.
Definition in_states (sts : list ostate) (id : uuid) (d : MigDB) : list MObject := filter (fun o => oState o ∈ sts) (ledger id d).
Definition count_in (sts : list ostate) (id : uuid) (d : MigDB) : Z := Z.of_nat (length (in_states sts id d)).

Definition q_RefreshStorageMigrationCounters (id : uuid) : zstmt unit := fun d =>
  let total := Z.of_nat (length (ledger id d)) in
  let done := count_in [OVerified; OSourceDeleted] id d in
  let failed := count_in [OFailed] id d in
  quiet (update_camp id (fun c => negb (bool_decide ((cTotal c, cDone c, cFailedN c) = (total, done, failed))))
    (fun c => mkCampaign (cID c) (cSource c) (cTarget c) (cState c) (cResume c) (cReason c) total done failed (cError c) (cCutoverAt c) (cWorker c) (cCreated c))) d.

(** Whether the campaign of the object is over. *)
Definition over (d : MigDB) (o : MObject) : bool :=
  match camps d !! oCampaign o with Some c => negb (live_state (cState c)) | None => false end.

Definition q_DeleteTerminalStorageMigrationObjects : zstmt Z := fun d =>
  (Ok (Z.of_nat (length (filter (fun kv => over d kv.2 = true) (map_to_list (objects d))))),
   set_objects (filter (fun kv => over d kv.2 = false)) d).

(** One key of the INSERT ... ON CONFLICT DO NOTHING: whether a row was
    added. *)
Definition offer (id : uuid) (t : time) (key : string) (m : gmap string MObject) : bool * gmap string MObject :=
  match m !! key with
  | Some _ => (false, m)
  | None => (true, <[key := mkMObject key id OPending EmptyString 0 0 t EmptyString]> m)
  end.

Fixpoint offer_all (id : uuid) (t : time) (keys : list string) (m : gmap string MObject) : Z * gmap string MObject :=
  match keys with
  | [] => (0, m)
  | k :: ks =>
      let r := offer id t k m in
      let r' := offer_all id t ks r.2 in
      ((if r.1 then 1 else 0) + r'.1, r'.2)
  end.

(** The check object_key <> '' and the foreign key. *)
Definition q_UpsertStorageMigrationObjects (id : uuid) (keys : list string) : zstmt Z := fun d =>
  if existsb (fun k => bool_decide (k = EmptyString)) keys || bool_decide (camps d !! id = None) then (Err ErrStore, d)
  else (Ok (offer_all id (znow d) keys (objects d)).1, set_objects (fun m => (offer_all id (znow d) keys m).2) d).

(** ORDER BY next_attempt_at, object_key *)
Definition due_order (x y : MObject) : Prop := oNext x < oNext y \/ (oNext x = oNext y /\ string_le (oKey x) (oKey y)).

#[global] Instance due_order_dec : RelDecision due_order.
Proof. intros x y. unfold due_order. apply _. Defined.

Definition claimable (d : MigDB) (o : MObject) : Prop :=
  oState o = OPending /\ oNext o <= znow d /\
  match camps d !! oCampaign o with Some c => cState c = CCopying \/ cState c = CSynced | None => False end.

#[global] Instance claimable_dec d o : Decision (claimable d o).
Proof. unfold claimable. destruct (camps d !! oCampaign o); apply _. Defined.

Definition mlease : duration := 30 * Minute.

Definition set_ostate (st : ostate) (attempts : Z) (next : time) (err : string) (o : MObject) : MObject :=
  mkMObject (oKey o) (oCampaign o) st (oSha o) (oSize o) attempts next err.

(** Update the rows with these keys. *)
Definition update_objects (f : MObject -> MObject) (os : list MObject) (m : gmap string MObject) : gmap string MObject :=
  foldr (fun o => alter f (oKey o)) m os.

Definition q_ClaimDueStorageMigrationObjects (limit : Z) : zstmt (list (string * uuid * Z)) := fun d =>
  let os := take (Z.to_nat limit) (merge_sort due_order (filter (claimable d) (map_to_list (objects d)).*2)) in
  (Ok (map (fun o => (oKey o, oCampaign o, oAttempts o)) os),
   set_objects (update_objects (fun o => set_ostate OCopying (oAttempts o) (znow d + mlease) (oError o) o) os) d).

(** UPDATE of one object in the state the statement expects. *)
Definition update_obj (key : string) (from : ostate) (f : MObject -> MObject) : zstmt unit := fun d =>
  (Ok tt, set_objects (alter (fun o => if bool_decide (oState o = from) then f o else o) key) d).

Definition q_RenewStorageMigrationObjectLease (key : string) : zstmt unit := fun d =>
  update_obj key OCopying (fun o => set_ostate OCopying (oAttempts o) (znow d + mlease) (oError o) o) d.

Definition q_SweepExpiredStorageMigrationObjects : zstmt Z := fun d =>
  let os := take 1000 (merge_sort (by_key oNext) (filter (fun o => oState o = OCopying /\ oNext o <= znow d) (map_to_list (objects d)).*2)) in
  (Ok (Z.of_nat (length os)), set_objects (update_objects (fun o => set_ostate OPending (oAttempts o + 1) (oNext o) (oError o) o) os) d).

Definition q_MarkStorageMigrationObjectVerified (key sha : string) (size : Z) : zstmt unit :=
  update_obj key OCopying (fun o => mkMObject (oKey o) (oCampaign o) OVerified sha size (oAttempts o) (oNext o) EmptyString).

Definition q_RescheduleStorageMigrationObject (key : string) (next : time) (err : string) : zstmt unit :=
  update_obj key OCopying (fun o => set_ostate OPending (oAttempts o + 1) next err o).

Definition q_FailStorageMigrationObject (key err : string) : zstmt unit :=
  update_obj key OCopying (fun o => set_ostate OFailed (oAttempts o + 1) (oNext o) err o).

Definition q_MarkStorageMigrationObjectSourceDeleted (key : string) : zstmt unit :=
  update_obj key OVerified (fun o => set_ostate OSourceDeleted (oAttempts o) (oNext o) (oError o) o).

Definition q_DeleteStorageMigrationObject (key : string) : zstmt unit := fun d => (Ok tt, set_objects (delete key) d).

(** ORDER BY object_key LIMIT *)
Definition verified_keys (id : uuid) (limit : Z) (d : MigDB) : list string :=
  take (Z.to_nat limit) (merge_sort string_le (map oKey (in_states [OVerified] id d))).

Definition q_ListVerifiedStorageMigrationObjects (id : uuid) (limit : Z) : zstmt (list string) := fun d => (Ok (verified_keys id limit d), d).
Definition q_ListDestinationCopiesToRemove (id : uuid) (limit : Z) : zstmt (list string) := fun d => (Ok (verified_keys id limit d), d).

Definition q_CountUncopiedStorageMigrationObjects (id : uuid) : zstmt Z := fun d => (Ok (count_in [OPending; OCopying] id d), d).
Definition q_CountUnfinishedStorageMigrationObjects (id : uuid) : zstmt Z := fun d => (Ok (count_in [OPending; OCopying; OVerified] id d), d).

(** GROUP BY state: the states that have rows, with their counts. *)
Definition q_CountStorageMigrationObjectsByState (id : uuid) : zstmt (list (ostate * Z)) := fun d =>
  (Ok (filter (fun kv => kv.2 <> 0) (map (fun st => (st, count_in [st] id d)) [OCopying; OFailed; OPending; OSourceDeleted; OVerified])), d).

(** GROUP BY last_error: category, terminal, retrying. *)
Definition q_CountStorageMigrationObjectFailuresByCategory (id : uuid) : zstmt (list (string * Z * Z)) := fun d =>
  let failing := filter (fun o => oError o <> EmptyString) (ledger id d) in
  (Ok (map (fun cat =>
         (cat, Z.of_nat (length (filter (fun o => oError o = cat /\ oState o = OFailed) failing)),
               Z.of_nat (length (filter (fun o => oError o = cat /\ oState o <> OFailed) failing))))
       (merge_sort string_le (remove_dups (map oError failing)))), d).

(** ** video_files, instance_identity *)

Definition q_GetVideoFileSHA256ByStorageKey (key : string) : zstmt string := fun d =>
  (match zfiles d !! key with Some sum => Ok sum | None => Err ErrNoRows end, d).

Definition q_GetInstanceIdentity : zstmt uuid := fun d => (match zidentity d with Some id => Ok id | None => Err ErrNoRows end, d).

(** ** Object stores *)

(** [storage.RootLister] *)
Class RootLister (B : Type) := { be_listAll : B -> result ioerr (list string) }.

(** A listing of the whole store names each stored object once. Keys are
    canonical: nothing of the program stores under another form. *)
Class RootListerLaws (B : Type) `{Backend B, RootLister B} := {
  listAll_nodup (b : B) ks : be_listAll b = Ok ks -> NoDup ks;
  listAll_spec (b : B) ks k :
    be_listAll b = Ok ks -> k ∈ ks <-> canonical k = true /\ is_Some (contents b k);
}.

(** What an S3 bucket promises beyond [BackendLaws]: an upload that fails leaves
    the object as it was or complete, an absent object is reported as such, a
    delete that fails does not change the object into another one. *)
Class ObjectStoreLaws (B : Type) `{Backend B} := {
  put_failed k r (b : B) e :
    canonical k = true -> (be_put k r b).1 = Err e ->
    contents (be_put k r b).2 k = contents b k \/ (rend r = None /\ contents (be_put k r b).2 k = Some (data r));
  open_absent k (b : B) : canonical k = true -> contents b k = None -> be_open k b = Err ErrNotFound;
  delete_failed k (b : B) d : canonical k = true -> contents (be_delete k b).2 k = Some d -> contents b k = Some d;
}.

(** [Local.ListAllKeys]: every file below the root. *)
Definition Local_ListAllKeys (l : Local) : list string :=
  map join_slash (filter (fun q => forallb clean_seg q && negb (bool_decide (q = [])) = true) (map_to_list (files l)).*1).

#[global] Instance local_root_lister : RootLister LocalFS := { be_listAll b := Ok (Local_ListAllKeys (tree b)) }.

(** A bucket that behaves as documented: the reference the laws are checked
    against. *)
Record Bucket := mkBucket { bobjects : gmap string bytes }.

#[global] Instance bucket_backend : Backend Bucket := {
  be_put k r b :=
    if negb (canonical k) then (Err ErrInvalidKey, b)
    else match rend r with
         | Some e => (Err e, b)
         | None => (Ok (Z.of_nat (length (data r))), mkBucket (<[k := data r]> (bobjects b)))
         end;
  be_open k b :=
    if negb (canonical k) then Err ErrInvalidKey
    else match bobjects b !! k with Some d => Ok (Reader [d] None false) | None => Err ErrNotFound end;
  be_delete k b := if negb (canonical k) then (Err ErrInvalidKey, b) else (Ok tt, mkBucket (delete k (bobjects b)));
  be_deletePrefix p b :=
    if negb (canonical p) then (Err ErrInvalidKey, b) else (Ok tt, mkBucket (filter (fun kv => under p kv.1 = false) (bobjects b)));
  contents b k := bobjects b !! k;
}.

#[global] Instance bucket_laws : BackendLaws Bucket.
Proof.
  split; cbn.
  - intros k r b n ->. cbn. destruct (rend r); [done|]. cbn. intros [= <-]. by rewrite lookup_insert_eq.
  - intros k k' r b -> _ Hne. cbn. destruct (rend r); [done|]. by apply lookup_insert_ne.
  - intros k b d -> Hd. cbn. rewrite Hd. exists (Reader [d] None false). unfold data. cbn. by rewrite app_nil_r.
  - intros k b r -> ->. done.
  - intros k b ->. cbn. intros _. apply lookup_delete_eq.
  - intros k k' b -> _ Hne. by apply lookup_delete_ne.
  - intros p k b -> _ Hu. cbn. intros _. apply map_lookup_filter_None_2. right. intros d _. cbn. by rewrite Hu.
  - intros p k b -> _ Hu. cbn. destruct (bobjects b !! k) as [d|] eqn:Hd.
    + by apply map_lookup_filter_Some_2.
    + apply map_lookup_filter_None_2. by left.
Qed.

#[global] Instance bucket_store_laws : ObjectStoreLaws Bucket.
Proof.
  split; cbn.
  - intros k r b e ->. cbn. destruct (rend r); [by left|done].
  - intros k b -> ->. done.
  - intros k b d ->. cbn. by rewrite lookup_delete_eq.
Qed.

#[global] Instance bucket_root_lister : RootLister Bucket :=
  { be_listAll b := Ok (filter (fun k => canonical k = true) (map_to_list (bobjects b)).*1) }.

#[global] Instance bucket_root_lister_laws : RootListerLaws Bucket.
Proof.
  split.
  - intros b ks [= <-]. apply NoDup_filter, NoDup_fst_map_to_list.
  - intros b ks k [= <-]. rewrite list_elem_of_filter. cbn. split; intros [Hc Hk]; (split; [done|]).
    + apply list_elem_of_fmap in Hk as ([k' d] & -> & Hk). apply elem_of_map_to_list in Hk. by exists d.
    + destruct Hk as [d Hd]. apply list_elem_of_fmap. exists (k, d). by rewrite elem_of_map_to_list.
Qed.

(** [storage.Fallback]: reads ask the primary and, when it does not have the
    object, the secondary; writes go to the primary; a deletion reaches both. *)
Section Fallback.
Context {B : Type} `{Backend B}.

Definition Fallback_Put (key : string) (r : reader) (f : B * option B) : result ioerr Z * (B * option B) :=
  let p := be_put key r f.1 in (p.1, (p.2, f.2)).

Definition Fallback_Delete (key : string) (f : B * option B) : result ioerr unit * (B * option B) :=
  let p := be_delete key f.1 in
  match p.1, f.2 with
  | Err e, s => (Err e, (p.2, s))
  | Ok _, None => (Ok tt, (p.2, None))
  | Ok _, Some s => (Ok tt, (p.2, Some (be_delete key s).2))
  end.

Definition Fallback_Open (key : string) (f : B * option B) : result ioerr reader :=
  match be_open key f.1, f.2 with
  | Err ErrNotFound, Some s => be_open key s
  | r, _ => r
  end.
End Fallback.

(** ** The world *)

(** What happens to the next operation on an object store: nothing special, it
    fails, its answer is lost after the effect, or the body it hands out breaks
    off after some bytes. *)
Inductive iofault := IoFine | IoFail | IoLost | IoBreak (n : nat).

#[global] Instance iofault_eq_dec : EqDecision iofault.
Proof. solve_decision. Defined.

(** The database, the stores by identity, their faults, and the verdict of the
    target's write probe. *)
Record zworld (B : Type) := mkZWorld {
  zdb : faulty MigDB;
  zstores : gmap string B;
  ziofaults : list iofault;
  zwritable : bool;
}.
Arguments mkZWorld {B}.
Arguments zdb {B}.
Arguments zstores {B}.
Arguments ziofaults {B}.
Arguments zwritable {B}.

(** [storagemigration.Repository], the two backends and the target's monitor;
    and the statement of the job-recovery sweep on the same table. *)
Inductive migE : Type -> Type :=
| CreateStorageMigration (source target : string) : migE (result dberr Campaign)
| GetStorageMigration (id : uuid) : migE (result dberr Campaign)
| GetActiveStorageMigration : migE (result dberr Campaign)
| ListStorageMigrations (limit : Z) : migE (result dberr (list Campaign))
| SetStorageMigrationState (id : uuid) (st : cstate) (err : string) : migE (result dberr unit)
| SetStorageMigrationError (id : uuid) (err : string) : migE (result dberr unit)
| MarkStorageMigrationCutover (id : uuid) : migE (result dberr unit)
| CancelStorageMigration (id : uuid) : migE (result dberr Z)
| PauseStorageMigration (id : uuid) (reason err : string) : migE (result dberr Z)
| ResumeStorageMigration (id : uuid) : migE (result dberr Z)
| AbortStorageMigrationWithCleanup (id : uuid) (err : string) : migE (result dberr Z)
| ReleaseStorageMigrationSource (id : uuid) : migE (result dberr Z)
| SetStorageMigrationWorker (id : uuid) (worker : string) : migE (result dberr unit)
| CountStorageMigrationObjectFailuresByCategory (id : uuid) : migE (result dberr (list (string * Z * Z)))
| ListDestinationCopiesToRemove (id : uuid) (limit : Z) : migE (result dberr (list string))
| DeleteStorageMigrationObject (key : string) : migE (result dberr unit)
| RefreshStorageMigrationCounters (id : uuid) : migE (result dberr unit)
| UpsertStorageMigrationObjects (id : uuid) (keys : list string) : migE (result dberr Z)
| DeleteTerminalStorageMigrationObjects : migE (result dberr Z)
| ClaimDueStorageMigrationObjects (limit : Z) : migE (result dberr (list (string * uuid * Z)))
| RenewStorageMigrationObjectLease (key : string) : migE (result dberr unit)
| SweepExpiredStorageMigrationObjects : migE (result dberr Z)
| MarkStorageMigrationObjectVerified (key sha : string) (size : Z) : migE (result dberr unit)
| RescheduleStorageMigrationObject (key : string) (next : time) (err : string) : migE (result dberr unit)
| FailStorageMigrationObject (key err : string) : migE (result dberr unit)
| MarkStorageMigrationObjectSourceDeleted (key : string) : migE (result dberr unit)
| ListVerifiedStorageMigrationObjects (id : uuid) (limit : Z) : migE (result dberr (list string))
| CountUncopiedStorageMigrationObjects (id : uuid) : migE (result dberr Z)
| CountUnfinishedStorageMigrationObjects (id : uuid) : migE (result dberr Z)
| CountStorageMigrationObjectsByState (id : uuid) : migE (result dberr (list (ostate * Z)))
| GetVideoFileSHA256ByStorageKey (key : string) : migE (result dberr string)
| GetInstanceIdentity : migE (result dberr uuid)
| ZNow : migE time
| TargetWritable : migE bool
| ZOpen (h key : string) : migE (result ioerr reader)
| ZPut (h key : string) (r : reader) : migE (result ioerr Z)
| ZDelete (h key : string) : migE (result ioerr unit)
| ZListAll (h : string) : migE (result ioerr (list string)).

Section Handler.
Context {B : Type} `{Backend B, !RootLister B}.
Implicit Types (w : zworld B).

Definition on_mig {A} (q : MigDB -> result dberr A * MigDB) w : result dberr A * zworld B :=
  let r := exec q (zdb w) in (r.1, mkZWorld r.2 (zstores w) (ziofaults w) (zwritable w)).

(** An operation on the store named [h], with what befalls it. *)
Definition on_store {A} (h : string) (op : B -> result ioerr A * B) w : result ioerr A * zworld B :=
  let rest := tail (ziofaults w) in
  match zstores w !! h with
  | None => (Err ErrIO, mkZWorld (zdb w) (zstores w) rest (zwritable w))
  | Some b =>
      match ziofaults w with
      | IoFail :: _ => (Err ErrIO, mkZWorld (zdb w) (zstores w) rest (zwritable w))
      | IoLost :: _ => (Err ErrIO, mkZWorld (zdb w) (<[h := (op b).2]> (zstores w)) rest (zwritable w))
      | _ => ((op b).1, mkZWorld (zdb w) (<[h := (op b).2]> (zstores w)) rest (zwritable w))
      end
  end.

(** A body that breaks off. *)
Definition broken (n : nat) (r : reader) : reader := Reader [take n (data r)] (Some ErrIO) false.

Definition opened (h key : string) w : result ioerr reader :=
  match zstores w !! h with
  | None => Err ErrIO
  | Some b =>
      match ziofaults w with
      | IoFail :: _ | IoLost :: _ => Err ErrIO
      | IoBreak n :: _ => match be_open key b with Ok r => Ok (broken n r) | Err e => Err e end
      | _ => be_open key b
      end
  end.

Definition mig_handler : handler migE (zworld B) := fun X e w =>
  match e in migE X return X * zworld B with
  | CreateStorageMigration source target => on_mig (q_CreateStorageMigration source target) w
  | GetStorageMigration id => on_mig (q_GetStorageMigration id) w
  | GetActiveStorageMigration => on_mig q_GetActiveStorageMigration w
  | ListStorageMigrations limit => on_mig (q_ListStorageMigrations limit) w
  | SetStorageMigrationState id st err => on_mig (q_SetStorageMigrationState id st err) w
  | SetStorageMigrationError id err => on_mig (q_SetStorageMigrationError id err) w
  | MarkStorageMigrationCutover id => on_mig (q_MarkStorageMigrationCutover id) w
  | CancelStorageMigration id => on_mig (q_CancelStorageMigration id) w
  | PauseStorageMigration id reason err => on_mig (q_PauseStorageMigration id reason err) w
  | ResumeStorageMigration id => on_mig (q_ResumeStorageMigration id) w
  | AbortStorageMigrationWithCleanup id err => on_mig (q_AbortStorageMigrationWithCleanup id err) w
  | ReleaseStorageMigrationSource id => on_mig (q_ReleaseStorageMigrationSource id) w
  | SetStorageMigrationWorker id worker => on_mig (q_SetStorageMigrationWorker id worker) w
  | CountStorageMigrationObjectFailuresByCategory id => on_mig (q_CountStorageMigrationObjectFailuresByCategory id) w
  | ListDestinationCopiesToRemove id limit => on_mig (q_ListDestinationCopiesToRemove id limit) w
  | DeleteStorageMigrationObject key => on_mig (q_DeleteStorageMigrationObject key) w
  | RefreshStorageMigrationCounters id => on_mig (q_RefreshStorageMigrationCounters id) w
  | UpsertStorageMigrationObjects id keys => on_mig (q_UpsertStorageMigrationObjects id keys) w
  | DeleteTerminalStorageMigrationObjects => on_mig q_DeleteTerminalStorageMigrationObjects w
  | ClaimDueStorageMigrationObjects limit => on_mig (q_ClaimDueStorageMigrationObjects limit) w
  | RenewStorageMigrationObjectLease key => on_mig (q_RenewStorageMigrationObjectLease key) w
  | SweepExpiredStorageMigrationObjects => on_mig q_SweepExpiredStorageMigrationObjects w
  | MarkStorageMigrationObjectVerified key sha size => on_mig (q_MarkStorageMigrationObjectVerified key sha size) w
  | RescheduleStorageMigrationObject key next err => on_mig (q_RescheduleStorageMigrationObject key next err) w
  | FailStorageMigrationObject key err => on_mig (q_FailStorageMigrationObject key err) w
  | MarkStorageMigrationObjectSourceDeleted key => on_mig (q_MarkStorageMigrationObjectSourceDeleted key) w
  | ListVerifiedStorageMigrationObjects id limit => on_mig (q_ListVerifiedStorageMigrationObjects id limit) w
  | CountUncopiedStorageMigrationObjects id => on_mig (q_CountUncopiedStorageMigrationObjects id) w
  | CountUnfinishedStorageMigrationObjects id => on_mig (q_CountUnfinishedStorageMigrationObjects id) w
  | CountStorageMigrationObjectsByState id => on_mig (q_CountStorageMigrationObjectsByState id) w
  | GetVideoFileSHA256ByStorageKey key => on_mig (q_GetVideoFileSHA256ByStorageKey key) w
  | GetInstanceIdentity => on_mig q_GetInstanceIdentity w
  | ZNow => (znow (store (zdb w)), w)
  | TargetWritable => (zwritable w, w)
  | ZOpen h key => (opened h key w, mkZWorld (zdb w) (zstores w) (tail (ziofaults w)) (zwritable w))
  | ZPut h key r => on_store h (be_put key r) w
  | ZDelete h key => on_store h (be_delete key) w
  | ZListAll h =>
      (match zstores w !! h with
       | None => Err ErrIO
       | Some b => match ziofaults w with IoFail :: _ | IoLost :: _ => Err ErrIO | _ => be_listAll b end
       end, mkZWorld (zdb w) (zstores w) (tail (ziofaults w)) (zwritable w))
  end.

(** Time passes and the probe's verdict changes. *)
Definition zclock w w' : Prop :=
  exists t ok, znow (store (zdb w)) <= t /\
    w' = mkZWorld (Faulty (set_znow t (store (zdb w))) (faults (zdb w))) (zstores w) (ziofaults w) ok.
End Handler.
