(* ===== verification/Migration.v ===== *)
(** * Storage migration (src/internal/storagemigration)

    Moves a library from one object store to another: [Start] opens a campaign,
    [CopyOnce] (any number of workers) copies and verifies claimed objects,
    [SweepOnce] (one leader) drives the campaign through enumeration, copying,
    cutover and the deletion of the source, and operators pause, resume, abort,
    cancel, switch and release it. SHA-256 is a parameter; a store is named by
    its identity string, so a handle and its description are one value, empty
    for a backend that does not state one. Worker stamps are modelled, log lines
    and request identities are not. *)
From S2P Require Import Prelude GoStrings Queue Storage Retry MediaGC MigrationStore.
Local Open Scope Z_scope.

(** ** Constants *)

Definition failSourceMissing : string := "source object missing".
Definition failVerification : string := "verification failed: the object read back from the target is not the object that was written".
Definition failRecordedHash : string := "the source object does not match the sha256 recorded for this file".
Definition failTransientCopy : string := "copy failed; retrying".
Definition failAttemptsSpent : string := "copy failed repeatedly; giving up on this object".
Definition failKeyUnsupported : string := "the target store will not accept this object key".

Definition maxAttempts : Z := 5.
Definition enumerateChunk : nat := 1000.
Definition deleteBatch : Z := 200.

Definition PauseReasonTargetWriteDenied : string := "target_write_denied".
Definition PauseReasonOperator : string := "operator".
Definition pausedByTargetMessage : string :=
  "the migration target refused a write probe, so copying is paused; this instance is otherwise unaffected and keeps serving from the store that holds authority. Copying resumes on its own once the target accepts writes again".
Definition SentinelMissing : string := "missing".

(** What the admin surface shows of a campaign that waits. *)
Definition note_mismatch : string := "the configured storage backends are not this migration's source and target; restore the environment or cancel this migration".
Definition note_reverted : string := "the api is serving from this migration's source again, so the cutover was undone; finish the environment swap or cancel this migration".
Definition note_early_swap : string := "the storage environment was swapped before this migration had enumerated anything; restore the previous values or cancel this migration".
Definition note_paused_swap : string := "the storage environment was swapped while this migration was paused, so the cutover cannot be recorded yet; resume it first".
Definition note_abort_swap : string := "the storage environment was swapped while this migration was aborting, so the copies on the new store were NOT removed — they are what this instance now serves from; restore the previous values to finish the abort, or cancel this migration to keep them".
Definition note_no_clock : string := "the cutover time was not recorded, so the grace period cannot be measured; cancel and restart this migration".
Definition note_uncopied : string := "the environment was swapped before every object had been copied, so the old store still holds objects the new one does not; nothing will be deleted".
Definition note_aborting : string := "aborting: removing the partial copies this migration wrote to the destination. The source is untouched throughout".

Inductive zerr :=
| ZErrNoTarget | ZErrAlreadyActive | ZErrNotFound | ZErrListingUnsupported | ZErrIdentityUnknown | ZErrSameStore
| ZErrTargetWriteDenied | ZErrCutoverNotObserved | ZErrObjectsUncopied | ZErrUnknownReason | ZErrWrongHandle
| ZErrIllegalTransition (action : string) (st : cstate) | ZErrDB (e : dberr) | ZErrStorage (e : ioerr).

#[global] Instance zerr_eq_dec : EqDecision zerr.
Proof. solve_decision. Defined.

(** Why a copy failed: for good, with the category that is recorded, or for
    now. *)
Inductive copyerr := Terminal (category : string) | Transient.

(** The service of one process: the store it serves from, the second one, the
    grace period, its heartbeat key, whether the primary can list itself and
    whether the target's monitor is wired. *)
Record MigService := mkMigService {
  zs_primary : string; zs_target : option string; zs_grace : duration; zs_workerID : string;
  zs_lister : bool; zs_targetWrite : bool;
}.

(** [NewService]'s grace. *)
Definition NewService_grace (grace : duration) : duration := if grace <? 0 then 0 else grace.

Inductive topology := topologyMismatch | topologyForward | topologySwapped.

#[global] Instance topology_eq_dec : EqDecision topology.
Proof. solve_decision. Defined.

Section Service.
Context (sha256 : bytes -> string) (s : MigService).
Abbreviation M A := (prog migE A) (only parsing).
Implicit Types (id : uuid) (c : Campaign).

(** [storage.Describe] of the second backend. *)
Definition describe_target : string := match zs_target s with Some d => d | None => EmptyString end.

(** [Service.Enabled] *)
Definition Enabled : bool := match zs_target s with Some _ => true | None => false end.

(** [topologyFor] *)
Definition topologyFor c : topology :=
  if bool_decide (zs_primary s = EmptyString) || bool_decide (describe_target = EmptyString) then topologyMismatch
  else if bool_decide (zs_primary s = cSource c) && bool_decide (describe_target = cTarget c) then topologyForward
  else if bool_decide (zs_primary s = cTarget c) && bool_decide (describe_target = cSource c) then topologySwapped
  else topologyMismatch.

(** [targetWritable] *)
Definition targetWritable : M bool := if zs_targetWrite s then call TargetWritable else mret true.

(** A store call whose answer is passed on. *)
Definition db {A} (p : M (result dberr A)) : M (result zerr A) :=
  r ← p; mret (match r with Ok a => Ok a | Err e => Err (ZErrDB e) end).

(** [reread] *)
Definition reread id : M (result zerr Campaign) :=
  r ← call (GetStorageMigration id);
  mret (match r with Ok c => Ok c | Err ErrNoRows => Err ZErrNotFound | Err e => Err (ZErrDB e) end).

(** [illegal] *)
Definition illegal id (action : string) : M (result zerr Campaign) :=
  r ← call (GetStorageMigration id);
  mret (match r with
        | Err ErrNoRows => Err ZErrNotFound
        | Err e => Err (ZErrDB e)
        | Ok c => Err (ZErrIllegalTransition action (cState c))
        end).

(** A guarded control: the row count of its statement decides. *)
Definition guarded (p : M (result dberr Z)) id (action : string) : M (result zerr Campaign) :=
  n ← p;
  match n with
  | Err e => mret (Err (ZErrDB e))
  | Ok n => if n =? 0 then illegal id action else reread id
  end.

(** ** Controls *)

(** [Service.Start] *)
Definition Start : M (result zerr Campaign) :=
  match zs_target s with
  | None => mret (Err ZErrNoTarget)
  | Some dest =>
      let source := zs_primary s in
      if bool_decide (source = EmptyString) || bool_decide (dest = EmptyString) then mret (Err ZErrIdentityUnknown)
      else if bool_decide (source = dest) then mret (Err ZErrSameStore)
      else if negb (zs_lister s) then mret (Err ZErrListingUnsupported)
      else
        ok ← targetWritable;
        if negb ok then mret (Err ZErrTargetWriteDenied) else
        a ← call GetActiveStorageMigration;
        match a with
        | Ok _ => mret (Err ZErrAlreadyActive)
        | Err ErrNoRows =>
            r ← call (CreateStorageMigration source dest);
            match r with
            | Err ErrUnique => mret (Err ZErrAlreadyActive)
            | Err e => mret (Err (ZErrDB e))
            | Ok row => _ ← call DeleteTerminalStorageMigrationObjects; mret (Ok row)
            end
        | Err e => mret (Err (ZErrDB e))
        end
  end.

(** [Service.Cancel] *)
Definition Cancel id : M (result zerr Campaign) :=
  g ← call (GetStorageMigration id);
  match g with
  | Err ErrNoRows => mret (Err ZErrNotFound)
  | Err e => mret (Err (ZErrDB e))
  | Ok _ =>
      n ← call (CancelStorageMigration id);
      match n with
      | Err e => mret (Err (ZErrDB e))
      | Ok _ => db (call (GetStorageMigration id))
      end
  end.

(** [Service.Pause] *)
Definition Pause id (reason : string) : M (result zerr Campaign) :=
  if negb (bool_decide (reason = PauseReasonOperator)) && negb (bool_decide (reason = PauseReasonTargetWriteDenied)) then mret (Err ZErrUnknownReason)
  else
    let note := if bool_decide (reason = PauseReasonTargetWriteDenied) then pausedByTargetMessage else EmptyString in
    guarded (call (PauseStorageMigration id reason note)) id "pause".

(** [Service.Resume] *)
Definition Resume id : M (result zerr Campaign) :=
  ok ← targetWritable;
  if negb ok then mret (Err ZErrTargetWriteDenied) else guarded (call (ResumeStorageMigration id)) id "resume".

(** [Service.Abort] *)
Definition Abort_ id (cleanDestination : bool) : M (result zerr Campaign) :=
  if negb cleanDestination then Cancel id
  else guarded (call (AbortStorageMigrationWithCleanup id note_aborting)) id "abort with destination clean-up".

(** [Service.Switch] *)
Definition Switch id : M (result zerr Campaign) :=
  r ← call (GetStorageMigration id);
  match r with
  | Err ErrNoRows => mret (Err ZErrNotFound)
  | Err e => mret (Err (ZErrDB e))
  | Ok row =>
      if negb (bool_decide (cState row = CCopying)) && negb (bool_decide (cState row = CSynced))
      then mret (Err (ZErrIllegalTransition "record a cutover for" (cState row)))
      else if negb (bool_decide (topologyFor row = topologySwapped)) then mret (Err ZErrCutoverNotObserved)
      else
        m ← call (MarkStorageMigrationCutover id);
        match m with Err e => mret (Err (ZErrDB e)) | Ok _ => reread id end
  end.

(** [Service.Release] *)
Definition Release id : M (result zerr Campaign) :=
  r ← call (GetStorageMigration id);
  match r with
  | Err ErrNoRows => mret (Err ZErrNotFound)
  | Err e => mret (Err (ZErrDB e))
  | Ok row =>
      if negb (bool_decide (cState row = CCutover)) then mret (Err (ZErrIllegalTransition "release the source of" (cState row)))
      else
        l ← call (CountUncopiedStorageMigrationObjects id);
        match l with
        | Err e => mret (Err (ZErrDB e))
        | Ok n => if 0 <? n then mret (Err ZErrObjectsUncopied)
                     else guarded (call (ReleaseStorageMigrationSource id)) id "release the source of"
        end
  end.

(** [objectCounts]: every state, those without rows as zero. *)
Definition objectCounts id : M (result zerr (ostate -> Z)) :=
  r ← call (CountStorageMigrationObjectsByState id);
  mret (match r with
        | Err e => Err (ZErrDB e)
        | Ok rows => Ok (fun st => foldl (fun acc kv => if bool_decide (kv.1 = st) then kv.2 else acc) 0 rows)
        end).

(** [Service.Get], with the failures by category *)
Definition Get id : M (result zerr (Campaign * (ostate -> Z) * list (string * Z * Z))) :=
  r ← call (GetStorageMigration id);
  match r with
  | Err ErrNoRows => mret (Err ZErrNotFound)
  | Err e => mret (Err (ZErrDB e))
  | Ok row =>
      counts ← objectCounts id;
      match counts with
      | Err e => mret (Err e)
      | Ok counts =>
          fs ← call (CountStorageMigrationObjectFailuresByCategory id);
          mret (match fs with Err e => Err (ZErrDB e) | Ok fails => Ok (row, counts, fails) end)
      end
  end.

(** [Service.List] *)
Definition List_ (limit : Z) : M (result zerr (list Campaign)) :=
  db (call (ListStorageMigrations (if (limit <=? 0) || (200 <? limit) then 50 else limit))).

(** ** Copying *)

(** [storage.PutSizedHashed]: the digest is of the bytes as they were read. *)
Definition PutSizedHashed (h key : string) (r : reader) : M (result ioerr (Z * string)) :=
  p ← call (ZPut h key r);
  mret (match p with Err e => Err e | Ok n => Ok (n, sha256 (data r)) end).

(** [hashTarget] *)
Definition hashTarget (h key : string) : M (result ioerr string) :=
  r ← call (ZOpen h key);
  mret (match r with
        | Err e => Err e
        | Ok rc => match io_Copy rc with
                   | Some (d, None) => Ok (sha256 d)
                   | Some (_, Some e) => Err e
                   | None => Err ErrIO
                   end
        end).

(** [recordedHash] *)
Definition recordedHash (key : string) : M (option string) :=
  r ← call (GetVideoFileSHA256ByStorageKey key);
  mret (match r with
        | Err _ => None
        | Ok sum => if bool_decide (sum = EmptyString) || bool_decide (sum = SentinelMissing) then None else Some sum
        end).

(** [copyAndVerify] *)
Definition copyAndVerify (key : string) : M (result copyerr (string * Z)) :=
  o ← call (ZOpen (zs_primary s) key);
  match o with
  | Err ErrNotFound => mret (Err (Terminal failSourceMissing))
  | Err ErrInvalidKey => mret (Err (Terminal failKeyUnsupported))
  | Err _ => mret (Err Transient)
  | Ok rc =>
      p ← PutSizedHashed describe_target key rc;
      match p with
      | Err ErrInvalidKey => mret (Err (Terminal failKeyUnsupported))
      | Err _ => mret (Err Transient)
      | Ok (size, sent) =>
          t ← hashTarget describe_target key;
          match t with
          | Err ErrNotFound => mret (Err (Terminal failVerification))
          | Err _ => mret (Err Transient)
          | Ok stored =>
              if negb (bool_decide (stored = sent)) then mret (Err (Terminal failVerification)) else
              rec ← recordedHash key;
              mret (match rec with
                    | Some recorded => if bool_decide (recorded = sent) then Ok (sent, size) else Err (Terminal failRecordedHash)
                    | None => Ok (sent, size)
                    end)
          end
      end
  end.

(** [backoff] *)
Definition backoff (attempt : Z) : duration := Backoff attempt Minute Hour.

(** [copyOne]; the lease keeper is [renew], beside it. *)
Definition copyOne (row : string * uuid * Z) : M unit :=
  let key := row.1.1 in
  let attempts := row.2 in
  r ← copyAndVerify key;
  match r with
  | Ok (sum, size) => _ ← call (MarkStorageMigrationObjectVerified key sum size); mret tt
  | Err (Terminal category) => _ ← call (FailStorageMigrationObject key category); mret tt
  | Err Transient =>
      if maxAttempts <=? attempts + 1 then _ ← call (FailStorageMigrationObject key failAttemptsSpent); mret tt
      else
        now ← call ZNow;
        _ ← call (RescheduleStorageMigrationObject key (now + backoff (attempts + 1)) failTransientCopy);
        mret tt
  end.

(** The keeper's renewals while an object streams. *)
Definition renew (key : string) : M unit := _ ← call (RenewStorageMigrationObjectLease key); mret tt.

Fixpoint copy_each (rows : list (string * uuid * Z)) : M unit :=
  match rows with [] => mret tt | row :: rows' => _ ← copyOne row; copy_each rows' end.

(** [Service.CopyOnce]: how many objects it claimed, and its error. *)
Definition CopyOnce (batch : Z) : M (Z * option zerr) :=
  match zs_target s with
  | None => mret (0, None)
  | Some _ =>
      a ← call GetActiveStorageMigration;
      match a with
      | Err ErrNoRows => mret (0, None)
      | Err e => mret (0, Some (ZErrDB e))
      | Ok camp =>
          if negb (bool_decide (cState camp = CCopying)) && negb (bool_decide (cState camp = CSynced)) then mret (0, None)
          else if negb (bool_decide (topologyFor camp = topologyForward)) then mret (0, None)
          else
            r ← call (ClaimDueStorageMigrationObjects (if batch <=? 0 then 1 else batch));
            match r with
            | Err e => mret (0, Some (ZErrDB e))
            | Ok rows =>
                _ ← copy_each rows;
                let n := Z.of_nat (length rows) in
                if 0 <? n then
                  c ← call (RefreshStorageMigrationCounters (cID camp));
                  mret (n, match c with Err e => Some (ZErrDB e) | Ok _ => None end)
                else mret (n, None)
            end
      end
  end.

(** ** The leader's pass *)

Definition setState id (st : cstate) (err : string) : M (result zerr unit) := db (call (SetStorageMigrationState id st err)).
Definition note id (msg : string) : M (result zerr unit) := db (call (SetStorageMigrationError id msg)).

(** [stampWorker] *)
Definition stampWorker id : M unit :=
  if bool_decide (zs_workerID s = EmptyString) then mret tt else _ ← call (SetStorageMigrationWorker id (zs_workerID s)); mret tt.

(** The keys, a chunk per statement ([fuel] chunks are enough). *)
Fixpoint enumerate_chunks (fuel : nat) id (keys : list string) (added : Z) : M (result zerr Z) :=
  match keys, fuel with
  | [], _ | _, O => mret (Ok added)
  | _, S fuel' =>
      n ← call (UpsertStorageMigrationObjects id (take enumerateChunk keys));
      match n with
      | Err e => mret (Err (ZErrDB e))
      | Ok n => enumerate_chunks fuel' id (drop enumerateChunk keys) (added + n)
      end
  end.

(** [enumerate] *)
Definition enumerate id : M (result zerr Z) :=
  if negb (zs_lister s) then mret (Err ZErrListingUnsupported) else
  l ← call (ZListAll (zs_primary s));
  match l with
  | Err e => mret (Err (ZErrStorage e))
  | Ok keys => enumerate_chunks (length keys) id keys 0
  end.

(** [reconcile] *)
Definition reconcile c : M (result zerr unit) :=
  l ← call (CountUncopiedStorageMigrationObjects (cID c));
  match l with
  | Err e => mret (Err (ZErrDB e))
  | Ok n =>
      r ← call (RefreshStorageMigrationCounters (cID c));
      match r with
      | Err e => mret (Err (ZErrDB e))
      | Ok _ =>
          if 0 <? n then mret (Ok tt) else
          e ← enumerate (cID c);
          match e with
          | Err e => mret (Err e)
          | Ok added =>
              r ← call (RefreshStorageMigrationCounters (cID c));
              match r with
              | Err e => mret (Err (ZErrDB e))
              | Ok _ =>
                  if 0 <? added then
                    (if negb (bool_decide (cState c = CCopying)) then setState (cID c) CCopying EmptyString else mret (Ok tt))
                  else if negb (bool_decide (cState c = CSynced)) then setState (cID c) CSynced EmptyString
                  else mret (Ok tt)
              end
          end
      end
  end.

(** The loop of [abortCleanupBatch] and of [deleteSourceBatch]: how many went.
    A delete that fails is skipped, a statement that fails ends the pass. *)
Fixpoint remove_each (forget : string -> migE (result dberr unit)) (keys : list string) (removed : Z) : M (result zerr Z) :=
  match keys with
  | [] => mret (Ok removed)
  | key :: keys' =>
      d ← call (ZDelete describe_target key);
      match d with
      | Err _ => remove_each forget keys' removed
      | Ok _ =>
          f ← call (forget key);
          match f with
          | Err e => mret (Err (ZErrDB e))
          | Ok _ => remove_each forget keys' (removed + 1)
          end
      end
  end.

(** [abortCleanupBatch] *)
Definition abortCleanupBatch c : M (result zerr unit) :=
  if negb (bool_decide (describe_target = cTarget c)) then mret (Err ZErrWrongHandle) else
  l ← call (ListDestinationCopiesToRemove (cID c) deleteBatch);
  match l with
  | Err e => mret (Err (ZErrDB e))
  | Ok keys =>
      r ← remove_each DeleteStorageMigrationObject keys 0;
      match r with
      | Err e => mret (Err e)
      | Ok removed =>
          let n := Z.of_nat (length keys) in
          if (n =? deleteBatch) || (removed <? n) then mret (Ok tt)
          else
            x ← call (CancelStorageMigration (cID c));
            mret (match x with Err e => Err (ZErrDB e) | Ok _ => Ok tt end)
      end
  end.

(** [storage.ReadOwnerMarker] and [storage.WriteOwnerMarker] on the primary *)
Definition readMarker : M (result ioerr (option string)) :=
  r ← call (ZOpen (zs_primary s) OwnerMarkerKey);
  mret (match r with
        | Err ErrNotFound => Ok None
        | Err e => Err e
        | Ok rc => match read_limited 4096 rc with
                   | Some (body, None) => Ok (Some (TrimSpace (String.string_of_list_byte body)))
                   | _ => Err ErrIO
                   end
        end).

(** [adoptDestination] *)
Definition adoptDestination c : M unit :=
  if negb (bool_decide (zs_primary s = cTarget c)) then mret tt else
  i ← call GetInstanceIdentity;
  match i with
  | Err _ => mret tt
  | Ok identity =>
      m ← readMarker;
      match m with
      | Err _ | Ok (Some _) => mret tt
      | Ok None =>
          let identity := TrimSpace identity in
          if bool_decide (identity = EmptyString) then mret tt else
          _ ← call (ZPut (zs_primary s) OwnerMarkerKey (Reader [String.list_byte_of_string identity] None false)); mret tt
      end
  end.

(** [deleteSourceBatch] *)
Definition deleteSourceBatch c : M (result zerr unit) :=
  if negb (bool_decide (describe_target = cSource c)) then mret (Err ZErrWrongHandle) else
  l ← call (ListVerifiedStorageMigrationObjects (cID c) deleteBatch);
  match l with
  | Err e => mret (Err (ZErrDB e))
  | Ok keys =>
      r ← remove_each MarkStorageMigrationObjectSourceDeleted keys 0;
      match r with
      | Err e => mret (Err e)
      | Ok _ =>
          f ← call (RefreshStorageMigrationCounters (cID c));
          match f with
          | Err e => mret (Err (ZErrDB e))
          | Ok _ =>
              l ← call (CountUnfinishedStorageMigrationObjects (cID c));
              match l with
              | Err e => mret (Err (ZErrDB e))
              | Ok n =>
                  if 0 <? n then mret (Ok tt)
                  else _ ← adoptDestination c; setState (cID c) CDone EmptyString
              end
          end
      end
  end.

(** [maybeBeginDeletingSource] *)
Definition maybeBeginDeletingSource c : M (result zerr unit) :=
  match cCutoverAt c with
  | None => note (cID c) note_no_clock
  | Some at_ =>
      now ← call ZNow;
      if (now - at_) <? zs_grace s then mret (Ok tt) else
      l ← call (CountUncopiedStorageMigrationObjects (cID c));
      match l with
      | Err e => mret (Err (ZErrDB e))
      | Ok n => if 0 <? n then note (cID c) note_uncopied else setState (cID c) CDeletingSource EmptyString
      end
  end.

(** [sweepForward] *)
Definition sweepForward c : M (result zerr unit) :=
  match cState c with
  | CEnumerating =>
      e ← enumerate (cID c);
      match e with
      | Err e => mret (Err e)
      | Ok _ =>
          r ← call (RefreshStorageMigrationCounters (cID c));
          match r with Err e => mret (Err (ZErrDB e)) | Ok _ => setState (cID c) CCopying EmptyString end
      end
  | CCopying | CSynced => reconcile c
  | CAborting => abortCleanupBatch c
  | CCutover | CDeletingSource => note (cID c) note_reverted
  | _ => mret (Ok tt)
  end.

(** [sweepSwapped] *)
Definition sweepSwapped c : M (result zerr unit) :=
  match cState c with
  | CEnumerating => note (cID c) note_early_swap
  | CCopying | CSynced => db (call (MarkStorageMigrationCutover (cID c)))
  | CPaused => note (cID c) note_paused_swap
  | CAborting => note (cID c) note_abort_swap
  | CCutover => maybeBeginDeletingSource c
  | CDeletingSource => deleteSourceBatch c
  | _ => mret (Ok tt)
  end.

(** [reconcileTargetWritability]: whether the pass stops here. *)
Definition reconcileTargetWritability c : M bool :=
  if pausable (cState c) || bool_decide (cState c = CPaused) then
    writable ← targetWritable;
    if negb writable then
      if bool_decide (cState c = CPaused) then mret true
      else _ ← call (PauseStorageMigration (cID c) PauseReasonTargetWriteDenied pausedByTargetMessage); mret true
    else if bool_decide (cState c = CPaused) then
      if bool_decide (cReason c = PauseReasonTargetWriteDenied) then _ ← call (ResumeStorageMigration (cID c)); mret true
      else mret true
    else mret false
  else mret false.

(** [Service.SweepOnce] *)
Definition SweepOnce : M (result zerr unit) :=
  match zs_target s with
  | None => mret (Ok tt)
  | Some _ =>
      a ← call GetActiveStorageMigration;
      match a with
      | Err ErrNoRows => mret (Ok tt)
      | Err e => mret (Err (ZErrDB e))
      | Ok camp =>
          _ ← stampWorker (cID camp);
          match topologyFor camp with
          | topologyForward =>
              stop ← reconcileTargetWritability camp;
              if (stop : bool) then mret (Ok tt) else sweepForward camp
          | topologySwapped => sweepSwapped camp
          | topologyMismatch => note (cID camp) note_mismatch
          end
      end
  end.
End Service.
