(* ===== verification/MigrationSafety.v ===== *)
(** * A storage migration loses nothing

    One campaign, driven by the leader's passes (one after the other, from any
    process and under any configuration) beside any number of copy workers,
    lease keepers, recovery sweeps, operator controls and uploads, with store
    statements and object operations that fail: every object that was stored
    stays readable, from either side of the cutover. *)
From S2P Require Import Prelude Interleave GoStrings Queue Storage MediaGC MigrationStore Migration.
Local Open Scope Z_scope.

(** What has been deleted so far. *)
Inductive deletions := NoneYet | FromSource | FromTarget.

#[global] Instance deletions_eq_dec : EqDecision deletions.
Proof. solve_decision. Defined.

(** The leader's passes, each under the configuration of the process that led
    at the time. *)
Fixpoint sweeps (l : list MigService) : prog migE unit :=
  match l with [] => mret tt | s :: l' => _ ← SweepOnce s; sweeps l' end.

Section Safety.
Context {B : Type} `{Backend B, !BackendLaws B, !RootLister B, !RootListerLaws B, !ObjectStoreLaws B}.
Context (sha256 : bytes -> string) (id : uuid) (A T : string) (HAT : A <> T) (L : string -> option bytes).
Implicit Types (w : zworld B) (d : MigDB) (c : Campaign) (k : string).

(** What a store holds. *)
Definition at_store w (h k : string) : option bytes := match zstores w !! h with Some b => contents b k | None => None end.

(** Keys of the library: the ownership marker is written on its own terms. *)
Definition media_key k : Prop := canonical k = true /\ k <> OwnerMarkerKey.

(** The object is in one of the two stores. *)
Definition held w k (x : bytes) : Prop := at_store w A k = Some x \/ at_store w T k = Some x.

(** What takes part beside the leader. An upload stores the one content its key
    has. *)
Inductive participant : prog migE unit -> Prop :=
| P_copy s batch : participant (_ ← CopyOnce sha256 s batch; mret tt)
| P_renew key : participant (renew key)
| P_expire : participant (_ ← call SweepExpiredStorageMigrationObjects; mret tt)
| P_cancel i : participant (_ ← Cancel i; mret tt)
| P_pause i reason : participant (_ ← Pause i reason; mret tt)
| P_resume s i : participant (_ ← Resume s i; mret tt)
| P_abort i clean : participant (_ ← Abort_ i clean; mret tt)
| P_switch s i : participant (_ ← Switch s i; mret tt)
| P_release i : participant (_ ← Release i; mret tt)
| P_get i : participant (_ ← Get i; mret tt)
| P_list n : participant (_ ← List_ n; mret tt)
| P_upload h k r : media_key k -> (rend r = None -> L k = Some (data r)) -> participant (_ ← call (ZPut h k r); mret tt).

(** ** The invariant *)

Definition St := (zworld B * deletions)%type.
Implicit Types (st : St).

(** States in which the source may have lost objects, or the target. *)
Definition past_release (x : cstate) : Prop := x = CDeletingSource \/ x = CDone \/ x = CCancelled.
Definition past_abort (x : cstate) : Prop := x = CAborting \/ x = CCancelled.

(** The object is where it should be, as far as nothing was deleted there. *)
Definition ok_source st k : Prop := media_key k -> st.2 = FromSource \/ exists x, L k = Some x /\ at_store st.1 A k = Some x.
Definition ok_target st k : Prop := media_key k -> st.2 = FromTarget \/ exists x, L k = Some x /\ at_store st.1 T k = Some x.

(** The database: the campaign, no other live one, and a ledger whose verified
    objects are in [good]. *)
Record db_inv (g : deletions) (good : string -> Prop) d : Prop := {
  inv_camp : exists c, camps d !! id = Some c /\ cSource c = A /\ cTarget c = T /\
    (g = FromSource -> past_release (cState c)) /\ (g = FromTarget -> past_abort (cState c));
  inv_keyed : forall i c, camps d !! i = Some c -> cID c = i;
  inv_alone : forall i c, camps d !! i = Some c -> i <> id -> live_state (cState c) = false;
  inv_ledger : forall k o, objects d !! k = Some o ->
    oKey o = k /\ canonical k = true /\ (oState o = OVerified -> oCampaign o = id -> good k);
}.

Definition mig_inv st : Prop :=
  db_inv st.2 (fun k => ok_source st k /\ ok_target st k) (store (zdb st.1)) /\
  forall h k x, h = A \/ h = T -> media_key k -> at_store st.1 h k = Some x -> L k = Some x.

(** What the others do to the store, and what they count on. *)
Definition camp_state w : option cstate := cState <$> camps (store (zdb w)) !! id.
Definition closed (P : cstate -> Prop) w w' : Prop :=
  forall x, camp_state w = Some x -> P x -> exists y, camp_state w' = Some y /\ P y.

Definition others st st' : Prop :=
  st'.2 = st.2 /\
  (forall h k x, h = A \/ h = T -> media_key k -> L k = Some x -> at_store st.1 h k = Some x -> at_store st'.1 h k = Some x) /\
  closed past_release st.1 st'.1 /\ closed past_abort st.1 st'.1.

Definition all_of st st' : Prop :=
  forall k, (ok_source st k -> ok_source st' k) /\ (ok_target st k -> ok_target st' k).

Definition keeps st st' : Prop := forall k x, media_key k -> L k = Some x -> held st.1 k x -> held st'.1 k x.

Definition leader st st' : Prop := all_of st st' /\ keeps st st'.

Lemma others_all st st' : others st st' -> all_of st st'.
Proof.
  intros (Hg & Ho & _) k. split; intros Hok Hk; (destruct (Hok Hk) as [Hd|(x & HL & Hx)]; [left; by rewrite Hg|right; exists x; eauto 10]).
Qed.

Lemma others_keeps st st' : others st st' -> keeps st st'.
Proof. intros (_ & Ho & _) k x Hk HL [Hx|Hx]; [left|right]; eauto. Qed.

Lemma others_leader st st' : others st st' -> leader st st'.
Proof. split; [by apply others_all|by apply others_keeps]. Qed.

(** ** Statements *)

(** A statement that only moves campaigns on and adds or narrows rows. *)
Definition camp_tame c c' : Prop :=
  cID c' = cID c /\ cSource c' = cSource c /\ cTarget c' = cTarget c /\
  (past_release (cState c) -> past_release (cState c')) /\ (past_abort (cState c) -> past_abort (cState c')) /\
  (live_state (cState c') = true -> live_state (cState c) = true).

Definition row_tame (old : option MObject) k (o' : MObject) : Prop :=
  match old with
  | Some o => oKey o' = oKey o /\ oCampaign o' = oCampaign o /\ (oState o' = OVerified -> oState o = OVerified)
  | None => oKey o' = k /\ canonical k = true /\ oState o' <> OVerified
  end.

Record tame d d' : Prop := {
  tame_camps : forall i, match camps d !! i, camps d' !! i with
                         | Some c, Some c' => camp_tame c c'
                         | None, None => True
                         | _, _ => False
                         end;
  tame_rows : forall k o', objects d' !! k = Some o' -> row_tame (objects d !! k) k o';
}.

Lemma camp_tame_refl c : camp_tame c c.
Proof. unfold camp_tame. tauto. Qed.

Lemma row_tame_refl o k : row_tame (Some o) k o.
Proof. done. Qed.

Lemma tame_refl d : tame d d.
Proof.
  split.
  - intros i. destruct (camps d !! i); [apply camp_tame_refl|done].
  - intros k o ->. apply row_tame_refl.
Qed.

Lemma tame_update_camp i ok f d :
  (forall c, ok c = true -> camp_tame c (f c)) -> tame d (update_camp i ok f d).2.
Proof.
  intros Hf. unfold update_camp. destruct (camps d !! i) as [c|] eqn:Hc; [|apply tame_refl].
  destruct (ok c) eqn:Hok; [|apply tame_refl]. split; [|intros k o Ho; cbn in Ho; rewrite Ho; apply row_tame_refl].
  intros j. cbn. destruct (decide (i = j)) as [<-|Hne].
  - rewrite lookup_insert_eq, Hc. auto.
  - rewrite lookup_insert_ne by done. destruct (camps d !! j); [apply camp_tame_refl|done].
Qed.

Lemma tame_objects f d :
  (forall k o', f (objects d) !! k = Some o' -> row_tame (objects d !! k) k o') -> tame d (set_objects f d).
Proof. intros Hf. split; [|done]. intros i. cbn. destruct (camps d !! i); [apply camp_tame_refl|done]. Qed.

Lemma tame_update_obj key from f d :
  (forall o, oState o = from -> oKey (f o) = oKey o /\ oCampaign (f o) = oCampaign o /\ (oState (f o) = OVerified -> oState o = OVerified)) ->
  tame d (update_obj key from f d).2.
Proof.
  intros Hf. apply tame_objects. intros k o'. rewrite lookup_alter_Some. intros [(<- & o & Ho & ->)|[_ Ho]]; rewrite Ho.
  - case_bool_decide; [by apply Hf|apply row_tame_refl].
  - apply row_tame_refl.
Qed.

(** Updating several rows. *)
Lemma update_objects_lookup f os m k o' :
  update_objects f os m !! k = Some o' ->
  exists o, m !! k = Some o /\ (o' = o \/ (exists n, o' = Nat.iter n f o)).
Proof.
  revert o'. induction os as [|a os IH]; intros o'; cbn [update_objects foldr]; [intros Ho; exists o'; auto|].
  rewrite lookup_alter_Some. fold (update_objects f os m). intros [(<- & o1 & Ho & ->)|[_ Ho]]; [|by apply IH].
  destruct (IH _ Ho) as (o & Hm & [->|(n & ->)]); exists o; (split; [done|right]); [by exists 1%nat|by exists (S n)].
Qed.

Lemma tame_update_objects f os d :
  (forall o, oKey (f o) = oKey o /\ oCampaign (f o) = oCampaign o /\ oState (f o) <> OVerified) ->
  tame d (set_objects (update_objects f os) d).
Proof.
  intros Hf. apply tame_objects. intros k o' Ho'. apply update_objects_lookup in Ho' as (o & -> & [->|(n & ->)]); [apply row_tame_refl|].
  induction n as [|n (I1 & I2 & I3)]; [apply row_tame_refl|]. destruct (Hf (Nat.iter n f o)) as (F1 & F2 & F3).
  change (row_tame (Some o) k (f (Nat.iter n f o))). set (o1 := Nat.iter n f o) in *. cbn [row_tame] in *. rewrite F1, F2. split_and!; [done..|by intros ?%F3].
Qed.

Lemma offer_all_tame i t keys m k o' :
  (forall x, x ∈ keys -> canonical x = true) -> (offer_all i t keys m).2 !! k = Some o' -> row_tame (m !! k) k o'.
Proof.
  revert m. induction keys as [|x keys IH]; intros m Hk; cbn; [intros ->; apply row_tame_refl|].
  intros Ho. apply IH in Ho; [|by intros y Hy; apply Hk; right]. unfold offer in Ho. destruct (m !! x) as [o|] eqn:Hx; cbn in Ho; [done|].
  destruct (decide (x = k)) as [<-|Hne]; [|by rewrite lookup_insert_ne in Ho].
  rewrite lookup_insert_eq in Ho. rewrite Hx. cbn in *. destruct Ho as (-> & _ & Ho). split_and!; [done|apply Hk; by left|].
  intros Hv. by apply Ho in Hv.
Qed.

(** The statements anybody runs. *)
Definition open_statement X (e : migE X) : Prop :=
  match e with
  | GetStorageMigration _ | GetActiveStorageMigration | ListStorageMigrations _ | SetStorageMigrationError _ _
  | MarkStorageMigrationCutover _ | CancelStorageMigration _ | PauseStorageMigration _ _ _ | ResumeStorageMigration _
  | AbortStorageMigrationWithCleanup _ _ | ReleaseStorageMigrationSource _ | SetStorageMigrationWorker _ _
  | CountStorageMigrationObjectFailuresByCategory _ | ListDestinationCopiesToRemove _ _ | DeleteStorageMigrationObject _
  | RefreshStorageMigrationCounters _ | ClaimDueStorageMigrationObjects _ | RenewStorageMigrationObjectLease _
  | SweepExpiredStorageMigrationObjects | RescheduleStorageMigrationObject _ _ _ | FailStorageMigrationObject _ _
  | MarkStorageMigrationObjectSourceDeleted _ | ListVerifiedStorageMigrationObjects _ _ | CountUncopiedStorageMigrationObjects _
  | CountUnfinishedStorageMigrationObjects _ | CountStorageMigrationObjectsByState _ | GetVideoFileSHA256ByStorageKey _
  | GetInstanceIdentity | ZNow | TargetWritable | ZOpen _ _ | ZListAll _ => True
  | UpsertStorageMigrationObjects _ keys => forall k, k ∈ keys -> canonical k = true
  | _ => False
  end.

Ltac camp_step := apply tame_update_camp; intros c; unfold camp_tame, past_release, past_abort; cbn;
  first [by tauto | destruct (cState c); cbn; try done; try (intros _); split_and!; try done; intuition discriminate].

Lemma open_statement_tame X (e : migE X) w : open_statement X e ->
  tame (store (zdb w)) (store (zdb (mig_handler X e w).2)) /\ zstores (mig_handler X e w).2 = zstores w.
Proof.
  assert (Hq : forall Y (q : MigDB -> result dberr Y * MigDB), (forall d, tame d (q d).2) ->
    tame (store (zdb w)) (store (zdb (on_mig q w).2)) /\ zstores (on_mig q w).2 = zstores w).
  { intros Y q Hq. split; [|done]. unfold on_mig. cbn. unfold exec. destruct (faults (zdb w)) as [|[] fs]; cbn; auto using tame_refl. }
  destruct e; cbn [open_statement mig_handler]; try done; intros HP; try (split; [apply tame_refl|done]); apply Hq; intros d;
    unfold q_GetStorageMigration, q_GetActiveStorageMigration, q_ListStorageMigrations; cbn [snd]; try apply tame_refl.
  - camp_step.
  - camp_step.
  - camp_step.
  - camp_step.
  - camp_step.
  - camp_step.
  - camp_step.
  - camp_step.
  - apply tame_objects. intros k o'. rewrite lookup_delete_Some. intros [_ ->]. apply row_tame_refl.
  - camp_step.
  - unfold q_UpsertStorageMigrationObjects. destruct (existsb _ _ || _); [apply tame_refl|]. apply tame_objects. intros k o'. by apply offer_all_tame.
  - by apply tame_update_objects.
  - by apply tame_update_obj.
  - by apply tame_update_objects.
  - by apply tame_update_obj.
  - by apply tame_update_obj.
  - by apply tame_update_obj.
Qed.

Lemma db_inv_tame g good good' d d' :
  tame d d' -> (forall k, good k -> good' k) -> db_inv g good d -> db_inv g good' d'.
Proof.
  intros [Hc Ho] Hgood [(c & H1 & H2 & H3 & H4 & H5) Hk Ha Hl]. split.
  - specialize (Hc id). rewrite H1 in Hc. destruct (camps d' !! id) as [c'|]; [|done]. destruct Hc as (T1 & T2 & T3 & T4 & T5 & T6).
    exists c'. split_and!; [done|congruence..|auto|auto].
  - intros i c' Hc'. specialize (Hc i). rewrite Hc' in Hc. destruct (camps d !! i) as [c0|] eqn:H0; [|done]. destruct Hc as (-> & _). by apply Hk.
  - intros i c' Hc' Hne. specialize (Hc i). rewrite Hc' in Hc. destruct (camps d !! i) as [c0|] eqn:H0; [|done].
    destruct Hc as (_ & _ & _ & _ & _ & T6). destruct (live_state (cState c')); [|done]. rewrite <- T6 by done. by eapply Ha.
  - intros k o' Ho'. specialize (Ho k o' Ho'). destruct (objects d !! k) as [o|] eqn:H0; cbn in Ho.
    + destruct Ho as (-> & -> & Hv). destruct (Hl k o H0) as (L1 & L2 & L3). split_and!; [done..|auto].
    + destruct Ho as (-> & Hcan & Hv). split_and!; [done..|by intros ?%Hv].
Qed.

(** Steps that change no store. *)
Lemma tame_others w w' g :
  tame (store (zdb w)) (store (zdb w')) -> zstores w' = zstores w ->
  mig_inv (w, g) -> mig_inv (w', g) /\ others (w, g) (w', g).
Proof.
  intros Ht Hs [Hd Hl]. assert (Hat : forall h k, at_store w' h k = at_store w h k) by (intros; unfold at_store; by rewrite Hs).
  split; [split|].
  - cbn in *. eapply db_inv_tame; [exact Ht| |exact Hd]. intros k. unfold ok_source, ok_target. cbn. by rewrite !Hat.
  - intros h k x. cbn. rewrite Hat. apply Hl.
  - assert (Hcl : forall P : cstate -> Prop, (forall c c', camp_tame c c' -> P (cState c) -> P (cState c')) -> closed P w w').
    { intros P HP x. unfold camp_state. pose proof (tame_camps _ _ Ht id) as Hc. destruct (camps (store (zdb w)) !! id) as [c|]; [|done].
      destruct (camps (store (zdb w')) !! id) as [c'|]; [|done]. intros [= <-] Hx. exists (cState c'). split; [done|]. by eapply HP. }
    split_and!; [done| | |]; cbn.
    + intros h k x _ _ _. by rewrite Hat.
    + apply Hcl. intros c c' (_ & _ & _ & HP & _). exact HP.
    + apply Hcl. intros c c' (_ & _ & _ & _ & HP & _). exact HP.
Qed.

(** The recorded handler. *)
Definition recorded X (e : migE X) (g : deletions) : deletions :=
  match e with
  | ZDelete h _ => if bool_decide (h = A) then FromSource else if bool_decide (h = T) then FromTarget else g
  | _ => g
  end.

Definition hmig : handler migE St := with_history mig_handler recorded.

Lemma open_step X (e : migE X) st :
  open_statement X e -> mig_inv st -> mig_inv (hmig X e st).2 /\ others st (hmig X e st).2.
Proof.
  destruct st as [w g]. intros He Hi. destruct (open_statement_tame X e w He) as [Ht Hs].
  assert (Hg : recorded X e g = g) by (by destruct e). unfold hmig, with_history. cbn [fst snd]. rewrite Hg. by apply tame_others.
Qed.

Lemma clock_step st st' : env_history zclock st st' -> mig_inv st -> mig_inv st' /\ others st st'.
Proof.
  destruct st as [w g], st' as [w' g']. intros [(t & ok & _ & Hw) Hg]. cbn in Hw, Hg. subst w' g'. apply tame_others; [|done]. cbn.
  split; [|intros k o Ho; cbn in Ho; rewrite Ho; apply row_tame_refl]. intros i. cbn. destruct (camps _ !! i); [apply camp_tame_refl|done].
Qed.

(** ** Objects *)

(** After an operation on the store [h], the other stores are as they were. *)
Lemma on_store_frame {Y} h h' k (op : B -> result ioerr Y * B) w :
  h <> h' -> at_store (on_store h op w).2 h' k = at_store w h' k.
Proof.
  intros Hne. unfold on_store, at_store. destruct (zstores w !! h) as [b|]; [|done].
  destruct (ziofaults w) as [|[] fs]; cbn; try done; by rewrite lookup_insert_ne.
Qed.

(** In [h] itself, what the operation left there, if it took effect. *)
Lemma on_store_at {Y} h k (op : B -> result ioerr Y * B) w :
  at_store (on_store h op w).2 h k = at_store w h k \/
  exists b, zstores w !! h = Some b /\ at_store (on_store h op w).2 h k = contents (op b).2 k.
Proof.
  unfold on_store, at_store. destruct (zstores w !! h) as [b|] eqn:Hb; [|left; cbn; by rewrite Hb].
  destruct (ziofaults w) as [|[] fs]; cbn; rewrite ?Hb; rewrite ?lookup_insert_eq; eauto.
Qed.

Lemma on_store_ok {Y} h (op : B -> result ioerr Y * B) w y :
  (on_store h op w).1 = Ok y ->
  exists b, zstores w !! h = Some b /\ (op b).1 = Ok y /\ zstores (on_store h op w).2 !! h = Some (op b).2.
Proof.
  unfold on_store. destruct (zstores w !! h) as [b|]; [|done]. intros Hy. exists b. split; [done|].
  destruct (ziofaults w) as [|[] fs]; cbn in *; try done; (split; [done|]; by rewrite lookup_insert_eq).
Qed.

(** A put changes one key, to the whole body or not at all. *)
Lemma put_at h k r w h' k' :
  canonical k = true -> canonical k' = true ->
  at_store (on_store h (be_put k r) w).2 h' k' = at_store w h' k' \/
  (h' = h /\ k' = k /\ rend r = None /\ at_store (on_store h (be_put k r) w).2 h' k' = Some (data r)).
Proof.
  intros Hk Hk'. destruct (decide (h = h')) as [<-|Hne]; [|left; by apply on_store_frame].
  destruct (on_store_at h k' (be_put k r) w) as [He|(b & Hb & He)]; [by left|]. rewrite He. unfold at_store. rewrite Hb.
  destruct (decide (k = k')) as [<-|Hne]; [|left; by apply put_frame].
  destruct (be_put k r b).1 as [n|e] eqn:Hp.
  - destruct (put_ok k r b n Hk Hp) as (H1 & _ & H2). by right.
  - destruct (put_failed k r b e Hk Hp) as [?|[? ?]]; [by left|by right].
Qed.

Lemma put_step h k r st :
  canonical k = true -> (media_key k -> rend r = None -> (h = A \/ h = T) -> L k = Some (data r)) ->
  mig_inv st -> mig_inv (hmig _ (ZPut h k r) st).2 /\ others st (hmig _ (ZPut h k r) st).2.
Proof.
  destruct st as [w g]. intros Hk HL [Hd Hl]. unfold hmig, with_history. cbn [fst snd mig_handler recorded].
  set (w' := (on_store h (be_put k r) w).2).
  assert (Hdb : zdb w' = zdb w) by (unfold w', on_store; destruct (zstores w !! h); [destruct (ziofaults w) as [|[] ?]|]; done).
  assert (Hkeep : forall h' k' x, h' = A \/ h' = T -> media_key k' -> L k' = Some x -> at_store w h' k' = Some x -> at_store w' h' k' = Some x).
  { intros h' k' x Hh Hm HLx Hx. destruct (put_at h k r w h' k' Hk (proj1 Hm)) as [He|(-> & -> & Hr & He)]; unfold w'; rewrite He; [done|].
    rewrite <- HLx. symmetry. by apply HL. }
  assert (Ho : others (w, g) (w', g)) by (split_and!; [done|exact Hkeep| |]; intros x; unfold camp_state; cbn; rewrite Hdb; eauto).
  split; [|done]. split.
  - cbn. rewrite Hdb. eapply db_inv_tame; [apply tame_refl| |exact Hd]. intros k' [H1 H2]. destruct (others_all _ _ Ho k') as [O1 O2]. auto.
  - intros h' k' x Hh Hm. cbn. destruct (put_at h k r w h' k' Hk (proj1 Hm)) as [He|(-> & -> & Hr & He)]; unfold w'; rewrite He.
    + by apply (Hl h').
    + intros [= <-]. by apply HL.
Qed.

(** A whole body is what the store holds. *)
Lemma opened_data h k w r : canonical k = true -> opened h k w = Ok r -> rend r = None -> at_store w h k = Some (data r).
Proof.
  intros Hk. unfold opened, at_store. destruct (zstores w !! h) as [b|]; [|done].
  assert (Ho : be_open k b = Ok r -> rend r = None -> contents b k = Some (data r)).
  { intros Ho Hr. destruct (contents b k) as [x|] eqn:Hc.
    - destruct (open_stored k b x Hk Hc) as (r' & Hr' & <- & _). rewrite Ho in Hr'. by injection Hr' as ->.
    - by destruct (open_missing k b r Hk Hc Ho). }
  destruct (ziofaults w) as [|[] fs]; try done; try exact Ho. destruct (be_open k b); [|done]. by intros [= <-].
Qed.

(** ** Workers and controls *)

Abbreviation worker K p Q := (proves hmig mig_inv all_of others K p Q).

Lemma stable_true R : stable mig_inv R (fun _ => True).
Proof. by intros ?. Qed.

Lemma stable_ok k (P Q : Prop) : stable mig_inv all_of (fun st => P -> (Q -> ok_source st k) /\ ok_target st k).
Proof. intros st st' _ _ Hr Hok HP. destruct (Hok HP) as [H1 H2]. destruct (Hr k) as [R1 R2]. auto. Qed.

Lemma stable_source k (P : Prop) : stable mig_inv all_of (fun st => P -> ok_source st k).
Proof. intros st st' _ _ Hr Hok HP. by apply Hr, Hok. Qed.

Lemma stable_good k (P : Prop) : stable mig_inv all_of (fun st => P -> ok_source st k /\ ok_target st k).
Proof. intros st st' _ _ Hr Hok HP. destruct (Hok HP). split; by apply Hr. Qed.

(** An operation of [open_statement] that leaves knowledge alone. *)
Lemma worker_open {X} (e : migE X) (K : St -> Prop) (Q : X -> St -> Prop) :
  open_statement X e -> (forall x, stable mig_inv all_of (Q x)) ->
  (forall st, mig_inv st -> K st -> mig_inv (hmig X e st).2 -> others st (hmig X e st).2 -> Q (hmig X e st).1 (hmig X e st).2) ->
  worker K (call e) Q.
Proof.
  intros He Hst HQ. apply proves_call; [done|]. intros st Hi HK. destruct (open_step X e st He Hi). auto.
Qed.

Lemma worker_ops {Y} (p : prog migE Y) : ops open_statement p -> worker (fun _ => True) p (fun _ _ => True).
Proof. intros Hp. apply (proves_ops _ _ _ _ _ open_statement); [apply stable_true| |done]. intros X e st He Hi _. by destruct (open_step X e st He Hi). Qed.

Section Copy.
Context (s : MigService) (Hsrc : zs_primary s = A) (Hdst : describe_target s = T).

Definition verified_good key (r : result copyerr (string * Z)) st : Prop :=
  (exists x, r = Ok x) -> ok_source st key /\ ok_target st key.

Lemma verified_good_stable key r : stable mig_inv all_of (verified_good key r).
Proof. apply stable_good. Qed.

Lemma verified_good_err key e K : worker K (mret (Err e)) (verified_good key).
Proof. apply proves_ret. intros st _ _ [x Hx]. done. Qed.

(** Once the target holds the body, nothing that follows undoes it. *)
Lemma after_put_good key size (sent : string) :
  worker (fun st => ok_source st key /\ ok_target st key)
    (t ← hashTarget sha256 (describe_target s) key;
     match t with
     | Err ErrNotFound => mret (Err (Terminal failVerification))
     | Err _ => mret (Err Transient)
     | Ok stored =>
         if negb (bool_decide (stored = sent)) then mret (Err (Terminal failVerification)) else
         rec ← recordedHash key;
         mret (match rec with
               | Some recorded => if bool_decide (recorded = sent) then Ok (sent, size) else Err (Terminal failRecordedHash)
               | None => Ok (sent, size)
               end)
     end) (verified_good key).
Proof.
  assert (Hst : stable mig_inv all_of (fun st => ok_source st key /\ ok_target st key)).
  { intros st st' _ _ Hr [H1 H2]. split; by apply Hr. }
  apply proves_bind with (Q := fun _ st => ok_source st key /\ ok_target st key).
  { apply (proves_ops _ _ _ _ _ open_statement); [done| |unfold hashTarget; walk_ops; done].
    intros X e st He Hi [H1 H2]. destruct (open_step X e st He Hi) as [I1 I2]. split_and!; try done; by apply (others_all _ _ I2). }
  intros [stored|e]; [|destruct e; apply verified_good_err].
  destruct (negb _); [apply verified_good_err|].
  apply proves_bind with (Q := fun _ st => ok_source st key /\ ok_target st key).
  { apply (proves_ops _ _ _ _ _ open_statement); [done| |unfold recordedHash; walk_ops; done].
    intros X e st He Hi [H1 H2]. destruct (open_step X e st He Hi) as [I1 I2]. split_and!; try done; by apply (others_all _ _ I2). }
  intros rec. apply proves_ret. intros st _ Hk _. done.
Qed.

Lemma copyAndVerify_good key : canonical key = true -> worker (fun _ => True) (copyAndVerify sha256 s key) (verified_good key).
Proof.
  intros Hk. unfold copyAndVerify.
  set (Qo := fun (o : result ioerr reader) (st : St) => forall r, o = Ok r -> rend r = None ->
    ok_source st key /\ (media_key key -> L key = Some (data r))).
  apply proves_bind with (Q := Qo).
  { apply worker_open; [done| |].
    - intros o st st' _ _ Hr Hok r Hr' Hn. destruct (Hok r Hr' Hn) as [H1 H2]. split; [by apply Hr|done].
    - intros [w g] Hi _ _ _ r Ho Hn. unfold hmig, with_history in Ho |- *. cbn [fst snd mig_handler recorded] in *. rewrite Hsrc in *.
      apply opened_data in Ho; [|done..]. destruct Hi as [_ Hl]. cbn in Hl.
      split; [intros Hm; right; exists (data r); split; [|done]|intros Hm]; by apply (Hl A); auto. }
  intros [rc|e]; [|destruct e; apply verified_good_err].
  unfold PutSizedHashed.
  apply proves_bind with (Q := fun p st => (exists x, p = Ok x) -> ok_source st key /\ ok_target st key).
  { apply proves_bind with (Q := fun p st => (exists n, p = Ok n) -> ok_source st key /\ ok_target st key).
    - apply proves_call; [intros p; apply stable_good|]. intros st Hi HQ.
      destruct (put_step (describe_target s) key rc st Hk) as [I1 I2]; [|done|].
      { intros Hm Hn _. by destruct (HQ rc eq_refl Hn) as [_ ?]; auto. }
      split_and!; [done..|]. intros [n Hn]. destruct st as [w g]. unfold hmig, with_history in *. cbn [fst snd mig_handler recorded] in *. rewrite Hdst in *.
      apply on_store_ok in Hn as (b & Hb & Hp & Hw'). apply put_ok in Hp as (Hr & _ & Hc); [|done]. destruct (HQ rc eq_refl Hr) as [Hs HL].
      split; [by apply (others_all _ _ I2)|]. intros Hm. right. exists (data rc). split; [auto|]. unfold at_store. cbn [fst]. by rewrite Hw'.
    - intros [n|e]; apply proves_ret; intros st _ HK [x Hx]; [apply HK; by eexists|done]. }
  intros [[size sent]|e]; [|destruct e; apply verified_good_err].
  eapply proves_pre; [|apply after_put_good]. intros st _ HK. apply HK. by eexists.
Qed.
End Copy.

(** Steps of a statement: the database after it is one of two. *)
Lemma on_mig_store {Y} (q : MigDB -> result dberr Y * MigDB) w :
  store (zdb (on_mig q w).2) = store (zdb w) \/ store (zdb (on_mig q w).2) = (q (store (zdb w))).2.
Proof. unfold on_mig, exec. cbn. destruct (faults (zdb w)) as [|[] fs]; cbn; auto. Qed.

Lemma db_others w w' g :
  camps (store (zdb w')) = camps (store (zdb w)) -> zstores w' = zstores w -> others (w, g) (w', g).
Proof.
  intros Hc Hs. split_and!; [done| | |]; cbn.
  - intros h k x _ _ _. unfold at_store. by rewrite Hs.
  - intros x. unfold camp_state. rewrite Hc. eauto.
  - intros x. unfold camp_state. rewrite Hc. eauto.
Qed.

Lemma verified_step key sum size st :
  ok_source st key /\ ok_target st key -> mig_inv st ->
  mig_inv (hmig _ (MarkStorageMigrationObjectVerified key sum size) st).2 /\ others st (hmig _ (MarkStorageMigrationObjectVerified key sum size) st).2.
Proof.
  destruct st as [w g]. intros Hgood Hi. unfold hmig, with_history. cbn [fst snd mig_handler recorded].
  set (w' := (on_mig _ w).2). assert (Hs : zstores w' = zstores w) by done.
  assert (Hok : forall k, ok_source (w', g) k /\ ok_target (w', g) k <-> ok_source (w, g) k /\ ok_target (w, g) k).
  { done. }
  destruct (on_mig_store (q_MarkStorageMigrationObjectVerified key sum size) w) as [Hd|Hd]; fold w' in Hd.
  { apply tame_others; [rewrite Hd; apply tame_refl|done|done]. }
  split; [|apply db_others; [by rewrite Hd|done]]. destruct Hi as [[I1 I2 I3 I4] Hl]. split.
  - cbn in *. rewrite Hd. split; [exact I1|exact I2|exact I3|]. intros k o'. cbn. rewrite lookup_alter_Some.
    intros [(<- & o & Ho & ->)|[_ Ho]]; destruct (I4 _ _ Ho) as (O1 & O2 & O3).
    + case_bool_decide; cbn; (split_and!; [done..|]); intros; apply Hok; auto.
    + split_and!; [done..|]. intros. apply Hok. auto.
  - intros h k x. cbn [fst]. change (at_store w' h k) with (at_store w h k). apply Hl.
Qed.

(** ** Every participant keeps its promise *)

Section CopyWorker.
Context (s : MigService).

Lemma topology_forward c :
  topologyFor s c = topologyForward -> zs_primary s = cSource c /\ describe_target s = cTarget c.
Proof. unfold topologyFor. repeat case_bool_decide; cbn; done. Qed.

Lemma topology_swapped c :
  topologyFor s c = topologySwapped -> zs_primary s = cTarget c /\ describe_target s = cSource c.
Proof. unfold topologyFor. repeat case_bool_decide; cbn; done. Qed.

Lemma copyOne_proves row :
  zs_primary s = A -> describe_target s = T -> canonical row.1.1 = true ->
  worker (fun _ => True) (copyOne sha256 s row) (fun _ _ => True).
Proof.
  intros Hsrc Hdst Hk. unfold copyOne. apply proves_bind with (Q := verified_good row.1.1); [by apply copyAndVerify_good|].
  intros [[sum size]|[cat|]].
  - apply proves_bind with (Q := fun _ _ => True); [|done]. apply proves_call; [intros; apply stable_true|].
    intros st Hi HK. destruct (verified_step row.1.1 sum size st) as [I1 I2]; [apply HK; by eexists|done|done].
  - eapply proves_pre; [|apply worker_ops; walk_ops; done]. done.
  - eapply proves_pre; [|apply worker_ops; walk_ops; done]. done.
Qed.

Lemma copy_each_proves rows :
  zs_primary s = A -> describe_target s = T -> Forall (fun row : string * uuid * Z => canonical row.1.1 = true) rows ->
  worker (fun _ => True) (copy_each sha256 s rows) (fun _ _ => True).
Proof.
  intros Hsrc Hdst. induction 1 as [|row rows Hk _ IH]; [done|]. cbn [copy_each].
  apply proves_bind with (Q := fun _ _ => True); [by apply copyOne_proves|]. intros _. exact IH.
Qed.

(** What reading the active campaign tells. *)
Definition is_active st c : Prop :=
  cID c = id /\ cSource c = A /\ cTarget c = T /\ live_state (cState c) = true /\
  camp_state st.1 = Some (cState c).

Lemma active_read st c :
  mig_inv st -> (hmig _ GetActiveStorageMigration st).1 = Ok c -> is_active st c.
Proof.
  destruct st as [w g]. intros [[(c0 & H1 & H2 & H3 & _) I2 I3 _] _] Hr. unfold hmig, with_history in Hr. cbn [fst snd mig_handler] in *.
  unfold on_mig in Hr. cbn [fst] in Hr. apply exec_ok in Hr as [Hr _]. unfold q_GetActiveStorageMigration in Hr. cbn [fst] in Hr.
  destruct (filter _ _) as [|c1 rest] eqn:Hf; [done|]. injection Hr as ->.
  assert (Hin : c ∈ filter (fun c => live_state (cState c) = true) (campaigns_by_age (store (zdb w)))) by (rewrite Hf; by left).
  apply list_elem_of_filter in Hin as [Hlive Hin]. unfold campaigns_by_age in Hin. rewrite merge_sort_Permutation in Hin.
  apply list_elem_of_fmap in Hin as ([i c'] & -> & Hin). apply elem_of_map_to_list in Hin. cbn in *.
  assert (i = id) as -> by (destruct (decide (i = id)) as [|Hne]; [done|]; by rewrite (I3 _ _ Hin Hne) in Hlive).
  assert (c0 = c') as -> by congruence. split_and!; [by apply I2|done..|]. unfold camp_state. cbn. by rewrite Hin.
Qed.

(** Claimed keys are canonical. *)
Lemma claim_canonical st limit rows :
  mig_inv st -> (hmig _ (ClaimDueStorageMigrationObjects limit) st).1 = Ok rows ->
  Forall (fun row : string * uuid * Z => canonical row.1.1 = true) rows.
Proof.
  destruct st as [w g]. intros [[_ _ _ I4] _] Hr. unfold hmig, with_history in Hr. cbn [fst snd mig_handler] in *.
  unfold on_mig in Hr. cbn [fst] in Hr. apply exec_ok in Hr as [Hr _]. unfold q_ClaimDueStorageMigrationObjects in Hr. cbn [fst] in Hr.
  injection Hr as <-. apply Forall_fmap, Forall_forall. intros o Ho. apply elem_of_take in Ho as (i & Ho & _). apply list_elem_of_lookup_2 in Ho.
  rewrite merge_sort_Permutation in Ho. apply list_elem_of_filter in Ho as [_ Ho]. apply list_elem_of_fmap in Ho as ([k o'] & -> & Ho).
  apply elem_of_map_to_list in Ho. cbn. destruct (I4 _ _ Ho) as (-> & ? & _). done.
Qed.

Lemma CopyOnce_proves batch : worker (fun _ => True) (CopyOnce sha256 s batch) (fun _ _ => True).
Proof.
  unfold CopyOnce. destruct (zs_target s) as [t|]; [|done].
  apply proves_bind with (Q := fun a _ => forall c, a = Ok c -> cSource c = A /\ cTarget c = T).
  { apply worker_open; [done|by intros ? ?|]. intros st Hi _ _ _ c Hc. by destruct (active_read st c Hi Hc) as (_ & ? & ? & _). }
  intros [c|e]; [|destruct e; done].
  destruct (negb _ && _); [done|]. destruct (negb (bool_decide (topologyFor s c = topologyForward))) eqn:Ht; [done|]. bools.
  apply topology_forward in Ht as [Hsrc Hdst].
  apply proves_bind with (Q := fun r _ => (cSource c = A /\ cTarget c = T) /\ forall rows, r = Ok rows -> Forall (fun row : string * uuid * Z => canonical row.1.1 = true) rows).
  { apply worker_open; [done|by intros ? ?|]. intros st Hi HK _ _. split; [by apply HK|]. intros rows. by apply claim_canonical. }
  intros [rows|e]; [|done].
  apply proves_pure with (P := A = cSource c /\ T = cTarget c /\ Forall (fun row : string * uuid * Z => canonical row.1.1 = true) rows).
  { intros st _ [[-> ->] Hrows]. auto. }
  intros (HA & HT & Hrows). apply proves_bind with (Q := fun _ _ => True).
  { eapply proves_pre; [|apply copy_each_proves; [congruence..|done]]. done. }
  intros _. apply worker_ops. walk_ops; done.
Qed.
End CopyWorker.

Lemma participant_proves p : participant p -> worker (fun _ => True) p (fun _ _ => True).
Proof.
  intros [s batch|key| |i|i reason|s i|i clean|s i|i|i|n|h k r Hk Hr]; unfold renew.
  1: apply proves_bind with (Q := fun _ _ => True); [apply CopyOnce_proves|done].
  11: { apply proves_bind with (Q := fun _ _ => True); [|done]. apply proves_call; [intros; apply stable_true|].
        intros st Hi _. destruct (put_step h k r st (proj1 Hk)) as [I1 I2]; auto. }
  all: apply worker_ops; apply ops_bind; [|done];
    unfold Cancel, Pause, Resume, Abort_, Switch, Release, Get, List_, guarded, illegal, reread, db, targetWritable, objectCounts, Cancel; walk_ops; done.
Qed.

(** ** The leader *)

Abbreviation leads K p Q := (proves hmig mig_inv others leader K p Q).

(** What the leader knows of a campaign in a given state: nothing was deleted,
    or the deletions are of one side and the campaign cannot come back. *)
Definition phase (x : cstate) st : Prop :=
  match x with
  | CDeletingSource => st.2 <> FromTarget /\ exists y, camp_state st.1 = Some y /\ past_release y
  | CAborting => st.2 <> FromSource /\ exists y, camp_state st.1 = Some y /\ past_abort y
  | _ => st.2 = NoneYet
  end.

Lemma phase_stable x : stable mig_inv others (phase x).
Proof.
  intros st st' _ _ (Hg & _ & Hr & Ha). unfold phase. rewrite Hg.
  destruct x; try done; intros [H1 (y & Hy & HP)]; (split; [done|]); first [exact (Hr y Hy HP)|exact (Ha y Hy HP)].
Qed.

Lemma active_phase st c : mig_inv st -> is_active st c -> phase (cState c) st.
Proof.
  destruct st as [w g]. intros [[(c0 & H1 & _ & _ & H4 & H5) _ _ _] _] (_ & _ & _ & Hl & Hs). unfold camp_state in Hs. cbn in *. rewrite H1 in Hs. injection Hs as Hs.
  unfold phase, camp_state, past_release, past_abort in *. cbn. rewrite H1. cbn. rewrite Hs in *.
  destruct (cState c), g; try done; first [split; [done|]; eauto 10 | exfalso; naive_solver].
Qed.

(** The leader's harmless operations. *)
Lemma leader_open {X} (e : migE X) x (Q : X -> St -> Prop) :
  open_statement X e -> (forall a, stable mig_inv others (Q a)) ->
  (forall st, mig_inv st -> phase x st -> phase x (hmig X e st).2 -> Q (hmig X e st).1 (hmig X e st).2) ->
  leads (phase x) (call e) Q.
Proof.
  intros He Hst HQ. apply proves_call; [done|]. intros st Hi HK. destruct (open_step X e st He Hi) as [I1 I2].
  split_and!; [done|by apply others_leader|]. apply HQ; [done..|]. by apply (phase_stable x st).
Qed.

Lemma leader_ops {Y} x (p : prog migE Y) : ops open_statement p -> leads (phase x) p (fun _ => phase x).
Proof.
  intros Hp. apply (proves_ops _ _ _ _ _ open_statement); [apply phase_stable| |done]. intros X e st He Hi HK.
  destruct (open_step X e st He Hi) as [I1 I2]. split_and!; [done|by apply others_leader|]. by apply (phase_stable x st).
Qed.

Lemma leader_true {Y} (p : prog migE Y) : ops open_statement p -> leads (fun _ => True) p (fun _ _ => True).
Proof.
  intros Hp. apply (proves_ops _ _ _ _ _ open_statement); [apply stable_true| |done]. intros X e st He Hi _.
  destruct (open_step X e st He Hi) as [I1 I2]. split_and!; [done|by apply others_leader|done].
Qed.

(** *** Moving the campaign on *)

Lemma set_state_inv g good d y err :
  (g = FromSource -> past_release y) -> (g = FromTarget -> past_abort y) ->
  db_inv g good d -> db_inv g good (q_SetStorageMigrationState id y err d).2.
Proof.
  intros Hr Ha [(c & H1 & H2 & H3 & H4 & H5) I2 I3 I4]. unfold q_SetStorageMigrationState, quiet, update_camp. rewrite H1.
  destruct (live_state (cState c)); [|split; eauto 10]. cbn. split; cbn; [| | |done].
  - eexists. rewrite lookup_insert_eq. split; [done|]. by split_and!.
  - intros i c' Hc'. apply lookup_insert_Some in Hc' as [[<- <-]|[_ Hc']]; [cbn; by apply I2|by apply I2].
  - intros i c' Hc' Hne. rewrite lookup_insert_ne in Hc' by done. by eapply I3.
Qed.

Definition may_set (x y : cstate) : Prop := (x <> CDeletingSource /\ x <> CAborting) \/ (x = CDeletingSource /\ y = CDone).

Lemma set_state_step x y err st :
  may_set x y -> phase x st -> mig_inv st ->
  mig_inv (hmig _ (SetStorageMigrationState id y err) st).2 /\ leader st (hmig _ (SetStorageMigrationState id y err) st).2.
Proof.
  destruct st as [w g]. intros Hm Hp [Hd Hl]. unfold hmig, with_history. cbn [fst snd mig_handler recorded].
  assert (Hg : (g = FromSource -> past_release y) /\ (g = FromTarget -> past_abort y)).
  { destruct Hm as [[N1 N2]|[-> ->]]; [|destruct Hp as [Hg _]; cbn in Hg; split; [intros _; unfold past_release; auto|by intros ?%Hg]].
    assert (g = NoneYet) as -> by (destruct x; done). by split. }
  split; [split|].
  - cbn [fst snd]. change (fun k => ok_source ((on_mig (q_SetStorageMigrationState id y err) w).2, g) k /\ ok_target ((on_mig (q_SetStorageMigrationState id y err) w).2, g) k)
      with (fun k => ok_source (w, g) k /\ ok_target (w, g) k).
    destruct (on_mig_store (q_SetStorageMigrationState id y err) w) as [->| ->]; [exact Hd|]. destruct Hg. by apply set_state_inv.
  - exact Hl.
  - split; [by intros k|by intros k z].
Qed.

Lemma setState_proves x y err :
  may_set x y -> leads (phase x) (setState id y err) (fun _ _ => True).
Proof.
  intros Hm. unfold setState, db. apply proves_bind with (Q := fun _ _ => True); [|done].
  apply proves_call; [intros; apply stable_true|]. intros st Hi HK. by destruct (set_state_step x y err st Hm HK Hi).
Qed.

(** *** Deleting *)

(** The side that is emptied, the side that keeps the objects. *)
Definition side (h other : string) (g : deletions) (x : cstate) : Prop :=
  (h = A /\ other = T /\ g = FromSource /\ x = CDeletingSource) \/ (h = T /\ other = A /\ g = FromTarget /\ x = CAborting).

Definition kept_in (other : string) (keys : list string) st : Prop :=
  forall k, k ∈ keys -> media_key k -> exists x, L k = Some x /\ at_store st.1 other k = Some x.

Lemma kept_in_stable h other g x keys : side h other g x -> stable mig_inv others (fun st => phase x st /\ kept_in other keys st).
Proof.
  intros Hs st st' Hi Hi' Ho [Hp Hk]. split; [by apply (phase_stable x st)|]. intros k Hin Hm. destruct (Hk k Hin Hm) as (y & HL & Hy).
  exists y. split; [done|]. destruct Ho as (_ & Ho & _). apply Ho; auto. destruct Hs as [(_ & -> & _)|(_ & -> & _)]; auto.
Qed.

Lemma delete_at h k w h' k' :
  canonical k = true -> canonical k' = true ->
  at_store (on_store h (be_delete k) w).2 h' k' = at_store w h' k' \/
  (h' = h /\ k' = k /\ at_store (on_store h (be_delete k) w).2 h' k' = None).
Proof.
  intros Hk Hk'. destruct (decide (h = h')) as [<-|Hne]; [|left; by apply on_store_frame].
  destruct (on_store_at h k' (be_delete k) w) as [He|(b & Hb & He)]; [by left|]. rewrite He. unfold at_store. rewrite Hb.
  destruct (decide (k = k')) as [<-|Hne]; [|left; by apply delete_frame].
  destruct (contents (be_delete k b).2 k) as [x|] eqn:Hc; [|by right]. left. by apply delete_failed in Hc.
Qed.

Lemma delete_step h other g x k keys st :
  side h other g x -> canonical k = true -> phase x st -> kept_in other (k :: keys) st -> mig_inv st ->
  let st' := (hmig _ (ZDelete h k) st).2 in
  mig_inv st' /\ leader st st' /\ phase x st' /\ kept_in other keys st'.
Proof.
  destruct st as [w g0]. intros Hs Hk Hp Hkeep [Hd Hl] st'.
  set (w' := (on_store h (be_delete k) w).2) in *. assert (Est : st' = (w', g)).
  { unfold st', hmig, with_history. cbn [fst snd mig_handler recorded]. fold w'. f_equal.
    destruct Hs as [(-> & _ & -> & _)|(-> & _ & -> & _)]; [by rewrite bool_decide_eq_true_2|].
    by rewrite bool_decide_eq_false_2, bool_decide_eq_true_2. }
  clearbody st'. subst st'.
  assert (Hdb : zdb w' = zdb w) by (unfold w', on_store; destruct (zstores w !! h); [destruct (ziofaults w) as [|[] ?]|]; done).
  assert (Hother : forall k', at_store w' other k' = at_store w other k').
  { intros k'. apply on_store_frame. destruct Hs as [(-> & -> & _)|(-> & -> & _)]; done. }
  assert (Hat : forall h' k' y, media_key k' -> at_store w' h' k' = Some y -> at_store w h' k' = Some y).
  { intros h' k' y Hm. unfold w'. destruct (delete_at h k w h' k' Hk (proj1 Hm)) as [->|(_ & _ & ->)]; done. }
  assert (Hall : all_of (w, g0) (w', g)).
  { intros k'. unfold ok_source, ok_target. cbn. destruct Hs as [(-> & -> & -> & ->)|(-> & -> & -> & ->)]; destruct Hp as [Hg _]; cbn in Hg.
    - split; [by left|]. intros Hok Hm. destruct (Hok Hm) as [|(y & ? & ?)]; [done|]. right. exists y. by rewrite Hother.
    - split; [|by left]. intros Hok Hm. destruct (Hok Hm) as [|(y & ? & ?)]; [done|]. right. exists y. by rewrite Hother. }
  assert (Hphase : phase x (w', g)).
  { destruct Hs as [(-> & -> & -> & ->)|(-> & -> & -> & ->)]; destruct Hp as [_ Hc]; (split; [done|]); cbn in *; unfold camp_state in *; by rewrite Hdb. }
  split_and!; [split| |done|].
  - cbn in Hd |- *. rewrite Hdb. destruct Hd as [(c & H1 & H2 & H3 & H4 & H5) I2 I3 I4]. split; [|exact I2|exact I3|].
    + exists c. split_and!; [done..| |]; intros ->; destruct Hs as [(_ & _ & Hg & ->)|(_ & _ & Hg & ->)]; try done;
        destruct Hphase as [_ (y & Hy & HP)]; cbn in Hy; unfold camp_state in Hy; rewrite Hdb, H1 in Hy; cbn in Hy; by injection Hy as <-.
    + intros k' o Ho. destruct (I4 k' o Ho) as (? & ? & Hv). split_and!; [done..|]. intros. destruct (Hall k') as [F1 F2]. destruct Hv; auto.
  - intros h' k' y Hh Hm Hy. by eapply Hl, Hat.
  - split; [exact Hall|]. intros k' y Hm HL Hh. cbn in *. destruct (decide (k' = k)) as [->|Hne].
    + destruct (Hkeep k ltac:(by left) Hm) as (z & HLz & Hz). assert (z = y) as -> by congruence. rewrite <- Hother in Hz.
      destruct Hs as [(_ & -> & _)|(_ & -> & _)]; [by right|by left].
    + assert (He : forall h', at_store w' h' k' = at_store w h' k').
      { intros h'. destruct (delete_at h k w h' k' Hk (proj1 Hm)) as [|(_ & ? & _)]; done. }
      destruct Hh as [Hh|Hh]; [left|right]; by rewrite He.
  - intros k' Hin Hm. destruct (Hkeep k' ltac:(by right) Hm) as (y & HL & Hy). exists y. split; [done|]. cbn. by rewrite Hother.
Qed.

Lemma remove_each_proves s h other g x (forget : string -> migE (result dberr unit)) keys n :
  side h other g x -> describe_target s = h -> (forall k, open_statement _ (forget k)) -> Forall (fun k => canonical k = true) keys ->
  leads (fun st => phase x st /\ kept_in other keys st) (remove_each s forget keys n) (fun _ => phase x).
Proof.
  intros Hs Hh Hf Hkeys. revert n. induction Hkeys as [|k keys Hk _ IH]; intros n; cbn [remove_each].
  { apply proves_ret. by intros st _ []. }
  apply proves_bind with (Q := fun _ st => phase x st /\ kept_in other keys st).
  { apply proves_call; [intros _; by eapply kept_in_stable|]. intros st Hi [Hp Hkept]. rewrite Hh.
    by destruct (delete_step h other g x k keys st Hs Hk Hp Hkept Hi) as (? & ? & ? & ?). }
  intros [_|e]; [|apply IH].
  apply proves_bind with (Q := fun _ st => phase x st /\ kept_in other keys st).
  { apply proves_call; [intros _; by eapply kept_in_stable|]. intros st Hi HK.
    destruct (open_step _ (forget k) st (Hf k) Hi) as [I1 I2]. split_and!; [done|by apply others_leader|..];
      by apply (kept_in_stable h other g x keys Hs st). }
  intros [_|e]; [apply IH|]. apply proves_ret. by intros st _ [].
Qed.

(** *** The passes *)

Lemma leads_drop {Y} x (p : prog migE Y) : leads (phase x) p (fun _ => phase x) -> leads (phase x) p (fun _ _ => True).
Proof. by apply proves_post. Qed.

Lemma leads_open_bind {X Y} x (e : migE X) (f : X -> prog migE Y) Q :
  open_statement X e -> (forall a, leads (phase x) (f a) Q) -> leads (phase x) (call e ≫= f) Q.
Proof.
  intros He Hf. apply proves_bind with (Q := fun _ => phase x); [|done]. apply leader_open; [done|intros _; apply phase_stable|done].
Qed.

Lemma leads_done {Y} x (a : Y) : leads (phase x) (mret a) (fun _ _ => True).
Proof. done. Qed.

Lemma note_proves x i msg : leads (phase x) (note i msg) (fun _ _ => True).
Proof. apply leads_drop, leader_ops. unfold note, db. walk_ops; done. Qed.

Lemma enumerate_chunks_ops fuel keys n : Forall (fun k => canonical k = true) keys -> ops open_statement (enumerate_chunks fuel id keys n).
Proof.
  revert keys n. induction fuel as [|fuel IH]; intros [|k keys] n Hk; try done. cbn [enumerate_chunks].
  apply ops_bind; [apply ops_call; intros y Hy|].
  - rewrite Forall_forall in Hk. apply Hk. by eapply elem_of_take in Hy as (i & Hi & _); apply list_elem_of_lookup_2 in Hi.
  - intros [m|e]; [|done]. apply IH. by apply Forall_drop.
Qed.

Lemma enumerate_proves s x : leads (phase x) (enumerate s id) (fun _ => phase x).
Proof.
  unfold enumerate. destruct (negb (zs_lister s)); [by apply proves_ret|].
  apply proves_bind with (Q := fun l st => phase x st /\ forall keys, l = Ok keys -> Forall (fun k => canonical k = true) keys).
  { apply leader_open; [done| |].
    - intros l st st' Hi Hi' Hr [H1 H2]. split; [by apply (phase_stable x st)|done].
    - intros [w g] Hi _ Hp. split; [done|]. intros keys. unfold hmig, with_history. cbn [fst snd mig_handler].
      destruct (zstores w !! zs_primary s) as [b|]; [|done].
      assert (Hl : be_listAll b = Ok keys -> Forall (fun k => canonical k = true) keys).
      { intros Hl. apply Forall_forall. intros k Hk. by apply (listAll_spec b keys k Hl) in Hk as [? _]. }
      destruct (ziofaults w) as [|[] fs]; done. }
  intros [keys|e]; [|apply proves_ret; by intros st _ []].
  apply proves_pure with (P := Forall (fun k => canonical k = true) keys); [intros st _ [_ Hk]; by apply Hk|]. intros Hk.
  eapply proves_pre; [|by apply leader_ops, enumerate_chunks_ops]. by intros st _ [].
Qed.

Lemma listed_kept h other g x n st keys :
  side h other g x -> mig_inv st -> phase x st -> verified_keys id n (store (zdb st.1)) = keys ->
  Forall (fun k => canonical k = true) keys /\ kept_in other keys st.
Proof.
  intros Hs [[_ _ _ I4] _] Hp <-.
  assert (Hv : forall k, k ∈ verified_keys id n (store (zdb st.1)) -> canonical k = true /\ ok_source st k /\ ok_target st k).
  { intros k Hk. unfold verified_keys in Hk. apply elem_of_take in Hk as (i & Hk & _). apply list_elem_of_lookup_2 in Hk.
    rewrite merge_sort_Permutation in Hk. apply list_elem_of_fmap in Hk as (o & -> & Ho). unfold in_states, ledger in Ho.
    apply list_elem_of_filter in Ho as [Hst Ho]. apply list_elem_of_filter in Ho as [Hc Ho]. apply list_elem_of_fmap in Ho as ([k' o'] & -> & Ho).
    apply elem_of_map_to_list in Ho. destruct (I4 _ _ Ho) as (O1 & O2 & O3). cbn in *. rewrite O1. apply list_elem_of_singleton in Hst. destruct (O3 Hst Hc). auto. }
  split; [apply Forall_forall; intros k Hk; by apply Hv|]. intros k Hk Hm. destruct (Hv k Hk) as (_ & H1 & H2).
  destruct Hs as [(_ & -> & _ & ->)|(_ & -> & _ & ->)]; destruct Hp as [Hg _].
  - by destruct (H2 Hm) as [|Hx].
  - by destruct (H1 Hm) as [|Hx].
Qed.

(** A batch of deletions. *)
Lemma batch_proves {Y} s h other g x (lst : Z -> migE (result dberr (list string))) forget (f : result zerr Z -> list string -> prog migE (result zerr Y)) :
  side h other g x -> describe_target s = h -> (forall k, open_statement _ (forget k)) -> (forall n, open_statement _ (lst n)) ->
  (forall n st keys, (hmig _ (lst n) st).1 = Ok keys -> verified_keys id n (store (zdb st.1)) = keys) ->
  (forall r keys, leads (phase x) (f r keys) (fun _ _ => True)) ->
  leads (phase x)
    (l ← call (lst deleteBatch);
     match l with Err e => mret (Err (ZErrDB e)) | Ok keys => r ← remove_each s forget keys 0; f r keys end) (fun _ _ => True).
Proof.
  intros Hs Hh Hf Hl Hlist Hrest.
  apply proves_bind with (Q := fun l st => forall keys, l = Ok keys -> Forall (fun k => canonical k = true) keys /\ phase x st /\ kept_in other keys st).
  { apply proves_call.
    - intros l st st' Hi Hi' Ho Hk keys Hkeys. destruct (Hk keys Hkeys) as (K1 & K2 & K3). split; [done|].
      by apply (kept_in_stable h other g x keys Hs st).
    - intros st Hi Hp. destruct (open_step _ (lst deleteBatch) st (Hl _) Hi) as [I1 I2]. split_and!; [done|by apply others_leader|].
      intros keys Hkeys. apply Hlist in Hkeys. destruct (listed_kept h other g x _ st keys Hs Hi Hp Hkeys) as [K1 K2]. split; [done|].
      by apply (kept_in_stable h other g x keys Hs st). }
  intros [keys|e]; [|done].
  apply proves_pure with (P := Forall (fun k => canonical k = true) keys); [intros st _ Hk; by apply Hk|]. intros Hk.
  apply proves_bind with (Q := fun _ => phase x); [|intros r; apply Hrest].
  eapply proves_pre; [|by eapply remove_each_proves]. intros st _ HK. by destruct (HK keys eq_refl) as (_ & ? & ?).
Qed.

Lemma listed_answer {Y} (q : MigDB -> result dberr Y * MigDB) w a : (on_mig q w).1 = Ok a -> (q (store (zdb w))).1 = Ok a.
Proof. intros Ha. by apply exec_ok in Ha as [? _]. Qed.

Section Pass.
Context (s : MigService) (c : Campaign) (Hid : cID c = id) (HA : cSource c = A) (HT : cTarget c = T).

Lemma abortCleanupBatch_proves : leads (phase CAborting) (abortCleanupBatch s c) (fun _ _ => True).
Proof.
  unfold abortCleanupBatch. destruct (negb _) eqn:Ht; [done|]. bools. rewrite Hid.
  apply (batch_proves s T A FromTarget CAborting (ListDestinationCopiesToRemove id)); [by right|congruence|done|done| |].
  { intros n [w g] keys Hk. unfold hmig, with_history in Hk. cbn [fst snd mig_handler] in Hk. apply listed_answer in Hk. by injection Hk. }
  intros [removed|e] keys; [|done]. destruct (_ || _); [done|]. apply leads_drop, leader_ops. walk_ops; done.
Qed.

Lemma adoptDestination_proves x : leads (phase x) (adoptDestination s c) (fun _ => phase x).
Proof.
  unfold adoptDestination. destruct (negb _) eqn:Hp; [by apply proves_ret|]. bools.
  apply leads_open_bind; [done|]. intros [identity|e]; [|by apply proves_ret].
  apply proves_bind with (Q := fun _ => phase x); [apply leader_ops; unfold readMarker; walk_ops; done|].
  intros [[m|]|e]; try by apply proves_ret. destruct (bool_decide _); [by apply proves_ret|].
  apply proves_bind with (Q := fun _ => phase x); [|by intros _; apply proves_ret].
  apply proves_call; [intros _; apply phase_stable|]. intros st Hi HK.
  destruct (put_step (zs_primary s) OwnerMarkerKey (Reader [String.list_byte_of_string (TrimSpace identity)] None false) st) as [I1 I2];
    [reflexivity|by intros [_ ?]|done|]. split_and!; [done|by apply others_leader|]. by apply (phase_stable x st).
Qed.

Lemma deleteSourceBatch_proves : leads (phase CDeletingSource) (deleteSourceBatch s c) (fun _ _ => True).
Proof.
  unfold deleteSourceBatch. destruct (negb _) eqn:Ht; [done|]. bools. rewrite Hid.
  apply (batch_proves s A T FromSource CDeletingSource (ListVerifiedStorageMigrationObjects id)); [by left|congruence|done|done| |].
  { intros n [w g] keys Hk. unfold hmig, with_history in Hk. cbn [fst snd mig_handler] in Hk. apply listed_answer in Hk. by injection Hk. }
  intros [removed|e] keys; [|done]. apply leads_open_bind; [done|]. intros [_|e]; [|done].
  apply leads_open_bind; [done|]. intros [n|e]; [|done]. destruct (0 <? n); [done|].
  apply proves_bind with (Q := fun _ => phase CDeletingSource); [apply adoptDestination_proves|]. intros _. apply setState_proves. by right.
Qed.

(** The passes that delete nothing. *)
Lemma pass_proves x : x <> CDeletingSource -> x <> CAborting ->
  leads (phase x) (reconcile s c) (fun _ _ => True) /\ leads (phase x) (maybeBeginDeletingSource s c) (fun _ _ => True).
Proof.
  intros N1 N2. assert (Hset : forall y err, leads (phase x) (setState id y err) (fun _ _ => True)) by (intros; apply setState_proves; by left).
  split.
  - unfold reconcile. rewrite Hid. apply leads_open_bind; [done|]. intros [n|e]; [|done]. apply leads_open_bind; [done|]. intros [_|e]; [|done].
    destruct (0 <? n); [done|]. apply proves_bind with (Q := fun _ => phase x); [apply enumerate_proves|]. intros [added|e]; [|done].
    apply leads_open_bind; [done|]. intros [_|e]; [|done]. destruct (0 <? added); [destruct (negb _); [apply Hset|done]|]. destruct (negb _); [apply Hset|done].
  - unfold maybeBeginDeletingSource. rewrite Hid. destruct (cCutoverAt c); [|apply note_proves]. apply leads_open_bind; [done|]. intros now.
    destruct (_ <? _); [done|]. apply leads_open_bind; [done|]. intros [n|e]; [|done]. destruct (0 <? n); [apply note_proves|apply Hset].
Qed.

Lemma sweepForward_proves : leads (phase (cState c)) (sweepForward s c) (fun _ _ => True).
Proof.
  unfold sweepForward. destruct (cState c) eqn:Hst; try apply note_proves; try done.
  - rewrite Hid. apply proves_bind with (Q := fun _ => phase CEnumerating); [apply enumerate_proves|]. intros [n|e]; [|done].
    apply leads_open_bind; [done|]. intros [_|e]; [|done]. apply setState_proves. by left.
  - by apply pass_proves.
  - by apply pass_proves.
  - apply abortCleanupBatch_proves.
Qed.

Lemma sweepSwapped_proves : leads (phase (cState c)) (sweepSwapped s c) (fun _ _ => True).
Proof.
  unfold sweepSwapped. destruct (cState c) eqn:Hst; try apply note_proves; try done.
  - apply leads_drop, leader_ops. unfold db. walk_ops; done.
  - apply leads_drop, leader_ops. unfold db. walk_ops; done.
  - by apply pass_proves.
  - apply deleteSourceBatch_proves.
Qed.
End Pass.

Lemma SweepOnce_proves s : leads (fun _ => True) (SweepOnce s) (fun _ _ => True).
Proof.
  unfold SweepOnce. destruct (zs_target s) as [t|]; [|done].
  apply proves_bind with (Q := fun a st => forall c, a = Ok c -> (cID c = id /\ cSource c = A /\ cTarget c = T) /\ phase (cState c) st).
  { apply proves_call.
    - intros a st st' Hi Hi' Ho Hk c Hc. destruct (Hk c Hc) as [K1 K2]. split; [done|]. by apply (phase_stable (cState c) st).
    - intros st Hi _. destruct (open_step _ GetActiveStorageMigration st I Hi) as [I1 I2]. split_and!; [done|by apply others_leader|].
      intros c Hc. pose proof (active_read st c Hi Hc) as Hact. split; [by destruct Hact as (? & ? & ? & _)|].
      apply (phase_stable (cState c) st); [done..|]. by apply active_phase. }
  intros [c|e]; [|by destruct e].
  apply proves_pure with (P := cID c = id /\ cSource c = A /\ cTarget c = T); [intros st _ Hk; by destruct (Hk c eq_refl)|].
  intros (Hid & HA & HT).
  apply proves_bind with (Q := fun _ => phase (cState c)).
  { eapply proves_pre; [|apply leader_ops; unfold stampWorker; walk_ops; done]. intros st _ Hk. by destruct (Hk c eq_refl). }
  intros _. destruct (topologyFor s c); [apply note_proves| |by apply sweepSwapped_proves].
  apply proves_bind with (Q := fun _ => phase (cState c)); [apply leader_ops; unfold reconcileTargetWritability, targetWritable; walk_ops; done|].
  intros []; [done|]. by apply sweepForward_proves.
Qed.

Lemma sweeps_proves l : leads (fun _ => True) (sweeps l) (fun _ _ => True).
Proof.
  induction l as [|s l IH]; [done|]. cbn [sweeps]. apply proves_bind with (Q := fun _ _ => True); [apply SweepOnce_proves|by intros _].
Qed.

(** ** The theorem *)

(** A campaign from [A] to [T] that has verified nothing yet; what the stores
    hold is part of the library. *)
Record campaign_open w : Prop := {
  open_camp : exists c, camps (store (zdb w)) !! id = Some c /\ cSource c = A /\ cTarget c = T;
  open_keyed : forall i c, camps (store (zdb w)) !! i = Some c -> cID c = i;
  open_alone : forall i c, camps (store (zdb w)) !! i = Some c -> i <> id -> live_state (cState c) = false;
  open_ledger : forall k o, objects (store (zdb w)) !! k = Some o ->
    oKey o = k /\ canonical k = true /\ (oCampaign o = id -> oState o <> OVerified);
  open_library : forall h k x, h = A \/ h = T -> media_key k -> at_store w h k = Some x -> L k = Some x;
}.

(** What a viewer is served: the object read through the pair of stores. *)
Definition dual_read w (p q : string) k : result ioerr reader :=
  match zstores w !! p, zstores w !! q with Some b, sec => Fallback_Open k (b, sec) | None, _ => Err ErrIO end.

Lemma open_inv w : campaign_open w -> mig_inv (w, NoneYet).
Proof.
  intros [(c & H1 & H2 & H3) O2 O3 O4 O5]. split; [|exact O5]. split; [|exact O2|exact O3|].
  - exists c. by split_and!.
  - intros k o Ho. destruct (O4 k o Ho) as (? & ? & Hn). split_and!; [done..|]. intros Hv Hc. by destruct (Hn Hc).
Qed.

Lemma reads_through w g p q k x b b' :
  mig_inv (w, g) -> (p = A /\ q = T) \/ (p = T /\ q = A) -> zstores w !! p = Some b -> zstores w !! q = Some b' ->
  media_key k -> L k = Some x -> held w k x -> exists r, dual_read w p q k = Ok r /\ data r = x /\ rend r = None.
Proof.
  intros [_ Hl] Hpq Hb Hb' Hm HL Hheld. unfold dual_read, Fallback_Open. rewrite Hb, Hb'. cbn [fst snd].
  destruct (contents b k) as [y|] eqn:Hy.
  - assert (y = x) as ->.
    { assert (Hs : at_store w p k = Some y) by (unfold at_store; by rewrite Hb). apply (Hl p) in Hs; [|naive_solver|done]. congruence. }
    destruct (open_stored k b x (proj1 Hm) Hy) as (r & -> & Hd & Hr). by exists r.
  - rewrite (open_absent k b (proj1 Hm) Hy). assert (Hq : contents b' k = Some x).
    { unfold held, at_store in Hheld. destruct Hpq as [[-> ->]|[-> ->]]; rewrite Hb, Hb', Hy in Hheld; by destruct Hheld. }
    destruct (open_stored k b' x (proj1 Hm) Hq) as (r & Hr & Hd & He). by exists r.
Qed.

End Safety.

(** One object moves from one bucket to another: enumeration, a copy, the
    delta pass, then from a process configured the other way round the cutover,
    the end of a grace period of zero and the deletion. *)
Module Move.
Definition key : string := "web-videos/a".
Definition body : bytes := [Byte.x01; Byte.x02].
Definition lib (k : string) : option bytes := if bool_decide (k = key) then Some body else None.
Definition sum (b : bytes) : string := String.string_of_list_byte b.
Definition forward : MigService := mkMigService "s3://a" (Some "s3://b"%string) 0 EmptyString true true.
Definition swapped : MigService := mkMigService "s3://b" (Some "s3://a"%string) 0 EmptyString true true.
Definition camp : Campaign := mkCampaign "m" "s3://a" "s3://b" CEnumerating None EmptyString 0 0 0 EmptyString None EmptyString 0.
Definition start : zworld Bucket :=
  mkZWorld (Faulty (mkMigDB {["m"%string := camp]} ∅ ∅ (Some "me"%string) 0 (fun _ => EmptyString) 0) [])
    (list_to_map [("s3://a"%string, mkBucket {[key := body]}); ("s3://b"%string, mkBucket ∅)]) [] true.
Definition leader : prog migE unit := sweeps [forward; forward; swapped; swapped; swapped].
Definition worker : prog migE unit := _ ← CopyOnce sum forward 4; mret tt.
Definition run_ : list (prog migE unit) * zworld Bucket :=
  schedule mig_handler (repeat 0%nat 7 ++ repeat 1%nat 20 ++ repeat 0%nat 60) [leader; worker] start.
End Move.

