(* ===== verification/MigrationFlow.v ===== *)
(** * A storage migration completes

    A campaign nobody disturbs, between stores that answer: enumeration, copy
    workers until nothing is pending, the delta pass, the cutover seen from the
    swapped configuration, the grace period and the deletion of the source end
    with every object of the source in the destination under its key. Then the
    executions in which the service does less than its documentation says. *)
From S2P Require Import Prelude Interleave GoStrings Queue Storage Retry MediaGC MigrationStore Migration MigrationSafety.
Local Open Scope Z_scope.

(** Stores whose operations succeed. *)
Class ReliableStore (B : Type) `{Backend B, RootLister B} := {
  put_answers k r (b : B) : canonical k = true -> rend r = None -> exists n, (be_put k r b).1 = Ok n;
  delete_answers k (b : B) : canonical k = true -> (be_delete k b).1 = Ok tt;
  list_answers (b : B) : exists ks, be_listAll b = Ok ks;
}.

#[global] Instance bucket_reliable : ReliableStore Bucket.
Proof.
  split; cbn.
  - intros k r b -> ->. cbn. eauto.
  - by intros k b ->.
  - intros b. eauto.
Qed.

(** The copy worker's and the leader's passes, repeated. *)
Fixpoint copies (sha256 : bytes -> string) (s : MigService) (batch : Z) (n : nat) : prog migE unit :=
  match n with O => mret tt | S n' => _ ← CopyOnce sha256 s batch; copies sha256 s batch n' end.

Definition passes (s : MigService) (n : nat) : prog migE unit := sweeps (repeat s n).

Section Flow.
Context {B : Type} `{Backend B, !BackendLaws B, !RootLister B, !RootListerLaws B, !ObjectStoreLaws B, !ReliableStore B}.
Context (sha256 : bytes -> string) (id : uuid) (A T : string) (HAT : A <> T) (HA0 : A <> EmptyString) (HT0 : T <> EmptyString).
Implicit Types (w : zworld B) (d : MigDB) (c : Campaign) (k : string) (a t : B).

(** ** Worlds in which everything answers *)

Definition undisturbed w : Prop := faults (zdb w) = [] /\ ziofaults w = [].
Definition set_db d w : zworld B := mkZWorld (Faulty d []) (zstores w) [] (zwritable w).
Definition set_store (h : string) (b : B) w : zworld B := mkZWorld (zdb w) (<[h := b]> (zstores w)) [] (zwritable w).

Lemma on_mig_answers {Y} (q : MigDB -> result dberr Y * MigDB) w :
  undisturbed w -> on_mig q w = ((q (store (zdb w))).1, set_db (q (store (zdb w))).2 w).
Proof. intros [Hf Hi]. unfold on_mig, set_db, exec. by rewrite Hf, Hi. Qed.

Lemma on_store_answers {Y} h b (op : B -> result ioerr Y * B) w :
  undisturbed w -> zstores w !! h = Some b -> on_store h op w = ((op b).1, set_store h (op b).2 w).
Proof. intros [Hf Hi] Hb. unfold on_store, set_store. by rewrite Hb, Hi. Qed.

Lemma undisturbed_db d w : undisturbed w -> undisturbed (set_db d w).
Proof. intros [Hf Hi]. by split. Qed.

Lemma undisturbed_store h b w : undisturbed w -> undisturbed (set_store h b w).
Proof. intros [Hf Hi]. by split. Qed.

Lemma opened_answers h k b w : undisturbed w -> zstores w !! h = Some b -> opened h k w = be_open k b.
Proof. intros [_ Hi] Hb. unfold opened. by rewrite Hb, Hi. Qed.

(** The one live campaign is the active one. *)
Definition alone d : Prop :=
  (forall i c, camps d !! i = Some c -> cID c = i) /\ forall i c, camps d !! i = Some c -> i <> id -> live_state (cState c) = false.

Lemma get_active d c :
  camps d !! id = Some c -> live_state (cState c) = true -> alone d -> q_GetActiveStorageMigration d = (Ok c, d).
Proof.
  intros Hc Hl [_ Ha]. unfold q_GetActiveStorageMigration.
  destruct (filter _ _) as [|c' rest] eqn:Hf.
  - assert (Hin : c ∈ filter (fun c => live_state (cState c) = true) (campaigns_by_age d)).
    { apply list_elem_of_filter. split; [done|]. unfold campaigns_by_age. rewrite merge_sort_Permutation. apply list_elem_of_fmap. exists (id, c). by rewrite elem_of_map_to_list. }
    rewrite Hf in Hin. by apply not_elem_of_nil in Hin.
  - assert (Hin : c' ∈ filter (fun c => live_state (cState c) = true) (campaigns_by_age d)) by (rewrite Hf; by left).
    apply list_elem_of_filter in Hin as [Hl' Hin]. unfold campaigns_by_age in Hin. rewrite merge_sort_Permutation in Hin.
    apply list_elem_of_fmap in Hin as ([i c0] & -> & Hin). apply elem_of_map_to_list in Hin. cbn in *.
    destruct (decide (i = id)) as [->|Hne]; [by rewrite Hc in Hin; injection Hin as <-|]. by rewrite (Ha _ _ Hin Hne) in Hl'.
Qed.

(** ** The copying phase *)

(** The campaign in state [st] between the stores [a] and [t], undisturbed. *)
Record base (st : cstate) a t w : Prop := {
  base_calm : undisturbed w;
  base_writable : zwritable w = true;
  base_camp : exists c, camps (store (zdb w)) !! id = Some c /\ cSource c = A /\ cTarget c = T /\ cState c = st;
  base_alone : alone (store (zdb w));
  base_source : zstores w !! A = Some a;
  base_target : zstores w !! T = Some t;
}.

(** The ledger exactly the keys of the source; the rows in [cl] are being
    copied, every other one is due or verified. *)
Record mid (st : cstate) (cl : list string) a t w : Prop := {
  mid_base : base st a t w;
  mid_keys : forall k, is_Some (objects (store (zdb w)) !! k) <-> canonical k = true /\ is_Some (contents a k);
  mid_rows : forall k o, objects (store (zdb w)) !! k = Some o ->
    oKey o = k /\ oCampaign o = id /\
    (k ∈ cl -> oState o = OCopying) /\
    (k ∉ cl -> (oState o = OPending /\ oNext o <= znow (store (zdb w))) \/ (oState o = OVerified /\ contents t k = contents a k));
  mid_files : forall k sum x, zfiles (store (zdb w)) !! k = Some sum -> contents a k = Some x ->
    sum = EmptyString \/ sum = SentinelMissing \/ sum = sha256 x;
}.

(** The keys that wait. *)
Definition waiting d : gset string := dom (filter (fun kv : string * MObject => oState kv.2 = OPending) (objects d)).

(** Statements on the campaign alone leave the phase as it is. *)
Lemma base_update_camp st st' a t w (ok : Campaign -> bool) (f : Campaign -> Campaign) c :
  base st a t w -> camps (store (zdb w)) !! id = Some c ->
  (cSource c = A -> cTarget c = T -> cState c = st ->
   let c' := if ok c then f c else c in cID c' = cID c /\ cSource c' = A /\ cTarget c' = T /\ cState c' = st') ->
  base st' a t (set_db (update_camp id ok f (store (zdb w))).2 w).
Proof.
  intros [M1 M1' (c0 & C1 & C2 & C3 & C4) [A1 A2] M4 M5] Hc Hf. assert (c0 = c) as -> by congruence. specialize (Hf C2 C3 C4). cbn in Hf.
  destruct Hf as (F0 & F1 & F2 & F3). unfold update_camp. rewrite Hc. destruct (ok c) eqn:Hok.
  - split; try done; cbn.
    + exists (f c). rewrite lookup_insert_eq. auto.
    + split; cbn.
      * intros i c'. rewrite lookup_insert_Some. intros [[<- <-]|[_ Hi]]; [rewrite F0|]; by apply A1.
      * intros i c' Hi Hne. rewrite lookup_insert_ne in Hi by done. by apply (A2 i).
  - split; try done; cbn. exists c. auto.
Qed.

(** What such a statement leaves alone. *)
Lemma update_camp_rest i ok f d : objects (update_camp i ok f d).2 = objects d /\ zfiles (update_camp i ok f d).2 = zfiles d /\ znow (update_camp i ok f d).2 = znow d /\ zidentity (update_camp i ok f d).2 = zidentity d.
Proof. unfold update_camp. destruct (camps d !! i) as [c|]; [destruct (ok c)|]; done. Qed.

Lemma mid_same_rows st st' cl a t w d :
  mid st cl a t w -> base st' a t (set_db d w) ->
  objects d = objects (store (zdb w)) -> zfiles d = zfiles (store (zdb w)) -> znow d = znow (store (zdb w)) -> mid st' cl a t (set_db d w).
Proof. intros [M0 M6 M7 M8] Hb Ho Hf Hn. split; [done|..]; cbn [set_db zdb store]; rewrite ?Ho, ?Hf, ?Hn; done. Qed.

Lemma mid_update_camp st st' cl a t w (ok : Campaign -> bool) (f : Campaign -> Campaign) c :
  mid st cl a t w -> camps (store (zdb w)) !! id = Some c ->
  (cSource c = A -> cTarget c = T -> cState c = st ->
   let c' := if ok c then f c else c in cID c' = cID c /\ cSource c' = A /\ cTarget c' = T /\ cState c' = st') ->
  mid st' cl a t (set_db (update_camp id ok f (store (zdb w))).2 w).
Proof.
  intros M Hc Hf. destruct (update_camp_rest id ok f (store (zdb w))) as (R1 & R2 & R3 & _).
  apply (mid_same_rows st); [done| |done..]. eapply base_update_camp; [apply M|exact Hc|done].
Qed.

Lemma mid_refresh st cl a t w : mid st cl a t w ->
  (q_RefreshStorageMigrationCounters id (store (zdb w))).1 = Ok tt /\
  mid st cl a t (set_db (q_RefreshStorageMigrationCounters id (store (zdb w))).2 w) /\
  objects (q_RefreshStorageMigrationCounters id (store (zdb w))).2 = objects (store (zdb w)).
Proof.
  intros M. destruct (base_camp _ _ _ _ (mid_base _ _ _ _ _ M)) as (c & Hc & _). unfold q_RefreshStorageMigrationCounters, quiet. split_and!.
  - unfold update_camp. rewrite Hc. by destruct (negb _).
  - eapply mid_update_camp; [exact M|exact Hc|]. intros H1 H2 H3. by destruct (negb _).
  - unfold update_camp. rewrite Hc. by destruct (negb _).
Qed.

(** ** Running the operations *)

Lemma open_answers h k b w : undisturbed w -> zstores w !! h = Some b -> mig_handler _ (ZOpen h k) w = (be_open k b, w).
Proof.
  intros Hu Hb. cbn [mig_handler]. rewrite (opened_answers h k b) by done. destruct Hu as [_ Hi], w as [db ss io wr]. cbn in *. by subst io.
Qed.

Lemma read_answers {Y} (q : MigDB -> result dberr Y * MigDB) w :
  undisturbed w -> (q (store (zdb w))).2 = store (zdb w) -> on_mig q w = ((q (store (zdb w))).1, w).
Proof.
  intros Hu Hq. rewrite on_mig_answers, Hq by done. f_equal. unfold set_db. destruct Hu as [Hf Hi], w as [[d fs] ss io wr]. cbn in *. by subst.
Qed.

Definition recorded_fits d k (x : bytes) : Prop :=
  forall sum, zfiles d !! k = Some sum -> sum = EmptyString \/ sum = SentinelMissing \/ sum = sha256 x.

Section Worker.
Context (s : MigService) (Hp : zs_primary s = A) (Ht : describe_target s = T).

Lemma copyAndVerify_run a t w k x :
  undisturbed w -> zstores w !! A = Some a -> zstores w !! T = Some t -> canonical k = true -> contents a k = Some x ->
  recorded_fits (store (zdb w)) k x ->
  exists t' n, run mig_handler (copyAndVerify sha256 s k) w = (Ok (sha256 x, n), set_store T t' w) /\
    contents t' k = Some x /\ forall k', canonical k' = true -> k <> k' -> contents t' k' = contents t k'.
Proof.
  intros Hu HA HT Hk Hx Hrec. unfold copyAndVerify.
  destruct (open_stored k a x Hk Hx) as (r & Ho & Hd & Hr). rewrite run_mbind, run_call, Hp, (open_answers A k a) by done. cbn [fst snd]. rewrite Ho.
  destruct (put_answers k r t Hk Hr) as [n Hn]. destruct (put_ok k r t n Hk Hn) as (_ & _ & Hc).
  unfold PutSizedHashed. rewrite !run_mbind, run_call. cbn [mig_handler]. rewrite Ht, (on_store_answers T t) by done. cbn [fst snd].
  set (t' := (be_put k r t).2) in *. rewrite Hn. rewrite run_mret. cbn [fst snd].
  assert (Hu' : undisturbed (set_store T t' w)) by (by apply undisturbed_store).
  assert (HT' : zstores (set_store T t' w) !! T = Some t') by (cbn; apply lookup_insert_eq).
  destruct (open_stored k t' (data r) Hk Hc) as (r2 & Ho2 & Hd2 & Hr2).
  unfold hashTarget. rewrite !run_mbind, run_call, (open_answers T k t') by done. cbn [fst snd]. rewrite Ho2, run_mret, io_Copy_all, Hr2, Hd2. cbn [fst snd].
  rewrite bool_decide_eq_true_2 by done. cbn [negb]. unfold recordedHash. rewrite !run_mbind, run_call. cbn [mig_handler].
  rewrite read_answers by done. cbn [fst snd q_GetVideoFileSHA256ByStorageKey]. rewrite !run_mret. cbn [fst snd].
  exists t', n. split; [|split; [by rewrite Hc, Hd|]].
  - rewrite Hd. f_equal. change (store (zdb (set_store T t' w))) with (store (zdb w)). destruct (zfiles (store (zdb w)) !! k) as [sum|] eqn:Hz; [|done].
    destruct (bool_decide (sum = EmptyString) || bool_decide (sum = SentinelMissing)) eqn:Hs; [done|]. bools.
    destruct (Hrec sum Hz) as [?|[?| ->]]; [done..|]. by rewrite bool_decide_eq_true_2.
  - intros k' Hk' Hne. by apply put_frame.
Qed.

Lemma copyOne_run st cl a t w k i n :
  mid st (k :: cl) a t w -> k ∉ cl -> is_Some (objects (store (zdb w)) !! k) ->
  exists t', mid st cl a t' (run mig_handler (copyOne sha256 s (k, i, n)) w).2 /\
    waiting (store (zdb (run mig_handler (copyOne sha256 s (k, i, n)) w).2)) = waiting (store (zdb w)) /\
    dom (objects (store (zdb (run mig_handler (copyOne sha256 s (k, i, n)) w).2))) = dom (objects (store (zdb w))).
Proof.
  intros [[M1 M1' M2 M3 M4 M5] M6 M7 M8] Hn Ho. apply M6 in Ho as Hk. destruct Hk as [Hk [x Hx]]. destruct Ho as [o Ho].
  destruct (copyAndVerify_run a t w k x M1 M4 M5 Hk Hx) as (t' & m & Hrun & Hc & Hframe); [intros sum Hs; by eapply M8|].
  unfold copyOne. cbn [fst snd]. rewrite run_mbind, Hrun. cbn [fst snd]. rewrite run_mbind, run_call. cbn [mig_handler].
  rewrite on_mig_answers by (by apply undisturbed_store). cbn [fst snd]. rewrite run_mret. cbn [fst snd].
  destruct (M7 k o Ho) as (O1 & O2 & O3 & _). specialize (O3 ltac:(by left)).
  set (o' := mkMObject (oKey o) (oCampaign o) OVerified (sha256 x) m (oAttempts o) (oNext o) EmptyString).
  set (d := store (zdb w)) in *.
  assert (Hd : (q_MarkStorageMigrationObjectVerified k (sha256 x) m d).2 = set_objects (fun m0 => <[k := o']> m0) d).
  { unfold q_MarkStorageMigrationObjectVerified, update_obj. cbn [snd]. unfold set_objects. f_equal. apply map_eq. intros j.
    destruct (decide (k = j)) as [<-|Hne]; [|by rewrite lookup_alter_ne, lookup_insert_ne]. rewrite lookup_alter_eq, lookup_insert_eq, Ho. cbn.
    by rewrite bool_decide_eq_true_2. }
  change (store (zdb (set_store T t' w))) with d. rewrite Hd. exists t'. split_and!.
  - split; [split; try done; cbn; [by rewrite lookup_insert_ne|by rewrite lookup_insert_eq]|..]; try done; cbn.
    + intros j. rewrite <- M6. destruct (decide (k = j)) as [<-|Hne]; [rewrite lookup_insert_eq; fold d; rewrite Ho; by split; eauto|by rewrite lookup_insert_ne].
    + intros j oj. rewrite lookup_insert_Some. intros [[<- <-]|[Hne Hj]].
      * split_and!; [done..| |]; [by intros|]. intros _. right. split; [done|]. by rewrite Hc, Hx.
      * destruct (M7 j oj Hj) as (J1 & J2 & J3 & J4). split_and!; [done..| |].
        -- intros Hin. apply J3. by right.
        -- intros Hin. destruct J4 as [?|[? He]]; [intros [?|?]%elem_of_cons; congruence|by left|]. right. split; [done|].
           rewrite Hframe; [done| |congruence]. apply M6. by exists oj.
  - unfold waiting. cbn. apply set_eq. intros j. rewrite !elem_of_dom. split; intros [oj Hj]; apply map_lookup_filter_Some in Hj as [Hj Hp'].
    + apply lookup_insert_Some in Hj as [[<- <-]|[_ Hj]]; [done|]. exists oj. by apply map_lookup_filter_Some_2.
    + exists oj. apply map_lookup_filter_Some_2; [|done]. rewrite lookup_insert_ne; [done|]. intros <-. fold d in Hj. cbn in Hp'. congruence.
  - cbn. rewrite dom_insert_L. assert (k ∈ dom (objects d)) by (apply elem_of_dom; by eexists). set_solver.
Qed.

Lemma copy_each_run st a rows t w :
  mid st (map (fun r : string * uuid * Z => r.1.1) rows) a t w -> NoDup (map (fun r : string * uuid * Z => r.1.1) rows) ->
  Forall (fun r : string * uuid * Z => r.1.1 ∈ dom (objects (store (zdb w)))) rows ->
  exists t', mid st [] a t' (run mig_handler (copy_each sha256 s rows) w).2 /\
    waiting (store (zdb (run mig_handler (copy_each sha256 s rows) w).2)) = waiting (store (zdb w)).
Proof.
  revert t w. induction rows as [|[[k i] n] rows IH]; intros t w M Hnd Hin; [by exists t|].
  cbn [map fst] in *. apply NoDup_cons in Hnd as [Hn Hnd]. inversion Hin as [|? ? Hk Hin']; subst. cbn in Hk. apply elem_of_dom in Hk.
  destruct (copyOne_run st _ a t w k i n M Hn Hk) as (t1 & M1 & W1 & D1).
  cbn [copy_each]. rewrite run_mbind. destruct (IH t1 _ M1 Hnd) as (t2 & M2 & W2); [by rewrite D1|].
  exists t2. split; [done|]. congruence.
Qed.

(** *** Claims *)

Lemma update_objects_nodup f os m j :
  NoDup (map oKey os) ->
  update_objects f os m !! j = if bool_decide (j ∈ map oKey os) then f <$> m !! j else m !! j.
Proof.
  induction os as [|o os IH]; intros Hnd; [by rewrite bool_decide_eq_false_2 by apply not_elem_of_nil|].
  cbn [map update_objects foldr] in *. fold (update_objects f os m). apply NoDup_cons in Hnd as [Hn Hnd]. specialize (IH Hnd).
  destruct (decide (oKey o = j)) as [<-|Hne].
  - rewrite lookup_alter_eq, IH, bool_decide_eq_false_2 by done. by rewrite bool_decide_eq_true_2 by left.
  - rewrite lookup_alter_ne, IH by done. repeat case_bool_decide; set_solver.
Qed.

(** The rows a claim takes. *)
Definition claimed_rows (limit : Z) d : list MObject :=
  take (Z.to_nat limit) (merge_sort due_order (filter (claimable d) (map_to_list (objects d)).*2)).

Lemma claimed_elem limit d o : o ∈ claimed_rows limit d -> (exists k, objects d !! k = Some o) /\ claimable d o.
Proof.
  intros Ho. apply elem_of_take in Ho as (i & Ho & _). apply list_elem_of_lookup_2 in Ho. rewrite merge_sort_Permutation in Ho.
  apply list_elem_of_filter in Ho as [Hc Ho]. apply list_elem_of_fmap in Ho as ([k o'] & -> & Ho). apply elem_of_map_to_list in Ho. eauto.
Qed.

Lemma claimed_nodup limit d : (forall k o, objects d !! k = Some o -> oKey o = k) -> NoDup (map oKey (claimed_rows limit d)).
Proof.
  intros Hk.
  assert (Hall : forall l : list (string * MObject), NoDup l.*1 -> (forall kv, kv ∈ l -> oKey kv.2 = kv.1) -> NoDup (map oKey (filter (claimable d) l.*2))).
  { induction l as [|[k o] l IH]; intros Hnd Hkv; [constructor|].
    change (((k, o) :: l).*1) with (k :: l.*1) in Hnd. change (((k, o) :: l).*2) with (o :: l.*2). apply NoDup_cons in Hnd as [Hn Hnd].
    assert (IHl : NoDup (map oKey (filter (claimable d) l.*2))) by (apply IH; [done|intros; apply Hkv; by right]).
    rewrite filter_cons. case_decide; [|done]. cbn. apply NoDup_cons. split; [|done]. intros Hin. apply Hn.
    apply list_elem_of_fmap in Hin as (o' & He & Ho'). apply list_elem_of_filter in Ho' as [_ Ho']. apply list_elem_of_fmap in Ho' as ([k2 o2] & -> & H2).
    pose proof (Hkv _ ltac:(by left)) as E1. pose proof (Hkv _ ltac:(right; exact H2)) as E2. cbn in *. apply list_elem_of_fmap. exists (k2, o2). split; [cbn; congruence|done]. }
  eapply sublist_NoDup; [|apply fmap_sublist, sublist_take]. rewrite merge_sort_Permutation. apply Hall; [apply NoDup_fst_map_to_list|].
  intros [k o] Hin. apply elem_of_map_to_list in Hin. cbn. by apply Hk.
Qed.

Lemma claimed_some limit d k :
  1 <= limit -> k ∈ waiting d -> (forall o, objects d !! k = Some o -> oState o = OPending -> claimable d o) -> claimed_rows limit d <> [].
Proof.
  intros Hl Hk Hc. unfold waiting in Hk. apply elem_of_dom in Hk as [o Ho]. apply map_lookup_filter_Some in Ho as [Ho Hpend]. unfold claimed_rows.
  assert (Hin : o ∈ merge_sort due_order (filter (claimable d) (map_to_list (objects d)).*2)).
  { rewrite merge_sort_Permutation. apply list_elem_of_filter. split; [by apply Hc|]. apply list_elem_of_fmap. exists (k, o). by rewrite elem_of_map_to_list. }
  destruct (merge_sort _ _) as [|o1 l]; [by apply not_elem_of_nil in Hin|]. replace (Z.to_nat limit) with (S (Z.to_nat (limit - 1))) by lia. done.
Qed.

Lemma mid_claim a t w limit :
  mid CCopying [] a t w ->
  let d := store (zdb w) in
  let os := claimed_rows limit d in
  mid CCopying (map oKey os) a t (set_db (q_ClaimDueStorageMigrationObjects limit d).2 w) /\
  dom (objects (q_ClaimDueStorageMigrationObjects limit d).2) = dom (objects d) /\
  waiting (q_ClaimDueStorageMigrationObjects limit d).2 = waiting d ∖ list_to_set (map oKey os) /\
  Forall (fun k => k ∈ waiting d) (map oKey os) /\ NoDup (map oKey os).
Proof.
  intros M d os. pose proof M as [[M1 M1' M2 M3 M4 M5] M6 M7 M8]. fold d in M2, M3, M6, M7, M8.
  assert (Hnd : NoDup (map oKey os)) by (apply claimed_nodup; intros k o Ho; by apply M7).
  assert (Hwait : forall k, k ∈ map oKey os -> exists o, objects d !! k = Some o /\ oState o = OPending /\ k ∈ waiting d).
  { intros k Hk. apply list_elem_of_fmap in Hk as (o & -> & Ho). apply claimed_elem in Ho as ((k & Hk) & Hc & _).
    destruct (M7 k o Hk) as (-> & _). exists o. split_and!; [done..|]. unfold waiting. apply elem_of_dom. exists o. by apply map_lookup_filter_Some_2. }
  set (f := fun o => set_ostate OCopying (oAttempts o) (znow d + mlease) (oError o) o).
  assert (Hd : (q_ClaimDueStorageMigrationObjects limit d).2 = set_objects (update_objects f os) d) by done. rewrite Hd.
  assert (Hlook : forall j, objects (set_objects (update_objects f os) d) !! j = if bool_decide (j ∈ map oKey os) then f <$> objects d !! j else objects d !! j).
  { intros j. cbn. by apply update_objects_nodup. }
  split_and!; [| | |apply Forall_forall; intros k Hk; by destruct (Hwait k Hk) as (? & ? & ? & ?)|done].
  - split; try done; cbn [set_db zdb store].
    + intros j. rewrite <- M6, Hlook. case_bool_decide; [|done]. destruct (objects d !! j); cbn; split; intros [? ?]; eauto; done.
    + intros j o Ho. rewrite Hlook in Ho. case_bool_decide as Hj.
      * destruct (Hwait j Hj) as (o0 & H0 & _). rewrite H0 in Ho. injection Ho as <-. destruct (M7 j o0 H0) as (J1 & J2 & _). by split_and!.
      * destruct (M7 j o Ho) as (J1 & J2 & _ & J4). split_and!; [done..|]. intros _. apply J4. apply not_elem_of_nil.
  - apply set_eq. intros j. rewrite !elem_of_dom, Hlook. case_bool_decide; [|done]. destruct (objects d !! j); cbn; split; intros [? ?]; eauto; done.
  - apply set_eq. intros j. rewrite elem_of_difference, elem_of_list_to_set. unfold waiting. rewrite !elem_of_dom. split.
    + intros [o Ho]. apply map_lookup_filter_Some in Ho as [Ho Hp']. rewrite Hlook in Ho. case_bool_decide as Hj.
      * destruct (objects d !! j); [|done]. by injection Ho as <-.
      * split; [exists o; by apply map_lookup_filter_Some_2|done].
    + intros [[o Ho] Hj]. exists o. apply map_lookup_filter_Some in Ho as [Ho Hp']. apply map_lookup_filter_Some_2; [|done].
      by rewrite Hlook, bool_decide_eq_false_2.
Qed.

Lemma topology_is_forward c : cSource c = A -> cTarget c = T -> topologyFor s c = topologyForward.
Proof.
  intros H1 H2. unfold topologyFor. rewrite Hp, Ht, H1, H2. rewrite (bool_decide_eq_false_2 (A = EmptyString)), (bool_decide_eq_false_2 (T = EmptyString)) by done. cbn [orb].
  by rewrite (bool_decide_eq_true_2 (A = A)), (bool_decide_eq_true_2 (T = T)) by done.
Qed.

Lemma mid_active st cl a t w :
  mid st cl a t w -> live_state st = true ->
  exists c, camps (store (zdb w)) !! id = Some c /\ cID c = id /\ cSource c = A /\ cTarget c = T /\ cState c = st /\
    mig_handler _ GetActiveStorageMigration w = (Ok c, w).
Proof.
  intros M Hl. destruct (base_camp _ _ _ _ (mid_base _ _ _ _ _ M)) as (c & Hc & H1 & H2 & H3). exists c. split_and!; try done.
  - by apply (base_alone _ _ _ _ (mid_base _ _ _ _ _ M)).
  - pose proof (get_active (store (zdb w)) c Hc ltac:(by rewrite H3) (base_alone _ _ _ _ (mid_base _ _ _ _ _ M))) as Hg. cbn [mig_handler].
    rewrite read_answers; [by rewrite Hg|apply M|by rewrite Hg].
Qed.

Lemma CopyOnce_run a t w batch :
  mid CCopying [] a t w -> 1 <= batch ->
  exists t', mid CCopying [] a t' (run mig_handler (CopyOnce sha256 s batch) w).2 /\
    waiting (store (zdb (run mig_handler (CopyOnce sha256 s batch) w).2)) ⊆ waiting (store (zdb w)) /\
    (waiting (store (zdb w)) <> ∅ ->
     waiting (store (zdb (run mig_handler (CopyOnce sha256 s batch) w).2)) <> waiting (store (zdb w))).
Proof.
  intros M Hb. destruct (mid_active _ _ _ _ _ M eq_refl) as (c & Hc & Hid & H1 & H2 & H3 & Hget).
  unfold CopyOnce. assert (Hts : exists h, zs_target s = Some h).
  { unfold describe_target in Ht. destruct (zs_target s); [by eexists|congruence]. }
  destruct Hts as [h ->]. rewrite run_mbind, run_call, Hget. cbn [fst snd]. rewrite H3.
  rewrite (bool_decide_eq_true_2 (CCopying = CCopying)) by done. cbn [negb andb]. rewrite (topology_is_forward c H1 H2), bool_decide_eq_true_2 by done. cbn [negb].
  rewrite (proj2 (Z.leb_gt batch 0)) by lia. rewrite run_mbind, run_call. cbn [mig_handler]. rewrite on_mig_answers by apply M. cbn [fst snd].
  set (d := store (zdb w)). destruct (mid_claim a t w batch M) as (M1 & D1 & W1 & F1 & N1). fold d in M1, D1, W1, F1, N1.
  set (os := claimed_rows batch d) in *. set (w1 := set_db _ w) in *.
  change (q_ClaimDueStorageMigrationObjects batch d).1 with (Ok (E := dberr) (map (fun o => (oKey o, oCampaign o, oAttempts o)) os)).
  set (rows := map (fun o => (oKey o, oCampaign o, oAttempts o)) os) in *. cbv iota beta.
  assert (Hkeys : map (fun r : string * uuid * Z => r.1.1) rows = map oKey os) by (unfold rows; by rewrite map_map).
  destruct (copy_each_run CCopying a rows t w1) as (t2 & M2 & W2).
  { by rewrite Hkeys. }
  { by rewrite Hkeys. }
  { apply Forall_forall. intros r Hr. change (store (zdb w1)) with (q_ClaimDueStorageMigrationObjects batch d).2. rewrite D1.
    rewrite Forall_forall in F1. assert (Hr' : r.1.1 ∈ map oKey os) by (rewrite <- Hkeys; by apply (list_elem_of_fmap_2 (fun r : string * uuid * Z => r.1.1))).
    apply F1 in Hr'. unfold waiting in Hr'. apply elem_of_dom in Hr' as [o Ho]. apply map_lookup_filter_Some in Ho as [Ho _]. apply elem_of_dom. by eexists. }
  rewrite run_mbind. set (w2 := (run mig_handler (copy_each sha256 s rows) w1).2) in *.
  assert (Hend : exists w3, (run mig_handler (if 0 <? Z.of_nat (length rows) then
      c0 ← call (RefreshStorageMigrationCounters (cID c)); mret (Z.of_nat (length rows), match c0 with Ok _ => None | Err e => Some (ZErrDB e) end)
      else mret (Z.of_nat (length rows), None : option zerr)) w2).2 = w3 /\ mid CCopying [] a t2 w3 /\ waiting (store (zdb w3)) = waiting (store (zdb w2))).
  { destruct (0 <? Z.of_nat (length rows)); [|by exists w2]. rewrite run_mbind, run_call, Hid. cbn [mig_handler]. rewrite on_mig_answers by apply M2.
    rewrite run_mret. cbn [fst snd]. destruct (mid_refresh _ _ _ _ _ M2) as (R1 & R2 & R3). eexists. split; [done|]. split; [done|].
    unfold waiting. cbn [set_db zdb store]. by rewrite R3. }
  destruct Hend as (w3 & E3 & M3 & W3). rewrite E3. exists t2. split; [done|].
  assert (HW : waiting (store (zdb w3)) = waiting d ∖ list_to_set (map oKey os)) by (rewrite W3, W2; exact W1). rewrite HW. split; [set_solver|].
  intros Hne. apply set_choose_L in Hne as [k Hk].
  assert (Hos : os <> []).
  { apply (claimed_some batch d k Hb Hk). intros o Ho Hpend. destruct (mid_rows _ _ _ _ _ M k o Ho) as (_ & Hcamp & _ & Hd).
    destruct Hd as [[_ Hn]|[Hv _]]; [apply not_elem_of_nil| |congruence]. split_and!; [done..|]. rewrite Hcamp. fold d in Hc. rewrite Hc. by left. }
  destruct os as [|o os']; [done|]. cbn [map] in F1 |- *. inversion F1; subst. set_solver.
Qed.

Lemma copies_run batch n a t w :
  mid CCopying [] a t w -> 1 <= batch -> (size (waiting (store (zdb w))) <= n)%nat ->
  exists t', mid CCopying [] a t' (run mig_handler (copies sha256 s batch n) w).2 /\
    waiting (store (zdb (run mig_handler (copies sha256 s batch n) w).2)) = ∅.
Proof.
  intros M Hb. revert t w M. induction n as [|n IH]; intros t w M Hn; cbn [copies].
  - exists t. split; [done|]. apply leibniz_equiv, size_empty_iff. cbn [run mret prog_mret snd]. lia.
  - destruct (CopyOnce_run a t w batch M Hb) as (t1 & M1 & Hsub & Hless). rewrite run_mbind. apply (IH t1); [done|].
    destruct (decide (waiting (store (zdb w)) = ∅)) as [He|Hne].
    + rewrite He in Hsub. assert (Hz : waiting (store (zdb (run mig_handler (CopyOnce sha256 s batch) w).2)) = ∅) by set_solver. rewrite Hz, size_empty. lia.
    + pose proof (subset_size (waiting (store (zdb (run mig_handler (CopyOnce sha256 s batch) w).2))) (waiting (store (zdb w)))) as Hs.
      assert (size (waiting (store (zdb (run mig_handler (CopyOnce sha256 s batch) w).2))) < size (waiting (store (zdb w))))%nat; [|lia].
      apply Hs. split; [done|]. intros Hback. apply (Hless Hne). set_solver.
Qed.
End Worker.

(** ** Enumeration *)

Lemma offer_all_app i tm l1 l2 m :
  offer_all i tm (l1 ++ l2) m =
  ((offer_all i tm l1 m).1 + (offer_all i tm l2 (offer_all i tm l1 m).2).1, (offer_all i tm l2 (offer_all i tm l1 m).2).2).
Proof. revert m. induction l1 as [|k l1 IH]; intros m; cbn; [by destruct (offer_all i tm l2 m)|]. rewrite IH. cbn. f_equal. lia. Qed.

Lemma offer_all_lookup i tm keys m k :
  (offer_all i tm keys m).2 !! k =
  match m !! k with
  | Some o => Some o
  | None => if bool_decide (k ∈ keys) then Some (mkMObject k i OPending EmptyString 0 0 tm EmptyString) else None
  end.
Proof.
  revert m. induction keys as [|x keys IH]; intros m; cbn [offer_all snd].
  { destruct (m !! k); [done|]. by rewrite bool_decide_eq_false_2 by apply not_elem_of_nil. }
  rewrite IH. unfold offer. destruct (m !! x) as [o|] eqn:Hx; cbn [snd].
  - destruct (m !! k) eqn:Hk; [done|]. repeat case_bool_decide; set_solver.
  - destruct (decide (x = k)) as [<-|Hne]; [rewrite lookup_insert_eq, Hx; by rewrite bool_decide_eq_true_2 by left|].
    rewrite lookup_insert_ne by done. destruct (m !! k); [done|]. repeat case_bool_decide; set_solver.
Qed.

Lemma offer_all_known i tm keys m : (forall k, k ∈ keys -> is_Some (m !! k)) -> offer_all i tm keys m = (0, m).
Proof.
  induction keys as [|k keys IH]; intros Hk; [done|]. cbn. unfold offer. destruct (Hk k ltac:(by left)) as [o ->]. cbn.
  rewrite IH by (intros x Hx; apply Hk; by right). done.
Qed.

Lemma set_db_same w : undisturbed w -> set_db (set_objects (fun m => m) (store (zdb w))) w = w.
Proof. intros [Hf Hi]. destruct w as [[[] fs] ss io wr]. cbn in *. by subst. Qed.

Lemma enumerate_chunks_run fuel keys n w :
  undisturbed w -> (length keys <= fuel)%nat -> Forall (fun k => canonical k = true) keys -> is_Some (camps (store (zdb w)) !! id) ->
  let d := store (zdb w) in
  run mig_handler (enumerate_chunks fuel id keys n) w =
  (Ok (n + (offer_all id (znow d) keys (objects d)).1), set_db (set_objects (fun m => (offer_all id (znow d) keys m).2) d) w).
Proof.
  revert keys n w. induction fuel as [|fuel IH]; intros keys n w Hu Hlen Hk [c Hc] d.
  - destruct keys; [|cbn in Hlen; lia]. cbn. rewrite Z.add_0_r. f_equal. symmetry. by apply set_db_same.
  - destruct keys as [|k keys]; [cbn; rewrite Z.add_0_r; f_equal; symmetry; by apply set_db_same|].
    cbn [enumerate_chunks]. set (ks := k :: keys) in *. rewrite run_mbind, run_call. cbn [mig_handler]. rewrite on_mig_answers by done. fold d.
    assert (Hup : forall l, Forall (fun k => canonical k = true) l -> q_UpsertStorageMigrationObjects id l d =
      (Ok (offer_all id (znow d) l (objects d)).1, set_objects (fun m => (offer_all id (znow d) l m).2) d)).
    { intros l Hl. unfold q_UpsertStorageMigrationObjects. assert (He : existsb (fun k0 => bool_decide (k0 = EmptyString)) l = false).
      { apply not_true_iff_false. rewrite existsb_exists. intros (y & Hy & He). bools. subst y. rewrite Forall_forall in Hl. apply list_elem_of_In in Hy. by apply Hl in Hy. }
      rewrite He, bool_decide_eq_false_2 by (fold d in Hc; by rewrite Hc). done. }
    rewrite Hup by (by apply Forall_take). cbn [fst snd]. rewrite IH; [|by apply undisturbed_db|rewrite length_drop; unfold enumerateChunk; cbn [length ks] in *; lia|by apply Forall_drop|by exists c].
    pose proof (offer_all_app id (znow d) (take enumerateChunk ks) (drop enumerateChunk ks)) as Happ. rewrite take_drop in Happ.
    cbn [set_db zdb store znow set_objects objects camps].
    f_equal; [rewrite Happ; cbn [fst]; f_equal; lia|]. unfold set_db. cbn [zstores zwritable]. f_equal. f_equal. unfold set_objects. cbn [camps objects zfiles zidentity znow zgen zdrawn]. f_equal. by rewrite Happ.
Qed.

Lemma enumerate_run sv a w :
  undisturbed w -> zs_lister sv = true -> zs_primary sv = A -> zstores w !! A = Some a -> is_Some (camps (store (zdb w)) !! id) ->
  exists keys, be_listAll a = Ok keys /\
    let d := store (zdb w) in
    run mig_handler (enumerate sv id) w =
    (Ok (offer_all id (znow d) keys (objects d)).1, set_db (set_objects (fun m => (offer_all id (znow d) keys m).2) d) w).
Proof.
  intros Hu Hl Hp Ha Hc. destruct (list_answers a) as [keys Hk]. exists keys. split; [done|]. cbn zeta. unfold enumerate. rewrite Hl. cbn [negb].
  rewrite run_mbind, run_call. cbn [mig_handler]. rewrite Hp, Ha, (proj2 Hu). cbn [fst snd tail]. rewrite Hk.
  assert (Hw : mkZWorld (zdb w) (zstores w) [] (zwritable w) = w) by (destruct Hu as [_ Hi], w; cbn in *; by subst). rewrite Hw.
  rewrite enumerate_chunks_run; [by rewrite Z.add_0_l|done|done| |done]. apply Forall_forall. intros k Hin. by apply (listAll_spec a keys k Hk).
Qed.

(** ** The leader's passes *)

(** Worlds that agree on everything but the campaigns. *)
Definition same_rest d d' : Prop :=
  objects d' = objects d /\ zfiles d' = zfiles d /\ znow d' = znow d /\ zidentity d' = zidentity d.

(** A statement on the campaign: its answer, and what it leaves. *)
Lemma camp_statement st st' a t w q (ok : Campaign -> bool) (f : Campaign -> Campaign) :
  base st a t w -> (forall d, q d = quiet (update_camp id ok f) d) ->
  (forall c, cSource c = A -> cTarget c = T -> cState c = st ->
   let c' := if ok c then f c else c in cID c' = cID c /\ cSource c' = A /\ cTarget c' = T /\ cState c' = st') ->
  exists d', on_mig q w = (Ok tt, set_db d' w) /\ base st' a t (set_db d' w) /\ same_rest (store (zdb w)) d' /\
    (forall c, camps (store (zdb w)) !! id = Some c -> camps d' !! id = Some (if ok c then f c else c)).
Proof.
  intros Hb Hq Hf. destruct (base_camp _ _ _ _ Hb) as (c & Hc & _). eexists. rewrite on_mig_answers by apply Hb.
  rewrite !Hq. unfold quiet. cbn [fst snd]. split_and!.
  - f_equal. unfold update_camp. rewrite Hc. by destruct (ok c).
  - eapply base_update_camp; [done|exact Hc|]. apply Hf.
  - apply update_camp_rest.
  - intros c0 Hc0. assert (c0 = c) as -> by congruence. unfold update_camp. rewrite Hc. destruct (ok c); cbn; [by rewrite lookup_insert_eq|done].
Qed.

Lemma setState_run st y err a t w :
  base st a t w -> live_state st = true ->
  exists d', run mig_handler (setState id y err) w = (Ok tt, set_db d' w) /\ base y a t (set_db d' w) /\ same_rest (store (zdb w)) d' /\
    (forall c, camps (store (zdb w)) !! id = Some c -> exists c', camps d' !! id = Some c' /\ cCutoverAt c' = cCutoverAt c).
Proof.
  intros Hb Hl. unfold setState, db. rewrite run_mbind, run_call. cbn [mig_handler].
  destruct (camp_statement st y a t w (q_SetStorageMigrationState id y err) (fun c => live_state (cState c))
    (fun c => set_cstate y (cResume c) (cReason c) err (cCutoverAt c) c) Hb) as (d' & E & H1 & H2 & H3); [done|intros c ? ? Hcs; cbn; rewrite Hcs, Hl; cbn; auto|].
  exists d'. rewrite E, run_mret. split_and!; [done..|]. intros c Hc. eexists. split; [by apply H3|]. cbn. by destruct (live_state (cState c)).
Qed.

Lemma refresh_run st a t w :
  base st a t w ->
  exists d', mig_handler _ (RefreshStorageMigrationCounters id) w = (Ok tt, set_db d' w) /\ base st a t (set_db d' w) /\ same_rest (store (zdb w)) d' /\
    (forall c, camps (store (zdb w)) !! id = Some c -> exists c', camps d' !! id = Some c' /\ cCutoverAt c' = cCutoverAt c).
Proof.
  intros Hb. set (d := store (zdb w)). set (total := Z.of_nat (length (ledger id d))). set (dn := count_in [OVerified; OSourceDeleted] id d). set (fl := count_in [OFailed] id d).
  set (q := quiet (update_camp id (fun c => negb (bool_decide ((cTotal c, cDone c, cFailedN c) = (total, dn, fl))))
    (fun c => mkCampaign (cID c) (cSource c) (cTarget c) (cState c) (cResume c) (cReason c) total dn fl (cError c) (cCutoverAt c) (cWorker c) (cCreated c)))).
  destruct (camp_statement st st a t w q _ _ Hb ltac:(done)) as (d' & E & H1 & H2 & H3); [intros c ? ? ?; cbn; destruct (negb _); cbn; auto|].
  exists d'. split_and!; [|done..|]; [|intros c Hc; eexists; split; [by apply H3|]; cbn; by destruct (negb _)].
  cbn [mig_handler]. rewrite on_mig_answers in E |- * by apply Hb. exact E.
Qed.

Lemma stamp_run s st a t w :
  base st a t w ->
  exists w1, (run mig_handler (stampWorker s id) w).2 = w1 /\ base st a t w1 /\ same_rest (store (zdb w)) (store (zdb w1)) /\
    zstores w1 = zstores w /\
    (forall c, camps (store (zdb w)) !! id = Some c -> exists c', camps (store (zdb w1)) !! id = Some c' /\ cCutoverAt c' = cCutoverAt c).
Proof.
  intros Hb. unfold stampWorker. destruct (bool_decide _); [exists w; split_and!; try done; eauto|].
  destruct (camp_statement st st a t w (q_SetStorageMigrationWorker id (zs_workerID s)) (fun c => negb (bool_decide (cWorker c = zs_workerID s)))
    (fun c => mkCampaign (cID c) (cSource c) (cTarget c) (cState c) (cResume c) (cReason c) (cTotal c) (cDone c) (cFailedN c) (cError c) (cCutoverAt c) (zs_workerID s) (cCreated c)) Hb)
    as (d' & E & H1 & H2 & H3); [done|intros c ? ? ?; cbn; destruct (negb _); cbn; auto|].
  rewrite run_mbind, run_call. cbn [mig_handler]. rewrite E, run_mret. cbn [fst snd]. eexists. split; [done|]. split_and!; try done.
  intros c Hc. eexists. split; [by apply H3|]. cbn. by destruct (negb _).
Qed.

(** Up to the topology. *)
Lemma SweepOnce_run s h st a t w :
  base st a t w -> live_state st = true -> zs_target s = Some h ->
  exists c w1, camps (store (zdb w)) !! id = Some c /\ cID c = id /\ cSource c = A /\ cTarget c = T /\ cState c = st /\
    base st a t w1 /\ same_rest (store (zdb w)) (store (zdb w1)) /\
    (exists c', camps (store (zdb w1)) !! id = Some c' /\ cCutoverAt c' = cCutoverAt c) /\
    run mig_handler (SweepOnce s) w = run mig_handler (match topologyFor s c with
          | topologyForward => stop ← reconcileTargetWritability s c; if (stop : bool) then mret (Ok tt) else sweepForward s c
          | topologySwapped => sweepSwapped s c
          | topologyMismatch => note (cID c) note_mismatch
          end) w1.
Proof.
  intros Hb Hl Hs. destruct (base_camp _ _ _ _ Hb) as (c & Hc & H1 & H2 & H3).
  assert (Hid : cID c = id) by (by apply (base_alone _ _ _ _ Hb)).
  pose proof (get_active (store (zdb w)) c Hc ltac:(by rewrite H3) (base_alone _ _ _ _ Hb)) as Hg.
  destruct (stamp_run s st a t w Hb) as (w1 & E1 & B1 & S1 & _ & C1). exists c, w1. split_and!; try done; [by apply C1|].
  unfold SweepOnce. rewrite Hs, run_mbind, run_call. cbn [mig_handler]. rewrite read_answers; [|apply Hb|by rewrite Hg]. rewrite Hg. cbn [fst snd].
  by rewrite run_mbind, Hid, E1.
Qed.

Lemma writable_passes s c st a t w : base st a t w -> cState c = st -> st <> CPaused -> run mig_handler (reconcileTargetWritability s c) w = (false, w).
Proof.
  intros Hb Hst Hn. unfold reconcileTargetWritability. rewrite Hst, (bool_decide_eq_false_2 (st = CPaused)) by done. rewrite orb_false_r.
  destruct (pausable st); [|done]. unfold targetWritable. destruct (zs_targetWrite s); [|done]. rewrite run_mbind, run_call. cbn [mig_handler fst snd].
  by rewrite (base_writable _ _ _ _ Hb).
Qed.

Lemma base_some st a t w : base st a t w -> is_Some (camps (store (zdb w)) !! id).
Proof. intros Hb. destruct (base_camp _ _ _ _ Hb) as (c & Hc & _). by exists c. Qed.

(** With nothing waiting, every row is verified. *)
Lemma none_left a t w st : mid st [] a t w -> waiting (store (zdb w)) = ∅ ->
  count_in [OPending; OCopying] id (store (zdb w)) = 0 /\
  forall k o, objects (store (zdb w)) !! k = Some o -> oKey o = k /\ oCampaign o = id /\ oState o = OVerified /\ contents t k = contents a k.
Proof.
  intros M Hw.
  assert (Hall : forall k o, objects (store (zdb w)) !! k = Some o -> oKey o = k /\ oCampaign o = id /\ oState o = OVerified /\ contents t k = contents a k).
  { intros k o Ho. destruct (mid_rows _ _ _ _ _ M k o Ho) as (O1 & O2 & _ & O4). destruct O4 as [[Hpend _]|[Hv He]]; [apply not_elem_of_nil| |by split_and!].
    assert (Hin : k ∈ waiting (store (zdb w))) by (unfold waiting; apply elem_of_dom; exists o; by apply map_lookup_filter_Some_2). set_solver. }
  split; [|exact Hall]. unfold count_in, in_states. rewrite filter_none; [done|]. apply Forall_forall. intros o Ho Hst.
  unfold ledger in Ho. apply list_elem_of_filter in Ho as [_ Ho]. apply list_elem_of_fmap in Ho as ([k o'] & -> & Ho). apply elem_of_map_to_list in Ho.
  destruct (Hall k o' Ho) as (_ & _ & Hv & _). cbn in Hst. rewrite Hv in Hst. set_solver.
Qed.

Section Forward.
Context (s : MigService) (Hp : zs_primary s = A) (Ht : zs_target s = Some T) (Hlist : zs_lister s = true).

Lemma describe_forward : describe_target s = T.
Proof. unfold describe_target. by rewrite Ht. Qed.

(** The first pass fills the ledger. *)
Lemma sweep_enumerates a t w :
  base CEnumerating a t w -> objects (store (zdb w)) = ∅ ->
  (forall k sum x, zfiles (store (zdb w)) !! k = Some sum -> contents a k = Some x -> sum = EmptyString \/ sum = SentinelMissing \/ sum = sha256 x) ->
  mid CCopying [] a t (run mig_handler (SweepOnce s) w).2 /\
  znow (store (zdb (run mig_handler (SweepOnce s) w).2)) = znow (store (zdb w)).
Proof.
  intros Hb Ho Hfiles. destruct (SweepOnce_run s T CEnumerating a t w Hb eq_refl Ht) as (c & w1 & Hc & Hid & H1 & H2 & H3 & B1 & (S1 & S2 & S3 & _) & _ & E).
  rewrite E, (topology_is_forward s Hp describe_forward c H1 H2), run_mbind, (writable_passes s c CEnumerating a t) by done. cbn [fst snd].
  unfold sweepForward. rewrite H3, Hid.
  destruct (enumerate_run s a w1 (base_calm _ _ _ _ B1) Hlist Hp (base_source _ _ _ _ B1) (base_some _ _ _ _ B1)) as (keys & Hk & Er).
  rewrite run_mbind, Er. cbn [fst snd]. set (d2 := set_objects _ _). set (w2 := set_db d2 w1).
  assert (B2 : base CEnumerating a t w2) by (destruct B1; by split).
  destruct (refresh_run CEnumerating a t w2 B2) as (d3 & E3 & B3 & (R1 & R2 & R3 & _) & _). rewrite run_mbind, run_call, E3. cbn [fst snd].
  destruct (setState_run CEnumerating CCopying EmptyString a t _ B3 eq_refl) as (d4 & E4 & B4 & (U1 & U2 & U3 & _) & _). rewrite E4. cbn [snd].
  assert (Hnow : znow d4 = znow (store (zdb w))) by (rewrite U3; cbn; rewrite R3; cbn; by rewrite S3).
  assert (Hobj : objects d4 = (offer_all id (znow (store (zdb w1))) keys ∅).2) by (rewrite U1; cbn; rewrite R1; cbn; by rewrite S1, Ho).
  assert (Hfil : zfiles d4 = zfiles (store (zdb w))) by (rewrite U2; cbn; rewrite R2; cbn; by rewrite S2).
  split; [|done]. split; [exact B4|..]; cbn [set_db zdb store].
  - intros k. rewrite Hobj, offer_all_lookup, lookup_empty, <- (listAll_spec a keys k Hk). case_bool_decide; split; intros Hx; first [done|by eexists|by destruct Hx].
  - intros k o. rewrite Hobj, offer_all_lookup, lookup_empty. case_bool_decide; [|done]. intros [= <-]. cbn. split_and!; [done..| |].
    + intros Hin. by apply not_elem_of_nil in Hin.
    + intros _. left. split; [done|]. rewrite Hnow, S3. lia.
  - rewrite Hfil. exact Hfiles.
Qed.

(** Then the pass finds nothing new. *)
Lemma sweep_syncs a t w :
  mid CCopying [] a t w -> waiting (store (zdb w)) = ∅ ->
  mid CSynced [] a t (run mig_handler (SweepOnce s) w).2 /\ waiting (store (zdb (run mig_handler (SweepOnce s) w).2)) = ∅.
Proof.
  intros M Hw. pose proof (mid_base _ _ _ _ _ M) as Hb.
  destruct (SweepOnce_run s T CCopying a t w Hb eq_refl Ht) as (c & w1 & Hc & Hid & H1 & H2 & H3 & B1 & (S1 & S2 & S3 & _) & _ & E).
  rewrite E, (topology_is_forward s Hp describe_forward c H1 H2), run_mbind, (writable_passes s c CCopying a t) by done. cbn [fst snd].
  unfold sweepForward. rewrite H3. unfold reconcile. rewrite Hid, H3. destruct (none_left a t w CCopying M Hw) as [Hz Hall].
  rewrite run_mbind, run_call. cbn [mig_handler]. rewrite read_answers; [|apply B1|done]. cbn [fst snd q_CountUncopiedStorageMigrationObjects].
  assert (Hz1 : count_in [OPending; OCopying] id (store (zdb w1)) = 0) by (unfold count_in, in_states, ledger in *; by rewrite S1).
  rewrite Hz1. destruct (refresh_run CCopying a t w1 B1) as (d2 & E2 & B2 & (R1 & R2 & R3 & _) & _). rewrite run_mbind, run_call, E2. cbn [fst snd Z.ltb Z.compare].
  destruct (enumerate_run s a (set_db d2 w1) (base_calm _ _ _ _ B2) Hlist Hp (base_source _ _ _ _ B2) (base_some _ _ _ _ B2)) as (keys & Hk & Er).
  assert (Hknown : forall tm, offer_all id tm keys (objects d2) = (0, objects d2)).
  { intros tm. apply offer_all_known. intros k Hin. rewrite R1, S1. apply (mid_keys _ _ _ _ _ M). by apply (listAll_spec a keys k Hk). }
  rewrite run_mbind, Er. cbn [fst snd set_db zdb store]. rewrite Hknown. cbn [fst].
  set (d3 := set_objects _ _). assert (Ho3 : objects d3 = objects d2) by (unfold d3; cbn; by rewrite Hknown).
  assert (B3 : base CCopying a t (set_db d3 (set_db d2 w1))) by (destruct B2; by split).
  destruct (refresh_run CCopying a t _ B3) as (d4 & E4 & B4 & (U1 & U2 & U3 & _) & _). rewrite run_mbind, run_call, E4. cbn [fst snd Z.ltb Z.compare].
  rewrite (bool_decide_eq_false_2 (CCopying = CSynced)) by done. cbn [negb].
  destruct (setState_run CCopying CSynced EmptyString a t _ B4 eq_refl) as (d5 & E5 & B5 & (V1 & V2 & V3 & _) & _). rewrite E5. cbn [snd].
  assert (Ho5 : objects d5 = objects (store (zdb w))) by (rewrite V1; cbn; rewrite U1; cbn [set_db zdb store]; by rewrite Ho3, R1, S1).
  assert (Hf5 : zfiles d5 = zfiles (store (zdb w))) by (rewrite V2; cbn; rewrite U2; cbn; by rewrite R2, S2).
  assert (Hn5 : znow d5 = znow (store (zdb w))) by (rewrite V3; cbn; rewrite U3; cbn; by rewrite R3, S3).
  split; [|unfold waiting in *; cbn [set_db zdb store]; by rewrite Ho5].
  destruct M as [_ M6 M7 M8]. split; [exact B5|..]; cbn [set_db zdb store]; rewrite ?Ho5, ?Hf5, ?Hn5; done.
Qed.
End Forward.

(** Time passes. *)
Definition later (tm : time) w : zworld B := mkZWorld (Faulty (set_znow tm (store (zdb w))) (faults (zdb w))) (zstores w) (ziofaults w) (zwritable w).

Lemma mid_later st cl a t w tm : mid st cl a t w -> znow (store (zdb w)) <= tm -> mid st cl a t (later tm w).
Proof.
  intros [[M1 M1' M2 M3 M4 M5] M6 M7 M8] Htm. split; [by split|done| |done]. intros k o Ho. cbn in *.
  destruct (M7 k o Ho) as (O1 & O2 & O3 & O4). split_and!; [done..|]. intros Hn. destruct (O4 Hn) as [[? ?]|?]; [left; split; [done|lia]|by right].
Qed.

Section Swapped.
Context (s : MigService) (Hp : zs_primary s = T) (Ht : zs_target s = Some A).

Lemma describe_swapped : describe_target s = A.
Proof. unfold describe_target. by rewrite Ht. Qed.

Lemma topology_is_swapped c : cSource c = A -> cTarget c = T -> topologyFor s c = topologySwapped.
Proof.
  intros H1 H2. unfold topologyFor. rewrite Hp, describe_swapped, H1, H2. rewrite (bool_decide_eq_false_2 (A = EmptyString)), (bool_decide_eq_false_2 (T = EmptyString)) by done. cbn [orb].
  rewrite (bool_decide_eq_false_2 (T = A)) by done. cbn [andb]. by rewrite (bool_decide_eq_true_2 (A = A)), (bool_decide_eq_true_2 (T = T)) by done.
Qed.

(** The first pass after the swap records the cutover. *)
Lemma sweep_cuts_over a t w :
  mid CSynced [] a t w ->
  let w' := (run mig_handler (SweepOnce s) w).2 in
  mid CCutover [] a t w' /\ objects (store (zdb w')) = objects (store (zdb w)) /\
  exists c at_, camps (store (zdb w')) !! id = Some c /\ cCutoverAt c = Some at_.
Proof.
  intros M w'. destruct (SweepOnce_run s A CSynced a t w (mid_base _ _ _ _ _ M) eq_refl Ht) as (c & w1 & Hc & Hid & H1 & H2 & H3 & B1 & (S1 & S2 & S3 & _) & _ & E).
  unfold w'. clear w'. rewrite E, (topology_is_swapped c H1 H2). unfold sweepSwapped. rewrite H3, Hid. unfold db. rewrite run_mbind, run_call. cbn [mig_handler].
  set (now := znow (store (zdb w1))).
  set (q := quiet (update_camp id (fun c => match cState c with CCopying | CSynced => true | _ => false end)
    (fun c => set_cstate CCutover (cResume c) (cReason c) EmptyString (match cCutoverAt c with Some t => Some t | None => Some now end) c))).
  destruct (camp_statement CSynced CCutover a t w1 q _ _ B1 ltac:(done)) as (d2 & E2 & B2 & (R1 & R2 & R3 & _) & C2); [intros c0 ? ? Hcs; cbn; rewrite Hcs; cbn; auto|].
  assert (E2' : on_mig (q_MarkStorageMigrationCutover id) w1 = (Ok tt, set_db d2 w1)) by (rewrite on_mig_answers in E2 |- * by apply B1; exact E2).
  rewrite E2', run_mret. cbn [fst snd]. split_and!.
  - destruct M as [_ M6 M7 M8]. split; [exact B2|..]; cbn [set_db zdb store]; rewrite ?R1, ?R2, ?R3, ?S1, ?S2, ?S3; done.
  - cbn [set_db zdb store]. by rewrite R1, S1.
  - destruct (base_camp _ _ _ _ B1) as (c1 & Hc1 & _ & _ & Hs1). specialize (C2 c1 Hc1). rewrite Hs1 in C2. eexists.
    exists (match cCutoverAt c1 with Some x => x | None => now end). split; [exact C2|]. cbn. by destruct (cCutoverAt c1).
Qed.

(** When the grace period is over, the deletion begins. *)
Lemma sweep_begins a t w c at_ :
  mid CCutover [] a t w -> waiting (store (zdb w)) = ∅ -> camps (store (zdb w)) !! id = Some c -> cCutoverAt c = Some at_ ->
  zs_grace s <= znow (store (zdb w)) - at_ ->
  let w' := (run mig_handler (SweepOnce s) w).2 in
  mid CDeletingSource [] a t w' /\ objects (store (zdb w')) = objects (store (zdb w)).
Proof.
  intros M Hw Hc0 Hat Hg w'. destruct (SweepOnce_run s A CCutover a t w (mid_base _ _ _ _ _ M) eq_refl Ht) as (c1 & w1 & Hc & Hid & H1 & H2 & H3 & B1 & (S1 & S2 & S3 & _) & _ & E).
  assert (c1 = c) as -> by congruence. unfold w'. clear w'. rewrite E, (topology_is_swapped c H1 H2). unfold sweepSwapped. rewrite H3. unfold maybeBeginDeletingSource. rewrite Hat, Hid.
  rewrite run_mbind, run_call. cbn [mig_handler fst snd]. rewrite S3, (proj2 (Z.ltb_ge _ _)) by done.
  rewrite run_mbind, run_call. cbn [mig_handler]. rewrite read_answers; [|apply B1|done]. cbn [fst snd q_CountUncopiedStorageMigrationObjects].
  destruct (none_left a t w CCutover M Hw) as [Hz _].
  assert (Hz1 : count_in [OPending; OCopying] id (store (zdb w1)) = 0) by (unfold count_in, in_states, ledger in *; by rewrite S1).
  rewrite Hz1. cbn [Z.ltb Z.compare].
  destruct (setState_run CCutover CDeletingSource EmptyString a t w1 B1 eq_refl) as (d2 & E2 & B2 & (R1 & R2 & R3 & _) & _). rewrite E2. cbn [snd].
  split; [|cbn [set_db zdb store]; by rewrite R1, S1].
  destruct M as [_ M6 M7 M8]. split; [exact B2|..]; cbn [set_db zdb store]; rewrite ?R1, ?R2, ?R3, ?S1, ?S2, ?S3; done.
Qed.

(** ** Deleting the source *)

(** Everything is in the target; what the ledger calls deleted is gone from the
    source. [orig] is what the source held. *)
Record late (orig : string -> option bytes) a t w : Prop := {
  late_base : base CDeletingSource a t w;
  late_keys : forall k, is_Some (objects (store (zdb w)) !! k) <-> canonical k = true /\ is_Some (orig k);
  late_rows : forall k o, objects (store (zdb w)) !! k = Some o ->
    oKey o = k /\ oCampaign o = id /\ contents t k = orig k /\ (oState o = OVerified \/ (oState o = OSourceDeleted /\ contents a k = None));
}.

Definition remaining d : gset string := dom (filter (fun kv : string * MObject => oState kv.2 = OVerified) (objects d)).

Lemma remaining_elem d k : k ∈ remaining d <-> exists o, objects d !! k = Some o /\ oState o = OVerified.
Proof.
  unfold remaining. rewrite elem_of_dom. split.
  - intros [o Ho]. apply map_lookup_filter_Some in Ho as [? ?]. eauto.
  - intros (o & ? & ?). exists o. by apply map_lookup_filter_Some_2.
Qed.

Lemma remove_one_run orig a t w k :
  late orig a t w -> k ∈ remaining (store (zdb w)) ->
  exists a' d', mig_handler _ (ZDelete (describe_target s) k) w = (Ok tt, set_store A a' w) /\
    mig_handler _ (MarkStorageMigrationObjectSourceDeleted k) (set_store A a' w) = (Ok tt, set_db d' (set_store A a' w)) /\
    late orig a' t (set_db d' (set_store A a' w)) /\ remaining d' = remaining (store (zdb w)) ∖ {[k]}.
Proof.
  intros [[M1 M1' M2 M3 M4 M5] M6 M7] Hk. apply remaining_elem in Hk as (o & Ho & Hv). set (d := store (zdb w)) in *.
  assert (Hcan : canonical k = true) by (apply M6; by exists o).
  assert (Hdel : on_store A (be_delete k) w = (Ok tt, set_store A (be_delete k a).2 w)) by (rewrite (on_store_answers A a) by done; by rewrite delete_answers).
  set (a' := (be_delete k a).2) in *. assert (Ha' : contents a' k = None) by (apply delete_ok; [done|by apply delete_answers]).
  set (o' := set_ostate OSourceDeleted (oAttempts o) (oNext o) (oError o) o).
  assert (Hd : (q_MarkStorageMigrationObjectSourceDeleted k d).2 = set_objects (fun m0 => <[k := o']> m0) d).
  { unfold q_MarkStorageMigrationObjectSourceDeleted, update_obj. cbn [snd]. unfold set_objects. f_equal. apply map_eq. intros j.
    destruct (decide (k = j)) as [<-|Hne]; [|by rewrite lookup_alter_ne, lookup_insert_ne]. rewrite lookup_alter_eq, lookup_insert_eq, Ho. cbn.
    by rewrite bool_decide_eq_true_2. }
  exists a', (set_objects (fun m0 => <[k := o']> m0) d). rewrite describe_swapped. cbn [mig_handler]. split_and!; [done| | |].
  - rewrite on_mig_answers by (by apply undisturbed_store). f_equal. f_equal. exact Hd.
  - split; [split; try done; cbn; [by rewrite lookup_insert_eq|by rewrite lookup_insert_ne]|..]; cbn.
    + intros j. rewrite <- M6. destruct (decide (k = j)) as [<-|Hne]; [rewrite lookup_insert_eq; fold d; rewrite Ho; by split; eauto|by rewrite lookup_insert_ne].
    + intros j oj. rewrite lookup_insert_Some. destruct (M7 k o Ho) as (K1 & K2 & K3 & _). intros [[<- <-]|[Hne Hj]]; [by split_and!; auto|].
      destruct (M7 j oj Hj) as (J1 & J2 & J3 & J4). split_and!; [done..|]. destruct J4 as [?|[? He]]; [by left|right; split; [done|]].
      unfold a'. rewrite delete_frame; [exact He|exact Hcan|apply M6; by exists oj|exact Hne].
  - apply set_eq. intros j. rewrite elem_of_difference, elem_of_singleton, !remaining_elem. cbn. split.
    + intros (oj & Hj & Hs). apply lookup_insert_Some in Hj as [[<- <-]|[Hne Hj]]; [done|]. split; [by eauto|done].
    + intros [(oj & Hj & Hs) Hne]. exists oj. by rewrite lookup_insert_ne.
Qed.

Lemma remove_each_run orig keys a t w n :
  late orig a t w -> NoDup keys -> Forall (fun k => k ∈ remaining (store (zdb w))) keys ->
  exists a' m w', run mig_handler (remove_each s MarkStorageMigrationObjectSourceDeleted keys n) w = (Ok m, w') /\
    late orig a' t w' /\ remaining (store (zdb w')) = remaining (store (zdb w)) ∖ list_to_set keys.
Proof.
  revert a w n. induction keys as [|k keys IH]; intros a w n HL Hnd Hk; cbn [remove_each].
  - exists a, n, w. split_and!; [done..|]. set_solver.
  - apply NoDup_cons in Hnd as [Hn Hnd]. inversion Hk as [|? ? Hk0 Hks]; subst.
    destruct (remove_one_run orig a t w k HL Hk0) as (a1 & d1 & E1 & E2 & HL1 & HR1).
    rewrite run_mbind, run_call, E1. cbn [fst snd]. rewrite run_mbind, run_call, E2. cbn [fst snd].
    destruct (IH a1 _ (n + 1) HL1 Hnd) as (a2 & m & w2 & E & HL2 & HR2).
    { eapply Forall_impl; [apply Forall_and; split; [exact Hks|apply Forall_forall; intros x Hx; exact Hx]|].
      intros x [Hx Hin]. cbn [set_db zdb store]. rewrite HR1. set_solver. }
    exists a2, m, w2. split_and!; [done..|]. rewrite HR2. cbn [set_db zdb store]. rewrite HR1. set_solver.
Qed.

(** The batch: some of the remaining keys, and at least one. *)
Lemma verified_batch orig a t w n :
  late orig a t w -> 1 <= n ->
  NoDup (verified_keys id n (store (zdb w))) /\ Forall (fun k => k ∈ remaining (store (zdb w))) (verified_keys id n (store (zdb w))) /\
  (remaining (store (zdb w)) <> ∅ -> verified_keys id n (store (zdb w)) <> []).
Proof.
  intros [_ _ M7] Hn. set (d := store (zdb w)) in *.
  assert (Hin : forall k, k ∈ map oKey (in_states [OVerified] id d) <-> k ∈ remaining d).
  { intros k. rewrite remaining_elem. unfold in_states, ledger. split.
    - intros Hk. apply list_elem_of_fmap in Hk as (o & -> & Ho). apply list_elem_of_filter in Ho as [Hs Ho]. apply list_elem_of_filter in Ho as [_ Ho].
      apply list_elem_of_fmap in Ho as ([k o'] & -> & Ho). apply elem_of_map_to_list in Ho. cbn in *. destruct (M7 k o' Ho) as (-> & _). exists o'. split; [done|set_solver].
    - intros (o & Ho & Hs). destruct (M7 k o Ho) as (Hk & Hc & _). apply list_elem_of_fmap. exists o. split; [done|]. apply list_elem_of_filter. split; [rewrite Hs; by left|].
      apply list_elem_of_filter. split; [done|]. apply list_elem_of_fmap. exists (k, o). by rewrite elem_of_map_to_list. }
  assert (Hnd : NoDup (map oKey (in_states [OVerified] id d))).
  { unfold in_states, ledger.
    assert (Hall : forall l : list (string * MObject), NoDup l.*1 -> (forall kv, kv ∈ l -> oKey kv.2 = kv.1) ->
      NoDup (map oKey (filter (fun o => oState o ∈ [OVerified]) (filter (fun o => oCampaign o = id) l.*2)))).
    { intros l Hl Hkv. eapply sublist_NoDup; [exact Hl|]. assert (He : l.*1 = map oKey l.*2).
      { clear Hl. induction l as [|kv l IH]; [done|]. cbn. rewrite (Hkv kv) by left. f_equal. apply IH. intros. apply Hkv. by right. }
      rewrite He. apply fmap_sublist. etrans; apply sublist_filter. }
    apply Hall; [apply NoDup_fst_map_to_list|]. intros [k o] Hk. apply elem_of_map_to_list in Hk. cbn. by apply M7. }
  unfold verified_keys. split_and!.
  - eapply sublist_NoDup; [|apply sublist_take]. by rewrite merge_sort_Permutation.
  - apply Forall_forall. intros k Hk. apply Hin. apply elem_of_take in Hk as (i & Hk & _). apply list_elem_of_lookup_2 in Hk. by rewrite merge_sort_Permutation in Hk.
  - intros Hne. apply set_choose_L in Hne as [k Hk]. apply Hin in Hk. rewrite <- (merge_sort_Permutation string_le) in Hk.
    destruct (merge_sort _ _) as [|k1 l]; [by apply not_elem_of_nil in Hk|]. replace (Z.to_nat n) with (S (Z.to_nat (n - 1))) by lia. done.
Qed.

(** Adopting the destination changes no object of it. *)
Lemma adopt_run st a t w c :
  base st a t w -> cTarget c = T ->
  exists t' w', (run mig_handler (adoptDestination s c) w).2 = w' /\ base st a t' w' /\ store (zdb w') = store (zdb w) /\
    forall k x, canonical k = true -> contents t k = Some x -> contents t' k = Some x.
Proof.
  intros Hb Hc. unfold adoptDestination. rewrite Hp, Hc, bool_decide_eq_true_2 by done. cbn [negb].
  assert (Hsame : exists t' w', w = w' /\ base st a t' w' /\ store (zdb w') = store (zdb w) /\ forall k x, canonical k = true -> contents t k = Some x -> contents t' k = Some x)
    by (exists t, w; by split_and!).
  rewrite run_mbind, run_call. cbn [mig_handler]. rewrite read_answers; [|apply Hb|done]. cbn [fst snd]. destruct (q_GetInstanceIdentity _).1 as [i|e]; [|exact Hsame].
  unfold readMarker. rewrite !run_mbind, run_call, ?Hp, (open_answers T OwnerMarkerKey t); [|apply Hb|apply Hb]. cbn [fst snd]. rewrite run_mret. cbn [fst snd].
  destruct (contents t OwnerMarkerKey) as [x|] eqn:Hx.
  - destruct (open_stored OwnerMarkerKey t x eq_refl Hx) as (r & -> & _). destruct (read_limited 4096 r) as [[body [e|]]|]; exact Hsame.
  - rewrite (open_absent OwnerMarkerKey t eq_refl Hx). destruct (bool_decide _); [exact Hsame|].
    rewrite run_mbind, run_call. cbn [mig_handler]. rewrite ?Hp, (on_store_answers T t); [|apply Hb|apply Hb]. rewrite run_mret. cbn [fst snd].
    match goal with |- context [be_put OwnerMarkerKey ?r t] => exists (be_put OwnerMarkerKey r t).2, (set_store T (be_put OwnerMarkerKey r t).2 w) end.
    split; [done|]. destruct Hb as [M1 M1' M2 M3 M4 M5]. split_and!.
    + split; try done; [by apply undisturbed_store|cbn; by rewrite lookup_insert_ne|cbn; by rewrite lookup_insert_eq].
    + done.
    + intros k x Hk Hkx. rewrite put_frame; [done..|]. intros <-. congruence.
Qed.

(** The source is empty of what it held, the destination has it. *)
Record moved (orig : string -> option bytes) w : Prop := {
  moved_calm : undisturbed w;
  moved_camp : exists c, camps (store (zdb w)) !! id = Some c /\ cState c = CDone;
  moved_alone : alone (store (zdb w));
  moved_objects : exists a t, zstores w !! A = Some a /\ zstores w !! T = Some t /\
    forall k x, canonical k = true -> orig k = Some x -> contents t k = Some x /\ contents a k = None;
}.

Lemma unfinished_count orig a t w :
  late orig a t w -> (count_in [OPending; OCopying; OVerified] id (store (zdb w)) = 0 <-> remaining (store (zdb w)) = ∅).
Proof.
  intros [_ _ M7]. set (d := store (zdb w)) in *. unfold count_in, in_states, ledger. split.
  - intros Hz. apply set_eq. intros k. split; [|set_solver]. intros Hk. apply remaining_elem in Hk as (o & Ho & Hs). exfalso.
    destruct (M7 k o Ho) as (_ & Hc & _).
    assert (Hin : o ∈ filter (fun o => oState o ∈ [OPending; OCopying; OVerified]) (filter (fun o => oCampaign o = id) (map_to_list (objects d)).*2)).
    { apply list_elem_of_filter. split; [rewrite Hs; set_solver|]. apply list_elem_of_filter. split; [done|]. apply list_elem_of_fmap. exists (k, o). by rewrite elem_of_map_to_list. }
    destruct (filter _ (filter _ _)); [by apply not_elem_of_nil in Hin|]. cbn in Hz. lia.
  - intros He. rewrite filter_none; [done|]. apply Forall_forall. intros o Ho Hst. apply list_elem_of_filter in Ho as [_ Ho].
    apply list_elem_of_fmap in Ho as ([k o'] & -> & Ho). apply elem_of_map_to_list in Ho. cbn in Hst. destruct (M7 k o' Ho) as (_ & _ & _ & [Hv|[Hv _]]); [|rewrite Hv in Hst; set_solver].
    assert (k ∈ remaining d) by (apply remaining_elem; eauto). set_solver.
Qed.

Lemma sweep_deletes orig a t w :
  late orig a t w ->
  let w' := (run mig_handler (SweepOnce s) w).2 in
  moved orig w' \/ (exists a', late orig a' t w' /\ remaining (store (zdb w')) ⊂ remaining (store (zdb w))).
Proof.
  intros HL w'. destruct (SweepOnce_run s A CDeletingSource a t w (late_base _ _ _ _ HL) eq_refl Ht) as (c & w1 & Hc & Hid & H1 & H2 & H3 & B1 & (S1 & S2 & S3 & _) & _ & E).
  unfold w'. clear w'. rewrite E, (topology_is_swapped c H1 H2). unfold sweepSwapped. rewrite H3. unfold deleteSourceBatch. rewrite describe_swapped, H1, Hid.
  rewrite bool_decide_eq_true_2 by done. cbn [negb].
  assert (HL1 : late orig a t w1) by (destruct HL as [_ M6 M7]; split; [done|..]; by rewrite ?S1). 
  assert (HR1 : remaining (store (zdb w1)) = remaining (store (zdb w))) by (unfold remaining; by rewrite S1).
  rewrite run_mbind, run_call. cbn [mig_handler]. rewrite read_answers; [|apply B1|done]. cbn [fst snd q_ListVerifiedStorageMigrationObjects].
  destruct (verified_batch orig a t w1 deleteBatch HL1 ltac:(done)) as (V1 & V2 & V3). set (keys := verified_keys id deleteBatch (store (zdb w1))) in *.
  destruct (remove_each_run orig keys a t w1 0 HL1 V1 V2) as (a2 & m & w2 & E2 & HL2 & HR2). rewrite run_mbind, E2. cbn [fst snd].
  destruct (refresh_run CDeletingSource a2 t w2 (late_base _ _ _ _ HL2)) as (d3 & E3 & B3 & (R1 & R2 & R3 & _) & _). rewrite run_mbind, run_call, E3. cbn [fst snd].
  assert (HL3 : late orig a2 t (set_db d3 w2)) by (destruct HL2 as [_ M6 M7]; split; [done|..]; cbn [set_db zdb store]; by rewrite ?R1).
  assert (HR3 : remaining d3 = remaining (store (zdb w2))) by (unfold remaining; by rewrite R1).
  rewrite run_mbind, run_call. cbn [mig_handler]. rewrite read_answers; [|apply B3|done]. cbn [fst snd q_CountUnfinishedStorageMigrationObjects].
  pose proof (unfinished_count orig a2 t _ HL3) as Hcount. set (n := count_in _ id _) in *. assert (Hn : 0 <= n) by (unfold n, count_in; lia).
  destruct (Z.ltb_spec 0 n) as [Hpos|Hz].
  - right. exists a2. split; [done|]. cbn [run mret prog_mret snd set_db zdb store]. rewrite HR3, HR2, HR1.
    assert (Hne : remaining (store (zdb w)) <> ∅).
    { intros He. assert (n = 0); [|lia]. apply Hcount. cbn [set_db zdb store]. rewrite HR3, HR2, HR1. set_solver. }
    rewrite <- HR1 in Hne. specialize (V3 Hne). rewrite HR1 in V2. destruct keys as [|k keys]; [done|]. inversion V2; subst. set_solver.
  - left. assert (Hrem : remaining d3 = ∅) by (apply Hcount; lia).
    destruct (adopt_run CDeletingSource a2 t (set_db d3 w2) c B3 H2) as (t4 & w4 & E4 & B4 & D4 & Hkeep). rewrite run_mbind, E4.
    destruct (setState_run CDeletingSource CDone EmptyString a2 t4 w4 B4 eq_refl) as (d5 & E5 & B5 & _). rewrite E5. cbn [snd].
    destruct B5 as [M1 M1' (c5 & C1 & _ & _ & C4) M3 M4 M5]. split; [done|by exists c5|done|]. exists a2, t4. split_and!; [done..|].
    intros k x Hk Hx. destruct HL3 as [_ M6 M7]. cbn [set_db zdb store] in M6, M7. destruct (proj2 (M6 k)) as [o Ho]; [by split; [|exists x]|].
    destruct (M7 k o Ho) as (_ & _ & T3 & [Hv|[_ Hn3]]); [assert (k ∈ remaining d3) by (apply remaining_elem; eauto); set_solver|].
    split; [apply Hkeep; [done|congruence]|done].
Qed.

(** A finished campaign stays finished. *)
Lemma moved_stays orig w : moved orig w -> (run mig_handler (SweepOnce s) w).2 = w.
Proof.
  intros [M1 (c & Hc & Hst) [_ Ha] _]. unfold SweepOnce. rewrite Ht, run_mbind, run_call. cbn [mig_handler]. rewrite read_answers by done. cbn [fst snd].
  assert (Hn : filter (fun c => live_state (cState c) = true) (campaigns_by_age (store (zdb w))) = []).
  { apply filter_none, Forall_forall. intros c' Hin Hl. unfold campaigns_by_age in Hin. rewrite merge_sort_Permutation in Hin.
    apply list_elem_of_fmap in Hin as ([i c0] & -> & Hin). apply elem_of_map_to_list in Hin. cbn in *.
    destruct (decide (i = id)) as [->|Hne]; [rewrite Hc in Hin; injection Hin as <-; by rewrite Hst in Hl|]. by rewrite (Ha _ _ Hin Hne) in Hl. }
  unfold q_GetActiveStorageMigration. rewrite Hn. done.
Qed.

Lemma passes_move orig n a t w :
  moved orig w \/ (late orig a t w /\ (size (remaining (store (zdb w))) < n)%nat) -> moved orig (run mig_handler (passes s n) w).2.
Proof.
  revert a w. induction n as [|n IH]; intros a w Hw; [destruct Hw as [?|[_ ?]]; [done|lia]|].
  unfold passes. cbn [repeat sweeps]. rewrite run_mbind. fold (passes s n). destruct Hw as [Hw|[HL Hsz]].
  - rewrite (moved_stays orig w Hw). apply (IH a). by left.
  - destruct (sweep_deletes orig a t w HL) as [Hm|(a' & HL' & Hlt)]; [apply (IH a); by left|]. apply (IH a'). right. split; [done|].
    apply subset_size in Hlt. lia.
Qed.
End Swapped.

(** ** The whole move *)

Lemma mid_size st cl a t w keys (X : gset string) :
  mid st cl a t w -> be_listAll a = Ok keys -> X ⊆ dom (objects (store (zdb w))) -> (size X <= length keys)%nat.
Proof.
  intros M Hk HX. rewrite <- (size_list_to_set (C := gset string) keys) by (by apply (listAll_nodup a)). apply subseteq_size. etrans; [exact HX|].
  intros k Hin. apply elem_of_dom in Hin. apply (mid_keys _ _ _ _ _ M) in Hin. apply elem_of_list_to_set. by apply (listAll_spec a keys k Hk).
Qed.

Lemma mid_late a t w : mid CDeletingSource [] a t w -> waiting (store (zdb w)) = ∅ -> late (contents a) a t w.
Proof.
  intros M Hw. destruct (none_left a t w CDeletingSource M Hw) as [_ Hall]. destruct M as [M0 M6 _ _]. split; [done|done|].
  intros k o Ho. destruct (Hall k o Ho) as (H1 & H2 & H3 & H4). split_and!; [done..|by left].
Qed.

(** C17. An undisturbed migration completes. When the stores and the database
    answer, a new campaign over a library of any size is enumerated by the
    leader's first pass, copied by the workers in at most as many runs as there
    are objects, and found synced with every object of the source in the
    destination; after the configurations are swapped, the next pass records
    the cutover, and once the grace period is over at most as many passes as
    there are objects (and two) delete the source: the campaign is done, each
    object is in the destination under its key and gone from the source. *)
Theorem migration_completes s s' batch n m a t w tm keys :
  zs_primary s = A -> zs_target s = Some T -> zs_lister s = true -> zs_primary s' = T -> zs_target s' = Some A ->
  base CEnumerating a t w -> objects (store (zdb w)) = ∅ ->
  (forall k sum x, zfiles (store (zdb w)) !! k = Some sum -> contents a k = Some x -> sum = EmptyString \/ sum = SentinelMissing \/ sum = sha256 x) ->
  1 <= batch -> be_listAll a = Ok keys -> (length keys <= n)%nat -> (length keys < m)%nat ->
  let w1 := (run mig_handler (_ ← SweepOnce s; _ ← copies sha256 s batch n; SweepOnce s) w).2 in
  let w2 := (run mig_handler (SweepOnce s') w1).2 in
  (forall c at_, camps (store (zdb w2)) !! id = Some c -> cCutoverAt c = Some at_ -> zs_grace s' <= tm - at_) ->
  znow (store (zdb w2)) <= tm ->
  (exists c t1, camps (store (zdb w1)) !! id = Some c /\ cState c = CSynced /\ zstores w1 !! T = Some t1 /\
     forall k, canonical k = true -> is_Some (contents a k) -> contents t1 k = contents a k) /\
  moved (contents a) (run mig_handler (passes s' (S m)) (later tm w2)).2.
Proof.
  intros Hp Ht Hl Hp' Ht' Hb Ho Hf Hbatch Hkeys Hn Hm w1 w2 Hgrace Htm.
  assert (Hdt : describe_target s = T) by (unfold describe_target; by rewrite Ht).
  destruct (sweep_enumerates s Hp Ht Hl a t w Hb Ho Hf) as [M0 _]. set (w0 := (run mig_handler (SweepOnce s) w).2) in *.
  destruct (copies_run s Hp Hdt batch n a t w0 M0 Hbatch) as (t1 & Mc & Wc).
  { etrans; [|exact Hn]. eapply (mid_size _ _ _ _ _ keys); [exact M0|done|]. unfold waiting. apply dom_filter_subseteq. }
  assert (Ew1 : w1 = (run mig_handler (SweepOnce s) (run mig_handler (copies sha256 s batch n) w0).2).2) by (unfold w1; by rewrite !run_mbind).
  destruct (sweep_syncs s Hp Ht Hl a t1 _ Mc Wc) as [Ms Ws]. rewrite <- Ew1 in Ms, Ws.
  destruct (sweep_cuts_over s' Hp' Ht' a t1 w1 Ms) as (M2 & O2 & c2 & at_ & Hc2 & Hat). fold w2 in M2, O2, Hc2.
  assert (W2 : waiting (store (zdb w2)) = ∅) by (unfold waiting in *; by rewrite O2).
  assert (M2' : mid CCutover [] a t1 (later tm w2)) by (by apply mid_later).
  destruct (sweep_begins s' Hp' Ht' a t1 (later tm w2) c2 at_ M2' W2 Hc2 Hat) as [M3 O3]; [cbn; by eapply Hgrace|].
  set (w3 := (run mig_handler (SweepOnce s') (later tm w2)).2) in *.
  assert (W3 : waiting (store (zdb w3)) = ∅) by (unfold waiting in *; rewrite O3; exact W2).
  split.
  - destruct (base_camp _ _ _ _ (mid_base _ _ _ _ _ Ms)) as (c & Hc & _ & _ & Hst). exists c, t1. split_and!; [done..|apply Ms|].
    intros k Hk Hx. destruct (none_left a t1 w1 CSynced Ms Ws) as [_ Hall]. destruct (proj2 (mid_keys _ _ _ _ _ Ms k) (conj Hk Hx)) as [o Hko]. by apply (Hall k o).
  - change (passes s' (S m)) with (_ ← SweepOnce s'; passes s' m). rewrite run_mbind. fold w3. apply (passes_move s' Hp' Ht' (contents a) m a t1). right.
    split; [by apply mid_late|]. eapply Nat.le_lt_trans; [|exact Hm]. eapply (mid_size _ _ _ _ _ keys); [exact M3|done|]. unfold remaining. apply dom_filter_subseteq.
Qed.
End Flow.

Lemma migration_completes_witness :
  moved "m" "s3://a" "s3://b" (contents (mkBucket {[Move.key := Move.body]}))
    (run mig_handler (passes Move.swapped 3)
      (later 0 (run mig_handler (SweepOnce Move.swapped)
        (run mig_handler (_ ← SweepOnce Move.forward; _ ← copies Move.sum Move.forward 4 1; SweepOnce Move.forward) Move.start).2).2)).2.
Proof.
  apply (migration_completes Move.sum "m" "s3://a" "s3://b" ltac:(done) ltac:(done) ltac:(done) Move.forward Move.swapped 4 1 2
    (mkBucket {[Move.key := Move.body]}) (mkBucket ∅) Move.start 0 [Move.key]); try reflexivity; try lia.
  - split; try done; [exists Move.camp; by vm_compute|]. split; intros i c Hc; cbn in Hc; apply lookup_singleton_Some in Hc as [<- <-]; done.
  - intros k sum x Hk. cbn in Hk. by rewrite lookup_empty in Hk.
  - cbn. lia.
  - intros c at_ Hc Hat. vm_compute in Hc. injection Hc as <-. vm_compute in Hat. injection Hat as <-. cbn. lia.
Defined.

(** ** Where the service does less than it says

    Executions on concrete inputs. *)
Module Races.
Import Move.

(** The state, reason and total of the campaign. *)
Definition shown (w : zworld Bucket) : option (cstate * string * Z) :=
  (fun c => (cState c, cReason c, cTotal c)) <$> camps (store (zdb w)) !! "m"%string.

Definition control {A} (p : prog migE A) : prog migE unit := _ ← p; mret tt.

(** A pause that is answered with a paused campaign is undone by the pass that
    was enumerating meanwhile. *)
Theorem pause_undone_by_pass :
  let c := schedule mig_handler [0; 0; 1; 1]%nat [control (SweepOnce forward); control (Pause "m" PauseReasonOperator)] start in
  let c' := schedule mig_handler (repeat 0%nat 10) c.1 c.2 in
  shown c.2 = Some (CPaused, PauseReasonOperator, 0) /\ c.1 !! 1%nat = Some (Ret tt) /\
  shown c'.2 = Some (CCopying, PauseReasonOperator, 1).
Proof. vm_compute. split_and!; reflexivity. Qed.

(** So is an abort with clean-up: the campaign goes on copying. *)
Theorem abort_undone_by_pass :
  let c := schedule mig_handler [0; 0; 1; 1]%nat [control (SweepOnce forward); control (Abort_ "m" true)] start in
  let c' := schedule mig_handler (repeat 0%nat 10) c.1 c.2 in
  shown c.2 = Some (CAborting, EmptyString, 0) /\ c.1 !! 1%nat = Some (Ret tt) /\ shown c'.2 = Some (CCopying, EmptyString, 1).
Proof. vm_compute. split_and!; reflexivity. Qed.

(** An object replaced in the source after its copy was verified is not copied
    again: the campaign is synced, and its deletion phase removes the only copy
    of the new content. *)
Theorem replaced_object_lost :
  let w1 := (run mig_handler (_ ← SweepOnce forward; CopyOnce sum forward 4) start).2 in
  let w2 := (run mig_handler (_ ← call (ZPut "s3://a" key (Reader [[Byte.x09]] None false)); SweepOnce forward) w1).2 in
  let w3 := (run mig_handler (passes swapped 3) w2).2 in
  shown w2 = Some (CSynced, EmptyString, 1) /\ at_store w2 "s3://a" key = Some [Byte.x09] /\
  shown w3 = Some (CDone, EmptyString, 1) /\ at_store w3 "s3://a" key = None /\ at_store w3 "s3://b" key = Some body.
Proof. vm_compute. split_and!; reflexivity. Qed.

(** A dead-lettered object does not keep the campaign from being synced,
    although it is not in the target. *)
Theorem synced_without_failed_object :
  let w0 := mkZWorld (zdb start) (zstores start) [IoFine; IoFine; IoFail; IoFine; IoFail; IoFine; IoFail; IoFine; IoFail; IoFine; IoFail] true in
  let next (w : zworld Bucket) := (run mig_handler (CopyOnce sum forward 4) (later (znow (store (zdb w)) + Hour) w)).2 in
  let w1 := next (next (next (next (next (run mig_handler (SweepOnce forward) w0).2)))) in
  let w2 := (run mig_handler (SweepOnce forward) w1).2 in
  shown w2 = Some (CSynced, EmptyString, 1) /\ at_store w2 "s3://b" key = None /\
  oState <$> objects (store (zdb w2)) !! key = Some OFailed.
Proof. vm_compute. split_and!; reflexivity. Qed.

(** When the ledger of an earlier campaign cannot be cleared, the new one does
    not sit at zero: it is declared synced with nothing copied. *)
Theorem uncleared_ledger_syncs_empty :
  let old := mkCampaign "old" "s3://a" "s3://b" CCancelled None EmptyString 1 0 0 EmptyString None EmptyString 0 in
  let row := mkMObject key "old" OPending EmptyString 0 0 0 EmptyString in
  let w0 := mkZWorld (Faulty (mkMigDB {["old"%string := old]} {[key := row]} ∅ (Some "me"%string) 0 (fun _ => "m"%string) 0) [Fine; Fine; FailBefore])
              (zstores start) [] true in
  let w1 := (run mig_handler (_ ← Start forward; _ ← SweepOnce forward; _ ← CopyOnce sum forward 4; SweepOnce forward) w0).2 in
  shown w1 = Some (CSynced, EmptyString, 0) /\ at_store w1 "s3://a" key = Some body /\ at_store w1 "s3://b" key = None.
Proof. vm_compute. split_and!; reflexivity. Qed.
End Races.

(** A destination on a local disk: [Local.Put] truncates the file and removes
    it when the body breaks off. A worker whose lease expired destroys the copy
    another worker verified, the ledger still calls it verified, and the
    deletion of the source removes the last one. *)
Module LocalTarget.
Definition key : string := "a".
Definition body : bytes := [Byte.x01].
Definition forward : MigService := mkMigService "local:/a" (Some "local:/b"%string) 0 EmptyString true false.
Definition swapped : MigService := mkMigService "local:/b" (Some "local:/a"%string) 0 EmptyString true false.
Definition camp : Campaign := mkCampaign "m" "local:/a" "local:/b" CCopying None EmptyString 0 0 0 EmptyString None EmptyString 0.
Definition row : MObject := mkMObject key "m" OPending EmptyString 0 0 0 EmptyString.
Definition start : zworld LocalFS :=
  mkZWorld (Faulty (mkMigDB {["m"%string := camp]} {[key := row]} ∅ None 0 (fun _ => EmptyString) 0) [])
    (list_to_map [("local:/a"%string, mkLocalFS (mkLocal {[ [key] := body ]} {[ [] ]}) []); ("local:/b"%string, mkLocalFS (mkLocal ∅ {[ [] ]}) [])])
    [IoBreak 0] true.

Theorem stale_worker_loses_object :
  let worker : prog migE unit := _ ← CopyOnce Move.sum forward 4; mret tt in
  let expire : prog migE unit := _ ← call SweepExpiredStorageMigrationObjects; mret tt in
  (* the first worker claims and opens, then stalls *)
  let c1 := schedule mig_handler [0; 0; 0]%nat [worker; expire; worker] start in
  (* its lease expires, the object is copied and verified by the second *)
  let c2 := schedule mig_handler (1%nat :: repeat 2%nat 12) c1.1 (later (2 * Hour) c1.2) in
  (* the first goes on; then the source is released and deleted *)
  let c3 := schedule mig_handler (repeat 0%nat 12) c2.1 c2.2 in
  let w := (run mig_handler (_ ← SweepOnce forward; passes swapped 3) c3.2).2 in
  at_store c2.2 "local:/b" key = Some body /\
  oState <$> objects (store (zdb c3.2)) !! key = Some OVerified /\ at_store c3.2 "local:/b" key = None /\
  camp_state "m" w = Some CDone /\ at_store w "local:/a" key = None /\ at_store w "local:/b" key = None.
Proof. vm_compute. split_and!; reflexivity. Qed.
End LocalTarget.
