(* ===== verification/Playback.v ===== *)
(** * Playback tokens (src/internal/playback/token.go)

    Short-lived tokens that open one subject's media: minting, the two payload
    grammars, and verification against the subject and the scope a gate
    expects. HMAC-SHA256 and [uuid.Parse] are parameters. *)
From S2P Require Import Prelude GoStrings Encoding Secretbox Storage MediaKeys.
Local Open Scope Z_scope.

(** ** Go's standard library *)

Definition colon : ascii := Ascii.ascii_of_nat 58.

(** [strings.Split(s, ":")] *)
Fixpoint split_colon (s : string) : list string :=
  match s with
  | EmptyString => [EmptyString]
  | String c s' =>
      if bool_decide (c = colon) then EmptyString :: split_colon s'
      else match split_colon s' with w :: ws => String c w :: ws | [] => [String c EmptyString] end
  end.

(** [i := strings.LastIndexByte(s, ':')] with [s[:i]] and [s[i+1:]]. *)
Fixpoint cut_last_colon (s : string) : option (string * string) :=
  match s with
  | EmptyString => None
  | String c s' =>
      match cut_last_colon s' with
      | Some (before, after) => Some (String c before, after)
      | None => if bool_decide (c = colon) then Some (EmptyString, s') else None
      end
  end.

(** [strconv.FormatInt(n, 10)] *)
Definition FormatInt (n : Z) : string := pretty n.

(** [strconv.ParseInt(s, 10, 64)] *)
Definition ParseInt (s : string) : option Z :=
  let '(neg, digits) :=
    match s with
    | String c rest =>
        if bool_decide (c = Ascii.ascii_of_nat 43) then (false, rest)
        else if bool_decide (c = Ascii.ascii_of_nat 45) then (true, rest) else (false, s)
    | EmptyString => (false, s)
    end in
  if bool_decide (digits = EmptyString) || negb (all_chars is_digit digits) then None
  else let n := if neg : bool then - decimal digits 0 else decimal digits 0 in
       if (min_int64 <=? n) && (n <=? max_int64) then Some n else None.

(** [time.Unix(sec, 0)]: the seconds are rebased to the year 1 in an int64. *)
Definition unixToInternal : Z := 62135596800.
Definition time_Unix (sec : Z) : time := (int64 (sec + unixToInternal) - unixToInternal) * Second.

(** [Time.Unix] *)
Definition Unix (t : time) : Z := t / Second.

(** ** Scopes and claims *)

Abbreviation Scope := string (only parsing).

Definition ScopePlayback : Scope := "playback".
Definition ScopeLive : Scope := "live".
Definition ScopeLicense : Scope := "license".

(** [Scope.valid] *)
Definition valid (sc : Scope) : bool :=
  bool_decide (sc = ScopePlayback) || bool_decide (sc = ScopeLive) || bool_decide (sc = ScopeLicense).


Record Claims := mkClaims {
  Version : Z; SubjectID : uuid; SessionID : uuid; ClaimScope : Scope; ExpiresAt : time;
}.

Definition domainSeparation : string := "vidra/playback-token/v1".
Definition payloadV2Prefix : string := "v2:".

Section Tokens.
Context (hmac_sha256 : string -> string -> string).   (* key, message *)
Context (uuid_Parse : string -> option uuid).

Record Signer := mkSigner { key : string }.

(** [NewSigner] *)
Definition NewSigner (secret : string) : Signer := mkSigner (hmac_sha256 secret domainSeparation).

(** [Signer.mac] *)
Definition mac (s : Signer) (payload : string) : string := hmac_sha256 (key s) payload.

(** The signed bytes of a v2 token. *)
Definition payloadV2 (subjectID sessionID : uuid) (scope : Scope) (exp : Z) : string :=
  payloadV2Prefix +:+ subjectID +:+ ":" +:+ sessionID +:+ ":" +:+ scope +:+ ":" +:+ FormatInt exp.

(** [Signer.Sign] at the time [now]. *)
Definition Sign (s : Signer) (now : time) (subjectID sessionID : uuid) (scope : Scope) (ttl : duration) : string :=
  if negb (valid scope) then EmptyString else
  let payload := payloadV2 subjectID sessionID scope (Unix (now + ttl)) in
  base64_rawurl payload +:+ "." +:+ base64_rawurl (mac s payload).

(** [parsePayloadV1] *)
Definition parsePayloadV1 (p : string) : option Claims :=
  match cut_last_colon p with
  | None => None
  | Some (before, after) =>
      if bool_decide (before = EmptyString) then None else
      match uuid_Parse before with
      | None => None
      | Some vid =>
          match ParseInt after with
          | None => None
          | Some exp => Some (mkClaims 1 vid uuid_Nil ScopePlayback (time_Unix exp))
          end
      end
  end.

(** [parsePayloadV2] *)
Definition parsePayloadV2 (p : string) : option Claims :=
  match split_colon p with
  | [p0; p1; p2; p3] =>
      match uuid_Parse p0 with
      | None => None
      | Some vid =>
          match uuid_Parse p1 with
          | None => None
          | Some sid =>
              if negb (valid p2) then None else
              match ParseInt p3 with
              | None => None
              | Some exp => Some (mkClaims 2 vid sid p2 (time_Unix exp))
              end
          end
      end
  | _ => None
  end.

(** [parsePayload] *)
Definition parsePayload (p : string) : option Claims :=
  if HasPrefix p payloadV2Prefix then parsePayloadV2 (TrimPrefix p payloadV2Prefix) else parsePayloadV1 p.

(** The two halves of a token, decoded. *)
Definition token_parts (token : string) : option (string * string) :=
  match Cut dot token with
  | (before, Some after) =>
      if bool_decide (before = EmptyString) || bool_decide (after = EmptyString) then None else
      match base64_rawurl_decode before with
      | None => None
      | Some payload =>
          match base64_rawurl_decode after with
          | None => None
          | Some sig => Some (payload, sig)
          end
      end
  | (_, None) => None
  end.

(** [Signer.VerifyClaims] at the time [now]; [hmac.Equal] is equality. *)
Definition VerifyClaims (s : Signer) (now : time) (token : string) (subjectID : uuid) (scope : Scope) : option Claims :=
  match token_parts token with
  | None => None
  | Some (payload, sig) =>
      if negb (bool_decide (sig = mac s payload)) then None else
      match parsePayload payload with
      | None => None
      | Some claims =>
          if negb (bool_decide (SubjectID claims = subjectID)) || negb (bool_decide (ClaimScope claims = scope)) then None
          else if negb (now <? ExpiresAt claims) then None else Some claims
      end
  end.

(** [Signer.Verify] *)
Definition Verify (s : Signer) (now : time) (token : string) (subjectID : uuid) (scope : Scope) : bool :=
  match VerifyClaims s now token subjectID scope with Some _ => true | None => false end.

End Tokens.

(** ** Canonical ids *)

Definition is_hex (c : ascii) : bool := is_digit c || ((97 <=? code c) && (code c <=? 102)).
Definition dash : ascii := Ascii.ascii_of_nat 45.

(** Hexadecimal digits ([true]) and dashes of the canonical text of a UUID. *)
Definition uuid_layout : list bool :=
  repeat true 8 ++ [false] ++ repeat true 4 ++ [false] ++ repeat true 4 ++ [false] ++ repeat true 4 ++ [false] ++ repeat true 12.

Fixpoint laid_out (l : list bool) (s : string) : bool :=
  match l, s with
  | [], EmptyString => true
  | b :: l', String c s' => (if b : bool then is_hex c else bool_decide (c = dash)) && laid_out l' s'
  | _, _ => false
  end.

(** What [UUID.String] returns. *)
Definition canonical_uuid (u : uuid) : bool := laid_out uuid_layout u.

(** [uuid.Parse] reads back what [UUID.String] prints. *)
Class UuidParseLaws (uuid_Parse : string -> option uuid) : Prop :=
  uuid_Parse_String : forall u, canonical_uuid u = true -> uuid_Parse u = Some u.

(** A MAC is thirty-two bytes. *)
Class HmacLaws (hmac_sha256 : string -> string -> string) : Prop :=
  hmac_length : forall k m, String.length (hmac_sha256 k m) = 32%nat.

Lemma laid_out_colon l s : laid_out l s = true -> contains colon s = false.
Proof.
  revert s. induction l as [|b l IH]; intros [|c s]; cbn; try done. intros H. bools. rewrite IH by done.
  rewrite bool_decide_eq_false_2; [done|]. intros <-. by destruct b.
Qed.

Lemma canonical_colon u : canonical_uuid u = true -> contains colon u = false.
Proof. apply laid_out_colon. Qed.

(** A canonical id starts with a hexadecimal digit. *)
Lemma canonical_head u : canonical_uuid u = true -> exists c s, u = String c s /\ is_hex c = true.
Proof. unfold canonical_uuid. destruct u as [|c s]; [done|]. intros H. cbn in H. bools. eauto. Qed.

(** ** Lemmas: words and numbers *)

Lemma split_colon_app s t : contains colon s = false -> split_colon (s +:+ String colon t) = s :: split_colon t.
Proof.
  induction s as [|c s IH]; intros H; [done|]. change (split_colon (String c (s +:+ String colon t)) = String c s :: split_colon t).
  cbn in *. bools. rewrite bool_decide_eq_false_2 by congruence. by rewrite IH by done.
Qed.

Lemma split_colon_word s : contains colon s = false -> split_colon s = [s].
Proof.
  induction s as [|c s IH]; intros H; [done|]. cbn in *. bools. rewrite bool_decide_eq_false_2 by congruence.
  by rewrite IH by done.
Qed.

Lemma cut_last_none s : contains colon s = false -> cut_last_colon s = None.
Proof.
  induction s as [|c s IH]; intros H; [done|]. cbn in *. bools. rewrite IH by done.
  by rewrite bool_decide_eq_false_2 by congruence.
Qed.

Lemma cut_last_app s t : contains colon t = false -> cut_last_colon (s +:+ String colon t) = Some (s, t).
Proof.
  intros Ht. induction s as [|c s IH].
  - change (cut_last_colon (String colon t) = Some (EmptyString, t)). cbn [cut_last_colon]. rewrite cut_last_none by done.
    by rewrite bool_decide_eq_true_2.
  - change (cut_last_colon (String c (s +:+ String colon t)) = Some (String c s, t)). cbn [cut_last_colon]. by rewrite IH.
Qed.

(** The digits of a number. *)
Lemma pretty_N_digits (x : N) :
  all_chars is_digit (pretty x) = true /\ decimal (pretty x) 0 = Z.of_N x /\
  exists c s, pretty x = String c s /\ is_digit c = true.
Proof.
  unfold pretty, pretty_N. case_decide as H0; [subst; cbn; split_and!; [done..|]; by do 2 eexists|].
  destruct (pretty_go_head x "") as (d & t & Hp & Hd & _); [lia|].
  split_and!; [by apply pretty_go_digits|by rewrite pretty_go_decimal|eauto].
Qed.

Lemma digit_not_sign c : is_digit c = true -> c <> Ascii.ascii_of_nat 43 /\ c <> Ascii.ascii_of_nat 45 /\ c <> colon.
Proof. intros H. split_and!; by intros ->. Qed.

Lemma ParseInt_FormatInt n : in_int64 n -> ParseInt (FormatInt n) = Some n.
Proof.
  intros [Hlo Hhi]. unfold FormatInt. assert (Hr : (min_int64 <=? n) && (n <=? max_int64) = true)
    by (apply andb_true_intro; split; by apply Z.leb_le).
  assert (Hpos : forall x : N, Z.of_N x = n -> ParseInt (pretty x) = Some n).
  { intros x Hx. destruct (pretty_N_digits x) as (Ha & Hd & c & s & Hp & Hc). destruct (digit_not_sign c Hc) as (? & ? & _).
    unfold ParseInt. rewrite Hp in *. rewrite !bool_decide_eq_false_2 by done. cbn [negb orb]. rewrite Ha. cbn [negb].
    by rewrite Hd, Hx, Hr. }
  destruct n as [|p|p]; [by apply (Hpos 0%N)|by apply (Hpos (Npos p))|].
  change (pretty (Zneg p)) with (String (Ascii.ascii_of_nat 45) (pretty (Npos p))). unfold ParseInt.
  rewrite bool_decide_eq_false_2, bool_decide_eq_true_2 by done.
  destruct (pretty_N_digits (Npos p)) as (Ha & Hd & c & s & Hp & _).
  rewrite Ha, Hd. rewrite bool_decide_eq_false_2 by (by rewrite Hp). cbn [negb orb].
  by change (- Z.of_N (N.pos p)) with (Z.neg p); rewrite Hr.
Qed.

Lemma all_digits_colon s : all_chars is_digit s = true -> contains colon s = false.
Proof.
  induction s as [|c s IH]; [done|]. cbn. intros H. bools. rewrite IH by done.
  rewrite bool_decide_eq_false_2; [done|]. by intros <-.
Qed.

Lemma FormatInt_colon n : contains colon (FormatInt n) = false.
Proof.
  unfold FormatInt. destruct n as [|p|p]; [done| |]; destruct (pretty_N_digits (Npos p)) as (Ha & _).
  - by apply all_digits_colon.
  - change (pretty (Zneg p)) with (String (Ascii.ascii_of_nat 45) (pretty (Npos p))). cbn [contains].
    by rewrite all_digits_colon.
Qed.

Lemma valid_colon sc : valid sc = true -> contains colon sc = false.
Proof. unfold valid. repeat case_bool_decide; subst; done. Qed.

Lemma rawurl_no_dot s : contains dot (base64_rawurl s) = false.
Proof.
  pose proof (base64_rawurl_codes s) as Hc. revert Hc. generalize (base64_rawurl s). clear s. intros s.
  induction s as [|c s IH]; [done|]. intros [Hc Hs]%Forall_cons. cbn [contains]. rewrite IH by exact Hs.
  rewrite bool_decide_eq_false_2; [done|]. by intros <-.
Qed.

(** ** Lemmas: payloads *)

Section Payloads.
Context (hmac_sha256 : string -> string -> string) (uuid_Parse : string -> option uuid).
Context `{!HmacLaws hmac_sha256} `{!UuidParseLaws uuid_Parse}.

(** What a server signs: the v2 payload of [Sign], or the v1 payload of the
    servers before it. *)
Inductive minted :=
| MintedV2 (subjectID sessionID : uuid) (scope : Scope) (exp : Z)
| MintedV1 (subjectID : uuid) (exp : Z).

Definition payload_of (m : minted) : string :=
  match m with
  | MintedV2 subjectID sessionID scope exp => payloadV2 subjectID sessionID scope exp
  | MintedV1 subjectID exp => subjectID +:+ ":" +:+ FormatInt exp
  end.

Definition minted_ok (m : minted) : Prop :=
  match m with
  | MintedV2 subjectID sessionID scope exp =>
      canonical_uuid subjectID = true /\ canonical_uuid sessionID = true /\ valid scope = true /\ in_int64 exp
  | MintedV1 subjectID exp => canonical_uuid subjectID = true /\ in_int64 exp
  end.

(** What the token says. *)
Definition claims_of (m : minted) : Claims :=
  match m with
  | MintedV2 subjectID sessionID scope exp => mkClaims 2 subjectID sessionID scope (time_Unix exp)
  | MintedV1 subjectID exp => mkClaims 1 subjectID uuid_Nil ScopePlayback (time_Unix exp)
  end.

Lemma colon_app x : ":" +:+ x = String colon x.
Proof. done. Qed.

(** Either grammar is read back as what was signed. *)
Lemma parse_payload_of m : minted_ok m -> parsePayload uuid_Parse (payload_of m) = Some (claims_of m).
Proof.
  destruct m as [subj sess sc exp|subj exp]; cbn [minted_ok payload_of claims_of].
  - intros (Hs & Hss & Hv & He). unfold parsePayload, payloadV2. rewrite HasPrefix_app, TrimPrefix_app. unfold parsePayloadV2.
    rewrite !colon_app, !split_colon_app by auto using canonical_colon, valid_colon. rewrite split_colon_word by apply FormatInt_colon.
    rewrite !uuid_Parse_String, Hv by done. cbn [negb]. by rewrite ParseInt_FormatInt.
  - intros (Hs & He). destruct (canonical_head subj Hs) as (c & s & -> & Hc).
    assert (Hp : HasPrefix (String c s +:+ ":" +:+ FormatInt exp) payloadV2Prefix = false).
    { unfold HasPrefix. apply bool_decide_eq_false_2. rewrite app_cons. cbn. intros [= -> _]. done. }
    unfold parsePayload. rewrite Hp. unfold parsePayloadV1. rewrite colon_app, cut_last_app by apply FormatInt_colon. rewrite bool_decide_eq_false_2 by done.
    by rewrite uuid_Parse_String, ParseInt_FormatInt.
Qed.

Lemma payload_nonempty m : minted_ok m -> payload_of m <> EmptyString.
Proof.
  destruct m; cbn [minted_ok payload_of]; [done|]. intros ((c & s & -> & _)%canonical_head & _). done.
Qed.

Lemma token_parts_of p q : p <> EmptyString -> q <> EmptyString ->
  token_parts (base64_rawurl p +:+ "." +:+ base64_rawurl q) = Some (p, q).
Proof.
  intros Hp Hq. unfold token_parts. change ("." +:+ ?x) with (String dot x). rewrite Cut_app by apply rawurl_no_dot.
  rewrite !bool_decide_eq_false_2 by (by intros ?%base64_rawurl_empty). cbn [orb]. by rewrite !base64_rawurl_roundtrip.
Qed.

(** What a gate answers to a token whose payload was signed. *)
Definition gate (m : minted) (now : time) (subjectID : uuid) (scope : Scope) : option Claims :=
  let c := claims_of m in
  if bool_decide (SubjectID c = subjectID) && bool_decide (ClaimScope c = scope) && (now <? ExpiresAt c) then Some c else None.

Lemma verify_minted s now token m sig subj sc :
  minted_ok m -> token_parts token = Some (payload_of m, sig) ->
  VerifyClaims hmac_sha256 uuid_Parse s now token subj sc =
    if bool_decide (sig = mac hmac_sha256 s (payload_of m)) then gate m now subj sc else None.
Proof.
  intros Hm Ht. unfold VerifyClaims. rewrite Ht. case_bool_decide; [|done]. cbn [negb].
  rewrite parse_payload_of by done. unfold gate.
  destruct (bool_decide (SubjectID _ = subj)), (bool_decide (ClaimScope _ = sc)); try done. cbn. by destruct (_ <? _).
Qed.

Lemma mac_nonempty s p : mac hmac_sha256 s p <> EmptyString.
Proof. intros He. pose proof (hmac_length (key s) p) as Hl. unfold mac in He. by rewrite He in Hl. Qed.

(** The last instant [time.Unix] represents. *)
Definition representable (sec : Z) : Prop := - unixToInternal <= sec <= max_int64 - unixToInternal.

Lemma time_Unix_exact sec : representable sec -> time_Unix sec = sec * Second.
Proof.
  unfold representable, time_Unix, unixToInternal, max_int64. intros H. rewrite int64_id; [lia|].
  unfold in_int64, min_int64, max_int64. lia.
Qed.

Lemma representable_int64 sec : representable sec -> in_int64 sec.
Proof. unfold representable, in_int64, unixToInternal, min_int64, max_int64. lia. Qed.

End Payloads.

(** ** Properties *)

(** C18. Minting and verifying. A token minted for a subject, a playback session, a
    known scope and a lifetime is accepted by every gate for that subject and
    that scope, and reports them, at every instant before the whole second its
    lifetime ends in; it is refused by a gate for any other subject or scope,
    and by every gate from that second on. For an unknown scope nothing is
    minted, and the empty token is refused everywhere. *)
Theorem playback_token_roundtrip hmac_sha256 uuid_Parse secret subj sess sc (ttl : duration) (minted_at : time) :
  HmacLaws hmac_sha256 -> UuidParseLaws uuid_Parse -> canonical_uuid subj = true -> canonical_uuid sess = true ->
  representable (Unix (minted_at + ttl)) ->
  let s := NewSigner hmac_sha256 secret in
  let exp := Unix (minted_at + ttl) in
  let token := Sign hmac_sha256 s minted_at subj sess sc ttl in
  forall now subj' sc',
    VerifyClaims hmac_sha256 uuid_Parse s now token subj' sc' =
      if valid sc && bool_decide (subj' = subj) && bool_decide (sc' = sc) && (now <? exp * Second)
      then Some (mkClaims 2 subj sess sc (exp * Second)) else None.
Proof.
  intros Hl Hu Hs Hss Hr s exp token now subj' sc'. unfold token, Sign. destruct (valid sc) eqn:Hv; cbn [negb]; [|done].
  assert (Hm : minted_ok (MintedV2 subj sess sc exp)) by (cbn; auto using representable_int64).
  change (payloadV2 _ _ _ _) with (payload_of (MintedV2 subj sess sc exp)).
  erewrite (verify_minted hmac_sha256 uuid_Parse _ _ _ _ _ subj' sc' Hm);
    [|by apply token_parts_of; [apply payload_nonempty|apply mac_nonempty]].
  rewrite bool_decide_eq_true_2 by done. unfold gate. cbn. rewrite time_Unix_exact by done.
  by rewrite (bool_decide_ext (subj = subj') (subj' = subj)), (bool_decide_ext (sc = sc') (sc' = sc)).
Qed.

(** No gate opens to what was not minted for it. Let [log] be everything the
    server ever signed, in either payload grammar, and take any string a client
    presents that does not carry a forged MAC (a valid MAC on bytes the server
    never signed). If a gate accepts it, the server signed that very subject and
    scope (a v1 token counting as playback of its video, and as nothing else),
    the claims handed on are those of the signed token, and the expiry it was
    signed with has not passed. *)
Theorem playback_accepts_only_minted hmac_sha256 uuid_Parse s (log : list minted) now token subj sc c :
  UuidParseLaws uuid_Parse -> Forall minted_ok log ->
  (forall p sig, token_parts token = Some (p, sig) -> sig = mac hmac_sha256 s p -> p ∈ map payload_of log) ->
  VerifyClaims hmac_sha256 uuid_Parse s now token subj sc = Some c ->
  now < ExpiresAt c /\
  ((exists sess exp, MintedV2 subj sess sc exp ∈ log /\ c = mkClaims 2 subj sess sc (time_Unix exp)) \/
   (exists exp, sc = ScopePlayback /\ MintedV1 subj exp ∈ log /\ c = mkClaims 1 subj uuid_Nil sc (time_Unix exp))).
Proof.
  intros Hu Hok Hunf Hv. destruct (token_parts token) as [[p sig]|] eqn:Ht; [|by unfold VerifyClaims in Hv; rewrite Ht in Hv].
  assert (Hsig : sig = mac hmac_sha256 s p).
  { unfold VerifyClaims in Hv. rewrite Ht in Hv. by case_bool_decide. }
  pose proof (Hunf p sig eq_refl Hsig) as (m & -> & Hm)%list_elem_of_fmap.
  rewrite Forall_forall in Hok. rewrite (verify_minted _ _ _ _ _ _ _ _ _ (Hok m Hm) Ht), bool_decide_eq_true_2 in Hv by done.
  unfold gate in Hv. destruct m as [s0 sess sc0 exp|s0 exp]; cbn in Hv; repeat case_bool_decide; cbn in Hv;
    try case_match; simplify_eq; split; try (by apply Z.ltb_lt); eauto 6.
Qed.

Module Scenario.

(** A MAC and a parser that compute. *)
Definition pad32 (s : string) : string := String.substring 0 32 (s +:+ "................................").
Definition hmac (k m : string) : string := pad32 (String.substring 0 8 k +:+ String.substring 0 24 m).
Definition parse (s : string) : option uuid := if canonical_uuid s then Some s else None.

Lemma length_substring n s t : String.length t = n -> String.length (String.substring 0 n (s +:+ t)) = n.
Proof.
  revert s t. induction n as [|n IH]; intros [|c s] t Ht.
  - by destruct t.
  - done.
  - destruct t as [|d t]; [done|]. injection Ht as Ht.
    change (S (String.length (String.substring 0 n (EmptyString +:+ t))) = S n). by rewrite IH.
  - rewrite app_cons. destruct t as [|d t]; [done|]. injection Ht as Ht.
    change (S (String.length (String.substring 0 n (s +:+ String d t))) = S n).
    replace (s +:+ String d t) with ((s +:+ String d EmptyString) +:+ t) by (by rewrite <- String_app_assoc). by rewrite IH.
Qed.

Lemma hmac_laws : HmacLaws hmac.
Proof. intros k m. by apply length_substring. Qed.

Lemma parse_laws : UuidParseLaws parse.
Proof. intros u Hu. unfold parse. by rewrite Hu. Qed.

Definition film : uuid := "11111111-2222-3333-4444-555555555555".
Definition stream : uuid := "99999999-8888-7777-6666-555555555555".
Definition visit : uuid := "abcdefab-0000-4000-8000-0123456789ab".
Definition signer : Signer := NewSigner hmac "secret".
Definition day : time := 20000 * 24 * Hour.

End Scenario.

Lemma playback_token_roundtrip_witness :
  let token := Sign Scenario.hmac Scenario.signer Scenario.day Scenario.film Scenario.visit ScopePlayback (6 * Hour) in
  Verify Scenario.hmac Scenario.parse Scenario.signer (Scenario.day + 5 * Hour) token Scenario.film ScopePlayback = true /\
  Verify Scenario.hmac Scenario.parse Scenario.signer (Scenario.day + 6 * Hour) token Scenario.film ScopePlayback = false /\
  Verify Scenario.hmac Scenario.parse Scenario.signer Scenario.day token Scenario.film ScopeLive = false.
Proof.
  pose proof (playback_token_roundtrip Scenario.hmac Scenario.parse "secret" Scenario.film Scenario.visit ScopePlayback
    (6 * Hour) Scenario.day Scenario.hmac_laws Scenario.parse_laws eq_refl eq_refl ltac:(vm_compute; split; discriminate)) as H.
  cbv zeta in H |- *. unfold Verify. split_and!; (rewrite H; vm_compute; reflexivity).
Defined.

Lemma playback_accepts_only_minted_witness :
  let token := base64_rawurl (payload_of (MintedV1 Scenario.film 1728003600)) +:+ "." +:+
                base64_rawurl (mac Scenario.hmac Scenario.signer (payload_of (MintedV1 Scenario.film 1728003600))) in
  exists c, VerifyClaims Scenario.hmac Scenario.parse Scenario.signer Scenario.day token Scenario.film ScopePlayback = Some c /\
    Scenario.day < ExpiresAt c /\ Version c = 1.
Proof.
  intros token. eexists. split; [vm_compute; reflexivity|].
  destruct (playback_accepts_only_minted Scenario.hmac Scenario.parse Scenario.signer
    [MintedV1 Scenario.film 1728003600] Scenario.day token Scenario.film ScopePlayback
    (mkClaims 1 Scenario.film uuid_Nil ScopePlayback (1728003600 * Second))) as [Hexp _].
  - exact Scenario.parse_laws.
  - repeat constructor; done.
  - intros p sig Ht _. vm_compute in Ht. injection Ht as <- _. vm_compute. constructor.
  - vm_compute. reflexivity.
  - split; [exact Hexp|reflexivity].
Defined.
