(* ===== verification/LiveStore.v ===== *)
(** * The tables and collaborators of live streaming

    [live_streams] with the channels, accounts, mutes and blocks its statements
    join; one definition per statement of
    src/internal/store/queries/live_streams.sql; the recording directory the
    media server shares with the api; the answers of the media server's control
    endpoint; and the signature [liveE] that src/internal/live runs against. *)
From S2P Require Import Prelude GoStrings Storage MediaStore VideoStore Video.
Local Open Scope Z_scope.

(** ** Rows *)

Inductive lstate := StateOffline | StateLive | StateEnded.

#[global] Instance lstate_eq_dec : EqDecision lstate.
Proof. solve_decision. Defined.

Record LiveStream := mkStream {
  lsID : uuid; lsChannel : uuid; lsTitle : string; lsDescription : string; lsPrivacy : string; lsState : lstate;
  lsPermanent : bool; lsReplay : bool; lsKeyHash : string; lsStartedAt : option time; lsScheduled : option time;
  lsCreated : time; lsUpdated : time;
  lsTermAt : option time; lsTermBy : option uuid; lsTermCode : option string; lsTermReason : string;
}.

#[global] Instance LiveStream_eq_dec : EqDecision LiveStream.
Proof. solve_decision. Defined.

Record LChannel := mkLChannel { lcOwner : uuid; lcHandle : string; lcName : string }.
Record LUser := mkLUser { luActive : bool; luUnlisted : bool }.

(** [lgen]: the ids the database generates. *)
Record LiveDB := mkLiveDB {
  lrows : gmap uuid LiveStream;
  lchannels : gmap uuid LChannel;
  lusers : gmap uuid LUser;
  lmuted : gset (uuid * uuid);
  lblocked : gset (uuid * uuid);
  lnow : time;
  lgen : nat -> uuid;
  ldrawn : nat;
}.

Definition set_lrows f d := mkLiveDB (f (lrows d)) (lchannels d) (lusers d) (lmuted d) (lblocked d) (lnow d) (lgen d) (ldrawn d).
Definition draw_stream d := mkLiveDB (lrows d) (lchannels d) (lusers d) (lmuted d) (lblocked d) (lnow d) (lgen d) (S (ldrawn d)).

(** ** Statements *)

Abbreviation lstmt A := (LiveDB -> result dberr A * LiveDB) (only parsing).

Definition stream_privacy (p : string) : bool := bool_decide (p ∈ ["public"; "unlisted"; "private"]%string).

(** The unique index on [stream_key_hash]: no other row has the hash. *)
Definition key_free (id : uuid) (hash : string) (m : gmap uuid LiveStream) : bool :=
  bool_decide (map_Forall (fun i st => i = id \/ lsKeyHash st <> hash) m).

Record CreateParams := mkCreate {
  cpChannel : uuid; cpTitle : string; cpDescription : string; cpPrivacy : string; cpPermanent : bool; cpReplay : bool;
  cpHash : string; cpScheduled : option time;
}.

Definition q_CreateLiveStream (p : CreateParams) : lstmt LiveStream := fun d =>
  let id := lgen d (ldrawn d) in
  let row := mkStream id (cpChannel p) (cpTitle p) (cpDescription p) (cpPrivacy p) StateOffline (cpPermanent p) (cpReplay p)
    (cpHash p) None (cpScheduled p) (lnow d) (lnow d) None None None EmptyString in
  if bool_decide (lchannels d !! cpChannel p = None) || negb (stream_privacy (cpPrivacy p)) then (Err ErrStore, draw_stream d)
  else if bool_decide (is_Some (lrows d !! id)) || negb (key_free id (cpHash p) (lrows d)) then (Err ErrUnique, draw_stream d)
  else (Ok row, set_lrows <[id := row]> (draw_stream d)).

(** The row with its channel. *)
Definition q_GetLiveStreamByID (id : uuid) : lstmt (LiveStream * LChannel) := fun d =>
  (match lrows d !! id with
   | Some st => match lchannels d !! lsChannel st with Some ch => Ok (st, ch) | None => Err ErrNoRows end
   | None => Err ErrNoRows
   end, d).

(** ORDER BY an integer key, then the id; LIMIT and OFFSET. *)
Definition by_key_id (f : LiveStream -> Z) (x y : LiveStream) : Prop :=
  f x < f y \/ f x = f y /\ String.leb (lsID x) (lsID y) = true.

#[global] Instance by_key_id_dec f : RelDecision (by_key_id f).
Proof. intros x y. unfold by_key_id. apply _. Defined.

Definition page {A} (limit offset : Z) (l : list A) : list A := take (Z.to_nat limit) (drop (Z.to_nat offset) l).
Definition stream_list (d : LiveDB) : list LiveStream := map snd (map_to_list (lrows d)).

Definition of_channel (ch : uuid) (d : LiveDB) : list LiveStream := filter (fun st => lsChannel st = ch) (stream_list d).

Definition q_ListLiveStreamsByChannel (ch : uuid) (limit offset : Z) : lstmt (list LiveStream) := fun d =>
  (Ok (page limit offset (merge_sort (by_key_id (fun st => - lsCreated st)) (of_channel ch d))), d).

Definition q_CountLiveStreamsByChannel (ch : uuid) : lstmt Z := fun d => (Ok (Z.of_nat (length (of_channel ch d))), d).

(** The owner is active and listed, and the viewer neither muted nor blocked
    them. *)
Definition discoverable (viewer : option uuid) (d : LiveDB) (st : LiveStream) : bool :=
  match lchannels d !! lsChannel st with
  | None => false
  | Some ch =>
      match lusers d !! lcOwner ch with
      | None => false
      | Some u =>
          luActive u && negb (luUnlisted u) &&
          match viewer with
          | None => true
          | Some v => negb (bool_decide ((v, lcOwner ch) ∈ lmuted d)) && negb (bool_decide ((v, lcOwner ch) ∈ lblocked d))
          end
      end
  end.

Definition with_channel (d : LiveDB) (sts : list LiveStream) : list (LiveStream * LChannel) :=
  omap (fun st => (fun ch => (st, ch)) <$> lchannels d !! lsChannel st) sts.

Definition live_public (viewer : option uuid) (d : LiveDB) : list LiveStream :=
  filter (fun st => lsState st = StateLive /\ lsPrivacy st = "public"%string /\ discoverable viewer d st = true) (stream_list d).

(** ORDER BY started_at DESC NULLS LAST, id *)
Definition newest_start (st : LiveStream) : Z := match lsStartedAt st with Some t => - t | None => 2 ^ 63 end.

Definition q_ListLivePublicStreams (viewer : option uuid) (limit offset : Z) : lstmt (list (LiveStream * LChannel)) := fun d =>
  (Ok (with_channel d (page limit offset (merge_sort (by_key_id newest_start) (live_public viewer d)))), d).

Definition q_CountLivePublicStreams (viewer : option uuid) : lstmt Z := fun d => (Ok (Z.of_nat (length (live_public viewer d))), d).

(** A planned start up to one hour ago. *)
Definition upcoming (handle : option string) (viewer : option uuid) (d : LiveDB) : list LiveStream :=
  filter (fun st => lsState st = StateOffline /\ lsPrivacy st = "public"%string /\ discoverable viewer d st = true /\
      lsTermCode st = None /\
      (match lsScheduled st with Some t => lnow d - Hour <? t | None => false end) = true /\
      (match handle with
       | None => true
       | Some h => bool_decide (lcHandle <$> lchannels d !! lsChannel st = Some h)
       end) = true) (stream_list d).

Definition q_ListUpcomingLiveStreams (handle : option string) (viewer : option uuid) (limit offset : Z) :
    lstmt (list (LiveStream * LChannel)) := fun d =>
  (Ok (with_channel d (page limit offset (merge_sort (by_key_id (fun st => default 0 (lsScheduled st))) (upcoming handle viewer d)))), d).

Definition q_CountUpcomingLiveStreams (handle : option string) (viewer : option uuid) : lstmt Z := fun d =>
  (Ok (Z.of_nat (length (upcoming handle viewer d))), d).

(** An UPDATE of one row by id. *)
Definition upd (id : uuid) (f : LiveStream -> LiveStream) (d : LiveDB) : LiveDB := set_lrows (alter f id) d.

Definition set_hash (hash : string) (t : time) (st : LiveStream) : LiveStream :=
  mkStream (lsID st) (lsChannel st) (lsTitle st) (lsDescription st) (lsPrivacy st) (lsState st) (lsPermanent st) (lsReplay st)
    hash (lsStartedAt st) (lsScheduled st) (lsCreated st) t (lsTermAt st) (lsTermBy st) (lsTermCode st) (lsTermReason st).

Definition q_UpdateLiveStreamKey (id : uuid) (hash : string) : lstmt unit := fun d =>
  if bool_decide (lrows d !! id = None) then (Ok tt, d)
  else if negb (key_free id hash (lrows d)) then (Err ErrUnique, d)
  else (Ok tt, upd id (set_hash hash (lnow d)) d).

Record EditParams := mkEdit {
  epTitle : string; epDescription : string; epPrivacy : string; epPermanent : bool; epReplay : bool; epScheduled : option time;
}.

Definition edited (p : EditParams) (t : time) (st : LiveStream) : LiveStream :=
  mkStream (lsID st) (lsChannel st) (epTitle p) (epDescription p) (epPrivacy p) (lsState st) (epPermanent p) (epReplay p)
    (lsKeyHash st) (lsStartedAt st) (if bool_decide (lsState st = StateLive) then None else epScheduled p) (lsCreated st) t
    (lsTermAt st) (lsTermBy st) (lsTermCode st) (lsTermReason st).

Definition q_UpdateLiveStream (id : uuid) (p : EditParams) : lstmt LiveStream := fun d =>
  match lrows d !! id with
  | None => (Err ErrNoRows, d)
  | Some st =>
      if negb (stream_privacy (epPrivacy p)) then (Err ErrStore, d)
      else (Ok (edited p (lnow d) st), upd id (edited p (lnow d)) d)
  end.

Record KeyRow := mkKeyRow { krID : uuid; krPermanent : bool; krState : lstate; krOwner : uuid; krOwnerActive : bool }.

Definition q_GetLiveStreamByKeyHash (hash : string) : lstmt KeyRow := fun d =>
  (match filter (fun st => lsKeyHash st = hash) (stream_list d) with
   | st :: _ =>
       match lchannels d !! lsChannel st with
       | Some ch =>
           match lusers d !! lcOwner ch with
           | Some u => Ok (mkKeyRow (lsID st) (lsPermanent st) (lsState st) (lcOwner ch) (luActive u))
           | None => Err ErrNoRows
           end
       | None => Err ErrNoRows
       end
   | [] => Err ErrNoRows
   end, d).

Definition q_CountLiveStreamsLive : lstmt Z := fun d =>
  (Ok (Z.of_nat (length (filter (fun st => lsState st = StateLive) (stream_list d)))), d).

Definition live_of (owner : uuid) (d : LiveDB) : list LiveStream :=
  filter (fun st => lsState st = StateLive /\ lcOwner <$> lchannels d !! lsChannel st = Some owner) (stream_list d).

Definition q_CountLiveStreamsLiveByOwner (owner : uuid) : lstmt Z := fun d => (Ok (Z.of_nat (length (live_of owner d))), d).

Definition overdue (cutoff : time) (st : LiveStream) : bool :=
  bool_decide (lsState st = StateLive) && match lsStartedAt st with Some t => t <? cutoff | None => false end.

Definition q_ListOverdueLiveStreams (cutoff : time) : lstmt (list LiveStream) := fun d =>
  (Ok (merge_sort (by_key_id (fun st => default 0 (lsStartedAt st)))
        (filter (fun st => overdue cutoff st = true) (stream_list d))), d).

Definition state_set (next : lstate) (t : time) (st : LiveStream) : LiveStream :=
  let go := bool_decide (next = StateLive) in
  mkStream (lsID st) (lsChannel st) (lsTitle st) (lsDescription st) (lsPrivacy st) next (lsPermanent st) (lsReplay st) (lsKeyHash st)
    (if go then if bool_decide (lsState st = StateLive) then lsStartedAt st else Some t else None)
    (if go then None else lsScheduled st) (lsCreated st) t
    (if go then None else lsTermAt st) (if go then None else lsTermBy st) (if go then None else lsTermCode st)
    (if go then EmptyString else lsTermReason st).

Definition q_SetLiveStreamState (id : uuid) (next : lstate) : lstmt unit := fun d =>
  (Ok tt, upd id (state_set next (lnow d)) d).

Definition q_DeleteLiveStream (id : uuid) : lstmt Z := fun d =>
  (Ok (if bool_decide (is_Some (lrows d !! id)) then 1 else 0), set_lrows (delete id) d).

(** The reason codes, and the CHECK constraint that mirrors them. *)
Definition TerminationReasons : list string :=
  ["policy_violation"; "copyright"; "sensitive_content"; "spam"; "harassment"; "legal_request"; "technical"; "other"].

Definition terminated (next : lstate) (by_ : option uuid) (code : option string) (reason : string) (t : time) (st : LiveStream) : LiveStream :=
  mkStream (lsID st) (lsChannel st) (lsTitle st) (lsDescription st) (lsPrivacy st) next (lsPermanent st) (lsReplay st) (lsKeyHash st)
    None None (lsCreated st) t (Some t) by_ code reason.

Definition q_TerminateLiveStream (id : uuid) (next : lstate) (by_ : option uuid) (code : option string) (reason : string) : lstmt unit := fun d =>
  if bool_decide (lrows d !! id = None) then (Ok tt, d)
  else if match by_ with Some u => bool_decide (lusers d !! u = None) | None => false end ||
          match code with Some c => negb (bool_decide (c ∈ TerminationReasons)) | None => false end
  then (Err ErrStore, d)
  else (Ok tt, upd id (terminated next by_ code reason (lnow d)) d).

(** ** The recording directory *)

Inductive fserr := FsNotExist | FsOther.

#[global] Instance fserr_eq_dec : EqDecision fserr.
Proof. solve_decision. Defined.

(** A directory entry: is it a directory, when was it modified, its bytes. *)
Record Entry := mkEntry { enDir : bool; enMod : time; enData : bytes }.

Definition name_le (x y : string * Entry) : Prop := String.leb x.1 y.1 = true.

#[global] Instance name_le_dec : RelDecision name_le.
Proof. intros x y. unfold name_le. apply _. Defined.

(** ** The world *)

(** [audit.Event], as far as the live service fills it in. *)
Record LEvent := mkEvent {
  evAction : string; evResult : string; evActor : option (uuid * string); evResource : uuid; evReason : string; evCount : option Z;
}.

(** The database with its fault schedule; the video service's world (the
    replay pipeline); the directory [LIVE_HLS_ROOT/rec] ([None] while it does not
    exist) and which of the calls on it fail; the random generator; what the
    media server answers to the n-th control request (status and body, or no
    answer) and the requests it got; viewer sets dropped; the audit trail. *)
Record lworld (B : Type) := mkLWorld {
  ldb : faulty LiveDB;
  lvideo : vworld B;
  lrec : option (gmap string Entry);
  lfsfail : nat -> bool;
  lfscalls : nat;
  lrand : nat -> option string;
  lrands : nat;
  lingest : nat -> option (Z * string);
  lrequests : list (string * list (string * string));
  lresets : list uuid;
  laudit : list LEvent;
}.
Arguments mkLWorld {B}.
Arguments ldb {B}.
Arguments lvideo {B}.
Arguments lrec {B}.
Arguments lfsfail {B}.
Arguments lfscalls {B}.
Arguments lrand {B}.
Arguments lrands {B}.
Arguments lingest {B}.
Arguments lrequests {B}.
Arguments lresets {B}.
Arguments laudit {B}.

(** [live.Repository], the random generator, the clock, the file system, the
    media server's control endpoint, the video pipeline, the viewer counter and
    the audit trail. *)
Inductive liveE : Type -> Type :=
| CreateLiveStream (p : CreateParams) : liveE (result dberr LiveStream)
| GetLiveStreamByID (id : uuid) : liveE (result dberr (LiveStream * LChannel))
| ListLiveStreamsByChannel (ch : uuid) (limit offset : Z) : liveE (result dberr (list LiveStream))
| CountLiveStreamsByChannel (ch : uuid) : liveE (result dberr Z)
| UpdateLiveStreamKey (id : uuid) (hash : string) : liveE (result dberr unit)
| UpdateLiveStream (id : uuid) (p : EditParams) : liveE (result dberr LiveStream)
| DeleteLiveStream (id : uuid) : liveE (result dberr Z)
| GetLiveStreamByKeyHash (hash : string) : liveE (result dberr KeyRow)
| SetLiveStreamState (id : uuid) (next : lstate) : liveE (result dberr unit)
| ListLivePublicStreams (viewer : option uuid) (limit offset : Z) : liveE (result dberr (list (LiveStream * LChannel)))
| CountLivePublicStreams (viewer : option uuid) : liveE (result dberr Z)
| ListUpcomingLiveStreams (handle : option string) (viewer : option uuid) (limit offset : Z) :
    liveE (result dberr (list (LiveStream * LChannel)))
| CountUpcomingLiveStreams (handle : option string) (viewer : option uuid) : liveE (result dberr Z)
| CountLiveStreamsLive : liveE (result dberr Z)
| CountLiveStreamsLiveByOwner (owner : uuid) : liveE (result dberr Z)
| ListOverdueLiveStreams (cutoff : time) : liveE (result dberr (list LiveStream))
| TerminateLiveStream (id : uuid) (next : lstate) (by_ : option uuid) (code : option string) (reason : string) : liveE (result dberr unit)
| LRandom : liveE (option string)
| LNow : liveE time
| ReadDir : liveE (result fserr (list (string * bool)))
| FileInfo (name : string) : liveE (result fserr time)
| OpenFile (name : string) : liveE (result fserr reader)
| RemoveFile (name : string) : liveE (result fserr unit)
| ControlGet (path : string) (params : list (string * string)) : liveE (option (Z * string))
| VideoOp {X} (e : videoE X) : liveE X
| ResetViewers (id : uuid) : liveE unit
| LiveAudit (ev : LEvent) : liveE unit.

Section Handler.
Context {B : Type} `{Backend B, !Lister B}.
Implicit Types (w : lworld B).

Definition with_ldb f w : lworld B := mkLWorld f (lvideo w) (lrec w) (lfsfail w) (lfscalls w) (lrand w) (lrands w) (lingest w) (lrequests w) (lresets w) (laudit w).
Definition with_lvideo v w : lworld B := mkLWorld (ldb w) v (lrec w) (lfsfail w) (lfscalls w) (lrand w) (lrands w) (lingest w) (lrequests w) (lresets w) (laudit w).
Definition with_lrec r w : lworld B := mkLWorld (ldb w) (lvideo w) r (lfsfail w) (lfscalls w) (lrand w) (lrands w) (lingest w) (lrequests w) (lresets w) (laudit w).

Definition on_live {A} (q : LiveDB -> result dberr A * LiveDB) w : result dberr A * lworld B :=
  ((exec q (ldb w)).1, with_ldb (exec q (ldb w)).2 w).

(** A call of the file system, which may fail. *)
Definition on_files {A} (q : option (gmap string Entry) -> result fserr A * option (gmap string Entry)) w : result fserr A * lworld B :=
  let w' := mkLWorld (ldb w) (lvideo w) (lrec w) (lfsfail w) (S (lfscalls w)) (lrand w) (lrands w) (lingest w) (lrequests w) (lresets w) (laudit w) in
  if lfsfail w (lfscalls w) then (Err FsOther, w') else ((q (lrec w)).1, with_lrec (q (lrec w)).2 w').

(** [os.ReadDir]: names in order, with their kind. *)
Definition fs_ReadDir (dir : option (gmap string Entry)) : result fserr (list (string * bool)) * option (gmap string Entry) :=
  (match dir with
   | None => Err FsNotExist
   | Some m => Ok (map (fun kv => (kv.1, enDir kv.2)) (merge_sort name_le (map_to_list m)))
   end, dir).

Definition fs_lookup (name : string) (dir : option (gmap string Entry)) : result fserr Entry :=
  match dir with Some m => match m !! name with Some e => Ok e | None => Err FsNotExist end | None => Err FsNotExist end.

Definition fs_Info (name : string) (dir : option (gmap string Entry)) : result fserr time * option (gmap string Entry) :=
  (match fs_lookup name dir with Ok e => Ok (enMod e) | Err x => Err x end, dir).

Definition fs_Open (name : string) (dir : option (gmap string Entry)) : result fserr reader * option (gmap string Entry) :=
  (match fs_lookup name dir with Ok e => Ok (Reader [enData e] None false) | Err x => Err x end, dir).

Definition fs_Remove (name : string) (dir : option (gmap string Entry)) : result fserr unit * option (gmap string Entry) :=
  (match fs_lookup name dir with Ok _ => Ok tt | Err x => Err x end, (delete name) <$> dir).

Definition live_handler : handler liveE (lworld B) := fun X e w =>
  match e in liveE X return X * lworld B with
  | CreateLiveStream p => on_live (q_CreateLiveStream p) w
  | GetLiveStreamByID id => on_live (q_GetLiveStreamByID id) w
  | ListLiveStreamsByChannel ch limit offset => on_live (q_ListLiveStreamsByChannel ch limit offset) w
  | CountLiveStreamsByChannel ch => on_live (q_CountLiveStreamsByChannel ch) w
  | UpdateLiveStreamKey id hash => on_live (q_UpdateLiveStreamKey id hash) w
  | UpdateLiveStream id p => on_live (q_UpdateLiveStream id p) w
  | DeleteLiveStream id => on_live (q_DeleteLiveStream id) w
  | GetLiveStreamByKeyHash hash => on_live (q_GetLiveStreamByKeyHash hash) w
  | SetLiveStreamState id next => on_live (q_SetLiveStreamState id next) w
  | ListLivePublicStreams viewer limit offset => on_live (q_ListLivePublicStreams viewer limit offset) w
  | CountLivePublicStreams viewer => on_live (q_CountLivePublicStreams viewer) w
  | ListUpcomingLiveStreams handle viewer limit offset => on_live (q_ListUpcomingLiveStreams handle viewer limit offset) w
  | CountUpcomingLiveStreams handle viewer => on_live (q_CountUpcomingLiveStreams handle viewer) w
  | CountLiveStreamsLive => on_live q_CountLiveStreamsLive w
  | CountLiveStreamsLiveByOwner owner => on_live (q_CountLiveStreamsLiveByOwner owner) w
  | ListOverdueLiveStreams cutoff => on_live (q_ListOverdueLiveStreams cutoff) w
  | TerminateLiveStream id next by_ code reason => on_live (q_TerminateLiveStream id next by_ code reason) w
  | LRandom => (lrand w (lrands w),
      mkLWorld (ldb w) (lvideo w) (lrec w) (lfsfail w) (lfscalls w) (lrand w) (S (lrands w)) (lingest w) (lrequests w) (lresets w) (laudit w))
  | LNow => (lnow (store (ldb w)), w)
  | ReadDir => on_files fs_ReadDir w
  | FileInfo name => on_files (fs_Info name) w
  | OpenFile name => on_files (fs_Open name) w
  | RemoveFile name => on_files (fs_Remove name) w
  | ControlGet path params => (lingest w (length (lrequests w)),
      mkLWorld (ldb w) (lvideo w) (lrec w) (lfsfail w) (lfscalls w) (lrand w) (lrands w) (lingest w) ((path, params) :: lrequests w) (lresets w) (laudit w))
  | VideoOp e => let r := video_handler _ e (lvideo w) in (r.1, with_lvideo r.2 w)
  | ResetViewers id => (tt,
      mkLWorld (ldb w) (lvideo w) (lrec w) (lfsfail w) (lfscalls w) (lrand w) (lrands w) (lingest w) (lrequests w) (id :: lresets w) (laudit w))
  | LiveAudit ev => (tt,
      mkLWorld (ldb w) (lvideo w) (lrec w) (lfsfail w) (lfscalls w) (lrand w) (lrands w) (lingest w) (lrequests w) (lresets w) (ev :: laudit w))
  end.

(** What goes on beside the service: time passes, recordings appear, accounts
    change (the rows of [live_streams] are the service's own). *)
Definition lclock w w' : Prop :=
  exists d v r,
    lrows d = lrows (store (ldb w)) /\ lchannels d = lchannels (store (ldb w)) /\ lgen d = lgen (store (ldb w)) /\
    ldrawn d = ldrawn (store (ldb w)) /\ lnow (store (ldb w)) <= lnow d /\
    w' = with_lrec r (with_lvideo v (with_ldb (Faulty d (faults (ldb w))) w)).

End Handler.
