(* ===== verification/Live.v ===== *)
(** * Live streams (src/internal/live: service.go, terminate.go, control.go,
    recording.go, retention.go)

    Stream metadata and keys, the publish and stop hooks of the media server,
    terminations by moderators, owners and the duration watchdog, the control
    endpoint of the media server, the recordings it leaves and their
    republication as videos. SHA-256 and [uuid.Parse] are parameters. *)
From S2P Require Import Prelude GoStrings Encoding Secretbox Storage MediaKeys MediaStore Transcode VideoStore Video Playback LiveStore.
Local Open Scope Z_scope.

(** ** Errors, inputs and results *)

Inductive lerr :=
| LErrNotFound | LErrInstanceLiveLimit | LErrUserLiveLimit | LErrOwnerBlocked | LErrNotLive | LErrInvalidTerminationReason
| LErrRandom | LErrDB (e : dberr).

#[global] Instance lerr_eq_dec : EqDecision lerr.
Proof. solve_decision. Defined.

Inductive cerr := ErrIngestControlUnavailable | ErrIngestNoPublisher.

#[global] Instance cerr_eq_dec : EqDecision cerr.
Proof. solve_decision. Defined.

Inductive recerr := ErrNoRecording | RecFS (e : fserr).

(** [live.Service]: its seams and what the settings readers report. *)
Record LiveService := mkLive {
  l_pipeline : bool; l_recordings : bool; l_root : bool; l_control : bool; l_auditor : bool;
  l_allowReplayFunc : option bool; l_maxInstanceLivesFunc : option Z; l_maxUserLivesFunc : option Z;
  l_maxDurationSecsFunc : option Z; l_recordingRetentionFunc : option duration;
}.

(** [Stream]: the row with its channel's owner and names where they are known. *)
Record Stream := mkSt { stRow : LiveStream; stChannel : option LChannel }.

Record LCreateInput := mkLCreate {
  lciScheduled : option time; lciTitle : string; lciDescription : string; lciPrivacy : string; lciPermanent : bool; lciReplay : bool;
}.

(** [TerminationSource]; the zero value is read as a moderator's. *)
Inductive TerminationSource := SourceUnset | SourceModerator | SourceOwner | SourceSystem.

#[global] Instance TerminationSource_eq_dec : EqDecision TerminationSource.
Proof. solve_decision. Defined.

Definition SystemReasonMaxDuration : string := "max_duration".
Definition maxTerminationReasonLen : nat := 1000.

(** [ActorID] is [None] for [uuid.Nil]. *)
Record TerminateInput := mkTerminate {
  tiSource : TerminationSource; tiActor : option uuid; tiRole : string; tiCode : string; tiReason : string;
}.

Record TerminateResult := mkTermResult {
  trStream : Stream; trKeyRotated : bool; trPublisherDropped : bool; trDroppedCount : Z; trDropError : option cerr;
  trControlConfigured : bool;
}.

(** [ValidTerminationReason] *)
Definition ValidTerminationReason (code : string) : bool := bool_decide (code ∈ TerminationReasons).

(** [auditAction] *)
Definition auditAction (src : TerminationSource) : string :=
  match src with
  | SourceOwner => "content.live.ended"
  | SourceSystem => "content.live.force_close"
  | SourceModerator | SourceUnset => "content.live.terminate"
  end.

(** [auditActorRole] *)
Definition auditActorRole (role : string) : string :=
  if bool_decide (role ∈ ["user"; "moderator"; "admin"]%string) then role else EmptyString.

(** ** Recordings *)

Definition recordingExts : list string := [".flv"; ".mp4"].

(** [filepath.Ext]: from the last full stop on (of a name without separators). *)
Definition path_Ext (name : string) : string :=
  match after_last dot name with Some t => String dot t | None => EmptyString end.

Definition backslash : ascii := Ascii.ascii_of_nat 92.

(** [strings.ContainsAny(name, "/\\")] *)
Definition has_separator (name : string) : bool := contains slash name || contains backslash name.

(** [recordingFile] *)
Definition recordingFile (name : string) : bool :=
  if bool_decide (name = EmptyString) || has_separator name then false
  else bool_decide (ToLower (path_Ext name) ∈ recordingExts).

(** [recordingBelongsToStream] *)
Definition recordingBelongsToStream (name : string) (id : uuid) : bool :=
  if bool_decide (name = EmptyString) || has_separator name then false
  else if negb (bool_decide (ToLower (path_Ext name) ∈ recordingExts)) then false
  else let base := TrimSuffix name (path_Ext name) in
       bool_decide (base = id) || HasPrefix base (id +:+ "-").

(** A recording found, with its modification time. *)
Record candidate := mkCandidate { cdName : string; cdMod : time }.

(** Newest first, ties by name, descending. *)
Definition newest_first (x y : candidate) : Prop :=
  cdMod y < cdMod x \/ cdMod x = cdMod y /\ String.leb (cdName y) (cdName x) = true.

#[global] Instance newest_first_dec : RelDecision newest_first.
Proof. intros x y. unfold newest_first. apply _. Defined.

Section Programs.
Context (s : LiveService) (vsv : VideoService) (ts : TranscodeService) (media_sha : list Byte.byte -> string).
Context (sha256_hex : string -> string) (uuid_Parse : string -> option uuid).
Abbreviation M A := (prog liveE A) (only parsing).

Definition pipeline {A} (p : prog videoE A) : M A := lift (@VideoOp) p.

(** [allowReplay], [maxInstanceLives], [maxUserLives], [maxDurationSecs],
    [recordingRetention] *)
Definition allowReplay : bool := default true (l_allowReplayFunc s).
Definition maxInstanceLives : Z := default 0 (l_maxInstanceLivesFunc s).
Definition maxUserLives : Z := default 0 (l_maxUserLivesFunc s).
Definition maxDurationSecs : Z := default 0 (l_maxDurationSecsFunc s).
Definition recordingRetention : duration :=
  match l_recordingRetentionFunc s with None => 0 | Some d => if d <? 0 then 0 else d end.

(** ** Keys *)

(** [hashStreamKey] *)
Definition hashStreamKey (raw : string) : string := sha256_hex raw.

(** [generateStreamKey] *)
Definition generateStreamKey : M (result lerr (string * string)) :=
  r ← call LRandom;
  mret (match r with
        | None => Err LErrRandom
        | Some b => let raw := base64_rawurl b in Ok (raw, hashStreamKey raw)
        end).

(** ** Metadata *)

Definition default_privacy (p : string) : string := if bool_decide (p = EmptyString) then "public"%string else p.

(** [Service.Create] *)
Definition Create (channelID : uuid) (i : LCreateInput) : M (result lerr (Stream * string)) :=
  k ← generateStreamKey;
  match k with
  | Err e => mret (Err e)
  | Ok (rawKey, hash) =>
      r ← call (CreateLiveStream (mkCreate channelID (lciTitle i) (lciDescription i) (default_privacy (lciPrivacy i))
            (lciPermanent i) (lciReplay i) hash (lciScheduled i)));
      mret (match r with Err e => Err (LErrDB e) | Ok row => Ok (mkSt row None, rawKey) end)
  end.

(** [Service.Update] *)
Definition Update (id : uuid) (p : EditParams) : M (result lerr Stream) :=
  r ← call (UpdateLiveStream id (mkEdit (epTitle p) (epDescription p) (default_privacy (epPrivacy p)) (epPermanent p) (epReplay p) (epScheduled p)));
  mret (match r with Err _ => Err LErrNotFound | Ok row => Ok (mkSt row None) end).

(** [Service.Get] *)
Definition Get (id : uuid) : M (result lerr Stream) :=
  r ← call (GetLiveStreamByID id);
  mret (match r with Err _ => Err LErrNotFound | Ok (row, ch) => Ok (mkSt row (Some ch)) end).

(** [Service.ListByChannel] *)
Definition ListByChannel (ch : uuid) (limit offset : Z) : M (result lerr (list Stream * Z)) :=
  r ← call (ListLiveStreamsByChannel ch limit offset);
  match r with
  | Err e => mret (Err (LErrDB e))
  | Ok rows =>
      n ← call (CountLiveStreamsByChannel ch);
      mret (match n with Err e => Err (LErrDB e) | Ok total => Ok (map (fun row => mkSt row None) rows, total) end)
  end.

(** [Service.ListLivePublic]; [viewer] is [None] for an anonymous caller. *)
Definition ListLivePublic (viewer : option uuid) (limit offset : Z) : M (result lerr (list Stream * Z)) :=
  r ← call (ListLivePublicStreams viewer (int32 limit) (int32 offset));
  match r with
  | Err e => mret (Err (LErrDB e))
  | Ok rows =>
      n ← call (CountLivePublicStreams viewer);
      mret (match n with Err e => Err (LErrDB e) | Ok total => Ok (map (fun rc => mkSt rc.1 (Some rc.2)) rows, total) end)
  end.

(** [Service.ListUpcoming] *)
Definition ListUpcoming (viewer : option uuid) (channelHandle : string) (limit offset : Z) : M (result lerr (list Stream * Z)) :=
  let handle := if bool_decide (channelHandle = EmptyString) then None else Some channelHandle in
  r ← call (ListUpcomingLiveStreams handle viewer (int32 limit) (int32 offset));
  match r with
  | Err e => mret (Err (LErrDB e))
  | Ok rows =>
      n ← call (CountUpcomingLiveStreams handle viewer);
      mret (match n with Err e => Err (LErrDB e) | Ok total => Ok (map (fun rc => mkSt rc.1 (Some rc.2)) rows, total) end)
  end.

(** [Service.RegenerateKey] *)
Definition RegenerateKey (id : uuid) : M (result lerr string) :=
  k ← generateStreamKey;
  match k with
  | Err e => mret (Err e)
  | Ok (rawKey, hash) =>
      r ← call (UpdateLiveStreamKey id hash);
      mret (match r with Err e => Err (LErrDB e) | Ok _ => Ok rawKey end)
  end.

(** [Service.Delete] *)
Definition Delete (id : uuid) : M (option lerr) :=
  r ← call (DeleteLiveStream id); mret (match r with Err e => Some (LErrDB e) | Ok _ => None end).

(** ** The ingest hooks *)

(** One cap of [checkLiveCaps]: 0 is no limit. *)
Definition check_cap (limit : Z) (count : liveE (result dberr Z)) (refusal : lerr) : M (option lerr) :=
  if limit <=? 0 then mret None else
  n ← call count;
  mret (match n with Err e => Some (LErrDB e) | Ok n => if limit <=? n then Some refusal else None end).

(** [checkLiveCaps] *)
Definition checkLiveCaps (ownerID : uuid) : M (option lerr) :=
  c ← check_cap maxInstanceLives CountLiveStreamsLive LErrInstanceLiveLimit;
  match c with
  | Some e => mret (Some e)
  | None => check_cap maxUserLives (CountLiveStreamsLiveByOwner ownerID) LErrUserLiveLimit
  end.

(** [Service.StartByIdentity] *)
Definition StartByIdentity (ident : string) : M (result lerr (uuid * bool)) :=
  match uuid_Parse ident with
  | Some parsed =>
      r ← call (GetLiveStreamByID parsed);
      mret (match r with
            | Ok (row, _) => if bool_decide (lsState row = StateLive) then Ok (parsed, false) else Err LErrNotFound
            | Err _ => Err LErrNotFound
            end)
  | None =>
      r ← call (GetLiveStreamByKeyHash (hashStreamKey ident));
      match r with
      | Err _ => mret (Err LErrNotFound)
      | Ok row =>
          if negb (krOwnerActive row) then mret (Err LErrOwnerBlocked) else
          c ← (if bool_decide (krState row = StateLive) then mret None else checkLiveCaps (krOwner row));
          match c with
          | Some e => mret (Err e)
          | None =>
              u ← call (SetLiveStreamState (krID row) StateLive);
              mret (match u with Err e => Err (LErrDB e) | Ok _ => Ok (krID row, true) end)
          end
      end
  end.

(** [Service.StartIngest] *)
Definition StartIngest (rawKey : string) : M (result lerr uuid) :=
  r ← StartByIdentity rawKey; mret (match r with Err e => Err e | Ok (id, _) => Ok id end).

(** Where a session of this stream ends. *)
Definition next_state (permanent : bool) : lstate := if permanent then StateOffline else StateEnded.

(** [StopByIdentity]: the stream an identity names. *)
Definition stop_target (ident : string) : M (result lerr Stream) :=
  byID ← match uuid_Parse ident with
         | Some id => g ← Get id; mret (match g with Ok st => Some st | Err _ => None end)
         | None => mret None
         end;
  match byID with
  | Some st => mret (Ok st)
  | None =>
      r ← call (GetLiveStreamByKeyHash (hashStreamKey ident));
      match r with
      | Err _ => mret (Err LErrNotFound)
      | Ok row => g ← Get (krID row); mret (match g with Ok st => Ok st | Err _ => Err LErrNotFound end)
      end
  end.

(** [Service.StopByIdentity]; the returned stream carries the new state. *)
Definition StopByIdentity (ident : string) : M (result lerr (Stream * lstate)) :=
  t ← stop_target ident;
  match t with
  | Err e => mret (Err e)
  | Ok st =>
      let next := next_state (lsPermanent (stRow st)) in
      u ← call (SetLiveStreamState (lsID (stRow st)) next);
      mret (match u with Err e => Err (LErrDB e) | Ok _ => Ok (st, next) end)
  end.

(** [Service.StopIngest] *)
Definition StopIngest (rawKey : string) : M (result lerr uuid) :=
  r ← StopByIdentity rawKey; mret (match r with Err e => Err e | Ok (st, _) => Ok (lsID (stRow st)) end).

(** ** The control endpoint of the media server *)

(** [HTTPIngestController.DropPublisher]: [strconv.Atoi] of the trimmed body is
    the number of connections closed. *)
Definition drop_outcome (resp : option (Z * string)) : Z * option cerr :=
  match resp with
  | None => (0, Some ErrIngestControlUnavailable)
  | Some (status, body) =>
      if status =? 404 then (0, Some ErrIngestNoPublisher)
      else if (200 <=? status) && (status <? 300) then
        match ParseInt (TrimSpace (take_string 256 body)) with
        | None => (0, Some ErrIngestControlUnavailable)
        | Some n => if n <? 0 then (0, Some ErrIngestControlUnavailable)
                    else if n =? 0 then (0, Some ErrIngestNoPublisher) else (n, None)
        end
      else (0, Some ErrIngestControlUnavailable)
  end.

Definition DropPublisher (streamName : string) : M (Z * option cerr) :=
  resp ← call (ControlGet "/control/drop/publisher" [("app", "live"); ("name", streamName)]%string);
  mret (drop_outcome resp).

(** [HTTPIngestController.Probe] *)
Definition ProbeIngest : M (option cerr) :=
  resp ← call (ControlGet "/stat" []);
  mret (match resp with
        | None => Some ErrIngestControlUnavailable
        | Some (status, _) => if (status <? 200) || (300 <=? status) then Some ErrIngestControlUnavailable else None
        end).

(** ** Termination *)

Definition moderator (src : TerminationSource) : bool := bool_decide (src = SourceModerator).

(** [writeTerminatedState] *)
Definition writeTerminatedState (id : uuid) (next : lstate) (i : TerminateInput) (src : TerminationSource) (code reason : string) : M (result dberr unit) :=
  if bool_decide (src = SourceSystem) then call (SetLiveStreamState id next)
  else call (TerminateLiveStream id next
         (if moderator src then tiActor i else None)
         (if moderator src && negb (bool_decide (code = EmptyString)) then Some code else None) reason).

(** The reason of the audit row. *)
Definition audit_reason (code : string) (res : TerminateResult) : string :=
  (if bool_decide (code = EmptyString) then "owner_ended" else code) +:+
  (if trControlConfigured res && bool_decide (trDropError res = Some ErrIngestNoPublisher) then " no_publisher"
   else if negb (trPublisherDropped res) then " publisher_not_dropped" else EmptyString) +:+
  (if negb (trKeyRotated res) then " key_not_rotated" else EmptyString).

(** [auditTerminate] *)
Definition auditTerminate (id : uuid) (i : TerminateInput) (src : TerminationSource) (code : string) (res : TerminateResult) : M unit :=
  if negb (l_auditor s) then mret tt else
  call (LiveAudit (mkEvent (auditAction src) "success"
    (if bool_decide (src = SourceSystem) then None else (fun a => (a, auditActorRole (tiRole i))) <$> tiActor i)
    id (audit_reason code res) (if trControlConfigured res then Some (trDroppedCount res) else None))).

(** The drop of [Terminate]: what it reports. *)
Definition drop_publisher (id : uuid) : M (bool * Z * option cerr) :=
  if negb (l_control s) then mret (false, 0, None) else
  d ← DropPublisher id;
  let '(n, derr) := d in
  let derr := match derr with None => if n <=? 0 then Some ErrIngestNoPublisher else None | e => e end in
  mret (bool_decide (derr = None), n, derr).

(** [Service.Terminate] *)
Definition Terminate (id : uuid) (i : TerminateInput) : M (result lerr TerminateResult) :=
  g ← Get id;
  match g with
  | Err e => mret (Err e)
  | Ok st =>
      if negb (bool_decide (lsState (stRow st) = StateLive)) then mret (Err LErrNotLive) else
      let src := match tiSource i with SourceUnset => SourceModerator | src => src end in
      let code := TrimSpace (tiCode i) in
      if negb (bool_decide (src = SourceSystem)) && negb (bool_decide (code = EmptyString)) && negb (ValidTerminationReason code)
      then mret (Err LErrInvalidTerminationReason) else
      let reason := TrimSpace (tiReason i) in
      let reason := if (maxTerminationReasonLen <? String.length reason)%nat then take_string maxTerminationReasonLen reason else reason in
      u ← writeTerminatedState id (next_state (lsPermanent (stRow st))) i src code reason;
      match u with
      | Err e => mret (Err (LErrDB e))
      | Ok _ =>
          k ← RegenerateKey id;
          d ← drop_publisher id;
          let '(dropped, n, derr) := d in
          let res := mkTermResult st (match k with Ok _ => true | Err _ => false end) dropped n derr (l_control s) in
          _ ← call (ResetViewers id);
          _ ← auditTerminate id i src code res;
          mret (Ok res)
      end
  end.

(** ** The duration watchdog *)

(** The loop of [SweepOverdueLive]. *)
Fixpoint sweep_each (rows : list LiveStream) (closed : Z) : M Z :=
  match rows with
  | [] => mret closed
  | r :: rest =>
      t ← Terminate (lsID r) (mkTerminate SourceSystem None EmptyString SystemReasonMaxDuration EmptyString);
      sweep_each rest (match t with Ok _ => closed + 1 | Err _ => closed end)
  end.

(** [Service.SweepOverdueLive] *)
Definition SweepOverdueLive : M (result lerr Z) :=
  if maxDurationSecs <=? 0 then mret (Ok 0) else
  now ← call LNow;
  let cutoff := now + int64 (- maxDurationSecs * Second) in
  r ← call (ListOverdueLiveStreams cutoff);
  match r with
  | Err e => mret (Err (LErrDB e))
  | Ok rows => n ← sweep_each rows 0; mret (Ok n)
  end.

(** ** Recordings *)

(** The candidates of [OpenRecording] and [PruneRecordings] among the entries:
    files that pass [keep], with their modification times. *)
Fixpoint stat_each (keep : string -> bool) (entries : list (string * bool)) : M (list candidate) :=
  match entries with
  | [] => mret []
  | (name, isDir) :: rest =>
      if isDir || negb (keep name) then stat_each keep rest else
      i ← call (FileInfo name);
      cs ← stat_each keep rest;
      mret (match i with Err _ => cs | Ok t => mkCandidate name t :: cs end)
  end.

(** [DirRecordingStore.OpenRecording] *)
Definition OpenRecording (id : uuid) : M (result recerr (reader * string)) :=
  if negb (l_root s) then mret (Err ErrNoRecording) else
  e ← call ReadDir;
  match e with
  | Err FsNotExist => mret (Err ErrNoRecording)
  | Err x => mret (Err (RecFS x))
  | Ok entries =>
      cs ← stat_each (fun name => recordingBelongsToStream name id) entries;
      match merge_sort newest_first cs with
      | [] => mret (Err ErrNoRecording)
      | c :: _ =>
          f ← call (OpenFile (cdName c));
          mret (match f with
                | Err FsNotExist => Err ErrNoRecording
                | Err x => Err (RecFS x)
                | Ok rc => Ok (rc, cdName c)
                end)
      end
  end.

(** [DirRecordingStore.RemoveRecording] *)
Definition RemoveRecording (id : uuid) (filename : string) : M (option recerr) :=
  if negb (l_root s) then mret None
  else if negb (recordingBelongsToStream filename id) then mret (Some ErrNoRecording)
  else r ← call (RemoveFile filename);
       mret (match r with Err FsNotExist => None | Err x => Some (RecFS x) | Ok _ => None end).

(** The unlinks of [PruneRecordings]. *)
Fixpoint remove_all (cs : list candidate) (removed : Z) : M Z :=
  match cs with
  | [] => mret removed
  | c :: rest =>
      r ← call (RemoveFile (cdName c));
      remove_all rest (match r with Err FsOther => removed | _ => removed + 1 end)
  end.

Definition oldest_first : candidate -> candidate -> Prop := by_key cdMod.

(** [DirRecordingStore.PruneRecordings] *)
Definition DirPruneRecordings (cutoff : time) (batch : Z) : M (result recerr Z) :=
  if negb (l_root s) || (batch <=? 0) then mret (Ok 0) else
  e ← call ReadDir;
  match e with
  | Err FsNotExist => mret (Ok 0)
  | Err x => mret (Err (RecFS x))
  | Ok entries =>
      cs ← stat_each recordingFile entries;
      let stale := merge_sort (by_key cdMod) (filter (fun c => cdMod c < cutoff) cs) in
      n ← remove_all (take (Z.to_nat batch) stale) 0;
      mret (Ok n)
  end.

Definition recordingPruneBatch : Z := 200.

(** [Service.PruneRecordings] *)
Definition PruneRecordings (now : time) : M (result recerr Z) :=
  if (recordingRetention =? 0) || negb (l_recordings s) then mret (Ok 0)
  else DirPruneRecordings (now + int64 (- recordingRetention)) recordingPruneBatch.

(** ** Replay *)

Definition replayTitleSuffix : string := " (replay)".

(** [Service.audit] *)
Definition audit (id : uuid) (result reason : string) : M unit :=
  if negb (l_auditor s) then mret tt else call (LiveAudit (mkEvent "content.live.replay" result None id reason None)).

(** [replayFailed] *)
Definition replayFailed (id : uuid) (stage : string) : M unit := audit id "failure" ("stage=" +:+ stage).

Definition replay_title (title : string) : string :=
  if bool_decide (TrimSpace title = EmptyString) then "Live replay" else TrimSpace title +:+ replayTitleSuffix.

(** The draft of [RunReplay]. *)
Definition replay_input (row : LiveStream) : CreateInput :=
  mkCreateInput (replay_title (lsTitle row)) (lsDescription row) (lsPrivacy row) EmptyString EmptyString EmptyString None [] None false []
    EmptyString EmptyString None false.

(** [Service.RunReplay] *)
Definition RunReplay (id : uuid) : M unit :=
  if negb (l_pipeline s) || negb (l_recordings s) || negb allowReplay then mret tt else
  g ← Get id;
  match g with
  | Err _ => mret tt
  | Ok st =>
      let row := stRow st in
      if negb (lsReplay row) then mret tt else
      o ← OpenRecording id;
      match o with
      | Err ErrNoRecording => mret tt
      | Err _ => replayFailed id "open_recording"
      | Ok (rc, filename) =>
          d ← pipeline (CreateDraft vsv (lsChannel row) (replay_input row));
          match d with
          | Err _ => replayFailed id "create_draft"
          | Ok draft =>
              a ← pipeline (AttachOriginal vsv media_sha (default uuid_Nil (lcOwner <$> stChannel st)) (vID draft) (mkUploadInput filename EmptyString rc));
              match a with
              | Err _ => replayFailed id "attach_original"
              | Ok (_, file) =>
                  p ← pipeline (Process vsv ts media_sha (vID draft) (vfKey file));
                  match p with
                  | Err _ | Ok (Rejected _ _) => replayFailed id "process"
                  | Ok (Processed _) =>
                      _ ← audit id "success" ("video=" +:+ vID draft);
                      if recordingRetention =? 0 then _ ← RemoveRecording id filename; mret tt else mret tt
                  end
              end
          end
      end
  end.

(** [handleLiveIngestStop] behind the ingest secret: the stop, the viewer set
    of the session, and the replay after the answer. *)
Definition handleLiveIngestStop (ident : string) : M (result lerr unit) :=
  r ← StopByIdentity ident;
  match r with
  | Err e => mret (Err LErrNotFound)
  | Ok (st, _) =>
      _ ← call (ResetViewers (lsID (stRow st)));
      _ ← (if lsReplay (stRow st) then RunReplay (lsID (stRow st)) else mret tt);
      mret (Ok tt)
  end.

End Programs.
