(* ===== verification/LiveSafety.v ===== *)
(** * What live streaming guarantees

    Well-formed rows under every interleaving; a stream goes on air only for
    who holds its current key, so that a termination that rotated the key is
    final for everyone else; what each way of ending a broadcast leaves behind;
    and the executions in which the service does less than its comments say. *)
From S2P Require Import Prelude Interleave GoStrings Encoding Storage MediaStore Transcode VideoStore Video VideoSafety LiveStore Live.
Local Open Scope Z_scope.

(** ** Requests *)

(** What the HTTP layer, the media server's hooks and the background loops ask
    of the service; [s] is the configuration at that moment. *)
Inductive lrequest :=
| RCreate (channel : uuid) (i : LCreateInput)
| RUpdate (id : uuid) (p : EditParams)
| RRegenerateKey (id : uuid)
| RDelete (id : uuid)
| RStart (ident : string)
| RStop (ident : string)
| RTerminate (id : uuid) (i : TerminateInput)
| RSweep
| RReplay (id : uuid)
| RPrune (now : time)
| RListChannel (ch : uuid) (limit offset : Z)
| RListLive (viewer : option uuid) (limit offset : Z)
| RListUpcoming (viewer : option uuid) (handle : string) (limit offset : Z).

Section Requests.
Context (vsv : VideoService) (ts : TranscodeService) (media_sha : list Byte.byte -> string).
Context (sha256_hex : string -> string) (uuid_Parse : string -> option uuid).

Definition perform (rq : LiveService * lrequest) : prog liveE unit :=
  let s := rq.1 in
  match rq.2 with
  | RCreate channel i => _ ← Create sha256_hex channel i; mret tt
  | RUpdate id p => _ ← Update id p; mret tt
  | RRegenerateKey id => _ ← RegenerateKey sha256_hex id; mret tt
  | RDelete id => _ ← Delete id; mret tt
  | RStart ident => _ ← StartByIdentity s sha256_hex uuid_Parse ident; mret tt
  | RStop ident => _ ← handleLiveIngestStop s vsv ts media_sha sha256_hex uuid_Parse ident; mret tt
  | RTerminate id i => _ ← Terminate s sha256_hex id i; mret tt
  | RSweep => _ ← SweepOverdueLive s sha256_hex; mret tt
  | RReplay id => RunReplay s vsv ts media_sha id
  | RPrune now => _ ← PruneRecordings s now; mret tt
  | RListChannel ch limit offset => _ ← ListByChannel ch limit offset; mret tt
  | RListLive viewer limit offset => _ ← ListLivePublic viewer limit offset; mret tt
  | RListUpcoming viewer handle limit offset => _ ← ListUpcoming viewer handle limit offset; mret tt
  end.

End Requests.

(** ** Rows *)

(** On air, a stream has a start and no plan and no termination; off air it has
    no start; a reason code is one of the eight and comes with its time. *)
Record row_ok (id : uuid) (st : LiveStream) : Prop := {
  ok_id : lsID st = id;
  ok_on_air : lsState st = StateLive ->
    is_Some (lsStartedAt st) /\ lsScheduled st = None /\ lsTermAt st = None /\ lsTermBy st = None /\ lsTermCode st = None /\
    lsTermReason st = EmptyString;
  ok_off_air : lsState st <> StateLive -> lsStartedAt st = None;
  ok_code : forall c, lsTermCode st = Some c -> c ∈ TerminationReasons /\ is_Some (lsTermAt st);
}.

(** Keys are unique. *)
Definition streams_ok (m : gmap uuid LiveStream) : Prop :=
  map_Forall row_ok m /\ forall i j a b, m !! i = Some a -> m !! j = Some b -> lsKeyHash a = lsKeyHash b -> i = j.

Lemma streams_ok_alter id f (m : gmap uuid LiveStream) :
  streams_ok m ->
  (forall st, m !! id = Some st -> row_ok id st -> row_ok id (f st) /\
     (lsKeyHash (f st) = lsKeyHash st \/ key_free id (lsKeyHash (f st)) m = true)) ->
  streams_ok (alter f id m).
Proof.
  intros [Hr Hk] Hf. destruct (m !! id) as [st|] eqn:Hid; [|by rewrite alter_id by (intros x Hx; congruence)].
  destruct (Hf st eq_refl (Hr id st Hid)) as [Hok Hkey]. replace (alter f id m) with (<[id := f st]> m) by
    (apply map_eq; intros j; destruct (decide (j = id)) as [->|]; [by rewrite lookup_insert, lookup_alter, Hid|by rewrite lookup_insert_ne, lookup_alter_ne by done]).
  assert (Hkey' : forall j b, j <> id -> m !! j = Some b -> lsKeyHash b <> lsKeyHash (f st)).
  { intros j b Hne Hj He. destruct Hkey as [Hs|Hfree].
    - apply Hne. apply (Hk j id b st Hj Hid). congruence.
    - unfold key_free in Hfree. bools. by destruct (Hfree j b Hj). }
  split.
  - intros j a [[<- <-]|[? Hj]]%lookup_insert_Some; [done|by apply Hr].
  - intros i j a b [[<- <-]|[Hi Ha]]%lookup_insert_Some [[<- <-]|[Hj Hb]]%lookup_insert_Some He; try done.
    + by destruct (Hkey' j b (not_eq_sym Hj) Hb).
    + by destruct (Hkey' i a (not_eq_sym Hi) Ha).
    + by apply (Hk i j a b).
Qed.

Lemma streams_ok_insert id st (m : gmap uuid LiveStream) :
  streams_ok m -> m !! id = None -> row_ok id st -> key_free id (lsKeyHash st) m = true -> streams_ok (<[id := st]> m).
Proof.
  intros [Hr Hk] Hid Hok Hfree. unfold key_free in Hfree. bools. split.
  - by apply map_Forall_insert_2.
  - intros i j a b [[<- <-]|[Hi Ha]]%lookup_insert_Some [[<- <-]|[Hj Hb]]%lookup_insert_Some He; try done.
    + by destruct (Hfree j b Hb); subst.
    + by destruct (Hfree i a Ha); subst.
    + by apply (Hk i j a b).
Qed.

Lemma streams_ok_delete id (m : gmap uuid LiveStream) : streams_ok m -> streams_ok (delete id m).
Proof.
  intros [Hr Hk]. split; [by apply map_Forall_delete|]. intros i j a b [_ Ha]%lookup_delete_Some [_ Hb]%lookup_delete_Some. by apply Hk.
Qed.

Lemma row_ok_state next t id st : row_ok id st -> row_ok id (state_set next t st).
Proof.
  intros [Hid Hon Hoff Hc]. unfold state_set. destruct next; cbn; constructor; cbn; try done; intros _; split_and!; try done.
  repeat case_bool_decide; try done; by apply Hon.
Qed.

Lemma row_ok_terminated next by_ code reason t id st :
  next <> StateLive -> (forall c, code = Some c -> c ∈ TerminationReasons) -> row_ok id st -> row_ok id (terminated next by_ code reason t st).
Proof. intros Hn Hc [Hid _ _ _]. constructor; cbn; try done. intros c He. split; [by apply Hc|eauto]. Qed.

(** ** Every operation keeps the rows well-formed *)

(** A termination never puts a stream on air. *)
Definition takes_down (X : Type) (e : liveE X) : Prop :=
  match e with TerminateLiveStream _ next _ _ _ => next <> StateLive | _ => True end.

Section Rows.
Context {B : Type} `{Backend B, !Lister B}.
Implicit Types (w : lworld B).

Abbreviation rows w := (lrows (store (ldb w))) (only parsing).

Lemma create_ok p d : streams_ok (lrows d) -> streams_ok (lrows (q_CreateLiveStream p d).2).
Proof.
  intros Hok. unfold q_CreateLiveStream. case_match; [done|]. case_match; [done|]. bools. cbn.
  apply streams_ok_insert; [done|by apply eq_None_not_Some|by constructor|done].
Qed.

Lemma update_key_ok id hash d : streams_ok (lrows d) -> streams_ok (lrows (q_UpdateLiveStreamKey id hash d).2).
Proof.
  intros Hok. unfold q_UpdateLiveStreamKey. case_match; [done|]. case_match; [done|]. bools. cbn.
  apply streams_ok_alter; [done|]. intros st _ [Hi Hon Hoff Hc]. split; [by constructor|]. by right.
Qed.

Lemma update_ok id p d : streams_ok (lrows d) -> streams_ok (lrows (q_UpdateLiveStream id p d).2).
Proof.
  intros Hok. unfold q_UpdateLiveStream. case_match; [|done]. case_match; [done|]. cbn.
  apply streams_ok_alter; [done|]. intros st _ [Hi Hon Hoff Hc]. split; [|by left].
  constructor; cbn; try done. intros Hl. destruct (Hon Hl) as (? & _ & ? & ? & ? & ?). by rewrite bool_decide_eq_true_2.
Qed.

Lemma terminate_ok id next by_ code reason d :
  next <> StateLive -> streams_ok (lrows d) -> streams_ok (lrows (q_TerminateLiveStream id next by_ code reason d).2).
Proof.
  intros Hn Hok. unfold q_TerminateLiveStream. case_match; [done|]. case_match eqn:Hc; [done|]. bools. cbn.
  apply streams_ok_alter; [done|]. intros st _ Hst. split; [|by left]. apply row_ok_terminated; [done| |done].
  intros c ->. by bools.
Qed.

Lemma rows_step X (e : liveE X) w : takes_down X e -> streams_ok (rows w) -> streams_ok (rows (live_handler X e w).2).
Proof.
  intros He Hok. destruct e; cbn [live_handler on_live snd ldb with_ldb with_lvideo store]; try done;
    try (apply (exec_invariant _ (fun d => streams_ok (lrows d))); [|done]; intros d Hd); try done.
  - by apply create_ok.
  - by apply update_key_ok.
  - by apply update_ok.
  - by apply streams_ok_delete.
  - cbn. apply streams_ok_alter; [done|]. intros st _ Hst. split; [by apply row_ok_state|by left].
  - by apply terminate_ok.
  - unfold on_files. by case_match.
  - unfold on_files. by case_match.
  - unfold on_files. by case_match.
  - unfold on_files. by case_match.
Qed.

Lemma rows_clock w w' : lclock w w' -> rows w' = rows w.
Proof. by intros (d & v & r & Hd & _ & _ & _ & _ & ->). Qed.

End Rows.

(** ** The service's programs *)

Section Programs.
Context (vsv : VideoService) (ts : TranscodeService) (media_sha : list Byte.byte -> string).
Context (sha256_hex : string -> string) (uuid_Parse : string -> option uuid).
Implicit Types (s : LiveService).

Lemma ops_pipeline {A} (P : forall X, liveE X -> Prop) (p : prog videoE A) :
  (forall X (e : videoE X), P X (VideoOp e)) -> ops P (pipeline p).
Proof. intros HP. induction p as [a|X e k IH]; [exact I|]. split; [apply HP|exact IH]. Qed.

(** Operations that leave the rows of [live_streams] alone, or edit what does
    not concern the air. *)
Definition quiet (X : Type) (e : liveE X) : Prop :=
  match e with
  | CreateLiveStream _ | UpdateLiveStreamKey _ _ | SetLiveStreamState _ _ | TerminateLiveStream _ _ _ _ _ => False
  | _ => True
  end.

Lemma quiet_takes_down {A} (p : prog liveE A) : ops quiet p -> ops takes_down p.
Proof. induction p as [a|X e k IH]; [done|]. intros [He Hk]. split; [by destruct e|]. auto. Qed.

Lemma quiet_stat keep entries : ops quiet (stat_each keep entries).
Proof. induction entries as [|[name isDir] rest IH]; cbn [stat_each]; walk_ops; exact IH || exact I. Qed.

Lemma quiet_remove_all cs n : ops quiet (remove_all cs n).
Proof. revert n. induction cs as [|c cs IH]; intros n; cbn [remove_all]; walk_ops; apply IH || exact I. Qed.

Lemma quiet_open s id : ops quiet (OpenRecording s id).
Proof. unfold OpenRecording. walk_ops; try exact I; apply quiet_stat. Qed.

Lemma quiet_prune s now : ops quiet (PruneRecordings s now).
Proof. unfold PruneRecordings, DirPruneRecordings. walk_ops; try exact I; [apply quiet_stat|apply quiet_remove_all]. Qed.

Lemma quiet_replay s id : ops quiet (RunReplay s vsv ts media_sha id).
Proof.
  unfold RunReplay, Get, replayFailed, audit, RemoveRecording.
  repeat first [apply quiet_open | (apply ops_pipeline; by intros) | apply ops_bind; [|intro] | apply ops_call | exact I | case_match | progress intros]; exact I.
Qed.

Lemma next_off_air b : next_state b <> StateLive.
Proof. by destruct b. Qed.

Lemma takes_down_terminate s id i : ops takes_down (Terminate s sha256_hex id i).
Proof.
  unfold Terminate, Get, writeTerminatedState, RegenerateKey, generateStreamKey, drop_publisher, DropPublisher, auditTerminate.
  walk_ops; try exact I; apply next_off_air.
Qed.

Lemma takes_down_sweep_each s rows n : ops takes_down (sweep_each s sha256_hex rows n).
Proof.
  revert n. induction rows as [|r rows IH]; intros n; cbn [sweep_each]; [exact I|].
  apply ops_bind; [apply takes_down_terminate|]. intros t. apply IH.
Qed.

Lemma takes_down_perform rq : ops takes_down (perform vsv ts media_sha sha256_hex uuid_Parse rq).
Proof.
  destruct rq as [s []]; cbn [perform fst snd]; try (apply ops_bind; [|done]).
  - unfold Create, generateStreamKey. walk_ops; exact I.
  - unfold Update. walk_ops; exact I.
  - unfold RegenerateKey, generateStreamKey. walk_ops; exact I.
  - unfold Delete. walk_ops; exact I.
  - unfold StartByIdentity, checkLiveCaps, check_cap. walk_ops; exact I.
  - unfold handleLiveIngestStop, StopByIdentity, stop_target, Get.
    repeat first [apply quiet_takes_down, quiet_replay | apply ops_bind; [|intro] | apply ops_call | exact I | case_match | progress intros]; exact I.
  - apply takes_down_terminate.
  - unfold SweepOverdueLive. walk_ops; try exact I. apply takes_down_sweep_each.
  - apply quiet_takes_down, quiet_replay.
  - apply quiet_takes_down, quiet_prune.
  - unfold ListByChannel. walk_ops; exact I.
  - unfold ListLivePublic. walk_ops; exact I.
  - unfold ListUpcoming. walk_ops; exact I.
Qed.

End Programs.

(** ** Off the air without the key *)

(** The identity a request presents as a stream key. *)
Definition presented (rq : LiveService * lrequest) : option string := match rq.2 with RStart ident => Some ident | _ => None end.

Section OffAir.
Context {B : Type} `{Backend B, !Lister B}.
Context (vsv : VideoService) (ts : TranscodeService) (media_sha : list Byte.byte -> string).
Context (sha256_hex : string -> string) (uuid_Parse : string -> option uuid).
Context (id : uuid) (ks : list string).
Implicit Types (w : lworld B) (s : LiveService).

(** The stream is off the air; neither its key nor one still to be drawn is
    among the hashes [ks]. *)
Definition off_air w : Prop :=
  map_Forall (fun i st => lsID st = i) (lrows (store (ldb w))) /\
  (forall st, lrows (store (ldb w)) !! id = Some st -> lsState st <> StateLive /\ lsKeyHash st ∉ ks) /\
  (forall n b, (lrands w <= n)%nat -> lrand w n = Some b -> hashStreamKey sha256_hex (base64_rawurl b) ∉ ks).

(** Operations that cannot put the stream on air by themselves. *)
Definition harmless (X : Type) (e : liveE X) : Prop :=
  match e with
  | CreateLiveStream p => cpHash p ∉ ks
  | UpdateLiveStreamKey _ hash => hash ∉ ks
  | SetLiveStreamState i next => i = id -> next <> StateLive
  | TerminateLiveStream _ next _ _ _ => next <> StateLive
  | _ => True
  end.

Definition off_rows (m : gmap uuid LiveStream) : Prop :=
  map_Forall (fun i st => lsID st = i) m /\ forall st, m !! id = Some st -> lsState st <> StateLive /\ lsKeyHash st ∉ ks.

Lemma off_rows_alter i f (m : gmap uuid LiveStream) :
  (forall st, lsID (f st) = lsID st) ->
  (forall st, i = id -> lsState st <> StateLive /\ lsKeyHash st ∉ ks -> lsState (f st) <> StateLive /\ lsKeyHash (f st) ∉ ks) ->
  off_rows m -> off_rows (alter f i m).
Proof.
  intros Hid Hf [Hi Ho]. split.
  - intros j st Hj. apply lookup_alter_Some in Hj as [(<- & st' & Hj & ->)|[_ Hj]]; [rewrite Hid|]; by apply Hi.
  - intros st Hj. apply lookup_alter_Some in Hj as [(-> & st' & Hj & ->)|[_ Hj]]; [apply Hf|]; auto.
Qed.

Lemma off_rows_stmt {A} (q : LiveDB -> result dberr A * LiveDB) w :
  (forall d, off_rows (lrows d) -> off_rows (lrows (q d).2)) -> off_air w -> off_air (on_live q w).2.
Proof.
  intros Hq (Hi & Ho & Hr). cbn. assert (Hoff : off_rows (lrows (store (exec q (ldb w)).2))).
  { apply (exec_invariant q (fun d => off_rows (lrows d))); [exact Hq|by split]. }
  destruct Hoff as [Hi' Ho']. by split_and!.
Qed.

Lemma off_air_step X (e : liveE X) w : harmless X e -> off_air w -> off_air (live_handler X e w).2.
Proof.
  intros He Hw. destruct e; cbn [live_handler]; try (apply off_rows_stmt; [|exact Hw]; intros d Hd); try exact Hd; try exact Hw; cbn in He.
  - unfold q_CreateLiveStream. repeat case_match; try exact Hd. destruct Hd as [Hi Ho]. split; cbn.
    + by apply map_Forall_insert_2.
    + intros st [[Hj <-]|[_ Hj]]%lookup_insert_Some; [done|by apply Ho].
  - unfold q_UpdateLiveStreamKey. repeat case_match; try exact Hd. apply off_rows_alter; [done| |exact Hd]. by intros st _ [? _].
  - unfold q_UpdateLiveStream. repeat case_match; try exact Hd. by apply off_rows_alter.
  - destruct Hd as [Hi Ho]. split; cbn; [by apply map_Forall_delete|]. intros st [_ Hj]%lookup_delete_Some. by apply Ho.
  - apply off_rows_alter; [done| |exact Hd]. intros st Heq [_ Hk]. split; [cbn; auto|done].
  - unfold q_TerminateLiveStream. destruct (bool_decide _); [exact Hd|]. destruct (_ || _); [exact Hd|]. apply off_rows_alter; [done| |exact Hd]. by intros st _ [_ ?].
  - destruct Hw as (Hi & Ho & Hr). split_and!; try done. cbn. intros n b Hn. apply Hr. lia.
  - unfold on_files. by case_match.
  - unfold on_files. by case_match.
  - unfold on_files. by case_match.
  - unfold on_files. by case_match.
Qed.

Lemma off_air_clock w w' : lclock w w' -> off_air w -> off_air w'.
Proof. intros (d & v & r & Hd & _ & _ & _ & _ & ->) (Hi & Ho & Hr). unfold off_air. cbn. by rewrite Hd. Qed.

Abbreviation keeps := (ensures live_handler off_air) (only parsing).

Lemma keeps_ops {A} (p : prog liveE A) : ops harmless p -> keeps (fun _ => True) p.
Proof. apply ensures_ops. intros X e w. apply off_air_step. Qed.

Lemma quiet_harmless {A} (p : prog liveE A) : ops quiet p -> ops harmless p.
Proof. induction p as [a|X e k IH]; [done|]. intros [He Hk]. split; [by destruct e|]. auto. Qed.

Lemma keeps_call {X} (e : liveE X) : harmless X e -> keeps (fun _ => True) (call e).
Proof. intros He. apply ensures_call. intros w Hw. split; [by apply off_air_step|done]. Qed.

(** A fresh key is not one that is presented. *)
Lemma keeps_generate : keeps (fun r => match r with Ok (_, hash) => hash ∉ ks | Err _ => True end) (generateStreamKey sha256_hex).
Proof.
  unfold generateStreamKey. eapply ensures_bind with (Q := fun r => forall b, r = Some b -> hashStreamKey sha256_hex (base64_rawurl b) ∉ ks).
  - apply ensures_call. intros w Hw. split; [by apply off_air_step|]. destruct Hw as (_ & _ & Hr). intros b. by apply Hr.
  - intros [b|] Hb; cbn; [by apply Hb|done].
Qed.

Lemma keeps_regenerate i : keeps (fun _ => True) (RegenerateKey sha256_hex i).
Proof.
  unfold RegenerateKey. eapply ensures_bind; [apply keeps_generate|]. intros [[raw hash]|e] Hk; [|done].
  eapply ensures_bind; [by apply keeps_call|]. done.
Qed.

Lemma keeps_create channel i : keeps (fun _ => True) (Create sha256_hex channel i).
Proof.
  unfold Create. eapply ensures_bind; [apply keeps_generate|]. intros [[raw hash]|e] Hk; [|done].
  eapply ensures_bind; [by apply keeps_call|]. done.
Qed.

(** The key of the stream opens nothing to who presents another. *)
Lemma keyrow_other hash w row :
  off_air w -> hash ∈ ks -> (live_handler _ (GetLiveStreamByKeyHash hash) w).1 = Ok row -> krID row <> id.
Proof.
  intros (Hi & Ho & _) Hin Hr. cbn in Hr. apply exec_ok in Hr as [Hr _]. unfold q_GetLiveStreamByKeyHash in Hr. cbn in Hr.
  destruct (filter _ _) as [|st rest] eqn:Hf; [done|]. assert (Hst : st ∈ st :: rest) by left.
  rewrite <- Hf in Hst. apply list_elem_of_filter in Hst as [Hh Hst]. unfold stream_list in Hst.
  apply list_elem_of_fmap in Hst as ([i st'] & -> & Hst). apply elem_of_map_to_list in Hst. cbn in *.
  repeat case_match; simplify_eq. cbn. pose proof (Hi _ _ Hst) as Hid. intros Heq. rewrite Hid in Heq. subst i.
  by destruct (Ho _ Hst) as [_ Hn].
Qed.

Lemma keeps_start s ident : hashStreamKey sha256_hex ident ∈ ks -> keeps (fun _ => True) (StartByIdentity s sha256_hex uuid_Parse ident).
Proof.
  intros Hin. unfold StartByIdentity. destruct (uuid_Parse ident) as [parsed|].
  { eapply ensures_bind; [by apply keeps_call|]. done. }
  eapply ensures_bind with (Q := fun r => forall row, r = Ok row -> krID row <> id).
  { apply ensures_call. intros w Hw. split; [by apply off_air_step|]. intros row. by apply keyrow_other. }
  intros [row|e] Hrow; [|done]. specialize (Hrow row eq_refl). case_match; [done|].
  eapply ensures_bind with (Q := fun _ => True).
  { apply keeps_ops. unfold checkLiveCaps, check_cap. walk_ops; exact I. }
  intros [e|] _; [done|]. eapply ensures_bind; [by apply keeps_call; intros Hid|done].
Qed.

Lemma keeps_terminate s i ti : keeps (fun _ => True) (Terminate s sha256_hex i ti).
Proof.
  unfold Terminate. eapply ensures_bind; [by apply keeps_ops; unfold Get; walk_ops|]. intros [st|e] _; [|done].
  repeat (case_match; [done|]). eapply ensures_bind with (Q := fun _ => True).
  { apply keeps_ops. unfold writeTerminatedState. case_match; apply ops_call; cbn; auto using next_off_air. }
  intros [[]|e] _; [|done]. eapply ensures_bind; [apply keeps_regenerate|]. intros k _.
  apply keeps_ops. unfold drop_publisher, DropPublisher, auditTerminate. walk_ops; exact I.
Qed.

Lemma keeps_sweep_each s rs n : keeps (fun _ => True) (sweep_each s sha256_hex rs n).
Proof.
  revert n. induction rs as [|r rs IH]; intros n; cbn [sweep_each]; [done|].
  eapply ensures_bind; [apply keeps_terminate|]. intros t _. apply IH.
Qed.

Lemma keeps_stop s ident : keeps (fun _ => True) (handleLiveIngestStop s vsv ts media_sha sha256_hex uuid_Parse ident).
Proof.
  apply keeps_ops. unfold handleLiveIngestStop, StopByIdentity, stop_target, Get.
  repeat first [apply quiet_harmless, quiet_replay | apply ops_bind; [|intro] | apply ops_call | exact I | case_match | progress intros];
    try exact I; cbn; auto using next_off_air.
Qed.

Lemma keeps_perform rq :
  (forall x, presented rq = Some x -> hashStreamKey sha256_hex x ∈ ks) ->
  keeps (fun _ => True) (perform vsv ts media_sha sha256_hex uuid_Parse rq).
Proof.
  intros Hp. destruct rq as [s []]; cbn [perform fst snd]; try (apply ensures_bind with (Q := fun _ => True); [|done]).
  - apply keeps_create.
  - apply keeps_ops. unfold Update. walk_ops; exact I.
  - apply keeps_regenerate.
  - apply keeps_ops. unfold Delete. walk_ops; exact I.
  - apply keeps_start. by apply Hp.
  - apply keeps_stop.
  - apply keeps_terminate.
  - unfold SweepOverdueLive. case_match; [done|]. eapply ensures_bind; [by apply keeps_call|]. intros now _.
    eapply ensures_bind; [by apply keeps_call|]. intros [rs|e] _; [|done].
    eapply ensures_bind; [apply keeps_sweep_each|]. done.
  - apply keeps_ops, quiet_harmless, quiet_replay.
  - apply keeps_ops, quiet_harmless, quiet_prune.
  - apply keeps_ops. unfold ListByChannel. walk_ops; exact I.
  - apply keeps_ops. unfold ListLivePublic. walk_ops; exact I.
  - apply keeps_ops. unfold ListUpcoming. walk_ops; exact I.
Qed.

Lemma stays_off_air rqs w ps w' :
  (forall rq x, rq ∈ rqs -> presented rq = Some x -> hashStreamKey sha256_hex x ∈ ks) -> off_air w ->
  rtc (pool_step live_handler lclock) (map (perform vsv ts media_sha sha256_hex uuid_Parse) rqs, w) (ps, w') -> off_air w'.
Proof.
  intros Hrqs Hw Hrun. refine (proj2 (pool_ensures live_handler off_air (fun _ => True) lclock _ _ _ _ off_air_clock _ Hw Hrun)).
  apply Forall_forall. intros p (rq & -> & Hin)%list_elem_of_fmap. apply keeps_perform. intros x. by apply Hrqs.
Qed.

End OffAir.

(** ** How a termination ends *)

Section Termination.
Context {B : Type} `{Backend B, !Lister B}.
Context (s : LiveService) (sha256_hex : string -> string).
Implicit Types (w : lworld B).

Abbreviation rows w := (lrows (store (ldb w))) (only parsing).

Lemma exec_cases {A S} (q : S -> result dberr A * S) (f : faulty S) :
  (exists a, (exec q f).1 = Ok a /\ (q (store f)).1 = Ok a /\ store (exec q f).2 = (q (store f)).2) \/
  (exists e, (exec q f).1 = Err e /\ (store (exec q f).2 = store f \/ store (exec q f).2 = (q (store f)).2)).
Proof.
  destruct ((exec q f).1) as [a|e] eqn:He.
  - left. exists a. by apply exec_ok in He as [? ?].
  - right. exists e. split; [done|]. destruct f as [d fs]. unfold exec. destruct fs as [|[] fs]; cbn; auto.
Qed.

(** A read leaves the rows alone. *)
Lemma exec_read {A} (q : LiveDB -> result dberr A * LiveDB) f : (forall d, (q d).2 = d) -> store (exec q f).2 = store f.
Proof. intros Hq. destruct (exec_cases q f) as [(a & _ & _ & ->)|(e & _ & [->| ->])]; done || apply Hq. Qed.

Lemma upd_row id f d st : lrows d !! id = Some st -> upd id f d = set_lrows <[id := f st]> d.
Proof.
  intros Hst. unfold upd, set_lrows. f_equal. apply map_eq. intros j. destruct (decide (j = id)) as [->|];
    [by rewrite lookup_insert, lookup_alter, Hst|by rewrite lookup_insert_ne, lookup_alter_ne].
Qed.

(** Who asked. *)
Definition source (i : TerminateInput) : TerminationSource := match tiSource i with SourceUnset => SourceModerator | src => src end.

Definition stored_reason (i : TerminateInput) : string :=
  let reason := TrimSpace (tiReason i) in
  if (maxTerminationReasonLen <? String.length reason)%nat then take_string maxTerminationReasonLen reason else reason.

(** The row a termination leaves, but for its key: the watchdog's end is an
    ordinary end; a person's is recorded, with the moderator's name, code and
    words only when it was a moderator. *)
Definition ended (i : TerminateInput) (t : time) (st : LiveStream) : LiveStream :=
  let next := next_state (lsPermanent st) in
  let code := TrimSpace (tiCode i) in
  if bool_decide (source i = SourceSystem) then state_set next t st
  else terminated next (if moderator (source i) then tiActor i else None)
         (if moderator (source i) && negb (bool_decide (code = EmptyString)) then Some code else None) (stored_reason i) t st.

Lemma ended_off_air i t st : lsState (ended i t st) <> StateLive /\ lsKeyHash (ended i t st) = lsKeyHash st /\ lsID (ended i t st) = lsID st.
Proof. unfold ended. case_match; split_and!; try done; cbn; apply next_off_air. Qed.

(** The first statement of a termination. *)
Definition q_end (i : TerminateInput) (id : uuid) (permanent : bool) : LiveDB -> result dberr unit * LiveDB :=
  let next := next_state permanent in
  let code := TrimSpace (tiCode i) in
  if bool_decide (source i = SourceSystem) then q_SetLiveStreamState id next
  else q_TerminateLiveStream id next (if moderator (source i) then tiActor i else None)
         (if moderator (source i) && negb (bool_decide (code = EmptyString)) then Some code else None) (stored_reason i).

Lemma q_end_effect i id d st :
  lrows d !! id = Some st ->
  ((q_end i id (lsPermanent st) d).2 = d /\ (q_end i id (lsPermanent st) d).1 <> Ok tt) \/
  (q_end i id (lsPermanent st) d).2 = set_lrows <[id := ended i (lnow d) st]> d.
Proof.
  intros Hst. unfold q_end, ended. destruct (bool_decide (source i = SourceSystem)).
  - right. cbn. by apply upd_row.
  - unfold q_TerminateLiveStream. rewrite bool_decide_eq_false_2 by (by rewrite Hst). destruct (_ || _); [left; by split|].
    right. cbn. by apply upd_row.
Qed.

Lemma run_write i id permanent w :
  run live_handler (writeTerminatedState id (next_state permanent) i (source i) (TrimSpace (tiCode i)) (stored_reason i)) w = on_live (q_end i id permanent) w.
Proof. unfold writeTerminatedState, q_end. destruct (bool_decide (source i = SourceSystem)); reflexivity. Qed.

(** The part of the world a key rotation leaves alone. *)
Definition beside_key w w' : Prop :=
  lnow (store (ldb w')) = lnow (store (ldb w)) /\ lrand w' = lrand w /\ lrands w' = S (lrands w) /\ lingest w' = lingest w /\
  lrequests w' = lrequests w /\ lresets w' = lresets w /\ laudit w' = laudit w.

Lemma run_regenerate id w st :
  rows w !! id = Some st ->
  let r := run live_handler (RegenerateKey sha256_hex id) w in
  beside_key w r.2 /\
  match r.1 with
  | Ok raw => exists b, lrand w (lrands w) = Some b /\ raw = base64_rawurl b /\
      rows r.2 = <[id := set_hash (hashStreamKey sha256_hex raw) (lnow (store (ldb w))) st]> (rows w)
  | Err _ => rows r.2 = rows w \/
      exists b, lrand w (lrands w) = Some b /\
        rows r.2 = <[id := set_hash (hashStreamKey sha256_hex (base64_rawurl b)) (lnow (store (ldb w))) st]> (rows w)
  end.
Proof.
  intros Hst. cbv zeta. unfold RegenerateKey, generateStreamKey. rewrite !run_mbind. cbn -[exec].
  destruct (lrand w (lrands w)) as [b|] eqn:Hb; cbn -[exec]; [|split; [done|by left]].
  set (hash := hashStreamKey sha256_hex (base64_rawurl b)).
  assert (Hq : (q_UpdateLiveStreamKey id hash (store (ldb w))).2 = store (ldb w) \/
    (q_UpdateLiveStreamKey id hash (store (ldb w))).2 = set_lrows <[id := set_hash hash (lnow (store (ldb w))) st]> (store (ldb w))).
  { unfold q_UpdateLiveStreamKey. rewrite bool_decide_eq_false_2 by (by rewrite Hst). case_match; [by left|]. right. cbn. by apply upd_row. }
  assert (Hqok : (q_UpdateLiveStreamKey id hash (store (ldb w))).1 = Ok tt ->
    (q_UpdateLiveStreamKey id hash (store (ldb w))).2 = set_lrows <[id := set_hash hash (lnow (store (ldb w))) st]> (store (ldb w))).
  { unfold q_UpdateLiveStreamKey. rewrite bool_decide_eq_false_2 by (by rewrite Hst). case_match; [done|]. intros _. cbn. by apply upd_row. }
  destruct (exec_cases (q_UpdateLiveStreamKey id hash) (ldb w)) as [([] & Hr & Hok & Hs)|(e & Hr & Hs)]; rewrite Hr; cbn -[exec].
  - unfold beside_key. cbn -[exec]. rewrite Hs, Hqok by done. split; [done|]. by exists b.
  - unfold beside_key. cbn -[exec]. split; [destruct Hs as [->| ->]; [done|]; by destruct Hq as [->| ->]|].
    destruct Hs as [->| ->]; [by left|]. destruct Hq as [->| ->]; [by left|]. right. by exists b.
Qed.

(** What the drop reports. *)
Definition drop_report w : bool * Z * option cerr :=
  if l_control s then
    let '(n, derr) := drop_outcome (lingest w (length (lrequests w))) in (bool_decide (derr = None), n, derr)
  else (false, 0, None).

Lemma drop_outcome_count resp : match drop_outcome resp with (n, None) => 0 < n | (n, Some _) => n = 0 end.
Proof.
  unfold drop_outcome. repeat case_match; simplify_eq; try done.
  repeat match goal with H : (_ <? _) = false |- _ => apply Z.ltb_ge in H | H : (_ =? _) = false |- _ => apply Z.eqb_neq in H end. lia.
Qed.

Definition dropping (id : uuid) w : list (string * list (string * string)) :=
  if l_control s then ("/control/drop/publisher", [("app", "live"); ("name", id)])%string :: lrequests w else lrequests w.

Lemma run_drop id w :
  run live_handler (drop_publisher s id) w =
    (drop_report w, mkLWorld (ldb w) (lvideo w) (lrec w) (lfsfail w) (lfscalls w) (lrand w) (lrands w) (lingest w) (dropping id w) (lresets w) (laudit w)).
Proof.
  unfold drop_publisher, DropPublisher, drop_report, dropping. destruct (l_control s); cbn [negb]; [|by destruct w].
  rewrite !run_mbind. cbn. pose proof (drop_outcome_count (lingest w (length (lrequests w)))) as Hc.
  destruct (drop_outcome _) as [n [e|]]; [done|]. by rewrite (proj2 (Z.leb_gt n 0)).
Qed.

(** The audit row. *)
Definition audited_end (id : uuid) (i : TerminateInput) (res : TerminateResult) (l : list LEvent) : list LEvent :=
  if l_auditor s then
    mkEvent (auditAction (source i)) "success"
      (if bool_decide (source i = SourceSystem) then None else (fun a => (a, auditActorRole (tiRole i))) <$> tiActor i)
      id (audit_reason (TrimSpace (tiCode i)) res) (if trControlConfigured res then Some (trDroppedCount res) else None) :: l
  else l.

(** The answer and the world after [Terminate], case by case. *)
Definition terminate_spec (id : uuid) (i : TerminateInput) w (r : result lerr TerminateResult) w' : Prop :=
  let now := lnow (store (ldb w)) in
  match r with
  | Err e =>
      lrequests w' = lrequests w /\ lresets w' = lresets w /\ laudit w' = laudit w /\ lrands w' = lrands w /\
      match e with
      | LErrNotFound => rows w' = rows w
      | LErrNotLive => rows w' = rows w /\ exists st, rows w !! id = Some st /\ lsState st <> StateLive
      | LErrInvalidTerminationReason =>
          rows w' = rows w /\ source i <> SourceSystem /\ TrimSpace (tiCode i) <> EmptyString /\ TrimSpace (tiCode i) ∉ TerminationReasons
      | LErrDB _ => exists st, rows w !! id = Some st /\ lsState st = StateLive /\
          (rows w' = rows w \/ rows w' = <[id := ended i now st]> (rows w))
      | _ => False
      end
  | Ok res => exists st h,
      rows w !! id = Some st /\ lsState st = StateLive /\ stRow (trStream res) = st /\
      rows w' = <[id := set_hash h now (ended i now st)]> (rows w) /\
      (if trKeyRotated res then exists b, lrand w (lrands w) = Some b /\ h = hashStreamKey sha256_hex (base64_rawurl b)
       else h = lsKeyHash st \/ exists b, lrand w (lrands w) = Some b /\ h = hashStreamKey sha256_hex (base64_rawurl b)) /\
      lrand w' = lrand w /\ lrands w' = S (lrands w) /\
      (trPublisherDropped res, trDroppedCount res, trDropError res) = drop_report w /\ trControlConfigured res = l_control s /\
      lrequests w' = dropping id w /\ lresets w' = id :: lresets w /\ laudit w' = audited_end id i res (laudit w)
  end.

Lemma set_hash_same i t st : set_hash (lsKeyHash st) t (ended i t st) = ended i t st.
Proof. unfold ended, set_hash. by case_match. Qed.

Lemma run_audit id i res w :
  run live_handler (auditTerminate s id i (source i) (TrimSpace (tiCode i)) res) w =
    (tt, mkLWorld (ldb w) (lvideo w) (lrec w) (lfsfail w) (lfscalls w) (lrand w) (lrands w) (lingest w) (lrequests w) (lresets w)
           (audited_end id i res (laudit w))).
Proof. unfold auditTerminate, audited_end. destruct (l_auditor s); [done|]. by destruct w. Qed.

(** The steps after the state is written. *)
Lemma run_rest id i st ch w w' d st' :
  store (ldb w') = set_lrows <[id := st']> d -> st' = ended i (lnow d) st -> store (ldb w) = d -> lrows d !! id = Some st ->
  lsState st = StateLive -> lrand w' = lrand w -> lrands w' = lrands w -> lingest w' = lingest w -> lrequests w' = lrequests w ->
  lresets w' = lresets w -> laudit w' = laudit w ->
  let r := run live_handler
    (k ← RegenerateKey sha256_hex id;
     d ← drop_publisher s id;
     let '(dropped, n, derr) := d in
     let res := mkTermResult (mkSt st (Some ch)) (match k with Ok _ => true | Err _ => false end) dropped n derr (l_control s) in
     _ ← call (ResetViewers id);
     _ ← auditTerminate s id i (source i) (TrimSpace (tiCode i)) res;
     mret (Ok res)) w' in
  terminate_spec id i w r.1 r.2.
Proof.
  intros Hd' Hst' Hd Hst Hlive Hrand Hrands Hing Hreq Hres Haud. cbv zeta. rewrite run_mbind.
  destruct (run_regenerate id w' st') as [Hb Hk]; [by rewrite Hd'; cbn; rewrite lookup_insert_eq|].
  destruct Hb as (Hn & Hb1 & Hb2 & Hb3 & Hb4 & Hb5 & Hb6).
  set (k := (run live_handler (RegenerateKey sha256_hex id) w').1) in *. set (wk := (run live_handler (RegenerateKey sha256_hex id) w').2) in *.
  rewrite run_mbind, run_drop. cbn [fst snd].
  assert (Hrep : drop_report wk = drop_report w) by (unfold drop_report; by rewrite Hb3, Hb4, Hing, Hreq).
  assert (Hdrp : dropping id wk = dropping id w) by (unfold dropping; by rewrite Hb4, Hreq).
  destruct (drop_report wk) as [[dropped n] derr] eqn:Hdr. rewrite run_mbind. cbn [run call live_handler fst snd]. rewrite run_mbind, run_audit.
  cbn. exists st. subst d. rewrite Hd' in Hk. cbn in Hk. rewrite Hrand, Hrands in Hk.
  assert (Hh : exists h, rows wk = <[id := set_hash h (lnow (store (ldb w))) st']> (rows w) /\
    (match k with
     | Ok _ => exists b, lrand w (lrands w) = Some b /\ h = hashStreamKey sha256_hex (base64_rawurl b)
     | Err _ => h = lsKeyHash st \/ exists b, lrand w (lrands w) = Some b /\ h = hashStreamKey sha256_hex (base64_rawurl b)
     end)).
  { destruct k as [raw|e]; [destruct Hk as (b & ? & -> & ->)|destruct Hk as [->|(b & ? & ->)]].
    - eexists. split; [by rewrite insert_insert_eq|]. by exists b.
    - exists (lsKeyHash st). split; [|by left]. by rewrite Hst', set_hash_same.
    - eexists. split; [by rewrite insert_insert_eq|]. right. by exists b. }
  destruct Hh as (h & Hh1 & Hh2). exists h. subst st'. split_and!; try done.
  - by destruct k.
  - by rewrite Hb1, Hrand.
  - by rewrite Hb2, Hrands.
  - by rewrite Hb5, Hres.
  - by rewrite Hb6, Haud.
Qed.

(** What no operation of the service changes; a store that answers goes on
    answering. *)
Definition surroundings w w' : Prop :=
  lchannels (store (ldb w')) = lchannels (store (ldb w)) /\ lusers (store (ldb w')) = lusers (store (ldb w)) /\
  lnow (store (ldb w')) = lnow (store (ldb w)) /\ lrand w' = lrand w /\ (faults (ldb w) = [] -> faults (ldb w') = []).

#[global] Instance surroundings_preorder : PreOrder surroundings.
Proof.
  split; [by intros w|]. intros a b c (? & ? & ? & ? & Hab) (? & ? & ? & ? & Hbc). unfold surroundings. split_and!; try congruence. auto.
Qed.

Lemma surroundings_stmt {A} (q : LiveDB -> result dberr A * LiveDB) w :
  (forall d, lchannels (q d).2 = lchannels d /\ lusers (q d).2 = lusers d /\ lnow (q d).2 = lnow d) -> surroundings w (on_live q w).2.
Proof.
  intros Hq. unfold surroundings. cbn. destruct (Hq (store (ldb w))) as (H1 & H2 & H3).
  assert (Hf : faults (ldb w) = [] -> faults (exec q (ldb w)).2 = []) by (destruct (ldb w) as [d fs]; cbn; by intros ->).
  destruct (exec_cases q (ldb w)) as [(a & _ & _ & ->)|(e & _ & [->| ->])]; split_and!; done.
Qed.

Lemma surroundings_step X (e : liveE X) w : surroundings w (live_handler X e w).2.
Proof.
  destruct e; cbn [live_handler]; try (apply surroundings_stmt; intros d); try done.
  - unfold q_CreateLiveStream. by repeat case_match.
  - unfold q_UpdateLiveStreamKey. by repeat case_match.
  - unfold q_UpdateLiveStream. by repeat case_match.
  - unfold q_TerminateLiveStream. destruct (bool_decide _); [done|]. by destruct (_ || _).
  - unfold on_files. by case_match.
  - unfold on_files. by case_match.
  - unfold on_files. by case_match.
  - unfold on_files. by case_match.
Qed.

Lemma run_surroundings {A} (p : prog liveE A) w : surroundings w (run live_handler p w).2.
Proof.
  apply (run_rel live_handler (fun _ _ => True) surroundings); [intros; apply surroundings_step|by apply ops_all].
Qed.

(** A termination the database accepts. *)
Definition acceptable (i : TerminateInput) (d : LiveDB) : Prop :=
  source i = SourceSystem \/
  (TrimSpace (tiCode i) = EmptyString \/ TrimSpace (tiCode i) ∈ TerminationReasons) /\
  (forall u, source i = SourceModerator -> tiActor i = Some u -> is_Some (lusers d !! u)).

Lemma q_end_accepts i id permanent d : acceptable i d -> (q_end i id permanent d).1 = Ok tt.
Proof.
  unfold q_end. intros [->|[Hc Hu]]; [done|]. case_bool_decide as Hs; [done|]. unfold q_TerminateLiveStream.
  case_bool_decide; [done|]. unfold moderator. case_bool_decide as Hm; cbn [andb]; [|done].
  replace (match tiActor i with Some u => bool_decide (lusers d !! u = None) | None => false end) with false.
  2: { destruct (tiActor i) as [u|] eqn:Ha; [|done]. destruct (Hu u Hm eq_refl) as [x Hx]. by rewrite bool_decide_eq_false_2 by (by rewrite Hx). }
  case_bool_decide as He; [done|]. cbn [negb orb]. destruct Hc as [|Hc]; [done|]. by rewrite bool_decide_eq_true_2.
Qed.

Lemma run_Get id w :
  run live_handler (Get id) w =
    (match (exec (q_GetLiveStreamByID id) (ldb w)).1 with Err _ => Err LErrNotFound | Ok (row, ch) => Ok (mkSt row (Some ch)) end,
     with_ldb (exec (q_GetLiveStreamByID id) (ldb w)).2 w).
Proof. unfold Get. by rewrite run_mbind. Qed.

Lemma run_Terminate id i w :
  terminate_spec id i w (run live_handler (Terminate s sha256_hex id i) w).1 (run live_handler (Terminate s sha256_hex id i) w).2.
Proof.
  unfold Terminate. rewrite run_mbind, run_Get. cbn [fst snd].
  pose proof (exec_read (q_GetLiveStreamByID id) (ldb w) (fun d => eq_refl)) as Hread. set (w1 := with_ldb _ w).
  assert (Hw1 : store (ldb w1) = store (ldb w)) by exact Hread.
  destruct ((exec (q_GetLiveStreamByID id) (ldb w)).1) as [[st ch]|e] eqn:Hg; [|rewrite run_mret; cbn -[exec]; by rewrite Hread].
  apply exec_ok in Hg as [Hg _]. unfold q_GetLiveStreamByID in Hg. cbn in Hg.
  destruct (rows w !! id) as [st0|] eqn:Hst; [|done]. case_match; simplify_eq. cbn [stRow].
  case_bool_decide as Hlive; cbn [negb]; [|rewrite run_mret; cbn -[exec]; rewrite Hread; split_and!; eauto]. fold (source i).
  case_match eqn:Hcode.
  { unfold ValidTerminationReason in Hcode. bools. rewrite run_mret. cbn -[exec]. by rewrite Hread. }
  fold (stored_reason i). rewrite run_mbind, run_write. cbn [on_live fst snd].
  destruct (exec_cases (q_end i id (lsPermanent st)) (ldb w1)) as [([] & Hr & Hok & Hs)|(e & Hr & Hs)]; rewrite Hr.
  - destruct (q_end_effect i id (store (ldb w)) st Hst) as [[_ Hne]|Heff]; [by rewrite Hw1 in Hok|].
    apply (run_rest id i st ch w _ (store (ldb w)) (ended i (lnow (store (ldb w))) st)); try done.
    rewrite <- Heff, <- Hw1. exact Hs.
  - rewrite run_mret. cbn -[exec w1]. split_and!; try done. exists st. split_and!; [done..|]. rewrite Hw1 in Hs. destruct Hs as [->| ->]; [by left|].
    destruct (q_end_effect i id (store (ldb w)) st Hst) as [[-> _]|Heff]; [by left|]. right. by rewrite Heff.
Qed.

(** On a store that answers, an acceptable termination of a stream on air goes
    through. *)
Lemma run_Terminate_answers id i w st ch :
  faults (ldb w) = [] -> rows w !! id = Some st -> lsState st = StateLive -> lchannels (store (ldb w)) !! lsChannel st = Some ch ->
  acceptable i (store (ldb w)) -> exists res, (run live_handler (Terminate s sha256_hex id i) w).1 = Ok res.
Proof.
  intros Hf Hst Hlive Hch Hacc. unfold Terminate. rewrite run_mbind, run_Get.
  assert (Hdb : ldb w = Faulty (store (ldb w)) []) by (destruct (ldb w); cbn in *; by subst). rewrite Hdb, !exec_fine. cbn [fst snd].
  unfold q_GetLiveStreamByID. rewrite Hst, Hch. cbn [fst snd stRow]. rewrite bool_decide_eq_true_2 by done. cbn [negb]. fold (source i).
  destruct (_ && _ && _) eqn:Hcode.
  { unfold ValidTerminationReason in Hcode. bools. destruct Hacc as [|[[|] _]]; done. }
  fold (stored_reason i). rewrite run_mbind, run_write. cbn [on_live fst snd ldb with_ldb]. rewrite exec_fine, q_end_accepts by done. cbn [fst snd].
  rewrite run_mbind. destruct (run live_handler (RegenerateKey sha256_hex id) _) as [k w2]. cbn [fst snd].
  rewrite run_mbind, run_drop. cbn [fst snd]. destruct (drop_report w2) as [[dropped n] derr].
  rewrite run_mbind. cbn [run call live_handler fst snd]. rewrite run_mbind, run_audit. rewrite run_mret. eauto.
Qed.

(** The watchdog's end of a stream: an ordinary end, under a key that may have
    been rotated. *)
Definition closed_by_watchdog (t : time) (st st' : LiveStream) : Prop :=
  exists h, st' = set_hash h t (state_set (next_state (lsPermanent st)) t st).

Lemma run_sweep_each l n w :
  faults (ldb w) = [] -> NoDup (map lsID l) ->
  Forall (fun r => rows w !! lsID r = Some r /\ lsState r = StateLive /\ is_Some (lchannels (store (ldb w)) !! lsChannel r)) l ->
  let out := run live_handler (sweep_each s sha256_hex l n) w in
  out.1 = n + Z.of_nat (length l) /\
  (forall r, r ∈ l -> exists st', rows out.2 !! lsID r = Some st' /\ closed_by_watchdog (lnow (store (ldb w))) r st') /\
  (forall id, id ∉ map lsID l -> rows out.2 !! id = rows w !! id).
Proof.
  cbv zeta. revert n w. induction l as [|r l IH]; intros n w Hf Hnd Hall.
  { cbn. split_and!; [lia|by intros r ?%not_elem_of_nil|done]. }
  cbn [map] in Hnd. apply NoDup_cons in Hnd as [Hni Hnd]. apply Forall_cons in Hall as [(Hr & Hlive & [ch Hch]) Hall].
  cbn [sweep_each]. rewrite run_mbind. set (i := mkTerminate SourceSystem _ _ _ _).
  destruct (run_Terminate_answers (lsID r) i w r ch Hf Hr Hlive Hch (or_introl eq_refl)) as [res Hres].
  pose proof (run_Terminate (lsID r) i w) as Hspec. rewrite Hres in *. destruct Hspec as (st & h & Hst & _ & _ & Hrows & _).
  pose proof (run_surroundings (Terminate s sha256_hex (lsID r) i) w) as (Hc & _ & Hn & _ & Hf').
  set (w1 := (run live_handler (Terminate s sha256_hex (lsID r) i) w).2) in *. assert (st = r) as -> by congruence.
  assert (Hother : forall id, id <> lsID r -> rows w1 !! id = rows w !! id) by (intros id Hne; by rewrite Hrows, lookup_insert_ne).
  destruct (IH (n + 1) w1 (Hf' Hf) Hnd) as (H1 & H2 & H3).
  { apply Forall_forall. intros r' Hin. rewrite Forall_forall in Hall. destruct (Hall r' Hin) as (Hr' & Hl' & Hc').
    split_and!; [|done|by rewrite Hc]. rewrite Hother; [done|].
    intros He. apply Hni. rewrite <- He. by apply list_elem_of_fmap_2. }
  rewrite Hn in H2. cbn [length map]. split_and!.
  - rewrite H1. lia.
  - intros r' [->|Hin]%elem_of_cons; [|by apply H2]. rewrite H3 by done. rewrite Hrows, lookup_insert_eq. eexists. split; [done|]. by exists h.
  - intros id [Hne Hnin]%not_elem_of_cons. by rewrite H3, Hother by done.
Qed.

Lemma overdue_ids m (l : list LiveStream) (P : LiveStream -> Prop) `{!forall x, Decision (P x)} :
  streams_ok m -> l ≡ₚ filter P (map snd (map_to_list m)) ->
  NoDup (map lsID l) /\ (forall r, r ∈ l <-> m !! lsID r = Some r /\ P r).
Proof.
  intros [Hok _] Hl. assert (Hin : forall r, r ∈ l <-> m !! lsID r = Some r /\ P r).
  { intros r. rewrite Hl, list_elem_of_filter. split.
    - intros [HP Hr]. apply list_elem_of_fmap in Hr as ([i r'] & -> & Hr). apply elem_of_map_to_list in Hr. cbn in *.
      by rewrite (ok_id _ _ (Hok _ _ Hr)).
    - intros [Hr HP]. split; [done|]. apply list_elem_of_fmap. exists (lsID r, r). split; [done|]. by apply elem_of_map_to_list. }
  split; [|done]. rewrite Hl. apply (NoDup_fmap_2_strong lsID).
  - intros x y [_ Hx]%list_elem_of_filter [_ Hy]%list_elem_of_filter He.
    apply list_elem_of_fmap in Hx as ([i x'] & -> & Hx), Hy as ([j y'] & -> & Hy). apply elem_of_map_to_list in Hx, Hy. cbn in *.
    rewrite (ok_id _ _ (Hok _ _ Hx)), (ok_id _ _ (Hok _ _ Hy)) in He. congruence.
  - apply NoDup_filter. assert (Hnd := NoDup_map_to_list m). apply (NoDup_fmap_2_strong snd); [|done].
    intros [i x] [j y] Hx Hy He. apply elem_of_map_to_list in Hx, Hy. cbn in He. subst y.
    by rewrite <- (ok_id _ _ (Hok _ _ Hx)), <- (ok_id _ _ (Hok _ _ Hy)).
Qed.

End Termination.

(** ** Properties *)

(** The rows of [live_streams] under every interleaving of any requests, store
    failures, and whatever else goes on: no two streams share a key; a stream
    on air has the start of its session and neither a planned start nor any
    trace of a termination; a stream off the air has no start; a reason code is
    one of the published eight and never without the time it was given. *)
Theorem live_rows_well_formed {B} `{Backend B, !Lister B} vsv ts media_sha sha256_hex uuid_Parse
    (rqs : list (LiveService * lrequest)) (w w' : lworld B) ps :
  streams_ok (lrows (store (ldb w))) ->
  rtc (pool_step live_handler lclock) (map (perform vsv ts media_sha sha256_hex uuid_Parse) rqs, w) (ps, w') ->
  streams_ok (lrows (store (ldb w'))).
Proof.
  intros Hok Hrun. refine (pool_invariant live_handler takes_down lclock (fun w => streams_ok (lrows (store (ldb w))))
    (fun X e w => rows_step X e w) _ _ _ Hrun _ Hok); [intros v v' Hc; by rewrite (rows_clock v v' Hc)|].
  apply Forall_forall. intros p (rq & -> & _)%list_elem_of_fmap. apply takes_down_perform.
Qed.

(** C19. Every outcome of a termination, whatever the store, the random generator
    and the media server do. A refusal names its cause and leaves the row, the
    publisher, the viewer set and the audit trail alone; if the store reports
    an error from the write itself, the row is as it was or ended, and nothing
    further was done. Otherwise the stream was on air and is off: ended, or
    offline if permanent; with the time on the row for a person's end, the
    moderator's id, code and words only for a moderator's, and none of it for
    the watchdog's; under the freshly drawn key when the rotation is reported;
    with the publisher reported dropped exactly when the media server answered
    a positive count to the one request it got; the viewer set reset; and one
    audit row saying so. And a store that answers does end a stream on air when
    the reason and the moderator are known to it. *)
Theorem terminate_every_outcome {B} `{Backend B, !Lister B} s sha256_hex id i (w : lworld B) :
  let out := run live_handler (Terminate s sha256_hex id i) w in
  terminate_spec s sha256_hex id i w out.1 out.2 /\
  (forall st ch, faults (ldb w) = [] -> lrows (store (ldb w)) !! id = Some st -> lsState st = StateLive ->
     lchannels (store (ldb w)) !! lsChannel st = Some ch -> acceptable i (store (ldb w)) -> exists res, out.1 = Ok res) /\
  (forall res, out.1 = Ok res -> trPublisherDropped res = true <-> l_control s = true /\ 0 < trDroppedCount res).
Proof.
  cbv zeta. pose proof (run_Terminate s sha256_hex id i w) as Hspec. split_and!; [exact Hspec|intros st ch; apply run_Terminate_answers|].
  intros res Hres. rewrite Hres in Hspec. destruct Hspec as (st & h & _ & _ & _ & _ & _ & _ & _ & Hrep & _).
  unfold drop_report in Hrep. destruct (l_control s); [|injection Hrep as -> -> _; split; [done|by intros [? _]]].
  pose proof (drop_outcome_count (lingest w (length (lrequests w)))) as Hc.
  destruct (drop_outcome _) as [n [e|]]; injection Hrep as -> -> _; [rewrite Hc|]; split; try done; intros []; done || lia.
Qed.


(** The duration watchdog is exact: on a store that answers, one sweep takes
    off the air precisely the streams whose session began before the limit,
    leaving on their rows nothing a creator could read as anybody's decision;
    it touches no other stream, and reports how many it ended. Without a limit
    it does nothing. *)
Theorem watchdog_closes_exactly_overdue {B} `{Backend B, !Lister B} s sha256_hex (w : lworld B) :
  faults (ldb w) = [] -> streams_ok (lrows (store (ldb w))) ->
  map_Forall (fun _ st => is_Some (lchannels (store (ldb w)) !! lsChannel st)) (lrows (store (ldb w))) ->
  let now := lnow (store (ldb w)) in
  let cutoff := now + int64 (- maxDurationSecs s * Second) in
  let out := run live_handler (SweepOverdueLive s sha256_hex) w in
  let late st := (0 <? maxDurationSecs s) &&
    (bool_decide (lsState st = StateLive) && match lsStartedAt st with Some began => began <? cutoff | None => false end) in
  (exists l, out.1 = Ok (Z.of_nat (length l)) /\ NoDup l /\
     forall id, id ∈ l <-> exists st, lrows (store (ldb w)) !! id = Some st /\ late st = true) /\
  forall id, match lrows (store (ldb w)) !! id, lrows (store (ldb out.2)) !! id with
             | Some st, Some st' => if late st then closed_by_watchdog now st st' else st' = st
             | None, None => True
             | _, _ => False
             end.
Proof.
  intros Hf Hok Hch now cutoff0 out late. change late with (fun st => (0 <? maxDurationSecs s) && overdue cutoff0 st).
  subst now cutoff0 out. cbv beta. clear late. unfold SweepOverdueLive. destruct (Z.leb_spec (maxDurationSecs s) 0) as [Hle|Hgt].
  { rewrite (proj2 (Z.ltb_ge 0 (maxDurationSecs s))) by done. rewrite run_mret. cbn. split; [|intros id; by destruct (_ !! id)].
    exists []. split_and!; [done|constructor|]. intros id. split; [by intros ?%not_elem_of_nil|]. by intros (st & _ & ?). }
  rewrite (proj2 (Z.ltb_lt 0 (maxDurationSecs s))) by done. cbn [andb]. rewrite run_mbind. cbn [run call live_handler fst snd].
  set (cutoff := lnow (store (ldb w)) + _). rewrite run_mbind. cbn [run call live_handler on_live fst snd].
  assert (Hex : forall A (q : LiveDB -> result dberr A * LiveDB), exec q (ldb w) = ((q (store (ldb w))).1, Faulty (q (store (ldb w))).2 []))
    by (intros A q; destruct (ldb w); cbn in *; by subst).
  rewrite Hex. cbn [fst snd q_ListOverdueLiveStreams]. set (l := merge_sort _ _). set (w1 := with_ldb _ w). rewrite run_mbind, run_mret. cbn [fst snd].
  destruct (overdue_ids (lrows (store (ldb w))) l (fun st => overdue cutoff st = true) Hok (merge_sort_Permutation _ _)) as [Hnd Hl].
  destruct (run_sweep_each s sha256_hex l 0 w1) as (H1 & H2 & H3); [done|done| |].
  { apply Forall_forall. intros r [Hr Ho]%Hl. split_and!; [done| |exact (Hch _ _ Hr)]. unfold overdue in Ho. by bools. }
  rewrite H1. split.
  - exists (map lsID l). rewrite length_map. split_and!; [done|done|]. intros id. rewrite list_elem_of_fmap. split.
    + intros (r & -> & [Hr Ho]%Hl). by exists r.
    + intros (st & Hst & Ho). exists st. pose proof (ok_id _ _ (proj1 Hok _ _ Hst)) as Hid. split; [done|]. apply Hl. by rewrite Hid.
  - intros id. destruct (decide (id ∈ map lsID l)) as [Hin|Hnin].
    + apply list_elem_of_fmap in Hin as (r & -> & Hr). destruct (H2 r Hr) as (st' & -> & Hst'). apply Hl in Hr as [-> ->]. exact Hst'.
    + rewrite H3 by done. cbn. destruct (lrows (store (ldb w)) !! id) as [st|] eqn:Hst; [|done].
      destruct (overdue cutoff st) eqn:Ho; [|done]. destruct Hnin. apply list_elem_of_fmap. exists st.
      pose proof (ok_id _ _ (proj1 Hok _ _ Hst)) as Hid. split; [done|]. apply Hl. by rewrite Hid.
Qed.

(** ** Scenarios *)

Module OnAir.

Definition sha (x : string) : string := "#" +:+ x.
Definition stream : uuid := "stream".
Definition parse (x : string) : option uuid := if bool_decide (x = stream) then Some x else None.

Definition row (st : lstate) (started : option time) : LiveStream :=
  mkStream stream "channel" "Launch" EmptyString "public" st true true (sha "old") started None 0 0 None None None EmptyString.

Definition db (fs : list fault) (st : lstate) (started : option time) : faulty LiveDB :=
  Faulty (mkLiveDB {[stream := row st started]} {["channel"%string := mkLChannel "owner" "launch" "Launch"]}
    {["owner"%string := mkLUser true false; "mod"%string := mkLUser true false]} ∅ ∅ (100 * Second) (fun _ => "new"%string) 0) fs.

(** The media server answers with [ingest]; the generator draws "k0", "k1", ... *)
Definition world (fs : list fault) (st : lstate) (started : option time) (ingest : option (Z * string)) : lworld LocalFS :=
  mkLWorld (db fs st started) (demo_vworld [] false VPublished false) (Some ∅) (fun _ => false) 0
    (fun n => Some ("k" +:+ pretty (Z.of_nat n))) 0 (fun _ => ingest) [] [] [].

Definition service (control : bool) (limit : option Z) : LiveService :=
  mkLive true true true control true None None None limit None.

Definition takedown : TerminateInput := mkTerminate SourceUnset (Some "mod"%string) "moderator" "spam" " selling things ".

Definition perform : LiveService * lrequest -> prog liveE unit := perform demo_videos demo_service demo_digest sha parse.

Lemma rows_ok st started : (st = StateLive <-> is_Some started) -> streams_ok {[stream := row st started]}.
Proof.
  intros Hs. split.
  - apply map_Forall_singleton. constructor; cbn; [done| | |done].
    + intros Hl. split_and!; [by apply Hs|done..].
    + intros Hn. destruct started; [|done]. destruct Hn. apply Hs. eauto.
  - intros i j a b [<- <-]%lookup_singleton_Some [<- <-]%lookup_singleton_Some. done.
Qed.

Lemma sha_inj x y : sha x = sha y -> x = y.
Proof. unfold sha. change ("#" +:+ ?z) with (String (Ascii.ascii_of_nat 35) z). by intros [= ->]. Qed.

(** Neither the old key nor the id is ever drawn. *)
Lemma never_drawn x t : x ∈ ["old"; stream]%string -> x <> base64_rawurl ("k" +:+ t).
Proof.
  intros Hin He. apply (f_equal base64_rawurl_decode) in He. rewrite base64_rawurl_roundtrip in He.
  change ("k" +:+ t) with (String (Ascii.ascii_of_nat 107) t) in He.
  repeat (apply elem_of_cons in Hin as [->|Hin]; [vm_compute in He; discriminate He|]). by apply not_elem_of_nil in Hin.
Qed.

End OnAir.

Lemma live_rows_well_formed_witness :
  let w := OnAir.world [FailAfter] StateOffline None None in
  let rqs := [(OnAir.service true None, RStart "old"); (OnAir.service true None, RTerminate OnAir.stream OnAir.takedown);
              (OnAir.service true None, RStop OnAir.stream)] in
  streams_ok (lrows (store (ldb (schedule live_handler [0; 1; 0; 0; 1; 1; 2; 1; 2; 2; 1]%nat (map OnAir.perform rqs) w).2))).
Proof.
  cbv zeta. set (c := schedule _ _ _ _). assert (Hc : c = (c.1, c.2)) by (by destruct c).
  apply (live_rows_well_formed demo_videos demo_service demo_digest OnAir.sha OnAir.parse
    [(OnAir.service true None, RStart "old"); (OnAir.service true None, RTerminate OnAir.stream OnAir.takedown);
     (OnAir.service true None, RStop OnAir.stream)] (OnAir.world [FailAfter] StateOffline None None) c.2 c.1).
  - apply OnAir.rows_ok. split; [discriminate|by intros []].
  - rewrite <- Hc. apply schedule_pool.
Defined.

Lemma terminate_every_outcome_witness :
  let out := run live_handler (Terminate (OnAir.service true None) OnAir.sha OnAir.stream OnAir.takedown)
               (OnAir.world [] StateLive (Some 0) (Some (200, " 1 "%string))) in
  exists res, out.1 = Ok res /\ trPublisherDropped res = true.
Proof.
  destruct (terminate_every_outcome (OnAir.service true None) OnAir.sha OnAir.stream OnAir.takedown
    (OnAir.world [] StateLive (Some 0) (Some (200, " 1 "%string)))) as (_ & Hok & Hdrop).
  destruct (Hok (OnAir.row StateLive (Some 0)) (mkLChannel "owner" "launch" "Launch")) as [res Hres]; try reflexivity.
  - right. split; [right; refine (bool_decide_eq_true_1 _ _); vm_compute; reflexivity|]. intros u _ [= <-]. by eexists.
  - exists res. split; [exact Hres|]. vm_compute in Hres. injection Hres as <-. reflexivity.
Defined.


Lemma watchdog_closes_exactly_overdue_witness :
  let w := OnAir.world [] StateLive (Some 0) None in
  let out := run live_handler (SweepOverdueLive (OnAir.service false (Some 60)) OnAir.sha) w in
  match lrows (store (ldb w)) !! OnAir.stream, lrows (store (ldb out.2)) !! OnAir.stream with
  | Some st, Some st' => closed_by_watchdog (100 * Second) st st'
  | None, None => True
  | _, _ => False
  end.
Proof.
  refine (proj2 (watchdog_closes_exactly_overdue (OnAir.service false (Some 60)) OnAir.sha (OnAir.world [] StateLive (Some 0) None)
    eq_refl _ _) OnAir.stream).
  - apply OnAir.rows_ok. split; [by eexists|reflexivity].
  - apply map_Forall_singleton. by eexists.
Defined.

(** ** Races *)

Module Races.

(** The termination ends the session and rotates the key in two statements, and
    a publisher that reconnects between them is admitted with the key it holds:
    on an instance without a control endpoint the moderator is told that the
    broadcast is over and the key rotated, while the stream is on air and the
    takedown gone from its row. *)
Lemma reconnect_undoes_termination :
  let w := OnAir.world [] StateLive (Some 0) None in
  let c := schedule live_handler [1; 1; 0; 0; 1; 1; 1; 1]%nat
    [(_ ← StartByIdentity (OnAir.service false None) OnAir.sha OnAir.parse "old"; mret None);
     (r ← Terminate (OnAir.service false None) OnAir.sha OnAir.stream OnAir.takedown;
      mret (match r with Ok res => Some (trKeyRotated res) | Err _ => None end))] w in
  c.1 !! 1%nat = Some (Ret (Some true)) /\
  (exists st, lrows (store (ldb c.2)) !! OnAir.stream = Some st /\ lsState st = StateLive /\ lsTermAt st = None /\ lsTermCode st = None).
Proof. split; [vm_compute; reflexivity|]. eexists. split_and!; vm_compute; reflexivity. Qed.

(** The watchdog ends by id what it listed: a permanent stream whose overdue
    session stopped, and that began a new one before the sweep reached it, is
    cut seconds into the new session. *)
Lemma watchdog_ends_new_session :
  let w := OnAir.world [] StateLive (Some 0) None in
  let s := OnAir.service false (Some 60) in
  let c := schedule live_handler [0; 0; 1; 1; 2; 2; 2]%nat
    (map OnAir.perform [(s, RSweep); (s, RStop OnAir.stream); (s, RStart "old")]) w in
  let c' := schedule live_handler [0; 0; 0; 0; 0; 0]%nat c.1 c.2 in
  (exists st, lrows (store (ldb c.2)) !! OnAir.stream = Some st /\ lsState st = StateLive /\ lsStartedAt st = Some (100 * Second)) /\
  (exists st, lrows (store (ldb c'.2)) !! OnAir.stream = Some st /\ lsState st = StateOffline).
Proof. split; eexists; split_and!; vm_compute; reflexivity. Qed.

End Races.
