(* ===== verification/LiveReplay.v ===== *)
(** * Recordings of live sessions and their replay

    Which recordings belong to a stream, what the retention sweep removes, and
    the fate of a recording that is republished as a video: it leaves the
    recording directory only once its bytes are stored as the original of the
    new video. *)
From S2P Require Import Prelude Interleave GoStrings Encoding Secretbox Storage MediaKeys MediaStore.
From S2P Require Import Transcode VideoStore Video VideoSafety VideoSource Playback LiveStore Live.
Local Open Scope Z_scope.

(** ** The pipeline from the live service *)

Section Pipeline.
Context {B : Type} `{Backend B, !Lister B}.
Implicit Types (w : lworld B).

Lemma run_pipeline {A} (p : prog videoE A) w :
  run live_handler (pipeline p) w = ((run video_handler p (lvideo w)).1, with_lvideo (run video_handler p (lvideo w)).2 w).
Proof.
  revert w. induction p as [a|X e k IH]; intros w; [by destruct w|]. cbn. rewrite IH. done.
Qed.

End Pipeline.

(** ** What publishing leaves in the object store *)

Section Objects.
Context {B : Type} `{BackendLaws B, !Lister B} (s : VideoService) (ts : TranscodeService) (media_sha : list Byte.byte -> string).
Implicit Types (w : vworld B).

(** Operations that write and remove at other keys only. *)
Definition leaves (key : string) X (e : videoE X) : Prop :=
  match e with
  | VMedia (ObjPut k _) | VMedia (ObjDelete k) => canonical k = true /\ k <> key
  | VMedia (Transcode _ _) | VMedia (TranscodeHLS _ _ _) | VMedia (TranscodeWebVideos _ _ _) | VMedia (TranscodeAll _ _ _) => False
  | _ => True
  end.

Definition same_object (key : string) w w' : Prop := contents (mblobs (vmw w')) key = contents (mblobs (vmw w)) key.

#[local] Instance same_object_preorder key : PreOrder (same_object key).
Proof. unfold same_object. split; [done|]. intros x y z. congruence. Qed.

Lemma leaves_step key X (e : videoE X) w : canonical key = true -> leaves key X e -> same_object key w (video_handler X e w).2.
Proof.
  unfold same_object. intros Hk. destruct e; try done. destruct e; cbn [leaves]; try done; intros [Hc Hne]; cbn.
  - by apply put_frame.
  - by apply delete_frame.
Qed.

Lemma run_leaves {A} key (p : prog videoE A) w : canonical key = true -> ops (leaves key) p -> same_object key w (run video_handler p w).2.
Proof. intros Hk. apply (run_rel video_handler (leaves key) (same_object key)). intros X e w'. by apply leaves_step. Qed.

Lemma leaves_media {A} key (p : prog mediaE A) : ops (fun X e => leaves key X (VMedia e)) p -> ops (leaves key) (media p).
Proof. induction p as [a|X e k IH]; [done|]. intros [He Hk]. split; [done|]. intros x. by apply IH. Qed.

(** The keys of posters and storyboards are not originals. *)
Lemma thumbnail_canonical id : plain id = true -> canonical (VideoThumbnailKey id) = true.
Proof.
  intros Hid. unfold VideoThumbnailKey. apply (canonical_clean ["thumbnails"%string; id +:+ ".jpg"]); [|done].
  repeat constructor. apply (original_name_clean id 0 ".jpg"); [done|]. by eexists.
Qed.

Lemma original_not_thumbnail id v ext : VideoThumbnailKey id <> OriginalVideoKey v 0 ext.
Proof. done. Qed.

Lemma leaves_thumbnail id v ext key hint : plain id = true -> ops (leaves (OriginalVideoKey v 0 ext)) (generateThumbnail s media_sha id key hint).
Proof. intros Hid. unfold generateThumbnail, PutSizedHashed, media_call. walk_ops; try done; split; [by apply thumbnail_canonical|done]. Qed.

Lemma leaves_storyboard id v ext key hint audio : plain id = true ->
  ops (leaves (OriginalVideoKey v 0 ext)) (storyboard_if_wanted s media_sha id key hint audio).
Proof.
  intros Hid. assert (Hn : forall x, good_ext x -> canonical ("storyboards/" +:+ id +:+ x) = true).
  { intros x Hx. apply (canonical_clean ["storyboards"%string; id +:+ x]); [|done]. repeat constructor. by apply (original_name_clean id 0 x). }
  unfold storyboard_if_wanted, GenerateStoryboard, replace_storyboard, PutSizedHashed, fireMediaReplaced, VideoByID, media_call.
  walk_ops; try done; split; try done; apply Hn; by eexists.
Qed.

Lemma leaves_finish k id key park : ops (leaves k) (finish_upload s ts id key park).
Proof.
  unfold finish_upload, parkQuarantined, quarantine_gate, VideoByID, publish, onTranscode, hasLiveTranscodeJob, transcodeWillRun, enterTranscodeHold,
    ReleaseTranscodeHold, media_call.
  repeat first [apply leaves_media | apply ops_bind; [|intro] | apply ops_call | exact I | case_match | progress intros];
    unfold Enqueue, EnqueueTarget, HasLiveJob; walk_ops; done.
Qed.

(** A file that [Process] did not reject is still stored. *)
Lemma process_keeps id v ext w p w' :
  plain id = true -> canonical (OriginalVideoKey v 0 ext) = true ->
  run video_handler (Process s ts media_sha id (OriginalVideoKey v 0 ext)) w = (Ok (Processed p), w') ->
  same_object (OriginalVideoKey v 0 ext) w w'.
Proof.
  intros Hid Hk. set (key := OriginalVideoKey v 0 ext) in *. unfold Process. rewrite run_mbind.
  assert (Hscan : forall w, match (run video_handler (scan_upload s id key) w).1 with ScanFail _ => True | _ => same_object key w (run video_handler (scan_upload s id key) w).2 end).
  { clear w. intros w. unfold scan_upload. destruct (vs_scanner s); [|done]. cbn [negb]. rewrite run_mbind. cbn [run call fst snd].
    destruct ((video_handler (option bool) (Scan key) w).1) as [[]|]; [done| |].
    - rewrite !run_mbind, run_mret. done.
    - unfold audited. destruct (vs_scanMode s), (vs_auditor s); done. }
  specialize (Hscan w). destruct (run video_handler (scan_upload s id key) w) as [sc w1]. cbn [fst snd] in *.
  destruct sc as [| |o]; cbn [fst snd].
  3: { rewrite run_mbind, run_mret. cbn [run call fst snd]. by destruct ((video_handler _ (SetVideoState id VFailed) w1).1). }
  all: intros Hrun; etrans; [exact Hscan|]; match type of Hrun with ?t = _ => replace w' with t.2 by (by rewrite Hrun) end; clear Hrun Hscan;
    apply (run_leaves key); [done|]; (apply ops_bind; [unfold probe_upload; walk_ops; done|]); intros [[[hint audio]|]|e]; [|walk_ops; done|done];
    (apply ops_bind; [destruct (_ && _); [by apply leaves_thumbnail|done]|]); intros _;
    (apply ops_bind; [by apply leaves_storyboard|]); intros _; (apply ops_bind; [apply leaves_finish|]); by intros [].
Qed.

(** What [AttachOriginal] reports stored is stored. *)
Lemma attach_stores owner id i w u file w' :
  plain id = true -> run video_handler (AttachOriginal s media_sha owner id i) w = (Ok (u, file), w') ->
  exists ext, good_ext ext /\ vfKey file = OriginalVideoKey id 0 ext /\ contents (mblobs (vmw w')) (vfKey file) = Some (data (uiReader i)).
Proof.
  intros Hid. unfold AttachOriginal. destruct (vs_blobs s); [|done]. cbn [negb]. rewrite run_mbind.
  destruct (run video_handler (VideoByID id) w) as [[[v o]|e] w1]; [|done]. cbn [fst snd].
  case_match; [done|]. rewrite run_mbind. destruct (run video_handler (additionalExtsAllowed s) w1) as [additional w2]. cbn [fst snd].
  destruct (upload_ext (uiFilename i) (uiContentType i) additional) as [ext|] eqn:Hext; [|done].
  apply upload_ext_good in Hext. set (key := originalKey id ext).
  assert (Hk : canonical key = true) by (by apply original_canonical).
  rewrite run_mbind. destruct (run video_handler (call (GetVideoFileByKind id "original")) w2) as [cur w3]. cbn [fst snd].
  destruct (match cur with Ok f => _ | Err _ => _ end) as [priorSum|e]; [|done].
  rewrite run_mbind. destruct (run video_handler (media_call _) w3) as [[[]|e] w4]; [|done]. cbn [fst snd].
  rewrite run_mbind. unfold PutSizedHashed. rewrite run_mbind.
  destruct (run video_handler (media_call (ObjPut key (uiReader i))) w4) as [[n|e] w5] eqn:Hput; [|done]. rewrite run_mret. cbn [fst snd].
  assert (H5 : contents (mblobs (vmw w5)) key = Some (data (uiReader i))).
  { cbn in Hput. injection Hput as Hn <-. cbn. exact (proj2 (proj2 (put_ok key (uiReader i) (mblobs (vmw w4)) n Hk Hn))). }
  set (f := mkVideoFile id "original" key n (media_sha (data (uiReader i)))). intros Hrun.
  match type of Hrun with ?t = _ => assert (Hw' : w' = t.2) by (by rewrite Hrun); assert (Hf : t.1 = Ok (u, file)) by (by rewrite Hrun) end.
  assert (Hsame : same_object key w5 w').
  { rewrite Hw'. apply (run_leaves key); [done|]. unfold billStoredOriginal, media_call. walk_ops; done. }
  clear Hw'. rewrite run_mbind in Hf. destruct (run video_handler (media_call (CreateVideoFile f)) w5) as [[[]|e] w6]; [|done]. cbn [fst snd] in Hf.
  rewrite run_mbind in Hf. destruct (run video_handler (call (SetVideoState id VProcessing)) w6) as [[up|e] w7]; [|done]. cbn [fst snd] in Hf.
  rewrite run_mbind, run_mret in Hf. cbn in Hf. injection Hf as _ <-. exists ext. split_and!; [done|done|]. etrans; [exact Hsame|exact H5].
Qed.

(** The ids the database draws are well-formed. *)
Definition plain_ids w : Prop := forall n, plain (mgen (store (mdb (vmw w))) n) = true.

Lemma plain_ids_stmt {A} (q : VideoDB -> result dberr A * VideoDB) w :
  (forall d, mgen (vmedia (q d).2) = mgen (vmedia d)) -> plain_ids w -> plain_ids (on_video q w).2.
Proof.
  intros Hq Hw n. change (plain (mgen (vmedia (store (vdb (on_video q w).2))) n) = true).
  destruct (on_video_store q w) as [E|E]; rewrite E, ?Hq; apply Hw.
Qed.

Lemma create_video_id row d v : (q_CreateVideo row d).1 = Ok v -> vID v = next_job (vmedia d).
Proof. unfold q_CreateVideo. cbv zeta. repeat case_match; try done. by intros [= <-]. Qed.

Lemma draft_plain ch i w v w' :
  plain_ids w -> run video_handler (CreateDraft s ch i) w = (Ok v, w') -> plain (vID v) = true.
Proof.
  intros Hw Hrun.
  assert (He : ensures video_handler plain_ids (fun r => forall v, r = Ok v -> plain (vID v) = true) (CreateDraft s ch i)).
  2: { pose proof (proj1 (run_ensures _ _ _ _ _ He Hw) v) as Hp. rewrite Hrun in Hp. by apply Hp. }
  unfold CreateDraft. case_match; [done|]. eapply ensures_bind with (Q := fun _ => True).
  { destruct (vs_publishDefaults s); [|done]. eapply ensures_bind; [apply (ensures_call _ _ (fun _ => True)); done|done]. }
  intros def _. eapply ensures_bind with (Q := fun _ => True).
  { destruct (ciSupport i); [done|]. eapply ensures_bind with (Q := fun _ => True); [|done]. apply ensures_call.
    intros x Hx. split; [by apply plain_ids_stmt|done]. }
  intros support _. eapply ensures_bind with (Q := fun r => forall v, r = Ok v -> plain (vID v) = true).
  { apply ensures_call. intros x Hx. split.
    - apply plain_ids_stmt; [|done]. intros d. unfold q_CreateVideo. cbv zeta. by repeat case_match.
    - intros v' Hv'. cbn [video_handler] in Hv'. apply on_video_ok in Hv' as [Hq _]. rewrite (create_video_id _ _ _ Hq). apply Hx. }
  intros [v'|e] Hv'; [|done]. specialize (Hv' v' eq_refl). case_match; [by intros ? [= <-]|].
  eapply ensures_bind with (Q := fun _ => True).
  { apply (ensures_call _ _ (fun _ => True)). intros x Hx. split; [|done]. apply plain_ids_stmt; [|done]. intros d. unfold q_InsertVideoTags. by repeat case_match. }
  intros [[]|e] _; [by intros ? [= <-]|done].
Qed.

End Objects.

(** ** Recordings *)

Section Recordings.
Context {B : Type} `{Backend B, !Lister B}.
Implicit Types (w : lworld B) (s : LiveService).

(** The directory and the video service's world are left alone. *)
Definition reads X (e : liveE X) : Prop := match e with RemoveFile _ | VideoOp _ => False | _ => True end.

Definition same_files w w' : Prop := lrec w' = lrec w /\ lvideo w' = lvideo w.

#[local] Instance same_files_preorder : PreOrder same_files.
Proof. split; [done|]. intros x y z [? ?] [? ?]. split; congruence. Qed.

Lemma on_files_same {A} (q : option (gmap string Entry) -> result fserr A * option (gmap string Entry)) w :
  (forall d, (q d).2 = d) -> same_files w (on_files q w).2.
Proof. intros Hq. unfold on_files. case_match; [done|]. split; [|done]. cbn. apply Hq. Qed.

Lemma reads_step X (e : liveE X) w : reads X e -> same_files w (live_handler X e w).2.
Proof. destruct e; cbn [reads live_handler]; try done; intros _; by apply on_files_same. Qed.

Lemma run_dir_reads {A} (p : prog liveE A) w : ops reads p -> same_files w (run live_handler p w).2.
Proof. apply (run_rel live_handler reads same_files). intros X e w'. apply reads_step. Qed.

Lemma reads_stat keep entries : ops reads (stat_each keep entries).
Proof. induction entries as [|[name isDir] rest IH]; cbn [stat_each]; walk_ops; exact IH || exact I. Qed.

Lemma stat_each_found keep entries w c :
  c ∈ (run live_handler (stat_each keep entries) w).1 -> keep (cdName c) = true /\ (cdName c, false) ∈ entries.
Proof.
  revert w. induction entries as [|[name isDir] rest IH]; intros w; cbn [stat_each]; [by intros ?%not_elem_of_nil|].
  destruct (isDir || negb (keep name)) eqn:Hk.
  { intros [? ?]%IH. split; [done|by right]. }
  bools. subst isDir. rewrite !run_mbind, run_mret. cbn [run call fst snd].
  destruct ((live_handler _ (FileInfo name) w).1) as [t|e].
  - intros [->|Hin]%elem_of_cons; [split; [done|left]|]. apply IH in Hin as [? ?]. split; [done|by right].
  - intros [? ?]%IH. split; [done|by right].
Qed.

(** What is opened is a file of the stream, whole. *)
Lemma open_recording s id w rc name w' :
  run live_handler (OpenRecording s id) w = (Ok (rc, name), w') ->
  same_files w w' /\ recordingBelongsToStream name id = true /\
  exists m e, lrec w = Some m /\ m !! name = Some e /\ enDir e = false /\ rc = Reader [enData e] None false.
Proof.
  intros Hrun. assert (Hsame : same_files w w').
  { replace w' with (run live_handler (OpenRecording s id) w).2 by (by rewrite Hrun). apply run_dir_reads. unfold OpenRecording. walk_ops; try done. apply reads_stat. }
  split; [done|]. revert Hrun. unfold OpenRecording. destruct (l_root s); [|done]. cbn [negb]. rewrite run_mbind.
  destruct (run live_handler (call ReadDir) w) as [entries w1] eqn:Hdir. cbn [fst snd].
  destruct entries as [entries|[]]; [|done..]. rewrite run_mbind.
  pose proof (stat_each_found (fun name => recordingBelongsToStream name id) entries w1) as Hst.
  pose proof (run_dir_reads (stat_each (fun name => recordingBelongsToStream name id) entries) w1 (reads_stat _ _)) as [Hst1 _].
  destruct (run live_handler (stat_each _ entries) w1) as [cs w2]. cbn [fst snd] in *.
  destruct (merge_sort newest_first cs) as [|c rest] eqn:Hs; [done|].
  assert (Hc : c ∈ cs) by (rewrite <- (merge_sort_Permutation newest_first cs), Hs; left).
  destruct (Hst c Hc) as [Hb Hin]. rewrite run_mbind, run_mret.
  cbn in Hdir. unfold on_files in Hdir. destruct (lfsfail w (lfscalls w)); [done|]. cbn in Hdir. injection Hdir as Hm <-.
  unfold fs_ReadDir in Hm. cbn in Hm, Hst1. destruct (lrec w) as [m|] eqn:Hrec; [|done]. injection Hm as <-.
  apply list_elem_of_fmap in Hin as ([n e] & Heq & Hin). injection Heq as Hn Hd. cbn in Hn, Hd.
  rewrite (merge_sort_Permutation name_le) in Hin. apply elem_of_map_to_list in Hin. subst n.
  cbn. unfold on_files. destruct (lfsfail w2 (lfscalls w2)); [done|]. cbn. unfold fs_lookup. rewrite Hst1, Hin. cbn. intros [= <- <- _].
  split; [done|]. exists m, e. split_and!; [done|done|by symmetry|done].
Qed.

End Recordings.

(** ** Properties *)


(** ** Whose recording *)

Lemma HasPrefix_split s p : HasPrefix s p = true -> exists t, s = p +:+ t.
Proof.
  unfold HasPrefix. intros H. bools. revert s H. induction p as [|c p IH]; intros s H; [by exists s|].
  destruct s as [|d s]; [done|]. cbn in H. injection H as -> H. destruct (IH s H) as [t ->]. by exists t.
Qed.

Lemma laid_out_length l u : laid_out l u = true -> String.length u = length l.
Proof. revert u. induction l as [|b l IH]; intros [|c u]; cbn; try done. intros H. bools. by rewrite (IH u). Qed.

Lemma append_inj_length s s' t t' : String.length s = String.length s' -> s +:+ t = s' +:+ t' -> s = s'.
Proof.
  revert s'. induction s as [|c s IH]; intros [|d s'] Hl; try done. rewrite !app_cons. intros [= -> He]. f_equal. apply IH; [|done]. by injection Hl.
Qed.

(** A recording belongs to one stream only. *)
Lemma recording_of_one_stream name a b :
  canonical_uuid a = true -> canonical_uuid b = true ->
  recordingBelongsToStream name a = true -> recordingBelongsToStream name b = true -> a = b.
Proof.
  intros Ha%laid_out_length Hb%laid_out_length. unfold recordingBelongsToStream. case_match; [done|]. case_match; [done|].
  set (base := TrimSuffix _ _).
  assert (Hlen : forall x, length uuid_layout = String.length x -> bool_decide (base = x) || HasPrefix base (x +:+ "-") = true ->
    exists t, base = x +:+ t /\ String.length x = 36%nat).
  { intros x Hx [He|He]%orb_true_iff; bools.
    - exists EmptyString. rewrite He. split; [|by rewrite <- Hx]. clear. induction x as [|c x IH]; [done|]. rewrite app_cons. by rewrite <- IH.
    - apply HasPrefix_split in He as [t He]. exists ("-" +:+ t). split; [|by rewrite <- Hx]. by rewrite He, <- String_app_assoc. }
  intros (t & Ht & La)%Hlen (t' & Ht' & Lb)%Hlen; [|done..]. apply (append_inj_length a b t t'); [congruence|]. by rewrite <- Ht, <- Ht'.
Qed.

(** ** The retention sweep *)

Section Prune.
Context {B : Type} `{Backend B, !Lister B} (s : LiveService).
Implicit Types (w : lworld B).

Definition no_failures w : Prop := forall n, lfsfail w n = false.

Lemma run_stat_each keep entries w m :
  no_failures w -> lrec w = Some m ->
  let out := run live_handler (stat_each keep entries) w in
  no_failures out.2 /\ lrec out.2 = Some m /\
  out.1 = omap (fun nd => if nd.2 || negb (keep nd.1) then None else (fun e => mkCandidate nd.1 (enMod e)) <$> m !! nd.1) entries.
Proof.
  cbv zeta. revert w. induction entries as [|[name d] rest IH]; intros w Hf Hm; [done|]. cbn [stat_each omap list_omap fst snd].
  destruct (d || negb (keep name)); [by apply IH|].
  rewrite run_mbind. cbn [run call live_handler fst snd]. unfold on_files. rewrite Hf. cbn [fst snd]. set (w1 := with_lrec _ _).
  destruct (IH w1) as (H1 & H2 & H3); [exact Hf|unfold w1; cbn; done|].
  rewrite run_mbind. destruct (run live_handler (stat_each keep rest) w1) as [cs w2]. rewrite run_mret. cbn [fst snd] in *.
  split_and!; [done|done|]. unfold fs_Info, fs_lookup. rewrite Hm. destruct (m !! name); cbn; by rewrite H3.
Qed.

Lemma run_remove_all cs w m k :
  no_failures w -> lrec w = Some m ->
  let out := run live_handler (remove_all cs k) w in
  out.1 = k + Z.of_nat (length cs) /\ lrec out.2 = Some (foldl (fun m c => delete (cdName c) m) m cs).
Proof.
  cbv zeta. revert w m k. induction cs as [|c cs IH]; intros w m k Hf Hm; [cbn; split; [lia|done]|].
  cbn [remove_all]. rewrite run_mbind. cbn [run call live_handler fst snd]. unfold on_files. rewrite Hf. cbn [fst snd].
  set (w1 := with_lrec _ _).
  replace (match (fs_Remove (cdName c) (lrec w)).1 with Err FsOther => k | _ => k + 1 end) with (k + 1).
  2: { unfold fs_Remove, fs_lookup. rewrite Hm. by destruct (m !! cdName c). }
  destruct (IH w1 (delete (cdName c) m) (k + 1)) as [H1 H2]; [exact Hf|unfold w1; cbn; by rewrite Hm|].
  rewrite H1, H2. cbn [length foldl]. split; [lia|done].
Qed.

Lemma foldl_delete_lookup (cs : list candidate) (m : gmap string Entry) name :
  foldl (fun m c => delete (cdName c) m) m cs !! name = if decide (name ∈ map cdName cs) then None else m !! name.
Proof.
  revert m. induction cs as [|c cs IH]; intros m; cbn [foldl map]; [by rewrite decide_False by apply not_elem_of_nil|]. rewrite IH.
  destruct (decide (name ∈ map cdName cs)) as [Hin|Hnin]; [by rewrite decide_True by (by right)|].
  destruct (decide (name = cdName c)) as [->|Hne]; [rewrite lookup_delete_eq, decide_True by left; done|].
  rewrite lookup_delete_ne, decide_False; [done| |done]. by intros [?|?]%elem_of_cons.
Qed.

(** A recording last written before the cutoff. *)
Definition stale (cutoff : time) (name : string) (e : Entry) : Prop := enDir e = false /\ recordingFile name = true /\ enMod e < cutoff.

(** The candidates of a sweep. *)
Lemma sweep_candidates (m : gmap string Entry) cutoff cs :
  cs = filter (fun c => cdMod c < cutoff) (omap (fun nd => if nd.2 || negb (recordingFile nd.1) then None else (fun e => mkCandidate nd.1 (enMod e)) <$> m !! nd.1)
    (map (fun kv => (kv.1, enDir kv.2)) (merge_sort name_le (map_to_list m)))) ->
  NoDup (map cdName cs) /\ forall c, c ∈ cs <-> exists e, m !! cdName c = Some e /\ stale cutoff (cdName c) e /\ cdMod c = enMod e.
Proof.
  intros ->. split.
  - set (l := merge_sort name_le (map_to_list m)).
    assert (Hl : NoDup (map fst l)) by (unfold l; rewrite (merge_sort_Permutation name_le); apply NoDup_fst_map_to_list).
    clearbody l. induction l as [|[n e] l IH]; [constructor|]. cbn in Hl |- *. apply NoDup_cons in Hl as [Hn Hl].
    destruct (enDir e || negb (recordingFile n)); cbn; [by apply IH|]. destruct (m !! n) as [e'|]; cbn; [|by apply IH]. case_decide; [|by apply IH].
    cbn. constructor; [|by apply IH]. intros (c & Hc & Hin)%list_elem_of_fmap. apply list_elem_of_filter in Hin as [_ Hin].
    apply list_elem_of_omap in Hin as ([n' d'] & Hin & Hc'). apply list_elem_of_fmap in Hin as ([n2 e2] & Heq & Hin). injection Heq as -> ->.
    cbn in Hc'. case_match; [done|]. destruct (m !! n2); [|done]. injection Hc' as <-. cbn in Hc. subst. apply Hn, list_elem_of_fmap. by exists (n2, e2).
  - intros c. rewrite list_elem_of_filter, list_elem_of_omap. split.
    + intros (Hlt & [n d] & Hin & Hc). apply list_elem_of_fmap in Hin as ([n2 e2] & Heq & Hin). injection Heq as -> ->.
      rewrite (merge_sort_Permutation name_le) in Hin. apply elem_of_map_to_list in Hin. cbn in Hc. rewrite Hin in Hc.
      case_match eqn:Hk; [done|]. bools. injection Hc as <-. exists e2. by split_and!.
    + intros (e & He & (Hd & Hr & Hlt) & Hmod). split; [by rewrite Hmod|]. exists (cdName c, enDir e). split.
      * apply list_elem_of_fmap. exists (cdName c, e). split; [done|]. rewrite (merge_sort_Permutation name_le). by apply elem_of_map_to_list.
      * cbn. rewrite Hd, Hr, He. cbn. destruct c. cbn in *. by subst.
Qed.

End Prune.

(** The retention sweep is exact. On a file system that answers, one pass
    removes at most [batch] files, each of them a recording last written before
    the cutoff; if it leaves one such recording, the batch was full and nothing
    it removed was written later; every other entry, and every directory, is
    untouched. *)
Theorem prune_exact {B} `{Backend B, !Lister B} s cutoff batch (w : lworld B) m :
  no_failures w -> l_root s = true -> 0 < batch -> lrec w = Some m ->
  let out := run live_handler (DirPruneRecordings s cutoff batch) w in
  exists gone : gset string,
    out.1 = Ok (Z.of_nat (size gone)) /\ Z.of_nat (size gone) <= batch /\
    lrec out.2 = Some (filter (fun kv => kv.1 ∉ gone) m) /\
    (forall name, name ∈ gone -> exists e, m !! name = Some e /\ stale cutoff name e) /\
    (forall name e, m !! name = Some e -> stale cutoff name e -> name ∉ gone ->
       Z.of_nat (size gone) = batch /\ forall name' e', name' ∈ gone -> m !! name' = Some e' -> enMod e' <= enMod e).
Proof.
  intros Hf Hroot Hb Hm. cbv zeta. unfold DirPruneRecordings. rewrite Hroot, (proj2 (Z.leb_gt batch 0)) by done. cbn [negb orb].
  rewrite run_mbind. cbn [run call live_handler fst snd]. unfold on_files. rewrite Hf. cbn [fst snd]. unfold fs_ReadDir. rewrite Hm. cbn [fst snd].
  set (w1 := with_lrec _ _). rewrite run_mbind.
  destruct (run_stat_each recordingFile (map (fun kv => (kv.1, enDir kv.2)) (merge_sort name_le (map_to_list m))) w1 m) as (H1 & H2 & H3); [exact Hf|done|].
  destruct (run live_handler (stat_each recordingFile _) w1) as [cs w2]. cbn [fst snd] in *. subst cs.
  set (found := filter (fun c => cdMod c < cutoff) _). destruct (sweep_candidates m cutoff found eq_refl) as [Hnd Hin].
  set (l := merge_sort (by_key cdMod) found). assert (Hl : l ≡ₚ found) by apply merge_sort_Permutation.
  assert (Hsort : Sorted (by_key cdMod) l) by apply Sorted_merge_sort, _.
  clearbody l found. rewrite run_mbind, run_mret. cbn [fst snd].
  destruct (run_remove_all (take (Z.to_nat batch) l) w2 m 0 H1 H2) as [Hn Hrec]. rewrite Hn, Hrec.
  assert (Hndl : NoDup (map cdName l)) by (by rewrite Hl). exists (list_to_set (map cdName (take (Z.to_nat batch) l))).
  assert (Hndt : NoDup (map cdName (take (Z.to_nat batch) l))).
  { rewrite <- (take_drop (Z.to_nat batch) l), map_app in Hndl. by apply NoDup_app in Hndl as [? _]. }
  assert (Hsize : size (list_to_set (map cdName (take (Z.to_nat batch) l)) : gset string) = length (take (Z.to_nat batch) l)).
  { rewrite size_list_to_set by done. by rewrite length_map. }
  rewrite Hsize. split_and!.
  - done.
  - rewrite length_take. lia.
  - f_equal. apply map_eq. intros name. rewrite foldl_delete_lookup, map_lookup_filter. case_decide as Hd.
    + destruct (m !! name); cbn; [|done]. rewrite option_guard_False; [done|]. rewrite not_elem_of_list_to_set. tauto.
    + destruct (m !! name); cbn; [|done]. rewrite option_guard_True; [done|]. by rewrite not_elem_of_list_to_set.
  - intros name Hg. apply elem_of_list_to_set, list_elem_of_fmap in Hg as (c & -> & Hc). assert (Hj : c ∈ l) by (rewrite <- (take_drop (Z.to_nat batch) l); apply elem_of_app; by left).
    rewrite Hl in Hj. apply Hin in Hj as (e & He & Hst & _). by exists e.
  - intros name e He Hst Hng. rewrite not_elem_of_list_to_set in Hng. set (c := mkCandidate name (enMod e)).
    assert (Hc : c ∈ l) by (rewrite Hl; apply Hin; by exists e).
    assert (Hdrop : c ∈ drop (Z.to_nat batch) l).
    { rewrite <- (take_drop (Z.to_nat batch) l) in Hc. apply elem_of_app in Hc as [Hc|]; [|done]. destruct Hng.
      apply list_elem_of_fmap. by exists c. }
    split.
    + apply list_elem_of_lookup in Hdrop as [j Hj]. rewrite lookup_drop in Hj. apply lookup_lt_Some in Hj. rewrite length_take. lia.
    + intros name' e' Hg He'. apply elem_of_list_to_set, list_elem_of_fmap in Hg as (c' & -> & Hc').
      assert (Hmod : cdMod c' = enMod e').
      { assert (Hj : c' ∈ l) by (rewrite <- (take_drop (Z.to_nat batch) l); apply elem_of_app; by left). rewrite Hl in Hj. apply Hin in Hj as (e2 & He2 & _ & ->). congruence. }
      rewrite <- Hmod. change (enMod e) with (cdMod c). rewrite <- (take_drop (Z.to_nat batch) l) in Hsort.
      apply Sorted_StronglySorted in Hsort; [|apply _]. by eapply (StronglySorted_app_1_elem_of _ _ _ c' c Hsort).
Qed.

(** ** Scenarios *)

Module Session.

Definition stream : uuid := "11111111-2222-3333-4444-555555555555".
Definition name : string := stream +:+ "-1720000000.flv".

Definition row : LiveStream :=
  mkStream stream "channel" " Launch " "the launch" "unlisted" StateEnded false true "#key" None None 0 0 None None None EmptyString.

(** The session is over; one recording is on disk beside the media server's
    placeholder. [playable]: the prober reads it. *)
Definition world (playable : bool) : lworld LocalFS :=
  let v := demo_vworld [] false VPublished false in
  mkLWorld (Faulty (mkLiveDB {[stream := row]} {["channel"%string := mkLChannel "owner" "launch" "Launch"]} ∅ ∅ ∅ 100 (fun _ => "new"%string) 0) [])
    (mkVWorld (vmw v) (vt v)
      (if playable then vco v
       else {| co_Scan := co_Scan (vco v); co_Probe _ _ := None; co_Thumbnail := co_Thumbnail (vco v); co_Storyboard := co_Storyboard (vco v);
               co_First := co_First (vco v); co_Hash := co_Hash (vco v); co_Check := co_Check (vco v) |})
      0 (vset v) [] [] [])
    (Some {[name := mkEntry false 50 [Byte.x01; Byte.x02]; ".keep"%string := mkEntry false 1 []]})
    (fun _ => false) 0 (fun _ => None) 0 (fun _ => None) [] [] [].

Definition service : LiveService := mkLive true true true false true None None None None None.

Definition replay (playable : bool) : lworld LocalFS :=
  (run live_handler (RunReplay service demo_videos demo_service demo_digest stream) (world playable)).2.

Lemma ids_plain n : plain (Nat.iter n (String.append "j") "j"%string) = true.
Proof.
  assert (Hc : plain_chars (Nat.iter n (String.append "j") "j"%string) = true).
  { induction n as [|n IH]; [reflexivity|]. cbn [Nat.iter]. change ("j" +:+ ?t) with (String (Ascii.ascii_of_nat 106) t). exact IH. }
  unfold plain. rewrite Hc. destruct n; reflexivity.
Qed.

End Session.


(** A recording the prober does not read. [Process] fails the video and reports
    no error, so the replay is audited a success and the recording is deleted,
    with nothing to watch; the bytes survive only as the original of a failed
    video. *)
Lemma unplayable_replay_deletes_recording :
  let w := Session.replay false in
  lrec w = Some {[".keep"%string := mkEntry false 1 []]} /\
  map evResult (laudit w) = ["success"%string] /\
  map (fun kv => vState kv.2) (filter (fun kv => vChannel kv.2 = "channel"%string /\ kv.1 <> demo_video) (map_to_list (vrows (vt (lvideo w))))) = [VFailed].
Proof. cbv zeta. split_and!; vm_compute; reflexivity. Qed.
