(* ===== verification/LiveViewers.v ===== *)
(** * Concurrent viewers of a live stream (src/internal/live/viewers.go)

    The counter behind "watching now": one sorted set of viewer digests per
    stream in Redis, scored by the second they were last seen, and a read cache
    in the process. Redis is a parameter: [SortedSets] is what its documentation
    promises of the five commands used. *)
From S2P Require Import Prelude Playback.
Local Open Scope Z_scope.

(** ** Redis *)

(** A sorted set (members with their scores) and when the key expires. *)
Record zentry := mkZ { zmembers : gmap string Z; zexpires : option time }.

(** The key as a command at the time [t] finds it: gone when it has expired or
    is empty. *)
Definition live_at (t : time) (e : option zentry) : zentry :=
  match e with
  | Some z => if match zexpires z with Some x => x <=? t | None => false end then mkZ ∅ None else z
  | None => mkZ ∅ None
  end.

Definition members_at (t : time) (e : option zentry) : gmap string Z := zmembers (live_at t e).

(** ZADD, ZREMRANGEBYSCORE -inf (cutoff, EXPIRE, ZCOUNT cutoff +inf and DEL, at
    a time; [zkey] is the value at a key. *)
Class SortedSets (R : Type) := {
  ZAdd : time -> string -> string -> Z -> R -> R;
  ZRemRangeByScore : time -> string -> Z -> R -> R;
  Expire : time -> string -> duration -> R -> R;
  ZCount : time -> string -> Z -> R -> Z;
  Del : string -> R -> R;
  zkey : R -> string -> option zentry;
}.

Class SortedSetsLaws (R : Type) `{SortedSets R} := {
  zadd_key t k m sc (r : R) : zkey (ZAdd t k m sc r) k =
    Some (mkZ (<[m := sc]> (members_at t (zkey r k))) (zexpires (live_at t (zkey r k))));
  zadd_frame t k k' m sc (r : R) : k <> k' -> zkey (ZAdd t k m sc r) k' = zkey r k';
  zrem_key t k cutoff (r : R) : members_at t (zkey (ZRemRangeByScore t k cutoff r) k) =
    filter (fun mv => cutoff <= mv.2) (members_at t (zkey r k));
  zrem_frame t k k' cutoff (r : R) : k <> k' -> zkey (ZRemRangeByScore t k cutoff r) k' = zkey r k';
  expire_key t k ttl (r : R) : 0 < ttl -> members_at t (zkey r k) <> ∅ ->
    zkey (Expire t k ttl r) k = Some (mkZ (members_at t (zkey r k)) (Some (t + ttl)));
  expire_frame t k k' ttl (r : R) : k <> k' -> zkey (Expire t k ttl r) k' = zkey r k';
  zcount_is t k cutoff (r : R) : ZCount t k cutoff r = Z.of_nat (size (filter (fun mv => cutoff <= mv.2) (members_at t (zkey r k))));
  del_key k (r : R) : zkey (Del k r) k = None;
  del_frame k k' (r : R) : k <> k' -> zkey (Del k r) k' = zkey r k';
}.

(** ** The counter *)

Definition viewerWindow : duration := 90 * Second.
Definition viewerCountRefresh : duration := 10 * Second.
Definition viewerKeyTTL : duration := viewerWindow + Minute.

(** [viewerSetKey] *)
Definition viewerSetKey (id : uuid) : string := "live:viewers:" +:+ id.

Record viewerSnapshot := mkSnap { snCount : Z; snAt : time }.

(** What a counter calls: the clock, the three operations of [viewerStore]
    ([None] for an error), and its cache under the mutex. *)
Inductive viewE : Type -> Type :=
| VNow : viewE time
| Seen (key member : string) (now cutoff : Z) (ttl : duration) : viewE (option unit)
| CountSince (key : string) (cutoff : Z) : viewE (option Z)
| Drop (key : string) : viewE (option unit)
| CacheGet (id : uuid) : viewE (option viewerSnapshot)
| CachePut (id : uuid) (snap : viewerSnapshot) : viewE unit
| CacheDelete (id : uuid) : viewE unit.

Abbreviation V A := (prog viewE A) (only parsing).

(** [ViewerCounter.Touch] *)
Definition Touch (id : uuid) (digest : string) : V (option unit) :=
  if bool_decide (digest = EmptyString) then mret (Some tt) else
  now ← call VNow;
  call (Seen (viewerSetKey id) digest (Unix now) (Unix (now - viewerWindow)) viewerKeyTTL).

(** [ViewerCounter.Count]: the count, when it is known. *)
Definition Count (id : uuid) : V (option Z) :=
  now ← call VNow;
  snap ← call (CacheGet id);
  match (match snap with Some sn => if now - snAt sn <? viewerCountRefresh then Some (snCount sn) else None | None => None end) with
  | Some n => mret (Some n)
  | None =>
      r ← call (CountSince (viewerSetKey id) (Unix (now - viewerWindow)));
      match r with
      | None =>
          snap ← call (CacheGet id);
          mret (match snap with Some sn => if now - snAt sn <? viewerKeyTTL then Some (snCount sn) else None | None => None end)
      | Some n => _ ← call (CachePut id (mkSnap n now)); mret (Some n)
      end
  end.

(** [ViewerCounter.Reset] *)
Definition Reset (id : uuid) : V unit :=
  _ ← call (Drop (viewerSetKey id)); call (CacheDelete id).

(** ** The world *)

Record vcworld (R : Type) := mkVC { vredis : R; vcache : gmap uuid viewerSnapshot; vclk : time; vfaults : list fault }.
Arguments mkVC {R}.
Arguments vredis {R}.
Arguments vcache {R}.
Arguments vclk {R}.
Arguments vfaults {R}.

Section Handler.
Context {R : Type} `{SortedSets R}.
Implicit Types (w : vcworld R).

(** A command that may fail, before or after it took effect. *)
Definition on_redis {A} (q : R -> A * R) w : option A * vcworld R :=
  match vfaults w with
  | [] => (Some (q (vredis w)).1, mkVC (q (vredis w)).2 (vcache w) (vclk w) [])
  | Fine :: fs => (Some (q (vredis w)).1, mkVC (q (vredis w)).2 (vcache w) (vclk w) fs)
  | FailBefore :: fs => (None, mkVC (vredis w) (vcache w) (vclk w) fs)
  | FailAfter :: fs => (None, mkVC (q (vredis w)).2 (vcache w) (vclk w) fs)
  end.

(** [redisViewerStore.Seen]: one pipeline of three commands. *)
Definition redis_Seen (t : time) (key member : string) (now cutoff : Z) (ttl : duration) (r : R) : R :=
  Expire t key ttl (ZRemRangeByScore t key cutoff (ZAdd t key member now r)).

(** The eviction that rides a cache write. *)
Definition evicted (now : time) (c : gmap uuid viewerSnapshot) : gmap uuid viewerSnapshot :=
  filter (fun kv => now - snAt kv.2 <= viewerKeyTTL) c.

Definition view_handler : handler viewE (vcworld R) := fun X e w =>
  match e in viewE X return X * vcworld R with
  | VNow => (vclk w, w)
  | Seen key member now cutoff ttl => on_redis (fun r => (tt, redis_Seen (vclk w) key member now cutoff ttl r)) w
  | CountSince key cutoff => on_redis (fun r => (ZCount (vclk w) key cutoff r, r)) w
  | Drop key => on_redis (fun r => (tt, Del key r)) w
  | CacheGet id => (vcache w !! id, w)
  | CachePut id snap => (tt, mkVC (vredis w) (evicted (snAt snap) (<[id := snap]> (vcache w))) (vclk w) (vfaults w))
  | CacheDelete id => (tt, mkVC (vredis w) (delete id (vcache w)) (vclk w) (vfaults w))
  end.

End Handler.

(** ** A reference sorted-set store *)

#[global] Instance demo_redis : SortedSets (gmap string zentry) := {
  ZAdd t k m sc r := <[k := mkZ (<[m := sc]> (members_at t (r !! k))) (zexpires (live_at t (r !! k)))]> r;
  ZRemRangeByScore t k cutoff r :=
    <[k := mkZ (filter (fun mv => cutoff <= mv.2) (members_at t (r !! k))) (zexpires (live_at t (r !! k)))]> r;
  Expire t k ttl r := if bool_decide (members_at t (r !! k) = ∅) then r else <[k := mkZ (members_at t (r !! k)) (Some (t + ttl))]> r;
  ZCount t k cutoff r := Z.of_nat (size (filter (fun mv => cutoff <= mv.2) (members_at t (r !! k))));
  Del k r := delete k r;
  zkey r k := r !! k;
}.

#[global] Instance demo_redis_laws : SortedSetsLaws (gmap string zentry).
Proof.
  split; cbn; intros.
  - by rewrite lookup_insert_eq.
  - by rewrite lookup_insert_ne.
  - rewrite lookup_insert_eq. unfold members_at at 1, live_at at 1. cbn. case_match eqn:Hx; [|done]. cbn.
    unfold members_at, live_at in *. destruct (r !! k) as [z|]; [|done]. destruct (match zexpires z with Some x => x <=? t | None => false end) eqn:Hz;
      cbn in *; [done|congruence].
  - by rewrite lookup_insert_ne.
  - rewrite bool_decide_eq_false_2 by done. by rewrite lookup_insert_eq.
  - case_match; [done|]. by rewrite lookup_insert_ne.
  - done.
  - by rewrite lookup_delete_eq.
  - by rewrite lookup_delete_ne.
Qed.

(** ** What the counter promises *)

(** When each viewer of each stream was last seen, in seconds. *)
Abbreviation sightings := (gmap uuid (gmap string Z)) (only parsing).

Definition seen_of (A : sightings) (id : uuid) : gmap string Z := default ∅ (A !! id).

(** Those seen within the window that ends at [t]. *)
Definition recent (t : time) (m : gmap string Z) : gmap string Z := filter (fun mv => Unix (t - viewerWindow) <= mv.2) m.

Definition watching (A : sightings) (id : uuid) (t : time) : Z := Z.of_nat (size (recent t (seen_of A id))).

Inductive vcall := CTouch (id : uuid) (digest : string) | CCount (id : uuid) | CReset (id : uuid) | CWait (d : duration).

Section Counter.
Context {R : Type} `{SortedSetsLaws R}.
Implicit Types (w : vcworld R) (A : sightings).

(** One call, alone; time passes between calls. *)
Definition serve (c : vcall) w : option Z * vcworld R :=
  match c with
  | CTouch id digest => (None, (run view_handler (Touch id digest) w).2)
  | CCount id => run view_handler (Count id) w
  | CReset id => (None, (run view_handler (Reset id) w).2)
  | CWait d => (None, mkVC (vredis w) (vcache w) (vclk w + Z.max 0 d) (vfaults w))
  end.

(** The next command takes effect (though its answer may be lost). *)
Definition effective w : bool := match vfaults w with FailBefore :: _ => false | _ => true end.

(** What really happened: the sightings and resets that took effect. *)
Definition happened (c : vcall) w A : sightings :=
  match c with
  | CTouch id digest => if bool_decide (digest = EmptyString) || negb (effective w) then A else <[id := <[digest := Unix (vclk w)]> (seen_of A id)]> A
  | CReset id => if effective w then delete id A else A
  | _ => A
  end.

(** A run of calls: the world and the sightings it ends with, and every earlier
    moment with the sightings then. *)
Fixpoint history (cs : list vcall) w A : vcworld R * sightings * list (time * sightings) :=
  match cs with
  | [] => (w, A, [(vclk w, A)])
  | c :: cs => let '(w', A', past) := history cs (serve c w).2 (happened c w A) in (w', A', past ++ [(vclk w, A)])
  end.

Lemma viewerSetKey_inj id id' : viewerSetKey id = viewerSetKey id' -> id = id'.
Proof. unfold viewerSetKey. intros He. repeat (injection He as He). done. Qed.

Lemma Unix_mono t t' : t <= t' -> Unix t <= Unix t'.
Proof. intros. apply Z.div_le_mono; [unfold Second, Millisecond; lia|done]. Qed.

Lemma recent_recent t t' m : t <= t' -> recent t' (recent t m) = recent t' m.
Proof.
  intros Ht. unfold recent. rewrite map_filter_filter. apply map_filter_ext. intros k v _. cbn.
  pose proof (Unix_mono (t - viewerWindow) (t' - viewerWindow)). split; [by intros [? _]|]. intros. split; [done|]. lia.
Qed.

Lemma recent_insert t d u m m' : recent t m = recent t m' -> recent t (<[d := u]> m) = recent t (<[d := u]> m').
Proof.
  intros He. apply map_eq. intros k. assert (Hk : recent t m !! k = recent t m' !! k) by (by rewrite He). unfold recent in *.
  rewrite !map_lookup_filter in *. destruct (decide (k = d)) as [->|]; [by rewrite !lookup_insert_eq|by rewrite !lookup_insert_ne].
Qed.

(** The store holds what was seen, as far as any count from now on can tell. *)
Definition faithful w A : Prop :=
  (forall id t, vclk w <= t -> recent t (members_at t (zkey (vredis w) (viewerSetKey id))) = recent t (seen_of A id)) /\
  (forall id d u, seen_of A id !! d = Some u -> u <= Unix (vclk w)).

Lemma faithful_redis w A (q : R -> unit * R) A' :
  faithful w A -> (forall v fs, faithful (mkVC (q (vredis w)).2 v (vclk w) fs) A') ->
  faithful (on_redis q w).2 (if effective w then A' else A).
Proof. intros HA Hq. unfold on_redis, effective. destruct (vfaults w) as [|[] fs]; cbn; auto. Qed.

Lemma faithful_touch w A id d v fs :
  faithful w A ->
  faithful (mkVC (redis_Seen (vclk w) (viewerSetKey id) d (Unix (vclk w)) (Unix (vclk w - viewerWindow)) viewerKeyTTL (vredis w)) v (vclk w) fs)
    (<[id := <[d := Unix (vclk w)]> (seen_of A id)]> A).
Proof.
  intros [HA HU]. set (t0 := vclk w) in *. set (k := viewerSetKey id). set (r := vredis w) in *.
  set (X := <[d := Unix t0]> (members_at t0 (zkey r k))).
  assert (Hadd : members_at t0 (zkey (ZAdd t0 k d (Unix t0) r) k) = X).
  { rewrite zadd_key. unfold members_at at 1, live_at at 1. cbn. case_match eqn:Hx; [|done]. exfalso. unfold live_at in Hx.
    destruct (zkey r k) as [z|]; [|done]. destruct (match zexpires z with Some x => x <=? t0 | None => false end) eqn:Hz; cbn in *; congruence. }
  assert (Hrem : members_at t0 (zkey (ZRemRangeByScore t0 k (Unix (t0 - viewerWindow)) (ZAdd t0 k d (Unix t0) r)) k) = recent t0 X) by (by rewrite zrem_key, Hadd).
  assert (Hd : Unix (t0 - viewerWindow) <= Unix t0) by (apply Unix_mono; unfold viewerWindow, Second, Millisecond; lia).
  assert (Hne : recent t0 X <> ∅).
  { intros He. assert (Hl : recent t0 X !! d = None) by (by rewrite He). unfold recent, X in Hl. rewrite map_lookup_filter, lookup_insert_eq in Hl.
    cbn in Hl. by rewrite option_guard_True in Hl. }
  assert (Hkey : zkey (redis_Seen t0 k d (Unix t0) (Unix (t0 - viewerWindow)) viewerKeyTTL r) k = Some (mkZ (recent t0 X) (Some (t0 + viewerKeyTTL)))).
  { unfold redis_Seen. rewrite expire_key; [by rewrite Hrem|done|by rewrite Hrem]. }
  split; cbn [vclk vredis]; fold t0.
  - intros id' t Ht. destruct (decide (id' = id)) as [->|Hne'].
    + unfold seen_of at 1. rewrite lookup_insert_eq. cbn [default]. fold k. rewrite Hkey. unfold members_at, live_at. cbn.
      assert (Hsame : recent t X = recent t (<[d := Unix t0]> (seen_of A id))).
      { apply recent_insert. pose proof (HA id t0 (Z.le_refl t0)) as Hseen. fold k in Hseen.
        by rewrite <- (recent_recent t0 t (members_at t0 (zkey r k)) Ht), Hseen, recent_recent. }
      destruct (Z.leb_spec (t0 + viewerKeyTTL) t) as [Hexp|Hexp]; cbn.
      * unfold recent at 1. rewrite map_filter_empty. symmetry. apply map_empty. intros d'. unfold recent. rewrite map_lookup_filter.
        destruct (<[d := Unix t0]> (seen_of A id) !! d') as [u|] eqn:Hu; [|done]. cbn. rewrite option_guard_False; [done|]. cbn.
        assert (u <= Unix t0) by (apply lookup_insert_Some in Hu as [[_ <-]|[_ Hu]]; [done|by eapply HU]).
        assert (Unix (t0 + Second) <= Unix (t - viewerWindow)) by (apply Unix_mono; unfold viewerKeyTTL, Minute in Hexp; unfold Second, Millisecond in *; lia).
        assert (Unix (t0 + Second) = Unix t0 + 1) by (unfold Unix; replace (t0 + Second) with (t0 + 1 * Second) by lia; rewrite Z.div_add by done; lia). lia.
      * by rewrite recent_recent.
    + unfold seen_of at 1. rewrite lookup_insert_ne by done. unfold redis_Seen.
      assert (Hk : k <> viewerSetKey id') by (intros ?%viewerSetKey_inj; done).
      rewrite expire_frame, zrem_frame, zadd_frame by done. by apply HA.
  - intros id' d' u. unfold seen_of. destruct (decide (id' = id)) as [->|]; [rewrite lookup_insert_eq|rewrite lookup_insert_ne by done].
    + intros Hu. change (default ∅ (A !! id)) with (seen_of A id) in Hu. cbn in Hu. apply lookup_insert_Some in Hu as [[_ <-]|[_ Hu]]; [done|by eapply HU].
    + apply HU.
Qed.

Lemma faithful_reset w A id v fs :
  faithful w A -> faithful (mkVC (Del (viewerSetKey id) (vredis w)) v (vclk w) fs) (delete id A).
Proof.
  intros [HA HU]. split; cbn.
  - intros id' t Ht. unfold seen_of. destruct (decide (id' = id)) as [->|Hne].
    + rewrite del_key, lookup_delete_eq. done.
    + rewrite del_frame by (by intros ?%viewerSetKey_inj). rewrite lookup_delete_ne by done. by apply HA.
  - intros id' d u. unfold seen_of. destruct (decide (id' = id)) as [->|Hne]; [by rewrite lookup_delete_eq|]. rewrite lookup_delete_ne by done. apply HU.
Qed.

(** Cached counts are counts of earlier moments. *)
Definition cached_ok w (past : list (time * sightings)) : Prop :=
  forall id sn, vcache w !! id = Some sn -> snAt sn <= vclk w /\ exists A, (snAt sn, A) ∈ past /\ snCount sn = watching A id (snAt sn).

Lemma faithful_cache w A c : faithful w A -> faithful (mkVC (vredis w) c (vclk w) (vfaults w)) A.
Proof. done. Qed.

Lemma faithful_later w A d : faithful w A -> faithful (mkVC (vredis w) (vcache w) (vclk w + Z.max 0 d) (vfaults w)) A.
Proof.
  intros [HA HU]. split; cbn; [intros id t Ht; apply HA; lia|]. intros id d' u Hu. etrans; [by eapply HU|]. apply Unix_mono. lia.
Qed.

Lemma on_redis_cache {X} (q : R -> X * R) w : vcache (on_redis q w).2 = vcache w /\ vclk (on_redis q w).2 = vclk w.
Proof. unfold on_redis. by destruct (vfaults w) as [|[] fs]. Qed.

Lemma faithful_read {X} (q : R -> X) w A : faithful w A -> faithful (on_redis (fun r => (q r, r)) w).2 A.
Proof. intros HA. unfold on_redis. by destruct (vfaults w) as [|[] fs]. Qed.

(** A count and where it comes from: fresh, or remembered for less than the
    refresh interval, or for less than the lifetime of the set when the store
    did not answer. *)
Definition count_source w A (past : list (time * sightings)) id (n : Z) : Prop :=
  n = watching A id (vclk w) \/
  exists t A', (t, A') ∈ past /\ n = watching A' id t /\ t <= vclk w /\
    (vclk w < t + viewerCountRefresh \/ vclk w < t + viewerKeyTTL /\ exists f fs, vfaults w = f :: fs /\ f <> Fine).

Lemma run_Count id w A past :
  faithful w A -> cached_ok w past ->
  let out := run view_handler (Count id) w in
  faithful out.2 A /\ vclk out.2 = vclk w /\ cached_ok out.2 ((vclk w, A) :: past) /\
  match out.1 with Some n => count_source w A past id n | None => exists f fs, vfaults w = f :: fs /\ f <> Fine end.
Proof.
  intros HA HC. cbv zeta.
  assert (HC' : cached_ok w ((vclk w, A) :: past)).
  { intros i sn Hi. destruct (HC i sn Hi) as (? & A' & Hin & ?). split; [done|]. exists A'. split; [by right|done]. }
  unfold Count. rewrite run_mbind. cbn [run call view_handler fst snd]. rewrite run_mbind. cbn [run call view_handler fst snd].
  assert (Hold : forall sn, vcache w !! id = Some sn -> forall K : Prop,
    (K -> vclk w < snAt sn + viewerCountRefresh \/ vclk w < snAt sn + viewerKeyTTL /\ exists f fs, vfaults w = f :: fs /\ f <> Fine) -> K -> count_source w A past id (snCount sn)).
  { intros sn Hsn K HK k. destruct (HC id sn Hsn) as (Hle & A' & Hin & Hn). right. exists (snAt sn), A'. auto. }
  destruct (match vcache w !! id with Some sn => _ | None => None end) as [n|] eqn:Hsnap.
  { rewrite run_mret. cbn. split_and!; try done. destruct (vcache w !! id) as [sn|] eqn:Hsn; [|done].
    case_match eqn:Hlt; [|done]. injection Hsnap as <-. apply (Hold sn eq_refl True); [|done]. left. apply Z.ltb_lt in Hlt. lia. }
  clear Hsnap. rewrite run_mbind. cbn [run call view_handler fst snd]. set (q := fun r => (ZCount (vclk w) (viewerSetKey id) (Unix (vclk w - viewerWindow)) r, r)).
  pose proof (faithful_read (fun r => ZCount (vclk w) (viewerSetKey id) (Unix (vclk w - viewerWindow)) r) w A HA) as HA1. change (faithful (on_redis q w).2 A) in HA1.
  destruct (on_redis_cache q w) as [Hc1 Hk1].
  assert (Hans : match (on_redis q w).1 with
                 | Some n => n = watching A id (vclk w)
                 | None => exists f fs, vfaults w = f :: fs /\ f <> Fine end).
  { assert (Hz : (q (vredis w)).1 = watching A id (vclk w)).
    { cbn. rewrite zcount_is. unfold watching. f_equal. f_equal. by apply HA. }
    unfold on_redis. destruct (vfaults w) as [|[] fs]; cbn [fst]; eauto. }
  destruct (on_redis q w) as [[n|] w1]; cbn [fst snd] in *.
  - subst n. rewrite run_mbind, run_mret. cbn. split_and!; [exact HA1|exact Hk1| |by left].
    intros i sn. cbn. intros Hi. unfold evicted in Hi. apply map_lookup_filter_Some in Hi as [Hi _].
    apply lookup_insert_Some in Hi as [[<- <-]|[_ Hi]]; [|rewrite Hk1; apply HC'; congruence]. cbn. split; [lia|]. exists A. split; [left|done].
  - rewrite run_mbind. cbn [run call view_handler fst snd]. rewrite run_mret. cbn. split_and!; [exact HA1|exact Hk1|intros i sn Hi; rewrite Hk1; apply HC'; congruence|].
    rewrite Hc1. destruct (vcache w !! id) as [sn|] eqn:Hsn; [|done]. destruct (Z.ltb_spec (vclk w - snAt sn) viewerKeyTTL) as [Hlt|]; [|done].
    apply (Hold sn eq_refl True); [|done]. right. split; [lia|done].
Qed.

Lemma cached_weaken w past past' : cached_ok w past -> (forall x, x ∈ past -> x ∈ past') -> cached_ok w past'.
Proof. intros HC Hp id sn Hi. destruct (HC id sn Hi) as (? & A & ? & ?). split; [done|]. exists A. auto. Qed.

Lemma serve_ok c w A past :
  faithful w A -> cached_ok w past -> faithful (serve c w).2 (happened c w A) /\ cached_ok (serve c w).2 ((vclk w, A) :: past).
Proof.
  intros HA HC. assert (HC' : cached_ok w ((vclk w, A) :: past)) by (eapply cached_weaken; [done|]; by right).
  destruct c as [id d|id|id|d]; cbn [serve happened snd].
  - unfold Touch. case_bool_decide; [done|]. cbn [orb]. rewrite run_mbind. cbn [run call view_handler fst snd].
    set (q := fun r => (tt, redis_Seen _ _ _ _ _ _ r)). destruct (on_redis_cache q w) as [Hc Hk]. split.
    + replace (if negb (effective w) then A else _) with (if effective w then <[id := <[d := Unix (vclk w)]> (seen_of A id)]> A else A) by (by destruct (effective w)).
      apply faithful_redis; [done|]. intros v fs. by apply faithful_touch.
    + intros i sn Hi. rewrite Hc in Hi. rewrite Hk. by apply HC'.
  - destruct (run_Count id w A past HA HC) as (H1 & _ & H3 & _). by split.
  - unfold Reset. rewrite run_mbind. cbn [run call view_handler fst snd]. set (q := fun r => (tt, Del _ r)). destruct (on_redis_cache q w) as [Hc Hk]. split.
    + apply faithful_cache. apply faithful_redis; [done|]. intros v fs. by apply faithful_reset.
    + intros i sn Hi. cbn in Hi. apply lookup_delete_Some in Hi as [_ Hi]. rewrite Hc in Hi. cbn. rewrite Hk. by apply HC'.
  - split; [by apply faithful_later|]. intros i sn Hi. cbn in *. destruct (HC' i sn Hi) as (? & A' & ? & ?). split; [lia|]. by exists A'.
Qed.

Lemma history_ok cs w A past :
  faithful w A -> cached_ok w past ->
  let '(w', A', past') := history cs w A in faithful w' A' /\ cached_ok w' (past' ++ past).
Proof.
  revert w A past. induction cs as [|c cs IH]; intros w A past HA HC; cbn [history].
  - split; [done|]. eapply cached_weaken; [done|]. intros x Hx. by right.
  - destruct (serve_ok c w A past HA HC) as [HA1 HC1]. specialize (IH _ _ _ HA1 HC1).
    destruct (history cs (serve c w).2 (happened c w A)) as [[w' A'] past']. destruct IH as [H1 H2]. split; [done|]. by rewrite <- app_assoc.
Qed.

(** C22. The viewer count is exact, up to its cache. After any sequence of playlist
    fetches, counts, resets and waits, with commands that fail before or after
    they took effect, a count that is reported is the number of different
    viewers whose last fetch since the last reset falls in the ninety-second
    window that ends now; or that number at an earlier moment, less than ten
    seconds ago, or, when the store does not answer now, less than two and a
    half minutes ago. And a count is not reported only when the store does not
    answer. *)
Theorem viewer_count_exact (r : R) t0 fs cs id :
  (forall k, zkey r k = None) ->
  let w := mkVC r ∅ t0 fs in
  let '(w', A, past) := history cs w ∅ in
  let silent := exists f fs', vfaults w' = f :: fs' /\ f <> Fine in
  match (serve (CCount id) w').1 with
  | Some n =>
      n = watching A id (vclk w') \/
      exists t A', (t, A') ∈ past /\ n = watching A' id t /\ t <= vclk w' /\
        (vclk w' < t + viewerCountRefresh \/ vclk w' < t + viewerKeyTTL /\ silent)
  | None => silent
  end.
Proof.
  intros Hr. cbv zeta. assert (HA : faithful (mkVC r ∅ t0 fs) ∅).
  { split; cbn; [intros i t _; by rewrite Hr|]. intros i d u. unfold seen_of. by rewrite lookup_empty. }
  pose proof (history_ok cs (mkVC r ∅ t0 fs) ∅ [] HA ltac:(intros i sn; cbn; by rewrite lookup_empty)) as Hh.
  destruct (history cs (mkVC r ∅ t0 fs) ∅) as [[w' A] past]. destruct Hh as [H1 H2]. rewrite app_nil_r in H2.
  destruct (run_Count id w' A past H1 H2) as (_ & _ & _ & Hn). exact Hn.
Qed.
End Counter.

(** Two viewers, one of whom leaves. *)
Definition demo_calls : list vcall :=
  [CTouch "s" "ann"; CTouch "s" "bob"; CWait (60 * Second); CTouch "s" "bob"; CWait (45 * Second)]%string.

Lemma viewer_count_exact_witness :
  let '(w', A, past) := history demo_calls (mkVC (∅ : gmap string zentry) ∅ 0 []) ∅ in
  (serve (CCount "s") w').1 = Some 1 /\
  (1 = watching A "s" (vclk w') \/
   exists t A', (t, A') ∈ past /\ 1 = watching A' "s" t /\ t <= vclk w' /\
     (vclk w' < t + viewerCountRefresh \/ vclk w' < t + viewerKeyTTL /\ exists f fs', vfaults w' = f :: fs' /\ f <> Fine)).
Proof.
  assert (Hs : (serve (CCount "s") (history demo_calls (mkVC (∅ : gmap string zentry) ∅ 0 []) ∅).1.1).1 = Some 1) by (vm_compute; reflexivity).
  pose proof (viewer_count_exact (∅ : gmap string zentry) 0 [] demo_calls "s" (fun k => lookup_empty k)) as Hx. cbv zeta in Hx.
  destruct (history demo_calls _ _) as [[w' A] past]. cbn [fst] in Hs. rewrite Hs in Hx. split; [exact Hs|exact Hx].
Defined.

(** A count that was under way when the broadcast ended writes the old number
    back into the cache: the next session opens with the viewers of the last. *)
Lemma count_in_flight_survives_reset :
  let w := (serve (CTouch "s" "ann") (mkVC (∅ : gmap string zentry) ∅ 0 [])).2 in
  let c := schedule view_handler [0; 0; 0; 1; 1; 0]%nat [Count "s"; (_ ← Reset "s"; mret None)] w in
  zkey (vredis c.2) (viewerSetKey "s") = None /\ (serve (CCount "s") c.2).1 = Some 1.
Proof. cbv zeta. split; vm_compute; reflexivity. Qed.
