(* ===== verification/MessageStore.v ===== *)
(** * The tables of direct messages

    Conversations, participants, messages, attachments, link previews, blocks,
    and the devices, one-time keys and envelopes of encrypted messaging: rows,
    one definition per statement of src/internal/store/queries/messaging.sql,
    e2ee.sql, user_blocks.sql and notification_prefs.sql (the two the services
    use), and the signature [dmE] that src/internal/messaging,
    src/internal/e2ee and src/internal/block run against. *)
From S2P Require Import Prelude GoStrings Storage.
Local Open Scope Z_scope.

(** ** Rows *)

(** [duAvatar]: a row of [user_images] of kind avatar exists. *)
Record DUser := mkDUser { duName : string; duDisplay : string; duActive : bool; duAvatar : bool }.

Record Conv := mkConv { cvKey : option string; cvEncrypted : bool; cvCreated : time; cvUpdated : time }.

Record Msg := mkMsg {
  mgConv : uuid; mgSender : uuid; mgBody : string; mgCreated : time; mgDeleted : option time; mgPreview : option string;
}.

Record Att := mkAtt {
  atConv : uuid; atUploader : uuid; atMessage : option uuid; atKind : string; atType : string; atFilename : string;
  atSize : Z; atKey : string; atCreated : time; atWidth : option Z; atHeight : option Z;
}.

Inductive pstate := Pending | Ready | Failed.

#[global] Instance pstate_eq_dec : EqDecision pstate.
Proof. solve_decision. Defined.

Record Preview := mkPreview { pvURL : string; pvState : pstate; pvTitle : string; pvDescription : string; pvImage : string }.

Record EDevice := mkEDevice {
  edUser : uuid; edName : string; edIdentity : string; edSigning : string; edCreated : time; edSeen : time;
}.

Record OTK := mkOTK { okDevice : uuid; okKeyID : string; okKey : string; okClaimed : option time; okCreated : time }.

Record Env := mkEnv {
  evConv : uuid; evFrom : uuid; evTo : uuid; evType : Z; evCipher : string; evCreated : time; evExpires : option time;
}.

#[global] Instance Conv_eq_dec : EqDecision Conv.
Proof. solve_decision. Defined.
#[global] Instance Msg_eq_dec : EqDecision Msg.
Proof. solve_decision. Defined.
#[global] Instance Att_eq_dec : EqDecision Att.
Proof. solve_decision. Defined.
#[global] Instance OTK_eq_dec : EqDecision OTK.
Proof. solve_decision. Defined.
#[global] Instance Env_eq_dec : EqDecision Env.
Proof. solve_decision. Defined.

(** [dmParts]: for (conversation, user), the read watermark. [dmHandles]: the
    channel handles with their owners. [dmGen]: the ids the database
    generates. *)
Record DMDB := mkDM {
  dmUsers : gmap uuid DUser;
  dmHandles : gmap string uuid;
  dmPrefs : gmap (uuid * string) bool;
  dmBlocks : gmap (uuid * uuid) time;
  dmConvs : gmap uuid Conv;
  dmParts : gmap (uuid * uuid) (option uuid);
  dmMsgs : gmap uuid Msg;
  dmAtts : gmap uuid Att;
  dmPreviews : gmap string Preview;
  dmDevices : gmap uuid EDevice;
  dmKeys : gmap uuid OTK;
  dmEnvs : gmap uuid Env;
  dmNow : time;
  dmGen : nat -> uuid;
  dmDrawn : nat;
}.

Definition set_prefs f d := mkDM (dmUsers d) (dmHandles d) (f (dmPrefs d)) (dmBlocks d) (dmConvs d) (dmParts d) (dmMsgs d) (dmAtts d) (dmPreviews d) (dmDevices d) (dmKeys d) (dmEnvs d) (dmNow d) (dmGen d) (dmDrawn d).
Definition set_blocks f d := mkDM (dmUsers d) (dmHandles d) (dmPrefs d) (f (dmBlocks d)) (dmConvs d) (dmParts d) (dmMsgs d) (dmAtts d) (dmPreviews d) (dmDevices d) (dmKeys d) (dmEnvs d) (dmNow d) (dmGen d) (dmDrawn d).
Definition set_convs f d := mkDM (dmUsers d) (dmHandles d) (dmPrefs d) (dmBlocks d) (f (dmConvs d)) (dmParts d) (dmMsgs d) (dmAtts d) (dmPreviews d) (dmDevices d) (dmKeys d) (dmEnvs d) (dmNow d) (dmGen d) (dmDrawn d).
Definition set_parts f d := mkDM (dmUsers d) (dmHandles d) (dmPrefs d) (dmBlocks d) (dmConvs d) (f (dmParts d)) (dmMsgs d) (dmAtts d) (dmPreviews d) (dmDevices d) (dmKeys d) (dmEnvs d) (dmNow d) (dmGen d) (dmDrawn d).
Definition set_msgs f d := mkDM (dmUsers d) (dmHandles d) (dmPrefs d) (dmBlocks d) (dmConvs d) (dmParts d) (f (dmMsgs d)) (dmAtts d) (dmPreviews d) (dmDevices d) (dmKeys d) (dmEnvs d) (dmNow d) (dmGen d) (dmDrawn d).
Definition set_atts f d := mkDM (dmUsers d) (dmHandles d) (dmPrefs d) (dmBlocks d) (dmConvs d) (dmParts d) (dmMsgs d) (f (dmAtts d)) (dmPreviews d) (dmDevices d) (dmKeys d) (dmEnvs d) (dmNow d) (dmGen d) (dmDrawn d).
Definition set_previews f d := mkDM (dmUsers d) (dmHandles d) (dmPrefs d) (dmBlocks d) (dmConvs d) (dmParts d) (dmMsgs d) (dmAtts d) (f (dmPreviews d)) (dmDevices d) (dmKeys d) (dmEnvs d) (dmNow d) (dmGen d) (dmDrawn d).
Definition set_devices f d := mkDM (dmUsers d) (dmHandles d) (dmPrefs d) (dmBlocks d) (dmConvs d) (dmParts d) (dmMsgs d) (dmAtts d) (dmPreviews d) (f (dmDevices d)) (dmKeys d) (dmEnvs d) (dmNow d) (dmGen d) (dmDrawn d).
Definition set_keys f d := mkDM (dmUsers d) (dmHandles d) (dmPrefs d) (dmBlocks d) (dmConvs d) (dmParts d) (dmMsgs d) (dmAtts d) (dmPreviews d) (dmDevices d) (f (dmKeys d)) (dmEnvs d) (dmNow d) (dmGen d) (dmDrawn d).
Definition set_envs f d := mkDM (dmUsers d) (dmHandles d) (dmPrefs d) (dmBlocks d) (dmConvs d) (dmParts d) (dmMsgs d) (dmAtts d) (dmPreviews d) (dmDevices d) (dmKeys d) (f (dmEnvs d)) (dmNow d) (dmGen d) (dmDrawn d).
Definition draw_dm d := mkDM (dmUsers d) (dmHandles d) (dmPrefs d) (dmBlocks d) (dmConvs d) (dmParts d) (dmMsgs d) (dmAtts d) (dmPreviews d) (dmDevices d) (dmKeys d) (dmEnvs d) (dmNow d) (dmGen d) (S (dmDrawn d)).

Abbreviation dstmt A := (DMDB -> result dberr A * DMDB) (only parsing).

(** ** Accounts, preferences and blocks *)

Definition q_GetUserByID (id : uuid) : dstmt (uuid * DUser) := fun d =>
  (match dmUsers d !! id with Some u => Ok (id, u) | None => Err ErrNoRows end, d).

(** Active accounts only, up to case. *)
Definition q_GetUserByUsername (name : string) : dstmt (uuid * DUser) := fun d =>
  (match filter (fun r => ToLower (duName r.2) = ToLower name /\ duActive r.2 = true) (rows_of (dmUsers d)) with
   | r :: _ => Ok r
   | [] => Err ErrNoRows
   end, d).

Definition q_IsNotificationTypeEnabled (user : uuid) (type : string) : dstmt bool := fun d =>
  (Ok (default true (dmPrefs d !! (user, type))), d).

Definition q_UpsertNotificationPref (user : uuid) (type : string) (enabled : bool) : dstmt unit := fun d =>
  if bool_decide (dmUsers d !! user = None) then (Err ErrForeignKey, d) else (Ok tt, set_prefs <[(user, type) := enabled]> d).

Definition q_BlockUser (blocker blocked : uuid) : dstmt Z := fun d =>
  if bool_decide (blocker = blocked) then (Err ErrStore, d)
  else if bool_decide (is_Some (dmBlocks d !! (blocker, blocked))) then (Ok 0, d)
  else if bool_decide (dmUsers d !! blocker = None) || bool_decide (dmUsers d !! blocked = None) then (Err ErrForeignKey, d)
  else (Ok 1, set_blocks <[(blocker, blocked) := dmNow d]> d).

Definition q_UnblockUser (blocker blocked : uuid) : dstmt Z := fun d =>
  (Ok (if bool_decide (is_Some (dmBlocks d !! (blocker, blocked))) then 1 else 0), set_blocks (delete (blocker, blocked)) d).

(** The handles an account publishes under, in order. *)
Definition string_before (x y : string) : Prop := String.leb x y = true.

#[global] Instance string_before_dec : RelDecision string_before.
Proof. intros x y. unfold string_before. apply _. Defined.

Definition handles_of (owner : uuid) (d : DMDB) : list string :=
  merge_sort string_before (map fst (filter (fun r => r.2 = owner) (map_to_list (dmHandles d)))).

Record BlockedRow := mkBlockedRow { brUser : uuid; brName : string; brDisplay : string; brAt : time; brHandles : list string }.

Definition blocks_of (blocker : uuid) (d : DMDB) : list BlockedRow :=
  omap (fun r => if bool_decide (r.1.1 = blocker)
                 then (fun u => mkBlockedRow r.1.2 (duName u) (duDisplay u) r.2 (handles_of r.1.2 d)) <$> dmUsers d !! r.1.2
                 else None) (map_to_list (dmBlocks d)).

(** ORDER BY created_at DESC, blocked_id *)
Definition block_order (x y : BlockedRow) : Prop := brAt y < brAt x \/ brAt x = brAt y /\ String.leb (brUser x) (brUser y) = true.

#[global] Instance block_order_dec : RelDecision block_order.
Proof. intros x y. unfold block_order. apply _. Defined.

Definition q_ListBlockedUsers (blocker : uuid) (limit offset : Z) : dstmt (list BlockedRow) := fun d =>
  (Ok (paged limit offset (merge_sort block_order (blocks_of blocker d))), d).

Definition q_CountBlockedUsers (blocker : uuid) : dstmt Z := fun d => (Ok (Z.of_nat (length (blocks_of blocker d))), d).

Definition q_IsBlockedBetween (a b : uuid) : dstmt bool := fun d =>
  (Ok (bool_decide (is_Some (dmBlocks d !! (a, b))) || bool_decide (is_Some (dmBlocks d !! (b, a)))), d).

(** ** Conversations *)

Definition conv_by_key (key : string) (d : DMDB) : option (uuid * Conv) :=
  head (filter (fun r => cvKey r.2 = Some key) (rows_of (dmConvs d))).

(** INSERT … ON CONFLICT (dm_key) DO NOTHING RETURNING: no row on conflict. *)
Definition insert_conv (key : string) (encrypted : bool) : dstmt (uuid * Conv) := fun d =>
  let id := dmGen d (dmDrawn d) in
  let row := mkConv (Some key) encrypted (dmNow d) (dmNow d) in
  if bool_decide (is_Some (conv_by_key key d)) then (Err ErrNoRows, draw_dm d)
  else if bool_decide (is_Some (dmConvs d !! id)) then (Err ErrUnique, draw_dm d)
  else (Ok (id, row), set_convs <[id := row]> (draw_dm d)).

Definition q_CreateConversation (key : string) : dstmt (uuid * Conv) := insert_conv key false.
Definition q_CreateE2EEConversation (key : string) : dstmt (uuid * Conv) := insert_conv key true.

Definition q_GetConversationByDMKey (key : string) : dstmt (uuid * Conv) := fun d =>
  (match conv_by_key key d with Some r => Ok r | None => Err ErrNoRows end, d).

Definition q_GetE2EEConversationByDMKey (key : string) : dstmt (uuid * Conv) := fun d =>
  (match conv_by_key key d with
   | Some r => if cvEncrypted r.2 then Ok r else Err ErrNoRows
   | None => Err ErrNoRows
   end, d).

Definition q_AddConversationParticipant (conv user : uuid) : dstmt unit := fun d =>
  if bool_decide (is_Some (dmParts d !! (conv, user))) then (Ok tt, d)
  else if bool_decide (dmConvs d !! conv = None) || bool_decide (dmUsers d !! user = None) then (Err ErrForeignKey, d)
  else (Ok tt, set_parts <[(conv, user) := None]> d).

Definition is_member (conv user : uuid) (d : DMDB) : bool := bool_decide (is_Some (dmParts d !! (conv, user))).

Definition q_IsConversationParticipant (conv user : uuid) : dstmt bool := fun d => (Ok (is_member conv user d), d).

(** The members of a conversation other than the given one, with what they
    have read. *)
Definition others (conv user : uuid) (d : DMDB) : list (uuid * option uuid) :=
  omap (fun r => if bool_decide (r.1.1 = conv) && negb (bool_decide (r.1.2 = user)) then Some (r.1.2, r.2) else None)
    (map_to_list (dmParts d)).

Definition q_GetOtherParticipant (conv user : uuid) : dstmt uuid := fun d =>
  (match others conv user d with r :: _ => Ok r.1 | [] => Err ErrNoRows end, d).

Definition q_GetPeerReadWatermark (conv user : uuid) : dstmt (option uuid) := fun d =>
  (match others conv user d with r :: _ => Ok r.2 | [] => Err ErrNoRows end, d).

Definition q_TouchConversation (conv : uuid) : dstmt unit := fun d =>
  (Ok tt, set_convs (alter (fun c => mkConv (cvKey c) (cvEncrypted c) (cvCreated c) (dmNow d)) conv) d).

Definition q_GetConversationForParticipant (conv user : uuid) : dstmt bool := fun d =>
  (if is_member conv user d then match dmConvs d !! conv with Some c => Ok (cvEncrypted c) | None => Err ErrNoRows end
   else Err ErrNoRows, d).

Definition q_UsersShareConversation (a b : uuid) : dstmt bool := fun d =>
  (Ok (existsb (fun r => bool_decide (r.1.2 = a) && is_member r.1.1 b d) (map_to_list (dmParts d))), d).

(** ** Messages *)

Definition q_CreateMessage (conv sender : uuid) (body : string) : dstmt (uuid * Msg) := fun d =>
  let id := dmGen d (dmDrawn d) in
  let row := mkMsg conv sender body (dmNow d) None None in
  if bool_decide (dmConvs d !! conv = None) || bool_decide (dmUsers d !! sender = None) then (Err ErrForeignKey, draw_dm d)
  else if bool_decide (is_Some (dmMsgs d !! id)) then (Err ErrUnique, draw_dm d)
  else (Ok (id, row), set_msgs <[id := row]> (draw_dm d)).

Definition q_GetMessage (id : uuid) : dstmt (uuid * Msg) := fun d =>
  (match dmMsgs d !! id with Some m => Ok (id, m) | None => Err ErrNoRows end, d).

Definition msg_key (r : uuid * Msg) : time * uuid := (mgCreated r.2, r.1).

Definition msgs_of (conv : uuid) (d : DMDB) : list (uuid * Msg) := filter (fun r => mgConv r.2 = conv) (rows_of (dmMsgs d)).

(** A conversation from its newest message. *)
Definition thread (conv : uuid) (d : DMDB) : list (uuid * Msg) := merge_sort (on_key msg_key newest) (msgs_of conv d).

Definition q_GetLatestMessageID (conv : uuid) : dstmt uuid := fun d =>
  (match thread conv d with r :: _ => Ok r.1 | [] => Err ErrNoRows end, d).

(** A message with its sender and its preview, once that is ready. *)
Record MsgRow := mkMsgRow {
  mrID : uuid; mrConv : uuid; mrSender : uuid; mrBody : string; mrCreated : time; mrDeleted : bool;
  mrName : string; mrDisplay : string; mrAvatar : bool; mrPreview : option Preview;
}.

Definition ready_preview (hash : option string) (d : DMDB) : option Preview :=
  match hash with
  | Some h => match dmPreviews d !! h with Some p => if bool_decide (pvState p = Ready) then Some p else None | None => None end
  | None => None
  end.

Definition msg_row (d : DMDB) (r : uuid * Msg) : option MsgRow :=
  (fun u => mkMsgRow r.1 (mgConv r.2) (mgSender r.2) (mgBody r.2) (mgCreated r.2) (bool_decide (is_Some (mgDeleted r.2)))
              (duName u) (duDisplay u) (duAvatar u) (ready_preview (mgPreview r.2) d)) <$> dmUsers d !! mgSender r.2.

Definition q_ListMessages (conv : uuid) (limit offset : Z) : dstmt (list MsgRow) := fun d =>
  (Ok (paged limit offset (omap (msg_row d) (thread conv d))), d).

Definition q_ListMessagesBefore (conv : uuid) (at_ : time) (id : uuid) (limit : Z) : dstmt (list MsgRow) := fun d =>
  (Ok (take (Z.to_nat limit) (omap (msg_row d) (filter (fun r => older (msg_key r) (at_, id)) (thread conv d)))), d).

(** The watermark moves only to a message at least as new. *)
Definition q_SetLastReadMessage (msg conv user : uuid) : dstmt unit := fun d =>
  match dmParts d !! (conv, user) with
  | None => (Ok tt, d)
  | Some read =>
      let moves := match read with
                   | None => true
                   | Some old => match dmMsgs d !! msg, dmMsgs d !! old with
                                 | Some n, Some o => mgCreated o <=? mgCreated n
                                 | _, _ => false
                                 end
                   end in
      if negb moves then (Ok tt, d)
      else if bool_decide (dmMsgs d !! msg = None) then (Err ErrForeignKey, d)
      else (Ok tt, set_parts <[(conv, user) := Some msg]> d)
  end.

Definition q_TombstoneMessage (id sender : uuid) : dstmt Z := fun d =>
  match dmMsgs d !! id with
  | Some m =>
      if bool_decide (mgSender m = sender) && bool_decide (mgDeleted m = None)
      then (Ok 1, set_msgs <[id := mkMsg (mgConv m) (mgSender m) "[deleted]" (mgCreated m) (Some (dmNow d)) None]> d)
      else (Ok 0, d)
  | None => (Ok 0, d)
  end.

(** ** The inbox *)

Record ConvRow := mkConvRow {
  crID : uuid; crUpdated : time; crEncrypted : bool; crOther : uuid; crName : string; crDisplay : string; crAvatar : bool;
  crLastBody : string; crLastAt : time; crUnread : Z;
}.

(** The messages of others newer than the watermark. *)
Definition unread (conv user : uuid) (read : option uuid) (d : DMDB) : list (uuid * Msg) :=
  filter (fun r => mgSender r.2 <> user /\
    match read with
    | None => true
    | Some old => match dmMsgs d !! old with Some o => mgCreated o <? mgCreated r.2 | None => false end
    end = true) (msgs_of conv d).

Definition conv_rows (user : uuid) (d : DMDB) : list ConvRow :=
  concat (map (fun p =>
    if bool_decide (p.1.2 = user) then
      match dmConvs d !! p.1.1 with
      | None => []
      | Some c =>
          let last := head (merge_sort (by_key (fun r => - mgCreated r.2)) (msgs_of p.1.1 d)) in
          omap (fun o => (fun u => mkConvRow p.1.1 (cvUpdated c) (cvEncrypted c) o.1 (duName u) (duDisplay u) (duAvatar u)
                            (default EmptyString (mgBody ∘ snd <$> last)) (default (cvUpdated c) (mgCreated ∘ snd <$> last))
                            (Z.of_nat (length (unread p.1.1 user p.2 d)))) <$> dmUsers d !! o.1) (others p.1.1 user d)
      end
    else []) (map_to_list (dmParts d))).

Definition q_ListConversations (user : uuid) (limit offset : Z) : dstmt (list ConvRow) := fun d =>
  (Ok (paged limit offset (merge_sort (on_key (fun r => (crUpdated r, crID r)) newest) (conv_rows user d))), d).

Definition q_CountConversations (user : uuid) : dstmt Z := fun d => (Ok (Z.of_nat (length (conv_rows user d))), d).

(** ** Attachments *)

Definition attachment_kinds : list string := ["image"; "video"; "audio"; "pdf"; "doc"].

Definition q_CreateMessageAttachment (id : uuid) (a : Att) : dstmt (uuid * Att) := fun d =>
  let row := mkAtt (atConv a) (atUploader a) None (atKind a) (atType a) (atFilename a) (atSize a) (atKey a) (dmNow d) (atWidth a) (atHeight a) in
  if negb (bool_decide (atKind a ∈ attachment_kinds)) || (atSize a <? 0) then (Err ErrStore, d)
  else if bool_decide (is_Some (dmAtts d !! id)) then (Err ErrUnique, d)
  else if bool_decide (dmConvs d !! atConv a = None) || bool_decide (dmUsers d !! atUploader a = None) then (Err ErrForeignKey, d)
  else (Ok (id, row), set_atts <[id := row]> d).

Definition q_GetMessageAttachment (id : uuid) : dstmt (uuid * Att) := fun d =>
  (match dmAtts d !! id with Some a => Ok (id, a) | None => Err ErrNoRows end, d).

(** The uploads a message may take: the sender's own, of this conversation, in
    no message yet. *)
Definition unlinked (ids : list uuid) (uploader conv : uuid) (r : uuid * Att) : Prop :=
  r.1 ∈ ids /\ atUploader r.2 = uploader /\ atConv r.2 = conv /\ atMessage r.2 = None.

#[global] Instance unlinked_dec ids uploader conv r : Decision (unlinked ids uploader conv r).
Proof. unfold unlinked. apply _. Defined.

Definition q_ListOwnedUnlinkedAttachments (ids : list uuid) (uploader conv : uuid) : dstmt (list uuid) := fun d =>
  (Ok (map fst (filter (unlinked ids uploader conv) (rows_of (dmAtts d)))), d).

Definition linked (msg : uuid) (a : Att) : Att :=
  mkAtt (atConv a) (atUploader a) (Some msg) (atKind a) (atType a) (atFilename a) (atSize a) (atKey a) (atCreated a) (atWidth a) (atHeight a).

Definition q_LinkAttachmentsToMessage (msg : uuid) (ids : list uuid) (uploader conv : uuid) : dstmt unit := fun d =>
  if bool_decide (dmMsgs d !! msg = None) then (Err ErrForeignKey, d)
  else (Ok tt, set_atts (map_imap (fun id a => Some (if bool_decide (unlinked ids uploader conv (id, a)) then linked msg a else a))) d).

Definition att_key (r : uuid * Att) : time * uuid := (atCreated r.2, r.1).

Definition q_ListAttachmentsForMessages (msgs : list uuid) : dstmt (list (uuid * Att)) := fun d =>
  (Ok (merge_sort (on_key att_key oldest)
        (filter (fun r => match atMessage r.2 with Some m => bool_decide (m ∈ msgs) | None => false end = true) (rows_of (dmAtts d)))), d).

Definition q_ListAttachmentKeysByMessage (msg : uuid) : dstmt (list (uuid * string)) := fun d =>
  (Ok (map (fun r => (r.1, atKey r.2)) (filter (fun r => atMessage r.2 = Some msg) (rows_of (dmAtts d)))), d).

Definition q_DeleteAttachmentsByMessage (msg : uuid) : dstmt unit := fun d =>
  (Ok tt, set_atts (filter (fun r => atMessage r.2 <> Some msg)) d).

(** ** Link previews *)

Definition q_UpsertPendingLinkPreview (hash url : string) : dstmt unit := fun d =>
  (Ok tt, if bool_decide (is_Some (dmPreviews d !! hash)) then d
          else set_previews <[hash := mkPreview url Pending EmptyString EmptyString EmptyString]> d).

Definition q_SetMessageLinkPreview (id : uuid) (hash : string) : dstmt unit := fun d =>
  match dmMsgs d !! id with
  | None => (Ok tt, d)
  | Some m =>
      if bool_decide (dmPreviews d !! hash = None) then (Err ErrForeignKey, d)
      else (Ok tt, set_msgs <[id := mkMsg (mgConv m) (mgSender m) (mgBody m) (mgCreated m) (mgDeleted m) (Some hash)]> d)
  end.

Definition q_GetLinkPreview (hash : string) : dstmt Preview := fun d =>
  (match dmPreviews d !! hash with Some p => Ok p | None => Err ErrNoRows end, d).

Definition q_ResolveLinkPreview (hash : string) (st : pstate) (title description image : string) : dstmt unit := fun d =>
  (Ok tt, set_previews (alter (fun p => mkPreview (pvURL p) st title description image) hash) d).

(** ** Devices and one-time keys *)

Definition dev_key (r : uuid * EDevice) : time * uuid := (edCreated r.2, r.1).

Definition q_CreateE2EEDevice (user : uuid) (name identity signing : string) : dstmt (uuid * EDevice) := fun d =>
  let id := dmGen d (dmDrawn d) in
  let row := mkEDevice user name identity signing (dmNow d) (dmNow d) in
  if bool_decide (dmUsers d !! user = None) then (Err ErrForeignKey, draw_dm d)
  else if bool_decide (is_Some (dmDevices d !! id)) then (Err ErrUnique, draw_dm d)
  else (Ok (id, row), set_devices <[id := row]> (draw_dm d)).

Definition q_GetE2EEDevice (id : uuid) : dstmt (uuid * EDevice) := fun d =>
  (match dmDevices d !! id with Some v => Ok (id, v) | None => Err ErrNoRows end, d).

Definition devices_of (user : uuid) (d : DMDB) : list (uuid * EDevice) := filter (fun r => edUser r.2 = user) (rows_of (dmDevices d)).

Definition q_ListE2EEDevicesByUser (user : uuid) : dstmt (list (uuid * EDevice)) := fun d =>
  (Ok (merge_sort (on_key dev_key oldest) (devices_of user d)), d).

Definition q_CountE2EEDevicesByUser (user : uuid) : dstmt Z := fun d => (Ok (Z.of_nat (length (devices_of user d))), d).

(** The device goes with its one-time keys and the envelopes from and to it. *)
Definition q_DeleteE2EEDevice (id user : uuid) : dstmt Z := fun d =>
  match dmDevices d !! id with
  | Some v =>
      if bool_decide (edUser v = user)
      then (Ok 1, set_envs (filter (fun r => evFrom r.2 <> id /\ evTo r.2 <> id))
                    (set_keys (filter (fun r => okDevice r.2 <> id)) (set_devices (delete id) d)))
      else (Ok 0, d)
  | None => (Ok 0, d)
  end.

Definition q_TouchE2EEDevice (id : uuid) : dstmt unit := fun d =>
  (Ok tt, set_devices (alter (fun v => mkEDevice (edUser v) (edName v) (edIdentity v) (edSigning v) (edCreated v) (dmNow d)) id) d).

(** The devices of everyone in the conversation, with their owners. *)
Definition q_ListE2EEDevicesForConversation (conv : uuid) : dstmt (list (uuid * uuid)) := fun d =>
  (Ok (map (fun r => (r.1, edUser r.2)) (filter (fun r => is_member conv (edUser r.2) d = true) (rows_of (dmDevices d)))), d).

Definition q_InsertE2EEOneTimeKey (device : uuid) (keyID key : string) : dstmt unit := fun d =>
  let id := dmGen d (dmDrawn d) in
  if bool_decide (Exists (fun r => okDevice r.2 = device /\ okKeyID r.2 = keyID) (rows_of (dmKeys d))) then (Ok tt, draw_dm d)
  else if bool_decide (dmDevices d !! device = None) then (Err ErrForeignKey, draw_dm d)
  else if bool_decide (is_Some (dmKeys d !! id)) then (Err ErrUnique, draw_dm d)
  else (Ok tt, set_keys <[id := mkOTK device keyID key None (dmNow d)]> (draw_dm d)).

Definition unclaimed (device : uuid) (d : DMDB) : list (uuid * OTK) :=
  filter (fun r => okDevice r.2 = device /\ okClaimed r.2 = None) (rows_of (dmKeys d)).

Definition q_CountUnclaimedE2EEOneTimeKeys (device : uuid) : dstmt Z := fun d => (Ok (Z.of_nat (length (unclaimed device d))), d).

Definition otk_key (r : uuid * OTK) : time * uuid := (okCreated r.2, r.1).

(** The oldest unclaimed key, marked as claimed in the same statement. *)
Definition q_ClaimE2EEOneTimeKey (device : uuid) : dstmt (uuid * OTK) := fun d =>
  match merge_sort (on_key otk_key oldest) (unclaimed device d) with
  | [] => (Err ErrNoRows, d)
  | (id, k) :: _ =>
      let k' := mkOTK (okDevice k) (okKeyID k) (okKey k) (Some (dmNow d)) (okCreated k) in
      (Ok (id, k'), set_keys <[id := k']> d)
  end.

(** ** Envelopes *)

Definition q_CreateE2EEMessage (e : Env) : dstmt (uuid * Env) := fun d =>
  let id := dmGen d (dmDrawn d) in
  let row := mkEnv (evConv e) (evFrom e) (evTo e) (evType e) (evCipher e) (dmNow d) (evExpires e) in
  if negb (bool_decide (evType e = 0 \/ evType e = 1)) || (65536 <? Z.of_nat (String.length (evCipher e))) then (Err ErrStore, draw_dm d)
  else if bool_decide (dmConvs d !! evConv e = None) || bool_decide (dmDevices d !! evFrom e = None) || bool_decide (dmDevices d !! evTo e = None)
  then (Err ErrForeignKey, draw_dm d)
  else if bool_decide (is_Some (dmEnvs d !! id)) then (Err ErrUnique, draw_dm d)
  else (Ok (id, row), set_envs <[id := row]> (draw_dm d)).

Definition env_key (r : uuid * Env) : time * uuid := (evCreated r.2, r.1).

Definition expired (now : time) (e : Env) : bool := match evExpires e with Some t => t <=? now | None => false end.

(** An envelope addressed to one of the user's devices. *)
Definition addressed (user conv : uuid) (d : DMDB) (e : Env) : bool :=
  bool_decide (evConv e = conv) && match dmDevices d !! evTo e with Some v => bool_decide (edUser v = user) | None => false end.

Record EnvRow := mkEnvRow { erID : uuid; erEnv : Env; erSender : uuid }.

Definition env_row (d : DMDB) (r : uuid * Env) : option EnvRow :=
  (fun v => mkEnvRow r.1 r.2 (edUser v)) <$> dmDevices d !! evFrom r.2.

(** What the user can read of a conversation, newest first. *)
Definition mailbox (user conv : uuid) (d : DMDB) : list (uuid * Env) :=
  merge_sort (on_key env_key newest) (filter (fun r => addressed user conv d r.2 && negb (expired (dmNow d) r.2) = true) (rows_of (dmEnvs d))).

Definition q_ListE2EEMessagesForRecipient (user conv : uuid) (limit offset : Z) : dstmt (list EnvRow) := fun d =>
  (Ok (paged limit offset (omap (env_row d) (mailbox user conv d))), d).

Definition q_GetE2EEMessageCursor (user id conv : uuid) : dstmt time := fun d =>
  (match dmEnvs d !! id with
   | Some e => if addressed user conv d e then Ok (evCreated e) else Err ErrNoRows
   | None => Err ErrNoRows
   end, d).

Definition q_ListE2EEMessagesForRecipientBefore (user conv : uuid) (at_ : time) (id : uuid) (limit : Z) : dstmt (list EnvRow) := fun d =>
  (Ok (take (Z.to_nat limit) (omap (env_row d) (filter (fun r => older (env_key r) (at_, id)) (mailbox user conv d)))), d).

(** Up to [limit] expired envelopes, in whatever order the scan finds them. *)
Definition q_SweepExpiredE2EEMessages (limit : Z) : dstmt Z := fun d =>
  let doomed := take (Z.to_nat limit) (filter (fun r => expired (dmNow d) r.2 = true) (rows_of (dmEnvs d))) in
  (Ok (Z.of_nat (length doomed)), set_envs (fun m => foldr delete m (map fst doomed)) d).

(** ** What the services run against *)

(** The database; the blob store; what the scanner answers to its n-th request
    ([None]: an error); the ids drawn by the process; the pages behind links
    (title, description and image, or an error) and the fetches made. *)
Record dworld (B : Type) := mkDW {
  ddb : faulty DMDB;
  dblobs : B;
  dscan : nat -> option bool;
  dscans : list string;
  duuid : nat -> uuid;
  duuids : nat;
  dpages : nat -> option (string * string * string);
  dfetches : list string;
}.
Arguments mkDW {B}.
Arguments ddb {B}.
Arguments dblobs {B}.
Arguments dscan {B}.
Arguments dscans {B}.
Arguments duuid {B}.
Arguments duuids {B}.
Arguments dpages {B}.
Arguments dfetches {B}.

(** [messaging.Repository], [e2ee.Repository] and [block.Repository], with the
    clock, [uuid.New], the blob store, the scanner and the preview fetcher. *)
Inductive dmE : Type -> Type :=
| GetUserByID (id : uuid) : dmE (result dberr (uuid * DUser))
| GetUserByUsername (name : string) : dmE (result dberr (uuid * DUser))
| IsNotificationTypeEnabled (user : uuid) (type : string) : dmE (result dberr bool)
| UpsertNotificationPref (user : uuid) (type : string) (enabled : bool) : dmE (result dberr unit)
| BlockUser (blocker blocked : uuid) : dmE (result dberr Z)
| UnblockUser (blocker blocked : uuid) : dmE (result dberr Z)
| ListBlockedUsers (blocker : uuid) (limit offset : Z) : dmE (result dberr (list BlockedRow))
| CountBlockedUsers (blocker : uuid) : dmE (result dberr Z)
| IsBlockedBetween (a b : uuid) : dmE (result dberr bool)
| CreateConversation (key : string) : dmE (result dberr (uuid * Conv))
| GetConversationByDMKey (key : string) : dmE (result dberr (uuid * Conv))
| CreateE2EEConversation (key : string) : dmE (result dberr (uuid * Conv))
| GetE2EEConversationByDMKey (key : string) : dmE (result dberr (uuid * Conv))
| AddConversationParticipant (conv user : uuid) : dmE (result dberr unit)
| IsConversationParticipant (conv user : uuid) : dmE (result dberr bool)
| GetConversationForParticipant (conv user : uuid) : dmE (result dberr bool)
| GetOtherParticipant (conv user : uuid) : dmE (result dberr uuid)
| GetPeerReadWatermark (conv user : uuid) : dmE (result dberr (option uuid))
| TouchConversation (conv : uuid) : dmE (result dberr unit)
| UsersShareConversation (a b : uuid) : dmE (result dberr bool)
| CreateMessage (conv sender : uuid) (body : string) : dmE (result dberr (uuid * Msg))
| GetMessage (id : uuid) : dmE (result dberr (uuid * Msg))
| GetLatestMessageID (conv : uuid) : dmE (result dberr uuid)
| ListMessagesRows (conv : uuid) (limit offset : Z) : dmE (result dberr (list MsgRow))
| ListMessagesBeforeRows (conv : uuid) (at_ : time) (id : uuid) (limit : Z) : dmE (result dberr (list MsgRow))
| SetLastReadMessage (msg conv user : uuid) : dmE (result dberr unit)
| TombstoneMessage (id sender : uuid) : dmE (result dberr Z)
| ListConversationRows (user : uuid) (limit offset : Z) : dmE (result dberr (list ConvRow))
| CountConversations (user : uuid) : dmE (result dberr Z)
| CreateMessageAttachment (id : uuid) (a : Att) : dmE (result dberr (uuid * Att))
| GetMessageAttachment (id : uuid) : dmE (result dberr (uuid * Att))
| ListOwnedUnlinkedAttachments (ids : list uuid) (uploader conv : uuid) : dmE (result dberr (list uuid))
| LinkAttachmentsToMessage (msg : uuid) (ids : list uuid) (uploader conv : uuid) : dmE (result dberr unit)
| ListAttachmentsForMessages (msgs : list uuid) : dmE (result dberr (list (uuid * Att)))
| ListAttachmentKeysByMessage (msg : uuid) : dmE (result dberr (list (uuid * string)))
| DeleteAttachmentsByMessage (msg : uuid) : dmE (result dberr unit)
| UpsertPendingLinkPreview (hash url : string) : dmE (result dberr unit)
| SetMessageLinkPreview (id : uuid) (hash : string) : dmE (result dberr unit)
| GetLinkPreview (hash : string) : dmE (result dberr Preview)
| ResolveLinkPreview (hash : string) (st : pstate) (title description image : string) : dmE (result dberr unit)
| CreateE2EEDevice (user : uuid) (name identity signing : string) : dmE (result dberr (uuid * EDevice))
| GetE2EEDevice (id : uuid) : dmE (result dberr (uuid * EDevice))
| ListE2EEDevicesByUser (user : uuid) : dmE (result dberr (list (uuid * EDevice)))
| CountE2EEDevicesByUser (user : uuid) : dmE (result dberr Z)
| DeleteE2EEDevice (id user : uuid) : dmE (result dberr Z)
| TouchE2EEDevice (id : uuid) : dmE (result dberr unit)
| ListE2EEDevicesForConversation (conv : uuid) : dmE (result dberr (list (uuid * uuid)))
| InsertE2EEOneTimeKey (device : uuid) (keyID key : string) : dmE (result dberr unit)
| CountUnclaimedE2EEOneTimeKeys (device : uuid) : dmE (result dberr Z)
| ClaimE2EEOneTimeKey (device : uuid) : dmE (result dberr (uuid * OTK))
| CreateE2EEMessage (e : Env) : dmE (result dberr (uuid * Env))
| ListE2EEMessagesForRecipient (user conv : uuid) (limit offset : Z) : dmE (result dberr (list EnvRow))
| ListE2EEMessagesForRecipientBefore (user conv : uuid) (at_ : time) (id : uuid) (limit : Z) : dmE (result dberr (list EnvRow))
| GetE2EEMessageCursor (user id conv : uuid) : dmE (result dberr time)
| SweepExpiredE2EEMessages (limit : Z) : dmE (result dberr Z)
| DNow : dmE time
| NewUUID : dmE uuid
| AttPut (key : string) (r : reader) : dmE (result ioerr Z)
| AttOpen (key : string) : dmE (result ioerr reader)
| AttDelete (key : string) : dmE (result ioerr unit)
| AttScan (key : string) : dmE (option bool)
| FetchPreview (url : string) : dmE (option (string * string * string)).

Section Handler.
Context {B : Type} `{Backend B}.
Implicit Types (w : dworld B).

Definition with_ddb f w : dworld B := mkDW f (dblobs w) (dscan w) (dscans w) (duuid w) (duuids w) (dpages w) (dfetches w).
Definition with_dblobs b w : dworld B := mkDW (ddb w) b (dscan w) (dscans w) (duuid w) (duuids w) (dpages w) (dfetches w).

Definition on_dm {A} (q : DMDB -> result dberr A * DMDB) w : result dberr A * dworld B :=
  ((exec q (ddb w)).1, with_ddb (exec q (ddb w)).2 w).

Definition dm_handler : handler dmE (dworld B) := fun X e w =>
  match e in dmE X return X * dworld B with
  | GetUserByID id => on_dm (q_GetUserByID id) w
  | GetUserByUsername name => on_dm (q_GetUserByUsername name) w
  | IsNotificationTypeEnabled user type => on_dm (q_IsNotificationTypeEnabled user type) w
  | UpsertNotificationPref user type enabled => on_dm (q_UpsertNotificationPref user type enabled) w
  | BlockUser blocker blocked => on_dm (q_BlockUser blocker blocked) w
  | UnblockUser blocker blocked => on_dm (q_UnblockUser blocker blocked) w
  | ListBlockedUsers blocker limit offset => on_dm (q_ListBlockedUsers blocker limit offset) w
  | CountBlockedUsers blocker => on_dm (q_CountBlockedUsers blocker) w
  | IsBlockedBetween a b => on_dm (q_IsBlockedBetween a b) w
  | CreateConversation key => on_dm (q_CreateConversation key) w
  | GetConversationByDMKey key => on_dm (q_GetConversationByDMKey key) w
  | CreateE2EEConversation key => on_dm (q_CreateE2EEConversation key) w
  | GetE2EEConversationByDMKey key => on_dm (q_GetE2EEConversationByDMKey key) w
  | AddConversationParticipant conv user => on_dm (q_AddConversationParticipant conv user) w
  | IsConversationParticipant conv user => on_dm (q_IsConversationParticipant conv user) w
  | GetConversationForParticipant conv user => on_dm (q_GetConversationForParticipant conv user) w
  | GetOtherParticipant conv user => on_dm (q_GetOtherParticipant conv user) w
  | GetPeerReadWatermark conv user => on_dm (q_GetPeerReadWatermark conv user) w
  | TouchConversation conv => on_dm (q_TouchConversation conv) w
  | UsersShareConversation a b => on_dm (q_UsersShareConversation a b) w
  | CreateMessage conv sender body => on_dm (q_CreateMessage conv sender body) w
  | GetMessage id => on_dm (q_GetMessage id) w
  | GetLatestMessageID conv => on_dm (q_GetLatestMessageID conv) w
  | ListMessagesRows conv limit offset => on_dm (q_ListMessages conv limit offset) w
  | ListMessagesBeforeRows conv at_ id limit => on_dm (q_ListMessagesBefore conv at_ id limit) w
  | SetLastReadMessage msg conv user => on_dm (q_SetLastReadMessage msg conv user) w
  | TombstoneMessage id sender => on_dm (q_TombstoneMessage id sender) w
  | ListConversationRows user limit offset => on_dm (q_ListConversations user limit offset) w
  | CountConversations user => on_dm (q_CountConversations user) w
  | CreateMessageAttachment id a => on_dm (q_CreateMessageAttachment id a) w
  | GetMessageAttachment id => on_dm (q_GetMessageAttachment id) w
  | ListOwnedUnlinkedAttachments ids uploader conv => on_dm (q_ListOwnedUnlinkedAttachments ids uploader conv) w
  | LinkAttachmentsToMessage msg ids uploader conv => on_dm (q_LinkAttachmentsToMessage msg ids uploader conv) w
  | ListAttachmentsForMessages msgs => on_dm (q_ListAttachmentsForMessages msgs) w
  | ListAttachmentKeysByMessage msg => on_dm (q_ListAttachmentKeysByMessage msg) w
  | DeleteAttachmentsByMessage msg => on_dm (q_DeleteAttachmentsByMessage msg) w
  | UpsertPendingLinkPreview hash url => on_dm (q_UpsertPendingLinkPreview hash url) w
  | SetMessageLinkPreview id hash => on_dm (q_SetMessageLinkPreview id hash) w
  | GetLinkPreview hash => on_dm (q_GetLinkPreview hash) w
  | ResolveLinkPreview hash st title description image => on_dm (q_ResolveLinkPreview hash st title description image) w
  | CreateE2EEDevice user name identity signing => on_dm (q_CreateE2EEDevice user name identity signing) w
  | GetE2EEDevice id => on_dm (q_GetE2EEDevice id) w
  | ListE2EEDevicesByUser user => on_dm (q_ListE2EEDevicesByUser user) w
  | CountE2EEDevicesByUser user => on_dm (q_CountE2EEDevicesByUser user) w
  | DeleteE2EEDevice id user => on_dm (q_DeleteE2EEDevice id user) w
  | TouchE2EEDevice id => on_dm (q_TouchE2EEDevice id) w
  | ListE2EEDevicesForConversation conv => on_dm (q_ListE2EEDevicesForConversation conv) w
  | InsertE2EEOneTimeKey device keyID key => on_dm (q_InsertE2EEOneTimeKey device keyID key) w
  | CountUnclaimedE2EEOneTimeKeys device => on_dm (q_CountUnclaimedE2EEOneTimeKeys device) w
  | ClaimE2EEOneTimeKey device => on_dm (q_ClaimE2EEOneTimeKey device) w
  | CreateE2EEMessage e => on_dm (q_CreateE2EEMessage e) w
  | ListE2EEMessagesForRecipient user conv limit offset => on_dm (q_ListE2EEMessagesForRecipient user conv limit offset) w
  | ListE2EEMessagesForRecipientBefore user conv at_ id limit => on_dm (q_ListE2EEMessagesForRecipientBefore user conv at_ id limit) w
  | GetE2EEMessageCursor user id conv => on_dm (q_GetE2EEMessageCursor user id conv) w
  | SweepExpiredE2EEMessages limit => on_dm (q_SweepExpiredE2EEMessages limit) w
  | DNow => (dmNow (store (ddb w)), w)
  | NewUUID => (duuid w (duuids w), mkDW (ddb w) (dblobs w) (dscan w) (dscans w) (duuid w) (S (duuids w)) (dpages w) (dfetches w))
  | AttPut key r => ((be_put key r (dblobs w)).1, with_dblobs (be_put key r (dblobs w)).2 w)
  | AttOpen key => (be_open key (dblobs w), w)
  | AttDelete key => ((be_delete key (dblobs w)).1, with_dblobs (be_delete key (dblobs w)).2 w)
  | AttScan key => (dscan w (length (dscans w)),
      mkDW (ddb w) (dblobs w) (dscan w) (key :: dscans w) (duuid w) (duuids w) (dpages w) (dfetches w))
  | FetchPreview url => (dpages w (length (dfetches w)),
      mkDW (ddb w) (dblobs w) (dscan w) (dscans w) (duuid w) (duuids w) (dpages w) (url :: dfetches w))
  end.

(** What goes on beside the services: time passes and accounts, channels and
    preferences change; accounts are not removed (deleting one anonymises the
    row), and the tables of messages are the services' own. *)
Definition dmclock w w' : Prop :=
  exists users handles prefs now,
    (forall id, is_Some (dmUsers (store (ddb w)) !! id) -> is_Some (users !! id)) /\ dmNow (store (ddb w)) <= now /\
    let d := store (ddb w) in
    w' = with_ddb (Faulty (mkDM users handles prefs (dmBlocks d) (dmConvs d) (dmParts d) (dmMsgs d) (dmAtts d) (dmPreviews d)
                            (dmDevices d) (dmKeys d) (dmEnvs d) now (dmGen d) (dmDrawn d)) (faults (ddb w))) w.

End Handler.
