(* ===== verification/Messaging.v ===== *)
(** * Direct messages (src/internal/messaging, src/internal/block)

    Blocks between accounts; one-to-one conversations, messages with
    attachments and link previews, read receipts and deletion; and the routing
    of sends and uploads in src/internal/httpapi by the type of the
    conversation. The table of file extensions per content type, the image
    header decoder and SHA-256 are arguments. *)
From S2P Require Import Prelude GoStrings Storage MediaKeys Secretbox MessageStore.
Local Open Scope Z_scope.

Abbreviation M A := (prog dmE A) (only parsing).

(** ** Blocks *)

Inductive berr := BErrCannotBlockSelf | BErrUserNotFound | BErrDB (e : dberr).

(** [block.Service.Block] *)
Definition Block (blocker blocked : uuid) : M (option berr) :=
  if bool_decide (blocker = blocked) then mret (Some BErrCannotBlockSelf) else
  r ← call (BlockUser blocker blocked);
  mret (match r with Ok _ => None | Err ErrForeignKey => Some BErrUserNotFound | Err e => Some (BErrDB e) end).

(** [block.Service.Unblock] *)
Definition Unblock (blocker blocked : uuid) : M (option berr) :=
  r ← call (UnblockUser blocker blocked); mret (match r with Ok _ => None | Err e => Some (BErrDB e) end).

(** [block.Service.List] *)
Definition ListBlocked (blocker : uuid) (limit offset : Z) : M (result berr (list BlockedRow * Z)) :=
  r ← call (ListBlockedUsers blocker limit offset);
  match r with
  | Err e => mret (Err (BErrDB e))
  | Ok rows => n ← call (CountBlockedUsers blocker); mret (match n with Err e => Err (BErrDB e) | Ok n => Ok (rows, n) end)
  end.

(** ** The service *)

Inductive merr :=
| MErrCannotMessageSelf | MErrRecipientNotFound | MErrNotParticipant | MErrBlocked | MErrMessageNotFound | MErrNotSender
| MErrAttachmentsUnavailable | MErrUnsupportedAttachment | MErrAttachmentTooLarge | MErrAttachmentRejected
| MErrInvalidAttachments | MErrAttachmentNotFound | MErrAttachmentDimensions | MErrInvalidCursor
| MErrDB (e : dberr) | MErrStorage (e : ioerr).

#[global] Instance merr_eq_dec : EqDecision merr.
Proof. solve_decision. Defined.

(** What is wired, and the size cap of an attachment. *)
Record MService := mkMService { ms_blocker : bool; ms_blobs : bool; ms_scanner : bool; ms_maxAttach : Z; ms_previews : bool }.

Definition MaxAttachmentBytes : Z := 104857600.
Definition MaxAttachmentsPerMessage : nat := 30.
Definition maxImageDimension : Z := 20000.
Definition dimensionProbeMaxBytes : Z := 524288.
Definition readReceiptsPrefType : string := "read_receipts".

(** [WithAttachments]: a cap that is not positive leaves the default. *)
Definition attachment_cap (maxBytes : Z) : Z := if 0 <? maxBytes then maxBytes else MaxAttachmentBytes.

Definition officeDocContentTypes : list string :=
  ["application/msword";
   "application/vnd.openxmlformats-officedocument.wordprocessingml.document";
   "application/vnd.ms-powerpoint";
   "application/vnd.openxmlformats-officedocument.presentationml.presentation";
   "application/vnd.ms-excel";
   "application/vnd.openxmlformats-officedocument.spreadsheetml.sheet"].

(** [attachmentKind] *)
Definition attachmentKind (contentType filename : string) : option string :=
  let ct := ToLower (TrimSpace contentType) in
  let ct := match Cut (Ascii.ascii_of_nat 59) ct with (before, Some _) => TrimSpace before | (_, None) => ct end in
  if bool_decide (ct = "application/pdf") then Some "pdf"%string
  else if bool_decide (ct ∈ officeDocContentTypes) then Some "doc"%string
  else if HasPrefix ct "image/" then Some "image"%string
  else if HasPrefix ct "video/" then Some "video"%string
  else if HasPrefix ct "audio/" then Some "audio"%string
  else
    let ext := ToLower (trim_dot (Ext filename)) in
    if bool_decide (ext = "pdf") then Some "pdf"%string
    else if bool_decide (ext ∈ ["doc"; "docx"; "ppt"; "pptx"; "xls"; "xlsx"]%string) then Some "doc"%string
    else if bool_decide (ext ∈ ["jpg"; "jpeg"; "png"; "gif"; "webp"; "avif"]%string) then Some "image"%string
    else if bool_decide (ext ∈ ["mp4"; "webm"; "mov"; "m4v"]%string) then Some "video"%string
    else if bool_decide (ext ∈ ["mp3"; "m4a"; "aac"; "ogg"; "oga"; "wav"; "flac"]%string) then Some "audio"%string
    else None.

(** [isSafeExt] *)
Definition safe_char (c : ascii) : bool := (97 <=? code c) && (code c <=? 122) || (48 <=? code c) && (code c <=? 57).

Fixpoint safe_chars (s : string) : bool := match s with EmptyString => true | String c r => safe_char c && safe_chars r end.

Definition isSafeExt (e : string) : bool := safe_chars e && (0 <? String.length e)%nat && (String.length e <=? 8)%nat.

(** *** The first link of a text (linkpreview.FirstURL) *)

(** A character a link may contain: no white space, angle bracket, parenthesis
    or quotation mark. *)
Definition url_char (c : ascii) : bool :=
  negb (bool_decide (code c ∈ [9; 10; 12; 13; 32; 60; 62; 40; 41; 34; 39])).

Fixpoint url_run (s : string) : string :=
  match s with String c r => if url_char c then String c (url_run r) else EmptyString | EmptyString => EmptyString end.

(** A match of the pattern at the head of the text: the scheme and at least one
    such character. *)
Definition match_at (s : string) : option string :=
  let try scheme := match CutPrefix s scheme with
                    | Some r => match url_run r with EmptyString => None | run => Some (scheme +:+ run) end
                    | None => None
                    end in
  match try "https://"%string with Some m => Some m | None => try "http://"%string end.

Fixpoint find_url (s : string) : string :=
  match match_at s with
  | Some m => m
  | None => match s with String _ r => find_url r | EmptyString => EmptyString end
  end.

(** The cut set of the final [strings.TrimRight]. *)
Definition trailing (c : ascii) : bool := bool_decide (code c ∈ [46; 44; 59; 58; 33; 63; 41; 93; 125; 34; 39]).

Fixpoint trim_trailing (s : string) : string :=
  match s with
  | EmptyString => EmptyString
  | String c r => match trim_trailing r with
                  | EmptyString => if trailing c then EmptyString else String c EmptyString
                  | t => String c t
                  end
  end.

(** [linkpreview.FirstURL] *)
Definition FirstURL (text : string) : string := trim_trailing (find_url text).

(** *** Views *)

Record Attachment := mkAttachment {
  amID : uuid; amConv : uuid; amKind : string; amType : string; amFilename : string; amSize : Z; amKey : string;
  amWidth : option Z; amHeight : option Z;
}.

Record LinkPreview := mkLinkPreview { lpURL : string; lpTitle : string; lpDescription : string; lpImage : string }.

Record Message := mkMessage {
  mID : uuid; mConv : uuid; mSender : uuid; mName : string; mDisplay : string; mAvatar : bool; mBody : string; mCreated : time;
  mDeleted : bool; mAttachments : list Attachment; mPreview : option LinkPreview;
}.

(** [dmKey] *)
Definition dmKey (a b : uuid) : string := if String.ltb b a then b +:+ ":" +:+ a else a +:+ ":" +:+ b.

Section Programs.
Context (s : MService) (sha256_hex : string -> string) (extensions_by_type : string -> list string) (decode_config : bytes -> option (Z * Z)).

(** [attachmentExt] *)
Definition attachmentExt (contentType filename : string) : string :=
  match extensions_by_type contentType with
  | e :: _ => trim_dot e
  | [] => let e := ToLower (trim_dot (Ext filename)) in
          if negb (bool_decide (e = EmptyString)) && isSafeExt e then e else "bin"
  end.

(** [Service.isBlocked] *)
Definition isBlocked (a b : uuid) : M (result merr bool) :=
  if negb (ms_blocker s) then mret (Ok false) else
  r ← call (IsBlockedBetween a b); mret (match r with Err e => Err (MErrDB e) | Ok x => Ok x end).

(** The loop of [StartConversation]: both are participants. *)
Fixpoint add_participants (conv : uuid) (users : list uuid) : M (option merr) :=
  match users with
  | [] => mret None
  | u :: rest =>
      r ← call (AddConversationParticipant conv u);
      match r with Err e => mret (Some (MErrDB e)) | Ok _ => add_participants conv rest end
  end.

(** [Service.StartConversation] *)
Definition StartConversation (me recipient : uuid) : M (result merr (uuid * Conv)) :=
  if bool_decide (me = recipient) then mret (Err MErrCannotMessageSelf) else
  u ← call (GetUserByID recipient);
  match u with
  | Err ErrNoRows => mret (Err MErrRecipientNotFound)
  | Err e => mret (Err (MErrDB e))
  | Ok _ =>
      b ← isBlocked me recipient;
      match b with
      | Err e => mret (Err e)
      | Ok true => mret (Err MErrBlocked)
      | Ok false =>
          c ← call (CreateConversation (dmKey me recipient));
          conv ← (match c with
                  | Ok row => mret (Ok row)
                  | Err ErrNoRows => call (GetConversationByDMKey (dmKey me recipient))
                  | Err e => mret (Err e)
                  end);
          match conv with
          | Err e => mret (Err (MErrDB e))
          | Ok row =>
              p ← add_participants row.1 [me; recipient];
              mret (match p with Some e => Err e | None => Ok row end)
          end
      end
  end.

(** [Service.ResolveRecipientUsername] *)
Definition ResolveRecipientUsername (username : string) : M (result merr uuid) :=
  u ← call (GetUserByUsername (TrimSpace username));
  mret (match u with Err ErrNoRows => Err MErrRecipientNotFound | Err e => Err (MErrDB e) | Ok r => Ok r.1 end).

(** [Service.ListConversations] *)
Definition ListConversations (me : uuid) (limit offset : Z) : M (result merr (list ConvRow * Z)) :=
  r ← call (ListConversationRows me limit offset);
  match r with
  | Err e => mret (Err (MErrDB e))
  | Ok rows => n ← call (CountConversations me); mret (match n with Err e => Err (MErrDB e) | Ok n => Ok (rows, n) end)
  end.

(** What a page shows of an attachment. *)
Definition shown (r : uuid * Att) : Attachment :=
  mkAttachment r.1 uuid_Nil (atKind r.2) (atType r.2) (atFilename r.2) (atSize r.2) EmptyString (atWidth r.2) (atHeight r.2).

(** [Service.attachmentsForMessages], as the function from a message to its
    attachments. *)
Definition attachmentsForMessages (ids : list uuid) : M (uuid -> list Attachment) :=
  match ids with
  | [] => mret (fun _ => [])
  | _ =>
      r ← call (ListAttachmentsForMessages ids);
      mret (match r with
            | Err _ => fun _ => []
            | Ok rows => fun id => map shown (filter (fun r => atMessage r.2 = Some id) rows)
            end)
  end.

(** [Service.launchPreview], the detached fetch included. *)
Definition launchPreview (id : uuid) (body : string) : M unit :=
  if negb (ms_previews s) then mret tt else
  let rawURL := FirstURL body in
  if bool_decide (rawURL = EmptyString) then mret tt else
  let hash := sha256_hex rawURL in
  u ← call (UpsertPendingLinkPreview hash rawURL);
  match u with
  | Err _ => mret tt
  | Ok _ =>
      m ← call (SetMessageLinkPreview id hash);
      match m with
      | Err _ => mret tt
      | Ok _ =>
          cur ← call (GetLinkPreview hash);
          if match cur with Ok p => negb (bool_decide (pvState p = Pending)) | Err _ => false end then mret tt else
          f ← call (FetchPreview rawURL);
          _ ← call (match f with
                    | Some (title, desc, image) => ResolveLinkPreview hash Ready title desc image
                    | None => ResolveLinkPreview hash Failed EmptyString EmptyString EmptyString
                    end);
          mret tt
      end
  end.

(** The gate of [SendMessage] on a block with the other participant. *)
Definition send_blocked (me conv : uuid) : M (option merr) :=
  if negb (ms_blocker s) then mret None else
  o ← call (GetOtherParticipant conv me);
  match o with
  | Err _ => mret None
  | Ok other =>
      b ← call (IsBlockedBetween me other);
      mret (match b with Err e => Some (MErrDB e) | Ok true => Some MErrBlocked | Ok false => None end)
  end.

(** Its check of the attachments referred to. *)
Definition check_attachments (me conv : uuid) (ids : list uuid) : M (option merr) :=
  if (MaxAttachmentsPerMessage <? length ids)%nat then mret (Some MErrInvalidAttachments) else
  match ids with
  | [] => mret None
  | _ =>
      o ← call (ListOwnedUnlinkedAttachments ids me conv);
      mret (match o with
            | Err e => Some (MErrDB e)
            | Ok owned => if (length owned =? length ids)%nat then None else Some MErrInvalidAttachments
            end)
  end.

(** [Service.SendMessage] *)
Definition SendMessage (me conv : uuid) (body : string) (ids : list uuid) : M (result merr Message) :=
  p ← call (IsConversationParticipant conv me);
  match p with
  | Err e => mret (Err (MErrDB e))
  | Ok false => mret (Err MErrNotParticipant)
  | Ok true =>
      b ← send_blocked me conv;
      match b with
      | Some e => mret (Err e)
      | None =>
          a ← check_attachments me conv ids;
          match a with
          | Some e => mret (Err e)
          | None =>
              m ← call (CreateMessage conv me body);
              match m with
              | Err e => mret (Err (MErrDB e))
              | Ok (id, row) =>
                  atts ← (match ids with
                          | [] => mret []
                          | _ =>
                              _ ← call (LinkAttachmentsToMessage id ids me conv);
                              f ← attachmentsForMessages [id];
                              mret (f id)
                          end);
                  _ ← call (TouchConversation conv);
                  _ ← launchPreview id body;
                  mret (Ok (mkMessage id (mgConv row) (mgSender row) EmptyString EmptyString false (mgBody row) (mgCreated row) false atts None))
              end
          end
      end
  end.

(** [Service.OtherParticipant] *)
Definition OtherParticipant (conv me : uuid) : M (result dberr uuid) := call (GetOtherParticipant conv me).

(** [Service.assembleMessages] *)
Definition assembleMessages (rows : list MsgRow) : M (list Message) :=
  atts ← attachmentsForMessages (map mrID rows);
  mret (map (fun r =>
    mkMessage (mrID r) (mrConv r) (mrSender r) (mrName r) (mrDisplay r) (mrAvatar r) (mrBody r) (mrCreated r) (mrDeleted r)
      (if mrDeleted r then [] else atts (mrID r))
      (if mrDeleted r then None
       else (fun p => mkLinkPreview (pvURL p) (pvTitle p) (pvDescription p) (pvImage p)) <$> mrPreview r)) rows).

(** [Service.ListMessages] *)
Definition ListMessages (me conv : uuid) (limit offset : Z) : M (result merr (list Message)) :=
  p ← call (IsConversationParticipant conv me);
  match p with
  | Err e => mret (Err (MErrDB e))
  | Ok false => mret (Err MErrNotParticipant)
  | Ok true =>
      r ← call (ListMessagesRows conv limit offset);
      match r with Err e => mret (Err (MErrDB e)) | Ok rows => l ← assembleMessages rows; mret (Ok l) end
  end.

(** [Service.ListMessagesBefore] *)
Definition ListMessagesBefore (me conv before : uuid) (limit : Z) : M (result merr (list Message)) :=
  p ← call (IsConversationParticipant conv me);
  match p with
  | Err e => mret (Err (MErrDB e))
  | Ok false => mret (Err MErrNotParticipant)
  | Ok true =>
      c ← call (GetMessage before);
      match c with
      | Err ErrNoRows => mret (Err MErrInvalidCursor)
      | Err e => mret (Err (MErrDB e))
      | Ok (id, cursor) =>
          if negb (bool_decide (mgConv cursor = conv)) then mret (Err MErrInvalidCursor) else
          r ← call (ListMessagesBeforeRows conv (mgCreated cursor) id limit);
          match r with Err e => mret (Err (MErrDB e)) | Ok rows => l ← assembleMessages rows; mret (Ok l) end
      end
  end.

(** *** Attachments *)

Record AttachmentInput := mkAttachmentInput { aiFilename : string; aiType : string; aiSize : Z; aiReader : reader }.

(** [io.LimitReader] as the reader handed to the store. *)
Definition LimitReader (r : reader) (n : Z) : reader :=
  match read_limited n r with Some (d, e) => Reader [d] e false | None => Reader [] (Some ErrIO) false end.

(** What the [capWriter] beside the upload kept. *)
Definition captured (r : reader) : bytes := take (Z.to_nat dimensionProbeMaxBytes) (data r).

Definition attachment_key (conv id : uuid) (ext : string) : string := "dm-attachments/" +:+ conv +:+ "/" +:+ id +:+ "." +:+ ext.

(** The malware scan, which refuses on an infection and on an error. *)
Definition scan_clean (key : string) : M bool :=
  if negb (ms_scanner s) then mret true else
  v ← call (AttScan key); mret (match v with Some true => true | _ => false end).

(** The dimensions of an image, when its header could be read. *)
Definition dimensions (kind : string) (prefix : bytes) : option (Z * Z) :=
  if bool_decide (kind = "image"%string)
  then match decode_config prefix with
       | Some (x, y) => if (0 <? x) && (0 <? y) then Some (x, y) else None
       | None => None
       end
  else None.

Definition absurd (dims : option (Z * Z)) : bool :=
  match dims with Some (x, y) => (maxImageDimension <? x) || (maxImageDimension <? y) | None => false end.

(** [Service.UploadAttachment] *)
Definition UploadAttachment (me conv : uuid) (i : AttachmentInput) : M (result merr Attachment) :=
  if negb (ms_blobs s) then mret (Err MErrAttachmentsUnavailable) else
  p ← call (IsConversationParticipant conv me);
  match p with
  | Err e => mret (Err (MErrDB e))
  | Ok false => mret (Err MErrNotParticipant)
  | Ok true =>
      match attachmentKind (aiType i) (aiFilename i) with
      | None => mret (Err MErrUnsupportedAttachment)
      | Some kind =>
          if ms_maxAttach s <? aiSize i then mret (Err MErrAttachmentTooLarge) else
          id ← call NewUUID;
          let key := attachment_key conv id (attachmentExt (aiType i) (aiFilename i)) in
          let limited := LimitReader (aiReader i) (ms_maxAttach s + 1) in
          w ← call (AttPut key limited);
          match w with
          | Err e => mret (Err (MErrStorage e))
          | Ok written =>
              if ms_maxAttach s <? written then _ ← call (AttDelete key); mret (Err MErrAttachmentTooLarge) else
              clean ← scan_clean key;
              if negb clean then _ ← call (AttDelete key); mret (Err MErrAttachmentRejected) else
              let dims := dimensions kind (captured limited) in
              if absurd dims then _ ← call (AttDelete key); mret (Err MErrAttachmentDimensions) else
              r ← call (CreateMessageAttachment id
                    (mkAtt conv me None kind (aiType i) (aiFilename i) written key 0 (fst <$> dims) (snd <$> dims)));
              match r with
              | Err e => _ ← call (AttDelete key); mret (Err (MErrDB e))
              | Ok (id, a) =>
                  mret (Ok (mkAttachment id (atConv a) (atKind a) (atType a) (atFilename a) (atSize a) (atKey a) (atWidth a) (atHeight a)))
              end
          end
      end
  end.

(** [Service.AttachmentForDownload] *)
Definition AttachmentForDownload (me id : uuid) : M (result merr Attachment) :=
  if negb (ms_blobs s) then mret (Err MErrAttachmentsUnavailable) else
  r ← call (GetMessageAttachment id);
  match r with
  | Err ErrNoRows => mret (Err MErrAttachmentNotFound)
  | Err e => mret (Err (MErrDB e))
  | Ok (id, a) =>
      p ← call (IsConversationParticipant (atConv a) me);
      mret (match p with
            | Err e => Err (MErrDB e)
            | Ok false => Err MErrAttachmentNotFound
            | Ok true => Ok (mkAttachment id (atConv a) (atKind a) (atType a) (atFilename a) (atSize a) (atKey a) None None)
            end)
  end.

(** [Service.OpenAttachment] *)
Definition OpenAttachment (key : string) : M (result ioerr reader) := call (AttOpen key).

(** *** Read receipts *)

(** [Service.MarkRead] *)
Definition MarkRead (me conv : uuid) (msg : option uuid) : M (option merr) :=
  p ← call (IsConversationParticipant conv me);
  match p with
  | Err e => mret (Some (MErrDB e))
  | Ok false => mret (Some MErrNotParticipant)
  | Ok true =>
      target ← (match msg with
                | Some id =>
                    r ← call (GetMessage id);
                    mret (match r with
                          | Err ErrNoRows => Err (Some MErrMessageNotFound)
                          | Err e => Err (Some (MErrDB e))
                          | Ok (id, m) => if bool_decide (mgConv m = conv) then Ok id else Err (Some MErrMessageNotFound)
                          end)
                | None =>
                    r ← call (GetLatestMessageID conv);
                    mret (match r with
                          | Err ErrNoRows => Err None
                          | Err e => Err (Some (MErrDB e))
                          | Ok id => Ok id
                          end)
                end);
      match target with
      | Err e => mret e
      | Ok id =>
          r ← call (SetLastReadMessage id conv me);
          mret (match r with Err e => Some (MErrDB e) | Ok _ => None end)
      end
  end.

(** [Service.ReadReceiptsEnabled] *)
Definition ReadReceiptsEnabled (user : uuid) : M (result dberr bool) := call (IsNotificationTypeEnabled user readReceiptsPrefType).

(** [Service.SetReadReceiptsEnabled] *)
Definition SetReadReceiptsEnabled (user : uuid) (enabled : bool) : M (result dberr unit) :=
  call (UpsertNotificationPref user readReceiptsPrefType enabled).

(** [Service.PeerReadWatermark]: the message, when there is one to show. *)
Definition PeerReadWatermark (me conv : uuid) : M (result merr (option uuid)) :=
  o ← call (GetOtherParticipant conv me);
  match o with
  | Err ErrNoRows => mret (Ok None)
  | Err e => mret (Err (MErrDB e))
  | Ok peer =>
      on ← ReadReceiptsEnabled peer;
      match on with
      | Err e => mret (Err (MErrDB e))
      | Ok false => mret (Ok None)
      | Ok true =>
          wm ← call (GetPeerReadWatermark conv me);
          mret (match wm with Err ErrNoRows => Ok None | Err e => Err (MErrDB e) | Ok x => Ok x end)
      end
  end.

(** *** Deletion and reports *)

(** The loop of [DeleteMessage] over the stored bytes. *)
Fixpoint delete_blobs (keys : list (uuid * string)) : M unit :=
  match keys with
  | [] => mret tt
  | k :: rest => _ ← call (AttDelete k.2); delete_blobs rest
  end.

(** [Service.DeleteMessage] *)
Definition DeleteMessage (me id : uuid) : M (option merr) :=
  r ← call (GetMessage id);
  match r with
  | Err ErrNoRows => mret (Some MErrMessageNotFound)
  | Err e => mret (Some (MErrDB e))
  | Ok (_, m) =>
      if negb (bool_decide (mgSender m = me)) then mret (Some MErrNotSender) else
      if bool_decide (is_Some (mgDeleted m)) then mret None else
      _ ← (if ms_blobs s then
             keys ← call (ListAttachmentKeysByMessage id);
             match keys with Ok l => delete_blobs l | Err _ => mret tt end
           else mret tt);
      _ ← call (DeleteAttachmentsByMessage id);
      t ← call (TombstoneMessage id me);
      mret (match t with Err e => Some (MErrDB e) | Ok _ => None end)
  end.

(** [Service.ReportableMessage] *)
Definition ReportableMessage (me id : uuid) : M (result merr (uuid * string)) :=
  r ← call (GetMessage id);
  match r with
  | Err ErrNoRows => mret (Err MErrMessageNotFound)
  | Err e => mret (Err (MErrDB e))
  | Ok (_, m) =>
      p ← call (IsConversationParticipant (mgConv m) me);
      mret (match p with
            | Err e => Err (MErrDB e)
            | Ok false => Err MErrMessageNotFound
            | Ok true => Ok (mgConv m, mgBody m)
            end)
  end.

End Programs.
