(* ===== verification/E2ee.v ===== *)
(** * Encrypted messages (src/internal/e2ee)

    The device directory, one-time keys, and per-device envelopes with an
    optional expiry; the server never reads a ciphertext. Then the routing of
    sends, uploads and listings by the type of the conversation
    (src/internal/httpapi/messaging.go, dm_completeness.go). *)
From S2P Require Import Prelude GoStrings Storage MediaKeys Secretbox MessageStore Messaging.
Local Open Scope Z_scope.

Abbreviation M A := (prog dmE A) (only parsing).

Definition MaxCiphertextBytes : Z := 65536.
Definition MinExpirySeconds : Z := 30.
Definition MaxExpirySeconds : Z := 90 * 24 * 60 * 60.
Definition maxDeviceName : Z := 100.
Definition maxKeyMaterialLen : Z := 512.
Definition maxKeyIDLen : Z := 64.
Definition maxDevicesPerUser : Z := 20.
Definition maxOTKBatch : Z := 100.
Definition maxUnclaimedOTKs : Z := 500.

Inductive eerr :=
| EErrCannotMessageSelf | EErrRecipientNotFound | EErrNotParticipant | EErrBlocked | EErrDeviceNotFound | EErrNotAuthorized
| EErrTooManyDevices | EErrTooManyKeys | EInvalid (reason : string) | EErrDB (e : dberr).

#[global] Instance eerr_eq_dec : EqDecision eerr.
Proof. solve_decision. Defined.

Record EService := mkEService { es_blocker : bool }.

Record OneTimeKey := mkOneTimeKey { ktID : string; ktKey : string }.

(** A device of the peer, and the key claimed for it if one was left. *)
Record Claim := mkClaim { clDevice : uuid; clIdentity : string; clSigning : string; clKey : option OneTimeKey }.

Record Envelope := mkEnvelope { enRecipient : uuid; enType : Z; enCipher : string }.

Record SendResult := mkSendResult { srConv : uuid; srCount : Z; srCreated : option time; srExpires : option time }.

(** [dmKey]: the encrypted namespace. *)
Definition e2eeKey (a b : uuid) : string := "e2ee:" +:+ dmKey a b.

(** Empty, or longer than allowed. *)
Definition unbounded (x : string) (max : Z) : bool := bool_decide (x = EmptyString) || (max <? Z.of_nat (String.length x)).

Section Programs.
Context (s : EService).

(** [Service.isBlocked] *)
Definition isBlocked (a b : uuid) : M (result eerr bool) :=
  if negb (es_blocker s) then mret (Ok false) else
  r ← call (IsBlockedBetween a b); mret (match r with Err e => Err (EErrDB e) | Ok x => Ok x end).

Fixpoint add_participants (conv : uuid) (users : list uuid) : M (option eerr) :=
  match users with
  | [] => mret None
  | u :: rest =>
      r ← call (AddConversationParticipant conv u);
      match r with Err e => mret (Some (EErrDB e)) | Ok _ => add_participants conv rest end
  end.

(** [Service.StartConversation] *)
Definition StartConversation (me recipient : uuid) : M (result eerr (uuid * Conv)) :=
  if bool_decide (me = recipient) then mret (Err EErrCannotMessageSelf) else
  u ← call (GetUserByID recipient);
  match u with
  | Err ErrNoRows => mret (Err EErrRecipientNotFound)
  | Err e => mret (Err (EErrDB e))
  | Ok _ =>
      b ← isBlocked me recipient;
      match b with
      | Err e => mret (Err e)
      | Ok true => mret (Err EErrBlocked)
      | Ok false =>
          c ← call (CreateE2EEConversation (e2eeKey me recipient));
          conv ← (match c with
                  | Ok row => mret (Ok row)
                  | Err ErrNoRows => call (GetE2EEConversationByDMKey (e2eeKey me recipient))
                  | Err e => mret (Err e)
                  end);
          match conv with
          | Err e => mret (Err (EErrDB e))
          | Ok row =>
              p ← add_participants row.1 [me; recipient];
              mret (match p with Some e => Err e | None => Ok row end)
          end
      end
  end.

(** [Service.ConversationEncrypted] *)
Definition ConversationEncrypted (me conv : uuid) : M (result eerr bool) :=
  r ← call (GetConversationForParticipant conv me);
  mret (match r with Err ErrNoRows => Err EErrNotParticipant | Err e => Err (EErrDB e) | Ok x => Ok x end).

(** [Service.RegisterDevice] *)
Definition RegisterDevice (user : uuid) (name identity signing : string) : M (result eerr (uuid * EDevice)) :=
  if unbounded name maxDeviceName then mret (Err (EInvalid "device_name must be 1-100 characters")) else
  if unbounded identity maxKeyMaterialLen then mret (Err (EInvalid "identity_key is required and bounded")) else
  if unbounded signing maxKeyMaterialLen then mret (Err (EInvalid "signing_key is required and bounded")) else
  n ← call (CountE2EEDevicesByUser user);
  match n with
  | Err e => mret (Err (EErrDB e))
  | Ok n =>
      if maxDevicesPerUser <=? n then mret (Err EErrTooManyDevices) else
      r ← call (CreateE2EEDevice user name identity signing);
      mret (match r with Err e => Err (EErrDB e) | Ok row => Ok row end)
  end.

(** [Service.ListOwnDevices] *)
Definition ListOwnDevices (user : uuid) : M (result eerr (list (uuid * EDevice))) :=
  r ← call (ListE2EEDevicesByUser user); mret (match r with Err e => Err (EErrDB e) | Ok rows => Ok rows end).

(** [Service.DeleteDevice] *)
Definition DeleteDevice (user device : uuid) : M (option eerr) :=
  n ← call (DeleteE2EEDevice device user);
  mret (match n with Err e => Some (EErrDB e) | Ok n => if n =? 0 then Some EErrDeviceNotFound else None end).

(** [Service.gatePeerAccess] *)
Definition gatePeerAccess (caller user : uuid) : M (option eerr) :=
  r ← call (UsersShareConversation caller user);
  match r with
  | Err e => mret (Some (EErrDB e))
  | Ok false => mret (Some EErrNotAuthorized)
  | Ok true => b ← isBlocked caller user; mret (match b with Err e => Some e | Ok true => Some EErrBlocked | Ok false => None end)
  end.

Definition peer_gate (caller user : uuid) : M (option eerr) :=
  if bool_decide (caller = user) then mret None else gatePeerAccess caller user.

(** [Service.ListUserDevices] *)
Definition ListUserDevices (caller user : uuid) : M (result eerr (list (uuid * EDevice))) :=
  g ← peer_gate caller user;
  match g with Some e => mret (Err e) | None => ListOwnDevices user end.

(** [Service.ownDevice] *)
Definition ownDevice (user device : uuid) : M (result eerr EDevice) :=
  r ← call (GetE2EEDevice device);
  mret (match r with
        | Err ErrNoRows => Err EErrDeviceNotFound
        | Err e => Err (EErrDB e)
        | Ok (_, v) => if bool_decide (edUser v = user) then Ok v else Err EErrDeviceNotFound
        end).

(** The loop of [UploadOneTimeKeys]. *)
Fixpoint insert_keys (device : uuid) (keys : list OneTimeKey) : M (option eerr) :=
  match keys with
  | [] => mret None
  | k :: rest =>
      r ← call (InsertE2EEOneTimeKey device (ktID k) (ktKey k));
      match r with Err e => mret (Some (EErrDB e)) | Ok _ => insert_keys device rest end
  end.

(** [Service.UploadOneTimeKeys] *)
Definition UploadOneTimeKeys (user device : uuid) (keys : list OneTimeKey) : M (result eerr Z) :=
  o ← ownDevice user device;
  match o with
  | Err e => mret (Err e)
  | Ok _ =>
      if bool_decide (keys = []) then mret (Err (EInvalid "one_time_keys must not be empty")) else
      if maxOTKBatch <? Z.of_nat (length keys) then mret (Err (EInvalid "at most 100 one_time_keys per upload")) else
      if existsb (fun k => unbounded (ktID k) maxKeyIDLen || unbounded (ktKey k) maxKeyMaterialLen) keys
      then mret (Err (EInvalid "each one-time key needs a bounded key_id and key")) else
      n ← call (CountUnclaimedE2EEOneTimeKeys device);
      match n with
      | Err e => mret (Err (EErrDB e))
      | Ok n =>
          if maxUnclaimedOTKs <? n + Z.of_nat (length keys) then mret (Err EErrTooManyKeys) else
          i ← insert_keys device keys;
          match i with
          | Some e => mret (Err e)
          | None =>
              _ ← call (TouchE2EEDevice device);
              c ← call (CountUnclaimedE2EEOneTimeKeys device);
              mret (match c with Err e => Err (EErrDB e) | Ok n => Ok n end)
          end
      end
  end.

(** [Service.CountOneTimeKeys] *)
Definition CountOneTimeKeys (user device : uuid) : M (result eerr Z) :=
  o ← ownDevice user device;
  match o with
  | Err e => mret (Err e)
  | Ok _ => c ← call (CountUnclaimedE2EEOneTimeKeys device); mret (match c with Err e => Err (EErrDB e) | Ok n => Ok n end)
  end.

(** The loop of [ClaimKeys]: one key for each device. *)
Fixpoint claim_each (devices : list (uuid * EDevice)) : M (result eerr (list Claim)) :=
  match devices with
  | [] => mret (Ok [])
  | (id, v) :: rest =>
      r ← call (ClaimE2EEOneTimeKey id);
      match (match r with
             | Ok (_, k) => Ok (Some (mkOneTimeKey (okKeyID k) (okKey k)))
             | Err ErrNoRows => Ok None
             | Err e => Err (EErrDB e)
             end) with
      | Err e => mret (Err e)
      | Ok key =>
          l ← claim_each rest;
          mret (match l with Err e => Err e | Ok cs => Ok (mkClaim id (edIdentity v) (edSigning v) key :: cs) end)
      end
  end.

(** [Service.ClaimKeys] *)
Definition ClaimKeys (caller user : uuid) : M (result eerr (list Claim)) :=
  g ← peer_gate caller user;
  match g with
  | Some e => mret (Err e)
  | None =>
      r ← call (ListE2EEDevicesByUser user);
      match r with Err e => mret (Err (EErrDB e)) | Ok devices => claim_each devices end
  end.

(** The gate of [Send] on a block with the other participant. *)
Definition send_blocked (me conv : uuid) : M (option eerr) :=
  if negb (es_blocker s) then mret None else
  o ← call (GetOtherParticipant conv me);
  match o with
  | Err _ => mret None
  | Ok other =>
      b ← call (IsBlockedBetween me other);
      mret (match b with Err e => Some (EErrDB e) | Ok true => Some EErrBlocked | Ok false => None end)
  end.

(** Its validation of the envelopes against the devices of the conversation,
    in order, remembering the recipients seen. *)
Fixpoint bad_envelope (owners : list (uuid * uuid)) (seen : list uuid) (envs : list Envelope) : option string :=
  match envs with
  | [] => None
  | e :: rest =>
      if negb (bool_decide (enRecipient e ∈ map fst owners))
      then Some "recipient_device_id does not belong to a participant of this conversation"%string
      else if bool_decide (enRecipient e ∈ seen) then Some "duplicate recipient_device_id"%string
      else if negb (bool_decide (enType e = 0 \/ enType e = 1)) then Some "message_type must be 0 (prekey) or 1 (normal)"%string
      else if unbounded (enCipher e) MaxCiphertextBytes then Some "ciphertext is required and at most 64KiB"%string
      else bad_envelope owners (enRecipient e :: seen) rest
  end.

(** The loop of [Send] that stores them; the time of the last. *)
Fixpoint store_each (conv device : uuid) (expires : option time) (envs : list Envelope) (created : option time) : M (result eerr (option time)) :=
  match envs with
  | [] => mret (Ok created)
  | e :: rest =>
      r ← call (CreateE2EEMessage (mkEnv conv device (enRecipient e) (enType e) (enCipher e) 0 expires));
      match r with
      | Err x => mret (Err (EErrDB x))
      | Ok (_, row) => store_each conv device expires rest (Some (evCreated row))
      end
  end.

(** [Service.Send] *)
Definition Send (me conv device : uuid) (envs : list Envelope) (expiresIn : option Z) : M (result eerr SendResult) :=
  c ← ConversationEncrypted me conv;
  match c with
  | Err e => mret (Err e)
  | Ok false => mret (Err (EInvalid "conversation is not encrypted"))
  | Ok true =>
      b ← send_blocked me conv;
      match b with
      | Some e => mret (Err e)
      | None =>
          if bool_decide (envs = []) then mret (Err (EInvalid "envelopes must not be empty")) else
          if match expiresIn with Some n => (n <? MinExpirySeconds) || (MaxExpirySeconds <? n) | None => false end
          then mret (Err (EInvalid "expires_in_seconds must be between 30 seconds and 90 days")) else
          expires ← (match expiresIn with
                     | Some n => now ← call DNow; mret (Some (now + n * Second))
                     | None => mret None
                     end);
          ds ← call (ListE2EEDevicesForConversation conv);
          match ds with
          | Err e => mret (Err (EErrDB e))
          | Ok owners =>
              if negb (bool_decide ((device, me) ∈ owners)) then mret (Err (EInvalid "sender_device_id must be one of your registered devices")) else
              match bad_envelope owners [] envs with
              | Some reason => mret (Err (EInvalid reason))
              | None =>
                  r ← store_each conv device expires envs None;
                  match r with
                  | Err e => mret (Err e)
                  | Ok created =>
                      _ ← call (TouchE2EEDevice device);
                      _ ← call (TouchConversation conv);
                      mret (Ok (mkSendResult conv (Z.of_nat (length envs)) created expires))
                  end
              end
          end
      end
  end.

(** [Service.ListMessages] *)
Definition ListMessages (me conv : uuid) (limit offset : Z) : M (result eerr (list EnvRow)) :=
  c ← ConversationEncrypted me conv;
  match c with
  | Err e => mret (Err e)
  | Ok _ => r ← call (ListE2EEMessagesForRecipient me conv limit offset); mret (match r with Err e => Err (EErrDB e) | Ok rows => Ok rows end)
  end.

(** [Service.ListMessagesBefore] *)
Definition ListMessagesBefore (me conv before : uuid) (limit : Z) : M (result eerr (list EnvRow)) :=
  c ← ConversationEncrypted me conv;
  match c with
  | Err e => mret (Err e)
  | Ok _ =>
      t ← call (GetE2EEMessageCursor me before conv);
      match t with
      | Err ErrNoRows => mret (Err (EInvalid "before_id is not a message in this conversation"))
      | Err e => mret (Err (EErrDB e))
      | Ok at_ =>
          r ← call (ListE2EEMessagesForRecipientBefore me conv at_ before limit);
          mret (match r with Err e => Err (EErrDB e) | Ok rows => Ok rows end)
      end
  end.

(** [Service.SweepExpired] *)
Definition SweepExpired (limit : Z) : M (result dberr Z) := call (SweepExpiredE2EEMessages (int32 limit)).

End Programs.

(** ** Routing by the type of the conversation *)

(** What the server holds: both services (encrypted messaging may be absent)
    and the operator's switch for it. *)
Record Chat := mkChat { ch_messages : MService; ch_e2ee : option EService; ch_enabled : bool }.

Inductive herr := HMessages (e : merr) | HE2ee (e : eerr) | HFeatureDisabled | HValidation (field : string).

(** A parsed body of a send. *)
Record SendRequest := mkSendRequest {
  rqBody : string; rqAttachments : list uuid; rqEnvelopes : list Envelope; rqDevice : uuid; rqExpires : option Z;
}.

Section Routing.
Context (h : Chat) (sha256_hex : string -> string) (extensions_by_type : string -> list string) (decode_config : bytes -> option (Z * Z)).

Definition send_plain (me conv : uuid) (rq : SendRequest) : M (result herr unit) :=
  r ← SendMessage (ch_messages h) sha256_hex me conv (TrimSpace (rqBody rq)) (rqAttachments rq);
  mret (match r with Err e => Err (HMessages e) | Ok _ => Ok tt end).

(** [handleSendMessage]: an encrypted conversation takes only envelopes, a
    plaintext one only a body. *)
Definition handleSendMessage (me conv : uuid) (rq : SendRequest) : M (result herr unit) :=
  match ch_e2ee h with
  | None => if bool_decide (length (rqEnvelopes rq) = O) then send_plain me conv rq else mret (Err (HValidation "envelopes"))
  | Some es =>
      c ← ConversationEncrypted me conv;
      match c with
      | Err e => mret (Err (HE2ee e))
      | Ok true =>
          if negb (ch_enabled h) then mret (Err HFeatureDisabled) else
          if bool_decide (length (rqEnvelopes rq) = O) then mret (Err (HValidation "envelopes")) else
          r ← Send es me conv (rqDevice rq) (rqEnvelopes rq) (rqExpires rq);
          mret (match r with Err e => Err (HE2ee e) | Ok _ => Ok tt end)
      | Ok false =>
          if bool_decide (length (rqEnvelopes rq) = O) then send_plain me conv rq else mret (Err (HValidation "body"))
      end
  end.

(** [conversationEncrypted] *)
Definition conversationEncrypted (me conv : uuid) : M (result eerr bool) :=
  match ch_e2ee h with None => mret (Ok false) | Some _ => ConversationEncrypted me conv end.

(** [handleUploadAttachment]: attachments are for plaintext conversations. *)
Definition handleUploadAttachment (me conv : uuid) (i : AttachmentInput) : M (result herr Attachment) :=
  if negb (ms_blobs (ch_messages h)) then mret (Err (HMessages MErrAttachmentsUnavailable)) else
  c ← conversationEncrypted me conv;
  match c with
  | Err e => mret (Err (HE2ee e))
  | Ok true => mret (Err (HValidation "encrypted"))
  | Ok false =>
      r ← UploadAttachment (ch_messages h) extensions_by_type decode_config me conv i;
      mret (match r with Err e => Err (HMessages e) | Ok a => Ok a end)
  end.

End Routing.
