(* ===== verification/MessagingSafety.v ===== *)
(** * Direct messages: theorems

    What holds of conversations, messages and keys however requests interleave
    and whatever the store fails at: nothing leaves its two participants, and
    the tables only move forward. *)
From S2P Require Import Prelude Interleave GoStrings Storage MediaKeys Secretbox Playback MessageStore Messaging E2ee.
Local Open Scope Z_scope.

(** ** Requests *)

(** Everything the HTTP layer and the loops ask of the three services. *)
Inductive drequest :=
| RBlock (a b : uuid) | RUnblock (a b : uuid) | RBlocks (a : uuid) (limit offset : Z)
| RStart (me to : uuid) | RStartEncrypted (me to : uuid) | RResolve (name : string)
| RInbox (me : uuid) (limit offset : Z)
| RSend (me conv : uuid) (rq : SendRequest)
| RUpload (me conv : uuid) (i : AttachmentInput) | RDownload (me id : uuid)
| RList (me conv : uuid) (limit offset : Z) | RListBefore (me conv before : uuid) (limit : Z)
| RMarkRead (me conv : uuid) (msg : option uuid) | RPeerRead (me conv : uuid) | RReceipts (me : uuid) (on : bool)
| RDelete (me id : uuid) | RReport (me id : uuid)
| RRegister (me : uuid) (name ident signing : string) | RDevices (me user : uuid) | RRemoveDevice (me device : uuid)
| RUploadKeys (me device : uuid) (keys : list OneTimeKey) | RCountKeys (me device : uuid) | RClaim (me user : uuid)
| RListEncrypted (me conv : uuid) (limit offset : Z) | RListEncryptedBefore (me conv before : uuid) (limit : Z)
| RSweep (limit : Z).

(** The one-time keys an answer hands over. *)
Definition handed (r : result eerr (list Claim)) : list (uuid * string) :=
  match r with Ok cs => omap (fun c => (fun k => (clDevice c, ktID k)) <$> clKey c) cs | Err _ => [] end.

Definition silent {A} (p : prog dmE A) : prog dmE (list (uuid * string)) := _ ← p; mret [].

Definition dperform (sha256_hex : string -> string) (extensions_by_type : string -> list string) (decode_config : bytes -> option (Z * Z))
    (rq : MService * EService * bool * drequest) : prog dmE (list (uuid * string)) :=
  let '(ms, es, on, r) := rq in
  let chat := mkChat ms (Some es) on in
  match r with
  | RBlock a b => silent (Block a b)
  | RUnblock a b => silent (Unblock a b)
  | RBlocks a limit offset => silent (ListBlocked a limit offset)
  | RStart me to => silent (Messaging.StartConversation ms me to)
  | RStartEncrypted me to => silent (StartConversation es me to)
  | RResolve name => silent (ResolveRecipientUsername name)
  | RInbox me limit offset => silent (ListConversations me limit offset)
  | RSend me conv rq => silent (handleSendMessage chat sha256_hex me conv rq)
  | RUpload me conv i => silent (handleUploadAttachment chat extensions_by_type decode_config me conv i)
  | RDownload me id => silent (AttachmentForDownload ms me id)
  | RList me conv limit offset => silent (Messaging.ListMessages me conv limit offset)
  | RListBefore me conv before limit => silent (Messaging.ListMessagesBefore me conv before limit)
  | RMarkRead me conv msg => silent (MarkRead me conv msg)
  | RPeerRead me conv => silent (PeerReadWatermark me conv)
  | RReceipts me on => silent (SetReadReceiptsEnabled me on)
  | RDelete me id => silent (DeleteMessage ms me id)
  | RReport me id => silent (ReportableMessage me id)
  | RRegister me name ident signing => silent (RegisterDevice me name ident signing)
  | RDevices me user => silent (ListUserDevices es me user)
  | RRemoveDevice me device => silent (DeleteDevice me device)
  | RUploadKeys me device keys => silent (UploadOneTimeKeys me device keys)
  | RCountKeys me device => silent (CountOneTimeKeys me device)
  | RClaim me user => r ← ClaimKeys es me user; mret (handed r)
  | RListEncrypted me conv limit offset => silent (ListMessages me conv limit offset)
  | RListEncryptedBefore me conv before limit => silent (ListMessagesBefore me conv before limit)
  | RSweep limit => silent (SweepExpired limit)
  end.

(** ** Forward only *)

(** A message keeps its conversation, sender and time; its text changes only to
    the tombstone, and a tombstone stays. *)
Definition msg_le (m m' : Msg) : Prop :=
  mgConv m' = mgConv m /\ mgSender m' = mgSender m /\ mgCreated m' = mgCreated m /\
  match mgDeleted m with
  | None => mgDeleted m' = None /\ mgBody m' = mgBody m \/ is_Some (mgDeleted m') /\ mgBody m' = "[deleted]"%string
  | Some t => mgDeleted m' = Some t /\ mgBody m' = mgBody m
  end.

Definition conv_le (c c' : Conv) : Prop := cvKey c' = cvKey c /\ cvEncrypted c' = cvEncrypted c /\ cvCreated c' = cvCreated c.

(** Every row is still there, changed as [R] allows. *)
Definition rows_le {K A} `{Countable K} (R : A -> A -> Prop) (m m' : gmap K A) : Prop :=
  forall k x, m !! k = Some x -> exists x', m' !! k = Some x' /\ R x x'.

(** A watermark moves to a message at least as new. *)
Definition read_le (d d' : DMDB) (r r' : option uuid) : Prop :=
  match r with
  | None => True
  | Some old => exists new, r' = Some new /\
      forall m, dmMsgs d !! old = Some m -> exists m', dmMsgs d' !! new = Some m' /\ mgCreated m <= mgCreated m'
  end.

(** A device is one that was there, with the same owner, or a new one. *)
Definition devices_le (d d' : DMDB) : Prop :=
  forall id v', dmDevices d' !! id = Some v' ->
    (exists v, dmDevices d !! id = Some v /\ edUser v' = edUser v) \/ exists n, (dmDrawn d <= n < dmDrawn d')%nat /\ id = dmGen d n.

(** A one-time key that was claimed stays so, or goes with its device. *)
Definition keys_le (d d' : DMDB) : Prop :=
  forall id k, dmKeys d !! id = Some k -> is_Some (okClaimed k) ->
    dmKeys d' !! id = Some k \/ dmDevices d' !! okDevice k = None \/ exists n, (dmDrawn d <= n < dmDrawn d')%nat /\ okDevice k = dmGen d n.

Record grows (d d' : DMDB) : Prop := {
  g_now : dmNow d <= dmNow d';
  g_gen : dmGen d' = dmGen d;
  g_drawn : (dmDrawn d <= dmDrawn d')%nat;
  g_users : forall id, is_Some (dmUsers d !! id) -> is_Some (dmUsers d' !! id);
  g_convs : rows_le conv_le (dmConvs d) (dmConvs d');
  g_parts : rows_le (read_le d d') (dmParts d) (dmParts d');
  g_msgs : rows_le msg_le (dmMsgs d) (dmMsgs d');
  g_devices : devices_le d d';
  g_keys : keys_le d d';
}.

#[global] Instance msg_le_po : PreOrder msg_le.
Proof.
  split.
  - intros m. unfold msg_le. split_and!; try done. destruct (mgDeleted m); auto.
  - intros x y z (H1 & H2 & H3 & H4) (H5 & H6 & H7 & H8). unfold msg_le. split_and!; try congruence.
    destruct (mgDeleted x) as [t|].
    + destruct H4 as [Hy Hb]. rewrite Hy in H8. destruct H8. split; congruence.
    + destruct H4 as [[Hy Hb]|[[t Hy] Hb]]; rewrite Hy in H8.
      * destruct H8 as [[? ?]|[? ?]]; [left; split; congruence|right; split; [done|congruence]].
      * destruct H8 as [Hz Hb']. right. split; [by rewrite Hz|congruence].
Qed.

#[global] Instance conv_le_po : PreOrder conv_le.
Proof. split; [by intros c|]. intros x y z (?&?&?) (?&?&?). unfold conv_le. split_and!; congruence. Qed.

Lemma rows_le_refl {K A} `{Countable K} (R : A -> A -> Prop) `{!Reflexive R} (m : gmap K A) : rows_le R m m.
Proof. intros k x Hx. by exists x. Qed.

Lemma rows_le_trans {K A} `{Countable K} (R : A -> A -> Prop) `{!Transitive R} (m m' m'' : gmap K A) :
  rows_le R m m' -> rows_le R m' m'' -> rows_le R m m''.
Proof. intros H1 H2 k x Hx. destruct (H1 k x Hx) as (y & Hy & Hxy). destruct (H2 k y Hy) as (z & Hz & Hyz). exists z. split; [done|by etransitivity]. Qed.

#[global] Instance grows_po : PreOrder grows.
Proof.
  split.
  - intros d. split; try done; try (apply rows_le_refl; apply _).
    + intros k r Hr. exists r. split; [done|]. destruct r as [old|]; [|exact I]. exists old. split; [done|]. intros m Hm. exists m. split; [done|lia].
    + intros id v Hv. left. by exists v.
    + intros id k Hk _. by left.
  - intros x y z [a1 a2 a3 a4 a5 a6 a7 a8 a9] [b1 b2 b3 b4 b5 b6 b7 b8 b9]. split; try lia; try congruence; auto.
    + by eapply rows_le_trans; [apply _|..].
    + intros k r Hr. destruct (a6 k r Hr) as (r1 & Hr1 & H1). destruct (b6 k r1 Hr1) as (r2 & Hr2 & H2). exists r2. split; [done|].
      destruct r as [old|]; [|exact I]. destruct H1 as (new & -> & H1). destruct H2 as (new2 & -> & H2). exists new2. split; [done|].
      intros m Hm. destruct (H1 m Hm) as (m1 & Hm1 & Hle1). destruct (H2 m1 Hm1) as (m2 & Hm2 & Hle2). exists m2. split; [done|lia].
    + by eapply rows_le_trans; [apply _|..].
    + intros id v Hv. destruct (b8 id v Hv) as [(v1 & Hv1 & He)|(n & Hn & ->)].
      * destruct (a8 id v1 Hv1) as [(v0 & Hv0 & He')|(n & Hn & ->)]; [left; exists v0; split; congruence|right; exists n; split; [lia|done]].
      * right. exists n. split; [lia|congruence].
    + intros id k Hk Hc. destruct (a9 id k Hk Hc) as [Hk1|[Hd|(n & Hn & He)]].
      * destruct (b9 id k Hk1 Hc) as [?|[?|(n & Hn & He)]]; [by left|by right; left|right; right; exists n; split; [lia|congruence]].
      * destruct (dmDevices z !! okDevice k) as [v|] eqn:Hv; [|by right; left].
        destruct (b8 _ _ Hv) as [(v1 & Hv1 & _)|(n & Hn & He)]; [congruence|]. right; right. exists n. split; [lia|congruence].
      * right; right. exists n. split; [lia|done].
Qed.

(** A statement that leaves the watermarks alone, or moves them forward. *)
Lemma grows_intro d d' :
  dmNow d' = dmNow d -> dmGen d' = dmGen d -> (dmDrawn d <= dmDrawn d')%nat -> dmUsers d' = dmUsers d ->
  rows_le conv_le (dmConvs d) (dmConvs d') -> rows_le msg_le (dmMsgs d) (dmMsgs d') ->
  rows_le (fun r r' => r' = r \/ read_le d d' r r') (dmParts d) (dmParts d') -> devices_le d d' -> keys_le d d' -> grows d d'.
Proof.
  intros Hn Hg Hd Hu Hc Hm Hp Hv Hk. split; try done; [lia|by rewrite Hu|].
  intros k r Hr. destruct (Hp k r Hr) as (r' & Hr' & [->|H]); [|by exists r']. exists r. split; [done|]. destruct r as [old|]; [|exact I].
  exists old. split; [done|]. intros m Hom. destruct (Hm old m Hom) as (m' & Hm' & (_ & _ & He & _)). exists m'. split; [done|lia].
Qed.

Lemma rows_le_same {K A} `{Countable K} (R : A -> A -> Prop) `{!Reflexive R} (m m' : gmap K A) : m' = m -> rows_le R m m'.
Proof. intros ->. by apply rows_le_refl. Qed.

Lemma rows_le_new {K A} `{Countable K} (R : A -> A -> Prop) `{!Reflexive R} (m : gmap K A) k x : m !! k = None -> rows_le R m (<[k := x]> m).
Proof. intros Hk i y Hy. exists y. split; [|done]. rewrite lookup_insert_ne; [done|]. intros ->. congruence. Qed.

Lemma rows_le_set {K A} `{Countable K} (R : A -> A -> Prop) `{!Reflexive R} (m : gmap K A) k x y : m !! k = Some x -> R x y -> rows_le R m (<[k := y]> m).
Proof.
  intros Hk HR i z Hz. destruct (decide (i = k)) as [->|].
  - exists y. rewrite lookup_insert_eq. split; [done|]. congruence.
  - exists z. by rewrite lookup_insert_ne.
Qed.

Lemma rows_le_alter {K A} `{Countable K} (R : A -> A -> Prop) `{!Reflexive R} (m : gmap K A) f k : (forall x, R x (f x)) -> rows_le R m (alter f k m).
Proof.
  intros HR i z Hz. destruct (decide (i = k)) as [->|].
  - exists (f z). rewrite lookup_alter_eq, Hz. by split.
  - exists z. by rewrite lookup_alter_ne.
Qed.

Lemma read_le_or_refl d d' : Reflexive (fun r r' : option uuid => r' = r \/ read_le d d' r r').
Proof. intros r. by left. Qed.
#[local] Existing Instance read_le_or_refl.

Lemma devices_le_same d d' : dmDevices d' = dmDevices d -> devices_le d d'.
Proof. intros He id v Hv. left. exists v. split; congruence. Qed.

Lemma keys_le_same d d' : dmKeys d' = dmKeys d -> keys_le d d'.
Proof. intros He id k Hk _. left. congruence. Qed.

(** What is left after the update of one table. *)
Ltac grow :=
  apply grows_intro; cbn; try done; try lia;
  try (first [apply rows_le_same; [apply _|reflexivity] | apply devices_le_same; reflexivity | apply keys_le_same; reflexivity]).

Lemma grows_draw d : grows d (draw_dm d).
Proof. grow. Qed.

(** The branches of a statement that change nothing. *)
Ltac stmt := repeat (case_match; cbn [snd]; try reflexivity; try apply grows_draw).

Lemma grow_BlockUser a b d : grows d (q_BlockUser a b d).2.
Proof. unfold q_BlockUser. stmt. grow. Qed.
Lemma grow_UnblockUser a b d : grows d (q_UnblockUser a b d).2.
Proof. cbn. grow. Qed.
Lemma grow_Pref u t e d : grows d (q_UpsertNotificationPref u t e d).2.
Proof. unfold q_UpsertNotificationPref. stmt. grow. Qed.
Lemma grow_insert_conv key e d : grows d (insert_conv key e d).2.
Proof. unfold insert_conv. stmt. bools. grow. apply rows_le_new; [apply _|]. by apply eq_None_not_Some. Qed.
Lemma grow_AddParticipant c u d : grows d (q_AddConversationParticipant c u d).2.
Proof. unfold q_AddConversationParticipant. stmt. bools. grow. apply rows_le_new; [apply _|]. by apply eq_None_not_Some. Qed.
Lemma grow_Touch c d : grows d (q_TouchConversation c d).2.
Proof. cbn. grow. apply rows_le_alter; [apply _|]. by intros x. Qed.
Lemma grow_CreateMessage c u body d : grows d (q_CreateMessage c u body d).2.
Proof. unfold q_CreateMessage. stmt. bools. grow. apply rows_le_new; [apply _|]. by apply eq_None_not_Some. Qed.
Lemma grow_SetLastRead m c u d : grows d (q_SetLastReadMessage m c u d).2.
Proof.
  unfold q_SetLastReadMessage. destruct (dmParts d !! (c, u)) as [read|] eqn:Hr; [|reflexivity].
  set (moves := match read with None => true | Some _ => _ end). destruct moves eqn:Hmoves; [|reflexivity]. cbn [negb].
  case_bool_decide as Hm; [reflexivity|]. cbn [snd]. grow. apply (rows_le_set _ _ _ read); [done|]. right. destruct read as [old|]; [|exact I]. exists m. split; [done|].
  intros o Ho. cbn. unfold moves in Hmoves. rewrite Ho in Hmoves. destruct (dmMsgs d !! m) as [n|]; [|done]. exists n. split; [done|]. by apply Z.leb_le.
Qed.
Lemma grow_Tombstone m u d : grows d (q_TombstoneMessage m u d).2.
Proof.
  unfold q_TombstoneMessage. destruct (dmMsgs d !! m) as [x|] eqn:Hx; [|reflexivity]. case_match eqn:Hg; [|reflexivity]. bools. cbn [snd].
  grow. apply (rows_le_set _ _ _ x); [done|]. unfold msg_le. cbn. split_and!; try done. case_match; [done|]. right. split; [by eexists|done].
Qed.
Lemma grow_CreateAttachment i a d : grows d (q_CreateMessageAttachment i a d).2.
Proof. unfold q_CreateMessageAttachment. stmt. grow. Qed.
Lemma grow_Link m ids u c d : grows d (q_LinkAttachmentsToMessage m ids u c d).2.
Proof. unfold q_LinkAttachmentsToMessage. stmt. grow. Qed.
Lemma grow_DeleteAttachments m d : grows d (q_DeleteAttachmentsByMessage m d).2.
Proof. cbn. grow. Qed.
Lemma grow_UpsertPreview h u d : grows d (q_UpsertPendingLinkPreview h u d).2.
Proof. cbn. case_match; [reflexivity|]. grow. Qed.
Lemma grow_SetPreview m h d : grows d (q_SetMessageLinkPreview m h d).2.
Proof.
  unfold q_SetMessageLinkPreview. destruct (dmMsgs d !! m) as [x|] eqn:Hx; [|reflexivity]. stmt. grow.
  apply (rows_le_set _ _ _ x); [done|]. unfold msg_le. cbn. split_and!; try done. destruct (mgDeleted x); auto.
Qed.
Lemma grow_Resolve h st a b c d : grows d (q_ResolveLinkPreview h st a b c d).2.
Proof. cbn. grow. Qed.
Lemma grow_CreateDevice u a b c d : grows d (q_CreateE2EEDevice u a b c d).2.
Proof.
  unfold q_CreateE2EEDevice. stmt. bools. grow. intros id v. cbn. intros [[<- <-]|[_ Hv]]%lookup_insert_Some; [|left; by exists v].
  right. exists (dmDrawn d). split; [lia|done].
Qed.
Lemma grow_DeleteDevice i u d : grows d (q_DeleteE2EEDevice i u d).2.
Proof.
  unfold q_DeleteE2EEDevice. stmt. grow.
  - intros id v. cbn. intros [_ Hv]%lookup_delete_Some. left. by exists v.
  - intros id k Hk _. cbn. destruct (decide (okDevice k = i)) as [->|Hne]; [right; left; apply lookup_delete_eq|].
    left. by apply map_lookup_filter_Some.
Qed.
Lemma grow_TouchDevice i d : grows d (q_TouchE2EEDevice i d).2.
Proof.
  cbn. grow. intros id v. cbn. intros Hv. left. destruct (decide (id = i)) as [->|]; [|rewrite lookup_alter_ne in Hv by done; by exists v].
  rewrite lookup_alter_eq in Hv. destruct (dmDevices d !! i) as [x|]; [|done]. injection Hv as <-. by exists x.
Qed.
Lemma grow_InsertKey v a b d : grows d (q_InsertE2EEOneTimeKey v a b d).2.
Proof.
  unfold q_InsertE2EEOneTimeKey. stmt. bools. grow. intros id k Hk _. left. cbn. rewrite lookup_insert_ne; [done|]. intros <-. by destruct H1.
Qed.

(** The key a claim takes is an unclaimed one of the device. *)
Lemma claim_takes v d id k :
  (q_ClaimE2EEOneTimeKey v d).1 = Ok (id, k) ->
  exists k0, dmKeys d !! id = Some k0 /\ okDevice k0 = v /\ okClaimed k0 = None /\
    k = mkOTK (okDevice k0) (okKeyID k0) (okKey k0) (Some (dmNow d)) (okCreated k0) /\ (q_ClaimE2EEOneTimeKey v d).2 = set_keys <[id := k]> d.
Proof.
  unfold q_ClaimE2EEOneTimeKey. destruct (merge_sort _ _) as [|[i x] l] eqn:Hs; [done|]. cbn. intros [= <- <-]. exists x.
  assert (Hin : (i, x) ∈ unclaimed v d) by (rewrite <- (merge_sort_Permutation (on_key otk_key oldest)), Hs; left).
  unfold unclaimed, rows_of in Hin. apply list_elem_of_filter in Hin as [[? ?] Hin]. apply elem_of_map_to_list in Hin. by split_and!.
Qed.

Lemma grow_Claim v d : grows d (q_ClaimE2EEOneTimeKey v d).2.
Proof.
  destruct (q_ClaimE2EEOneTimeKey v d) as [[[id k]|e] d'] eqn:Hq.
  - destruct (claim_takes v d id k) as (k0 & Hk0 & _ & Hc & -> & He); [by rewrite Hq|]. rewrite Hq in He. cbn in *. subst d'.
    grow. intros i x Hx Hxc. left. cbn. rewrite lookup_insert_ne; [done|]. intros <-. rewrite Hx in Hk0. injection Hk0 as ->. by rewrite Hc in Hxc; destruct Hxc.
  - unfold q_ClaimE2EEOneTimeKey in Hq. repeat case_match; by simplify_eq.
Qed.
Lemma grow_CreateEnvelope e d : grows d (q_CreateE2EEMessage e d).2.
Proof. unfold q_CreateE2EEMessage. stmt. grow. Qed.
Lemma grow_Sweep n d : grows d (q_SweepExpiredE2EEMessages n d).2.
Proof. cbn. grow. Qed.

(** ** Between two *)

Definition conv_type (c : uuid) (enc : bool) (d : DMDB) : Prop := exists x, dmConvs d !! c = Some x /\ cvEncrypted x = enc.
Definition member (c u : uuid) (d : DMDB) : Prop := is_Some (dmParts d !! (c, u)).
Definition written (m c u : uuid) (d : DMDB) : Prop := exists y, dmMsgs d !! m = Some y /\ mgConv y = c /\ mgSender y = u.

(** The key of the conversation of two accounts. *)
Definition pair_key (enc : bool) (u v : uuid) : string := if enc then e2eeKey u v else dmKey u v.

Definition is_id (u : uuid) : Prop := contains colon u = false.

(** [x] is the conversation of [u] and [v]. *)
Definition conv_for (u v : uuid) (x : Conv) : Prop :=
  u <> v /\ is_id u /\ is_id v /\ cvKey x = Some (pair_key (cvEncrypted x) u v).

Definition part_ok (d : DMDB) (k : uuid * uuid) (r : option uuid) : Prop :=
  (exists x v, dmConvs d !! k.1 = Some x /\ conv_for k.2 v x) /\
  match r with None => True | Some m => exists y, dmMsgs d !! m = Some y /\ mgConv y = k.1 end.

Definition msg_ok (d : DMDB) (y : Msg) : Prop := member (mgConv y) (mgSender y) d /\ conv_type (mgConv y) false d.

Definition att_ok (d : DMDB) (a : Att) : Prop :=
  member (atConv a) (atUploader a) d /\ conv_type (atConv a) false d /\
  match atMessage a with None => True | Some m => written m (atConv a) (atUploader a) d end.

Definition owned_by_member (c v : uuid) (d : DMDB) : Prop := exists x, dmDevices d !! v = Some x /\ member c (edUser x) d.

Definition env_ok (d : DMDB) (e : Env) : Prop :=
  conv_type (evConv e) true d /\ owned_by_member (evConv e) (evFrom e) d /\ owned_by_member (evConv e) (evTo e) d.

(** Every conversation is of two accounts, known by its key; whoever takes part
    is one of the two; messages and attachments are by participants of a
    plaintext conversation, an attachment in a message of its uploader in the
    same conversation; envelopes go between devices of participants of an
    encrypted conversation; a one-time key belongs to a device, once; what a
    participant has read is in the conversation; and the ids of devices to come
    are new. *)
Record dm_ok (d : DMDB) : Prop := {
  ok_convs : forall c x, dmConvs d !! c = Some x -> exists u v, conv_for u v x;
  ok_unique : forall c c' x x', dmConvs d !! c = Some x -> dmConvs d !! c' = Some x' -> cvKey x = cvKey x' -> c = c';
  ok_parts : forall k r, dmParts d !! k = Some r -> part_ok d k r;
  ok_msgs : forall m y, dmMsgs d !! m = Some y -> msg_ok d y;
  ok_atts : forall i a, dmAtts d !! i = Some a -> att_ok d a;
  ok_envs : forall i e, dmEnvs d !! i = Some e -> env_ok d e;
  ok_keys : forall i k, dmKeys d !! i = Some k -> is_Some (dmDevices d !! okDevice k);
  ok_once : forall i j k k', dmKeys d !! i = Some k -> dmKeys d !! j = Some k' ->
              okDevice k = okDevice k' -> okKeyID k = okKeyID k' -> i = j;
  ok_fresh : forall n, (dmDrawn d <= n)%nat -> dmDevices d !! dmGen d n = None;
  ok_gen : forall n m, dmGen d n = dmGen d m -> n = m;
}.

(** *** Facts that last *)

Definition lasting (F : DMDB -> Prop) : Prop := forall d d', dm_ok d -> grows d d' -> F d -> F d'.

Lemma lasting_conv_type c b : lasting (conv_type c b).
Proof. intros d d' _ Hg (x & Hx & He). destruct (g_convs _ _ Hg c x Hx) as (x' & Hx' & _ & He' & _). exists x'. split; congruence. Qed.

Lemma lasting_member c u : lasting (member c u).
Proof. intros d d' _ Hg [r Hr]. destruct (g_parts _ _ Hg _ r Hr) as (r' & Hr' & _). by exists r'. Qed.

Lemma lasting_written m c u : lasting (written m c u).
Proof. intros d d' _ Hg (y & Hy & Hc & Hu). destruct (g_msgs _ _ Hg m y Hy) as (y' & Hy' & ? & ? & _). exists y'. split_and!; congruence. Qed.

Definition in_conv (m c : uuid) (d : DMDB) : Prop := exists y, dmMsgs d !! m = Some y /\ mgConv y = c.

Lemma lasting_in_conv m c : lasting (in_conv m c).
Proof. intros d d' _ Hg (y & Hy & Hc). destruct (g_msgs _ _ Hg m y Hy) as (y' & Hy' & ? & _). exists y'. split; congruence. Qed.

(** The conversation [c] is that of [u] and [v]. *)
Definition of_pair (c u v : uuid) (enc : bool) (d : DMDB) : Prop :=
  exists x, dmConvs d !! c = Some x /\ cvEncrypted x = enc /\ cvKey x = Some (pair_key enc u v).

Lemma lasting_of_pair c u v b : lasting (of_pair c u v b).
Proof.
  intros d d' _ Hg (x & Hx & He & Hk). destruct (g_convs _ _ Hg c x Hx) as (x' & Hx' & ? & ? & _). exists x'. split_and!; congruence.
Qed.

(** The device [v] is known and, as long as it exists, the participant [u]'s. *)
Definition device_of_member (c v : uuid) (d : DMDB) : Prop :=
  (forall n, (dmDrawn d <= n)%nat -> v <> dmGen d n) /\ (forall x, dmDevices d !! v = Some x -> member c (edUser x) d).

Lemma lasting_device c v : lasting (device_of_member c v).
Proof.
  intros d d' Hok Hg [Hn Hv]. split.
  - intros n Hle. rewrite (g_gen _ _ Hg). apply Hn. pose proof (g_drawn _ _ Hg). lia.
  - intros x' Hx'. destruct (g_devices _ _ Hg v x' Hx') as [(x & Hx & He)|(n & Hle & He)]; [|by destruct (Hn n ltac:(lia))].
    rewrite He. apply (lasting_member _ _ d d' Hok Hg). by apply Hv.
Qed.

Lemma lasting_and F G : lasting F -> lasting G -> lasting (fun d => F d /\ G d).
Proof. intros HF HG d d' Hok Hg [? ?]. split; [by eapply HF|by eapply HG]. Qed.

Lemma lasting_forall {A} (F : A -> DMDB -> Prop) (l : list A) : (forall x, lasting (F x)) -> lasting (fun d => Forall (fun x => F x d) l).
Proof. intros HF d d' Hok Hg Hl. eapply Forall_impl; [exact Hl|]. intros x. by apply HF. Qed.

Lemma lasting_true : lasting (fun _ => True).
Proof. by intros d d'. Qed.

Create HintDb lasting.
#[export] Hint Resolve lasting_conv_type lasting_member lasting_written lasting_in_conv lasting_of_pair lasting_device
  lasting_and lasting_forall lasting_true : lasting.

(** *** What a statement must show *)

(** The invariant after a statement, table by table: a row is an old one that
    kept what matters, or satisfies its rule. *)
Lemma dm_ok_step d d' fresh :
  dm_ok d -> grows d d' ->
  (forall c x', dmConvs d' !! c = Some x' ->
     (exists x, dmConvs d !! c = Some x /\ conv_le x x') \/
     c = fresh /\ (exists u v, conv_for u v x') /\ forall c0 x0, dmConvs d !! c0 = Some x0 -> cvKey x0 <> cvKey x') ->
  (forall k r', dmParts d' !! k = Some r' -> dmParts d !! k = Some r' \/ part_ok d' k r') ->
  (forall m y', dmMsgs d' !! m = Some y' -> (exists y, dmMsgs d !! m = Some y /\ mgConv y' = mgConv y /\ mgSender y' = mgSender y) \/ msg_ok d' y') ->
  (forall i a, dmAtts d' !! i = Some a -> dmAtts d !! i = Some a \/ att_ok d' a) ->
  (forall i e, dmEnvs d' !! i = Some e ->
     dmEnvs d !! i = Some e /\ is_Some (dmDevices d' !! evFrom e) /\ is_Some (dmDevices d' !! evTo e) \/ env_ok d' e) ->
  (forall i k', dmKeys d' !! i = Some k' -> is_Some (dmDevices d' !! okDevice k') /\
     ((exists k, dmKeys d !! i = Some k /\ okDevice k' = okDevice k /\ okKeyID k' = okKeyID k) \/
      i = fresh /\ forall j k, dmKeys d !! j = Some k -> okDevice k <> okDevice k' \/ okKeyID k <> okKeyID k')) ->
  (forall n, (dmDrawn d' <= n)%nat -> dmDevices d' !! dmGen d' n = None) ->
  dm_ok d'.
Proof.
  intros Hok Hg Hconvs Hparts Hmsgs Hatts Henvs Hkeys Hfresh.
  assert (Hconv : forall c x, dmConvs d !! c = Some x -> exists x', dmConvs d' !! c = Some x' /\ conv_le x x') by apply (g_convs _ _ Hg).
  split.
  - intros c x' Hx'. destruct (Hconvs c x' Hx') as [(x & Hx & Hk & He & _)|(_ & Hnew & _)]; [|done].
    destruct (ok_convs _ Hok c x Hx) as (u & v & ? & ? & ? & Hkey). exists u, v. split_and!; try done. congruence.
  - intros c c' x x' Hx Hx' Hk. destruct (Hconvs c x Hx) as [(y & Hy & Hky & _)|(-> & _ & Hnew)], (Hconvs c' x' Hx') as [(y' & Hy' & Hky' & _)|(-> & _ & Hnew')]; try done.
    + eapply (ok_unique _ Hok); [done..|congruence].
    + destruct (Hnew' c y Hy). congruence.
    + destruct (Hnew c' y' Hy'). congruence.
  - intros k r' Hr'. destruct (Hparts k r' Hr') as [Hr|]; [|done]. destruct (ok_parts _ Hok k r' Hr) as ((x & v & Hx & Hfor) & Hread). split.
    + destruct (Hconv _ x Hx) as (x' & Hx' & Hk & He & _). exists x', v. split; [done|]. destruct Hfor as (? & ? & ? & ?). split_and!; try done. congruence.
    + destruct r' as [m|]; [|done]. exact (lasting_in_conv m k.1 d d' Hok Hg Hread).
  - intros m y' Hy'. destruct (Hmsgs m y' Hy') as [(y & Hy & Hc & Hs)|]; [|done]. destruct (ok_msgs _ Hok m y Hy) as [Hm Ht]. unfold msg_ok. rewrite Hc, Hs.
    split; [exact (lasting_member _ _ d d' Hok Hg Hm)|exact (lasting_conv_type _ _ d d' Hok Hg Ht)].
  - intros i a Ha. destruct (Hatts i a Ha) as [Ha'|]; [|done]. destruct (ok_atts _ Hok i a Ha') as (Hm & Ht & Hw). split_and!.
    + exact (lasting_member _ _ d d' Hok Hg Hm).
    + exact (lasting_conv_type _ _ d d' Hok Hg Ht).
    + destruct (atMessage a); [|done]. exact (lasting_written _ _ _ d d' Hok Hg Hw).
  - assert (Hdev : forall c v, owned_by_member c v d -> is_Some (dmDevices d' !! v) -> owned_by_member c v d').
    { intros c v (x & Hx & Hm) [x' Hx']. exists x'. split; [done|]. destruct (g_devices _ _ Hg v x' Hx') as [(y & Hy & He)|(n & Hn & ->)].
      - rewrite He. rewrite Hx in Hy. injection Hy as <-. exact (lasting_member _ _ d d' Hok Hg Hm).
      - by rewrite (ok_fresh _ Hok n) in Hx by lia. }
    intros i e He. destruct (Henvs i e He) as [(He' & Hf & Ht)|]; [|done]. destruct (ok_envs _ Hok i e He') as (Hc & Ho & Ho').
    split_and!; [exact (lasting_conv_type _ _ d d' Hok Hg Hc)|by apply Hdev|by apply Hdev].
  - intros i k Hk. apply (Hkeys i k Hk).
  - intros i j k k' Hi Hj Hd Hid. destruct (Hkeys i k Hi) as [_ [(x & Hx & Hxd & Hxi)|[-> Hnew]]], (Hkeys j k' Hj) as [_ [(x' & Hx' & Hxd' & Hxi')|[-> Hnew']]]; try done.
    + eapply (ok_once _ Hok); [done..| |]; congruence.
    + destruct (Hnew' i x Hx); congruence.
    + destruct (Hnew j x' Hx'); congruence.
  - done.
  - rewrite (g_gen _ _ Hg). apply (ok_gen _ Hok).
Qed.

Lemma same_convs d c x : dmConvs d !! c = Some x -> exists x0, dmConvs d !! c = Some x0 /\ conv_le x0 x.
Proof. intros Hx. exists x. split; [done|reflexivity]. Qed.

Lemma same_envs d i e : dm_ok d -> dmEnvs d !! i = Some e -> dmEnvs d !! i = Some e /\ is_Some (dmDevices d !! evFrom e) /\ is_Some (dmDevices d !! evTo e).
Proof. intros Hok He. destruct (ok_envs _ Hok i e He) as (_ & (x & Hx & _) & (y & Hy & _)). split_and!; [done|by exists x|by exists y]. Qed.

(** The tables a statement does not touch. *)
Ltac untouched Hok :=
  cbn; try (intros; left; by apply same_convs); try (intros; left; assumption);
  try (intros; left; by apply same_envs);
  try (let i := fresh in let k := fresh in let Hk := fresh in intros i k Hk; left; exists k; by split_and!);
  try (let i := fresh in let k := fresh in let Hk := fresh in intros i k Hk; split; [exact (ok_keys _ Hok i k Hk)|left; exists k; by split_and!]);
  try (intros; apply (ok_fresh _ Hok); lia).

Ltac frame Hok lemma := eapply (dm_ok_step _ _ EmptyString Hok lemma); untouched Hok.

Lemma ok_draw d : dm_ok d -> dm_ok (draw_dm d).
Proof. intros Hok. frame Hok (grows_draw d). Qed.

Lemma ok_BlockUser a b d : dm_ok d -> dm_ok (q_BlockUser a b d).2.
Proof. intros Hok. pose proof (grow_BlockUser a b d) as Hg. unfold q_BlockUser in *. repeat case_match; cbn [snd] in *; try done. frame Hok Hg. Qed.
Lemma ok_UnblockUser a b d : dm_ok d -> dm_ok (q_UnblockUser a b d).2.
Proof. intros Hok. frame Hok (grow_UnblockUser a b d). Qed.
Lemma ok_Pref u t e d : dm_ok d -> dm_ok (q_UpsertNotificationPref u t e d).2.
Proof. intros Hok. pose proof (grow_Pref u t e d) as Hg. unfold q_UpsertNotificationPref in *. case_match; cbn [snd] in *; [done|]. frame Hok Hg. Qed.

Lemma conv_by_key_spec key d : 
  match conv_by_key key d with
  | Some (c, x) => dmConvs d !! c = Some x /\ cvKey x = Some key
  | None => forall c x, dmConvs d !! c = Some x -> cvKey x <> Some key
  end.
Proof.
  unfold conv_by_key, rows_of. destruct (filter _ _) as [|[c x] l] eqn:Hf; cbn.
  - intros c x Hx Hk. assert (Hin : (c, x) ∈ filter (fun r : uuid * Conv => cvKey r.2 = Some key) (map_to_list (dmConvs d)))
      by (apply list_elem_of_filter; split; [done|by apply elem_of_map_to_list]). rewrite Hf in Hin. inversion Hin.
  - assert (Hin : (c, x) ∈ filter (fun r : uuid * Conv => cvKey r.2 = Some key) (map_to_list (dmConvs d))) by (rewrite Hf; left).
    apply list_elem_of_filter in Hin as [Hk Hx%elem_of_map_to_list]. done.
Qed.

Lemma ok_insert_conv u v enc d : u <> v -> is_id u -> is_id v -> dm_ok d -> dm_ok (insert_conv (pair_key enc u v) enc d).2.
Proof.
  intros Huv Hu Hv Hok. pose proof (grow_insert_conv (pair_key enc u v) enc d) as Hg. unfold insert_conv in *.
  pose proof (conv_by_key_spec (pair_key enc u v) d) as Hs. case_bool_decide as Hc; cbn [snd] in *; [by apply ok_draw|].
  case_bool_decide as Hid; cbn [snd] in *; [by apply ok_draw|]. destruct (conv_by_key _ d) as [[]|]; [by destruct Hc|].
  eapply (dm_ok_step d _ (dmGen d (dmDrawn d)) Hok Hg); untouched Hok.
  intros c x [[<- <-]|[_ Hx]]%lookup_insert_Some; [|left; by apply same_convs]. right. split_and!; [done| |exact Hs]. exists u, v. by split_and!.
Qed.

Lemma pair_key_comm enc u v : u <> v -> pair_key enc u v = pair_key enc v u.
Proof.
  intros Huv. assert (Hd : dmKey u v = dmKey v u).
  { unfold dmKey. destruct (String.ltb v u) eqn:H1, (String.ltb u v) eqn:H2; try done.
    - apply string_ltb_spec in H1 as [H1 _], H2 as [H2 _]. destruct Huv. by apply String.leb_antisym.
    - exfalso. destruct (String.leb_total u v) as [H|H].
      + rewrite (proj2 (string_ltb_spec u v)) in H2; [done|by split].
      + rewrite (proj2 (string_ltb_spec v u)) in H1; [done|split; [done|congruence]]. }
  destruct enc; cbn; [unfold e2eeKey; by rewrite Hd|done].
Qed.

Lemma conv_for_comm u v x : conv_for u v x -> conv_for v u x.
Proof. intros (Huv & Hu & Hv & Hk). split_and!; try done. rewrite Hk. f_equal. by apply pair_key_comm. Qed.

Lemma ok_AddParticipant c u v enc d : of_pair c u v enc d -> u <> v -> is_id u -> is_id v -> dm_ok d -> dm_ok (q_AddConversationParticipant c u d).2.
Proof.
  intros (x & Hx & He & Hk) Huv Hu Hv Hok. pose proof (grow_AddParticipant c u d) as Hg. unfold q_AddConversationParticipant in *.
  repeat case_match; cbn [snd] in *; try done. frame Hok Hg.
  intros k r [[<- <-]|[_ Hr]]%lookup_insert_Some; [right|by left]. split; [|done]. exists x, v. split; [done|]. split_and!; try done. by rewrite He.
Qed.

Lemma ok_Touch c d : dm_ok d -> dm_ok (q_TouchConversation c d).2.
Proof.
  intros Hok. frame Hok (grow_Touch c d). intros i x. destruct (decide (i = c)) as [->|].
  - rewrite lookup_alter_eq. destruct (dmConvs d !! c) as [y|] eqn:Hy; [|done]. intros [= <-]. left. exists y. by split_and!.
  - rewrite lookup_alter_ne by done. intros Hx. left. by apply same_convs.
Qed.

Lemma ok_CreateMessage c u body d : member c u d -> conv_type c false d -> dm_ok d -> dm_ok (q_CreateMessage c u body d).2.
Proof.
  intros Hm Ht Hok. pose proof (grow_CreateMessage c u body d) as Hg. unfold q_CreateMessage in *. repeat case_match; cbn [snd] in *; try by apply ok_draw.
  frame Hok Hg. intros m y [[<- <-]|[_ Hy]]%lookup_insert_Some; [by right|left; by exists y].
Qed.

Lemma ok_SetLastRead m c u d : in_conv m c d -> dm_ok d -> dm_ok (q_SetLastReadMessage m c u d).2.
Proof.
  intros Hm Hok. pose proof (grow_SetLastRead m c u d) as Hg. unfold q_SetLastReadMessage in *. destruct (dmParts d !! (c, u)) as [r|] eqn:Hr; [|done].
  destruct (negb _); [done|]. case_bool_decide; [done|]. cbn [snd] in *. frame Hok Hg.
  intros k r' [[<- <-]|[_ Hr']]%lookup_insert_Some; [right|by left]. split; [exact (proj1 (ok_parts _ Hok _ r Hr))|done].
Qed.

Lemma ok_Tombstone m u d : dm_ok d -> dm_ok (q_TombstoneMessage m u d).2.
Proof.
  intros Hok. pose proof (grow_Tombstone m u d) as Hg. unfold q_TombstoneMessage in *. destruct (dmMsgs d !! m) as [x|] eqn:Hx; [|done].
  case_match; [|done]. cbn [snd] in *. frame Hok Hg. intros i y [[<- <-]|[_ Hy]]%lookup_insert_Some; left; [by exists x|by exists y].
Qed.

Lemma ok_CreateAttachment i a d : atMessage a = None -> member (atConv a) (atUploader a) d -> conv_type (atConv a) false d -> dm_ok d ->
  dm_ok (q_CreateMessageAttachment i a d).2.
Proof.
  intros Ha Hm Ht Hok. pose proof (grow_CreateAttachment i a d) as Hg. unfold q_CreateMessageAttachment in *. repeat case_match; cbn [snd] in *; try done.
  frame Hok Hg. intros j b [[<- <-]|[_ Hb]]%lookup_insert_Some; [by right|by left].
Qed.

Lemma ok_Link m ids u c d : written m c u d -> dm_ok d -> dm_ok (q_LinkAttachmentsToMessage m ids u c d).2.
Proof.
  intros Hw Hok. pose proof (grow_Link m ids u c d) as Hg. unfold q_LinkAttachmentsToMessage in *. case_match; cbn [snd] in *; [done|].
  frame Hok Hg. intros i a. rewrite map_lookup_imap. destruct (dmAtts d !! i) as [b|] eqn:Hb; [|done]. cbn.
  destruct (bool_decide (unlinked ids u c (i, b))) eqn:Hu; intros [= <-]; [right|by left]. apply bool_decide_eq_true_1 in Hu.
  destruct (ok_atts _ Hok i b Hb) as (H1 & H2 & _). destruct Hu as (_ & Hup & Hc & _). cbn in Hup, Hc.
  split; [exact H1|]. split; [exact H2|]. cbn. rewrite Hup, Hc. exact Hw.
Qed.

Lemma ok_DeleteAttachments m d : dm_ok d -> dm_ok (q_DeleteAttachmentsByMessage m d).2.
Proof. intros Hok. frame Hok (grow_DeleteAttachments m d). intros i a [Ha _]%map_lookup_filter_Some. by left. Qed.
Lemma ok_UpsertPreview h u d : dm_ok d -> dm_ok (q_UpsertPendingLinkPreview h u d).2.
Proof. intros Hok. pose proof (grow_UpsertPreview h u d) as Hg. cbn in *. case_match; [done|]. frame Hok Hg. Qed.
Lemma ok_SetPreview m h d : dm_ok d -> dm_ok (q_SetMessageLinkPreview m h d).2.
Proof.
  intros Hok. pose proof (grow_SetPreview m h d) as Hg. unfold q_SetMessageLinkPreview in *. destruct (dmMsgs d !! m) as [x|] eqn:Hx; [|done].
  case_match; [done|]. cbn [snd] in *. frame Hok Hg. intros i y [[<- <-]|[_ Hy]]%lookup_insert_Some; left; [by exists x|by exists y].
Qed.
Lemma ok_Resolve h st a b c d : dm_ok d -> dm_ok (q_ResolveLinkPreview h st a b c d).2.
Proof. intros Hok. frame Hok (grow_Resolve h st a b c d). Qed.

Lemma ok_CreateDevice u a b c d : dm_ok d -> dm_ok (q_CreateE2EEDevice u a b c d).2.
Proof.
  intros Hok. pose proof (grow_CreateDevice u a b c d) as Hg. unfold q_CreateE2EEDevice in *. repeat case_match; cbn [snd] in *; try by apply ok_draw.
  assert (Hnew : forall v, is_Some (dmDevices d !! v) -> is_Some (<[dmGen d (dmDrawn d) := mkEDevice u a b c (dmNow d) (dmNow d)]> (dmDevices d) !! v)).
  { intros v Hv. apply lookup_insert_is_Some'. by right. }
  frame Hok Hg.
  - intros i e He. left. destruct (same_envs d i e Hok He) as (? & ? & ?). split_and!; auto.
  - intros i k Hk. split; [apply Hnew, (ok_keys _ Hok i k Hk)|]. left. by exists k.
  - intros n Hn. rewrite lookup_insert_ne; [apply (ok_fresh _ Hok); lia|]. intros He%(ok_gen _ Hok). lia.
Qed.

Lemma ok_DeleteDevice i u d : dm_ok d -> dm_ok (q_DeleteE2EEDevice i u d).2.
Proof.
  intros Hok. pose proof (grow_DeleteDevice i u d) as Hg. unfold q_DeleteE2EEDevice in *. repeat case_match; cbn [snd] in *; try done. frame Hok Hg.
  - intros j x [He [Hf Ht]]%map_lookup_filter_Some. cbn in *. left. destruct (same_envs d j x Hok He) as (? & ? & ?).
    split_and!; [done|by rewrite lookup_delete_ne|by rewrite lookup_delete_ne].
  - intros j k [Hk Hd]%map_lookup_filter_Some. cbn in *. split; [rewrite lookup_delete_ne by done; exact (ok_keys _ Hok j k Hk)|]. left. by exists k.
  - intros n Hn. apply lookup_delete_None. right. by apply (ok_fresh _ Hok).
Qed.

Lemma alter_is_Some {A} (f : A -> A) (m : gmap uuid A) i j : is_Some (m !! j) -> is_Some (alter f i m !! j).
Proof. intros Hj. destruct (decide (j = i)) as [->|]; [rewrite lookup_alter_eq; by apply fmap_is_Some|by rewrite lookup_alter_ne]. Qed.

Lemma ok_TouchDevice i d : dm_ok d -> dm_ok (q_TouchE2EEDevice i d).2.
Proof.
  intros Hok. frame Hok (grow_TouchDevice i d).
  - intros j e He. left. destruct (same_envs d j e Hok He) as (? & ? & ?). split_and!; [done|by apply alter_is_Some|by apply alter_is_Some].
  - intros j k Hk. split; [apply alter_is_Some, (ok_keys _ Hok j k Hk)|]. left. by exists k.
  - intros n Hn. destruct (decide (dmGen d n = i)) as [He|]; [|rewrite lookup_alter_ne by congruence; by apply (ok_fresh _ Hok)].
    rewrite <- He, lookup_alter_eq. by rewrite (ok_fresh _ Hok).
Qed.

Lemma ok_InsertKey v a b d : dm_ok d -> dm_ok (q_InsertE2EEOneTimeKey v a b d).2.
Proof.
  intros Hok. pose proof (grow_InsertKey v a b d) as Hg. unfold q_InsertE2EEOneTimeKey in *.
  case_bool_decide as Hx; cbn [snd] in *; [by apply ok_draw|]. case_bool_decide as Hd; cbn [snd] in *; [by apply ok_draw|].
  case_bool_decide as Hid; cbn [snd] in *; [by apply ok_draw|]. eapply (dm_ok_step d _ (dmGen d (dmDrawn d)) Hok Hg); untouched Hok.
  intros i k [[<- <-]|[_ Hk]]%lookup_insert_Some; [|split; [exact (ok_keys _ Hok i k Hk)|left; by exists k]].
  split; [by apply not_eq_None_Some|]. right. split; [done|]. intros j k Hk. cbn.
  destruct (decide (okDevice k = v)) as [Hkv|]; [|by left]. right. intros Hkid. apply Hx. apply Exists_exists.
  exists (j, k). split; [by apply elem_of_map_to_list|by split].
Qed.

Lemma ok_Claim v d : dm_ok d -> dm_ok (q_ClaimE2EEOneTimeKey v d).2.
Proof.
  intros Hok. pose proof (grow_Claim v d) as Hg. destruct (q_ClaimE2EEOneTimeKey v d) as [[[id k]|e] d'] eqn:Hq; cbn [snd] in *.
  - destruct (claim_takes v d id k) as (k0 & Hk0 & _ & _ & -> & He); [by rewrite Hq|]. rewrite Hq in He. cbn in He. subst d'. frame Hok Hg.
    intros i x [[<- <-]|[_ Hx]]%lookup_insert_Some; [|split; [exact (ok_keys _ Hok i x Hx)|left; by exists x]].
    split; [exact (ok_keys _ Hok id k0 Hk0)|]. left. by exists k0.
  - unfold q_ClaimE2EEOneTimeKey in Hq. repeat case_match; by simplify_eq.
Qed.

Lemma ok_CreateEnvelope e d :
  conv_type (evConv e) true d -> device_of_member (evConv e) (evFrom e) d -> device_of_member (evConv e) (evTo e) d -> dm_ok d ->
  dm_ok (q_CreateE2EEMessage e d).2.
Proof.
  intros Hc [_ Hf] [_ Ht] Hok. pose proof (grow_CreateEnvelope e d) as Hg. unfold q_CreateE2EEMessage in *.
  case_match; cbn [snd] in *; [by apply ok_draw|]. case_match eqn:Hd; cbn [snd] in *; [by apply ok_draw|]. case_match; cbn [snd] in *; [by apply ok_draw|].
  bools. frame Hok Hg. intros i x [[<- <-]|[_ Hx]]%lookup_insert_Some; [right|left; by apply same_envs].
  split_and!; [exact Hc|..]; cbn.
  - destruct (dmDevices d !! evFrom e) as [v|] eqn:Hv; [|done]. exists v. split; [exact Hv|exact (Hf v eq_refl)].
  - destruct (dmDevices d !! evTo e) as [v|] eqn:Hv; [|done]. exists v. split; [exact Hv|exact (Ht v eq_refl)].
Qed.

Lemma ok_Sweep n d : dm_ok d -> dm_ok (q_SweepExpiredE2EEMessages n d).2.
Proof.
  intros Hok. frame Hok (grow_Sweep n d). intros i e He. left. apply same_envs; [done|]. revert He. generalize (map fst (take (Z.to_nat n) (filter (fun r : uuid * Env => expired (dmNow d) r.2 = true) (rows_of (dmEnvs d))))).
  intros l. induction l as [|x l IH]; cbn; [done|]. intros [_ He]%lookup_delete_Some. auto.
Qed.

(** *** What a program must know, and what it learns *)

(** [c] is the conversation with this key. *)
Definition keyed (c : uuid) (key : string) (enc : bool) (d : DMDB) : Prop :=
  exists x, dmConvs d !! c = Some x /\ cvEncrypted x = enc /\ cvKey x = Some key.

Definition two_ids (u v : uuid) : Prop := u <> v /\ is_id u /\ is_id v.

(** What must hold for an operation to keep the invariant. *)
Definition needs X (e : dmE X) (d : DMDB) : Prop :=
  match e with
  | CreateConversation key | GetConversationByDMKey key => exists u v, two_ids u v /\ key = dmKey u v
  | CreateE2EEConversation key => exists u v, two_ids u v /\ key = e2eeKey u v
  | AddConversationParticipant c u => exists v enc, keyed c (pair_key enc u v) enc d /\ two_ids u v
  | CreateMessage c u _ => member c u d /\ conv_type c false d
  | SetLastReadMessage m c _ => in_conv m c d
  | CreateMessageAttachment _ a => atMessage a = None /\ member (atConv a) (atUploader a) d /\ conv_type (atConv a) false d
  | LinkAttachmentsToMessage m _ u c => written m c u d
  | CreateE2EEMessage e => conv_type (evConv e) true d /\ device_of_member (evConv e) (evFrom e) d /\ device_of_member (evConv e) (evTo e) d
  | _ => True
  end.

(** What its answer tells, for good. *)
Definition learns X (e : dmE X) : X -> DMDB -> Prop :=
  match e in dmE X return X -> DMDB -> Prop with
  | CreateConversation key | GetConversationByDMKey key => fun x d => match x with Ok (c, _) => keyed c key false d | Err _ => True end
  | CreateE2EEConversation key | GetE2EEConversationByDMKey key => fun x d => match x with Ok (c, _) => keyed c key true d | Err _ => True end
  | IsConversationParticipant c u => fun x d => match x with Ok true => member c u d | _ => True end
  | GetConversationForParticipant c u => fun x d => match x with Ok b => member c u d /\ conv_type c b d | Err _ => True end
  | CreateMessage c u _ => fun x d => match x with Ok (m, _) => written m c u d | Err _ => True end
  | GetMessage m => fun x d => match x with Ok (m', y) => m' = m /\ in_conv m (mgConv y) d | Err _ => True end
  | GetLatestMessageID c => fun x d => match x with Ok m => in_conv m c d | Err _ => True end
  | ListE2EEDevicesForConversation c => fun x d => match x with Ok l => Forall (fun r => device_of_member c r.1 d) l | Err _ => True end
  | _ => fun _ _ => True
  end.

Lemma lasting_keyed c key b : lasting (keyed c key b).
Proof.
  intros d d' _ Hg (x & Hx & He & Hk). destruct (g_convs _ _ Hg c x Hx) as (x' & Hx' & ? & ? & _). exists x'. split_and!; congruence.
Qed.

Lemma lasting_learns X (e : dmE X) x : lasting (learns X e x).
Proof.
  destruct e; cbn; try apply lasting_true; repeat case_match; try apply lasting_true; try apply lasting_keyed; auto with lasting.
  intros d d' Hok Hg [? ?]. split; [done|by eapply lasting_in_conv].
Qed.

Lemma split_pair x y : contains colon x = false -> contains colon y = false -> split_colon (x +:+ ":" +:+ y) = [x; y].
Proof. intros Hx Hy. rewrite colon_app, split_colon_app by done. by rewrite split_colon_word. Qed.

(** Colons tell the two kinds of key apart. *)
Lemma keys_apart u v a b : is_id u -> is_id v -> is_id a -> is_id b -> e2eeKey a b <> dmKey u v.
Proof.
  unfold is_id. intros Hu Hv Ha Hb He.
  apply (f_equal (fun s => length (split_colon s))) in He. unfold e2eeKey, dmKey in He. change ("e2ee:" +:+ ?x) with ("e2ee" +:+ String colon x) in He.
  destruct (String.ltb b a), (String.ltb v u); rewrite split_colon_app, !split_pair in He by done; done.
Qed.

Create HintDb dmrules.
#[export] Hint Resolve ok_BlockUser ok_UnblockUser ok_Pref ok_Touch ok_CreateMessage ok_SetLastRead ok_Tombstone ok_CreateAttachment ok_Link
  ok_DeleteAttachments ok_UpsertPreview ok_SetPreview ok_Resolve ok_CreateDevice ok_DeleteDevice ok_TouchDevice ok_InsertKey ok_Claim
  ok_CreateEnvelope ok_Sweep grow_BlockUser grow_UnblockUser grow_Pref grow_insert_conv grow_AddParticipant grow_Touch grow_CreateMessage grow_SetLastRead
  grow_Tombstone grow_CreateAttachment grow_Link grow_DeleteAttachments grow_UpsertPreview grow_SetPreview grow_Resolve grow_CreateDevice
  grow_DeleteDevice grow_TouchDevice grow_InsertKey grow_Claim grow_CreateEnvelope grow_Sweep : dmrules.

Section Worlds.
Context {B : Type} `{Backend B}.
Implicit Types (w : dworld B) (d : DMDB).

Definition dmdb w : DMDB := store (ddb w).
Definition dm_inv w : Prop := dm_ok (dmdb w).
Definition dm_grows w w' : Prop := grows (dmdb w) (dmdb w').

#[global] Instance dm_grows_po : PreOrder dm_grows.
Proof. split; [intros w; unfold dm_grows; reflexivity|]. intros x y z. unfold dm_grows. by etransitivity. Qed.

(** A statement under faults: what holds of it holds of the call. *)
Lemma on_dm_step {A} (q : DMDB -> result dberr A * DMDB) (L : result dberr A -> DMDB -> Prop) w :
  dm_inv w -> (dm_ok (dmdb w) -> dm_ok (q (dmdb w)).2) -> grows (dmdb w) (q (dmdb w)).2 ->
  (forall a, (q (dmdb w)).1 = Ok a -> L (Ok a) (q (dmdb w)).2) -> (forall e d, L (Err e) d) ->
  dm_inv (on_dm q w).2 /\ dm_grows w (on_dm q w).2 /\ L (on_dm q w).1 (dmdb (on_dm q w).2).
Proof.
  intros Hi Hok Hg HL He. unfold dm_inv, dm_grows, dmdb, on_dm in *. destruct (ddb w) as [d fs]. cbn in *. destruct fs as [|[] fs]; cbn.
  - split_and!; [auto|done|]. destruct (q d).1; auto.
  - split_and!; [auto|done|]. destruct (q d).1; auto.
  - split_and!; [done|reflexivity|done].
  - split_and!; [auto|done|done].
Qed.

Lemma on_dm_ok {A} (q : DMDB -> result dberr A * DMDB) w a :
  (on_dm q w).1 = Ok a -> (q (dmdb w)).1 = Ok a /\ dmdb (on_dm q w).2 = (q (dmdb w)).2.
Proof. unfold on_dm, dmdb. destruct (ddb w) as [d fs]. by destruct fs as [|[] fs]; cbn. Qed.

Lemma on_dm_either {A} (q : DMDB -> result dberr A * DMDB) w : dmdb (on_dm q w).2 = dmdb w \/ dmdb (on_dm q w).2 = (q (dmdb w)).2.
Proof. unfold on_dm, dmdb. destruct (ddb w) as [d fs]. destruct fs as [|[] fs]; cbn; auto. Qed.

Lemma thread_in c m y d : (m, y) ∈ thread c d -> dmMsgs d !! m = Some y /\ mgConv y = c.
Proof.
  unfold thread. rewrite (merge_sort_Permutation (on_key msg_key newest)). unfold msgs_of, rows_of. intros [Hc Hin]%list_elem_of_filter.
  by apply elem_of_map_to_list in Hin.
Qed.

Lemma member_device c d : dm_ok d ->
  Forall (fun r => device_of_member c r.1 d) (map (fun r => (r.1, edUser r.2)) (filter (fun r => is_member c (edUser r.2) d = true) (rows_of (dmDevices d)))).
Proof.
  intros Hok. apply Forall_forall. intros r ([v x] & -> & [Hm Hin]%list_elem_of_filter)%list_elem_of_fmap. apply elem_of_map_to_list in Hin. cbn in *.
  split; [intros n Hn ->; by rewrite (ok_fresh _ Hok n Hn) in Hin|]. intros x' Hx'. rewrite Hin in Hx'. injection Hx' as <-. by apply bool_decide_eq_true_1 in Hm.
Qed.

Lemma ok_Create enc key d : (exists u v, two_ids u v /\ key = pair_key enc u v) -> dm_ok d -> dm_ok (insert_conv key enc d).2.
Proof. intros (u & v & (? & ? & ?) & ->). by apply ok_insert_conv. Qed.

Lemma learn_Create enc key d c x : (insert_conv key enc d).1 = Ok (c, x) -> keyed c key enc (insert_conv key enc d).2.
Proof. unfold insert_conv. repeat case_match; try done. intros [= <- <-]. eexists. cbn. rewrite lookup_insert_eq. by split_and!. Qed.

Lemma learn_ByKey key d c x : dm_ok d -> (exists u v, two_ids u v /\ key = dmKey u v) -> (q_GetConversationByDMKey key d).1 = Ok (c, x) -> keyed c key false d.
Proof.
  intros Hok (u & v & (_ & Hu & Hv) & ->) Hq. pose proof (conv_by_key_spec (dmKey u v) d) as Hs. cbn in Hq. destruct (conv_by_key _ d) as [[c' x']|]; [|done].
  injection Hq as -> ->. destruct Hs as [Hx Hk]. exists x. split_and!; try done. destruct (ok_convs _ Hok c x Hx) as (a & b & _ & Ha & Hb & Hab).
  destruct (cvEncrypted x); [|done]. rewrite Hk in Hab. injection Hab as Hab. cbn in Hab. by destruct (keys_apart u v a b).
Qed.

Lemma learn_ByE2EEKey key d c x : (q_GetE2EEConversationByDMKey key d).1 = Ok (c, x) -> keyed c key true d.
Proof.
  intros Hq. pose proof (conv_by_key_spec key d) as Hs. cbn in Hq. destruct (conv_by_key _ d) as [[c' x']|]; [|done]. cbn in Hq.
  destruct (cvEncrypted x') eqn:He; [|done]. injection Hq as -> ->. destruct Hs as [Hx Hk]. by exists x.
Qed.

Lemma learn_CreateMessage c u body d m y : (q_CreateMessage c u body d).1 = Ok (m, y) -> written m c u (q_CreateMessage c u body d).2.
Proof. unfold q_CreateMessage. repeat case_match; try done. intros [= <- <-]. eexists. cbn. rewrite lookup_insert_eq. by split_and!. Qed.

Lemma ok_Add c u d : (exists v enc, keyed c (pair_key enc u v) enc d /\ two_ids u v) -> dm_ok d -> dm_ok (q_AddConversationParticipant c u d).2.
Proof. intros (v & enc & Hk & ? & ? & ?). by apply (ok_AddParticipant c u v enc). Qed.

Lemma learn_Member c u d b : (q_GetConversationForParticipant c u d).1 = Ok b -> member c u d /\ conv_type c b d.
Proof.
  cbn. unfold is_member. case_bool_decide as Hm; [|done]. destruct (dmConvs d !! c) as [x|] eqn:Hx; [|done]. intros [= <-]. split; [done|by exists x].
Qed.

(** An operation that is not a statement leaves the database alone. *)
Lemma same_db w w' : dm_inv w -> dmdb w' = dmdb w -> dm_inv w' /\ dm_grows w w' /\ True.
Proof. unfold dm_inv, dm_grows. intros Hi ->. split_and!; [done|reflexivity|done]. Qed.

(** The rule of every operation. *)
Lemma dm_step X (e : dmE X) w :
  dm_inv w -> needs X e (dmdb w) ->
  dm_inv (dm_handler X e w).2 /\ dm_grows w (dm_handler X e w).2 /\ learns X e (dm_handler X e w).1 (dmdb (dm_handler X e w).2).
Proof.
  intros Hi Hn. destruct e; cbn [dm_handler needs] in *; try (apply same_db; [exact Hi|reflexivity]).
  all: apply (on_dm_step _ (learns _ _) w Hi); cbn [learns]; [|try reflexivity; auto with dmrules|try done|done].
  all: try exact (fun H => H); try (intros; by auto with dmrules).
  - by apply (ok_Create false).
  - apply grow_insert_conv.
  - intros [c x]. apply (learn_Create false).
  - intros [c x] Hq. by apply (learn_ByKey key _ c x).
  - by apply (ok_Create true).
  - apply grow_insert_conv.
  - intros [c x]. apply (learn_Create true).
  - intros [c x]. apply learn_ByE2EEKey.
  - by apply ok_Add.
  - intros []; [|done]. cbn. unfold is_member. by intros [= Hm%bool_decide_eq_true_1].
  - intros b. apply learn_Member.
  - destruct Hn. by apply ok_CreateMessage.
  - intros [m y]. apply learn_CreateMessage.
  - intros [m y]. cbn. destruct (dmMsgs _ !! id) as [z|] eqn:Hz; [|done]. intros [= <- <-]. split; [done|by exists z].
  - intros m. cbn. destruct (thread conv _) as [|[i z] l] eqn:Ht; [done|]. intros [= <-].
    destruct (thread_in conv i z (dmdb w)) as [Hz Hc]; [rewrite Ht; left|by exists z].
  - destruct Hn as (? & ? & ?). by apply ok_CreateAttachment.
  - intros l [= <-]. by apply member_device.
  - destruct Hn as (? & ? & ?). by apply ok_CreateEnvelope.
Qed.

Lemma on_dm_grows {A} (q : DMDB -> result dberr A * DMDB) w : grows (dmdb w) (q (dmdb w)).2 -> dm_grows w (on_dm q w).2.
Proof. unfold dm_grows, dmdb, on_dm. destruct (ddb w) as [d fs]. by destruct fs as [|[] fs]; cbn. Qed.

(** Whatever is asked, the tables move forward. *)
Lemma grow_step X (e : dmE X) w : dm_grows w (dm_handler X e w).2.
Proof.
  destruct e; cbn [dm_handler]; try (unfold dm_grows, dmdb; reflexivity); apply on_dm_grows;
    first [reflexivity|apply grow_insert_conv|auto with dmrules].
Qed.

(** ** Programs *)

(** What a program knows of the tables is enough for what it does. *)
Fixpoint sound {A} (K : DMDB -> Prop) (p : prog dmE A) : Prop :=
  match p with
  | Ret _ => True
  | Vis e k => (forall d, dm_ok d -> K d -> needs _ e d) /\ forall x, sound (fun d => K d /\ learns _ e x d) (k x)
  end.

Lemma sound_weaken {A} (K K' : DMDB -> Prop) (p : prog dmE A) : (forall d, K d -> K' d) -> sound K' p -> sound K p.
Proof.
  revert K K'. induction p as [a|X e k IH]; intros K K' HK; [done|]. intros [Hn Hk]. split; [auto|].
  intros x. eapply IH; [|apply Hk]. cbn. intros d [? ?]. auto.
Qed.

Lemma sound_proves {A} (K : DMDB -> Prop) (p : prog dmE A) :
  lasting K -> sound K p -> proves dm_handler dm_inv dm_grows dm_grows (fun w => K (dmdb w)) p (fun _ _ => True).
Proof.
  revert K. induction p as [a|X e k IH]; intros K HK; [done|]. intros [Hn Hk] w Hw HKw.
  destruct (dm_step X e w Hw (Hn _ Hw HKw)) as (Hi & Hg & Hl). split; [done|]. split; [done|].
  assert (Hl' : lasting (fun d => K d /\ learns X e (dm_handler X e w).1 d)) by (apply lasting_and; [done|apply lasting_learns]).
  exists (fun w' => K (dmdb w') /\ learns X e (dm_handler X e w).1 (dmdb w')). split_and!.
  - intros s s' Hs _ HR. by apply Hl'.
  - by apply (HK (dmdb w)).
  - done.
  - exact (IH _ _ Hl' (Hk _)).
Qed.

Lemma sound_bind {A C} (K : DMDB -> Prop) (p : prog dmE A) (f : A -> prog dmE C) :
  sound K p -> (forall a, sound K (f a)) -> sound K (p ≫= f).
Proof.
  revert K. induction p as [a|X e k IH]; intros K Hp Hf; [apply Hf|]. destruct Hp as [Hn Hk]. split; [done|].
  intros x. apply IH; [done|]. intros a. by apply (sound_weaken _ K); [intros d []|].
Qed.

Lemma sound_silent {A} (K : DMDB -> Prop) (p : prog dmE A) : sound K p -> sound K (silent p).
Proof. intros Hp. by apply sound_bind. Qed.

End Worlds.

(** Programs that need nothing. *)
Lemma sound_ops {A} (K : DMDB -> Prop) (p : prog dmE A) : ops (fun X e => forall d, needs X e d) p -> sound K p.
Proof.
  revert K. induction p as [a|X e k IH]; intros K; [done|]. intros [He Hk]. split; [auto|]. intros x. by apply IH.
Qed.

Lemma quiet_delete_blobs l : ops (fun X e => forall d, needs X e d) (delete_blobs l).
Proof. induction l as [|k l IH]; cbn; [done|]. split; [done|]. by intros _. Qed.

Lemma quiet_insert_keys v l : ops (fun X e => forall d, needs X e d) (insert_keys v l).
Proof. induction l as [|k l IH]; cbn; [done|]. split; [done|]. by intros []. Qed.

Lemma quiet_claim_each l : ops (fun X e => forall d, needs X e d) (claim_each l).
Proof.
  induction l as [|[i v] l IH]; cbn; [done|]. split; [done|]. intros r. case_match; [|done]. apply ops_bind; [done|]. by intros [].
Qed.

Lemma quiet_attachmentsForMessages ids : ops (fun X e => forall d, needs X e d) (attachmentsForMessages ids).
Proof. destruct ids; cbn; [done|]. by split. Qed.

Lemma quiet_launchPreview s sha m body : ops (fun X e => forall d, needs X e d) (launchPreview s sha m body).
Proof. unfold launchPreview. walk_ops; done. Qed.

Lemma quiet_send_blocked s me conv : ops (fun X e => forall d, needs X e d) (Messaging.send_blocked s me conv).
Proof. unfold Messaging.send_blocked. walk_ops; done. Qed.

Lemma quiet_e2ee_send_blocked s me conv : ops (fun X e => forall d, needs X e d) (send_blocked s me conv).
Proof. unfold send_blocked. walk_ops; done. Qed.

Lemma quiet_check me conv ids : ops (fun X e => forall d, needs X e d) (check_attachments me conv ids).
Proof. unfold check_attachments. walk_ops; done. Qed.

Lemma sound_add (K : DMDB -> Prop) c u v enc :
  two_ids u v -> (forall d, K d -> keyed c (pair_key enc u v) enc d) ->
  sound K (Messaging.add_participants c [u; v]) /\ sound K (add_participants c [u; v]).
Proof.
  intros (Hne & Hu & Hv) HK.
  pose proof (pair_key_comm enc u v Hne) as Hflip.
  assert (forall d, K d -> exists v0 enc0, keyed c (pair_key enc0 u v0) enc0 d /\ two_ids u v0) by (intros d Hd; exists v, enc; split; [auto|done]).
  assert (forall d, K d -> exists v0 enc0, keyed c (pair_key enc0 v v0) enc0 d /\ two_ids v v0).
  { intros d Hd. exists u, enc. rewrite <- Hflip. split; [auto|by split]. }
  split; cbn; (split; [auto|]); intros []; cbn; try done; (split; [intros d _ []; auto|by intros []]).
Qed.

Lemma sound_Start s me to : is_id me -> is_id to -> sound (fun _ => True) (Messaging.StartConversation s me to).
Proof.
  intros Hme Hto. unfold Messaging.StartConversation. case_bool_decide as Hne; [done|]. split; [done|]. intros [u|[]]; try done.
  apply sound_bind; [apply sound_ops; unfold Messaging.isBlocked; by walk_ops|]. intros [[]|]; try done.
  assert (Hids : two_ids me to) by done.
  assert (Hkey : forall d : DMDB, exists u0 v, two_ids u0 v /\ dmKey me to = dmKey u0 v) by (intros _; by exists me, to).
  cbn -[Messaging.add_participants]. split; [auto|]. intros [[c x]|[]]; try done; cbn -[Messaging.add_participants].
  - apply sound_bind; [|exact (fun _ => I)]. apply (sound_add _ c me to false); [done|]. by intros d [].
  - split; [auto|]. intros [[c x]|]; [|done]. apply sound_bind; [|exact (fun _ => I)]. apply (sound_add _ c me to false); [done|]. by intros d [].
Qed.

Lemma sound_StartEncrypted s me to : is_id me -> is_id to -> sound (fun _ => True) (StartConversation s me to).
Proof.
  intros Hme Hto. unfold StartConversation. case_bool_decide as Hne; [done|]. split; [done|]. intros [u|[]]; try done.
  apply sound_bind; [apply sound_ops; unfold isBlocked; by walk_ops|]. intros [[]|]; try done.
  assert (Hids : two_ids me to) by done.
  assert (Hkey : forall d : DMDB, exists u0 v, two_ids u0 v /\ e2eeKey me to = e2eeKey u0 v) by (intros _; by exists me, to).
  cbn -[add_participants]. split; [auto|]. intros [[c x]|[]]; try done; cbn -[add_participants].
  - apply sound_bind; [|exact (fun _ => I)]. apply (sound_add _ c me to true); [done|]. by intros d [].
  - split; [auto|]. intros [[c x]|]; [|done]. apply sound_bind; [|exact (fun _ => I)]. apply (sound_add _ c me to true); [done|]. by intros d [].
Qed.

Lemma sound_SendMessage (K : DMDB -> Prop) s sha me conv body ids :
  (forall d, K d -> member conv me d /\ conv_type conv false d) -> sound K (SendMessage s sha me conv body ids).
Proof.
  intros HK. unfold SendMessage. split; [done|]. intros [[]|]; try exact I. cbn -[Messaging.send_blocked check_attachments attachmentsForMessages launchPreview].
  apply sound_bind; [apply sound_ops, quiet_send_blocked|]. intros [|]; [exact I|].
  apply sound_bind; [apply sound_ops, quiet_check|]. intros [|]; [exact I|]. split; [intros d _ [Hd _]; exact (HK d Hd)|]. intros [[m y]|]; [|exact I].
  cbn -[attachmentsForMessages launchPreview]. apply sound_bind.
  - destruct ids; [exact I|]. split; [by intros d _ []|]. intros ?. apply sound_ops, ops_bind; [apply quiet_attachmentsForMessages|exact (fun _ => I)].
  - intros atts. split; [done|]. intros ?. apply sound_bind; [apply sound_ops, quiet_launchPreview|exact (fun _ => I)].
Qed.

Lemma sound_Upload (K : DMDB -> Prop) s ext dec me conv i :
  (forall d, K d -> member conv me d /\ conv_type conv false d) -> sound K (UploadAttachment s ext dec me conv i).
Proof.
  intros HK. unfold UploadAttachment. case_match; [exact I|]. split; [done|]. intros [[]|]; try exact I. cbn -[attachmentKind scan_clean].
  case_match; [|exact I]. case_match; [exact I|]. split; [done|]. intros id. split; [done|]. intros [n|]; [|exact I].
  case_match; [split; [done|]; exact (fun _ => I)|]. apply sound_bind; [apply sound_ops; unfold scan_clean; by walk_ops|]. intros clean.
  case_match; [split; [done|]; exact (fun _ => I)|]. case_match; [split; [done|]; exact (fun _ => I)|]. split.
  - intros d _ Hd. split; [done|]. apply HK. tauto.
  - intros [[]|]; [exact I|]. split; [done|]. exact (fun _ => I).
Qed.

Lemma sound_store_each (K : DMDB -> Prop) conv device expires envs created :
  (forall d, K d -> conv_type conv true d /\ device_of_member conv device d /\ Forall (fun e => device_of_member conv (enRecipient e) d) envs) ->
  sound K (store_each conv device expires envs created).
Proof.
  revert K created. induction envs as [|e envs IH]; intros K created HK; [exact I|]. cbn. split.
  - intros d _ Hd. destruct (HK d Hd) as (? & ? & ?%Forall_cons). naive_solver.
  - intros [[i row]|]; [|exact I]. apply IH. intros d [Hd _]. destruct (HK d Hd) as (? & ? & ?%Forall_cons). naive_solver.
Qed.

Lemma good_envelopes owners seen envs : bad_envelope owners seen envs = None -> Forall (fun e => enRecipient e ∈ map fst owners) envs.
Proof.
  revert seen. induction envs as [|e envs IH]; intros seen; [by constructor|]. cbn. repeat case_match; try done. bools. intros Hr. constructor; [done|by eapply IH].
Qed.

Lemma sound_Send (K : DMDB -> Prop) s me conv device envs expiresIn : sound K (Send s me conv device envs expiresIn).
Proof.
  unfold Send. split; [done|]. intros [[]|[]]; try exact I. cbn -[send_blocked bad_envelope store_each]. apply sound_bind; [apply sound_ops, quiet_e2ee_send_blocked|].
  intros [|]; [exact I|]. case_match; [exact I|].
  match goal with |- sound _ (if ?b then _ else _) => destruct b; [exact I|] end. apply sound_bind; [apply sound_ops; by walk_ops|].
  intros expires. split; [done|]. intros [owners|]; [|exact I]. destruct (bool_decide ((device, me) ∈ owners)) eqn:Hown; [|exact I]. cbn [negb]. destruct (bad_envelope owners [] envs) eqn:Hbad; [exact I|].
  apply sound_bind; [|intros [|]; [|exact I]; cbn; tauto]. apply sound_store_each. cbn. intros d [[_ [_ Hc]] Ho]. bools. split; [done|].
  pose proof (proj1 (Forall_forall _ _) Ho) as Ho'. split; [exact (Ho' _ Hown)|]. eapply Forall_impl; [exact (good_envelopes _ _ _ Hbad)|].
  intros e (r & -> & Hr)%list_elem_of_fmap. exact (Ho' r Hr).
Qed.

Lemma sound_MarkRead (K : DMDB -> Prop) me conv msg : sound K (MarkRead me conv msg).
Proof.
  unfold MarkRead. split; [done|]. intros [[]|]; try exact I. destruct msg as [id|]; cbn; (split; [done|]).
  - intros [[m y]|[]]; try exact I. case_bool_decide as Hc; [|exact I]. split; [|exact (fun _ => I)]. intros d _ [_ [-> Hm]]. by rewrite <- Hc.
  - intros [m|[]]; try exact I. split; [by intros d _ []|]. exact (fun _ => I).
Qed.

(** Account ids as the API takes them: without colons. *)
Definition canonical (rq : MService * EService * bool * drequest) : Prop :=
  match rq.2 with RStart me to | RStartEncrypted me to => is_id me /\ is_id to | _ => True end.

Lemma sound_handleSend ms es on sha me conv rq : sound (fun _ => True) (handleSendMessage (mkChat ms (Some es) on) sha me conv rq).
Proof.
  unfold handleSendMessage. cbn -[SendMessage Send]. split; [done|]. intros [[]|[]]; try exact I; cbn -[SendMessage Send].
  - repeat case_match; try exact I. apply sound_bind; [apply sound_Send|exact (fun _ => I)].
  - case_match; [|exact I]. apply sound_bind; [apply sound_SendMessage; by intros d []|exact (fun _ => I)].
Qed.

Lemma sound_handleUpload ms es on ext dec me conv i :
  sound (fun _ => True) (handleUploadAttachment (mkChat ms (Some es) on) ext dec me conv i).
Proof.
  unfold handleUploadAttachment. cbn -[UploadAttachment]. case_match; [exact I|]. split; [done|].
  intros [[]|[]]; try exact I. cbn -[UploadAttachment]. apply sound_bind; [apply sound_Upload; by intros d []|exact (fun _ => I)].
Qed.

Lemma sound_perform sha ext dec rq : canonical rq -> sound (fun _ => True) (dperform sha ext dec rq).
Proof.
  destruct rq as [[[ms es] on] r].
  destruct r; cbn [dperform canonical snd]; intros Hc; [..|apply sound_silent, sound_ops; by walk_ops]; first [apply sound_silent|idtac];
    lazymatch goal with
    | |- sound _ (Messaging.StartConversation _ _ _) => destruct Hc; by apply sound_Start
    | |- sound _ (StartConversation _ _ _) => destruct Hc; by apply sound_StartEncrypted
    | |- sound _ (handleSendMessage _ _ _ _ _) => apply sound_handleSend
    | |- sound _ (handleUploadAttachment _ _ _ _ _ _) => apply sound_handleUpload
    | |- sound _ (MarkRead _ _ _) => apply sound_MarkRead
    | |- _ => apply sound_ops
    end.
  all: unfold ClaimKeys, Block, Unblock, ListBlocked, ResolveRecipientUsername, ListConversations, AttachmentForDownload, Messaging.ListMessages,
    Messaging.ListMessagesBefore, assembleMessages, PeerReadWatermark, ReadReceiptsEnabled, SetReadReceiptsEnabled, DeleteMessage, ReportableMessage,
    RegisterDevice, ListUserDevices, peer_gate, gatePeerAccess, isBlocked, ListOwnDevices, DeleteDevice, UploadOneTimeKeys, ownDevice,
    CountOneTimeKeys, ListMessages, ListMessagesBefore, ConversationEncrypted, SweepExpired.
  all: repeat first [apply quiet_attachmentsForMessages|apply quiet_delete_blobs|apply quiet_insert_keys|apply quiet_claim_each
                    |apply ops_bind; [|intro]|apply ops_call|progress intros|exact I|case_match|progress cbn [ops]].
Qed.

Lemma ok_clock {B} (w w' : dworld B) : dmclock w w' -> dm_inv w -> dm_inv w' /\ dm_grows w w'.
Proof.
  intros (users & handles & prefs & now & Hu & Hn & ->) Hi. unfold dm_inv, dm_grows, dmdb in *. cbn [ddb with_ddb store].
  split; [by destruct Hi|]. split; cbn; try done; try (apply rows_le_refl; apply _).
  - intros k r Hr. exists r. split; [done|]. destruct r as [old|]; [|exact I]. exists old. split; [done|]. intros m Hm. exists m. by split.
  - by apply devices_le_same.
  - by apply keys_le_same.
Qed.

(** Every run of any requests. *)
Lemma requests_run {B} `{Backend B} sha ext dec rqs (w w' : dworld B) ps :
  dm_ok (store (ddb w)) -> Forall canonical rqs -> rtc (pool_step dm_handler dmclock) (map (dperform sha ext dec) rqs, w) (ps, w') ->
  dm_ok (store (ddb w')) /\ grows (store (ddb w)) (store (ddb w')).
Proof.
  intros Hw Hrqs Hrun. refine (let H := peers_steps dm_handler dm_inv dmclock dm_grows ok_clock _ _ Hrun _ in conj (proj1 (proj1 H)) (proj2 H)).
  split; [done|]. apply Forall_fmap. eapply Forall_impl; [exact Hrqs|]. intros rq Hrq.
  apply proves_underway, (sound_proves (fun _ => True)); [apply lasting_true|by apply sound_perform].
Qed.

Lemma pair_key_inj enc u v a b : is_id u -> is_id v -> is_id a -> is_id b ->
  pair_key enc u v = pair_key enc a b -> u = a /\ v = b \/ u = b /\ v = a.
Proof.
  unfold is_id. intros Hu Hv Ha Hb He.
  assert (Hd : dmKey u v = dmKey a b) by (destruct enc; cbn in He; [by injection He|done]).
  apply (f_equal split_colon) in Hd. unfold dmKey in Hd. destruct (String.ltb v u), (String.ltb b a); rewrite !split_pair in Hd by done; injection Hd; auto.
Qed.

(** A participant of a conversation of two is one of the two. *)
Lemma one_of_two d c x u v t : dm_ok d -> dmConvs d !! c = Some x -> conv_for u v x -> member c t d -> t = u \/ t = v.
Proof.
  intros Hok Hx (_ & Hu & Hv & Hk) [r Hr]. destruct (ok_parts _ Hok _ r Hr) as ((x' & a & Hx' & _ & Ht & Ha & Hk') & _). cbn in *.
  rewrite Hx in Hx'. injection Hx' as <-. rewrite Hk in Hk'. injection Hk' as Hk'. destruct (pair_key_inj _ u v t a Hu Hv Ht Ha Hk'); naive_solver.
Qed.

Lemma member_pair d c u v : dm_ok d -> member c u d -> member c v d -> u <> v -> exists x, dmConvs d !! c = Some x /\ conv_for u v x.
Proof.
  intros Hok [r Hr] Hv Hne. destruct (ok_parts _ Hok _ r Hr) as ((x & a & Hx & Hfor) & _). cbn in *. exists x. split; [done|].
  destruct (one_of_two d c x u a v Hok Hx Hfor Hv) as [->| ->]; [by destruct Hne|done].
Qed.

(** ** One-time keys *)

Section Keys.
Context {B : Type} `{Backend B} (device : uuid) (keyID : string).
Implicit Types (w : dworld B) (d : DMDB).

(** The tables of devices and keys by themselves. *)
Definition bare d : DMDB :=
  mkDM (dmUsers d) ∅ ∅ ∅ ∅ ∅ ∅ ∅ ∅ (dmDevices d) (dmKeys d) ∅ (dmNow d) (dmGen d) (dmDrawn d).

(** They are as they should be, and device ids are generated ones. *)
Definition key_ok d : Prop := dm_ok (bare d) /\ forall v, is_Some (dmDevices d !! v) -> exists n, (n < dmDrawn d)%nat /\ v = dmGen d n.

Definition is_claimed d : Prop :=
  Exists (fun r => okDevice r.2 = device /\ okKeyID r.2 = keyID /\ is_Some (okClaimed r.2)) (map_to_list (dmKeys d)).

(** The key can still be handed over: nobody claimed it, and its device is
    there or has yet to come. *)
Definition claimable d : bool :=
  negb (bool_decide (is_claimed d)) &&
  (bool_decide (is_Some (dmDevices d !! device)) || bool_decide (device ∉ map (dmGen d) (seq 0 (dmDrawn d)))).

(** The answer hands the key over. *)
Definition hands X (e : dmE X) : X -> bool :=
  match e in dmE X return X -> bool with
  | ClaimE2EEOneTimeKey v => fun r => match r with Ok (_, k) => bool_decide (v = device /\ okKeyID k = keyID) | Err _ => false end
  | _ => fun _ => false
  end.

Definition has_key (l : list (uuid * string)) : bool := bool_decide ((device, keyID) ∈ l).

Lemma needs_win_nest {X Y A} (won : forall X, dmE X -> X -> bool) (success : A -> bool) (p : prog dmE X) (g : X -> prog dmE Y) f :
  needs_win won success (p ≫= fun x => g x ≫= f) -> needs_win won success ((p ≫= g) ≫= f).
Proof. induction p as [x|Z e k IH]; [done|]. cbn. intros Hp x Hx. by apply IH, Hp. Qed.

Lemma not_claimable d :
  claimable d = false <-> is_claimed d \/ dmDevices d !! device = None /\ device ∈ map (dmGen d) (seq 0 (dmDrawn d)).
Proof.
  unfold claimable. rewrite andb_false_iff, negb_false_iff, orb_false_iff, bool_decide_eq_true, !bool_decide_eq_false, eq_None_not_Some.
  destruct (decide (device ∈ map (dmGen d) (seq 0 (dmDrawn d)))); tauto.
Qed.

Lemma is_claimed_spec d : is_claimed d <-> exists i k, dmKeys d !! i = Some k /\ okDevice k = device /\ okKeyID k = keyID /\ is_Some (okClaimed k).
Proof.
  unfold is_claimed. rewrite Exists_exists. split.
  - intros ([i k] & Hin%elem_of_map_to_list & ?). by exists i, k.
  - intros (i & k & Hk & ?). exists (i, k). split; [by apply elem_of_map_to_list|done].
Qed.

Lemma in_drawn d n : (n < dmDrawn d)%nat -> dmGen d n ∈ map (dmGen d) (seq 0 (dmDrawn d)).
Proof. intros Hn. apply list_elem_of_fmap. exists n. split; [done|]. apply elem_of_seq. lia. Qed.

(** A key that can no longer be handed over never can. *)
Lemma closed_stays d d' : key_ok d -> grows d d' -> claimable d = false -> claimable d' = false.
Proof.
  intros [Hok Hids] Hg. rewrite !not_claimable, !is_claimed_spec. pose proof (g_drawn _ _ Hg) as Hdr. pose proof (ok_gen _ Hok) as Hinj. cbn in Hinj.
  assert (Hmem : forall n, (n < dmDrawn d)%nat -> dmGen d n ∈ map (dmGen d') (seq 0 (dmDrawn d'))).
  { intros n Hn. rewrite <- (g_gen _ _ Hg). apply in_drawn. lia. }
  intros [(i & k & Hk & Hd & Hid & Hc)|[Hv Hin]].
  - pose proof (ok_keys _ Hok i k Hk) as Hdev. cbn in Hdev. rewrite Hd in Hdev. destruct (Hids _ Hdev) as (n & Hn & He).
    destruct (g_keys _ _ Hg i k Hk Hc) as [Hk'|[Hgone|(m & Hm & He')]].
    + left. by exists i, k.
    + right. rewrite <- Hd at 1. split; [done|]. rewrite He. by apply Hmem.
    + rewrite Hd, He in He'. apply Hinj in He'. lia.
  - right. apply list_elem_of_fmap in Hin as (n & He & Hn%elem_of_seq). split; [|rewrite He; apply Hmem; lia].
    destruct (dmDevices d' !! device) as [x|] eqn:Hx; [|done]. destruct (g_devices _ _ Hg _ x Hx) as [(y & Hy & _)|(m & Hm & He')]; [congruence|].
    rewrite He in He'. apply Hinj in He'. lia.
Qed.

(** Handing a key over takes one that could be, and closes it. *)
Lemma hands_closes X (e : dmE X) w :
  key_ok (dmdb w) -> hands X e (dm_handler X e w).1 = true -> claimable (dmdb w) = true /\ claimable (dmdb (dm_handler X e w).2) = false.
Proof.
  intros [Hok _]. destruct e; try done. cbn [dm_handler hands].
  destruct (on_dm _ w).1 as [[i k]|] eqn:Hq; [|done]. intros [-> Hid]%bool_decide_eq_true. apply on_dm_ok in Hq as [Hc ->].
  destruct (claim_takes _ _ _ _ Hc) as (k0 & Hk0 & Hd & Hn & -> & ->). cbn in Hid. split.
  - apply not_false_iff_true. rewrite not_claimable, is_claimed_spec. intros [(j & x & Hx & Hxd & Hxi & [t Ht])|[Hv _]].
    + assert (i = j) as <- by (eapply (ok_once _ Hok i j k0 x); [done|done|congruence|congruence]). cbn in Hx. congruence.
    + destruct (ok_keys _ Hok i k0 Hk0) as [y Hy]. cbn in Hy. congruence.
  - apply not_claimable. left. apply is_claimed_spec. eexists i, _. cbn. rewrite lookup_insert_eq. split; [done|]. cbn. split_and!; [done|done|by eexists].
Qed.

Lemma claim_each_needs_hand {A} l (f : result eerr (list Claim) -> prog dmE A) (success : A -> bool) :
  (forall r, (device, keyID) ∉ handed r -> needs_win hands success (f r)) -> needs_win hands success (claim_each l ≫= f).
Proof.
  revert f. induction l as [|[i v] l IH]; intros f Hf; [apply Hf; cbn; set_solver|]. cbn. intros r Hr.
  assert (Hskip : forall key, (forall k, key = Some k -> (i, ktID k) <> (device, keyID)) ->
    needs_win hands success (prog_bind f (claim_each l ≫= fun cs => mret (match cs with Err e => Err e | Ok cs => Ok (mkClaim i (edIdentity v) (edSigning v) key :: cs) end)))).
  { intros key Hkey. apply needs_win_nest, IH. intros cs Hcs. apply Hf. destruct cs as [cs|]; [|cbn; set_solver]. cbn in *.
    destruct key as [k|]; cbn; [|done]. apply not_elem_of_cons. split; [|done]. intros He. by apply (Hkey k). }
  destruct r as [[j k]|[]]; try (apply Hf; cbn; set_solver).
  - apply Hskip. intros k' [= <-]. cbn. cbn in Hr. apply bool_decide_eq_false in Hr. naive_solver.
  - by apply Hskip.
Qed.

Lemma key_ok_same d d' : key_ok d -> dmDevices d' = dmDevices d -> dmKeys d' = dmKeys d -> dmGen d' = dmGen d -> (dmDrawn d <= dmDrawn d')%nat -> key_ok d'.
Proof.
  intros [Hok Hids] Hv Hk Hg Hn. split.
  - destruct Hok. split; cbn in *; rewrite ?Hv, ?Hk, ?Hg; try done. intros n Hle. apply ok_fresh0. lia.
  - intros v. rewrite Hv, Hg. intros (n & ? & ->)%Hids. exists n. split; [lia|done].
Qed.

(** A statement on the two tables alone. *)
Lemma key_ok_bare {A} (q : DMDB -> result dberr A * DMDB) d :
  bare (q d).2 = (q (bare d)).2 -> (dm_ok (bare d) -> dm_ok (q (bare d)).2) -> grows d (q d).2 -> key_ok d -> key_ok (q d).2.
Proof.
  intros He Hq Hg [Hok Hids]. split; [rewrite He; auto|]. intros v [x Hx]. rewrite (g_gen _ _ Hg). pose proof (g_drawn _ _ Hg).
  destruct (g_devices _ _ Hg v x Hx) as [(y & Hy & _)|(n & Hn & ->)]; [|exists n; split; [lia|done]].
  destruct (Hids v ltac:(by exists y)) as (n & ? & ->). exists n. split; [lia|done].
Qed.

Lemma key_ok_step X (e : dmE X) w : key_ok (dmdb w) -> key_ok (dmdb (dm_handler X e w).2).
Proof.
  intros Hk.
  assert (Hon : forall A (q : DMDB -> result dberr A * DMDB), key_ok (q (dmdb w)).2 -> key_ok (dmdb (on_dm q w).2)).
  { intros A q Hq. by destruct (on_dm_either q w) as [-> | ->]. }
  destruct e; cbn [dm_handler]; try done; apply Hon; clear Hon; generalize dependent (dmdb w); intros d Hk.
  all: try (apply (key_ok_bare _ d); [|auto with dmrules|auto with dmrules|exact Hk];
    unfold q_CreateE2EEDevice, q_TouchE2EEDevice, q_InsertE2EEOneTimeKey, q_ClaimE2EEOneTimeKey; unfold unclaimed, bare; cbn;
    repeat case_match; reflexivity).
  all: try (unfold q_UpsertNotificationPref, q_BlockUser, q_CreateConversation, q_CreateE2EEConversation, insert_conv, q_AddConversationParticipant,
    q_CreateMessage, q_SetLastReadMessage, q_TombstoneMessage, q_CreateMessageAttachment, q_LinkAttachmentsToMessage, q_SetMessageLinkPreview,
    q_CreateE2EEMessage; repeat case_match; apply (key_ok_same d _ Hk); cbn; first [reflexivity|lia|repeat case_match; reflexivity]).
  apply (key_ok_bare _ d); [|auto with dmrules|auto with dmrules|exact Hk]. unfold q_DeleteE2EEDevice. cbn [bare dmDevices].
  repeat case_match; try reflexivity.
Qed.

Lemma perform_needs_hand sha ext dec rq : needs_win hands has_key (dperform sha ext dec rq).
Proof.
  destruct rq as [[[ms es] on] r]. destruct r; cbn [dperform];
    try (apply needs_win_bind; intros ?; cbn; unfold has_key; by apply bool_decide_eq_false, not_elem_of_nil).
  unfold ClaimKeys. apply needs_win_nest, needs_win_bind. intros [g|]; [cbn; by apply bool_decide_eq_false, not_elem_of_nil|].
  apply needs_win_nest, needs_win_bind. intros [l|]; [|cbn; by apply bool_decide_eq_false, not_elem_of_nil].
  apply claim_each_needs_hand. intros r Hr. cbn. by apply bool_decide_eq_false.
Qed.
End Keys.

(** ** Properties *)

(** C24. Nothing leaves a conversation's two participants. Whatever requests run
    against the three services, in any interleaving, with any store calls
    failing before or after they took effect: every conversation is of two
    accounts and nobody else takes part in it; two accounts have at most one
    conversation of each type; messages and attachments are by participants of
    a plaintext conversation, an attachment only in a message of its own
    uploader there; and envelopes go between devices of participants of an
    encrypted conversation. *)
Theorem conversations_stay_between_two {B} `{Backend B} sha ext dec rqs (w w' : dworld B) ps :
  dm_ok (store (ddb w)) -> Forall canonical rqs ->
  rtc (pool_step dm_handler dmclock) (map (dperform sha ext dec) rqs, w) (ps, w') ->
  let d := store (ddb w') in
  dm_ok d /\
  (forall c u v t, member c u d -> member c v d -> member c t d -> u = v \/ u = t \/ v = t) /\
  (forall c c' enc u v, conv_type c enc d -> conv_type c' enc d -> u <> v ->
     member c u d -> member c v d -> member c' u d -> member c' v d -> c = c').
Proof.
  intros Hw Hrqs Hrun. destruct (requests_run sha ext dec rqs w w' ps Hw Hrqs Hrun) as [Hok _]. cbv zeta.
  split_and!; [done|..].
  - intros c u v t Hu Hv Ht. destruct (decide (u = v)) as [|Hne]; [by left|]. right.
    destruct (member_pair _ c u v Hok Hu Hv Hne) as (x & Hx & Hfor). destruct (one_of_two _ c x u v t Hok Hx Hfor Ht); auto.
  - intros c c' enc u v (y & Hy & Hye) (y' & Hy' & Hye') Hne Hu Hv Hu' Hv'. destruct (member_pair _ c u v Hok Hu Hv Hne) as (x & Hx & _ & _ & _ & Hk).
    destruct (member_pair _ c' u v Hok Hu' Hv' Hne) as (x' & Hx' & _ & _ & _ & Hk'). apply (ok_unique _ Hok c c' x x' Hx Hx'). congruence.
Qed.

(** C25. Direct messages only move forward: through any interleaving of requests and
    any store failures a message stays in its conversation with its sender and
    time, its text is the one sent or the tombstone, and a tombstone is for
    good; a participant stays, and what it has read never goes back to an older
    message; a claimed one-time key is never free again. *)
Theorem messages_move_forward {B} `{Backend B} sha ext dec rqs (w w' : dworld B) ps :
  dm_ok (store (ddb w)) -> Forall canonical rqs ->
  rtc (pool_step dm_handler dmclock) (map (dperform sha ext dec) rqs, w) (ps, w') ->
  grows (store (ddb w)) (store (ddb w')).
Proof. intros Hw Hrqs Hrun. exact (proj2 (requests_run sha ext dec rqs w w' ps Hw Hrqs Hrun)). Qed.

(** C23. A one-time key is handed to at most one request: of all the claims in
    flight, interleaved with uploads of keys, removals and registrations of
    devices and everything else the services do, and with any store calls
    failing, at most one answer carries it. *)
Theorem one_time_key_handed_once {B} `{Backend B} sha ext dec (device : uuid) (keyID : string) rqs (w w' : dworld B) ps :
  key_ok (store (ddb w)) ->
  rtc (pool_step dm_handler dmclock) (map (dperform sha ext dec) rqs, w) (ps, w') ->
  (length (filter (fun p => succeeded (has_key device keyID) p = true) ps) <= 1)%nat.
Proof.
  intros Hw Hrun. eapply (single_winner dm_handler (fun _ _ => True) (hands device keyID) (fun w => claimable device keyID (dmdb w))
    (has_key device keyID) (fun w => key_ok (dmdb w))); [| | | | |exact Hw|exact Hrun].
  - intros X e s _. apply key_ok_step.
  - intros X e s _. apply hands_closes.
  - intros X e s _ Hs. apply closed_stays; [done|apply grow_step].
  - intros s s' (users & handles & prefs & now & _ & _ & ->) Hs. split; [|done]. by apply (key_ok_same (dmdb s)).
  - apply Forall_fmap, Forall_true. intros rq. split; [by apply ops_all|apply perform_needs_hand].
Qed.

(** ** Scenarios *)

Module Talk.

Definition sha (x : string) : string := "#" +:+ x.
Definition gen (n : nat) : uuid := "id" +:+ pretty n.
Definition alice : uuid := "alice".
Definition bob : uuid := "bob".
Definition carol : uuid := "carol".

(** Nobody has written yet. *)
Definition empty : DMDB :=
  mkDM {[alice := mkDUser "alice" "Alice" true false; bob := mkDUser "bob" "Bob" true false; carol := mkDUser "carol" "Carol" true true]}
    ∅ ∅ ∅ ∅ ∅ ∅ ∅ ∅ ∅ ∅ ∅ (100 * Second) gen 0.

Definition world (fs : list fault) (d : DMDB) : dworld LocalFS :=
  mkDW (Faulty d fs) (mkLocalFS (mkLocal ∅ {[ [] ]}) []) (fun _ => Some true) [] gen 0 (fun _ => None) [].

Definition services : MService * EService * bool := (mkMService true true true MaxAttachmentBytes false, mkEService true, true).

Definition perform : MService * EService * bool * drequest -> prog dmE (list (uuid * string)) := dperform sha (fun _ => []) (fun _ => None).

Lemma gen_inj n m : gen n = gen m -> n = m.
Proof. unfold gen. intros He%(inj (String.append "id")). by apply (inj pretty) in He. Qed.

Lemma empty_ok : dm_ok empty.
Proof. split; cbn; try (intros *; rewrite lookup_empty; discriminate). - intros n _. apply lookup_empty. - apply gen_inj. Qed.

(** Alice and Bob write to each other at once, Carol to Alice; a call fails. *)
Definition openings : list (MService * EService * bool * drequest) :=
  [(services, RStart alice bob); (services, RStart bob alice); (services, RStart carol alice); (services, RStartEncrypted alice bob)].

Lemma openings_canonical : Forall canonical openings.
Proof. repeat constructor. Qed.

Definition opened (fs : list fault) : list (prog dmE (list (uuid * string))) * dworld LocalFS :=
  schedule dm_handler [0; 1; 0; 1; 0; 1; 1; 0; 0; 1; 1; 0; 1; 1; 2; 2; 2; 2; 2; 3; 3; 3; 3; 3]%nat (map perform openings) (world fs empty).

Lemma opened_runs fs : rtc (pool_step dm_handler dmclock) (map perform openings, world fs empty) ((opened fs).1, (opened fs).2).
Proof. rewrite <- surjective_pairing. apply schedule_pool. Qed.

Definition settled : DMDB := store (ddb (opened []).2).

(** Alice writes and deletes while Bob reads; the store loses an answer. *)
Definition chatter : list (MService * EService * bool * drequest) :=
  [(services, RSend alice "id0" (mkSendRequest "hi" [] [] EmptyString None)); (services, RMarkRead bob "id0" None); (services, RDelete alice "id4")].

Definition chatted (fs : list fault) : list (prog dmE (list (uuid * string))) * dworld LocalFS :=
  schedule dm_handler [0; 0; 0; 0; 0; 0; 0; 1; 1; 1; 2; 2; 2; 2; 2]%nat (map perform chatter) (world fs settled).

Definition lost : list fault := [Fine; Fine; Fine; Fine; Fine; FailAfter].

Lemma settled_ok : dm_ok settled.
Proof.
  unfold settled.
  exact (proj1 (requests_run sha (fun _ => []) (fun _ => None) openings (world [] empty) (opened []).2 (opened []).1 empty_ok
    openings_canonical (opened_runs []))).
Qed.

(** Two claims race for the only key of Alice's device. *)
Definition race : list (MService * EService * bool * drequest) :=
  [(services, RRegister alice "phone" "I" "S"); (services, RUploadKeys alice "id0" [mkOneTimeKey "k1" "K"]);
   (services, RClaim alice alice); (services, RClaim alice alice)].

Definition raced (fs : list fault) : list (prog dmE (list (uuid * string))) * dworld LocalFS :=
  schedule dm_handler [0; 0; 1; 1; 1; 1; 1; 2; 3; 2; 3]%nat (map perform race) (world fs empty).

End Talk.

Lemma conversations_stay_between_two_witness :
  let d := store (ddb (Talk.opened []).2) in
  map fst (map_to_list (dmParts d)) = [("id2", Talk.carol); ("id3", Talk.alice); ("id2", Talk.alice); ("id0", Talk.alice); ("id3", Talk.bob); ("id0", Talk.bob)]%string /\
  dm_ok d.
Proof.
  split; [vm_compute; reflexivity|].
  exact (proj1 (conversations_stay_between_two Talk.sha (fun _ => []) (fun _ => None) Talk.openings (Talk.world [] Talk.empty)
    (Talk.opened []).2 (Talk.opened []).1 Talk.empty_ok Talk.openings_canonical (Talk.opened_runs []))).
Defined.

Lemma messages_move_forward_witness :
  let d' := store (ddb (Talk.chatted Talk.lost).2) in
  mgBody <$> dmMsgs d' !! "id4"%string = Some "[deleted]"%string /\ grows (store (ddb (Talk.world Talk.lost Talk.settled))) d'.
Proof.
  cbv zeta. split; [vm_compute; reflexivity|].
  apply (messages_move_forward Talk.sha (fun _ => []) (fun _ => None) Talk.chatter (Talk.world Talk.lost Talk.settled)
    (Talk.chatted Talk.lost).2 (Talk.chatted Talk.lost).1).
  - change (dm_ok Talk.settled). exact Talk.settled_ok.
  - repeat constructor.
  - rewrite <- surjective_pairing. apply schedule_pool.
Defined.

Lemma one_time_key_handed_once_witness :
  length (filter (fun p => succeeded (has_key "id0" "k1") p = true) (Talk.raced []).1) = 1%nat /\
  (length (filter (fun p => succeeded (has_key "id0" "k1") p = true) (Talk.raced []).1) <= 1)%nat.
Proof.
  split; [vm_compute; reflexivity|].
  refine (one_time_key_handed_once Talk.sha (fun _ => []) (fun _ => None) "id0" "k1" Talk.race (Talk.world [] Talk.empty)
    (Talk.raced []).2 (Talk.raced []).1 _ _).
  - split; [exact Talk.empty_ok|]. intros v. cbn. rewrite lookup_empty. by intros [].
  - rewrite <- surjective_pairing. apply schedule_pool.
Defined.
