(* ===== verification/MessagingPages.v ===== *)
(** * Direct messages: listings, delivery and blocks

    Walking a conversation page by page reads exactly the conversation, an
    encrypted envelope arrives as it was sent, and a block cuts both ways. *)
From S2P Require Import Prelude GoStrings Storage Secretbox MessageStore Messaging E2ee MessagingSafety.
Local Open Scope Z_scope.

(** ** The order of a listing *)

#[global] Instance newest_trans : Transitive newest.
Proof.
  intros x y z [H1|[H1 H2]] [H3|[H3 H4]]; unfold newest; try lia. right. split; [lia|]. by eapply string_leb_trans.
Qed.

#[global] Instance newest_total : Total newest.
Proof.
  intros x y. unfold newest. destruct (Z.lt_trichotomy x.1 y.1) as [|[|]]; [by right; left| |by left; left].
  destruct (String.leb_total x.2 y.2); [right|left]; right; split; done || lia.
Qed.

Lemma newest_antisym x y : newest x y -> newest y x -> x.2 = y.2.
Proof. intros [H1|[H1 H2]] [H3|[H3 H4]]; try lia. by apply String.leb_antisym. Qed.

Lemma older_spec x y : older x y <-> ~ newest x y.
Proof.
  unfold older, newest. rewrite string_ltb_spec. split.
  - intros [?|(? & ? & Hne)] [?|[? ?]]; try lia. by apply Hne, String.leb_antisym.
  - intros Hn. destruct (Z.lt_trichotomy x.1 y.1) as [|[He|]]; [by left| |by destruct Hn; left]. right. split; [done|]. split.
    + destruct (String.leb_total x.2 y.2) as [|H]; [done|]. destruct Hn. right. split; [lia|done].
    + intros Hx. destruct Hn. right. split; [lia|]. rewrite Hx. apply string_leb_spec. by left.
Qed.

Section Listing.
Context {A : Type} (f : A -> time * uuid).

(** What comes after a cursor in a sorted listing is what is older than it. *)
Lemma after_cursor l1 x l2 :
  StronglySorted (on_key f newest) (l1 ++ x :: l2) -> NoDup (snd ∘ f <$> l1 ++ x :: l2) ->
  filter (fun r => older (f r) (f x)) (l1 ++ x :: l2) = l2.
Proof.
  intros Hs Hnd. apply StronglySorted_app in Hs as (Hcross & _ & [Hx Hs]%StronglySorted_cons).
  rewrite fmap_app, fmap_cons in Hnd. apply NoDup_app in Hnd as (_ & _ & [Hnin _]%NoDup_cons).
  rewrite filter_app, (filter_none _ l1), filter_cons_False.
  - cbn. apply filter_all. rewrite Forall_forall in Hx. apply Forall_forall. intros y Hy. apply older_spec. intros Hn.
    apply Hnin. apply list_elem_of_fmap. exists y. split; [|done]. cbn. exact (newest_antisym _ _ (Hx y Hy) Hn).
  - rewrite older_spec. intros H. apply H. right. split; [done|]. apply string_leb_spec. by left.
  - apply Forall_forall. intros y Hy. rewrite older_spec. intros H. apply H. apply Hcross; [done|left].
Qed.

(** Filtering a listing is listing what was filtered. *)
Lemma listing_unique R (l l' : list A) : R = newest \/ R = oldest ->
  StronglySorted (on_key f R) l -> StronglySorted (on_key f R) l' -> NoDup (snd ∘ f <$> l) -> l ≡ₚ l' -> l = l'.
Proof.
  intros HR Hs Hs' Hnd Hp. eapply (StronglySorted_unique_strong (on_key f R)); [|done..].
  intros x y Hx Hy H1 H2. assert (He : (f x).2 = (f y).2) by (destruct HR as [-> | ->]; [by apply newest_antisym|symmetry; by apply newest_antisym]).
  rewrite <- Hp in Hy. apply list_elem_of_lookup in Hx as [i Hi], Hy as [j Hj].
  assert (i = j) as <-; [|congruence]. eapply (NoDup_lookup (snd ∘ f <$> l)); [done|by rewrite list_lookup_fmap, Hi|by rewrite list_lookup_fmap, Hj; cbn; rewrite He].
Qed.
End Listing.

Lemma sorted_rows {A} (f : A -> time * uuid) R (l : list A) `{!RelDecision R, !Transitive R, !Total R} :
  StronglySorted (on_key f R) (merge_sort (on_key f R) l).
Proof.
  apply StronglySorted_merge_sort; [intros x y z; unfold on_key; apply transitivity|intros x y; unfold on_key; apply total; apply _].
Qed.

#[global] Instance oldest_trans : Transitive oldest.
Proof. intros x y z H1 H2. unfold oldest in *. by etransitivity. Qed.
#[global] Instance oldest_total : Total oldest.
Proof. intros x y. unfold oldest. destruct (newest_total x y); auto. Qed.

Lemma rows_ids {A} (m : gmap uuid A) : NoDup (map fst (rows_of m)).
Proof. apply NoDup_fst_map_to_list. Qed.

Lemma filter_ids {A} (P : uuid * A -> Prop) `{forall x, Decision (P x)} l : NoDup (map fst l) -> NoDup (map fst (filter P l)).
Proof.
  induction l as [|x l IH]; [done|]. intros [Hx Hl]%NoDup_cons. rewrite filter_cons. case_decide; [|auto]. apply NoDup_cons. split; [|auto].
  intros (y & He & [_ Hy]%list_elem_of_filter)%list_elem_of_fmap. apply Hx. apply list_elem_of_fmap. by exists y.
Qed.

(** ** Messages, read back *)

Section Reading.
Context {B : Type} `{Backend B} (w : dworld B).
Abbreviation d := (store (ddb w)).
Hypothesis answers : faults (ddb w) = [].

(** The listed attachments of a message. *)
Definition attachments_of (d : DMDB) (id : uuid) : list Attachment :=
  map shown (merge_sort (on_key att_key oldest) (filter (fun r => atMessage r.2 = Some id) (rows_of (dmAtts d)))).

(** A row as it is shown. *)
Definition view (d : DMDB) (r : MsgRow) : Message :=
  mkMessage (mrID r) (mrConv r) (mrSender r) (mrName r) (mrDisplay r) (mrAvatar r) (mrBody r) (mrCreated r) (mrDeleted r)
    (if mrDeleted r then [] else attachments_of d (mrID r))
    (if mrDeleted r then None else (fun p => mkLinkPreview (pvURL p) (pvTitle p) (pvDescription p) (pvImage p)) <$> mrPreview r).

(** A read on a store that answers. *)
Lemma on_dm_read {A} (q : DMDB -> result dberr A * DMDB) : (q d).2 = d -> on_dm q w = ((q d).1, w).
Proof.
  intros Hq. unfold on_dm. destruct w as [[x fs] b s1 s2 s3 s4 s5 s6]. cbn in *. subst fs. cbn. unfold with_ddb. cbn. by rewrite Hq.
Qed.

Lemma listed_attachments (ids : list uuid) (id : uuid) : id ∈ ids ->
  filter (fun r : uuid * Att => atMessage r.2 = Some id)
    (merge_sort (on_key att_key oldest)
      (filter (fun r => match atMessage r.2 with Some m => bool_decide (m ∈ ids) | None => false end = true) (rows_of (dmAtts d)))) =
  merge_sort (on_key att_key oldest) (filter (fun r => atMessage r.2 = Some id) (rows_of (dmAtts d))).
Proof.
  intros Hid. apply (listing_unique att_key oldest); [by right|apply sorted_filter, (sorted_rows att_key oldest _)|apply (sorted_rows att_key oldest _)|..].
  - apply filter_ids. rewrite (merge_sort_Permutation (on_key att_key oldest)). apply filter_ids, rows_ids.
  - rewrite !(merge_sort_Permutation (on_key att_key oldest)). rewrite list_filter_filter_l; [done|].
    intros r Hr. rewrite Hr. by apply bool_decide_eq_true.
Qed.

Lemma run_assemble rows : run dm_handler (assembleMessages rows) w = (map (view d) rows, w).
Proof.
  unfold assembleMessages, attachmentsForMessages. destruct rows as [|r rows]; [done|].
  set (l := r :: rows). change (map mrID l) with (mrID r :: map mrID rows) at 1. cbn [mbind]. rewrite run_mbind, run_mbind, run_call. cbn [dm_handler].
  rewrite on_dm_read by done. cbn -[l filter merge_sort]. f_equal. apply map_ext_in. intros x Hx%list_elem_of_In.
  unfold view. f_equal. destruct (mrDeleted x); [done|]. unfold attachments_of. f_equal. apply (listed_attachments (map mrID l)).
  apply list_elem_of_fmap. by exists x.
Qed.

Lemma take_omap {A C} (f : A -> option C) n l : Forall (fun x => is_Some (f x)) l -> take n (omap f l) = omap f (take n l).
Proof.
  revert l. induction n as [|n IH]; intros l Hl; [done|]. destruct Hl as [|x l [y Hy] Hl]; [done|]. cbn. rewrite Hy. cbn. by rewrite IH.
Qed.

Lemma thread_sorted conv : StronglySorted (on_key msg_key newest) (thread conv d).
Proof. apply (sorted_rows msg_key newest _). Qed.

Lemma thread_ids conv : NoDup (snd ∘ msg_key <$> thread conv d).
Proof.
  assert (Hnd : NoDup (map fst (thread conv d))); [|done]. unfold thread. rewrite (merge_sort_Permutation (on_key msg_key newest)). apply filter_ids, rows_ids.
Qed.

(** Reading a conversation page by page, each page after the last message of
    the one before, until one is empty. *)
Fixpoint pages (fuel : nat) (me conv : uuid) (limit : Z) (cursor : option uuid) : prog dmE (result merr (list Message)) :=
  match fuel with
  | O => mret (Ok [])
  | S fuel =>
      r ← (match cursor with None => Messaging.ListMessages me conv limit 0 | Some c => Messaging.ListMessagesBefore me conv c limit end);
      match r with
      | Err e => mret (Err e)
      | Ok page =>
          match last page with
          | None => mret (Ok [])
          | Some m =>
              rest ← pages fuel me conv limit (Some (mID m));
              mret (match rest with Err e => Err e | Ok l => Ok (page ++ l) end)
          end
      end
  end.

Section Thread.
Context (me conv : uuid) (limit : Z).
Hypothesis reader : member conv me d.
Hypothesis positive : 0 < limit.
Hypothesis known : forall m y, dmMsgs d !! m = Some y -> is_Some (dmUsers d !! mgSender y).

Lemma rows_known l : l ⊆ thread conv d -> Forall (fun x => is_Some (msg_row d x)) l.
Proof.
  intros Hl. apply Forall_forall. intros [m y] Hin. destruct (thread_in conv m y d (Hl _ Hin)) as [Hy _]. unfold msg_row. apply fmap_is_Some. by eapply known.
Qed.

Lemma run_first limit' : run dm_handler (Messaging.ListMessages me conv limit' 0) w =
  (Ok (map (view d) (omap (msg_row d) (take (Z.to_nat limit') (thread conv d)))), w).
Proof.
  unfold Messaging.ListMessages. rewrite run_mbind, run_call. cbn [dm_handler]. rewrite on_dm_read by done. cbn -[on_dm assembleMessages thread]. unfold is_member.
  rewrite bool_decide_eq_true_2 by done. cbn -[on_dm assembleMessages thread]. rewrite on_dm_read by done. cbn -[on_dm assembleMessages thread].
  rewrite run_mbind, run_assemble. cbn -[thread]. unfold paged. cbn -[thread]. rewrite drop_0, take_omap by (by apply rows_known). done.
Qed.

Lemma run_next l1 x l2 : thread conv d = l1 ++ x :: l2 ->
  run dm_handler (Messaging.ListMessagesBefore me conv x.1 limit) w = (Ok (map (view d) (omap (msg_row d) (take (Z.to_nat limit) l2))), w).
Proof.
  intros Ht. assert (Hx : dmMsgs d !! x.1 = Some x.2 /\ mgConv x.2 = conv) by (destruct x; apply thread_in; rewrite Ht; set_solver). destruct Hx as [Hx Hc].
  unfold Messaging.ListMessagesBefore. rewrite run_mbind, run_call. cbn [dm_handler]. rewrite on_dm_read by done. cbn -[on_dm assembleMessages thread]. unfold is_member.
  rewrite bool_decide_eq_true_2 by done. cbn -[on_dm assembleMessages thread]. rewrite on_dm_read by done. cbn -[on_dm assembleMessages thread]. rewrite Hx.
  rewrite bool_decide_eq_true_2 by done. cbn -[on_dm assembleMessages thread]. rewrite on_dm_read by done. cbn -[on_dm assembleMessages thread filter].
  assert (Hf : filter (fun r => older (msg_key r) (mgCreated x.2, x.1)) (thread conv d) = l2).
  { pose proof (after_cursor msg_key l1 x l2) as Ha. rewrite <- Ht in Ha. exact (Ha (thread_sorted conv) (thread_ids conv)). }
  rewrite Hf. rewrite take_omap by (apply rows_known; rewrite Ht; set_solver). rewrite run_mbind, run_assemble. done.
Qed.

Lemma row_id x r : msg_row d x = Some r -> mrID r = x.1.
Proof. unfold msg_row. by intros (u & _ & ->)%fmap_Some. Qed.

Lemma last_shown l y : l ++ [y] ⊆ thread conv d ->
  exists m, last (map (view d) (omap (msg_row d) (l ++ [y]))) = Some m /\ mID m = y.1.
Proof.
  intros Hl. pose proof (rows_known _ Hl) as Hk. apply Forall_app in Hk as [_ [[r Hr] _]%Forall_cons]. rewrite omap_app, map_app. cbn. rewrite Hr. cbn.
  rewrite last_snoc. eexists. split; [done|]. exact (row_id y r Hr).
Qed.

Lemma shown_ids l : Forall (fun x => is_Some (msg_row d x)) l -> map mID (map (view d) (omap (msg_row d) l)) = map fst l.
Proof. induction 1 as [|x l [r Hr] _ IH]; [done|]. cbn. rewrite Hr. cbn. by rewrite IH, (row_id x r Hr). Qed.

(** One page, and the rest after it. *)
Lemma page_then fuel l1 l2 (p : prog dmE (result merr (list Message))) :
  thread conv d = l1 ++ l2 -> run dm_handler p w = (Ok (map (view d) (omap (msg_row d) (take (Z.to_nat limit) l2))), w) ->
  (forall l x l', thread conv d = l ++ x :: l' -> (length l' < length l2)%nat ->
     run dm_handler (pages fuel me conv limit (Some x.1)) w = (Ok (map (view d) (omap (msg_row d) l')), w)) ->
  run dm_handler (r ← p; match r with
    | Err e => mret (Err e)
    | Ok page => match last page with
                 | None => mret (Ok [])
                 | Some m => rest ← pages fuel me conv limit (Some (mID m)); mret (match rest with Err e => Err e | Ok l => Ok (page ++ l) end)
                 end
    end) w = (Ok (map (view d) (omap (msg_row d) l2)), w).
Proof.
  intros Ht Hp IH. rewrite run_mbind, Hp. cbn [fst snd]. set (n := Z.to_nat limit). assert (Hn : n <> 0%nat) by lia.
  destruct (take n l2) as [|y0 t0] eqn:Htk using rev_ind; [by destruct l2, n|]. clear IHt0. rewrite <- (take_drop n l2) in Ht. rewrite Htk in Ht.
  destruct (last_shown t0 y0) as (m & -> & Hm); [rewrite Ht; set_solver|]. rewrite run_mbind, Hm, (IH (l1 ++ t0) y0 (drop n l2)).
  - cbn. f_equal. f_equal. by rewrite <- map_app, <- omap_app, <- Htk, take_drop.
  - by rewrite Ht, <- !app_assoc.
  - rewrite length_drop. destruct l2; [by destruct n, t0|cbn; lia].
Qed.

Lemma run_pages fuel l1 x l2 : thread conv d = l1 ++ x :: l2 -> (length l2 < fuel)%nat ->
  run dm_handler (pages fuel me conv limit (Some x.1)) w = (Ok (map (view d) (omap (msg_row d) l2)), w).
Proof.
  revert l1 x l2. induction fuel as [|fuel IH]; intros l1 x l2 Ht Hf; [lia|]. cbn [pages].
  apply (page_then fuel (l1 ++ [x])); [by rewrite <- app_assoc|by apply (run_next l1)|].
  intros l x' l' Ht' Hl. apply (IH l x' l' Ht'). lia.
Qed.
End Thread.
End Reading.

(** ** Envelopes, delivered *)

Section Delivery.
Context {B : Type} `{Backend B}.
Implicit Types (w : dworld B) (d : DMDB).

(** The envelope as it is stored. *)
Definition stored (conv device : uuid) (expires : option time) (e : Envelope) (at_ : time) : Env :=
  mkEnv conv device (enRecipient e) (enType e) (enCipher e) at_ expires.

(** Every envelope is there, between devices of participants. *)
Record delivered (me conv device : uuid) (expires : option time) (envs : list Envelope) d : Prop := {
  dl_conv : conv_type conv true d;
  dl_from : exists v, dmDevices d !! device = Some v /\ edUser v = me;
  dl_envs : forall e, e ∈ envs -> owned_by_member conv (enRecipient e) d /\ exists id at_, dmEnvs d !! id = Some (stored conv device expires e at_);
}.

(** What storing envelopes leaves alone. *)
Definition adds_envs d d' : Prop :=
  dmConvs d' = dmConvs d /\ dmParts d' = dmParts d /\ dmDevices d' = dmDevices d /\ dmEnvs d ⊆ dmEnvs d'.

Lemma run_store_each conv device expires envs created w r w' :
  run dm_handler (store_each conv device expires envs created) w = (Ok r, w') ->
  adds_envs (dmdb w) (dmdb w') /\ forall e, e ∈ envs -> exists id at_, dmEnvs (dmdb w') !! id = Some (stored conv device expires e at_).
Proof.
  revert created w. induction envs as [|e envs IH]; intros created w; cbn -[on_dm].
  - intros [= _ <-]. split; [by split_and!|]. intros e He. by apply not_elem_of_nil in He.
  - destruct (on_dm _ w) as [[[id row]|] w1] eqn:Hq; cbn; [|done].
    pose proof (f_equal fst Hq) as Hrow. apply on_dm_ok in Hrow as [Hrow Hw1]. rewrite Hq in Hw1. cbn in Hw1. clear Hq.
    intros Hrun. destruct (IH _ _ Hrun) as [(Hc & Hp & Hv & Hsub) Hall]. unfold q_CreateE2EEMessage in *.
    case_match; [done|]. case_match; [done|]. case_match eqn:Hf; [done|]. bools. cbn in *. injection Hrow as <- <-. rewrite Hw1 in *. cbn in *.
    assert (Hnew : dmEnvs (dmdb w) ⊆ dmEnvs (dmdb w')).
    { etransitivity; [|exact Hsub]. apply insert_subseteq. by apply eq_None_not_Some. }
    split; [by split_and!|]. intros x [->|Hx]%elem_of_cons; [|by apply Hall].
    eexists _, _. eapply lookup_weaken; [|exact Hsub]. apply lookup_insert_eq.
Qed.

Lemma read_same {A} (q : DMDB -> result dberr A * DMDB) w : (forall d, (q d).2 = d) -> dmdb (on_dm q w).2 = dmdb w.
Proof. intros Hq. destruct (on_dm_either q w) as [->|He]; [done|]. by rewrite He, Hq. Qed.

(** A statement that answered. *)
Lemma answered {A} (q : DMDB -> result dberr A * DMDB) w a w' : on_dm q w = (Ok a, w') -> (q (dmdb w)).1 = Ok a /\ dmdb w' = (q (dmdb w)).2.
Proof. intros Hq. pose proof (f_equal fst Hq) as Ha. apply on_dm_ok in Ha as [Ha Hw]. by rewrite Hq in Hw. Qed.

Lemma run_send_blocked s me conv w : dmdb (run dm_handler (send_blocked s me conv) w).2 = dmdb w.
Proof.
  unfold send_blocked. case_match; [done|]. cbn -[on_dm]. destruct (on_dm (q_GetOtherParticipant conv me) w) as [[o|] w1] eqn:Hq; cbn -[on_dm].
  - rewrite read_same by done. apply (f_equal snd) in Hq. cbn in Hq. subst w1. by apply read_same.
  - apply (f_equal snd) in Hq. cbn in Hq. subst w1. by apply read_same.
Qed.

Lemma owner_of_device conv (owners : list (uuid * uuid)) v u d :
  (q_ListE2EEDevicesForConversation conv d).1 = Ok owners -> (v, u) ∈ owners -> member conv u d /\ exists x, dmDevices d !! v = Some x /\ edUser x = u.
Proof.
  intros [= <-] ([i x] & [= -> ->] & [Hm Hin]%list_elem_of_filter)%list_elem_of_fmap. cbn in *. apply elem_of_map_to_list in Hin.
  unfold is_member in Hm. apply bool_decide_eq_true in Hm. split; [done|by exists x].
Qed.

Lemma delivered_touched me conv device expires envs c w :
  delivered me conv device expires envs (dmdb w) -> delivered me conv device expires envs (dmdb (on_dm (q_TouchConversation c) w).2).
Proof.
  intros [(x & Hx & Ht) Hf Henvs]. destruct (on_dm_either (q_TouchConversation c) w) as [-> | ->]; split; try done; cbn; [by exists x|].
  unfold conv_type. cbn. destruct (decide (conv = c)) as [->|]; [rewrite lookup_alter_eq, Hx|rewrite lookup_alter_ne by done]; by eexists.
Qed.

Lemma delivered_touched' me conv device expires envs v w :
  delivered me conv device expires envs (dmdb w) -> delivered me conv device expires envs (dmdb (on_dm (q_TouchE2EEDevice v) w).2).
Proof.
  intros [Hc (x & Hx & Hme) Henvs]. destruct (on_dm_either (q_TouchE2EEDevice v) w) as [-> | ->]; [split; [done|by exists x|done]|].
  assert (Hown : forall i y, dmDevices (dmdb w) !! i = Some y -> exists y', dmDevices (q_TouchE2EEDevice v (dmdb w)).2 !! i = Some y' /\ edUser y' = edUser y).
  { intros i y Hy. cbn. destruct (decide (i = v)) as [->|]; [rewrite lookup_alter_eq, Hy|rewrite lookup_alter_ne by done]; by eexists. }
  split; [done|..].
  - destruct (Hown device x Hx) as (y & Hy & He). exists y. by rewrite He.
  - intros e He. destruct (Henvs e He) as [(y & Hy & Hm) Hid]. split; [|exact Hid]. destruct (Hown _ y Hy) as (z & Hz & Hu). exists z. rewrite Hu. by split.
Qed.

Lemma run_Send s me conv device envs expiresIn w res w' :
  run dm_handler (Send s me conv device envs expiresIn) w = (Ok res, w') ->
  delivered me conv device (srExpires res) envs (dmdb w') /\ srExpires res = (fun n => dmNow (dmdb w) + n * Second) <$> expiresIn.
Proof.
  unfold Send, ConversationEncrypted. cbn -[on_dm send_blocked bad_envelope store_each].
  destruct (on_dm (q_GetConversationForParticipant conv me) w) as [[[]|[]] w1] eqn:Hc; cbn -[on_dm send_blocked bad_envelope store_each]; try done.
  apply answered in Hc as [Hc Hw1]. apply learn_Member in Hc as [_ Hc]. rewrite run_mbind. pose proof (run_send_blocked s me conv w1) as Hw2.
  destruct (run dm_handler (send_blocked s me conv) w1) as [[|] w2]; cbn -[on_dm bad_envelope store_each] in *; [done|].
  case_match; [done|]. match goal with |- run _ (if ?b then _ else _) _ = _ -> _ => destruct b; [done|] end. rewrite run_mbind.
  match goal with |- context [run dm_handler ?p w2] => set (px := p) end.
  assert (Hpx : run dm_handler px w2 = ((fun n => dmNow (dmdb w2) + n * Second) <$> expiresIn, w2)) by (unfold px; by destruct expiresIn).
  rewrite Hpx. clear px Hpx. set (expires := _ <$> expiresIn).
  cbn -[on_dm bad_envelope store_each]. destruct (on_dm (q_ListE2EEDevicesForConversation conv) w2) as [[owners|] w3] eqn:Hl; cbn -[on_dm bad_envelope store_each]; [|done].
  apply answered in Hl as [Hl Hw3]. case_match eqn:Hown; [done|]. bools. destruct (bad_envelope owners [] envs) eqn:Hbad; [done|].
  cbn -[on_dm store_each]. rewrite run_mbind. destruct (run dm_handler (store_each conv device expires envs None) w3) as [[created|] w4] eqn:Hst; cbn -[on_dm]; [|done].
  intros [= <- <-]. apply run_store_each in Hst as ((Hcv & Hp & Hv & _) & Hall).
  split; [|cbn; unfold expires; by rewrite Hw2, Hw1]. clearbody expires.
  change (delivered me conv device expires envs (dmdb (on_dm (q_TouchConversation conv) (on_dm (q_TouchE2EEDevice device) w4).2).2)).
  cbn in Hw3. rewrite Hw3, Hw2, Hw1 in *. apply delivered_touched, delivered_touched'. split.
  - unfold conv_type. by rewrite Hcv.
  - rewrite Hv. by destruct (owner_of_device conv owners device me (dmdb w) Hl Hown).
  - intros e He. split; [|auto]. pose proof (proj1 (Forall_forall _ _) (good_envelopes _ _ _ Hbad) e He) as Hin.
    apply list_elem_of_fmap in Hin as ([v u] & -> & Hin). destruct (owner_of_device conv owners v u (dmdb w) Hl Hin) as [Hm (x & Hx & <-)].
    exists x. cbn. unfold member. by rewrite Hv, Hp.
Qed.

(** The same tables at another time, with a store that answers. *)
Definition later (t : time) d : DMDB :=
  mkDM (dmUsers d) (dmHandles d) (dmPrefs d) (dmBlocks d) (dmConvs d) (dmParts d) (dmMsgs d) (dmAtts d) (dmPreviews d) (dmDevices d) (dmKeys d)
    (dmEnvs d) t (dmGen d) (dmDrawn d).

Definition asked_at (t : time) w : dworld B := with_ddb (Faulty (later t (store (ddb w))) []) w.

Lemma run_list_encrypted reader conv limit b w :
  faults (ddb w) = [] -> member conv reader (store (ddb w)) -> conv_type conv b (store (ddb w)) ->
  run dm_handler (ListMessages reader conv limit 0) w =
    (Ok (paged limit 0 (omap (env_row (store (ddb w))) (mailbox reader conv (store (ddb w))))), w).
Proof.
  intros Hf Hm (x & Hx & _). unfold ListMessages, ConversationEncrypted. cbn -[on_dm mailbox]. rewrite on_dm_read by done. cbn -[on_dm mailbox].
  unfold is_member. rewrite bool_decide_eq_true_2, Hx by done. cbn -[on_dm mailbox]. by rewrite on_dm_read.
Qed.

Lemma mailbox_spec reader conv d i e :
  (i, e) ∈ mailbox reader conv d <-> dmEnvs d !! i = Some e /\ addressed reader conv d e = true /\ expired (dmNow d) e = false.
Proof.
  unfold mailbox, rows_of. rewrite (merge_sort_Permutation (on_key env_key newest)), list_elem_of_filter, elem_of_map_to_list, andb_true_iff, negb_true_iff. cbn. tauto.
Qed.

Lemma addressed_spec reader conv d e :
  addressed reader conv d e = true <-> evConv e = conv /\ exists v, dmDevices d !! evTo e = Some v /\ edUser v = reader.
Proof.
  unfold addressed. rewrite andb_true_iff, bool_decide_eq_true. destruct (dmDevices d !! evTo e) as [v|]; [rewrite bool_decide_eq_true|]; naive_solver.
Qed.

Lemma mailbox_short reader conv d : (length (omap (env_row d) (mailbox reader conv d)) <= size (dmEnvs d))%nat.
Proof.
  assert (Ho : forall A C (f : A -> option C) l, (length (omap f l) <= length l)%nat).
  { intros A C f l. induction l as [|x l IH]; cbn; [lia|]. destruct (f x); cbn; lia. }
  etransitivity; [apply Ho|]. unfold mailbox. rewrite (merge_sort_Permutation (on_key env_key newest)).
  etransitivity; [apply length_filter|]. unfold rows_of. by rewrite length_map_to_list.
Qed.
End Delivery.

(** ** Blocks *)

Lemma run_Block {B} `{Backend B} a b (w0 w : dworld B) :
  run dm_handler (Block a b) w0 = (None, w) -> a <> b /\ is_Some (dmBlocks (store (ddb w)) !! (a, b)).
Proof.
  unfold Block. case_bool_decide as Hab; [done|]. cbn -[on_dm]. destruct (on_dm (q_BlockUser a b) w0) as [[n|[]] w1] eqn:Hq; try done.
  intros [= <-]. split; [done|]. apply answered in Hq as [Hn Hw]. change (store (ddb w1)) with (dmdb w1). rewrite Hw. unfold q_BlockUser in *. clear Hw.
  repeat case_match; try done; bools; cbn; [done|]. rewrite lookup_insert_eq. by eexists.
Qed.

Section Blocked.
Context {B : Type} `{Backend B} (w : dworld B) (me other : uuid) (ms : MService) (es : EService).
Abbreviation d := (store (ddb w)).
Hypothesis answers : faults (ddb w) = [].
Hypothesis consistent : dm_ok d.
Hypothesis apart : me <> other.
Hypothesis wired : ms_blocker ms = true /\ es_blocker es = true.
Hypothesis blocked : is_Some (dmBlocks d !! (me, other)) \/ is_Some (dmBlocks d !! (other, me)).

Lemma is_blocked : (q_IsBlockedBetween me other d).1 = Ok true.
Proof. cbn. f_equal. apply orb_true_iff. rewrite !bool_decide_eq_true. done. Qed.

(** The other participant is who it should be. *)
Lemma the_other conv : member conv me d -> member conv other d -> (q_GetOtherParticipant conv me d).1 = Ok other.
Proof.
  intros Hme Ho. destruct (member_pair d conv me other consistent Hme Ho apart) as (x & Hx & Hfor). cbn.
  assert (Hin : forall r, r ∈ others conv me d -> r.1 = other).
  { intros r ([[c u] rd] & Hin & Hr)%list_elem_of_omap. cbn in Hr. case_match eqn:Hg; [|done]. bools. injection Hr as <-. cbn. apply elem_of_map_to_list in Hin.
    subst c. destruct (one_of_two d conv x me other u consistent Hx Hfor) as [->|]; [by exists rd|done|done]. }
  destruct (others conv me d) as [|r l] eqn:He; [exfalso|rewrite (Hin r); [done|left]].
  destruct Ho as [rd Hrd]. assert (Hr : (other, rd) ∈ others conv me d); [|rewrite He in Hr; by apply not_elem_of_nil in Hr].
  apply list_elem_of_omap. exists ((conv, other), rd). split; [by apply elem_of_map_to_list|]. cbn.
  by rewrite bool_decide_eq_true_2, bool_decide_eq_false_2.
Qed.

Ltac ask := cbn -[on_dm q_IsBlockedBetween q_GetOtherParticipant]; rewrite on_dm_read by done; cbn -[on_dm q_IsBlockedBetween q_GetOtherParticipant].

Lemma blocked_starts : is_Some (dmUsers d !! other) ->
  run dm_handler (Messaging.StartConversation ms me other) w = (Err MErrBlocked, w) /\
  run dm_handler (StartConversation es me other) w = (Err EErrBlocked, w).
Proof.
  destruct wired as [Hm He]. intros [u Hu]. unfold Messaging.StartConversation, StartConversation, Messaging.isBlocked, isBlocked.
  rewrite Hm, He, bool_decide_eq_false_2 by done. split; ask; rewrite Hu; ask; by rewrite is_blocked.
Qed.

Lemma blocked_sends conv : member conv me d -> member conv other d ->
  (forall sha body ids, run dm_handler (SendMessage ms sha me conv body ids) w = (Err MErrBlocked, w)) /\
  (conv_type conv true d -> forall device envs expires, run dm_handler (Send es me conv device envs expires) w = (Err EErrBlocked, w)).
Proof.
  destruct wired as [Hm He]. intros Hme Ho. unfold SendMessage, Messaging.send_blocked, Send, ConversationEncrypted, send_blocked. rewrite Hm, He. split.
  - intros sha body ids. ask. unfold is_member. rewrite bool_decide_eq_true_2 by done. ask. rewrite (the_other conv Hme Ho). ask. by rewrite is_blocked.
  - intros (x & Hx & Henc) device envs expires. ask. unfold is_member. rewrite bool_decide_eq_true_2, Hx, Henc by done. ask.
    rewrite (the_other conv Hme Ho). ask. by rewrite is_blocked.
Qed.

Lemma blocked_directory :
  (exists e, e ∈ [EErrBlocked; EErrNotAuthorized] /\ run dm_handler (ClaimKeys es me other) w = (Err e, w)) /\
  (exists e, e ∈ [EErrBlocked; EErrNotAuthorized] /\ run dm_handler (ListUserDevices es me other) w = (Err e, w)).
Proof.
  destruct wired as [_ He]. unfold ClaimKeys, ListUserDevices, peer_gate, gatePeerAccess, isBlocked. rewrite He, bool_decide_eq_false_2 by done.
  split; ask; case_match; try ask; rewrite ?is_blocked; eexists; (split; [|done]); set_solver.
Qed.
End Blocked.

(** ** Properties *)

(** C27. Reading a conversation page by page, each page continuing before the last
    message shown, whatever the page size, shows every message exactly once
    and in the order of one undivided listing, and ends. *)
Theorem pages_are_the_conversation {B} `{Backend B} (w : dworld B) (me conv : uuid) (limit : Z) (fuel : nat) :
  faults (ddb w) = [] -> member conv me (store (ddb w)) ->
  (forall m y, dmMsgs (store (ddb w)) !! m = Some y -> is_Some (dmUsers (store (ddb w)) !! mgSender y)) ->
  0 < limit -> (length (thread conv (store (ddb w))) < fuel)%nat ->
  run dm_handler (pages fuel me conv limit None) w =
    run dm_handler (Messaging.ListMessages me conv (Z.of_nat (length (thread conv (store (ddb w))))) 0) w /\
  exists l, run dm_handler (pages fuel me conv limit None) w = (Ok l, w) /\ map mID l = map fst (thread conv (store (ddb w))).
Proof.
  intros Hf Hm Hk Hl Hfuel. destruct fuel as [|fuel]; [lia|].
  assert (Hrun : run dm_handler (pages (S fuel) me conv limit None) w =
    (Ok (map (view (store (ddb w))) (omap (msg_row (store (ddb w))) (thread conv (store (ddb w))))), w)).
  { cbn [pages]. apply page_then with (l1 := []); [done..|by apply run_first|].
    intros l x l' Ht Hlen. apply run_pages with (l1 := l); done || lia. }
  rewrite Hrun. split.
  - rewrite run_first by done. by rewrite Nat2Z.id, firstn_all.
  - eexists. split; [done|]. apply shown_ids. by apply rows_known with (conv := conv).
Qed.

(** C28. A block cuts both ways. Once a block was put down, and as long as it stands
    and the store answers, neither of the two accounts can open a conversation
    of either type with the other, write in one they have, plaintext or
    encrypted, list the other's devices or take any of its keys; every attempt
    is refused and changes nothing. *)
Theorem block_cuts_both_ways {B} `{Backend B} (a b me other : uuid) (ms : MService) (es : EService) (w0 w : dworld B) :
  run dm_handler (Block a b) w0 = (None, w) -> (me = a /\ other = b \/ me = b /\ other = a) ->
  faults (ddb w) = [] -> dm_ok (store (ddb w)) -> is_Some (dmUsers (store (ddb w)) !! other) -> ms_blocker ms = true -> es_blocker es = true ->
  run dm_handler (Messaging.StartConversation ms me other) w = (Err MErrBlocked, w) /\
  run dm_handler (StartConversation es me other) w = (Err EErrBlocked, w) /\
  (forall conv, member conv me (store (ddb w)) -> member conv other (store (ddb w)) ->
     (forall sha body ids, run dm_handler (SendMessage ms sha me conv body ids) w = (Err MErrBlocked, w)) /\
     (conv_type conv true (store (ddb w)) -> forall device envs expires, run dm_handler (Send es me conv device envs expires) w = (Err EErrBlocked, w))) /\
  (exists e, e ∈ [EErrBlocked; EErrNotAuthorized] /\ run dm_handler (ClaimKeys es me other) w = (Err e, w)) /\
  (exists e, e ∈ [EErrBlocked; EErrNotAuthorized] /\ run dm_handler (ListUserDevices es me other) w = (Err e, w)).
Proof.
  intros Hblock Hpair Hf Hok Hu Hm He. destruct (run_Block a b w0 w Hblock) as [Hne Hab].
  assert (Hw : me <> other /\ (is_Some (dmBlocks (store (ddb w)) !! (me, other)) \/ is_Some (dmBlocks (store (ddb w)) !! (other, me)))) by naive_solver.
  destruct Hw as [Hmo Hb]. destruct (blocked_starts w me other ms es Hf Hmo (conj Hm He) Hb Hu). destruct (blocked_directory w me other ms es Hf Hok Hmo (conj Hm He) Hb).
  split_and!; try done. intros conv. by apply blocked_sends.
Qed.

(** C26. An encrypted message arrives as it was sent. Once a send reports success,
    whatever calls failed on the way, the account that owns the recipient's
    device finds each envelope in the conversation byte for byte, with its type
    and its sender, at any time before the expiry announced and at none after;
    and nobody is shown an envelope for a device of somebody else. *)
Theorem envelopes_arrive_as_sent {B} `{Backend B} s me conv device envs expiresIn (w w' : dworld B) res :
  run dm_handler (Send s me conv device envs expiresIn) w = (Ok res, w') ->
  srExpires res = (fun n => dmNow (store (ddb w)) + n * Second) <$> expiresIn /\
  forall e t limit, e ∈ envs -> Z.of_nat (size (dmEnvs (store (ddb w')))) <= limit ->
  exists v id at_ rows,
    dmDevices (store (ddb w')) !! enRecipient e = Some v /\
    run dm_handler (ListMessages (edUser v) conv limit 0) (asked_at t w') = (Ok rows, asked_at t w') /\
    (mkEnvRow id (mkEnv conv device (enRecipient e) (enType e) (enCipher e) at_ (srExpires res)) me ∈ rows <->
       match srExpires res with Some x => t < x | None => True end) /\
    Forall (fun r => exists v', dmDevices (store (ddb w')) !! evTo (erEnv r) = Some v' /\ edUser v' = edUser v) rows.
Proof.
  intros Hrun. destruct (run_Send s me conv device envs expiresIn w res w' Hrun) as [[Hc (x & Hx & Hme) Henvs] Hexp]. split; [exact Hexp|].
  intros e t limit He Hlim. destruct (Henvs e He) as [(v & Hv & Hm) (id & at_ & Hid)]. unfold dmdb in *.
  eexists v, id, at_, _. split; [done|]. split; [by apply (run_list_encrypted _ _ _ true)|].
  set (d' := store (ddb (asked_at t w'))). unfold paged. cbn -[d']. rewrite drop_0, take_ge by (pose proof (mailbox_short (edUser v) conv d'); cbn in *; lia).
  split.
  - rewrite list_elem_of_omap. split.
    + intros ([j y] & Hin & Hr). apply mailbox_spec in Hin as (_ & _ & Hex). unfold env_row in Hr. apply fmap_Some in Hr as (z & _ & [= -> <- _]).
      unfold expired in Hex. cbn in Hex. destruct (srExpires res); [|done]. by bools.
    + intros Ht. exists (id, stored conv device (srExpires res) e at_). split; [|unfold env_row; cbn; by rewrite Hx, <- Hme].
      apply mailbox_spec. split; [exact Hid|]. split; [apply addressed_spec; split; [done|by exists v]|].
      unfold expired. cbn. destruct (srExpires res); [|done]. by apply Z.leb_gt.
  - apply Forall_forall. intros r ([j y] & Hin & Hr)%list_elem_of_omap. apply mailbox_spec in Hin as (_ & [_ Hto]%addressed_spec & _).
    unfold env_row in Hr. apply fmap_Some in Hr as (z & _ & ->). exact Hto.
Qed.

(** ** Scenarios *)

Module Letters.

Definition msg (who body : string) (at_ : time) : Msg := mkMsg "c" who body at_ None None.

(** Three messages, two of them of the same moment. *)
Definition db : DMDB :=
  mkDM (dmUsers Talk.empty) ∅ ∅ ∅ {["c"%string := mkConv (Some (dmKey Talk.alice Talk.bob)) false 0 0]}
    {[("c"%string, Talk.alice) := None; ("c"%string, Talk.bob) := None]}
    {["m1"%string := msg Talk.alice "hello" 5; "m2"%string := msg Talk.bob "hi" 5; "m3"%string := msg Talk.alice "bye" 7]}
    ∅ ∅ ∅ ∅ ∅ (100 * Second) Talk.gen 0.

(** An encrypted conversation, and a device each. *)
Definition phone (who : uuid) : EDevice := mkEDevice who "phone" "I" "S" 0 0.

Definition secret : DMDB :=
  mkDM (dmUsers Talk.empty) ∅ ∅ ∅ {["c"%string := mkConv (Some (e2eeKey Talk.alice Talk.bob)) true 0 0]}
    {[("c"%string, Talk.alice) := None; ("c"%string, Talk.bob) := None]} ∅ ∅ ∅
    {["a1"%string := phone Talk.alice; "b1"%string := phone Talk.bob]} ∅ ∅ (100 * Second) Talk.gen 0.

Definition note : Envelope := mkEnvelope "b1" 1 "c2VjcmV0".

Definition sending : prog dmE (result eerr SendResult) := Send (mkEService true) Talk.alice "c" "a1" [note] (Some 60).

(** Bob blocks Alice, with whom he has conversations. *)
Definition blocking (dm : DMDB) : option berr * dworld LocalFS := run dm_handler (Block Talk.bob Talk.alice) (Talk.world [] dm).

Lemma blocking_answers dm : (blocking dm).1 = None -> run dm_handler (Block Talk.bob Talk.alice) (Talk.world [] dm) = (None, (blocking dm).2).
Proof. apply run_answer. Qed.

Lemma blocking_ok dm : dm_ok dm -> faults (ddb (blocking dm).2) = [] /\ dm_ok (store (ddb (blocking dm).2)) /\ dmUsers (store (ddb (blocking dm).2)) = dmUsers dm.
Proof.
  intros Hok. unfold blocking, Block. rewrite bool_decide_eq_false_2 by done. cbn -[q_BlockUser]. split_and!; [done|by apply ok_BlockUser|].
  unfold q_BlockUser. repeat case_match; done.
Qed.

End Letters.

Lemma pages_are_the_conversation_witness :
  map fst (thread "c" Letters.db) = ["m3"; "m2"; "m1"]%string /\
  run dm_handler (pages 4 Talk.bob "c" 2 None) (Talk.world [] Letters.db) = run dm_handler (Messaging.ListMessages Talk.bob "c" 3 0) (Talk.world [] Letters.db).
Proof.
  split; [vm_compute; reflexivity|].
  refine (proj1 (pages_are_the_conversation (Talk.world [] Letters.db) Talk.bob "c" 2 4 eq_refl _ _ _ _)).
  - by exists None.
  - apply (bool_decide_eq_true_1 (map_Forall (fun _ y => is_Some (dmUsers Letters.db !! mgSender y)) (dmMsgs Letters.db))). vm_compute. reflexivity.
  - lia.
  - vm_compute. lia.
Defined.

#[local] Opaque Talk.settled Letters.blocking.

Lemma block_cuts_both_ways_witness :
  run dm_handler (SendMessage (mkMService true true true 100 false) Talk.sha Talk.alice "id0" "please" []) (Letters.blocking Talk.settled).2 =
    (Err MErrBlocked, (Letters.blocking Talk.settled).2).
Proof.
  destruct (Letters.blocking_ok Talk.settled Talk.settled_ok) as (Hf & Hok & Hu).
  assert (Hrun : run dm_handler (Block Talk.bob Talk.alice) (Talk.world [] Talk.settled) = (None, (Letters.blocking Talk.settled).2)).
  { apply Letters.blocking_answers. vm_compute. reflexivity. }
  assert (Hknown : is_Some (dmUsers (store (ddb (Letters.blocking Talk.settled).2)) !! Talk.bob)).
  { rewrite Hu. apply (bool_decide_eq_true_1 (is_Some _)). vm_compute. reflexivity. }
  assert (Hmembers : member "id0" Talk.alice (store (ddb (Letters.blocking Talk.settled).2)) /\ member "id0" Talk.bob (store (ddb (Letters.blocking Talk.settled).2))).
  { split; apply (bool_decide_eq_true_1 (is_Some _)); vm_compute; reflexivity. }
  generalize dependent (Letters.blocking Talk.settled).2. intros w Hf Hok Hu Hrun Hknown [Hme Ho].
  refine (proj1 (proj1 (proj2 (proj2 (block_cuts_both_ways Talk.bob Talk.alice Talk.alice Talk.bob (mkMService true true true 100 false) (mkEService true)
    (Talk.world [] Talk.settled) w Hrun (or_intror (conj eq_refl eq_refl)) Hf Hok Hknown eq_refl eq_refl))) "id0"%string Hme Ho) Talk.sha "please"%string []).
Defined.

Lemma envelopes_arrive_as_sent_witness :
  match run dm_handler Letters.sending (Talk.world [] Letters.secret) with
  | (Ok res, w') => srExpires res = Some (160 * Second) /\
      exists v id at_ rows, dmDevices (store (ddb w')) !! enRecipient Letters.note = Some v /\
        run dm_handler (ListMessages (edUser v) "c" 10 0) (asked_at (159 * Second) w') = (Ok rows, asked_at (159 * Second) w') /\
        mkEnvRow id (mkEnv "c" "a1" "b1" 1 "c2VjcmV0" at_ (srExpires res)) Talk.alice ∈ rows
  | _ => False
  end.
Proof.
  assert (Hsize : (Z.of_nat (size (dmEnvs (store (ddb (run dm_handler Letters.sending (Talk.world [] Letters.secret)).2)))) <=? 10) = true)
    by (vm_compute; reflexivity).
  destruct (run dm_handler Letters.sending (Talk.world [] Letters.secret)) as [[res|] w'] eqn:Hrun; [|vm_compute in Hrun; discriminate Hrun].
  destruct (envelopes_arrive_as_sent (mkEService true) Talk.alice "c" "a1" [Letters.note] (Some 60) (Talk.world [] Letters.secret) w' res Hrun) as [Hexp Hall].
  split; [exact Hexp|]. apply Z.leb_le in Hsize. destruct (Hall Letters.note (159 * Second) 10 (list_elem_of_here _ _) Hsize) as (v & id & at_ & rows & Hv & Hrows & Hin & _).
  exists v, id, at_, rows. split; [exact Hv|]. split; [exact Hrows|]. apply Hin. rewrite Hexp. vm_compute. reflexivity.
Defined.

(** ** Executions *)

Module Slips.

Definition ms : MService := mkMService true true true 100 false.

(** Bob has blocked Alice. *)
Definition blocked : DMDB := set_blocks <[(Talk.bob, Talk.alice) := 0]> Letters.db.

Definition sends : prog dmE (result merr Message) := SendMessage ms Talk.sha Talk.alice "c" "again" [].

(** Alice's upload "a9" waits for a message. *)
Definition with_upload : DMDB :=
  set_atts <["a9"%string := mkAtt "c" Talk.alice None "image" "image/png" "x.png" 3 "dm-attachments/c/a9.png" 0 None None]> Letters.db.

Definition services : MService * EService * bool := (ms, mkEService true, true).

Definition pool : list (prog dmE (list (uuid * string))) :=
  map Talk.perform [(services, RSend Talk.alice "c" (mkSendRequest "look" ["a9"%string] [] EmptyString None)); (services, RDelete Talk.alice "id0")].

Definition upload : prog dmE (result merr Attachment) :=
  UploadAttachment ms (fun _ => ["png"%string]) (fun _ => None) Talk.alice "c"
    (mkAttachmentInput "x.png" "image/png" 3 (Reader [[Byte.x01; Byte.x02; Byte.x03]] None false)).

End Slips.

(** The block is enforced only if the other participant could be read: when that
    one query fails, the send goes through. *)
Lemma block_gate_fails_open :
  (run dm_handler Slips.sends (Talk.world [] Slips.blocked)).1 = Err MErrBlocked /\
  exists x, (run dm_handler Slips.sends (Talk.world [Fine; FailBefore] Slips.blocked)).1 = Ok x.
Proof. split; [vm_compute; reflexivity|eexists; vm_compute; reflexivity]. Qed.

(** A deletion that runs between the creation of a message and the linking of
    its attachments leaves a tombstone with an attachment that can still be
    downloaded. *)
Lemma tombstone_keeps_attachment :
  let w := (schedule dm_handler [0; 0; 0; 0; 0; 0; 1; 1; 1; 1; 0; 0; 0]%nat Slips.pool (Talk.world [] Slips.with_upload)).2 in
  mgBody <$> dmMsgs (store (ddb w)) !! "id0"%string = Some "[deleted]"%string /\
  atMessage <$> dmAtts (store (ddb w)) !! "a9"%string = Some (Some "id0"%string) /\
  exists x, (run dm_handler (AttachmentForDownload Slips.ms Talk.bob "a9") w).1 = Ok x.
Proof. split_and!; try (eexists; vm_compute; reflexivity); vm_compute; reflexivity. Qed.

(** An upload whose row was stored though the answer was lost is reported as
    failed and its bytes are removed, but the row can still be sent. *)
Lemma upload_row_without_bytes :
  let out := run dm_handler Slips.upload (Talk.world [Fine; FailAfter] Letters.db) in
  out.1 = Err (MErrDB ErrStore) /\ atKey <$> dmAtts (store (ddb out.2)) !! "id0"%string = Some "dm-attachments/c/id0.png"%string /\
  files (tree (dblobs out.2)) = ∅ /\
  exists x, (run dm_handler (SendMessage Slips.ms Talk.sha Talk.alice "c" "look" ["id0"%string]) out.2).1 = Ok x.
Proof. split_and!; try (eexists; vm_compute; reflexivity); vm_compute; reflexivity. Qed.
