(* ===== verification/LeaderLock.v ===== *)
(** * Leader election (src/internal/leaderlock)

    One instance runs the singleton sweeps: the one holding a session-scoped
    PostgreSQL advisory lock on a connection it keeps. The server's side is
    what PostgreSQL documents of sessions and advisory locks: a lock is held by
    a session, can be taken again by it, and goes when the session ends. *)
From S2P Require Import Prelude Interleave.
Local Open Scope Z_scope.

(** ** The code *)

Definition SingletonCronClass : Z := 1986618482.
Definition SingletonCronsKey : Z := 1.
Definition DefaultRetryInterval : Z := 15 * Second.

(** The mutable fields of an [Elector]. *)
Record Elector := mkElector { leader : bool; conn : option nat }.

Definition follower : Elector := mkElector false None.

(** What an elector calls, for instance [i] and connection [c]: its pool, the
    two lock functions, and its own fields under their mutex. An error is
    [None]. *)
Inductive lockE : Type -> Type :=
| PoolAcquire (i : nat) : lockE (option nat)
| TryAdvisoryLock (c : nat) : lockE (option bool)
| AdvisoryUnlock (c : nat) : lockE (option bool)
| Ping (c : nat) : lockE bool
| CloseConn (c : nat) : lockE unit
| ReleaseConn (i c : nat) : lockE unit
| GetElector (i : nat) : lockE Elector
| SwapElector (i : nat) (e : Elector) : lockE Elector.

Abbreviation M A := (prog lockE A) (only parsing).

(** [Elector.IsLeader]; a nil elector always leads. *)
Definition IsLeader (e : option nat) : M bool :=
  match e with None => mret true | Some i => x ← call (GetElector i); mret (leader x) end.

(** [Elector.tryAcquire] *)
Definition tryAcquire (i : nat) : M unit :=
  r ← call (PoolAcquire i);
  match r with
  | None => mret tt
  | Some c =>
      got ← call (TryAdvisoryLock c);
      match got with
      | None => call (ReleaseConn i c)
      | Some false => call (ReleaseConn i c)
      | Some true => _ ← call (SwapElector i (mkElector true (Some c))); mret tt
      end
  end.

(** [Elector.stepDown] *)
Definition stepDown (i : nat) : M unit :=
  old ← call (SwapElector i follower);
  match conn old with
  | None => mret tt
  | Some c => _ ← call (CloseConn c); call (ReleaseConn i c)
  end.

(** [Elector.verify] *)
Definition verify (i : nat) : M unit :=
  e ← call (GetElector i);
  match conn e with
  | None => mret tt
  | Some c => ok ← call (Ping c); (if ok : bool then mret tt else stepDown i)
  end.

(** [Elector.step] *)
Definition step (i : nat) : M unit := l ← IsLeader (Some i); if l : bool then verify i else tryAcquire i.

(** [Elector.release] *)
Definition release (i : nat) : M unit :=
  old ← call (SwapElector i follower);
  match conn old with
  | None => mret tt
  | Some c =>
      _ ← (if leader old then _ ← call (AdvisoryUnlock c); mret tt else mret tt);
      call (ReleaseConn i c)
  end.

(** The ticks until the context ends, then the deferred release. *)
Fixpoint ticks (i n : nat) : M unit :=
  match n with O => release i | S n => _ ← step i; ticks i n end.

(** [Elector.Run] over [n] ticks; [wired]: there is a pool. *)
Definition Run (wired : bool) (i n : nat) : M unit :=
  if negb wired then mret tt else _ ← step i; ticks i n.

(** ** The server and the pools *)

(** Sessions are numbered in the order they were opened; [lk_owners] says by
    which instance. [lk_live]: those the server has not ended. [lk_holder]: the
    session holding the lock, and how often it took it. [lk_broken]: the
    connections their client gave up. [lk_idle]: each instance's pool. *)
Record lockw := mkLock {
  lk_owners : list nat;
  lk_live : gset nat;
  lk_holder : option (nat * nat);
  lk_broken : gset nat;
  lk_idle : gmap nat (list nat);
  lk_elector : gmap nat Elector;
  lk_faults : list fault;
}.

Definition idle (i : nat) (w : lockw) : list nat := default [] (lk_idle w !! i).
Definition elector (i : nat) (w : lockw) : Elector := default follower (lk_elector w !! i).

Definition with_server (live : gset nat) (holder : option (nat * nat)) (w : lockw) : lockw :=
  mkLock (lk_owners w) live holder (lk_broken w) (lk_idle w) (lk_elector w) (lk_faults w).
Definition break (c : nat) (w : lockw) : lockw :=
  mkLock (lk_owners w) (lk_live w) (lk_holder w) ({[c]} ∪ lk_broken w) (lk_idle w) (lk_elector w) (lk_faults w).
Definition set_idle (i : nat) (l : list nat) (w : lockw) : lockw :=
  mkLock (lk_owners w) (lk_live w) (lk_holder w) (lk_broken w) (<[i := l]> (lk_idle w)) (lk_elector w) (lk_faults w).
Definition set_elector (i : nat) (e : Elector) (w : lockw) : lockw :=
  mkLock (lk_owners w) (lk_live w) (lk_holder w) (lk_broken w) (lk_idle w) (<[i := e]> (lk_elector w)) (lk_faults w).
Definition spend_fault (w : lockw) : lockw :=
  mkLock (lk_owners w) (lk_live w) (lk_holder w) (lk_broken w) (lk_idle w) (lk_elector w) (tail (lk_faults w)).

(** A new connection. *)
Definition connect (i : nat) (w : lockw) : nat * lockw :=
  let c := length (lk_owners w) in
  (c, mkLock (lk_owners w ++ [i]) ({[c]} ∪ lk_live w) (lk_holder w) (lk_broken w) (lk_idle w) (lk_elector w) (lk_faults w)).

(** A statement on a connection. It fails when the session is gone or the
    answer is lost, which breaks the connection; or it is refused, without an
    effect. *)
Definition on_conn {A} (c : nat) (q : lockw -> A * lockw) (w : lockw) : option A * lockw :=
  let w' := spend_fault w in
  if bool_decide (c ∈ lk_broken w) || negb (bool_decide (c ∈ lk_live w)) then (None, break c w') else
  match head (lk_faults w) with
  | None | Some Fine => (Some (q w').1, (q w').2)
  | Some FailBefore => (None, w')
  | Some FailAfter => (None, break c (q w').2)
  end.

(** pg_try_advisory_lock *)
Definition pg_try_lock (c : nat) (w : lockw) : bool * lockw :=
  match lk_holder w with
  | None => (true, with_server (lk_live w) (Some (c, 1%nat)) w)
  | Some (h, n) => if bool_decide (h = c) then (true, with_server (lk_live w) (Some (h, S n)) w) else (false, w)
  end.

(** pg_advisory_unlock *)
Definition pg_unlock (c : nat) (w : lockw) : bool * lockw :=
  match lk_holder w with
  | Some (h, n) =>
      if bool_decide (h = c)
      then (true, with_server (lk_live w) (match n with S (S m) => Some (h, S m) | _ => None end) w)
      else (false, w)
  | None => (false, w)
  end.

Definition lock_handler : handler lockE lockw := fun X e w =>
  match e in lockE X return X * lockw with
  | PoolAcquire i =>
      match head (lk_faults w) with
      | Some FailBefore | Some FailAfter => (None, spend_fault w)
      | _ => match idle i w with
             | c :: l => (Some c, set_idle i l (spend_fault w))
             | [] => (Some (connect i (spend_fault w)).1, (connect i (spend_fault w)).2)
             end
      end
  | TryAdvisoryLock c => on_conn c (pg_try_lock c) w
  | AdvisoryUnlock c => on_conn c (pg_unlock c) w
  | Ping c => (match (on_conn c (fun w => (tt, w)) w).1 with Some _ => true | None => false end, (on_conn c (fun w => (tt, w)) w).2)
  | CloseConn c => (tt, break c w)
  | ReleaseConn i c => (tt, if bool_decide (c ∈ lk_broken w) then w else set_idle i (c :: idle i w) w)
  | GetElector i => (elector i w, w)
  | SwapElector i e => (elector i w, set_elector i e w)
  end.

(** Sessions end: the process died, the network broke, the server noticed. The
    lock goes with its session. *)
Inductive session_ends : lockw -> lockw -> Prop :=
| ends c w : session_ends w
    (with_server (lk_live w ∖ {[c]}) (match lk_holder w with Some (h, n) => if bool_decide (h = c) then None else Some (h, n) | None => None end) w).

(** ** Who leads *)

(** A leader keeps a connection of its own whose session, as long as the server
    has it, holds the lock. *)
Record lock_ok (w : lockw) : Prop := {
  lo_conn : forall i c, conn (elector i w) = Some c ->
    lk_owners w !! c = Some i /\ (c ∈ lk_live w -> exists n, lk_holder w = Some (c, n));
  lo_leader : forall i, leader (elector i w) = bool_decide (is_Some (conn (elector i w)));
  lo_idle : forall i c, c ∈ idle i w -> lk_owners w !! c = Some i;
  lo_live : forall c, c ∈ lk_live w -> is_Some (lk_owners w !! c);
}.

(** What the others leave alone: an instance's fields, and a lock held by one of
    its live sessions. *)
Definition spares (i : nat) (w w' : lockw) : Prop :=
  lk_owners w `prefix_of` lk_owners w' /\ elector i w' = elector i w /\
  forall c, lk_owners w !! c = Some i -> c ∈ lk_live w' -> c ∈ lk_live w /\ forall n, lk_holder w = Some (c, n) -> lk_holder w' = Some (c, n).

Definition spares_others (i : nat) (w w' : lockw) : Prop := forall j, j <> i -> spares j w w'.

(** The fields that matter, unchanged. *)
Lemma spares_same i w w' :
  lk_owners w' = lk_owners w -> lk_live w' = lk_live w -> lk_holder w' = lk_holder w -> elector i w' = elector i w -> spares i w w'.
Proof. intros Ho Hl Hh He. split; [by rewrite Ho|]. split; [done|]. intros c _. by rewrite Hl, Hh. Qed.

Lemma lock_ok_same w w' :
  lk_owners w' = lk_owners w -> lk_live w' = lk_live w -> lk_holder w' = lk_holder w -> (forall i, elector i w' = elector i w) ->
  (forall i c, c ∈ idle i w' -> c ∈ idle i w \/ lk_owners w !! c = Some i) -> lock_ok w -> lock_ok w'.
Proof.
  intros Ho Hl Hh He Hi [H1 H2 H3 H4]. split.
  - intros i c. rewrite He, Ho, Hl, Hh. apply H1.
  - intros i. by rewrite He.
  - intros i c [Hc|Hc]%Hi; rewrite Ho; [by apply H3|done].
  - intros c. rewrite Ho, Hl. apply H4.
Qed.

Lemma elector_set i j e w : elector j (set_elector i e w) = if decide (i = j) then e else elector j w.
Proof. unfold elector. cbn. case_decide as Hij; [subst; by rewrite lookup_insert_eq|by rewrite lookup_insert_ne]. Qed.

Lemma idle_set i j l w : idle j (set_idle i l w) = if decide (i = j) then l else idle j w.
Proof. unfold idle. cbn. case_decide as Hij; [subst; by rewrite lookup_insert_eq|by rewrite lookup_insert_ne]. Qed.

#[global] Instance spares_po i : PreOrder (spares i).
Proof.
  split; [intros w; by apply spares_same|]. intros x y z (P1 & E1 & H1) (P2 & E2 & H2). split; [by etransitivity|]. split; [congruence|].
  intros c Hc Hz. destruct (H2 c) as [Hy Hh2]; [by eapply prefix_lookup_Some|done|]. destruct (H1 c Hc Hy) as [Hx Hh1]. split; [done|]. auto.
Qed.

(** *** The operations *)

(** Allowed to instance [i]. *)
Definition fair (i : nat) (w w' : lockw) : Prop := (lock_ok w -> lock_ok w') /\ spares_others i w w'.

#[global] Instance fair_po i : PreOrder (fair i).
Proof.
  split; [intros w; split; [done|intros j _; reflexivity]|]. intros x y z [F1 S1] [F2 S2]. split; [auto|]. intros j Hj. etransitivity; [by apply S1|by apply S2].
Qed.

Lemma fair_same i w w' :
  lk_owners w' = lk_owners w -> lk_live w' = lk_live w -> lk_holder w' = lk_holder w -> lk_elector w' = lk_elector w -> lk_idle w' = lk_idle w -> fair i w w'.
Proof.
  intros Ho Hl Hh He Hi. assert (forall j, elector j w' = elector j w) by (intros j; unfold elector; by rewrite He). split.
  - apply lock_ok_same; try done. intros j c. unfold idle. rewrite Hi. by left.
  - intros j _. by apply spares_same.
Qed.

Lemma fair_break i c w : fair i w (break c w).
Proof. by apply fair_same. Qed.
Lemma fair_spend i w : fair i w (spend_fault w).
Proof. by apply fair_same. Qed.

(** A statement on a connection. *)
Lemma fair_on_conn i {A} c (q : lockw -> A * lockw) w :
  (c ∈ lk_live w -> fair i (spend_fault w) (q (spend_fault w)).2) -> fair i w (on_conn c q w).2.
Proof.
  intros Hq. unfold on_conn. destruct (bool_decide (c ∈ lk_broken w)); [cbn; etransitivity; [apply fair_spend|apply fair_break]|].
  case_bool_decide as Hl; cbn; [|etransitivity; [apply fair_spend|apply fair_break]]. specialize (Hq Hl).
  destruct (head (lk_faults w)) as [[]|]; cbn; [..|by etransitivity; [apply fair_spend|]].
  - by etransitivity; [apply fair_spend|].
  - apply fair_spend.
  - etransitivity; [apply fair_spend|]. etransitivity; [exact Hq|apply fair_break].
Qed.

Lemma fair_connect i w : fair i w (connect i w).2.
Proof.
  assert (Hlen : lk_owners w !! length (lk_owners w) = None) by (apply lookup_ge_None; lia). split.
  - intros [H1 H2 H3 H4]. split; cbn.
    + intros j c Hc. destruct (H1 j c Hc) as [Ho Hh]. split; [by apply lookup_app_l_Some|]. intros [->%elem_of_singleton|Hl]%elem_of_union; [congruence|auto].
    + exact H2.
    + intros j c Hc. apply lookup_app_l_Some. by apply H3.
    + intros c [->%elem_of_singleton|Hl]%elem_of_union; [rewrite list_lookup_middle by done; by eexists|]. destruct (H4 c Hl) as [o Ho]. exists o. by apply lookup_app_l_Some.
  - intros j _. split; [by eexists|]. split; [done|]. cbn. intros c Hc [->%elem_of_singleton|Hl]%elem_of_union; [congruence|by split].
Qed.

Lemma fair_idle i l w : (forall c, c ∈ l -> lk_owners w !! c = Some i) -> fair i w (set_idle i l w).
Proof.
  intros Hl. split; [|intros j _; by apply spares_same]. apply lock_ok_same; try done. intros j c. rewrite idle_set. case_decide; [|by left].
  subst. intros Hc. right. by apply Hl.
Qed.

Lemma fair_try i c w : lk_owners w !! c = Some i -> c ∈ lk_live w -> fair i w (pg_try_lock c w).2.
Proof.
  intros Hc Hlive. unfold pg_try_lock. split.
  - intros Hok. destruct (lk_holder w) as [[h n]|] eqn:Hh; [case_bool_decide as Hd; [|exact Hok]|]; destruct Hok as [H1 H2 H3 H4]; split; cbn; try done;
      intros j x Hx; destruct (H1 j x Hx) as [Ho Hw]; (split; [done|]); intros Hl; destruct (Hw Hl) as [m Hm]; [|congruence].
    exists (S n). congruence.
  - intros j Hj. destruct (lk_holder w) as [[h n]|] eqn:Hh; [case_bool_decide as Hd; [|reflexivity]|].
    + split; [done|]. split; [done|]. cbn. intros x Hx Hl. split; [done|]. intros m Hm. rewrite Hm in Hh. injection Hh as -> ->. congruence.
    + split; [done|]. split; [done|]. cbn. intros x Hx Hl. split; [done|]. intros m Hm. congruence.
Qed.

Lemma fair_unlock i c w : lk_owners w !! c = Some i -> conn (elector i w) <> Some c -> fair i w (pg_unlock c w).2.
Proof.
  intros Hc Hf. unfold pg_unlock. destruct (lk_holder w) as [[h n]|] eqn:Hh; [|reflexivity]. case_bool_decide as Hd; [|reflexivity]. subst h. split.
  - intros [H1 H2 H3 H4]. split; cbn; try done. intros j x Hx. destruct (H1 j x Hx) as [Ho Hw]. split; [done|]. intros Hl. destruct (Hw Hl) as [m Hm].
    rewrite Hh in Hm. injection Hm as -> ->. rewrite Hc in Ho. injection Ho as ->. by destruct Hf.
  - intros j Hj. split; [done|]. split; [done|]. cbn. intros x Hx Hl. split; [done|]. intros m Hm. rewrite Hh in Hm. injection Hm as -> ->. congruence.
Qed.

Lemma fair_follow i w : fair i w (set_elector i follower w).
Proof.
  split.
  - intros [H1 H2 H3 H4]. split; try done.
    + intros j c. rewrite elector_set. case_decide; [done|]. apply H1.
    + intros j. rewrite elector_set. case_decide; [done|]. apply H2.
  - intros j Hj. apply spares_same; try done. rewrite elector_set. by case_decide.
Qed.

Lemma fair_lead i c w :
  lk_owners w !! c = Some i -> (c ∈ lk_live w -> exists n, lk_holder w = Some (c, n)) -> fair i w (set_elector i (mkElector true (Some c)) w).
Proof.
  intros Hc Hh. split.
  - intros [H1 H2 H3 H4]. split; try done.
    + intros j x. rewrite elector_set. case_decide; [subst; by intros [= <-]|]. apply H1.
    + intros j. rewrite elector_set. case_decide; [|apply H2]. symmetry. by apply bool_decide_eq_true_2.
  - intros j Hj. apply spares_same; try done. rewrite elector_set. by case_decide.
Qed.

Lemma ends_fair w w' : session_ends w w' -> lock_ok w -> lock_ok w' /\ forall j, spares j w w'.
Proof.
  intros [c ?] [H1 H2 H3 H4]. split.
  - split; cbn; try done.
    + intros j x Hx. destruct (H1 j x Hx) as [Ho Hw]. split; [done|]. intros [Hl Hne]%elem_of_difference. destruct (Hw Hl) as [m ->].
      rewrite bool_decide_eq_false_2 by set_solver. by exists m.
    + intros x [Hl _]%elem_of_difference. by apply H4.
  - intros j. split; [done|]. split; [done|]. cbn. intros x Hx [Hl Hne]%elem_of_difference. split; [done|]. intros n ->.
    by rewrite bool_decide_eq_false_2 by set_solver.
Qed.

(** *** The programs *)

Section Instance.
Context (i : nat).

Abbreviation instance K p Q := (proves lock_handler lock_ok (spares i) (spares_others i) K p Q).

Definition owns (c : nat) (w : lockw) : Prop := lk_owners w !! c = Some i.
Definition fields (e : Elector) (w : lockw) : Prop := elector i w = e.
Definition locked (c : nat) (w : lockw) : Prop := owns c w /\ (c ∈ lk_live w -> exists n, lk_holder w = Some (c, n)).

Lemma stable_owns c : stable lock_ok (spares i) (owns c).
Proof. intros w w' _ _ (Hp & _ & _) Hc. exact (prefix_lookup_Some _ _ _ _ Hc Hp). Qed.

Lemma stable_fields e : stable lock_ok (spares i) (fields e).
Proof. intros w w' _ _ (_ & He & _). unfold fields. by rewrite He. Qed.

Lemma stable_locked c : stable lock_ok (spares i) (locked c).
Proof.
  intros w w' Hw Hw' Hs [Ho Hh]. split; [exact (stable_owns c w w' Hw Hw' Hs Ho)|]. intros Hl. destruct Hs as (_ & _ & Hs). destruct (Hs c Ho Hl) as [Hl' Hk].
  destruct (Hh Hl') as [n Hn]. exists n. auto.
Qed.

Lemma stable_and (K K' : lockw -> Prop) : stable lock_ok (spares i) K -> stable lock_ok (spares i) K' -> stable lock_ok (spares i) (fun w => K w /\ K' w).
Proof. intros H1 H2 w w' Hw Hw' Hs [Hk Hk']. split; [exact (H1 w w' Hw Hw' Hs Hk)|exact (H2 w w' Hw Hw' Hs Hk')]. Qed.

Lemma stable_top : stable lock_ok (spares i) (fun _ => True).
Proof. done. Qed.

(** An operation that is fair, and what it tells. *)
Lemma fair_call {X} K (e : lockE X) (Q : X -> lockw -> Prop) :
  (forall x, stable lock_ok (spares i) (Q x)) ->
  (forall w, lock_ok w -> K w -> fair i w (lock_handler X e w).2 /\ Q (lock_handler X e w).1 (lock_handler X e w).2) -> instance K (call e) Q.
Proof. intros HQ He. apply proves_call; [done|]. intros w Hw HK. destruct (He w Hw HK) as [[Hok Hsp] Hq]. auto. Qed.

Lemma keeps_Release K c : (forall w, K w -> owns c w) -> instance K (call (ReleaseConn i c)) (fun _ _ => True).
Proof.
  intros HK. apply fair_call; [intros _; apply stable_top|]. intros w Hw Hk. split; [|done]. cbn. case_bool_decide; [reflexivity|].
  apply fair_idle. intros x [->|Hx]%elem_of_cons; [by apply HK|by apply (lo_idle _ Hw)].
Qed.

Lemma keeps_tryAcquire : instance (fields follower) (tryAcquire i) (fun _ _ => True).
Proof.
  unfold tryAcquire. eapply (proves_bind _ _ _ _ _ _ (fun r w => match r with Some c => owns c w | None => True end)).
  - apply fair_call; [intros [c|]; [apply stable_owns|apply stable_top]|]. intros w Hw _. cbn.
    assert (Hgo : fair i w (match idle i w with c :: l => (Some c, set_idle i l (spend_fault w)) | [] => (Some (connect i (spend_fault w)).1, (connect i (spend_fault w)).2) end).2 /\
      match (match idle i w with c :: l => (Some c, set_idle i l (spend_fault w)) | [] => (Some (connect i (spend_fault w)).1, (connect i (spend_fault w)).2) end).1 with
      | Some c => owns c (match idle i w with c :: l => (Some c, set_idle i l (spend_fault w)) | [] => (Some (connect i (spend_fault w)).1, (connect i (spend_fault w)).2) end).2
      | None => True end).
    { destruct (idle i w) as [|c l] eqn:Hl; cbn.
      - split; [etransitivity; [apply fair_spend|apply fair_connect]|]. unfold owns. cbn. by apply list_lookup_middle.
      - split; [etransitivity; [apply fair_spend|apply fair_idle]; intros x Hx; cbn; apply (lo_idle _ Hw); rewrite Hl; by right|].
        apply (lo_idle _ Hw). rewrite Hl. left. }
    destruct (head (lk_faults w)) as [[]|]; cbn; try exact Hgo; split; done || apply fair_spend.
  - intros [c|]; [|by apply proves_ret]. eapply (proves_bind _ _ _ _ _ _ (fun r w => owns c w /\ match r with Some true => locked c w | _ => True end)).
    + apply fair_call; [intros r; apply stable_and; [apply stable_owns|destruct r as [[]|]; apply stable_locked || apply stable_top]|].
      intros w Hw Hc. cbn. split; [apply fair_on_conn; intros Hl; by apply fair_try|].
      assert (Htry : forall w, owns c w -> owns c (pg_try_lock c w).2) by (intros v Hv; unfold pg_try_lock; repeat case_match; done).
      unfold on_conn. case_match eqn:Hb; [done|]. destruct (head (lk_faults w)) as [[]|]; cbn; (split; [first [done|exact (Htry (spend_fault w) Hc)]|]); try exact I.
      all: unfold pg_try_lock; cbn; destruct (lk_holder w) as [[h n]|] eqn:Hh;
        [destruct (bool_decide_reflect (h = c)) as [->|]; cbn; [|done]|cbn]; (split; [done|]); intros _; by eexists.
    + intros [[]|].
      * eapply proves_bind; [|intros x; by apply proves_ret]. apply (fair_call _ _ (fun _ _ => True)); [intros _; apply stable_top|].
        intros w Hw [_ [Hc Hh]]. split; [by apply fair_lead|done].
      * apply keeps_Release. by intros w [? _].
      * apply keeps_Release. by intros w [? _].
Qed.

(** Giving the lead up leaves the connection in hand. *)
Lemma keeps_Swap K : instance K (call (SwapElector i follower))
  (fun old w => fields follower w /\ match conn old with Some c => owns c w | None => True end).
Proof.
  apply fair_call.
  - intros old. apply stable_and; [apply stable_fields|]. destruct (conn old); [apply stable_owns|apply stable_top].
  - intros w Hw _. cbn. split; [apply fair_follow|]. split; [unfold fields; rewrite elector_set; by case_decide|].
    destruct (conn (elector i w)) as [c|] eqn:Hc; [|done]. exact (proj1 (lo_conn _ Hw i c Hc)).
Qed.

Lemma keeps_stepDown K : instance K (stepDown i) (fun _ _ => True).
Proof.
  eapply proves_bind; [apply keeps_Swap|]. intros [l [c|]]; cbn [conn leader]; [|by apply proves_ret].
  eapply (proves_bind _ _ _ _ _ _ (fun _ w => owns c w)); [|intros _; by apply keeps_Release].
  apply fair_call; [intros _; apply stable_owns|]. intros w _ [_ Ho]. split; [apply fair_break|exact Ho].
Qed.

Lemma keeps_verify K : instance K (verify i) (fun _ _ => True).
Proof.
  eapply (proves_bind _ _ _ _ _ _ (fun _ _ => True)).
  - apply fair_call; [intros _; apply stable_top|]. intros w _ _. split; [reflexivity|done].
  - intros e. destruct (conn e) as [c|]; [|by apply proves_ret]. eapply (proves_bind _ _ _ _ _ _ (fun _ _ => True)).
    + apply fair_call; [intros _; apply stable_top|]. intros w _ _. split; [|done]. cbn. apply fair_on_conn. intros _. reflexivity.
    + intros []; [by apply proves_ret|apply keeps_stepDown].
Qed.

Lemma keeps_release K : instance K (release i) (fun _ _ => True).
Proof.
  eapply proves_bind; [apply keeps_Swap|]. intros [l [c|]]; cbn [conn leader]; [|by apply proves_ret].
  eapply (proves_bind _ _ _ _ _ _ (fun _ w => owns c w)); [|intros _; by apply keeps_Release].
  destruct l; [|apply proves_ret; by intros w _ []].
  eapply (proves_bind _ _ _ _ _ _ (fun _ w => owns c w)); [|intros x; by apply proves_ret].
  apply fair_call; [intros _; apply stable_owns|]. intros w _ [Hf Ho]. cbn. split.
  - apply fair_on_conn. intros _. apply fair_unlock; [exact Ho|]. change (elector i (spend_fault w)) with (elector i w). by rewrite Hf.
  - unfold on_conn. repeat case_match; cbn; try exact Ho; unfold pg_unlock; repeat case_match; exact Ho.
Qed.

Lemma keeps_step K : instance K (step i) (fun _ _ => True).
Proof.
  eapply (proves_bind _ _ _ _ _ _ (fun l w => l = false -> fields follower w)).
  - unfold IsLeader. eapply (proves_bind _ _ _ _ _ _ (fun e w => fields e w /\ (leader e = false -> e = follower))).
    + apply fair_call; [intros e; apply stable_and; [apply stable_fields|by intros w w' _ _ _]|]. intros w Hw _. cbn. split; [reflexivity|]. split; [done|].
      pose proof (lo_leader _ Hw i) as Hl. destruct (elector i w) as [[] [c|]]; done.
    + intros e. apply proves_ret. intros w _ [Hf He] Hl. by rewrite (He Hl) in Hf.
  - intros [].
    + apply keeps_verify.
    + eapply proves_pre; [|apply keeps_tryAcquire]. intros w _ Hk. by apply Hk.
Qed.

Lemma keeps_Run wired n : instance (fun _ => True) (Run wired i n) (fun _ _ => True).
Proof.
  assert (Ht : forall n K, instance K (ticks i n) (fun _ _ => True)).
  { clear. induction n as [|n IH]; intros K; [apply keeps_release|]. cbn [ticks]. eapply proves_bind; [apply keeps_step|]. intros x. apply IH. }
  unfold Run. destruct wired; cbn [negb]; [|by apply proves_ret]. eapply proves_bind; [apply keeps_step|]. intros x. apply Ht.
Qed.
End Instance.

(** ** Properties *)

(** C32. At most one leader with a live session. However many instances elect, tick,
    stand down and shut down at once, whatever calls are refused or lose their
    answers and whichever sessions end: an instance that believes it leads has a
    connection of its own, the server gives the lock to its session as long as
    that lives, and so no two such instances both have a live session. *)
Theorem one_live_leader (wired : bool) (rounds : list nat) (w w' : lockw) ps :
  lock_ok w -> rtc (pool_step lock_handler session_ends) (imap (Run wired) rounds, w) (ps, w') ->
  (forall i, leader (elector i w') = true -> exists c, conn (elector i w') = Some c /\ lk_owners w' !! c = Some i /\
     (c ∈ lk_live w' -> exists n, lk_holder w' = Some (c, n))) /\
  (forall i j c c', conn (elector i w') = Some c -> conn (elector j w') = Some c' -> c ∈ lk_live w' -> c' ∈ lk_live w' -> i = j).
Proof.
  intros Hw Hrun.
  assert (Hcast : ensemble lock_handler lock_ok spares spares_others (imap (Run wired) rounds, w)).
  { split; [done|]. intros i p Hp. cbn in Hp. rewrite list_lookup_imap in Hp. apply fmap_Some in Hp as (n & _ & ->).
    exists (fun _ => True). split; [apply stable_top|]. split; [done|]. apply keeps_Run. }
  destruct (ensemble_steps lock_handler lock_ok session_ends spares spares_others (fun i j s s' Hij Hg => Hg j (not_eq_sym Hij)) ends_fair _ _ Hrun Hcast) as [Hok _].
  cbn in Hok. split.
  - intros i Hl. rewrite (lo_leader _ Hok) in Hl. apply bool_decide_eq_true in Hl as [c Hc]. exists c. split; [done|]. exact (lo_conn _ Hok i c Hc).
  - intros i j c c' Hc Hc' Hl Hl'. destruct (lo_conn _ Hok i c Hc) as [Ho Hh], (lo_conn _ Hok j c' Hc') as [Ho' Hh'].
    destruct (Hh Hl) as [n Hn], (Hh' Hl') as [n' Hn']. rewrite Hn in Hn'. injection Hn' as <- _. congruence.
Qed.

(** ** Scenarios *)

Module Cluster.

(** Two instances start with empty pools. *)
Definition start (fs : list fault) : lockw := mkLock [] ∅ None ∅ ∅ ∅ fs.

Lemma start_ok fs : lock_ok (start fs).
Proof.
  split; cbn.
  - intros i c. unfold elector. cbn. by rewrite lookup_empty.
  - intros i. unfold elector. cbn. by rewrite lookup_empty.
  - intros i c. unfold idle. cbn. rewrite lookup_empty. by intros ?%not_elem_of_nil.
  - intros c. set_solver.
Qed.

(** The first instance is elected, the second is not. *)
Definition elected (fs : list fault) := schedule lock_handler [0; 0; 0; 0; 1; 1; 1; 1]%nat (imap (Run true) [3; 3]%nat) (start fs).

(** Its session ends unnoticed. *)
Definition severed : lockw := with_server (lk_live (elected []).2 ∖ {[0%nat]}) None (elected []).2.

End Cluster.

Lemma one_live_leader_witness :
  leader (elector 0 (Cluster.elected []).2) = true /\ leader (elector 1 (Cluster.elected []).2) = false /\
  exists c, conn (elector 0 (Cluster.elected []).2) = Some c /\ lk_owners (Cluster.elected []).2 !! c = Some 0%nat /\
    (c ∈ lk_live (Cluster.elected []).2 -> exists n, lk_holder (Cluster.elected []).2 = Some (c, n)).
Proof.
  split; [vm_compute; reflexivity|]. split; [vm_compute; reflexivity|].
  refine (proj1 (one_live_leader true [3; 3]%nat (Cluster.start []) (Cluster.elected []).2 (Cluster.elected []).1 (Cluster.start_ok []) _) 0%nat _).
  - rewrite <- surjective_pairing. apply schedule_pool.
  - vm_compute. reflexivity.
Defined.

(** Two instances both believe they lead from the moment the first one's session
    ends unnoticed and the second takes the lock until the first pings. *)
Lemma two_believers :
  session_ends (Cluster.elected []).2 Cluster.severed /\
  let w := (run lock_handler (step 1) Cluster.severed).2 in
  (run lock_handler (IsLeader (Some 0%nat)) w).1 = true /\ (run lock_handler (IsLeader (Some 1%nat)) w).1 = true /\
  (run lock_handler (IsLeader (Some 0%nat)) (run lock_handler (step 0) w).2).1 = false.
Proof. split; [apply (ends 0%nat)|]. split_and!; vm_compute; reflexivity. Qed.
