(* ===== verification/HttpSig.v ===== *)
(** * HTTP signatures (src/internal/httpsig)

    The signatures servers of the fediverse put on their requests: signing,
    parsing of the Signature header, and verification with a bounded clock
    skew, a digest of the body and one retry with a refreshed key. SHA-256, RSA,
    and the textual form of HTTP dates are arguments. *)
From S2P Require Import Prelude GoStrings Encoding Storage MediaKeys Secretbox.
Local Open Scope Z_scope.

(** ** Strings *)

Definition comma : ascii := Ascii.ascii_of_nat 44.
Definition equals : ascii := Ascii.ascii_of_nat 61.
Definition quote : ascii := Ascii.ascii_of_nat 34.
Definition newline : ascii := Ascii.ascii_of_nat 10.
Definition space : ascii := Ascii.ascii_of_nat 32.

(** [strings.Split(s, c)] for one byte. *)
Fixpoint Split (c : ascii) (s : string) : list string :=
  match s with
  | EmptyString => [EmptyString]
  | String x r =>
      if bool_decide (x = c) then EmptyString :: Split c r
      else match Split c r with w :: ws => String x w :: ws | [] => [String x EmptyString] end
  end.

(** [strings.Join(l, c)] for one byte. *)
Fixpoint Join (c : ascii) (l : list string) : string :=
  match l with [] => EmptyString | [w] => w | w :: ws => w +:+ String c (Join c ws) end.

(** [strings.Fields]: the words between white space. *)
Fixpoint words (s : string) (word : string) : list string :=
  let flush := match word with EmptyString => [] | _ => [word] end in
  match s with
  | EmptyString => flush
  | String x r => if is_space x then flush ++ words r EmptyString else words r (word +:+ String x EmptyString)
  end.

Definition Fields (s : string) : list string := words s EmptyString.

(** [strings.Trim(s, c)] for one byte. *)
Fixpoint strip_left (c : ascii) (s : string) : string :=
  match s with String x r => if bool_decide (x = c) then strip_left c r else s | EmptyString => EmptyString end.

Fixpoint strip_right (c : ascii) (s : string) : string :=
  match s with
  | EmptyString => EmptyString
  | String x r => match strip_right c r with
                  | EmptyString => if bool_decide (x = c) then EmptyString else String x EmptyString
                  | t => String x t
                  end
  end.

Definition Trim (c : ascii) (s : string) : string := strip_right c (strip_left c s).

Definition EqualFold (s t : string) : bool := bool_decide (ToLower s = ToLower t).

(** [fmt]'s %q: quotes and backslashes are escaped, control characters written
    as escapes; bytes beyond ASCII stand for printable characters. *)
Definition hex_char (n : Z) : ascii := Ascii.ascii_of_nat (Z.to_nat (hex_digit n)).
Definition backslash_char : ascii := Ascii.ascii_of_nat 92.

Definition quoted_char (x : ascii) : string :=
  let n := code x in
  let esc c := String backslash_char (String (Ascii.ascii_of_nat c) EmptyString) in
  if bool_decide (x = quote) then esc 34%nat
  else if bool_decide (x = backslash_char) then esc 92%nat
  else if n =? 7 then esc 97%nat else if n =? 8 then esc 98%nat else if n =? 12 then esc 102%nat
  else if n =? 10 then esc 110%nat else if n =? 13 then esc 114%nat else if n =? 9 then esc 116%nat else if n =? 11 then esc 118%nat
  else if (n <? 32) || (n =? 127)
  then String backslash_char (String (Ascii.ascii_of_nat 120) (String (hex_char (n / 16)) (String (hex_char (n mod 16)) EmptyString)))
  else String x EmptyString.

Fixpoint quoted_chars (s : string) : string :=
  match s with EmptyString => EmptyString | String x r => quoted_char x +:+ quoted_chars r end.

Definition Quote (s : string) : string := String quote (quoted_chars s +:+ String quote EmptyString).

(** ** Requests *)

(** What the code reads of an [http.Request]: the headers by their name in
    lower case, with their first value. *)
Record Request := mkRequest { rqMethod : string; rqURI : string; rqHost : string; rqHeaders : gmap string string }.

(** [Header.Get] and [Header.Set] *)
Definition Get (r : Request) (name : string) : string := default EmptyString (rqHeaders r !! ToLower name).
Definition SetHeader (name value : string) (r : Request) : Request :=
  mkRequest (rqMethod r) (rqURI r) (rqHost r) (<[ToLower name := value]> (rqHeaders r)).

Inductive hsigerr :=
| HErrSigner | HErrMissing | HErrMalformed | HErrAlgorithm | HErrIncomplete | HErrUncovered (h : string) | HErrDate | HErrSkew | HErrDigest
| HErrHost | HErrHeader (h : string) | HErrBase64 | HErrResolver | HErrResolve | HErrSignature | HErrSign.

Definition algorithm : string := "rsa-sha256".
Definition defaultHeaders : list string := ["(request-target)"; "host"; "date"; "digest"].

(** ** The signing string *)

(** One line of [buildSigningString]. *)
Definition signing_line (r : Request) (h : string) : result hsigerr string :=
  let name := ToLower h in
  if bool_decide (name = "(request-target)"%string) then Ok ("(request-target): " +:+ ToLower (rqMethod r) +:+ " " +:+ rqURI r)
  else if bool_decide (name = "host"%string)
  then let host := if bool_decide (rqHost r = EmptyString) then Get r "Host" else rqHost r in
       if bool_decide (host = EmptyString) then Err HErrHost else Ok ("host: " +:+ host)
  else let val := Get r name in
       if bool_decide (val = EmptyString) then Err (HErrHeader name) else Ok (name +:+ ": " +:+ val).

Fixpoint signing_lines (r : Request) (covered : list string) : result hsigerr (list string) :=
  match covered with
  | [] => Ok []
  | h :: rest =>
      match signing_line r h with
      | Err e => Err e
      | Ok l => match signing_lines r rest with Err e => Err e | Ok ls => Ok (l :: ls) end
      end
  end.

(** [buildSigningString] *)
Definition buildSigningString (r : Request) (covered : list string) : result hsigerr string :=
  match signing_lines r covered with Err e => Err e | Ok ls => Ok (Join newline ls) end.

(** [hasHeader] *)
Definition hasHeader (covered : list string) (name : string) : bool := existsb (fun h => EqualFold h name) covered.

(** [requireCovered] *)
Definition requireCovered (covered : list string) (body : string) : option hsigerr :=
  match filter (fun must => hasHeader covered must = false) ["(request-target)"; "host"; "date"]%string with
  | must :: _ => Some (HErrUncovered must)
  | [] => if negb (bool_decide (body = EmptyString)) && negb (hasHeader covered "digest") then Some (HErrUncovered "digest") else None
  end.

(** [parseSignatureHeader] *)
Definition parse_part (out : gmap string string) (part : string) : gmap string string :=
  match Cut equals (TrimSpace part) with
  | (k, Some v) => <[TrimSpace k := Trim quote (TrimSpace v)]> out
  | (_, None) => out
  end.

Definition parseSignatureHeader (h : string) : result hsigerr (gmap string string) :=
  let h := TrimSpace h in
  if bool_decide (h = EmptyString) then Err HErrMissing else
  let out := foldl parse_part ∅ (Split comma (TrimPrefix h "Signature ")) in
  if bool_decide (out = ∅) then Err HErrMalformed else Ok out.

(** ** Signing and verifying *)

Section Keys.
Context {Priv Pub : Type}.
Context (sha256 : string -> string) (rsa_sign : Priv -> string -> option string) (rsa_verify : Pub -> string -> string -> bool).
Context (FormatTime : time -> string) (ParseTime : string -> option time).

(** [digestHeader] *)
Definition digestHeader (body : string) : string := "SHA-256=" +:+ base64_std (sha256 body).

Record Signer := mkSigner { sgKeyID : string; sgPriv : option Priv }.

(** The value of the Signature header. *)
Definition signature_value (keyID sig : string) : string :=
  "keyId=" +:+ Quote keyID +:+ ",algorithm=" +:+ Quote algorithm +:+ ",headers=" +:+ Quote (Join space defaultHeaders) +:+
  ",signature=" +:+ Quote (base64_std sig).

(** [Signer.Sign] at the time [now]: the request with its headers set. *)
Definition Sign (s : Signer) (now : time) (r : Request) (body : string) : result hsigerr Request :=
  match sgPriv s with
  | None => Err HErrSigner
  | Some priv =>
      if bool_decide (sgKeyID s = EmptyString) then Err HErrSigner else
      let r := if bool_decide (Get r "Date" = EmptyString) then SetHeader "Date" (FormatTime now) r else r in
      let r := SetHeader "Digest" (digestHeader body) r in
      match buildSigningString r defaultHeaders with
      | Err e => Err e
      | Ok str =>
          match rsa_sign priv (sha256 str) with
          | None => Err HErrSign
          | Some sig => Ok (SetHeader "Signature" (signature_value (sgKeyID s) sig) r)
          end
      end
  end.

(** [Verifier]: the callbacks are the keys they return at this moment; a
    refreshed key may be absent. *)
Record Verifier := mkVerifier {
  vfResolve : option (string -> option Pub);
  vfRefresh : option (string -> option (option Pub));
  vfMaxSkew : Z;
}.

(** The choice between the resolved and a refreshed key. *)
Definition check_signature (v : Verifier) (keyID str sig : string) : result hsigerr string :=
  match vfResolve v with
  | None => Err HErrResolver
  | Some resolve =>
      match resolve keyID with
      | None => Err HErrResolve
      | Some pub =>
          if rsa_verify pub (sha256 str) sig then Ok keyID else
          match vfRefresh v with
          | None => Err HErrSignature
          | Some refresh =>
              match refresh keyID with
              | Some (Some fresh) => if rsa_verify fresh (sha256 str) sig then Ok keyID else Err HErrSignature
              | _ => Err HErrSignature
              end
          end
      end
  end.

(** [Verifier.Verify] at the time [now] *)
Definition Verify (v : Verifier) (now : time) (r : Request) (body : string) : result hsigerr string :=
  match parseSignatureHeader (Get r "Signature") with
  | Err e => Err e
  | Ok params =>
      let param k := default EmptyString (params !! k) in
      if negb (EqualFold (param "algorithm"%string) algorithm) && negb (bool_decide (param "algorithm"%string = EmptyString)) then Err HErrAlgorithm else
      let keyID := param "keyId"%string in
      if bool_decide (keyID = EmptyString) || bool_decide (param "signature"%string = EmptyString) || bool_decide (param "headers"%string = EmptyString)
      then Err HErrIncomplete else
      let covered := Fields (param "headers"%string) in
      match requireCovered covered body with
      | Some e => Err e
      | None =>
          let skew := if vfMaxSkew v =? 0 then 5 * Minute else vfMaxSkew v in
          match ParseTime (Get r "Date") with
          | None => Err HErrDate
          | Some date =>
              if (skew <? now - date) || (now - date <? - skew) then Err HErrSkew else
              if hasHeader covered "digest" && negb (bool_decide (Get r "Digest" = digestHeader body)) then Err HErrDigest else
              match buildSigningString r covered with
              | Err e => Err e
              | Ok str =>
                  match base64_std_decode (param "signature"%string) with
                  | None => Err HErrBase64
                  | Some sig => check_signature v keyID str sig
                  end
              end
          end
      end
  end.
End Keys.

(** ** Lemmas: strings *)

Lemma str_app x s t : String x s +:+ t = String x (s +:+ t).
Proof. done. Qed.

Lemma str_assoc (s t u : string) : (s +:+ t) +:+ u = s +:+ (t +:+ u).
Proof. induction s as [|x s IH]; [done|]. by rewrite !str_app, IH. Qed.

Lemma str_app_nil s : s +:+ EmptyString = s.
Proof. induction s as [|x s IH]; [done|]. by rewrite str_app, IH. Qed.

(** Every character satisfies [P]. *)
Fixpoint chars (P : ascii -> Prop) (s : string) : Prop :=
  match s with EmptyString => True | String x r => P x /\ chars P r end.

Lemma chars_app P s t : chars P (s +:+ t) <-> chars P s /\ chars P t.
Proof. induction s as [|x s IH]; [cbn; tauto|]. rewrite str_app. cbn. rewrite IH. tauto. Qed.

Lemma chars_weaken (P Q : ascii -> Prop) s : (forall x, P x -> Q x) -> chars P s -> chars Q s.
Proof. intros HPQ. induction s as [|x s IH]; [done|]. cbn. intros []. auto. Qed.

Lemma Split_word c s : chars (fun x => x <> c) s -> Split c s = [s].
Proof. induction s as [|x s IH]; [done|]. cbn. intros [Hx Hs]. rewrite bool_decide_eq_false_2 by done. by rewrite IH. Qed.

Lemma Split_app c s t : chars (fun x => x <> c) s -> Split c (s +:+ String c t) = s :: Split c t.
Proof.
  induction s as [|x s IH]; intros Hs; [change (EmptyString +:+ String c t) with (String c t); cbn [Split]; by rewrite bool_decide_eq_true_2|]. rewrite str_app. cbn [Split chars] in Hs |- *. destruct Hs.
  rewrite bool_decide_eq_false_2 by done. by rewrite IH.
Qed.

Lemma Split_Join c l : l <> [] -> Forall (chars (fun x => x <> c)) l -> Split c (Join c l) = l.
Proof.
  intros Hne Hl. induction Hl as [|w l Hw Hl IH]; [done|]. destruct l as [|v l]; [by apply Split_word|].
  change (Join c (w :: v :: l)) with (w +:+ String c (Join c (v :: l))). rewrite Split_app by done. by rewrite IH.
Qed.

(** What comes before the first occurrence of a character is determined. *)
Lemma before_first c s s' t t' :
  chars (fun x => x <> c) s -> chars (fun x => x <> c) s' -> s +:+ String c t = s' +:+ String c t' -> s = s' /\ t = t'.
Proof.
  revert s'. induction s as [|x s IH]; intros [|x' s'] Hs Hs'.
  - by intros [= ->].
  - rewrite str_app. cbn in Hs' |- *. intros [= <- _]. by destruct Hs'.
  - rewrite str_app. cbn in Hs |- *. intros [= -> _]. by destruct Hs.
  - rewrite !str_app. cbn in Hs, Hs'. intros [= -> He]. destruct Hs, Hs'. destruct (IH s') as [-> ->]; done.
Qed.

Lemma snoc_inj c s s' : s +:+ String c EmptyString = s' +:+ String c EmptyString -> s = s'.
Proof.
  revert s'. induction s as [|x s IH]; intros [|x' s']; [done|..]; rewrite ?str_app.
  - intros [= _ He]. by destruct s'.
  - intros [= _ He]. by destruct s.
  - intros [= -> He]. by rewrite (IH s' He).
Qed.

Lemma words_ok s word : chars (fun x => is_space x = false) word -> Forall (chars (fun x => is_space x = false)) (words s word).
Proof.
  revert word. induction s as [|x s IH]; intros word Hw; cbn.
  - destruct word; [apply Forall_nil_2|by apply Forall_singleton].
  - destruct (is_space x) eqn:Hx; [apply Forall_app; split; [destruct word; [apply Forall_nil_2|by apply Forall_singleton]|by apply IH]|].
    apply IH. apply chars_app. by repeat split.
Qed.

Lemma lower_space x : is_space (lower_char x) = is_space x.
Proof. by destruct x as [[] [] [] [] [] [] [] []]. Qed.

Lemma chars_lower (P : ascii -> Prop) s : (forall x, P x -> P (lower_char x)) -> chars P s -> chars P (ToLower s).
Proof. intros HP. induction s as [|x s IH]; [done|]. cbn. intros []. auto. Qed.

(** ** The signing string, read back *)

(** The value a line carries. *)
Definition value_of (r : Request) (name : string) : string :=
  if bool_decide (name = "(request-target)"%string) then ToLower (rqMethod r) +:+ String space (rqURI r)
  else if bool_decide (name = "host"%string) then if bool_decide (rqHost r = EmptyString) then Get r "Host" else rqHost r
  else Get r name.

Definition colon_char : ascii := Ascii.ascii_of_nat 58.

Lemma signing_line_spec r h l : signing_line r h = Ok l ->
  l = ToLower h +:+ String colon_char (String space (value_of r (ToLower h))) /\ (ToLower h = "host"%string -> value_of r "host" <> EmptyString).
Proof.
  unfold signing_line, value_of. case_bool_decide as H1; [rewrite H1; by intros [= <-]|]. case_bool_decide as H2.
  - rewrite H2. case_bool_decide as H3; case_bool_decide as H4; try done; intros [= <-]; done.
  - case_bool_decide as H3; [done|]. by intros [= <-].
Qed.

Lemma signing_lines_spec r covered ls : signing_lines r covered = Ok ls ->
  ls = map (fun h => ToLower h +:+ String colon_char (String space (value_of r (ToLower h)))) covered.
Proof.
  revert ls. induction covered as [|h covered IH]; intros ls; cbn; [by intros [= <-]|]. destruct (signing_line r h) as [l|] eqn:Hl; [|done].
  destruct (signing_lines r covered) as [l'|]; [|done]. intros [= <-]. apply signing_line_spec in Hl as [-> _]. f_equal. by apply IH.
Qed.

(** A request as HTTP delivers one: no line breaks in its parts, no space in its
    method. *)
Definition one_line (s : string) : Prop := chars (fun x => x <> newline) s.

Record plain_request (r : Request) : Prop := {
  pr_method : chars (fun x => x <> space /\ x <> newline) (rqMethod r);
  pr_uri : one_line (rqURI r);
  pr_host : one_line (rqHost r);
  pr_headers : map_Forall (fun _ v => one_line v) (rqHeaders r);
}.

Lemma get_one_line r name : plain_request r -> one_line (Get r name).
Proof. intros Hr. unfold Get. destruct (rqHeaders r !! ToLower name) as [v|] eqn:Hv; [exact (pr_headers _ Hr _ v Hv)|done]. Qed.

Lemma lower_newline x : lower_char x = newline -> x = newline.
Proof. destruct x as [[] [] [] [] [] [] [] []]; vm_compute; congruence. Qed.

Lemma lower_blank x : lower_char x = space -> x = space.
Proof. destruct x as [[] [] [] [] [] [] [] []]; vm_compute; congruence. Qed.

Lemma value_one_line r name : plain_request r -> one_line (value_of r name).
Proof.
  intros Hr. unfold value_of. case_bool_decide; [|repeat case_bool_decide; apply get_one_line || apply pr_host; done].
  apply chars_app. split; [|split; [done|apply pr_uri, Hr]]. apply chars_lower; [by intros x Hx ?%lower_newline|].
  eapply chars_weaken; [|apply pr_method, Hr]. by intros x [].
Qed.

Lemma space_apart x : is_space x = false -> x <> space /\ x <> newline.
Proof. intros Hx. split; by intros ->. Qed.

(** Two requests with one signing string agree on everything that is covered. *)
Lemma same_signing_string r r' covered covered' m :
  plain_request r -> plain_request r' -> Forall (chars (fun x => is_space x = false)) covered -> Forall (chars (fun x => is_space x = false)) covered' ->
  covered <> [] -> covered' <> [] -> buildSigningString r covered = Ok m -> buildSigningString r' covered' = Ok m ->
  map ToLower covered = map ToLower covered' /\ Forall (fun h => value_of r (ToLower h) = value_of r' (ToLower h)) covered.
Proof.
  intros Hr Hr' Hc Hc' Hne Hne'. unfold buildSigningString. destruct (signing_lines r covered) as [ls|] eqn:Hls; [|done].
  destruct (signing_lines r' covered') as [ls'|] eqn:Hls'; [|done]. intros [= <-] [= He].
  apply signing_lines_spec in Hls as ->, Hls' as ->.
  assert (Hlow : forall h, chars (fun x => is_space x = false) h -> chars (fun x => x <> space /\ x <> newline) (ToLower h)).
  { intros h Hh. apply (chars_weaken (fun x => is_space x = false)); [apply space_apart|]. apply chars_lower; [|done]. intros x. by rewrite lower_space. }
  assert (Hlines : forall q cs, plain_request q -> Forall (chars (fun x => is_space x = false)) cs ->
    Forall (chars (fun x => x <> newline)) (map (fun h => ToLower h +:+ String colon_char (String space (value_of q (ToLower h)))) cs)).
  { intros q cs Hq Hcs. apply Forall_fmap. eapply Forall_impl; [exact Hcs|]. intros h Hh. cbn. apply chars_app.
    split; [eapply chars_weaken; [|by apply Hlow]; by intros x []|]. split; [done|]. split; [done|]. by apply value_one_line. }
  apply (f_equal (Split newline)) in He. rewrite !Split_Join in He; [|by destruct covered|by apply Hlines|by destruct covered'|by apply Hlines].
  clear Hne Hne' Hlines. revert covered' Hc' He. induction Hc as [|h cs Hh Hcs IH]; intros [|h' cs'] Hc' He; try done.
  apply Forall_cons in Hc' as [Hh' Hcs']. cbn in He. injection He as He Hrest. destruct (IH cs' Hcs' Hrest) as [Hm Hv].
  assert (Hsplit : ToLower h +:+ String colon_char EmptyString = ToLower h' +:+ String colon_char EmptyString /\ value_of r (ToLower h) = value_of r' (ToLower h')).
  { apply (before_first space).
    - apply chars_app. split; [eapply chars_weaken; [|by apply Hlow]; by intros x []|done].
    - apply chars_app. split; [eapply chars_weaken; [|by apply Hlow]; by intros x []|done].
    - rewrite !str_assoc. exact (eq_sym He). }
  destruct Hsplit as [Hn Hval]. pose proof (snoc_inj _ _ _ Hn) as Hnames.
  split; [cbn; by rewrite Hnames, Hm|]. constructor; [by rewrite Hval, Hnames|done].
Qed.

(** ** Signing *)

Lemma get_set name value r other : Get (SetHeader name value r) other = if decide (ToLower name = ToLower other) then value else Get r other.
Proof. unfold Get. cbn. case_decide as He; [by rewrite He, lookup_insert_eq|by rewrite lookup_insert_ne]. Qed.

Lemma base64_std_inj x y : base64_std x = base64_std y -> x = y.
Proof. intros He. apply (f_equal base64_std_decode) in He. rewrite !base64_roundtrip in He. by injection He. Qed.

Lemma digest_inj (sha256 : string -> string) x y : digestHeader sha256 x = digestHeader sha256 y -> sha256 x = sha256 y.
Proof.
  unfold digestHeader. intros He. apply base64_std_inj.
  assert (Hcancel : forall p a b, p +:+ a = p +:+ b -> a = b) by (induction p as [|c p IH]; [done|]; intros a b; rewrite !str_app; intros [= ?]; auto).
  by apply Hcancel in He.
Qed.

Section Keys.
Context {Priv Pub : Type}.
Context (sha256 : string -> string) (rsa_sign : Priv -> string -> option string) (rsa_verify : Pub -> string -> string -> bool).
Context (FormatTime : time -> string) (ParseTime : string -> option time).

(** What signing leaves on the request, and what it put the key to. *)
Lemma Sign_spec s now q body r : Sign sha256 rsa_sign FormatTime s now q body = Ok r ->
  exists priv str sig, sgPriv s = Some priv /\ sgKeyID s <> EmptyString /\ buildSigningString r defaultHeaders = Ok str /\
    rsa_sign priv (sha256 str) = Some sig /\ Get r "Signature" = signature_value (sgKeyID s) sig /\ Get r "Digest" = digestHeader sha256 body /\
    Get r "Date" = (if bool_decide (Get q "Date" = EmptyString) then FormatTime now else Get q "Date").
Proof.
  unfold Sign. destruct (sgPriv s) as [priv|]; [|done]. case_bool_decide as Hk; [done|].
  set (q' := SetHeader "Digest" _ _). destruct (buildSigningString q' defaultHeaders) as [str|] eqn:Hb; [|done].
  destruct (rsa_sign priv (sha256 str)) as [sig|] eqn:Hs; [|done]. intros [= <-]. exists priv, str, sig.
  assert (Hget : forall n, ToLower "Signature" <> ToLower n -> Get (SetHeader "Signature" (signature_value (sgKeyID s) sig) q') n = Get q' n).
  { intros n Hn. rewrite get_set. by case_decide. }
  split_and!; try done.
  - rewrite <- Hb. unfold buildSigningString, defaultHeaders, signing_lines, signing_line. by rewrite !Hget.
  - rewrite get_set. by case_decide.
  - rewrite Hget by done. unfold q'. rewrite get_set. by case_decide.
  - rewrite Hget by done. unfold q'. rewrite get_set. case_decide; [done|]. case_bool_decide; [|done]. rewrite get_set. by case_decide.
Qed.

Lemma covered_nonempty covered body : requireCovered covered body = None -> covered <> [].
Proof. intros H ->. done. Qed.

(** The signature a request carries. *)
Definition presented (r : Request) (sig : string) : Prop :=
  exists params, parseSignatureHeader (Get r "Signature") = Ok params /\ base64_std_decode (default EmptyString (params !! "signature"%string)) = Some sig.

(** The key is one the verifier uses for the name. *)
Definition key_of (v : Verifier (Pub := Pub)) (keyID : string) (pub : Pub) : Prop :=
  (exists resolve, vfResolve v = Some resolve /\ resolve keyID = Some pub) \/ (exists refresh, vfRefresh v = Some refresh /\ refresh keyID = Some (Some pub)).

(** Everything an accepted request passed. *)
Lemma Verify_spec v now r body keyID : Verify sha256 rsa_verify ParseTime v now r body = Ok keyID ->
  exists covered str sig date pub,
    requireCovered covered body = None /\ Forall (chars (fun x => is_space x = false)) covered /\
    ParseTime (Get r "Date") = Some date /\ Z.abs (now - date) <= (if vfMaxSkew v =? 0 then 5 * Minute else vfMaxSkew v) /\
    (hasHeader covered "digest" = true -> Get r "Digest" = digestHeader sha256 body) /\
    buildSigningString r covered = Ok str /\ presented r sig /\ rsa_verify pub (sha256 str) sig = true /\ key_of v keyID pub.
Proof.
  unfold Verify. destruct (parseSignatureHeader _) as [params|] eqn:Hparams; [|done].
  match goal with |- (if ?b then _ else _) = _ -> _ => destruct b; [done|] end. match goal with |- (if ?b then _ else _) = _ -> _ => destruct b; [done|] end.
  set (covered := Fields _). destruct (requireCovered covered body) eqn:Hreq; [done|]. destruct (ParseTime _) as [date|] eqn:Hdate; [|done].
  match goal with |- (if ?b then _ else _) = _ -> _ => destruct b eqn:Hskew; [done|] end.
  match goal with |- (if ?b then _ else _) = _ -> _ => destruct b eqn:Hdig; [done|] end. destruct (buildSigningString r covered) as [str|] eqn:Hstr; [|done].
  destruct (base64_std_decode _) as [sig|] eqn:Hsig; [|done]. intros Hc. exists covered, str, sig, date.
  assert (Hpub : exists pub, rsa_verify pub (sha256 str) sig = true /\ key_of v keyID pub).
  { unfold key_of. unfold check_signature in Hc. destruct (vfResolve v) as [resolve|]; [|done]. destruct (resolve _) as [pub|] eqn:Hres; [|done].
    destruct (rsa_verify pub _ _) eqn:Hv; [injection Hc as <-; exists pub; split; [done|left; by eexists]|].
    destruct (vfRefresh v) as [refresh|]; [|done]. destruct (refresh _) as [[fresh|]|] eqn:Href; try done.
    destruct (rsa_verify fresh _ _) eqn:Hv'; [|done]. injection Hc as <-. exists fresh. split; [done|right; by eexists]. }
  destruct Hpub as (pub & Hver & Hfrom). exists pub. bools. split_and!; try done.
  - by apply words_ok.
  - lia.
  - intros Hd. rewrite Hd in Hdig. cbn in Hdig. by bools.
  - by exists params.
Qed.
End Keys.

(** ** The Signature header, read back *)

(** A character that is neither escaped nor a separator. *)
Definition plain_char (x : ascii) : Prop := x <> quote /\ x <> backslash_char /\ x <> comma /\ 32 <= code x /\ code x <> 127.

Lemma quoted_plain s : chars plain_char s -> Quote s = String quote (s +:+ String quote EmptyString).
Proof.
  intros Hs. unfold Quote. f_equal. f_equal. induction s as [|x s IH]; [done|]. destruct Hs as [(H1 & H2 & H3 & H4 & H5) Hs]. cbn [quoted_chars].
  unfold quoted_char. rewrite !bool_decide_eq_false_2 by done.
  repeat match goal with |- context [code x =? ?n] => replace (code x =? n) with false by (symmetry; apply Z.eqb_neq; lia) end.
  replace (code x <? 32) with false by (symmetry; apply Z.ltb_ge; lia). cbn. by rewrite (IH Hs).
Qed.

Lemma chars_contains c s : chars (fun x => x <> c) s -> contains c s = false.
Proof. induction s as [|x s IH]; [done|]. cbn. intros [Hx Hs]. rewrite bool_decide_eq_false_2 by done. by apply IH. Qed.

Lemma trim_right_last s d : is_space d = false -> trim_right (s +:+ String d EmptyString) = s +:+ String d EmptyString.
Proof.
  intros Hd. induction s as [|x s IH]; [change (EmptyString +:+ String d EmptyString) with (String d EmptyString); cbn [trim_right]; by rewrite Hd|].
  rewrite str_app. cbn [trim_right]. rewrite IH. by destruct s.
Qed.

Lemma TrimSpace_quoted x s : is_space x = false -> TrimSpace (String x (s +:+ String quote EmptyString)) = String x (s +:+ String quote EmptyString).
Proof. intros Hx. unfold TrimSpace. cbn [trim_left]. rewrite Hx. exact (trim_right_last (String x s) quote eq_refl). Qed.

Lemma Trim_quoted s : chars plain_char s -> Trim quote (String quote (s +:+ String quote EmptyString)) = s.
Proof.
  intros Hs. unfold Trim. cbn [strip_left]. rewrite bool_decide_eq_true_2 by done.
  assert (Hl : strip_left quote (s +:+ String quote EmptyString) = if decide (s = EmptyString) then EmptyString else s +:+ String quote EmptyString).
  { destruct s as [|x s]; [done|]. destruct Hs as [[Hx _] _]. rewrite str_app. cbn [strip_left]. by rewrite bool_decide_eq_false_2. }
  rewrite Hl. case_decide; [by subst|]. clear Hl H. induction s as [|x s IH]; [done|]. destruct Hs as [[Hx _] Hs]. rewrite str_app. cbn [strip_right].
  rewrite (IH Hs). destruct s; [by rewrite bool_decide_eq_false_2|done].
Qed.

Definition key_char (x : ascii) : Prop := is_space x = false /\ x <> equals.

(** One parameter is read as it was written. *)
Lemma parse_part_spec out x k v : key_char x -> chars key_char k -> chars plain_char v ->
  parse_part out (String x (k +:+ String equals (Quote v))) = <[String x k := v]> out.
Proof.
  intros [Hx Hx'] Hk Hv. rewrite (quoted_plain v Hv). unfold parse_part.
  assert (Hlast : String x (k +:+ String equals (String quote (v +:+ String quote EmptyString))) =
    String x ((k +:+ String equals (String quote v)) +:+ String quote EmptyString)) by (by rewrite str_assoc).
  rewrite Hlast, TrimSpace_quoted, <- Hlast by done.
  change (String x (k +:+ String equals (String quote (v +:+ String quote EmptyString)))) with
    (String x k +:+ String equals (String quote (v +:+ String quote EmptyString))).
  rewrite Cut_app by (apply chars_contains; split; [done|]; eapply chars_weaken; [|exact Hk]; by intros y []). rewrite TrimSpace_quoted by done. rewrite Trim_quoted by done.
  f_equal. unfold TrimSpace. cbn [trim_left]. rewrite Hx. clear -Hx Hk. revert x Hx. induction k as [|y k IH]; intros x Hx; [cbn [trim_right]; by rewrite Hx|].
  destruct Hk as [[Hy _] Hk]. change (trim_right (String x (String y k))) with
    (match trim_right (String y k) with EmptyString => if is_space x then EmptyString else String x EmptyString | t => String x t end). by rewrite (IH Hk y Hy).
Qed.

(** The characters of an encoding. *)
Definition plain_code (c : Z) : bool := negb (c =? 34) && negb (c =? 92) && negb (c =? 44) && (32 <=? c) && (c <? 127).

Lemma plain_code_char c : plain_code c = true -> plain_char (to_byte c).
Proof.
  intros Hc. unfold plain_code in Hc. bools. pose proof (byte_val_to c ltac:(unfold is_byte; lia)) as Hb.
  assert (Hne : forall n, is_byte (Z.of_nat n) -> c <> Z.of_nat n -> to_byte c <> Ascii.ascii_of_nat n).
  { intros n Hn Hne He. apply Hne. rewrite <- Hb, He. unfold byte_val, is_byte in *. rewrite Ascii.nat_ascii_embedding by lia. done. }
  unfold plain_char, quote, backslash_char, comma. change (code (to_byte c)) with (byte_val (to_byte c)). rewrite Hb.
  split_and!; try apply Hne; unfold is_byte; lia.
Qed.

Lemma digit_plain d : 0 <= d < 64 -> plain_code (digit std d) = true.
Proof.
  intros Hd. assert (Hall : forallb (fun d => plain_code (digit std d)) (seqZ 0 64) = true) by (vm_compute; reflexivity).
  apply (forallb_elem _ _ d) in Hall; [done|]. apply elem_of_seqZ; lia.
Qed.

Lemma encode_plain l : Forall is_byte l -> Forall (fun c => plain_code c = true) (encode std true l).
Proof.
  induction l as [|a|a b|a b c l IH] using triples_ind; intros Hl; cbn [encode repeat];
    repeat match goal with H : Forall _ (_ :: _) |- _ => apply Forall_cons in H as [? ?] end; unfold is_byte in *;
    repeat (apply Forall_cons; split); auto using List.Forall_nil; apply digit_plain; divlia.
Qed.

Lemma base64_plain s : chars plain_char (base64_std s).
Proof.
  unfold base64_std, of_bytes. induction (encode_plain _ (bytes_range s)) as [|c l Hc _ IH]; [done|]. split; [by apply plain_code_char|exact IH].
Qed.

Lemma quoted_apart s : chars plain_char s -> chars (fun x => x <> comma) (Quote s).
Proof.
  intros Hs. rewrite quoted_plain by done. split; [done|]. apply chars_app. split; [|done]. eapply chars_weaken; [|exact Hs]. by intros x (_ & _ & ? & _).
Qed.

(** The parameters of a Signature header. *)
Definition signature_params (keyID sig : string) : gmap string string :=
  <["signature" := base64_std sig]> (<["headers" := Join space defaultHeaders]> (<["algorithm" := algorithm]> (<["keyId" := keyID]> ∅))).

Lemma params_lookup keyID sig :
  signature_params keyID sig !! "algorithm"%string = Some algorithm /\ signature_params keyID sig !! "keyId"%string = Some keyID /\
  signature_params keyID sig !! "signature"%string = Some (base64_std sig) /\ signature_params keyID sig !! "headers"%string = Some (Join space defaultHeaders).
Proof. unfold signature_params. split_and!; repeat (rewrite lookup_insert_eq || rewrite lookup_insert_ne by done); done. Qed.

Lemma plain_string s : forallb (fun c => plain_code c) (bytes s) = true -> chars plain_char s.
Proof.
  induction s as [|x s IH]; [done|]. unfold bytes in *. cbn. intros Hs. bools. split; [|auto]. rewrite <- (to_byte_val x). by apply plain_code_char.
Qed.

(** The header [Sign] writes is read back parameter by parameter. *)
Lemma parse_signature_value keyID sig : chars plain_char keyID ->
  parseSignatureHeader (signature_value keyID sig) = Ok (signature_params keyID sig).
Proof.
  intros Hk. unfold parseSignatureHeader. pose proof (base64_plain sig) as Hb.
  assert (Ha : chars plain_char algorithm) by (by apply plain_string). assert (Hh : chars plain_char (Join space defaultHeaders)) by (by apply plain_string).
  set (p1 := "keyId=" +:+ Quote keyID). set (p2 := "algorithm=" +:+ Quote algorithm). set (p3 := "headers=" +:+ Quote (Join space defaultHeaders)).
  set (p4 := "signature=" +:+ Quote (base64_std sig)).
  assert (Hv : signature_value keyID sig = p1 +:+ String comma (p2 +:+ String comma (p3 +:+ String comma p4))).
  { unfold signature_value, p1, p2, p3, p4. by rewrite !str_assoc. }
  assert (Hlast : exists t, p1 +:+ String comma (p2 +:+ String comma (p3 +:+ String comma p4)) = String (Ascii.ascii_of_nat 107) (t +:+ String quote EmptyString)).
  { exists ("eyId=" +:+ Quote keyID +:+ String comma (p2 +:+ String comma (p3 +:+ String comma ("signature=" +:+ String quote (base64_std sig))))).
    unfold p1, p4. rewrite (quoted_plain _ Hb). rewrite !str_assoc. done. }
  assert (Htrim : TrimSpace (signature_value keyID sig) = signature_value keyID sig) by (rewrite Hv; destruct Hlast as [t ->]; by apply TrimSpace_quoted).
  rewrite Htrim. assert (Hpre : TrimPrefix (signature_value keyID sig) "Signature " = signature_value keyID sig).
  { rewrite Hv. destruct Hlast as [t ->]. done. }
  rewrite Hpre, bool_decide_eq_false_2 by (rewrite Hv; destruct Hlast as [t ->]; done). rewrite Hv.
  assert (Happ : forall p, chars (fun x => x <> comma) p -> forall v, chars plain_char v -> chars (fun x => x <> comma) (p +:+ Quote v)).
  { intros p Hp v Hpv. apply chars_app. split; [done|by apply quoted_apart]. }
  rewrite !Split_app by (apply Happ; [repeat split; done|done]). rewrite Split_word by (apply Happ; [repeat split; done|done]).
  cbn [foldl]. unfold p1, p2, p3, p4.
  assert (Hpart : forall out x k v, key_char x -> chars key_char k -> chars plain_char v ->
    parse_part out ((String x k +:+ String equals EmptyString) +:+ Quote v) = <[String x k := v]> out).
  { intros out x k v Hx Hkk Hvv. rewrite <- (parse_part_spec out x k v Hx Hkk Hvv). by rewrite str_assoc. }
  rewrite (Hpart ∅ (Ascii.ascii_of_nat 107) "eyId"%string keyID), (Hpart _ (Ascii.ascii_of_nat 97) "lgorithm"%string algorithm), (Hpart _ (Ascii.ascii_of_nat 104) "eaders"%string),
    (Hpart _ (Ascii.ascii_of_nat 115) "ignature"%string) by (done || by repeat split).
  fold (signature_params keyID sig). rewrite bool_decide_eq_false_2; [done|]. apply insert_non_empty.
Qed.

(** ** Properties *)

(** C33. An accepted request was signed. Suppose the signature a request carries
    is no forgery (under a key the verifier uses for the name, it verifies
    only for a string some signed request was signed over), the holder of the
    key signs with [Sign] only, and the body does not collide with a signed
    one. Then the request is accepted in the name of that key only if the
    holder signed one with this very body, for the same method, target, host
    and date, and the date is within the allowed skew of the clock: nothing
    that was signed can be moved to another endpoint, body or time. *)
Theorem accepted_request_was_signed {Priv Pub : Type} (sha256 : string -> string) (rsa_sign : Priv -> string -> option string)
    (rsa_verify : Pub -> string -> string -> bool) (FormatTime : time -> string) (ParseTime : string -> option time)
    (v : Verifier) (now : time) (r : Request) (body keyID : string) (signed : list (Request * string)) :
  (forall pub m sig, key_of v keyID pub -> presented r sig -> rsa_verify pub (sha256 m) sig = true ->
     exists r0 b0, (r0, b0) ∈ signed /\ buildSigningString r0 defaultHeaders = Ok m) ->
  (forall r0 b0, (r0, b0) ∈ signed ->
     plain_request r0 /\ (exists s t q, Sign sha256 rsa_sign FormatTime s t q b0 = Ok r0) /\ (sha256 body = sha256 b0 -> body = b0)) ->
  plain_request r -> Verify sha256 rsa_verify ParseTime v now r body = Ok keyID ->
  exists r0 date, (r0, body) ∈ signed /\ ToLower (rqMethod r) = ToLower (rqMethod r0) /\ rqURI r = rqURI r0 /\
    value_of r "host" = value_of r0 "host" /\ Get r "Date" = Get r0 "Date" /\
    ParseTime (Get r "Date") = Some date /\ Z.abs (now - date) <= (if vfMaxSkew v =? 0 then 5 * Minute else vfMaxSkew v).
Proof.
  intros Hforge Hsigned Hr Hv.
  destruct (Verify_spec _ _ _ _ _ _ _ _ Hv) as (covered & str & sig & date & pub & Hreq & Hcov & Hdate & Hskew & Hdig & Hstr & Hpres & Hver & Hfrom).
  destruct (Hforge pub str sig Hfrom Hpres Hver) as (r0 & b0 & Hin & Hstr0). destruct (Hsigned r0 b0 Hin) as (Hr0 & (s & t & q & Hsign) & Hsha).
  destruct (Sign_spec _ _ _ _ _ _ _ _ Hsign) as (_ & _ & _ & _ & _ & _ & _ & _ & Hdig0 & _).
  destruct (same_signing_string r r0 covered defaultHeaders str) as [Hnames Hvals]; try done; [repeat constructor|by eapply covered_nonempty|].
  assert (Hcovers : forall n, n ∈ defaultHeaders -> value_of r n = value_of r0 n /\ hasHeader covered n = true).
  { intros n Hn. assert (Hl : ToLower n = n) by (repeat (apply elem_of_cons in Hn as [->|Hn]; [done|]); by apply not_elem_of_nil in Hn).
    assert (Hm : n ∈ map ToLower covered).
    { rewrite Hnames. apply list_elem_of_fmap. by exists n. }
    apply list_elem_of_fmap in Hm as (h & Hh & Hhin). split; [rewrite Hh; exact (proj1 (Forall_forall _ _) Hvals h Hhin)|].
    apply existsb_exists. exists h. split; [by apply list_elem_of_In|]. apply bool_decide_eq_true. congruence. }
  destruct (Hcovers "(request-target)"%string) as [Htarget _]; [left|]. destruct (Hcovers "host"%string) as [Hhost _]; [right; left|].
  destruct (Hcovers "date"%string) as [Hd _]; [do 2 right; left|]. destruct (Hcovers "digest"%string) as [Hg Hhas]; [do 3 right; left|].
  apply before_first in Htarget as [Hm Hu]; [|apply chars_lower; [by intros x Hx ?%lower_blank|]; eapply chars_weaken; [|apply pr_method, Hr]; by intros x []
    |apply chars_lower; [by intros x Hx ?%lower_blank|]; eapply chars_weaken; [|apply pr_method, Hr0]; by intros x []].
  exists r0, date. split; [|done]. assert (body = b0) as ->; [|done]. apply Hsha, (digest_inj sha256).
  rewrite <- (Hdig Hhas), <- Hdig0. exact Hg.
Qed.

(** C34. A signed request verifies. For a key identifier without quotes, commas or
    control characters, what [Sign] produced at one moment is accepted by a
    verifier that resolves the identifier to the signer's public key and whose
    clock is within the allowed skew of the date on the request, and the
    identifier it returns is the signer's. *)
Theorem signed_request_verifies {Priv Pub : Type} (sha256 : string -> string) (rsa_sign : Priv -> string -> option string)
    (rsa_verify : Pub -> string -> string -> bool) (FormatTime : time -> string) (ParseTime : string -> option time)
    (s : Signer) (v : Verifier) (t now date : time) (q r : Request) (body : string) (pub : Pub) (resolve : string -> option Pub) :
  (forall priv h sig, sgPriv s = Some priv -> rsa_sign priv h = Some sig -> sig <> EmptyString /\ rsa_verify pub h sig = true) ->
  vfResolve v = Some resolve -> resolve (sgKeyID s) = Some pub -> chars plain_char (sgKeyID s) ->
  Sign sha256 rsa_sign FormatTime s t q body = Ok r ->
  ParseTime (Get r "Date") = Some date -> Z.abs (now - date) <= (if vfMaxSkew v =? 0 then 5 * Minute else vfMaxSkew v) ->
  Verify sha256 rsa_verify ParseTime v now r body = Ok (sgKeyID s).
Proof.
  intros Hrsa Hres Hkey Hplain Hsign Hdate Hskew.
  destruct (Sign_spec _ _ _ _ _ _ _ _ Hsign) as (priv & str & sig & Hpriv & Hid & Hstr & Hsig & Hhdr & Hdig & _).
  destruct (Hrsa priv _ sig Hpriv Hsig) as [Hne Hver]. unfold Verify. rewrite Hhdr, (parse_signature_value _ _ Hplain).
  assert (Hsig64 : base64_std sig <> EmptyString) by (intros He; apply Hne, base64_std_inj; by rewrite He).
  destruct (params_lookup (sgKeyID s) sig) as (-> & -> & -> & ->). unfold default, id.
  change (EqualFold algorithm algorithm) with true. change (Fields (Join space defaultHeaders)) with defaultHeaders. cbn [negb andb].
  rewrite !bool_decide_eq_false_2 by done. cbn [orb]. assert (Hcov : requireCovered defaultHeaders body = None) by (by destruct body).
  rewrite Hcov, Hdate. replace (_ || _) with false by (symmetry; apply orb_false_iff; split; apply Z.ltb_ge; lia).
  rewrite Hdig, (bool_decide_eq_true_2 (digestHeader sha256 body = _) eq_refl), andb_false_r, Hstr, base64_roundtrip.
  unfold check_signature. by rewrite Hres, Hkey, Hver.
Qed.

(** A toy pair of keys: the signature of a hash is the key and the hash. *)
Definition toy_sign (priv h : string) : option string := Some (priv +:+ h).
Definition toy_verify (pub h sig : string) : bool := bool_decide (sig = pub +:+ h).
Definition toy_hash (x : string) : string := x.
Definition toy_key : string := "https://videos.example/accounts/ada#main-key".
Definition toy_signer : Signer := mkSigner toy_key (Some "k"%string).
Definition toy_verifier : Verifier := mkVerifier (Some (fun id => if bool_decide (id = toy_key) then Some "k"%string else None)) None 0.
Definition toy_request : Request := mkRequest "POST" "/inbox" "peer.example" ∅.
Definition toy_format (t : time) : string := "Sun, 06 Nov 1994 08:49:37 GMT".
Definition toy_parse (s : string) : option time := if bool_decide (s = toy_format 0) then Some 0 else None.

Definition toy_signed : Request :=
  match Sign toy_hash toy_sign toy_format toy_signer 0 toy_request "{}" with Ok r => r | Err _ => toy_request end.

Lemma signed_request_verifies_witness : Verify toy_hash toy_verify toy_parse toy_verifier (3 * Minute) toy_signed "{}" = Ok toy_key.
Proof.
  apply (signed_request_verifies toy_hash toy_sign toy_verify toy_format toy_parse toy_signer toy_verifier 0 (3 * Minute) 0 toy_request toy_signed "{}" "k"
    (fun id => if bool_decide (id = toy_key) then Some "k"%string else None)).
  - intros priv h sig [= <-] [= <-]. split; [done|]. by apply bool_decide_eq_true_2.
  - reflexivity.
  - vm_compute. reflexivity.
  - apply plain_string. vm_compute. reflexivity.
  - vm_compute. reflexivity.
  - vm_compute. reflexivity.
  - vm_compute. discriminate.
Defined.

Lemma accepted_request_was_signed_witness : exists r0 date, (r0, "{}"%string) ∈ [(toy_signed, "{}"%string)] /\ "post"%string = ToLower (rqMethod r0) /\
  "/inbox"%string = rqURI r0 /\ "peer.example"%string = value_of r0 "host" /\ toy_format 0 = Get r0 "Date" /\
  toy_parse (toy_format 0) = Some date /\ Z.abs (3 * Minute - date) <= 5 * Minute.
Proof.
  assert (Hplain : plain_request toy_signed).
  { split; [cbn; done..|]. apply map_Forall_to_list. vm_compute. repeat constructor; done. }
  apply (accepted_request_was_signed toy_hash toy_sign toy_verify toy_format toy_parse toy_verifier (3 * Minute) toy_signed "{}" toy_key [(toy_signed, "{}"%string)]).
  - intros pub m sig [(resolve & [= <-] & Hk)|(refresh & Hno & _)] (params & Hp & Hs) Hv; [|done]. exists toy_signed, "{}"%string. split; [left|].
    vm_compute in Hp. injection Hp as <-. vm_compute in Hs. injection Hs as <-. vm_compute in Hk. injection Hk as <-.
    apply bool_decide_eq_true_1 in Hv. unfold toy_hash in Hv. injection Hv as Hv. change (EmptyString +:+ m) with m in Hv. rewrite <- Hv. vm_compute. reflexivity.
  - intros r0 b0 Hin. apply list_elem_of_singleton in Hin as [= -> ->]. split; [done|]. split; [|done]. exists toy_signer, 0, toy_request. vm_compute. reflexivity.
  - done.
  - vm_compute. reflexivity.
Defined.
