(* ===== verification/CommentStore.v ===== *)
(** * The tables of comments

    Comments with their videos, authors, reviewers and readers: rows, one
    definition per statement of src/internal/store/queries/comments.sql and of
    the statements of other files that the comment service, the comment
    handlers and the federation of comments run, and the signature [comE] they
    run against. *)
From S2P Require Import Prelude GoStrings.
Local Open Scope Z_scope.

(** ** Rows *)

Record CUser := mkCUser { cuName : string; cuDisplay : string; cuActive : bool }.

(** A cached remote actor: its name, its domain. *)
Record Actor := mkActor { raName : string; raDomain : string }.

(** [chAP]: the channel federates. *)
Record Channel := mkChannel { chOwner : uuid; chAP : bool }.

Record CVideo := mkCVideo {
  vdChannel : uuid; vdTitle : string; vdPrivacy : string; vdState : string; vdPolicy : string; vdBlocked : bool; vdPinned : option uuid;
}.

Record Comment := mkComment {
  coVideo : uuid; coUser : option uuid; coBody : string; coParent : option uuid; coCreated : time; coUpdated : time;
  coActor : option string; coActorName : option string; coObject : option string; coDeleted : option time; coHearted : bool; coHeld : bool;
}.

#[global] Instance Comment_eq_dec : EqDecision Comment.
Proof. solve_decision. Defined.

(** [cmReach]: remote_actor_block_reach, the actors a viewer ([None]: everyone)
    does not see. [cmLegacy]: the videos known under another uuid. [cmClock]:
    the time of each statement, [cmTick] the number of statements so far;
    [cmGen]: the ids the database generates. *)
Record CDB := mkCDB {
  cmUsers : gmap uuid CUser;
  cmActors : gmap string Actor;
  cmChannels : gmap uuid Channel;
  cmMembers : gset (uuid * uuid);
  cmVideos : gmap uuid CVideo;
  cmLegacy : gmap uuid uuid;
  cmComments : gmap uuid Comment;
  cmTags : gset (uuid * string);
  cmMuted : gset (uuid * uuid);
  cmBlocks : gset (uuid * uuid);
  cmBlockedInstances : gset string;
  cmMutedInstances : gset (uuid * string);
  cmReach : gset (option uuid * string);
  cmInboxes : gmap uuid (list string);
  cmClock : nat -> time;
  cmTick : nat;
  cmGen : nat -> uuid;
  cmDrawn : nat;
}.

Definition cmNow (d : CDB) : time := cmClock d (cmTick d).

(** The other tables are kept. *)
Definition with_comments (videos : gmap uuid CVideo) (comments : gmap uuid Comment) (tags : gset (uuid * string)) (drawn : nat) (d : CDB) : CDB :=
  mkCDB (cmUsers d) (cmActors d) (cmChannels d) (cmMembers d) videos (cmLegacy d) comments tags (cmMuted d) (cmBlocks d) (cmBlockedInstances d)
    (cmMutedInstances d) (cmReach d) (cmInboxes d) (cmClock d) (cmTick d) (cmGen d) drawn.

Definition set_comments f d := with_comments (cmVideos d) (f (cmComments d)) (cmTags d) (cmDrawn d) d.
Definition set_videos f d := with_comments (f (cmVideos d)) (cmComments d) (cmTags d) (cmDrawn d) d.
Definition draw_cm d := with_comments (cmVideos d) (cmComments d) (cmTags d) (S (cmDrawn d)) d.
Definition tick_cm d :=
  mkCDB (cmUsers d) (cmActors d) (cmChannels d) (cmMembers d) (cmVideos d) (cmLegacy d) (cmComments d) (cmTags d) (cmMuted d) (cmBlocks d)
    (cmBlockedInstances d) (cmMutedInstances d) (cmReach d) (cmInboxes d) (cmClock d) (S (cmTick d)) (cmGen d) (cmDrawn d).

Abbreviation cstmt A := (CDB -> result dberr A * CDB) (only parsing).

(** ** Accounts, videos and channels *)

Definition q_GetUserByID (id : uuid) : cstmt (uuid * CUser) := fun d =>
  (match cmUsers d !! id with Some u => Ok (id, u) | None => Err ErrNoRows end, d).

(** Active accounts only. *)
Definition q_GetUserActorByID (id : uuid) : cstmt string := fun d =>
  (match cmUsers d !! id with Some u => if cuActive u then Ok (cuName u) else Err ErrNoRows | None => Err ErrNoRows end, d).

(** Every account, up to case. *)
Definition q_GetCommentAuthorIDByUsername (name : string) : cstmt uuid := fun d =>
  (match filter (fun r => ToLower (cuName r.2) = ToLower name) (rows_of (cmUsers d)) with r :: _ => Ok r.1 | [] => Err ErrNoRows end, d).

(** A video with the owner of its channel. *)
Record VideoRow := mkVideoRow { vrID : uuid; vrVideo : CVideo; vrOwner : uuid }.

Definition q_GetVideoByID (id : uuid) : cstmt VideoRow := fun d =>
  (match cmVideos d !! id with
   | Some v => match cmChannels d !! vdChannel v with
               | Some ch => if bool_decide (is_Some (cmUsers d !! chOwner ch)) then Ok (mkVideoRow id v (chOwner ch)) else Err ErrNoRows
               | None => Err ErrNoRows
               end
   | None => Err ErrNoRows
   end, d).

Definition q_GetChannelByID (id : uuid) : cstmt Channel := fun d =>
  (match cmChannels d !! id with Some ch => Ok ch | None => Err ErrNoRows end, d).

Definition manages (channel user : uuid) (d : CDB) : bool :=
  match cmChannels d !! channel with
  | Some ch => bool_decide (chOwner ch = user) || bool_decide ((channel, user) ∈ cmMembers d)
  | None => false
  end.

Definition q_IsChannelManager (channel user : uuid) : cstmt bool := fun d => (Ok (manages channel user d), d).

Definition q_IsVideoBlocked (id : uuid) : cstmt bool := fun d =>
  (Ok match cmVideos d !! id with Some v => vdBlocked v | None => false end, d).

Definition q_GetVideoIDByLegacyUUID (legacy : uuid) : cstmt uuid := fun d =>
  (if bool_decide (is_Some (cmVideos d !! legacy)) then Ok legacy else match cmLegacy d !! legacy with Some id => Ok id | None => Err ErrNoRows end, d).

(** ** Remote actors *)

Definition q_GetRemoteActor (url : string) : cstmt Actor := fun d =>
  (match cmActors d !! url with Some a => Ok a | None => Err ErrNoRows end, d).

Definition q_IsRemoteActorBlockedInstanceWide (url : string) : cstmt bool := fun d => (Ok (bool_decide ((None, url) ∈ cmReach d)), d).

Definition q_IsRemoteActorBlockedByAnyone (url : string) : cstmt bool := fun d =>
  (Ok (existsb (fun r => bool_decide (r.2 = url) && bool_decide (is_Some r.1)) (elements (cmReach d))), d).

Definition q_IsRemoteActorBlockedBy (blocker : uuid) (url : string) : cstmt bool := fun d => (Ok (bool_decide ((Some blocker, url) ∈ cmReach d)), d).

(** The distinct inboxes of the followers of a channel. *)
Definition q_ListRemoteFollowerInboxes (channel : uuid) : cstmt (list string) := fun d =>
  (Ok (remove_dups (default [] (cmInboxes d !! channel))), d).

(** ** Comments *)

(** INSERT: both foreign keys and the parent must be there. *)
Definition insert_comment (c : Comment) : cstmt (uuid * Comment) := fun d =>
  let id := cmGen d (cmDrawn d) in
  if bool_decide (cmVideos d !! coVideo c = None) || match coUser c with Some u => bool_decide (cmUsers d !! u = None) | None => false end
     || match coActor c with Some a => bool_decide (cmActors d !! a = None) | None => false end
     || match coParent c with Some p => bool_decide (cmComments d !! p = None) | None => false end
  then (Err ErrForeignKey, draw_cm d)
  else if bool_decide (is_Some (cmComments d !! id)) then (Err ErrUnique, draw_cm d)
  else (Ok (id, c), set_comments <[id := c]> (draw_cm d)).

Definition q_CreateComment (video user : uuid) (body : string) (parent : option uuid) (held : bool) : cstmt (uuid * Comment) := fun d =>
  insert_comment (mkComment video (Some user) body parent (cmNow d) (cmNow d) None None None None false held) d.

Definition by_object (url : string) (d : CDB) : option (uuid * Comment) :=
  head (filter (fun r => coObject r.2 = Some url) (rows_of (cmComments d))).

(** A new text: the time moves, and a changed one may go back to review. *)
Definition revised (now : time) (body : string) (hold : bool) (c : Comment) : Comment :=
  mkComment (coVideo c) (coUser c) body (coParent c) (coCreated c) now (coActor c) (coActorName c) (coObject c) (coDeleted c) (coHearted c)
    (coHeld c || hold && negb (bool_decide (coBody c = body))).

(** INSERT … ON CONFLICT (remote_object_url) DO UPDATE … WHERE the video is the
    same: no row when it is not. *)
Definition q_CreateRemoteComment (video : uuid) (body : string) (parent : option uuid) (actor name url : string) (held : bool) : cstmt (uuid * Comment) := fun d =>
  match by_object url d with
  | Some (id, c) =>
      if bool_decide (coVideo c = video)
      then (Ok (id, revised (cmNow d) body held c), set_comments <[id := revised (cmNow d) body held c]> (draw_cm d))
      else (Err ErrNoRows, draw_cm d)
  | None => insert_comment (mkComment video None body parent (cmNow d) (cmNow d) (Some actor) (Some name) (Some url) None false held) d
  end.

Definition q_GetComment (id : uuid) : cstmt (uuid * Comment) := fun d =>
  (match cmComments d !! id with Some c => Ok (id, c) | None => Err ErrNoRows end, d).

Definition q_GetCommentByRemoteObjectURL (url : string) : cstmt (uuid * Comment) := fun d =>
  (match by_object url d with Some r => Ok r | None => Err ErrNoRows end, d).

Definition q_UpdateComment (id : uuid) (body : string) (hold : bool) : cstmt (uuid * Comment) := fun d =>
  match cmComments d !! id with
  | Some c => (Ok (id, revised (cmNow d) body hold c), set_comments <[id := revised (cmNow d) body hold c]> d)
  | None => (Err ErrNoRows, d)
  end.

Definition with_flags (hearted held : bool) (c : Comment) : Comment :=
  mkComment (coVideo c) (coUser c) (coBody c) (coParent c) (coCreated c) (coUpdated c) (coActor c) (coActorName c) (coObject c) (coDeleted c) hearted held.

Definition q_SetCommentHearted (id : uuid) (hearted : bool) : cstmt (uuid * Comment) := fun d =>
  match cmComments d !! id with
  | Some c => (Ok (id, with_flags hearted (coHeld c) c), set_comments <[id := with_flags hearted (coHeld c) c]> d)
  | None => (Err ErrNoRows, d)
  end.

(** Only while held, and only the version named. *)
Definition q_ApproveComment (id : uuid) (version : time) : cstmt (uuid * Comment) := fun d =>
  match cmComments d !! id with
  | Some c =>
      if coHeld c && (coUpdated c =? version)
      then (Ok (id, with_flags (coHearted c) false c), set_comments <[id := with_flags (coHearted c) false c]> d)
      else (Err ErrNoRows, d)
  | None => (Err ErrNoRows, d)
  end.

(** The pin is a foreign key to a comment. *)
Definition q_SetVideoPinnedComment (video : uuid) (pin : option uuid) : cstmt unit := fun d =>
  match cmVideos d !! video with
  | None => (Ok tt, d)
  | Some v =>
      if match pin with Some id => bool_decide (cmComments d !! id = None) | None => false end then (Err ErrForeignKey, d)
      else (Ok tt, set_videos <[video := mkCVideo (vdChannel v) (vdTitle v) (vdPrivacy v) (vdState v) (vdPolicy v) (vdBlocked v) pin]> d)
  end.

(** ** Deletion *)

(** The comments of a set and the replies under them, [n] levels deep. *)
Fixpoint replies_of (n : nat) (m : gmap uuid Comment) (doomed : gset uuid) : gset uuid :=
  match n with
  | O => doomed
  | S n => replies_of n m (doomed ∪ list_to_set (map fst (filter (fun r => match coParent r.2 with Some p => bool_decide (p ∈ doomed) | None => false end = true)
                                                   (rows_of m))))
  end.

(** ON DELETE CASCADE along the replies, SET NULL on the pins; the automatic
    tags go too. No chain of replies is longer than the table. *)
Definition cascade (doomed : gset uuid) (d : CDB) : CDB :=
  let gone := replies_of (size (cmComments d)) (cmComments d) doomed in
  with_comments
    ((fun v => mkCVideo (vdChannel v) (vdTitle v) (vdPrivacy v) (vdState v) (vdPolicy v) (vdBlocked v)
       (match vdPinned v with Some p => if bool_decide (p ∈ gone) then None else Some p | None => None end)) <$> cmVideos d)
    (filter (fun r => r.1 ∉ gone) (cmComments d)) (filter (fun r => r.1 ∉ gone) (cmTags d)) (cmDrawn d) d.

Definition q_DeleteComment (id : uuid) : cstmt unit := fun d => (Ok tt, cascade {[id]} d).

Definition authored (user : option uuid) (url : option string) (c : Comment) : bool :=
  match user with Some u => bool_decide (coUser c = Some u) | None => false end || match url with Some a => bool_decide (coActor c = Some a) | None => false end.

(** The rows of the author are returned; the replies that go with them are not. *)
Definition q_DeleteCommentsByAuthor (user : option uuid) (url : option string) : cstmt (list (uuid * Comment)) := fun d =>
  let rows := filter (fun r => authored user url r.2 = true) (rows_of (cmComments d)) in
  (Ok rows, cascade (list_to_set (map fst rows)) d).

(** A deleted account's comments: the text goes, the row stays. *)
Definition q_TombstoneUserComments (user : uuid) : cstmt unit := fun d =>
  let hit c := bool_decide (coUser c = Some user) && bool_decide (coDeleted c = None) in
  (Ok tt, with_comments (cmVideos d)
     ((fun c => if hit c then mkComment (coVideo c) (coUser c) EmptyString (coParent c) (coCreated c) (cmNow d) (coActor c) (coActorName c) (coObject c)
                               (Some (cmNow d)) (coHearted c) (coHeld c) else c) <$> cmComments d)
     (filter (fun r => match cmComments d !! r.1 with Some c => hit c | None => false end = false) (cmTags d)) (cmDrawn d) d).

(** The actor's comments cascade away. *)
Definition q_DeleteRemoteActor (url : string) : cstmt Z := fun d =>
  let rows := filter (fun r => coActor r.2 = Some url) (rows_of (cmComments d)) in
  let d' := cascade (list_to_set (map fst rows)) d in
  (Ok (if bool_decide (is_Some (cmActors d !! url)) then 1 else 0),
   mkCDB (cmUsers d') (delete url (cmActors d')) (cmChannels d') (cmMembers d') (cmVideos d') (cmLegacy d') (cmComments d') (cmTags d') (cmMuted d')
     (cmBlocks d') (cmBlockedInstances d') (cmMutedInstances d') (cmReach d') (cmInboxes d') (cmClock d') (cmTick d') (cmGen d') (cmDrawn d')).

(** ** Reading threads *)

(** A comment with its author's identity and whether it is the pinned one. *)
Record MetaRow := mkMetaRow {
  mtID : uuid; mtComment : Comment; mtPinned : bool; mtName : string; mtDisplay : string; mtRemoteName : string; mtDomain : string; mtTitle : string;
}.

(** JOIN videos, LEFT JOIN users, LEFT JOIN remote_actors *)
Definition meta_row (d : CDB) (r : uuid * Comment) : option MetaRow :=
  let u := coUser r.2 ≫= fun u => cmUsers d !! u in
  let a := coActor r.2 ≫= fun a => cmActors d !! a in
  (fun v => mkMetaRow r.1 r.2 (bool_decide (vdPinned v = Some r.1)) (default EmptyString (cuName <$> u)) (default EmptyString (cuDisplay <$> u))
              (default EmptyString (coActorName r.2)) (default EmptyString (raDomain <$> a)) (vdTitle v)) <$> cmVideos d !! coVideo r.2.

Definition q_GetCommentWithMeta (id : uuid) : cstmt MetaRow := fun d =>
  (match cmComments d !! id ≫= fun c => meta_row d (id, c) with Some r => Ok r | None => Err ErrNoRows end, d).

(** What hides a comment from a viewer ([None]: nobody signed in): the viewer's
    mutes and blocks of its author, blocked instances, the viewer's muted
    instances, blocked actors. *)
Definition muted (viewer : option uuid) (c : Comment) (d : CDB) : bool :=
  match viewer, coUser c with
  | Some w, Some u => bool_decide ((w, u) ∈ cmMuted d) || bool_decide ((w, u) ∈ cmBlocks d)
  | _, _ => false
  end.

Definition blocked_domain (viewer : option uuid) (c : Comment) (d : CDB) : bool :=
  match coActor c ≫= fun a => cmActors d !! a with
  | Some a => bool_decide (raDomain a ∈ cmBlockedInstances d) || match viewer with Some w => bool_decide ((w, raDomain a) ∈ cmMutedInstances d) | None => false end
  | None => false
  end.

Definition blocked_actor (viewer : option uuid) (c : Comment) (d : CDB) : bool :=
  match coActor c with
  | Some a => bool_decide ((None, a) ∈ cmReach d) || match viewer with Some w => bool_decide ((Some w, a) ∈ cmReach d) | None => false end
  | None => false
  end.

(** A held comment is shown to its author and to reviewers. *)
Definition shown_held (viewer : option uuid) (reviewer : bool) (c : Comment) : bool :=
  negb (coHeld c) || reviewer || match viewer, coUser c with Some w, Some u => bool_decide (u = w) | _, _ => false end.

Definition visible (viewer : option uuid) (reviewer : bool) (d : CDB) (c : Comment) : bool :=
  negb (muted viewer c d) && negb (blocked_domain viewer c d) && negb (blocked_actor viewer c d) && shown_held viewer reviewer c.

(** ORDER BY pinned DESC, created_at DESC, id DESC *)
Definition thread_order (x y : MetaRow) : Prop :=
  mtPinned x = true /\ mtPinned y = false \/
  mtPinned x = mtPinned y /\ newest (coCreated (mtComment x), mtID x) (coCreated (mtComment y), mtID y).

#[global] Instance thread_order_dec : RelDecision thread_order.
Proof. intros x y. unfold thread_order. apply _. Defined.

Definition thread_rows (video : uuid) (viewer : option uuid) (reviewer : bool) (d : CDB) : list MetaRow :=
  omap (meta_row d) (filter (fun r => coVideo r.2 = video /\ visible viewer reviewer d r.2 = true) (rows_of (cmComments d))).

Definition q_ListCommentsByVideo (video : uuid) (viewer : option uuid) (reviewer : bool) (limit offset : Z) : cstmt (list MetaRow) := fun d =>
  (Ok (paged limit offset (merge_sort thread_order (thread_rows video viewer reviewer d))), d).

Definition q_CountCommentsByVideo (video : uuid) (viewer : option uuid) (reviewer : bool) : cstmt Z := fun d =>
  (Ok (Z.of_nat (length (thread_rows video viewer reviewer d))), d).

(** The videos of channels the user owns or edits. *)
Definition managed_rows (user : uuid) (held : option bool) (d : CDB) : list MetaRow :=
  omap (meta_row d) (filter (fun r => match cmVideos d !! coVideo r.2 with Some v => manages (vdChannel v) user d | None => false end = true /\
                                      match held with Some h => bool_decide (coHeld r.2 = h) | None => true end = true) (rows_of (cmComments d))).

Definition meta_key (r : MetaRow) : time * uuid := (coCreated (mtComment r), mtID r).

Definition q_ListManagedVideoComments (user : uuid) (held : option bool) (limit offset : Z) : cstmt (list MetaRow) := fun d =>
  (Ok (paged limit offset (merge_sort (on_key meta_key newest) (managed_rows user held d))), d).

Definition q_CountManagedVideoComments (user : uuid) (held : option bool) : cstmt Z := fun d => (Ok (Z.of_nat (length (managed_rows user held d))), d).

(** ILIKE: up to case, per cent for any text, underscore for one character, a
    backslash before a character for itself. *)
Fixpoint ilike (p s : string) : bool :=
  match p with
  | EmptyString => match s with EmptyString => true | _ => false end
  | String c p' =>
      if code c =? 37 then (fix skip (s : string) : bool := ilike p' s || match s with String _ s' => skip s' | EmptyString => false end) s
      else match s with
           | EmptyString => false
           | String x s' =>
               if code c =? 95 then ilike p' s'
               else if code c =? 92 then match p' with String e p'' => bool_decide (lower_char e = lower_char x) && ilike p'' s' | EmptyString => false end
               else bool_decide (lower_char c = lower_char x) && ilike p' s'
           end
  end.

Definition tags_of (id : uuid) (d : CDB) : list string := map snd (filter (fun r => r.1 = id) (elements (cmTags d))).

Definition admin_rows (query tag : option string) (d : CDB) : list MetaRow :=
  omap (meta_row d) (filter (fun r =>
    match query with Some q => ilike ("%" +:+ q +:+ "%") (coBody r.2) | None => true end = true /\
    match tag with Some t => existsb (fun x => bool_decide (ToLower x = ToLower t)) (tags_of r.1 d) | None => true end = true) (rows_of (cmComments d))).

(** ORDER BY tag *)
Definition tag_order (x y : string) : Prop := String.leb x y = true.

#[global] Instance tag_order_dec : RelDecision tag_order.
Proof. intros x y. unfold tag_order. apply _. Defined.

Definition q_ListAdminComments (query tag : option string) (limit offset : Z) : cstmt (list (MetaRow * list string)) := fun d =>
  (Ok (map (fun r => (r, merge_sort tag_order (tags_of (mtID r) d))) (paged limit offset (merge_sort (on_key meta_key newest) (admin_rows query tag d)))), d).

Definition q_CountAdminComments (query tag : option string) : cstmt Z := fun d => (Ok (Z.of_nat (length (admin_rows query tag d))), d).

(** ** What the services run against *)

(** An activity about a comment, as its JSON says: the type, the author's name,
    the comment, and for a Note what it replies to and its text. *)
Inductive activity :=
| NoteActivity (type username : string) (id : uuid) (inReplyTo body : string)
| DeleteActivity (username : string) (id : uuid).

Record Delivery := mkDelivery { dlInbox : string; dlUser : uuid; dlUsername : string; dlActivity : activity }.

(** Which hook of the comment service was called. *)
Inductive hook := OnCreate | OnUpdate | OnDelete.

#[global] Instance hook_eq_dec : EqDecision hook.
Proof. solve_decision. Defined.

(** The database; the delivery queue; the calls of the hooks; and what the
    watched words, the notifier, the moderation flagging, the instance actor
    and the mirror of remote threads answer to their n-th request. *)
Record cworld := mkCW {
  cdb : faulty CDB;
  cqueue : list Delivery;
  chooks : list (hook * uuid);
  casked : nat;
  cholds : nat -> option bool;
  crecipient : nat -> option uuid;
  cinstance : nat -> option (list string);
  cmirror : nat -> result dberr bool;
}.

(** [comment.Repository] and what the handlers and the federation of comments
    call beside it. *)
Inductive comE : Type -> Type :=
| GetUserByID (id : uuid) : comE (result dberr (uuid * CUser))
| GetUserActorByID (id : uuid) : comE (result dberr string)
| GetCommentAuthorIDByUsername (name : string) : comE (result dberr uuid)
| GetVideoByID (id : uuid) : comE (result dberr VideoRow)
| GetChannelByID (id : uuid) : comE (result dberr Channel)
| IsChannelManager (channel user : uuid) : comE (result dberr bool)
| IsVideoBlocked (id : uuid) : comE (result dberr bool)
| GetVideoIDByLegacyUUID (legacy : uuid) : comE (result dberr uuid)
| GetRemoteActor (url : string) : comE (result dberr Actor)
| IsRemoteActorBlockedInstanceWide (url : string) : comE (result dberr bool)
| IsRemoteActorBlockedByAnyone (url : string) : comE (result dberr bool)
| IsRemoteActorBlockedBy (blocker : uuid) (url : string) : comE (result dberr bool)
| ListRemoteFollowerInboxes (channel : uuid) : comE (result dberr (list string))
| CreateComment (video user : uuid) (body : string) (parent : option uuid) (held : bool) : comE (result dberr (uuid * Comment))
| CreateRemoteComment (video : uuid) (body : string) (parent : option uuid) (actor name url : string) (held : bool) : comE (result dberr (uuid * Comment))
| GetComment (id : uuid) : comE (result dberr (uuid * Comment))
| GetCommentByRemoteObjectURL (url : string) : comE (result dberr (uuid * Comment))
| UpdateComment (id : uuid) (body : string) (hold : bool) : comE (result dberr (uuid * Comment))
| SetCommentHearted (id : uuid) (hearted : bool) : comE (result dberr (uuid * Comment))
| ApproveComment (id : uuid) (version : time) : comE (result dberr (uuid * Comment))
| SetVideoPinnedComment (video : uuid) (pin : option uuid) : comE (result dberr unit)
| DeleteComment (id : uuid) : comE (result dberr unit)
| DeleteCommentsByAuthor (user : option uuid) (url : option string) : comE (result dberr (list (uuid * Comment)))
| TombstoneUserComments (user : uuid) : comE (result dberr unit)
| DeleteRemoteActor (url : string) : comE (result dberr Z)
| GetCommentWithMeta (id : uuid) : comE (result dberr MetaRow)
| ListCommentsByVideo (video : uuid) (viewer : option uuid) (reviewer : bool) (limit offset : Z) : comE (result dberr (list MetaRow))
| CountCommentsByVideo (video : uuid) (viewer : option uuid) (reviewer : bool) : comE (result dberr Z)
| ListManagedVideoComments (user : uuid) (held : option bool) (limit offset : Z) : comE (result dberr (list MetaRow))
| CountManagedVideoComments (user : uuid) (held : option bool) : comE (result dberr Z)
| ListAdminComments (query tag : option string) (limit offset : Z) : comE (result dberr (list (MetaRow * list string)))
| CountAdminComments (query tag : option string) : comE (result dberr Z)
| EnsureAccountKey (user : uuid) : comE (result dberr unit)
| EnqueueDelivery (dl : Delivery) : comE (result dberr unit)
| Hooked (k : hook) (id : uuid) : comE unit
| ShouldHold (video : uuid) (body : string) : comE (option bool)
| NotifyCommentReply (author id : uuid) : comE (option uuid)
| Notify (kind : string) (id : uuid) : comE unit
| InstanceAudience (channel : uuid) : comE (option (list string))
| MirrorNote (url : string) : comE (result dberr bool).

Definition with_cdb f w : cworld := mkCW f (cqueue w) (chooks w) (casked w) (cholds w) (crecipient w) (cinstance w) (cmirror w).
Definition with_cqueue q w : cworld := mkCW (cdb w) q (chooks w) (casked w) (cholds w) (crecipient w) (cinstance w) (cmirror w).
Definition log_hook k id w : cworld := mkCW (cdb w) (cqueue w) ((k, id) :: chooks w) (casked w) (cholds w) (crecipient w) (cinstance w) (cmirror w).
Definition ask w : cworld := mkCW (cdb w) (cqueue w) (chooks w) (S (casked w)) (cholds w) (crecipient w) (cinstance w) (cmirror w).

(** Each statement has its own moment. *)
Definition on_cm {A} (q : CDB -> result dberr A * CDB) (w : cworld) : result dberr A * cworld :=
  let q' d := ((q d).1, tick_cm (q d).2) in ((exec q' (cdb w)).1, with_cdb (exec q' (cdb w)).2 w).

(** A row of the delivery queue: inserted, unless the statement fails. *)
Definition enqueue (dl : Delivery) (w : cworld) : result dberr unit * cworld :=
  let r := exec (fun d => (Ok tt, d)) (cdb w) in
  (r.1, match head (faults (cdb w)) with Some FailBefore => with_cdb r.2 w | _ => with_cqueue (dl :: cqueue w) (with_cdb r.2 w) end).

Definition com_handler : handler comE cworld := fun X e w =>
  match e in comE X return X * cworld with
  | GetUserByID id => on_cm (q_GetUserByID id) w
  | GetUserActorByID id => on_cm (q_GetUserActorByID id) w
  | GetCommentAuthorIDByUsername name => on_cm (q_GetCommentAuthorIDByUsername name) w
  | GetVideoByID id => on_cm (q_GetVideoByID id) w
  | GetChannelByID id => on_cm (q_GetChannelByID id) w
  | IsChannelManager channel user => on_cm (q_IsChannelManager channel user) w
  | IsVideoBlocked id => on_cm (q_IsVideoBlocked id) w
  | GetVideoIDByLegacyUUID legacy => on_cm (q_GetVideoIDByLegacyUUID legacy) w
  | GetRemoteActor url => on_cm (q_GetRemoteActor url) w
  | IsRemoteActorBlockedInstanceWide url => on_cm (q_IsRemoteActorBlockedInstanceWide url) w
  | IsRemoteActorBlockedByAnyone url => on_cm (q_IsRemoteActorBlockedByAnyone url) w
  | IsRemoteActorBlockedBy blocker url => on_cm (q_IsRemoteActorBlockedBy blocker url) w
  | ListRemoteFollowerInboxes channel => on_cm (q_ListRemoteFollowerInboxes channel) w
  | CreateComment video user body parent held => on_cm (q_CreateComment video user body parent held) w
  | CreateRemoteComment video body parent actor name url held => on_cm (q_CreateRemoteComment video body parent actor name url held) w
  | GetComment id => on_cm (q_GetComment id) w
  | GetCommentByRemoteObjectURL url => on_cm (q_GetCommentByRemoteObjectURL url) w
  | UpdateComment id body hold => on_cm (q_UpdateComment id body hold) w
  | SetCommentHearted id hearted => on_cm (q_SetCommentHearted id hearted) w
  | ApproveComment id version => on_cm (q_ApproveComment id version) w
  | SetVideoPinnedComment video pin => on_cm (q_SetVideoPinnedComment video pin) w
  | DeleteComment id => on_cm (q_DeleteComment id) w
  | DeleteCommentsByAuthor user url => on_cm (q_DeleteCommentsByAuthor user url) w
  | TombstoneUserComments user => on_cm (q_TombstoneUserComments user) w
  | DeleteRemoteActor url => on_cm (q_DeleteRemoteActor url) w
  | GetCommentWithMeta id => on_cm (q_GetCommentWithMeta id) w
  | ListCommentsByVideo video viewer reviewer limit offset => on_cm (q_ListCommentsByVideo video viewer reviewer limit offset) w
  | CountCommentsByVideo video viewer reviewer => on_cm (q_CountCommentsByVideo video viewer reviewer) w
  | ListManagedVideoComments user held limit offset => on_cm (q_ListManagedVideoComments user held limit offset) w
  | CountManagedVideoComments user held => on_cm (q_CountManagedVideoComments user held) w
  | ListAdminComments query tag limit offset => on_cm (q_ListAdminComments query tag limit offset) w
  | CountAdminComments query tag => on_cm (q_CountAdminComments query tag) w
  | EnsureAccountKey _ => on_cm (fun d => (Ok tt, d)) w
  | EnqueueDelivery dl => enqueue dl w
  | Hooked k id => (tt, log_hook k id w)
  | ShouldHold _ _ => (cholds w (casked w), ask w)
  | NotifyCommentReply _ _ => (crecipient w (casked w), ask w)
  | Notify _ _ => (tt, ask w)
  | InstanceAudience _ => (cinstance w (casked w), ask w)
  | MirrorNote _ => (cmirror w (casked w), ask w)
  end.
