(* ===== verification/Comments.v ===== *)
(** * Comments (src/internal/comment, comments of src/internal/federation and src/internal/httpapi)

    The comment service; the federation of comments in both directions; and the
    handlers, which decide who may do what and which comments are held for
    review. Mentions and the JSON of activities are left out: an activity
    carries what its Note says. *)
From S2P Require Import Prelude GoStrings Encoding Secretbox CommentStore.
Local Open Scope Z_scope.

Abbreviation M A := (prog comE A) (only parsing).

Inductive comerr :=
| CErrNotFound | CErrForbidden | CErrParentNotFound | CErrNotTopLevel | CErrTombstoned | CErrParentHeld | CErrStale | CErrHeld
| CErrDB (e : dberr).

(** ** Federation: outbound *)

(** What [federation.Service] is configured with. *)
Record Fed := mkFed { fdBase : string; fdFlagger : bool; fdComments : bool }.

(** [federation.Service.localCommentURL] *)
Definition localCommentURL (f : Fed) (id : uuid) : string := fdBase f +:+ "/comments/" +:+ id.

(** [federation.Service.loadVideoAndChannel] *)
Definition loadVideoAndChannel (video : uuid) : M (result dberr (option (VideoRow * Channel))) :=
  r ← call (GetVideoByID video);
  match r with
  | Err ErrNoRows => mret (Ok None)
  | Err e => mret (Err e)
  | Ok v =>
      c ← call (GetChannelByID (vdChannel (vrVideo v)));
      mret (match c with Err ErrNoRows => Ok None | Err e => Err e | Ok ch => Ok (Some (v, ch)) end)
  end.

(** [federation.Service.commentReplyTarget] *)
Definition commentReplyTarget (f : Fed) (c : Comment) : M (result dberr string) :=
  let onto_video := fdBase f +:+ "/videos/" +:+ coVideo c in
  match coParent c with
  | None => mret (Ok onto_video)
  | Some p =>
      r ← call (GetComment p);
      mret (match r with
            | Ok (pid, pc) => Ok (match coObject pc with
                                  | Some url => if bool_decide (url = EmptyString) then localCommentURL f pid else url
                                  | None => localCommentURL f pid
                                  end)
            | Err ErrNoRows => Ok onto_video
            | Err e => Err e
            end)
  end.

(** [federation.Service.buildNoteActivity]: what its JSON says. *)
Definition buildNoteActivity (type username : string) (id : uuid) (c : Comment) (inReplyTo : string) : activity :=
  NoteActivity type username id inReplyTo (coBody c).

(** [federation.Service.videoAudience]: the followers of the channel and, unless
    they are to be left out, the instances that follow this one. *)
Definition videoAudience (channel : uuid) : M (result dberr (list string)) :=
  r ← call (ListRemoteFollowerInboxes channel);
  match r with
  | Err e => mret (Err e)
  | Ok inboxes =>
      m ← call (InstanceAudience channel);
      mret (match m with None => Err ErrStore | Some more => Ok (foldl (fun seen x => if bool_decide (x ∈ seen) then seen else seen ++ [x]) inboxes more) end)
  end.

Fixpoint enqueue_each (user : uuid) (username : string) (a : activity) (inboxes : list string) : M (result dberr unit) :=
  match inboxes with
  | [] => mret (Ok tt)
  | i :: rest =>
      if bool_decide (i = EmptyString) then enqueue_each user username a rest else
      r ← call (EnqueueDelivery (mkDelivery i user username a));
      match r with Err e => mret (Err e) | Ok _ => enqueue_each user username a rest end
  end.

(** [federation.Service.fanOutAsAccount] *)
Definition fanOutAsAccount (channel user : uuid) (username : string) (a : activity) : M (result dberr unit) :=
  r ← videoAudience channel;
  match r with
  | Err e => mret (Err e)
  | Ok [] => mret (Ok tt)
  | Ok inboxes =>
      k ← call (EnsureAccountKey user);
      match k with Err e => mret (Err e) | Ok _ => enqueue_each user username a inboxes end
  end.

Definition public_now (v : CVideo) : bool :=
  bool_decide (vdPrivacy v = "public"%string) && bool_decide (vdState v = "published"%string) && negb (vdBlocked v).

(** [federation.Service.federateComment] *)
Definition federateComment (f : Fed) (type : string) (id : uuid) : M (result dberr unit) :=
  r ← call (GetComment id);
  match r with
  | Err ErrNoRows => mret (Ok tt)
  | Err e => mret (Err e)
  | Ok (_, c) =>
      match coUser c with
      | None => mret (Ok tt)
      | Some author =>
          if coHeld c then mret (Ok tt) else
          l ← loadVideoAndChannel (coVideo c);
          match l with
          | Err e => mret (Err e)
          | Ok None => mret (Ok tt)
          | Ok (Some (v, ch)) =>
              if negb (chAP ch) then mret (Ok tt) else
              if negb (public_now (vrVideo v)) then mret (Ok tt) else
              u ← call (GetUserActorByID author);
              match u with
              | Err ErrNoRows => mret (Ok tt)
              | Err e => mret (Err e)
              | Ok username =>
                  t ← commentReplyTarget f c;
                  match t with
                  | Err e => mret (Err e)
                  | Ok target => fanOutAsAccount (vdChannel (vrVideo v)) author username (buildNoteActivity type username id c target)
                  end
              end
          end
      end
  end.

(** [federation.Service.AnnounceComment] and [UpdateComment] *)
Definition AnnounceComment (f : Fed) (id : uuid) : M (result dberr unit) := federateComment f "Create" id.
Definition AnnounceUpdate (f : Fed) (id : uuid) : M (result dberr unit) := federateComment f "Update" id.

(** [federation.Service.DeleteComment] *)
Definition AnnounceDelete (id video author : uuid) : M (result dberr unit) :=
  r ← call (GetVideoByID video);
  match r with
  | Err ErrNoRows => mret (Ok tt)
  | Err e => mret (Err e)
  | Ok v =>
      c ← call (GetChannelByID (vdChannel (vrVideo v)));
      match c with
      | Err ErrNoRows => mret (Ok tt)
      | Err e => mret (Err e)
      | Ok ch =>
          if negb (chAP ch) then mret (Ok tt) else
          u ← call (GetUserActorByID author);
          match u with
          | Err ErrNoRows => mret (Ok tt)
          | Err e => mret (Err e)
          | Ok username => fanOutAsAccount (vdChannel (vrVideo v)) author username (DeleteActivity username id)
          end
      end
  end.

(** ** The service *)

(** The hooks, as cmd/api wires them when federation is on ([Some]): their
    errors are logged. *)
Definition onCreate (f : option Fed) (id : uuid) : M unit :=
  match f with None => mret tt | Some f => _ ← call (Hooked OnCreate id); _ ← AnnounceComment f id; mret tt end.
Definition onUpdate (f : option Fed) (id : uuid) : M unit :=
  match f with None => mret tt | Some f => _ ← call (Hooked OnUpdate id); _ ← AnnounceUpdate f id; mret tt end.
Definition onDelete (f : option Fed) (id video author : uuid) : M unit :=
  match f with None => mret tt | Some _ => _ ← call (Hooked OnDelete id); _ ← AnnounceDelete id video author; mret tt end.

(** [WithAuthor] *)
Record WithAuthor := mkWithAuthor {
  waID : uuid; waComment : Comment; waName : string; waDisplay : string; waRemote : bool; waDomain : string; waPinned : bool;
}.

(** [withAuthorFromMeta]; the projection has no name snapshot and no Note id. *)
Definition withAuthorFromMeta (r : MetaRow) : WithAuthor :=
  let m := mtComment r in
  let c := mkComment (coVideo m) (coUser m) (coBody m) (coParent m) (coCreated m) (coUpdated m) (coActor m) None None (coDeleted m) (coHearted m) (coHeld m) in
  match coActor m with
  | Some _ => mkWithAuthor (mtID r) c (mtRemoteName r) (mtRemoteName r) true (mtDomain r) (mtPinned r)
  | None => mkWithAuthor (mtID r) c (mtName r) (mtDisplay r) false EmptyString (mtPinned r)
  end.

(** [Service.create] *)
Definition create (f : option Fed) (video user : uuid) (body : string) (parent : option uuid) (held : bool) : M (result comerr (uuid * Comment)) :=
  p ← match parent with
      | None => mret (Ok None)
      | Some p =>
          r ← call (GetComment p);
          mret (match r with
                | Err _ => Err CErrParentNotFound
                | Ok (_, c) => if negb (bool_decide (coVideo c = video)) then Err CErrParentNotFound else if coHeld c then Err CErrParentHeld else Ok (Some p)
                end)
      end;
  match p with
  | Err e => mret (Err e)
  | Ok parent =>
      r ← call (CreateComment video user body parent held);
      match r with
      | Err e => mret (Err (CErrDB e))
      | Ok created => _ ← (if held then mret tt else onCreate f created.1); mret (Ok created)
      end
  end.

(** [Service.Create] and [CreateHeld] *)
Definition CreatePublished f video user body parent := create f video user body parent false.
Definition CreateHeld f video user body parent := create f video user body parent true.

(** [Service.Approve]: with whether this call made the transition. *)
Definition Approve (f : option Fed) (id : uuid) (version : time) : M (result comerr (WithAuthor * bool)) :=
  a ← call (ApproveComment id version);
  match a with
  | Err ErrNoRows | Ok _ =>
      let released := match a with Ok _ => true | Err _ => false end in
      r ← call (GetCommentWithMeta id);
      match r with
      | Err _ => mret (Err CErrNotFound)
      | Ok row =>
          if negb released && coHeld (mtComment row) then mret (Err CErrStale) else
          _ ← (if released && bool_decide (is_Some (coUser (mtComment row))) then onCreate f id else mret tt);
          mret (Ok (withAuthorFromMeta row, released))
      end
  | Err e => mret (Err (CErrDB e))
  end.

(** [Service.ListByVideo] *)
Definition ListByVideo (video : uuid) (viewer : option uuid) (includeHeld : bool) (limit offset : Z) : M (result comerr (list WithAuthor * Z)) :=
  r ← call (ListCommentsByVideo video viewer includeHeld limit offset);
  match r with
  | Err e => mret (Err (CErrDB e))
  | Ok rows =>
      n ← call (CountCommentsByVideo video viewer includeHeld);
      mret (match n with Err e => Err (CErrDB e) | Ok total => Ok (map withAuthorFromMeta rows, total) end)
  end.

(** [Service.Delete] *)
Definition Delete (f : option Fed) (id user : uuid) (isModerator : bool) : M (result comerr unit) :=
  r ← call (GetComment id);
  match r with
  | Err _ => mret (Err CErrNotFound)
  | Ok (_, c) =>
      if negb isModerator && negb (bool_decide (coUser c = Some user)) then mret (Err CErrForbidden) else
      d ← call (DeleteComment id);
      match d with
      | Err e => mret (Err (CErrDB e))
      | Ok _ =>
          _ ← match coUser c with Some author => if coHeld c then mret tt else onDelete f id (coVideo c) author | None => mret tt end;
          mret (Ok tt)
      end
  end.

Fixpoint delete_hooks (f : option Fed) (rows : list (uuid * Comment)) : M unit :=
  match rows with
  | [] => mret tt
  | (id, c) :: rest => _ ← match coUser c with Some author => onDelete f id (coVideo c) author | None => mret tt end; delete_hooks f rest
  end.

(** [Service.RemoveByAccount]; the id of a remote actor is [uuid_Nil]. *)
Definition RemoveByAccount (f : option Fed) (account : string) : M (result comerr (Z * uuid)) :=
  let account := TrimSpace account in
  if bool_decide (account = EmptyString) then mret (Err CErrNotFound) else
  who ← (if HasPrefix account "http://" || HasPrefix account "https://" then mret (Ok (None, Some account)) else
         r ← call (GetCommentAuthorIDByUsername (TrimPrefix account "@"));
         mret (match r with Err _ => Err CErrNotFound | Ok id => Ok (Some id, None) end));
  match who with
  | Err e => mret (Err e)
  | Ok (user, url) =>
      r ← call (DeleteCommentsByAuthor user url);
      match r with
      | Err e => mret (Err (CErrDB e))
      | Ok rows => _ ← delete_hooks f rows; mret (Ok (Z.of_nat (length rows), default uuid_Nil user))
      end
  end.

(** [Service.edit] *)
Definition edit (f : option Fed) (id user : uuid) (body : string) (hold : bool) : M (result comerr (uuid * Comment)) :=
  r ← call (GetComment id);
  match r with
  | Err _ => mret (Err CErrNotFound)
  | Ok (_, c) =>
      if negb (bool_decide (coUser c = Some user)) then mret (Err CErrForbidden) else
      u ← call (UpdateComment id body hold);
      match u with
      | Err e => mret (Err (CErrDB e))
      | Ok updated =>
          _ ← (if negb (coHeld updated.2) then onUpdate f updated.1
               else if negb (coHeld c) then onDelete f id (coVideo c) user else mret tt);
          mret (Ok updated)
      end
  end.

(** [Service.Edit] and [EditForReview] *)
Definition Edit f id user body := edit f id user body false.
Definition EditForReview f id user body := edit f id user body true.

(** [Service.Get] and [IsPinned] *)
Definition GetOne (id : uuid) : M (result comerr (uuid * Comment)) :=
  r ← call (GetComment id); mret (match r with Err _ => Err CErrNotFound | Ok c => Ok c end).
Definition IsPinned (id : uuid) : M (result comerr bool) :=
  r ← call (GetCommentWithMeta id); mret (match r with Err _ => Err CErrNotFound | Ok row => Ok (mtPinned row) end).

Definition with_pinned (b : bool) (r : MetaRow) : MetaRow :=
  mkMetaRow (mtID r) (mtComment r) b (mtName r) (mtDisplay r) (mtRemoteName r) (mtDomain r) (mtTitle r).

(** [Service.Pin] *)
Definition Pin (id : uuid) : M (result comerr WithAuthor) :=
  r ← call (GetCommentWithMeta id);
  match r with
  | Err _ => mret (Err CErrNotFound)
  | Ok row =>
      if bool_decide (is_Some (coDeleted (mtComment row))) then mret (Err CErrTombstoned) else
      if bool_decide (is_Some (coParent (mtComment row))) then mret (Err CErrNotTopLevel) else
      if coHeld (mtComment row) then mret (Err CErrHeld) else
      s ← call (SetVideoPinnedComment (coVideo (mtComment row)) (Some id));
      mret (match s with Err e => Err (CErrDB e) | Ok _ => Ok (withAuthorFromMeta (with_pinned true row)) end)
  end.

(** [Service.Unpin] *)
Definition Unpin (id : uuid) : M (result comerr WithAuthor) :=
  r ← call (GetCommentWithMeta id);
  match r with
  | Err _ => mret (Err CErrNotFound)
  | Ok row =>
      if mtPinned row then
        s ← call (SetVideoPinnedComment (coVideo (mtComment row)) None);
        mret (match s with Err e => Err (CErrDB e) | Ok _ => Ok (withAuthorFromMeta (with_pinned false row)) end)
      else mret (Ok (withAuthorFromMeta row))
  end.

(** [Service.applyHearted] *)
Definition applyHearted (row : MetaRow) (hearted : bool) : M (result comerr WithAuthor) :=
  s ← call (SetCommentHearted (mtID row) hearted);
  mret (match s with
        | Err e => Err (CErrDB e)
        | Ok _ => Ok (withAuthorFromMeta (mkMetaRow (mtID row) (with_flags hearted (coHeld (mtComment row)) (mtComment row)) (mtPinned row) (mtName row)
                        (mtDisplay row) (mtRemoteName row) (mtDomain row) (mtTitle row)))
        end).

(** [Service.Heart] and [Unheart] *)
Definition Heart (id : uuid) : M (result comerr WithAuthor) :=
  r ← call (GetCommentWithMeta id);
  match r with
  | Err _ => mret (Err CErrNotFound)
  | Ok row => if bool_decide (is_Some (coDeleted (mtComment row))) then mret (Err CErrTombstoned) else applyHearted row true
  end.
Definition Unheart (id : uuid) : M (result comerr WithAuthor) :=
  r ← call (GetCommentWithMeta id); match r with Err _ => mret (Err CErrNotFound) | Ok row => applyHearted row false end.

(** [Service.ListForManager] *)
Definition ListForManager (user : uuid) (held : option bool) (limit offset : Z) : M (result comerr (list (WithAuthor * string) * Z)) :=
  r ← call (ListManagedVideoComments user held limit offset);
  match r with
  | Err e => mret (Err (CErrDB e))
  | Ok rows =>
      n ← call (CountManagedVideoComments user held);
      mret (match n with Err e => Err (CErrDB e) | Ok total => Ok (map (fun r => (withAuthorFromMeta r, mtTitle r)) rows, total) end)
  end.

(** [AdminComment] *)
Record AdminComment := mkAdminComment {
  acID : uuid; acVideo : uuid; acTitle : string; acBody : string; acName : string; acDisplay : string; acRemote : bool; acDomain : string;
  acCreated : time; acDeleted : bool; acTags : list string;
}.

Definition admin_comment (r : MetaRow * list string) : AdminComment :=
  let w := withAuthorFromMeta r.1 in
  mkAdminComment (mtID r.1) (coVideo (mtComment r.1)) (mtTitle r.1) (coBody (mtComment r.1)) (waName w) (waDisplay w) (waRemote w) (waDomain w)
    (coCreated (mtComment r.1)) (bool_decide (is_Some (coDeleted (mtComment r.1)))) r.2.

(** [Service.ListForAdmin] *)
Definition ListForAdmin (query autoTag : string) (limit offset : Z) : M (result comerr (list AdminComment * Z)) :=
  let given s := if bool_decide (TrimSpace s = EmptyString) then None else Some (TrimSpace s) in
  r ← call (ListAdminComments (given query) (given autoTag) limit offset);
  match r with
  | Err e => mret (Err (CErrDB e))
  | Ok rows =>
      n ← call (CountAdminComments (given query) (given autoTag));
      mret (match n with Err e => Err (CErrDB e) | Ok total => Ok (map admin_comment rows, total) end)
  end.

(** ** Federation: inbound *)

(** The parts of a Note the code reads; [nyAttributed]: the actors it names. *)
Record ApNote := mkApNote { nyID : string; nyType : string; nyContent : string; nyInReplyTo : string; nyAttributed : list string }.

Inductive ferr := FErrActorMismatch | FErrDB (e : dberr).

Definition maxRemoteCommentLen : nat := 5000.

Section Inbound.
Context (uuid_parse : string -> option uuid) (url_host : string -> option string) (UnescapeString : string -> string).

(** [hostOf] and [sameHost]; [url_host] is the host of [url.Parse]. *)
Definition hostOf (url : string) : string := match url_host url with Some h => ToLower h | None => EmptyString end.
Definition sameHost (a b : string) : bool := negb (bool_decide (hostOf a = EmptyString)) && bool_decide (hostOf a = hostOf b).

(** [stripHTMLTags] *)
Fixpoint outside_tags (inTag : bool) (s : string) : string :=
  match s with
  | EmptyString => EmptyString
  | String c r =>
      if inTag then outside_tags (negb (code c =? 62)) r
      else if code c =? 60 then outside_tags true r else String c (outside_tags false r)
  end.
Definition stripHTMLTags (s : string) : string := TrimSpace (UnescapeString (outside_tags false s)).

(** [truncate], on ASCII text *)
Definition truncate (s : string) (max : nat) : string := if (String.length s <=? max)%nat then s else take_string max s.

(** [localVideoID] *)
Definition localVideoID (f : Fed) (url : string) : M (result dberr (option uuid)) :=
  let watch := fdBase f +:+ "/videos/watch/" in
  let videos := fdBase f +:+ "/videos/" in
  if HasPrefix url watch then
    match uuid_parse (TrimPrefix url watch) with
    | None => mret (Ok None)
    | Some legacy =>
        r ← call (GetVideoIDByLegacyUUID legacy);
        mret (match r with Ok id => Ok (Some id) | Err ErrNoRows => Ok (Some legacy) | Err e => Err e end)
    end
  else mret (Ok (if HasPrefix url videos then uuid_parse (TrimPrefix url videos) else None)).

(** [localCommentID] *)
Definition localCommentID (f : Fed) (url : string) : option uuid :=
  let comments := fdBase f +:+ "/comments/" in
  if HasPrefix url comments then uuid_parse (TrimPrefix url comments) else None.

(** [videoIsPubliclyVisible] *)
Definition videoIsPubliclyVisible (video : uuid) : M (result dberr bool) :=
  r ← call (GetVideoByID video);
  mret (match r with Ok v => Ok (public_now (vrVideo v)) | Err ErrNoRows => Ok false | Err e => Err e end).

(** [resolveNoteTarget]: the video and the comment replied to. *)
Definition resolveNoteTarget (f : Fed) (inReplyTo : string) : M (result dberr (option (uuid * option uuid))) :=
  if bool_decide (inReplyTo = EmptyString) then mret (Ok None) else
  l ← localVideoID f inReplyTo;
  match l with
  | Err e => mret (Err e)
  | Ok (Some vid) =>
      p ← videoIsPubliclyVisible vid;
      mret (match p with Err e => Err e | Ok b => Ok (if (b : bool) then Some (vid, None) else None) end)
  | Ok None =>
      r ← match localCommentID f inReplyTo with Some cid => call (GetComment cid) | None => call (GetCommentByRemoteObjectURL inReplyTo) end;
      match r with
      | Err ErrNoRows => mret (Ok None)
      | Err e => mret (Err e)
      | Ok (pid, parent) =>
          if coHeld parent then mret (Ok None) else
          p ← videoIsPubliclyVisible (coVideo parent);
          mret (match p with Err e => Err e | Ok b => Ok (if (b : bool) then Some (coVideo parent, Some pid) else None) end)
      end
  end.

(** [videoOwnerBlocksRemoteActor] with [remoteActorBlockedBy] *)
Definition remoteActorBlockedBy (owner : uuid) (actor : string) : M (result dberr bool) :=
  a ← call (IsRemoteActorBlockedInstanceWide actor);
  match a with
  | Err e => mret (Err e)
  | Ok true => mret (Ok true)
  | Ok false =>
      n ← call (IsRemoteActorBlockedByAnyone actor);
      match n with Err e => mret (Err e) | Ok false => mret (Ok false) | Ok true => call (IsRemoteActorBlockedBy owner actor) end
  end.

Definition videoOwnerBlocksRemoteActor (video : uuid) (actor : string) : M (result dberr bool) :=
  r ← loadVideoAndChannel video;
  match r with
  | Err e => mret (Err e)
  | Ok None => mret (Ok false)
  | Ok (Some (_, ch)) => remoteActorBlockedBy (chOwner ch) actor
  end.

(** [federation.Service.watchedWordHolds] *)
Definition fed_watchedWordHolds (f : Fed) (video : uuid) (body : string) : M bool :=
  if fdFlagger f then r ← call (ShouldHold video body); mret (match r with Some b => b | None => false end) else mret false.

(** [videoCommentsPolicy] *)
Definition videoCommentsPolicy (video : uuid) : M (result dberr string) :=
  r ← call (GetVideoByID video); mret (match r with Ok v => Ok (vdPolicy (vrVideo v)) | Err e => Err e end).

Definition must_hold (f : Fed) (policy : string) (video : uuid) (body : string) : M bool :=
  if bool_decide (policy = "requires_approval"%string) then mret true else fed_watchedWordHolds f video body.

(** Flagging and the notices after a Note was stored, and after it was edited. *)
Definition note_stored (f : Fed) (row : uuid * Comment) : M unit :=
  _ ← (if fdFlagger f then call (Notify "flag" row.1) else mret tt);
  call (Notify (if coHeld row.2 then "held" else "mentions") row.1).

Definition note_updated (f : Fed) (row : uuid * Comment) : M unit :=
  _ ← (if coHeld row.2 then call (Notify "held" row.1) else mret tt);
  _ ← (if fdFlagger f then call (Notify "flag" row.1) else mret tt);
  if coHeld row.2 then mret tt else call (Notify "mentions" row.1).

(** [handleCreateNote]; [note]: the object, if it is one. *)
Definition handleCreateNote (f : Fed) (actor signer : string) (note : option ApNote) : M (result ferr unit) :=
  if negb (bool_decide (actor = signer)) then mret (Err FErrActorMismatch) else
  match note with
  | None => mret (Ok tt)
  | Some n =>
      if negb (bool_decide (nyType n = "Note"%string)) then mret (Ok tt) else
      if bool_decide (nyID n = EmptyString) || negb (sameHost (nyID n) signer) then mret (Ok tt) else
      if negb (bool_decide (signer ∈ nyAttributed n)) then mret (Ok tt) else
      h ← call (MirrorNote (nyInReplyTo n));
      match h with
      | Err e => mret (Err (FErrDB e))
      | Ok true => mret (Ok tt)
      | Ok false =>
      t ← resolveNoteTarget f (nyInReplyTo n);
      match t with
      | Err e => mret (Err (FErrDB e))
      | Ok None => mret (Ok tt)
      | Ok (Some (video, parent)) =>
      b ← videoOwnerBlocksRemoteActor video signer;
      match b with
      | Err e => mret (Err (FErrDB e))
      | Ok true => mret (Ok tt)
      | Ok false =>
      let body := truncate (stripHTMLTags (nyContent n)) maxRemoteCommentLen in
      if bool_decide (body = EmptyString) then mret (Ok tt) else
      p ← videoCommentsPolicy video;
      match p with
      | Err e => mret (Err (FErrDB e))
      | Ok policy =>
      if bool_decide (policy = "disabled"%string) || negb (fdComments f) then mret (Ok tt) else
      held ← must_hold f policy video body;
      a ← call (GetRemoteActor signer);
      match a with
      | Err ErrNoRows => mret (Ok tt)
      | Err e => mret (Err (FErrDB e))
      | Ok author =>
          let name := if bool_decide (raName author = EmptyString) then hostOf signer else raName author in
          r ← call (CreateRemoteComment video body parent signer name (nyID n) held);
          match r with
          | Err ErrNoRows => mret (Ok tt)
          | Err e => mret (Err (FErrDB e))
          | Ok row => _ ← note_stored f row; mret (Ok tt)
          end
      end end end end end
  end.

(** [handleUpdateNote] *)
Definition handleUpdateNote (f : Fed) (actor signer : string) (note : option ApNote) : M (result ferr unit) :=
  if negb (bool_decide (actor = signer)) then mret (Err FErrActorMismatch) else
  match note with
  | None => mret (Ok tt)
  | Some n =>
      if negb (bool_decide (nyType n = "Note"%string)) || bool_decide (nyID n = EmptyString) then mret (Ok tt) else
      h ← call (MirrorNote (nyID n));
      match h with
      | Err e => mret (Err (FErrDB e))
      | Ok true => mret (Ok tt)
      | Ok false =>
      r ← call (GetCommentByRemoteObjectURL (nyID n));
      match r with
      | Err ErrNoRows => mret (Ok tt)
      | Err e => mret (Err (FErrDB e))
      | Ok (id, c) =>
          if negb (bool_decide (coActor c = Some signer)) then mret (Ok tt) else
          let body := truncate (stripHTMLTags (nyContent n)) maxRemoteCommentLen in
          if bool_decide (body = EmptyString) then mret (Ok tt) else
          p ← videoCommentsPolicy (coVideo c);
          match p with
          | Err e => mret (Err (FErrDB e))
          | Ok policy =>
              hold ← must_hold f policy (coVideo c) body;
              u ← call (UpdateComment id body hold);
              match u with
              | Err e => mret (Err (FErrDB e))
              | Ok row => _ ← note_updated f row; mret (Ok tt)
              end
          end
      end end
  end.

(** [handleDelete], for comments and actors; [MirrorNote] stands for the remote
    videos and mirrored comments that come first. *)
Definition handleDelete (actor signer obj : string) : M (result ferr unit) :=
  if negb (bool_decide (actor = signer)) then mret (Err FErrActorMismatch) else
  if bool_decide (obj = EmptyString) then mret (Ok tt) else
  h ← call (MirrorNote obj);
  match h with
  | Err e => mret (Err (FErrDB e))
  | Ok true => mret (Ok tt)
  | Ok false =>
  r ← call (GetCommentByRemoteObjectURL obj);
  match r with
  | Ok (id, c) =>
      match coActor c with
      | None => mret (Ok tt)
      | Some a => if negb (bool_decide (a = signer)) && negb (sameHost obj signer) then mret (Ok tt) else
                  d ← call (DeleteComment id); mret (match d with Err e => Err (FErrDB e) | Ok _ => Ok tt end)
      end
  | Err ErrNoRows =>
      a ← call (GetRemoteActor obj);
      match a with
      | Ok _ => if negb (bool_decide (obj = signer)) && negb (sameHost obj signer) then mret (Ok tt) else
                d ← call (DeleteRemoteActor obj); mret (match d with Err e => Err (FErrDB e) | Ok _ => Ok tt end)
      | Err ErrNoRows => mret (Ok tt)
      | Err e => mret (Err (FErrDB e))
      end
  | Err e => mret (Err (FErrDB e))
  end
  end.

(** ** The handlers *)

(** What a request can be refused with. *)
Inductive refusal := Unauthorized | Forbidden | NotFound | Conflict | Invalid (field : string) | FeatureDisabled | Internal.

(** [svWatch], [svNotify]: the services are wired; [svComments]: the instance
    accepts comments. *)
Record Server := mkServer { svFed : option Fed; svWatch : bool; svNotify : bool; svComments : bool; svModeration : bool; svChannels : bool }.

Definition maxCommentLen : Z := 2000.

(** [isStaff] *)
Definition isStaff (role : string) : bool := bool_decide (role = "admin"%string) || bool_decide (role = "moderator"%string).

(** [canManageChannelContent] *)
Definition canManageChannelContent (s : Server) (user channel : uuid) : M bool :=
  if negb (svChannels s) then mret false else
  r ← call (IsChannelManager channel user); mret (match r with Ok b => b | Err _ => false end).

(** [canReviewComments] *)
Definition canReviewComments (s : Server) (user : uuid) (role : string) (v : VideoRow) : M bool :=
  if isStaff role || bool_decide (vrOwner v = user) then mret true else canManageChannelContent s user (vdChannel (vrVideo v)).

(** [watchedWordHolds] *)
Definition watchedWordHolds (s : Server) (video : uuid) (body : string) : M bool :=
  if svWatch s then r ← call (ShouldHold video body); mret (match r with Some b => b | None => false end) else mret false.

(** [publicVideo] with [videoHiddenByBlock] *)
Definition publicVideo (s : Server) (role : string) (id : uuid) : M (result refusal VideoRow) :=
  r ← call (GetVideoByID id);
  match r with
  | Err _ => mret (Err NotFound)
  | Ok v =>
      if negb (bool_decide (vdState (vrVideo v) = "published"%string)) || negb (bool_decide (vdPrivacy (vrVideo v) = "public"%string)) then mret (Err NotFound) else
      if negb (svModeration s) then mret (Ok v) else
      b ← call (IsVideoBlocked id);
      mret (match b with Err _ => Err Internal | Ok false => Ok v | Ok true => if isStaff role then Ok v else Err NotFound end)
  end.

(** [createCommentRequest.Validate] with [parentID]; [updateCommentRequest.Validate] *)
Definition valid_body (body : string) : option refusal :=
  if bool_decide (TrimSpace body = EmptyString) then Some (Invalid "body") else
  if maxCommentLen <? Z.of_nat (String.length (TrimSpace body)) then Some (Invalid "body") else None.

Definition valid_parent (parent : option string) : result refusal (option uuid) :=
  match parent with
  | None => Ok None
  | Some p => if bool_decide (TrimSpace p = EmptyString) then Ok None else
              match uuid_parse (TrimSpace p) with None => Err (Invalid "parent_id") | Some id => Ok (Some id) end
  end.

(** [auth.Service.UserByID] *)
Definition active_user (id : uuid) : M (option CUser) :=
  r ← call (GetUserByID id); mret (match r with Ok (_, u) => if cuActive u then Some u else None | Err _ => None end).

(** [notifyCommentPublished] *)
Definition notifyCommentPublished (s : Server) (author id owner : uuid) (ownerKnows : bool) : M unit :=
  if negb (svNotify s) then mret tt else
  r ← call (NotifyCommentReply author id);
  _ ← (if negb (bool_decide (owner = default uuid_Nil r)) && negb ownerKnows then call (Notify "comment" id) else mret tt);
  call (Notify "mentions" id).

(** The decision to hold a new comment. *)
Definition hold_new (s : Server) (user : uuid) (role : string) (v : VideoRow) (body : string) : M bool :=
  held ← (if bool_decide (vdPolicy (vrVideo v) = "requires_approval"%string) then c ← canReviewComments s user role v; mret (negb c) else mret false);
  if (held : bool) then mret true else
  w ← watchedWordHolds s (vrID v) body;
  if (w : bool) then c ← canReviewComments s user role v; mret (negb c) else mret false.

(** [handleCreateComment] *)
Definition handleCreateComment (s : Server) (user : uuid) (role : string) (video : uuid) (body : string) (parent : option string) :
    M (result refusal (uuid * Comment)) :=
  if negb (svComments s) then mret (Err FeatureDisabled) else
  pv ← publicVideo s role video;
  match pv with
  | Err e => mret (Err e)
  | Ok v =>
      if bool_decide (vdPolicy (vrVideo v) = "disabled"%string) then mret (Err FeatureDisabled) else
      match valid_body body, valid_parent parent with
      | Some e, _ => mret (Err e)
      | None, Err e => mret (Err e)
      | None, Ok parent =>
          a ← active_user user;
          match a with
          | None => mret (Err Unauthorized)
          | Some _ =>
              held ← hold_new s user role v (TrimSpace body);
              r ← create (svFed s) (vrID v) user (TrimSpace body) parent held;
              match r with
              | Err CErrParentNotFound | Err CErrParentHeld => mret (Err (Invalid "parent_id"))
              | Err _ => mret (Err Internal)
              | Ok created =>
                  _ ← (if (held : bool) then (if svNotify s then call (Notify "held" created.1) else mret tt)
                       else notifyCommentPublished s user created.1 (vrOwner v) false);
                  _ ← (if svWatch s then call (Notify "flag" created.1) else mret tt);
                  mret (Ok created)
              end
          end
      end
  end.

(** [handleListComments] *)
Definition handleListComments (s : Server) (viewer : option (uuid * string)) (video : uuid) (limit offset : Z) : M (result refusal (list WithAuthor * Z)) :=
  pv ← publicVideo s (match viewer with Some (_, role) => role | None => EmptyString end) video;
  match pv with
  | Err e => mret (Err e)
  | Ok v =>
      includeHeld ← match viewer with Some (user, role) => canReviewComments s user role v | None => mret false end;
      r ← ListByVideo (vrID v) (fst <$> viewer) includeHeld limit offset;
      mret (match r with Err _ => Err Internal | Ok x => Ok x end)
  end.

(** [commentVideo]; an unknown comment is [Ok None]. *)
Definition commentVideo (s : Server) (user : uuid) (role : string) (id : uuid) : M (result refusal (option (Comment * VideoRow * bool))) :=
  r ← GetOne id;
  match r with
  | Err _ => mret (Ok None)
  | Ok (_, c) =>
      v ← call (GetVideoByID (coVideo c));
      match v with
      | Err _ => mret (Err Internal)
      | Ok v => reviewer ← canReviewComments s user role v; mret (Ok (Some (c, v, reviewer)))
      end
  end.

(** [handleDeleteComment] *)
Definition handleDeleteComment (s : Server) (user : uuid) (role : string) (id : uuid) : M (result refusal unit) :=
  l ← commentVideo s user role id;
  let rejecting := match l with
                   | Ok (Some (c, _, reviewer)) => coHeld c && reviewer && negb (bool_decide (coUser c = Some user))
                   | _ => false
                   end in
  r ← Delete (svFed s) id user (isStaff role || rejecting);
  mret (match r with Err CErrNotFound => Err NotFound | Err CErrForbidden => Err Forbidden | Err _ => Err Internal | Ok _ => Ok tt end).

(** [handleUpdateComment] *)
Definition handleUpdateComment (s : Server) (user : uuid) (role : string) (id : uuid) (body : string) : M (result refusal (uuid * Comment * bool)) :=
  match valid_body body with
  | Some e => mret (Err e)
  | None =>
      a ← active_user user;
      match a with
      | None => mret (Err Unauthorized)
      | Some _ =>
          l ← commentVideo s user role id;
          match l with
          | Err e => mret (Err e)
          | Ok known =>
              hold ← match known with
                     | Some (_, v, reviewer) =>
                         if (reviewer : bool) then mret false
                         else if bool_decide (vdPolicy (vrVideo v) = "requires_approval"%string) then mret true
                         else watchedWordHolds s (vrID v) (TrimSpace body)
                     | None => mret false
                     end;
              r ← edit (svFed s) id user (TrimSpace body) hold;
              match r with
              | Err CErrNotFound => mret (Err NotFound)
              | Err CErrForbidden => mret (Err Forbidden)
              | Err _ => mret (Err Internal)
              | Ok updated =>
                  _ ← (if svNotify s then call (Notify (if coHeld updated.2 then "held" else "mentions") updated.1) else mret tt);
                  _ ← (if svWatch s then call (Notify "flag" updated.1) else mret tt);
                  p ← IsPinned updated.1;
                  mret (Ok (updated, match p with Ok b => b | Err _ => false end))
              end
          end
      end
  end.

(** [canManageCommentVideo] with [canManageVideo] *)
Definition canManageCommentVideo (s : Server) (user : uuid) (role : string) (video : uuid) : M bool :=
  if isStaff role then mret true else
  r ← call (GetVideoByID video);
  match r with
  | Err _ => mret false
  | Ok v => if bool_decide (vrOwner v = user) then mret true else canManageChannelContent s user (vdChannel (vrVideo v))
  end.

(** [commentCreatorAction], for [Pin], [Unpin], [Heart] and [Unheart] *)
Definition commentCreatorAction (s : Server) (user : uuid) (role : string) (id : uuid) (action : uuid -> M (result comerr WithAuthor)) : M (result refusal WithAuthor) :=
  r ← GetOne id;
  match r with
  | Err _ => mret (Err NotFound)
  | Ok (_, c) =>
      ok ← canManageCommentVideo s user role (coVideo c);
      if negb ok then mret (Err Forbidden) else
      a ← action id;
      mret (match a with
            | Ok wa => Ok wa
            | Err CErrNotFound => Err NotFound
            | Err CErrNotTopLevel | Err CErrTombstoned | Err CErrHeld => Err (Invalid "id")
            | Err _ => Err Internal
            end)
  end.

(** [handleApproveComment] *)
Definition handleApproveComment (s : Server) (user : uuid) (role : string) (video id : uuid) (version : option time) : M (result refusal WithAuthor) :=
  l ← commentVideo s user role id;
  match l with
  | Ok None => mret (Err NotFound)
  | Err e => mret (Err e)
  | Ok (Some (c, v, reviewer)) =>
      if negb (bool_decide (coVideo c = video)) then mret (Err NotFound) else
      if negb reviewer then mret (Err Forbidden) else
      match version with
      | None => mret (Err (Invalid "updated_at"))
      | Some version =>
          r ← Approve (svFed s) id version;
          match r with
          | Err CErrNotFound => mret (Err NotFound)
          | Err CErrStale => mret (Err Conflict)
          | Err _ => mret (Err Internal)
          | Ok (wa, released) =>
              _ ← match coUser (waComment wa) with
                  | Some author => if released && public_now (vrVideo v) then notifyCommentPublished s author id (vrOwner v) (bool_decide (vrOwner v = user)) else mret tt
                  | None => mret tt
                  end;
              mret (Ok wa)
          end
      end
  end.

(** [handleListManagedComments] *)
Definition handleListManagedComments (user : uuid) (held : option string) (limit offset : Z) : M (result refusal (list (WithAuthor * string) * Z)) :=
  let go h := r ← ListForManager user h limit offset; mret (match r with Err _ => Err Internal | Ok x => Ok x end) in
  match held with
  | None => go None
  | Some q => if bool_decide (q = EmptyString) then go None
              else if bool_decide (q = "true"%string) then go (Some true)
              else if bool_decide (q = "false"%string) then go (Some false) else mret (Err (Invalid "held"))
  end.
End Inbound.
