(* ===== verification/CommentSafety.v ===== *)
(** * Comments: theorems

    What holds of threads, pins, reviews and the activities sent to other
    servers however requests interleave and whatever the store fails at. *)
From S2P Require Import Prelude Interleave GoStrings Encoding Secretbox CommentStore Comments.
Local Open Scope Z_scope.

(** ** Requests *)

(** A request to the handlers by a signed-in user with a role, an activity that
    came in signed, or the clean-up after a deleted account. *)
Inductive crequest :=
| RCreate (user : uuid) (role : string) (video : uuid) (body : string) (parent : option string)
| RList (viewer : option (uuid * string)) (video : uuid) (limit offset : Z)
| RDelete (user : uuid) (role : string) (id : uuid)
| RUpdate (user : uuid) (role : string) (id : uuid) (body : string)
| RPin (user : uuid) (role : string) (id : uuid) | RUnpin (user : uuid) (role : string) (id : uuid)
| RHeart (user : uuid) (role : string) (id : uuid) | RUnheart (user : uuid) (role : string) (id : uuid)
| RApprove (user : uuid) (role : string) (video id : uuid) (version : option time)
| RQueue (user : uuid) (held : option string) (limit offset : Z)
| RAdmin (query tag : string) (limit offset : Z)
| RRemove (account : string)
| RInCreate (actor signer : string) (note : option ApNote)
| RInUpdate (actor signer : string) (note : option ApNote)
| RInDelete (actor signer obj : string)
| RTombstone (user : uuid).

Definition quiet {A} (p : prog comE A) : prog comE unit := _ ← p; mret tt.

Section Perform.
Context (uuid_parse : string -> option uuid) (url_host : string -> option string) (UnescapeString : string -> string) (s : Server) (f : Fed).

Definition cperform (rq : crequest) : prog comE unit :=
  match rq with
  | RCreate user role video body parent => quiet (handleCreateComment uuid_parse s user role video body parent)
  | RList viewer video limit offset => quiet (handleListComments s viewer video limit offset)
  | RDelete user role id => quiet (handleDeleteComment s user role id)
  | RUpdate user role id body => quiet (handleUpdateComment s user role id body)
  | RPin user role id => quiet (commentCreatorAction s user role id Pin)
  | RUnpin user role id => quiet (commentCreatorAction s user role id Unpin)
  | RHeart user role id => quiet (commentCreatorAction s user role id Heart)
  | RUnheart user role id => quiet (commentCreatorAction s user role id Unheart)
  | RApprove user role video id version => quiet (handleApproveComment s user role video id version)
  | RQueue user held limit offset => quiet (handleListManagedComments user held limit offset)
  | RAdmin query tag limit offset => quiet (ListForAdmin query tag limit offset)
  | RRemove account => quiet (RemoveByAccount (svFed s) account)
  | RInCreate actor signer note => quiet (handleCreateNote uuid_parse url_host UnescapeString f actor signer note)
  | RInUpdate actor signer note => quiet (handleUpdateNote UnescapeString f actor signer note)
  | RInDelete actor signer obj => quiet (handleDelete url_host actor signer obj)
  | RTombstone user => quiet (call (TombstoneUserComments user))
  end.
End Perform.

(** What goes on beside: accounts, channels, videos, mutes and blocks change as
    they like, time passes; the comments and the pins are these requests' own. *)
Definition around (w w' : cworld) : Prop :=
  exists d', w' = with_cdb (Faulty d' (faults (cdb w))) w /\
    let d := store (cdb w) in
    cmComments d' = cmComments d /\ cmGen d' = cmGen d /\ cmClock d' = cmClock d /\ cmDrawn d' = cmDrawn d /\ (cmTick d <= cmTick d')%nat /\
    (forall v x, cmVideos d !! v = Some x -> exists x', cmVideos d' !! v = Some x' /\ vdPinned x' = vdPinned x) /\
    (forall v x', cmVideos d' !! v = Some x' -> vdPinned x' = None \/ exists x, cmVideos d !! v = Some x /\ vdPinned x' = vdPinned x).

(** ** Threads *)

(** An id the database has generated. *)
Definition drawn_id (id : uuid) (d : CDB) : Prop := exists n, (n < cmDrawn d)%nat /\ id = cmGen d n.

(** One author, a Note exactly for a remote one, a video, a parent on the same
    video, a version that lies in the past. *)
Record comment_ok (d : CDB) (id : uuid) (c : Comment) : Prop := {
  ck_drawn : drawn_id id d;
  ck_video : is_Some (cmVideos d !! coVideo c);
  ck_author : is_Some (coUser c) <-> coActor c = None;
  ck_object : is_Some (coObject c) <-> is_Some (coActor c);
  ck_parent : forall p, coParent c = Some p -> exists c', cmComments d !! p = Some c' /\ coVideo c' = coVideo c;
  ck_version : exists k, (k < cmTick d)%nat /\ coUpdated c = cmClock d k;
}.

(** The pinned comment of a video is a top-level comment of that video; a Note
    is stored once. *)
Record threads_ok (d : CDB) : Prop := {
  to_gen : forall i j, cmGen d i = cmGen d j -> i = j;
  to_clock : forall i j, (i < j)%nat -> cmClock d i < cmClock d j;
  to_comment : forall id c, cmComments d !! id = Some c -> comment_ok d id c;
  to_objects : forall i j c c' u, cmComments d !! i = Some c -> cmComments d !! j = Some c' -> coObject c = Some u -> coObject c' = Some u -> i = j;
  to_pin : forall v x p, cmVideos d !! v = Some x -> vdPinned x = Some p -> exists c, cmComments d !! p = Some c /\ coVideo c = v /\ coParent c = None;
}.

(** A comment keeps its place and author, and a version its text. *)
Record comment_le (c c' : Comment) : Prop := {
  cl_video : coVideo c' = coVideo c;
  cl_user : coUser c' = coUser c;
  cl_actor : coActor c' = coActor c;
  cl_object : coObject c' = coObject c;
  cl_parent : coParent c' = coParent c;
  cl_version : coUpdated c <= coUpdated c';
  cl_body : coUpdated c = coUpdated c' -> coBody c = coBody c';
}.

(** A comment is one that was there, or a new one. *)
Record moves (d d' : CDB) : Prop := {
  mv_gen : cmGen d' = cmGen d;
  mv_clock : cmClock d' = cmClock d;
  mv_drawn : (cmDrawn d <= cmDrawn d')%nat;
  mv_comments : forall id c', cmComments d' !! id = Some c' ->
    (exists c, cmComments d !! id = Some c /\ comment_le c c') \/ exists n, (cmDrawn d <= n < cmDrawn d')%nat /\ id = cmGen d n;
}.

#[global] Instance comment_le_po : PreOrder comment_le.
Proof.
  split; [by intros c|]. intros x y z [] []. split; try congruence; [lia|]. intros He. rewrite cl_body0 by lia. apply cl_body1. lia.
Qed.

#[global] Instance moves_po : PreOrder moves.
Proof.
  split; [intros d; split; [done..|]; intros id c Hc; left; by exists c|].
  intros x y z [g1 k1 d1 c1] [g2 k2 d2 c2]. split; [congruence|congruence|lia|]. intros id c Hc. destruct (c2 id c Hc) as [(c' & Hc' & Hle)|(n & Hn & ->)].
  - destruct (c1 id c' Hc') as [(c'' & Hc'' & Hle')|(n & Hn & ->)]; [left; exists c''; split; [done|by etransitivity]|right; exists n; split; [lia|done]].
  - right. exists n. split; [lia|congruence].
Qed.

(** The id of a comment does not come back to another. *)
Lemma moves_known d d' id c' : threads_ok d -> moves d d' -> drawn_id id d -> cmComments d' !! id = Some c' ->
  exists c, cmComments d !! id = Some c /\ comment_le c c'.
Proof.
  intros Hd Hm (n & Hn & ->) Hc. destruct (mv_comments _ _ Hm _ _ Hc) as [?|(k & Hk & He)]; [done|]. apply (to_gen _ Hd) in He. lia.
Qed.

Lemma moves_drawn d d' id : moves d d' -> drawn_id id d -> drawn_id id d'.
Proof. intros Hm (n & Hn & ->). exists n. split; [pose proof (mv_drawn _ _ Hm); lia|by rewrite (mv_gen _ _ Hm)]. Qed.

(** ** Statements keep threads *)

(** What a statement, with the moment it takes, does to the tables. *)
Definition good (d d' : CDB) : Prop := threads_ok d' /\ moves d d'.

(** A row the statement may leave: the same, or with a new version. *)
Record row_le (d : CDB) (c c' : Comment) : Prop := {
  rl_video : coVideo c' = coVideo c;
  rl_user : coUser c' = coUser c;
  rl_actor : coActor c' = coActor c;
  rl_object : coObject c' = coObject c;
  rl_parent : coParent c' = coParent c;
  rl_version : coUpdated c' = coUpdated c /\ coBody c' = coBody c \/ coUpdated c' = cmNow d;
}.

#[global] Instance row_le_refl d : Reflexive (row_le d).
Proof. intros c. split; try done. by left. Qed.

Lemma row_le_comment d id c c' : threads_ok d -> cmComments d !! id = Some c -> row_le d c c' -> comment_le c c'.
Proof.
  intros Hd Hc []. destruct (ck_version _ _ _ (to_comment _ Hd _ _ Hc)) as (k & Hk & Hu). split; try done.
  - destruct rl_version0 as [[-> _]| ->]; [done|]. rewrite Hu. unfold cmNow. pose proof (to_clock _ Hd k (cmTick d) Hk). lia.
  - destruct rl_version0 as [[_ ->]|He]; [done|]. intros He'. rewrite He, Hu in He'. pose proof (to_clock _ Hd k (cmTick d) Hk). unfold cmNow in He'. lia.
Qed.

(** The tables with other comments, after the tick. *)
Definition next (videos : gmap uuid CVideo) (m : gmap uuid Comment) tags drawn (d : CDB) : CDB := tick_cm (with_comments videos m tags drawn d).

(** Rows that change in place, or go. *)
Lemma good_rows d videos m tags drawn :
  threads_ok d -> (cmDrawn d <= drawn)%nat ->
  (forall id c', m !! id = Some c' -> exists c, cmComments d !! id = Some c /\ row_le d c c') ->
  (forall id c' p, m !! id = Some c' -> coParent c' = Some p -> is_Some (m !! p)) ->
  (forall v, is_Some (cmVideos d !! v) -> is_Some (videos !! v)) ->
  (forall v x p, videos !! v = Some x -> vdPinned x = Some p -> exists c, m !! p = Some c /\ coVideo c = v /\ coParent c = None) ->
  good d (next videos m tags drawn d).
Proof.
  intros Hd Hn Hm Hp Hv Hpin. split; [split; cbn|split; cbn; try done].
  - exact (to_gen _ Hd).
  - exact (to_clock _ Hd).
  - intros id c' Hc'. destruct (Hm id c' Hc') as (c & Hc & Hle). destruct (to_comment _ Hd id c Hc) as [k1 k2 k3 k4 k5 k6]. destruct Hle as [r1 r2 r3 r4 r5 r6].
    split; cbn.
    + destruct k1 as (n & Hlt & ->). exists n. split; [cbn; lia|done].
    + rewrite r1. by apply Hv.
    + by rewrite r2, r3.
    + by rewrite r4, r3.
    + intros p Hpar. destruct (Hp id c' p Hc' Hpar) as [cp Hcp]. exists cp. split; [done|]. destruct (Hm p cp Hcp) as (cp0 & Hcp0 & Hle0).
      rewrite r5 in Hpar. destruct (k5 p Hpar) as (c0 & Hc0 & He). rewrite (rl_video _ _ _ Hle0), r1. congruence.
    + destruct r6 as [[-> _]| ->]; [destruct k6 as (k & Hk & ->); exists k; split; [lia|done]|]. exists (cmTick d). split; [lia|done].
  - intros i j c c' u Hi Hj Hu Hu'. destruct (Hm i c Hi) as (c0 & Hc0 & Hle), (Hm j c' Hj) as (c1 & Hc1 & Hle').
    apply (to_objects _ Hd i j c0 c1 u); [done..| |]; [by rewrite <- (rl_object _ _ _ Hle)|by rewrite <- (rl_object _ _ _ Hle')].
  - exact Hpin.
  - intros id c' Hc'. left. destruct (Hm id c' Hc') as (c & Hc & Hle). exists c. split; [done|by eapply row_le_comment].
Qed.

(** Statements that leave the comments and the pins alone. *)
Lemma good_same d tags drawn : threads_ok d -> (cmDrawn d <= drawn)%nat -> good d (next (cmVideos d) (cmComments d) tags drawn d).
Proof.
  intros Hd Hn. apply good_rows; try done.
  - intros id c Hc. exists c. split; [done|reflexivity].
  - intros id c p Hc Hp. destruct (ck_parent _ _ _ (to_comment _ Hd _ _ Hc) p Hp) as (c' & Hc' & _). by rewrite Hc'.
  - exact (to_pin _ Hd).
Qed.

Lemma next_same d : next (cmVideos d) (cmComments d) (cmTags d) (cmDrawn d) d = tick_cm d.
Proof. by destruct d. Qed.

Lemma good_tick d : threads_ok d -> good d (tick_cm d).
Proof. intros Hd. rewrite <- next_same. by apply good_same. Qed.

Lemma good_draw d : threads_ok d -> good d (tick_cm (draw_cm d)).
Proof. intros Hd. apply (good_same d (cmTags d) (S (cmDrawn d))); [done|lia]. Qed.

(** One row changes. *)
Lemma good_row d id c c' drawn : threads_ok d -> (cmDrawn d <= drawn)%nat -> cmComments d !! id = Some c -> row_le d c c' ->
  good d (next (cmVideos d) (<[id := c']> (cmComments d)) (cmTags d) drawn d).
Proof.
  intros Hd Hn Hc Hle. apply good_rows; try done.
  - intros j cj [[<- <-]|[Hne Hj]]%lookup_insert_Some; [by exists c|]. exists cj. split; [done|reflexivity].
  - intros j cj p Hj Hp. assert (Hj' : exists c0, cmComments d !! j = Some c0 /\ coParent c0 = Some p).
    { apply lookup_insert_Some in Hj as [[<- <-]|[Hne Hj]]; [exists c; split; [done|by rewrite <- (rl_parent _ _ _ Hle)]|by exists cj]. }
    destruct Hj' as (c0 & Hc0 & Hp0). destruct (ck_parent _ _ _ (to_comment _ Hd _ _ Hc0) p Hp0) as (cp & Hcp & _).
    destruct (decide (p = id)) as [->|]; [by rewrite lookup_insert_eq|by rewrite lookup_insert_ne, Hcp].
  - intros v x p Hv Hp. destruct (to_pin _ Hd v x p Hv Hp) as (cp & Hcp & Hcv & Hpar).
    destruct (decide (p = id)) as [->|]; [|exists cp; by rewrite lookup_insert_ne]. rewrite lookup_insert_eq. exists c'. rewrite Hc in Hcp. injection Hcp as <-.
    split_and!; [done|by rewrite (rl_video _ _ _ Hle)|by rewrite (rl_parent _ _ _ Hle)].
Qed.

(** A new comment, whose parent, if it is still there, is on the same video. *)
Record new_ok (d : CDB) (c : Comment) : Prop := {
  nw_author : is_Some (coUser c) <-> coActor c = None;
  nw_object : is_Some (coObject c) <-> is_Some (coActor c);
  nw_parent : forall p c', coParent c = Some p -> cmComments d !! p = Some c' -> coVideo c' = coVideo c;
  nw_version : coUpdated c = cmNow d;
  nw_note : forall j c' u, cmComments d !! j = Some c' -> coObject c' = Some u -> coObject c <> Some u;
}.

Lemma good_insert d c : threads_ok d -> new_ok d c -> good d (tick_cm (insert_comment c d).2).
Proof.
  intros Hd [n1 n2 n3 n4 n5]. unfold insert_comment. set (id := cmGen d (cmDrawn d)).
  match goal with |- context [if ?b then _ else _] => destruct b eqn:Hfk; [by apply good_draw|] end.
  destruct (bool_decide (is_Some (cmComments d !! id))) eqn:Hid; [by apply good_draw|]. apply bool_decide_eq_false in Hid. cbn [snd].
  assert (Hnone : cmComments d !! id = None) by (by apply eq_None_not_Some).
  assert (Hvid : is_Some (cmVideos d !! coVideo c) /\ forall p, coParent c = Some p -> is_Some (cmComments d !! p)).
  { apply orb_false_iff in Hfk as [Hfk H4]. apply orb_false_iff in Hfk as [Hfk H3]. apply orb_false_iff in Hfk as [H1 H2]. bools.
    split; [by apply not_eq_None_Some|]. intros p Hp. rewrite Hp in H4. bools. by apply not_eq_None_Some. }
  destruct Hvid as [Hvid Hpar].
  assert (Hkeep : forall j cj, cmComments d !! j = Some cj -> <[id := c]> (cmComments d) !! j = Some cj) by (intros j cj Hj; rewrite lookup_insert_ne; [done|congruence]).
  split; [split; cbn|split; cbn; try done; [lia|]].
  - exact (to_gen _ Hd).
  - exact (to_clock _ Hd).
  - intros j cj [[<- <-]|[Hne Hj]]%lookup_insert_Some.
    + split; cbn; try done; [exists (cmDrawn d); split; [cbn; lia|done]| |exists (cmTick d); split; [lia|exact n4]].
      intros p Hp. destruct (Hpar p Hp) as [cp Hcp]. exists cp. split; [by apply Hkeep|by eapply n3].
    + destruct (to_comment _ Hd j cj Hj) as [k1 k2 k3 k4 k5 k6]. split; cbn; try done; [destruct k1 as (n & Hlt & ->); exists n; split; [cbn; lia|done]| |].
      * intros p Hp. destruct (k5 p Hp) as (cp & Hcp & He). exists cp. split; [by apply Hkeep|done].
      * destruct k6 as (k & Hk & ->). exists k. split; [lia|done].
  - intros i j ci cj u [[<- <-]|[Hi Hci]]%lookup_insert_Some [[<- <-]|[Hj Hcj]]%lookup_insert_Some Hu Hu'; [done|..].
    + by destruct (n5 j cj u).
    + by destruct (n5 i ci u).
    + by eapply (to_objects _ Hd).
  - intros v x p Hv Hp. destruct (to_pin _ Hd v x p Hv Hp) as (cp & Hcp & He). exists cp. split; [by apply Hkeep|done].
  - intros j cj [[<- <-]|[Hne Hj]]%lookup_insert_Some; [right; exists (cmDrawn d); split; [lia|done]|]. left. exists cj. split; [done|reflexivity].
Qed.

(** Pinning: the comment, if it is still there, is a top-level one of the video. *)
Lemma good_pin d v pin : threads_ok d ->
  (forall p c, pin = Some p -> cmComments d !! p = Some c -> coVideo c = v /\ coParent c = None) -> good d (tick_cm (q_SetVideoPinnedComment v pin d).2).
Proof.
  intros Hd Hpin. unfold q_SetVideoPinnedComment. destruct (cmVideos d !! v) as [x|] eqn:Hx; [|by apply good_tick].
  case_match eqn:Hfk; [by apply good_tick|]. cbn [snd]. apply (good_rows d (<[v := _]> (cmVideos d)) (cmComments d)); try done.
  - intros id c Hc. exists c. split; [done|reflexivity].
  - intros id c p Hc Hp. destruct (ck_parent _ _ _ (to_comment _ Hd _ _ Hc) p Hp) as (c' & Hc' & _). by rewrite Hc'.
  - intros v' [x' Hx']. destruct (decide (v' = v)) as [->|]; [by rewrite lookup_insert_eq|by rewrite lookup_insert_ne, Hx'].
  - intros v' x' p [[<- <-]|[Hne Hv']]%lookup_insert_Some Hp; [|by eapply (to_pin _ Hd)]. cbn in Hp. subst pin. bools.
    apply not_eq_None_Some in Hfk as [c Hc]. exists c. split; [done|by eapply Hpin].
Qed.

(** ** Cascades *)

(** One level of replies. *)
Definition deeper (m : gmap uuid Comment) (doomed : gset uuid) : gset uuid := replies_of 1 m doomed.

Lemma elem_of_deeper m doomed id :
  id ∈ deeper m doomed <-> id ∈ doomed \/ exists c p, m !! id = Some c /\ coParent c = Some p /\ p ∈ doomed.
Proof.
  unfold deeper. cbn [replies_of]. rewrite elem_of_union, elem_of_list_to_set. apply or_iff_compat_l. rewrite list_elem_of_fmap. split.
  - intros ([j c] & -> & [Hf Hin]%list_elem_of_filter). apply elem_of_map_to_list in Hin. cbn in Hf. destruct (coParent c) as [p|] eqn:Hp; [|done]. bools.
    exists c, p. done.
  - intros (c & p & Hc & Hp & Hin). exists (id, c). split; [done|]. apply list_elem_of_filter. split; [cbn; rewrite Hp; by apply bool_decide_eq_true_2|].
    by apply elem_of_map_to_list.
Qed.

Lemma replies_step n m doomed : replies_of (S n) m doomed = replies_of n m (deeper m doomed).
Proof. done. Qed.

Lemma replies_grow n m doomed : doomed ⊆ replies_of n m doomed.
Proof.
  revert doomed. induction n as [|n IH]; intros doomed; [done|]. rewrite replies_step. etransitivity; [|apply IH]. intros id Hid. apply elem_of_deeper. by left.
Qed.

Lemma replies_fixed n m doomed : deeper m doomed ⊆ doomed -> replies_of n m doomed = doomed.
Proof.
  intros Hc. induction n as [|n IH]; [done|]. rewrite replies_step.
  assert (He : deeper m doomed = doomed) by (apply set_eq; intros id; split; [apply Hc|intros ?; apply elem_of_deeper; by left]). by rewrite He.
Qed.

(** As many levels as there are comments are enough. *)
Lemma replies_closed n m doomed : (size (dom m ∖ doomed) <= n)%nat -> deeper m (replies_of n m doomed) ⊆ replies_of n m doomed.
Proof.
  revert doomed. induction n as [|n IH]; intros doomed Hn.
  - intros id [Hid|(c & p & Hc & _)]%elem_of_deeper; [done|]. destruct (decide (id ∈ doomed)) as [|Hnot]; [done|].
    assert (Hin : id ∈ dom m ∖ doomed) by (apply elem_of_difference; split; [by apply elem_of_dom|done]).
    apply Nat.le_0_r, size_empty_inv in Hn. set_solver.
  - destruct (decide (deeper m doomed ⊆ doomed)) as [Hc|Hc]; [by rewrite replies_fixed|]. rewrite replies_step. apply IH.
    assert (Hex : exists id, id ∈ deeper m doomed /\ id ∉ doomed).
    { destruct (set_choose_or_empty (deeper m doomed ∖ doomed)) as [[id Hid]|He]; [exists id; set_solver|]. destruct Hc. set_solver. }
    destruct Hex as (id & Hin & Hnot). assert (Hlt : (size (dom m ∖ deeper m doomed) < size (dom m ∖ doomed))%nat); [|lia].
    apply subset_size. split.
    + intros x [Hx Hx']%elem_of_difference. apply elem_of_difference. split; [done|]. intros ?. apply Hx'. apply elem_of_deeper. by left.
    + intros Hsub. assert (Hid : id ∈ dom m ∖ doomed); [|apply Hsub in Hid; set_solver]. apply elem_of_difference. split; [|done].
      apply elem_of_deeper in Hin as [?|(c & p & Hm & _)]; [done|]. by apply elem_of_dom.
Qed.

Lemma good_cascade d doomed : threads_ok d -> good d (tick_cm (cascade doomed d)).
Proof.
  intros Hd. unfold cascade. set (gone := replies_of _ _ _).
  assert (Hclosed : deeper (cmComments d) gone ⊆ gone).
  { apply replies_closed. rewrite <- (size_dom (D := gset uuid) (cmComments d)). apply subseteq_size. set_solver. }
  apply good_rows; try done.
  - intros id c [Hc _]%map_lookup_filter_Some. exists c. split; [done|reflexivity].
  - intros id c p [Hc Hg]%map_lookup_filter_Some Hp. destruct (ck_parent _ _ _ (to_comment _ Hd _ _ Hc) p Hp) as (cp & Hcp & _). exists cp.
    apply map_lookup_filter_Some. split; [done|]. cbn. intros Hin. apply Hg, Hclosed, elem_of_deeper. right. by exists c, p.
  - intros v [x Hx]. by rewrite lookup_fmap, Hx.
  - intros v x p Hv Hp. rewrite lookup_fmap in Hv. destruct (cmVideos d !! v) as [x0|] eqn:Hx0; [|done]. injection Hv as <-. cbn in Hp.
    destruct (vdPinned x0) as [p0|] eqn:Hp0; [|done]. case_bool_decide as Hg; [done|]. injection Hp as ->.
    destruct (to_pin _ Hd v x0 p Hx0 Hp0) as (c & Hc & He). exists c. split; [|done]. by apply map_lookup_filter_Some.
Qed.

Lemma good_tombstone d user : threads_ok d -> good d (tick_cm (q_TombstoneUserComments user d).2).
Proof.
  intros Hd. cbn [snd q_TombstoneUserComments]. apply good_rows; try done.
  - intros id c'. rewrite lookup_fmap. destruct (cmComments d !! id) as [c|] eqn:Hc; [|done]. cbn. intros [= <-]. exists c. split; [done|].
    case_match; [|reflexivity]. split; try done. by right.
  - intros id c' p. rewrite !lookup_fmap. destruct (cmComments d !! id) as [c|] eqn:Hc; [|done]. cbn. intros [= <-] Hp.
    assert (Hp' : coParent c = Some p) by (by case_match). destruct (ck_parent _ _ _ (to_comment _ Hd _ _ Hc) p Hp') as (cp & -> & _). done.
  - intros v x p Hv Hp. destruct (to_pin _ Hd v x p Hv Hp) as (c & Hc & Hcv & Hpar). rewrite lookup_fmap, Hc. eexists. split; [done|]. by case_match.
Qed.

Lemma good_delete_actor d url : threads_ok d -> good d (tick_cm (q_DeleteRemoteActor url d).2).
Proof.
  intros Hd. cbn [snd q_DeleteRemoteActor]. set (doomed := list_to_set _). destruct (good_cascade d doomed Hd) as [[g1 g2 g3 g4 g5] [m1 m2 m3 m4]].
  split; [|by split]. split; cbn in *; try done. intros id c Hc. destruct (g3 id c Hc) as [k1 k2 k3 k4 k5 k6]. by split.
Qed.

(** ** Programs keep threads *)

Abbreviation tables w := (store (cdb w)).

Definition threads_kept (w : cworld) : Prop := threads_ok (tables w).
Definition onward (w w' : cworld) : Prop := moves (tables w) (tables w').

#[global] Instance onward_po : PreOrder onward.
Proof. split; [by intros w; unfold onward|]. intros x y z. unfold onward. apply transitivity. Qed.

(** The comment, if it is still there, is on the video; and at the top level. *)
Definition placed (p v : uuid) (w : cworld) : Prop :=
  drawn_id p (tables w) /\ forall c, cmComments (tables w) !! p = Some c -> coVideo c = v.
Definition top_level (p v : uuid) (w : cworld) : Prop :=
  drawn_id p (tables w) /\ forall c, cmComments (tables w) !! p = Some c -> coVideo c = v /\ coParent c = None.

Lemma stable_placed p v : stable threads_kept onward (placed p v).
Proof.
  intros w w' Hw Hw' Hm [Hd Hp]. split; [by eapply moves_drawn|]. intros c' Hc'. destruct (moves_known _ _ _ _ Hw Hm Hd Hc') as (c & Hc & Hle).
  rewrite (cl_video _ _ Hle). by apply Hp.
Qed.

Lemma stable_top_level p v : stable threads_kept onward (top_level p v).
Proof.
  intros w w' Hw Hw' Hm [Hd Hp]. split; [by eapply moves_drawn|]. intros c' Hc'. destruct (moves_known _ _ _ _ Hw Hm Hd Hc') as (c & Hc & Hle).
  rewrite (cl_video _ _ Hle), (cl_parent _ _ Hle). by apply Hp.
Qed.

(** What an operation that places a comment relies on. *)
Definition ready (w : cworld) (X : Type) (e : comE X) : Prop :=
  match e with
  | CreateComment v _ _ parent _ => forall p, parent = Some p -> placed p v w
  | CreateRemoteComment v _ parent _ _ _ _ => forall p, parent = Some p -> placed p v w
  | SetVideoPinnedComment v pin => forall p, pin = Some p -> top_level p v w
  | _ => True
  end.

(** The operations that rely on nothing. *)
Definition plain (X : Type) (e : comE X) : Prop := forall w, ready w X e.

Lemma on_cm_store {A} (q : CDB -> result dberr A * CDB) w : tables (on_cm q w).2 = tables w \/ tables (on_cm q w).2 = tick_cm (q (tables w)).2.
Proof. unfold on_cm, exec. destruct (faults (cdb w)) as [|[] fs]; cbn; auto. Qed.

Lemma good_step {A} (q : CDB -> result dberr A * CDB) w :
  threads_kept w -> good (tables w) (tick_cm (q (tables w)).2) -> threads_kept (on_cm q w).2 /\ onward w (on_cm q w).2.
Proof.
  intros Hw [H1 H2]. unfold threads_kept, onward. destruct (on_cm_store q w) as [He|He]; rewrite He; [by split|done].
Qed.

Lemma good_CreateComment v u body parent held w : threads_kept w -> ready w _ (CreateComment v u body parent held) ->
  good (tables w) (tick_cm (q_CreateComment v u body parent held (tables w)).2).
Proof.
  intros Hw Hr. apply good_insert; [done|]. split; cbn; [by split; [done|intros _; eexists]|done| |done|done].
  intros p c' Hp Hc'. by apply (proj2 (Hr p Hp)).
Qed.

Lemma by_object_spec u d id c : by_object u d = Some (id, c) -> cmComments d !! id = Some c /\ coObject c = Some u.
Proof.
  unfold by_object. intros Hh. assert (Hin : (id, c) ∈ filter (fun r : uuid * Comment => coObject r.2 = Some u) (rows_of (cmComments d))).
  { destruct (filter _ _) as [|r l]; [done|]. injection Hh as ->. left. }
  apply list_elem_of_filter in Hin as [Hu Hin]. apply elem_of_map_to_list in Hin. done.
Qed.

Lemma by_object_none u d j c : by_object u d = None -> cmComments d !! j = Some c -> coObject c <> Some u.
Proof.
  unfold by_object. intros Hh Hc Hu. assert (Hin : (j, c) ∈ filter (fun r : uuid * Comment => coObject r.2 = Some u) (rows_of (cmComments d))).
  { apply list_elem_of_filter. split; [done|by apply elem_of_map_to_list]. }
  destruct (filter _ _); [by apply not_elem_of_nil in Hin|done].
Qed.

Lemma revised_le d body hold c : row_le d c (revised (cmNow d) body hold c).
Proof. split; try done. by right. Qed.

Lemma good_CreateRemote v body parent actor name url held w :
  threads_kept w -> ready w _ (CreateRemoteComment v body parent actor name url held) ->
  good (tables w) (tick_cm (q_CreateRemoteComment v body parent actor name url held (tables w)).2).
Proof.
  intros Hw Hr. unfold q_CreateRemoteComment. destruct (by_object url (tables w)) as [[id c]|] eqn:Hb.
  - apply by_object_spec in Hb as [Hc _]. case_bool_decide; [|by apply good_draw]. cbn [snd].
    apply (good_row (tables w) id c (revised (cmNow (tables w)) body held c) (S (cmDrawn (tables w)))); [done|lia|done|apply revised_le].
  - apply good_insert; [done|]. split; cbn; [split; [by intros []|done]|split; intros _; by eexists| |done|].
    + intros p c' Hp Hc'. by apply (proj2 (Hr p Hp)).
    + intros j c' u Hj Hu [= <-]. by eapply by_object_none.
Qed.

Lemma flags_le d hearted held c : row_le d c (with_flags hearted held c).
Proof. split; try done. by left. Qed.

Lemma op_good X (e : comE X) w : threads_kept w -> ready w X e -> threads_kept (com_handler X e w).2 /\ onward w (com_handler X e w).2.
Proof.
  intros Hw Hr. assert (Hread : forall A (q : CDB -> result dberr A * CDB), (forall d, (q d).2 = d) -> threads_kept (on_cm q w).2 /\ onward w (on_cm q w).2).
  { intros A q Hq. apply good_step; [done|]. rewrite Hq. by apply good_tick. }
  destruct e; cbn [com_handler]; try (by apply Hread); try (split; [exact Hw|unfold onward; reflexivity]); try (apply good_step; [done|]).
  - by apply good_CreateComment.
  - by apply good_CreateRemote.
  - unfold q_UpdateComment. destruct (cmComments (tables w) !! id) as [c|] eqn:Hc; [|by apply good_tick].
    apply (good_row _ id c _ (cmDrawn (tables w))); [done|lia|done|apply revised_le].
  - unfold q_SetCommentHearted. destruct (cmComments (tables w) !! id) as [c|] eqn:Hc; [|by apply good_tick].
    apply (good_row _ id c _ (cmDrawn (tables w))); [done|lia|done|apply flags_le].
  - unfold q_ApproveComment. destruct (cmComments (tables w) !! id) as [c|] eqn:Hc; [|by apply good_tick].
    case_match; [|by apply good_tick]. apply (good_row _ id c _ (cmDrawn (tables w))); [done|lia|done|apply flags_le].
  - apply good_pin; [done|]. intros p c Hp Hc. by apply (proj2 (Hr p Hp)).
  - by apply good_cascade.
  - by apply good_cascade.
  - by apply good_tombstone.
  - by apply good_delete_actor.
  - assert (Ht : tables (enqueue dl w).2 = tables w) by (unfold enqueue, exec; destruct (faults (cdb w)) as [|[] fs]; done).
    unfold threads_kept, onward. rewrite Ht. by split.
Qed.

Lemma around_good w w' : around w w' -> threads_kept w -> threads_kept w' /\ onward w w'.
Proof.
  intros (d' & -> & Hc & Hg & Hk & Hn & Ht & Hv & Hp) Hw. unfold threads_kept, onward in *. cbn in *. split.
  - destruct Hw as [g1 g2 g3 g4 g5]. split; rewrite ?Hg, ?Hk, ?Hc; try done.
    + intros id c Hic. destruct (g3 id c Hic) as [k1 k2 k3 k4 k5 k6]. split; rewrite ?Hc, ?Hk; try done.
      * destruct k1 as (n & Hlt & ->). exists n. by rewrite Hn, Hg.
      * destruct k2 as [x Hx]. destruct (Hv _ x Hx) as (x' & -> & _). done.
      * destruct k6 as (k & Hlt & ->). exists k. split; [lia|done].
    + intros v x' p Hx' Hpin. destruct (Hp v x' Hx') as [He|(x & Hx & He)]; [congruence|]. eapply g5; [exact Hx|congruence].
  - split; try done; [lia|]. rewrite Hc. intros id c Hic. left. by exists c.
Qed.

Abbreviation keeps := (proves com_handler threads_kept onward onward).

Lemma keeps_op {X} K (e : comE X) (Q : X -> cworld -> Prop) :
  (forall x, stable threads_kept onward (Q x)) -> (forall w, threads_kept w -> K w -> ready w X e) ->
  (forall w, threads_kept w -> K w -> Q (com_handler X e w).1 (com_handler X e w).2) -> keeps K (call e) Q.
Proof. intros Hst Hr HQ. apply proves_call; [done|]. intros w Hw HK. destruct (op_good X e w Hw (Hr w Hw HK)). split_and!; [done..|by apply HQ]. Qed.

(** Programs of plain operations, keeping what is known. *)
Lemma keeps_plain {A} K (p : prog comE A) : stable threads_kept onward K -> ops plain p -> keeps K p (fun _ => K).
Proof.
  intros HK Hp. apply (proves_ops _ _ _ _ _ plain); [done| |done]. intros X e w He Hw Hk. destruct (op_good X e w Hw (He w)) as [H1 H2].
  split_and!; [done..|by apply (HK w)].
Qed.

Lemma keeps_any {A} (p : prog comE A) : ops plain p -> keeps (fun _ => True) p (fun _ _ => True).
Proof. intros Hp. by apply (keeps_plain (fun _ => True)). Qed.

Create HintDb plain_ops.

(** Walk a program of plain operations, using what is known of its parts. *)
Ltac plain_walk :=
  repeat first
    [ solve [auto 1 with plain_ops nocore]
    | apply ops_bind; [|intro]
    | apply ops_call; solve [intros ?; exact I | by intros ? ?]
    | progress intros
    | exact I
    | case_match
    | progress cbn [ops] ].

Lemma plain_enqueue_each u n a l : ops plain (enqueue_each u n a l).
Proof. induction l as [|i l IH]; [exact I|]. cbn [enqueue_each]. plain_walk; exact IH. Qed.
#[local] Hint Resolve plain_enqueue_each : plain_ops.

Lemma plain_fanOut ch u n a : ops plain (fanOutAsAccount ch u n a).
Proof. unfold fanOutAsAccount, videoAudience. plain_walk. Qed.
#[local] Hint Resolve plain_fanOut : plain_ops.

Lemma plain_federate f t id : ops plain (federateComment f t id).
Proof. unfold federateComment, loadVideoAndChannel, commentReplyTarget. plain_walk. Qed.
#[local] Hint Resolve plain_federate : plain_ops.

Lemma plain_onCreate f id : ops plain (onCreate f id).
Proof. unfold onCreate, AnnounceComment. plain_walk. Qed.
Lemma plain_onUpdate f id : ops plain (onUpdate f id).
Proof. unfold onUpdate, AnnounceUpdate. plain_walk. Qed.
Lemma plain_onDelete f id v u : ops plain (onDelete f id v u).
Proof. unfold onDelete, AnnounceDelete. plain_walk. Qed.
#[local] Hint Resolve plain_onCreate plain_onUpdate plain_onDelete : plain_ops.

Lemma plain_review s u r v : ops plain (canReviewComments s u r v).
Proof. unfold canReviewComments, canManageChannelContent. plain_walk. Qed.
Lemma plain_public s r v : ops plain (publicVideo s r v).
Proof. unfold publicVideo. plain_walk. Qed.
Lemma plain_notify s a id o k : ops plain (notifyCommentPublished s a id o k).
Proof. unfold notifyCommentPublished. plain_walk. Qed.
Lemma plain_manage s u r v : ops plain (canManageCommentVideo s u r v).
Proof. unfold canManageCommentVideo, canManageChannelContent. plain_walk. Qed.
#[local] Hint Resolve plain_review plain_public plain_notify plain_manage : plain_ops.

Lemma plain_commentVideo s u r id : ops plain (commentVideo s u r id).
Proof. unfold commentVideo, GetOne. plain_walk. Qed.
Lemma plain_hold s u r v b : ops plain (hold_new s u r v b).
Proof. unfold hold_new, watchedWordHolds. plain_walk. Qed.
Lemma plain_delete_hooks f rows : ops plain (delete_hooks f rows).
Proof. induction rows as [|[id c] rows IH]; [exact I|]. cbn [delete_hooks]. plain_walk; exact IH. Qed.
Lemma plain_edit f id u b h : ops plain (edit f id u b h).
Proof. unfold edit. plain_walk. Qed.
Lemma plain_approve f id v : ops plain (Approve f id v).
Proof. unfold Approve. plain_walk. Qed.
Lemma plain_delete f id u m : ops plain (Delete f id u m).
Proof. unfold Delete. plain_walk. Qed.
#[local] Hint Resolve plain_commentVideo plain_hold plain_delete_hooks plain_edit plain_approve plain_delete : plain_ops.

(** ** Placing a comment *)

Lemma get_known w id c : threads_kept w -> (com_handler _ (GetComment id) w).1 = Ok c -> c.1 = id /\ drawn_id id (tables w) /\
  cmComments (tables w) !! id = Some c.2.
Proof.
  intros Hw. cbn. intros Hok. apply exec_ok in Hok as [Hok _]. cbn in Hok. destruct (cmComments (tables w) !! id) as [c0|] eqn:Hc; [|done]. injection Hok as <-.
  split_and!; [done| |done]. exact (ck_drawn _ _ _ (to_comment _ Hw _ _ Hc)).
Qed.

Lemma object_known w u c : threads_kept w -> (com_handler _ (GetCommentByRemoteObjectURL u) w).1 = Ok c -> drawn_id c.1 (tables w) /\
  cmComments (tables w) !! c.1 = Some c.2.
Proof.
  intros Hw. cbn. intros Hok. apply exec_ok in Hok as [Hok _]. cbn in Hok. destruct (by_object u (tables w)) as [[id c0]|] eqn:Hb; [|done]. injection Hok as <-.
  apply by_object_spec in Hb as [Hc _]. split; [|done]. exact (ck_drawn _ _ _ (to_comment _ Hw _ _ Hc)).
Qed.

(** A row that was read tells where the comment is. *)
Definition read_row (x : result dberr (uuid * Comment)) (w : cworld) : Prop :=
  match x with Ok (id, c) => placed id (coVideo c) w | Err _ => True end.

Lemma stable_read x : stable threads_kept onward (read_row x).
Proof. destruct x as [[id c]|]; [apply stable_placed|done]. Qed.

Lemma keeps_read K (e : comE (result dberr (uuid * Comment))) :
  plain _ e -> (forall w c, threads_kept w -> (com_handler _ e w).1 = Ok c -> drawn_id c.1 (tables w) /\ cmComments (tables w) !! c.1 = Some c.2) ->
  keeps K (call e) read_row.
Proof.
  intros Hp He. apply keeps_op; [apply stable_read|by intros w _ _; apply Hp|]. intros w Hw _.
  destruct (com_handler _ e w).1 as [[id c]|] eqn:Hx; [|done]. destruct (op_good _ e w Hw (Hp w)) as [Hw' Hm].
  destruct (He w (id, c) Hw Hx) as [Hd Hc]. apply (stable_placed id (coVideo c) w); [done..|]. split; [done|]. intros c'. cbn in Hc. rewrite Hc. by intros [= <-].
Qed.

Lemma keeps_get K id : keeps K (call (GetComment id)) (fun x w => match x with Ok (_, c) => placed id (coVideo c) w | Err _ => True end).
Proof.
  apply keeps_op; [intros [[i c]|]; [apply stable_placed|done]|by intros|]. intros w Hw _.
  destruct (com_handler _ (GetComment id) w).1 as [[i c]|] eqn:Hx; [|done]. destruct (op_good _ (GetComment id) w Hw I) as [Hw' Hm].
  destruct (get_known w id (i, c) Hw Hx) as (_ & Hd & Hc). apply (stable_placed id (coVideo c) w); [done..|]. split; [done|]. intros c'. rewrite Hc. by intros [= <-].
Qed.

(** A comment is created where its parent is. *)
Lemma keeps_CreateComment v u b parent held : keeps (fun w => forall p, parent = Some p -> placed p v w) (call (CreateComment v u b parent held)) (fun _ _ => True).
Proof. apply keeps_op; [done| |done]. intros w _ Hp. exact Hp. Qed.

Lemma keeps_creation f v u b parent held : keeps (fun _ => True) (create f v u b parent held) (fun _ _ => True).
Proof.
  unfold create. apply proves_bind with (Q := fun x w => match x with Ok (Some p) => placed p v w | _ => True end).
  - destruct parent as [p|]; [|by apply proves_ret]. eapply proves_bind; [apply (keeps_get _ p)|].
    intros [[p' c]|]; apply proves_ret; [|done]. intros w Hw Hp. repeat case_match; simplify_eq; try done. by bools; subst.
  - intros [parent'|e]; [|by apply proves_ret]. eapply proves_bind; [eapply proves_pre; [|apply keeps_CreateComment]|].
    + intros w Hw Hp p ->. exact Hp.
    + intros [[id c]|e]; [|by apply proves_ret]. apply keeps_any. plain_walk.
Qed.

(** A Note is stored where its target is. *)
Lemma keeps_CreateRemote v b parent a n url held :
  keeps (fun w => forall p, parent = Some p -> placed p v w) (call (CreateRemoteComment v b parent a n url held)) (fun _ _ => True).
Proof. apply keeps_op; [done| |done]. intros w _ Hp. exact Hp. Qed.

Section Programs.
Context (uuid_parse : string -> option uuid) (url_host : string -> option string) (UnescapeString : string -> string) (s : Server) (f : Fed).

Lemma keeps_resolve url : keeps (fun _ => True) (resolveNoteTarget uuid_parse f url) (fun x w => match x with Ok (Some (v, Some p)) => placed p v w | _ => True end).
Proof.
  unfold resolveNoteTarget. case_bool_decide; [by apply proves_ret|].
  eapply proves_bind; [apply keeps_any; unfold localVideoID; plain_walk|]. intros [[vid|]|e]; [| |by apply proves_ret].
  - eapply proves_bind; [apply keeps_any; unfold videoIsPubliclyVisible; plain_walk|]. intros [b|e]; apply proves_ret; [by destruct b|done].
  - eapply proves_bind with (Q := read_row).
    { destruct (localCommentID uuid_parse f url) as [cid|]; [eapply (keeps_read _ (GetComment cid))|eapply (keeps_read _ (GetCommentByRemoteObjectURL url))]; try by intros w.
      - intros w c Hw Hc. destruct (get_known w cid c Hw Hc) as (-> & ? & ?). done.
      - intros w c Hw Hc. by eapply object_known. }
    intros [[pid parent]|[]]; try by apply proves_ret. destruct (coHeld parent); [by apply proves_ret|].
    eapply proves_bind; [apply (keeps_plain (placed pid (coVideo parent))); [apply stable_placed|unfold videoIsPubliclyVisible; plain_walk]|].
    intros [[]|e]; by apply proves_ret.
Qed.

(** What a Note replies to stays where it is while the rest is looked up. *)
Definition target_placed (v : uuid) (parent : option uuid) (w : cworld) : Prop := forall p, parent = Some p -> placed p v w.

Lemma stable_target v parent : stable threads_kept onward (target_placed v parent).
Proof. intros w w' Hw Hw' Hm Hp p He. eapply stable_placed; [exact Hw|done|done|by apply Hp]. Qed.

Lemma keeps_create_note actor signer note : keeps (fun _ => True) (handleCreateNote uuid_parse url_host UnescapeString f actor signer note) (fun _ _ => True).
Proof.
  unfold handleCreateNote. destruct (negb _); [by apply proves_ret|]. destruct note as [n|]; [|by apply proves_ret].
  destruct (negb (bool_decide (nyType n = _))); [by apply proves_ret|]. destruct (_ || _); [by apply proves_ret|]. destruct (negb (bool_decide (signer ∈ _))); [by apply proves_ret|].
  eapply proves_bind; [apply keeps_any; plain_walk|]. intros [[]|e]; [by apply proves_ret| |by apply proves_ret].
  eapply proves_bind; [apply keeps_resolve|]. intros [[[v parent]|]|e]; try by apply proves_ret.
  apply (proves_pre _ _ _ _ _ (target_placed v parent)); [by intros w Hw Hp p ->|].
  eapply proves_bind; [apply (keeps_plain (target_placed v parent)); [apply stable_target|unfold videoOwnerBlocksRemoteActor, loadVideoAndChannel, remoteActorBlockedBy; plain_walk]|].
  intros [[]|e]; [by apply proves_ret| |by apply proves_ret]. cbv zeta. case_bool_decide; [by apply proves_ret|].
  eapply proves_bind; [apply (keeps_plain (target_placed v parent)); [apply stable_target|unfold videoCommentsPolicy; plain_walk]|].
  intros [policy|e]; [|by apply proves_ret]. destruct (_ || _); [by apply proves_ret|].
  eapply proves_bind; [apply (keeps_plain (target_placed v parent)); [apply stable_target|unfold must_hold, fed_watchedWordHolds; plain_walk]|]. intros held.
  eapply proves_bind; [apply (keeps_plain (target_placed v parent)); [apply stable_target|plain_walk]|]. intros [author|[]]; try by apply proves_ret.
  eapply proves_bind; [apply keeps_CreateRemote|]. intros [row|[]]; try by apply proves_ret. apply keeps_any. unfold note_stored. plain_walk.
Qed.

Lemma keeps_Pin id : keeps (fun _ => True) (Pin id) (fun _ _ => True).
Proof.
  unfold Pin. apply proves_bind with (Q := fun x w => match x with
    | Ok row => drawn_id id (tables w) /\ forall c, cmComments (tables w) !! id = Some c -> coVideo c = coVideo (mtComment row) /\ coParent c = coParent (mtComment row)
    | Err _ => True end).
  - apply keeps_op; [|by intros|].
    + intros [row|e]; [|done]. intros w w' Hw Hw' Hm [Hd Hp]. split; [by eapply moves_drawn|]. intros c' Hc'.
      destruct (moves_known _ _ _ _ Hw Hm Hd Hc') as (c & Hc & Hle). rewrite (cl_video _ _ Hle), (cl_parent _ _ Hle). by apply Hp.
    + intros w Hw _. destruct (com_handler _ (GetCommentWithMeta id) w).1 as [row|] eqn:Hx; [|done].
      assert (Hst : tables (com_handler _ (GetCommentWithMeta id) w).2 = tables w \/ tables (com_handler _ (GetCommentWithMeta id) w).2 = tick_cm (tables w)) by (apply (on_cm_store (q_GetCommentWithMeta id))).
      assert (Hc : exists c, cmComments (tables w) !! id = Some c /\ mtComment row = c).
      { cbn in Hx. apply exec_ok in Hx as [Hx _]. cbn in Hx. destruct (cmComments (tables w) !! id) as [c|]; [|done]. exists c. split; [done|].
        cbn in Hx. unfold meta_row in Hx. cbn in Hx. destruct (cmVideos (tables w) !! coVideo c); [|done]. by injection Hx as <-. }
      destruct Hc as (c & Hc & ->). pose proof (ck_drawn _ _ _ (to_comment _ Hw _ _ Hc)) as Hd.
      assert (Hsame : drawn_id id (tables w) /\ forall c0, cmComments (tables w) !! id = Some c0 -> coVideo c0 = coVideo c /\ coParent c0 = coParent c)
        by (split; [done|]; rewrite Hc; by intros c0 [= <-]).
      destruct Hst as [->| ->]; exact Hsame.
  - intros [row|e]; [|by apply proves_ret]. case_bool_decide as H1; [by apply proves_ret|]. case_bool_decide as H2; [by apply proves_ret|].
    destruct (coHeld _); [by apply proves_ret|]. apply eq_None_not_Some in H2.
    eapply proves_bind; [|by intros x; apply proves_ret]. apply (keeps_op _ _ (fun _ _ => True)); [done| |done].
    intros w Hw [Hd Hp] p [= <-]. split; [done|]. intros c Hc. rewrite <- H2. by apply Hp.
Qed.

(** Every request keeps the threads. *)
Lemma keeps_request rq : keeps (fun _ => True) (cperform uuid_parse url_host UnescapeString s f rq) (fun _ _ => True).
Proof.
  destruct rq; cbn [cperform]; unfold quiet; (apply proves_bind with (Q := fun _ _ => True); [|by intros x; apply proves_ret]);
    try (apply keeps_any; unfold handleListComments, ListByVideo, handleDeleteComment, handleUpdateComment, active_user, watchedWordHolds, IsPinned,
           handleApproveComment, handleListManagedComments, ListForManager, ListForAdmin, RemoveByAccount, handleUpdateNote, videoCommentsPolicy, must_hold,
           fed_watchedWordHolds, note_updated, handleDelete; by plain_walk).
  - unfold handleCreateComment. destruct (negb _); [by apply proves_ret|]. eapply proves_bind; [apply keeps_any; plain_walk|].
    intros [v|e]; [|by apply proves_ret]. case_bool_decide; [by apply proves_ret|]. destruct (valid_body body); [by apply proves_ret|].
    destruct (valid_parent _ parent); [|by apply proves_ret]. eapply proves_bind; [apply keeps_any; unfold active_user; plain_walk|].
    intros [u|]; [|by apply proves_ret]. eapply proves_bind; [apply keeps_any; plain_walk|]. intros held.
    eapply proves_bind; [apply keeps_creation|]. intros [created|e]; [|apply keeps_any; by plain_walk]. apply keeps_any. by plain_walk.
  - unfold commentCreatorAction, GetOne. eapply proves_bind; [apply keeps_any; plain_walk|]. intros [[i c]|e]; [|by apply proves_ret].
    eapply proves_bind; [apply keeps_any; plain_walk|]. intros [|]; [|by apply proves_ret]. cbn [negb].
    apply proves_bind with (Q := fun _ _ => True); [apply keeps_Pin|]. by intros x; apply proves_ret.
  - apply keeps_create_note.
Qed.

Lemma kept_steps rqs w ps w' :
  threads_kept w -> rtc (pool_step com_handler around) (map (cperform uuid_parse url_host UnescapeString s f) rqs, w) (ps, w') -> threads_kept w' /\ onward w w'.
Proof.
  intros Hw Hrun. destruct (peers_steps com_handler threads_kept around onward around_good _ _ Hrun) as [[Hk _] Hm]; [|done].
  split; [done|]. apply Forall_fmap, Forall_true. intros rq. apply proves_underway, keeps_request.
Qed.
End Programs.

(** ** What requests rely on *)

(** What a request has read: a comment, a video, that a user manages a channel. *)
Inductive fact := FComment (id : uuid) (c : Comment) | FVideo (id : uuid) (row : VideoRow) | FManager (channel user : uuid).

Definition learns (X : Type) (e : comE X) : X -> list fact :=
  match e in comE X return X -> list fact with
  | GetComment id => fun x => match x with Ok (_, c) => [FComment id c] | Err _ => [] end
  | GetVideoByID id => fun x => match x with Ok row => [FVideo id row] | Err _ => [] end
  | IsChannelManager channel user => fun x => match x with Ok true => [FManager channel user] | _ => [] end
  | _ => fun _ => []
  end.

Definition told (w : cworld) (f : fact) : Prop :=
  match f with
  | FComment id c => cmComments (tables w) !! id = Some c
  | FVideo id row => (q_GetVideoByID id (tables w)).1 = Ok row
  | FManager channel user => manages channel user (tables w) = true
  end.

Lemma learns_told X (e : comE X) w f : f ∈ learns X e (com_handler X e w).1 -> told w f.
Proof.
  destruct e; cbn [learns]; try by intros ?%not_elem_of_nil.
  - destruct (com_handler _ _ w).1 as [row|] eqn:Hx; [|by intros ?%not_elem_of_nil]. intros ->%list_elem_of_singleton. cbn in Hx. apply exec_ok in Hx as [Hx _]. exact Hx.
  - destruct (com_handler _ _ w).1 as [[]|] eqn:Hx; try by intros ?%not_elem_of_nil. intros ->%list_elem_of_singleton. cbn in Hx. apply exec_ok in Hx as [Hx _].
    by injection Hx.
  - destruct (com_handler _ _ w).1 as [[i c]|] eqn:Hx; [|by intros ?%not_elem_of_nil]. intros ->%list_elem_of_singleton. cbn in Hx. apply exec_ok in Hx as [Hx _].
    cbn in *. destruct (cmComments (tables w) !! id); [by injection Hx as _ <-|done].
Qed.

(** The user was seen to review the comments of the video: staff, the owner, or
    a manager of the channel. *)
Definition seen_reviewing (user : uuid) (role : string) (row : VideoRow) (known : list fact) : Prop :=
  isStaff role = true \/ vrOwner row = user \/ FManager (vdChannel (vrVideo row)) user ∈ known.

(** The comment was read with that text and that local author, not held, and its
    video was seen to be public. *)
Definition sendable (id : uuid) (body : string) (author : uuid) (known : list fact) : Prop :=
  exists c row, FComment id c ∈ known /\ coHeld c = false /\ coBody c = body /\ coUser c = Some author /\
    FVideo (coVideo c) row ∈ known /\ public_now (vrVideo row) = true.

Lemma sendable_grows id body author l l' : l ⊆ l' -> sendable id body author l -> sendable id body author l'.
Proof. intros Hl (c & row & Hc & Hh & Hb & Hu & Hv & Hp). exists c, row. split_and!; [by apply Hl|done..|by apply Hl|done]. Qed.

(** Approving takes an approval request by a reviewer of the comment's video;
    sending a Note takes a comment that may be sent. *)
Definition asks (rq : crequest) (X : Type) (e : comE X) (known : list fact) : Prop :=
  match e with
  | ApproveComment id v => exists user role video c row,
      rq = RApprove user role video id (Some v) /\ FComment id c ∈ known /\ FVideo (coVideo c) row ∈ known /\ seen_reviewing user role row known
  | EnqueueDelivery dl =>
      match dlActivity dl with
      | NoteActivity _ _ id _ body => sendable id body (dlUser dl) known
      | DeleteActivity _ _ => True
      end
  | _ => True
  end.

(** The operations that ask for nothing. *)
Definition free (X : Type) (e : comE X) : Prop := forall rq l, asks rq X e l.

Create HintDb free_ops.

Ltac free_walk :=
  repeat first
    [ solve [auto 1 with free_ops nocore]
    | apply ops_bind; [|intro]
    | apply ops_call; solve [intros ? ?; exact I]
    | progress intros
    | exact I
    | case_match
    | progress cbn [ops] ].

Lemma free_retract id v u : ops free (AnnounceDelete id v u).
Proof.
  assert (Hq : forall n l, ops free (enqueue_each u n (DeleteActivity n id) l)).
  { intros n l. induction l as [|i l IH]; [exact I|]. cbn [enqueue_each]. free_walk; exact IH. }
  unfold AnnounceDelete, fanOutAsAccount, videoAudience. free_walk; apply Hq.
Qed.
#[local] Hint Resolve free_retract : free_ops.

Lemma free_onDelete f id v u : ops free (onDelete f id v u).
Proof. unfold onDelete. free_walk. Qed.
Lemma free_review s u r v : ops free (canReviewComments s u r v).
Proof. unfold canReviewComments, canManageChannelContent. free_walk. Qed.
Lemma free_public s r v : ops free (publicVideo s r v).
Proof. unfold publicVideo. free_walk. Qed.
Lemma free_notify s a id o k : ops free (notifyCommentPublished s a id o k).
Proof. unfold notifyCommentPublished. free_walk. Qed.
Lemma free_manage s u r v : ops free (canManageCommentVideo s u r v).
Proof. unfold canManageCommentVideo, canManageChannelContent. free_walk. Qed.
#[local] Hint Resolve free_onDelete free_review free_public free_notify free_manage : free_ops.

Lemma free_commentVideo s u r id : ops free (commentVideo s u r id).
Proof. unfold commentVideo, GetOne. free_walk. Qed.
Lemma free_hold s u r v b : ops free (hold_new s u r v b).
Proof. unfold hold_new, watchedWordHolds. free_walk. Qed.
Lemma free_delete_hooks f rows : ops free (delete_hooks f rows).
Proof. induction rows as [|[id c] rows IH]; [exact I|]. cbn [delete_hooks]. free_walk; exact IH. Qed.
#[local] Hint Resolve free_commentVideo free_hold free_delete_hooks : free_ops.

Abbreviation knows rq := (informed learns asks rq).

Lemma knows_free {A} rq known (p : prog comE A) : ops free p -> knows rq known p (fun _ l => known ⊆ l).
Proof.
  intros Hp. apply informed_ops; [|done]. induction p as [a|X e k IH]; [done|]. destruct Hp as [He Hk]. split; [intros l; apply He|]. intros x. apply IH, Hk.
Qed.

Lemma knows_any {A} rq known (p : prog comE A) : ops free p -> knows rq known p (fun _ _ => True).
Proof. intros Hp. eapply informed_post; [|by apply knows_free]. done. Qed.

(** Run a part that asks for nothing, then go on. *)
Lemma knows_then {A B} rq known (p : prog comE A) (g : A -> prog comE B) :
  ops free p -> (forall a l, known ⊆ l -> knows rq l (g a) (fun _ _ => True)) -> knows rq known (p ≫= g) (fun _ _ => True).
Proof. intros Hp Hg. eapply informed_bind; [by apply knows_free|]. intros a l Hl _. by apply Hg. Qed.

(** What is sent is a retraction, or the Note of a comment that may be. *)
Definition may_send (a : activity) (author : uuid) (known : list fact) : Prop :=
  match a with NoteActivity _ _ id _ body => sendable id body author known | DeleteActivity _ _ => True end.

Lemma may_send_grows a author l l' : l ⊆ l' -> may_send a author l -> may_send a author l'.
Proof. destruct a; [apply sendable_grows|done]. Qed.

Lemma knows_enqueue rq known u n a inboxes : may_send a u known -> knows rq known (enqueue_each u n a inboxes) (fun _ _ => True).
Proof.
  revert known. induction inboxes as [|i inboxes IH]; intros known Ha; [done|]. cbn [enqueue_each]. case_bool_decide; [by apply IH|].
  eapply informed_bind; [apply (informed_call _ _ _ _ _ (fun _ l => known ⊆ l)); [exact Ha|done]|].
  intros [|e] l _ Hl; [|done]. apply IH. by eapply may_send_grows.
Qed.

Lemma knows_fanOut rq known ch u n a : may_send a u known -> knows rq known (fanOutAsAccount ch u n a) (fun _ _ => True).
Proof.
  intros Ha. unfold fanOutAsAccount. apply knows_then; [unfold videoAudience; by free_walk|]. intros [[|i l]|e] l1 H1; try done.
  apply knows_then; [by free_walk|]. intros [|e] l2 H2; [|done]. apply knows_enqueue. eapply may_send_grows; [|exact Ha]. by etransitivity.
Qed.

Lemma knows_load rq known v :
  knows rq known (loadVideoAndChannel v) (fun x l => known ⊆ l /\ match x with Ok (Some (row, _)) => FVideo v row ∈ l | _ => True end).
Proof.
  unfold loadVideoAndChannel. eapply informed_bind.
  - apply (informed_call _ _ _ _ _ (fun x l => known ⊆ l /\ match x with Ok row => FVideo v row ∈ l | Err _ => True end)); [done|].
    intros [row|]; cbn; [|done]. split; [intros y Hy; by right|left].
  - intros [row|[]] l _ [Hl Hrow]; try (by split). eapply informed_bind; [apply knows_free; by free_walk|].
    intros [ch|[]] l' _ Hl'; (split; [by etransitivity|]); try done. by apply Hl'.
Qed.

Lemma knows_federate rq known f t id : knows rq known (federateComment f t id) (fun _ _ => True).
Proof.
  unfold federateComment. eapply informed_bind.
  - apply (informed_call _ _ _ _ _ (fun x l => match x with Ok (_, c) => FComment id c ∈ l | Err _ => True end)); [done|].
    intros [[i c]|]; [|done]. cbn. left.
  - intros [[i c]|[]] l _ Hc; try done. destruct (coUser c) as [author|] eqn:Hu; [|done]. destruct (coHeld c) eqn:Hh; [done|].
    eapply informed_bind; [apply knows_load|]. intros [[[v ch]|]|e] l1 _ [H1 Hv]; try done. destruct (negb (chAP ch)); [done|].
    destruct (public_now (vrVideo v)) eqn:Hp; [|done]. cbn [negb].
    apply knows_then; [by free_walk|]. intros [username|[]] l2 H2; try done.
    apply knows_then; [unfold commentReplyTarget; by free_walk|]. intros [target|e] l3 H3; [|done]. apply knows_fanOut.
    exists c, v. split_and!; [by apply H3, H2, H1|done..|by apply H3, H2|done].
Qed.

Lemma knows_onCreate rq known f id : knows rq known (onCreate f id) (fun _ _ => True).
Proof.
  unfold onCreate, AnnounceComment. destruct f as [f|]; [|done]. apply knows_then; [by free_walk|]. intros _ l _.
  eapply informed_bind; [apply knows_federate|]. done.
Qed.

Lemma knows_onUpdate rq known f id : knows rq known (onUpdate f id) (fun _ _ => True).
Proof.
  unfold onUpdate, AnnounceUpdate. destruct f as [f|]; [|done]. apply knows_then; [by free_walk|]. intros _ l _.
  eapply informed_bind; [apply knows_federate|]. done.
Qed.

Lemma knows_create rq known f v u b parent held : knows rq known (create f v u b parent held) (fun _ _ => True).
Proof.
  unfold create. apply knows_then; [by free_walk|]. intros [parent'|e] l _; [|done]. apply knows_then; [by free_walk|]. intros [created|e] l' _; [|done].
  apply informed_bind with (Q := fun _ _ => True); [|done]. destruct held; [done|apply knows_onCreate].
Qed.

Lemma knows_edit rq known f id u b hold : knows rq known (edit f id u b hold) (fun _ _ => True).
Proof.
  unfold edit. apply knows_then; [by free_walk|]. intros [[i c]|e] l _; [|done]. destruct (negb _); [done|].
  apply knows_then; [by free_walk|]. intros [updated|e] l' _; [|done].
  apply informed_bind with (Q := fun _ _ => True); [|done]. destruct (negb _); [apply knows_onUpdate|]. apply knows_any. by free_walk.
Qed.

(** A reviewer is one who was seen to be. *)
Lemma knows_review rq known s u r id v : FVideo id v ∈ known ->
  knows rq known (canReviewComments s u r v) (fun b l => FVideo id v ∈ l /\ (b = true -> seen_reviewing u r v l)).
Proof.
  intros Hv. unfold canReviewComments, canManageChannelContent. destruct (isStaff r) eqn:Hs; [split; [done|]; by intros _; left|].
  case_bool_decide as Ho; [split; [done|]; by intros _; right; left|]. cbn [orb]. destruct (negb _); [by split|].
  split; [done|]. intros [[]|e]; cbn; [split; [by right|]; intros _; right; right; left|by split..].
Qed.

Lemma knows_approve rq known f id v : asks rq _ (ApproveComment id v) known -> knows rq known (Approve f id v) (fun _ _ => True).
Proof.
  intros Ha. unfold Approve. eapply informed_bind; [apply (informed_call _ _ _ _ _ (fun _ _ => True)); done|]. intros a l _ _.
  assert (Hrest : forall released : bool, knows rq l (r ← call (GetCommentWithMeta id);
      match r with
      | Err _ => mret (Err CErrNotFound)
      | Ok row =>
          if negb released && coHeld (mtComment row) then mret (Err CErrStale) else
          _ ← (if released && bool_decide (is_Some (coUser (mtComment row))) then onCreate f id else mret tt);
          mret (Ok (withAuthorFromMeta row, released))
      end) (fun _ _ => True)).
  { intros released. apply knows_then; [by free_walk|]. intros [row|e] l' _; [|done]. destruct (_ && _); [done|].
    apply informed_bind with (Q := fun _ _ => True); [|done]. destruct (_ && _); [apply knows_onCreate|done]. }
  destruct a as [x|[]]; try done; apply Hrest.
Qed.

Lemma knows_commentVideo rq known s u r id :
  knows rq known (commentVideo s u r id) (fun x l => match x with
    | Ok (Some (c, v, b)) => FComment id c ∈ l /\ FVideo (coVideo c) v ∈ l /\ (b = true -> seen_reviewing u r v l)
    | _ => True end).
Proof.
  unfold commentVideo, GetOne. eapply informed_bind.
  - eapply informed_bind; [apply (informed_call _ _ _ _ _ (fun x l => match x with Ok (_, c) => FComment id c ∈ l | Err _ => True end)); [done|]|].
    + intros [[i c]|]; [left|done].
    + intros [[i c]|] l _ Hc; apply (informed_ret _ _ _ _ _ (fun x l => match x with Ok (_, c) => FComment id c ∈ l | Err _ => True end)); done.
  - intros [[i c]|e] l _ Hc; [|done]. eapply informed_bind.
    + apply (informed_call _ _ _ _ _ (fun x l' => match x with Ok v => FComment id c ∈ l' /\ FVideo (coVideo c) v ∈ l' | Err _ => True end)); [done|].
      intros [v|]; [|done]. cbn. split; [by right|left].
    + intros [v|e] l' _; [|done]. intros [Hc' Hv']. eapply informed_bind; [by apply knows_review|]. intros b l'' Hl [Hv Hb]. split; [by apply Hl|done].
Qed.

Section Runs.
Context (uuid_parse : string -> option uuid) (url_host : string -> option string) (UnescapeString : string -> string) (s : Server) (f : Fed).
Abbreviation perform := (cperform uuid_parse url_host UnescapeString s f).

Lemma knows_request rq : knows rq [] (perform rq) (fun _ _ => True).
Proof.
  destruct rq; cbn [cperform]; unfold quiet; (apply informed_bind with (Q := fun _ _ => True); [|done]);
    try (apply knows_any; unfold handleListComments, ListByVideo, handleDeleteComment, Delete, commentCreatorAction, GetOne, Pin, Unpin, Heart, Unheart, applyHearted,
           handleListManagedComments, ListForManager, ListForAdmin, RemoveByAccount, handleCreateNote, resolveNoteTarget, localVideoID, videoIsPubliclyVisible,
           videoOwnerBlocksRemoteActor, loadVideoAndChannel, remoteActorBlockedBy, handleUpdateNote, videoCommentsPolicy, must_hold, fed_watchedWordHolds, note_stored,
           note_updated, handleDelete; by free_walk).
  - unfold handleCreateComment. destruct (negb _); [done|]. apply knows_then; [by free_walk|]. intros [v|e] l1 H1; [|done]. case_bool_decide; [done|].
    destruct (valid_body body); [done|]. destruct (valid_parent _ parent); [|done]. apply knows_then; [unfold active_user; by free_walk|]. intros [u|] l2 H2; [|done].
    apply knows_then; [by free_walk|]. intros held l3 H3. eapply informed_bind; [apply knows_create|]. intros [created|e] l4 _ _; [|apply knows_any; by free_walk].
    apply knows_any. by free_walk.
  - unfold handleUpdateComment. destruct (valid_body body); [done|]. apply knows_then; [unfold active_user; by free_walk|]. intros [u|] l2 H2; [|done].
    apply knows_then; [by free_walk|]. intros [known|e] l3 H3; [|done]. apply knows_then; [unfold watchedWordHolds; by free_walk|]. intros hold l4 H4.
    eapply informed_bind; [apply knows_edit|]. intros [updated|e] l5 _ _; [|apply knows_any; by free_walk]. apply knows_any. unfold IsPinned. by free_walk.
  - unfold handleApproveComment. eapply informed_bind; [apply knows_commentVideo|]. intros [[[[c v] reviewer]|]|e] l _; try done. intros (Hc & Hv & Hr).
    destruct (negb _); [done|]. destruct reviewer; [|done]. cbn [negb]. destruct version as [version|]; [|done].
    eapply informed_bind; [apply knows_approve; cbn; exists user, role, video, c, v; split_and!; [done..|by apply Hr]|].
    intros [[wa released]|e] l2 _ _; [|apply knows_any; by free_walk]. apply knows_any. by free_walk.
Qed.

Abbreviation run_from rqs w := (trace (pool_step com_handler around) (map perform rqs, w)).

(** What a thread of a run relies on held at an earlier moment of it. *)
Lemma run_informed rqs w moments c i p : run_from rqs w moments c -> c.1 !! i = Some p ->
  exists rq known, rq ∈ rqs /\ knows rq known p (fun _ _ => True) /\ forall x, x ∈ known -> exists m, m ∈ moments /\ told m.2 x.
Proof.
  intros Ht Hp. assert (Hlen : length c.1 = length rqs).
  { clear i p Hp. induction Ht as [|l c c' Ht IH Hs]; [cbn; by rewrite length_fmap|]. destruct Hs; cbn in *; [by rewrite length_insert|done]. }
  destruct (lookup_lt_is_Some_2 rqs i) as [rq Hrq]; [rewrite <- Hlen; by eapply lookup_lt_Some|].
  assert (Hstart : forall j t q, rqs !! j = Some t -> (map perform rqs, w).1 !! j = Some q -> knows t [] q (fun _ _ => True)).
  { intros j t q Hj. change ((map perform rqs, w).1) with (perform <$> rqs). rewrite list_lookup_fmap, Hj. intros [= <-]. apply knows_request. }
  destruct (informed_trace com_handler around learns asks told learns_told rqs _ _ _ Hstart Ht i rq p Hrq Hp) as (known & Hk & Hl).
  exists rq, known. split; [by eapply list_elem_of_lookup_2|done].
Qed.
End Runs.

(** ** What leaves, and what is released *)

Definition enqueued (X : Type) (e : comE X) : option Delivery := match e with EnqueueDelivery dl => Some dl | _ => None end.

Lemma queue_step X (e : comE X) w dl : dl ∈ cqueue (com_handler X e w).2 -> dl ∈ cqueue w \/ enqueued X e = Some dl.
Proof.
  destruct e; cbn [com_handler enqueued]; try (by left). unfold enqueue. destruct (head (faults (cdb w))) as [[]|]; cbn; try (by left).
  all: intros [->|?]%elem_of_cons; [by right|by left].
Qed.

Definition approves (X : Type) (e : comE X) : option (uuid * time) := match e with ApproveComment id v => Some (id, v) | _ => None end.

(** A statement leaves a held comment held, takes it away, or is its approval. *)
Lemma insert_keeps c d id c0 : cmComments d !! id = Some c0 -> cmComments (insert_comment c d).2 !! id = Some c0.
Proof.
  intros Hc. unfold insert_comment. match goal with |- context [if ?b then _ else _] => destruct b; [done|] end.
  destruct (bool_decide (is_Some (cmComments d !! cmGen d (cmDrawn d)))) eqn:Hb; [done|]. bools. cbn. rewrite lookup_insert_ne; [done|]. intros <-. by rewrite Hc in Hb; destruct Hb.
Qed.

Lemma cascade_keeps doomed d id c' : cmComments (cascade doomed d) !! id = Some c' -> cmComments d !! id = Some c'.
Proof. cbn. by intros [? _]%map_lookup_filter_Some. Qed.

Lemma revised_held now b h c : coHeld c = true -> coHeld (revised now b h c) = true.
Proof. cbn. by intros ->. Qed.

Lemma held_step X (e : comE X) w id c c' :
  cmComments (tables w) !! id = Some c -> coHeld c = true -> cmComments (tables (com_handler X e w).2) !! id = Some c' ->
  coHeld c' = true \/ approves X e = Some (id, coUpdated c) /\ c' = with_flags (coHearted c) false c.
Proof.
  intros Hc Hh.
  assert (Hsame : forall A (q : CDB -> result dberr A * CDB),
    (forall c1, cmComments (q (tables w)).2 !! id = Some c1 -> coHeld c1 = true \/ approves X e = Some (id, coUpdated c) /\ c1 = with_flags (coHearted c) false c) ->
    cmComments (tables (on_cm q w).2) !! id = Some c' -> coHeld c' = true \/ approves X e = Some (id, coUpdated c) /\ c' = with_flags (coHearted c) false c).
  { intros A q Hq. destruct (on_cm_store q w) as [->| ->]; [rewrite Hc; intros [= <-]; by left|apply Hq]. }
  assert (Hcasc : forall doomed c1, cmComments (cascade doomed (tables w)) !! id = Some c1 -> coHeld c1 = true) by (intros doomed c1 H1%cascade_keeps; congruence).
  assert (Hset : forall j x (P : Prop), (j = id -> coHeld x = true \/ P) -> forall c1, <[j := x]> (cmComments (tables w)) !! id = Some c1 ->
    coHeld c1 = true \/ j = id /\ c1 = x /\ P).
  { intros j x P Hx c1 [[<- <-]|[_ H1]]%lookup_insert_Some; [|left; congruence]. destruct (Hx eq_refl); [by left|by right]. }
  destruct e; cbn [com_handler]; try (apply Hsame; intros c1; cbn; rewrite Hc; intros [= <-]; by left); try (cbn; rewrite Hc; intros [= <-]; by left).
  - apply Hsame. intros c1. unfold q_CreateComment. erewrite insert_keeps by done. intros [= <-]. by left.
  - apply Hsame. intros c1. unfold q_CreateRemoteComment. destruct (by_object url (tables w)) as [[j cj]|] eqn:Hb.
    + apply by_object_spec in Hb as [Hj _]. case_bool_decide; cbn; [|rewrite Hc; intros [= <-]; by left].
      intros H1. eapply (Hset j _ False) in H1 as [?|(_ & _ & [])]; [by left|]. intros ->. left. apply revised_held. congruence.
    + erewrite insert_keeps by done. intros [= <-]. by left.
  - apply Hsame. intros c1. unfold q_UpdateComment. destruct (cmComments (tables w) !! id0) as [cj|] eqn:Hj; cbn; [|rewrite Hc; intros [= <-]; by left].
    intros H1. eapply (Hset id0 _ False) in H1 as [?|(_ & _ & [])]; [by left|]. intros ->. left. apply revised_held. congruence.
  - apply Hsame. intros c1. unfold q_SetCommentHearted. destruct (cmComments (tables w) !! id0) as [cj|] eqn:Hj; cbn; [|rewrite Hc; intros [= <-]; by left].
    intros H1. eapply (Hset id0 _ False) in H1 as [?|(_ & _ & [])]; [by left|]. intros ->. left. cbn. congruence.
  - apply Hsame. intros c1. unfold q_ApproveComment. destruct (cmComments (tables w) !! id0) as [cj|] eqn:Hj; cbn; [|rewrite Hc; intros [= <-]; by left].
    destruct (coHeld cj && (coUpdated cj =? version)) eqn:Hv; cbn; [|rewrite Hc; intros [= <-]; by left]. bools.
    intros H1. eapply (Hset id0 _ True) in H1 as [?|(-> & -> & _)]; [by left| |by intros _; right]. right. split; congruence.
  - apply Hsame. intros c1. unfold q_SetVideoPinnedComment. repeat case_match; cbn; rewrite Hc; intros [= <-]; by left.
  - apply Hsame. intros c1 H1. left. exact (Hcasc _ _ H1).
  - apply Hsame. intros c1 H1. left. exact (Hcasc _ _ H1).
  - apply Hsame. intros c1. cbn. rewrite lookup_fmap, Hc. cbn. intros [= <-]. left. by case_match.
  - apply Hsame. intros c1 H1. left. exact (Hcasc _ _ H1).
  - assert (Ht : tables (enqueue dl w).2 = tables w) by (unfold enqueue, exec; destruct (faults (cdb w)) as [|[] fs]; done). rewrite Ht, Hc. intros [= <-]. by left.
Qed.

Section Reviews.
Context (uuid_parse : string -> option uuid) (url_host : string -> option string) (UnescapeString : string -> string) (s : Server) (f : Fed).
Abbreviation perform := (cperform uuid_parse url_host UnescapeString s f).
Abbreviation run_from rqs w := (trace (pool_step com_handler around) (map perform rqs, w)).

Lemma run_peers rqs w c : threads_kept w -> rtc (pool_step com_handler around) (map perform rqs, w) c -> peers com_handler threads_kept onward c.
Proof.
  intros Hw Hrun. apply (peers_steps com_handler threads_kept around onward around_good _ _ Hrun). split; [done|].
  apply Forall_fmap, Forall_true. intros rq. apply proves_underway, keeps_request.
Qed.

(** Along a run the tables stay well formed and only move on. *)
Lemma run_moves rqs w moments c i j a b : threads_kept w -> run_from rqs w moments c ->
  (moments ++ [c]) !! i = Some a -> (moments ++ [c]) !! j = Some b -> (i <= j)%nat -> threads_kept a.2 /\ onward a.2 b.2.
Proof.
  intros Hw Ht Ha Hb Hij. pose proof (run_peers _ _ _ Hw (trace_start_order _ _ _ _ _ _ Ht Ha)) as Hp. split; [apply Hp|].
  apply lookup_app_Some in Ha as [Ha|[Hlen Ha]].
  - apply (peers_steps com_handler threads_kept around onward around_good a b); [by eapply trace_order|done].
  - destruct (i - length moments)%nat eqn:Hi; [|done]. injection Ha as <-. apply lookup_lt_Some in Hb as Hlt. rewrite length_app in Hlt. cbn in Hlt.
    assert (j = length moments) as -> by lia. rewrite lookup_app_r, Nat.sub_diag in Hb by lia. injection Hb as <-. reflexivity.
Qed.

(** The user was a reviewer of the video's comments: staff, or seen as its owner
    or as a manager of its channel. *)
Definition reviewer_in {A} (user : uuid) (role : string) (video : uuid) (moments : list (A * cworld)) : Prop :=
  isStaff role = true \/ exists m row, m ∈ moments /\ (q_GetVideoByID video (tables m.2)).1 = Ok row /\
    (vrOwner row = user \/ exists m', m' ∈ moments /\ manages (vdChannel (vrVideo row)) user (tables m'.2) = true).

Lemma reviewer_grows {A} user role video (l l' : list (A * cworld)) : l ⊆ l' -> reviewer_in user role video l -> reviewer_in user role video l'.
Proof.
  intros Hl [Hs|(m & row & Hm & Hq & Ho)]; [by left|]. right. exists m, row. split_and!; [by apply Hl|done|].
  destruct Ho as [?|(m' & Hm' & ?)]; [by left|right]. exists m'. split; [by apply Hl|done].
Qed.

(** The release of a comment: a moment at which it was held, an approval of just
    that version by a reviewer, and the next moment. *)
Definition released_at (rqs : list crequest) (id video : uuid) (moments : list (list (prog comE unit) * cworld)) (c : list (prog comE unit) * cworld) : Prop :=
  exists user role vid i m m' x,
    RApprove user role vid id (Some (coUpdated x)) ∈ rqs /\ moments !! i = Some m /\ (moments ++ [c]) !! S i = Some m' /\
    cmComments (tables m.2) !! id = Some x /\ coHeld x = true /\ cmComments (tables m'.2) !! id = Some (with_flags (coHearted x) false x) /\
    reviewer_in user role video moments.

Lemma released_next rqs id video moments c c' : released_at rqs id video moments c -> released_at rqs id video (moments ++ [c]) c'.
Proof.
  intros (user & role & vid & i & m & m' & x & Hin & Hi & Hi' & Hm & Hh & Hm' & Hr). exists user, role, vid, i, m, m', x. split_and!; try done.
  - by apply lookup_app_l_Some.
  - by apply lookup_app_l_Some.
  - eapply reviewer_grows; [|exact Hr]. intros y Hy. apply elem_of_app. by left.
Qed.

(** A comment held at the start of a run is held, gone, or was released. *)
Lemma held_or_released rqs w moments c id c0 : threads_kept w -> run_from rqs w moments c -> cmComments (tables w) !! id = Some c0 -> coHeld c0 = true ->
  drawn_id id (tables c.2) /\ (released_at rqs id (coVideo c0) moments c \/ cmComments (tables c.2) !! id = None \/
    exists x, cmComments (tables c.2) !! id = Some x /\ coHeld x = true /\ coVideo x = coVideo c0).
Proof.
  intros Hw Ht Hc0 Hh0. pose proof (ck_drawn _ _ _ (to_comment _ Hw _ _ Hc0)) as Hd0. induction Ht as [|l c c' Ht IH Hs].
  - split; [done|]. right. right. by exists c0.
  - destruct IH as [Hd IH]. destruct (peers_step com_handler threads_kept around onward around_good c c' Hs (run_peers _ _ _ Hw (trace_rtc _ _ _ _ Ht))) as [_ Hm].
    pose proof (run_peers _ _ _ Hw (trace_rtc _ _ _ _ Ht)) as [Hkc _]. split; [by eapply moves_drawn|].
    destruct IH as [Hrel|[Hgone|(x & Hx & Hh & Hv)]]; [left; by apply released_next|..].
    + right. left. destruct (cmComments (tables c'.2) !! id) as [x|] eqn:Hx; [|done]. destruct (moves_known _ _ _ _ Hkc Hm Hd Hx) as (y & Hy & _). congruence.
    + destruct (cmComments (tables c'.2) !! id) as [x'|] eqn:Hx'; [|by right; left]. destruct (moves_known _ _ _ _ Hkc Hm Hd Hx') as (y & Hy & Hle).
      rewrite Hx in Hy. injection Hy as <-.
      destruct (coHeld x') eqn:Hh'; [right; right; exists x'; split_and!; [done..|by rewrite (cl_video _ _ Hle)]|]. left.
      destruct Hs as [i X e k ps w1 Hi|ps w1 w2 He].
      * cbn in Hx, Hx'. destruct (held_step X e w1 id x x' Hx Hh Hx') as [?|[Happ ->]]; [congruence|].
        destruct (run_informed uuid_parse url_host UnescapeString s f rqs w l (ps, w1) i (Vis e k) Ht Hi) as (rq & known & Hin & [Hasks _] & Hfacts).
        destruct e; try done. cbn in Happ. injection Happ as -> ->. cbn in Hasks. destruct Hasks as (user & role & vid & c1 & row & -> & Hc1 & Hrow & Hrev).
        exists user, role, vid, (length l), (ps, w1), (<[i := k (com_handler _ (ApproveComment id (coUpdated x)) w1).1]> ps, (com_handler _ (ApproveComment id (coUpdated x)) w1).2), x.
        split_and!; [done|by rewrite lookup_app_r, Nat.sub_diag by lia|by rewrite lookup_app_r, length_app, Nat.add_comm, Nat.sub_diag by (rewrite length_app; cbn; lia)|done..|].
        destruct (Hfacts _ Hc1) as (m1 & Hm1 & Ht1), (Hfacts _ Hrow) as (m2 & Hm2 & Ht2). cbn in Ht1, Ht2.
        assert (Hv1 : coVideo c1 = coVideo c0).
        { apply list_elem_of_lookup in Hm1 as [j Hj]. assert (Hj' : (l ++ [(ps, w1)]) !! j = Some m1) by (by apply lookup_app_l_Some).
          pose proof (trace_start_order _ _ _ _ _ _ Ht Hj') as Hrun.
          destruct (peers_steps com_handler threads_kept around onward around_good _ _ Hrun (run_peers rqs w _ Hw (rtc_refl _ _))) as [_ Hm0].
          destruct (moves_known _ _ _ _ Hw Hm0 Hd0 Ht1) as (y & Hy & Hle0). cbn in Hy. rewrite Hc0 in Hy. injection Hy as <-. apply (cl_video _ _ Hle0). }
        rewrite Hv1 in Ht2. assert (Hsub : forall y, y ∈ l -> y ∈ l ++ [(ps, w1)]) by (intros y Hy; apply elem_of_app; by left).
        destruct Hrev as [?|[?|Hman]]; [by left|right..].
        -- exists m2, row. split_and!; [by apply Hsub|done|by left].
        -- destruct (Hfacts _ Hman) as (m3 & Hm3 & Ht3). exists m2, row. split_and!; [by apply Hsub|done|]. right. exists m3. split; [by apply Hsub|done].
      * destruct He as (d' & -> & Hc' & _). cbn in Hx, Hx'. rewrite Hc' in Hx'. congruence.
Qed.
End Reviews.

(** ** Theorems *)

Section Claims.
Context (uuid_parse : string -> option uuid) (url_host : string -> option string) (UnescapeString : string -> string) (s : Server) (f : Fed).
Abbreviation perform := (cperform uuid_parse url_host UnescapeString s f).

(** C31. However requests, activities of other servers and account deletions
    interleave, and whatever store calls fail: every comment has one author, is
    on a video that exists and replies to a comment of the same video; the
    pinned comment of a video is a top-level comment of it; a Note of another
    server is stored once; no comment changes its video, author or parent, and
    its text changes only with its version. *)
Theorem threads_well_formed (rqs : list crequest) (w w' : cworld) (ps : list (prog comE unit)) :
  threads_ok (tables w) ->
  rtc (pool_step com_handler around) (map perform rqs, w) (ps, w') ->
  threads_ok (tables w') /\ moves (tables w) (tables w').
Proof. apply kept_steps. Qed.

(** C29. In any such run, a Note put in the delivery queue carries the text that
    a comment had at an earlier moment of the run at which it was not held for
    review, under that comment's local author, for a video that was public,
    published and not blocked at a moment of the run. *)
Theorem no_held_text_leaves (rqs : list crequest) (w w' : cworld) (ps : list (prog comE unit)) moments (dl : Delivery)
    (type username : string) (id : uuid) (inReplyTo body : string) :
  trace (pool_step com_handler around) (map perform rqs, w) moments (ps, w') ->
  dl ∈ cqueue w' -> dlActivity dl = NoteActivity type username id inReplyTo body ->
  dl ∈ cqueue w \/
  exists c, (exists m, m ∈ moments /\ cmComments (tables m.2) !! id = Some c) /\
    coHeld c = false /\ coBody c = body /\ coUser c = Some (dlUser dl) /\
    exists m row, m ∈ moments /\ (q_GetVideoByID (coVideo c) (tables m.2)).1 = Ok row /\ public_now (vrVideo row) = true.
Proof.
  intros Ht Hin Ha. change w' with ((ps, w').2) in Hin. revert Hin. generalize (ps, w') Ht. clear ps w' Ht.
  intros c Ht. induction Ht as [|l c c' Ht IH Hs]; intros Hin; [by left|].
  assert (Hold : dl ∈ cqueue c.2 -> dl ∈ cqueue w \/ exists x, (exists m, m ∈ l ++ [c] /\ cmComments (tables m.2) !! id = Some x) /\
    coHeld x = false /\ coBody x = body /\ coUser x = Some (dlUser dl) /\
    exists m row, m ∈ l ++ [c] /\ (q_GetVideoByID (coVideo x) (tables m.2)).1 = Ok row /\ public_now (vrVideo row) = true).
  { intros [?|(x & (m & Hm & Hx) & Hh & Hb & Hu & (m' & row & Hm' & Hrow))]%IH; [by left|right]. exists x. split_and!; [|done..|].
    - exists m. split; [apply elem_of_app; by left|done].
    - exists m', row. split; [apply elem_of_app; by left|done]. }
  destruct Hs as [i X e k ps w1 Hi|ps w1 w2 He]; cbn in *.
  - destruct (queue_step X e w1 dl Hin) as [?|He]; [by apply Hold|]. right.
    destruct (run_informed uuid_parse url_host UnescapeString s f rqs w l (ps, w1) i (Vis e k) Ht Hi) as (rq & known & _ & [Hasks _] & Hfacts).
    destruct e; try done. injection He as ->. cbn in Hasks. rewrite Ha in Hasks. destruct Hasks as (x & row & Hx & Hh & Hb & Hu & Hv & Hp).
    destruct (Hfacts _ Hx) as (m & Hm & Hmx), (Hfacts _ Hv) as (m' & Hm' & Hmv). cbn in Hmx, Hmv. exists x. split_and!; [|done..|].
    + exists m. split; [apply elem_of_app; by left|done].
    + exists m', row. split_and!; [apply elem_of_app; by left|done..].
  - apply Hold. by destruct He as (d' & -> & _).
Qed.

(** C30. A comment held for review that is no longer held at the end of a run
    was approved: at some moment it was held and at the next it was not, by an
    approval request for just the version it had, of a user who is staff or who
    at a moment of the run owned its video or managed the video's channel; and
    at every moment of the run that version had the approved text. *)
Theorem held_until_reviewed (rqs : list crequest) (w : cworld) moments c (id : uuid) (c0 c1 : Comment) :
  threads_ok (tables w) ->
  trace (pool_step com_handler around) (map perform rqs, w) moments c ->
  cmComments (tables w) !! id = Some c0 -> coHeld c0 = true ->
  cmComments (tables c.2) !! id = Some c1 -> coHeld c1 = false ->
  exists user role vid i m m' x,
    RApprove user role vid id (Some (coUpdated x)) ∈ rqs /\ moments !! i = Some m /\ (moments ++ [c]) !! S i = Some m' /\
    cmComments (tables m.2) !! id = Some x /\ coHeld x = true /\ cmComments (tables m'.2) !! id = Some (with_flags (coHearted x) false x) /\
    reviewer_in user role (coVideo c0) moments /\
    forall n y, n ∈ moments ++ [c] -> cmComments (tables n.2) !! id = Some y -> coUpdated y = coUpdated x -> coBody y = coBody x.
Proof.
  intros Hw Ht Hc0 Hh0 Hc1 Hh1.
  destruct (held_or_released _ _ _ _ _ _ _ _ _ _ _ Hw Ht Hc0 Hh0) as [_ [Hrel|[Hgone|(x & Hx & Hh & _)]]]; [|congruence..].
  destruct Hrel as (user & role & vid & i & m & m' & x & Hin & Hi & Hi' & Hm & Hh & Hm' & Hr). exists user, role, vid, i, m, m', x. split_and!; try done.
  intros n y [j Hj]%list_elem_of_lookup Hy Hv. assert (Hmi : (moments ++ [c]) !! i = Some m) by (by apply lookup_app_l_Some).
  destruct (decide (i <= j)%nat).
  - destruct (run_moves _ _ _ _ _ _ _ _ _ _ _ _ _ Hw Ht Hmi Hj) as [Hk Ho]; [done|].
    destruct (moves_known _ _ _ _ Hk Ho (ck_drawn _ _ _ (to_comment _ Hk _ _ Hm)) Hy) as (x' & Hx' & Hle). rewrite Hm in Hx'. injection Hx' as <-.
    symmetry. by apply (cl_body _ _ Hle).
  - destruct (run_moves _ _ _ _ _ _ _ _ _ _ _ _ _ Hw Ht Hj Hmi) as [Hk Ho]; [lia|].
    destruct (moves_known _ _ _ _ Hk Ho (ck_drawn _ _ _ (to_comment _ Hk _ _ Hy)) Hm) as (y' & Hy' & Hle). rewrite Hy in Hy'. injection Hy' as <-.
    by apply (cl_body _ _ Hle).
Qed.
End Claims.

(** ** A run *)

(** A video whose comments need approval, a comment of bob's that waits for it,
    and a server that follows the channel. *)
Module Thread.
Definition fed : Fed := mkFed "https://here" true true.
Definition server : Server := mkServer (Some fed) false true true true true.
Definition video (pin : option uuid) : CVideo := mkCVideo "ch" "Launch" "public" "published" "requires_approval" false pin.
Definition waiting : Comment := mkComment "v" (Some "bob"%string) "first" None 0 0 None None None None false true.

Definition db : CDB :=
  mkCDB {[ "alice"%string := mkCUser "alice" "Alice" true; "bob"%string := mkCUser "bob" "Bob" true ]}
    {[ "https://peer/u/eve"%string := mkActor "eve" "peer" ]} {[ "ch"%string := mkChannel "alice" true ]} ∅ {[ "v"%string := video None ]} ∅
    {[ "0"%string := waiting ]} ∅ ∅ ∅ ∅ ∅ ∅ {[ "ch"%string := ["https://peer/inbox"%string] ]} Z.of_nat 1 pretty 1.

Definition world (fs : list fault) : cworld := mkCW (Faulty db fs) [] [] 0 (fun _ => Some false) (fun _ => None) (fun _ => Some []) (fun _ => Ok false).

Definition host (url : string) : option string := if HasPrefix url "https://peer/" then Some "peer"%string else None.
Definition perform : crequest -> prog comE unit := cperform Some host (fun s => s) server fed.

Lemma threads : threads_ok db.
Proof.
  split; cbn.
  - intros i j He. by apply (inj pretty) in He.
  - intros i j Hij. lia.
  - intros id c [<- <-]%lookup_singleton_Some. split; cbn; try done.
    + exists 0%nat. by split; [cbn; lia|].
    + exists 0%nat. by split; [lia|].
  - intros i j c c' u [<- <-]%lookup_singleton_Some [<- <-]%lookup_singleton_Some. done.
  - intros v x p [<- <-]%lookup_singleton_Some. done.
Qed.

(** Bob edits, alice approves the edited text, replies to it and pins it; a Note
    of another server replies to it. *)
Definition requests : list crequest :=
  [RUpdate "bob" "user" "0" "second"; RApprove "alice" "user" "v" "0" (Some 6); RCreate "alice" "user" "v" "thanks" (Some "0"%string);
   RPin "alice" "user" "0";
   RInCreate "https://peer/u/eve" "https://peer/u/eve" (Some (mkApNote "https://peer/n/1" "Note" "<p>hi</p>" "https://here/comments/0" ["https://peer/u/eve"%string]))].
Definition turns : list nat := repeat 0%nat 12 ++ repeat 1%nat 24 ++ concat (repeat [2; 3; 4]%nat 24).
Definition last (fs : list fault) := schedule com_handler turns (map perform requests) (world fs).
Definition moments (fs : list fault) := replay com_handler turns (map perform requests) (world fs).

Lemma runs fs : trace (pool_step com_handler around) (map (cperform Some host (fun s => s) server fed) requests, world fs) (moments fs) (last fs).
Proof. apply replay_trace. Qed.
End Thread.

Lemma threads_well_formed_witness :
  threads_ok (tables (Thread.last [Fine; FailBefore; Fine; FailAfter]).2) /\
  vdPinned <$> cmVideos (tables (Thread.last []).2) !! "v"%string = Some (Some "0"%string).
Proof.
  split; [|vm_compute; reflexivity].
  apply (threads_well_formed Some Thread.host (fun s => s) Thread.server Thread.fed Thread.requests (Thread.world [Fine; FailBefore; Fine; FailAfter])
    (Thread.last [Fine; FailBefore; Fine; FailAfter]).2 (Thread.last [Fine; FailBefore; Fine; FailAfter]).1); [exact Thread.threads|].
  rewrite <- surjective_pairing. eapply trace_rtc, Thread.runs.
Defined.

(** The Note of bob's comment, in the queue once alice has approved it. *)
Lemma no_held_text_leaves_witness :
  let moments := Thread.moments [] in
  exists c, (exists m, m ∈ moments /\ cmComments (tables m.2) !! "0"%string = Some c) /\ coHeld c = false /\ coBody c = "second"%string.
Proof.
  destruct (no_held_text_leaves Some Thread.host (fun s => s) Thread.server Thread.fed Thread.requests (Thread.world []) (Thread.last []).2 (Thread.last []).1
    (Thread.moments [])
    (mkDelivery "https://peer/inbox" "bob" "bob" (NoteActivity "Create" "bob" "0" "https://here/videos/v" "second"))
    "Create" "bob" "0" "https://here/videos/v" "second") as [Hin|(c & Hm & Hh & Hb & _)].
  - rewrite <- surjective_pairing. apply Thread.runs.
  - assert (Hq : (cqueue (Thread.last []).2) !! 1%nat = Some (mkDelivery "https://peer/inbox" "bob" "bob" (NoteActivity "Create" "bob" "0" "https://here/videos/v" "second")))
      by (vm_compute; reflexivity). by eapply list_elem_of_lookup_2.
  - reflexivity.
  - by apply not_elem_of_nil in Hin.
  - exists c. split_and!; [exact Hm|exact Hh|exact Hb].
Defined.

Lemma held_until_reviewed_witness :
  exists user role vid x, RApprove user role vid "0" (Some (coUpdated x)) ∈ Thread.requests /\ coHeld x = true.
Proof.
  destruct (cmComments (tables (Thread.last []).2) !! "0"%string) as [c1|] eqn:Hc1; [|vm_compute in Hc1; discriminate Hc1].
  destruct (held_until_reviewed Some Thread.host (fun s => s) Thread.server Thread.fed Thread.requests (Thread.world [])
    (Thread.moments []) (Thread.last []) "0" Thread.waiting c1)
    as (user & role & vid & i & m & m' & x & Hin & _ & _ & _ & Hh & _).
  - exact Thread.threads.
  - apply Thread.runs.
  - reflexivity.
  - reflexivity.
  - exact Hc1.
  - vm_compute in Hc1. injection Hc1 as <-. reflexivity.
  - exists user, role, vid, x. split; [exact Hin|exact Hh].
Defined.

(** An edit that reads the comment before alice approves it and writes after: the
    comment is held again, and the Note announced in between is not retracted. *)
Definition edit_against_approval :=
  schedule com_handler (repeat 0%nat 5 ++ repeat 1%nat 24 ++ repeat 0%nat 12)
    (map Thread.perform [RUpdate "bob" "user" "0" "second"; RApprove "alice" "user" "v" "0" (Some 0)]) (Thread.world []).

Lemma edit_reholds_without_retraction :
  (fun c => (coHeld c, coBody c)) <$> cmComments (tables edit_against_approval.2) !! "0"%string = Some (true, "second"%string) /\
  map dlActivity (cqueue edit_against_approval.2) = [NoteActivity "Create" "bob" "0" "https://here/videos/v" "first"] /\
  chooks edit_against_approval.2 = [(OnCreate, "0"%string)] /\ Forall (fun p => p = Ret tt) edit_against_approval.1.
Proof. split_and!; [vm_compute; reflexivity..|]. vm_compute. repeat constructor. Qed.

(** A deletion that reads the comment before alice approves it and deletes it
    after: the Note stays announced. *)
Definition delete_against_approval :=
  schedule com_handler (repeat 0%nat 4 ++ repeat 1%nat 24 ++ repeat 0%nat 12)
    (map Thread.perform [RDelete "bob" "user" "0"; RApprove "alice" "user" "v" "0" (Some 0)]) (Thread.world []).

Lemma delete_without_retraction :
  cmComments (tables delete_against_approval.2) !! "0"%string = None /\
  map dlActivity (cqueue delete_against_approval.2) = [NoteActivity "Create" "bob" "0" "https://here/videos/v" "first"] /\
  chooks delete_against_approval.2 = [(OnCreate, "0"%string)] /\ Forall (fun p => p = Ret tt) delete_against_approval.1.
Proof. split_and!; [vm_compute; reflexivity..|]. vm_compute. repeat constructor. Qed.

(** Removing an account's comments sends a retraction for one that was held and
    never announced; deleting the comment does not. *)
Lemma removal_retracts_held :
  map dlActivity (cqueue (run com_handler (Thread.perform (RRemove "bob")) (Thread.world [])).2) = [DeleteActivity "bob" "0"] /\
  cqueue (run com_handler (Thread.perform (RDelete "bob" "user" "0")) (Thread.world [])).2 = [].
Proof. split; vm_compute; reflexivity. Qed.
